(* ===== verification/_CoqProject ===== *)
-Q . S2P
Prelude.v
SegmentedString.v
CharSource.v
SegmentedStringSpec.v
SegmentedStringTheorems.v
HTMLToken.v
HTMLEntitySearch.v
HTMLEntityParser.v
EntityTheorems.v
InputStreamPreprocessor.v
HTMLInputStream.v
BackgroundHTMLInputStream.v
HTMLTokenizer.v
TokenizerRefinement.v
TokenizerInvariant.v
TokenizerSafety.v
TokenizerTheorems.v
TokenizerMachine.v
TokenizerChunks.v
TextCodec.v
TextCodecUTF16.v
TextCodecLatin1.v
TextCodecUTF8.v
TextCodecUTF8Theorems.v
Geometry.v
Region.v
RegionSpec.v
RegionShapes.v
RegionCompare.v
RegionTheorems.v
AtomicHTMLToken.v
HTMLStackItem.v
HTMLFormattingElementList.v
FormattingListTheorems.v
HTMLElementStack.v
ElementStackTheorems.v
ElementStackQueries.v
Compare.v
IDBCoding.v
IDBCodingTheorems.v
IDBKey.v
IDBKeyTheorems.v
IDBUserKeyTheorems.v
IDBLevelDBCoding.v
IDBPrefixTheorems.v
IDBKeyOrder.v
IDBKeyOrderTheorems.v
IDBStoreTheorems.v
IDBKeyPath.v
IDBKeyPathTheorems.v
Digits.v
Decimal.v
DecimalArithmetic.v
DecimalValue.v
DecimalSum.v
DecimalProduct.v
DecimalRound.v
DecimalScan.v
DecimalText.v
DateMath.v
DateComponents.v
DateTheorems.v
DateEpochTheorems.v
DateProperties.v
KURL.v
KURLParts.v
KURLParse.v
KURLProperties.v
KURLEscape.v
KURLMembers.v
KURLMemberTheorems.v
KURLResolve.v
KURLResolveTheorems.v
RedBlackTree.v
RedBlackTreeShape.v
RedBlackTreeInsert.v
RedBlackTreeRemove.v
RedBlackTreeTheorems.v
WebSocketFrame.v
