(* ===== verification/Prelude.v ===== *)
(** * QtWebKit: a verification library (root file)

    This library models, and proves correct, the road a document takes through
    WebCore before there is a tree: the bytes of the network become UTF-16 code
    units in a text codec, the units are queued in the parser's input streams,
    the HTML tokenizer turns the queue into tokens, and the tree builder keeps its
    stack of open elements and its list of active formatting elements.  Seven parts
    stand beside it: the URLs that documents refer to, the regions of
    platform/graphics, the keys of the IndexedDB backing store, the decimal
    numbers and the dates of form controls, the frames of WebSockets, and the
    red-black tree of WTF.  Source paths are relative to src/Source/WebCore unless they
    start with WTF.

    ** Parts of the program and their files

    - Text codecs (platform/text).  TextCodec.v: the machine-word tests of
      WTF/wtf/text/ASCIIFastPath.h, the surrogate macros of icu/unicode/utf16.h,
      [getUnencodableReplacement].  TextCodecUTF8.v: [decodeLoop8] and [decodeLoop16]
      are the two loops of [TextCodecUTF8::decode], [handlePartialSequence8/16] its
      helpers, the record [TextCodecUTF8] the partial sequence it keeps between
      chunks; TextCodecUTF8Theorems.v proves them against the definition of
      UTF-8.  TextCodecUTF16.v and TextCodecLatin1.v: UTF-16, windows-1252 and
      x-user-defined.
    - The input buffer (platform/text/SegmentedString.{h,cpp}).  SegmentedString.v
      has one definition per member function; CharSource.v is the interface the
      parser uses it through, the class [CharSource] with its laws
      [CharSourceOk] over an abstract queue; SegmentedStringSpec.v discharges the
      laws from the class invariant [wf]; SegmentedStringTheorems.v states what a
      client gets.
    - The streams (html/parser/HTMLInputStream.h and
      BackgroundHTMLInputStream.{h,cpp}) in the files of these names: insertion
      points of document.write, and the checkpoints of the background parser.
    - Character references (html/parser/HTMLEntitySearch.{h,cpp},
      HTMLEntityParser.cpp, xml/parser/CharacterReferenceParserInlines.h):
      HTMLEntitySearch.v, HTMLEntityParser.v, EntityTheorems.v.
    - Tokens and tokenizer (html/parser/HTMLToken.h, InputStreamPreprocessor.h,
      HTMLTokenizer.{h,cpp}, xml/parser/MarkupTokenizerInlines.h): HTMLToken.v and
      InputStreamPreprocessor.v; HTMLTokenizer.v has a function [in_<State>] for
      the block of each of the 68 states, [stateLoop] for the switch that runs
      them, [nextToken], the checkpoints, and [pumpLoop], the loop of
      [TokenPreloadScanner::scan] that asks for tokens until the input runs out.
    - The tree builder's structures (html/parser): AtomicHTMLToken.v, the token with
      interned names and attributes without duplicates; HTMLStackItem.v, an element
      as the builder sees it; HTMLFormattingElementList.v with
      FormattingListTheorems.v, the list with its markers and the Noah's Ark clause;
      HTMLElementStack.v with ElementStackTheorems.v and ElementStackQueries.v, the
      stack, whose records have addresses, and its scopes.
    - Regions (platform/graphics/Region.{h,cpp}, IntRect.{h,cpp}, IntPoint.h,
      IntSize.h): Geometry.v and Region.v, Modules [Shape] and [Region]; the
      template parameters of the source are records.  RegionSpec.v reads a shape
      as rows of pixels, RegionShapes.v and RegionCompare.v prove the merging and
      comparing loops on rows, RegionTheorems.v states what regions promise.  This
      part is independent of the parser.
    - Keys of IndexedDB (Modules/indexeddb/IDBLevelDBCoding.{h,cpp}, IDBKey.{h,cpp},
      IDBKeyPath.{h,cpp}): IDBCoding.v has the codecs of integers, strings and
      doubles; IDBKey.v user keys with their order and their bytes; IDBLevelDBCoding.v
      the prefix, a Module per class of keys, and [compare], LevelDB's comparator;
      IDBKeyPath.v key paths.  Compare.v is the interface of a comparison, the class
      [Comparison], which every order of this part is an instance of; IDBKeyOrder.v is
      the specification: abstract keys and their lexicographic order.
      IDBCodingTheorems.v, IDBKeyTheorems.v, IDBPrefixTheorems.v and
      IDBKeyOrderTheorems.v hold the lemmas, IDBUserKeyTheorems.v, IDBStoreTheorems.v
      and IDBKeyPathTheorems.v the theorems.

    - Decimal numbers (platform/Decimal.{h,cpp}, and the digits of an integer in
      WTF/wtf/text/IntegerToStringConversion.h): Decimal.v has the 128-bit arithmetic,
      the operators, and the reader as a state machine with a [step] per character.
      DecimalArithmetic.v proves the integer routines, DecimalValue.v gives the exact
      value [val] of a number, in units of 10^-1023, and what aligning keeps of it;
      DecimalSum.v, DecimalProduct.v and DecimalRound.v measure the operators by it,
      DecimalScan.v and DecimalText.v the texts.  Digits.v holds the digits of an
      integer, which dates share.
    - Dates (platform/DateComponents.{h,cpp}, and the calendar of
      WTF/wtf/DateMath.{h,cpp}): DateMath.v has the days, months and years of the
      calendar; DateComponents.v the record with its six parsers, its setters and
      getters and its printing.  DateTheorems.v gives every date its day number and
      every date and time its instant, DateEpochTheorems.v the values that
      milliseconds and months stand for, DateProperties.v what the parsers read, and
      the theorems.
    - URLs (platform/KURL.{h,cpp}, platform/text/DecodeEscapeSequences.h and the
      encoder of WTF/wtf/unicode/UTF8.cpp): KURL.v has [parse] with its two passes,
      the one that finds the offsets in the text ([findAuthority], [findEnds]) and the
      one that writes the canonical text into a buffer ([assemble]); KURLMembers.v,
      Module Member, the members and setters of the class; KURLEscape.v escaping and
      unescaping; KURLResolve.v [init], the resolution of a reference.  The
      specification reads a text from its front ([splitURL] in KURLParts.v, which
      gives a [RawURL]), makes it canonical ([buildParts]) and prints it ([print], and
      [kurlOf] with the offsets), dot segments by their definition ([removeDots]).
      KURLParse.v has the refinement ([parse_ok]), KURLProperties.v that what is
      printed reads back ([reparse]).  The theorems are in KURLProperties.v,
      KURLMemberTheorems.v, KURLEscape.v and KURLResolveTheorems.v.
    - The frames of WebSockets (Modules/websockets/WebSocketFrame.{h,cpp}):
      WebSocketFrame.v has [parseFrame], which unmasks the payload in its buffer, and
      [makeFrameData], with the bytes of a masking key as an argument.
    - The red-black tree (WTF/wtf/RedBlackTree.h): RedBlackTree.v has the nodes as
      fields in a store, pointers as addresses or null, and one program per member
      function, of a monad that threads the store and the root.  RedBlackTreeShape.v
      says what tree a store holds, seen from a place in it ([holds]), with frames
      above the place, what writing a color and rotating do there, and total
      correctness of programs ([runs]).  RedBlackTreeInsert.v and RedBlackTreeRemove.v
      go through the cases of the two repairs; the first has the interface of a key
      type, the class [KeyOrder], and the descent.  RedBlackTreeTheorems.v has
      searching, walking and the theorems.

    A codec hands its units to a [SegmentedString] ([append]); the streams own
    such buffers and pass the current one to [nextToken] by reference; the
    tokenizer reads it through the preprocessor and calls the character reference
    parser, which reads and pushes back on the same buffer.  In the model the
    buffer is threaded through every call, and client code is written over any
    [CharSource], so that one proof on the abstract queue holds for the buffer of
    the source ([pump_representation]).

    ** How state and failure are modelled

    Objects are records with the source's field names; member functions take and
    return them.  A failed ASSERT, a null dereference and a read outside a buffer
    are [None]; [result] tells them from exhausted fuel, and [parsed] also from a null
    pointer that a reader returns.  Pointers into buffers
    are offsets; member function pointers are inductive types of their targets;
    machine integers are [Z] with their wrap-around written where they can
    overflow.

    ** What the theorems show

    - The tokenizer (TokenizerInvariant.v, TokenizerSafety.v, TokenizerTheorems.v):
      from every tokenizer between two tokens ([Ready], which a new tokenizer is
      and every call restores) and for every input, [nextToken] returns within the
      fuel, passes its assertions, and keeps the invariant that ties the state to
      the token under construction ([nextToken_total], [feed_total]); a closed input
      ends in an end-of-file token ([end_of_file]); text states pass text through ([plaintext_verbatim]) and
      only the appropriate end tag leaves them ([raw_text_end_tag]).
    - Chunks (TokenizerMachine.v, TokenizerChunks.v): [chunks_irrelevant], the
      tokens do not depend on how the network cut the document.  The proof goes
      through a machine that writes every character at once and of which
      [nextToken] is a buffered run ([nextToken_follows], [pumpLoop_runs]).
    - References: the search finds the longest entity ([search_longest]), numeric
      references give the units HTML5 prescribes up to the 32-bit accumulator
      ([numeric_reference], [numeric_reference_wraps]), a reference cut by a chunk
      is read again in full ([reference_chunks]).
    - Buffers and streams: refinement of a queue ([buffer_consistent],
      [buffer_advance], ...), of a stack of texts ([stream_refines]) and of a log
      that forgets nothing ([background_refines]).
    - Codecs: decoding is the definition of the encoding ([utf8_decode],
      [latin1_decode]), decoding undoes encoding ([utf8_roundtrip],
      [latin1_roundtrip], [utf16_roundtrip], [userDefined_roundtrip]), no access
      leaves a buffer ([utf8_safe]).
    - Tree builder: the stack keeps its depth, its distinct records and its pointers in
      every reachable state ([stack_reachable]), scope queries never run off it and
      answer what the standard asks ([stack_scopes], [scope_then_pop],
      [insert_then_remove]); the list of formatting elements never has four alike
      between two markers ([noahs_ark], [formatting_append]).
    - Regions: [unite], [intersect] and [subtract] are the operations on sets of
      pixels and keep shapes canonical and bounds least ([region_operations]);
      [contains] decides inclusion ([region_contains]); equality of members is
      equality of sets ([region_equality]); [rects] is a partition
      ([region_rects]).  Coordinates stay below 2^30, where no difference
      overflows; [far_apart] shows what happens beyond.
    - IndexedDB keys: what is written is read back ([key_roundtrip],
      [index_entry_roundtrip], [prefix_roundtrip], [key_path_roundtrip]); readers and
      the comparator return on any bytes ([readers_return], [compare_returns]) and give
      well-formed keys ([decoded_typed]); the comparison of bytes is the order of the
      keys and a total one ([encoded_order], [comparator_order],
      [comparator_contract]); ranges hold what they should ([index_range],
      [origin_range]); a multi-entry array has no key twice ([multi_entry]); the key
      path parser decides its grammar ([key_path_grammar]).
    - Decimal numbers: comparisons decide the order of the values ([comparison_order])
      although sums and differences are cut to their digits ([sum_error]); products are
      cut ([product_cut]), quotients by short divisors off by less than a unit
      ([quotient_error]); rounding is half away from zero ([rounding]); texts are read as
      the numbers they spell ([numeral_read]) and back from what was printed
      ([text_roundtrip]); the fields always fit the class ([decimal_typed]).
    - Dates: every instant of the calendar is set and read back to where its day, month,
      ISO week or time of day begins ([date_set_get], [date_get_set],
      [months_since_epoch]); time zones move by their offset ([time_zone_shift]); texts
      are printed and read back ([date_text_roundtrip]), and the parsers are safe on any
      text ([date_parser_typed]).
    - URLs: [parse] fails no assertion, stays in its buffers and gives ordered offsets
      ([parse_offsets]); it is idempotent ([parse_idempotent]); the members are the
      parts of the text ([members_parts]) and a setter changes its own
      ([setters_local]); dot segments go ([dots_removed]); resolving a reference is
      parsing the front of the base followed by it ([resolution]); escapes are read back
      ([escape_roundtrip]).
    - WebSocket frames: the parser takes for frames what the sender writes and nothing
      else, reports every part of a frame as incomplete, and as an error only what no
      frame begins with ([frame_codec]).
    - The red-black tree: sequences of insertions and removals are those of a sorted
      list, keep the tree balanced and its pointers consistent, and touch no other node
      ([tree_operations]); the searches answer in logarithmic time ([tree_searches]);
      walking goes through the list ([tree_walk]).

    Where the code departs from what its comments or its own standard say, the
    departure is stated as a theorem or an example next to the property it limits.

    ** Bounds and fuel

    - [stateLoop] runs on [loopFuel] = 4 * n + 4 steps for n units of input, and
      the scanning loop on 4 * n + 5 tokens: every step consumes a unit or lowers
      the [rank] of the state, which is at most 3 ([nextToken_total] and
      [feed_total] prove that this is enough, not only that it suffices when it
      does).
    - Numeric references: the tokenizer's theorems ask for a text in which no number
      behind a [#] is 2^31 or more ([numbersFit]), because such a reference overflows
      the accumulator of the source, possibly into a value whose assertion fails; the
      behaviour beyond is [numeric_reference_wraps].
    - Popping from the stack of open elements runs on the number of its records.
    - Readers of user keys recurse on [enough] = 2 * n + 2 for n bytes: every call reads a
      byte, and a list of keys takes a step per key ([readers_return]).  The key path
      parser runs on n + 2 rounds ([key_path_grammar]).
    - Decimal: a 64-bit coefficient is normalised in three divisions, has twenty digits,
      and a product is reduced in twenty; a quotient by a divisor of four digits takes
      forty rounds at most, and needs no more than four digits in each
      ([divisionLoop_ok], [quotient_error]).  For longer divisors the source can
      overflow ([quotient_overflow]), and no theorem says that the loop ends.
    - URLs are texts of bytes.  A scheme that must have an authority is followed by two
      slashes ([wellSlashed]) where [parse] is shown safe: without them the source takes
      back slashes that are not there ([slashes_not_there], [dots_asserted]).  Parsing
      is idempotent for what is [stable]; the texts for which it is not are the examples
      at the end of KURLProperties.v.  The loops over a path and over a reference take a
      step for each character, and their fuel is one more; copying a path of dots into a
      buffer of the same size never overflows it ([dots_removed]).
    - The loops of the red-black tree run on the number of nodes in the store, which
      bounds every path in it; the loops of the searches need only 2 log2 (n + 1) + 1
      rounds ([tree_searches]).
    - The codecs' machine words have [wordSize] 4 or 8 bytes, a parameter; the
      do-loops over partial sequences run at most three times.

    ** Not modelled

    - Generated code: the entity table and its indexes are the parameter
      [EntityTable] with the ordering the generator guarantees; [foldCase], the
      Unicode case folding of WTF, is a parameter with its values on ASCII.
    - The Unicode library: the category of a character is a parameter of the key path
      parser, of which only the category of the full stop is assumed.
    - Doubles are bit patterns; their order is that of sign and magnitude, NaN apart.
    - Decimal::fromDouble and toDouble, which go through the number printer and parser
      of WTF.
    - Reference counting, allocation and logging ([parseError]); threads: the
      background parser's objects are used by one thread at a time.
    - Tree construction, scripts and scheduling (HTMLTreeBuilder,
      HTMLConstructionSite, HTMLDocumentParser): they need a model of the DOM.
      The state changes they ask of the tokenizer are those of
      [updateStateFor], which the scanning loop makes itself.
    - The channel over WebSocket frames, its handshake and its compression, which call
      sockets, timers, script and zlib.
    - Codecs over ICU and the registry of encoding names; the CSS, XML and
      JavaScript parsers; rendering; the ports; the backing store around its keys.
    - The red-black tree's nodes are not moved or freed by it; a pointer's low bit, which
      holds the color, is a field of its own.
    - Of KURL: IDNA and the encodings of a reference that is not ASCII, which ICU and the
      registry of codecs give, are parameters of [init]; file system paths and the
      conversions to the ports' URL types are left out. *)

From Stdlib Require Export ZArith Lia Bool Ascii String.
From stdpp Require Export base list option numbers.

#[global] Set Default Goal Selector "!".

(** ** Notation scope of the development *)
Declare Scope webkit_scope.
Delimit Scope webkit_scope with webkit.

(** The code unit of an ASCII character literal of the source, evaluated when
    the term is read: [ch "&"] is the numeral 38. *)
Notation "'ch' c" :=
  (ltac:(let v := eval vm_compute in (Z.of_N (N_of_ascii c%char)) in exact v))
  (at level 9, c at level 9, only parsing) : webkit_scope.

(** The code units of a C string literal of the source. *)
Definition units (s : string) : list Z :=
  (fun a => Z.of_N (N_of_ascii a)) <$> list_ascii_of_string s.

Open Scope webkit_scope.
Open Scope Z_scope.

(** ** Fallible code

    [None] stands for what a debug build stops at: a failed [ASSERT], a null
    dereference, a read outside a buffer. *)
Definition ASSERT (b : bool) : option unit := if b then Some () else None.

Lemma ASSERT_true : ASSERT true = Some ().
Proof. reflexivity. Qed.

Lemma ASSERT_bind {A} (b : bool) (m : option A) (r : A) :
  (ASSERT b ≫= fun _ => m) = Some r <-> b = true /\ m = Some r.
Proof. destruct b; simpl; naive_solver. Qed.

(** ** Loops with fuel

    A loop of the source that is not structural runs on fuel; running out is kept
    apart from a failed assertion. *)
Inductive result (A : Type) : Type :=
  | Ok (a : A)
  | Failed
  | OutOfFuel.
Arguments Ok {A} a.
Arguments Failed {A}.
Arguments OutOfFuel {A}.

#[export] Instance result_ret : MRet result := fun A a => Ok a.
#[export] Instance result_bind : MBind result := fun A B f m =>
  match m with Ok a => f a | Failed => Failed | OutOfFuel => OutOfFuel end.

Definition lift {A} (m : option A) : result A :=
  match m with Some a => Ok a | None => Failed end.

(** ** Machine integers *)

(** Two's complement wrap-around of a 32-bit [int] / [UChar32]. *)
Definition wrap32 (z : Z) : Z := (z + 2 ^ 31) mod 2 ^ 32 - 2 ^ 31.

Lemma wrap32_small (z : Z) : - 2 ^ 31 <= z < 2 ^ 31 -> wrap32 z = z.
Proof. intros H. unfold wrap32. rewrite Z.mod_small; lia. Qed.

Lemma wrap32_range (z : Z) : - 2 ^ 31 <= wrap32 z < 2 ^ 31.
Proof. unfold wrap32. pose proof (Z.mod_pos_bound (z + 2 ^ 31) (2 ^ 32)). lia. Qed.

(** Bit fields side by side. *)
Lemma lor_low (hi lo k : Z) : 0 <= k -> 0 <= lo < 2 ^ k -> Z.lor (hi * 2 ^ k) lo = hi * 2 ^ k + lo.
Proof.
  intros Hk Hlo. rewrite <- (Z.add_lor_land (hi * 2 ^ k) lo).
  assert (Z.land (hi * 2 ^ k) lo = 0) as ->; [| lia].
  apply Z.bits_inj'. intros i Hi. rewrite Z.land_spec, Z.bits_0. destruct (decide (i < k)).
  - by rewrite Z.mul_pow2_bits_low by lia.
  - rewrite <- (Z.mod_small lo (2 ^ k)), Z.mod_pow2_bits_high by lia. apply andb_false_r.
Qed.

(** ** Character classes of wtf/ASCIICType.h on a UTF-16 code unit *)
Definition isASCIIUpper (c : Z) : bool := (ch "A" <=? c) && (c <=? ch "Z").
Definition isASCIILower (c : Z) : bool := (ch "a" <=? c) && (c <=? ch "z").
Definition toASCIILower (c : Z) : Z := Z.lor c (Z.shiftl (if isASCIIUpper c then 1 else 0) 5).

(** ** Tactics *)

(** Splits every boolean test and option/list match the goal is stuck on. *)
Ltac split_tests :=
  repeat match goal with
  | |- context [if ?b then _ else _] => destruct b eqn:?
  | |- context [match ?x with Some _ => _ | None => _ end] => destruct x eqn:?
  end.

(** Turns boolean comparisons into arithmetic hypotheses. *)
Ltac bool_to_prop :=
  repeat match goal with
  | H : _ && _ = true |- _ => apply andb_true_iff in H as [? ?]
  | H : _ || _ = false |- _ => apply orb_false_iff in H as [? ?]
  | H : negb _ = true |- _ => apply negb_true_iff in H
  | H : negb _ = false |- _ => apply negb_false_iff in H
  | H : (_ =? _) = true |- _ => apply Z.eqb_eq in H
  | H : (_ =? _) = false |- _ => apply Z.eqb_neq in H
  | H : (_ <? _) = true |- _ => apply Z.ltb_lt in H
  | H : (_ <? _) = false |- _ => apply Z.ltb_ge in H
  | H : (_ <=? _) = true |- _ => apply Z.leb_le in H
  | H : (_ <=? _) = false |- _ => apply Z.leb_gt in H
  | H : (_ >? _) = true |- _ => rewrite Z.gtb_ltb in H
  | H : (_ >? _) = false |- _ => rewrite Z.gtb_ltb in H
  end.

(** ** Lists *)
Lemma skipn_cons_lookup {A} (l : list A) (n : nat) (x : A) :
  l !! n = Some x -> drop n l = x :: drop (S n) l.
Proof. intros H. apply drop_S. exact H. Qed.

Lemma drop_nonempty_lookup {A} (l : list A) (n : nat) :
  (n < length l)%nat -> exists x, l !! n = Some x /\ drop n l = x :: drop (S n) l.
Proof.
  intros H. destruct (lookup_lt_is_Some_2 l n H) as [x Hx].
  exists x. split; [exact Hx | by apply drop_S].
Qed.
