(* ===== verification/SegmentedString.v ===== *)
(** * The parser's input buffer: platform/text/SegmentedString.{h,cpp}

    A [SegmentedString] is a queue of UTF-16 code units held as a current
    substring (read through a raw pointer), a deque of later substrings and up
    to two pushed-back characters.  It caches the current character, two member
    function pointers and a byte of flags for its fast path, a closed flag, an
    empty flag, and three counters for positions.

    - [Substring] is [SegmentedSubstring]; the data pointer is the offset it has
      into [m_string] ([None] for the null pointer), so that a read past the
      buffer is [None].
    - The record [SegmentedString] and one definition per member function
      follow.  The fallible ones are in the option monad: [None] is a failed
      ASSERT, a null dereference or a read outside the string.
    - [wf] is the class invariant, [view] the queue it represents, and [abs] the
      abstract state of CharSource.v; the theorems say that every operation
      keeps [wf], never fails under its precondition, and does to [view] what
      the queue operation does. *)

From S2P Require Import Prelude.

(** ** SegmentedSubstring *)
Module Substring.

Record t := mk {
  m_string : list Z;
  m_data : option nat;
  m_length : Z;
  m_doNotExcludeLineNumbers : bool;
  m_is8Bit : bool }.

(** A [String] as the source sees it: its code units and the [is8Bit] of its
    representation. *)
Record wtfString := mkString { chars : list Z; stringIs8Bit : bool }.

Definition empty : t := mk [] None 0 true false.

Definition ofString (str : wtfString) : t :=
  let len := Z.of_nat (length (chars str)) in
  if 0 <? len then mk (chars str) (Some 0%nat) len true (stringIs8Bit str)
  else mk (chars str) None len true false.

Definition clear (s : t) : t :=
  mk (m_string s) None 0 (m_doNotExcludeLineNumbers s) false.

Definition setExcludeLineNumbers (s : t) : t :=
  mk (m_string s) (m_data s) (m_length s) false (m_is8Bit s).

Definition numberOfCharactersConsumed (s : t) : Z :=
  Z.of_nat (length (m_string s)) - m_length s.

(** What [appendTo] appends: the whole string when nothing is consumed yet
    (and something is left), the substring from the offset otherwise. *)
Definition appendTo (s : t) (builder : list Z) : list Z :=
  let offset := numberOfCharactersConsumed s in
  if offset =? 0 then
    if negb (m_length s =? 0) then builder ++ m_string s else builder
  else builder ++ take (Z.to_nat (m_length s)) (drop (Z.to_nat offset) (m_string s)).

Definition getCurrentChar8 (s : t) : option Z :=
  p ← m_data s; m_string s !! p.

Definition getCurrentChar16 (s : t) : option Z :=
  match m_data s with Some p => m_string s !! p | None => Some 0 end.

Definition set_data (p : nat) (s : t) : t :=
  mk (m_string s) (Some p) (m_length s) (m_doNotExcludeLineNumbers s) (m_is8Bit s).

Definition set_length (n : Z) (s : t) : t :=
  mk (m_string s) (m_data s) n (m_doNotExcludeLineNumbers s) (m_is8Bit s).

(** [*++m_data]: the new pointer and the character it points at. *)
Definition incrementAndGetCurrentChar8 (s : t) : option (t * Z) :=
  p ← m_data s;
  c ← m_string s !! S p;
  Some (set_data (S p) s, c).

Definition incrementAndGetCurrentChar16 (s : t) : option (t * Z) :=
  p ← m_data s;
  c ← m_string s !! S p;
  Some (set_data (S p) s, c).

Definition currentSubString (s : t) (len : Z) : list Z :=
  take (Z.to_nat len) (drop (Z.to_nat (numberOfCharactersConsumed s)) (m_string s)).

Definition getCurrentChar (s : t) : option Z :=
  ASSERT (negb (m_length s =? 0));;
  if m_is8Bit s then getCurrentChar8 s else getCurrentChar16 s.

Definition incrementAndGetCurrentChar (s : t) : option (t * Z) :=
  ASSERT (negb (m_length s =? 0));;
  if m_is8Bit s then incrementAndGetCurrentChar8 s else incrementAndGetCurrentChar16 s.

End Substring.
Export Substring (wtfString, mkString, chars, stringIs8Bit).

(** ** SegmentedString: the record *)

(** The member functions [m_advanceFunc] and [m_advanceAndUpdateLineNumberFunc]
    may point at. *)
Inductive AdvanceFunc :=
  | advanceEmptyFn
  | advance8Fn
  | advance16Fn
  | advanceSlowCaseFn
  | advanceAndUpdateLineNumber8Fn
  | advanceAndUpdateLineNumber16Fn
  | advanceAndUpdateLineNumberSlowCaseFn.

(** enum FastPathFlags *)
Definition NoFastPath : Z := 0.
Definition Use8BitAdvanceAndUpdateLineNumbers : Z := Z.shiftl 1 0.
Definition Use8BitAdvance : Z := Z.shiftl 1 1.

Record SegmentedString := mkSS {
  m_pushedChar1 : Z;
  m_pushedChar2 : Z;
  m_currentString : Substring.t;
  m_currentChar : Z;
  m_numberOfCharactersConsumedPriorToCurrentString : Z;
  m_numberOfCharactersConsumedPriorToCurrentLine : Z;
  m_currentLine : Z;
  m_substrings : list Substring.t;
  m_closed : bool;
  m_empty : bool;
  m_fastPathFlags : Z;
  m_advanceFunc : AdvanceFunc;
  m_advanceAndUpdateLineNumberFunc : AdvanceFunc }.

Section Setters.
Variable s : SegmentedString.
Let p1 := m_pushedChar1 s.
Let p2 := m_pushedChar2 s.
Let cs := m_currentString s.
Let cc := m_currentChar s.
Let np := m_numberOfCharactersConsumedPriorToCurrentString s.
Let nl := m_numberOfCharactersConsumedPriorToCurrentLine s.
Let ln := m_currentLine s.
Let ss := m_substrings s.
Let cl := m_closed s.
Let em := m_empty s.
Let ff := m_fastPathFlags s.
Let fa := m_advanceFunc s.
Let fl := m_advanceAndUpdateLineNumberFunc s.
Definition set_pushed (a b : Z) := mkSS a b cs cc np nl ln ss cl em ff fa fl.
Definition set_currentString x := mkSS p1 p2 x cc np nl ln ss cl em ff fa fl.
Definition set_currentChar x := mkSS p1 p2 cs x np nl ln ss cl em ff fa fl.
Definition set_priorString x := mkSS p1 p2 cs cc x nl ln ss cl em ff fa fl.
Definition set_priorLine x := mkSS p1 p2 cs cc np x ln ss cl em ff fa fl.
Definition set_currentLine x := mkSS p1 p2 cs cc np nl x ss cl em ff fa fl.
Definition set_substrings x := mkSS p1 p2 cs cc np nl ln x cl em ff fa fl.
Definition set_closed x := mkSS p1 p2 cs cc np nl ln ss x em ff fa fl.
Definition set_empty x := mkSS p1 p2 cs cc np nl ln ss cl x ff fa fl.
Definition set_advance f g h := mkSS p1 p2 cs cc np nl ln ss cl em f g h.
End Setters.

(** ** Operations *)

Definition isComposite (s : SegmentedString) : bool :=
  match m_substrings s with [] => false | _ :: _ => true end.

Definition updateSlowCaseFunctionPointers (s : SegmentedString) : SegmentedString :=
  set_advance s NoFastPath advanceSlowCaseFn advanceAndUpdateLineNumberSlowCaseFn.

Definition updateAdvanceFunctionPointers (s : SegmentedString) : SegmentedString :=
  let cur := m_currentString s in
  if (1 <? Substring.m_length cur) && (m_pushedChar1 s =? 0) then
    if Substring.m_is8Bit cur then
      if Substring.m_doNotExcludeLineNumbers cur
      then set_advance s (Z.lor Use8BitAdvance Use8BitAdvanceAndUpdateLineNumbers)
             advance8Fn advanceAndUpdateLineNumber8Fn
      else set_advance s Use8BitAdvance advance8Fn advance8Fn
    else
      if Substring.m_doNotExcludeLineNumbers cur
      then set_advance s NoFastPath advance16Fn advanceAndUpdateLineNumber16Fn
      else set_advance s NoFastPath advance16Fn advance16Fn
  else
    let s1 :=
      if (Substring.m_length cur =? 0) && negb (isComposite s)
      then set_advance s NoFastPath advanceEmptyFn advanceEmptyFn
      else s in
    updateSlowCaseFunctionPointers s1.

Definition emptySegmentedString : SegmentedString :=
  mkSS 0 0 Substring.empty 0 0 0 0 [] false true NoFastPath advanceEmptyFn advanceEmptyFn.

(** SegmentedString(const String&) *)
Definition ofString (str : wtfString) : option SegmentedString :=
  let s := mkSS 0 0 (Substring.ofString str) 0 0 0 0 [] false
                (Z.of_nat (length (chars str)) =? 0) NoFastPath advanceEmptyFn advanceEmptyFn in
  s1 ← (if negb (Substring.m_length (m_currentString s) =? 0)
        then c ← Substring.getCurrentChar (m_currentString s); Some (set_currentChar s c)
        else Some s);
  Some (updateAdvanceFunctionPointers s1).

(** The character the copy constructor and [operator=] give the copy. *)
Definition copiedCurrentChar (s : SegmentedString) : option Z :=
  if negb (m_pushedChar2 s =? 0) then Some (m_pushedChar2 s)
  else if negb (m_pushedChar1 s =? 0) then Some (m_pushedChar1 s)
  else if negb (Substring.m_length (m_currentString s) =? 0)
       then Substring.getCurrentChar (m_currentString s)
       else Some 0.

(** SegmentedString(const SegmentedString&); the members it initialises are all
    the members. *)
Definition copy (other : SegmentedString) : option SegmentedString :=
  c ← copiedCurrentChar other; Some (set_currentChar other c).

(** operator=: assigns every member of [other]. *)
Definition assign (_ other : SegmentedString) : option SegmentedString :=
  c ← copiedCurrentChar other; Some (set_currentChar other c).

Definition sumLengths (l : list Substring.t) : Z :=
  foldr (fun sub n => Substring.m_length sub + n) 0 l.

(** length() *)
Definition lengthSS (s : SegmentedString) : Z :=
  Substring.m_length (m_currentString s)
  + (if negb (m_pushedChar1 s =? 0)
     then 1 + (if negb (m_pushedChar2 s =? 0) then 1 else 0) else 0)
  + (if isComposite s then sumLengths (m_substrings s) else 0).

Definition setExcludeLineNumbers (s : SegmentedString) : SegmentedString :=
  let s1 := set_currentString s (Substring.setExcludeLineNumbers (m_currentString s)) in
  if isComposite s1
  then set_substrings s1 (Substring.setExcludeLineNumbers <$> m_substrings s1)
  else s1.

Definition clearSS (s : SegmentedString) : SegmentedString :=
  mkSS 0 0 (Substring.clear (m_currentString s)) 0 0 0 0 [] false true
       NoFastPath advanceEmptyFn advanceEmptyFn.

(** append(const SegmentedSubstring&) *)
Definition appendSubstring (sub : Substring.t) (s : SegmentedString) : option SegmentedString :=
  ASSERT (negb (m_closed s));;
  if Substring.m_length sub =? 0 then Some s else
  let s1 :=
    if Substring.m_length (m_currentString s) =? 0 then
      updateAdvanceFunctionPointers
        (set_currentString
           (set_priorString s (m_numberOfCharactersConsumedPriorToCurrentString s
              + Substring.numberOfCharactersConsumed (m_currentString s))) sub)
    else set_substrings s (m_substrings s ++ [sub]) in
  Some (set_empty s1 false).

(** escaped() *)
Definition escaped (s : SegmentedString) : bool := negb (m_pushedChar1 s =? 0).

(** prepend(const SegmentedSubstring&) *)
Definition prependSubstring (sub : Substring.t) (s : SegmentedString) : option SegmentedString :=
  ASSERT (negb (escaped s));;
  ASSERT (Substring.numberOfCharactersConsumed sub =? 0);;
  if Substring.m_length sub =? 0 then Some s else
  let s1 := set_priorString s (m_numberOfCharactersConsumedPriorToCurrentString s
              + Substring.numberOfCharactersConsumed (m_currentString s)) in
  let s2 := set_priorString s1 (m_numberOfCharactersConsumedPriorToCurrentString s1
              - Substring.m_length sub) in
  let s3 :=
    if Substring.m_length (m_currentString s2) =? 0 then set_currentString s2 sub
    else set_currentString (set_substrings s2 (m_currentString s2 :: m_substrings s2)) sub in
  Some (set_empty (updateAdvanceFunctionPointers s3) false).

Definition close (s : SegmentedString) : option SegmentedString :=
  ASSERT (negb (m_closed s));; Some (set_closed s true).

Fixpoint appendSubstrings (l : list Substring.t) (s : SegmentedString) : option SegmentedString :=
  match l with
  | [] => Some s
  | sub :: l' => s1 ← appendSubstring sub s; appendSubstrings l' s1
  end.

(** [m_length ? getCurrentChar() : 0], the expression most members end with. *)
Definition currentStringChar (s : SegmentedString) : option Z :=
  if negb (Substring.m_length (m_currentString s) =? 0)
  then Substring.getCurrentChar (m_currentString s) else Some 0.

(** append(const SegmentedString&) *)
Definition append (other s : SegmentedString) : option SegmentedString :=
  ASSERT (negb (m_closed s));;
  s1 ← (if negb (m_pushedChar1 other =? 0) then
          let unconsumedData := m_pushedChar1 other ::
            (if negb (m_pushedChar2 other =? 0) then [m_pushedChar2 other] else []) in
          appendSubstring (Substring.ofString (mkString unconsumedData false)) s
        else Some s);
  s2 ← appendSubstring (m_currentString other) s1;
  s3 ← (if isComposite other then appendSubstrings (m_substrings other) s2 else Some s2);
  c ← (if negb (m_pushedChar1 s3 =? 0) then Some (m_pushedChar1 s3) else currentStringChar s3);
  Some (set_currentChar s3 c).

Fixpoint prependSubstrings (l : list Substring.t) (s : SegmentedString) : option SegmentedString :=
  match l with
  | [] => Some s
  | sub :: l' => s1 ← prependSubstring sub s; prependSubstrings l' s1
  end.

(** prepend(const SegmentedString&): the substrings are prepended from the last
    to the first, then the current one. *)
Definition prepend (other s : SegmentedString) : option SegmentedString :=
  ASSERT (negb (escaped s));;
  ASSERT (negb (escaped other));;
  s1 ← (if isComposite other then prependSubstrings (reverse (m_substrings other)) s else Some s);
  s2 ← prependSubstring (m_currentString other) s1;
  c ← currentStringChar s2;
  Some (set_currentChar s2 c).

Definition clearToEmpty (s : SegmentedString) : SegmentedString :=
  set_advance
    (set_empty (set_currentString s (Substring.clear (m_currentString s))) true)
    NoFastPath advanceEmptyFn advanceEmptyFn.

Definition advanceSubstring (s : SegmentedString) : SegmentedString :=
  match m_substrings s with
  | sub :: rest =>
      let s1 := set_priorString s (m_numberOfCharactersConsumedPriorToCurrentString s
                  + Substring.numberOfCharactersConsumed (m_currentString s)) in
      let s2 := set_substrings (set_currentString s1 sub) rest in
      let s3 := set_priorString s2 (m_numberOfCharactersConsumedPriorToCurrentString s2
                  - Substring.numberOfCharactersConsumed (m_currentString s2)) in
      updateAdvanceFunctionPointers s3
  | [] => clearToEmpty s
  end.

Fixpoint appendAllTo (l : list Substring.t) (builder : list Z) : list Z :=
  match l with
  | [] => builder
  | sub :: l' => appendAllTo l' (Substring.appendTo sub builder)
  end.

Definition toString (s : SegmentedString) : list Z :=
  let r0 := if negb (m_pushedChar1 s =? 0)
            then m_pushedChar1 s ::
                 (if negb (m_pushedChar2 s =? 0) then [m_pushedChar2 s] else [])
            else [] in
  let r1 := Substring.appendTo (m_currentString s) r0 in
  if isComposite s then appendAllTo (m_substrings s) r1 else r1.

Definition numberOfCharactersConsumed (s : SegmentedString) : Z :=
  m_numberOfCharactersConsumedPriorToCurrentString s
  + Substring.numberOfCharactersConsumed (m_currentString s)
  - (if negb (m_pushedChar1 s =? 0)
     then 1 + (if negb (m_pushedChar2 s =? 0) then 1 else 0) else 0).

Definition decrementLength (s : SegmentedString) : SegmentedString :=
  set_currentString s
    (Substring.set_length (Substring.m_length (m_currentString s) - 1) (m_currentString s)).

Definition decrementAndCheckLength (s : SegmentedString) : option SegmentedString :=
  ASSERT (1 <? Substring.m_length (m_currentString s));;
  let s1 := decrementLength s in
  Some (if Substring.m_length (m_currentString s1) =? 1
        then updateSlowCaseFunctionPointers s1 else s1).

(** [m_currentChar = m_currentString.incrementAndGetCurrentChar8()] *)
Definition stepChar8 (s : SegmentedString) : option SegmentedString :=
  '(sub, c) ← Substring.incrementAndGetCurrentChar8 (m_currentString s);
  Some (set_currentChar (set_currentString s sub) c).

Definition stepChar16 (s : SegmentedString) : option SegmentedString :=
  '(sub, c) ← Substring.incrementAndGetCurrentChar16 (m_currentString s);
  Some (set_currentChar (set_currentString s sub) c).

Definition advance8 (s : SegmentedString) : option SegmentedString :=
  ASSERT (m_pushedChar1 s =? 0);;
  s1 ← decrementAndCheckLength s; stepChar8 s1.

Definition advance16 (s : SegmentedString) : option SegmentedString :=
  ASSERT (m_pushedChar1 s =? 0);;
  s1 ← decrementAndCheckLength s; stepChar16 s1.

(** [++m_currentLine] and the position of the line start, one past the newline
    that is being consumed. *)
Definition countNewline (s : SegmentedString) : SegmentedString :=
  set_priorLine (set_currentLine s (m_currentLine s + 1)) (numberOfCharactersConsumed s + 1).

Definition advanceAndUpdateLineNumber8 (s : SegmentedString) : option SegmentedString :=
  ASSERT (m_pushedChar1 s =? 0);;
  c ← Substring.getCurrentChar (m_currentString s);
  ASSERT (c =? m_currentChar s);;
  let s1 := if m_currentChar s =? 10 then countNewline s else s in
  s2 ← decrementAndCheckLength s1; stepChar8 s2.

Definition advanceAndUpdateLineNumber16 (s : SegmentedString) : option SegmentedString :=
  ASSERT (m_pushedChar1 s =? 0);;
  c ← Substring.getCurrentChar (m_currentString s);
  ASSERT (c =? m_currentChar s);;
  let s1 := if m_currentChar s =? 10 then countNewline s else s in
  s2 ← decrementAndCheckLength s1; stepChar16 s2.

(** [m_currentChar = m_currentString.m_length ? getCurrentChar() : 0] *)
Definition reloadCurrentChar (s : SegmentedString) : option SegmentedString :=
  c ← currentStringChar s; Some (set_currentChar s c).

Definition advanceSlowCase (s : SegmentedString) : option SegmentedString :=
  if negb (m_pushedChar1 s =? 0) then
    let s1 := set_pushed s (m_pushedChar2 s) 0 in
    if negb (m_pushedChar1 s1 =? 0) then Some (set_currentChar s1 (m_pushedChar1 s1))
    else reloadCurrentChar (updateAdvanceFunctionPointers s1)
  else if negb (Substring.m_length (m_currentString s) =? 0) then
    let s1 := decrementLength s in
    reloadCurrentChar
      (if Substring.m_length (m_currentString s1) =? 0 then advanceSubstring s1 else s1)
  else if negb (isComposite s) then reloadCurrentChar (clearToEmpty s)
  else reloadCurrentChar s.

Definition advanceAndUpdateLineNumberSlowCase (s : SegmentedString) : option SegmentedString :=
  if negb (m_pushedChar1 s =? 0) then
    let s1 := set_pushed s (m_pushedChar2 s) 0 in
    if negb (m_pushedChar1 s1 =? 0) then Some (set_currentChar s1 (m_pushedChar1 s1))
    else reloadCurrentChar (updateAdvanceFunctionPointers s1)
  else if negb (Substring.m_length (m_currentString s) =? 0) then
    c ← Substring.getCurrentChar (m_currentString s);
    let s0 := if (c =? 10) && Substring.m_doNotExcludeLineNumbers (m_currentString s)
              then countNewline s else s in
    let s1 := decrementLength s0 in
    if Substring.m_length (m_currentString s1) =? 0 then reloadCurrentChar (advanceSubstring s1)
    else '(sub, _) ← Substring.incrementAndGetCurrentChar (m_currentString s1);
         reloadCurrentChar (set_currentString s1 sub)
  else if negb (isComposite s) then reloadCurrentChar (clearToEmpty s)
  else reloadCurrentChar s.

Definition advanceEmpty (s : SegmentedString) : option SegmentedString :=
  ASSERT ((Substring.m_length (m_currentString s) =? 0) && negb (isComposite s));;
  Some (set_currentChar s 0).

(** A call through one of the two member function pointers. *)
Definition callAdvanceFunc (f : AdvanceFunc) : SegmentedString -> option SegmentedString :=
  match f with
  | advanceEmptyFn => advanceEmpty
  | advance8Fn => advance8
  | advance16Fn => advance16
  | advanceSlowCaseFn => advanceSlowCase
  | advanceAndUpdateLineNumber8Fn => advanceAndUpdateLineNumber8
  | advanceAndUpdateLineNumber16Fn => advanceAndUpdateLineNumber16
  | advanceAndUpdateLineNumberSlowCaseFn => advanceAndUpdateLineNumberSlowCase
  end.

(** advance(): the 8-bit fast path is inlined, the rest goes through the pointer. *)
Definition advance (s : SegmentedString) : option SegmentedString :=
  if negb (Z.land (m_fastPathFlags s) Use8BitAdvance =? 0) then
    ASSERT (m_pushedChar1 s =? 0);;
    let s1 := decrementLength s in
    let haveOneCharacterLeft := Substring.m_length (m_currentString s1) =? 1 in
    s2 ← stepChar8 s1;
    Some (if negb haveOneCharacterLeft then s2 else updateSlowCaseFunctionPointers s2)
  else callAdvanceFunc (m_advanceFunc s) s.

Definition advanceAndUpdateLineNumber (s : SegmentedString) : option SegmentedString :=
  if negb (Z.land (m_fastPathFlags s) Use8BitAdvance =? 0) then
    ASSERT (m_pushedChar1 s =? 0);;
    let haveNewLine := (m_currentChar s =? 10)
      && negb (Z.land (m_fastPathFlags s) Use8BitAdvanceAndUpdateLineNumbers =? 0) in
    let s1 := decrementLength s in
    let haveOneCharacterLeft := Substring.m_length (m_currentString s1) =? 1 in
    s2 ← stepChar8 s1;
    if negb (haveNewLine || haveOneCharacterLeft) then Some s2 else
    let s3 := if haveNewLine
              then set_priorLine (set_currentLine s2 (m_currentLine s2 + 1))
                     (m_numberOfCharactersConsumedPriorToCurrentString s2
                      + Substring.numberOfCharactersConsumed (m_currentString s2))
              else s2 in
    Some (if haveOneCharacterLeft then updateSlowCaseFunctionPointers s3 else s3)
  else callAdvanceFunc (m_advanceAndUpdateLineNumberFunc s) s.

(** push(UChar) *)
Definition push (c : Z) (s : SegmentedString) : option SegmentedString :=
  if m_pushedChar1 s =? 0 then
    let s1 := set_pushed s c (m_pushedChar2 s) in
    cur ← (if negb (m_pushedChar1 s1 =? 0) then Some (m_pushedChar1 s1)
           else Substring.getCurrentChar (m_currentString s1));
    Some (updateSlowCaseFunctionPointers (set_currentChar s1 cur))
  else
    ASSERT (m_pushedChar2 s =? 0);;
    Some (set_pushed s (m_pushedChar1 s) c).

Definition advanceAndASSERT (expectedCharacter : Z) (s : SegmentedString)
  : option SegmentedString :=
  ASSERT (m_currentChar s =? expectedCharacter);; advance s.

Definition advancePastNonNewline (s : SegmentedString) : option SegmentedString :=
  ASSERT (negb (m_currentChar s =? 10));; advance s.

Definition advancePastNewlineAndUpdateLineNumber (s : SegmentedString)
  : option SegmentedString :=
  ASSERT (m_currentChar s =? 10);;
  if (m_pushedChar1 s =? 0) && (1 <? Substring.m_length (m_currentString s)) then
    let newLineFlag := Substring.m_doNotExcludeLineNumbers (m_currentString s) in
    let s1 := set_currentLine s (m_currentLine s + Z.b2z newLineFlag) in
    let s2 := if newLineFlag then set_priorLine s1 (numberOfCharactersConsumed s1 + 1) else s1 in
    s3 ← decrementAndCheckLength s2;
    '(sub, c) ← Substring.incrementAndGetCurrentChar (m_currentString s3);
    Some (set_currentChar (set_currentString s3 sub) c)
  else advanceAndUpdateLineNumberSlowCase s.

(** advance(unsigned, UChar * ): consumes [count] characters into a buffer. *)
Fixpoint advanceCollect (count : nat) (s : SegmentedString)
  : option (list Z * SegmentedString) :=
  match count with
  | O => Some ([], s)
  | S n => s1 ← advance s;
           '(cs, s2) ← advanceCollect n s1;
           Some (m_currentChar s :: cs, s2)
  end.

Definition advanceCount (count : Z) (s : SegmentedString)
  : option (list Z * SegmentedString) :=
  ASSERT (count <=? lengthSS s);; advanceCollect (Z.to_nat count) s.

(** ** Look-ahead *)
Inductive LookAheadResult := DidNotMatch | DidMatch | NotEnoughCharacters.

Section LookAhead.
(** [WTF::Unicode::foldCase] is the Unicode library's simple case folding. *)
Variable foldCase : Z -> Z.

Definition equalUnits (caseSensitive : bool) (a b : Z) : bool :=
  if caseSensitive then a =? b else foldCase a =? foldCase b.

(** String::startsWith(string, caseSensitive) *)
Fixpoint startsWith (str prefix : list Z) (caseSensitive : bool) : bool :=
  match prefix, str with
  | [], _ => true
  | _ :: _, [] => false
  | p :: prefix', c :: str' =>
      equalUnits caseSensitive c p && startsWith str' prefix' caseSensitive
  end.

Definition lookAheadSlowCase (str : list Z) (caseSensitive : bool) (s : SegmentedString)
  : option (LookAheadResult * SegmentedString) :=
  let count := Z.of_nat (length str) in
  if lengthSS s <? count then Some (NotEnoughCharacters, s) else
  '(consumedString, s1) ← advanceCount count s;
  let result := if startsWith consumedString str caseSensitive then DidMatch else DidNotMatch in
  seg ← ofString (mkString consumedString false);
  s2 ← prepend seg s1;
  Some (result, s2).

Definition lookAheadInline (str : list Z) (caseSensitive : bool) (s : SegmentedString)
  : option (LookAheadResult * SegmentedString) :=
  if (m_pushedChar1 s =? 0)
     && (Z.of_nat (length str) <=? Substring.m_length (m_currentString s)) then
    let currentSubstring :=
      Substring.currentSubString (m_currentString s) (Z.of_nat (length str)) in
    Some (if startsWith currentSubstring str caseSensitive then DidMatch else DidNotMatch, s)
  else lookAheadSlowCase str caseSensitive s.

Definition advanceAndASSERTIgnoringCase (expectedCharacter : Z) (s : SegmentedString)
  : option SegmentedString :=
  ASSERT (foldCase (m_currentChar s) =? foldCase expectedCharacter);; advance s.

End LookAhead.

(** ** Positions *)
Definition currentLine (s : SegmentedString) : Z := m_currentLine s.

Definition currentColumn (s : SegmentedString) : Z :=
  numberOfCharactersConsumed s - m_numberOfCharactersConsumedPriorToCurrentLine s.

Definition setCurrentPosition (line columnAftreProlog prologLength : Z) (s : SegmentedString)
  : SegmentedString :=
  set_priorLine (set_currentLine s line)
    (numberOfCharactersConsumed s + prologLength - columnAftreProlog).
