(* ===== verification/CharSource.v ===== *)
(** * The interface between the tokenizer and its input buffer

    [Q] is the abstract state of a [SegmentedString] the tokenizer can observe:
    the code units still to come, how many of them are pushed-back characters,
    the empty and closed flags and the number of characters consumed.  [CharSource]
    lists the member functions the tokenizer, the preprocessor and the character
    reference parser call; [CharSourceOk] says that they do to the abstract state
    what the queue operations of [Q] do.  The client code is written once against
    [CharSource]; its theorems are proved on [Q] and carried to every instance of
    [CharSourceOk], SegmentedString.v being one. *)

From S2P Require Import Prelude SegmentedString.

(** ** The abstract queue

    The first [q_pushed] characters of [q_pending] are pushed-back ones. *)
Record Q := mkQ {
  q_pending : list Z;
  q_pushed : nat;
  q_closed : bool;
  q_consumed : Z }.

(** [isEmpty()] does not see pushed-back characters: a queue that holds nothing
    else counts as empty. *)
Definition q_isEmpty (q : Q) : bool := Nat.eqb (length (q_pending q)) (q_pushed q).

Definition q_wf (q : Q) : Prop :=
  (q_pushed q <= length (q_pending q))%nat /\ (q_pushed q <= 2)%nat.

Definition q_head (q : Q) : Z := default 0 (head (q_pending q)).

(** Consuming a character; consuming from an empty queue does nothing. *)
Definition q_advance (q : Q) : Q :=
  match q_pending q with
  | [] => q
  | _ :: rest => mkQ rest (pred (q_pushed q)) (q_closed q) (q_consumed q + 1)
  end.

(** Pushing back one character: the second one goes behind the first. *)
Definition q_push (c : Z) (q : Q) : option Q :=
  ASSERT (Nat.ltb (q_pushed q) 2 && negb (c =? 0));;
  Some (mkQ (take (q_pushed q) (q_pending q) ++ c :: drop (q_pushed q) (q_pending q))
            (S (q_pushed q)) (q_closed q) (q_consumed q - 1)).

(** Putting a string in front. *)
Definition q_prepend (l : list Z) (q : Q) : option Q :=
  ASSERT (Nat.eqb (q_pushed q) 0);;
  Some (mkQ (l ++ q_pending q) 0 (q_closed q) (q_consumed q - Z.of_nat (length l))).

(** Appending a string at the end. *)
Definition q_append (l : list Z) (q : Q) : option Q :=
  ASSERT (negb (q_closed q));;
  Some (mkQ (q_pending q ++ l) (q_pushed q) (q_closed q) (q_consumed q)).

Definition q_close (q : Q) : option Q :=
  ASSERT (negb (q_closed q));;
  Some (mkQ (q_pending q) (q_pushed q) true (q_consumed q)).

(** Looking ahead leaves the characters in place; a look-ahead that had to
    collect them turns pushed-back characters into ordinary ones. *)
Definition q_lookAhead (foldCase : Z -> Z) (str : list Z) (caseSensitive : bool) (q : Q)
  : LookAheadResult * Q :=
  if Nat.ltb (length (q_pending q)) (length str) then (NotEnoughCharacters, q)
  else (if startsWith foldCase (q_pending q) str caseSensitive then DidMatch else DidNotMatch,
        mkQ (q_pending q) 0 (q_closed q) (q_consumed q)).

(** ** The interface *)
Class CharSource (S : Type) := {
  src_isEmpty : S -> bool;
  src_isClosed : S -> bool;
  src_length : S -> Z;
  src_currentChar : S -> Z;
  src_consumed : S -> Z;
  src_advance : S -> option S;
  src_advanceAndUpdateLineNumber : S -> option S;
  src_advancePastNewlineAndUpdateLineNumber : S -> option S;
  src_push : Z -> S -> option S;
  src_prepend : list Z -> S -> option S;
  src_lookAhead : (Z -> Z) -> list Z -> bool -> S -> option (LookAheadResult * S) }.

(** [refines valid abs m q]: [m] succeeds, in a valid state that represents [q]. *)
Definition refines {S} (valid : S -> Prop) (abs : S -> Q) (m : option S) (q : Q) : Prop :=
  exists s', m = Some s' /\ valid s' /\ abs s' = q.

Class CharSourceOk (S : Type) `{CharSource S} := {
  src_valid : S -> Prop;
  src_abs : S -> Q;
  src_wf s : src_valid s -> q_wf (src_abs s);
  src_isEmpty_ok s : src_valid s -> src_isEmpty s = q_isEmpty (src_abs s);
  src_isClosed_ok s : src_valid s -> src_isClosed s = q_closed (src_abs s);
  src_length_ok s : src_valid s -> src_length s = Z.of_nat (length (q_pending (src_abs s)));
  src_currentChar_ok s : src_valid s -> src_currentChar s = q_head (src_abs s);
  src_consumed_ok s : src_valid s -> src_consumed s = q_consumed (src_abs s);
  src_advance_ok s : src_valid s ->
    refines src_valid src_abs (src_advance s) (q_advance (src_abs s));
  src_advanceLn_ok s : src_valid s ->
    refines src_valid src_abs (src_advanceAndUpdateLineNumber s) (q_advance (src_abs s));
  src_advancePastNewline_ok s : src_valid s -> q_head (src_abs s) = 10 ->
    refines src_valid src_abs (src_advancePastNewlineAndUpdateLineNumber s)
      (q_advance (src_abs s));
  src_push_ok s c q : src_valid s -> q_push c (src_abs s) = Some q ->
    refines src_valid src_abs (src_push c s) q;
  src_prepend_ok s l q : src_valid s -> q_prepend l (src_abs s) = Some q ->
    refines src_valid src_abs (src_prepend l s) q;
  src_lookAhead_ok f str b s : src_valid s -> q_isEmpty (src_abs s) = false ->
    (2 <= length str)%nat ->
    exists s', src_lookAhead f str b s = Some ((q_lookAhead f str b (src_abs s)).1, s') /\
      src_valid s' /\ src_abs s' = (q_lookAhead f str b (src_abs s)).2 }.

(** ** The abstract queue is an instance *)
#[export] Instance Q_CharSource : CharSource Q := {
  src_isEmpty := q_isEmpty;
  src_isClosed := q_closed;
  src_length q := Z.of_nat (length (q_pending q));
  src_currentChar := q_head;
  src_consumed := q_consumed;
  src_advance q := Some (q_advance q);
  src_advanceAndUpdateLineNumber q := Some (q_advance q);
  src_advancePastNewlineAndUpdateLineNumber q := ASSERT (q_head q =? 10);; Some (q_advance q);
  src_push := q_push;
  src_prepend := q_prepend;
  src_lookAhead f str b q := Some (q_lookAhead f str b q) }.

Lemma q_advance_wf (q : Q) : q_wf q -> q_wf (q_advance q).
Proof.
  unfold q_wf, q_advance. destruct q as [[|c l] p cl n]; simpl; lia.
Qed.

Lemma q_push_wf (c : Z) (q q' : Q) : q_wf q -> q_push c q = Some q' -> q_wf q'.
Proof.
  unfold q_wf, q_push. intros [H1 H2] [H3 H4]%ASSERT_bind. simplify_eq. simpl.
  rewrite length_app, length_take. simpl. rewrite length_drop.
  apply andb_true_iff in H3 as [H3 _]. apply Nat.ltb_lt in H3. lia.
Qed.

Lemma q_prepend_wf (l : list Z) (q q' : Q) : q_prepend l q = Some q' -> q_wf q'.
Proof.
  unfold q_wf, q_prepend. intros [H3 H4]%ASSERT_bind. simplify_eq. simpl. lia.
Qed.

#[export] Program Instance Q_CharSourceOk : CharSourceOk Q := {
  src_valid := q_wf; src_abs q := q }.
Solve Obligations with
  (try solve [done | intros; eexists; split; [done | split; [by apply q_advance_wf | done]]]).
Next Obligation.
  intros s H E. exists (q_advance s). simpl. rewrite E. simpl.
  split; [done | split; [by apply q_advance_wf | done]].
Qed.
Next Obligation.
  intros s c q H E. exists q. split; [done | split; [| done]]. by eapply q_push_wf.
Qed.
Next Obligation.
  intros s l q H E. exists q. split; [done | split; [| done]]. by eapply q_prepend_wf.
Qed.
Next Obligation.
  intros f str b s H E Hl. exists (q_lookAhead f str b s).2. split.
  - simpl. by destruct (q_lookAhead f str b s).
  - split; [| done]. unfold q_lookAhead, q_wf in *. case_match; simpl; lia.
Qed.

(** ** Programs over a source refine the same programs over the queue

    The client code is polymorphic in the source; [refR] relates its run over a
    concrete source with its run over the abstract queue. *)
Section Refinement.
Context {S : Type} `{CharSourceOk S}.

Definition refS (m : option S) (mq : option Q) : Prop :=
  forall q, mq = Some q -> refines src_valid src_abs m q.

Definition refR {A} (m : result (A * S)) (mq : result (A * Q)) : Prop :=
  forall a q, mq = Ok (a, q) -> exists s, m = Ok (a, s) /\ src_valid s /\ src_abs s = q.

Lemma refR_ret {A} (a : A) (s : S) : src_valid s -> refR (Ok (a, s)) (Ok (a, src_abs s)).
Proof. intros Hv a' q [= <- <-]. eauto. Qed.

Lemma refR_fail {A} (m : result (A * S)) : refR m Failed.
Proof. by intros a q. Qed.

Lemma refR_bind {A B} (m : result (A * S)) (mq : result (A * Q))
    (f : A * S -> result (B * S)) (g : A * Q -> result (B * Q)) :
  refR m mq -> (forall a s, src_valid s -> refR (f (a, s)) (g (a, src_abs s))) ->
  refR (m ≫= f) (mq ≫= g).
Proof.
  intros Hm Hf b q. destruct mq as [[a q1] | |]; simpl; [| done..].
  destruct (Hm a q1 eq_refl) as (s1 & -> & Hv & <-). simpl. by apply Hf.
Qed.

Lemma refR_liftS {B} (m : option S) (mq : option Q) (f : S -> result (B * S))
    (g : Q -> result (B * Q)) :
  refS m mq -> (forall s, src_valid s -> refR (f s) (g (src_abs s))) ->
  refR (lift m ≫= f) (lift mq ≫= g).
Proof.
  intros Hm Hf b q. destruct mq as [q1 |]; simpl; [| done].
  destruct (Hm q1 eq_refl) as (s1 & -> & Hv & <-). simpl. by apply Hf.
Qed.

Lemma refR_pure {A B} (m : option A) (f : A -> result (B * S)) (g : A -> result (B * Q)) :
  (forall a, m = Some a -> refR (f a) (g a)) -> refR (lift m ≫= f) (lift m ≫= g).
Proof. intros Hf. destruct m as [a |]; simpl; [by apply Hf | done]. Qed.

Lemma refS_bind (m : option S) (mq : option Q) (f : S -> option S) (g : Q -> option Q) :
  refS m mq -> (forall s, src_valid s -> refS (f s) (g (src_abs s))) ->
  refS (m ≫= f) (mq ≫= g).
Proof.
  intros Hm Hf q. destruct mq as [q1 |]; simpl; [| done].
  destruct (Hm q1 eq_refl) as (s1 & -> & Hv & <-). simpl. by apply Hf.
Qed.

Lemma refS_assert (b : bool) (m : option S) (mq : option Q) :
  refS m mq -> refS (ASSERT b;; m) (ASSERT b;; mq).
Proof. by destruct b. Qed.

Lemma refS_advance (s : S) : src_valid s -> refS (src_advance s) (src_advance (src_abs s)).
Proof. intros Hv q [= <-]. by apply src_advance_ok. Qed.

Lemma refS_advanceLn (s : S) :
  src_valid s -> refS (src_advanceAndUpdateLineNumber s) (src_advanceAndUpdateLineNumber (src_abs s)).
Proof. intros Hv q [= <-]. by apply src_advanceLn_ok. Qed.

Lemma refS_advancePastNewline (s : S) :
  src_valid s -> refS (src_advancePastNewlineAndUpdateLineNumber s)
                   (src_advancePastNewlineAndUpdateLineNumber (src_abs s)).
Proof.
  intros Hv q. simpl. intros [E [= <-]]%ASSERT_bind. apply Z.eqb_eq in E.
  by apply src_advancePastNewline_ok.
Qed.

Lemma refS_push (c : Z) (s : S) : src_valid s -> refS (src_push c s) (src_push c (src_abs s)).
Proof. intros Hv q E. by apply src_push_ok. Qed.

Lemma refS_prepend (l : list Z) (s : S) :
  src_valid s -> refS (src_prepend l s) (src_prepend l (src_abs s)).
Proof. intros Hv q E. by apply src_prepend_ok. Qed.

Lemma refR_lookAhead (f : Z -> Z) (str : list Z) (b : bool) (s : S) :
  src_valid s -> q_isEmpty (src_abs s) = false -> (2 <= length str)%nat ->
  refR (lift (src_lookAhead f str b s)) (lift (src_lookAhead f str b (src_abs s))).
Proof.
  intros Hv He Hl a q. simpl. intros E.
  destruct (src_lookAhead_ok f str b s Hv He Hl) as (s' & -> & Hv' & Habs).
  injection E as E. exists s'. rewrite E in Habs |- *. done.
Qed.
End Refinement.
