(* ===== verification/SegmentedStringSpec.v ===== *)
(** * SegmentedString implements the abstract queue

    The class invariant [wf] of [SegmentedString], the abstraction [abs] to the
    queue of CharSource.v, and the refinement theorems: every member function
    keeps the invariant, stays inside its buffers, passes its assertions, and
    does to the abstraction what the queue operation does. *)

From S2P Require Import Prelude SegmentedString CharSource.

(** ** The representation invariant *)

(** The data pointer sits at the first character not yet consumed. *)
Definition sub_wf (sub : Substring.t) : Prop :=
  0 <= Substring.m_length sub <= Z.of_nat (length (Substring.m_string sub)) /\
  (0 < Substring.m_length sub ->
   Substring.m_data sub = Some (Z.to_nat (Substring.numberOfCharactersConsumed sub))).

(** The characters of a substring that are not consumed. *)
Definition remaining (sub : Substring.t) : list Z :=
  drop (Z.to_nat (Substring.numberOfCharactersConsumed sub)) (Substring.m_string sub).

Definition pushedChars (s : SegmentedString) : list Z :=
  if m_pushedChar1 s =? 0 then []
  else m_pushedChar1 s :: (if m_pushedChar2 s =? 0 then [] else [m_pushedChar2 s]).

Definition restChars (l : list Substring.t) : list Z := concat (remaining <$> l).

(** The characters to come, in order. *)
Definition view (s : SegmentedString) : list Z :=
  pushedChars s ++ remaining (m_currentString s) ++ restChars (m_substrings s).

(** The two function pointers and the flags agree with the current substring:
    the fast path is on exactly when it may run. *)
Definition dispatch (s : SegmentedString) : Z * AdvanceFunc * AdvanceFunc :=
  (m_fastPathFlags s, m_advanceFunc s, m_advanceAndUpdateLineNumberFunc s).

Definition fastDispatch (sub : Substring.t) : Z * AdvanceFunc * AdvanceFunc :=
  match Substring.m_is8Bit sub, Substring.m_doNotExcludeLineNumbers sub with
  | true, true => (3, advance8Fn, advanceAndUpdateLineNumber8Fn)
  | true, false => (2, advance8Fn, advance8Fn)
  | false, true => (0, advance16Fn, advanceAndUpdateLineNumber16Fn)
  | false, false => (0, advance16Fn, advance16Fn)
  end.

Definition slowDispatch : Z * AdvanceFunc * AdvanceFunc :=
  (0, advanceSlowCaseFn, advanceAndUpdateLineNumberSlowCaseFn).

Definition dispatch_ok (s : SegmentedString) : Prop :=
  if (1 <? Substring.m_length (m_currentString s)) && (m_pushedChar1 s =? 0)
  then dispatch s = fastDispatch (m_currentString s)
  else dispatch s = slowDispatch \/
       (dispatch s = (0, advanceEmptyFn, advanceEmptyFn) /\
        Substring.m_length (m_currentString s) = 0 /\ m_pushedChar1 s = 0).

(** Everything but the cached current character and the dispatch. *)
Record shape (s : SegmentedString) : Prop := {
  shape_cur : sub_wf (m_currentString s);
  shape_subs : Forall (fun sub => sub_wf sub /\ 0 < Substring.m_length sub) (m_substrings s);
  shape_comp : Substring.m_length (m_currentString s) = 0 -> m_substrings s = [];
  shape_push : m_pushedChar1 s = 0 -> m_pushedChar2 s = 0 }.

Record wf (s : SegmentedString) : Prop := {
  wf_shape : shape s;
  wf_char : m_currentChar s = default 0 (head (view s));
  wf_empty : m_empty s = (Substring.m_length (m_currentString s) =? 0);
  wf_dispatch : dispatch_ok s }.

Definition abs (s : SegmentedString) : Q :=
  mkQ (view s) (length (pushedChars s)) (m_closed s) (numberOfCharactersConsumed s).

#[export] Instance SegmentedString_CharSource : CharSource SegmentedString := {
  src_isEmpty := m_empty;
  src_isClosed := m_closed;
  src_length := lengthSS;
  src_currentChar := m_currentChar;
  src_consumed := numberOfCharactersConsumed;
  src_advance := advance;
  src_advanceAndUpdateLineNumber := advanceAndUpdateLineNumber;
  src_advancePastNewlineAndUpdateLineNumber := advancePastNewlineAndUpdateLineNumber;
  src_push := push;
  src_prepend l s := seg ← ofString (mkString l false); prepend seg s;
  src_lookAhead := lookAheadInline }.

(** ** Substrings *)

Lemma remaining_length (sub : Substring.t) :
  sub_wf sub -> Z.of_nat (length (remaining sub)) = Substring.m_length sub.
Proof.
  intros [H _]. unfold remaining, Substring.numberOfCharactersConsumed.
  rewrite length_drop. lia.
Qed.

Lemma remaining_nil (sub : Substring.t) :
  sub_wf sub -> Substring.m_length sub = 0 -> remaining sub = [].
Proof. intros H E. apply remaining_length in H. destruct (remaining sub); simpl in *; [done | lia]. Qed.

(** Reading through the pointer of a non-empty substring gives its first
    remaining character. *)
Lemma sub_read (sub : Substring.t) :
  sub_wf sub -> 0 < Substring.m_length sub ->
  exists c, Substring.getCurrentChar sub = Some c /\
    remaining sub = c :: remaining (Substring.set_length (Substring.m_length sub - 1) sub).
Proof.
  intros [H Hd] Hl. specialize (Hd Hl).
  destruct (drop_nonempty_lookup (Substring.m_string sub)
    (Z.to_nat (Substring.numberOfCharactersConsumed sub))) as (c & Hc & Hdrop).
  { unfold Substring.numberOfCharactersConsumed. lia. }
  exists c. split.
  - unfold Substring.getCurrentChar. replace (Substring.m_length sub =? 0) with false by lia.
    simpl. unfold Substring.getCurrentChar8, Substring.getCurrentChar16. rewrite Hd.
    simpl. rewrite Hc. by case_match.
  - unfold remaining. rewrite Hdrop. f_equal. f_equal.
    unfold Substring.numberOfCharactersConsumed, Substring.set_length. simpl. lia.
Qed.

Lemma sub_wf_ofString (str : wtfString) :
  sub_wf (Substring.ofString str) /\ remaining (Substring.ofString str) = chars str /\
  Substring.m_length (Substring.ofString str) = Z.of_nat (length (chars str)) /\
  Substring.numberOfCharactersConsumed (Substring.ofString str) = 0.
Proof.
  unfold sub_wf, remaining, Substring.numberOfCharactersConsumed, Substring.ofString.
  case_match; simpl; (split; [split; [lia |] | split; [| lia]]);
    try (intros; f_equal; lia); rewrite Z.sub_diag; done.
Qed.

(** The state of a substring after one character is consumed from it. *)
Definition sub_step (sub : Substring.t) : Substring.t :=
  Substring.set_data (S (Z.to_nat (Substring.numberOfCharactersConsumed sub)))
    (Substring.set_length (Substring.m_length sub - 1) sub).

Lemma sub_step_wf (sub : Substring.t) :
  sub_wf sub -> 0 < Substring.m_length sub -> sub_wf (sub_step sub).
Proof.
  intros [H Hd] Hl. unfold sub_wf, sub_step, Substring.numberOfCharactersConsumed in *.
  simpl in *. split; [lia | intros; f_equal; lia].
Qed.

Lemma sub_step_remaining (sub : Substring.t) :
  remaining (sub_step sub) = remaining (Substring.set_length (Substring.m_length sub - 1) sub).
Proof. done. Qed.

(** [*++m_data] after the length was decremented, when a character is left. *)
Lemma sub_increment (sub : Substring.t) :
  sub_wf sub -> 1 < Substring.m_length sub ->
  exists c, remaining (sub_step sub) = c :: remaining (sub_step (sub_step sub)) /\
    forall f, f = Substring.incrementAndGetCurrentChar8 \/
         f = Substring.incrementAndGetCurrentChar16 \/
         f = Substring.incrementAndGetCurrentChar ->
      f (Substring.set_length (Substring.m_length sub - 1) sub) = Some (sub_step sub, c).
Proof.
  intros Hwf Hl. pose proof (sub_step_wf sub Hwf ltac:(lia)) as Hwf'.
  destruct (sub_read (sub_step sub) Hwf') as (c & Hread & Hrem); [simpl; lia |].
  exists c. split; [exact Hrem |].
  destruct Hwf as [Hb Hd]. specialize (Hd ltac:(lia)).
  assert (Substring.m_string sub !! S (Z.to_nat (Substring.numberOfCharactersConsumed sub)) = Some c)
    as Hlook.
  { unfold Substring.getCurrentChar in Hread. simpl in Hread.
    replace (Substring.m_length sub - 1 =? 0) with false in Hread by lia. simpl in Hread.
    unfold Substring.getCurrentChar8, Substring.getCurrentChar16 in Hread. simpl in Hread.
    by destruct (Substring.m_is8Bit sub). }
  assert (Hinc : forall sub', Substring.m_data sub' = Substring.m_data sub ->
     Substring.m_string sub' = Substring.m_string sub ->
     Substring.incrementAndGetCurrentChar8 sub' =
       Some (Substring.set_data (S (Z.to_nat (Substring.numberOfCharactersConsumed sub))) sub', c)).
  { intros sub' E1 E2. unfold Substring.incrementAndGetCurrentChar8.
    rewrite E1, E2, Hd. simpl. by rewrite Hlook. }
  intros f [-> | [-> | ->]]; [by apply Hinc | by apply Hinc |].
  unfold Substring.incrementAndGetCurrentChar. simpl.
  replace (Substring.m_length sub - 1 =? 0) with false by lia. simpl.
  by case_match; apply Hinc.
Qed.

(** ** Function pointers *)

Lemma update_dispatch_ok (s : SegmentedString) : dispatch_ok (updateAdvanceFunctionPointers s).
Proof.
  unfold updateAdvanceFunctionPointers.
  destruct ((1 <? Substring.m_length (m_currentString s)) && (m_pushedChar1 s =? 0)) eqn:E.
  - unfold dispatch_ok, fastDispatch, dispatch.
    destruct (Substring.m_is8Bit (m_currentString s)) eqn:E8,
      (Substring.m_doNotExcludeLineNumbers (m_currentString s)) eqn:En;
      simpl; rewrite E; by rewrite ?E8, ?En.
  - unfold dispatch_ok, dispatch. destruct (_ && negb (isComposite s)); simpl; rewrite E; by left.
Qed.

(** What [updateAdvanceFunctionPointers] leaves alone. *)
Lemma update_frame (s : SegmentedString) :
  exists f g h, updateAdvanceFunctionPointers s = set_advance s f g h.
Proof.
  unfold updateAdvanceFunctionPointers, updateSlowCaseFunctionPointers.
  repeat case_match; eauto.
Qed.

(** The two line counters, which are not part of the queue. *)
Definition lines (s : SegmentedString) : Z * Z :=
  (m_currentLine s, m_numberOfCharactersConsumedPriorToCurrentLine s).

(** [runs m q l]: [m] succeeds in a well-formed state that represents [q] and has
    the line counters [l]. *)
Definition runs (m : option SegmentedString) (q : Q) (l : Z * Z) : Prop :=
  exists s', m = Some s' /\ wf s' /\ abs s' = q /\ lines s' = l.

Lemma runs_refines (m : option SegmentedString) (q : Q) (l : Z * Z) :
  runs m q l -> refines wf abs m q.
Proof. intros (s' & ? & ? & ? & _). by exists s'. Qed.

(** A state that lacks only its cached character. *)
Record almost (s : SegmentedString) : Prop := {
  almost_shape : shape s;
  almost_empty : m_empty s = (Substring.m_length (m_currentString s) =? 0);
  almost_dispatch : dispatch_ok s }.

Lemma wf_almost (s : SegmentedString) : wf s -> almost s.
Proof. intros []; by split. Qed.

Lemma almost_wf (s : SegmentedString) (c : Z) :
  almost s -> c = default 0 (head (view s)) -> wf (set_currentChar s c).
Proof. intros [] ->. split; try done. by destruct almost_shape0. Qed.

Lemma reload_ok (s : SegmentedString) :
  almost s -> m_pushedChar1 s = 0 -> runs (reloadCurrentChar s) (abs s) (lines s).
Proof.
  intros Ha Hp. unfold reloadCurrentChar, currentStringChar.
  assert (Hv : view s = remaining (m_currentString s) ++ restChars (m_substrings s)).
  { unfold view, pushedChars. by rewrite Hp. }
  destruct (almost_shape _ Ha) as [Hcur _ Hcomp _].
  destruct (Substring.m_length (m_currentString s) =? 0) eqn:E; simpl; bool_to_prop.
  - eexists. split; [done | split; [| done]]. apply almost_wf; [done |].
    rewrite Hv, remaining_nil, Hcomp by done. done.
  - destruct (sub_read (m_currentString s) Hcur) as (c & Hc & Hrem); [destruct Hcur; lia |].
    rewrite Hc. simpl. eexists. split; [done | split; [| done]].
    apply almost_wf; [done |]. by rewrite Hv, Hrem.
Qed.

(** ** The abstraction of an unpushed state *)

Lemma view_unpushed (s : SegmentedString) :
  m_pushedChar1 s = 0 ->
  view s = remaining (m_currentString s) ++ restChars (m_substrings s) /\
  length (pushedChars s) = 0%nat.
Proof. intros Hp. unfold view, pushedChars. by rewrite Hp. Qed.

Lemma consumed_unpushed (s : SegmentedString) :
  m_pushedChar1 s = 0 ->
  numberOfCharactersConsumed s =
    m_numberOfCharactersConsumedPriorToCurrentString s
    + Substring.numberOfCharactersConsumed (m_currentString s).
Proof. intros Hp. unfold numberOfCharactersConsumed. rewrite Hp. simpl. lia. Qed.

(** Equality of abstractions from the four observations. *)
Lemma abs_eq (s : SegmentedString) (q : Q) :
  view s = q_pending q -> length (pushedChars s) = q_pushed q ->
  m_closed s = q_closed q -> numberOfCharactersConsumed s = q_consumed q -> abs s = q.
Proof. destruct q; simpl. unfold abs. by intros -> -> -> ->. Qed.

(** The queue after one character of the current substring is consumed. *)
Lemma q_advance_current (s : SegmentedString) (c : Z) (rest : list Z) :
  m_pushedChar1 s = 0 -> view s = c :: rest ->
  q_advance (abs s) = mkQ rest 0 (m_closed s) (numberOfCharactersConsumed s + 1).
Proof.
  intros Hp Hv. unfold q_advance, abs. rewrite Hv. simpl.
  by rewrite (proj2 (view_unpushed s Hp)).
Qed.

(** ** Advancing: the slow case *)

Lemma advanceSubstring_ok (s : SegmentedString) :
  shape s -> m_pushedChar1 s = 0 -> Substring.m_length (m_currentString s) = 1 ->
  m_empty s = false ->
  let s' := advanceSubstring (decrementLength s) in
  almost s' /\ m_pushedChar1 s' = 0 /\ abs s' = q_advance (abs s) /\ lines s' = lines s.
Proof.
  intros [Hcur Hsubs Hcomp Hpush] Hp Hl He.
  destruct (sub_read (m_currentString s) Hcur ltac:(lia)) as (c & _ & Hrem).
  assert (Hrest : remaining (Substring.set_length 0 (m_currentString s)) = []).
  { apply remaining_nil; [| done]. destruct Hcur as [? ?]. split; simpl; [lia | lia]. }
  rewrite Hl in Hrem. change (1 - 1) with 0 in Hrem. rewrite Hrest in Hrem.
  assert (Hadv := q_advance_current s c (restChars (m_substrings s)) Hp).
  rewrite (proj1 (view_unpushed s Hp)), Hrem in Hadv. specialize (Hadv eq_refl).
  unfold decrementLength. rewrite Hl. change (1 - 1) with 0.
  unfold advanceSubstring. simpl. destruct (m_substrings s) as [| sub rest] eqn:Es; simpl.
  - split; [split | split; [done | split; [| done]]].
    + split; simpl; try done; [| by rewrite Es].
      destruct Hcur as [? ?]. split; simpl; lia.
    + done.
    + unfold dispatch_ok. simpl. rewrite Hp. right. done.
    + rewrite Hadv. apply abs_eq; simpl; unfold view, pushedChars; simpl; rewrite ?Hp; simpl; try done.
      * rewrite Es. simpl. rewrite remaining_nil; [done | | done].
        destruct Hcur as [? ?]. split; simpl; lia.
      * rewrite !consumed_unpushed by done. simpl.
        unfold Substring.numberOfCharactersConsumed. simpl. lia.
  - apply Forall_cons_1 in Hsubs as [[Hsub Hsublen] Hsubs].
    match goal with |- context [updateAdvanceFunctionPointers ?x] =>
      destruct (update_frame x) as (f & g & h & Hu); pose proof (update_dispatch_ok x) as Hd
    end.
    rewrite Hu in *.
    split; [split | split; [done | split; [| done]]].
    + split; simpl; [done | done | lia | by rewrite Hp; apply Hpush in Hp].
    + simpl. rewrite He. symmetry. apply Z.eqb_neq. lia.
    + done.
    + rewrite Hadv. apply abs_eq; simpl; unfold view, pushedChars; simpl; rewrite ?Hp; simpl; try done.
      rewrite !consumed_unpushed by done. simpl.
      unfold Substring.numberOfCharactersConsumed. simpl. lia.
Qed.

(** Popping a pushed-back character. *)
Lemma pop_ok (s : SegmentedString) :
  wf s -> m_pushedChar1 s <> 0 ->
  runs
    (let s1 := set_pushed s (m_pushedChar2 s) 0 in
     if negb (m_pushedChar1 s1 =? 0) then Some (set_currentChar s1 (m_pushedChar1 s1))
     else reloadCurrentChar (updateAdvanceFunctionPointers s1)) (q_advance (abs s)) (lines s).
Proof.
  intros [[Hcur Hsubs Hcomp Hpush] Hchar Hempty Hdisp] Hp.
  assert (Hadv : q_advance (abs s) =
    abs (set_pushed s (m_pushedChar2 s) 0)).
  { unfold q_advance, abs, view, pushedChars, numberOfCharactersConsumed. simpl.
    replace (m_pushedChar1 s =? 0) with false by lia. simpl.
    destruct (m_pushedChar2 s =? 0) eqn:E2; simpl; f_equal; lia. }
  rewrite Hadv. simpl. destruct (m_pushedChar2 s =? 0) eqn:E2; simpl; bool_to_prop.
  - destruct (update_frame (set_pushed s (m_pushedChar2 s) 0)) as (f & g & h & Hu).
    pose proof (update_dispatch_ok (set_pushed s (m_pushedChar2 s) 0)) as Hd.
    rewrite Hu in *.
    change (abs (set_pushed s (m_pushedChar2 s) 0))
      with (abs (set_advance (set_pushed s (m_pushedChar2 s) 0) f g h)).
    change (lines s) with (lines (set_advance (set_pushed s (m_pushedChar2 s) 0) f g h)).
    apply reload_ok; [split; [split | done | done] | done]; simpl; done.
  - eexists. split; [done | split; [| done]].
    apply almost_wf.
    + split; [split; simpl; done | done |].
      unfold dispatch_ok in *. simpl. replace (m_pushedChar1 s =? 0) with false in Hdisp by lia.
      replace (m_pushedChar2 s =? 0) with false by lia. rewrite andb_false_r in *.
      destruct Hdisp as [Hd | [_ [_ Hd]]]; [by left | done].
    + unfold view, pushedChars. simpl. replace (m_pushedChar2 s =? 0) with false by lia. done.
Qed.

Lemma empty_advance_ok (s : SegmentedString) :
  wf s -> m_pushedChar1 s = 0 -> Substring.m_length (m_currentString s) = 0 ->
  runs
    (if negb (isComposite s) then reloadCurrentChar (clearToEmpty s) else reloadCurrentChar s)
    (q_advance (abs s)) (lines s).
Proof.
  intros [[Hcur Hsubs Hcomp Hpush] Hchar Hempty Hdisp] Hp Hl.
  specialize (Hcomp Hl). unfold isComposite. rewrite Hcomp. simpl.
  assert (Hv : view s = []).
  { rewrite (proj1 (view_unpushed s Hp)), Hcomp, remaining_nil by done. done. }
  assert (Hadv : q_advance (abs s) = abs (clearToEmpty s)).
  { unfold q_advance. unfold abs at 1. simpl. rewrite Hv. symmetry.
    apply abs_eq; simpl; try done.
    - rewrite Hv. unfold view, pushedChars. simpl. rewrite Hp, Hcomp. simpl.
      rewrite remaining_nil; [done | | done]. destruct Hcur as [? ?]. split; simpl; lia.
    - rewrite !consumed_unpushed by done. unfold Substring.numberOfCharactersConsumed. simpl. lia. }
  rewrite Hadv. change (lines s) with (lines (clearToEmpty s)).
  apply reload_ok; [split; [split | |] |]; simpl; try done.
  - destruct Hcur as [? ?]. split; simpl; lia.
  - unfold dispatch_ok. simpl. rewrite Hp. right. done.
Qed.

Lemma advanceSlowCase_ok (s : SegmentedString) :
  wf s -> m_pushedChar1 s <> 0 \/ Substring.m_length (m_currentString s) <= 1 ->
  runs (advanceSlowCase s) (q_advance (abs s)) (lines s).
Proof.
  intros Hwf Hpre. unfold advanceSlowCase.
  destruct (m_pushedChar1 s =? 0) eqn:Ep; simpl; bool_to_prop; [| by apply pop_ok].
  destruct (Substring.m_length (m_currentString s) =? 0) eqn:El; simpl; bool_to_prop;
    [by apply empty_advance_ok |].
  destruct Hwf as [Hs Hchar Hempty Hdisp].
  pose proof (shape_cur _ Hs) as [Hb _].
  assert (Hl1 : Substring.m_length (m_currentString s) = 1) by lia.
  destruct (advanceSubstring_ok s Hs Ep Hl1) as (Ha & Hp & Habs & Hln); [by rewrite Hempty, Hl1 |].
  rewrite Hl1. simpl. rewrite <- Habs, <- Hln. by apply reload_ok.
Qed.

(** ** Advancing: the fast cases *)

(** The line counters are not part of the queue. *)
Definition set_lines (line prior : Z) (s : SegmentedString) : SegmentedString :=
  set_priorLine (set_currentLine s line) prior.

Lemma wf_lines (line prior : Z) (s : SegmentedString) : wf (set_lines line prior s) <-> wf s.
Proof.
  split; intros [[] Hc He Hd]; (split; [by split | exact Hc | exact He | exact Hd]).
Qed.

Lemma wf_countNewline (s : SegmentedString) : wf s -> wf (countNewline s).
Proof. intros H. by apply wf_lines. Qed.

(** The state after one character of a current substring of two or more. *)
Definition fastStep (s : SegmentedString) (c : Z) : SegmentedString :=
  let s1 := set_currentChar (set_currentString s (sub_step (m_currentString s))) c in
  if Substring.m_length (m_currentString s) - 1 =? 1
  then updateSlowCaseFunctionPointers s1 else s1.

Lemma fastStep_ok (s : SegmentedString) (c : Z) :
  wf s -> m_pushedChar1 s = 0 -> 1 < Substring.m_length (m_currentString s) ->
  remaining (sub_step (m_currentString s)) = c :: remaining (sub_step (sub_step (m_currentString s))) ->
  wf (fastStep s c) /\ abs (fastStep s c) = q_advance (abs s) /\ lines (fastStep s c) = lines s.
Proof.
  intros [[Hcur Hsubs Hcomp Hpush] Hchar Hempty Hdisp] Hp Hl Hrem.
  destruct (sub_read (m_currentString s) Hcur ltac:(lia)) as (c0 & _ & Hrem0).
  rewrite <- sub_step_remaining, Hrem in Hrem0.
  assert (Hadv := q_advance_current s c0
    (remaining (sub_step (m_currentString s)) ++ restChars (m_substrings s)) Hp).
  rewrite (proj1 (view_unpushed s Hp)), Hrem0, <- Hrem in Hadv. specialize (Hadv eq_refl).
  rewrite Hadv. unfold fastStep.
  assert (Hs : shape (set_currentChar (set_currentString s (sub_step (m_currentString s))) c)).
  { split; simpl; [apply sub_step_wf; [done | lia] | done | lia | done]. }
  assert (Habs : abs (set_currentChar (set_currentString s (sub_step (m_currentString s))) c) =
    mkQ (remaining (sub_step (m_currentString s)) ++ restChars (m_substrings s)) 0 (m_closed s)
      (numberOfCharactersConsumed s + 1)).
  { apply abs_eq; simpl; unfold view, pushedChars; simpl; rewrite ?Hp; simpl; try done.
    rewrite !consumed_unpushed by done. simpl.
    unfold sub_step, Substring.numberOfCharactersConsumed. simpl. lia. }
  assert (Hc : c = default 0 (head (view
    (set_currentChar (set_currentString s (sub_step (m_currentString s))) c)))).
  { unfold view, pushedChars. simpl. rewrite Hp. simpl. by rewrite Hrem. }
  assert (He : m_empty s = (Substring.m_length (m_currentString s) - 1 =? 0)).
  { rewrite Hempty. lia. }
  destruct (Substring.m_length (m_currentString s) - 1 =? 1) eqn:E; bool_to_prop.
  - split; [split; [by destruct Hs | done | done |] | by split].
    unfold dispatch_ok. simpl. replace (1 <? _) with false by lia. by left.
  - split; [split; try done | by split].
    unfold dispatch_ok in *. simpl. rewrite Hp in *. simpl in *.
    replace (1 <? Substring.m_length (m_currentString s)) with true in Hdisp by lia.
    replace (1 <? Substring.m_length (m_currentString s) - 1) with true by lia. exact Hdisp.
Qed.

Lemma decrement_step (s : SegmentedString) (f : SegmentedString -> option SegmentedString) :
  f = stepChar8 \/ f = stepChar16 \/
  f = (fun s3 => '(sub, c) ← Substring.incrementAndGetCurrentChar (m_currentString s3);
                 Some (set_currentChar (set_currentString s3 sub) c)) ->
  wf s -> m_pushedChar1 s = 0 -> 1 < Substring.m_length (m_currentString s) ->
  exists c, remaining (sub_step (m_currentString s))
              = c :: remaining (sub_step (sub_step (m_currentString s))) /\
    (s1 ← decrementAndCheckLength s; f s1) = Some (fastStep s c) /\
    (s2 ← stepChar8 (decrementLength s);
     Some (if Substring.m_length (m_currentString (decrementLength s)) =? 1
           then updateSlowCaseFunctionPointers s2 else s2)) = Some (fastStep s c).
Proof.
  intros Hf Hwf Hp Hl.
  destruct (sub_increment (m_currentString s) (shape_cur _ (wf_shape _ Hwf)) Hl)
    as (c & Hrem & Hinc).
  exists c. split; [exact Hrem |].
  unfold decrementAndCheckLength, fastStep, stepChar8, decrementLength.
  replace (1 <? Substring.m_length (m_currentString s)) with true by lia. simpl.
  rewrite (Hinc Substring.incrementAndGetCurrentChar8) by auto. split; [| done].
  destruct Hf as [-> | [-> | ->]]; unfold stepChar8, stepChar16; simpl;
    destruct (Substring.m_length (m_currentString s) - 1 =? 1); simpl.
  all: rewrite Hinc by auto; done.
Qed.

Lemma fast_call (s : SegmentedString) (f : SegmentedString -> option SegmentedString) :
  f = stepChar8 \/ f = stepChar16 \/
  f = (fun s3 => '(sub, c) ← Substring.incrementAndGetCurrentChar (m_currentString s3);
                 Some (set_currentChar (set_currentString s3 sub) c)) ->
  wf s -> m_pushedChar1 s = 0 -> 1 < Substring.m_length (m_currentString s) ->
  runs (s1 ← decrementAndCheckLength s; f s1) (q_advance (abs s)) (lines s).
Proof.
  intros Hf Hwf Hp Hl.
  destruct (decrement_step s f Hf Hwf Hp Hl) as (c & Hrem & -> & _).
  exists (fastStep s c). split; [done |]. by apply fastStep_ok.
Qed.

(** What the dispatch invariant says of a state the fast path is on for. *)
Lemma dispatch_cases (s : SegmentedString) :
  wf s ->
  (m_pushedChar1 s = 0 /\ 1 < Substring.m_length (m_currentString s) /\
     dispatch s = fastDispatch (m_currentString s)) \/
  ((m_pushedChar1 s <> 0 \/ Substring.m_length (m_currentString s) <= 1) /\
     dispatch s = slowDispatch) \/
  (m_pushedChar1 s = 0 /\ Substring.m_length (m_currentString s) = 0 /\
     dispatch s = (0, advanceEmptyFn, advanceEmptyFn)).
Proof.
  intros [_ _ _ Hd]. unfold dispatch_ok in Hd.
  destruct (1 <? Substring.m_length (m_currentString s)) eqn:El,
    (m_pushedChar1 s =? 0) eqn:Ep; simpl in Hd; bool_to_prop; intuition lia.
Qed.

Lemma advanceEmpty_ok (s : SegmentedString) :
  wf s -> m_pushedChar1 s = 0 -> Substring.m_length (m_currentString s) = 0 ->
  runs (advanceEmpty s) (q_advance (abs s)) (lines s).
Proof.
  intros Hwf Hp Hl. pose proof Hwf as [[Hcur Hsubs Hcomp Hpush] Hchar Hempty Hdisp].
  unfold advanceEmpty, isComposite. rewrite (Hcomp Hl), Hl. simpl.
  assert (Hv : view s = []).
  { rewrite (proj1 (view_unpushed s Hp)), (Hcomp Hl), remaining_nil by done. done. }
  exists (set_currentChar s 0). split; [done | split].
  - apply almost_wf; [by apply wf_almost | by rewrite Hv].
  - split; [| done]. unfold q_advance. unfold abs at 2. simpl. by rewrite Hv.
Qed.

Lemma wf_current_read (s : SegmentedString) :
  wf s -> m_pushedChar1 s = 0 -> 0 < Substring.m_length (m_currentString s) ->
  Substring.getCurrentChar (m_currentString s) = Some (m_currentChar s).
Proof.
  intros [[Hcur _ _ _] Hchar _ _] Hp Hl.
  destruct (sub_read _ Hcur Hl) as (c & Hc & Hrem). rewrite Hc, Hchar. f_equal.
  by rewrite (proj1 (view_unpushed s Hp)), Hrem.
Qed.

(** ** advance() and its line-counting variants *)

(** Both public members take one character off the queue, whichever of the
    seven member functions they end in; the second counts a newline unless the
    character was pushed back or belongs to a substring whose lines are
    excluded. *)
Definition countsNewline (s : SegmentedString) : bool :=
  (m_pushedChar1 s =? 0) && (0 <? Substring.m_length (m_currentString s))
  && (m_currentChar s =? 10) && Substring.m_doNotExcludeLineNumbers (m_currentString s).

Definition linesAfter (s : SegmentedString) : Z * Z :=
  if countsNewline s then (m_currentLine s + 1, numberOfCharactersConsumed s + 1) else lines s.

Lemma advance_runs (s : SegmentedString) :
  wf s -> runs (advance s) (q_advance (abs s)) (lines s).
Proof.
  intros Hwf. unfold advance.
  destruct (dispatch_cases s Hwf) as [(Hp & Hl & Hd) | [(Hpre & Hd) | (Hp & Hl & Hd)]];
    unfold dispatch in Hd.
  - destruct (decrement_step s stepChar8 (or_introl eq_refl) Hwf Hp Hl) as (c & Hrem & Hdec & Hfast).
    unfold fastDispatch in Hd.
    destruct (Substring.m_is8Bit (m_currentString s)) eqn:E8.
    + assert (Hflag : (Z.land (m_fastPathFlags s) Use8BitAdvance =? 0) = false).
      { by destruct (Substring.m_doNotExcludeLineNumbers (m_currentString s));
          injection Hd as -> _ _. }
      rewrite Hflag, Hp. simpl. exists (fastStep s c). split; [| by apply fastStep_ok].
      rewrite <- Hfast. destruct (stepChar8 (decrementLength s)); simpl; [| done].
      by destruct (_ =? 1).
    + assert (Hf : m_fastPathFlags s = 0 /\ m_advanceFunc s = advance16Fn).
      { by destruct (Substring.m_doNotExcludeLineNumbers (m_currentString s));
          injection Hd as -> -> _. }
      destruct Hf as [-> ->]. simpl. unfold advance16. rewrite Hp. simpl.
      apply fast_call; auto.
  - injection Hd as -> -> _. simpl. by apply advanceSlowCase_ok.
  - injection Hd as -> -> _. simpl. by apply advanceEmpty_ok.
Qed.

Lemma advanceLnSlowCase_ok (s : SegmentedString) :
  wf s -> m_pushedChar1 s <> 0 \/ Substring.m_length (m_currentString s) <= 1 ->
  runs (advanceAndUpdateLineNumberSlowCase s) (q_advance (abs s)) (linesAfter s).
Proof.
  intros Hwf Hpre. unfold advanceAndUpdateLineNumberSlowCase, linesAfter, countsNewline.
  destruct (m_pushedChar1 s =? 0) eqn:Ep; simpl; bool_to_prop; [| by apply pop_ok].
  pose proof (shape_cur _ (wf_shape _ Hwf)) as [Hb _].
  destruct (Substring.m_length (m_currentString s) =? 0) eqn:El; simpl; bool_to_prop.
  { rewrite El. simpl. by apply empty_advance_ok. }
  assert (Hl1 : Substring.m_length (m_currentString s) = 1) by lia.
  rewrite (wf_current_read s Hwf Ep) by lia. simpl. rewrite Hl1. simpl.
  set (b := (_ =? 10) && _).
  assert (Hw : wf (if b then countNewline s else s)) by (destruct b; [by apply wf_countNewline | done]).
  destruct (advanceSubstring_ok (if b then countNewline s else s)) as (Ha & Hp' & Habs & Hln).
  - apply Hw.
  - by destruct b.
  - by destruct b.
  - rewrite (wf_empty _ Hw). by destruct b; simpl; rewrite Hl1.
  - assert (E : (Substring.m_length (m_currentString (if b then countNewline s else s)) - 1 =? 0)
      = true) by (destruct b; simpl; rewrite Hl1; done).
    rewrite E. replace (q_advance (abs s)) with (q_advance (abs (if b then countNewline s else s)))
      by by destruct b.
    rewrite <- Habs.
    replace (if b then _ else lines s) with (lines (if b then countNewline s else s))
      by (destruct b; [| done]; unfold countNewline, lines; done).
    rewrite <- Hln. by apply reload_ok.
Qed.

Lemma advanceLn_call (s : SegmentedString) (f : SegmentedString -> option SegmentedString) :
  f = stepChar8 \/ f = stepChar16 ->
  wf s -> m_pushedChar1 s = 0 -> 1 < Substring.m_length (m_currentString s) ->
  Substring.m_doNotExcludeLineNumbers (m_currentString s) = true ->
  runs (ASSERT (m_pushedChar1 s =? 0);;
        c ← Substring.getCurrentChar (m_currentString s);
        ASSERT (c =? m_currentChar s);;
        s2 ← decrementAndCheckLength (if m_currentChar s =? 10 then countNewline s else s); f s2)
    (q_advance (abs s)) (linesAfter s).
Proof.
  intros Hf Hwf Hp Hl Hx. unfold linesAfter, countsNewline.
  rewrite (wf_current_read s Hwf Hp) by lia. rewrite Hp, Hx. simpl.
  rewrite Z.eqb_refl. simpl. replace (0 <? _) with true by lia. simpl. rewrite andb_true_r.
  destruct (m_currentChar s =? 10).
  - apply (fast_call (countNewline s) f); [| by apply wf_countNewline | done | done].
    destruct Hf; auto.
  - apply fast_call; try done. destruct Hf; auto.
Qed.

(** The inlined 8-bit path of [advanceAndUpdateLineNumber]. *)
Lemma advanceLn_fast8 (s : SegmentedString) (b : bool) :
  wf s -> m_pushedChar1 s = 0 -> 1 < Substring.m_length (m_currentString s) ->
  Substring.m_doNotExcludeLineNumbers (m_currentString s) = b ->
  runs
    (let haveNewLine := (m_currentChar s =? 10) && b in
     let s1 := decrementLength s in
     let haveOneCharacterLeft := Substring.m_length (m_currentString s1) =? 1 in
     s2 ← stepChar8 s1;
     if negb (haveNewLine || haveOneCharacterLeft) then Some s2 else
     let s3 := if haveNewLine
               then set_priorLine (set_currentLine s2 (m_currentLine s2 + 1))
                      (m_numberOfCharactersConsumedPriorToCurrentString s2
                       + Substring.numberOfCharactersConsumed (m_currentString s2))
               else s2 in
     Some (if haveOneCharacterLeft then updateSlowCaseFunctionPointers s3 else s3))
    (q_advance (abs s)) (linesAfter s).
Proof.
  intros Hwf Hp Hl Hx.
  destruct (decrement_step s stepChar8 (or_introl eq_refl) Hwf Hp Hl) as (c & Hrem & _ & Hfast).
  unfold linesAfter, countsNewline. rewrite Hp, Hx. simpl.
  replace (0 <? _) with true by lia. simpl.
  destruct (fastStep_ok s c Hwf Hp Hl Hrem) as (Hw & Habs & Hln).
  destruct (sub_increment _ (shape_cur _ (wf_shape _ Hwf)) Hl) as (c' & Hrem' & Hinc).
  rewrite Hrem in Hrem'. injection Hrem' as <-.
  exists (if (m_currentChar s =? 10) && b
          then set_lines (m_currentLine s + 1) (numberOfCharactersConsumed s + 1) (fastStep s c)
          else fastStep s c).
  split; [| by destruct ((m_currentChar s =? 10) && b);
            (split; [by try apply wf_lines | split; [exact Habs | exact Hln || done]])].
  unfold stepChar8, decrementLength. simpl. rewrite Hinc by auto. simpl.
  rewrite consumed_unpushed by done.
  replace (m_numberOfCharactersConsumedPriorToCurrentString s
           + Substring.numberOfCharactersConsumed (sub_step (m_currentString s)))
    with (m_numberOfCharactersConsumedPriorToCurrentString s
          + Substring.numberOfCharactersConsumed (m_currentString s) + 1)
    by (unfold sub_step, Substring.numberOfCharactersConsumed; simpl; lia).
  unfold fastStep.
  by destruct (m_currentChar s =? 10), b, (Substring.m_length (m_currentString s) - 1 =? 1).
Qed.

Lemma advanceLn_runs (s : SegmentedString) :
  wf s -> runs (advanceAndUpdateLineNumber s) (q_advance (abs s)) (linesAfter s).
Proof.
  intros Hwf. unfold advanceAndUpdateLineNumber.
  destruct (dispatch_cases s Hwf) as [(Hp & Hl & Hd) | [(Hpre & Hd) | (Hp & Hl & Hd)]];
    unfold dispatch in Hd.
  - unfold fastDispatch in Hd.
    destruct (Substring.m_is8Bit (m_currentString s)) eqn:E8,
      (Substring.m_doNotExcludeLineNumbers (m_currentString s)) eqn:Ex;
      injection Hd as -> _ ->; simpl.
    + rewrite Hp. simpl. by apply (advanceLn_fast8 s true).
    + rewrite Hp. simpl. by apply (advanceLn_fast8 s false).
    + apply (advanceLn_call s stepChar16); auto.
    + unfold advance16, linesAfter, countsNewline. rewrite Ex, andb_false_r, Hp. simpl.
      apply fast_call; auto.
  - injection Hd as -> _ ->. simpl. by apply advanceLnSlowCase_ok.
  - injection Hd as -> _ ->. simpl. unfold linesAfter, countsNewline. rewrite Hl, andb_false_r.
    simpl. by apply advanceEmpty_ok.
Qed.

Lemma advancePastNewline_runs (s : SegmentedString) :
  wf s -> m_currentChar s = 10 ->
  runs (advancePastNewlineAndUpdateLineNumber s) (q_advance (abs s)) (linesAfter s).
Proof.
  intros Hwf Hc. unfold advancePastNewlineAndUpdateLineNumber. rewrite Hc. simpl.
  destruct (m_pushedChar1 s =? 0) eqn:Ep; simpl; bool_to_prop;
    [| by apply advanceLnSlowCase_ok; [| left]].
  destruct (1 <? Substring.m_length (m_currentString s)) eqn:El; bool_to_prop;
    [| by apply advanceLnSlowCase_ok; [| right]].
  unfold linesAfter, countsNewline. rewrite Hc, Ep. simpl.
  replace (0 <? _) with true by lia. simpl.
  destruct (Substring.m_doNotExcludeLineNumbers (m_currentString s)).
  - apply (fast_call (set_lines (m_currentLine s + 1) (numberOfCharactersConsumed s + 1) s));
      [auto | by apply wf_lines | done | done].
  - replace (lines s) with (lines (set_currentLine s (m_currentLine s + 0)))
      by (unfold lines; simpl; by rewrite Z.add_0_r).
    apply (fast_call (set_currentLine s (m_currentLine s + 0))); [auto | | done | done].
    by apply (wf_lines (m_currentLine s + 0) (m_numberOfCharactersConsumedPriorToCurrentLine s)).
Qed.

(** ** Constructing, pushing back, prepending, appending *)

Lemma head_app_nonempty {A} (l1 l2 : list A) : l1 <> [] -> head (l1 ++ l2) = head l1.
Proof. by destruct l1. Qed.

Lemma currentStringChar_ok (s : SegmentedString) :
  shape s -> m_pushedChar1 s = 0 -> currentStringChar s = Some (default 0 (head (view s))).
Proof.
  intros [Hcur _ Hcomp _] Hp. unfold currentStringChar. rewrite (proj1 (view_unpushed s Hp)).
  destruct (Substring.m_length (m_currentString s) =? 0) eqn:E; simpl; bool_to_prop.
  - by rewrite remaining_nil, Hcomp.
  - destruct (sub_read (m_currentString s) Hcur) as (c & Hc & Hrem); [destruct Hcur; lia |].
    by rewrite Hc, Hrem.
Qed.

Lemma wf_emptySegmentedString : wf emptySegmentedString.
Proof.
  split; [by split | done | done |]. unfold dispatch_ok. simpl. by right.
Qed.

Lemma ofString_ok (str : wtfString) :
  exists s, ofString str = Some s /\ wf s /\ view s = chars str /\ m_closed s = false /\
    m_pushedChar1 s = 0 /\ numberOfCharactersConsumed s = 0 /\ m_substrings s = [] /\
    m_currentString s = Substring.ofString str /\ lines s = (0, 0).
Proof.
  destruct (sub_wf_ofString str) as (Hw & Hrem & Hlen & Hcons).
  unfold ofString. simpl.
  set (s0 := mkSS 0 0 (Substring.ofString str) 0 0 0 0 [] false _ _ _ _).
  assert (Hs0 : shape s0) by (split; simpl; done).
  assert (Hv : view s0 = chars str)
    by (unfold view, pushedChars, restChars; simpl; by rewrite app_nil_r).
  pose proof (currentStringChar_ok s0 Hs0 eq_refl) as Hc. unfold currentStringChar in Hc.
  exists (updateAdvanceFunctionPointers (set_currentChar s0 (default 0 (head (view s0))))).
  split.
  { simpl in Hc. destruct (Substring.m_length (Substring.ofString str) =? 0) eqn:E; simpl in *.
    - injection Hc as Hc. rewrite <- Hc. done.
    - destruct (Substring.getCurrentChar (Substring.ofString str)); simplify_eq. done. }
  destruct (update_frame (set_currentChar s0 (default 0 (head (view s0))))) as (f & g & h & Hu).
  pose proof (update_dispatch_ok (set_currentChar s0 (default 0 (head (view s0))))) as Hd.
  rewrite Hu in *.
  change (set_advance (set_currentChar s0 (default 0 (head (view s0)))) f g h)
    with (set_currentChar (set_advance s0 f g h) (default 0 (head (view s0)))) in *.
  split; [apply almost_wf; [split; [by split | simpl; by rewrite Hlen | done] | done] |].
  repeat split; try done. rewrite consumed_unpushed by done. simpl. lia.
Qed.

Lemma push_runs (c : Z) (s : SegmentedString) (q : Q) :
  wf s -> q_push c (abs s) = Some q -> runs (push c s) q (lines s).
Proof.
  intros [[Hcur Hsubs Hcomp Hpush] Hchar Hempty Hdisp] [[H1 H2]%andb_true_iff [= <-]]%ASSERT_bind.
  simpl in H1. apply Nat.ltb_lt in H1. bool_to_prop. unfold push.
  destruct (m_pushedChar1 s =? 0) eqn:Ep; bool_to_prop; simpl.
  - replace (c =? 0) with false by lia. simpl. eexists. split; [done |].
    assert (Hv : view (updateSlowCaseFunctionPointers
      (set_currentChar (set_pushed s c (m_pushedChar2 s)) c)) = c :: view s).
    { unfold view, pushedChars. simpl. rewrite Ep, (Hpush Ep). simpl.
      by replace (c =? 0) with false by lia. }
    split; [split; [by split | by rewrite Hv | done |] | split; [| done]].
    + unfold dispatch_ok. simpl. replace (c =? 0) with false by lia. rewrite andb_false_r. by left.
    + rewrite (proj2 (view_unpushed s Ep)). apply abs_eq; simpl; try done.
      * unfold pushedChars. simpl. rewrite (Hpush Ep). by replace (c =? 0) with false by lia.
      * unfold numberOfCharactersConsumed. simpl. rewrite Ep, (Hpush Ep).
        replace (c =? 0) with false by lia. simpl. lia.
  - assert (E2 : m_pushedChar2 s = 0).
    { unfold pushedChars in H1. replace (m_pushedChar1 s =? 0) with false in H1 by lia.
      destruct (m_pushedChar2 s =? 0) eqn:E; bool_to_prop; [done | simpl in H1; lia]. }
    rewrite E2. simpl. eexists. split; [done |].
    assert (Hpc : pushedChars s = [m_pushedChar1 s]).
    { unfold pushedChars. rewrite E2. by replace (m_pushedChar1 s =? 0) with false by lia. }
    split; [split | split; [| done]].
    + split; simpl; try done.
    + simpl. rewrite Hchar. unfold view. rewrite Hpc. unfold pushedChars. simpl.
      by replace (m_pushedChar1 s =? 0) with false by lia.
    + done.
    + done.
    + rewrite Hpc. apply abs_eq; simpl; try done.
      * unfold view. rewrite Hpc. unfold pushedChars. simpl.
        replace (m_pushedChar1 s =? 0) with false by lia. replace (c =? 0) with false by lia. done.
      * unfold pushedChars. simpl.
        replace (m_pushedChar1 s =? 0) with false by lia. by replace (c =? 0) with false by lia.
      * unfold numberOfCharactersConsumed. simpl. rewrite E2.
        replace (m_pushedChar1 s =? 0) with false by lia. replace (c =? 0) with false by lia.
        simpl. lia.
Qed.

(** Prepending a fresh string. *)
Lemma prepend_runs (l : list Z) (b : bool) (s : SegmentedString) (q : Q) :
  wf s -> q_prepend l (abs s) = Some q ->
  runs (seg ← ofString (mkString l b); prepend seg s) q (lines s).
Proof.
  intros Hwf [H1 [= <-]]%ASSERT_bind. apply Nat.eqb_eq in H1. simpl in H1.
  destruct (ofString_ok (mkString l b)) as (seg & -> & _ & _ & _ & Hsegp & _ & Hsegs & Hsegc & _).
  destruct (sub_wf_ofString (mkString l b)) as (Hw & Hrem & Hlen & Hcons).
  assert (Hp : m_pushedChar1 s = 0).
  { unfold pushedChars in H1. destruct (m_pushedChar1 s =? 0) eqn:E; bool_to_prop; [done |].
    by simpl in H1. }
  simpl. unfold prepend, escaped, isComposite. rewrite Hsegp, Hsegs, Hsegc, Hp. simpl.
  unfold prependSubstring, escaped. rewrite Hcons, Hlen, Hp. simpl in *.
  pose proof Hwf as [[Hcur Hsubs Hcomp Hpush] Hchar Hempty Hdisp].
  destruct l as [| c l]; simpl.
  - rewrite currentStringChar_ok by done. simpl. eexists. split; [done |].
    split; [apply almost_wf; [by apply wf_almost | done] | split; [| done]].
    apply abs_eq; simpl; try done.
    unfold numberOfCharactersConsumed. simpl. lia.
  - match goal with |- context [updateAdvanceFunctionPointers ?x] =>
      set (s3 := x); destruct (update_frame s3) as (f & g & h & Hu);
      pose proof (update_dispatch_ok s3) as Hd end.
    rewrite Hu in *.
    assert (E : m_currentString s3 = Substring.ofString (mkString (c :: l) b) /\
                m_pushedChar1 s3 = 0 /\ m_pushedChar2 s3 = m_pushedChar2 s /\
                m_closed s3 = m_closed s /\ lines s3 = lines s /\
                Forall (fun sub => sub_wf sub /\ 0 < Substring.m_length sub) (m_substrings s3) /\
                restChars (m_substrings s3) = view s /\
                m_numberOfCharactersConsumedPriorToCurrentString s3 =
                  numberOfCharactersConsumed s - Z.of_nat (length (c :: l))).
    { rewrite consumed_unpushed, (proj1 (view_unpushed s Hp)) by done. unfold s3.
      destruct (Substring.m_length (m_currentString s) =? 0) eqn:E0; simpl; bool_to_prop.
      - repeat split; try done. by rewrite (Hcomp E0), remaining_nil.
      - repeat split; try done. constructor; [| done].
        split; [done |]. destruct Hcur. lia. }
    destruct E as (E1 & E2 & E3 & E4 & E5 & E6 & E7 & E8).
    assert (Ha : almost (set_empty (set_advance s3 f g h) false)).
    { split; [split; simpl | simpl |].
      - by rewrite E1.
      - done.
      - rewrite E1, Hlen. simpl. lia.
      - intros. rewrite E3. by apply Hpush.
      - rewrite E1, Hlen. simpl. lia.
      - done. }
    rewrite currentStringChar_ok by (apply Ha || done). simpl. eexists. split; [done |].
    split; [by apply almost_wf | split; [| done]].
    apply abs_eq; simpl; try done.
    + unfold view, pushedChars. simpl. rewrite E2. simpl. rewrite E1, Hrem, E7. done.
    + unfold pushedChars. simpl. by rewrite E2.
    + unfold numberOfCharactersConsumed at 1. simpl. rewrite E2, E1, Hcons, E8. simpl. lia.
Qed.

(** Appending one substring to a state that may lack its cached character. *)
Lemma appendSubstring_ok (sub : Substring.t) (s : SegmentedString) :
  almost s -> sub_wf sub -> m_closed s = false ->
  exists s', appendSubstring sub s = Some s' /\ almost s' /\
    view s' = view s ++ remaining sub /\ pushedChars s' = pushedChars s /\
    m_closed s' = false /\ m_pushedChar1 s' = m_pushedChar1 s /\ lines s' = lines s /\
    (Substring.numberOfCharactersConsumed sub = 0 ->
     numberOfCharactersConsumed s' = numberOfCharactersConsumed s).
Proof.
  intros Ha Hsub Hcl. pose proof Ha as [[Hcur Hsubs Hcomp Hpush] Hempty Hdisp].
  unfold appendSubstring. rewrite Hcl. simpl.
  destruct (Substring.m_length sub =? 0) eqn:El; bool_to_prop.
  { exists s. rewrite remaining_nil, app_nil_r by done.
    split; [done | split; [done |]]. by repeat split. }
  pose proof Hsub as [Hb _].
  destruct (Substring.m_length (m_currentString s) =? 0) eqn:E0; bool_to_prop;
    (eexists; split; [done |]).
  - match goal with |- context [updateAdvanceFunctionPointers ?x] =>
      destruct (update_frame x) as (f & g & h & Hu); pose proof (update_dispatch_ok x) as Hd end.
    rewrite Hu in *. split; [split; [split |  | done] |]; simpl; try done; [lia |].
    split; [| repeat split; try done].
    + unfold view, pushedChars. simpl. rewrite (Hcomp E0), (remaining_nil _ Hcur E0). simpl.
      by rewrite !app_nil_r.
    + unfold numberOfCharactersConsumed. simpl. lia.
  - split; [split; [split |  | done] |]; simpl; try done.
    + apply Forall_app. split; [done |]. constructor; [| constructor]. split; [done | lia].
    + lia.
    + split; [| repeat split; try done].
      unfold view, pushedChars, restChars. simpl. rewrite fmap_app, concat_app. simpl.
      by rewrite app_nil_r, <- !app_assoc.
Qed.

Lemma appendSubstrings_ok (l : list Substring.t) (s : SegmentedString) :
  almost s -> Forall (fun sub => sub_wf sub /\ 0 < Substring.m_length sub) l ->
  m_closed s = false ->
  exists s', appendSubstrings l s = Some s' /\ almost s' /\
    view s' = view s ++ restChars l /\ pushedChars s' = pushedChars s /\
    m_closed s' = false /\ m_pushedChar1 s' = m_pushedChar1 s /\ lines s' = lines s /\
    (Forall (fun sub => Substring.numberOfCharactersConsumed sub = 0) l ->
     numberOfCharactersConsumed s' = numberOfCharactersConsumed s).
Proof.
  revert s. induction l as [| sub l IH]; intros s Ha Hl Hcl.
  { exists s. unfold restChars. simpl. rewrite app_nil_r.
    split; [done | split; [done |]]. by repeat split. }
  apply Forall_cons_1 in Hl as [[Hsub _] Hl].
  destruct (appendSubstring_ok sub s Ha Hsub Hcl)
    as (s1 & E1 & Ha1 & Hv1 & Hp1 & Hcl1 & Hq1 & Hln1 & Hc1).
  destruct (IH s1 Ha1 Hl Hcl1) as (s2 & E2 & Ha2 & Hv2 & Hp2 & Hcl2 & Hq2 & Hln2 & Hc2).
  exists s2. simpl. rewrite E1. simpl. split; [done | split; [done |]].
  split; [rewrite Hv2, Hv1; unfold restChars; simpl; by rewrite app_assoc |].
  repeat (split; [congruence |]).
  intros [Hc Hcs]%Forall_cons_1. rewrite Hc2, Hc1 by done. done.
Qed.

(** A string none of whose substrings has been read from. *)
Definition fresh (s : SegmentedString) : Prop :=
  Substring.numberOfCharactersConsumed (m_currentString s) = 0 /\
  Forall (fun sub => Substring.numberOfCharactersConsumed sub = 0) (m_substrings s).

Lemma almost_currentChar (s : SegmentedString) :
  almost s ->
  (c ← (if negb (m_pushedChar1 s =? 0) then Some (m_pushedChar1 s) else currentStringChar s);
   Some (set_currentChar s c)) = Some (set_currentChar s (default 0 (head (view s)))).
Proof.
  intros [Hs _ _]. destruct (m_pushedChar1 s =? 0) eqn:E; simpl; bool_to_prop.
  - by rewrite currentStringChar_ok.
  - unfold view, pushedChars. by replace (m_pushedChar1 s =? 0) with false by lia.
Qed.

Lemma append_ok (other s : SegmentedString) :
  almost s -> shape other -> m_closed s = false ->
  exists s', append other s = Some s' /\ wf s' /\ view s' = view s ++ view other /\
    pushedChars s' = pushedChars s /\ m_closed s' = false /\ lines s' = lines s /\
    (fresh other -> numberOfCharactersConsumed s' = numberOfCharactersConsumed s).
Proof.
  intros Hwf [Hcur Hsubs Hcomp Hpush] Hcl. unfold append. rewrite Hcl. simpl.
  assert (exists s1, (if negb (m_pushedChar1 other =? 0) then
          appendSubstring (Substring.ofString (mkString (m_pushedChar1 other ::
            (if negb (m_pushedChar2 other =? 0) then [m_pushedChar2 other] else [])) false)) s
        else Some s) = Some s1 /\ almost s1 /\ view s1 = view s ++ pushedChars other /\
      pushedChars s1 = pushedChars s /\ m_closed s1 = false /\
      m_pushedChar1 s1 = m_pushedChar1 s /\ lines s1 = lines s /\
      numberOfCharactersConsumed s1 = numberOfCharactersConsumed s)
    as (s1 & E1 & Ha1 & Hv1 & Hp1 & Hcl1 & Hq1 & Hln1 & Hc1).
  { destruct (m_pushedChar1 other =? 0) eqn:Ep; simpl.
    - exists s. assert (Hpo : pushedChars other = []) by (unfold pushedChars; by rewrite Ep).
      rewrite Hpo, app_nil_r.
      split; [done | split; [done |]]. by repeat split.
    - match goal with |- context [appendSubstring ?x _] => set (sub := x) end.
      destruct (sub_wf_ofString (mkString (m_pushedChar1 other ::
            (if negb (m_pushedChar2 other =? 0) then [m_pushedChar2 other] else [])) false))
        as (Hw & Hrem & _ & Hcons). fold sub in Hw, Hrem, Hcons.
      destruct (appendSubstring_ok sub s Hwf Hw Hcl)
        as (s1 & E1 & ? & Hv1 & ? & ? & ? & ? & Hc1).
      exists s1. split; [exact E1 | split; [done | split]].
      2: { repeat (split; [done |]). by apply Hc1. }
      rewrite Hv1, Hrem.
      f_equal. unfold pushedChars. rewrite Ep. simpl. by destruct (m_pushedChar2 other =? 0). }
  destruct (appendSubstring_ok (m_currentString other) s1 Ha1 Hcur Hcl1)
    as (s2 & E2 & Ha2 & Hv2 & Hp2 & Hcl2 & Hq2 & Hln2 & Hc2).
  destruct (appendSubstrings_ok (m_substrings other) s2 Ha2 Hsubs Hcl2)
    as (s3 & E3 & Ha3 & Hv3 & Hp3 & Hcl3 & Hq3 & Hln3 & Hc3).
  assert (E3' : (if isComposite other then appendSubstrings (m_substrings other) s2 else Some s2)
    = Some s3).
  { unfold isComposite. by destruct (m_substrings other). }
  rewrite E1. simpl. rewrite E2. simpl. rewrite E3'. simpl.
  rewrite almost_currentChar by done. eexists. split; [done |].
  split; [by apply almost_wf |].
  change (view (set_currentChar s3 _)) with (view s3).
  change (pushedChars (set_currentChar s3 _)) with (pushedChars s3).
  rewrite Hv3, Hv2, Hv1. split; [unfold view; by rewrite <- !app_assoc |].
  split; [congruence | split; [done | split; [change (lines s3 = lines s); congruence |]]].
  intros [Hf1 Hf2]. change (numberOfCharactersConsumed s3 = numberOfCharactersConsumed s).
  rewrite Hc3, Hc2 by done. done.
Qed.

(** ** length(), toString(), close() *)

Lemma sumLengths_ok (l : list Substring.t) :
  Forall (fun sub => sub_wf sub /\ 0 < Substring.m_length sub) l ->
  sumLengths l = Z.of_nat (length (restChars l)).
Proof.
  induction 1 as [| sub l [Hsub _] _ IH]; [done |].
  change (sumLengths (sub :: l)) with (Substring.m_length sub + sumLengths l).
  change (restChars (sub :: l)) with (remaining sub ++ restChars l).
  rewrite length_app, IH. pose proof (remaining_length sub Hsub). lia.
Qed.

Lemma lengthSS_ok (s : SegmentedString) : shape s -> lengthSS s = Z.of_nat (length (view s)).
Proof.
  intros [Hcur Hsubs _ Hpush]. unfold lengthSS, view.
  assert (E : (if isComposite s then sumLengths (m_substrings s) else 0)
              = Z.of_nat (length (restChars (m_substrings s)))).
  { rewrite <- sumLengths_ok by done. unfold isComposite. by destruct (m_substrings s). }
  rewrite E, !length_app, <- (remaining_length _ Hcur). unfold pushedChars.
  destruct (m_pushedChar1 s =? 0); simpl; [lia |]. destruct (m_pushedChar2 s =? 0); simpl; lia.
Qed.

Lemma appendTo_ok (sub : Substring.t) (b : list Z) :
  sub_wf sub -> Substring.appendTo sub b = b ++ remaining sub.
Proof.
  intros Hsub. pose proof (remaining_length sub Hsub) as Hl. unfold Substring.appendTo, remaining in *.
  destruct (Substring.numberOfCharactersConsumed sub =? 0) eqn:E; bool_to_prop.
  - rewrite E in *. simpl in *. rewrite drop_0 in *.
    destruct (Substring.m_length sub =? 0) eqn:E0; simpl; bool_to_prop; [| done].
    destruct (Substring.m_string sub); [by rewrite app_nil_r | simpl in Hl; lia].
  - f_equal. apply take_ge. lia.
Qed.

Lemma toString_ok (s : SegmentedString) : shape s -> toString s = view s.
Proof.
  intros [Hcur Hsubs _ _]. unfold toString, view.
  assert (E : forall b, (if isComposite s then appendAllTo (m_substrings s) b else b)
                        = b ++ restChars (m_substrings s)).
  { unfold isComposite. destruct (m_substrings s) as [| sub0 l0] eqn:Es.
    { intros b. unfold restChars. simpl. by rewrite app_nil_r. }
    clear Es. revert Hsubs. generalize (sub0 :: l0). intros l Hl.
    induction Hl as [| sub l [Hsub _] _ IH]; intros b; simpl.
    { unfold restChars. simpl. by rewrite app_nil_r. }
    rewrite IH, appendTo_ok by done. unfold restChars. simpl. by rewrite <- app_assoc. }
  rewrite E, appendTo_ok by done. rewrite <- app_assoc. f_equal.
  unfold pushedChars. destruct (m_pushedChar1 s =? 0); simpl; [done |].
  by destruct (m_pushedChar2 s =? 0).
Qed.

(** ** Look-ahead *)

Lemma startsWith_take (f : Z -> Z) (prefix l : list Z) (b : bool) (n : nat) :
  (length prefix <= n)%nat -> startsWith f (take n l) prefix b = startsWith f l prefix b.
Proof.
  revert l n. induction prefix as [| p prefix IH]; intros l n Hn; simpl.
  { by destruct l, n. }
  destruct n as [| n]; simpl in Hn; [lia |]. destruct l as [| c l]; [done |]. simpl.
  rewrite IH by lia. done.
Qed.

Lemma q_advance_iter (n : nat) (q : Q) :
  (n <= length (q_pending q))%nat ->
  Nat.iter n q_advance q =
    mkQ (drop n (q_pending q)) (q_pushed q - n) (q_closed q) (q_consumed q + Z.of_nat n).
Proof.
  revert q. induction n as [| n IH]; intros [l p cl k] Hn; simpl in *.
  { rewrite drop_0. f_equal; lia. }
  rewrite IH by (simpl; lia). unfold q_advance. simpl.
  destruct (drop_nonempty_lookup l n ltac:(lia)) as (c & _ & ->). simpl. f_equal; lia.
Qed.

Lemma advanceCollect_ok (n : nat) (s : SegmentedString) :
  wf s -> (n <= length (view s))%nat ->
  exists s', advanceCollect n s = Some (take n (view s), s') /\ wf s' /\
    abs s' = Nat.iter n q_advance (abs s) /\ lines s' = lines s.
Proof.
  revert s. induction n as [| n IH]; intros s Hwf Hn; simpl.
  { exists s. done. }
  destruct (advance_runs s Hwf) as (s1 & E1 & Hwf1 & Habs1 & Hln1).
  assert (Hv : exists c rest, view s = c :: rest) by (destruct (view s); [simpl in Hn; lia | eauto]).
  destruct Hv as (c & rest & Hv).
  assert (Hv1 : view s1 = rest).
  { change (q_pending (abs s1) = rest). rewrite Habs1. unfold q_advance. simpl. by rewrite Hv. }
  rewrite Hv in Hn. simpl in Hn.
  destruct (IH s1 Hwf1) as (s2 & E2 & Hwf2 & Habs2 & Hln2); [rewrite Hv1; lia |].
  exists s2. rewrite E1. simpl. rewrite E2. simpl.
  rewrite (wf_char _ Hwf), Hv, Hv1. simpl. split; [done | split; [done | split; [| congruence]]].
  by rewrite Habs2, Habs1, <- Nat.iter_succ_r.
Qed.

Lemma lookAhead_ok (f : Z -> Z) (str : list Z) (b : bool) (s : SegmentedString) :
  wf s -> (2 <= length str)%nat ->
  exists s', lookAheadInline f str b s = Some ((q_lookAhead f str b (abs s)).1, s') /\
    wf s' /\ abs s' = (q_lookAhead f str b (abs s)).2 /\ lines s' = lines s.
Proof.
  intros Hwf Hstr. unfold lookAheadInline, q_lookAhead. simpl.
  pose proof (lengthSS_ok s (wf_shape _ Hwf)) as Hlen.
  pose proof (shape_cur _ (wf_shape _ Hwf)) as Hcur.
  destruct (_ && _) eqn:E; simpl; bool_to_prop.
  - destruct (view_unpushed s H) as [Hv Hp].
    assert (Hrl := remaining_length _ Hcur).
    replace (Nat.ltb (length (view s)) (length str)) with false
      by (symmetry; apply Nat.ltb_ge; rewrite Hv, length_app; lia).
    simpl. exists s. split; [| split; [done | split; [by rewrite <- Hp | done]]].
    do 2 f_equal. unfold Substring.currentSubString. rewrite Nat2Z.id.
    fold (remaining (m_currentString s)). rewrite Hv, startsWith_take by lia.
    rewrite <- (startsWith_take f str (remaining _ ++ _) b (length str)) by lia.
    rewrite take_app_le by lia. by rewrite startsWith_take by lia.
  - unfold lookAheadSlowCase. rewrite Hlen.
    destruct (Nat.ltb (length (view s)) (length str)) eqn:El.
    { apply Nat.ltb_lt in El. replace (_ <? _) with true by lia. by exists s. }
    apply Nat.ltb_ge in El. replace (_ <? _) with false by lia. simpl.
    unfold advanceCount. rewrite Hlen. replace (_ <=? _) with true by lia. simpl.
    rewrite Nat2Z.id.
    destruct (advanceCollect_ok (length str) s Hwf El) as (s1 & E1 & Hwf1 & Habs1 & Hln1).
    rewrite E1. simpl. rewrite startsWith_take by lia.
    rewrite q_advance_iter in Habs1 by done. simpl in Habs1.
    assert (Hpl : (length (pushedChars s) <= 2)%nat).
    { unfold pushedChars. repeat case_match; simpl; lia. }
    destruct (prepend_runs (take (length str) (view s)) false s1
      (mkQ (view s) 0 (m_closed s) (numberOfCharactersConsumed s))) as (s2 & E2 & Hwf2 & Habs2 & Hln2);
      [done | |].
    { rewrite Habs1. unfold q_prepend. simpl.
      replace (_ - _)%nat with 0%nat by lia. simpl. rewrite take_drop, length_take.
      do 2 f_equal. lia. }
    destruct (ofString (mkString (take (length str) (view s)) false)); [| done].
    simpl in *. rewrite E2. simpl. exists s2. split; [done | split; [done | split; [done | congruence]]].
Qed.

(** ** The instance *)

#[export] Instance SegmentedString_CharSourceOk : CharSourceOk SegmentedString.
Proof.
  refine {| src_valid := wf; src_abs := abs |}; simpl.
  - intros s Hwf. pose proof (lengthSS_ok s (wf_shape _ Hwf)). unfold q_wf, abs, view. simpl.
    rewrite length_app. split; [lia |]. unfold pushedChars. repeat case_match; simpl; lia.
  - intros s [Hs _ He _]. rewrite He. unfold q_isEmpty, abs, view. simpl.
    rewrite !length_app. pose proof (remaining_length _ (shape_cur _ Hs)).
    destruct (Substring.m_length (m_currentString s) =? 0) eqn:E; bool_to_prop; symmetry.
    + rewrite (shape_comp _ Hs E). unfold restChars. simpl. apply Nat.eqb_eq. lia.
    + apply Nat.eqb_neq. lia.
  - done.
  - intros s Hwf. by apply lengthSS_ok, wf_shape.
  - intros s Hwf. apply wf_char, Hwf.
  - done.
  - intros s Hwf. by eapply runs_refines, advance_runs.
  - intros s Hwf. by eapply runs_refines, advanceLn_runs.
  - intros s Hwf Hc. eapply runs_refines, advancePastNewline_runs; [done |].
    by rewrite (wf_char _ Hwf).
  - intros s c q Hwf Hq. by eapply runs_refines, push_runs.
  - intros s l q Hwf Hq. by eapply runs_refines, prepend_runs.
  - intros f str b s Hwf _ Hl. destruct (lookAhead_ok f str b s Hwf Hl) as (s' & ? & ? & ? & _).
    by exists s'.
Defined.
