(* ===== verification/SegmentedStringTheorems.v ===== *)
(** * What the input buffer promises

    The theorems about [SegmentedString] a client relies on: the class invariant
    over every sequence of operations, each operation as a queue operation, the
    line and column numbers, copies, and the behaviours that differ from what the
    class means to do. *)

From S2P Require Import Prelude SegmentedString CharSource SegmentedStringSpec.

(** ** States a client can build *)
Inductive Reachable : SegmentedString -> Prop :=
  | reach_empty : Reachable emptySegmentedString
  | reach_string str s : ofString str = Some s -> Reachable s
  | reach_clear s : Reachable s -> Reachable (clearSS s)
  | reach_close s s' : Reachable s -> close s = Some s' -> Reachable s'
  | reach_advance s s' : Reachable s -> advance s = Some s' -> Reachable s'
  | reach_advanceLn s s' : Reachable s -> advanceAndUpdateLineNumber s = Some s' -> Reachable s'
  | reach_newline s s' : Reachable s ->
      advancePastNewlineAndUpdateLineNumber s = Some s' -> Reachable s'
  | reach_push s s' c : Reachable s -> c <> 0 -> push c s = Some s' -> Reachable s'
  | reach_prepend s s' str seg : Reachable s -> ofString str = Some seg ->
      prepend seg s = Some s' -> Reachable s'
  | reach_append s s' other : Reachable s -> Reachable other -> append other s = Some s' ->
      Reachable s'
  | reach_count s s' n l : Reachable s -> advanceCount n s = Some (l, s') -> Reachable s'
  | reach_lookAhead s s' f str b r : Reachable s -> (2 <= length str)%nat ->
      lookAheadInline f str b s = Some (r, s') -> Reachable s'
  | reach_position s line column prolog : Reachable s ->
      Reachable (setCurrentPosition line column prolog s)
  | reach_copy s s' : Reachable s -> m_pushedChar2 s = 0 -> copy s = Some s' -> Reachable s'
  | reach_assign s0 s s' : Reachable s -> m_pushedChar2 s = 0 -> assign s0 s = Some s' -> Reachable s'.

(** Two pushed-back characters are the only case a push refuses. *)
Lemma push_some (c : Z) (s s' : SegmentedString) :
  wf s -> c <> 0 -> push c s = Some s' -> exists q, q_push c (abs s) = Some q.
Proof.
  intros Hwf Hc E. unfold q_push.
  replace (Nat.ltb (q_pushed (abs s)) 2 && negb (c =? 0)) with true; [by eexists |].
  symmetry. apply andb_true_iff. split; [| by apply negb_true_iff, Z.eqb_neq].
  unfold abs, pushedChars, push in *. simpl in *.
  destruct (m_pushedChar1 s =? 0); [done |].
  destruct (m_pushedChar2 s =? 0); [done |]. by simpl in E.
Qed.

Lemma prepend_some (seg s s' : SegmentedString) :
  prepend seg s = Some s' -> q_prepend [] (abs s) <> None /\ m_pushedChar1 s = 0.
Proof.
  unfold prepend, escaped, q_prepend, abs, pushedChars. simpl.
  destruct (m_pushedChar1 s =? 0) eqn:E; simpl; [| done]. intros _. bool_to_prop. done.
Qed.

(** What the copy constructor and [operator=] do to a state with at most one
    pushed-back character. *)
Lemma copy_eq (s : SegmentedString) :
  wf s -> copy s = Some (if m_pushedChar2 s =? 0 then s else set_currentChar s (m_pushedChar2 s)).
Proof.
  intros Hwf. pose proof Hwf as [Hs Hc _ _]. unfold copy, copiedCurrentChar.
  destruct (m_pushedChar2 s =? 0) eqn:E2; simpl; [| done].
  assert (Hsame : set_currentChar s (m_currentChar s) = s) by by destruct s.
  destruct (m_pushedChar1 s =? 0) eqn:E1; simpl; bool_to_prop.
  - pose proof (currentStringChar_ok s Hs E1) as Hr. unfold currentStringChar in Hr.
    rewrite Hr. simpl. by rewrite <- Hc, Hsame.
  - assert (E : m_pushedChar1 s = m_currentChar s).
    { rewrite Hc. unfold view, pushedChars. by replace (m_pushedChar1 s =? 0) with false by lia. }
    by rewrite E, Hsame.
Qed.

Lemma wf_clear (s : SegmentedString) : wf (clearSS s).
Proof.
  split; [| | done |].
  - split; try done. split; [| simpl; lia]. simpl. lia.
  - unfold view, pushedChars, restChars, remaining, Substring.numberOfCharactersConsumed. simpl.
    rewrite app_nil_r, drop_ge; [done | lia].
  - by right.
Qed.

Lemma reachable_wf (s : SegmentedString) : Reachable s -> wf s.
Proof.
  assert (Hruns : forall m q l s', runs m q l -> m = Some s' -> wf s')
    by (intros m q l s' (s0 & -> & Hw & _) E; by simplify_eq).
  induction 1 as [| str s E | s H IH | s s' H IH E | s s' H IH E | s s' H IH E | s s' H IH E
    | s s' c H IH Hc E | s s' str seg H IH Eo E | s s' other H IH Ho IHo E | s s' n l H IH E
    | s s' f str b r H IH Hl E | s line column prolog H IH | s s' H IH H2 E | s0 s s' H IH H2 E].
  - apply wf_emptySegmentedString.
  - destruct (ofString_ok str) as (s0 & E0 & Hw & _). by simplify_eq.
  - apply wf_clear.
  - unfold close in E. apply ASSERT_bind in E as [_ [= <-]]. destruct IH as [[] ? ? ?]. by split; [split | | |].
  - by eapply Hruns; [apply advance_runs |].
  - by eapply Hruns; [apply advanceLn_runs |].
  - eapply Hruns; [| exact E]. apply advancePastNewline_runs; [done |].
    unfold advancePastNewlineAndUpdateLineNumber in E. apply ASSERT_bind in E as [E _]. by bool_to_prop.
  - destruct (push_some c s s' IH Hc E) as [q Hq]. by eapply Hruns; [apply (push_runs c s q) |].
  - destruct str as [l b]. destruct (prepend_some seg s s' E) as [_ Hp].
    eapply Hruns; [apply (prepend_runs l b s _ IH) |].
    + unfold q_prepend, abs, pushedChars. by rewrite Hp.
    + by rewrite Eo.
  - assert (Hcl : m_closed s = false).
    { unfold append in E. apply ASSERT_bind in E as [E _]. by apply negb_true_iff. }
    destruct (append_ok other s (wf_almost _ IH) (wf_shape _ IHo) Hcl) as (s0 & E0 & Hw & _). by simplify_eq.
  - unfold advanceCount in E. apply ASSERT_bind in E as [En E]. bool_to_prop.
    rewrite (lengthSS_ok s (wf_shape _ IH)) in En.
    destruct (advanceCollect_ok (Z.to_nat n) s IH ltac:(lia)) as (s0 & E0 & Hw & _). by simplify_eq.
  - destruct (lookAhead_ok f str b s IH Hl) as (s0 & E0 & Hw & _). by simplify_eq.
  - by apply wf_lines.
  - rewrite (copy_eq s IH) in E. rewrite H2 in E. by simplify_eq.
  - change (copy s = Some s') in E. rewrite (copy_eq s IH) in E. rewrite H2 in E. by simplify_eq.
Qed.

(** ** Line and column numbers *)

(** No substring is excluded from line counting. *)
Definition counted (s : SegmentedString) : Prop :=
  Substring.m_doNotExcludeLineNumbers (m_currentString s) = true /\
  Forall (fun sub => Substring.m_doNotExcludeLineNumbers sub = true) (m_substrings s).

Lemma counted_frame (s s' : SegmentedString) :
  counted s -> Substring.m_doNotExcludeLineNumbers (m_currentString s')
    = Substring.m_doNotExcludeLineNumbers (m_currentString s) ->
  m_substrings s' = m_substrings s -> counted s'.
Proof. unfold counted. by intros ? -> ->. Qed.

Lemma counted_update (s : SegmentedString) : counted s -> counted (updateAdvanceFunctionPointers s).
Proof.
  intros H. unfold updateAdvanceFunctionPointers. split_tests; by apply (counted_frame s).
Qed.

Lemma counted_slow (s : SegmentedString) : counted s -> counted (updateSlowCaseFunctionPointers s).
Proof. done. Qed.

Lemma counted_substring (s : SegmentedString) : counted s -> counted (advanceSubstring s).
Proof.
  intros [H1 H2]. unfold advanceSubstring. destruct (m_substrings s) as [| sub l] eqn:E.
  - split; simpl; [done | by rewrite E].
  - apply Forall_cons_1 in H2 as [? ?]. by apply counted_update.
Qed.

Lemma counted_reload (s s' : SegmentedString) :
  counted s -> reloadCurrentChar s = Some s' -> counted s'.
Proof. intros H. unfold reloadCurrentChar. destruct (currentStringChar s); simpl; [intros [= <-]; done | done]. Qed.

Lemma increment_counted (sub sub' : Substring.t) (c : Z) :
  Substring.incrementAndGetCurrentChar sub = Some (sub', c) ->
  Substring.m_doNotExcludeLineNumbers sub' = Substring.m_doNotExcludeLineNumbers sub.
Proof.
  unfold Substring.incrementAndGetCurrentChar, Substring.incrementAndGetCurrentChar8,
    Substring.incrementAndGetCurrentChar16.
  destruct (ASSERT _); simpl; [| done]. destruct (Substring.m_is8Bit sub), (Substring.m_data sub); simpl;
    try done; destruct (_ !! _); simpl; try done; by intros [= <- _].
Qed.

Lemma counted_step (s s' : SegmentedString) :
  counted s -> stepChar8 s = Some s' \/ stepChar16 s = Some s' -> counted s'.
Proof.
  intros H [E | E]; (apply (counted_frame s); [done | |]); revert E;
    unfold stepChar8, stepChar16, Substring.incrementAndGetCurrentChar8,
      Substring.incrementAndGetCurrentChar16;
    destruct (Substring.m_data _); simpl; try done; destruct (_ !! _); simpl; try done;
    by intros [= <-].
Qed.

Lemma counted_advanceLn (s s' : SegmentedString) :
  counted s -> advanceAndUpdateLineNumber s = Some s' -> counted s'.
Proof.
  intros H. unfold advanceAndUpdateLineNumber.
  assert (Hdec : forall s1, counted s1 -> counted (decrementLength s1)) by done.
  assert (Hcheck : forall s1 s2, counted s1 -> decrementAndCheckLength s1 = Some s2 -> counted s2).
  { intros s1 s2 H1. unfold decrementAndCheckLength. destruct (ASSERT _); simpl; [| done].
    intros [= <-]. by destruct (_ =? 1). }
  assert (Hslow : forall s1 s2, counted s1 -> (advanceSlowCase s1 = Some s2 \/
      advanceAndUpdateLineNumberSlowCase s1 = Some s2) -> counted s2).
  { intros s1 s2 H1. unfold advanceSlowCase, advanceAndUpdateLineNumberSlowCase.
    destruct (negb (m_pushedChar1 s1 =? 0)).
    { destruct (negb (_ =? 0)); [intros [[= <-] | [= <-]]; done |].
      intros [E | E]; (eapply counted_reload; [| exact E]; by apply counted_update). }
    destruct (negb (Substring.m_length _ =? 0)).
    2: { destruct (negb (isComposite s1)); intros [E | E]; by (eapply counted_reload; [| exact E]). }
    intros [E | E].
    - eapply counted_reload; [| exact E]. destruct (_ =? 0); [by apply counted_substring | done].
    - destruct (Substring.getCurrentChar _); simpl in E; [| done].
      destruct (_ && _) in E; (destruct (_ =? 0) in E;
        [eapply counted_reload; [| exact E]; by apply counted_substring |]);
        (destruct (Substring.incrementAndGetCurrentChar _) as [[sub c] |] eqn:Ei; simpl in E; [| done];
         eapply counted_reload; [| exact E]; apply increment_counted in Ei;
         eapply counted_frame; [exact H1 | simpl; by rewrite Ei | done]). }
  destruct (negb _).
  { destruct (ASSERT _); simpl; [| done].
    destruct (stepChar8 (decrementLength s)) as [s2 |] eqn:E; simpl; [| done].
    apply Hdec in H. apply (counted_step _ s2) in H; [| by left].
    intros E2. destruct (negb _) in E2; [by simplify_eq |]. injection E2 as <-.
    by destruct (_ =? 1), (_ && _). }
  destruct (m_advanceAndUpdateLineNumberFunc s); simpl; try (intros E; by eapply Hslow; [| eauto]).
  - unfold advanceEmpty. destruct (ASSERT _); simpl; [| done]. by intros [= <-].
  - unfold advance8. destruct (ASSERT _); simpl; [| done].
    destruct (decrementAndCheckLength s) eqn:E1; simpl; [| done]. intros E.
    eapply counted_step; [by eapply Hcheck |]. by left.
  - unfold advance16. destruct (ASSERT _); simpl; [| done].
    destruct (decrementAndCheckLength s) eqn:E1; simpl; [| done]. intros E.
    eapply counted_step; [by eapply Hcheck |]. by right.
  - unfold advanceAndUpdateLineNumber8. destruct (ASSERT _); simpl; [| done].
    destruct (Substring.getCurrentChar _); simpl; [| done]. destruct (ASSERT _); simpl; [| done].
    destruct (decrementAndCheckLength _) eqn:E1; simpl; [| done]. intros E.
    eapply counted_step; [eapply Hcheck; [| exact E1]; by destruct (_ =? 10) |]. by left.
  - unfold advanceAndUpdateLineNumber16. destruct (ASSERT _); simpl; [| done].
    destruct (Substring.getCurrentChar _); simpl; [| done]. destruct (ASSERT _); simpl; [| done].
    destruct (decrementAndCheckLength _) eqn:E1; simpl; [| done]. intros E.
    eapply counted_step; [eapply Hcheck; [| exact E1]; by destruct (_ =? 10) |]. by right.
Qed.

(** Reading [n] characters with the call the parser uses. *)
Fixpoint advanceLines (n : nat) (s : SegmentedString) : option SegmentedString :=
  match n with
  | O => Some s
  | S n' => s1 ← advanceAndUpdateLineNumber s; advanceLines n' s1
  end.

(** The position after a text, from a given line and column. *)
Fixpoint position (line column : Z) (text : list Z) : Z * Z :=
  match text with
  | [] => (line, column)
  | c :: text' => if c =? 10 then position (line + 1) 0 text' else position line (column + 1) text'
  end.

Lemma unpushed_pushed (s : SegmentedString) :
  pushedChars s = [] <-> m_pushedChar1 s = 0.
Proof. unfold pushedChars. destruct (m_pushedChar1 s =? 0) eqn:E; bool_to_prop; done. Qed.

Lemma advanceLines_ok (n : nat) (s : SegmentedString) :
  wf s -> counted s -> m_pushedChar1 s = 0 -> (n <= length (view s))%nat ->
  exists s', advanceLines n s = Some s' /\ wf s' /\ view s' = drop n (view s) /\
    (currentLine s', currentColumn s') = position (currentLine s) (currentColumn s) (take n (view s)).
Proof.
  revert s. induction n as [| n IH]; intros s Hwf Hct Hp Hn; simpl.
  { exists s. by rewrite drop_0. }
  destruct (advanceLn_runs s Hwf) as (s1 & E & Hwf1 & Habs & Hl). rewrite E. simpl.
  destruct (view s) as [| c v] eqn:Ev; simpl in Hn; [lia |].
  rewrite (q_advance_current s c v Hp Ev) in Habs. injection Habs as Hv1 Hp1 Hcl1 Hn1.
  apply nil_length_inv, unpushed_pushed in Hp1.
  destruct (IH s1 Hwf1 (counted_advanceLn s s1 Hct E) Hp1 ltac:(rewrite Hv1; lia))
    as (s2 & -> & Hwf2 & Hv2 & Hpos).
  exists s2. split; [done | split; [done | split; [by rewrite Hv2, Hv1 |]]].
  rewrite Hpos, Hv1. simpl.
  assert (Hlen : 0 < Substring.m_length (m_currentString s)).
  { destruct Hwf as [[Hcur _ Hcomp _] _ _ _]. pose proof (remaining_length _ Hcur).
    destruct (decide (Substring.m_length (m_currentString s) = 0)) as [Hz | ?]; [| lia].
    rewrite (proj1 (view_unpushed s Hp)), (remaining_nil _ Hcur Hz), (Hcomp Hz) in Ev. done. }
  assert (Hc : m_currentChar s = c) by (rewrite (wf_char _ Hwf), Ev; done).
  unfold linesAfter, countsNewline in Hl. rewrite Hp, Hc, (proj1 Hct) in Hl.
  apply Z.ltb_lt in Hlen. rewrite Hlen in Hl. simpl in Hl. rewrite andb_true_r in Hl.
  unfold currentLine, currentColumn in *. unfold lines in Hl. rewrite Hn1.
  destruct (c =? 10); injection Hl as -> ->; f_equal; lia.
Qed.

(** ** The theorems *)


(** Both ways of consuming a character succeed in every reachable state and drop
    exactly the first character of the text; only the one that updates line
    numbers touches the line counters, and only at a newline. *)
Theorem buffer_advance (s : SegmentedString) :
  Reachable s ->
  runs (advance s) (q_advance (abs s)) (lines s) /\
  runs (advanceAndUpdateLineNumber s) (q_advance (abs s)) (linesAfter s).
Proof.
  intros Hr. pose proof (reachable_wf s Hr). split; [by apply advance_runs | by apply advanceLn_runs].
Qed.

(** Reading a string from its start, the buffer reports the number of newlines
    read as the line and the distance to the last one as the column. *)
Theorem buffer_positions (str : wtfString) (n : nat) :
  (n <= length (chars str))%nat ->
  exists s s', ofString str = Some s /\ advanceLines n s = Some s' /\
    toString s' = drop n (chars str) /\
    (currentLine s', currentColumn s') = position 0 0 (take n (chars str)).
Proof.
  intros Hn. destruct (ofString_ok str) as (s & E & Hwf & Hv & _ & Hp & Hc & Hsub & Hcur & Hl).
  assert (Hct : counted s).
  { split; [rewrite Hcur; unfold Substring.ofString; by destruct (0 <? _) | by rewrite Hsub]. }
  destruct (advanceLines_ok n s Hwf Hct Hp ltac:(by rewrite Hv)) as (s' & E' & Hwf' & Hv' & Hpos).
  exists s, s'. rewrite (toString_ok s' (wf_shape _ Hwf')), Hv', <- Hv.
  split; [done | split; [done | split; [done |]]]. rewrite Hpos.
  unfold currentLine, currentColumn. injection Hl as -> ->. by rewrite Hc.
Qed.

(** Pushing back two characters and reading them again gives the same text, the
    same flags and the same counts as before, and reads them in the order in
    which they were pushed. *)
Theorem buffer_pushback (s : SegmentedString) (a b : Z) :
  Reachable s -> m_pushedChar1 s = 0 -> a <> 0 -> b <> 0 ->
  exists s1 s2 s3 s4, push a s = Some s1 /\ push b s1 = Some s2 /\ advance s2 = Some s3 /\
    advance s3 = Some s4 /\ m_currentChar s2 = a /\ m_currentChar s3 = b /\
    abs s4 = abs s /\ lines s4 = lines s.
Proof.
  intros Hr Hp Ha Hb. pose proof (reachable_wf s Hr) as Hwf.
  apply unpushed_pushed in Hp.
  assert (Hq1 : exists q, q_push a (abs s) = Some q /\ q_push b q =
    Some (mkQ (a :: b :: view s) 2 (m_closed s) (numberOfCharactersConsumed s - 2))).
  { unfold q_push, abs. rewrite Hp. apply Z.eqb_neq in Ha, Hb. rewrite Ha, Hb. simpl.
    eexists. split; [done |]. simpl. do 2 f_equal. lia. }
  destruct Hq1 as (q1 & Hq1 & Hq2).
  destruct (push_runs a s q1 Hwf Hq1) as (s1 & E1 & Hwf1 & <- & Hl1).
  destruct (push_runs b s1 _ Hwf1 Hq2) as (s2 & E2 & Hwf2 & Ha2 & Hl2).
  destruct (advance_runs s2 Hwf2) as (s3 & E3 & Hwf3 & Ha3 & Hl3).
  destruct (advance_runs s3 Hwf3) as (s4 & E4 & Hwf4 & Ha4 & Hl4).
  exists s1, s2, s3, s4. rewrite Ha2 in Ha3. rewrite Ha3 in Ha4.
  pose proof (f_equal q_pending Ha2) as Hv2. pose proof (f_equal q_pending Ha3) as Hv3.
  simpl in Hv2, Hv3.
  rewrite (wf_char _ Hwf2), (wf_char _ Hwf3), Hv2, Hv3.
  split; [done | split; [done | split; [done | split; [done |]]]].
  split; [done | split; [done | split; [| congruence]]].
  rewrite Ha4. unfold q_advance, abs. simpl. rewrite Hp. simpl. f_equal. lia.
Qed.

(** Appending a buffer to an open one appends its text behind the text that is
    there and keeps the pushed-back characters and the line counters. *)
Theorem buffer_append (s other : SegmentedString) :
  Reachable s -> Reachable other -> m_closed s = false ->
  exists s', append other s = Some s' /\ Reachable s' /\
    toString s' = toString s ++ toString other /\
    pushedChars s' = pushedChars s /\ lines s' = lines s /\
    (fresh other -> numberOfCharactersConsumed s' = numberOfCharactersConsumed s).
Proof.
  intros Hr Ho Hcl. pose proof (reachable_wf s Hr) as Hwf. pose proof (reachable_wf other Ho) as Hwo.
  destruct (append_ok other s (wf_almost _ Hwf) (wf_shape _ Hwo) Hcl) as (s' & E & Hwf' & Hv & Hp & _ & Hl & Hn).
  exists s'. split; [done | split; [by apply (reach_append s s' other) |]].
  by rewrite (toString_ok s (wf_shape _ Hwf)), (toString_ok other (wf_shape _ Hwo)),
    (toString_ok s' (wf_shape _ Hwf')).
Qed.

(** Looking ahead answers for the text to come whether it starts with the given
    string, or that it is too short, and leaves the text, the closed flag and the
    counts as they were. *)
Theorem buffer_lookAhead (f : Z -> Z) (str : list Z) (caseSensitive : bool) (s : SegmentedString) :
  Reachable s -> (2 <= length str)%nat ->
  exists r s', lookAheadInline f str caseSensitive s = Some (r, s') /\ Reachable s' /\
    toString s' = toString s /\ m_closed s' = m_closed s /\ lines s' = lines s /\
    numberOfCharactersConsumed s' = numberOfCharactersConsumed s /\
    match r with
    | NotEnoughCharacters => (length (toString s) < length str)%nat
    | DidMatch => (length str <= length (toString s))%nat /\
        startsWith f (toString s) str caseSensitive = true
    | DidNotMatch => (length str <= length (toString s))%nat /\
        startsWith f (toString s) str caseSensitive = false
    end.
Proof.
  intros Hr Hl. pose proof (reachable_wf s Hr) as Hwf.
  destruct (lookAhead_ok f str caseSensitive s Hwf Hl) as (s' & E & Hwf' & Ha & Hln).
  exists (q_lookAhead f str caseSensitive (abs s)).1, s'. rewrite E.
  split; [done | split; [by eapply reach_lookAhead |]].
  rewrite (toString_ok s (wf_shape _ Hwf)), (toString_ok s' (wf_shape _ Hwf')).
  unfold q_lookAhead in *. simpl in *.
  destruct (Nat.ltb (length (view s)) (length str)) eqn:Elt; simpl in *.
  - apply Nat.ltb_lt in Elt. by injection Ha as -> _ -> ->.
  - apply Nat.ltb_ge in Elt. destruct (startsWith f (view s) str caseSensitive); simpl;
      by injection Ha as -> _ -> ->.
Qed.

(** Collecting [count] characters into a buffer returns the first [count] of the
    text and leaves the rest. *)
Theorem buffer_collect (s : SegmentedString) (count : Z) :
  Reachable s -> 0 <= count <= lengthSS s ->
  exists s', advanceCount count s = Some (take (Z.to_nat count) (toString s), s') /\
    toString s' = drop (Z.to_nat count) (toString s) /\ lines s' = lines s.
Proof.
  intros Hr Hc. pose proof (reachable_wf s Hr) as Hwf. pose proof (lengthSS_ok s (wf_shape _ Hwf)) as Hlen.
  unfold advanceCount. replace (count <=? lengthSS s) with true by lia. simpl.
  destruct (advanceCollect_ok (Z.to_nat count) s Hwf ltac:(lia)) as (s' & -> & Hwf' & Ha & Hl).
  exists s'. rewrite (toString_ok s (wf_shape _ Hwf)), (toString_ok s' (wf_shape _ Hwf')).
  split; [done | split; [| done]].
  rewrite q_advance_iter in Ha by (simpl; lia). by injection Ha.
Qed.

(** ** Where the class differs from what it means *)

(** A copy of a buffer with at most one pushed-back character is the buffer; with
    two different ones the copy holds the same text but reports the second
    character of it as the current one. *)
Theorem buffer_copy (s : SegmentedString) :
  Reachable s ->
  (m_pushedChar2 s = 0 -> copy s = Some s) /\
  (m_pushedChar2 s <> 0 -> m_pushedChar2 s <> m_pushedChar1 s ->
   exists s', copy s = Some s' /\ abs s' = abs s /\ assign s s = Some s' /\
     Some (m_currentChar s') = toString s' !! 1%nat /\
     m_currentChar s' <> default 0 (head (toString s'))).
Proof.
  intros Hr. pose proof (reachable_wf s Hr) as Hwf. pose proof (copy_eq s Hwf) as Hc.
  split; intros H2; [by rewrite Hc, H2 |]. intros Hne.
  apply Z.eqb_neq in H2 as H2b. rewrite H2b in Hc.
  exists (set_currentChar s (m_pushedChar2 s)). split; [done | split; [done | split; [exact Hc |]]].
  assert (Hs : shape (set_currentChar s (m_pushedChar2 s))) by by destruct (wf_shape _ Hwf).
  rewrite (toString_ok _ Hs).
  assert (H1 : m_pushedChar1 s <> 0) by (intros H1; by apply H2, (shape_push _ (wf_shape _ Hwf))).
  unfold view, pushedChars. simpl. apply Z.eqb_neq in H1. rewrite H1, H2b. done.
Qed.

(** Excluding the text of a buffer from line counting does not stop the fast
    path from counting its newlines. *)
Theorem buffer_exclude_ignored (s : SegmentedString) :
  Reachable s -> m_pushedChar1 s = 0 -> 1 < Substring.m_length (m_currentString s) ->
  Substring.m_doNotExcludeLineNumbers (m_currentString s) = true -> m_currentChar s = 10 ->
  exists s', advanceAndUpdateLineNumber (setExcludeLineNumbers s) = Some s' /\
    currentLine s' = currentLine s + 1.
Proof.
  intros Hr Hp Hl Hd Hc. pose proof (reachable_wf s Hr) as Hwf.
  set (x := setExcludeLineNumbers s).
  assert (Hx : exists subs, x = set_substrings (set_currentString s
    (Substring.setExcludeLineNumbers (m_currentString s))) subs).
  { unfold x, setExcludeLineNumbers. destruct (isComposite _); by eexists. }
  destruct Hx as [subs Hx]. rewrite Hx. clear x Hx.
  destruct (dispatch_cases s Hwf) as [(_ & _ & Hdis) | [([? | ?] & _) | (_ & ? & _)]]; [| lia..].
  pose proof Hwf as [[Hcur _ _ _] _ _ _].
  destruct (decrement_step s stepChar8 ltac:(by left) Hwf Hp Hl) as (c & Hrem & _).
  assert (Hread : exists p d, Substring.m_data (m_currentString s) = Some p /\
    Substring.m_string (m_currentString s) !! S p = Some d).
  { destruct Hcur as [Hrange Hdata]. specialize (Hdata ltac:(lia)). eexists. rewrite Hdata.
    destruct (lookup_lt_is_Some_2 (Substring.m_string (m_currentString s))
      (S (Z.to_nat (Substring.numberOfCharactersConsumed (m_currentString s))))) as [d Hd2].
    - unfold Substring.numberOfCharactersConsumed. lia.
    - by exists d. }
  destruct Hread as (p & d & Hpd & Hsp).
  pose proof (wf_current_read s Hwf Hp ltac:(lia)) as Hget.
  unfold dispatch, fastDispatch in Hdis. rewrite Hd in Hdis.
  unfold advanceAndUpdateLineNumber.
  destruct (Substring.m_is8Bit (m_currentString s)) eqn:E8; injection Hdis as Hf _ Hfn; simpl; rewrite Hf.
  - simpl. rewrite Hp, Hc. simpl. unfold stepChar8, Substring.incrementAndGetCurrentChar8. simpl.
    rewrite Hpd. simpl. rewrite Hsp. simpl. eexists. split; [done |].
    by destruct (_ =? 1).
  - rewrite Hfn. simpl. unfold advanceAndUpdateLineNumber16. simpl. rewrite Hp. simpl.
    unfold Substring.getCurrentChar in *. simpl in *. rewrite E8 in *.
    replace (Substring.m_length (m_currentString s) =? 0) with false in * by lia. simpl in *.
    unfold Substring.getCurrentChar16 in *. simpl in *. rewrite Hget. simpl. rewrite Z.eqb_refl, Hc. simpl.
    unfold decrementAndCheckLength. simpl.
    replace (1 <? Substring.m_length (m_currentString s)) with true by lia. simpl.
    destruct (_ =? 1); unfold stepChar16, Substring.incrementAndGetCurrentChar16; simpl;
      rewrite Hpd; simpl; rewrite Hsp; simpl; by eexists.
Qed.

(** ** The theorems on concrete buffers *)

Definition bufferOf (l : list Z) (is8Bit : bool) : SegmentedString :=
  default emptySegmentedString (ofString (mkString l is8Bit)).

Lemma bufferOf_reachable (l : list Z) (is8Bit : bool) : Reachable (bufferOf l is8Bit).
Proof.
  destruct (ofString_ok (mkString l is8Bit)) as (s & E & _). unfold bufferOf. rewrite E.
  by apply (reach_string (mkString l is8Bit)).
Qed.

(** A buffer with two pushed-back characters. *)
Definition pushedBuffer : SegmentedString :=
  default emptySegmentedString (s ← push (ch "a") (bufferOf (units "xy") true); push (ch "b") s).

Lemma pushedBuffer_reachable : Reachable pushedBuffer.
Proof.
  apply (reach_push (default emptySegmentedString (push (ch "a") (bufferOf (units "xy") true)))
           pushedBuffer (ch "b")); [| done | by vm_compute].
  apply (reach_push (bufferOf (units "xy") true) _ (ch "a")); [apply bufferOf_reachable | done | by vm_compute].
Qed.


Lemma buffer_advance_witness :
  Reachable pushedBuffer /\
  runs (advance pushedBuffer) (q_advance (abs pushedBuffer)) (lines pushedBuffer).
Proof.
  split; [exact pushedBuffer_reachable | apply (buffer_advance pushedBuffer pushedBuffer_reachable)].
Defined.

Lemma buffer_positions_witness :
  exists s s', ofString (mkString (units "a" ++ 10 :: units "bc") true) = Some s /\
    advanceLines 3 s = Some s' /\ toString s' = units "c" /\
    (currentLine s', currentColumn s') = (1, 1).
Proof.
  apply (buffer_positions (mkString (units "a" ++ 10 :: units "bc") true) 3).
  vm_compute; repeat constructor.
Defined.

Lemma buffer_pushback_witness :
  let s := bufferOf (units "xy") true in
  Reachable s /\ exists s1 s2 s3 s4, push (ch "a") s = Some s1 /\ push (ch "b") s1 = Some s2 /\
    advance s2 = Some s3 /\ advance s3 = Some s4 /\ m_currentChar s2 = ch "a" /\
    m_currentChar s3 = ch "b" /\ abs s4 = abs s /\ lines s4 = lines s.
Proof.
  split; [apply bufferOf_reachable |].
  apply (buffer_pushback (bufferOf (units "xy") true) (ch "a") (ch "b"));
    [apply bufferOf_reachable | reflexivity | discriminate | discriminate].
Defined.

Lemma buffer_append_witness :
  exists s', append pushedBuffer (bufferOf (units "n") false) = Some s' /\ Reachable s' /\
    toString s' = units "nabxy".
Proof.
  destruct (buffer_append (bufferOf (units "n") false) pushedBuffer (bufferOf_reachable _ _)
              pushedBuffer_reachable eq_refl) as (s' & E & Hr & Ht & _).
  exists s'. split; [exact E | split; [exact Hr | rewrite Ht; vm_compute; reflexivity]].
Defined.

Lemma buffer_lookAhead_witness :
  exists r s', lookAheadInline id (units "ab") true pushedBuffer = Some (r, s') /\ Reachable s' /\
    toString s' = units "abxy" /\ m_closed s' = false.
Proof.
  destruct (buffer_lookAhead id (units "ab") true pushedBuffer pushedBuffer_reachable)
    as (r & s' & E & Hr & Ht & Hc & _); [vm_compute; repeat constructor |].
  exists r, s'. split; [exact E | split; [exact Hr |]]. rewrite Ht, Hc. vm_compute. split; reflexivity.
Defined.

Lemma buffer_collect_witness :
  exists s', advanceCount 3 pushedBuffer = Some (units "abx", s') /\ toString s' = units "y".
Proof.
  destruct (buffer_collect pushedBuffer 3 pushedBuffer_reachable) as (s' & E & Ht & _);
    [vm_compute; split; discriminate |].
  exists s'. split; [exact E | exact Ht].
Defined.

Lemma buffer_copy_witness :
  exists s', copy pushedBuffer = Some s' /\ abs s' = abs pushedBuffer /\
    m_currentChar s' <> m_currentChar pushedBuffer.
Proof.
  destruct (buffer_copy pushedBuffer pushedBuffer_reachable) as [_ H].
  destruct H as (s' & E & Ha & _ & _ & Hne); [discriminate | discriminate |].
  exists s'. split; [exact E | split; [exact Ha |]].
  injection E as <-. vm_compute in Hne |- *. exact Hne.
Defined.

Lemma buffer_exclude_ignored_witness :
  let s := bufferOf (10 :: units "ab") true in
  exists s', advanceAndUpdateLineNumber (setExcludeLineNumbers s) = Some s' /\
    currentLine s' = currentLine s + 1.
Proof.
  apply (buffer_exclude_ignored (bufferOf (10 :: units "ab") true));
    [apply bufferOf_reachable | reflexivity | reflexivity | reflexivity | reflexivity].
Defined.
