(* ===== verification/HTMLToken.v ===== *)
(** * Tokens under construction: html/parser/HTMLToken.h

    The mutable token the tokenizer fills in.  Every ASSERT of the class is a
    guard of the model ([None] when it fails), with one exception: the check of
    [appendToAttributeValue] that the value range has been opened compares the
    caller's base offset with source positions and is left out.  The pointer
    [m_currentAttribute] into [m_attributes] is an index. *)

From S2P Require Import Prelude.

Inductive TokenType :=
  | Uninitialized | DOCTYPE | StartTag | EndTag | Comment | Character | EndOfFile.

#[export] Instance TokenType_eq_dec : EqDecision TokenType.
Proof. solve_decision. Defined.

Definition isType (a b : TokenType) : bool := bool_decide (a = b).

Record Range := mkRange { rangeStart : Z; rangeEnd : Z }.

Record Attribute := mkAttribute {
  nameRange : Range;
  valueRange : Range;
  name : list Z;
  value : list Z }.

Record DoctypeData := mkDoctypeData {
  m_hasPublicIdentifier : bool;
  m_hasSystemIdentifier : bool;
  m_publicIdentifier : list Z;
  m_systemIdentifier : list Z;
  m_forceQuirks : bool }.

Definition newDoctypeData : DoctypeData := mkDoctypeData false false [] [] false.

Record HTMLToken := mkToken {
  m_type : TokenType;
  m_range : Range;
  m_baseOffset : Z;
  m_data : list Z;
  m_orAllData : Z;
  m_selfClosing : bool;
  m_attributes : list Attribute;
  m_currentAttribute : option nat;
  m_doctypeData : option DoctypeData }.

#[export] Instance Range_eq_dec : EqDecision Range.
Proof. solve_decision. Defined.
#[export] Instance Attribute_eq_dec : EqDecision Attribute.
Proof. solve_decision. Defined.
#[export] Instance DoctypeData_eq_dec : EqDecision DoctypeData.
Proof. solve_decision. Defined.
#[export] Instance HTMLToken_eq_dec : EqDecision HTMLToken.
Proof. solve_decision. Defined.

Definition set_type (x : TokenType) (t : HTMLToken) : HTMLToken :=
  mkToken x (m_range t) (m_baseOffset t) (m_data t) (m_orAllData t) (m_selfClosing t)
    (m_attributes t) (m_currentAttribute t) (m_doctypeData t).
Definition set_data (x : list Z) (orAll : Z) (t : HTMLToken) : HTMLToken :=
  mkToken (m_type t) (m_range t) (m_baseOffset t) x orAll (m_selfClosing t)
    (m_attributes t) (m_currentAttribute t) (m_doctypeData t).
Definition set_tag (self : bool) (attrs : list Attribute) (cur : option nat) (t : HTMLToken)
  : HTMLToken :=
  mkToken (m_type t) (m_range t) (m_baseOffset t) (m_data t) (m_orAllData t) self attrs cur
    (m_doctypeData t).
Definition set_doctype (d : option DoctypeData) (t : HTMLToken) : HTMLToken :=
  mkToken (m_type t) (m_range t) (m_baseOffset t) (m_data t) (m_orAllData t) (m_selfClosing t)
    (m_attributes t) (m_currentAttribute t) d.

(** clear() leaves the tag and doctype members as they are. *)
Definition clear (t : HTMLToken) : HTMLToken :=
  mkToken Uninitialized (mkRange 0 0) 0 [] 0 (m_selfClosing t) (m_attributes t)
    (m_currentAttribute t) (m_doctypeData t).

(** HTMLToken(): the members [clear()] does not set hold no value yet. *)
Definition newToken : HTMLToken :=
  clear (mkToken Uninitialized (mkRange 0 0) 0 [] 0 false [] None None).

Definition isUninitialized (t : HTMLToken) : bool := isType (m_type t) Uninitialized.

Definition makeEndOfFile (t : HTMLToken) : option HTMLToken :=
  ASSERT (isUninitialized t);; Some (set_type EndOfFile t).

Definition startIndex (t : HTMLToken) : Z := rangeStart (m_range t).
Definition endIndex (t : HTMLToken) : Z := rangeEnd (m_range t).

Definition setBaseOffset (offset : Z) (t : HTMLToken) : HTMLToken :=
  mkToken (m_type t) (m_range t) offset (m_data t) (m_orAllData t) (m_selfClosing t)
    (m_attributes t) (m_currentAttribute t) (m_doctypeData t).

(** end(endOffset) *)
Definition endAt (endOffset : Z) (t : HTMLToken) : HTMLToken :=
  mkToken (m_type t) (mkRange (rangeStart (m_range t)) (endOffset - m_baseOffset t))
    (m_baseOffset t) (m_data t) (m_orAllData t) (m_selfClosing t)
    (m_attributes t) (m_currentAttribute t) (m_doctypeData t).

Definition data (t : HTMLToken) : option (list Z) :=
  ASSERT (isType (m_type t) Character || isType (m_type t) Comment
          || isType (m_type t) StartTag || isType (m_type t) EndTag);; Some (m_data t).

Definition isAll8BitData (t : HTMLToken) : bool := m_orAllData t <=? 255.

Definition hasName (t : HTMLToken) : bool :=
  isType (m_type t) StartTag || isType (m_type t) EndTag || isType (m_type t) DOCTYPE.

Definition tokenName (t : HTMLToken) : option (list Z) := ASSERT (hasName t);; Some (m_data t).

(** [m_data.append(c); m_orAllData |= c] *)
Definition appendData (c : Z) (t : HTMLToken) : HTMLToken :=
  set_data (m_data t ++ [c]) (Z.lor (m_orAllData t) c) t.

Definition appendToName (c : Z) (t : HTMLToken) : option HTMLToken :=
  ASSERT (hasName t);; ASSERT (negb (c =? 0));; Some (appendData c t).

(** ** DOCTYPE tokens *)
Definition isDOCTYPE (t : HTMLToken) : bool := isType (m_type t) DOCTYPE.

Definition forceQuirks (t : HTMLToken) : option bool :=
  ASSERT (isDOCTYPE t);; d ← m_doctypeData t; Some (m_forceQuirks d).

Definition updateDoctype (f : DoctypeData -> DoctypeData) (t : HTMLToken) : option HTMLToken :=
  ASSERT (isDOCTYPE t);; d ← m_doctypeData t; Some (set_doctype (Some (f d)) t).

Definition setForceQuirks : HTMLToken -> option HTMLToken :=
  updateDoctype (fun d => mkDoctypeData (m_hasPublicIdentifier d) (m_hasSystemIdentifier d)
                   (m_publicIdentifier d) (m_systemIdentifier d) true).

Definition beginDOCTYPE (t : HTMLToken) : option HTMLToken :=
  ASSERT (isUninitialized t);; Some (set_doctype (Some newDoctypeData) (set_type DOCTYPE t)).

Definition beginDOCTYPEWith (c : Z) (t : HTMLToken) : option HTMLToken :=
  ASSERT (negb (c =? 0));; t1 ← beginDOCTYPE t; Some (appendData c t1).

Definition publicIdentifier (t : HTMLToken) : option (list Z) :=
  ASSERT (isDOCTYPE t);; d ← m_doctypeData t; Some (m_publicIdentifier d).

Definition systemIdentifier (t : HTMLToken) : option (list Z) :=
  ASSERT (isDOCTYPE t);; d ← m_doctypeData t; Some (m_systemIdentifier d).

Definition setPublicIdentifierToEmptyString : HTMLToken -> option HTMLToken :=
  updateDoctype (fun d => mkDoctypeData true (m_hasSystemIdentifier d)
                   [] (m_systemIdentifier d) (m_forceQuirks d)).

Definition setSystemIdentifierToEmptyString : HTMLToken -> option HTMLToken :=
  updateDoctype (fun d => mkDoctypeData (m_hasPublicIdentifier d) true
                   (m_publicIdentifier d) [] (m_forceQuirks d)).

Definition appendToPublicIdentifier (c : Z) (t : HTMLToken) : option HTMLToken :=
  ASSERT (negb (c =? 0));;
  ASSERT (isDOCTYPE t);;
  d ← m_doctypeData t;
  ASSERT (m_hasPublicIdentifier d);;
  updateDoctype (fun d => mkDoctypeData (m_hasPublicIdentifier d) (m_hasSystemIdentifier d)
                   (m_publicIdentifier d ++ [c]) (m_systemIdentifier d) (m_forceQuirks d)) t.

Definition appendToSystemIdentifier (c : Z) (t : HTMLToken) : option HTMLToken :=
  ASSERT (negb (c =? 0));;
  ASSERT (isDOCTYPE t);;
  d ← m_doctypeData t;
  ASSERT (m_hasSystemIdentifier d);;
  updateDoctype (fun d => mkDoctypeData (m_hasPublicIdentifier d) (m_hasSystemIdentifier d)
                   (m_publicIdentifier d) (m_systemIdentifier d ++ [c]) (m_forceQuirks d)) t.

Definition releaseDoctypeData (t : HTMLToken) : option DoctypeData * HTMLToken :=
  (m_doctypeData t, set_doctype None t).

(** ** Start and end tags *)
Definition isTag (t : HTMLToken) : bool :=
  isType (m_type t) StartTag || isType (m_type t) EndTag.

Definition selfClosing (t : HTMLToken) : option bool := ASSERT (isTag t);; Some (m_selfClosing t).

Definition setSelfClosing (t : HTMLToken) : option HTMLToken :=
  ASSERT (isTag t);; Some (set_tag true (m_attributes t) (m_currentAttribute t) t).

Definition beginStartTag (c : Z) (t : HTMLToken) : option HTMLToken :=
  ASSERT (negb (c =? 0));;
  ASSERT (isUninitialized t);;
  Some (appendData c (set_tag false [] None (set_type StartTag t))).

(** beginEndTag(LChar) *)
Definition beginEndTagChar (c : Z) (t : HTMLToken) : option HTMLToken :=
  ASSERT (isUninitialized t);;
  let t1 := set_tag false [] None (set_type EndTag t) in
  Some (set_data (m_data t1 ++ [c]) (m_orAllData t1) t1).

(** beginEndTag(const Vector<LChar, 32>&) *)
Definition beginEndTag (characters : list Z) (t : HTMLToken) : option HTMLToken :=
  ASSERT (isUninitialized t);;
  let t1 := set_tag false [] None (set_type EndTag t) in
  Some (set_data (m_data t1 ++ characters) (m_orAllData t1) t1).

Definition newAttribute : Attribute := mkAttribute (mkRange 0 0) (mkRange 0 0) [] [].

Definition addNewAttribute (t : HTMLToken) : option HTMLToken :=
  ASSERT (isTag t);;
  Some (set_tag (m_selfClosing t) (m_attributes t ++ [newAttribute])
          (Some (length (m_attributes t))) t).

(** A write through [m_currentAttribute]. *)
Definition updateCurrentAttribute (f : Attribute -> Attribute) (t : HTMLToken)
  : option HTMLToken :=
  i ← m_currentAttribute t;
  a ← m_attributes t !! i;
  Some (set_tag (m_selfClosing t) (<[i := f a]> (m_attributes t)) (m_currentAttribute t) t).

Definition beginAttributeName (offset : Z) (t : HTMLToken) : option HTMLToken :=
  updateCurrentAttribute (fun a =>
    mkAttribute (mkRange (offset - m_baseOffset t) (rangeEnd (nameRange a)))
      (valueRange a) (name a) (value a)) t.

Definition endAttributeName (offset : Z) (t : HTMLToken) : option HTMLToken :=
  let index := offset - m_baseOffset t in
  updateCurrentAttribute (fun a =>
    mkAttribute (mkRange (rangeStart (nameRange a)) index) (mkRange index index)
      (name a) (value a)) t.

Definition beginAttributeValue (offset : Z) (t : HTMLToken) : option HTMLToken :=
  updateCurrentAttribute (fun a =>
    mkAttribute (nameRange a) (mkRange (offset - m_baseOffset t) 0) (name a) (value a)) t.

Definition endAttributeValue (offset : Z) (t : HTMLToken) : option HTMLToken :=
  updateCurrentAttribute (fun a =>
    mkAttribute (nameRange a) (mkRange (rangeStart (valueRange a)) (offset - m_baseOffset t))
      (name a) (value a)) t.

Definition appendToAttributeName (c : Z) (t : HTMLToken) : option HTMLToken :=
  ASSERT (negb (c =? 0));;
  ASSERT (isTag t);;
  updateCurrentAttribute (fun a =>
    mkAttribute (nameRange a) (valueRange a) (name a ++ [c]) (value a)) t.

Definition appendToAttributeValue (c : Z) (t : HTMLToken) : option HTMLToken :=
  ASSERT (negb (c =? 0));;
  ASSERT (isTag t);;
  updateCurrentAttribute (fun a =>
    mkAttribute (nameRange a) (valueRange a) (name a) (value a ++ [c])) t.

(** appendToAttributeValue(size_t, const String&) *)
Definition appendStringToAttributeValue (i : nat) (str : list Z) (t : HTMLToken)
  : option HTMLToken :=
  ASSERT (match str with [] => false | _ => true end);;
  ASSERT (isTag t);;
  a ← m_attributes t !! i;
  Some (set_tag (m_selfClosing t)
          (<[i := mkAttribute (nameRange a) (valueRange a) (name a) (value a ++ str)]>
             (m_attributes t)) (m_currentAttribute t) t).

Definition attributes (t : HTMLToken) : option (list Attribute) :=
  ASSERT (isTag t);; Some (m_attributes t).

(** The first attribute of the given local name. *)
Fixpoint findAttribute (localName : list Z) (l : list Attribute) : option Attribute :=
  match l with
  | [] => None
  | a :: l' => if bool_decide (name a = localName) then Some a else findAttribute localName l'
  end.

Definition getAttributeItem (localName : list Z) (t : HTMLToken) : option Attribute :=
  findAttribute localName (m_attributes t).

Definition eraseValueOfAttribute (i : nat) (t : HTMLToken) : option HTMLToken :=
  ASSERT (isTag t);;
  a ← m_attributes t !! i;
  Some (set_tag (m_selfClosing t)
          (<[i := mkAttribute (nameRange a) (valueRange a) (name a) []]> (m_attributes t))
          (m_currentAttribute t) t).

(** ** Character and comment tokens *)
Definition ensureIsCharacterToken (t : HTMLToken) : option HTMLToken :=
  ASSERT (isUninitialized t || isType (m_type t) Character);; Some (set_type Character t).

Definition characters (t : HTMLToken) : option (list Z) :=
  ASSERT (isType (m_type t) Character);; Some (m_data t).

(** appendToCharacter(UChar) *)
Definition appendToCharacter (c : Z) (t : HTMLToken) : option HTMLToken :=
  ASSERT (isType (m_type t) Character);; Some (appendData c t).

(** appendToCharacter(const Vector<LChar, 32>&) *)
Definition appendVectorToCharacter (l : list Z) (t : HTMLToken) : option HTMLToken :=
  ASSERT (isType (m_type t) Character);; Some (set_data (m_data t ++ l) (m_orAllData t) t).

Definition comment (t : HTMLToken) : option (list Z) :=
  ASSERT (isType (m_type t) Comment);; Some (m_data t).

Definition beginComment (t : HTMLToken) : option HTMLToken :=
  ASSERT (isUninitialized t);; Some (set_type Comment t).

Definition appendToComment (c : Z) (t : HTMLToken) : option HTMLToken :=
  ASSERT (negb (c =? 0));;
  ASSERT (isType (m_type t) Comment);; Some (appendData c t).

Definition eraseCharacters (t : HTMLToken) : option HTMLToken :=
  ASSERT (isType (m_type t) Character);; Some (set_data [] 0 t).
