(* ===== verification/HTMLEntitySearch.v ===== *)
(** * Named character references: html/parser/HTMLEntitySearch.{h,cpp}

    An incremental search for the entries of the entity table that start with
    the characters seen so far: the candidates are the range from [m_first] to
    [m_last], narrowed by two binary searches per character.

    The table itself and its two first-letter indexes are generated by the build
    (create-html-entity-table): [EntityTable] holds them as a parameter and
    [EntityTableOk] states what the generator guarantees. *)

From S2P Require Import Prelude.
From Stdlib Require Import Sorting.Sorted.

(** HTMLEntityTableEntry; [length] is the length of [entity]. *)
Record HTMLEntityTableEntry := mkEntry {
  entity : list Z;
  firstValue : Z;
  secondValue : Z }.

Definition entryLength (e : HTMLEntityTableEntry) : nat := length (entity e).

(** lastCharacter(): [entity[length - 1]] *)
Definition lastCharacter (e : HTMLEntityTableEntry) : option Z :=
  entity e !! (entryLength e - 1)%nat.

Record EntityTable := mkEntityTable {
  staticEntityTable : list HTMLEntityTableEntry;
  firstEntryStartingWith : Z -> option nat;
  lastEntryStartingWith : Z -> option nat }.

Inductive CompareResult := Before | Prefix | After.

#[export] Instance CompareResult_eq_dec : EqDecision CompareResult.
Proof. solve_decision. Defined.

(** The state of a search; a pointer into the table is an index. *)
Record HTMLEntitySearch := mkSearch {
  m_currentLength : nat;
  m_mostRecentMatch : option HTMLEntityTableEntry;
  m_first : option nat;
  m_last : option nat }.

Section Search.
Variable T : EntityTable.
Abbreviation table := (staticEntityTable T).

Definition newSearch : HTMLEntitySearch :=
  mkSearch 0 None (Some 0%nat) (Some (length table - 1)%nat).

Definition isEntityPrefix (s : HTMLEntitySearch) : bool :=
  match m_first s with Some _ => true | None => false end.

Definition halfway (left right : nat) : nat := left + Nat.div (right - left) 2.

Definition compare (currentLength : nat) (e : HTMLEntityTableEntry) (nextCharacter : Z)
  : CompareResult :=
  match entity e !! currentLength with
  | None => Before
  | Some entryNextCharacter =>
      if entryNextCharacter =? nextCharacter then Prefix
      else if entryNextCharacter <? nextCharacter then Before else After
  end.

(** [compare] on the entry a pointer points at. *)
Definition compareAt (currentLength p : nat) (nextCharacter : Z) : option CompareResult :=
  e ← table !! p; Some (compare currentLength e nextCharacter).

Fixpoint findFirstLoop (fuel n left right : nat) (c : Z) : option nat :=
  if Nat.ltb (left + 1) right then
    match fuel with
    | O => None
    | S fuel' =>
        let probe := halfway left right in
        result ← compareAt n probe c;
        if bool_decide (result = Before) then findFirstLoop fuel' n probe right c
        else findFirstLoop fuel' n left probe c
    end
  else ASSERT (Nat.eqb (left + 1) right);; Some right.

Definition findFirst (n left right : nat) (c : Z) : option nat :=
  if Nat.eqb left right then Some left else
  result ← compareAt n left c;
  if bool_decide (result = Prefix) then Some left
  else if bool_decide (result = After) then Some right
  else findFirstLoop (right - left) n left right c.

Fixpoint findLastLoop (fuel n left right : nat) (c : Z) : option nat :=
  if Nat.ltb (left + 1) right then
    match fuel with
    | O => None
    | S fuel' =>
        let probe := halfway left right in
        result ← compareAt n probe c;
        if bool_decide (result = After) then findLastLoop fuel' n left probe c
        else findLastLoop fuel' n probe right c
    end
  else ASSERT (Nat.eqb (left + 1) right);; Some left.

Definition findLast (n left right : nat) (c : Z) : option nat :=
  if Nat.eqb left right then Some right else
  result ← compareAt n right c;
  if bool_decide (result = Prefix) then Some right
  else if bool_decide (result = Before) then Some left
  else findLastLoop (right - left) n left right c.

Definition fail (s : HTMLEntitySearch) : HTMLEntitySearch :=
  mkSearch (m_currentLength s) (m_mostRecentMatch s) None None.

(** The end of [advance]: count the character and note a complete entry. *)
Definition countCharacter (first last : nat) (s : HTMLEntitySearch) : option HTMLEntitySearch :=
  let n := S (m_currentLength s) in
  e ← table !! first;
  Some (mkSearch n (if Nat.eqb (entryLength e) n then Some e else m_mostRecentMatch s)
          (Some first) (Some last)).

Definition advance (c : Z) (s : HTMLEntitySearch) : option HTMLEntitySearch :=
  ASSERT (isEntityPrefix s);;
  if Nat.eqb (m_currentLength s) 0 then
    match firstEntryStartingWith T c, lastEntryStartingWith T c with
    | Some first, Some last => countCharacter first last s
    | _, _ => Some (fail s)
    end
  else
    left ← m_first s;
    right ← m_last s;
    first ← findFirst (m_currentLength s) left right c;
    last ← findLast (m_currentLength s) first right c;
    result ← compareAt (m_currentLength s) first c;
    if Nat.eqb first last && negb (bool_decide (result = Prefix)) then Some (fail s)
    else countCharacter first last s.

(** Feeding a search one character after another. *)
Fixpoint advanceAll (w : list Z) (s : HTMLEntitySearch) : option HTMLEntitySearch :=
  match w with
  | [] => Some s
  | c :: w' => s1 ← advance c s; if isEntityPrefix s1 then advanceAll w' s1 else Some s1
  end.

End Search.

(** ** What the generator guarantees *)

(** Code-unit order on strings: the generator sorts the entries by it. *)
Fixpoint lexlt (a b : list Z) : Prop :=
  match a, b with
  | [], [] => False
  | [], _ :: _ => True
  | _ :: _, [] => False
  | x :: a', y :: b' => x < y \/ (x = y /\ lexlt a' b')
  end.

Definition isEntityCharacter (c : Z) : bool :=
  isASCIIUpper c || isASCIILower c || ((ch "0" <=? c) && (c <=? ch "9")) || (c =? ch ";").

Record EntityTableOk (T : EntityTable) : Prop := {
  table_sorted : StronglySorted lexlt (entity <$> staticEntityTable T);
  table_range c first : firstEntryStartingWith T c = Some first ->
    exists last, lastEntryStartingWith T c = Some last /\ (first <= last)%nat /\
      (last < length (staticEntityTable T))%nat /\
      forall k e, staticEntityTable T !! k = Some e ->
        ((first <= k <= last)%nat <-> head (entity e) = Some c);
  table_none c : firstEntryStartingWith T c = None ->
    Forall (fun e => head (entity e) <> Some c) (staticEntityTable T);
  table_chars : Forall (fun e => (2 <= entryLength e)%nat /\
    Forall (fun c => isEntityCharacter c = true) (entity e)) (staticEntityTable T);
  table_values : Forall (fun e => 0 < firstValue e <= 0x10FFFF /\ 0 <= secondValue e <= 0x10FFFF)
    (staticEntityTable T) }.

(** ** The two binary searches *)

Definition rank (r : CompareResult) : nat :=
  match r with Before => 0 | Prefix => 1 | After => 2 end.

Section BinarySearch.
Variable T : EntityTable.
Variables (n i j : nat) (c : Z) (f : nat -> CompareResult).
Hypothesis Hf : forall k, (i <= k <= j)%nat -> compareAt T n k c = Some (f k).
Hypothesis Hmono : forall k1 k2, (i <= k1)%nat -> (k1 <= k2)%nat -> (k2 <= j)%nat ->
  (rank (f k1) <= rank (f k2))%nat.

Lemma halfway_between (l r : nat) : (l + 1 < r)%nat -> (l < halfway l r < r)%nat.
Proof.
  intros H. unfold halfway.
  pose proof (Nat.div_lt (r - l) 2 ltac:(lia) ltac:(lia)).
  pose proof (Nat.div_le_lower_bound (r - l) 2 1 ltac:(lia) ltac:(lia)). lia.
Qed.

Lemma findFirstLoop_ok (fuel l r : nat) :
  (i <= l)%nat -> (l < r)%nat -> (r <= j)%nat -> (r - l <= fuel)%nat ->
  f l = Before -> (r = j \/ f r <> Before) ->
  exists F, findFirstLoop T fuel n l r c = Some F /\ (l < F <= r)%nat /\
    f (F - 1)%nat = Before /\ (F = j \/ f F <> Before).
Proof.
  revert l r. induction fuel as [| fuel IH]; intros l r Hi Hlr Hj Hfuel Hl Hr; [lia |]. simpl.
  destruct (Nat.ltb (l + 1) r) eqn:E.
  - apply Nat.ltb_lt in E. pose proof (halfway_between l r E) as Hh.
    rewrite Hf by lia. simpl. case_bool_decide as Hb.
    + destruct (IH (halfway l r) r) as (F & -> & ? & ? & ?); try lia; try done.
      exists F. repeat split; try done; lia.
    + destruct (IH l (halfway l r)) as (F & -> & ? & ? & ?); try lia; try done; [by right |].
      exists F. repeat split; try done; lia.
  - apply Nat.ltb_ge in E. replace (Nat.eqb (l + 1) r) with true by (symmetry; apply Nat.eqb_eq; lia).
    simpl. exists r. replace (r - 1)%nat with l by lia. repeat split; try done; lia.
Qed.

Lemma findLastLoop_ok (fuel l r F : nat) :
  (i <= F)%nat -> (F <= l)%nat -> (l < r)%nat -> (r <= j)%nat -> (r - l <= fuel)%nat ->
  f r = After -> (l = F \/ f l <> After) ->
  exists L, findLastLoop T fuel n l r c = Some L /\ (l <= L < r)%nat /\
    f (S L) = After /\ (L = F \/ f L <> After).
Proof.
  revert l r. induction fuel as [| fuel IH]; intros l r Hi HFl Hlr Hj Hfuel Hr Hl; [lia |]. simpl.
  destruct (Nat.ltb (l + 1) r) eqn:E.
  - apply Nat.ltb_lt in E. pose proof (halfway_between l r E) as Hh.
    rewrite Hf by lia. simpl. case_bool_decide as Hb.
    + destruct (IH l (halfway l r)) as (L & -> & ? & ? & ?); try lia; try done.
      exists L. repeat split; try done; lia.
    + destruct (IH (halfway l r) r) as (L & -> & ? & ? & ?); try lia; try done; [by right |].
      exists L. repeat split; try done; lia.
  - apply Nat.ltb_ge in E. replace (Nat.eqb (l + 1) r) with true by (symmetry; apply Nat.eqb_eq; lia).
    simpl. exists l. replace (S l) with r by lia. repeat split; try done; lia.
Qed.

Lemma rank_prefix_between (k1 k2 k3 : nat) :
  (i <= k1)%nat -> (k1 <= k2)%nat -> (k2 <= k3)%nat -> (k3 <= j)%nat ->
  f k1 <> Before -> f k3 <> After -> f k2 = Prefix.
Proof.
  intros ? ? ? ? H1 H3. pose proof (Hmono k1 k2). pose proof (Hmono k2 k3).
  destruct (f k1), (f k2), (f k3); simpl in *; done || lia.
Qed.

Lemma all_before (k1 k2 : nat) :
  (i <= k1)%nat -> (k1 <= k2)%nat -> (k2 <= j)%nat -> f k2 = Before -> f k1 = Before.
Proof.
  intros ? ? ? H2. pose proof (Hmono k1 k2). rewrite H2 in *. destruct (f k1); simpl in *; done || lia.
Qed.

Lemma all_after (k1 k2 : nat) :
  (i <= k1)%nat -> (k1 <= k2)%nat -> (k2 <= j)%nat -> f k1 = After -> f k2 = After.
Proof.
  intros ? ? ? H2. pose proof (Hmono k1 k2). rewrite H2 in *. destruct (f k2); simpl in *; done || lia.
Qed.

Lemma findFirst_ok :
  (i <= j)%nat ->
  exists F, findFirst T n i j c = Some F /\ (i <= F <= j)%nat /\
    (forall k, (i <= k < F)%nat -> f k <> Prefix) /\
    (f F = Prefix \/
     (F = j \/ f F = After) /\ forall k, (i <= k <= j)%nat -> f k <> Prefix).
Proof.
  intros Hij. unfold findFirst.
  destruct (Nat.eqb i j) eqn:E; [apply Nat.eqb_eq in E | apply Nat.eqb_neq in E].
  { exists i. split; [done | split; [lia | split; [lia |]]].
    destruct (decide (f i = Prefix)) as [| Hn]; [by left | right].
    split; [by left |]. intros k Hk. by replace k with i by lia. }
  rewrite Hf by lia. simpl. case_bool_decide as Hp.
  { exists i. split; [done | split; [lia | split; [lia | by left]]]. }
  case_bool_decide as Ha.
  { exists j. split; [done | split; [lia |]].
    assert (Hall : forall k, (i <= k <= j)%nat -> f k <> Prefix).
    { intros k Hk. by rewrite (all_after i k) by (lia || done). }
    split; [intros; apply Hall; lia | right; auto]. }
  assert (Hb : f i = Before) by (destruct (f i); done).
  destruct (findFirstLoop_ok (j - i) i j) as (F & -> & HF & Hpred & Hlast); try lia; try done.
  exists F. split; [done | split; [lia |]].
  assert (Hlow : forall k, (i <= k < F)%nat -> f k <> Prefix).
  { intros k Hk. by rewrite (all_before k (F - 1)) by (lia || done). }
  split; [done |]. destruct (decide (f F = Prefix)) as [| Hn]; [by left | right].
  assert (HF' : F = j \/ f F = After) by (destruct Hlast; [by left |]; right; destruct (f F); done).
  split; [done |]. intros k Hk. destruct (decide (k < F)%nat); [apply Hlow; lia |].
  destruct HF' as [-> | HF']; [by replace k with j by lia |].
  by rewrite (all_after F k) by (lia || done).
Qed.

Lemma findLast_ok (F : nat) :
  (i <= F <= j)%nat ->
  f F = Prefix \/ (F = j \/ f F = After) ->
  exists L, findLast T n F j c = Some L /\ (F <= L <= j)%nat /\
    (f F = Prefix -> f L = Prefix /\ forall k, (L < k <= j)%nat -> f k <> Prefix) /\
    (f F <> Prefix -> L = F).
Proof.
  intros HF Hcase. unfold findLast.
  destruct (Nat.eqb F j) eqn:E; [apply Nat.eqb_eq in E | apply Nat.eqb_neq in E].
  { exists j. subst. split; [done | split; [lia | split; [| done]]].
    intros Hp. split; [done | lia]. }
  rewrite Hf by lia. simpl. case_bool_decide as Hp.
  { exists j. split; [done | split; [lia | split; [intros; split; [done | lia] |]]].
    intros Hn. destruct Hcase as [? | [? | Ha]]; [done | lia |].
    by rewrite (all_after F j) in Hp by (lia || done). }
  case_bool_decide as Hb.
  { exfalso. pose proof (all_before F j ltac:(lia) ltac:(lia) ltac:(lia) Hb) as Hbf.
    destruct Hcase as [? | [? | ?]]; [congruence | lia | congruence]. }
  assert (Ha : f j = After) by (destruct (f j); done).
  destruct (findLastLoop_ok (j - F) F j F) as (L & -> & HL & Hsucc & Hfirst); try lia; try done.
  exists L. split; [done | split; [lia |]]. split.
  - intros HpF. split.
    + destruct Hfirst as [-> | Hfirst]; [done |].
      apply (rank_prefix_between F L L); lia || congruence.
    + intros k Hk. by rewrite (all_after (S L) k) by (lia || done).
  - intros HnF. destruct Hfirst as [-> | Hfirst]; [done |].
    destruct Hcase as [? | [? | HaF]]; [done | lia |].
    by rewrite (all_after F L) in Hfirst by (lia || done).
Qed.

End BinarySearch.

(** ** The search finds the range of candidates and the longest match *)

Lemma lexlt_app (w a b : list Z) : lexlt (w ++ a) (w ++ b) -> lexlt a b.
Proof. induction w as [| x w IH]; simpl; [done |]. intros [H | [_ H]]; [lia | by apply IH]. Qed.

Lemma compare_app (w a v : list Z) (x y c : Z) :
  compare (length w) (mkEntry (w ++ a) x y) c =
    match head a with
    | None => Before
    | Some d => if d =? c then Prefix else if d <? c then Before else After
    end.
Proof.
  unfold compare. simpl. rewrite lookup_app_r, Nat.sub_diag by lia. by destruct a.
Qed.

Lemma compare_mono (w a b : list Z) (c : Z) :
  lexlt a b ->
  (rank (compare (length w) (mkEntry (w ++ a) 0 0) c)
   <= rank (compare (length w) (mkEntry (w ++ b) 0 0) c))%nat.
Proof.
  intros H. rewrite !(compare_app w _ []). destruct a as [| x a], b as [| y b]; simpl in *; try lia.
  repeat case_match; simpl; bool_to_prop; lia.
Qed.

Lemma compare_entity (n : nat) (e : HTMLEntityTableEntry) (c : Z) :
  compare n e c = compare n (mkEntry (entity e) 0 0) c.
Proof. done. Qed.

Lemma prefix_snoc (w l : list Z) (c : Z) :
  w `prefix_of` l -> (w ++ [c] `prefix_of` l <-> l !! length w = Some c).
Proof.
  intros [v ->]. rewrite lookup_app_r, Nat.sub_diag by lia. split.
  - intros [u Hu]. rewrite <- app_assoc in Hu. apply app_inv_head in Hu as ->. done.
  - destruct v as [| d v]; [done |]. simpl. intros [= ->]. exists v. by rewrite <- app_assoc.
Qed.

Lemma compare_prefix (w : list Z) (e : HTMLEntityTableEntry) (c : Z) :
  w `prefix_of` entity e ->
  (compare (length w) e c = Prefix <-> w ++ [c] `prefix_of` entity e).
Proof.
  intros Hw. rewrite prefix_snoc by done. unfold compare.
  destruct (entity e !! length w) as [d |]; [| split; done].
  destruct (d =? c) eqn:E; bool_to_prop.
  - subst. done.
  - split; [by destruct (d <? c) | congruence].
Qed.

Section SearchCorrect.
Variable T : EntityTable.
Hypothesis HT : EntityTableOk T.
Abbreviation table := (staticEntityTable T).

(** The entry recorded by the search is the longest one the text starts with. *)
Definition longestMatch (w : list Z) (m : option HTMLEntityTableEntry) : Prop :=
  match m with
  | None => forall e, e ∈ table -> ~ entity e `prefix_of` w
  | Some e => e ∈ table /\ entity e `prefix_of` w /\
      forall e', e' ∈ table -> entity e' `prefix_of` w -> (entryLength e' <= entryLength e)%nat
  end.

(** The search has read [w] and is still inside the table: its range is exactly
    the entries that start with [w]. *)
Definition tracks (w : list Z) (s : HTMLEntitySearch) : Prop :=
  m_currentLength s = length w /\ longestMatch w (m_mostRecentMatch s) /\
  exists i j, m_first s = Some i /\ m_last s = Some j /\ (i <= j)%nat /\
    (j < length table)%nat /\
    forall k e, table !! k = Some e -> ((i <= k <= j)%nat <-> w `prefix_of` entity e).

Lemma table_lookup_lt (k1 k2 : nat) (e1 e2 : HTMLEntityTableEntry) :
  table !! k1 = Some e1 -> table !! k2 = Some e2 -> (k1 < k2)%nat ->
  lexlt (entity e1) (entity e2).
Proof.
  intros H1 H2 Hlt.
  assert (forall (l : list HTMLEntityTableEntry) k1 k2, StronglySorted lexlt (entity <$> l) ->
    l !! k1 = Some e1 -> l !! k2 = Some e2 -> (k1 < k2)%nat -> lexlt (entity e1) (entity e2)) as Hgen.
  { clear. induction l as [| x l IH]; intros k1 k2 Hs H1 H2 Hlt; [done |].
    apply StronglySorted_inv in Hs as [Hs Hx].
    change (Forall (lexlt (entity x)) (entity <$> l)) in Hx.
    destruct k1, k2; simpl in *; try lia.
    - injection H1 as ->. apply (Forall_lookup_1 _ _ k2 (entity e2) Hx).
      change (entity <$> l) with (fmap entity l). by rewrite list_lookup_fmap, H2.
    - eapply (IH k1 k2); [done.. | lia]. }
  by eapply (Hgen table k1 k2); [apply table_sorted |..].
Qed.

(** The first entry of the range is the one that equals the text, if any does. *)
Lemma exact_is_first (w : list Z) (i j : nat) (e e0 : HTMLEntityTableEntry) :
  (forall k e, table !! k = Some e -> ((i <= k <= j)%nat <-> w `prefix_of` entity e)) ->
  table !! i = Some e0 -> e ∈ table -> entity e = w -> (i <= j)%nat -> entity e0 = w.
Proof.
  intros Hr H0 Hin He Hij. apply list_elem_of_lookup in Hin as [k Hk].
  assert (Hki : (i <= k <= j)%nat) by (apply (Hr k e Hk); by rewrite He).
  destruct (decide (k = i)) as [-> | Hne]; [congruence |].
  pose proof (table_lookup_lt i k e0 e H0 Hk ltac:(lia)) as Hlt.
  destruct (proj1 (Hr i e0 H0) ltac:(lia)) as [v Hv].
  rewrite He, Hv in Hlt. rewrite <- (app_nil_r w) in Hlt at 2. apply lexlt_app in Hlt.
  by destruct v.
Qed.

Lemma longestMatch_snoc_miss (w : list Z) (c : Z) (m : option HTMLEntityTableEntry) :
  longestMatch w m -> (forall e, e ∈ table -> entity e <> w ++ [c]) ->
  longestMatch (w ++ [c]) m.
Proof.
  intros Hm Hmiss.
  assert (Hp : forall e, e ∈ table -> (entity e `prefix_of` w ++ [c] <-> entity e `prefix_of` w)).
  { intros e He. split; [| by intros ?; apply prefix_app_r].
    intros [v Hv]. destruct v as [| d v _] using rev_ind.
    - rewrite app_nil_r in Hv. by destruct (Hmiss e He).
    - rewrite app_assoc in Hv. apply app_inj_tail in Hv as [-> _]. by exists v. }
  destruct m as [e |]; simpl in *.
  - destruct Hm as (Hin & Hpre & Hmax). split; [done | split; [by apply Hp |]].
    intros e' He' Hpre'. apply Hmax; [done | by apply Hp].
  - intros e He Hpre. apply (Hm e He). by apply Hp.
Qed.

Lemma countCharacter_ok (w : list Z) (c : Z) (i j : nat) (s : HTMLEntitySearch) :
  m_currentLength s = length w -> longestMatch w (m_mostRecentMatch s) ->
  (i <= j)%nat -> (j < length table)%nat ->
  (forall k e, table !! k = Some e -> ((i <= k <= j)%nat <-> w ++ [c] `prefix_of` entity e)) ->
  exists s', countCharacter T i j s = Some s' /\ isEntityPrefix s' = true /\ tracks (w ++ [c]) s'.
Proof.
  intros Hn Hm Hij Hj Hr. unfold countCharacter. rewrite Hn.
  destruct (lookup_lt_is_Some_2 table i ltac:(lia)) as [e0 He0].
  rewrite He0. simpl.
  eexists. split; [done | split; [done |]].
  split; [simpl; rewrite length_app; simpl; lia | split; [| by exists i, j]].
  pose proof (proj1 (Hr i e0 He0) ltac:(lia)) as Hpre. simpl.
  destruct (Nat.eqb (entryLength e0) (S (length w))) eqn:E.
  - apply Nat.eqb_eq in E.
    assert (Heq : entity e0 = w ++ [c]).
    { symmetry. apply prefix_length_eq; [done |]. rewrite length_app. simpl. unfold entryLength in E. lia. }
    split; [by eapply list_elem_of_lookup_2 | split; [by rewrite Heq |]].
    intros e' _ H. apply prefix_length in H. unfold entryLength. rewrite Heq. done.
  - apply Nat.eqb_neq in E. apply longestMatch_snoc_miss; [done |].
    intros e Hin He. apply E. unfold entryLength.
    rewrite (exact_is_first (w ++ [c]) i j e e0 Hr He0 Hin He Hij), length_app. simpl. lia.
Qed.

(** One step either keeps tracking, or leaves the table: then no entry starts
    with the longer text, and the recorded match is still the longest one. *)
Definition stepped (w : list Z) (c : Z) (s s' : HTMLEntitySearch) : Prop :=
  if isEntityPrefix s' then tracks (w ++ [c]) s'
  else m_currentLength s' = length w /\ m_mostRecentMatch s' = m_mostRecentMatch s /\
       longestMatch (w ++ [c]) (m_mostRecentMatch s') /\
       forall e, e ∈ table -> ~ (w ++ [c]) `prefix_of` entity e.

Lemma fail_stepped (w : list Z) (c : Z) (s : HTMLEntitySearch) :
  m_currentLength s = length w -> longestMatch w (m_mostRecentMatch s) ->
  (forall e, e ∈ table -> ~ (w ++ [c]) `prefix_of` entity e) -> stepped w c s (fail s).
Proof.
  intros Hn Hm Hnone. split; [done | split; [done | split; [| done]]].
  apply longestMatch_snoc_miss; [done |]. intros e He Heq. by apply (Hnone e He); rewrite Heq.
Qed.

Lemma longestMatch_nil : longestMatch [] None.
Proof.
  intros e He [v Hv].
  pose proof (proj1 (list.Forall_forall _ _) (table_chars T HT) e He) as [Hne _].
  symmetry in Hv. apply app_nil in Hv as [Hv _]. unfold entryLength in Hne. rewrite Hv in Hne. simpl in Hne. lia.
Qed.

Lemma prefix_singleton (c : Z) (l : list Z) : [c] `prefix_of` l <-> head l = Some c.
Proof.
  split; [by intros [v ->] |]. destruct l as [| d l]; [done |]. intros [= ->]. by exists l.
Qed.

Lemma advance_first (c : Z) :
  exists s', advance T c (newSearch T) = Some s' /\ stepped [] c (newSearch T) s'.
Proof.
  unfold advance. simpl.
  assert (Hfail : (forall e, e ∈ table -> head (entity e) <> Some c) ->
    stepped [] c (newSearch T) (fail (newSearch T))).
  { intros Hn. apply fail_stepped; [done | apply longestMatch_nil |].
    intros e He Hp. apply (Hn e He). by apply prefix_singleton. }
  destruct (firstEntryStartingWith T c) as [i |] eqn:Ei.
  - destruct (table_range T HT c i Ei) as (j & -> & Hij & Hj & Hr).
    destruct (countCharacter_ok [] c i j (newSearch T)) as (s' & -> & Hp & Ht); try done.
    + apply longestMatch_nil.
    + intros k e Hk. rewrite (Hr k e Hk). simpl. symmetry. apply prefix_singleton.
    + exists s'. split; [done |]. unfold stepped. by rewrite Hp.
  - exists (fail (newSearch T)). split; [done |]. apply Hfail. apply list.Forall_forall.
    by apply table_none.
Qed.

Lemma advance_next (w : list Z) (c : Z) (s : HTMLEntitySearch) :
  w <> [] -> tracks w s ->
  exists s', advance T c s = Some s' /\ stepped w c s s'.
Proof.
  intros Hw (Hn & Hm & i & j & Hi & Hj & Hij & Hlen & Hr).
  unfold advance, isEntityPrefix. rewrite Hi, Hj, Hn. simpl.
  replace (Nat.eqb (length w) 0) with false by by destruct w.
  set (f := fun k => default Before (compareAt T (length w) k c)).
  assert (Hsome : forall k, (i <= k <= j)%nat -> exists e, table !! k = Some e /\
      w `prefix_of` entity e /\ compareAt T (length w) k c = Some (f k) /\
      f k = compare (length w) e c).
  { intros k Hk. destruct (lookup_lt_is_Some_2 table k ltac:(lia)) as [e He].
    exists e. split; [done | split; [by apply (Hr k e He) |]].
    unfold f, compareAt. by rewrite He. }
  assert (Hf : forall k, (i <= k <= j)%nat -> compareAt T (length w) k c = Some (f k)).
  { intros k Hk. by destruct (Hsome k Hk) as (e & _ & _ & ? & _). }
  assert (Hmono : forall k1 k2, (i <= k1)%nat -> (k1 <= k2)%nat -> (k2 <= j)%nat ->
      (rank (f k1) <= rank (f k2))%nat).
  { intros k1 k2 H1 H2 H3. destruct (decide (k1 = k2)) as [-> | Hne]; [done |].
    destruct (Hsome k1 ltac:(lia)) as (e1 & He1 & [a Ha] & _ & ->).
    destruct (Hsome k2 ltac:(lia)) as (e2 & He2 & [b Hb] & _ & ->).
    pose proof (table_lookup_lt k1 k2 e1 e2 He1 He2 ltac:(lia)) as Hlt.
    rewrite (compare_entity _ e1), (compare_entity _ e2). rewrite Ha, Hb in *.
    apply compare_mono. by apply lexlt_app in Hlt. }
  assert (Hpre : forall k e, (i <= k <= j)%nat -> table !! k = Some e ->
      (f k = Prefix <-> w ++ [c] `prefix_of` entity e)).
  { intros k e Hk He. destruct (Hsome k Hk) as (e' & He' & Hp & _ & ->).
    rewrite He in He'. injection He' as <-. by apply compare_prefix. }
  destruct (findFirst_ok T (length w) i j c f Hf Hmono Hij) as (F & -> & HF & Hlow & Hcase).
  simpl. destruct (findLast_ok T (length w) i j c f Hf Hmono F HF) as (L & -> & HL & Hhit & Hmiss).
  { destruct Hcase as [? | [? _]]; auto. }
  simpl. rewrite Hf by lia. simpl. destruct (decide (f F = Prefix)) as [Hp | Hp].
  - rewrite bool_decide_eq_true_2 by done. rewrite andb_false_r.
    destruct (Hhit Hp) as [HpL Habove].
    destruct (countCharacter_ok w c F L s) as (s' & -> & Hp' & Ht); try done; [lia | lia | |].
    + intros k e Hk. split.
      * intros Hin. apply (Hpre k e ltac:(lia) Hk).
        apply (rank_prefix_between i j f Hmono F k L); lia || congruence.
      * intros Hpk.
        assert (Hin : (i <= k <= j)%nat).
        { apply (Hr k e Hk). by apply (prefix_app_l _ _ [c]). }
        apply (Hpre k e Hin Hk) in Hpk.
        destruct (decide (k < F)%nat); [by destruct (Hlow k ltac:(lia)) |].
        destruct (decide (L < k)%nat); [by destruct (Habove k ltac:(lia)) |]. lia.
    + exists s'. split; [done |]. unfold stepped. by rewrite Hp'.
  - rewrite bool_decide_eq_false_2 by done. rewrite (Hmiss Hp), Nat.eqb_refl. simpl.
    exists (fail s). split; [done |]. apply fail_stepped; try done.
    intros e [k Hk]%list_elem_of_lookup Hpk. destruct Hcase as [| [_ Hnone]]; [done |].
    assert (Hin : (i <= k <= j)%nat).
    { apply (Hr k e Hk). by apply (prefix_app_l _ _ [c]). }
    by apply (Hnone k Hin), (Hpre k e Hin Hk).
Qed.

(** Any step of a search, from its start or in the middle. *)
Definition searching (w : list Z) (s : HTMLEntitySearch) : Prop :=
  (w = [] /\ s = newSearch T) \/ (w <> [] /\ tracks w s).

Lemma searching_length (w : list Z) (s : HTMLEntitySearch) :
  searching w s -> m_currentLength s = length w.
Proof. by intros [[-> ->] | [_ [? _]]]. Qed.

Lemma searching_match (w : list Z) (s : HTMLEntitySearch) :
  searching w s -> longestMatch w (m_mostRecentMatch s).
Proof. intros [[-> ->] | [_ (_ & ? & _)]]; [apply longestMatch_nil | done]. Qed.

Lemma advance_ok (w : list Z) (c : Z) (s : HTMLEntitySearch) :
  searching w s ->
  exists s', advance T c s = Some s' /\ stepped w c s s' /\
    (isEntityPrefix s' = true -> searching (w ++ [c]) s').
Proof.
  intros Hs.
  assert (exists s', advance T c s = Some s' /\ stepped w c s s') as (s' & E & Hst).
  { destruct Hs as [[-> ->] | [Hw Ht]]; [apply advance_first | by apply advance_next]. }
  exists s'. split; [done | split; [done |]]. intros Hp. right.
  unfold stepped in Hst. rewrite Hp in Hst. split; [by destruct w | done].
Qed.

(** The whole search: after any text it either still tracks it, or it stopped at
    the first character that leaves the table. *)
Lemma advanceAll_searching (u w : list Z) (s : HTMLEntitySearch) :
  searching w s ->
  exists s', advanceAll T u s = Some s' /\
    (if isEntityPrefix s' then searching (w ++ u) s'
     else exists u1 c u2, u = u1 ++ c :: u2 /\ m_currentLength s' = length (w ++ u1) /\
       longestMatch (w ++ u1 ++ [c]) (m_mostRecentMatch s') /\
       forall e, e ∈ table -> ~ (w ++ u1 ++ [c]) `prefix_of` entity e).
Proof.
  revert w s. induction u as [| c u IH]; intros w s Hs; simpl.
  { exists s. split; [done |]. rewrite app_nil_r.
    destruct Hs as [[-> ->] | Ht]; simpl; [by left |].
    pose proof Ht as [_ (_ & _ & i & j & Hi & _)]. unfold isEntityPrefix. rewrite Hi. by right. }
  destruct (advance_ok w c s Hs) as (s1 & -> & Hst & Hnext). simpl.
  destruct (isEntityPrefix s1) eqn:E.
  - destruct (IH (w ++ [c]) s1 (Hnext eq_refl)) as (s2 & -> & Hs2). exists s2. split; [done |].
    destruct (isEntityPrefix s2).
    + by rewrite <- app_assoc in Hs2.
    + destruct Hs2 as (u1 & d & u2 & -> & Hl & Hm & Hn).
      exists (c :: u1), d, u2. rewrite <- !app_assoc in *. done.
  - exists s1. split; [done |]. rewrite E. unfold stepped in Hst. rewrite E in Hst.
    destruct Hst as (Hl & _ & Hm & Hn). exists [], c, u. by rewrite app_nil_r.
Qed.

End SearchCorrect.
