(* ===== verification/HTMLEntityParser.v ===== *)
(** * Character references: html/parser/HTMLEntityParser.cpp and
    xml/parser/CharacterReferenceParserInlines.h

    [consumeCharacterReference] reads a character reference (the text after an
    ampersand) from the input buffer, or puts back what it read.  It is written
    over any [CharSource]; section [Reference] gives it a specification on lists
    of code units and the theorems of the file relate the two. *)

From S2P Require Import Prelude SegmentedString CharSource HTMLEntitySearch.

(** ** Code points and code units *)

Definition U_IS_BMP (c : Z) : bool := c mod 2 ^ 32 <=? 0xFFFF.
Definition U16_LEAD (c : Z) : Z := (Z.shiftr c 10 + 0xD7C0) mod 2 ^ 16.
Definition U16_TRAIL (c : Z) : Z := (Z.lor (Z.land c 0x3FF) 0xDC00) mod 2 ^ 16.

(** StringBuilder::append(UChar32): the code units it appends. *)
Definition encodeUChar32 (c : Z) : list Z :=
  if U_IS_BMP c then [c mod 2 ^ 16] else [U16_LEAD c; U16_TRAIL c].

Definition windowsLatin1ExtensionArray : list Z :=
  [0x20AC; 0x0081; 0x201A; 0x0192; 0x201E; 0x2026; 0x2020; 0x2021;
   0x02C6; 0x2030; 0x0160; 0x2039; 0x0152; 0x008D; 0x017D; 0x008F;
   0x0090; 0x2018; 0x2019; 0x201C; 0x201D; 0x2022; 0x2013; 0x2014;
   0x02DC; 0x2122; 0x0161; 0x203A; 0x0153; 0x009D; 0x017E; 0x0178].

Definition isAlphaNumeric (cc : Z) : bool :=
  ((ch "0" <=? cc) && (cc <=? ch "9")) || ((ch "a" <=? cc) && (cc <=? ch "z"))
  || ((ch "A" <=? cc) && (cc <=? ch "Z")).

Definition isHexDigit (cc : Z) : bool :=
  ((ch "0" <=? cc) && (cc <=? ch "9")) || ((ch "a" <=? cc) && (cc <=? ch "f"))
  || ((ch "A" <=? cc) && (cc <=? ch "F")).

Definition isDecimalDigit (cc : Z) : bool := (ch "0" <=? cc) && (cc <=? ch "9").

Definition adjustEntity (value : Z) : option Z :=
  if negb (Z.land value (Z.lnot 0x1F) =? 0x0080) then Some (value mod 2 ^ 16)
  else windowsLatin1ExtensionArray !! Z.to_nat (value - 0x80).

Definition legalEntityFor (value : Z) : option Z :=
  if (value =? 0) || (0x10FFFF <? value) || ((0xD800 <=? value) && (value <=? 0xDFFF))
  then Some 0xFFFD
  else if U_IS_BMP value then adjustEntity value
  else Some value.

Definition acceptMalformed : bool := true.

(** The value after one more digit, in a 32-bit [UChar32]. *)
Definition hexStep (value cc : Z) : Z :=
  if isDecimalDigit cc then wrap32 (value * 16 + cc - ch "0")
  else if (ch "a" <=? cc) && (cc <=? ch "f") then wrap32 (value * 16 + 10 + cc - ch "a")
  else wrap32 (value * 16 + 10 + cc - ch "A").

Definition decimalStep (value cc : Z) : Z := wrap32 (value * 10 + cc - ch "0").

Inductive EntityState :=
  | Initial | Number | MaybeHexLowerCaseX | MaybeHexUpperCaseX | Hex | Decimal | Named.

(** The three ways [consumeCharacterReference] returns: [true] with the decoded
    code units, [false], and [false] with [notEnoughCharacters]. *)
Inductive CharRef :=
  | Decoded (units : list Z)
  | NoReference
  | NotEnough.

Section Parser.
Context {S : Type} `{CharSource S}.
Variable T : EntityTable.

Definition src_advanceAndASSERT (expectedCharacter : Z) (s : S) : option S :=
  ASSERT (src_currentChar s =? expectedCharacter);; src_advance s.

Definition unconsumeCharacters (consumedCharacters : list Z) (s : S) : option S :=
  match consumedCharacters with
  | [a] => src_push a s
  | [a; b] => s1 ← src_push a s; src_push b s1
  | l => src_prepend l s
  end.

(** The first loop of [consumeNamedEntity]: also returns the last character
    looked at. *)
Fixpoint namedLoop (fuel : nat) (search : HTMLEntitySearch) (consumed : list Z) (cc : Z) (s : S)
  : result (HTMLEntitySearch * list Z * Z * S) :=
  match fuel with
  | O => OutOfFuel
  | Datatypes.S fuel' =>
      if src_isEmpty s then Ok (search, consumed, cc, s) else
      let cc := src_currentChar s in
      search1 ← lift (HTMLEntitySearch.advance T cc search);
      if negb (isEntityPrefix search1) then Ok (search1, consumed, cc, s) else
      s1 ← lift (src_advanceAndASSERT cc s);
      namedLoop fuel' search1 (consumed ++ [cc]) cc s1
  end.

(** The second loop: consumes the matched entity once more. *)
Fixpoint reconsumeEntity (reference : list Z) (consumed : list Z) (s : S)
  : option (list Z * S) :=
  match reference with
  | [] => Some (consumed, s)
  | r :: reference' =>
      let cc := src_currentChar s in
      ASSERT (cc =? r);;
      s1 ← src_advanceAndASSERT cc s;
      ASSERT (negb (src_isEmpty s1));;
      reconsumeEntity reference' (consumed ++ [cc]) s1
  end.

(** From the match on: is the reference accepted? *)
Definition acceptNamed (e : HTMLEntityTableEntry) (additionalAllowedCharacter cc : Z)
    (consumed : list Z) (s : S) : option (CharRef * S) :=
  last ← lastCharacter e;
  if (last =? ch ";") || (additionalAllowedCharacter =? 0)
     || negb (isAlphaNumeric cc || (cc =? ch "="))
  then Some (Decoded (encodeUChar32 (firstValue e)
               ++ (if secondValue e =? 0 then [] else encodeUChar32 (secondValue e))), s)
  else s1 ← unconsumeCharacters consumed s; Some (NoReference, s1).

Definition consumeNamedEntity (additionalAllowedCharacter cc : Z) (s : S)
  : result (CharRef * S) :=
  '(search, consumed, cc, s1) ←
     namedLoop (Datatypes.S (Z.to_nat (src_length s))) (newSearch T) [] cc s;
  if src_isEmpty s1 then s2 ← lift (unconsumeCharacters consumed s1); Ok (NotEnough, s2)
  else match m_mostRecentMatch search with
  | None => s2 ← lift (unconsumeCharacters consumed s1); Ok (NoReference, s2)
  | Some e =>
      if negb (Nat.eqb (entryLength e) (m_currentLength search)) then
        s2 ← lift (unconsumeCharacters consumed s1);
        '(consumed2, s3) ← lift (reconsumeEntity (entity e) [] s2);
        lift (acceptNamed e additionalAllowedCharacter (src_currentChar s3) consumed2 s3)
      else lift (acceptNamed e additionalAllowedCharacter cc consumed s1)
  end.

Fixpoint referenceLoop (fuel : nat) (additionalAllowedCharacter : Z) (entityState : EntityState)
    (value : Z) (consumed : list Z) (s : S) : result (CharRef * S) :=
  match fuel with
  | O => OutOfFuel
  | Datatypes.S fuel' =>
      if src_isEmpty s then s1 ← lift (unconsumeCharacters consumed s); Ok (NotEnough, s1) else
      let cc := src_currentChar s in
      let again st := referenceLoop fuel' additionalAllowedCharacter st value consumed s in
      let consume st value' :=
        s1 ← lift (src_advanceAndASSERT cc s);
        referenceLoop fuel' additionalAllowedCharacter st value' (consumed ++ [cc]) s1 in
      let decode s1 := v ← lift (legalEntityFor value); Ok (Decoded (encodeUChar32 v), s1) in
      match entityState with
      | Initial =>
          if (cc =? 0x09) || (cc =? 0x0A) || (cc =? 0x0C) || (cc =? ch " ") || (cc =? ch "<")
             || (cc =? ch "&") then Ok (NoReference, s)
          else if negb (additionalAllowedCharacter =? 0) && (cc =? additionalAllowedCharacter)
          then Ok (NoReference, s)
          else if cc =? ch "#" then consume Number value
          else if isASCIILower cc || isASCIIUpper cc then again Named
          else Ok (NoReference, s)
      | Number =>
          if cc =? ch "x" then consume MaybeHexLowerCaseX value
          else if cc =? ch "X" then consume MaybeHexUpperCaseX value
          else if isDecimalDigit cc then again Decimal
          else s1 ← lift (src_push (ch "#") s); Ok (NoReference, s1)
      | MaybeHexLowerCaseX =>
          if isHexDigit cc then again Hex
          else s1 ← lift (src_push (ch "#") s); s2 ← lift (src_push (ch "x") s1);
               Ok (NoReference, s2)
      | MaybeHexUpperCaseX =>
          if isHexDigit cc then again Hex
          else s1 ← lift (src_push (ch "#") s); s2 ← lift (src_push (ch "X") s1);
               Ok (NoReference, s2)
      | Hex =>
          if isHexDigit cc then consume Hex (hexStep value cc)
          else if cc =? ch ";" then s1 ← lift (src_advanceAndASSERT cc s); decode s1
          else if acceptMalformed then decode s
          else s1 ← lift (unconsumeCharacters consumed s); Ok (NoReference, s1)
      | Decimal =>
          if isDecimalDigit cc then consume Decimal (decimalStep value cc)
          else if cc =? ch ";" then s1 ← lift (src_advanceAndASSERT cc s); decode s1
          else if acceptMalformed then decode s
          else s1 ← lift (unconsumeCharacters consumed s); Ok (NoReference, s1)
      | Named => consumeNamedEntity additionalAllowedCharacter cc s
      end
  end.

(** [consumeHTMLEntity] is [consumeCharacterReference] for the HTML parser's
    functions.  Every second iteration of the loop consumes a character, apart
    from the two [continue]s. *)
Definition consumeHTMLEntity (additionalAllowedCharacter : Z) (s : S) : result (CharRef * S) :=
  lift (ASSERT ((additionalAllowedCharacter =? 0) || (additionalAllowedCharacter =? 34)
          || (additionalAllowedCharacter =? 39) || (additionalAllowedCharacter =? ch ">")));;
  referenceLoop (Z.to_nat (src_length s) + 4) additionalAllowedCharacter Initial 0 [] s.

End Parser.

(** ** decodeNamedEntityToUCharArray *)

Definition appendUChar32ToUCharArray (value : Z) : option (list Z) :=
  if U_IS_BMP value then
    let character := value mod 2 ^ 16 in
    ASSERT (character =? value);; Some [character]
  else Some [U16_LEAD value; U16_TRAIL value].

(** The loop over the name: [None] in the second place when it leaves the table. *)
Fixpoint searchName (T : EntityTable) (name : list Z) (search : HTMLEntitySearch)
  : option (option HTMLEntitySearch) :=
  match name with
  | [] => Some (Some search)
  | c :: name' =>
      search1 ← HTMLEntitySearch.advance T c search;
      if negb (isEntityPrefix search1) then Some None else searchName T name' search1
  end.

Definition decodeNamedEntityToUCharArray (T : EntityTable) (name : list Z) : option (list Z) :=
  found ← searchName T name (newSearch T);
  match found with
  | None => Some []
  | Some search =>
      search1 ← HTMLEntitySearch.advance T (ch ";") search;
      if negb (isEntityPrefix search1) then Some [] else
      e ← m_mostRecentMatch search1;
      first ← appendUChar32ToUCharArray (firstValue e);
      if secondValue e =? 0 then Some first else
      second ← appendUChar32ToUCharArray (secondValue e);
      Some (first ++ second)
  end.

(** ** The specification on lists of code units *)

(** The longest prefix of the elements satisfying [f], and the rest. *)
Fixpoint spanList (f : Z -> bool) (l : list Z) : list Z * list Z :=
  match l with
  | [] => ([], [])
  | c :: l' => if f c then let '(u, v) := spanList f l' in (c :: u, v) else ([], l)
  end.

(** The text a search follows before it leaves the table or the input ends. *)
Fixpoint spanSearch (T : EntityTable) (search : HTMLEntitySearch) (l : list Z)
  : option (HTMLEntitySearch * list Z * list Z) :=
  match l with
  | [] => Some (search, [], [])
  | c :: l' =>
      search1 ← HTMLEntitySearch.advance T c search;
      if isEntityPrefix search1 then
        '(search2, u, v) ← spanSearch T search1 l'; Some (search2, c :: u, v)
      else Some (search1, [], l)
  end.

(** Restoring [n] characters pushes them back one by one when there are one or two. *)
Definition pushedBy (n : nat) : nat := match n with 1%nat => 1 | 2%nat => 2 | _ => 0 end.

(** What a reference parser says of the text after an ampersand: the outcome,
    the number of code units it takes and how many it leaves pushed back. *)
Definition Outcome : Type := CharRef * nat * nat.

Definition rejected (n : nat) : Outcome := (NoReference, 0%nat, pushedBy n).
Definition undecided (n : nat) : Outcome := (NotEnough, 0%nat, pushedBy n).

(** A digit string [ds] read so far as [value], then the text [l]. *)
Definition refNumeric (isDigit : Z -> bool) (step : Z -> Z -> Z) (prefixLength : nat) (l : list Z)
  : option Outcome :=
  let '(ds, rest) := spanList isDigit l in
  let n := (prefixLength + length ds)%nat in
  match rest with
  | [] => Some (undecided n)
  | c :: _ =>
      v ← legalEntityFor (foldl step 0 ds);
      Some (Decoded (encodeUChar32 v), if c =? ch ";" then Datatypes.S n else n, 0%nat)
  end.

Definition refNamed (T : EntityTable) (additional : Z) (l : list Z) : option Outcome :=
  '(search, u, v) ← spanSearch T (newSearch T) l;
  match v with
  | [] => Some (undecided (length u))
  | _ :: _ =>
      match m_mostRecentMatch search with
      | None => Some (rejected (length u))
      | Some e =>
          last ← lastCharacter e;
          next ← l !! entryLength e;
          if (last =? ch ";") || (additional =? 0) || negb (isAlphaNumeric next || (next =? ch "="))
          then Some (Decoded (encodeUChar32 (firstValue e)
                       ++ (if secondValue e =? 0 then [] else encodeUChar32 (secondValue e))),
                     entryLength e, 0%nat)
          else Some (rejected (entryLength e))
      end
  end.

Definition refHex (isX : Z) (l : list Z) : option Outcome :=
  match l with
  | [] => Some (undecided 2)
  | d :: _ => if isHexDigit d then refNumeric isHexDigit hexStep 2 l else Some (rejected 2)
  end.

Definition reference (T : EntityTable) (additional : Z) (l : list Z) : option Outcome :=
  match l with
  | [] => Some (undecided 0)
  | c :: l1 =>
      if (c =? 0x09) || (c =? 0x0A) || (c =? 0x0C) || (c =? ch " ") || (c =? ch "<")
         || (c =? ch "&") then Some (rejected 0)
      else if negb (additional =? 0) && (c =? additional) then Some (rejected 0)
      else if c =? ch "#" then
        match l1 with
        | [] => Some (undecided 1)
        | x :: l2 =>
            if (x =? ch "x") || (x =? ch "X") then refHex x l2
            else if isDecimalDigit x then refNumeric isDecimalDigit decimalStep 1 l1
            else Some (rejected 1)
        end
      else if isASCIILower c || isASCIIUpper c then refNamed T additional l
      else Some (rejected 0)
  end.

(** The queue after a reference parser took [n] code units and left [k] pushed back. *)
Definition afterOutcome (n k : nat) (q : Q) : Q :=
  mkQ (drop n (q_pending q)) k (q_closed q) (q_consumed q + Z.of_nat n).

(** ** The parser on the abstract queue is the reference parser *)

Lemma spanList_app (f : Z -> bool) (l u v : list Z) :
  spanList f l = (u, v) -> l = u ++ v /\ Forall (fun c => f c = true) u.
Proof.
  revert u v. induction l as [| c l IH]; simpl; intros u v E; [by simplify_eq |].
  destruct (f c) eqn:Ef; [| by simplify_eq].
  destruct (spanList f l) as [u' v'] eqn:E'. simplify_eq.
  destruct (IH u' v eq_refl) as [-> Hu]. split; [done | by constructor].
Qed.

Lemma spanList_stop (f : Z -> bool) (l u v : list Z) (c : Z) :
  spanList f l = (u, c :: v) -> f c = false.
Proof.
  revert u. induction l as [| d l IH]; simpl; intros u E; [done |].
  destruct (f d) eqn:Ef; [| by simplify_eq].
  destruct (spanList f l) as [u' v'] eqn:E'. simplify_eq. by apply (IH u').
Qed.

Lemma spanList_extend (f : Z -> bool) (l u v B : list Z) (c : Z) :
  spanList f l = (u, c :: v) -> spanList f (l ++ B) = (u, c :: v ++ B).
Proof.
  revert u. induction l as [| d l IH]; simpl; intros u E; [done |].
  destruct (f d) eqn:Ef; [| by simplify_eq].
  destruct (spanList f l) as [u' v'] eqn:E'. simplify_eq. by rewrite (IH u').
Qed.

Lemma spanSearch_extend (T : EntityTable) (l u v B : list Z) (c : Z) (s s' : HTMLEntitySearch) :
  spanSearch T s l = Some (s', u, c :: v) -> spanSearch T s (l ++ B) = Some (s', u, c :: v ++ B).
Proof.
  revert s u. induction l as [| d l IH]; simpl; intros s u E; [done |].
  destruct (HTMLEntitySearch.advance T d s) as [s1 |]; simpl in *; [| done].
  destruct (isEntityPrefix s1); [| by simplify_eq].
  destruct (spanSearch T s1 l) as [[[s2 u2] v2] |] eqn:E2; simpl in *; [| done].
  simplify_eq. by rewrite (IH s1 u2).
Qed.

Lemma reverse_push (w p : list Z) (cl : bool) (n : Z) :
  Forall (fun c => c <> 0) w ->
  unconsumeCharacters w (mkQ p 0 cl n)
    = Some (mkQ (w ++ p) (pushedBy (length w)) cl (n - Z.of_nat (length w))).
Proof.
  intros Hw. destruct w as [| a [| b [| c w]]]; simpl.
  - unfold q_prepend. simpl. repeat f_equal; lia.
  - inversion_clear Hw. unfold q_push. simpl.
    rewrite (proj2 (Z.eqb_neq a 0)) by done. done.
  - apply Forall_cons_1 in Hw as [Ha Hw]. apply Forall_cons_1 in Hw as [Hb _].
    unfold q_push. simpl. rewrite (proj2 (Z.eqb_neq a 0)), (proj2 (Z.eqb_neq b 0)) by done.
    simpl. do 2 f_equal. lia.
  - unfold q_prepend. simpl. repeat f_equal; lia.
Qed.

Lemma q_take (c : Z) (p : list Z) (cl : bool) (n : Z) :
  src_advanceAndASSERT c (mkQ (c :: p) 0 cl n) = Some (mkQ p 0 cl (n + 1)).
Proof. unfold src_advanceAndASSERT. simpl. by rewrite Z.eqb_refl. Qed.

Section Equivalence.
Variable T : EntityTable.
Hypothesis HT : EntityTableOk T.
Abbreviation table := (staticEntityTable T).

Lemma spanSearch_ok (l w : list Z) (s : HTMLEntitySearch) :
  searching T w s ->
  exists s' u v, spanSearch T s l = Some (s', u, v) /\ l = u ++ v /\
    (u <> [] -> exists e, e ∈ table /\ w ++ u `prefix_of` entity e) /\
    match v with
    | [] => searching T (w ++ u) s'
    | c :: _ => m_currentLength s' = length (w ++ u) /\
        longestMatch T (w ++ u ++ [c]) (m_mostRecentMatch s') /\
        forall e, e ∈ table -> ~ (w ++ u ++ [c]) `prefix_of` entity e
    end.
Proof.
  revert w s. induction l as [| c l IH]; intros w s Hs; simpl.
  { exists s, [], []. repeat split; try done. by rewrite app_nil_r. }
  destruct (advance_ok T HT w c s Hs) as (s1 & -> & Hst & Hnext). simpl.
  destruct (isEntityPrefix s1) eqn:E.
  - destruct (IH (w ++ [c]) s1 (Hnext eq_refl)) as (s2 & u & v & -> & -> & Hpre & Hv). simpl.
    exists s2, (c :: u), v. rewrite <- !app_assoc in *.
    split; [done | split; [done | split]].
    + intros _. destruct u as [| d u]; [| by apply Hpre].
      unfold stepped in Hst. rewrite E in Hst.
      destruct Hst as (_ & _ & i & j & _ & _ & Hij & Hj & Hr).
      destruct (lookup_lt_is_Some_2 table i ltac:(lia)) as [e He].
      exists e. split; [by eapply list_elem_of_lookup_2 | apply (Hr i e He); lia].
    + destruct v as [| d v]; rewrite <- ?app_assoc in Hv; exact Hv.
  - exists s1, [], (c :: l). unfold stepped in Hst. rewrite E in Hst.
    destruct Hst as (Hl & _ & Hm & Hn). rewrite app_nil_r.
    split; [done | split; [done | split; [done |]]]. done.
Qed.

Lemma entity_units (e : HTMLEntityTableEntry) (w : list Z) :
  e ∈ table -> w `prefix_of` entity e -> Forall (fun c => c <> 0) w.
Proof.
  intros He [v Hv]. pose proof (proj1 (list.Forall_forall _ _) (table_chars T HT) e He) as [_ Hc].
  rewrite Hv in Hc. apply Forall_app in Hc as [Hc _].
  eapply list.Forall_impl; [exact Hc |]. intros c E ->. by vm_compute in E.
Qed.

Lemma namedLoop_ok (p u v consumed : list Z) (s s' : HTMLEntitySearch) (cc : Z) (cl : bool)
    (n : Z) (fuel : nat) :
  (length p < fuel)%nat -> spanSearch T s p = Some (s', u, v) ->
  exists cc', namedLoop T fuel s consumed cc (mkQ p 0 cl n)
      = Ok (s', consumed ++ u, cc', mkQ v 0 cl (n + Z.of_nat (length u))) /\
    (v <> [] -> cc' = default 0 (head v)).
Proof.
  revert s u consumed cc n p. induction fuel as [| fuel IH]; intros s u consumed cc n p Hf E; [lia |].
  destruct p as [| c p]; simpl in *.
  { simplify_eq. exists cc. rewrite app_nil_r, Z.add_0_r. done. }
  destruct (HTMLEntitySearch.advance T c s) as [s1 |] eqn:Ea; simpl in *; [| done].
  change (q_head (mkQ (c :: p) 0 cl n)) with c. rewrite Ea. simpl.
  destruct (isEntityPrefix s1); simpl.
  - destruct (spanSearch T s1 p) as [[[s2 u2] v2] |] eqn:E2; simpl in *; [| done].
    simplify_eq. rewrite q_take. simpl.
    destruct (IH s1 u2 (consumed ++ [c]) c (n + 1) p ltac:(lia) E2) as (cc' & -> & Hcc).
    exists cc'. rewrite <- app_assoc. simpl.
    replace (n + 1 + Z.of_nat (length u2)) with (n + Z.of_nat (S (length u2))) by lia. done.
  - simplify_eq. exists c. rewrite app_nil_r, Z.add_0_r. done.
Qed.

Lemma reconsumeEntity_ok (w v consumed : list Z) (c : Z) (cl : bool) (n : Z) :
  reconsumeEntity w consumed (mkQ (w ++ c :: v) 0 cl n)
    = Some (consumed ++ w, mkQ (c :: v) 0 cl (n + Z.of_nat (length w))).
Proof.
  revert consumed n. induction w as [| d w IH]; intros consumed n; simpl.
  { by rewrite app_nil_r, Z.add_0_r. }
  change (q_head (mkQ (d :: w ++ c :: v) 0 cl n)) with d.
  rewrite Z.eqb_refl. simpl. rewrite q_take. simpl.
  unfold q_isEmpty. simpl. rewrite length_app. simpl.
  rewrite (proj2 (Nat.eqb_neq (length w + Datatypes.S (length v)) 0)) by lia. simpl.
  rewrite IH, <- app_assoc. simpl.
  by replace (n + 1 + Z.of_nat (length w)) with (n + Z.of_nat (Datatypes.S (length w))) by lia.
Qed.

Lemma rejected_state (w v : list Z) (cl : bool) (n : Z) :
  Forall (fun c => c <> 0) w ->
  unconsumeCharacters w (mkQ v 0 cl (n + Z.of_nat (length w)))
    = Some (afterOutcome 0 (pushedBy (length w)) (mkQ (w ++ v) 0 cl n)).
Proof.
  intros Hw. rewrite reverse_push by done. unfold afterOutcome. simpl.
  repeat f_equal; lia.
Qed.

Lemma acceptNamed_ok (e : HTMLEntityTableEntry) (add c : Z) (v : list Z) (cl : bool) (n : Z)
    (last : Z) :
  e ∈ table -> lastCharacter e = Some last ->
  acceptNamed e add c (entity e) (mkQ (c :: v) 0 cl (n + Z.of_nat (length (entity e))))
  = let '(r, k, j) :=
      if (last =? ch ";") || (add =? 0) || negb (isAlphaNumeric c || (c =? ch "="))
      then (Decoded (encodeUChar32 (firstValue e)
              ++ (if secondValue e =? 0 then [] else encodeUChar32 (secondValue e))),
            entryLength e, 0%nat)
      else rejected (entryLength e) in
    Some (r, afterOutcome k j (mkQ (entity e ++ c :: v) 0 cl n)).
Proof.
  intros He Hl. unfold acceptNamed. rewrite Hl. simpl.
  destruct ((last =? ch ";") || (add =? 0) || negb (isAlphaNumeric c || (c =? ch "="))).
  - unfold afterOutcome. simpl. unfold entryLength. by rewrite drop_app_length.
  - unfold entryLength. rewrite rejected_state; [done |].
    by eapply (entity_units e (entity e)).
Qed.

Lemma lookup_entryLength (e : HTMLEntityTableEntry) (c : Z) (v : list Z) :
  (entity e ++ c :: v) !! entryLength e = Some c.
Proof. unfold entryLength. by rewrite lookup_app_r, Nat.sub_diag by lia. Qed.

Lemma lastCharacter_ok (e : HTMLEntityTableEntry) :
  e ∈ table -> exists last, lastCharacter e = Some last.
Proof.
  intros He. pose proof (proj1 (list.Forall_forall _ _) (table_chars T HT) e He) as [Hl _].
  unfold lastCharacter. apply lookup_lt_is_Some_2. unfold entryLength in *. lia.
Qed.

(** A recorded match shorter than the text followed is a proper prefix of it. *)
Lemma match_prefix (u : list Z) (c : Z) (e : HTMLEntityTableEntry) :
  longestMatch T (u ++ [c]) (Some e) ->
  (forall e, e ∈ table -> ~ (u ++ [c]) `prefix_of` entity e) ->
  e ∈ table /\ exists u2, u = entity e ++ u2.
Proof.
  intros (He & [x Hx] & _) Hnone. split; [done |].
  destruct x as [| d x _] using rev_ind.
  - rewrite app_nil_r in Hx. destruct (Hnone e He). by rewrite Hx.
  - rewrite app_assoc in Hx. apply app_inj_tail in Hx as [-> _]. by exists x.
Qed.

Lemma consumeNamedEntity_ok (p : list Z) (add cc : Z) (cl : bool) (n : Z) :
  exists r k j, refNamed T add p = Some (r, k, j) /\
    consumeNamedEntity T add cc (mkQ p 0 cl n) = Ok (r, afterOutcome k j (mkQ p 0 cl n)).
Proof.
  destruct (spanSearch_ok p [] (newSearch T)) as (s' & u & v & E & Hp & Hpre & Hv); [by left |].
  assert (Hu : Forall (fun c => c <> 0) u).
  { destruct u as [| d u]; [done |]. destruct (Hpre ltac:(done)) as (e & He & Hw).
    by apply (entity_units e). }
  unfold refNamed, consumeNamedEntity. rewrite E. simpl.
  destruct (namedLoop_ok p u v [] (newSearch T) s' cc cl n
              (Datatypes.S (Z.to_nat (Z.of_nat (length p))))) as (cc' & El & Hcc); [lia | done |].
  simpl in El. simpl. rewrite El. clear El. subst p. simpl. destruct v as [| c v].
  { exists NotEnough, 0%nat, (pushedBy (length u)).
    rewrite (rejected_state u []) by done. done. }
  unfold q_isEmpty. simpl. rewrite (Hcc ltac:(done)). simpl.
  destruct Hv as (Hlen & Hm & Hnone). simpl in Hlen.
  destruct (m_mostRecentMatch s') as [e |].
  2: { exists NoReference, 0%nat, (pushedBy (length u)). by rewrite rejected_state. }
  destruct (match_prefix u c e Hm Hnone) as (He & u2 & ->).
  destruct (lastCharacter_ok e He) as [last Hlast]. rewrite Hlast. simpl.
  destruct (Nat.eqb (entryLength e) (m_currentLength s')) eqn:El; simpl.
  - apply Nat.eqb_eq in El. rewrite Hlen, length_app in El. unfold entryLength in El.
    destruct u2 as [| d u2]; [| simpl in El; lia].
    rewrite !app_nil_r in *. rewrite lookup_entryLength. simpl.
    rewrite (acceptNamed_ok e add c v cl n last) by done.
    destruct (_ || _ || _); simpl; eauto.
  - apply Nat.eqb_neq in El. rewrite Hlen, length_app in El. unfold entryLength in El.
    destruct u2 as [| d u2]; [simpl in El; lia |].
    rewrite rejected_state by done. simpl.
    pose proof (proj1 (list.Forall_forall _ _) (table_chars T HT) e He) as [Hl2 _].
    unfold entryLength in Hl2.
    replace (afterOutcome 0 (pushedBy (length (entity e ++ d :: u2)))
               (mkQ ((entity e ++ d :: u2) ++ c :: v) 0 cl n))
      with (mkQ (entity e ++ d :: (u2 ++ c :: v)) 0 cl n).
    2: { unfold afterOutcome. simpl. rewrite Z.add_0_r, <- app_assoc. simpl. f_equal.
         rewrite length_app. simpl. revert Hl2. clear.
         destruct (entity e) as [| ? [| ? ?]]; simpl; intros; try lia. by rewrite Nat.add_comm. }
    rewrite reconsumeEntity_ok. simpl. change (q_head (mkQ (d :: u2 ++ c :: v) 0 cl (n + Z.of_nat (length (entity e))))) with d.
    rewrite (acceptNamed_ok e add d (u2 ++ c :: v) cl n last) by done.
    rewrite <- app_assoc, <- app_comm_cons, lookup_entryLength. simpl.
    destruct (_ || _ || _); simpl; eauto.
Qed.

Lemma adjustEntity_range (value : Z) :
  Z.land value (Z.lnot 0x1F) = 0x80 -> 0x80 <= value < 0xA0.
Proof.
  change (Z.land value (Z.lnot 0x1F)) with (Z.land value (Z.lnot (Z.ones 5))).
  rewrite <- Z.ldiff_land, Z.ldiff_ones_r by lia. rewrite Z.shiftl_mul_pow2, Z.shiftr_div_pow2 by lia.
  pose proof (Z.div_mod value (2 ^ 5)). pose proof (Z.mod_pos_bound value (2 ^ 5)). lia.
Qed.

Lemma legalEntityFor_total (value : Z) : exists v, legalEntityFor value = Some v.
Proof.
  unfold legalEntityFor, adjustEntity. split_tests; eauto. 
  apply negb_false_iff, Z.eqb_eq, adjustEntity_range in Heqb1.
  apply lookup_lt_is_Some_2. change (length windowsLatin1ExtensionArray) with 32%nat. lia.
Qed.

(** The two digit loops. *)
Section Digits.
Variables (st : EntityState) (isDigit : Z -> bool) (step : Z -> Z -> Z) (add : Z).
Hypothesis Hst : forall fuel value consumed (s : Q),
  referenceLoop T (Datatypes.S fuel) add st value consumed s =
    if q_isEmpty s then s1 ← lift (unconsumeCharacters consumed s); Ok (NotEnough, s1) else
    if isDigit (q_head s) then
      s1 ← lift (src_advanceAndASSERT (q_head s) s);
      referenceLoop T fuel add st (step value (q_head s)) (consumed ++ [q_head s]) s1
    else if q_head s =? ch ";" then
      s1 ← lift (src_advanceAndASSERT (q_head s) s);
      v ← lift (legalEntityFor value); Ok (Decoded (encodeUChar32 v), s1)
    else v ← lift (legalEntityFor value); Ok (Decoded (encodeUChar32 v), s).
Hypothesis Hdigit : forall c, isDigit c = true -> c <> 0.

Lemma digits_ok (p ds rest consumed : list Z) (value : Z) (cl : bool) (n : Z) (fuel : nat) :
  (length p < fuel)%nat -> spanList isDigit p = (ds, rest) -> Forall (fun c => c <> 0) consumed ->
  referenceLoop T fuel add st value consumed (mkQ p 0 cl (n + Z.of_nat (length consumed))) =
    match rest with
    | [] => Ok (NotEnough, afterOutcome 0 (pushedBy (length consumed + length ds))
                             (mkQ (consumed ++ p) 0 cl n))
    | c :: _ =>
        v ← lift (legalEntityFor (foldl step value ds));
        let m := (length consumed + length ds)%nat in
        Ok (Decoded (encodeUChar32 v),
            afterOutcome (if c =? ch ";" then Datatypes.S m else m) 0 (mkQ (consumed ++ p) 0 cl n))
    end.
Proof.
  revert p ds consumed value. induction fuel as [| fuel IH]; intros p ds consumed value Hf E Hc; [lia |].
  rewrite Hst. destruct p as [| c p]; simpl in *.
  { simplify_eq. unfold q_isEmpty. simpl. rewrite rejected_state by done.
    simpl. by rewrite Nat.add_0_r. }
  unfold q_isEmpty. simpl. change (q_head (mkQ (c :: p) 0 cl _)) with c.
  destruct (isDigit c) eqn:Ed.
  - destruct (spanList isDigit p) as [ds' rest'] eqn:E'. simplify_eq.
    rewrite q_take. simpl.
    replace (n + Z.of_nat (length consumed) + 1) with (n + Z.of_nat (length (consumed ++ [c])))
      by (rewrite length_app; simpl; lia).
    rewrite (IH p ds') by (done || lia || (apply Forall_app; auto)).
    rewrite <- app_assoc, length_app. simpl.
    replace (length consumed + 1 + length ds')%nat
      with (length consumed + Datatypes.S (length ds'))%nat by lia. done.
  - simplify_eq. simpl. rewrite Nat.add_0_r.
    destruct (c =? ch ";").
    + rewrite q_take. simpl. destruct (legalEntityFor value); simpl; [| done].
      unfold afterOutcome. simpl. do 3 f_equal; [| lia].
      change (consumed ++ c :: p) with (consumed ++ [c] ++ p). rewrite app_assoc.
      replace (Datatypes.S (length consumed)) with (length (consumed ++ [c]))
        by (rewrite length_app; simpl; lia). by rewrite drop_app_length.
    + destruct (legalEntityFor value); simpl; [| done].
      unfold afterOutcome. simpl. by rewrite drop_app_length.
Qed.

Lemma refNumeric_ok (w p : list Z) (cl : bool) (n : Z) (fuel : nat) :
  (length p < fuel)%nat -> Forall (fun c => c <> 0) w ->
  exists r k j, refNumeric isDigit step (length w) p = Some (r, k, j) /\
    referenceLoop T fuel add st 0 w (mkQ p 0 cl (n + Z.of_nat (length w)))
      = Ok (r, afterOutcome k j (mkQ (w ++ p) 0 cl n)).
Proof.
  intros Hf Hw. unfold refNumeric. destruct (spanList isDigit p) as [ds rest] eqn:E.
  rewrite (digits_ok p ds rest w 0 cl n fuel Hf E Hw). destruct rest as [| c rest].
  - simpl. eauto 10.
  - destruct (legalEntityFor_total (foldl step 0 ds)) as [v ->]. simpl. eauto 10.
Qed.

End Digits.

Lemma hexDigit_nonzero (c : Z) : isHexDigit c = true -> c <> 0.
Proof. intros E ->. by vm_compute in E. Qed.
Lemma decimalDigit_nonzero (c : Z) : isDecimalDigit c = true -> c <> 0.
Proof. intros E ->. by vm_compute in E. Qed.

Definition allowedCharacter (add : Z) : Prop := add = 0 \/ add = 34 \/ add = 39 \/ add = ch ">".

Lemma hex_ok (x : Z) (p : list Z) (add cl : _) (n : Z) (fuel : nat) (st : EntityState) :
  (length p + 1 < fuel)%nat ->
  (x = ch "x" /\ st = MaybeHexLowerCaseX) \/ (x = ch "X" /\ st = MaybeHexUpperCaseX) ->
  exists r k j, refHex x p = Some (r, k, j) /\
    referenceLoop T fuel add st 0 [ch "#"; x] (mkQ p 0 cl (n + 2))
      = Ok (r, afterOutcome k j (mkQ (ch "#" :: x :: p) 0 cl n)).
Proof.
  intros Hf Hx. destruct fuel as [| fuel]; [lia |].
  assert (Hw : Forall (fun c => c <> 0) [ch "#"; x]).
  { by destruct Hx as [[-> _] | [-> _]]; repeat constructor. }
  destruct p as [| d p].
  { exists NotEnough, 0%nat, 2%nat. split; [done |].
    destruct Hx as [[-> _] | [-> _]]; simpl; unfold afterOutcome; simpl; repeat f_equal; lia. }
  unfold refHex. destruct (isHexDigit d) eqn:Ed.
  - destruct (refNumeric_ok Hex isHexDigit hexStep add ltac:(reflexivity) hexDigit_nonzero [ch "#"; x]
                (d :: p) cl n fuel) as (r & k & j & E0 & E); [simpl in *; lia | done |].
    exists r, k, j. split; [exact E0 |].
    change (n + Z.of_nat (length [ch "#"; x])) with (n + 2) in E. simpl in E. rewrite <- E.
    by destruct Hx as [[-> ->] | [-> ->]]; simpl;
      change (q_head (mkQ (d :: p) 0 cl (n + 2))) with d; rewrite Ed.
  - exists NoReference, 0%nat, 2%nat. split; [done |].
    destruct Hx as [[-> ->] | [-> ->]]; simpl;
      change (q_head (mkQ (d :: p) 0 cl (n + 2))) with d; rewrite Ed;
      unfold afterOutcome; simpl; repeat f_equal; lia.
Qed.

Lemma number_ok (p : list Z) (add : Z) (cl : bool) (n : Z) (fuel : nat) :
  (length p + 1 < fuel)%nat ->
  exists r k j,
    match p with
    | [] => Some (undecided 1)
    | x :: p2 =>
        if (x =? ch "x") || (x =? ch "X") then refHex x p2
        else if isDecimalDigit x then refNumeric isDecimalDigit decimalStep 1 p
        else Some (rejected 1)
    end = Some (r, k, j) /\
    referenceLoop T fuel add Number 0 [ch "#"] (mkQ p 0 cl (n + 1))
      = Ok (r, afterOutcome k j (mkQ (ch "#" :: p) 0 cl n)).
Proof.
  intros Hf. destruct fuel as [| fuel]; [lia |]. destruct p as [| x p].
  { exists NotEnough, 0%nat, 1%nat. split; [done |]. simpl. unfold afterOutcome. simpl.
    repeat f_equal; lia. }
  assert (Hstep : referenceLoop T (S fuel) add Number 0 [ch "#"] (mkQ (x :: p) 0 cl (n + 1)) =
    if x =? ch "x" then
      s1 ← lift (src_advanceAndASSERT x (mkQ (x :: p) 0 cl (n + 1)));
      referenceLoop T fuel add MaybeHexLowerCaseX 0 [ch "#"; x] s1
    else if x =? ch "X" then
      s1 ← lift (src_advanceAndASSERT x (mkQ (x :: p) 0 cl (n + 1)));
      referenceLoop T fuel add MaybeHexUpperCaseX 0 [ch "#"; x] s1
    else if isDecimalDigit x then
      referenceLoop T fuel add Decimal 0 [ch "#"] (mkQ (x :: p) 0 cl (n + 1))
    else s1 ← lift (src_push (ch "#") (mkQ (x :: p) 0 cl (n + 1))); Ok (NoReference, s1))
    by reflexivity.
  rewrite Hstep, !q_take. clear Hstep. replace (n + 1 + 1) with (n + 2) by lia.
  simpl in Hf.
  destruct (x =? ch "x") eqn:Ex; [| destruct (x =? ch "X") eqn:EX].
  - apply Z.eqb_eq in Ex as ->. apply (hex_ok (ch "x")); [lia | by left].
  - apply Z.eqb_eq in EX as ->. apply (hex_ok (ch "X")); [lia | by right].
  - simpl orb. cbv iota. destruct (isDecimalDigit x) eqn:Ed.
    + apply (refNumeric_ok Decimal isDecimalDigit decimalStep add ltac:(reflexivity)
        decimalDigit_nonzero [ch "#"]); [simpl; lia | by repeat constructor].
    + exists NoReference, 0%nat, 1%nat. split; [done |].
      unfold afterOutcome. simpl. repeat f_equal; lia.
Qed.

(** The parser computes exactly what the reference parser says. *)
Lemma reference_ok (add : Z) (p : list Z) (cl : bool) (n : Z) :
  allowedCharacter add ->
  exists r k j, reference T add p = Some (r, k, j) /\
    consumeHTMLEntity T add (mkQ p 0 cl n) = Ok (r, afterOutcome k j (mkQ p 0 cl n)).
Proof.
  intros Hadd. unfold consumeHTMLEntity.
  replace (ASSERT _) with (Some ()) by by (destruct Hadd as [-> | [-> | [-> | ->]]]).
  simpl. rewrite Nat2Z.id. rewrite Nat.add_comm. change (4 + length p)%nat with (S (3 + length p)).
  destruct p as [| c p].
  { exists NotEnough, 0%nat, 0%nat. split; [done |].
    simpl. unfold afterOutcome. simpl. repeat f_equal; lia. }
  assert (Hnone : Ok (NoReference, mkQ (c :: p) 0 cl n)
                  = Ok (NoReference, afterOutcome 0 0 (mkQ (c :: p) 0 cl n))).
  { unfold afterOutcome. simpl. repeat f_equal; lia. }
  change (referenceLoop T (S (3 + length (c :: p))) add Initial 0 [] (mkQ (c :: p) 0 cl n))
    with (let cc := c in
      if (cc =? 0x09) || (cc =? 0x0A) || (cc =? 0x0C) || (cc =? ch " ") || (cc =? ch "<")
         || (cc =? ch "&") then Ok (NoReference, mkQ (c :: p) 0 cl n)
      else if negb (add =? 0) && (cc =? add) then Ok (NoReference, mkQ (c :: p) 0 cl n)
      else if cc =? ch "#" then
        s1 ← lift (src_advanceAndASSERT cc (mkQ (c :: p) 0 cl n));
        referenceLoop T (3 + length (c :: p)) add Number 0 [cc] s1
      else if isASCIILower cc || isASCIIUpper cc then
        consumeNamedEntity T add cc (mkQ (c :: p) 0 cl n)
      else Ok (NoReference, mkQ (c :: p) 0 cl n)).
  cbv zeta. unfold reference. 
  destruct ((c =? 0x09) || _ || _ || _ || _ || _); [by eauto 10 |].
  destruct (negb (add =? 0) && (c =? add)); [by eauto 10 |].
  destruct (c =? ch "#") eqn:Eh.
  2: { destruct (isASCIILower c || isASCIIUpper c); [| by eauto 10].
       apply consumeNamedEntity_ok. }
  apply Z.eqb_eq in Eh as ->. rewrite q_take.
  apply number_ok. simpl. lia.
Qed.

(** *** What an outcome leaves behind *)

(** The characters a reference is made of. *)
Definition isReferenceCharacter (c : Z) : bool := isEntityCharacter c || (c =? ch "#").

(** A rejected reference takes nothing and pushes back at most two reference
    characters, an undecided one has read all of the text, a decoded one takes
    some of it and pushes nothing back. *)
Definition outcome_ok (p : list Z) (o : Outcome) : Prop :=
  let '(r, k, j) := o in
  match r with
  | NotEnough => k = 0%nat /\ j = pushedBy (length p) /\
      Forall (fun c => isReferenceCharacter c = true) p
  | NoReference => k = 0%nat /\ (j <= length p)%nat /\ (j <= 2)%nat /\
      Forall (fun c => isReferenceCharacter c = true) (take j p)
  | Decoded _ => (0 < k <= length p)%nat /\ j = 0%nat /\
      Forall (fun c => isReferenceCharacter c = true) (take k p)
  end.

Lemma pushedBy_le (n : nat) : (pushedBy n <= n)%nat /\ (pushedBy n <= 2)%nat.
Proof. destruct n as [| [| [| n]]]; simpl; lia. Qed.

Lemma rejected_ok (w v : list Z) :
  Forall (fun c => isReferenceCharacter c = true) w -> outcome_ok (w ++ v) (rejected (length w)).
Proof.
  intros Hw. pose proof (pushedBy_le (length w)). simpl. rewrite length_app.
  split; [done | split; [lia | split; [lia |]]].
  rewrite take_app_le by lia. by apply Forall_take.
Qed.

Lemma undecided_ok (w : list Z) :
  Forall (fun c => isReferenceCharacter c = true) w -> outcome_ok w (undecided (length w)).
Proof. done. Qed.

Lemma reference_entity (e : HTMLEntityTableEntry) (w : list Z) :
  e ∈ table -> w `prefix_of` entity e -> Forall (fun c => isReferenceCharacter c = true) w.
Proof.
  intros He [v Hv]. pose proof (proj1 (list.Forall_forall _ _) (table_chars T HT) e He) as [_ Hc].
  rewrite Hv in Hc. apply Forall_app in Hc as [Hc _].
  eapply list.Forall_impl; [exact Hc |]. intros c E. unfold isReferenceCharacter. by rewrite E.
Qed.

Lemma hexDigit_reference (c : Z) : isHexDigit c = true -> isReferenceCharacter c = true.
Proof.
  unfold isHexDigit, isReferenceCharacter, isEntityCharacter, isASCIIUpper, isASCIILower.
  rewrite !orb_true_iff, !andb_true_iff, !Z.leb_le. lia.
Qed.

Lemma decimalDigit_hex (c : Z) : isDecimalDigit c = true -> isHexDigit c = true.
Proof. unfold isHexDigit. intros E. unfold isDecimalDigit in E. by rewrite E. Qed.

Lemma refNumeric_outcome (isDigit : Z -> bool) (step : Z -> Z -> Z) (w p : list Z) (o : Outcome) :
  (forall c, isDigit c = true -> isHexDigit c = true) ->
  Forall (fun c => isReferenceCharacter c = true) w -> w <> [] ->
  refNumeric isDigit step (length w) p = Some o -> outcome_ok (w ++ p) o.
Proof.
  intros Hd Hw Hne. unfold refNumeric. destruct (spanList isDigit p) as [ds rest] eqn:E.
  apply spanList_app in E as [-> Hds].
  assert (Hall : Forall (fun c => isReferenceCharacter c = true) (w ++ ds)).
  { apply Forall_app. split; [done |]. eapply list.Forall_impl; [exact Hds |].
    intros c Hc. by apply hexDigit_reference, Hd. }
  destruct rest as [| c rest]; intros Ho.
  - injection Ho as <-. rewrite app_nil_r, <- length_app. by apply undecided_ok.
  - destruct (legalEntityFor_total (foldl step 0 ds)) as [v Hv]. rewrite Hv in Ho.
    injection Ho as <-. rewrite <- length_app.
    change (w ++ ds ++ c :: rest) with (w ++ ds ++ [c] ++ rest). rewrite !app_assoc.
    assert (0 < length (w ++ ds))%nat by (rewrite length_app; destruct w; [done | simpl; lia]).
    destruct (c =? ch ";") eqn:Ec; cbn [outcome_ok].
    + apply Z.eqb_eq in Ec. subst c.
      replace (Datatypes.S (length (w ++ ds))) with (length ((w ++ ds) ++ [ch ";"]))
        by (rewrite (length_app _ [_]); simpl; lia).
      rewrite take_app_length. split; [rewrite !length_app in *; simpl in *; lia | split; [done |]].
      apply Forall_app. split; [done | by repeat constructor].
    + rewrite <- app_assoc, take_app_length.
      split; [rewrite !length_app in *; simpl in *; lia | done].
Qed.

Lemma refNamed_outcome (add : Z) (p : list Z) (o : Outcome) :
  refNamed T add p = Some o -> outcome_ok p o.
Proof.
  destruct (spanSearch_ok p [] (newSearch T)) as (s' & u & v & E & Hp & Hpre & Hv); [by left |].
  assert (Hu : Forall (fun c => isReferenceCharacter c = true) u).
  { destruct u as [| d u]; [done |]. destruct (Hpre ltac:(done)) as (e & He & Hw).
    by apply (reference_entity e). }
  unfold refNamed. rewrite E. simpl. subst p. destruct v as [| c v]; intros Ho.
  { injection Ho as <-. rewrite app_nil_r. by apply undecided_ok. }
  destruct Hv as (Hlen & Hm & Hnone).
  destruct (m_mostRecentMatch s') as [e |]; [| injection Ho as <-; by apply rejected_ok].
  destruct (match_prefix u c e Hm Hnone) as (He & u2 & ->).
  destruct (lastCharacter_ok e He) as [last Hlast]. rewrite Hlast in Ho. simpl in Ho.
  destruct (_ !! entryLength e) as [next |] eqn:En; simpl in Ho; [| done].
  pose proof (proj1 (list.Forall_forall _ _) (table_chars T HT) e He) as [Hl2 _].
  unfold entryLength in *.
  destruct (_ || _ || _); injection Ho as <-.
  - cbn [outcome_ok]. rewrite <- app_assoc, take_app_length, !length_app.
    split; [lia | split; [done |]]. by apply Forall_app in Hu as [Hu _].
  - rewrite <- app_assoc. apply rejected_ok. by apply Forall_app in Hu as [Hu _].
Qed.

Lemma reference_outcome (add : Z) (p : list Z) (o : Outcome) :
  reference T add p = Some o -> outcome_ok p o.
Proof.
  unfold reference. destruct p as [| c p]; [intros [= <-]; simpl; done |].
  assert (H0 : outcome_ok (c :: p) (rejected 0)) by (simpl; repeat split; (lia || constructor)).
  destruct (_ || _ || _ || _ || _ || _); [by intros [= <-] |].
  destruct (negb _ && _); [by intros [= <-] |].
  destruct (c =? ch "#") eqn:Eh.
  2: { destruct (_ || _); [apply refNamed_outcome | by intros [= <-]]. }
  apply Z.eqb_eq in Eh as ->. destruct p as [| x p].
  { intros [= <-]. by apply (undecided_ok [ch "#"]); repeat constructor. }
  destruct (_ || _) eqn:Ex.
  - assert (Hx : Forall (fun c => isReferenceCharacter c = true) [ch "#"; x]).
    { apply orb_true_iff in Ex as [E | E]; apply Z.eqb_eq in E as ->; by repeat constructor. }
    unfold refHex. destruct p as [| d p].
    { intros [= <-]. by apply (undecided_ok [ch "#"; x]). }
    destruct (isHexDigit d).
    + by apply (refNumeric_outcome isHexDigit hexStep [ch "#"; x]).
    + intros [= <-]. by apply (rejected_ok [ch "#"; x]).
  - destruct (isDecimalDigit x).
    + apply (refNumeric_outcome isDecimalDigit decimalStep [ch "#"]); try done;
        [apply decimalDigit_hex | by repeat constructor].
    + intros [= <-]. by apply (rejected_ok [ch "#"]); repeat constructor.
Qed.

(** *** More input does not change an outcome that did not ask for it *)

Lemma refNumeric_extend (isDigit : Z -> bool) (step : Z -> Z -> Z) (n : nat) (p B : list Z)
    (r : CharRef) (k j : nat) :
  refNumeric isDigit step n p = Some (r, k, j) -> r <> NotEnough ->
  refNumeric isDigit step n (p ++ B) = Some (r, k, j).
Proof.
  unfold refNumeric. destruct (spanList isDigit p) as [ds [| c rest]] eqn:E.
  - by intros [= <- <- <-].
  - by rewrite (spanList_extend isDigit p ds rest B c E).
Qed.

Lemma refNamed_extend (add : Z) (p B : list Z) (r : CharRef) (k j : nat) :
  refNamed T add p = Some (r, k, j) -> r <> NotEnough ->
  refNamed T add (p ++ B) = Some (r, k, j).
Proof.
  unfold refNamed. destruct (spanSearch T (newSearch T) p) as [[[s' u] v] |] eqn:E; [| done].
  simpl. destruct v as [| c v]; [by intros [= <- <- <-] |].
  rewrite (spanSearch_extend T p u v B c _ s' E). simpl.
  destruct (m_mostRecentMatch s') as [e |]; [| done].
  destruct (lastCharacter e); simpl; [| done].
  destruct (p !! entryLength e) as [next |] eqn:En; simpl; [| done].
  by rewrite (lookup_app_l_Some _ _ _ _ En).
Qed.

Lemma reference_extend (add : Z) (p B : list Z) (r : CharRef) (k j : nat) :
  reference T add p = Some (r, k, j) -> r <> NotEnough ->
  reference T add (p ++ B) = Some (r, k, j).
Proof.
  unfold reference. destruct p as [| c p]; [by intros [= <- <- <-] |]. cbn [app].
  destruct (_ || _ || _ || _ || _ || _); [tauto |].
  destruct (negb _ && _); [tauto |].
  destruct (c =? ch "#").
  2: { destruct (_ || _); [apply (refNamed_extend add (c :: p)) | tauto]. }
  destruct p as [| x p]; [by intros [= <- <- <-] |]. cbn [app].
  destruct (_ || _); [| destruct (isDecimalDigit x); [apply (refNumeric_extend _ _ 1 (x :: p)) | tauto]].
  unfold refHex. destruct p as [| d p]; [by intros [= <- <- <-] |]. cbn [app].
  destruct (isHexDigit d); [apply (refNumeric_extend _ _ 2 (d :: p)) | tauto].
Qed.

(** *** Resuming after an undecided reference

    The characters pushed back by an undecided reference are read again before
    anything else, so that it does not matter that they are pushed-back ones. *)

Lemma q_takePushed (c : Z) (p : list Z) (j : nat) (cl : bool) (n : Z) :
  src_advanceAndASSERT c (mkQ (c :: p) j cl n) = Some (mkQ p (pred j) cl (n + 1)).
Proof. unfold src_advanceAndASSERT. simpl. by rewrite Z.eqb_refl. Qed.

Lemma q_isEmpty_more (w B : list Z) (cl : bool) (n : Z) :
  B <> [] -> q_isEmpty (mkQ (w ++ B) (length w) cl n) = false.
Proof.
  intros HB. unfold q_isEmpty. simpl. rewrite length_app. apply Nat.eqb_neq.
  destruct B; simpl; [done | lia].
Qed.

Lemma q_isEmpty_none (p B : list Z) (cl : bool) (n : Z) :
  B <> [] -> q_isEmpty (mkQ (p ++ B) 0 cl n) = false.
Proof.
  intros HB. unfold q_isEmpty. simpl. rewrite length_app. apply Nat.eqb_neq.
  destruct B; simpl; [done | lia].
Qed.

Lemma namedLoop_resume (w B consumed : list Z) (s s' : HTMLEntitySearch) (cc : Z) (cl : bool)
    (n : Z) (fuel : nat) :
  B <> [] -> spanSearch T s w = Some (s', w, []) ->
  namedLoop T fuel s consumed cc (mkQ (w ++ B) (length w) cl n)
  = namedLoop T fuel s consumed cc (mkQ (w ++ B) 0 cl n).
Proof.
  intros HB. revert s consumed cc n fuel.
  induction w as [| c w IH]; intros s consumed cc n fuel E; [done |].
  destruct fuel as [| fuel]; [done |]. cbn [namedLoop].
  change (src_isEmpty (mkQ ((c :: w) ++ B) (length (c :: w)) cl n))
    with (q_isEmpty (mkQ ((c :: w) ++ B) (length (c :: w)) cl n)).
  change (src_isEmpty (mkQ ((c :: w) ++ B) 0 cl n)) with (q_isEmpty (mkQ ((c :: w) ++ B) 0 cl n)).
  rewrite q_isEmpty_more, q_isEmpty_none by done.
  change (src_currentChar (mkQ ((c :: w) ++ B) (length (c :: w)) cl n)) with c.
  change (src_currentChar (mkQ ((c :: w) ++ B) 0 cl n)) with c.
  simpl in E. destruct (HTMLEntitySearch.advance T c s) as [s1 |]; simpl in *; [| done].
  destruct (isEntityPrefix s1); simpl; [| done].
  rewrite !q_takePushed. simpl.
  destruct (spanSearch T s1 w) as [[[s2 u] v] |] eqn:E2; simpl in E; [| done].
  simplify_eq. by apply IH.
Qed.

Lemma consumeNamedEntity_resume (w B : list Z) (add cc : Z) (s' : HTMLEntitySearch) (cl : bool)
    (n : Z) :
  B <> [] -> spanSearch T (newSearch T) w = Some (s', w, []) ->
  consumeNamedEntity T add cc (mkQ (w ++ B) (length w) cl n)
  = consumeNamedEntity T add cc (mkQ (w ++ B) 0 cl n).
Proof.
  intros HB E. unfold consumeNamedEntity.
  by rewrite (namedLoop_resume w B [] (newSearch T) s' cc cl n _ HB E).
Qed.

Lemma refNamed_undecided (add : Z) (w : list Z) (k j : nat) :
  refNamed T add w = Some (NotEnough, k, j) ->
  exists s', spanSearch T (newSearch T) w = Some (s', w, []).
Proof.
  destruct (spanSearch_ok w [] (newSearch T)) as (s' & u & v & E & Hp & _); [by left |].
  unfold refNamed. rewrite E. simpl. destruct v as [| c v].
  - rewrite app_nil_r in Hp. subst u. by exists s'.
  - destruct (m_mostRecentMatch s') as [e |]; simpl; [| done].
    destruct (lastCharacter e); simpl; [| done].
    destruct (w !! entryLength e); simpl; [| done]. by destruct (_ || _ || _).
Qed.

Lemma initial_step (fuel : nat) (add : Z) (s : Q) :
  referenceLoop T (S fuel) add Initial 0 [] s =
    if q_isEmpty s then s1 ← lift (unconsumeCharacters [] s); Ok (NotEnough, s1) else
    let cc := q_head s in
    if (cc =? 0x09) || (cc =? 0x0A) || (cc =? 0x0C) || (cc =? ch " ") || (cc =? ch "<")
       || (cc =? ch "&") then Ok (NoReference, s)
    else if negb (add =? 0) && (cc =? add) then Ok (NoReference, s)
    else if cc =? ch "#" then
      s1 ← lift (src_advanceAndASSERT cc s); referenceLoop T fuel add Number 0 [cc] s1
    else if isASCIILower cc || isASCIIUpper cc then referenceLoop T fuel add Named 0 [] s
    else Ok (NoReference, s).
Proof. reflexivity. Qed.

Lemma named_step (fuel : nat) (add : Z) (s : Q) :
  referenceLoop T (S fuel) add Named 0 [] s =
    if q_isEmpty s then s1 ← lift (unconsumeCharacters [] s); Ok (NotEnough, s1) else
    consumeNamedEntity T add (q_head s) s.
Proof. reflexivity. Qed.

Lemma number_step (fuel : nat) (add : Z) (w : list Z) (s : Q) :
  referenceLoop T (S fuel) add Number 0 w s =
    if q_isEmpty s then s1 ← lift (unconsumeCharacters w s); Ok (NotEnough, s1) else
    let cc := q_head s in
    if cc =? ch "x" then
      s1 ← lift (src_advanceAndASSERT cc s); referenceLoop T fuel add MaybeHexLowerCaseX 0 (w ++ [cc]) s1
    else if cc =? ch "X" then
      s1 ← lift (src_advanceAndASSERT cc s); referenceLoop T fuel add MaybeHexUpperCaseX 0 (w ++ [cc]) s1
    else if isDecimalDigit cc then referenceLoop T fuel add Decimal 0 w s
    else s1 ← lift (src_push (ch "#") s); Ok (NoReference, s1).
Proof. reflexivity. Qed.

Lemma decimal_step (fuel : nat) (add value : Z) (w : list Z) (s : Q) :
  q_isEmpty s = false -> isDecimalDigit (q_head s) = true ->
  referenceLoop T (S fuel) add Decimal value w s =
    s1 ← lift (src_advanceAndASSERT (q_head s) s);
    referenceLoop T fuel add Decimal (decimalStep value (q_head s)) (w ++ [q_head s]) s1.
Proof.
  intros H1 H2. cbn [referenceLoop].
  change (src_isEmpty s) with (q_isEmpty s). change (src_currentChar s) with (q_head s).
  by rewrite H1, H2.
Qed.

(** Restarting with the text [w] of an undecided reference pushed back. *)
Lemma consume_resume (add : Z) (w B : list Z) (cl : bool) (n : Z) (k j : nat) :
  B <> [] -> reference T add w = Some (NotEnough, k, j) ->
  consumeHTMLEntity T add (mkQ (w ++ B) j cl n) = consumeHTMLEntity T add (mkQ (w ++ B) 0 cl n).
Proof.
  intros HB E. pose proof (reference_outcome add w _ E) as (_ & -> & _).
  destruct w as [| c w]; [done |]. destruct (decide (length (c :: w) <= 2)%nat) as [Hl |].
  2: { replace (pushedBy (length (c :: w))) with 0%nat; [done |].
       destruct w as [| ? [| ? ?]]; simpl in *; done || lia. }
  replace (pushedBy (length (c :: w))) with (length (c :: w))
    by (destruct w as [| ? [| ? ?]]; simpl in *; done || lia).
  unfold consumeHTMLEntity. destruct (lift _); simpl; [| done..].
  rewrite Nat2Z.id, Nat.add_comm. cbn [Nat.add].
  rewrite !initial_step. change (c :: w ++ B) with ((c :: w) ++ B).
  change (S (length w)) with (length (c :: w)).
  rewrite q_isEmpty_more, q_isEmpty_none by done. cbv zeta.
  change (q_head (mkQ ((c :: w) ++ B) (length (c :: w)) cl n)) with c.
  change (q_head (mkQ ((c :: w) ++ B) 0 cl n)) with c.
  unfold reference in E.
  destruct (_ || _ || _ || _ || _ || _); [done |]. destruct (negb _ && _); [done |].
  destruct (c =? ch "#") eqn:Eh.
  2: { destruct (isASCIILower c || isASCIIUpper c); [| done]. rewrite !named_step.
       rewrite q_isEmpty_more, q_isEmpty_none by done.
       destruct (refNamed_undecided add (c :: w) k _ E) as [s' Hs].
       by eapply consumeNamedEntity_resume. }
  cbn [app]. rewrite !q_takePushed. cbn [lift mbind result_bind pred length].
  destruct w as [| x [| y w]]; [done | | simpl in Hl; lia].
  rewrite !number_step. cbn [app length].
  rewrite (q_isEmpty_more [x] B), (q_isEmpty_none [x] B) by done. cbv zeta.
  change (q_head (mkQ (x :: B) 1 cl (n + 1))) with x.
  change (q_head (mkQ (x :: B) 0 cl (n + 1))) with x.
  rewrite !q_takePushed. cbn [lift mbind result_bind pred length].
  destruct (x =? ch "x"), (x =? ch "X"); try done. simpl in E.
  destruct (isDecimalDigit x) eqn:Ed; [| done].
  rewrite !decimal_step by
    (done || apply (q_isEmpty_more [x] B) || apply (q_isEmpty_none [x] B); done).
  by rewrite !q_takePushed.
Qed.

End Equivalence.

(** ** Code points

    The specification of the decoded text: the code point HTML assigns to a
    number, in UTF-16. *)

Definition utf16 (v : Z) : list Z :=
  if v <? 0x10000 then [v]
  else [0xD800 + (v - 0x10000) / 1024; 0xDC00 + (v - 0x10000) mod 1024].

Definition html5CodePoint (value : Z) : Z :=
  if (value =? 0) || (0x10FFFF <? value) || ((0xD800 <=? value) && (value <=? 0xDFFF)) then 0xFFFD
  else if (0x80 <=? value) && (value <? 0xA0)
  then default 0 (windowsLatin1ExtensionArray !! Z.to_nat (value - 0x80))
  else value.

Lemma lor_trail (x : Z) : 0 <= x < 1024 -> Z.lor x 0xDC00 = 0xDC00 + x.
Proof.
  intros Hx.
  assert (H : forallb (fun n => Z.lor (Z.of_nat n) 0xDC00 =? 0xDC00 + Z.of_nat n) (seq 0 1024) = true)
    by (vm_compute; reflexivity).
  rewrite forallb_forall in H. specialize (H (Z.to_nat x)).
  rewrite Z2Nat.id in H by lia. apply Z.eqb_eq, H, in_seq. lia.
Qed.

Lemma encodeUChar32_spec (v : Z) : 0 <= v <= 0x10FFFF -> encodeUChar32 v = utf16 v.
Proof.
  intros Hv. unfold encodeUChar32, utf16, U_IS_BMP.
  rewrite (Z.mod_small v (2 ^ 32)) by lia.
  destruct (v <? 0x10000) eqn:E; bool_to_prop.
  - rewrite (proj2 (Z.leb_le v 0xFFFF)) by lia. by rewrite Z.mod_small by lia.
  - rewrite (proj2 (Z.leb_gt v 0xFFFF)) by lia. unfold U16_LEAD, U16_TRAIL.
    rewrite Z.shiftr_div_pow2 by lia. change (2 ^ 10) with 1024.
    change (Z.land v 0x3FF) with (Z.land v (Z.ones 10)). rewrite Z.land_ones by lia.
    change (2 ^ 10) with 1024.
    pose proof (Z.mod_pos_bound v 1024 ltac:(lia)). rewrite lor_trail by lia.
    replace (v - 0x10000) with (v + (- 64) * 1024) by lia.
    rewrite Z.div_add, Z.mod_add by lia. pose proof (Z.div_mod v 1024 ltac:(lia)).
    rewrite (Z.mod_small (v / 1024 + 0xD7C0)), (Z.mod_small (0xDC00 + v mod 1024)) by lia.
    f_equal. lia.
Qed.

Lemma utf16_units (v : Z) : 0 < v <= 0x10FFFF -> Forall (fun c => 0 < c < 2 ^ 16) (utf16 v).
Proof.
  intros Hv. unfold utf16. destruct (v <? 0x10000) eqn:E; bool_to_prop.
  - constructor; [lia | done].
  - pose proof (Z.div_mod (v - 0x10000) 1024 ltac:(lia)).
    pose proof (Z.mod_pos_bound (v - 0x10000) 1024 ltac:(lia)).
    repeat constructor; lia.
Qed.

Lemma windowsLatin1_units : Forall (fun c => 0 < c <= 0x10FFFF) windowsLatin1ExtensionArray.
Proof. repeat constructor; lia. Qed.

Lemma legalEntityFor_spec (value : Z) :
  0 <= value -> legalEntityFor value = Some (html5CodePoint value).
Proof.
  intros Hv. unfold legalEntityFor, html5CodePoint.
  destruct (_ || _ || _) eqn:E; [done |]. bool_to_prop.
  unfold U_IS_BMP. rewrite Z.mod_small by lia.
  destruct (value <=? 0xFFFF) eqn:Eb; bool_to_prop.
  2: { by rewrite (proj2 (Z.ltb_ge value 0xA0)), andb_false_r by lia. }
  unfold adjustEntity. rewrite (Z.mod_small value (2 ^ 16)) by lia.
  assert (Hr : Z.land value (Z.lnot 0x1F) = value - value mod 32).
  { change (Z.lnot 0x1F) with (Z.lnot (Z.ones 5)).
    rewrite <- Z.ldiff_land, Z.ldiff_ones_r, Z.shiftl_mul_pow2, Z.shiftr_div_pow2 by lia.
    change (2 ^ 5) with 32. pose proof (Z.div_mod value 32 ltac:(lia)). lia. }
  rewrite Hr. pose proof (Z.mod_pos_bound value 32 ltac:(lia)).
  pose proof (Z.div_mod value 32 ltac:(lia)).
  destruct ((0x80 <=? value) && (value <? 0xA0)) eqn:Ew.
  - apply andb_true_iff in Ew as [E1 E2]. bool_to_prop.
    assert (value / 32 = 4) by lia.
    rewrite (proj2 (Z.eqb_eq (value - value mod 32) 0x80)) by lia. simpl negb. cbv iota.
    destruct (lookup_lt_is_Some_2 windowsLatin1ExtensionArray (Z.to_nat (value - 0x80))) as [x ->];
      [change (length windowsLatin1ExtensionArray) with 32%nat; lia | done].
  - rewrite (proj2 (Z.eqb_neq (value - value mod 32) 0x80)); [done |]. intros Hc.
    apply andb_false_iff in Ew as [E1 | E1]; bool_to_prop; lia.
Qed.

Lemma html5CodePoint_range (value : Z) : 0 <= value -> 0 < html5CodePoint value <= 0x10FFFF.
Proof.
  intros Hv. unfold html5CodePoint. destruct (_ || _ || _) eqn:E; [lia |]. bool_to_prop.
  destruct ((0x80 <=? value) && (value <? 0xA0)) eqn:Ew; [bool_to_prop | lia].
  destruct (lookup_lt_is_Some_2 windowsLatin1ExtensionArray (Z.to_nat (value - 0x80))) as [x Hx];
    [change (length windowsLatin1ExtensionArray) with 32%nat; lia |].
  rewrite Hx. apply (Forall_lookup_1 _ _ _ _ windowsLatin1_units Hx).
Qed.

(** *** The number a digit string denotes *)

Definition digitValue (c : Z) : Z :=
  if isDecimalDigit c then c - ch "0"
  else if isASCIILower c then 10 + c - ch "a" else 10 + c - ch "A".

Lemma digitValue_range (c : Z) : isHexDigit c = true -> 0 <= digitValue c < 16.
Proof.
  unfold isHexDigit, digitValue, isDecimalDigit, isASCIILower. intros E.
  apply orb_true_iff in E as [E | E]; [apply orb_true_iff in E as [E | E] |];
    apply andb_true_iff in E as [E1 E2]; apply Z.leb_le in E1, E2;
    repeat case_match; bool_to_prop; try lia.
Qed.

Lemma hexStep_value (value c : Z) :
  isHexDigit c = true -> hexStep value c = wrap32 (value * 16 + digitValue c).
Proof.
  unfold isHexDigit, hexStep, digitValue, isDecimalDigit, isASCIILower. intros E.
  destruct ((ch "0" <=? c) && (c <=? ch "9")) eqn:E1; [f_equal; lia |].
  destruct ((ch "a" <=? c) && (c <=? ch "f")) eqn:E2; bool_to_prop.
  - rewrite (proj2 (Z.leb_le (ch "a") c)), (proj2 (Z.leb_le c (ch "z"))) by lia. simpl. f_equal. lia.
  - simpl in E. bool_to_prop. rewrite (proj2 (Z.leb_gt (ch "a") c)) by lia. simpl. f_equal. lia.
Qed.

Lemma decimalStep_value (value c : Z) :
  isDecimalDigit c = true -> decimalStep value c = wrap32 (value * 10 + digitValue c).
Proof. intros E. unfold decimalStep, digitValue. rewrite E. f_equal. lia. Qed.

Definition foldNumber (base value : Z) (ds : list Z) : Z :=
  foldl (fun value c => value * base + digitValue c) value ds.

Lemma foldNumber_le (base : Z) (ds : list Z) (a : Z) :
  1 <= base -> Forall (fun c => isHexDigit c = true) ds -> 0 <= a -> a <= foldNumber base a ds.
Proof.
  intros Hb. revert a. induction ds as [| d ds IH]; intros a Hds Ha; simpl; [lia |].
  apply Forall_cons_1 in Hds as [Hc Hds]. pose proof (digitValue_range d Hc).
  etransitivity; [| apply IH; [done | nia]]. nia.
Qed.

(** As long as the number fits, the 32-bit accumulator holds it. *)
Lemma foldl_numberOf (base : Z) (isDigit : Z -> bool) (step : Z -> Z -> Z) (ds : list Z) (a : Z) :
  1 <= base -> (forall c, isDigit c = true -> isHexDigit c = true) ->
  (forall value c, isDigit c = true -> step value c = wrap32 (value * base + digitValue c)) ->
  Forall (fun c => isDigit c = true) ds -> 0 <= a -> foldNumber base a ds < 2 ^ 31 ->
  foldl step a ds = foldNumber base a ds.
Proof.
  intros Hb Hd Hstep. revert a. induction ds as [| c ds IH]; intros a Hds Ha Hlt; [done |].
  apply Forall_cons_1 in Hds as [Hc Hds]. pose proof (digitValue_range c (Hd c Hc)) as Hr.
  simpl in *.
  assert (a * base + digitValue c <= foldNumber base (a * base + digitValue c) ds).
  { apply foldNumber_le; [done | | nia]. eapply list.Forall_impl; [exact Hds | exact Hd]. }
  unfold foldNumber in *. rewrite Hstep, wrap32_small by (done || nia). apply IH; [done | nia | done].
Qed.

(** *** Numbers that fit never overflow *)

(** Of the text behind an ampersand: the number of a numeric reference is below 2^31. *)
Definition numberFits (l : list Z) : bool :=
  match l with
  | c :: p =>
      if c =? ch "#" then
        match p with
        | x :: p' =>
            if (x =? ch "x") || (x =? ch "X") then foldNumber 16 0 (spanList isHexDigit p').1 <? 2 ^ 31
            else foldNumber 10 0 (spanList isDecimalDigit p).1 <? 2 ^ 31
        | [] => true
        end
      else true
  | [] => true
  end.

(** Every decimal number that follows a [#], and every hexadecimal one that follows [#x], is
    below 2^31: the accumulator of a numeric reference can not overflow. *)
Fixpoint numbersFit (l : list Z) : bool :=
  numberFits l && match l with [] => true | _ :: l' => numbersFit l' end.

Lemma numbersFit_suffix (u v : list Z) : numbersFit (u ++ v) = true -> numbersFit v = true.
Proof.
  induction u as [| c u IH]; [done |]. intros E. apply IH.
  cbn [app numbersFit] in E. by apply andb_true_iff in E as [_ E].
Qed.

Lemma numbersFit_here (l : list Z) : numbersFit l = true -> numberFits l = true.
Proof. destruct l; cbn [numbersFit]; intros E; by apply andb_true_iff in E as [E _]. Qed.

Lemma spanList_prefix (f : Z -> bool) (u v : list Z) :
  exists w, (spanList f (u ++ v)).1 = (spanList f u).1 ++ w.
Proof.
  induction u as [| c u [w IH]]; [by eexists |]. simpl. destruct (f c); [| by exists []].
  destruct (spanList f u), (spanList f (u ++ v)). simpl in *. exists w. by rewrite IH.
Qed.

Lemma digits_fit_prefix (f : Z -> bool) (base : Z) (u v : list Z) :
  1 <= base -> (forall c, f c = true -> isHexDigit c = true) ->
  (foldNumber base 0 (spanList f (u ++ v)).1 <? 2 ^ 31) = true -> (foldNumber base 0 (spanList f u).1 <? 2 ^ 31) = true.
Proof.
  intros Hb Hf. destruct (spanList_prefix f u v) as [w E].
  assert (H : Forall (fun c => isHexDigit c = true) (spanList f (u ++ v)).1).
  { destruct (spanList f (u ++ v)) as [ds r] eqn:Es. apply spanList_app in Es as [_ Hds]. by eapply list.Forall_impl. }
  rewrite E in H |- *. apply list.Forall_app in H as [Hu Hw]. rewrite !Z.ltb_lt.
  pose proof (foldNumber_le base (spanList f u).1 0 Hb Hu ltac:(lia)).
  pose proof (foldNumber_le base w (foldNumber base 0 (spanList f u).1) Hb Hw ltac:(lia)) as H2.
  unfold foldNumber in *. rewrite foldl_app. lia.
Qed.

Lemma numberFits_prefix (u v : list Z) : numberFits (u ++ v) = true -> numberFits u = true.
Proof.
  unfold numberFits. destruct u as [| c [| x u]]; [done | simpl; by destruct (c =? _) |].
  cbn [app]. destruct (c =? ch "#"); [| done]. destruct (_ || _); [by apply digits_fit_prefix |].
  apply (digits_fit_prefix isDecimalDigit 10 (x :: u) v); [lia | apply decimalDigit_hex].
Qed.

Lemma numbersFit_prefix (u v : list Z) : numbersFit (u ++ v) = true -> numbersFit u = true.
Proof.
  induction u as [| c u IH]; intros H; [done |].
  pose proof (numberFits_prefix _ _ (numbersFit_here _ H)) as Hh.
  change (numberFits (c :: u) && numbersFit u = true). apply andb_true_iff. split; [done |].
  apply IH. apply (numbersFit_suffix [c] (u ++ v) H).
Qed.

Lemma refNumeric_units (isDigit : Z -> bool) (step : Z -> Z -> Z) (base : Z) (n k j : nat)
    (p d : list Z) :
  1 <= base <= 16 -> (forall c, isDigit c = true -> isHexDigit c = true) ->
  (forall value c, isDigit c = true -> step value c = wrap32 (value * base + digitValue c)) ->
  (foldNumber base 0 (spanList isDigit p).1 <? 2 ^ 31) = true -> refNumeric isDigit step n p = Some (Decoded d, k, j) ->
  Forall (fun c => 0 < c < 2 ^ 16) d.
Proof.
  intros Hb Hd Hstep Hs. unfold refNumeric. destruct (spanList isDigit p) as [ds rest] eqn:E.
  apply spanList_app in E as [_ Hds]. apply Z.ltb_lt in Hs. cbn [fst] in Hs.
  assert (Hhex : Forall (fun c => isHexDigit c = true) ds) by (by eapply list.Forall_impl).
  pose proof (foldNumber_le base ds 0 ltac:(lia) Hhex ltac:(lia)) as Hge.
  rewrite (foldl_numberOf base isDigit step ds 0) by (done || lia).
  destruct rest as [| c rest]; [done |]. rewrite legalEntityFor_spec by done. simpl.
  intros [= <- _ _]. pose proof (html5CodePoint_range _ Hge).
  rewrite encodeUChar32_spec by lia. by apply utf16_units.
Qed.

Section Correctness.
Variable T : EntityTable.
Hypothesis HT : EntityTableOk T.
Abbreviation table := (staticEntityTable T).

Lemma entry_units (e : HTMLEntityTableEntry) :
  e ∈ table ->
  encodeUChar32 (firstValue e) ++ (if secondValue e =? 0 then [] else encodeUChar32 (secondValue e))
  = utf16 (firstValue e) ++ (if secondValue e =? 0 then [] else utf16 (secondValue e)) /\
  Forall (fun c => 0 < c < 2 ^ 16)
    (utf16 (firstValue e) ++ (if secondValue e =? 0 then [] else utf16 (secondValue e))).
Proof.
  intros He. pose proof (proj1 (list.Forall_forall _ _) (table_values T HT) e He) as [H1 H2].
  rewrite encodeUChar32_spec by lia. destruct (secondValue e =? 0) eqn:E; bool_to_prop.
  - split; [done |]. apply Forall_app. split; [by apply utf16_units | done].
  - rewrite encodeUChar32_spec by lia. split; [done |].
    apply Forall_app. split; apply utf16_units; lia.
Qed.

Lemma longest_unique (p : list Z) (e e' : HTMLEntityTableEntry) :
  longestMatch T p (Some e) -> longestMatch T p (Some e') -> e = e'.
Proof.
  intros (He & Hp & Hmax) (He' & Hp' & Hmax').
  assert (Hl : length (entity e) = length (entity e')).
  { pose proof (Hmax e' He' Hp'). pose proof (Hmax' e He Hp). unfold entryLength in *. lia. }
  assert (Heq : entity e = entity e').
  { destruct (prefix_weak_total _ _ _ Hp Hp') as [H | H];
      [| symmetry]; apply prefix_length_eq; done || lia. }
  apply list_elem_of_lookup in He as [i Hi], He' as [i' Hi'].
  assert (Hirr : forall l, ~ lexlt l l).
  { induction l as [| c l IH]; simpl; [tauto |]. intros [H | [_ H]]; [lia | done]. }
  destruct (lt_eq_lt_dec i i') as [[H | H] | H].
  - destruct (Hirr (entity e)). rewrite Heq at 2. by apply (table_lookup_lt T HT i i').
  - subst i'. congruence.
  - destruct (Hirr (entity e)). rewrite Heq at 1. by apply (table_lookup_lt T HT i' i).
Qed.

(** The search decides which entries start the text, once the text has left the
    table. *)
Lemma spanSearch_longest (p u v : list Z) (c : Z) (s' : HTMLEntitySearch) :
  spanSearch T (newSearch T) p = Some (s', u, c :: v) ->
  longestMatch T p (m_mostRecentMatch s').
Proof.
  intros E. destruct (spanSearch_ok T HT p [] (newSearch T)) as (s1 & u1 & v1 & E1 & Hp & _ & Hv);
    [by left |].
  rewrite E in E1. injection E1 as <- <- <-. destruct Hv as (_ & Hm & Hnone). simpl in *. subst p.
  assert (Hpre : forall e, e ∈ table -> entity e `prefix_of` u ++ c :: v ->
                   entity e `prefix_of` u ++ [c]).
  { intros e He Hp. change (u ++ c :: v) with (u ++ [c] ++ v) in Hp. rewrite app_assoc in Hp.
    destruct (prefix_weak_total _ _ _ Hp (prefix_app_r _ _ v (reflexivity (u ++ [c])))); [done |].
    by destruct (Hnone e He). }
  destruct (m_mostRecentMatch s') as [e |].
  - destruct Hm as (He & He2 & Hmax). split; [done | split].
    + change (u ++ c :: v) with (u ++ [c] ++ v). rewrite app_assoc. by apply prefix_app_r.
    + intros e' He' Hp. apply Hmax; [done | by apply Hpre].
  - intros e He Hp. apply (Hm e He). by apply Hpre.
Qed.

(** What a named reference decodes to, given the longest entry the text starts
    with. *)
Definition namedOutcome (add : Z) (p : list Z) (m : option HTMLEntityTableEntry) (r : CharRef) : Prop :=
  match m with
  | None => r = NoReference
  | Some e => exists next, p !! entryLength e = Some next /\
      r = if bool_decide (lastCharacter e = Some (ch ";")) || (add =? 0)
             || negb (isAlphaNumeric next || (next =? ch "="))
          then Decoded (utf16 (firstValue e)
                 ++ (if secondValue e =? 0 then [] else utf16 (secondValue e)))
          else NoReference
  end.

Lemma refNamed_decides (add : Z) (p : list Z) (r : CharRef) (k j : nat) :
  refNamed T add p = Some (r, k, j) -> r <> NotEnough ->
  exists m, longestMatch T p m /\ namedOutcome add p m r /\
    (forall d, r = Decoded d -> exists e, m = Some e /\ k = entryLength e).
Proof.
  unfold refNamed. destruct (spanSearch T (newSearch T) p) as [[[s' u] v] |] eqn:E; [| done].
  simpl. destruct v as [| c v]; [by intros [= <- _ _] |].
  pose proof (spanSearch_longest p u v c s' E) as Hm. intros Ho Hr.
  exists (m_mostRecentMatch s'). split; [done |].
  destruct (m_mostRecentMatch s') as [e |]; [| injection Ho as <- <- <-; done].
  destruct Hm as (He & _ & _). simpl.
  destruct (lastCharacter e) as [last |]; simpl in Ho; [| done].
  destruct (p !! entryLength e) as [next |]; simpl in Ho; [| done].
  replace (bool_decide (Some last = Some (ch ";"))) with (last =? ch ";").
  2: { destruct (last =? ch ";") eqn:El; bool_to_prop; symmetry;
         [apply bool_decide_eq_true | apply bool_decide_eq_false]; congruence. }
  destruct ((last =? ch ";") || (add =? 0) || negb (isAlphaNumeric next || (next =? ch "=")))
    eqn:Ec; injection Ho as <- <- <-.
  - split; [| by eauto]. exists next. split; [done |]. rewrite Ec. f_equal. by apply entry_units.
  - split; [| done]. exists next. by rewrite Ec.
Qed.

Lemma reference_units (add : Z) (p d : list Z) (k j : nat) :
  numbersFit p = true -> reference T add p = Some (Decoded d, k, j) ->
  Forall (fun c => 0 < c < 2 ^ 16) d.
Proof.
  unfold reference. destruct p as [| c p]; [done |]. intros Hs%numbersFit_here.
  unfold numberFits in Hs.
  destruct (_ || _ || _ || _ || _ || _); [done |]. destruct (negb _ && _); [done |].
  destruct (c =? ch "#").
  - destruct p as [| x p]; [done |]. destruct ((x =? ch "x") || (x =? ch "X")).
    + unfold refHex. destruct p as [| y p]; [done |]. destruct (isHexDigit y); [| done].
      by apply (refNumeric_units isHexDigit hexStep 16); [lia | done | apply hexStep_value |].
    + destruct (isDecimalDigit x); [| done].
      by apply (refNumeric_units isDecimalDigit decimalStep 10);
        [lia | apply decimalDigit_hex | apply decimalStep_value |].
  - destruct (_ || _); [| done]. intros E.
    destruct (refNamed_decides add (c :: p) _ k j E ltac:(done)) as (m & Hm & Hn & _).
    destruct m as [e |]; [| done]. destruct Hn as (next & _ & Hn). destruct Hm as [He _].
    destruct (_ || _ || _); [| done]. injection Hn as ->. by apply entry_units.
Qed.

End Correctness.

(** ** The parser over any input buffer refines the parser over the queue *)
Section Refinement.
Context {S : Type} `{CharSourceOk S}.
Variable T : EntityTable.

Lemma src_empty (s : S) : src_valid s -> src_isEmpty s = src_isEmpty (src_abs s).
Proof. apply src_isEmpty_ok. Qed.
Lemma src_current (s : S) : src_valid s -> src_currentChar s = src_currentChar (src_abs s).
Proof. apply src_currentChar_ok. Qed.
Lemma src_size (s : S) : src_valid s -> src_length s = src_length (src_abs s).
Proof. apply src_length_ok. Qed.

Lemma refS_advanceAndASSERT (c : Z) (s : S) :
  src_valid s -> refS (src_advanceAndASSERT c s) (src_advanceAndASSERT c (src_abs s)).
Proof.
  intros Hv. unfold src_advanceAndASSERT. rewrite src_current by done.
  by apply refS_assert, refS_advance.
Qed.

Lemma refS_unconsume (w : list Z) (s : S) :
  src_valid s -> refS (unconsumeCharacters w s) (unconsumeCharacters w (src_abs s)).
Proof.
  intros Hv. destruct w as [| a [| b [| c w]]]; simpl.
  - by apply refS_prepend.
  - by apply refS_push.
  - apply refS_bind; [by apply refS_push |]. intros s1 Hv1. by apply refS_push.
  - by apply refS_prepend.
Qed.

Lemma refR_unconsume (r : CharRef) (w : list Z) (s : S) :
  src_valid s ->
  refR (s1 ← lift (unconsumeCharacters w s); Ok (r, s1))
       (s1 ← lift (unconsumeCharacters w (src_abs s)); Ok (r, s1)).
Proof.
  intros Hv. apply refR_liftS; [by apply refS_unconsume |]. intros s1 Hv1. by apply refR_ret.
Qed.

Lemma refR_namedLoop (fuel : nat) (search : HTMLEntitySearch) (w : list Z) (cc : Z) (s : S) :
  src_valid s ->
  refR (namedLoop T fuel search w cc s) (namedLoop T fuel search w cc (src_abs s)).
Proof.
  revert search w cc s. induction fuel as [| fuel IH]; intros search w cc s Hv; [done |].
  cbn [namedLoop]. rewrite src_empty, src_current by done.
  destruct (src_isEmpty (src_abs s)); [by apply refR_ret |]. cbv zeta.
  apply refR_pure. intros search1 _. destruct (negb _); [by apply refR_ret |].
  apply refR_liftS; [by apply refS_advanceAndASSERT |]. intros s1 Hv1. by apply IH.
Qed.

Lemma refR_reconsumeEntity (ref w : list Z) (s : S) :
  src_valid s -> refR (lift (reconsumeEntity ref w s)) (lift (reconsumeEntity ref w (src_abs s))).
Proof.
  revert w s. induction ref as [| r ref IH]; intros w s Hv; simpl; [by apply (refR_ret w) |].
  rewrite src_current by done. simpl. destruct (q_head (src_abs s) =? r); simpl; [| done].
  pose proof (refS_advanceAndASSERT (q_head (src_abs s)) s Hv) as Ha.
  destruct (src_advanceAndASSERT (q_head (src_abs s)) (src_abs s)) as [q1 |]; simpl; [| done].
  destruct (Ha q1 eq_refl) as (s1 & -> & Hv1 & <-). simpl. rewrite (src_empty s1) by done. simpl.
  destruct (q_isEmpty (src_abs s1)); simpl; [done |]. by apply IH.
Qed.

Lemma refR_acceptNamed (e : HTMLEntityTableEntry) (add cc : Z) (w : list Z) (s : S) :
  src_valid s ->
  refR (lift (acceptNamed e add cc w s)) (lift (acceptNamed e add cc w (src_abs s))).
Proof.
  intros Hv. unfold acceptNamed. destruct (lastCharacter e) as [last |]; simpl; [| done].
  destruct (_ || _ || _); [by apply (refR_ret (Decoded _)) |].
  pose proof (refS_unconsume w s Hv) as Hu.
  destruct (unconsumeCharacters w (src_abs s)) as [q1 |]; simpl; [| done].
  destruct (Hu q1 eq_refl) as (s1 & -> & Hv1 & <-). by apply (refR_ret NoReference).
Qed.

Lemma refR_consumeNamedEntity (add cc : Z) (s : S) :
  src_valid s ->
  refR (consumeNamedEntity T add cc s) (consumeNamedEntity T add cc (src_abs s)).
Proof.
  intros Hv. unfold consumeNamedEntity. rewrite src_size by done.
  apply refR_bind; [by apply refR_namedLoop |]. intros [[search w] cc1] s1 Hv1.
  rewrite src_empty by done. destruct (src_isEmpty (src_abs s1)); [by apply refR_unconsume |].
  destruct (m_mostRecentMatch search) as [e |]; [| by apply refR_unconsume].
  destruct (negb _); [| by apply refR_acceptNamed].
  apply refR_liftS; [by apply refS_unconsume |]. intros s2 Hv2.
  apply refR_bind; [by apply refR_reconsumeEntity |]. intros w3 s3 Hv3.
  rewrite src_current by done. by apply refR_acceptNamed.
Qed.

Lemma refR_referenceLoop (fuel : nat) (add : Z) (st : EntityState) (value : Z) (w : list Z) (s : S) :
  src_valid s ->
  refR (referenceLoop T fuel add st value w s) (referenceLoop T fuel add st value w (src_abs s)).
Proof.
  revert st value w s. induction fuel as [| fuel IH]; intros st value w s Hv; [done |].
  cbn [referenceLoop]. rewrite src_empty, src_current by done.
  destruct (src_isEmpty (src_abs s)); [by apply refR_unconsume |]. cbv zeta.
  set (cc := src_currentChar (src_abs s)).
  assert (Hconsume : forall st' value',
    refR (s1 ← lift (src_advanceAndASSERT cc s); referenceLoop T fuel add st' value' (w ++ [cc]) s1)
         (s1 ← lift (src_advanceAndASSERT cc (src_abs s));
          referenceLoop T fuel add st' value' (w ++ [cc]) s1)).
  { intros st' value'. apply refR_liftS; [by apply refS_advanceAndASSERT |]. intros. by apply IH. }
  assert (Hdecode : forall s1, src_valid s1 ->
    refR (v ← lift (legalEntityFor value); Ok (Decoded (encodeUChar32 v), s1))
         (v ← lift (legalEntityFor value); Ok (Decoded (encodeUChar32 v), src_abs s1))).
  { intros s1 Hv1. apply refR_pure. intros v _. by apply refR_ret. }
  assert (Hpush2 : forall x, refR
    (s1 ← lift (src_push (ch "#") s); s2 ← lift (src_push x s1); Ok (NoReference, s2))
    (s1 ← lift (src_push (ch "#") (src_abs s)); s2 ← lift (src_push x s1); Ok (NoReference, s2))).
  { intros x. apply refR_liftS; [by apply refS_push |]. intros s1 Hv1.
    apply refR_liftS; [by apply refS_push |]. intros s2 Hv2. by apply refR_ret. }
  destruct st.
  - destruct (_ || _ || _ || _ || _ || _); [by apply refR_ret |].
    destruct (negb _ && _); [by apply refR_ret |]. destruct (cc =? ch "#"); [done |].
    destruct (_ || _); [by apply IH | by apply refR_ret].
  - destruct (cc =? ch "x"); [done |]. destruct (cc =? ch "X"); [done |].
    destruct (isDecimalDigit cc); [by apply IH |].
    apply refR_liftS; [by apply refS_push |]. intros s1 Hv1. by apply refR_ret.
  - destruct (isHexDigit cc); [by apply IH | done].
  - destruct (isHexDigit cc); [by apply IH | done].
  - destruct (isHexDigit cc); [done |].
    destruct (cc =? ch ";"); [| by apply Hdecode].
    apply refR_liftS; [by apply refS_advanceAndASSERT |]. intros s1 Hv1. by apply Hdecode.
  - destruct (isDecimalDigit cc); [done |].
    destruct (cc =? ch ";"); [| by apply Hdecode].
    apply refR_liftS; [by apply refS_advanceAndASSERT |]. intros s1 Hv1. by apply Hdecode.
  - by apply refR_consumeNamedEntity.
Qed.

Lemma refR_consumeHTMLEntity (add : Z) (s : S) :
  src_valid s -> refR (consumeHTMLEntity T add s) (consumeHTMLEntity T add (src_abs s)).
Proof.
  intros Hv. unfold consumeHTMLEntity. apply refR_pure. intros [] _.
  rewrite src_size by done. by apply refR_referenceLoop.
Qed.
End Refinement.
