(* ===== verification/EntityTheorems.v ===== *)
(** * What the entity search and the character reference parser promise

    The search reports the longest entity of its table; a numeric reference is
    decoded to the UTF-16 units of the code point HTML5 prescribes as long as its
    value fits the 32-bit accumulator, and modulo 2^32 beyond; a named reference
    follows the longest-match rule; a reference cut by the end of a chunk can be
    parsed again when more input has come.  [demoTable] is a small table the
    theorems are instantiated with. *)

From stdpp Require Import sorting.
From S2P Require Import Prelude CharSource HTMLEntitySearch HTMLEntityParser.

(** ** A small table *)
Definition demoTable : EntityTable := {|
  staticEntityTable :=
    [mkEntry (units "amp") 38 0; mkEntry (units "amp;") 38 0;
     mkEntry (units "not") 0xAC 0; mkEntry (units "notin;") 0x2209 0;
     mkEntry (units "nvlt;") 60 0x20D2; mkEntry (units "zscr;") 0x1D4CF 0];
  firstEntryStartingWith c :=
    if c =? ch "a" then Some 0%nat else if c =? ch "n" then Some 2%nat
    else if c =? ch "z" then Some 5%nat else None;
  lastEntryStartingWith c :=
    if c =? ch "a" then Some 1%nat else if c =? ch "n" then Some 4%nat
    else if c =? ch "z" then Some 5%nat else None |}.

#[export] Instance lexlt_dec : RelDecision lexlt.
Proof.
  refine (fix go a b : Decision (lexlt a b) :=
    match a, b with
    | [], [] => right _ | [], _ :: _ => left I | _ :: _, [] => right _
    | x :: a', y :: b' =>
        match decide (x < y) with
        | left H => left (or_introl H)
        | right H => match decide (x = y), go a' b' with
                     | left E, left L => left (or_intror (conj E L))
                     | left E, right L => right _
                     | right E, _ => right _
                     end
        end
    end); simpl; tauto.
Defined.

Lemma demoTable_ok : EntityTableOk demoTable.
Proof.
  split.
  - apply (bool_decide_unpack _). vm_compute. exact I.
  - intros c first. simpl.
    destruct (c =? ch "a") eqn:Ea; [| destruct (c =? ch "n") eqn:En; [| destruct (c =? ch "z") eqn:Ez; [| done]]];
      intros [= <-]; bool_to_prop; subst c; eexists; (split; [done | split; [lia | split; [simpl; lia |]]]);
      intros k e He; do 6 (destruct k as [| k]; [simplify_eq/=; split; [done || lia | done || (intros; lia)] |]); done.
  - intros c. simpl.
    destruct (c =? ch "a") eqn:Ea; [done |]. destruct (c =? ch "n") eqn:En; [done |].
    destruct (c =? ch "z") eqn:Ez; [done |]. intros _. bool_to_prop.
    repeat (constructor; [vm_compute; congruence |]). constructor.
  - repeat (constructor; [split; [vm_compute; lia | repeat constructor] |]). constructor.
  - repeat (constructor; [vm_compute; intuition discriminate |]). constructor.
Qed.

(** ** Numbers *)

Lemma wrap32_step (base v d : Z) : wrap32 (wrap32 v * base + d) = wrap32 (v * base + d).
Proof.
  unfold wrap32. f_equal.
  pose proof (Z.div_mod (v + 2 ^ 31) (2 ^ 32) ltac:(lia)) as H.
  set (m := (v + 2 ^ 31) mod 2 ^ 32) in *. set (k := (v + 2 ^ 31) / 2 ^ 32) in *.
  replace ((m - 2 ^ 31) * base + d + 2 ^ 31)
    with ((v * base + d + 2 ^ 31) + (- k * base) * 2 ^ 32) by (replace m with (v + 2 ^ 31 - 2 ^ 32 * k) by lia; ring).
  by rewrite Z.mod_add by lia.
Qed.

(** The accumulator holds the number modulo 2^32. *)
Lemma accumulator (base : Z) (isDigit : Z -> bool) (step : Z -> Z -> Z) (ds : list Z) (a : Z) :
  (forall value c, isDigit c = true -> step value c = wrap32 (value * base + digitValue c)) ->
  Forall (fun c => isDigit c = true) ds ->
  foldl step (wrap32 a) ds = wrap32 (foldNumber base a ds).
Proof.
  intros Hstep. revert a. induction ds as [| c ds IH]; intros a Hds; [done |].
  apply Forall_cons_1 in Hds as [Hc Hds]. simpl. rewrite (Hstep _ _ Hc), wrap32_step.
  by apply IH.
Qed.

(** The three spellings of a numeric reference: the characters before the
    digits, the digits and the base. *)
Inductive NumericSyntax : list Z -> (Z -> bool) -> Z -> Prop :=
  | decimalSyntax : NumericSyntax [ch "#"] isDecimalDigit 10
  | hexLowerSyntax : NumericSyntax [ch "#"; ch "x"] isHexDigit 16
  | hexUpperSyntax : NumericSyntax [ch "#"; ch "X"] isHexDigit 16.

Lemma spanList_all (f : Z -> bool) (ds rest : list Z) (c : Z) :
  Forall (fun c => f c = true) ds -> f c = false -> spanList f (ds ++ c :: rest) = (ds, c :: rest).
Proof.
  intros Hds Hc. induction Hds as [| d ds Hd _ IH]; simpl; [by rewrite Hc |].
  by rewrite Hd, IH.
Qed.

Definition semicolon (c : Z) : nat := if c =? ch ";" then 1 else 0.

Lemma reference_numeric (T : EntityTable) (add : Z) (w ds rest : list Z) (isDigit : Z -> bool)
    (base c : Z) :
  NumericSyntax w isDigit base -> ds <> [] -> Forall (fun c => isDigit c = true) ds ->
  isDigit c = false -> allowedCharacter add ->
  exists v, legalEntityFor (wrap32 (foldNumber base 0 ds)) = Some v /\
    reference T add (w ++ ds ++ c :: rest) =
      Some (Decoded (encodeUChar32 v),
            (length (w ++ ds) + semicolon c)%nat, 0%nat).
Proof.
  intros Hs Hne Hds Hc Ha. destruct (legalEntityFor_total (wrap32 (foldNumber base 0 ds))) as [v Hv].
  exists v. split; [done |].
  assert (Hadd : negb (add =? 0) && (ch "#" =? add) = false)
    by (destruct Ha as [-> | [-> | [-> | ->]]]; done).
  assert (Hnum : forall step n, (forall value c, isDigit c = true ->
      step value c = wrap32 (value * base + digitValue c)) ->
    refNumeric isDigit step n (ds ++ c :: rest) =
      Some (Decoded (encodeUChar32 v), (n + length ds + semicolon c)%nat, 0%nat)).
  { intros step n Hstep. unfold refNumeric. rewrite (spanList_all _ _ _ _ Hds Hc).
    pose proof (accumulator base isDigit step ds 0 Hstep Hds) as Hacc.
    change (wrap32 0) with 0 in Hacc. rewrite Hacc, Hv. simpl. do 3 f_equal.
    unfold semicolon. destruct (c =? ch ";"); lia. }
  destruct ds as [| d ds]; [done |]. pose proof (Forall_cons_1 _ _ _ Hds) as [Hd _].
  destruct Hs; unfold reference; simpl app; cbv beta iota; rewrite Hadd; cbn -[refHex refNumeric semicolon].
  - replace ((d =? ch "x") || (d =? ch "X")) with false.
    2: { unfold isDecimalDigit in Hd. bool_to_prop. symmetry. apply orb_false_iff. lia. }
    rewrite Hd. exact (Hnum _ 1%nat decimalStep_value).
  - unfold refHex. rewrite Hd. exact (Hnum _ 2%nat hexStep_value).
  - unfold refHex. rewrite Hd. exact (Hnum _ 2%nat hexStep_value).
Qed.

(** ** Encodings *)

(** The code points of a UTF-16 text; a unit that is not part of a pair stands
    for itself. *)
Fixpoint codePoints (l : list Z) : list Z :=
  match l with
  | a :: ((b :: l') as l1) =>
      if (0xD800 <=? a) && (a <? 0xDC00) && (0xDC00 <=? b) && (b <? 0xE000)
      then 0x10000 + (a - 0xD800) * 1024 + (b - 0xDC00) :: codePoints l'
      else a :: codePoints l1
  | [a] => [a]
  | [] => []
  end.

(** ** The theorems *)

(** C8: Searching any text never leaves the table, reports the longest entity that
    the text starts with, and is still running exactly while some entity starts
    with the text. *)
Theorem search_longest (T : EntityTable) (text : list Z) :
  EntityTableOk T ->
  exists s, advanceAll T text (newSearch T) = Some s /\
    longestMatch T text (m_mostRecentMatch s) /\
    (isEntityPrefix s = true <->
     text = [] \/ exists e, e ∈ staticEntityTable T /\ text `prefix_of` entity e).
Proof.
  intros HT. destruct (advanceAll_searching T HT text [] (newSearch T)) as (s & E & Hs); [by left |].
  exists s. split; [done |]. simpl in Hs. destruct (isEntityPrefix s) eqn:Ep.
  - split; [by apply searching_match |]. split; [intros _ | done].
    destruct Hs as [[-> _] | [Hne (_ & _ & i & j & _ & _ & Hij & Hj & Hr)]]; [by left | right].
    destruct (lookup_lt_is_Some_2 (staticEntityTable T) i ltac:(lia)) as [e He].
    exists e. split; [by eapply list_elem_of_lookup_2 |]. by apply (Hr i e He).
  - destruct Hs as (u1 & c & u2 & -> & _ & Hm & Hn).
    assert (Hn2 : forall e, e ∈ staticEntityTable T -> ~ (u1 ++ c :: u2) `prefix_of` entity e).
    { intros e He Hp. apply (Hn e He). etrans; [| exact Hp]. exists u2. by rewrite <- app_assoc. }
    assert (Hcut : forall e, e ∈ staticEntityTable T ->
      entity e `prefix_of` u1 ++ c :: u2 <-> entity e `prefix_of` u1 ++ [c]).
    { intros e He. split.
      - intros Hp. destruct (prefix_weak_total (entity e) (u1 ++ [c]) (u1 ++ c :: u2) Hp) as [? | Hq];
          [exists u2; by rewrite <- app_assoc | done |]. by destruct (Hn e He).
      - intros Hp. etrans; [exact Hp |]. exists u2. by rewrite <- app_assoc. }
    split.
    + destruct (m_mostRecentMatch s) as [e |]; simpl in *.
      * destruct Hm as (He & Hp & Hl). split; [done | split; [by apply Hcut |]].
        intros e' He' Hp'. apply Hl; [done | by apply Hcut].
      * intros e He Hp. apply (Hm e He). by apply Hcut.
    + split; [done |]. intros [H | (e & He & Hp)]; [by destruct u1 | by destruct (Hn2 e He)].
Qed.

(** A numeric reference followed by a character that is not a digit is consumed,
    with its semicolon if it has one, and decodes to the UTF-16 form of the code
    point HTML5 assigns to its number, for every number below 2^31. *)
Theorem numeric_reference (T : EntityTable) (add : Z) (w ds rest : list Z) (isDigit : Z -> bool)
    (base c n : Z) (closed : bool) :
  EntityTableOk T -> allowedCharacter add ->
  NumericSyntax w isDigit base -> ds <> [] -> Forall (fun c => isDigit c = true) ds ->
  isDigit c = false -> foldNumber base 0 ds < 2 ^ 31 ->
  consumeHTMLEntity T add (mkQ (w ++ ds ++ c :: rest) 0 closed n) =
    Ok (Decoded (utf16 (html5CodePoint (foldNumber base 0 ds))),
        let used := (length (w ++ ds) + semicolon c)%nat in
        mkQ (drop used (w ++ ds ++ c :: rest)) 0 closed (n + Z.of_nat used)).
Proof.
  intros HT Ha Hs Hne Hds Hc Hlt.
  destruct (reference_numeric T add w ds rest isDigit base c Hs Hne Hds Hc Ha) as (v & Hv & Hr).
  destruct (reference_ok T HT add (w ++ ds ++ c :: rest) closed n Ha) as (r & k & j & Hr2 & ->).
  rewrite Hr in Hr2. injection Hr2 as <- <- <-.
  assert (0 <= foldNumber base 0 ds).
  { apply foldNumber_le; [by destruct Hs | | done]. eapply list.Forall_impl; [exact Hds |].
    destruct Hs; [| done | done]. intros d Hd. unfold isHexDigit. unfold isDecimalDigit in Hd. by rewrite Hd. }
  rewrite wrap32_small, legalEntityFor_spec in Hv by lia. injection Hv as <-.
  do 4 f_equal. apply encodeUChar32_spec. unfold html5CodePoint.
  destruct (_ || _) eqn:E; [lia |]. bool_to_prop. destruct ((0x80 <=? _) && _) eqn:E2; [| lia]. bool_to_prop.
  destruct (windowsLatin1ExtensionArray !! _) as [x |] eqn:Ex; [simpl | simpl; lia].
  assert (Forall (fun x => 0 <= x <= 0x10FFFF) windowsLatin1ExtensionArray) as Hall
    by (repeat (constructor; [lia |]); constructor).
  by apply (Forall_lookup_1 _ _ _ _ Hall Ex).
Qed.

(** Beyond 2^31 the number is taken modulo 2^32: the decoded units are those of
    the wrapped value, whatever the digits. *)
Theorem numeric_reference_wraps (T : EntityTable) (add : Z) (w ds rest : list Z)
    (isDigit : Z -> bool) (base c n : Z) (closed : bool) :
  EntityTableOk T -> allowedCharacter add ->
  NumericSyntax w isDigit base -> ds <> [] -> Forall (fun c => isDigit c = true) ds ->
  isDigit c = false ->
  exists v q, legalEntityFor (wrap32 (foldNumber base 0 ds)) = Some v /\
    consumeHTMLEntity T add (mkQ (w ++ ds ++ c :: rest) 0 closed n) = Ok (Decoded (encodeUChar32 v), q).
Proof.
  intros HT Ha Hs Hne Hds Hc.
  destruct (reference_numeric T add w ds rest isDigit base c Hs Hne Hds Hc Ha) as (v & Hv & Hr).
  destruct (reference_ok T HT add (w ++ ds ++ c :: rest) closed n Ha) as (r & k & j & Hr2 & ->).
  rewrite Hr in Hr2. injection Hr2 as <- <- <-. eauto.
Qed.

(** So a number far outside Unicode is not replaced by U+FFFD: [&#x100000041;]
    decodes to the letter A, and [&#xFCA10000;] to a NUL followed by an unpaired
    trail surrogate. *)
Theorem numeric_reference_overflow (rest : list Z) (closed : bool) (n : Z) :
  (exists q, consumeHTMLEntity demoTable 0
     (mkQ (units "#x100000041;" ++ rest) 0 closed n) = Ok (Decoded [ch "A"], q)) /\
  (exists q, consumeHTMLEntity demoTable 0
     (mkQ (units "#xFCA10000;" ++ rest) 0 closed n) = Ok (Decoded [0; 0xDC00], q)) /\
  0x10FFFF < foldNumber 16 0 (units "100000041") /\ 0x10FFFF < foldNumber 16 0 (units "FCA10000").
Proof.
  assert (H : forall ds v, units ds <> [] -> Forall (fun c => isHexDigit c = true) (units ds) ->
    legalEntityFor (wrap32 (foldNumber 16 0 (units ds))) = Some v ->
    exists q, consumeHTMLEntity demoTable 0
      (mkQ ([ch "#"; ch "x"] ++ units ds ++ ch ";" :: rest) 0 closed n) = Ok (Decoded (encodeUChar32 v), q)).
  { intros ds v Hne Hds Hv.
    destruct (reference_numeric demoTable 0 _ (units ds) rest isHexDigit 16 (ch ";")
      hexLowerSyntax Hne Hds eq_refl)
      as (v' & Hv' & Hr); [by left |]. rewrite Hv in Hv'. injection Hv' as <-.
    destruct (reference_ok demoTable demoTable_ok 0 ([ch "#"; ch "x"] ++ units ds ++ ch ";" :: rest) closed n
      (or_introl eq_refl)) as (r & k & j & Hr2 & E).
    rewrite Hr in Hr2. injection Hr2 as <- <- <-. rewrite E. eauto. }
  split; [| split; [| by vm_compute]].
  - apply (H "100000041"%string (ch "A")); [done | by repeat constructor | done].
  - apply (H "FCA10000"%string (-56557568)); [done | by repeat constructor | done].
Qed.

(** C7: A named reference follows the longest-match rule: it is undecided only while
    all the text could still be the beginning of an entity's name; otherwise the
    longest entity the text starts with decides, and in an attribute a match
    without semicolon before an alphanumeric or an equals sign is not taken. *)
Theorem named_reference (T : EntityTable) (add c n : Z) (text : list Z) (closed : bool) :
  EntityTableOk T -> allowedCharacter add -> isASCIILower c || isASCIIUpper c = true ->
  exists r k j, consumeHTMLEntity T add (mkQ (c :: text) 0 closed n) =
      Ok (r, afterOutcome k j (mkQ (c :: text) 0 closed n)) /\
    (r = NotEnough ->
       k = 0%nat /\ exists e, e ∈ staticEntityTable T /\ (c :: text) `prefix_of` entity e) /\
    (r <> NotEnough ->
       exists m, longestMatch T (c :: text) m /\ namedOutcome add (c :: text) m r /\
         forall d, r = Decoded d -> exists e, m = Some e /\ k = entryLength e).
Proof.
  intros HT Ha Hc. destruct (reference_ok T HT add (c :: text) closed n Ha) as (r & k & j & Hr & ->).
  exists r, k, j. split; [done |].
  assert (Hn : refNamed T add (c :: text) = Some (r, k, j)).
  { rewrite <- Hr. unfold reference. rewrite Hc.
    assert (Hrange : 65 <= c <= 122).
    { unfold isASCIILower, isASCIIUpper in Hc. apply orb_true_iff in Hc as [Hc | Hc]; bool_to_prop; lia. }
    clear Hc. destruct (_ || _) eqn:E1.
    { repeat (apply orb_true_iff in E1 as [E1 | E1]); bool_to_prop; lia. }
    destruct (_ && _) eqn:E2.
    { bool_to_prop. subst add. destruct Ha as [? | [? | [? | ?]]]; lia. }
    by replace (c =? ch "#") with false by lia. }
  split; [intros -> | by apply (refNamed_decides T HT add _ r k j)].
  unfold refNamed in Hn. destruct (spanSearch_ok T HT (c :: text) [] (newSearch T)) as
    (s & u & v & E & Huv & Hp & _); [by left |]. rewrite E in Hn. simpl in Hn.
  destruct v as [| d v].
  - injection Hn as <- _. split; [done |]. rewrite app_nil_r in Huv. subst u.
    by apply Hp.
  - destruct (m_mostRecentMatch s) as [e |]; [| done].
    destruct (lastCharacter e); simpl in Hn; [| done].
    destruct (_ !! entryLength e); simpl in Hn; [| done]. by destruct (_ || _) in Hn.
Qed.

(** C6: A chunk boundary inside or behind a reference does not matter: if the first
    chunk leaves it undecided, parsing again after the second has been appended
    gives what parsing the whole text gives; if the first chunk decides it, the
    whole text decides it the same way and leaves the rest and the second chunk. *)
Theorem reference_chunks (T : EntityTable) (add n : Z) (w B : list Z) (r : CharRef) (q1 : Q) :
  EntityTableOk T -> allowedCharacter add -> B <> [] ->
  consumeHTMLEntity T add (mkQ w 0 false n) = Ok (r, q1) ->
  exists q2, q_append B q1 = Some q2 /\
    (r = NotEnough ->
       consumeHTMLEntity T add q2 = consumeHTMLEntity T add (mkQ (w ++ B) 0 false n)) /\
    (r <> NotEnough -> consumeHTMLEntity T add (mkQ (w ++ B) 0 false n) = Ok (r, q2)).
Proof.
  intros HT Ha HB E. destruct (reference_ok T HT add w false n Ha) as (r' & k & j & Hr & E').
  rewrite E in E'. injection E' as -> ->.
  eexists. split; [done |]. pose proof (reference_outcome T HT add w _ Hr) as Ho. simpl in Ho.
  unfold afterOutcome. simpl.
  assert (Hk : (k <= length w)%nat) by (destruct r'; lia).
  split.
  - intros ->. destruct Ho as (-> & _ & _). rewrite Z.add_0_r, drop_0.
    by apply (consume_resume T HT add w B false n 0 j).
  - intros Hne. pose proof (reference_extend T add w B r' k j Hr Hne) as Hx.
    destruct (reference_ok T HT add (w ++ B) false n Ha) as (r2 & k2 & j2 & Hr2 & ->).
    rewrite Hx in Hr2. injection Hr2 as <- <- <-. unfold afterOutcome. simpl.
    by rewrite drop_app_le by done.
Qed.

(** Decoding the units the parser appends for a code point gives the code point
    back, and every unit fits 16 bits. *)
Theorem encode_decode (v : Z) :
  0 <= v <= 0x10FFFF ->
  codePoints (encodeUChar32 v) = [v] /\ Forall (fun u => 0 <= u < 2 ^ 16) (encodeUChar32 v).
Proof.
  intros Hv. rewrite (encodeUChar32_spec v Hv). unfold utf16.
  destruct (v <? 0x10000) eqn:E; bool_to_prop.
  { split; [done |]. repeat constructor; lia. }
  pose proof (Z.mod_pos_bound (v - 0x10000) 1024 ltac:(lia)).
  pose proof (Z.div_mod (v - 0x10000) 1024 ltac:(lia)) as Hd.
  assert (0 <= (v - 0x10000) / 1024 < 1024) by lia.
  simpl. split; [| repeat constructor; lia].
  replace (_ && _) with true; [f_equal; lia |].
  symmetry. rewrite !andb_true_iff, !Z.leb_le, !Z.ltb_lt. lia.
Qed.

(** As long as the numbers in the text are below 2^31, a decoded
    reference is made of 16-bit units other than NUL. *)
Theorem reference_no_nul (T : EntityTable) (add n : Z) (text d : list Z) (q : Q) (closed : bool) :
  EntityTableOk T -> allowedCharacter add -> numbersFit text = true ->
  consumeHTMLEntity T add (mkQ text 0 closed n) = Ok (Decoded d, q) ->
  Forall (fun u => 0 < u < 2 ^ 16) d.
Proof.
  intros HT Ha Hs E. destruct (reference_ok T HT add text closed n Ha) as (r & k & j & Hr & E').
  rewrite E in E'. injection E' as <- _. by apply (reference_units T HT add text d k j).
Qed.

(** *** Names without their ampersand *)

Lemma searchName_ok (T : EntityTable) (name w : list Z) (s : HTMLEntitySearch) :
  EntityTableOk T -> searching T w s ->
  exists o, searchName T name s = Some o /\
    match o with
    | Some s' => searching T (w ++ name) s'
    | None => forall e, e ∈ staticEntityTable T -> ~ (w ++ name) `prefix_of` entity e
    end.
Proof.
  intros HT. revert w s. induction name as [| c name IH]; intros w s Hs; simpl.
  { exists (Some s). by rewrite app_nil_r. }
  destruct (advance_ok T HT w c s Hs) as (s1 & -> & Hst & Hnext). simpl.
  destruct (isEntityPrefix s1) eqn:E; simpl.
  - destruct (IH (w ++ [c]) s1 (Hnext eq_refl)) as (o & -> & Ho). exists o.
    by rewrite <- app_assoc in Ho.
  - exists None. split; [done |]. unfold stepped in Hst. rewrite E in Hst.
    destruct Hst as (_ & _ & _ & Hn). intros e He Hp. apply (Hn e He).
    etrans; [| exact Hp]. exists name. by rewrite <- app_assoc.
Qed.

Lemma appendUChar32_ok (v : Z) :
  0 <= v <= 0x10FFFF -> appendUChar32ToUCharArray v = Some (utf16 v).
Proof.
  intros Hv. rewrite <- encodeUChar32_spec by done. unfold appendUChar32ToUCharArray, encodeUChar32.
  unfold U_IS_BMP. rewrite (Z.mod_small v) by lia. destruct (v <=? 0xFFFF) eqn:E; [| done].
  bool_to_prop. rewrite (Z.mod_small v) by lia. by rewrite Z.eqb_refl.
Qed.

(** Decoding a name looks up the entity of that name with a semicolon and gives
    the UTF-16 form of its one or two code points, nothing if there is none. *)
Theorem decode_name (T : EntityTable) (name : list Z) :
  EntityTableOk T ->
  (forall e i, e ∈ staticEntityTable T -> entity e !! i = Some (ch ";") -> S i = entryLength e) ->
  (forall e, e ∈ staticEntityTable T -> entity e = name ++ [ch ";"] ->
     decodeNamedEntityToUCharArray T name =
       Some (utf16 (firstValue e) ++ (if secondValue e =? 0 then [] else utf16 (secondValue e)))) /\
  ((forall e, e ∈ staticEntityTable T -> entity e <> name ++ [ch ";"]) ->
     decodeNamedEntityToUCharArray T name = Some []).
Proof.
  intros HT Hsemi. unfold decodeNamedEntityToUCharArray.
  destruct (searchName_ok T name [] (newSearch T) HT (or_introl (conj eq_refl eq_refl))) as (o & -> & Ho).
  simpl in Ho. cbn [mbind option_bind].
  assert (Hexact : forall e, e ∈ staticEntityTable T -> (name ++ [ch ";"]) `prefix_of` entity e ->
    entity e = name ++ [ch ";"]).
  { intros e He [v Hv]. specialize (Hsemi e (length name) He).
    unfold entryLength in Hsemi. rewrite Hv, !length_app in Hsemi. simpl in Hsemi.
    rewrite lookup_app_l, lookup_app_r, Nat.sub_diag in Hsemi by (rewrite ?length_app; simpl; lia).
    specialize (Hsemi eq_refl). destruct v; [by rewrite app_nil_r in Hv | simpl in Hsemi; lia]. }
  destruct o as [s |].
  2: { split; [| done]. intros e He Heq. destruct (Ho e He). by exists [ch ";"]. }
  destruct (advance_ok T HT name (ch ";") s Ho) as (s1 & -> & Hst & Hnext). cbn [mbind option_bind].
  destruct (isEntityPrefix s1) eqn:E; cbn [negb]; unfold stepped in Hst; rewrite E in Hst.
  2: { split; [| done]. destruct Hst as (_ & _ & _ & Hn).
       intros e He Heq. destruct (Hn e He). by rewrite Heq. }
  destruct Hst as (_ & Hm & i & j & _ & _ & Hij & Hj & Hr).
  destruct (lookup_lt_is_Some_2 (staticEntityTable T) i ltac:(lia)) as [e He].
  assert (Hin : e ∈ staticEntityTable T) by by eapply list_elem_of_lookup_2.
  assert (Heq : entity e = name ++ [ch ";"]).
  { apply (Hexact e Hin). by apply (Hr i e He). }
  assert (Hbest : longestMatch T (name ++ [ch ";"]) (Some e)).
  { split; [done | split; [by rewrite Heq |]]. intros e' _ Hp'%prefix_length.
    unfold entryLength. by rewrite Heq. }
  destruct (m_mostRecentMatch s1) as [e1 |]; [| by destruct (Hm e Hin); rewrite Heq].
  pose proof (longest_unique T HT _ e1 e Hm Hbest) as He1. rewrite He1. clear Hm He1 e1. cbn [mbind option_bind].
  split; [| by intros Hno; destruct (Hno e Hin)].
  intros e' He' Heq'. assert (e' = e) as ->.
  { apply (longest_unique T HT (name ++ [ch ";"])); [| done].
    split; [done | split; [by rewrite Heq' |]]. intros e2 _ Hp'%prefix_length.
    unfold entryLength. by rewrite Heq'. }
  destruct (proj1 (list.Forall_forall _ _) (table_values T HT) e Hin) as [H1 H2].
  rewrite (appendUChar32_ok (firstValue e)) by lia. cbn [mbind option_bind].
  destruct (secondValue e =? 0); [by rewrite app_nil_r |].
  rewrite (appendUChar32_ok (secondValue e)) by lia. done.
Qed.

(** ** The theorems on the small table *)

Lemma search_longest_witness :
  EntityTableOk demoTable /\
  exists s, advanceAll demoTable (units "notit") (newSearch demoTable) = Some s /\
    longestMatch demoTable (units "notit") (m_mostRecentMatch s) /\
    option_map entity (m_mostRecentMatch s) = Some (units "not").
Proof.
  split; [exact demoTable_ok |].
  destruct (search_longest demoTable (units "notit") demoTable_ok) as (s & E & Hm & _).
  exists s. split; [exact E | split; [exact Hm |]]. vm_compute in E. injection E as <-. reflexivity.
Defined.

Lemma numeric_reference_witness :
  consumeHTMLEntity demoTable 0 (mkQ (units "#x80;b") 0 false 0)
    = Ok (Decoded [0x20AC], mkQ (units "b") 0 false 5).
Proof.
  apply (numeric_reference demoTable 0 [ch "#"; ch "x"] (units "80") (units "b") isHexDigit 16 (ch ";") 0
           false demoTable_ok);
    [left; reflexivity | constructor | discriminate | repeat constructor | reflexivity | reflexivity].
Defined.

Lemma numeric_reference_wraps_witness :
  exists v q, legalEntityFor (wrap32 (foldNumber 16 0 (units "100000041"))) = Some v /\
    consumeHTMLEntity demoTable 0 (mkQ (units "#x100000041;b") 0 false 0)
      = Ok (Decoded (encodeUChar32 v), q).
Proof.
  apply (numeric_reference_wraps demoTable 0 [ch "#"; ch "x"] (units "100000041") (units "b") isHexDigit
           16 (ch ";") 0 false demoTable_ok);
    [left; reflexivity | constructor | discriminate | repeat constructor | reflexivity].
Defined.

Lemma named_reference_witness :
  exists r k j, consumeHTMLEntity demoTable 34 (mkQ (units "ampx") 0 false 0) =
      Ok (r, afterOutcome k j (mkQ (units "ampx") 0 false 0)) /\
    (r <> NotEnough -> exists m, longestMatch demoTable (units "ampx") m /\
       namedOutcome 34 (units "ampx") m r).
Proof.
  destruct (named_reference demoTable 34 (ch "a") 0 (units "mpx") false demoTable_ok)
    as (r & k & j & E & _ & H); [right; left; reflexivity | reflexivity |].
  exists r, k, j. split; [exact E |]. intros Hne. destruct (H Hne) as (m & Hm & Ho & _).
  exists m. split; [exact Hm | exact Ho].
Defined.

Lemma reference_chunks_witness :
  exists r q1 q2, consumeHTMLEntity demoTable 0 (mkQ (units "no") 0 false 0) = Ok (r, q1) /\
    q_append (units "tin;x") q1 = Some q2 /\
    (r = NotEnough -> consumeHTMLEntity demoTable 0 q2
       = consumeHTMLEntity demoTable 0 (mkQ (units "notin;x") 0 false 0)) /\ r = NotEnough.
Proof.
  destruct (consumeHTMLEntity demoTable 0 (mkQ (units "no") 0 false 0)) as [[r q1] | |] eqn:E;
    [| vm_compute in E; discriminate | vm_compute in E; discriminate].
  destruct (reference_chunks demoTable 0 0 (units "no") (units "tin;x") r q1 demoTable_ok)
    as (q2 & Hq2 & H & _); [left; reflexivity | discriminate | exact E |].
  exists r, q1, q2. split; [reflexivity | split; [exact Hq2 | split; [exact H |]]].
  vm_compute in E. injection E as <- _. reflexivity.
Defined.

Lemma encode_decode_witness :
  codePoints (encodeUChar32 0x1F600) = [0x1F600] /\
  Forall (fun u => 0 <= u < 2 ^ 16) (encodeUChar32 0x1F600).
Proof. apply (encode_decode 0x1F600). split; discriminate. Defined.

Lemma reference_no_nul_witness :
  exists d q, consumeHTMLEntity demoTable 0 (mkQ (units "zscr;") 0 true 0) = Ok (NotEnough, q) /\
    consumeHTMLEntity demoTable 0 (mkQ (units "zscr; ") 0 true 0) = Ok (Decoded d, mkQ (units " ") 0 true 5) /\
    Forall (fun u => 0 < u < 2 ^ 16) d.
Proof.
  exists [0xD835; 0xDCCF]. eexists. split; [vm_compute; reflexivity | split; [vm_compute; reflexivity |]].
  apply (reference_no_nul demoTable 0 0 (units "zscr; ") [0xD835; 0xDCCF] (mkQ (units " ") 0 true 5) true
           demoTable_ok); [left; reflexivity | reflexivity | vm_compute; reflexivity].
Defined.

Lemma demoTable_semicolons (e : HTMLEntityTableEntry) (i : nat) :
  e ∈ staticEntityTable demoTable -> entity e !! i = Some (ch ";") -> S i = entryLength e.
Proof.
  simpl. intros He. repeat (apply elem_of_cons in He as [-> | He];
    [do 6 (destruct i as [| i]; [vm_compute; congruence |]); vm_compute; congruence |]). by apply not_elem_of_nil in He.
Qed.

Lemma decode_name_witness :
  decodeNamedEntityToUCharArray demoTable (units "nvlt") = Some [60; 0x20D2] /\
  decodeNamedEntityToUCharArray demoTable (units "not") = Some [].
Proof.
  split.
  - apply (decode_name demoTable (units "nvlt") demoTable_ok demoTable_semicolons)
      with (e := mkEntry (units "nvlt;") 60 0x20D2); [| reflexivity].
    simpl. do 4 right. left.
  - apply (decode_name demoTable (units "not") demoTable_ok demoTable_semicolons).
    intros e He Hx. simpl in He. repeat (apply elem_of_cons in He as [-> | He]; [discriminate |]).
    by apply not_elem_of_nil in He.
Defined.
