(* ===== verification/InputStreamPreprocessor.v ===== *)
(** * Newline and NUL preprocessing: html/parser/InputStreamPreprocessor.h

    [peek] computes the next input character from the head of the input buffer:
    CR and CRLF become LF, NUL is skipped, replaced by U+FFFD or kept as the
    end-of-file marker.  [shouldSkipNullCharacters] is the tokenizer's callback;
    it is a boolean here because the tokenizer's state does not change during a
    peek. *)

From S2P Require Import Prelude SegmentedString CharSource.

Definition kEndOfFileMarker : Z := 0.

Record InputStreamPreprocessor := mkPreprocessor {
  m_nextInputCharacter : Z;
  m_skipNextNewLine : bool }.

Definition set_next (c : Z) (p : InputStreamPreprocessor) : InputStreamPreprocessor :=
  mkPreprocessor c (m_skipNextNewLine p).
Definition set_skip (b : bool) (p : InputStreamPreprocessor) : InputStreamPreprocessor :=
  mkPreprocessor (m_nextInputCharacter p) b.

Definition reset (skipNextNewLine : bool) : InputStreamPreprocessor :=
  mkPreprocessor 0 skipNextNewLine.

(** ['\n' | '\r' | '\0'] *)
Definition specialCharacterMask : Z := Z.lor (Z.lor 10 13) 0.

Section Preprocessor.
Context {S : Type} `{CharSource S}.

Definition src_advancePastNonNewline (s : S) : option S :=
  ASSERT (negb (src_currentChar s =? 10));; src_advance s.

Definition shouldTreatNullAsEndOfFileMarker (s : S) : bool :=
  src_isClosed s && (src_length s =? 1).

(** One round of [processNextInputCharacter] after the newline has been dealt
    with; [again] is the jump to [ProcessAgain]. *)
Definition processCharacter (again : InputStreamPreprocessor -> S
      -> result (bool * InputStreamPreprocessor * S))
    (shouldSkipNullCharacters : bool) (p : InputStreamPreprocessor) (s : S)
  : result (bool * InputStreamPreprocessor * S) :=
  if m_nextInputCharacter p =? 13 then Ok (true, mkPreprocessor 10 true, s) else
  let p1 := set_skip false p in
  if (m_nextInputCharacter p1 =? 0) && negb (shouldTreatNullAsEndOfFileMarker s) then
    if shouldSkipNullCharacters then
      s1 ← lift (src_advancePastNonNewline s);
      if src_isEmpty s1 then Ok (false, p1, s1) else
      again (set_next (src_currentChar s1) p1) s1
    else Ok (true, set_next 0xFFFD p1, s)
  else Ok (true, p1, s).

Fixpoint processNextInputCharacter (fuel : nat) (shouldSkipNullCharacters : bool)
    (p : InputStreamPreprocessor) (s : S) : result (bool * InputStreamPreprocessor * S) :=
  match fuel with
  | O => OutOfFuel
  | Datatypes.S fuel' =>
      let again := processNextInputCharacter fuel' shouldSkipNullCharacters in
      lift (ASSERT (m_nextInputCharacter p =? src_currentChar s));;
      if (m_nextInputCharacter p =? 10) && m_skipNextNewLine p then
        let p1 := set_skip false p in
        s1 ← lift (src_advancePastNewlineAndUpdateLineNumber s);
        if src_isEmpty s1 then Ok (false, p1, s1) else
        processCharacter again shouldSkipNullCharacters (set_next (src_currentChar s1) p1) s1
      else processCharacter again shouldSkipNullCharacters p s
  end.

(** Every round but the last drops a NUL: the length of the input plus one is
    enough fuel. *)
Definition peek (shouldSkipNullCharacters : bool) (p : InputStreamPreprocessor) (s : S)
  : result (bool * InputStreamPreprocessor * S) :=
  let p1 := set_next (src_currentChar s) p in
  if negb (Z.land (m_nextInputCharacter p1) (Z.lnot specialCharacterMask) =? 0)
  then Ok (true, set_skip false p1, s)
  else processNextInputCharacter (Datatypes.S (Z.to_nat (src_length s))) shouldSkipNullCharacters p1 s.

(** advance(source) *)
Definition advance (shouldSkipNullCharacters : bool) (p : InputStreamPreprocessor) (s : S)
  : result (bool * InputStreamPreprocessor * S) :=
  s1 ← lift (src_advanceAndUpdateLineNumber s);
  if src_isEmpty s1 then Ok (false, p, s1) else peek shouldSkipNullCharacters p s1.

End Preprocessor.
