(* ===== verification/HTMLInputStream.v ===== *)
(** * The input of the parser: html/parser/HTMLInputStream.h

    The stream is the current buffer [m_first] and a pointer [m_last] to the
    buffer network data goes to.  While a script runs, an [InsertionPointRecord]
    on the C++ stack holds the text after the insertion point in its [m_next];
    [m_last] then points into the record of the outermost script.  The model
    keeps the pointer: the buffers outside the stream live in a store, a record
    knows the address of its [m_next], and [m_last] is either the address of
    [m_first] or one of those.

    [Text] is what the stream stands for, a stack of texts, and
    [stream_refines] says that every operation does to the stream what the
    stack operation does. *)

From S2P Require Import Prelude SegmentedString CharSource SegmentedStringSpec InputStreamPreprocessor.
From stdpp Require Import gmap.
Open Scope Z_scope.

(** ** The stream and the buffers it may point to *)

Inductive Pointer := m_first_ptr | m_next_ptr (p : nat).

#[export] Instance Pointer_eq_dec : EqDecision Pointer.
Proof. solve_decision. Defined.

Record HTMLInputStream := mkStream {
  m_first : SegmentedString;
  m_last : Pointer;
  memory : gmap nat SegmentedString }.

Definition newInputStream : HTMLInputStream := mkStream emptySegmentedString m_first_ptr ∅.

Definition deref (p : Pointer) (st : HTMLInputStream) : option SegmentedString :=
  match p with m_first_ptr => Some (m_first st) | m_next_ptr a => memory st !! a end.

Definition store (p : Pointer) (s : SegmentedString) (st : HTMLInputStream) : HTMLInputStream :=
  match p with
  | m_first_ptr => mkStream s (m_last st) (memory st)
  | m_next_ptr a => mkStream (m_first st) (m_last st) (<[a := s]> (memory st))
  end.

Definition set_last (p : Pointer) (st : HTMLInputStream) : HTMLInputStream :=
  mkStream (m_first st) p (memory st).

(** A member function called through a pointer. *)
Definition update (p : Pointer) (f : SegmentedString -> option SegmentedString)
    (st : HTMLInputStream) : option HTMLInputStream :=
  s ← deref p st; s' ← f s; Some (store p s' st).

Definition appendToEnd (str : SegmentedString) (st : HTMLInputStream) : option HTMLInputStream :=
  update (m_last st) (SegmentedString.append str) st.

Definition insertAtCurrentInsertionPoint (str : SegmentedString) (st : HTMLInputStream)
  : option HTMLInputStream :=
  update m_first_ptr (SegmentedString.append str) st.

Definition hasInsertionPoint (st : HTMLInputStream) : bool :=
  bool_decide (m_first_ptr <> m_last st).

Definition markEndOfFile (st : HTMLInputStream) : option HTMLInputStream :=
  eof ← ofString (mkString [kEndOfFileMarker] false);
  st1 ← update (m_last st) (SegmentedString.append eof) st;
  update (m_last st1) SegmentedString.close st1.

Definition closeWithoutMarkingEndOfFile (st : HTMLInputStream) : option HTMLInputStream :=
  update (m_last st) SegmentedString.close st.

Definition haveSeenEndOfFile (st : HTMLInputStream) : option bool :=
  s ← deref (m_last st) st; Some (m_closed s).

(** [splitInto(next)]: the two assignments are those of SegmentedString. *)
Definition splitInto (next : nat) (st : HTMLInputStream) : option HTMLInputStream :=
  st1 ← update (m_next_ptr next) (fun old => assign old (m_first st)) st;
  st2 ← update m_first_ptr (fun old => assign old emptySegmentedString) st1;
  Some (if bool_decide (m_last st2 = m_first_ptr) then set_last (m_next_ptr next) st2 else st2).

Definition mergeFrom (next : nat) (st : HTMLInputStream) : option HTMLInputStream :=
  n ← deref (m_next_ptr next) st;
  st1 ← update m_first_ptr (SegmentedString.append n) st;
  let st2 := if bool_decide (m_last st1 = m_next_ptr next) then set_last m_first_ptr st1 else st1 in
  if m_closed n then update m_first_ptr SegmentedString.close st2 else Some st2.

(** ** InsertionPointRecord *)

Record InsertionPointRecord := mkRecord {
  m_next : nat;
  m_line : Z;
  m_column : Z }.

(** The constructor, of a record whose [m_next] is at address [p]. *)
Definition newInsertionPointRecord (p : nat) (st : HTMLInputStream)
  : option (InsertionPointRecord * HTMLInputStream) :=
  let line := currentLine (m_first st) in
  let column := currentColumn (m_first st) in
  st1 ← splitInto p (store (m_next_ptr p) emptySegmentedString st);
  Some (mkRecord p line column,
        store m_first_ptr (setCurrentPosition line column 0 (m_first st1)) st1).

(** The destructor; [m_next] goes away with the record. *)
Definition destroyInsertionPointRecord (r : InsertionPointRecord) (st : HTMLInputStream)
  : option HTMLInputStream :=
  let unparsedRemainderLength := lengthSS (m_first st) in
  st1 ← mergeFrom (m_next r) st;
  Some (mkStream (setCurrentPosition (m_line r) (m_column r) unparsedRemainderLength (m_first st1))
                 (m_last st1) (delete (m_next r) (memory st1))).

(** ** Sequences of operations

    The records are destroyed in the opposite order, so that the depth of the
    stack serves as the address of the next one. *)
Inductive StreamOp :=
  | AppendToEnd (str : wtfString)
  | InsertHere (str : wtfString)
  | MarkEndOfFile
  | CloseWithoutMarking
  | ReadCharacter
  | PushBack (c : Z)
  | PutBack (str : wtfString)
  | OpenInsertionPoint
  | CloseInsertionPoint.

Definition Parser : Type := HTMLInputStream * list InsertionPointRecord.

Definition streamStep (op : StreamOp) (p : Parser) : option Parser :=
  let '(st, records) := p in
  match op with
  | AppendToEnd str =>
      s ← ofString str; st1 ← appendToEnd s st; Some (st1, records)
  | InsertHere str =>
      s ← ofString str; st1 ← insertAtCurrentInsertionPoint s st; Some (st1, records)
  | MarkEndOfFile => st1 ← markEndOfFile st; Some (st1, records)
  | CloseWithoutMarking => st1 ← closeWithoutMarkingEndOfFile st; Some (st1, records)
  | ReadCharacter =>
      st1 ← update m_first_ptr advanceAndUpdateLineNumber st; Some (st1, records)
  | PushBack c => st1 ← update m_first_ptr (push c) st; Some (st1, records)
  | PutBack str =>
      st1 ← update m_first_ptr (fun s => seg ← ofString str; SegmentedString.prepend seg s) st;
      Some (st1, records)
  | OpenInsertionPoint =>
      '(r, st1) ← newInsertionPointRecord (length records) st; Some (st1, r :: records)
  | CloseInsertionPoint =>
      match records with
      | r :: rest => st1 ← destroyInsertionPointRecord r st; Some (st1, rest)
      | [] => None
      end
  end.

Fixpoint streamRun (ops : list StreamOp) (p : Parser) : option Parser :=
  match ops with [] => Some p | op :: ops' => p1 ← streamStep op p; streamRun ops' p1 end.

(** ** What the stream stands for

    The text at the insertion point, how many of its characters were pushed
    back, the texts after the insertion points from the innermost to the
    outermost, and whether the end of the file has been seen. *)
Record Text := mkText {
  t_here : list Z;
  t_pushed : nat;
  t_later : list (list Z);
  t_ended : bool }.

(** The text at the insertion point ends the document when no other follows. *)
Definition hereClosed (t : Text) : bool :=
  match t_later t with [] => t_ended t | _ :: _ => false end.

Fixpoint appendLast (w : list Z) (l : list (list Z)) : list (list Z) :=
  match l with
  | [] => []
  | [t] => [t ++ w]
  | t :: l' => t :: appendLast w l'
  end.

Definition t_append (w : list Z) (ended : bool) (t : Text) : Text :=
  match t_later t with
  | [] => mkText (t_here t ++ w) (t_pushed t) [] ended
  | l => mkText (t_here t) (t_pushed t) (appendLast w l) ended
  end.

Definition t_set_here (w : list Z) (pushed : nat) (t : Text) : Text :=
  mkText w pushed (t_later t) (t_ended t).

Definition textStep (op : StreamOp) (t : Text) : option Text :=
  match op with
  | AppendToEnd str => ASSERT (negb (t_ended t));; Some (t_append (chars str) false t)
  | InsertHere str =>
      ASSERT (negb (hereClosed t));; Some (t_set_here (t_here t ++ chars str) (t_pushed t) t)
  | MarkEndOfFile => ASSERT (negb (t_ended t));; Some (t_append [kEndOfFileMarker] true t)
  | CloseWithoutMarking => ASSERT (negb (t_ended t));; Some (t_append [] true t)
  | ReadCharacter => Some (t_set_here (tail (t_here t)) (pred (t_pushed t)) t)
  | PushBack c =>
      ASSERT (Nat.ltb (t_pushed t) 2 && negb (c =? 0));;
      Some (t_set_here (take (t_pushed t) (t_here t) ++ c :: drop (t_pushed t) (t_here t))
              (S (t_pushed t)) t)
  | PutBack str =>
      ASSERT (Nat.eqb (t_pushed t) 0);; Some (t_set_here (chars str ++ t_here t) 0 t)
  | OpenInsertionPoint => Some (mkText [] 0 (t_here t :: t_later t) (t_ended t))
  | CloseInsertionPoint =>
      match t_later t with
      | w :: l => Some (mkText (t_here t ++ w) (t_pushed t) l (t_ended t))
      | [] => None
      end
  end.

Fixpoint textRun (ops : list StreamOp) (t : Text) : option Text :=
  match ops with [] => Some t | op :: ops' => t1 ← textStep op t; textRun ops' t1 end.

(** ** The representation *)

Fixpoint chain (m : gmap nat SegmentedString) (rs : list InsertionPointRecord)
    (later : list (list Z)) (ended : bool) : Prop :=
  match rs, later with
  | [], [] => True
  | r :: rs', t :: later' =>
      m_next r = length rs' /\
      (exists s, m !! m_next r = Some s /\ almost s /\ view s = t /\
         m_closed s = match later' with [] => ended | _ => false end) /\
      chain m rs' later' ended
  | _, _ => False
  end.

Definition outermost (rs : list InsertionPointRecord) : Pointer :=
  match rs with [] => m_first_ptr | _ :: _ => m_next_ptr 0 end.

Record represents (p : Parser) (t : Text) : Prop := {
  rep_wf : wf (m_first p.1);
  rep_view : view (m_first p.1) = t_here t;
  rep_pushed : length (pushedChars (m_first p.1)) = t_pushed t;
  rep_closed : m_closed (m_first p.1) = hereClosed t;
  rep_last : m_last p.1 = outermost p.2;
  rep_chain : chain (memory p.1) p.2 (t_later t) (t_ended t) }.

Lemma chain_length m rs later ended :
  chain m rs later ended -> length rs = length later.
Proof.
  revert later. induction rs as [| r rs IH]; intros [| t later] H; simpl in *; try done.
  destruct H as (_ & _ & H). f_equal. by apply IH.
Qed.

(** Memory at other addresses does not matter. *)
Lemma chain_frame m m' rs later ended :
  (forall a, (a < length rs)%nat -> m' !! a = m !! a) ->
  chain m rs later ended -> chain m' rs later ended.
Proof.
  revert later. induction rs as [| r rs IH]; intros [| t later] Hm H; simpl in *; try done.
  destruct H as (Hr & (s & Hs & H) & Hrest). split; [done |]. split.
  - exists s. rewrite Hm by lia. done.
  - apply IH; [| done]. intros a Ha. apply Hm. lia.
Qed.

(** The outermost buffer is the one that may be appended to or closed. *)
Lemma chain_last m rs later ended :
  chain m rs later ended -> rs <> [] ->
  exists s, m !! 0%nat = Some s /\ almost s /\ m_closed s = ended /\
    forall s' w e, almost s' -> view s' = view s ++ w -> m_closed s' = e ->
      chain (<[0%nat := s']> m) rs (appendLast w later) e.
Proof.
  revert later. induction rs as [| r rs IH]; intros [| t later] H Hne; simpl in *; try done.
  destruct H as (Hr & (s & Hs & Ha & Hv & Hc) & Hrest). destruct rs as [| r' rs].
  - destruct later as [| ? ?]; [| done]. rewrite Hr in *. simpl in *. exists s.
    split; [done | split; [done | split; [done |]]]. intros s' w e Ha' Hv' Hc'.
    split; [done | split; [| done]]. exists s'. rewrite ?Hr, lookup_insert_eq. by rewrite Hv', Hv.
  - destruct later as [| t' later]; [done |].
    destruct (IH _ Hrest ltac:(done)) as (s0 & H0 & Ha0 & Hc0 & Hset).
    exists s0. split; [done | split; [done | split; [done |]]]. intros s' w e Ha' Hv' Hc'.
    specialize (Hset s' w e Ha' Hv' Hc'). split; [done | split; [| exact Hset]].
    exists s. rewrite lookup_insert_ne by (rewrite Hr; simpl; lia).
    split; [done | split; [done | split; [done |]]].
    rewrite Hc. by destruct later.
Qed.

Lemma appendLast_nil (l : list (list Z)) : appendLast [] l = l.
Proof. induction l as [| t [| t' l] IH]; [done | simpl; by rewrite app_nil_r | simpl in *; by rewrite IH]. Qed.

(** ** Updates through the two pointers *)

Lemma appendLast_twice (w : list Z) (l : list (list Z)) : appendLast [] (appendLast w l) = appendLast w l.
Proof. apply appendLast_nil. Qed.

Lemma t_append_twice (w : list Z) (e e' : bool) (t : Text) :
  t_append [] e (t_append w e' t) = t_append w e t.
Proof.
  destruct t as [h p [| x l] d]; unfold t_append; simpl; [by rewrite app_nil_r |].
  pose proof (appendLast_twice w (x :: l)) as H.
  destruct l as [| y l]; simpl in *; by rewrite H.
Qed.

(** What an operation on the last buffer has to do. *)
Definition extends (w : list Z) (e : bool) (s s' : SegmentedString) : Prop :=
  almost s' /\ (wf s -> wf s') /\ view s' = view s ++ w /\
  pushedChars s' = pushedChars s /\ m_closed s' = e.

Lemma update_last (f : SegmentedString -> option SegmentedString) (w : list Z) (e : bool)
    (st : HTMLInputStream) (rs : list InsertionPointRecord) (t : Text) :
  represents (st, rs) t -> t_ended t = false ->
  (forall s, almost s -> m_closed s = false -> exists s', f s = Some s' /\ extends w e s s') ->
  exists st', update (m_last st) f st = Some st' /\ represents (st', rs) (t_append w e t).
Proof.
  intros [Hwf Hv Hp Hc Hl Hch] He Hf. simpl in *. unfold update. rewrite Hl.
  pose proof (chain_length _ _ _ _ Hch) as Hlen. unfold t_append, hereClosed in *.
  destruct rs as [| r rs], (t_later t) as [| x l] eqn:El; try done; simpl.
  - destruct (Hf (m_first st) (wf_almost _ Hwf) ltac:(congruence)) as (s' & -> & Ha & Hw & Hv' & Hp' & Hc').
    eexists. split; [done |]. split; simpl; rewrite ?Hv', ?Hp', ?Hv, ?Hp; auto.
  - destruct (chain_last _ _ _ _ Hch ltac:(done)) as (s & -> & Ha & Hcs & Hset). simpl.
    destruct (Hf s Ha ltac:(congruence)) as (s' & -> & Ha' & _ & Hv' & _ & Hc').
    eexists. split; [done |]. split; simpl; try done.
    + unfold hereClosed. simpl. rewrite Hc. by destruct l.
    + by apply Hset.
Qed.

Lemma append_extends (str : wtfString) (other s : SegmentedString) :
  ofString str = Some other -> almost s -> m_closed s = false ->
  exists s', SegmentedString.append other s = Some s' /\ extends (chars str) false s s'.
Proof.
  intros Eo Ha Hc. destruct (ofString_ok str) as (o & E & Hwo & Hvo & _). simplify_eq.
  destruct (append_ok other s Ha (wf_shape _ Hwo) Hc) as (s' & E' & Hw & Hv & Hp & Hc' & _).
  exists s'. split; [done |]. split; [by apply wf_almost |]. by rewrite <- Hvo.
Qed.

Lemma almost_closed (s : SegmentedString) (b : bool) : almost s -> almost (set_closed s b).
Proof. intros [[] ? ?]. by split; [split | |]. Qed.

Lemma wf_closed (s : SegmentedString) (b : bool) : wf s -> wf (set_closed s b).
Proof. intros [[] ? ? ?]. by split; [split | | |]. Qed.

Lemma close_extends (s : SegmentedString) :
  almost s -> m_closed s = false ->
  exists s', SegmentedString.close s = Some s' /\ extends [] true s s'.
Proof.
  intros Ha Hc. unfold SegmentedString.close. rewrite Hc. simpl. eexists. split; [done |].
  split; [by apply almost_closed | split; [by apply wf_closed |]].
  unfold view, pushedChars, restChars. simpl. by rewrite app_nil_r.
Qed.

Lemma update_first (f : SegmentedString -> option SegmentedString) (q : Q) (l : Z * Z)
    (st : HTMLInputStream) (rs : list InsertionPointRecord) (t : Text) :
  represents (st, rs) t -> runs (f (m_first st)) q l -> q_closed q = m_closed (m_first st) ->
  exists st', update m_first_ptr f st = Some st' /\
    represents (st', rs) (t_set_here (q_pending q) (q_pushed q) t).
Proof.
  intros [Hwf Hv Hp Hc Hl Hch] (s' & E & Hw & <- & _) Hq. unfold update. simpl in *.
  rewrite E. simpl. eexists. split; [done |]. split; simpl; try done.
  unfold hereClosed in *. simpl. congruence.
Qed.

Lemma assign_ok (s : SegmentedString) :
  shape s -> exists c, forall old, assign old s = Some (set_currentChar s c).
Proof.
  intros [Hcur _ _ _]. unfold assign, copiedCurrentChar.
  destruct (negb (m_pushedChar2 s =? 0)); [by eexists |].
  destruct (negb (m_pushedChar1 s =? 0)); [by eexists |].
  destruct (Substring.m_length (m_currentString s) =? 0) eqn:E; simpl; [by eexists |].
  bool_to_prop. destruct (sub_read _ Hcur) as (c & -> & _); [destruct Hcur as [[? ?] ?]; lia | by eexists].
Qed.

(** ** The refinement *)

Lemma open_ok (st : HTMLInputStream) (rs : list InsertionPointRecord) (t : Text) :
  represents (st, rs) t ->
  exists r st', newInsertionPointRecord (length rs) st = Some (r, st') /\
    m_line r = currentLine (m_first st) /\ m_column r = currentColumn (m_first st) /\
    represents (st', r :: rs) (mkText [] 0 (t_here t :: t_later t) (t_ended t)).
Proof.
  intros [Hwf Hv Hp Hc Hl Hch]. simpl in *.
  destruct (assign_ok (m_first st) (wf_shape _ Hwf)) as (c & Hcopy).
  unfold newInsertionPointRecord, splitInto, update. simpl.
  rewrite lookup_insert_eq. simpl. rewrite Hcopy. simpl.
  unfold update. simpl. eexists _, _. split; [done |]. split; [done | split; [done |]].
  set (next := set_currentChar (m_first st) c).
  assert (Hn : chain (<[length rs := next]> (<[length rs := emptySegmentedString]> (memory st)))
    rs (t_later t) (t_ended t)).
  { eapply chain_frame; [| exact Hch]. intros a Ha. by rewrite !lookup_insert_ne by lia. }
  assert (Hch' : chain (<[length rs := next]> (<[length rs := emptySegmentedString]> (memory st)))
    (mkRecord (length rs) (currentLine (m_first st)) (currentColumn (m_first st)) :: rs)
    (t_here t :: t_later t) (t_ended t)).
  { split; [done | split; [| done]]. exists next. simpl. rewrite lookup_insert_eq.
    split; [done | split; [by destruct Hwf as [[] ? ? ?]; split; [split | |] |]].
    split; [exact Hv | exact Hc]. }
  pose proof wf_emptySegmentedString as Hwe.
  rewrite Hl. unfold outermost.
  destruct rs as [| r rs]; simpl; (split; simpl; [by apply wf_lines | done..| done |]);
    try exact Hch'; done.
Qed.

Lemma close_ok (st : HTMLInputStream) (r : InsertionPointRecord) (rs : list InsertionPointRecord)
    (w : list Z) (l : list (list Z)) (t : Text) :
  represents (st, r :: rs) t -> t_later t = w :: l ->
  exists st', destroyInsertionPointRecord r st = Some st' /\
    represents (st', rs) (mkText (t_here t ++ w) (t_pushed t) l (t_ended t)) /\
    currentLine (m_first st') = m_line r /\
    currentColumn (m_first st') = m_column r - Z.of_nat (length (t_here t)).
Proof.
  intros [Hwf Hv Hp Hc Hl Hch] El. simpl in *. rewrite El in Hch.
  destruct Hch as (Hr & (n & Hn & Han & Hvn & Hcn) & Hrest).
  assert (Hopen : m_closed (m_first st) = false) by (rewrite Hc; unfold hereClosed; by rewrite El).
  destruct (append_ok n (m_first st) (wf_almost _ Hwf) (almost_shape _ Han) Hopen)
    as (s1 & E1 & Hw1 & Hv1 & Hp1 & Hc1 & _).
  unfold destroyInsertionPointRecord, mergeFrom, update. simpl. rewrite Hn. simpl. rewrite E1. simpl.
  assert (Hlast : (if bool_decide (m_last st = m_next_ptr (m_next r)) then m_first_ptr else m_last st)
    = outermost rs).
  { rewrite Hl, Hr. by destruct rs. }
  assert (Hchain : chain (delete (m_next r) (memory st)) rs l (t_ended t)).
  { eapply chain_frame; [| exact Hrest]. intros a Ha. by rewrite lookup_delete_ne by lia. }
  set (st2 := if bool_decide _ then _ else _).
  assert (E2 : st2 = mkStream s1 (outermost rs) (memory st)).
  { unfold st2, set_last. rewrite <- Hlast. by destruct (bool_decide _). }
  rewrite E2. clear E2 st2.
  assert (Hclosed : m_closed n = hereClosed (mkText (t_here t ++ w) (t_pushed t) l (t_ended t))).
  { unfold hereClosed. simpl. rewrite Hcn. by destruct l. }
  assert (Hlen : lengthSS (m_first st) = Z.of_nat (length (t_here t)))
    by (rewrite (lengthSS_ok _ (wf_shape _ Hwf)); congruence).
  assert (Hfin : forall s2, wf s2 -> view s2 = view s1 -> pushedChars s2 = pushedChars s1 ->
    m_closed s2 = m_closed n ->
    let s3 := setCurrentPosition (m_line r) (m_column r) (lengthSS (m_first st)) s2 in
    represents (mkStream s3 (outermost rs) (delete (m_next r) (memory st)), rs)
      (mkText (t_here t ++ w) (t_pushed t) l (t_ended t)) /\
    currentLine s3 = m_line r /\ currentColumn s3 = m_column r - Z.of_nat (length (t_here t))).
  { intros s2 Hw2 Hv2 Hp2 Hc2 s3. split; [| split; [done |]].
    - split; simpl; try done; [by apply wf_lines | | | ].
      + change (view s2 = t_here t ++ w). congruence.
      + change (length (pushedChars s2) = t_pushed t). congruence.
      + change (m_closed s2 = hereClosed (mkText (t_here t ++ w) (t_pushed t) l (t_ended t))). congruence.
    - unfold s3, setCurrentPosition, currentColumn, numberOfCharactersConsumed. simpl. lia. }
  destruct (m_closed n) eqn:Ecl.
  - simpl. unfold SegmentedString.close. rewrite Hc1. simpl. eexists. split; [done |].
    by apply (Hfin (set_closed s1 true)); [apply wf_closed | ..].
  - simpl. eexists. split; [done |]. by apply (Hfin s1).
Qed.

(** Operations on the end of the document. *)
Lemma end_step (op : StreamOp) (st : HTMLInputStream) (rs : list InsertionPointRecord) (t t' : Text) :
  represents (st, rs) t -> textStep op t = Some t' ->
  match op with AppendToEnd _ | MarkEndOfFile | CloseWithoutMarking => True | _ => False end ->
  exists p', streamStep op (st, rs) = Some p' /\ represents p' t'.
Proof.
  intros Hrep Et Hop. destruct op as [str | | | | | | | |]; try done; simpl in Et |- *;
    apply ASSERT_bind in Et as [He [= <-]]; apply negb_true_iff in He.
  - destruct (ofString_ok str) as (s & Es & _). rewrite Es. simpl.
    destruct (update_last (SegmentedString.append s) (chars str) false st rs t Hrep He)
      as (st' & E & Hst).
    { intros s0 Ha0 Hc0. by apply (append_extends str). }
    unfold appendToEnd. rewrite E. by eexists.
  - unfold markEndOfFile. set (str := mkString [kEndOfFileMarker] false).
    destruct (ofString_ok str) as (s & Es & _). rewrite Es. simpl.
    destruct (update_last (SegmentedString.append s) (chars str) false st rs t Hrep He)
      as (st1 & E1 & H1).
    { intros s0 Ha0 Hc0. by apply (append_extends str). }
    rewrite E1. simpl.
    destruct (update_last SegmentedString.close [] true st1 rs _ H1) as (st2 & E2 & H2).
    { unfold t_append. by destruct (t_later t). }
    { apply close_extends. }
    rewrite E2. simpl. eexists. split; [done |]. by rewrite t_append_twice in H2.
  - destruct (update_last SegmentedString.close [] true st rs t Hrep He close_extends)
      as (st' & E & Hst).
    unfold closeWithoutMarkingEndOfFile. rewrite E. by eexists.
Qed.

(** Operations on the current buffer. *)
Lemma here_step (op : StreamOp) (st : HTMLInputStream) (rs : list InsertionPointRecord) (t t' : Text) :
  represents (st, rs) t -> textStep op t = Some t' ->
  match op with InsertHere _ | ReadCharacter | PushBack _ | PutBack _ => True | _ => False end ->
  exists p', streamStep op (st, rs) = Some p' /\ represents p' t'.
Proof.
  intros Hrep Et Hop. pose proof Hrep as [Hwf Hv Hp Hc _ _]. simpl in *.
  assert (Habs : abs (m_first st) = mkQ (t_here t) (t_pushed t) (hereClosed t)
    (numberOfCharactersConsumed (m_first st))) by by apply abs_eq.
  assert (Hgo : forall f q l, runs (f (m_first st)) q l -> q_closed q = m_closed (m_first st) ->
    t_set_here (q_pending q) (q_pushed q) t = t' ->
    exists p', (st1 ← update m_first_ptr f st; Some (st1, rs)) = Some p' /\ represents p' t').
  { intros f q l Hr Hq <-. destruct (update_first f q l st rs t Hrep Hr Hq) as (st' & -> & Hst).
    by eexists. }
  destruct op as [| str | | | | c | str | |]; try done; simpl in Et |- *.
  - apply ASSERT_bind in Et as [He [= <-]]. apply negb_true_iff in He.
    destruct (ofString_ok str) as (s & -> & Hws & Hvs & _). simpl.
    destruct (append_ok s (m_first st) (wf_almost _ Hwf) (wf_shape _ Hws) ltac:(congruence))
      as (s' & E & Hw' & Hv' & Hp' & Hc' & Hl' & _).
    apply (Hgo _ (abs s') (lines s')); [by exists s' | simpl; congruence |].
    simpl. by rewrite Hv', Hp', Hv, Hp, Hvs.
  - injection Et as <-. apply (Hgo _ _ _ (advanceLn_runs _ Hwf)).
    { unfold q_advance. by destruct (q_pending _). }
    rewrite Habs. unfold q_advance. simpl. destruct (t_here t) eqn:Eh; simpl; [| done].
    enough (t_pushed t = 0%nat) as -> by done.
    pose proof (src_wf (S := SegmentedString) (m_first st) Hwf) as [H _].
    simpl in H. rewrite Hv, Hp in H. simpl in H. lia.
  - apply ASSERT_bind in Et as [He [= <-]]. eapply Hgo; [apply push_runs; [done |] | ..].
    + rewrite Habs. unfold q_push. simpl. by rewrite He.
    + done.
    + done.
  - apply ASSERT_bind in Et as [He [= <-]]. destruct str as [w b].
    eapply Hgo; [apply prepend_runs; [done |] | ..].
    + rewrite Habs. unfold q_prepend. simpl. by rewrite He.
    + done.
    + done.
Qed.

Lemma stream_step (op : StreamOp) (p : Parser) (t t' : Text) :
  represents p t -> textStep op t = Some t' ->
  exists p', streamStep op p = Some p' /\ represents p' t'.
Proof.
  destruct p as [st rs]. intros Hrep Et.
  destruct op; try (by eapply end_step); try (by eapply here_step); simpl in Et |- *.
  - injection Et as <-. destruct (open_ok st rs t Hrep) as (r & st' & -> & _ & _ & Hst). by eexists.
  - destruct (t_later t) as [| w l] eqn:El; [done |]. injection Et as <-.
    pose proof (chain_length _ _ _ _ (rep_chain _ _ Hrep)) as Hlen. rewrite El in Hlen.
    simpl in Hlen. destruct rs as [| r rs]; [done |].
    destruct (close_ok st r rs w l t Hrep El) as (st' & -> & Hst & _). by eexists.
Qed.

Lemma stream_run (ops : list StreamOp) (p : Parser) (t t' : Text) :
  represents p t -> textRun ops t = Some t' ->
  exists p', streamRun ops p = Some p' /\ represents p' t'.
Proof.
  revert p t. induction ops as [| op ops IH]; intros p t Hrep E; simpl in *.
  { simplify_eq. by exists p. }
  destruct (textStep op t) as [t1 |] eqn:E1; simpl in E; [| done].
  destruct (stream_step op p t t1 Hrep E1) as (p1 & -> & H1). by apply (IH p1 t1).
Qed.

(** ** The theorems *)

Lemma new_represents : represents (newInputStream, []) (mkText [] 0 [] false).
Proof. by split; [apply wf_emptySegmentedString | ..]. Qed.

Lemma streamRun_app (ops ops' : list StreamOp) (p : Parser) :
  streamRun (ops ++ ops') p = p1 ← streamRun ops p; streamRun ops' p1.
Proof.
  revert p. induction ops as [| op ops IH]; intros p; simpl; [done |].
  destruct (streamStep op p); simpl; [apply IH | done].
Qed.

Lemma streamRun_cons (op : StreamOp) (ops : list StreamOp) (p p1 : Parser) :
  streamStep op p = Some p1 -> streamRun (op :: ops) p = streamRun ops p1.
Proof. intros E. simpl. by rewrite E. Qed.

(** Only the two ends of a script change the stack of records. *)
Lemma step_records (op : StreamOp) (st st' : HTMLInputStream) (rs rs' : list InsertionPointRecord) :
  match op with OpenInsertionPoint | CloseInsertionPoint => False | _ => True end ->
  streamStep op (st, rs) = Some (st', rs') -> rs' = rs.
Proof.
  intros Hop E. destruct op; simpl in E; try done;
    repeat match goal with
    | H : (_ ≫= _) = Some _ |- _ => apply bind_Some in H as (? & ? & ?)
    end; by simplify_eq.
Qed.

(** C32: Every sequence of operations on a new stream does what it does to the stack
    of texts, and the questions about the stream are answered from the stack. *)
Theorem stream_refines (ops : list StreamOp) (t : Text) :
  textRun ops (mkText [] 0 [] false) = Some t ->
  exists st records, streamRun ops (newInputStream, []) = Some (st, records) /\
    toString (m_first st) = t_here t /\
    m_closed (m_first st) = hereClosed t /\
    haveSeenEndOfFile st = Some (t_ended t) /\
    length records = length (t_later t) /\
    (hasInsertionPoint st = true <-> t_later t <> []).
Proof.
  intros E. destruct (stream_run ops _ _ t new_represents E) as ([st rs] & -> & Hrep).
  pose proof Hrep as [Hwf Hv Hp Hc Hl Hch]. simpl in *. pose proof (chain_length _ _ _ _ Hch) as Hlen.
  exists st, rs. rewrite (toString_ok _ (wf_shape _ Hwf)).
  split; [done | split; [done | split; [done | split; [| split; [done |]]]]].
  - unfold haveSeenEndOfFile. rewrite Hl. unfold hereClosed in Hc.
    destruct rs as [| r rs], (t_later t) as [| w l]; simpl in *; try done; [by rewrite Hc |].
    destruct (chain_last (memory st) (r :: rs) (w :: l) (t_ended t) Hch ltac:(done)) as (s & -> & _ & Hs & _). simpl. by rewrite Hs.
  - unfold hasInsertionPoint. rewrite Hl. by destruct rs, (t_later t).
Qed.

(** Reading characters none of which is a newline moves the column only. *)
Lemma read_run (n : nat) (st : HTMLInputStream) (rs : list InsertionPointRecord) (t : Text) :
  represents (st, rs) t -> (n <= length (t_here t))%nat -> 10 ∉ take n (t_here t) ->
  exists st', streamRun (replicate n ReadCharacter) (st, rs) = Some (st', rs) /\
    represents (st', rs) (t_set_here (drop n (t_here t)) (t_pushed t - n) t) /\
    currentLine (m_first st') = currentLine (m_first st) /\
    currentColumn (m_first st') = currentColumn (m_first st) + Z.of_nat n.
Proof.
  revert st t. induction n as [| n IH]; intros st t Hrep Hn Hnl; simpl.
  { exists st. rewrite drop_0, Nat.sub_0_r. split; [done | split; [by destruct t | lia]]. }
  destruct (stream_step ReadCharacter (st, rs) t _ Hrep eq_refl) as ([st1 rs1] & E & Hrep1).
  simpl in E |- *. unfold update in *. simpl in *.
  pose proof Hrep as [Hwf Hv Hp Hc Hl Hch]. simpl in *.
  destruct (advanceLn_runs (m_first st) Hwf) as (s1 & E1 & Hw1 & Ha1 & Hl1).
  rewrite E1 in E |- *. simpl in E |- *. injection E as <- <-.
  destruct (t_here t) as [| c h] eqn:Eh; simpl in Hn, Hnl; [lia |].
  apply not_elem_of_cons in Hnl as [Hne Hnl].
  assert (Hlines : lines s1 = lines (m_first st)).
  { rewrite Hl1. unfold linesAfter, countsNewline. rewrite (wf_char _ Hwf), Hv. simpl.
    replace (c =? 10) with false by lia. by rewrite andb_false_r. }
  apply (f_equal q_consumed) in Ha1 as Hn1. unfold q_advance, abs in Hn1. rewrite Hv in Hn1. simpl in Hn1.
  injection Hlines as Hline Hprior.
  destruct (IH _ _ Hrep1) as (st' & E' & Hrep' & Hli & Hco); [simpl; lia | done |].
  unfold store in E'. rewrite E'. exists st'. split; [done |].
  revert Hrep' Hli Hco. unfold t_set_here. simpl.
  replace (t_pushed t - S n)%nat with (pred (t_pushed t) - n)%nat by lia.
  unfold currentLine, currentColumn. intros ? ? ?. split; [done | split; [congruence | lia]].
Qed.

(** The texts once the rest [rest] of a script's output is merged. *)
Lemma script_texts (rest n : list Z) (t : Text) :
  exists h l,
    t_later (t_append n false (mkText rest 0 (t_here t :: t_later t) false)) = h :: l /\
    mkText (rest ++ h) 0 l false = t_append n false (t_set_here (rest ++ t_here t) 0 t).
Proof.
  unfold t_append, t_set_here. simpl. destruct (t_later t) as [| x l]; simpl.
  - exists (t_here t ++ n), []. by rewrite app_assoc.
  - by eexists _, _.
Qed.

(** A script that writes a text of which [k] characters are tokenized while it
    runs, with network data arriving meanwhile: afterwards the rest of the text
    stands in front of what was to come, the network data at the end, and the
    position is the one before the script once the rest has been read. *)
Theorem insertion_point (st : HTMLInputStream) (rs : list InsertionPointRecord) (t : Text)
    (w n : wtfString) (k : nat) :
  represents (st, rs) t -> t_ended t = false -> (k <= length (chars w))%nat -> 10 ∉ chars w ->
  let script := [OpenInsertionPoint; InsertHere w] ++ replicate k ReadCharacter
                ++ [AppendToEnd n; CloseInsertionPoint] in
  let rest := drop k (chars w) in
  exists st1 st2, streamRun script (st, rs) = Some (st1, rs) /\
    represents (st1, rs) (t_append (chars n) false (t_set_here (rest ++ t_here t) 0 t)) /\
    streamRun (replicate (length rest) ReadCharacter) (st1, rs) = Some (st2, rs) /\
    currentLine (m_first st2) = currentLine (m_first st) /\
    currentColumn (m_first st2) = currentColumn (m_first st).
Proof.
  intros Hrep He Hk Hnl script rest.
  destruct (open_ok st rs t Hrep) as (r & sa & Ea & Hline & Hcol & Ha).
  destruct (stream_step (InsertHere w) _ _ _ Ha eq_refl) as ([sb rb] & Eb & Hb).
  pose proof (step_records (InsertHere w) _ _ _ _ I Eb) as ->.
  destruct (read_run k sb (r :: rs) _ Hb) as (sc & Ec & Hc & _); [simpl; lia | |].
  { simpl. intros Hin. apply Hnl. rewrite <- (take_drop k (chars w)). apply elem_of_app. by left. }
  simpl in Hc. unfold t_set_here in Hc. simpl in Hc. fold rest in Hc. rewrite He in Hc.
  set (t0 := mkText rest 0 (t_here t :: t_later t) false) in *.
  destruct (stream_step (AppendToEnd n) _ _ (t_append (chars n) false t0) Hc eq_refl)
    as ([sd rd] & Ed & Hd).
  pose proof (step_records (AppendToEnd n) _ _ _ _ I Ed) as ->.
  destruct (script_texts rest (chars n) t) as (h & l & Hh & Ht).
  destruct (close_ok sd r rs h l _ Hd Hh) as (st1 & E1 & H1 & Hl1 & Hc1).
  change (t_here (t_append (chars n) false t0)) with rest in *.
  change (t_ended (t_append _ _ _)) with false in H1.
  change (t_pushed (t_append _ _ _)) with 0%nat in H1. rewrite Ht in H1.
  destruct (read_run (length rest) st1 rs _ H1) as (st2 & E2 & _ & Hl2 & Hc2).
  { rewrite <- Ht. simpl. rewrite length_app. lia. }
  { rewrite <- Ht. simpl. rewrite take_app_length. intros Hin. apply Hnl.
    rewrite <- (take_drop k (chars w)). apply elem_of_app. by right. }
  exists st1, st2. split; [| split; [done | split; [done | split; [congruence | lia]]]].
  unfold script. simpl app.
  rewrite (streamRun_cons OpenInsertionPoint _ _ (sa, r :: rs)) by (simpl; by rewrite Ea).
  rewrite (streamRun_cons _ _ _ _ Eb), streamRun_app, Ec. cbn [mbind option_bind].
  rewrite (streamRun_cons _ _ _ _ Ed). simpl. by rewrite E1.
Qed.

(** ** The theorems on concrete streams *)

Definition latin1 (s : string) : wtfString := mkString (units s) true.

(** The network sends [ab], a script runs after [a], writes [xy], of which [x] is
    read, opens a nested script that writes [z], and the document ends meanwhile. *)
Definition nestedScripts : list StreamOp :=
  [AppendToEnd (latin1 "ab"); ReadCharacter; OpenInsertionPoint; InsertHere (latin1 "xy");
   ReadCharacter; OpenInsertionPoint; InsertHere (latin1 "z"); AppendToEnd (latin1 "c");
   MarkEndOfFile; CloseInsertionPoint; CloseInsertionPoint].

Lemma stream_refines_witness :
  exists st records, streamRun nestedScripts (newInputStream, []) = Some (st, records) /\
    toString (m_first st) = units "zybc" ++ [0] /\ haveSeenEndOfFile st = Some true.
Proof.
  destruct (stream_refines nestedScripts (mkText (units "zybc" ++ [0]) 0 [] true) eq_refl)
    as (st & rs & E & Ht & _ & He & _).
  exists st, rs. split; [exact E | split; [exact Ht | exact He]].
Defined.

Lemma insertion_point_witness :
  exists st1 st2,
    streamRun [OpenInsertionPoint; InsertHere (latin1 "ab"); ReadCharacter;
               AppendToEnd (latin1 "c"); CloseInsertionPoint] (newInputStream, []) = Some (st1, []) /\
    represents (st1, []) (mkText (units "bc") 0 [] false) /\
    streamRun [ReadCharacter] (st1, []) = Some (st2, []) /\
    currentColumn (m_first st2) = currentColumn (m_first newInputStream).
Proof.
  destruct (insertion_point newInputStream [] (mkText [] 0 [] false) (latin1 "ab") (latin1 "c") 1
    new_represents eq_refl) as (st1 & st2 & E1 & H1 & E2 & _ & H2).
  - apply le_n_S, le_0_n.
  - vm_compute. intros H. repeat (apply elem_of_cons in H as [H | H]; [discriminate H |]).
    by apply not_elem_of_nil in H.
  - exists st1, st2. split; [exact E1 | split; [exact H1 | split; [exact E2 | exact H2]]].
Defined.
