(* ===== verification/BackgroundHTMLInputStream.v ===== *)
(** * The input of the background parser: html/parser/BackgroundHTMLInputStream.{h,cpp}

    The background parser runs ahead of the main thread.  Every chunk of tokens
    it sends carries a checkpoint; when a script on the main thread has written
    to the document, the input is rewound to the checkpoint with the text the
    main thread has left unparsed in front.  The stream keeps every segment it
    was given since the last rewind, as far as a valid checkpoint needs it.

    [Log] is the specification, which never forgets a segment; [background_refines]
    says that clearing old segments and checkpoints does not show. *)

From S2P Require Import Prelude SegmentedString CharSource SegmentedStringSpec SegmentedStringTheorems.

(** ** The stream *)

(** A [String] of the source may be null, which is not the empty string. *)
Definition nullableString : Type := option wtfString.

Definition stringOf (s : nullableString) : wtfString := default (mkString [] true) s.

(** SegmentedString(const String&) on a possibly null string. *)
Definition segmentedOf (s : nullableString) : option SegmentedString := ofString (stringOf s).

(** struct Checkpoint *)
Record Checkpoint := mkCheckpoint {
  input : SegmentedString;
  numberOfSegmentsAlreadyAppended : nat }.

Definition isNull (c : Checkpoint) : bool :=
  m_empty (input c) && Nat.eqb (numberOfSegmentsAlreadyAppended c) 0.

Definition clearCheckpoint (c : Checkpoint) : Checkpoint := mkCheckpoint (clearSS (input c)) 0.

Record BackgroundHTMLInputStream := mkBackground {
  m_current : SegmentedString;
  m_segments : list nullableString;
  m_checkpoints : list Checkpoint;
  m_firstValidCheckpointIndex : nat;
  m_firstValidSegmentIndex : nat }.

Definition newBackgroundHTMLInputStream : BackgroundHTMLInputStream :=
  mkBackground emptySegmentedString [] [] 0 0.

Definition set_current (s : SegmentedString) (b : BackgroundHTMLInputStream)
  : BackgroundHTMLInputStream :=
  mkBackground s (m_segments b) (m_checkpoints b) (m_firstValidCheckpointIndex b)
    (m_firstValidSegmentIndex b).

Definition outstandingCheckpointCount (b : BackgroundHTMLInputStream) : nat :=
  length (m_checkpoints b) - m_firstValidCheckpointIndex b.

Definition appendSegment (s : nullableString) (b : BackgroundHTMLInputStream)
  : option BackgroundHTMLInputStream :=
  seg ← segmentedOf s;
  cur ← SegmentedString.append seg (m_current b);
  Some (mkBackground cur (m_segments b ++ [s]) (m_checkpoints b)
          (m_firstValidCheckpointIndex b) (m_firstValidSegmentIndex b)).

Definition closeBackground (b : BackgroundHTMLInputStream) : option BackgroundHTMLInputStream :=
  cur ← SegmentedString.close (m_current b); Some (set_current cur b).

(** createCheckpoint(): returns the index of the checkpoint. *)
Definition createCheckpoint (b : BackgroundHTMLInputStream)
  : option (nat * BackgroundHTMLInputStream) :=
  i ← copy (m_current b);
  Some (length (m_checkpoints b),
        mkBackground (m_current b) (m_segments b)
          (m_checkpoints b ++ [mkCheckpoint i (length (m_segments b))])
          (m_firstValidCheckpointIndex b) (m_firstValidSegmentIndex b)).

(** The two loops of invalidateCheckpointsBefore(): elements [i] to [n] of a
    vector are overwritten. *)
Definition overwrite {A} (f : A -> A) (i n : nat) (l : list A) : list A :=
  take i l ++ (f <$> take (n - i) (drop i l)) ++ drop (i + (n - i)) l.

Definition invalidateCheckpointsBefore (newFirstValidCheckpointIndex : nat)
    (b : BackgroundHTMLInputStream) : option BackgroundHTMLInputStream :=
  ASSERT (Nat.ltb newFirstValidCheckpointIndex (length (m_checkpoints b)));;
  if Nat.eqb (m_firstValidCheckpointIndex b) newFirstValidCheckpointIndex then Some b else
  ASSERT (Nat.ltb (m_firstValidCheckpointIndex b) newFirstValidCheckpointIndex);;
  lastInvalidCheckpoint ← m_checkpoints b !! (newFirstValidCheckpointIndex - 1)%nat;
  let n := numberOfSegmentsAlreadyAppended lastInvalidCheckpoint in
  ASSERT (Nat.leb (m_firstValidSegmentIndex b) n);;
  Some (mkBackground (m_current b)
          (overwrite (A := nullableString) (fun _ => None) (m_firstValidSegmentIndex b) n (m_segments b))
          (overwrite clearCheckpoint (m_firstValidCheckpointIndex b) newFirstValidCheckpointIndex
             (m_checkpoints b))
          newFirstValidCheckpointIndex n).

(** The loop of rewindTo() over the segments from the checkpoint on. *)
Fixpoint appendAgain (segments : list nullableString) (cur : SegmentedString)
  : option SegmentedString :=
  match segments with
  | [] => Some cur
  | s :: rest =>
      ASSERT (bool_decide (is_Some s));;
      seg ← segmentedOf s;
      cur1 ← SegmentedString.append seg cur;
      appendAgain rest cur1
  end.

Definition rewindTo (checkpointIndex : nat) (unparsedInput : nullableString)
    (b : BackgroundHTMLInputStream) : option BackgroundHTMLInputStream :=
  checkpoint ← m_checkpoints b !! checkpointIndex;
  ASSERT (negb (isNull checkpoint));;
  let isClosed := m_closed (m_current b) in
  cur1 ← assign (m_current b) (input checkpoint);
  cur2 ← appendAgain (drop (numberOfSegmentsAlreadyAppended checkpoint) (m_segments b)) cur1;
  cur3 ← (match chars (stringOf unparsedInput) with
          | [] => Some cur2
          | _ :: _ => seg ← segmentedOf unparsedInput; SegmentedString.prepend seg cur2
          end);
  cur4 ← (if isClosed && negb (m_closed cur3) then SegmentedString.close cur3 else Some cur3);
  ASSERT (Bool.eqb (m_closed cur4) isClosed);;
  Some (mkBackground cur4 [] [] 0 0).

(** ** Sequences of operations *)
Inductive BackgroundOp :=
  | BAppend (str : wtfString)
  | BClose
  | BCreateCheckpoint
  | BInvalidateBefore (i : nat)
  | BRewindTo (i : nat) (unparsed : wtfString)
  | BRead
  | BPush (c : Z).

Definition backgroundStep (op : BackgroundOp) (b : BackgroundHTMLInputStream)
  : option BackgroundHTMLInputStream :=
  match op with
  | BAppend str => appendSegment (Some str) b
  | BClose => closeBackground b
  | BCreateCheckpoint => '(_, b') ← createCheckpoint b; Some b'
  | BInvalidateBefore i => invalidateCheckpointsBefore i b
  | BRewindTo i unparsed => rewindTo i (Some unparsed) b
  | BRead => cur ← advanceAndUpdateLineNumber (m_current b); Some (set_current cur b)
  | BPush c => cur ← push c (m_current b); Some (set_current cur b)
  end.

Fixpoint backgroundRun (ops : list BackgroundOp) (b : BackgroundHTMLInputStream)
  : option BackgroundHTMLInputStream :=
  match ops with [] => Some b | op :: ops' => b1 ← backgroundStep op b; backgroundRun ops' b1 end.

(** ** The specification

    A log of all segments since the last rewind; a checkpoint remembers the text
    that was unread when it was taken, how many of its characters were pushed
    back, and how long the log was. *)
Record LogCheckpoint := mkLogCheckpoint {
  c_text : list Z;
  c_pushed : nat;
  c_segments : nat }.

Record Log := mkLog {
  l_text : list Z;
  l_pushed : nat;
  l_closed : bool;
  l_segments : list (list Z);
  l_checkpoints : list LogCheckpoint;
  l_first : nat }.

Definition newLog : Log := mkLog [] 0 false [] [] 0.

Definition l_set_text (w : list Z) (pushed : nat) (l : Log) : Log :=
  mkLog w pushed (l_closed l) (l_segments l) (l_checkpoints l) (l_first l).

(** The text a rewind gives: what the main thread has not parsed, what was unread
    at the checkpoint, and everything that has arrived since. *)
Definition rewound (unparsed : list Z) (c : LogCheckpoint) (l : Log) : list Z :=
  unparsed ++ c_text c ++ concat (drop (c_segments c) (l_segments l)).

(** The assertion of rewindTo() that the checkpoint was not cleared: it also fails
    for one taken on an empty stream that has no segments. *)
Definition looksNull (c : LogCheckpoint) : bool :=
  Nat.eqb (length (c_text c)) (c_pushed c) && Nat.eqb (c_segments c) 0.

Definition logStep (op : BackgroundOp) (l : Log) : option Log :=
  match op with
  | BAppend str =>
      ASSERT (negb (l_closed l));;
      Some (mkLog (l_text l ++ chars str) (l_pushed l) false (l_segments l ++ [chars str])
              (l_checkpoints l) (l_first l))
  | BClose =>
      ASSERT (negb (l_closed l));;
      Some (mkLog (l_text l) (l_pushed l) true (l_segments l) (l_checkpoints l) (l_first l))
  | BCreateCheckpoint =>
      ASSERT (Nat.ltb (l_pushed l) 2);;
      Some (mkLog (l_text l) (l_pushed l) (l_closed l) (l_segments l)
              (l_checkpoints l ++ [mkLogCheckpoint (l_text l) (l_pushed l) (length (l_segments l))])
              (l_first l))
  | BInvalidateBefore i =>
      ASSERT (Nat.ltb i (length (l_checkpoints l)) && Nat.leb (l_first l) i);;
      Some (mkLog (l_text l) (l_pushed l) (l_closed l) (l_segments l) (l_checkpoints l) i)
  | BRewindTo i unparsed =>
      c ← l_checkpoints l !! i;
      ASSERT (Nat.leb (l_first l) i && negb (looksNull c)
              && (Nat.eqb (c_pushed c) 0 || Nat.eqb (length (chars unparsed)) 0));;
      Some (mkLog (rewound (chars unparsed) c l) (c_pushed c) (l_closed l) [] [] 0)
  | BRead => Some (l_set_text (tail (l_text l)) (pred (l_pushed l)) l)
  | BPush c =>
      ASSERT (Nat.ltb (l_pushed l) 2 && negb (c =? 0));;
      Some (l_set_text (take (l_pushed l) (l_text l) ++ c :: drop (l_pushed l) (l_text l))
              (S (l_pushed l)) l)
  end.

Fixpoint logRun (ops : list BackgroundOp) (l : Log) : option Log :=
  match ops with [] => Some l | op :: ops' => l1 ← logStep op l; logRun ops' l1 end.

(** ** The representation *)

(** A buffer with its text, pushed-back characters and closed flag. *)
Definition holds (s : SegmentedString) (w : list Z) (pushed : nat) (closed : bool) : Prop :=
  wf s /\ view s = w /\ length (pushedChars s) = pushed /\ m_closed s = closed.

Record checkpoint_ok (b : BackgroundHTMLInputStream) (c : Checkpoint) (x : LogCheckpoint) : Prop := {
  ck_input : exists closed, holds (input c) (c_text x) (c_pushed x) closed /\
    (closed = true -> m_closed (m_current b) = true /\ c_segments x = length (m_segments b));
  ck_count : numberOfSegmentsAlreadyAppended c = c_segments x;
  ck_first : (m_firstValidSegmentIndex b <= c_segments x)%nat;
  ck_pushed : (c_pushed x < 2)%nat }.

(** Later checkpoints have seen more segments, and none more than there are. *)
Definition ordered (cs : list LogCheckpoint) (n : nat) : Prop :=
  (forall i j x y, (i <= j)%nat -> cs !! i = Some x -> cs !! j = Some y ->
     (c_segments x <= c_segments y)%nat) /\
  Forall (fun x => (c_segments x <= n)%nat) cs.

Record represents (b : BackgroundHTMLInputStream) (l : Log) : Prop := {
  rep_text : holds (m_current b) (l_text l) (l_pushed l) (l_closed l);
  rep_nsegments : length (m_segments b) = length (l_segments l);
  rep_nfirst : (m_firstValidSegmentIndex b <= length (m_segments b))%nat;
  rep_segments : forall j (s : nullableString), (m_firstValidSegmentIndex b <= j)%nat ->
    m_segments b !! j = Some s -> exists str, s = Some str /\ l_segments l !! j = Some (chars str);
  rep_ncheckpoints : length (m_checkpoints b) = length (l_checkpoints l);
  rep_first : m_firstValidCheckpointIndex b = l_first l;
  rep_bound : (l_first l <= length (l_checkpoints l))%nat;
  rep_checkpoints : forall j c, (l_first l <= j)%nat -> m_checkpoints b !! j = Some c ->
    exists x, l_checkpoints l !! j = Some x /\ checkpoint_ok b c x;
  rep_ordered : ordered (l_checkpoints l) (length (l_segments l)) }.

Lemma lookup_snoc {A} (l : list A) (a x : A) (j : nat) :
  (l ++ [a]) !! j = Some x <-> l !! j = Some x \/ (j = length l /\ x = a).
Proof.
  destruct (decide (j < length l)%nat) as [Hlt | Hge].
  - rewrite lookup_app_l by done. split; [by left | intros [? | [? ?]]; [done | lia]].
  - rewrite lookup_app_r by lia. rewrite (lookup_ge_None_2 l) by lia.
    destruct (decide (j = length l)) as [-> | Hne].
    + rewrite Nat.sub_diag. simpl. split; [intros [= ->]; by right | by intros [? | [_ ->]]].
    + destruct (j - length l)%nat eqn:E; [lia |]. simpl. split; [done | by intros [? | [? ?]]].
Qed.

Lemma ordered_mono (cs : list LogCheckpoint) (n m : nat) :
  ordered cs n -> (n <= m)%nat -> ordered cs m.
Proof.
  intros [H1 H2] Hm. split; [done |]. eapply list.Forall_impl; [exact H2 |]. simpl. lia.
Qed.

Lemma ordered_snoc (cs : list LogCheckpoint) (c : LogCheckpoint) :
  ordered cs (c_segments c) -> ordered (cs ++ [c]) (c_segments c).
Proof.
  intros [H1 H2]. split.
  - intros i j x y Hij [Hx | [-> ->]]%lookup_snoc [Hy | [-> ->]]%lookup_snoc.
    + by apply (H1 i j).
    + by apply (list.Forall_lookup_1 _ _ _ _ H2 Hx).
    + apply lookup_lt_Some in Hy. lia.
    + done.
  - apply Forall_app. split; [done |]. by constructor.
Qed.

Lemma overwrite_length {A} (f : A -> A) (i n : nat) (l : list A) : length (overwrite f i n l) = length l.
Proof.
  unfold overwrite. rewrite !length_app, length_fmap, !length_take, !length_drop. lia.
Qed.

Lemma overwrite_lookup {A} (f : A -> A) (i n j : nat) (l : list A) :
  (i <= n <= length l)%nat -> (n <= j)%nat -> overwrite f i n l !! j = l !! j.
Proof.
  intros Hn Hj. unfold overwrite. rewrite app_assoc, lookup_app_r.
  - rewrite lookup_drop. f_equal. rewrite length_app, length_fmap, !length_take, length_drop. lia.
  - rewrite length_app, length_fmap, !length_take, length_drop. lia.
Qed.

(** Appending the segments after a checkpoint again. *)
Lemma appendAgain_ok (segments : list nullableString) (ws : list (list Z)) (s : SegmentedString)
    (w : list Z) (p : nat) (closed : bool) :
  holds s w p closed -> (closed = true -> segments = []) ->
  Forall2 (fun (x : nullableString) v => exists str, x = Some str /\ v = chars str) segments ws ->
  exists s', appendAgain segments s = Some s' /\ holds s' (w ++ concat ws) p closed.
Proof.
  intros H Hc HF. revert s w H Hc.
  induction HF as [| x v segments ws (str & -> & ->) HF IH]; intros s w (Hwf & Hv & Hp & Hcl) Hc; simpl.
  { exists s. rewrite app_nil_r. done. }
  destruct closed; [by specialize (Hc eq_refl) |].
  unfold segmentedOf. simpl.
  destruct (ofString_ok str) as (o & -> & Hwo & Hvo & _). simpl.
  destruct (append_ok o s (wf_almost _ Hwf) (wf_shape _ Hwo) Hcl) as (s1 & -> & Hw1 & Hv1 & Hp1 & Hc1 & _).
  simpl. destruct (IH s1 (w ++ chars str)) as (s' & -> & H').
  - split; [done |]. by rewrite Hv1, Hp1, Hc1, Hv, Hvo.
  - done.
  - exists s'. by rewrite app_assoc.
Qed.

(** A change of the current buffer alone. *)
Lemma set_text_ok (b : BackgroundHTMLInputStream) (l : Log) (s : SegmentedString) (w : list Z) (p : nat) :
  represents b l -> holds s w p (l_closed l) -> represents (set_current s b) (l_set_text w p l).
Proof.
  intros [(? & ? & ? & Hcl) ? ? ? ? ? ? Hck ?] Hs. split; simpl; try done.
  intros j c Hj Hc. destruct (Hck j c Hj Hc) as (x & Hx & [(cl & Hin & Hclosed) Hn Hf H2]).
  exists x. split; [done |]. split; [| done..]. exists cl. split; [done |]. simpl.
  destruct Hs as (_ & _ & _ & ->). intros E. rewrite <- Hcl. by apply Hclosed.
Qed.

Lemma append_step (str : wtfString) (b : BackgroundHTMLInputStream) (l l' : Log) :
  represents b l -> logStep (BAppend str) l = Some l' ->
  exists b', backgroundStep (BAppend str) b = Some b' /\ represents b' l'.
Proof.
  intros [(Hwf & Hv & Hp & Hcl) Hns Hnf Hseg Hnc Hfst Hb Hck Hord] E. simpl in E |- *.
  apply ASSERT_bind in E as [Hopen [= <-]]. apply negb_true_iff in Hopen. rewrite Hopen in Hcl.
  unfold appendSegment, segmentedOf. simpl.
  destruct (ofString_ok str) as (o & -> & Hwo & Hvo & _). simpl.
  destruct (append_ok o _ (wf_almost _ Hwf) (wf_shape _ Hwo) Hcl) as (s1 & -> & Hw1 & Hv1 & Hp1 & Hc1 & _).
  simpl. eexists. split; [done |]. split; simpl; try done.
  - split; [done |]. by rewrite Hv1, Hp1, Hc1, Hv, Hvo.
  - rewrite !length_app. simpl. lia.
  - rewrite length_app. lia.
  - intros j s Hj [Hs | [-> ->]]%lookup_snoc.
    + destruct (Hseg j s Hj Hs) as (st & -> & Hst). exists st.
      split; [done | apply lookup_snoc; by left].
    + exists str. split; [done | apply lookup_snoc; by right].
  - intros j c Hj Hc. destruct (Hck j c Hj Hc) as (x & Hx & [(cl & Hin & Hclosed) Hn Hf H2]).
    exists x. split; [done |]. split; [| done..]. exists cl. split; [done |]. intros ->.
    destruct (Hclosed eq_refl) as [? ?]. congruence.
  - eapply ordered_mono; [exact Hord | rewrite length_app; lia].
Qed.

Lemma close_step (b : BackgroundHTMLInputStream) (l l' : Log) :
  represents b l -> logStep BClose l = Some l' ->
  exists b', backgroundStep BClose b = Some b' /\ represents b' l'.
Proof.
  intros [(Hwf & Hv & Hp & Hcl) Hns Hnf Hseg Hnc Hfst Hb Hck Hord] E. simpl in E |- *.
  apply ASSERT_bind in E as [Hopen [= <-]]. apply negb_true_iff in Hopen. rewrite Hopen in Hcl.
  unfold closeBackground, SegmentedString.close. rewrite Hcl. simpl.
  eexists. split; [done |]. split; simpl; try done.
  - split; [| done]. by destruct Hwf as [[] ? ? ?]; split; [split | | |].
  - intros j c Hj Hc. destruct (Hck j c Hj Hc) as (x & Hx & [(cl & Hin & Hclosed) Hn Hf H2]).
    exists x. split; [done |]. split; [| done..]. exists cl. split; [done |]. intros ->.
    by destruct (Hclosed eq_refl) as [? ?].
Qed.

Lemma copy_same (s : SegmentedString) :
  wf s -> (length (pushedChars s) < 2)%nat -> copy s = Some s.
Proof.
  intros Hwf H2. rewrite (copy_eq _ Hwf). unfold pushedChars in H2.
  destruct (m_pushedChar1 s =? 0) eqn:E1.
  - apply Z.eqb_eq in E1. by rewrite (shape_push _ (wf_shape _ Hwf) E1).
  - destruct (m_pushedChar2 s =? 0); [done | simpl in H2; lia].
Qed.

Lemma checkpoint_step (b : BackgroundHTMLInputStream) (l l' : Log) :
  represents b l -> logStep BCreateCheckpoint l = Some l' ->
  exists b', backgroundStep BCreateCheckpoint b = Some b' /\ represents b' l'.
Proof.
  intros [(Hwf & Hv & Hp & Hcl) Hns Hnf Hseg Hnc Hfst Hb Hck Hord] E. simpl in E |- *.
  apply ASSERT_bind in E as [H2 [= <-]]. apply Nat.ltb_lt in H2.
  unfold createCheckpoint. rewrite copy_same by (done || by rewrite Hp).
  simpl. eexists. split; [done |]. split; simpl; try done.
  - rewrite !length_app. simpl. lia.
  - rewrite length_app. lia.
  - intros j c Hj [Hc | [-> ->]]%lookup_snoc.
    + destruct (Hck j c Hj Hc) as (x & Hx & [Hin Hn Hf H2']). exists x.
      split; [apply lookup_snoc; by left | by split].
    + eexists. split; [apply lookup_snoc; by right |]. split; simpl; [| done | by rewrite <- Hns | done].
      exists (m_closed (m_current b)). by rewrite Hns.
  - by apply (ordered_snoc _ (mkLogCheckpoint _ _ _)).
Qed.

Lemma invalidate_step (i : nat) (b : BackgroundHTMLInputStream) (l l' : Log) :
  represents b l -> logStep (BInvalidateBefore i) l = Some l' ->
  exists b', backgroundStep (BInvalidateBefore i) b = Some b' /\ represents b' l'.
Proof.
  intros Hrep E. pose proof Hrep as [Ht Hns Hnf Hseg Hnc Hfst Hb Hck Hord]. simpl in E |- *.
  apply ASSERT_bind in E as [[Hi Hle]%andb_true_iff [= <-]].
  apply Nat.ltb_lt in Hi. apply Nat.leb_le in Hle.
  unfold invalidateCheckpointsBefore. rewrite Hnc, Hfst.
  rewrite (proj2 (Nat.ltb_lt _ _) Hi). simpl.
  destruct (Nat.eqb (l_first l) i) eqn:Eq.
  { apply Nat.eqb_eq in Eq as <-. exists b. split; [done |]. by destruct l. }
  apply Nat.eqb_neq in Eq. rewrite (proj2 (Nat.ltb_lt (l_first l) i)) by lia. simpl.
  destruct (lookup_lt_is_Some_2 (m_checkpoints b) (i - 1)) as [c Hc]; [lia |]. rewrite Hc. simpl.
  destruct (Hck (i - 1)%nat c ltac:(lia) Hc) as (x & Hx & [_ Hn Hf _]). rewrite Hn.
  rewrite (proj2 (Nat.leb_le _ _) Hf). simpl.
  pose proof (list.Forall_lookup_1 _ _ _ _ (proj2 Hord) Hx) as Hlen. simpl in Hlen.
  eexists. split; [done |]. split; simpl; try done.
  - by rewrite overwrite_length.
  - rewrite overwrite_length. lia.
  - intros j s Hj. rewrite overwrite_lookup by lia. intros Hs. apply Hseg; [lia | done].
  - by rewrite overwrite_length.
  - lia.
  - intros j c' Hj. rewrite overwrite_lookup by lia. intros Hc'.
    destruct (Hck j c' ltac:(lia) Hc') as (y & Hy & [Hin' Hn' Hf' H2']). exists y. split; [done |].
    split; simpl; [by rewrite overwrite_length | done | | done].
    apply (proj1 Hord (i - 1)%nat j x y); [lia | done | done].
Qed.

Lemma null_checkpoint (b : BackgroundHTMLInputStream) (c : Checkpoint) (x : LogCheckpoint) :
  checkpoint_ok b c x -> isNull c = looksNull x.
Proof.
  intros [(cl & (Hwf & Hv & Hp & _) & _) Hn _ _]. unfold isNull, looksNull. rewrite Hn.
  pose proof (src_isEmpty_ok (S := SegmentedString) (input c) Hwf) as He. simpl in He.
  rewrite He. unfold q_isEmpty. simpl. by rewrite Hv, Hp.
Qed.

Lemma prepend_unparsed (unparsed : wtfString) (s : SegmentedString) (w : list Z) (p : nat) (cl : bool) :
  holds s w p cl -> p = 0%nat \/ chars unparsed = [] ->
  exists s', (match chars (stringOf (Some unparsed)) with
              | [] => Some s
              | _ :: _ => seg ← segmentedOf (Some unparsed); SegmentedString.prepend seg s
              end) = Some s' /\ holds s' (chars unparsed ++ w) p cl.
Proof.
  intros (Hwf & Hv & Hp & Hcl) Hor. simpl.
  destruct (chars unparsed) as [| c u] eqn:Eu; [by exists s |].
  destruct Hor as [-> | ?]; [| done]. destruct unparsed as [u' b]. simpl in Eu. subst u'.
  change (segmentedOf (Some (mkString (c :: u) b))) with (ofString (mkString (c :: u) b)).
  destruct (prepend_runs (c :: u) b s (mkQ ((c :: u) ++ w) 0 cl
    (numberOfCharactersConsumed s - Z.of_nat (length (c :: u)))) Hwf) as (s' & -> & Hw' & Ha & _).
  { unfold q_prepend, abs. by rewrite Hv, Hp, Hcl. }
  exists s'. split; [done |]. injection Ha. intros. by split.
Qed.

Lemma rewind_step (i : nat) (unparsed : wtfString) (b : BackgroundHTMLInputStream) (l l' : Log) :
  represents b l -> logStep (BRewindTo i unparsed) l = Some l' ->
  exists b', backgroundStep (BRewindTo i unparsed) b = Some b' /\ represents b' l'.
Proof.
  intros [(_ & _ & _ & Hcl) Hns Hnf Hseg Hnc Hfst Hb Hck Hord] E. simpl in E |- *.
  destruct (l_checkpoints l !! i) as [x |] eqn:Ex; simpl in E; [| done].
  apply ASSERT_bind in E as [[[Hi Hnull]%andb_true_iff Hpu]%andb_true_iff [= <-]].
  apply Nat.leb_le in Hi. pose proof (lookup_lt_Some _ _ _ Ex) as Hlt.
  destruct (lookup_lt_is_Some_2 (m_checkpoints b) i) as [c Hc]; [lia |].
  unfold rewindTo. rewrite Hc. cbn [mbind option_bind].
  destruct (Hck i c Hi Hc) as (x' & Hx' & Hok). assert (x' = x) as -> by congruence.
  rewrite (null_checkpoint _ _ _ Hok), Hnull. cbn [mbind option_bind ASSERT].
  destruct Hok as [(cl & Hin & Hclosed) Hn Hf Hpsh]. rewrite Hn.
  assert (Hcopy : assign (m_current b) (input c) = Some (input c)).
  { destruct Hin as (Hwi & _ & Hpi & _). apply copy_same; [done | by rewrite Hpi]. }
  rewrite Hcopy. cbn [mbind option_bind].
  destruct (appendAgain_ok (drop (c_segments x) (m_segments b)) (drop (c_segments x) (l_segments l))
    (input c) (c_text x) (c_pushed x) cl Hin) as (s2 & -> & H2).
  { intros ->. destruct (Hclosed eq_refl) as [_ ->]. by apply drop_ge. }
  { change (Forall2 (fun (x0 : nullableString) v => exists str, x0 = Some str /\ v = chars str)
      (drop (c_segments x) (m_segments b)) (drop (c_segments x) (l_segments l))).
    apply Forall2_same_length_lookup. split; [rewrite !length_drop; lia |].
    intros j s v. rewrite !lookup_drop. intros Hs Hv.
    destruct (Hseg (c_segments x + j)%nat s ltac:(lia) Hs) as (str & -> & Hstr).
    exists str. split; [done | congruence]. }
  cbn [mbind option_bind].
  destruct (prepend_unparsed unparsed s2 _ _ _ H2) as (s3 & E3 & H3).
  { apply orb_true_iff in Hpu as [Hpu | Hpu]; apply Nat.eqb_eq in Hpu;
      [by left | right; by apply nil_length_inv]. }
  rewrite E3. cbn [mbind option_bind].
  assert (H4 : exists s4, (if m_closed (m_current b) && negb (m_closed s3)
      then SegmentedString.close s3 else Some s3) = Some s4 /\
    holds s4 (rewound (chars unparsed) x l) (c_pushed x) (l_closed l)).
  { destruct H3 as (Hw3 & Hv3 & Hp3 & Hc3). rewrite Hcl. unfold rewound.
    destruct (l_closed l) eqn:El, cl; rewrite Hc3; simpl.
    - exists s3. split; [done |]. by split.
    - unfold SegmentedString.close. rewrite Hc3. simpl. eexists. split; [done |].
      split; [| done]. by destruct Hw3 as [[] ? ? ?]; split; [split | | |].
    - destruct (Hclosed eq_refl). congruence.
    - exists s3. split; [done |]. by split. }
  destruct H4 as (s4 & E4 & H4). rewrite E4. cbn [mbind option_bind].
  replace (Bool.eqb (m_closed s4) (m_closed (m_current b))) with true.
  2: { symmetry. apply Bool.eqb_true_iff. destruct H4 as (_ & _ & _ & ->). by rewrite Hcl. }
  cbn [mbind option_bind ASSERT]. eexists. split; [done |]. split; simpl; try done.
Qed.

(** Reading and pushing back touch the current buffer only. *)
Lemma scan_step (op : BackgroundOp) (b : BackgroundHTMLInputStream) (l l' : Log) :
  represents b l -> logStep op l = Some l' ->
  match op with BRead | BPush _ => True | _ => False end ->
  exists b', backgroundStep op b = Some b' /\ represents b' l'.
Proof.
  intros Hrep E Hop. pose proof (rep_text _ _ Hrep) as (Hwf & Hv & Hp & Hcl).
  assert (Habs : abs (m_current b) = mkQ (l_text l) (l_pushed l) (l_closed l)
    (numberOfCharactersConsumed (m_current b))) by by apply abs_eq.
  destruct op as [| | | | | | c]; try done; simpl in E |- *.
  - injection E as <-. destruct (advanceLn_runs _ Hwf) as (s & -> & Hw & Ha & _). simpl.
    eexists. split; [done |]. apply set_text_ok; [done |]. split; [done |].
    pose proof (src_wf (S := SegmentedString) (m_current b) Hwf) as [Hq _]. simpl in Hq.
    rewrite Habs in Ha. unfold q_advance in Ha. simpl in Ha.
    destruct (l_text l) as [| x w] eqn:Et; injection Ha as -> -> -> _; [| done].
    rewrite Hv, Hp in Hq. simpl in Hq. by replace (l_pushed l) with 0%nat by lia.
  - apply ASSERT_bind in E as [He [= <-]].
    destruct (push_runs c (m_current b) (mkQ (take (l_pushed l) (l_text l) ++ c :: drop (l_pushed l) (l_text l))
      (S (l_pushed l)) (l_closed l) (numberOfCharactersConsumed (m_current b) - 1)) Hwf)
      as (s & -> & Hw & Ha & _).
    { rewrite Habs. unfold q_push. simpl. by rewrite He. }
    simpl. eexists. split; [done |]. apply set_text_ok; [done |]. injection Ha. intros. by split.
Qed.

Lemma background_step (op : BackgroundOp) (b : BackgroundHTMLInputStream) (l l' : Log) :
  represents b l -> logStep op l = Some l' ->
  exists b', backgroundStep op b = Some b' /\ represents b' l'.
Proof.
  intros Hrep E. destruct op; [by eapply append_step | by eapply close_step
    | by eapply checkpoint_step | by eapply invalidate_step | by eapply rewind_step
    | by eapply scan_step..].
Qed.

Lemma background_run (ops : list BackgroundOp) (b : BackgroundHTMLInputStream) (l l' : Log) :
  represents b l -> logRun ops l = Some l' ->
  exists b', backgroundRun ops b = Some b' /\ represents b' l'.
Proof.
  revert b l. induction ops as [| op ops IH]; intros b l Hrep E; simpl in *.
  { simplify_eq. by exists b. }
  destruct (logStep op l) as [l1 |] eqn:E1; simpl in E; [| done].
  destruct (background_step op b l l1 Hrep E1) as (b1 & -> & H1). by apply (IH b1 l1).
Qed.

Lemma new_background : represents newBackgroundHTMLInputStream newLog.
Proof.
  split; simpl; try done. split; [apply wf_emptySegmentedString | done].
Qed.

(** ** The theorems *)

(** C33: The stream behaves as the log that forgets nothing: whatever operations the
    log allows succeed on the stream, and give the same unread text. *)
Theorem background_refines (ops : list BackgroundOp) (l : Log) :
  logRun ops newLog = Some l ->
  exists b, backgroundRun ops newBackgroundHTMLInputStream = Some b /\
    toString (m_current b) = l_text l /\ m_closed (m_current b) = l_closed l /\
    outstandingCheckpointCount b = (length (l_checkpoints l) - l_first l)%nat.
Proof.
  intros E. destruct (background_run ops _ _ _ new_background E) as (b & -> & Hrep).
  pose proof (rep_text _ _ Hrep) as (Hwf & Hv & _ & Hc).
  exists b. rewrite (toString_ok _ (wf_shape _ Hwf)).
  unfold outstandingCheckpointCount. by rewrite (rep_ncheckpoints _ _ Hrep), (rep_first _ _ Hrep).
Qed.

(** What a sequence of operations appends. *)
Definition since (ops : list BackgroundOp) : list Z :=
  concat (omap (fun op => match op with BAppend str => Some (chars str) | _ => None end) ops).

(** The operation leaves the checkpoint at index [i] valid. *)
Definition keeps (i : nat) (op : BackgroundOp) : Prop :=
  match op with BRewindTo _ _ => False | BInvalidateBefore j => (j <= i)%nat | _ => True end.

Lemma log_keeps (ops : list BackgroundOp) (l l' : Log) (i : nat) (c : LogCheckpoint) :
  Forall (keeps i) ops -> logRun ops l = Some l' -> l_checkpoints l !! i = Some c ->
  (l_first l <= i)%nat ->
  l_checkpoints l' !! i = Some c /\ (l_first l' <= i)%nat /\
  concat (l_segments l') = concat (l_segments l) ++ since ops /\
  exists more, l_segments l' = l_segments l ++ more.
Proof.
  intros HF. revert l. induction HF as [| op ops Hop HF IH]; intros l E Hc Hi; simpl in E.
  { simplify_eq. unfold since. simpl. rewrite app_nil_r. split; [done | split; [done | split; [done |]]].
    exists []. by rewrite app_nil_r. }
  destruct (logStep op l) as [l1 |] eqn:E1; simpl in E; [| done].
  assert (H1 : l_checkpoints l1 !! i = Some c /\ (l_first l1 <= i)%nat /\
    exists new, l_segments l1 = l_segments l ++ new /\ since (op :: ops) = concat new ++ since ops).
  { unfold since. destruct op as [str | | | j | j u | | x]; simpl in E1, Hop |- *; try done.
    - apply ASSERT_bind in E1 as [_ [= <-]]. simpl. split; [done | split; [done |]].
      exists [chars str]. simpl. by rewrite app_nil_r.
    - apply ASSERT_bind in E1 as [_ [= <-]]. simpl. split; [done | split; [done |]].
      exists []. by rewrite app_nil_r.
    - apply ASSERT_bind in E1 as [_ [= <-]]. simpl. split; [apply lookup_snoc; by left | split; [done |]].
      exists []. by rewrite app_nil_r.
    - apply ASSERT_bind in E1 as [_ [= <-]]. simpl. split; [done | split; [done |]].
      exists []. by rewrite app_nil_r.
    - injection E1 as <-. split; [done | split; [done |]]. exists []. by rewrite app_nil_r.
    - apply ASSERT_bind in E1 as [_ [= <-]]. simpl. split; [done | split; [done |]].
      exists []. by rewrite app_nil_r. }
  destruct H1 as (Hc1 & Hi1 & new & Hnew & Hs).
  destruct (IH l1 E Hc1 Hi1) as (? & ? & Hcat & more & Hmore).
  split; [done | split; [done | split]].
  - rewrite Hcat, Hnew, concat_app, Hs. by rewrite app_assoc.
  - exists (new ++ more). by rewrite Hmore, Hnew, app_assoc.
Qed.

Lemma logRun_app (ops ops' : list BackgroundOp) (l : Log) :
  logRun (ops ++ ops') l = l1 ← logRun ops l; logRun ops' l1.
Proof.
  revert l. induction ops as [| op ops IH]; intros l; simpl; [done |].
  destruct (logStep op l); simpl; [apply IH | done].
Qed.

(** What was read, appended or closed since a checkpoint and which older
    checkpoints were given up does not matter: rewinding gives the unread text of
    the checkpoint, with the unparsed text in front and all later segments behind,
    and leaves no checkpoint. *)
Theorem background_rewind (before ops : list BackgroundOp) (l l' : Log) (unparsed : wtfString) :
  logRun before newLog = Some l -> l_pushed l = 0%nat ->
  l_text l <> [] \/ l_segments l <> [] ->
  logRun (BCreateCheckpoint :: ops) l = Some l' ->
  Forall (keeps (length (l_checkpoints l))) ops ->
  exists b b', backgroundRun (before ++ BCreateCheckpoint :: ops) newBackgroundHTMLInputStream = Some b /\
    rewindTo (length (l_checkpoints l)) (Some unparsed) b = Some b' /\
    toString (m_current b') = chars unparsed ++ l_text l ++ since ops /\
    m_closed (m_current b') = m_closed (m_current b) /\
    m_segments b' = [] /\ m_checkpoints b' = [].
Proof.
  intros Eb Hpush Hne E HF.
  destruct (background_run (before ++ BCreateCheckpoint :: ops) _ _ l' new_background)
    as (b & Eb' & Hrep); [by rewrite logRun_app, Eb |].
  simpl in E. rewrite Hpush in E. simpl in E.
  set (c := mkLogCheckpoint (l_text l) 0 (length (l_segments l))) in E.
  assert (Hfirst : (l_first l <= length (l_checkpoints l))%nat).
  { destruct (background_run before _ _ l new_background Eb) as (b0 & _ & H0).
    apply (rep_bound _ _ H0). }
  destruct (log_keeps ops _ l' (length (l_checkpoints l)) c HF E) as (Hc & Hi & Hcat & more & Hmore).
  { apply lookup_snoc. by right. }
  { done. }
  simpl in Hcat, Hmore. rewrite Hmore, concat_app in Hcat. apply app_inv_head in Hcat.
  assert (Hnull : looksNull c = false).
  { unfold looksNull. simpl. destruct (l_text l), (l_segments l); simpl; try done.
    by destruct Hne. }
  destruct (background_step (BRewindTo (length (l_checkpoints l)) unparsed) b l'
    (mkLog (rewound (chars unparsed) c l') 0 (l_closed l') [] [] 0) Hrep) as (b' & Erw & Hrep').
  { simpl. rewrite Hc. cbn [mbind option_bind]. rewrite (proj2 (Nat.leb_le _ _) Hi), Hnull. done. }
  pose proof (rep_text _ _ Hrep) as (_ & _ & _ & Hcl).
  pose proof (rep_text _ _ Hrep') as (Hwf' & Hv' & _ & Hcl').
  exists b, b'. split; [done | split; [exact Erw | split; [| split; [by rewrite Hcl', Hcl | split]]]].
  - rewrite (toString_ok _ (wf_shape _ Hwf')), Hv'. unfold rewound. simpl.
    by rewrite Hmore, drop_app_length, Hcat.
  - apply nil_length_inv, (rep_nsegments _ _ Hrep').
  - apply nil_length_inv, (rep_ncheckpoints _ _ Hrep').
Qed.

(** ** The theorems on concrete streams *)

Definition asciiString (s : string) : wtfString := mkString (units s) true.

Lemma background_refines_witness :
  exists b, backgroundRun [BAppend (asciiString "ab"); BRead; BCreateCheckpoint; BAppend (asciiString "c"); BRead;
      BCreateCheckpoint; BInvalidateBefore 1; BAppend (asciiString "d"); BClose; BRewindTo 1 (asciiString "x")]
      newBackgroundHTMLInputStream = Some b /\
    toString (m_current b) = units "xcd" /\ m_closed (m_current b) = true.
Proof.
  destruct (background_refines [BAppend (asciiString "ab"); BRead; BCreateCheckpoint; BAppend (asciiString "c"); BRead;
      BCreateCheckpoint; BInvalidateBefore 1; BAppend (asciiString "d"); BClose; BRewindTo 1 (asciiString "x")]
    (mkLog (units "xcd") 0 true [] [] 0) eq_refl) as (b & E & Ht & Hc & _).
  exists b. split; [exact E | split; [exact Ht | exact Hc]].
Defined.

Lemma background_rewind_witness :
  exists b b', backgroundRun [BAppend (asciiString "ab"); BRead; BCreateCheckpoint; BAppend (asciiString "c"); BRead; BClose]
      newBackgroundHTMLInputStream = Some b /\
    rewindTo 0 (Some (asciiString "x")) b = Some b' /\ toString (m_current b') = units "xbc".
Proof.
  destruct (background_rewind [BAppend (asciiString "ab"); BRead] [BAppend (asciiString "c"); BRead; BClose]
    (mkLog (units "b") 0 false [units "ab"] [] 0)
    (mkLog [ch "c"] 0 true [units "ab"; units "c"] [mkLogCheckpoint (units "b") 0 1] 0) (asciiString "x"))
    as (b & b' & E & Er & Ht & _); [reflexivity | reflexivity | left; discriminate | reflexivity | |].
  - repeat constructor.
  - exists b, b'. split; [exact E | split; [exact Er | exact Ht]].
Defined.
