(* ===== verification/HTMLTokenizer.v ===== *)
(** * The HTML tokenizer: html/parser/HTMLTokenizer.{h,cpp}

    The state machine of the HTML tokenizer.  [HTMLTokenizer::nextToken] is a
    switch with one block per state whose blocks end in one of a handful of
    macros and helpers; here every block is a function [in_<State>] that performs
    the block's work on the tokenizer and on the token and says how the block
    ends ([Action]), and [stateLoop] carries the actions out on the input buffer.
    Most blocks do not touch the input buffer; the ones that do (character
    references and look-ahead) are written over any [CharSource].

    [parseError] only logs and is left out; the pointer [m_token] is the token
    argument of every function. *)

From S2P Require Import Prelude SegmentedString CharSource HTMLToken HTMLEntitySearch HTMLEntityParser InputStreamPreprocessor.

(** HTMLTokenizer::State *)
Inductive State :=
  | DataState | CharacterReferenceInDataState | RCDATAState | CharacterReferenceInRCDATAState
  | RAWTEXTState | ScriptDataState | PLAINTEXTState
  | TagOpenState | EndTagOpenState | TagNameState
  | RCDATALessThanSignState | RCDATAEndTagOpenState | RCDATAEndTagNameState
  | RAWTEXTLessThanSignState | RAWTEXTEndTagOpenState | RAWTEXTEndTagNameState
  | ScriptDataLessThanSignState | ScriptDataEndTagOpenState | ScriptDataEndTagNameState
  | ScriptDataEscapeStartState | ScriptDataEscapeStartDashState
  | ScriptDataEscapedState | ScriptDataEscapedDashState | ScriptDataEscapedDashDashState
  | ScriptDataEscapedLessThanSignState | ScriptDataEscapedEndTagOpenState
  | ScriptDataEscapedEndTagNameState | ScriptDataDoubleEscapeStartState
  | ScriptDataDoubleEscapedState | ScriptDataDoubleEscapedDashState
  | ScriptDataDoubleEscapedDashDashState | ScriptDataDoubleEscapedLessThanSignState
  | ScriptDataDoubleEscapeEndState
  | BeforeAttributeNameState | AttributeNameState | AfterAttributeNameState
  | BeforeAttributeValueState | AttributeValueDoubleQuotedState
  | AttributeValueSingleQuotedState | AttributeValueUnquotedState
  | CharacterReferenceInAttributeValueState | AfterAttributeValueQuotedState
  | SelfClosingStartTagState | BogusCommentState | ContinueBogusCommentState
  | MarkupDeclarationOpenState | CommentStartState | CommentStartDashState | CommentState
  | CommentEndDashState | CommentEndState | CommentEndBangState
  | DOCTYPEState | BeforeDOCTYPENameState | DOCTYPENameState | AfterDOCTYPENameState
  | AfterDOCTYPEPublicKeywordState | BeforeDOCTYPEPublicIdentifierState
  | DOCTYPEPublicIdentifierDoubleQuotedState | DOCTYPEPublicIdentifierSingleQuotedState
  | AfterDOCTYPEPublicIdentifierState | BetweenDOCTYPEPublicAndSystemIdentifiersState
  | AfterDOCTYPESystemKeywordState | BeforeDOCTYPESystemIdentifierState
  | DOCTYPESystemIdentifierDoubleQuotedState | DOCTYPESystemIdentifierSingleQuotedState
  | AfterDOCTYPESystemIdentifierState | BogusDOCTYPEState
  | CDATASectionState | CDATASectionRightSquareBracketState
  | CDATASectionDoubleRightSquareBracketState.

#[export] Instance State_eq_dec : EqDecision State.
Proof. solve_decision. Defined.

(** The members of HTMLParserOptions the tokenizer reads. *)
Record HTMLParserOptions := mkOptions {
  scriptEnabled : bool;
  pluginsEnabled : bool;
  usePreHTML5ParserQuirks : bool }.

Record HTMLTokenizer := mkTokenizer {
  m_state : State;
  m_forceNullCharacterReplacement : bool;
  m_shouldAllowCDATA : bool;
  m_additionalAllowedCharacter : Z;
  m_inputStreamPreprocessor : InputStreamPreprocessor;
  m_appropriateEndTagName : list Z;
  m_temporaryBuffer : list Z;
  m_bufferedEndTagName : list Z;
  m_options : HTMLParserOptions }.

Definition set_state (x : State) (t : HTMLTokenizer) : HTMLTokenizer :=
  mkTokenizer x (m_forceNullCharacterReplacement t) (m_shouldAllowCDATA t)
    (m_additionalAllowedCharacter t) (m_inputStreamPreprocessor t) (m_appropriateEndTagName t)
    (m_temporaryBuffer t) (m_bufferedEndTagName t) (m_options t).
Definition set_additional (x : Z) (t : HTMLTokenizer) : HTMLTokenizer :=
  mkTokenizer (m_state t) (m_forceNullCharacterReplacement t) (m_shouldAllowCDATA t)
    x (m_inputStreamPreprocessor t) (m_appropriateEndTagName t)
    (m_temporaryBuffer t) (m_bufferedEndTagName t) (m_options t).
Definition set_preprocessor (x : InputStreamPreprocessor) (t : HTMLTokenizer) : HTMLTokenizer :=
  mkTokenizer (m_state t) (m_forceNullCharacterReplacement t) (m_shouldAllowCDATA t)
    (m_additionalAllowedCharacter t) x (m_appropriateEndTagName t)
    (m_temporaryBuffer t) (m_bufferedEndTagName t) (m_options t).
Definition set_appropriate (x : list Z) (t : HTMLTokenizer) : HTMLTokenizer :=
  mkTokenizer (m_state t) (m_forceNullCharacterReplacement t) (m_shouldAllowCDATA t)
    (m_additionalAllowedCharacter t) (m_inputStreamPreprocessor t) x
    (m_temporaryBuffer t) (m_bufferedEndTagName t) (m_options t).
Definition set_temporary (x : list Z) (t : HTMLTokenizer) : HTMLTokenizer :=
  mkTokenizer (m_state t) (m_forceNullCharacterReplacement t) (m_shouldAllowCDATA t)
    (m_additionalAllowedCharacter t) (m_inputStreamPreprocessor t) (m_appropriateEndTagName t)
    x (m_bufferedEndTagName t) (m_options t).
Definition set_buffered (x : list Z) (t : HTMLTokenizer) : HTMLTokenizer :=
  mkTokenizer (m_state t) (m_forceNullCharacterReplacement t) (m_shouldAllowCDATA t)
    (m_additionalAllowedCharacter t) (m_inputStreamPreprocessor t) (m_appropriateEndTagName t)
    (m_temporaryBuffer t) x (m_options t).
Definition setForceNullCharacterReplacement (x : bool) (t : HTMLTokenizer) : HTMLTokenizer :=
  mkTokenizer (m_state t) x (m_shouldAllowCDATA t)
    (m_additionalAllowedCharacter t) (m_inputStreamPreprocessor t) (m_appropriateEndTagName t)
    (m_temporaryBuffer t) (m_bufferedEndTagName t) (m_options t).
Definition setShouldAllowCDATA (x : bool) (t : HTMLTokenizer) : HTMLTokenizer :=
  mkTokenizer (m_state t) (m_forceNullCharacterReplacement t) x
    (m_additionalAllowedCharacter t) (m_inputStreamPreprocessor t) (m_appropriateEndTagName t)
    (m_temporaryBuffer t) (m_bufferedEndTagName t) (m_options t).

(** reset() *)
Definition reset (t : HTMLTokenizer) : HTMLTokenizer :=
  mkTokenizer DataState false false 0 (m_inputStreamPreprocessor t) (m_appropriateEndTagName t)
    (m_temporaryBuffer t) (m_bufferedEndTagName t) (m_options t).

(** HTMLTokenizer(options) *)
Definition newTokenizer (options : HTMLParserOptions) : HTMLTokenizer :=
  reset (mkTokenizer DataState false false 0 (InputStreamPreprocessor.reset false) [] [] [] options).

(** ** Checkpoints *)
Record Checkpoint := mkCheckpoint {
  options : HTMLParserOptions;
  state : State;
  additionalAllowedCharacter : Z;
  skipNextNewLine : bool;
  forceNullCharacterReplacement : bool;
  shouldAllowCDATA : bool }.

(** Checkpoint(): [HTMLParserOptions(0)] enables nothing. *)
Definition newCheckpoint : Checkpoint :=
  mkCheckpoint (mkOptions false false false) DataState 0 false false false.

Definition isEmptyVector (l : list Z) : bool := match l with [] => true | _ :: _ => false end.

Definition canCreateCheckpoint (t : HTMLTokenizer) : bool :=
  if negb (isEmptyVector (m_appropriateEndTagName t)) then false
  else if negb (isEmptyVector (m_temporaryBuffer t)) then false
  else if negb (isEmptyVector (m_bufferedEndTagName t)) then false
  else true.

(** createCheckpoint(result): [forceNullCharacterReplacement] keeps its value. *)
Definition createCheckpoint (result : Checkpoint) (t : HTMLTokenizer) : option Checkpoint :=
  ASSERT (canCreateCheckpoint t);;
  Some (mkCheckpoint (m_options t) (m_state t) (m_additionalAllowedCharacter t)
          (m_skipNextNewLine (m_inputStreamPreprocessor t))
          (forceNullCharacterReplacement result) (m_shouldAllowCDATA t)).

Definition restoreFromCheckpoint (c : Checkpoint) (t : HTMLTokenizer) : HTMLTokenizer :=
  mkTokenizer (state c) (m_forceNullCharacterReplacement t) (shouldAllowCDATA c)
    (additionalAllowedCharacter c) (InputStreamPreprocessor.reset (skipNextNewLine c))
    (m_appropriateEndTagName t) (m_temporaryBuffer t) (m_bufferedEndTagName t) (options c).

(** ** Helpers *)

Definition isTokenizerWhitespace (cc : Z) : bool :=
  (cc =? ch " ") || (cc =? 0x0A) || (cc =? 0x09) || (cc =? 0x0C).

Definition toLowerCase (cc : Z) : option Z := ASSERT (isASCIIUpper cc);; Some (cc + 0x20).

(** [static_cast<LChar>] *)
Definition toLChar (cc : Z) : Z := cc mod 2 ^ 8.

Definition vectorEqualsString (vector string : list Z) : bool := bool_decide (vector = string).

Definition isEndTagBufferingState (s : State) : bool :=
  match s with
  | RCDATAEndTagOpenState | RCDATAEndTagNameState | RAWTEXTEndTagOpenState
  | RAWTEXTEndTagNameState | ScriptDataEndTagOpenState | ScriptDataEndTagNameState
  | ScriptDataEscapedEndTagOpenState | ScriptDataEscapedEndTagNameState => true
  | _ => false
  end.

Definition shouldSkipNullCharacters (t : HTMLTokenizer) : bool :=
  negb (m_forceNullCharacterReplacement t) &&
  match m_state t with DataState | RCDATAState | RAWTEXTState => true | _ => false end.

Definition bufferCharacter (c : Z) (k : HTMLToken) : option HTMLToken :=
  ASSERT (negb (c =? kEndOfFileMarker));;
  k1 ← ensureIsCharacterToken k; appendToCharacter c k1.

Fixpoint bufferCharacters (l : list Z) (k : HTMLToken) : option HTMLToken :=
  match l with
  | [] => Some k
  | c :: l' => k1 ← bufferCharacter c k; bufferCharacters l' k1
  end.

Definition haveBufferedCharacterToken (k : HTMLToken) : bool := isType (m_type k) Character.

Definition saveEndTagNameIfNeeded (t : HTMLTokenizer) (k : HTMLToken) : option HTMLTokenizer :=
  ASSERT (negb (isUninitialized k));;
  if isType (m_type k) StartTag then n ← tokenName k; Some (set_appropriate n t) else Some t.

Definition temporaryBufferIs (expected : list Z) (t : HTMLTokenizer) : bool :=
  vectorEqualsString (m_temporaryBuffer t) expected.

Definition addToPossibleEndTag (cc : Z) (t : HTMLTokenizer) : option HTMLTokenizer :=
  ASSERT (isEndTagBufferingState (m_state t));;
  Some (set_buffered (m_bufferedEndTagName t ++ [cc]) t).

Fixpoint equalNames (n : nat) (a b : list Z) : bool :=
  match n, a, b with
  | O, _, _ => true
  | S n', x :: a', y :: b' => (x =? y) && equalNames n' a' b'
  | _, _, _ => false
  end.

Definition isAppropriateEndTag (t : HTMLTokenizer) : bool :=
  if negb (Nat.eqb (length (m_bufferedEndTagName t)) (length (m_appropriateEndTagName t)))
  then false
  else equalNames (length (m_bufferedEndTagName t)) (m_bufferedEndTagName t)
         (m_appropriateEndTagName t).

Definition scriptTag : list Z := units "script".

(** numberOfBufferedCharacters() and bufferedCharacters() *)
Definition numberOfBufferedCharacters (t : HTMLTokenizer) : Z :=
  if isEmptyVector (m_temporaryBuffer t) then 0
  else Z.of_nat (length (m_temporaryBuffer t)) + 2.
Definition bufferedCharacters (t : HTMLTokenizer) : list Z :=
  ch "<" :: ch "/" :: m_temporaryBuffer t.

(** updateStateFor(tagName) *)
Definition isTag (name tag : list Z) : bool := bool_decide (name = tag).
Definition updateStateFor (tagName : list Z) (t : HTMLTokenizer) : HTMLTokenizer :=
  if isTag tagName (units "textarea") || isTag tagName (units "title") then set_state RCDATAState t
  else if isTag tagName (units "plaintext") then set_state PLAINTEXTState t
  else if isTag tagName scriptTag then set_state ScriptDataState t
  else if isTag tagName (units "style") || isTag tagName (units "iframe")
       || isTag tagName (units "xmp")
       || (isTag tagName (units "noembed") && pluginsEnabled (m_options t))
       || isTag tagName (units "noframes")
       || (isTag tagName (units "noscript") && scriptEnabled (m_options t))
  then set_state RAWTEXTState t
  else t.

(** ** How a state's block ends *)
Inductive Action :=
  | AdvanceTo (s : State)            (* HTML_ADVANCE_TO *)
  | SwitchTo (s : State)             (* HTML_SWITCH_TO *)
  | ReconsumeIn (s : State)          (* HTML_RECONSUME_IN *)
  | FlushAndAdvanceTo (s : State)    (* FLUSH_AND_ADVANCE_TO *)
  | FlushEmitAndResumeIn (s : State) (* return flushEmitAndResumeIn(source, s) *)
  | EmitAndResumeIn (s : State)      (* return emitAndResumeIn(source, s) *)
  | EmitAndReconsumeIn (s : State)   (* return emitAndReconsumeIn(source, s) *)
  | EmitEndOfFile                    (* return emitEndOfFile(source) *)
  | EmitCharacters                   (* return true *)
  | ReturnHaveBuffered.              (* return haveBufferedCharacterToken() *)

Definition Block : Type :=
  HTMLTokenizer -> HTMLToken -> Z -> Z -> option (HTMLTokenizer * HTMLToken * Action).

(** Ends of blocks, with and without work on the token. *)
Definition goto (t : HTMLTokenizer) (k : HTMLToken) (a : Action)
  : option (HTMLTokenizer * HTMLToken * Action) := Some (t, k, a).
Definition after (t : HTMLTokenizer) (k : option HTMLToken) (a : Action)
  : option (HTMLTokenizer * HTMLToken * Action) := k1 ← k; Some (t, k1, a).

Section Blocks.
Local Abbreviation EOF := kEndOfFileMarker.

(** *** Character data *)
Definition in_DataState : Block := fun t k cc pos =>
  if cc =? ch "&" then goto t k (AdvanceTo CharacterReferenceInDataState)
  else if cc =? ch "<" then
    if isType (m_type k) Character then goto t k EmitCharacters
    else goto t k (AdvanceTo TagOpenState)
  else if cc =? EOF then goto t k EmitEndOfFile
  else after t (bufferCharacter cc k) (AdvanceTo DataState).

Definition in_RCDATAState : Block := fun t k cc pos =>
  if cc =? ch "&" then goto t k (AdvanceTo CharacterReferenceInRCDATAState)
  else if cc =? ch "<" then goto t k (AdvanceTo RCDATALessThanSignState)
  else if cc =? EOF then goto t k EmitEndOfFile
  else after t (bufferCharacter cc k) (AdvanceTo RCDATAState).

Definition in_RAWTEXTState : Block := fun t k cc pos =>
  if cc =? ch "<" then goto t k (AdvanceTo RAWTEXTLessThanSignState)
  else if cc =? EOF then goto t k EmitEndOfFile
  else after t (bufferCharacter cc k) (AdvanceTo RAWTEXTState).

Definition in_ScriptDataState : Block := fun t k cc pos =>
  if cc =? ch "<" then goto t k (AdvanceTo ScriptDataLessThanSignState)
  else if cc =? EOF then goto t k EmitEndOfFile
  else after t (bufferCharacter cc k) (AdvanceTo ScriptDataState).

Definition in_PLAINTEXTState : Block := fun t k cc pos =>
  if cc =? EOF then goto t k EmitEndOfFile
  else after t (bufferCharacter cc k) (AdvanceTo PLAINTEXTState).

(** *** Tags *)
Definition in_TagOpenState : Block := fun t k cc pos =>
  if cc =? ch "!" then goto t k (AdvanceTo MarkupDeclarationOpenState)
  else if cc =? ch "/" then goto t k (AdvanceTo EndTagOpenState)
  else if isASCIIUpper cc then
    c ← toLowerCase cc; after t (beginStartTag c k) (AdvanceTo TagNameState)
  else if isASCIILower cc then after t (beginStartTag cc k) (AdvanceTo TagNameState)
  else if cc =? ch "?" then goto t k (ReconsumeIn BogusCommentState)
  else after t (bufferCharacter (ch "<") k) (ReconsumeIn DataState).

Definition in_EndTagOpenState : Block := fun t k cc pos =>
  if isASCIIUpper cc then
    c ← toLowerCase cc;
    k1 ← beginEndTagChar (toLChar c) k;
    goto (set_appropriate [] t) k1 (AdvanceTo TagNameState)
  else if isASCIILower cc then
    k1 ← beginEndTagChar (toLChar cc) k;
    goto (set_appropriate [] t) k1 (AdvanceTo TagNameState)
  else if cc =? ch ">" then goto t k (AdvanceTo DataState)
  else if cc =? EOF then
    after t (k1 ← bufferCharacter (ch "<") k; bufferCharacter (ch "/") k1) (ReconsumeIn DataState)
  else goto t k (ReconsumeIn BogusCommentState).

Definition in_TagNameState : Block := fun t k cc pos =>
  if isTokenizerWhitespace cc then goto t k (AdvanceTo BeforeAttributeNameState)
  else if cc =? ch "/" then goto t k (AdvanceTo SelfClosingStartTagState)
  else if cc =? ch ">" then goto t k (EmitAndResumeIn DataState)
  else if usePreHTML5ParserQuirks (m_options t) && (cc =? ch "<")
  then goto t k (EmitAndReconsumeIn DataState)
  else if isASCIIUpper cc then
    c ← toLowerCase cc; after t (appendToName c k) (AdvanceTo TagNameState)
  else if cc =? EOF then goto t k (ReconsumeIn DataState)
  else after t (appendToName cc k) (AdvanceTo TagNameState).

(** *** End tags in RCDATA, RAWTEXT and script data

    The blocks of the four kinds of text differ only in the states they go to. *)
Definition lessThanSignSlash (endTagOpen : State) (t : HTMLTokenizer) (k : HTMLToken)
  : option (HTMLTokenizer * HTMLToken * Action) :=
  let t1 := set_temporary [] t in
  ASSERT (isEmptyVector (m_bufferedEndTagName t1));; goto t1 k (AdvanceTo endTagOpen).

Definition endTagOpen (endTagName text : State) : Block := fun t k cc pos =>
  if isASCIIUpper cc then
    let t1 := set_temporary (m_temporaryBuffer t ++ [toLChar cc]) t in
    c ← toLowerCase cc;
    t2 ← addToPossibleEndTag (toLChar c) t1; goto t2 k (AdvanceTo endTagName)
  else if isASCIILower cc then
    let t1 := set_temporary (m_temporaryBuffer t ++ [toLChar cc]) t in
    t2 ← addToPossibleEndTag (toLChar cc) t1; goto t2 k (AdvanceTo endTagName)
  else after t (k1 ← bufferCharacter (ch "<") k; bufferCharacter (ch "/") k1) (ReconsumeIn text).

(** The end of the end-tag-name blocks: the characters were no end tag. *)
Definition notAnEndTag (text : State) (t : HTMLTokenizer) (k : HTMLToken)
  : option (HTMLTokenizer * HTMLToken * Action) :=
  k1 ← bufferCharacter (ch "<") k;
  k2 ← bufferCharacter (ch "/") k1;
  k3 ← appendVectorToCharacter (m_temporaryBuffer t) k2;
  goto (set_temporary [] (set_buffered [] t)) k3 (ReconsumeIn text).

Definition endTagName (self text : State) : Block := fun t k cc pos =>
  let t1 := set_temporary (m_temporaryBuffer t ++ [toLChar cc]) t in
  if isASCIIUpper cc then
    c ← toLowerCase cc;
    t2 ← addToPossibleEndTag (toLChar c) t1; goto t2 k (AdvanceTo self)
  else if isASCIILower cc then
    t2 ← addToPossibleEndTag (toLChar cc) t1; goto t2 k (AdvanceTo self)
  else if isTokenizerWhitespace cc then
    if isAppropriateEndTag t then goto t1 k (FlushAndAdvanceTo BeforeAttributeNameState)
    else notAnEndTag text t k
  else if cc =? ch "/" then
    if isAppropriateEndTag t then goto t1 k (FlushAndAdvanceTo SelfClosingStartTagState)
    else notAnEndTag text t k
  else if cc =? ch ">" then
    if isAppropriateEndTag t then goto t1 k (FlushEmitAndResumeIn DataState)
    else notAnEndTag text t k
  else notAnEndTag text t k.

Definition in_RCDATALessThanSignState : Block := fun t k cc pos =>
  if cc =? ch "/" then lessThanSignSlash RCDATAEndTagOpenState t k
  else after t (bufferCharacter (ch "<") k) (ReconsumeIn RCDATAState).
Definition in_RCDATAEndTagOpenState : Block := endTagOpen RCDATAEndTagNameState RCDATAState.
Definition in_RCDATAEndTagNameState : Block := endTagName RCDATAEndTagNameState RCDATAState.

Definition in_RAWTEXTLessThanSignState : Block := fun t k cc pos =>
  if cc =? ch "/" then lessThanSignSlash RAWTEXTEndTagOpenState t k
  else after t (bufferCharacter (ch "<") k) (ReconsumeIn RAWTEXTState).
Definition in_RAWTEXTEndTagOpenState : Block := endTagOpen RAWTEXTEndTagNameState RAWTEXTState.
Definition in_RAWTEXTEndTagNameState : Block := endTagName RAWTEXTEndTagNameState RAWTEXTState.

(** *** Script data *)
Definition in_ScriptDataLessThanSignState : Block := fun t k cc pos =>
  if cc =? ch "/" then lessThanSignSlash ScriptDataEndTagOpenState t k
  else if cc =? ch "!" then
    after t (k1 ← bufferCharacter (ch "<") k; bufferCharacter (ch "!") k1)
      (AdvanceTo ScriptDataEscapeStartState)
  else after t (bufferCharacter (ch "<") k) (ReconsumeIn ScriptDataState).
Definition in_ScriptDataEndTagOpenState : Block :=
  endTagOpen ScriptDataEndTagNameState ScriptDataState.
Definition in_ScriptDataEndTagNameState : Block :=
  endTagName ScriptDataEndTagNameState ScriptDataState.

Definition in_ScriptDataEscapeStartState : Block := fun t k cc pos =>
  if cc =? ch "-" then after t (bufferCharacter cc k) (AdvanceTo ScriptDataEscapeStartDashState)
  else goto t k (ReconsumeIn ScriptDataState).

Definition in_ScriptDataEscapeStartDashState : Block := fun t k cc pos =>
  if cc =? ch "-" then after t (bufferCharacter cc k) (AdvanceTo ScriptDataEscapedDashDashState)
  else goto t k (ReconsumeIn ScriptDataState).

Definition in_ScriptDataEscapedState : Block := fun t k cc pos =>
  if cc =? ch "-" then after t (bufferCharacter cc k) (AdvanceTo ScriptDataEscapedDashState)
  else if cc =? ch "<" then goto t k (AdvanceTo ScriptDataEscapedLessThanSignState)
  else if cc =? EOF then goto t k (ReconsumeIn DataState)
  else after t (bufferCharacter cc k) (AdvanceTo ScriptDataEscapedState).

Definition in_ScriptDataEscapedDashState : Block := fun t k cc pos =>
  if cc =? ch "-" then after t (bufferCharacter cc k) (AdvanceTo ScriptDataEscapedDashDashState)
  else if cc =? ch "<" then goto t k (AdvanceTo ScriptDataEscapedLessThanSignState)
  else if cc =? EOF then goto t k (ReconsumeIn DataState)
  else after t (bufferCharacter cc k) (AdvanceTo ScriptDataEscapedState).

Definition in_ScriptDataEscapedDashDashState : Block := fun t k cc pos =>
  if cc =? ch "-" then after t (bufferCharacter cc k) (AdvanceTo ScriptDataEscapedDashDashState)
  else if cc =? ch "<" then goto t k (AdvanceTo ScriptDataEscapedLessThanSignState)
  else if cc =? ch ">" then after t (bufferCharacter cc k) (AdvanceTo ScriptDataState)
  else if cc =? EOF then goto t k (ReconsumeIn DataState)
  else after t (bufferCharacter cc k) (AdvanceTo ScriptDataEscapedState).

Definition in_ScriptDataEscapedLessThanSignState : Block := fun t k cc pos =>
  if cc =? ch "/" then lessThanSignSlash ScriptDataEscapedEndTagOpenState t k
  else if isASCIIUpper cc then
    k1 ← bufferCharacter (ch "<") k;
    k2 ← bufferCharacter cc k1;
    c ← toLowerCase cc;
    goto (set_temporary [toLChar c] t) k2 (AdvanceTo ScriptDataDoubleEscapeStartState)
  else if isASCIILower cc then
    k1 ← bufferCharacter (ch "<") k;
    k2 ← bufferCharacter cc k1;
    goto (set_temporary [toLChar cc] t) k2 (AdvanceTo ScriptDataDoubleEscapeStartState)
  else after t (bufferCharacter (ch "<") k) (ReconsumeIn ScriptDataEscapedState).
Definition in_ScriptDataEscapedEndTagOpenState : Block :=
  endTagOpen ScriptDataEscapedEndTagNameState ScriptDataEscapedState.
Definition in_ScriptDataEscapedEndTagNameState : Block :=
  endTagName ScriptDataEscapedEndTagNameState ScriptDataEscapedState.

(** The two double-escape blocks: a tag name read into the temporary buffer is
    compared with "script". *)
Definition doubleEscape (self onScript otherwise : State) : Block := fun t k cc pos =>
  if isTokenizerWhitespace cc || (cc =? ch "/") || (cc =? ch ">") then
    k1 ← bufferCharacter cc k;
    if temporaryBufferIs scriptTag t then goto t k1 (AdvanceTo onScript)
    else goto t k1 (AdvanceTo otherwise)
  else if isASCIIUpper cc then
    k1 ← bufferCharacter cc k;
    c ← toLowerCase cc;
    goto (set_temporary (m_temporaryBuffer t ++ [toLChar c]) t) k1 (AdvanceTo self)
  else if isASCIILower cc then
    k1 ← bufferCharacter cc k;
    goto (set_temporary (m_temporaryBuffer t ++ [toLChar cc]) t) k1 (AdvanceTo self)
  else goto t k (ReconsumeIn otherwise).

Definition in_ScriptDataDoubleEscapeStartState : Block :=
  doubleEscape ScriptDataDoubleEscapeStartState ScriptDataDoubleEscapedState ScriptDataEscapedState.
Definition in_ScriptDataDoubleEscapeEndState : Block :=
  doubleEscape ScriptDataDoubleEscapeEndState ScriptDataEscapedState ScriptDataDoubleEscapedState.

Definition in_ScriptDataDoubleEscapedState : Block := fun t k cc pos =>
  if cc =? ch "-" then after t (bufferCharacter cc k) (AdvanceTo ScriptDataDoubleEscapedDashState)
  else if cc =? ch "<" then
    after t (bufferCharacter cc k) (AdvanceTo ScriptDataDoubleEscapedLessThanSignState)
  else if cc =? EOF then goto t k (ReconsumeIn DataState)
  else after t (bufferCharacter cc k) (AdvanceTo ScriptDataDoubleEscapedState).

Definition in_ScriptDataDoubleEscapedDashState : Block := fun t k cc pos =>
  if cc =? ch "-" then after t (bufferCharacter cc k) (AdvanceTo ScriptDataDoubleEscapedDashDashState)
  else if cc =? ch "<" then
    after t (bufferCharacter cc k) (AdvanceTo ScriptDataDoubleEscapedLessThanSignState)
  else if cc =? EOF then goto t k (ReconsumeIn DataState)
  else after t (bufferCharacter cc k) (AdvanceTo ScriptDataDoubleEscapedState).

Definition in_ScriptDataDoubleEscapedDashDashState : Block := fun t k cc pos =>
  if cc =? ch "-" then after t (bufferCharacter cc k) (AdvanceTo ScriptDataDoubleEscapedDashDashState)
  else if cc =? ch "<" then
    after t (bufferCharacter cc k) (AdvanceTo ScriptDataDoubleEscapedLessThanSignState)
  else if cc =? ch ">" then after t (bufferCharacter cc k) (AdvanceTo ScriptDataState)
  else if cc =? EOF then goto t k (ReconsumeIn DataState)
  else after t (bufferCharacter cc k) (AdvanceTo ScriptDataDoubleEscapedState).

Definition in_ScriptDataDoubleEscapedLessThanSignState : Block := fun t k cc pos =>
  if cc =? ch "/" then
    after (set_temporary [] t) (bufferCharacter cc k) (AdvanceTo ScriptDataDoubleEscapeEndState)
  else goto t k (ReconsumeIn ScriptDataDoubleEscapedState).

(** *** Attributes *)

(** [addNewAttribute], [beginAttributeName] and [appendToAttributeName]. *)
Definition startAttribute (cc pos : Z) (k : HTMLToken) : option HTMLToken :=
  k1 ← addNewAttribute k;
  k2 ← beginAttributeName pos k1;
  appendToAttributeName cc k2.

Definition in_BeforeAttributeNameState : Block := fun t k cc pos =>
  if isTokenizerWhitespace cc then goto t k (AdvanceTo BeforeAttributeNameState)
  else if cc =? ch "/" then goto t k (AdvanceTo SelfClosingStartTagState)
  else if cc =? ch ">" then goto t k (EmitAndResumeIn DataState)
  else if usePreHTML5ParserQuirks (m_options t) && (cc =? ch "<")
  then goto t k (EmitAndReconsumeIn DataState)
  else if isASCIIUpper cc then
    c ← toLowerCase cc; after t (startAttribute c pos k) (AdvanceTo AttributeNameState)
  else if cc =? EOF then goto t k (ReconsumeIn DataState)
  else after t (startAttribute cc pos k) (AdvanceTo AttributeNameState).

Definition in_AttributeNameState : Block := fun t k cc pos =>
  if isTokenizerWhitespace cc
  then after t (endAttributeName pos k) (AdvanceTo AfterAttributeNameState)
  else if cc =? ch "/" then after t (endAttributeName pos k) (AdvanceTo SelfClosingStartTagState)
  else if cc =? ch "=" then after t (endAttributeName pos k) (AdvanceTo BeforeAttributeValueState)
  else if cc =? ch ">" then after t (endAttributeName pos k) (EmitAndResumeIn DataState)
  else if usePreHTML5ParserQuirks (m_options t) && (cc =? ch "<")
  then after t (endAttributeName pos k) (EmitAndReconsumeIn DataState)
  else if isASCIIUpper cc then
    c ← toLowerCase cc; after t (appendToAttributeName c k) (AdvanceTo AttributeNameState)
  else if cc =? EOF then after t (endAttributeName pos k) (ReconsumeIn DataState)
  else after t (appendToAttributeName cc k) (AdvanceTo AttributeNameState).

Definition in_AfterAttributeNameState : Block := fun t k cc pos =>
  if isTokenizerWhitespace cc then goto t k (AdvanceTo AfterAttributeNameState)
  else if cc =? ch "/" then goto t k (AdvanceTo SelfClosingStartTagState)
  else if cc =? ch "=" then goto t k (AdvanceTo BeforeAttributeValueState)
  else if cc =? ch ">" then goto t k (EmitAndResumeIn DataState)
  else if usePreHTML5ParserQuirks (m_options t) && (cc =? ch "<")
  then goto t k (EmitAndReconsumeIn DataState)
  else if isASCIIUpper cc then
    c ← toLowerCase cc; after t (startAttribute c pos k) (AdvanceTo AttributeNameState)
  else if cc =? EOF then goto t k (ReconsumeIn DataState)
  else after t (startAttribute cc pos k) (AdvanceTo AttributeNameState).

Definition in_BeforeAttributeValueState : Block := fun t k cc pos =>
  if isTokenizerWhitespace cc then goto t k (AdvanceTo BeforeAttributeValueState)
  else if cc =? 34 then
    after t (beginAttributeValue (pos + 1) k) (AdvanceTo AttributeValueDoubleQuotedState)
  else if cc =? ch "&" then
    after t (beginAttributeValue pos k) (ReconsumeIn AttributeValueUnquotedState)
  else if cc =? 39 then
    after t (beginAttributeValue (pos + 1) k) (AdvanceTo AttributeValueSingleQuotedState)
  else if cc =? ch ">" then goto t k (EmitAndResumeIn DataState)
  else if cc =? EOF then goto t k (ReconsumeIn DataState)
  else after t (k1 ← beginAttributeValue pos k; appendToAttributeValue cc k1)
         (AdvanceTo AttributeValueUnquotedState).

(** The two quoted-value blocks, for the quote [q]. *)
Definition attributeValueQuoted (q : Z) (self : State) : Block := fun t k cc pos =>
  if cc =? q then after t (endAttributeValue pos k) (AdvanceTo AfterAttributeValueQuotedState)
  else if cc =? ch "&" then
    goto (set_additional q t) k (AdvanceTo CharacterReferenceInAttributeValueState)
  else if cc =? EOF then after t (endAttributeValue pos k) (ReconsumeIn DataState)
  else after t (appendToAttributeValue cc k) (AdvanceTo self).

Definition in_AttributeValueDoubleQuotedState : Block :=
  attributeValueQuoted 34 AttributeValueDoubleQuotedState.
Definition in_AttributeValueSingleQuotedState : Block :=
  attributeValueQuoted 39 AttributeValueSingleQuotedState.

Definition in_AttributeValueUnquotedState : Block := fun t k cc pos =>
  if isTokenizerWhitespace cc
  then after t (endAttributeValue pos k) (AdvanceTo BeforeAttributeNameState)
  else if cc =? ch "&" then
    goto (set_additional (ch ">") t) k (AdvanceTo CharacterReferenceInAttributeValueState)
  else if cc =? ch ">" then after t (endAttributeValue pos k) (EmitAndResumeIn DataState)
  else if cc =? EOF then after t (endAttributeValue pos k) (ReconsumeIn DataState)
  else after t (appendToAttributeValue cc k) (AdvanceTo AttributeValueUnquotedState).

Definition in_AfterAttributeValueQuotedState : Block := fun t k cc pos =>
  if isTokenizerWhitespace cc then goto t k (AdvanceTo BeforeAttributeNameState)
  else if cc =? ch "/" then goto t k (AdvanceTo SelfClosingStartTagState)
  else if cc =? ch ">" then goto t k (EmitAndResumeIn DataState)
  else if usePreHTML5ParserQuirks (m_options t) && (cc =? ch "<")
  then goto t k (EmitAndReconsumeIn DataState)
  else if cc =? EOF then goto t k (ReconsumeIn DataState)
  else goto t k (ReconsumeIn BeforeAttributeNameState).

Definition in_SelfClosingStartTagState : Block := fun t k cc pos =>
  if cc =? ch ">" then after t (setSelfClosing k) (EmitAndResumeIn DataState)
  else if cc =? EOF then goto t k (ReconsumeIn DataState)
  else goto t k (ReconsumeIn BeforeAttributeNameState).

(** *** Comments *)
Definition in_BogusCommentState : Block := fun t k cc pos =>
  after t (beginComment k) (ReconsumeIn ContinueBogusCommentState).

Definition in_ContinueBogusCommentState : Block := fun t k cc pos =>
  if cc =? ch ">" then goto t k (EmitAndResumeIn DataState)
  else if cc =? EOF then goto t k (EmitAndReconsumeIn DataState)
  else after t (appendToComment cc k) (AdvanceTo ContinueBogusCommentState).

Fixpoint appendAllToComment (l : list Z) (k : HTMLToken) : option HTMLToken :=
  match l with
  | [] => Some k
  | c :: l' => k1 ← appendToComment c k; appendAllToComment l' k1
  end.

Definition in_CommentStartState : Block := fun t k cc pos =>
  if cc =? ch "-" then goto t k (AdvanceTo CommentStartDashState)
  else if cc =? ch ">" then goto t k (EmitAndResumeIn DataState)
  else if cc =? EOF then goto t k (EmitAndReconsumeIn DataState)
  else after t (appendToComment cc k) (AdvanceTo CommentState).

Definition in_CommentStartDashState : Block := fun t k cc pos =>
  if cc =? ch "-" then goto t k (AdvanceTo CommentEndState)
  else if cc =? ch ">" then goto t k (EmitAndResumeIn DataState)
  else if cc =? EOF then goto t k (EmitAndReconsumeIn DataState)
  else after t (appendAllToComment [ch "-"; cc] k) (AdvanceTo CommentState).

Definition in_CommentState : Block := fun t k cc pos =>
  if cc =? ch "-" then goto t k (AdvanceTo CommentEndDashState)
  else if cc =? EOF then goto t k (EmitAndReconsumeIn DataState)
  else after t (appendToComment cc k) (AdvanceTo CommentState).

Definition in_CommentEndDashState : Block := fun t k cc pos =>
  if cc =? ch "-" then goto t k (AdvanceTo CommentEndState)
  else if cc =? EOF then goto t k (EmitAndReconsumeIn DataState)
  else after t (appendAllToComment [ch "-"; cc] k) (AdvanceTo CommentState).

Definition in_CommentEndState : Block := fun t k cc pos =>
  if cc =? ch ">" then goto t k (EmitAndResumeIn DataState)
  else if cc =? ch "!" then goto t k (AdvanceTo CommentEndBangState)
  else if cc =? ch "-" then after t (appendToComment (ch "-") k) (AdvanceTo CommentEndState)
  else if cc =? EOF then goto t k (EmitAndReconsumeIn DataState)
  else after t (appendAllToComment [ch "-"; ch "-"; cc] k) (AdvanceTo CommentState).

Definition in_CommentEndBangState : Block := fun t k cc pos =>
  if cc =? ch "-" then
    after t (appendAllToComment [ch "-"; ch "-"; ch "!"] k) (AdvanceTo CommentEndDashState)
  else if cc =? ch ">" then goto t k (EmitAndResumeIn DataState)
  else if cc =? EOF then goto t k (EmitAndReconsumeIn DataState)
  else after t (appendAllToComment [ch "-"; ch "-"; ch "!"; cc] k) (AdvanceTo CommentState).

(** *** DOCTYPE *)
Definition in_DOCTYPEState : Block := fun t k cc pos =>
  if isTokenizerWhitespace cc then goto t k (AdvanceTo BeforeDOCTYPENameState)
  else if cc =? EOF then
    after t (k1 ← beginDOCTYPE k; setForceQuirks k1) (EmitAndReconsumeIn DataState)
  else goto t k (ReconsumeIn BeforeDOCTYPENameState).

Definition in_BeforeDOCTYPENameState : Block := fun t k cc pos =>
  if isTokenizerWhitespace cc then goto t k (AdvanceTo BeforeDOCTYPENameState)
  else if isASCIIUpper cc then
    c ← toLowerCase cc; after t (beginDOCTYPEWith c k) (AdvanceTo DOCTYPENameState)
  else if cc =? ch ">" then
    after t (k1 ← beginDOCTYPE k; setForceQuirks k1) (EmitAndResumeIn DataState)
  else if cc =? EOF then
    after t (k1 ← beginDOCTYPE k; setForceQuirks k1) (EmitAndReconsumeIn DataState)
  else after t (beginDOCTYPEWith cc k) (AdvanceTo DOCTYPENameState).

Definition in_DOCTYPENameState : Block := fun t k cc pos =>
  if isTokenizerWhitespace cc then goto t k (AdvanceTo AfterDOCTYPENameState)
  else if cc =? ch ">" then goto t k (EmitAndResumeIn DataState)
  else if isASCIIUpper cc then
    c ← toLowerCase cc; after t (appendToName c k) (AdvanceTo DOCTYPENameState)
  else if cc =? EOF then after t (setForceQuirks k) (EmitAndReconsumeIn DataState)
  else after t (appendToName cc k) (AdvanceTo DOCTYPENameState).

(** The end shared by the DOCTYPE blocks: [>], the end of the file, or junk. *)
Definition doctypeTail (t : HTMLTokenizer) (k : HTMLToken) (cc : Z)
  : option (HTMLTokenizer * HTMLToken * Action) :=
  if cc =? ch ">" then after t (setForceQuirks k) (EmitAndResumeIn DataState)
  else if cc =? EOF then after t (setForceQuirks k) (EmitAndReconsumeIn DataState)
  else after t (setForceQuirks k) (AdvanceTo BogusDOCTYPEState).

Definition in_AfterDOCTYPEPublicKeywordState : Block := fun t k cc pos =>
  if isTokenizerWhitespace cc then goto t k (AdvanceTo BeforeDOCTYPEPublicIdentifierState)
  else if cc =? 34 then
    after t (setPublicIdentifierToEmptyString k) (AdvanceTo DOCTYPEPublicIdentifierDoubleQuotedState)
  else if cc =? 39 then
    after t (setPublicIdentifierToEmptyString k) (AdvanceTo DOCTYPEPublicIdentifierSingleQuotedState)
  else doctypeTail t k cc.

Definition in_BeforeDOCTYPEPublicIdentifierState : Block := fun t k cc pos =>
  if isTokenizerWhitespace cc then goto t k (AdvanceTo BeforeDOCTYPEPublicIdentifierState)
  else if cc =? 34 then
    after t (setPublicIdentifierToEmptyString k) (AdvanceTo DOCTYPEPublicIdentifierDoubleQuotedState)
  else if cc =? 39 then
    after t (setPublicIdentifierToEmptyString k) (AdvanceTo DOCTYPEPublicIdentifierSingleQuotedState)
  else doctypeTail t k cc.

(** The four quoted-identifier blocks: quote [q], state after it, and the append. *)
Definition identifierQuoted (q : Z) (self next : State)
    (append : Z -> HTMLToken -> option HTMLToken) : Block := fun t k cc pos =>
  if cc =? q then goto t k (AdvanceTo next)
  else if cc =? ch ">" then after t (setForceQuirks k) (EmitAndResumeIn DataState)
  else if cc =? EOF then after t (setForceQuirks k) (EmitAndReconsumeIn DataState)
  else after t (append cc k) (AdvanceTo self).

Definition in_DOCTYPEPublicIdentifierDoubleQuotedState : Block :=
  identifierQuoted 34 DOCTYPEPublicIdentifierDoubleQuotedState AfterDOCTYPEPublicIdentifierState
    appendToPublicIdentifier.
Definition in_DOCTYPEPublicIdentifierSingleQuotedState : Block :=
  identifierQuoted 39 DOCTYPEPublicIdentifierSingleQuotedState AfterDOCTYPEPublicIdentifierState
    appendToPublicIdentifier.

Definition in_AfterDOCTYPEPublicIdentifierState : Block := fun t k cc pos =>
  if isTokenizerWhitespace cc
  then goto t k (AdvanceTo BetweenDOCTYPEPublicAndSystemIdentifiersState)
  else if cc =? ch ">" then goto t k (EmitAndResumeIn DataState)
  else if cc =? 34 then
    after t (setSystemIdentifierToEmptyString k) (AdvanceTo DOCTYPESystemIdentifierDoubleQuotedState)
  else if cc =? 39 then
    after t (setSystemIdentifierToEmptyString k) (AdvanceTo DOCTYPESystemIdentifierSingleQuotedState)
  else if cc =? EOF then after t (setForceQuirks k) (EmitAndReconsumeIn DataState)
  else after t (setForceQuirks k) (AdvanceTo BogusDOCTYPEState).

Definition in_BetweenDOCTYPEPublicAndSystemIdentifiersState : Block := fun t k cc pos =>
  if isTokenizerWhitespace cc
  then goto t k (AdvanceTo BetweenDOCTYPEPublicAndSystemIdentifiersState)
  else if cc =? ch ">" then goto t k (EmitAndResumeIn DataState)
  else if cc =? 34 then
    after t (setSystemIdentifierToEmptyString k) (AdvanceTo DOCTYPESystemIdentifierDoubleQuotedState)
  else if cc =? 39 then
    after t (setSystemIdentifierToEmptyString k) (AdvanceTo DOCTYPESystemIdentifierSingleQuotedState)
  else if cc =? EOF then after t (setForceQuirks k) (EmitAndReconsumeIn DataState)
  else after t (setForceQuirks k) (AdvanceTo BogusDOCTYPEState).

Definition in_AfterDOCTYPESystemKeywordState : Block := fun t k cc pos =>
  if isTokenizerWhitespace cc then goto t k (AdvanceTo BeforeDOCTYPESystemIdentifierState)
  else if cc =? 34 then
    after t (setSystemIdentifierToEmptyString k) (AdvanceTo DOCTYPESystemIdentifierDoubleQuotedState)
  else if cc =? 39 then
    after t (setSystemIdentifierToEmptyString k) (AdvanceTo DOCTYPESystemIdentifierSingleQuotedState)
  else doctypeTail t k cc.

Definition in_BeforeDOCTYPESystemIdentifierState : Block := fun t k cc pos =>
  if isTokenizerWhitespace cc then goto t k (AdvanceTo BeforeDOCTYPESystemIdentifierState)
  else if cc =? 34 then
    after t (setSystemIdentifierToEmptyString k) (AdvanceTo DOCTYPESystemIdentifierDoubleQuotedState)
  else if cc =? 39 then
    after t (setSystemIdentifierToEmptyString k) (AdvanceTo DOCTYPESystemIdentifierSingleQuotedState)
  else doctypeTail t k cc.

Definition in_DOCTYPESystemIdentifierDoubleQuotedState : Block :=
  identifierQuoted 34 DOCTYPESystemIdentifierDoubleQuotedState AfterDOCTYPESystemIdentifierState
    appendToSystemIdentifier.
Definition in_DOCTYPESystemIdentifierSingleQuotedState : Block :=
  identifierQuoted 39 DOCTYPESystemIdentifierSingleQuotedState AfterDOCTYPESystemIdentifierState
    appendToSystemIdentifier.

Definition in_AfterDOCTYPESystemIdentifierState : Block := fun t k cc pos =>
  if isTokenizerWhitespace cc then goto t k (AdvanceTo AfterDOCTYPESystemIdentifierState)
  else if cc =? ch ">" then goto t k (EmitAndResumeIn DataState)
  else if cc =? EOF then after t (setForceQuirks k) (EmitAndReconsumeIn DataState)
  else goto t k (AdvanceTo BogusDOCTYPEState).

Definition in_BogusDOCTYPEState : Block := fun t k cc pos =>
  if cc =? ch ">" then goto t k (EmitAndResumeIn DataState)
  else if cc =? EOF then goto t k (EmitAndReconsumeIn DataState)
  else goto t k (AdvanceTo BogusDOCTYPEState).

(** *** CDATA sections *)
Definition in_CDATASectionState : Block := fun t k cc pos =>
  if cc =? ch "]" then goto t k (AdvanceTo CDATASectionRightSquareBracketState)
  else if cc =? EOF then goto t k (ReconsumeIn DataState)
  else after t (bufferCharacter cc k) (AdvanceTo CDATASectionState).

Definition in_CDATASectionRightSquareBracketState : Block := fun t k cc pos =>
  if cc =? ch "]" then goto t k (AdvanceTo CDATASectionDoubleRightSquareBracketState)
  else after t (bufferCharacter (ch "]") k) (ReconsumeIn CDATASectionState).

Definition in_CDATASectionDoubleRightSquareBracketState : Block := fun t k cc pos =>
  if cc =? ch ">" then goto t k (AdvanceTo DataState)
  else after t (k1 ← bufferCharacter (ch "]") k; bufferCharacter (ch "]") k1)
         (ReconsumeIn CDATASectionState).

(** The blocks that do not touch the input buffer. *)
Definition pureBlock (s : State) : Block :=
  match s with
  | DataState => in_DataState
  | RCDATAState => in_RCDATAState
  | RAWTEXTState => in_RAWTEXTState
  | ScriptDataState => in_ScriptDataState
  | PLAINTEXTState => in_PLAINTEXTState
  | TagOpenState => in_TagOpenState
  | EndTagOpenState => in_EndTagOpenState
  | TagNameState => in_TagNameState
  | RCDATALessThanSignState => in_RCDATALessThanSignState
  | RCDATAEndTagOpenState => in_RCDATAEndTagOpenState
  | RCDATAEndTagNameState => in_RCDATAEndTagNameState
  | RAWTEXTLessThanSignState => in_RAWTEXTLessThanSignState
  | RAWTEXTEndTagOpenState => in_RAWTEXTEndTagOpenState
  | RAWTEXTEndTagNameState => in_RAWTEXTEndTagNameState
  | ScriptDataLessThanSignState => in_ScriptDataLessThanSignState
  | ScriptDataEndTagOpenState => in_ScriptDataEndTagOpenState
  | ScriptDataEndTagNameState => in_ScriptDataEndTagNameState
  | ScriptDataEscapeStartState => in_ScriptDataEscapeStartState
  | ScriptDataEscapeStartDashState => in_ScriptDataEscapeStartDashState
  | ScriptDataEscapedState => in_ScriptDataEscapedState
  | ScriptDataEscapedDashState => in_ScriptDataEscapedDashState
  | ScriptDataEscapedDashDashState => in_ScriptDataEscapedDashDashState
  | ScriptDataEscapedLessThanSignState => in_ScriptDataEscapedLessThanSignState
  | ScriptDataEscapedEndTagOpenState => in_ScriptDataEscapedEndTagOpenState
  | ScriptDataEscapedEndTagNameState => in_ScriptDataEscapedEndTagNameState
  | ScriptDataDoubleEscapeStartState => in_ScriptDataDoubleEscapeStartState
  | ScriptDataDoubleEscapedState => in_ScriptDataDoubleEscapedState
  | ScriptDataDoubleEscapedDashState => in_ScriptDataDoubleEscapedDashState
  | ScriptDataDoubleEscapedDashDashState => in_ScriptDataDoubleEscapedDashDashState
  | ScriptDataDoubleEscapedLessThanSignState => in_ScriptDataDoubleEscapedLessThanSignState
  | ScriptDataDoubleEscapeEndState => in_ScriptDataDoubleEscapeEndState
  | BeforeAttributeNameState => in_BeforeAttributeNameState
  | AttributeNameState => in_AttributeNameState
  | AfterAttributeNameState => in_AfterAttributeNameState
  | BeforeAttributeValueState => in_BeforeAttributeValueState
  | AttributeValueDoubleQuotedState => in_AttributeValueDoubleQuotedState
  | AttributeValueSingleQuotedState => in_AttributeValueSingleQuotedState
  | AttributeValueUnquotedState => in_AttributeValueUnquotedState
  | AfterAttributeValueQuotedState => in_AfterAttributeValueQuotedState
  | SelfClosingStartTagState => in_SelfClosingStartTagState
  | BogusCommentState => in_BogusCommentState
  | ContinueBogusCommentState => in_ContinueBogusCommentState
  | CommentStartState => in_CommentStartState
  | CommentStartDashState => in_CommentStartDashState
  | CommentState => in_CommentState
  | CommentEndDashState => in_CommentEndDashState
  | CommentEndState => in_CommentEndState
  | CommentEndBangState => in_CommentEndBangState
  | DOCTYPEState => in_DOCTYPEState
  | BeforeDOCTYPENameState => in_BeforeDOCTYPENameState
  | DOCTYPENameState => in_DOCTYPENameState
  | AfterDOCTYPEPublicKeywordState => in_AfterDOCTYPEPublicKeywordState
  | BeforeDOCTYPEPublicIdentifierState => in_BeforeDOCTYPEPublicIdentifierState
  | DOCTYPEPublicIdentifierDoubleQuotedState => in_DOCTYPEPublicIdentifierDoubleQuotedState
  | DOCTYPEPublicIdentifierSingleQuotedState => in_DOCTYPEPublicIdentifierSingleQuotedState
  | AfterDOCTYPEPublicIdentifierState => in_AfterDOCTYPEPublicIdentifierState
  | BetweenDOCTYPEPublicAndSystemIdentifiersState =>
      in_BetweenDOCTYPEPublicAndSystemIdentifiersState
  | AfterDOCTYPESystemKeywordState => in_AfterDOCTYPESystemKeywordState
  | BeforeDOCTYPESystemIdentifierState => in_BeforeDOCTYPESystemIdentifierState
  | DOCTYPESystemIdentifierDoubleQuotedState => in_DOCTYPESystemIdentifierDoubleQuotedState
  | DOCTYPESystemIdentifierSingleQuotedState => in_DOCTYPESystemIdentifierSingleQuotedState
  | AfterDOCTYPESystemIdentifierState => in_AfterDOCTYPESystemIdentifierState
  | BogusDOCTYPEState => in_BogusDOCTYPEState
  | CDATASectionState => in_CDATASectionState
  | CDATASectionRightSquareBracketState => in_CDATASectionRightSquareBracketState
  | CDATASectionDoubleRightSquareBracketState => in_CDATASectionDoubleRightSquareBracketState
  | CharacterReferenceInDataState | CharacterReferenceInRCDATAState
  | CharacterReferenceInAttributeValueState | MarkupDeclarationOpenState
  | AfterDOCTYPENameState => fun _ _ _ _ => None
  end.

End Blocks.

(** ** The blocks that use the input buffer, and nextToken *)

Definition dashDashString : list Z := units "--".
Definition doctypeString : list Z := units "doctype".
Definition cdataString : list Z := units "[CDATA[".
Definition publicString : list Z := units "public".
Definition systemString : list Z := units "system".

Section Driver.
Context {S : Type} `{CharSource S}.
Variable foldCase : Z -> Z.
Variable T : EntityTable.

(** advanceStringAndASSERT and advanceStringAndASSERTIgnoringCase *)
Definition src_advanceAndASSERTIgnoringCase (expectedCharacter : Z) (s : S) : option S :=
  ASSERT (foldCase (src_currentChar s) =? foldCase expectedCharacter);; src_advance s.

Fixpoint advanceStringAndASSERT (expectedCharacters : list Z) (s : S) : option S :=
  match expectedCharacters with
  | [] => Some s
  | c :: l => s1 ← src_advanceAndASSERT c s; advanceStringAndASSERT l s1
  end.

Fixpoint advanceStringAndASSERTIgnoringCase (expectedCharacters : list Z) (s : S) : option S :=
  match expectedCharacters with
  | [] => Some s
  | c :: l => s1 ← src_advanceAndASSERTIgnoringCase c s; advanceStringAndASSERTIgnoringCase l s1
  end.

Definition Ended : Type := HTMLTokenizer * HTMLToken * Action * S.

Definition processEntity (k : HTMLToken) (s : S) : result (bool * HTMLToken * S) :=
  '(r, s1) ← consumeHTMLEntity T 0 s;
  match r with
  | NotEnough => Ok (false, k, s1)
  | NoReference => k1 ← lift (bufferCharacter (ch "&") k); Ok (true, k1, s1)
  | Decoded l => k1 ← lift (bufferCharacters l k); Ok (true, k1, s1)
  end.

Definition in_CharacterReferenceInText (text : State) (t : HTMLTokenizer) (k : HTMLToken) (s : S)
  : result Ended :=
  '(ok, k1, s1) ← processEntity k s;
  if negb ok then Ok (t, k1, ReturnHaveBuffered, s1) else Ok (t, k1, SwitchTo text, s1).

Definition in_CharacterReferenceInDataState := in_CharacterReferenceInText DataState.
Definition in_CharacterReferenceInRCDATAState := in_CharacterReferenceInText RCDATAState.

Fixpoint appendAllToAttributeValue (l : list Z) (k : HTMLToken) : option HTMLToken :=
  match l with
  | [] => Some k
  | c :: l' => k1 ← appendToAttributeValue c k; appendAllToAttributeValue l' k1
  end.

(** Back to the attribute value state the reference came from. *)
Definition attributeValueStateFor (additional : Z) : option State :=
  if additional =? 34 then Some AttributeValueDoubleQuotedState
  else if additional =? 39 then Some AttributeValueSingleQuotedState
  else if additional =? ch ">" then Some AttributeValueUnquotedState
  else None.

Definition in_CharacterReferenceInAttributeValueState (t : HTMLTokenizer) (k : HTMLToken) (s : S)
  : result Ended :=
  '(r, s1) ← consumeHTMLEntity T (m_additionalAllowedCharacter t) s;
  match r with
  | NotEnough => Ok (t, k, ReturnHaveBuffered, s1)
  | NoReference =>
      k1 ← lift (appendToAttributeValue (ch "&") k);
      next ← lift (attributeValueStateFor (m_additionalAllowedCharacter t));
      Ok (t, k1, SwitchTo next, s1)
  | Decoded l =>
      k1 ← lift (appendAllToAttributeValue l k);
      next ← lift (attributeValueStateFor (m_additionalAllowedCharacter t));
      Ok (t, k1, SwitchTo next, s1)
  end.

Definition in_MarkupDeclarationOpenState (t : HTMLTokenizer) (k : HTMLToken) (cc : Z) (s : S)
  : result Ended :=
  let bogus s1 : result Ended := Ok (t, k, ReconsumeIn BogusCommentState, s1) in
  if cc =? ch "-" then
    '(result, s1) ← lift (src_lookAhead foldCase dashDashString true s);
    match result with
    | DidMatch =>
        s2 ← lift (src_advanceAndASSERT (ch "-") s1);
        s3 ← lift (src_advanceAndASSERT (ch "-") s2);
        k1 ← lift (beginComment k);
        Ok (t, k1, SwitchTo CommentStartState, s3)
    | NotEnoughCharacters => Ok (t, k, ReturnHaveBuffered, s1)
    | DidNotMatch => bogus s1
    end
  else if (cc =? ch "D") || (cc =? ch "d") then
    '(result, s1) ← lift (src_lookAhead foldCase doctypeString false s);
    match result with
    | DidMatch =>
        s2 ← lift (advanceStringAndASSERTIgnoringCase doctypeString s1);
        Ok (t, k, SwitchTo DOCTYPEState, s2)
    | NotEnoughCharacters => Ok (t, k, ReturnHaveBuffered, s1)
    | DidNotMatch => bogus s1
    end
  else if (cc =? ch "[") && m_shouldAllowCDATA t then
    '(result, s1) ← lift (src_lookAhead foldCase cdataString true s);
    match result with
    | DidMatch =>
        s2 ← lift (advanceStringAndASSERT cdataString s1);
        Ok (t, k, SwitchTo CDATASectionState, s2)
    | NotEnoughCharacters => Ok (t, k, ReturnHaveBuffered, s1)
    | DidNotMatch => bogus s1
    end
  else bogus s.

Definition in_AfterDOCTYPENameState (t : HTMLTokenizer) (k : HTMLToken) (cc : Z) (s : S)
  : result Ended :=
  let bogus s1 : result Ended :=
    k1 ← lift (setForceQuirks k); Ok (t, k1, AdvanceTo BogusDOCTYPEState, s1) in
  if isTokenizerWhitespace cc then Ok (t, k, AdvanceTo AfterDOCTYPENameState, s)
  else if cc =? ch ">" then Ok (t, k, EmitAndResumeIn DataState, s)
  else if cc =? kEndOfFileMarker then
    k1 ← lift (setForceQuirks k); Ok (t, k1, EmitAndReconsumeIn DataState, s)
  else if (cc =? ch "P") || (cc =? ch "p") then
    '(result, s1) ← lift (src_lookAhead foldCase publicString false s);
    match result with
    | DidMatch =>
        s2 ← lift (advanceStringAndASSERTIgnoringCase publicString s1);
        Ok (t, k, SwitchTo AfterDOCTYPEPublicKeywordState, s2)
    | NotEnoughCharacters => Ok (t, k, ReturnHaveBuffered, s1)
    | DidNotMatch => bogus s1
    end
  else if (cc =? ch "S") || (cc =? ch "s") then
    '(result, s1) ← lift (src_lookAhead foldCase systemString false s);
    match result with
    | DidMatch =>
        s2 ← lift (advanceStringAndASSERTIgnoringCase systemString s1);
        Ok (t, k, SwitchTo AfterDOCTYPESystemKeywordState, s2)
    | NotEnoughCharacters => Ok (t, k, ReturnHaveBuffered, s1)
    | DidNotMatch => bogus s1
    end
  else bogus s.

(** The switch on [m_state]. *)
Definition block (t : HTMLTokenizer) (k : HTMLToken) (cc : Z) (s : S) : result Ended :=
  match m_state t with
  | CharacterReferenceInDataState => in_CharacterReferenceInDataState t k s
  | CharacterReferenceInRCDATAState => in_CharacterReferenceInRCDATAState t k s
  | CharacterReferenceInAttributeValueState => in_CharacterReferenceInAttributeValueState t k s
  | MarkupDeclarationOpenState => in_MarkupDeclarationOpenState t k cc s
  | AfterDOCTYPENameState => in_AfterDOCTYPENameState t k cc s
  | st => '(t1, k1, a) ← lift (pureBlock st t k cc (src_consumed s)); Ok (t1, k1, a, s)
  end.

(** The two uses of the preprocessor: with the tokenizer's own state. *)
Definition tokenizerPeek (t : HTMLTokenizer) (s : S) : result (bool * HTMLTokenizer * S) :=
  '(ok, p, s1) ← InputStreamPreprocessor.peek (shouldSkipNullCharacters t)
                   (m_inputStreamPreprocessor t) s;
  Ok (ok, set_preprocessor p t, s1).

Definition tokenizerAdvance (t : HTMLTokenizer) (s : S) : result (bool * HTMLTokenizer * S) :=
  '(ok, p, s1) ← InputStreamPreprocessor.advance (shouldSkipNullCharacters t)
                   (m_inputStreamPreprocessor t) s;
  Ok (ok, set_preprocessor p t, s1).

Definition clearEndTag (t : HTMLTokenizer) : HTMLTokenizer :=
  set_temporary [] (set_appropriate [] (set_buffered [] t)).

(** flushBufferedEndTag(source) *)
Definition flushBufferedEndTag (t : HTMLTokenizer) (k : HTMLToken) (s : S)
  : result (bool * HTMLTokenizer * HTMLToken * S) :=
  lift (ASSERT (isType (m_type k) Character || isUninitialized k));;
  s1 ← lift (src_advanceAndUpdateLineNumber s);
  if isType (m_type k) Character then Ok (true, t, k, s1) else
  k1 ← lift (beginEndTag (m_bufferedEndTagName t) k);
  Ok (false, clearEndTag t, k1, s1).

(** What [nextToken] leaves: its result, the tokenizer, the token, the input. *)
Definition Returned : Type := bool * HTMLTokenizer * HTMLToken * S.

Definition emitAndResumeIn (t : HTMLTokenizer) (k : HTMLToken) (s : S) (st : State)
  : result Returned :=
  t1 ← lift (saveEndTagNameIfNeeded t k);
  s1 ← lift (src_advanceAndUpdateLineNumber s);
  Ok (true, set_state st t1, k, s1).

Definition emitAndReconsumeIn (t : HTMLTokenizer) (k : HTMLToken) (s : S) (st : State)
  : result Returned :=
  t1 ← lift (saveEndTagNameIfNeeded t k);
  Ok (true, set_state st t1, k, s).

Definition emitEndOfFile (t : HTMLTokenizer) (k : HTMLToken) (s : S) : result Returned :=
  if haveBufferedCharacterToken k then Ok (true, t, k, s) else
  s1 ← lift (src_advanceAndUpdateLineNumber s);
  k1 ← lift (makeEndOfFile (clear k));
  Ok (true, set_state DataState t, k1, s1).

Definition flushEmitAndResumeIn (t : HTMLTokenizer) (k : HTMLToken) (s : S) (st : State)
  : result Returned :=
  '(_, t1, k1, s1) ← flushBufferedEndTag (set_state st t) k s;
  Ok (true, t1, k1, s1).

(** The switch statement: runs a block and carries out its end; [cc] is the
    variable of the same name. *)
Fixpoint stateLoop (fuel : nat) (cc : Z) (t : HTMLTokenizer) (k : HTMLToken) (s : S)
  : result Returned :=
  match fuel with
  | O => OutOfFuel
  | Datatypes.S fuel' =>
      '(t1, k1, a, s1) ← block t k cc s;
      let enter (peeked : bool * HTMLTokenizer * S) k' : result Returned :=
        let '(ok, t2, s2) := peeked in
        if ok then
          stateLoop fuel' (m_nextInputCharacter (m_inputStreamPreprocessor t2)) t2 k' s2
        else Ok (haveBufferedCharacterToken k', t2, k', s2) in
      match a with
      | ReconsumeIn st => stateLoop fuel' cc (set_state st t1) k1 s1
      | AdvanceTo st =>
          peeked ← tokenizerAdvance (set_state st t1) s1; enter peeked k1
      | SwitchTo st =>
          let t2 := set_state st t1 in
          if src_isEmpty s1 then Ok (haveBufferedCharacterToken k1, t2, k1, s1) else
          peeked ← tokenizerPeek t2 s1; enter peeked k1
      | FlushAndAdvanceTo st =>
          '(emit, t2, k2, s2) ← flushBufferedEndTag (set_state st t1) k1 s1;
          if (emit : bool) then Ok (true, t2, k2, s2) else
          if src_isEmpty s2 then Ok (haveBufferedCharacterToken k2, t2, k2, s2) else
          peeked ← tokenizerPeek t2 s2; enter peeked k2
      | FlushEmitAndResumeIn st => flushEmitAndResumeIn t1 k1 s1 st
      | EmitAndResumeIn st => emitAndResumeIn t1 k1 s1 st
      | EmitAndReconsumeIn st => emitAndReconsumeIn t1 k1 s1 st
      | EmitEndOfFile => emitEndOfFile t1 k1 s1
      | EmitCharacters => Ok (true, t1, k1, s1)
      | ReturnHaveBuffered => Ok (haveBufferedCharacterToken k1, t1, k1, s1)
      end
  end.

(** A block reads a character or moves to a state of lower rank (at most 3): the
    bound used by [nextToken]. *)
Definition loopFuel (s : S) : nat := 4 * Z.to_nat (src_length s) + 4.

(** The end tag buffered by the previous call, if its state is done with it. *)
Definition resumeEndTag (t : HTMLTokenizer) (k : HTMLToken)
  : option (bool * HTMLTokenizer * HTMLToken) :=
  if negb (isEmptyVector (m_bufferedEndTagName t)) && negb (isEndTagBufferingState (m_state t)) then
    k1 ← beginEndTag (m_bufferedEndTagName t) k;
    Some (bool_decide (m_state t = DataState), clearEndTag t, k1)
  else Some (false, t, k).

(** nextToken(source, token) *)
Definition nextToken (t : HTMLTokenizer) (k : HTMLToken) (s : S) : result Returned :=
  '(done, t1, k1) ← lift (resumeEndTag t k);
  if (done : bool) then Ok (true, t1, k1, s) else
  if src_isEmpty s then Ok (haveBufferedCharacterToken k1, t1, k1, s) else
  '(ok, t2, s2) ← tokenizerPeek t1 s;
  if negb ok then Ok (haveBufferedCharacterToken k1, t2, k1, s2) else
  stateLoop (loopFuel s2) (m_nextInputCharacter (m_inputStreamPreprocessor t2)) t2 k1 s2.

(** The loop of [HTMLPreloadScanner::scan]: tokenizes until [nextToken] asks for
    more input, telling the tokenizer about start tags, and collects the tokens. *)
Fixpoint pumpLoop (fuel : nat) (t : HTMLTokenizer) (k : HTMLToken) (s : S)
  : result (list HTMLToken * HTMLTokenizer * HTMLToken * S) :=
  match fuel with
  | O => OutOfFuel
  | Datatypes.S fuel' =>
      '(emitted, t1, k1, s1) ← nextToken t k s;
      if negb emitted then Ok ([], t1, k1, s1) else
      t2 ← (if isType (m_type k1) StartTag
            then n ← lift (tokenName k1); Ok (updateStateFor n t1) else Ok t1);
      '(tokens, t3, k3, s3) ← pumpLoop fuel' t2 (clear k1) s1;
      Ok (k1 :: tokens, t3, k3, s3)
  end.

Definition pump (t : HTMLTokenizer) (k : HTMLToken) (s : S)
  : result (list HTMLToken * HTMLTokenizer * HTMLToken * S) :=
  pumpLoop (4 * Z.to_nat (src_length s) + 5) t k s.

End Driver.
