(* ===== verification/TokenizerRefinement.v ===== *)
(** * The tokenizer over any input buffer refines the tokenizer over the queue

    Every run of the preprocessor, of [nextToken] and of the scanning loop over a
    [CharSource] that satisfies [CharSourceOk] takes the steps of the same run over
    the abstract queue.  The properties of the tokenizer are proved on the queue;
    this file carries them to [SegmentedString]. *)

From S2P Require Import Prelude SegmentedString CharSource HTMLToken HTMLEntitySearch HTMLEntityParser InputStreamPreprocessor HTMLTokenizer.

(** ** Where the queue is known to be non-empty *)

Lemma process_nonempty (fuel : nat) (skip : bool) (p p' : InputStreamPreprocessor) (q q' : Q) :
  q_isEmpty q = false ->
  processNextInputCharacter fuel skip p q = Ok (true, p', q') -> q_isEmpty q' = false.
Proof.
  revert p q. induction fuel as [| fuel IH]; intros p q Hq; [done |].
  cbn [processNextInputCharacter].
  destruct (ASSERT _) as [[] |]; simpl; [| done].
  assert (Hproc : forall p1 q1, q_isEmpty q1 = false ->
    processCharacter (processNextInputCharacter fuel skip) skip p1 q1 = Ok (true, p', q') ->
    q_isEmpty q' = false).
  { intros p1 q1 Hq1. unfold processCharacter.
    destruct (m_nextInputCharacter p1 =? 13); [by intros [= <- <-] |]. cbv zeta.
    destruct (_ && _); [| by intros [= <- <-]]. destruct skip; [| by intros [= <- <-]].
    destruct (src_advancePastNonNewline q1) as [q2 |]; simpl; [| done].
    destruct (q_isEmpty q2) eqn:E2; [done |]. by apply IH. }
  destruct (_ && _); [| by apply Hproc].
  destruct (ASSERT _) as [[] |]; simpl; [| done].
  destruct (q_isEmpty (q_advance q)) eqn:E; [done |]. by apply Hproc.
Qed.

Lemma peek_nonempty (skip : bool) (p p' : InputStreamPreprocessor) (q q' : Q) :
  q_isEmpty q = false -> peek skip p q = Ok (true, p', q') -> q_isEmpty q' = false.
Proof.
  intros Hq. unfold peek. cbv zeta. destruct (negb _); [by intros [= _ <-] | by apply process_nonempty].
Qed.

Lemma advance_nonempty (skip : bool) (p p' : InputStreamPreprocessor) (q q' : Q) :
  advance skip p q = Ok (true, p', q') -> q_isEmpty q' = false.
Proof.
  unfold advance. simpl. destruct (q_isEmpty (q_advance q)) eqn:E; [done |]. by apply peek_nonempty.
Qed.

Lemma lookAhead_nonempty (f : Z -> Z) (str : list Z) (b : bool) (q : Q) :
  q_wf q -> q_isEmpty q = false -> q_isEmpty (q_lookAhead f str b q).2 = false.
Proof.
  intros [Hw _] Hq. unfold q_lookAhead. destruct (Nat.ltb _ _); [done |].
  unfold q_isEmpty in *. simpl. apply Nat.eqb_neq in Hq. apply Nat.eqb_neq. lia.
Qed.

(** A block that reconsumes its character leaves it in the queue. *)
Lemma block_reconsume (f : Z -> Z) (T : EntityTable) (t t1 : HTMLTokenizer) (k k1 : HTMLToken)
    (cc : Z) (st : State) (q q1 : Q) :
  q_wf q -> q_isEmpty q = false ->
  block f T t k cc q = Ok (t1, k1, ReconsumeIn st, q1) -> q_isEmpty q1 = false.
Proof.
  intros Hw He. unfold block.
  destruct (m_state t);
    try (destruct (pureBlock _ _ _ _ _) as [[[? ?] ?] |]; simpl; [by intros [= _ _ _ <-] | done]).
  - unfold in_CharacterReferenceInDataState, in_CharacterReferenceInText.
    destruct (processEntity T k q) as [[[[] ?] ?] | |]; simpl; intros E; congruence.
  - unfold in_CharacterReferenceInRCDATAState, in_CharacterReferenceInText.
    destruct (processEntity T k q) as [[[[] ?] ?] | |]; simpl; intros E; congruence.
  - unfold in_CharacterReferenceInAttributeValueState.
    destruct (consumeHTMLEntity _ _ q) as [[r q2] | |]; simpl; try done.
    destruct r; simpl; [| | by intros [= ]];
      destruct (lift _); simpl; try done; destruct (lift _); simpl; done.
  - unfold in_MarkupDeclarationOpenState. cbv zeta.
    pose proof (fun s b => lookAhead_nonempty f s b q Hw He) as Hla.
    repeat (case_match; simpl; try done); try (by intros [= _ _ _ <-]).
    all: repeat match goal with
      | |- lift ?m ≫= _ = _ -> _ => destruct (lift m); cbn [mbind result_bind]; try done
      end.
    all: intros [= _ _ _ <-].
    all: match goal with E : q_lookAhead _ ?str ?b _ = _ |- _ =>
           specialize (Hla str b); by rewrite E in Hla end.
  - unfold in_AfterDOCTYPENameState. cbv zeta.
    repeat (case_match; simpl; try done);
      repeat (destruct (lift _) as [? | |]; simpl; try done);
      repeat (destruct (q_lookAhead _ _ _ q) as [[] ?]; simpl; try done);
      repeat (destruct (lift _); simpl; try done).
Qed.

Section Refinement.
Context {S : Type} `{CharSourceOk S}.
Variable foldCase : Z -> Z.
Variable T : EntityTable.

(** ** The preprocessor *)
Lemma refR_process (fuel : nat) (skip : bool) (p : InputStreamPreprocessor) (s : S) :
  src_valid s ->
  refR (processNextInputCharacter fuel skip p s) (processNextInputCharacter fuel skip p (src_abs s)).
Proof.
  revert p s. induction fuel as [| fuel IH]; intros p s Hv; [done |].
  cbn [processNextInputCharacter]. rewrite src_current by done.
  apply refR_pure. intros [] _.
  assert (Hproc : forall p1 s1, src_valid s1 ->
    refR (processCharacter (processNextInputCharacter fuel skip) skip p1 s1)
         (processCharacter (processNextInputCharacter fuel skip) skip p1 (src_abs s1))).
  { intros p1 s1 Hv1. unfold processCharacter.
    destruct (m_nextInputCharacter p1 =? 13); [by apply refR_ret |]. cbv zeta.
    unfold shouldTreatNullAsEndOfFileMarker. rewrite src_isClosed_ok, src_size by done.
    change (q_closed (src_abs s1)) with (src_isClosed (src_abs s1)).
    destruct (_ && _); [| by apply refR_ret]. destruct skip; [| by apply refR_ret].
    apply refR_liftS.
    { unfold src_advancePastNonNewline. rewrite src_current by done.
      by apply refS_assert, refS_advance. }
    intros s2 Hv2. rewrite src_empty, src_current by done.
    destruct (src_isEmpty (src_abs s2)); [by apply refR_ret | by apply IH]. }
  destruct (_ && _); [| by apply Hproc].
  apply refR_liftS; [by apply refS_advancePastNewline |]. intros s1 Hv1.
  rewrite src_empty, src_current by done.
  destruct (src_isEmpty (src_abs s1)); [by apply refR_ret | by apply Hproc].
Qed.

Lemma refR_peek (skip : bool) (p : InputStreamPreprocessor) (s : S) :
  src_valid s -> refR (peek skip p s) (peek skip p (src_abs s)).
Proof.
  intros Hv. unfold peek. cbv zeta. rewrite src_current, src_size by done.
  destruct (negb _); [by apply refR_ret | by apply refR_process].
Qed.

Lemma refR_advance (skip : bool) (p : InputStreamPreprocessor) (s : S) :
  src_valid s -> refR (advance skip p s) (advance skip p (src_abs s)).
Proof.
  intros Hv. unfold advance. apply refR_liftS; [by apply refS_advanceLn |]. intros s1 Hv1.
  rewrite src_empty by done. destruct (src_isEmpty (src_abs s1)); [by apply refR_ret | by apply refR_peek].
Qed.

Lemma refR_tokenizerPeek (t : HTMLTokenizer) (s : S) :
  src_valid s -> refR (tokenizerPeek t s) (tokenizerPeek t (src_abs s)).
Proof.
  intros Hv. unfold tokenizerPeek. apply refR_bind; [by apply refR_peek |].
  intros [ok p] s1 Hv1. by apply refR_ret.
Qed.

Lemma refR_tokenizerAdvance (t : HTMLTokenizer) (s : S) :
  src_valid s -> refR (tokenizerAdvance t s) (tokenizerAdvance t (src_abs s)).
Proof.
  intros Hv. unfold tokenizerAdvance. apply refR_bind; [by apply refR_advance |].
  intros [ok p] s1 Hv1. by apply refR_ret.
Qed.

(** ** The blocks that use the input *)
Lemma refR_processEntity (k : HTMLToken) (s : S) :
  src_valid s -> refR (processEntity T k s) (processEntity T k (src_abs s)).
Proof.
  intros Hv. unfold processEntity. apply refR_bind; [by apply refR_consumeHTMLEntity |].
  intros r s1 Hv1. destruct r; [| | by apply refR_ret];
    apply refR_pure; intros k1 _; by apply refR_ret.
Qed.

Lemma refR_text (st : State) (t : HTMLTokenizer) (k : HTMLToken) (s : S) :
  src_valid s ->
  refR (in_CharacterReferenceInText T st t k s) (in_CharacterReferenceInText T st t k (src_abs s)).
Proof.
  intros Hv. unfold in_CharacterReferenceInText.
  apply refR_bind; [by apply refR_processEntity |].
  intros [ok k1] s1 Hv1. destruct ok; by apply refR_ret.
Qed.

Lemma refR_attribute (t : HTMLTokenizer) (k : HTMLToken) (s : S) :
  src_valid s ->
  refR (in_CharacterReferenceInAttributeValueState T t k s)
       (in_CharacterReferenceInAttributeValueState T t k (src_abs s)).
Proof.
  intros Hv. unfold in_CharacterReferenceInAttributeValueState.
  apply refR_bind; [by apply refR_consumeHTMLEntity |].
  intros r s1 Hv1. destruct r; [| | by apply refR_ret];
    apply refR_pure; intros k1 _; apply refR_pure; intros next _; by apply refR_ret.
Qed.

Lemma refS_advanceString (l : list Z) (s : S) :
  src_valid s -> refS (advanceStringAndASSERT l s) (advanceStringAndASSERT l (src_abs s)).
Proof.
  revert s. induction l as [| c l IH]; intros s Hv; [by intros q [= <-]; exists s |].
  cbn [advanceStringAndASSERT]. apply refS_bind; [by apply refS_advanceAndASSERT | apply IH].
Qed.

Lemma refS_advanceStringIgnoringCase (l : list Z) (s : S) :
  src_valid s ->
  refS (advanceStringAndASSERTIgnoringCase foldCase l s)
       (advanceStringAndASSERTIgnoringCase foldCase l (src_abs s)).
Proof.
  revert s. induction l as [| c l IH]; intros s Hv; [by intros q [= <-]; exists s |].
  cbn [advanceStringAndASSERTIgnoringCase]. apply refS_bind; [| apply IH].
  unfold src_advanceAndASSERTIgnoringCase. rewrite src_current by done.
  by apply refS_assert, refS_advance.
Qed.

(** A look-ahead whose three outcomes refine. *)
Lemma refR_looking {B} (str : list Z) (b : bool) (s : S)
    (f : LookAheadResult -> S -> result (B * S)) (g : LookAheadResult -> Q -> result (B * Q)) :
  src_valid s -> q_isEmpty (src_abs s) = false -> (2 <= length str)%nat ->
  (forall r s1, src_valid s1 -> refR (f r s1) (g r (src_abs s1))) ->
  refR ('(r, s1) ← lift (src_lookAhead foldCase str b s); f r s1)
       ('(r, q1) ← lift (src_lookAhead foldCase str b (src_abs s)); g r q1).
Proof.
  intros Hv He Hl Hf. apply refR_bind; [by apply refR_lookAhead |]. intros r s1 Hv1. by apply Hf.
Qed.

Ltac refine_steps :=
  repeat first
    [ by apply refR_ret
    | apply refR_liftS; [by first [ apply refS_advanceAndASSERT | apply refS_advanceString
                                  | apply refS_advanceStringIgnoringCase | apply refS_advanceLn ]
                        | intros ? ?]
    | apply refR_pure; intros ? _
    | apply refR_looking; [done | done | simpl; lia | intros [] ? ?] ].

Lemma refR_markup (t : HTMLTokenizer) (k : HTMLToken) (cc : Z) (s : S) :
  src_valid s -> q_isEmpty (src_abs s) = false ->
  refR (in_MarkupDeclarationOpenState foldCase t k cc s)
       (in_MarkupDeclarationOpenState foldCase t k cc (src_abs s)).
Proof.
  intros Hv He. unfold in_MarkupDeclarationOpenState. cbv zeta.
  repeat case_match; try by apply refR_ret; refine_steps.
  all: refine_steps.
Qed.

Lemma refR_afterDoctypeName (t : HTMLTokenizer) (k : HTMLToken) (cc : Z) (s : S) :
  src_valid s -> q_isEmpty (src_abs s) = false ->
  refR (in_AfterDOCTYPENameState foldCase t k cc s)
       (in_AfterDOCTYPENameState foldCase t k cc (src_abs s)).
Proof.
  intros Hv He. unfold in_AfterDOCTYPENameState. cbv zeta.
  repeat case_match; refine_steps.
Qed.

Lemma refR_block (t : HTMLTokenizer) (k : HTMLToken) (cc : Z) (s : S) :
  src_valid s -> q_isEmpty (src_abs s) = false ->
  refR (block foldCase T t k cc s) (block foldCase T t k cc (src_abs s)).
Proof.
  intros Hv He. unfold block. rewrite src_consumed_ok by done.
  change (q_consumed (src_abs s)) with (src_consumed (src_abs s)).
  destruct (m_state t);
    try (apply refR_pure; intros [[t1 k1] a] _; by apply refR_ret).
  - by apply refR_text.
  - by apply refR_text.
  - by apply refR_attribute.
  - by apply refR_markup.
  - by apply refR_afterDoctypeName.
Qed.


(** ** nextToken *)
Lemma refR_flush (t : HTMLTokenizer) (k : HTMLToken) (s : S) :
  src_valid s -> refR (flushBufferedEndTag t k s) (flushBufferedEndTag t k (src_abs s)).
Proof.
  intros Hv. unfold flushBufferedEndTag. apply refR_pure. intros [] _.
  apply refR_liftS; [by apply refS_advanceLn |]. intros s1 Hv1.
  destruct (isType _ _); [by apply refR_ret |]. apply refR_pure. intros k1 _. by apply refR_ret.
Qed.

Lemma refR_emitAndResumeIn (t : HTMLTokenizer) (k : HTMLToken) (st : State) (s : S) :
  src_valid s -> refR (emitAndResumeIn t k s st) (emitAndResumeIn t k (src_abs s) st).
Proof.
  intros Hv. unfold emitAndResumeIn. apply refR_pure. intros t1 _.
  apply refR_liftS; [by apply refS_advanceLn |]. intros s1 Hv1. by apply refR_ret.
Qed.

Lemma refR_emitEndOfFile (t : HTMLTokenizer) (k : HTMLToken) (s : S) :
  src_valid s -> refR (emitEndOfFile t k s) (emitEndOfFile t k (src_abs s)).
Proof.
  intros Hv. unfold emitEndOfFile. destruct (haveBufferedCharacterToken k); [by apply refR_ret |].
  apply refR_liftS; [by apply refS_advanceLn |]. intros s1 Hv1.
  apply refR_pure. intros k1 _. by apply refR_ret.
Qed.

Lemma tokenizerPeek_nonempty (t t' : HTMLTokenizer) (q q' : Q) :
  q_isEmpty q = false -> tokenizerPeek t q = Ok (true, t', q') -> q_isEmpty q' = false.
Proof.
  intros He. unfold tokenizerPeek. destruct (peek _ _ q) as [[[[] p] q1] | |] eqn:E; simpl; try done.
  intros [= _ <-]. by eapply peek_nonempty.
Qed.

Lemma tokenizerAdvance_nonempty (t t' : HTMLTokenizer) (q q' : Q) :
  tokenizerAdvance t q = Ok (true, t', q') -> q_isEmpty q' = false.
Proof.
  unfold tokenizerAdvance. destruct (advance _ _ q) as [[[[] p] q1] | |] eqn:E; simpl; try done.
  intros [= _ <-]. by eapply advance_nonempty.
Qed.

(** Entering a state after a peek: the rest of the run refines when the peek does. *)
Lemma refR_enter (m : result (bool * HTMLTokenizer * S)) (mq : result (bool * HTMLTokenizer * Q))
    (k : HTMLToken) (f : Z -> HTMLTokenizer -> S -> result (Returned (S := S)))
    (g : Z -> HTMLTokenizer -> Q -> result (Returned (S := Q))) :
  refR m mq ->
  (forall t q, mq = Ok (true, t, q) -> q_isEmpty q = false) ->
  (forall cc t s, src_valid s -> q_isEmpty (src_abs s) = false ->
     refR (f cc t s) (g cc t (src_abs s))) ->
  refR ('(ok, t2, s2) ← m;
        if ok : bool then f (m_nextInputCharacter (m_inputStreamPreprocessor t2)) t2 s2
        else Ok (haveBufferedCharacterToken k, t2, k, s2))
       ('(ok, t2, s2) ← mq;
        if ok : bool then g (m_nextInputCharacter (m_inputStreamPreprocessor t2)) t2 s2
        else Ok (haveBufferedCharacterToken k, t2, k, s2)).
Proof.
  intros Hm Hne Hf b q. destruct mq as [[[ok t2] q2] | |] eqn:Eq; simpl; try done.
  destruct (Hm (ok, t2) q2 eq_refl) as (s2 & -> & Hv2 & Ha). simpl. subst q2.
  destruct ok; [apply Hf; [done | by eapply Hne] | by apply refR_ret].
Qed.

Lemma refR_stateLoop (fuel : nat) (cc : Z) (t : HTMLTokenizer) (k : HTMLToken) (s : S) :
  src_valid s -> q_isEmpty (src_abs s) = false ->
  refR (stateLoop foldCase T fuel cc t k s) (stateLoop foldCase T fuel cc t k (src_abs s)).
Proof.
  revert cc t k s. induction fuel as [| fuel IH]; intros cc t k s Hv He; [done |].
  cbn [stateLoop]. intros b q.
  destruct (block foldCase T t k cc (src_abs s)) as [[[[t1 k1] a] q1] | |] eqn:Eb; simpl; try done.
  destruct (refR_block t k cc s Hv He _ _ Eb) as (s1 & -> & Hv1 & <-). simpl. revert b q.
  destruct a as [st | st | st | st | st | st | st | | |].
  - apply (refR_enter _ _ k1 (fun cc t2 s2 => stateLoop foldCase T fuel cc t2 k1 s2)
             (fun cc t2 s2 => stateLoop foldCase T fuel cc t2 k1 s2)).
    + by apply refR_tokenizerAdvance.
    + intros t2 q2. by apply tokenizerAdvance_nonempty.
    + intros. by apply IH.
  - rewrite src_empty by done. simpl. destruct (q_isEmpty (src_abs s1)) eqn:E1; [by apply refR_ret |].
    apply (refR_enter _ _ k1 (fun cc t2 s2 => stateLoop foldCase T fuel cc t2 k1 s2)
             (fun cc t2 s2 => stateLoop foldCase T fuel cc t2 k1 s2)).
    + by apply refR_tokenizerPeek.
    + intros t2 q2. by apply tokenizerPeek_nonempty.
    + intros. by apply IH.
  - apply IH; [done |]. exact (block_reconsume foldCase T t t1 k k1 cc st _ _ (src_wf s Hv) He Eb).
  - apply refR_bind; [by apply refR_flush |]. intros [[emit t2] k2] s2 Hv2.
    destruct emit; [by apply refR_ret |].
    rewrite src_empty by done. simpl. destruct (q_isEmpty (src_abs s2)) eqn:E2; [by apply refR_ret |].
    apply (refR_enter _ _ k2 (fun cc t2 s2 => stateLoop foldCase T fuel cc t2 k2 s2)
             (fun cc t2 s2 => stateLoop foldCase T fuel cc t2 k2 s2)).
    + by apply refR_tokenizerPeek.
    + intros t3 q2. by apply tokenizerPeek_nonempty.
    + intros. by apply IH.
  - unfold flushEmitAndResumeIn. apply refR_bind; [by apply refR_flush |].
    intros [[emit t2] k2] s2 Hv2. by apply refR_ret.
  - by apply refR_emitAndResumeIn.
  - unfold emitAndReconsumeIn. apply refR_pure. intros t2 _. by apply refR_ret.
  - by apply refR_emitEndOfFile.
  - by apply refR_ret.
  - by apply refR_ret.
Qed.

Lemma refR_nextToken (t : HTMLTokenizer) (k : HTMLToken) (s : S) :
  src_valid s -> refR (nextToken foldCase T t k s) (nextToken foldCase T t k (src_abs s)).
Proof.
  intros Hv. unfold nextToken. apply refR_pure. intros [[done t1] k1] _.
  destruct done; [by apply refR_ret |].
  rewrite src_empty by done. simpl. destruct (q_isEmpty (src_abs s)) eqn:E; [by apply refR_ret |].
  intros b q. destruct (tokenizerPeek t1 (src_abs s)) as [[[ok t2] q2] | |] eqn:Ep; simpl; try done.
  destruct (refR_tokenizerPeek t1 s Hv (ok, t2) q2 Ep) as (s2 & -> & Hv2 & <-). simpl.
  revert b q. destruct ok; simpl; [| by apply refR_ret]. unfold loopFuel. rewrite (src_size s2) by done.
  apply (refR_stateLoop); [exact Hv2 | by eapply tokenizerPeek_nonempty].
Qed.

Lemma refR_pumpLoop (fuel : nat) (t : HTMLTokenizer) (k : HTMLToken) (s : S) :
  src_valid s ->
  refR (pumpLoop foldCase T fuel t k s) (pumpLoop foldCase T fuel t k (src_abs s)).
Proof.
  revert t k s. induction fuel as [| fuel IH]; intros t k s Hv; [done |].
  cbn [pumpLoop]. apply refR_bind; [by apply refR_nextToken |]. intros [[emitted t1] k1] s1 Hv1.
  destruct emitted; simpl; [| by apply refR_ret].
  destruct (isType (m_type k1) StartTag); simpl.
  - destruct (tokenName k1) as [n |]; simpl; [| done].
    apply refR_bind; [by apply IH |]. intros [[tokens t3] k3] s3 Hv3. by apply refR_ret.
  - apply refR_bind; [by apply IH |]. intros [[tokens t3] k3] s3 Hv3. by apply refR_ret.
Qed.

Lemma refR_pump (t : HTMLTokenizer) (k : HTMLToken) (s : S) :
  src_valid s -> refR (pump foldCase T t k s) (pump foldCase T t k (src_abs s)).
Proof. intros Hv. unfold pump. rewrite src_size by done. by apply refR_pumpLoop. Qed.

End Refinement.
