(* ===== verification/TokenizerInvariant.v ===== *)
(** * The tokenizer's invariant

    Which token is under construction in which state ([kindOf], [fits]), that every
    block keeps it and never fails an assertion, and that a block either uses up
    input or moves to a state of lower [rank]. *)

From S2P Require Import Prelude SegmentedString CharSource HTMLToken HTMLEntitySearch HTMLEntityParser InputStreamPreprocessor HTMLTokenizer.

(** ** Tokens and states *)

(** What a state expects of the token. *)
Inductive Kind :=
  | TextKind | FreshKind | TagKind | AttributeKind | CommentKind | DoctypeKind
  | PublicKind | SystemKind.

Definition kindOf (s : State) : Kind :=
  match s with
  | TagOpenState | EndTagOpenState | BogusCommentState | MarkupDeclarationOpenState
  | DOCTYPEState | BeforeDOCTYPENameState => FreshKind
  | TagNameState | BeforeAttributeNameState | SelfClosingStartTagState
  | AfterAttributeValueQuotedState => TagKind
  | AttributeNameState | AfterAttributeNameState | BeforeAttributeValueState
  | AttributeValueDoubleQuotedState | AttributeValueSingleQuotedState
  | AttributeValueUnquotedState | CharacterReferenceInAttributeValueState => AttributeKind
  | ContinueBogusCommentState | CommentStartState | CommentStartDashState | CommentState
  | CommentEndDashState | CommentEndState | CommentEndBangState => CommentKind
  | DOCTYPENameState | AfterDOCTYPENameState | AfterDOCTYPEPublicKeywordState
  | BeforeDOCTYPEPublicIdentifierState | AfterDOCTYPEPublicIdentifierState
  | BetweenDOCTYPEPublicAndSystemIdentifiersState | AfterDOCTYPESystemKeywordState
  | BeforeDOCTYPESystemIdentifierState | AfterDOCTYPESystemIdentifierState
  | BogusDOCTYPEState => DoctypeKind
  | DOCTYPEPublicIdentifierDoubleQuotedState | DOCTYPEPublicIdentifierSingleQuotedState => PublicKind
  | DOCTYPESystemIdentifierDoubleQuotedState | DOCTYPESystemIdentifierSingleQuotedState => SystemKind
  | _ => TextKind
  end.

Definition fits (x : Kind) (k : HTMLToken) : Prop :=
  match x with
  | TextKind => m_type k = Uninitialized \/ m_type k = Character
  | FreshKind => m_type k = Uninitialized
  | TagKind => m_type k = StartTag \/ m_type k = EndTag
  | AttributeKind => (m_type k = StartTag \/ m_type k = EndTag) /\
      exists i a, m_currentAttribute k = Some i /\ m_attributes k !! i = Some a
  | CommentKind => m_type k = Comment
  | DoctypeKind => m_type k = DOCTYPE /\ exists d, m_doctypeData k = Some d
  | PublicKind => m_type k = DOCTYPE /\ exists d, m_doctypeData k = Some d /\
      m_hasPublicIdentifier d = true
  | SystemKind => m_type k = DOCTYPE /\ exists d, m_doctypeData k = Some d /\
      m_hasSystemIdentifier d = true
  end.

Definition isEndTagNameState (s : State) : bool :=
  match s with
  | RCDATAEndTagNameState | RAWTEXTEndTagNameState | ScriptDataEndTagNameState
  | ScriptDataEscapedEndTagNameState => true
  | _ => false
  end.

(** Reconsuming a character leads to states of lower rank. *)
Definition rank (s : State) : nat :=
  match s with
  | DataState | RCDATAState | RAWTEXTState | ScriptDataState | PLAINTEXTState => 0
  | MarkupDeclarationOpenState | TagOpenState | EndTagOpenState => 3
  | ScriptDataEscapedLessThanSignState | ScriptDataEscapedEndTagOpenState
  | ScriptDataEscapedEndTagNameState | ScriptDataDoubleEscapeStartState
  | ScriptDataDoubleEscapedLessThanSignState | ScriptDataDoubleEscapeEndState
  | BeforeAttributeValueState | CharacterReferenceInAttributeValueState
  | AfterAttributeValueQuotedState | SelfClosingStartTagState | BogusCommentState
  | DOCTYPEState | CDATASectionRightSquareBracketState
  | CDATASectionDoubleRightSquareBracketState => 2
  | _ => 1
  end.

(** The invariant of a state about to run: the token fits, an end tag name is
    buffered only in the states that read one, and the reference in an attribute
    value knows where to return to. *)
Definition shapeOk (st : State) (t : HTMLTokenizer) (k : HTMLToken) : Prop :=
  fits (kindOf st) k /\
  (if isEndTagNameState st then m_bufferedEndTagName t <> [] else m_bufferedEndTagName t = []) /\
  (st = CharacterReferenceInAttributeValueState ->
   m_additionalAllowedCharacter t = 34 \/ m_additionalAllowedCharacter t = 39 \/
   m_additionalAllowedCharacter t = ch ">").

(** The end of the file may be reconsumed in the data state with any token. *)
Definition shapeAt (cc : Z) (st : State) (t : HTMLTokenizer) (k : HTMLToken) : Prop :=
  shapeOk st t k \/ (st = DataState /\ cc = 0 /\ m_bufferedEndTagName t = []).

(** What does not change while a block runs. *)
Definition sameFrame (t t1 : HTMLTokenizer) : Prop :=
  m_state t1 = m_state t /\ m_options t1 = m_options t /\
  m_forceNullCharacterReplacement t1 = m_forceNullCharacterReplacement t /\
  m_inputStreamPreprocessor t1 = m_inputStreamPreprocessor t /\
  m_shouldAllowCDATA t1 = m_shouldAllowCDATA t.

Definition emitted (k : HTMLToken) : Prop :=
  m_type k <> Uninitialized /\ m_type k <> Character.

(** The states whose block uses the input buffer. *)
Definition usesInput (s : State) : bool :=
  match s with
  | CharacterReferenceInDataState | CharacterReferenceInRCDATAState
  | CharacterReferenceInAttributeValueState | MarkupDeclarationOpenState
  | AfterDOCTYPENameState => true
  | _ => false
  end.

(** What holds when a block run on [cc] in the state of [t] ends with an action. *)
Definition endOk (cc : Z) (t : HTMLTokenizer) (t1 : HTMLTokenizer) (k1 : HTMLToken) (a : Action)
  : Prop :=
  match a with
  | AdvanceTo st => shapeOk st t1 k1 /\ cc <> 0
  | SwitchTo st => shapeOk st t1 k1 /\ usesInput (m_state t) = true
  | ReconsumeIn st => shapeAt cc st t1 k1 /\ (rank st < rank (m_state t))%nat
  | FlushAndAdvanceTo st => fits TextKind k1 /\ m_bufferedEndTagName t1 <> [] /\
      (st = BeforeAttributeNameState \/ st = SelfClosingStartTagState) /\ cc <> 0
  | FlushEmitAndResumeIn st => fits TextKind k1 /\ m_bufferedEndTagName t1 <> [] /\ st = DataState /\
      cc <> 0
  | EmitAndResumeIn st => emitted k1 /\ m_bufferedEndTagName t1 = [] /\ st = DataState /\
      cc <> 0
  | EmitAndReconsumeIn st => emitted k1 /\ m_bufferedEndTagName t1 = [] /\ st = DataState /\
      (0 < rank (m_state t))%nat
  | EmitEndOfFile => m_bufferedEndTagName t1 = [] /\ rank (m_state t) = 0%nat /\ cc = 0 /\
      kindOf (m_state t) = TextKind
  | EmitCharacters => m_type k1 = Character /\ m_bufferedEndTagName t1 = [] /\
      m_state t = DataState
  | ReturnHaveBuffered => shapeOk (m_state t) t1 k1 /\ usesInput (m_state t) = true
  end.

(** ** Operations that succeed *)
Definition okTo {A} (m : option A) (P : A -> Prop) : Prop := exists x, m = Some x /\ P x.

Lemma okTo_some {A} (x : A) (P : A -> Prop) : P x -> okTo (Some x) P.
Proof. intros H. by exists x. Qed.

Lemma okTo_bind {A B} (m : option A) (f : A -> option B) (P : A -> Prop) (R : B -> Prop) :
  okTo m P -> (forall x, P x -> okTo (f x) R) -> okTo (m ≫= f) R.
Proof. intros (x & -> & Hx) Hf. by apply Hf. Qed.

Lemma okTo_weaken {A} (m : option A) (P R : A -> Prop) :
  okTo m P -> (forall x, P x -> R x) -> okTo m R.
Proof. intros (x & -> & Hx) HPR. exists x. auto. Qed.

Definition blockOk (cc : Z) (t : HTMLTokenizer)
    (m : option (HTMLTokenizer * HTMLToken * Action)) : Prop :=
  okTo m (fun '(t1, k1, a) => sameFrame t t1 /\ endOk cc t t1 k1 a).

Lemma blockOk_goto (cc : Z) (t t1 : HTMLTokenizer) (k : HTMLToken) (a : Action) :
  sameFrame t t1 -> endOk cc t t1 k a -> blockOk cc t (goto t1 k a).
Proof. intros Hf He. by apply okTo_some. Qed.

Lemma blockOk_after (cc : Z) (t t1 : HTMLTokenizer) (m : option HTMLToken) (a : Action)
    (P : HTMLToken -> Prop) :
  sameFrame t t1 -> okTo m P -> (forall k1, P k1 -> endOk cc t t1 k1 a) ->
  blockOk cc t (after t1 m a).
Proof. intros Hf Hm He. eapply okTo_bind; [exact Hm |]. intros k1 Hk1. apply okTo_some. auto. Qed.

Lemma lower_ok (cc : Z) :
  isASCIIUpper cc = true -> okTo (toLowerCase cc) (fun c => c = cc + 32 /\ isASCIILower c = true).
Proof.
  intros E. unfold toLowerCase. rewrite E. simpl. apply okTo_some. split; [done |].
  unfold isASCIIUpper, isASCIILower in *. bool_to_prop. apply andb_true_iff. split; apply Z.leb_le; lia.
Qed.

Lemma isASCIILower_nonzero (cc : Z) : isASCIILower cc = true -> cc <> 0.
Proof. intros E ->. by vm_compute in E. Qed.

Lemma isASCIIUpper_nonzero (cc : Z) : isASCIIUpper cc = true -> cc <> 0.
Proof. intros E ->. by vm_compute in E. Qed.

Lemma assert_nonzero (c : Z) : c <> 0 -> ASSERT (negb (c =? 0)) = Some ().
Proof. intros H. by rewrite (proj2 (Z.eqb_neq c 0) H). Qed.

Lemma isType_refl (k : HTMLToken) (x : TokenType) : m_type k = x -> isType (m_type k) x = true.
Proof. intros ->. by apply bool_decide_eq_true_2. Qed.

(** *** Text *)
Lemma bufferCharacter_ok (c : Z) (k : HTMLToken) :
  c <> 0 -> fits TextKind k ->
  okTo (bufferCharacter c k) (fun k1 => m_type k1 = Character).
Proof.
  intros Hc Hk. unfold bufferCharacter, kEndOfFileMarker. rewrite assert_nonzero by done. simpl.
  unfold ensureIsCharacterToken, isUninitialized.
  destruct Hk as [-> | ->]; simpl; by apply okTo_some.
Qed.

Lemma bufferTwo_ok (a b : Z) (k : HTMLToken) :
  a <> 0 -> b <> 0 -> fits TextKind k ->
  okTo (k1 ← bufferCharacter a k; bufferCharacter b k1) (fun k1 => m_type k1 = Character).
Proof.
  intros Ha Hb Hk. eapply okTo_bind; [by apply bufferCharacter_ok |].
  intros k1 Hk1. apply bufferCharacter_ok; [done | by right].
Qed.

Lemma bufferCharacters_ok (l : list Z) (k : HTMLToken) :
  Forall (fun c => c <> 0) l -> fits TextKind k ->
  okTo (bufferCharacters l k) (fits TextKind).
Proof.
  intros Hl. revert k. induction Hl as [| c l Hc Hl IH]; intros k Hk; [by apply okTo_some |].
  cbn [bufferCharacters]. eapply okTo_bind; [by apply bufferCharacter_ok |].
  intros k1 Hk1. apply IH. by right.
Qed.

(** *** Tags *)
Lemma beginStartTag_ok (c : Z) (k : HTMLToken) :
  c <> 0 -> fits FreshKind k -> okTo (beginStartTag c k) (fits TagKind).
Proof.
  intros Hc Hk. unfold beginStartTag. rewrite assert_nonzero by done. simpl.
  unfold isUninitialized. rewrite isType_refl by done. apply okTo_some. by left.
Qed.

Lemma beginEndTagChar_ok (c : Z) (k : HTMLToken) :
  fits FreshKind k -> okTo (beginEndTagChar c k) (fits TagKind).
Proof.
  intros Hk. unfold beginEndTagChar, isUninitialized. rewrite isType_refl by done.
  apply okTo_some. by right.
Qed.

Lemma beginEndTag_ok (l : list Z) (k : HTMLToken) :
  fits FreshKind k -> okTo (beginEndTag l k) (fun k1 => m_type k1 = EndTag).
Proof.
  intros Hk. unfold beginEndTag, isUninitialized. rewrite isType_refl by done. by apply okTo_some.
Qed.

Lemma tag_isTag (k : HTMLToken) : fits TagKind k -> HTMLToken.isTag k = true.
Proof. unfold HTMLToken.isTag. by intros [-> | ->]. Qed.

Lemma appendToName_ok (c : Z) (k : HTMLToken) :
  c <> 0 -> fits TagKind k -> okTo (appendToName c k) (fits TagKind).
Proof.
  intros Hc Hk. unfold appendToName, hasName.
  assert (E : isType (m_type k) StartTag || isType (m_type k) EndTag = true) by by apply tag_isTag.
  rewrite E, assert_nonzero by done. simpl. by apply okTo_some.
Qed.

Lemma setSelfClosing_ok (k : HTMLToken) :
  fits TagKind k -> okTo (setSelfClosing k) (fits TagKind).
Proof. intros Hk. unfold setSelfClosing. rewrite tag_isTag by done. by apply okTo_some. Qed.

(** *** Attributes *)
Lemma updateCurrentAttribute_ok (f : Attribute -> Attribute) (k : HTMLToken) :
  fits AttributeKind k -> okTo (updateCurrentAttribute f k) (fits AttributeKind).
Proof.
  intros (Ht & i & a & Hi & Ha). unfold updateCurrentAttribute. rewrite Hi. simpl. rewrite Ha. simpl.
  apply okTo_some. split; [done |]. simpl. exists i, (f a). split; [done |].
  apply list_lookup_insert_eq. by eapply lookup_lt_Some.
Qed.

Lemma appendToAttribute_ok (c : Z) (k : HTMLToken) (f : Attribute -> Attribute) :
  c <> 0 -> fits AttributeKind k ->
  okTo (ASSERT (negb (c =? 0));; ASSERT (HTMLToken.isTag k);; updateCurrentAttribute f k)
    (fits AttributeKind).
Proof.
  intros Hc Hk. rewrite assert_nonzero, tag_isTag by (done || by destruct Hk). simpl.
  by apply updateCurrentAttribute_ok.
Qed.

Lemma startAttribute_ok (c pos : Z) (k : HTMLToken) :
  c <> 0 -> fits TagKind k -> okTo (startAttribute c pos k) (fits AttributeKind).
Proof.
  intros Hc Hk. unfold startAttribute.
  apply (okTo_bind _ _ (fits AttributeKind)).
  - unfold addNewAttribute. rewrite tag_isTag by done. simpl. apply okTo_some. split; [done |].
    exists (length (m_attributes k)), newAttribute. split; [done |]. simpl.
    by rewrite lookup_app_r, Nat.sub_diag by lia.
  - intros k1 Hk1. apply (okTo_bind _ _ (fits AttributeKind)); [by apply updateCurrentAttribute_ok |].
    intros k2 Hk2. by apply appendToAttribute_ok.
Qed.

Lemma attribute_tag (k : HTMLToken) : fits AttributeKind k -> fits TagKind k.
Proof. by intros [H _]. Qed.

Lemma appendAllToAttributeValue_ok (l : list Z) (k : HTMLToken) :
  Forall (fun c => c <> 0) l -> fits AttributeKind k ->
  okTo (appendAllToAttributeValue l k) (fits AttributeKind).
Proof.
  intros Hl. revert k. induction Hl as [| c l Hc Hl IH]; intros k Hk; [by apply okTo_some |].
  cbn [appendAllToAttributeValue]. eapply okTo_bind; [by apply appendToAttribute_ok | apply IH].
Qed.

(** *** Comments *)
Lemma beginComment_ok (k : HTMLToken) : fits FreshKind k -> okTo (beginComment k) (fits CommentKind).
Proof.
  intros Hk. unfold beginComment, isUninitialized. rewrite isType_refl by done. by apply okTo_some.
Qed.

Lemma appendToComment_ok (c : Z) (k : HTMLToken) :
  c <> 0 -> fits CommentKind k -> okTo (appendToComment c k) (fits CommentKind).
Proof.
  intros Hc Hk. unfold appendToComment. rewrite assert_nonzero, isType_refl by done. by apply okTo_some.
Qed.

Lemma appendAllToComment_ok (l : list Z) (k : HTMLToken) :
  Forall (fun c => c <> 0) l -> fits CommentKind k ->
  okTo (appendAllToComment l k) (fits CommentKind).
Proof.
  intros Hl. revert k. induction Hl as [| c l Hc Hl IH]; intros k Hk; [by apply okTo_some |].
  cbn [appendAllToComment]. eapply okTo_bind; [by apply appendToComment_ok | apply IH].
Qed.

(** *** DOCTYPE tokens *)
Lemma beginDOCTYPE_ok (k : HTMLToken) :
  fits FreshKind k -> okTo (beginDOCTYPE k) (fits DoctypeKind).
Proof.
  intros Hk. unfold beginDOCTYPE, isUninitialized. rewrite isType_refl by done. apply okTo_some.
  split; [done | by eexists].
Qed.

Lemma beginDOCTYPEWith_ok (c : Z) (k : HTMLToken) :
  c <> 0 -> fits FreshKind k -> okTo (beginDOCTYPEWith c k) (fits DoctypeKind).
Proof.
  intros Hc Hk. unfold beginDOCTYPEWith. rewrite assert_nonzero by done. simpl.
  eapply okTo_bind; [by apply beginDOCTYPE_ok |]. intros k1 Hk1. by apply okTo_some.
Qed.

Lemma updateDoctype_ok (f : DoctypeData -> DoctypeData) (k : HTMLToken) :
  fits DoctypeKind k ->
  okTo (updateDoctype f k) (fun k1 => m_type k1 = DOCTYPE /\
    exists d, m_doctypeData k = Some d /\ m_doctypeData k1 = Some (f d)).
Proof.
  intros (Ht & d & Hd). unfold updateDoctype, isDOCTYPE. rewrite isType_refl by done. simpl.
  rewrite Hd. simpl. apply okTo_some. split; [done |]. by exists d.
Qed.

Lemma setForceQuirks_ok (k : HTMLToken) :
  fits DoctypeKind k -> okTo (setForceQuirks k) (fits DoctypeKind).
Proof.
  intros Hk. eapply okTo_weaken; [by apply updateDoctype_ok |].
  intros k1 (Ht & d & _ & Hd). split; [done | by eexists].
Qed.

Lemma public_doctype (k : HTMLToken) : fits PublicKind k -> fits DoctypeKind k.
Proof. intros (Ht & d & Hd & _). split; [done | by exists d]. Qed.
Lemma system_doctype (k : HTMLToken) : fits SystemKind k -> fits DoctypeKind k.
Proof. intros (Ht & d & Hd & _). split; [done | by exists d]. Qed.

Lemma newQuirky_ok (k : HTMLToken) :
  fits FreshKind k -> okTo (k1 ← beginDOCTYPE k; setForceQuirks k1) (fits DoctypeKind).
Proof. intros Hk. eapply okTo_bind; [by apply beginDOCTYPE_ok | apply setForceQuirks_ok]. Qed.

Lemma setPublic_ok (k : HTMLToken) :
  fits DoctypeKind k -> okTo (setPublicIdentifierToEmptyString k) (fits PublicKind).
Proof.
  intros Hk. eapply okTo_weaken; [by apply updateDoctype_ok |].
  intros k1 (Ht & d & _ & Hd). split; [done | by eexists].
Qed.

Lemma setSystem_ok (k : HTMLToken) :
  fits DoctypeKind k -> okTo (setSystemIdentifierToEmptyString k) (fits SystemKind).
Proof.
  intros Hk. eapply okTo_weaken; [by apply updateDoctype_ok |].
  intros k1 (Ht & d & _ & Hd). split; [done | by eexists].
Qed.

Lemma appendPublic_ok (c : Z) (k : HTMLToken) :
  c <> 0 -> fits PublicKind k -> okTo (appendToPublicIdentifier c k) (fits PublicKind).
Proof.
  intros Hc Hk. unfold appendToPublicIdentifier, isDOCTYPE.
  pose proof Hk as (Ht & d & Hd & Hp). rewrite assert_nonzero, isType_refl, Hd by done. simpl.
  rewrite Hp. simpl. eapply okTo_weaken; [by apply updateDoctype_ok, public_doctype |].
  intros k1 (Ht1 & d1 & Hd1 & Hd2). split; [done |]. rewrite Hd in Hd1. injection Hd1 as <-.
  by eexists.
Qed.

Lemma appendSystem_ok (c : Z) (k : HTMLToken) :
  c <> 0 -> fits SystemKind k -> okTo (appendToSystemIdentifier c k) (fits SystemKind).
Proof.
  intros Hc Hk. unfold appendToSystemIdentifier, isDOCTYPE.
  pose proof Hk as (Ht & d & Hd & Hp). rewrite assert_nonzero, isType_refl, Hd by done. simpl.
  rewrite Hp. simpl. eapply okTo_weaken; [by apply updateDoctype_ok, system_doctype |].
  intros k1 (Ht1 & d1 & Hd1 & Hd2). split; [done |]. rewrite Hd in Hd1. injection Hd1 as <-.
  by eexists.
Qed.

(** ** Every block keeps the invariant *)

Lemma endAttributeName_ok (pos : Z) (k : HTMLToken) :
  fits AttributeKind k -> okTo (endAttributeName pos k) (fits AttributeKind).
Proof. apply updateCurrentAttribute_ok. Qed.
Lemma beginAttributeValue_ok (pos : Z) (k : HTMLToken) :
  fits AttributeKind k -> okTo (beginAttributeValue pos k) (fits AttributeKind).
Proof. apply updateCurrentAttribute_ok. Qed.
Lemma endAttributeValue_ok (pos : Z) (k : HTMLToken) :
  fits AttributeKind k -> okTo (endAttributeValue pos k) (fits AttributeKind).
Proof. apply updateCurrentAttribute_ok. Qed.
Lemma appendToAttributeName_ok (c : Z) (k : HTMLToken) :
  c <> 0 -> fits AttributeKind k -> okTo (appendToAttributeName c k) (fits AttributeKind).
Proof. intros Hc Hk. by apply appendToAttribute_ok. Qed.
Lemma appendToAttributeValue_ok (c : Z) (k : HTMLToken) :
  c <> 0 -> fits AttributeKind k -> okTo (appendToAttributeValue c k) (fits AttributeKind).
Proof. intros Hc Hk. by apply appendToAttribute_ok. Qed.
Lemma startValue_ok (c pos : Z) (k : HTMLToken) :
  c <> 0 -> fits AttributeKind k ->
  okTo (k1 ← beginAttributeValue pos k; appendToAttributeValue c k1) (fits AttributeKind).
Proof.
  intros Hc Hk. eapply okTo_bind; [by apply beginAttributeValue_ok |].
  intros k1 Hk1. by apply appendToAttributeValue_ok.
Qed.

Lemma appendDoctypeName_ok (c : Z) (k : HTMLToken) :
  c <> 0 -> fits DoctypeKind k -> okTo (appendToName c k) (fits DoctypeKind).
Proof.
  intros Hc (Ht & d & Hd). unfold appendToName, hasName. rewrite Ht, assert_nonzero by done. simpl.
  apply okTo_some. split; [done | by exists d].
Qed.

Lemma character_text (k : HTMLToken) : m_type k = Character -> fits TextKind k.
Proof. by right. Qed.
Lemma fresh_text (k : HTMLToken) : fits FreshKind k -> fits TextKind k.
Proof. by left. Qed.
Lemma text_fresh (k : HTMLToken) :
  fits TextKind k -> isType (m_type k) Character = false -> fits FreshKind k.
Proof. intros [H | H]; [done |]. by rewrite H. Qed.
Lemma tag_emitted (k : HTMLToken) : fits TagKind k -> emitted k.
Proof. unfold emitted. by intros [-> | ->]. Qed.
Lemma comment_emitted (k : HTMLToken) : fits CommentKind k -> emitted k.
Proof. unfold emitted. by intros ->. Qed.
Lemma doctype_emitted (k : HTMLToken) : fits DoctypeKind k -> emitted k.
Proof. unfold emitted. by intros [-> _]. Qed.

Lemma nonzero_eof (c : Z) : (c =? kEndOfFileMarker) = false -> c <> 0.
Proof. by intros H%Z.eqb_neq. Qed.
Lemma nonzero_eq (c d : Z) : (c =? d) = true -> d <> 0 -> c <> 0.
Proof. by intros ->%Z.eqb_eq. Qed.
Lemma whitespace_nonzero (cc : Z) : isTokenizerWhitespace cc = true -> cc <> 0.
Proof. intros E ->. by vm_compute in E. Qed.
Lemma delimiter_nonzero (cc : Z) :
  isTokenizerWhitespace cc || (cc =? ch "/") || (cc =? ch ">") = true -> cc <> 0.
Proof. intros E ->. by vm_compute in E. Qed.

Create HintDb tokens.
#[export] Hint Resolve bufferCharacter_ok bufferTwo_ok beginStartTag_ok beginEndTagChar_ok
  appendToName_ok setSelfClosing_ok startAttribute_ok endAttributeName_ok beginAttributeValue_ok
  endAttributeValue_ok appendToAttributeName_ok appendToAttributeValue_ok startValue_ok
  beginComment_ok appendToComment_ok appendAllToComment_ok beginDOCTYPE_ok
  beginDOCTYPEWith_ok newQuirky_ok setForceQuirks_ok appendDoctypeName_ok setPublic_ok setSystem_ok
  appendPublic_ok appendSystem_ok : tokens.
#[export] Hint Resolve attribute_tag public_doctype system_doctype character_text fresh_text text_fresh
  tag_emitted comment_emitted doctype_emitted : tokens.
#[export] Hint Resolve isASCIILower_nonzero isASCIIUpper_nonzero whitespace_nonzero
  delimiter_nonzero nonzero_eof : tokens.
#[export] Hint Extern 2 (?c <> 0) =>
  match goal with H : (c =? ?d) = true |- _ => apply (nonzero_eq c d H); discriminate end : tokens.
#[export] Hint Extern 1 (_ <> _) => discriminate : tokens.
#[export] Hint Extern 1 (Forall _ _) =>
  repeat (apply Forall_cons_2; [solve [eauto 3 with tokens] |]); apply Forall_nil_2 : tokens.

Lemma shapeOk_plain (st : State) (t : HTMLTokenizer) (k : HTMLToken) :
  fits (kindOf st) k -> isEndTagNameState st = false -> m_bufferedEndTagName t = [] ->
  st <> CharacterReferenceInAttributeValueState -> shapeOk st t k.
Proof. intros Hk He Hb Hn. split; [done |]. by rewrite He. Qed.

Ltac plain :=
  apply shapeOk_plain; [cbn [kindOf]; by eauto with tokens | reflexivity | assumption | discriminate].

(** The end of a block from the facts about its token. *)
Ltac finish_end :=
  cbn [endOk];
  lazymatch goal with
  | |- shapeOk _ _ _ /\ _ <> _ => split; [plain | by eauto 3 with tokens]
  | |- shapeAt _ _ _ _ /\ _ =>
      split; [first [left; plain
                    | right; split; [done | split; [by apply Z.eqb_eq | assumption]]]
             | match goal with H : m_state _ = _ |- _ => rewrite H end; cbn [rank]; lia]
  | |- emitted _ /\ _ =>
      split; [by eauto with tokens | split; [assumption |
        split; [done | first [by eauto 3 with tokens | match goal with H : m_state _ = _ |- _ => rewrite H end; cbn [rank]; lia]]]]
  | |- _ = [] /\ rank _ = _ /\ _ =>
      split; [assumption | match goal with H : m_state _ = _ |- _ => rewrite H end;
        split; [done | split; [by apply Z.eqb_eq | done]]]
  | |- m_type _ = Character /\ _ =>
      split; [match goal with H : isType _ _ = true |- _ => exact (bool_decide_eq_true_1 _ H) end
             | split; assumption]
  end.

Ltac block_step :=
  match goal with
  | |- blockOk _ _ (if ?b then _ else _) => destruct b eqn:?
  | |- blockOk ?c ?t (toLowerCase _ ≫= _) =>
      eapply okTo_bind; [apply lower_ok; eassumption | intros ? [? ?]; cbv beta;
        match goal with |- okTo ?m _ => change (blockOk c t m) end]
  | |- blockOk _ _ (goto _ _ _) => apply blockOk_goto; [by repeat split | finish_end]
  | |- blockOk _ _ (after _ _ _) =>
      eapply blockOk_after; [by repeat split | by eauto 5 with tokens | intros ? ?; cbv beta in *; finish_end]
  end.

(** The states whose block is covered by the automation alone. *)
Definition isPlainState (s : State) : bool :=
  match s with
  | CharacterReferenceInDataState | CharacterReferenceInRCDATAState
  | CharacterReferenceInAttributeValueState | MarkupDeclarationOpenState | AfterDOCTYPENameState
  | EndTagOpenState
  | RCDATALessThanSignState | RCDATAEndTagOpenState | RCDATAEndTagNameState
  | RAWTEXTLessThanSignState | RAWTEXTEndTagOpenState | RAWTEXTEndTagNameState
  | ScriptDataLessThanSignState | ScriptDataEndTagOpenState | ScriptDataEndTagNameState
  | ScriptDataEscapedLessThanSignState | ScriptDataEscapedEndTagOpenState
  | ScriptDataEscapedEndTagNameState
  | ScriptDataDoubleEscapeStartState | ScriptDataDoubleEscapeEndState
  | AttributeValueDoubleQuotedState | AttributeValueSingleQuotedState
  | AttributeValueUnquotedState => false
  | _ => true
  end.

Lemma plainBlock_ok (t : HTMLTokenizer) (k : HTMLToken) (cc pos : Z) :
  isPlainState (m_state t) = true -> fits (kindOf (m_state t)) k ->
  m_bufferedEndTagName t = [] -> blockOk cc t (pureBlock (m_state t) t k cc pos).
Proof.
  intros Hp Hk Hb. destruct (m_state t) eqn:Est; try discriminate Hp; clear Hp;
    cbn [kindOf] in Hk; cbn [pureBlock].
  - unfold in_DataState. repeat block_step.
  - unfold in_RCDATAState. repeat block_step.
  - unfold in_RAWTEXTState. repeat block_step.
  - unfold in_ScriptDataState. repeat block_step.
  - unfold in_PLAINTEXTState. repeat block_step.
  - unfold in_TagOpenState. repeat block_step.
  - unfold in_TagNameState. repeat block_step.
  - unfold in_ScriptDataEscapeStartState. repeat block_step.
  - unfold in_ScriptDataEscapeStartDashState. repeat block_step.
  - unfold in_ScriptDataEscapedState. repeat block_step.
  - unfold in_ScriptDataEscapedDashState. repeat block_step.
  - unfold in_ScriptDataEscapedDashDashState. repeat block_step.
  - unfold in_ScriptDataDoubleEscapedState. repeat block_step.
  - unfold in_ScriptDataDoubleEscapedDashState. repeat block_step.
  - unfold in_ScriptDataDoubleEscapedDashDashState. repeat block_step.
  - unfold in_ScriptDataDoubleEscapedLessThanSignState. repeat block_step.
  - unfold in_BeforeAttributeNameState. repeat block_step.
  - unfold in_AttributeNameState. repeat block_step.
  - unfold in_AfterAttributeNameState. repeat block_step.
  - unfold in_BeforeAttributeValueState. repeat block_step.
  - unfold in_AfterAttributeValueQuotedState. repeat block_step.
  - unfold in_SelfClosingStartTagState. repeat block_step.
  - unfold in_BogusCommentState. repeat block_step.
  - unfold in_ContinueBogusCommentState. repeat block_step.
  - unfold in_CommentStartState. repeat block_step.
  - unfold in_CommentStartDashState. repeat block_step.
  - unfold in_CommentState. repeat block_step.
  - unfold in_CommentEndDashState. repeat block_step.
  - unfold in_CommentEndState. repeat block_step.
  - unfold in_CommentEndBangState. repeat block_step.
  - unfold in_DOCTYPEState. repeat block_step.
  - unfold in_BeforeDOCTYPENameState. repeat block_step.
  - unfold in_DOCTYPENameState. repeat block_step.
  - unfold in_AfterDOCTYPEPublicKeywordState, doctypeTail. repeat block_step.
  - unfold in_BeforeDOCTYPEPublicIdentifierState, doctypeTail. repeat block_step.
  - unfold in_DOCTYPEPublicIdentifierDoubleQuotedState, identifierQuoted. repeat block_step.
  - unfold in_DOCTYPEPublicIdentifierSingleQuotedState, identifierQuoted. repeat block_step.
  - unfold in_AfterDOCTYPEPublicIdentifierState. repeat block_step.
  - unfold in_BetweenDOCTYPEPublicAndSystemIdentifiersState. repeat block_step.
  - unfold in_AfterDOCTYPESystemKeywordState, doctypeTail. repeat block_step.
  - unfold in_BeforeDOCTYPESystemIdentifierState, doctypeTail. repeat block_step.
  - unfold in_DOCTYPESystemIdentifierDoubleQuotedState, identifierQuoted. repeat block_step.
  - unfold in_DOCTYPESystemIdentifierSingleQuotedState, identifierQuoted. repeat block_step.
  - unfold in_AfterDOCTYPESystemIdentifierState. repeat block_step.
  - unfold in_BogusDOCTYPEState. repeat block_step.
  - unfold in_CDATASectionState. repeat block_step.
  - unfold in_CDATASectionRightSquareBracketState. repeat block_step.
  - unfold in_CDATASectionDoubleRightSquareBracketState. repeat block_step.
Qed.

(** ** The blocks that change the tokenizer *)

Lemma lessThanSignSlash_ok (cc : Z) (next : State) (t : HTMLTokenizer) (k : HTMLToken) :
  cc <> 0 -> m_bufferedEndTagName t = [] -> fits TextKind k -> kindOf next = TextKind ->
  isEndTagNameState next = false -> next <> CharacterReferenceInAttributeValueState ->
  blockOk cc t (lessThanSignSlash next t k).
Proof.
  intros Hcc Hb Hk Hn He Hc. unfold lessThanSignSlash. cbn [m_bufferedEndTagName set_temporary].
  rewrite Hb. apply blockOk_goto; [by repeat split |]. cbn [endOk].
  split; [apply shapeOk_plain; [by rewrite Hn | done | done | done] | done].
Qed.

(** The state of the end-tag-name block belonging to a text state. *)
Lemma addToPossibleEndTag_ok (c : Z) (t : HTMLTokenizer) :
  isEndTagBufferingState (m_state t) = true ->
  addToPossibleEndTag c t = Some (set_buffered (m_bufferedEndTagName t ++ [c]) t).
Proof. intros E. unfold addToPossibleEndTag. by rewrite E. Qed.

Lemma shapeOk_endTagName (st : State) (t : HTMLTokenizer) (k : HTMLToken) (l : list Z) (c : Z) :
  isEndTagNameState st = true -> fits TextKind k ->
  shapeOk st (set_buffered (l ++ [c]) t) k.
Proof.
  intros Hs Hk. split; [by destruct st | split].
  - rewrite Hs. cbn [m_bufferedEndTagName set_buffered]. by destruct l.
  - by destruct st.
Qed.

Lemma endTagOpen_ok (t : HTMLTokenizer) (k : HTMLToken) (cc pos : Z) (name text : State) :
  m_bufferedEndTagName t = [] -> fits TextKind k ->
  isEndTagBufferingState (m_state t) = true -> isEndTagNameState name = true ->
  kindOf text = TextKind -> isEndTagNameState text = false ->
  text <> CharacterReferenceInAttributeValueState -> (rank text < rank (m_state t))%nat ->
  blockOk cc t (endTagOpen name text t k cc pos).
Proof.
  intros Hb Hk Hs Hn Ht He Hc Hr. unfold endTagOpen.
  repeat match goal with |- blockOk _ _ (if ?b then _ else _) => destruct b eqn:? end.
  - eapply okTo_bind; [by apply lower_ok |]. intros c _.
    rewrite addToPossibleEndTag_ok by done. apply okTo_some.
    split; [by repeat split | split; [by apply shapeOk_endTagName | by eauto with tokens]].
  - rewrite addToPossibleEndTag_ok by done. apply okTo_some.
    split; [by repeat split | split; [by apply shapeOk_endTagName | by eauto with tokens]].
  - eapply blockOk_after; [by repeat split | by eauto 5 with tokens |]. intros k1 Hk1. cbn [endOk].
    split; [| done]. left. apply shapeOk_plain; try done. rewrite Ht. by right.
Qed.

Lemma notAnEndTag_ok (t : HTMLTokenizer) (k : HTMLToken) (cc : Z) (text : State) :
  fits TextKind k -> kindOf text = TextKind -> isEndTagNameState text = false ->
  text <> CharacterReferenceInAttributeValueState -> (rank text < rank (m_state t))%nat ->
  blockOk cc t (notAnEndTag text t k).
Proof.
  intros Hk Ht He Hc Hr. unfold notAnEndTag.
  destruct (bufferCharacter_ok (ch "<") k ltac:(done) Hk) as (k1 & -> & H1). simpl.
  destruct (bufferCharacter_ok (ch "/") k1 ltac:(done) ltac:(by right)) as (k2 & -> & H2). simpl.
  unfold appendVectorToCharacter. rewrite isType_refl by done. simpl.
  apply blockOk_goto; [by repeat split |]. split; [| done]. left.
  apply shapeOk_plain; try done. rewrite Ht. by right.
Qed.

Lemma endTagName_ok (t : HTMLTokenizer) (k : HTMLToken) (cc pos : Z) (self text : State) :
  m_bufferedEndTagName t <> [] -> fits TextKind k ->
  isEndTagBufferingState (m_state t) = true -> isEndTagNameState self = true ->
  kindOf text = TextKind -> isEndTagNameState text = false ->
  text <> CharacterReferenceInAttributeValueState -> (rank text < rank (m_state t))%nat ->
  blockOk cc t (endTagName self text t k cc pos).
Proof.
  intros Hb Hk Hs Hn Ht He Hc Hr. unfold endTagName. cbv zeta.
  repeat match goal with |- blockOk _ _ (if ?b then _ else _) => destruct b eqn:? end;
    try by apply notAnEndTag_ok.
  - eapply okTo_bind; [by apply lower_ok |]. intros c _.
    rewrite addToPossibleEndTag_ok by done. apply okTo_some.
    split; [by repeat split | split; [by apply shapeOk_endTagName | by eauto with tokens]].
  - rewrite addToPossibleEndTag_ok by done. apply okTo_some.
    split; [by repeat split | split; [by apply shapeOk_endTagName | by eauto with tokens]].
  - apply blockOk_goto; [by repeat split |]. split; [done | split; [done | split; [by left | by eauto with tokens]]].
  - apply blockOk_goto; [by repeat split |]. split; [done | split; [done | split; [by right | by eauto with tokens]]].
  - apply blockOk_goto; [by repeat split |].
    split; [done | split; [done | split; [done | by eauto with tokens]]].
Qed.

Lemma doubleEscape_ok (t : HTMLTokenizer) (k : HTMLToken) (cc pos : Z) (self a b : State) :
  m_bufferedEndTagName t = [] -> fits TextKind k ->
  Forall (fun st => kindOf st = TextKind /\ isEndTagNameState st = false /\
            st <> CharacterReferenceInAttributeValueState) [self; a; b] ->
  (rank b < rank (m_state t))%nat ->
  blockOk cc t (doubleEscape self a b t k cc pos).
Proof.
  intros Hb Hk Hall Hr.
  apply Forall_cons_1 in Hall as [(Hs1 & Hs2 & Hs3) Hall].
  apply Forall_cons_1 in Hall as [(Ha1 & Ha2 & Ha3) Hall].
  apply Forall_cons_1 in Hall as [(Hb1 & Hb2 & Hb3) _].
  assert (Hplain : forall st t1 k1, kindOf st = TextKind -> isEndTagNameState st = false ->
    st <> CharacterReferenceInAttributeValueState -> m_bufferedEndTagName t1 = [] ->
    fits TextKind k1 -> shapeOk st t1 k1).
  { intros st t1 k1 H1 H2 H3 H4 H5. apply shapeOk_plain; try done. by rewrite H1. }
  unfold doubleEscape.
  repeat match goal with |- blockOk _ _ (if ?b then _ else _) => destruct b eqn:? end.
  - eapply okTo_bind; [apply bufferCharacter_ok; [by eauto with tokens | done] |]. intros k1 Hk1.
    destruct (temporaryBufferIs scriptTag t); apply blockOk_goto; try (by repeat split);
      split; by eauto using Hplain with tokens.
  - eapply okTo_bind; [apply bufferCharacter_ok; [by eauto with tokens | done] |]. intros k1 Hk1.
    eapply okTo_bind; [by apply lower_ok |]. intros c _.
    apply blockOk_goto; [by repeat split |]. split; by eauto using Hplain with tokens.
  - eapply okTo_bind; [apply bufferCharacter_ok; [by eauto with tokens | done] |]. intros k1 Hk1.
    apply blockOk_goto; [by repeat split |]. split; by eauto using Hplain with tokens.
  - apply blockOk_goto; [by repeat split |]. split; [left; by apply Hplain | done].
Qed.

Lemma shapeOk_reference (t : HTMLTokenizer) (k : HTMLToken) (q : Z) :
  m_bufferedEndTagName t = [] -> fits AttributeKind k -> q = 34 \/ q = 39 \/ q = ch ">" ->
  shapeOk CharacterReferenceInAttributeValueState (set_additional q t) k.
Proof. intros Hb Hk Hq. by split; [| split]. Qed.

Lemma attributeValueQuoted_ok (t : HTMLTokenizer) (k : HTMLToken) (cc pos q : Z) (self : State) :
  m_bufferedEndTagName t = [] -> fits AttributeKind k -> (0 < rank (m_state t))%nat ->
  q = 34 \/ q = 39 -> kindOf self = AttributeKind -> isEndTagNameState self = false ->
  self <> CharacterReferenceInAttributeValueState ->
  blockOk cc t (attributeValueQuoted q self t k cc pos).
Proof.
  intros Hb Hk Hr Hq Hs He Hc. unfold attributeValueQuoted.
  repeat match goal with |- blockOk _ _ (if ?b then _ else _) => destruct b eqn:? end.
  - eapply blockOk_after; [by repeat split | by eauto 5 with tokens |]. intros k1 Hk1. cbn [endOk].
    split; [by apply shapeOk_plain; eauto with tokens |].
    destruct Hq as [-> | ->]; by eauto with tokens.
  - apply blockOk_goto; [by repeat split |]. split; [apply shapeOk_reference; tauto | by eauto with tokens].
  - eapply blockOk_after; [by repeat split | by eauto 5 with tokens |]. intros k1 Hk1. cbn [endOk].
    split; [right; split; [done | split; [by apply Z.eqb_eq | done]] | done].
  - eapply blockOk_after; [by repeat split | by eauto 5 with tokens |]. intros k1 Hk1. cbn [endOk].
    split; [apply shapeOk_plain; try done; by rewrite Hs | by eauto with tokens].
Qed.

Lemma attributeValueUnquoted_ok (t : HTMLTokenizer) (k : HTMLToken) (cc pos : Z) :
  m_bufferedEndTagName t = [] -> fits AttributeKind k -> m_state t = AttributeValueUnquotedState ->
  blockOk cc t (in_AttributeValueUnquotedState t k cc pos).
Proof.
  intros Hb Hk Est. unfold in_AttributeValueUnquotedState. repeat block_step.
  apply blockOk_goto; [by repeat split |]. split; [apply shapeOk_reference; tauto | by eauto with tokens].
Qed.

Lemma endTagOpenState_ok (t : HTMLTokenizer) (k : HTMLToken) (cc pos : Z) :
  m_bufferedEndTagName t = [] -> fits FreshKind k -> m_state t = EndTagOpenState ->
  blockOk cc t (in_EndTagOpenState t k cc pos).
Proof.
  intros Hb Hk Est. unfold in_EndTagOpenState. repeat block_step.
  - eapply okTo_bind; [by apply beginEndTagChar_ok |]. intros k1 Hk1.
    apply blockOk_goto; [by repeat split |]. split; [by apply shapeOk_plain | by eauto with tokens].
  - eapply okTo_bind; [by apply beginEndTagChar_ok |]. intros k1 Hk1.
    apply blockOk_goto; [by repeat split |]. split; [by apply shapeOk_plain | by eauto with tokens].
Qed.

Lemma lessThanSign_ok (t : HTMLTokenizer) (k : HTMLToken) (cc : Z) (next text : State) :
  m_bufferedEndTagName t = [] -> fits TextKind k -> kindOf next = TextKind ->
  isEndTagNameState next = false -> next <> CharacterReferenceInAttributeValueState ->
  kindOf text = TextKind -> isEndTagNameState text = false ->
  text <> CharacterReferenceInAttributeValueState -> (rank text < rank (m_state t))%nat ->
  blockOk cc t (if cc =? ch "/" then lessThanSignSlash next t k
                else after t (bufferCharacter (ch "<") k) (ReconsumeIn text)).
Proof.
  intros. destruct (cc =? ch "/") eqn:Ec;
    [apply lessThanSignSlash_ok; by eauto with tokens |].
  eapply blockOk_after; [by repeat split | by eauto 5 with tokens |]. intros k1 Hk1. cbn [endOk].
  split; [| done]. left. apply shapeOk_plain; try done. rewrite H4. by right.
Qed.

(** Every block that does not touch the input succeeds and keeps the invariant. *)
Lemma pureBlock_ok (t : HTMLTokenizer) (k : HTMLToken) (cc pos : Z) :
  usesInput (m_state t) = false -> shapeAt cc (m_state t) t k ->
  blockOk cc t (pureBlock (m_state t) t k cc pos).
Proof.
  intros Hu [(Hk & Hb & _) | (Est & -> & Hb)].
  2: { rewrite Est. cbn [pureBlock]. unfold in_DataState. simpl.
       apply blockOk_goto; [by repeat split |]. cbn [endOk]. rewrite Est. by repeat split. }
  destruct (isPlainState (m_state t)) eqn:Ep.
  { apply plainBlock_ok; try done. by destruct (m_state t). }
  destruct (m_state t) eqn:Est; try discriminate Ep; try discriminate Hu;
    cbn [kindOf isEndTagNameState] in *; cbn [pureBlock].
  - by apply endTagOpenState_ok.
  - by apply lessThanSign_ok; rewrite ?Est; cbn [rank]; try lia.
  - by apply endTagOpen_ok; rewrite ?Est; cbn [rank]; try lia.
  - by apply endTagName_ok; rewrite ?Est; cbn [rank]; try lia.
  - by apply lessThanSign_ok; rewrite ?Est; cbn [rank]; try lia.
  - by apply endTagOpen_ok; rewrite ?Est; cbn [rank]; try lia.
  - by apply endTagName_ok; rewrite ?Est; cbn [rank]; try lia.
  - unfold in_ScriptDataLessThanSignState. destruct (cc =? ch "/") eqn:Ec;
    [apply lessThanSignSlash_ok; by eauto with tokens |].
    repeat block_step.
  - by apply endTagOpen_ok; rewrite ?Est; cbn [rank]; try lia.
  - by apply endTagName_ok; rewrite ?Est; cbn [rank]; try lia.
  - unfold in_ScriptDataEscapedLessThanSignState.
    destruct (cc =? ch "/") eqn:Ec;
    [apply lessThanSignSlash_ok; by eauto with tokens |]. repeat block_step.
    + eapply okTo_bind; [by eauto 5 with tokens |]. intros k1 Hk1. cbv beta in Hk1.
      eapply okTo_bind; [by eauto 5 with tokens |]. intros k2 Hk2. cbv beta in Hk2.
      eapply okTo_bind; [by apply lower_ok |]. intros c _.
      apply blockOk_goto; [by repeat split |]. split; [apply shapeOk_plain; try done; by right | by eauto with tokens].
    + eapply okTo_bind; [by eauto 5 with tokens |]. intros k1 Hk1. cbv beta in Hk1.
      eapply okTo_bind; [by eauto 5 with tokens |]. intros k2 Hk2. cbv beta in Hk2.
      apply blockOk_goto; [by repeat split |]. split; [apply shapeOk_plain; try done; by right | by eauto with tokens].
  - by apply endTagOpen_ok; rewrite ?Est; cbn [rank]; try lia.
  - by apply endTagName_ok; rewrite ?Est; cbn [rank]; try lia.
  - apply doubleEscape_ok; rewrite ?Est; cbn [rank]; try done; [by repeat constructor | lia].
  - apply doubleEscape_ok; rewrite ?Est; cbn [rank]; try done; [by repeat constructor | lia].
  - apply attributeValueQuoted_ok; rewrite ?Est; cbn [rank]; try done; [lia | by left].
  - apply attributeValueQuoted_ok; rewrite ?Est; cbn [rank]; try done; [lia | by right].
  - by apply attributeValueUnquoted_ok.
Qed.
