(* ===== verification/TokenizerSafety.v ===== *)
(** * The tokenizer never fails and always stops

    The invariant of the input queue while the tokenizer runs, what a peek and a
    block do to it, and the total correctness of [nextToken] and [pump] on the
    queue: no assertion fails, no loop runs out of fuel, and every token that is
    returned has been paid for in input. *)

From S2P Require Import Prelude SegmentedString CharSource HTMLToken HTMLEntitySearch HTMLEntityParser InputStreamPreprocessor HTMLTokenizer TokenizerInvariant.

(** ** What a peek sees

    The next input character of the text [l], the skip-newline flag and the text
    from that character on. *)
Fixpoint nextChar (skipNulls closed skip : bool) (l : list Z) : option Z * bool * list Z :=
  match l with
  | [] => (None, skip, [])
  | c :: l' =>
      if (c =? 10) && skip then nextChar skipNulls closed false l'
      else if c =? 13 then (Some 10, true, l)
      else if (c =? 0) && negb (closed && isEmptyVector l') then
        if skipNulls then nextChar skipNulls closed false l' else (Some 0xFFFD, false, l)
      else (Some c, false, l)
  end.

(** The relation between the head of the text and the character a peek reports. *)
Definition shows (closed : bool) (l : list Z) (cc : Z) : Prop :=
  exists c l', l = c :: l' /\ (c <> 13 -> c <> 0 -> cc = c) /\
    (cc = 0 -> c = 0 /\ closed = true /\ l' = []) /\
    (c = 0 -> closed = true -> l' = [] -> cc = 0).

Lemma nextChar_some (ss cl skip skip' : bool) (l rest : list Z) (cc : Z) :
  nextChar ss cl skip l = (Some cc, skip', rest) ->
  shows cl rest cc /\ exists u, l = u ++ rest.
Proof.
  revert skip. induction l as [| c l IH]; intros skip; simpl; [done |].
  destruct ((c =? 10) && skip).
  { intros E. destruct (IH _ E) as [Hs [u ->]]. split; [done | by exists (c :: u)]. }
  destruct (c =? 13) eqn:E13.
  { intros [= <- _ <-]. bool_to_prop. split; [| by exists []]. exists c, l. subst c.
    by repeat split. }
  destruct ((c =? 0) && negb (cl && isEmptyVector l)) eqn:E0.
  - destruct ss.
    + intros E. destruct (IH _ E) as [Hs [u ->]]. split; [done | by exists (c :: u)].
    + intros [= <- _ <-]. apply andb_true_iff in E0 as [E0 E1]. bool_to_prop.
      split; [| by exists []]. exists c, l. subst c. repeat split; try done.
      by intros _ -> ->.
  - intros [= <- _ <-]. split; [| by exists []]. exists c, l. split; [done | split; [done | split; [| done]]].
    intros ->. simpl in E0. apply negb_false_iff, andb_true_iff in E0 as [-> E0].
    by destruct l.
Qed.

Lemma nextChar_none (ss cl skip skip' : bool) (l rest : list Z) :
  nextChar ss cl skip l = (None, skip', rest) -> rest = [].
Proof.
  revert skip. induction l as [| c l IH]; intros skip; simpl; [by intros [= _ <-] |].
  destruct (_ && skip); [apply IH |]. destruct (c =? 13); [done |].
  destruct (_ && _); [| done]. destruct ss; [apply IH | done].
Qed.

Definition q_from (q : Q) (rest : list Z) : Q :=
  mkQ rest (q_pushed q) (q_closed q)
    (q_consumed q + (Z.of_nat (length (q_pending q)) - Z.of_nat (length rest))).

Ltac same_consumed :=
  match goal with
  | |- Ok (_, mkQ _ _ _ ?x) = Ok (_, mkQ _ _ _ ?y) => replace x with y by lia
  end.

Lemma process_ok (ss cl : bool) (p : list Z) (pr : InputStreamPreprocessor) (n : Z) (fuel : nat) :
  p <> [] -> (length p < fuel)%nat -> m_nextInputCharacter pr = default 0 (head p) ->
  let '(o, sk, rest) := nextChar ss cl (m_skipNextNewLine pr) p in
    processNextInputCharacter fuel ss pr (mkQ p 0 cl n)
      = Ok (match o with Some _ => true | None => false end,
            mkPreprocessor (default (List.last p 0) o) sk,
            q_from (mkQ p 0 cl n) rest).
Proof.
  revert p pr n. induction fuel as [| fuel IH]; intros p pr n Hp Hf Hn; [lia |].
  destruct p as [| c p]; [done |]. simpl in Hn, Hf. cbn [processNextInputCharacter].
  change (src_currentChar (mkQ (c :: p) 0 cl n)) with c. rewrite Hn, Z.eqb_refl. simpl.
  assert (Hproc : forall (pr1 : InputStreamPreprocessor) c p n, (length p < fuel)%nat ->
    m_nextInputCharacter pr1 = c ->
    (c = 10 -> m_skipNextNewLine pr1 = false) ->
    let '(o, sk, rest) := nextChar ss cl (m_skipNextNewLine pr1) (c :: p) in
    processCharacter (processNextInputCharacter fuel ss) ss pr1 (mkQ (c :: p) 0 cl n)
      = Ok (match o with Some _ => true | None => false end,
            mkPreprocessor (default (List.last (c :: p) 0) o) sk,
            q_from (mkQ (c :: p) 0 cl n) rest)).
  { clear Hn Hf Hp. intros pr1 d l m Hl Hd Hskip. unfold processCharacter. rewrite Hd.
    cbn [nextChar].
    replace ((d =? 10) && m_skipNextNewLine pr1) with false.
    2: { destruct (d =? 10) eqn:E; [| done]. bool_to_prop. by rewrite Hskip. }
    assert (Hsame : q_from (mkQ (d :: l) 0 cl m) (d :: l) = mkQ (d :: l) 0 cl m).
    { unfold q_from. simpl. f_equal. lia. }
    destruct (d =? 13) eqn:E13; [by rewrite Hsame |]. cbv zeta.
    unfold shouldTreatNullAsEndOfFileMarker, set_skip. cbn [m_nextInputCharacter]. rewrite Hd.
    replace (src_isClosed (mkQ (d :: l) 0 cl m) && (src_length (mkQ (d :: l) 0 cl m) =? 1))
      with (cl && isEmptyVector l).
    2: { change (src_length (mkQ (d :: l) 0 cl m)) with (Z.of_nat (length (d :: l))).
         change (src_isClosed (mkQ (d :: l) 0 cl m)) with cl. f_equal.
         destruct l; [done |]. cbn [length isEmptyVector]. symmetry. apply Z.eqb_neq. lia. }
    destruct ((d =? 0) && negb (cl && isEmptyVector l)) eqn:E0.
    2: { by rewrite Hsame. }
    destruct ss; [| by rewrite Hsame].
    assert (Ed : d = 0) by (apply andb_true_iff in E0 as [E0 _]; by bool_to_prop).
    rewrite Ed in *. clear Ed d. unfold src_advancePastNonNewline.
    change (src_currentChar (mkQ (0 :: l) 0 cl m)) with 0. simpl.
    destruct l as [| e l].
    { reflexivity. }
    change (q_isEmpty (q_advance (mkQ (0 :: e :: l) 0 cl m))) with false. cbv iota.
    change (q_head (q_advance (mkQ (0 :: e :: l) 0 cl m))) with e.
    change (q_advance (mkQ (0 :: e :: l) 0 cl m)) with (mkQ (e :: l) 0 cl (m + 1)).
    pose proof (IH (e :: l) (set_next e (mkPreprocessor 0 false)) (m + 1) ltac:(done) ltac:(done) ltac:(done)) as Hx.
    change (List.last (0 :: e :: l) 0) with (List.last (e :: l) 0). change (m_skipNextNewLine (set_next e (mkPreprocessor 0 false))) with false in Hx.
    unfold set_next in *. cbn [m_skipNextNewLine] in *.
    destruct (nextChar true cl false (e :: l)) as [[o sk] rest]. rewrite Hx.
    unfold q_from. cbn [q_pushed q_closed q_consumed q_pending length]. by same_consumed. }
  destruct ((c =? 10) && m_skipNextNewLine pr) eqn:E.
  - apply andb_true_iff in E as [E1 E2]. apply Z.eqb_eq in E1. rewrite E1 in *. clear E1 c.
    change (ASSERT (q_head (mkQ (10 :: p) 0 cl n) =? 10)) with (Some ()). simpl.
    destruct p as [| e p].
    { unfold set_skip. rewrite Hn. reflexivity. }
    change (q_isEmpty (q_advance (mkQ (10 :: e :: p) 0 cl n))) with false. cbv iota.
    change (q_head (q_advance (mkQ (10 :: e :: p) 0 cl n))) with e.
    change (q_advance (mkQ (10 :: e :: p) 0 cl n)) with (mkQ (e :: p) 0 cl (n + 1)).
    pose proof (Hproc (set_next e (set_skip false pr)) e p (n + 1) ltac:(simpl in Hf; lia) eq_refl (fun _ => eq_refl)) as Hx.
    change (List.last (10 :: e :: p) 0) with (List.last (e :: p) 0). change (m_skipNextNewLine (set_next e (set_skip false pr))) with false in Hx.
    destruct (nextChar ss cl false (e :: p)) as [[o sk] rest]. rewrite Hx.
    unfold q_from. cbn [q_pushed q_closed q_consumed q_pending length]. by same_consumed.
  - pose proof (Hproc pr c p n ltac:(lia) Hn
      ltac:(intros ->; by destruct (m_skipNextNewLine pr))) as Hx.
    cbn [nextChar] in Hx. rewrite E in Hx. simpl. exact Hx.
Qed.

Lemma special_mask (c : Z) :
  Z.land c (Z.lnot specialCharacterMask) <> 0 -> c <> 10 /\ c <> 13 /\ c <> 0.
Proof. intros H. repeat split; intros ->; by apply H. Qed.

Lemma reference_ordinary (c : Z) :
  isReferenceCharacter c = true -> c <> 10 /\ c <> 13 /\ c <> 0.
Proof. intros H. repeat split; intros ->; by vm_compute in H. Qed.

Lemma nextChar_ordinary (ss cl skip : bool) (c : Z) (l : list Z) :
  c <> 10 /\ c <> 13 /\ c <> 0 -> nextChar ss cl skip (c :: l) = (Some c, false, c :: l).
Proof.
  intros (H1 & H2 & H3). cbn [nextChar].
  by rewrite (proj2 (Z.eqb_neq c 10)), (proj2 (Z.eqb_neq c 13)), (proj2 (Z.eqb_neq c 0)) by done.
Qed.

(** Pushed-back characters are ordinary ones. *)
Definition headOk (q : Q) : Prop :=
  q_pushed q = 0%nat \/ isReferenceCharacter (q_head q) = true.

Lemma peek_ok (ss : bool) (pr : InputStreamPreprocessor) (q : Q) :
  q_isEmpty q = false -> q_wf q -> headOk q ->
  let '(o, sk, rest) := nextChar ss (q_closed q) (m_skipNextNewLine pr) (q_pending q) in
    peek ss pr q = Ok (match o with Some _ => true | None => false end,
                       mkPreprocessor (default (List.last (q_pending q) 0) o) sk, q_from q rest).
Proof.
  destruct q as [p j cl n]. intros He [Hw _] Hh. simpl in *.
  assert (Hp : p <> []).
  { intros ->. unfold q_isEmpty in He. simpl in *. by replace j with 0%nat in He by lia. }
  destruct p as [| c p]; [done |]. unfold peek. cbv zeta.
  change (src_currentChar (mkQ (c :: p) j cl n)) with c.
  assert (Hsame : q_from (mkQ (c :: p) j cl n) (c :: p) = mkQ (c :: p) j cl n).
  { unfold q_from. simpl. f_equal. lia. }
  destruct (negb (Z.land (m_nextInputCharacter (set_next c pr)) (Z.lnot specialCharacterMask) =? 0)) eqn:Em.
  { apply negb_true_iff, Z.eqb_neq, special_mask in Em. simpl in Em.
    by rewrite nextChar_ordinary, Hsame. }
  destruct Hh as [Hj | Hc].
  - simpl in Hj. subst j.
    change (src_length (mkQ (c :: p) 0 cl n)) with (Z.of_nat (length (c :: p))). rewrite Nat2Z.id.
    apply (process_ok ss cl (c :: p) (set_next c pr) n); [done | lia | done].
  - exfalso. apply negb_false_iff, Z.eqb_eq in Em. cbn [set_next m_nextInputCharacter] in Em.
    assert (Hbig : 32 <= c < 128).
    { change (q_head (mkQ (c :: p) j cl n)) with c in Hc.
      unfold isReferenceCharacter, isEntityCharacter, isASCIIUpper, isASCIILower in Hc.
      rewrite !orb_true_iff, !andb_true_iff, !Z.leb_le, !Z.eqb_eq in Hc. lia. }
    assert (Hr : forallb (fun n => negb (Z.land (Z.of_nat n) (Z.lnot specialCharacterMask) =? 0))
                   (seq 32 96) = true) by reflexivity.
    rewrite forallb_forall in Hr. specialize (Hr (Z.to_nat c)). rewrite Z2Nat.id in Hr by lia.
    rewrite Em in Hr. assert (Hin : In (Z.to_nat c) (seq 32 96)) by (apply in_seq; lia).
    by specialize (Hr Hin).
Qed.

(** ** The queue while the tokenizer runs *)

(** The states that go on reading characters pushed back by a rejected reference,
    and the states that read a reference. *)
Definition isValueState (s : State) : bool :=
  match s with
  | DataState | RCDATAState | AttributeValueDoubleQuotedState | AttributeValueSingleQuotedState
  | AttributeValueUnquotedState => true
  | _ => false
  end.

Definition isReferenceState (s : State) : bool :=
  match s with
  | CharacterReferenceInDataState | CharacterReferenceInRCDATAState
  | CharacterReferenceInAttributeValueState => true
  | _ => false
  end.

Definition referenceAdditional (t : HTMLTokenizer) : Z :=
  match m_state t with
  | CharacterReferenceInAttributeValueState => m_additionalAllowedCharacter t
  | _ => 0
  end.

Section Queue.
Variable T : EntityTable.

(** The text [w] is an undecided reference that left [j] characters pushed back. *)
Definition undecidedText (add : Z) (w : list Z) (j : nat) : Prop :=
  exists k, reference T add w = Some (NotEnough, k, j).

Definition queueOk (t : HTMLTokenizer) (q : Q) : Prop :=
  q_pushed q = 0%nat \/
  (isValueState (m_state t) = true /\ (q_pushed q <= length (q_pending q))%nat /\
   (q_pushed q <= 2)%nat /\
   Forall (fun c => isReferenceCharacter c = true) (take (q_pushed q) (q_pending q))) \/
  (isReferenceState (m_state t) = true /\ exists w B, q_pending q = w ++ B /\
   undecidedText (referenceAdditional t) w (q_pushed q)).

Hypothesis HT : EntityTableOk T.

Lemma undecided_pushed (add : Z) (w : list Z) (j : nat) :
  undecidedText add w j -> j = pushedBy (length w) /\ Forall (fun c => isReferenceCharacter c = true) w.
Proof. intros [k E]. pose proof (reference_outcome T HT add w _ E) as H. simpl in H. tauto. Qed.

Lemma pushedBy_cases (n : nat) : pushedBy n = 0%nat \/ pushedBy n = n.
Proof. destruct n as [| [| [| n]]]; simpl; auto. Qed.

Lemma queueOk_wf (t : HTMLTokenizer) (q : Q) : queueOk t q -> q_wf q.
Proof.
  unfold q_wf. intros [-> | [(_ & H1 & H2 & _) | (_ & w & B & Hp & Hu)]]; [lia | done |].
  destruct (undecided_pushed _ _ _ Hu) as [-> _]. pose proof (pushedBy_le (length w)).
  rewrite Hp, length_app. lia.
Qed.

Lemma queueOk_head (t : HTMLTokenizer) (q : Q) : queueOk t q -> headOk q.
Proof.
  unfold headOk. intros [-> | [(_ & H1 & H2 & Hr) | (_ & w & B & Hp & Hu)]]; [by left | |].
  - destruct (q_pushed q) as [| j]; [by left | right]. unfold q_head.
    destruct (q_pending q) as [| c p]; simpl in *; [lia |]. by apply Forall_cons_1 in Hr as [Hr _].
  - destruct (undecided_pushed _ _ _ Hu) as [-> Hw]. destruct w as [| c w]; [by left | right].
    unfold q_head. rewrite Hp. simpl. by apply Forall_cons_1 in Hw as [Hw _].
Qed.

(** A reference read in a running tokenizer does what the reference parser says. *)
Lemma consume_ok (t : HTMLTokenizer) (q : Q) :
  queueOk t q -> isReferenceState (m_state t) = true -> q_isEmpty q = false ->
  allowedCharacter (referenceAdditional t) ->
  exists r k j, reference T (referenceAdditional t) (q_pending q) = Some (r, k, j) /\
    consumeHTMLEntity T (referenceAdditional t) q = Ok (r, afterOutcome k j q).
Proof.
  intros Hq Hs He Ha. destruct q as [p jq cl n].
  assert (H0 : exists r k j, reference T (referenceAdditional t) p = Some (r, k, j) /\
    consumeHTMLEntity T (referenceAdditional t) (mkQ p 0 cl n)
      = Ok (r, afterOutcome k j (mkQ p 0 cl n))) by by apply reference_ok.
  destruct Hq as [Hj | [(Hv & _) | (_ & w & B & Hp & k & Hu)]]; simpl in *.
  - by subst jq.
  - by destruct (m_state t).
  - destruct (undecided_pushed _ w jq (ex_intro _ k Hu)) as [Hj _].
    destruct (pushedBy_cases (length w)) as [Hz | Hz].
    { rewrite Hj, Hz. exact H0. }
    assert (HB : B <> []).
    { intros ->. rewrite app_nil_r in Hp. unfold q_isEmpty in He. simpl in He.
      apply Nat.eqb_neq in He. rewrite Hp, Hj in He. lia. }
    subst p. rewrite (consume_resume T HT _ w B cl n k jq HB Hu). exact H0.
Qed.

End Queue.

(** ** Progress in the queue *)

(** The queue [q'] is what is left of [q] after some of it was read. *)
Definition reads (q q' : Q) : Prop :=
  q_closed q' = q_closed q /\ exists u, q_pending q = u ++ q_pending q'.

Lemma reads_refl (q : Q) : reads q q.
Proof. split; [done | by exists []]. Qed.

Lemma reads_trans (q1 q2 q3 : Q) : reads q1 q2 -> reads q2 q3 -> reads q1 q3.
Proof.
  intros [H1 [u Hu]] [H2 [v Hv]]. split; [congruence |].
  exists (u ++ v). by rewrite Hu, Hv, app_assoc.
Qed.

Lemma reads_length (q q' : Q) :
  reads q q' -> (length (q_pending q') <= length (q_pending q))%nat.
Proof. intros [_ [u ->]]. rewrite length_app. lia. Qed.

Lemma reads_short (q q' : Q) :
  reads q q' -> numbersFit (q_pending q) = true -> numbersFit (q_pending q') = true.
Proof. intros [_ [u ->]]. apply numbersFit_suffix. Qed.

Lemma reads_advance (q : Q) : reads q (q_advance q).
Proof. destruct q as [[| c p] j cl n]; split; try done; [by exists [] | by exists [c]]. Qed.

Lemma advance_length (q : Q) :
  q_isEmpty q = false -> q_wf q ->
  length (q_pending q) = S (length (q_pending (q_advance q))).
Proof.
  destruct q as [[| c p] j cl n]; [| done]. unfold q_isEmpty, q_wf. simpl. intros H1 [H2 _].
  by replace j with 0%nat in H1 by lia.
Qed.

Lemma nonempty_pending (q : Q) : q_isEmpty q = false -> q_wf q -> q_pending q <> [].
Proof. intros He Hw Hp. pose proof (advance_length q He Hw). by rewrite Hp in *. Qed.

Lemma reads_afterOutcome (k j : nat) (q : Q) : reads q (afterOutcome k j q).
Proof. split; [done |]. exists (take k (q_pending q)). simpl. by rewrite take_drop. Qed.

(** ** What a block does to the queue *)

(** A prefix found by a look-ahead can be consumed. *)
Lemma startsWith_sensitive (f : Z -> Z) (str p : list Z) :
  startsWith f p str true = true -> exists p', p = str ++ p'.
Proof.
  revert p. induction str as [| c str IH]; intros p; [by exists p |].
  destruct p as [| d p]; [done |]. cbn [startsWith equalUnits]. intros E.
  apply andb_true_iff in E as [E1 E2]. apply Z.eqb_eq in E1. subst d.
  destruct (IH p E2) as [p' ->]. by exists p'.
Qed.

Lemma advanceString_ok (str p : list Z) (cl : bool) (n : Z) :
  advanceStringAndASSERT str (mkQ (str ++ p) 0 cl n) = Some (mkQ p 0 cl (n + Z.of_nat (length str))).
Proof.
  revert n. induction str as [| c str IH]; intros n; [simpl; by rewrite Z.add_0_r |].
  cbn [advanceStringAndASSERT app]. rewrite q_take. cbn [mbind option_bind]. rewrite IH.
  do 2 f_equal. simpl length. lia.
Qed.

Lemma advanceStringIgnoringCase_ok (f : Z -> Z) (str p : list Z) (cl : bool) (n : Z) :
  startsWith f p str false = true ->
  advanceStringAndASSERTIgnoringCase f str (mkQ p 0 cl n)
    = Some (mkQ (drop (length str) p) 0 cl (n + Z.of_nat (length str))).
Proof.
  revert p n. induction str as [| c str IH]; intros p n E; [simpl; by rewrite Z.add_0_r |].
  destruct p as [| d p]; [done |]. cbn [startsWith equalUnits] in E.
  apply andb_true_iff in E as [E1 E2]. cbn [advanceStringAndASSERTIgnoringCase].
  unfold src_advanceAndASSERTIgnoringCase. change (src_currentChar (mkQ (d :: p) 0 cl n)) with d.
  rewrite E1. cbn [ASSERT mbind option_bind].
  change (src_advance (mkQ (d :: p) 0 cl n)) with (Some (mkQ p 0 cl (n + 1))). cbn [mbind option_bind].
  rewrite IH by done. do 2 f_equal. simpl length. lia.
Qed.

(** The end-of-file marker is the last character of the closed input. *)
Definition marked (q : Q) : Prop := q_closed q = true /\ exists u, q_pending q = u ++ [kEndOfFileMarker].

(** Case folding keeps NUL apart from letters. *)
Definition foldsNul (foldCase : Z -> Z) : Prop :=
  forall c, isASCIILower c = true -> foldCase 0 <> foldCase c.

Lemma marked_drop (q q1 : Q) (w : list Z) :
  q_closed q1 = q_closed q -> q_pending q = w ++ q_pending q1 -> Forall (fun c => c <> 0) w ->
  marked q -> marked q1.
Proof.
  intros Hc Hp Hw [Hcl [u Hu]]. split; [congruence |]. rewrite Hp in Hu.
  destruct (q_pending q1) as [| c l _] using rev_ind.
  - rewrite app_nil_r in Hu. subst w. apply Forall_app in Hw as [_ Hw]. by apply Forall_cons_1 in Hw as [Hw _].
  - rewrite app_assoc in Hu. apply app_inj_tail in Hu as [_ ->]. by exists l.
Qed.

Lemma reference_nonzero (l : list Z) :
  Forall (fun c => isReferenceCharacter c = true) l -> Forall (fun c => c <> 0) l.
Proof.
  intros H. eapply list.Forall_impl; [exact H |]. intros c Hc. by apply (reference_ordinary c).
Qed.

Lemma startsWith_nonzero (f : Z -> Z) (str p : list Z) :
  foldsNul f -> Forall (fun c => isASCIILower c = true) str -> startsWith f p str false = true ->
  Forall (fun c => c <> 0) (take (length str) p).
Proof.
  intros Hf Hs. revert p. induction Hs as [| c str Hc Hs IH]; intros p; [by rewrite take_0 |].
  destruct p as [| d p]; [done |]. cbn [startsWith equalUnits]. intros E.
  apply andb_true_iff in E as [E1 E2]. apply Z.eqb_eq in E1. simpl. constructor; [| by apply IH].
  intros ->. by apply (Hf c Hc).
Qed.

(** The queue after a block that ended with an action. *)
Definition queueAfter (foldCase : Z -> Z) (T : EntityTable) (t : HTMLTokenizer) (q : Q) (t1 : HTMLTokenizer)
    (a : Action) (q1 : Q) : Prop :=
  match a with
  | AdvanceTo st => q1 = mkQ (q_pending q) (q_pushed q) (q_closed q) (q_consumed q) /\
      (q_pushed q = 0%nat \/ (st = m_state t /\ isValueState st = true /\ queueOk T t q))
  | SwitchTo st => reads q q1 /\ queueOk T (set_state st t1) q1 /\
      ((length (q_pending q1) < length (q_pending q))%nat \/ (rank st < rank (m_state t))%nat) /\
      (foldsNul foldCase -> marked q -> marked q1)
  | ReturnHaveBuffered => q_pending q1 = q_pending q /\ q_closed q1 = q_closed q /\
      q_consumed q1 = q_consumed q /\ t1 = t /\ queueOk T t q1 /\
      (m_state t = MarkupDeclarationOpenState \/ m_state t = AfterDOCTYPENameState \/
       undecidedText T (referenceAdditional t) (q_pending q1) (q_pushed q1))
  | _ => q1 = q /\ q_pushed q = 0%nat
  end.

Section Blocks.
Variable foldCase : Z -> Z.
Variable T : EntityTable.
Hypothesis HT : EntityTableOk T.

(** A reference character in a value state is read in the same state. *)
Lemma valueBlock (t : HTMLTokenizer) (k : HTMLToken) (c pos : Z)
    (r : HTMLTokenizer * HTMLToken * Action) :
  isValueState (m_state t) = true -> isReferenceCharacter c = true ->
  pureBlock (m_state t) t k c pos = Some r -> r.2 = AdvanceTo (m_state t).
Proof.
  intros Hv Hc.
  assert (Hn : c <> ch "&" /\ c <> ch "<" /\ c <> 0 /\ c <> 34 /\ c <> 39 /\ c <> ch ">" /\
               isTokenizerWhitespace c = false).
  { repeat split; try (intros ->; by vm_compute in Hc).
    unfold isReferenceCharacter, isEntityCharacter, isASCIIUpper, isASCIILower in Hc.
    rewrite !orb_true_iff, !andb_true_iff, !Z.leb_le, !Z.eqb_eq in Hc.
    unfold isTokenizerWhitespace. rewrite !orb_false_iff, !Z.eqb_neq. lia. }
  destruct Hn as (H1%Z.eqb_neq & H2%Z.eqb_neq & H3%Z.eqb_neq & H4%Z.eqb_neq & H5%Z.eqb_neq &
                  H6%Z.eqb_neq & H7).
  destruct (m_state t); try discriminate Hv; cbn [pureBlock];
    unfold in_DataState, in_RCDATAState, in_AttributeValueDoubleQuotedState,
      in_AttributeValueSingleQuotedState, in_AttributeValueUnquotedState, attributeValueQuoted,
      kEndOfFileMarker, after;
    rewrite ?H1, ?H2, ?H3, ?H4, ?H5, ?H6, ?H7;
    match goal with |- (?m ≫= _) = _ -> _ => destruct m; simpl; [by intros [= <-] | done] end.
Qed.

Definition blockDone (t : HTMLTokenizer) (cc : Z) (q : Q)
    (m : result (HTMLTokenizer * HTMLToken * Action * Q)) : Prop :=
  exists t1 k1 a q1, m = Ok (t1, k1, a, q1) /\ sameFrame t t1 /\ endOk cc t t1 k1 a /\
    queueAfter foldCase T t q t1 a q1.

Lemma text_done (st : State) (t : HTMLTokenizer) (k : HTMLToken) (cc : Z) (q : Q) :
  m_state t = CharacterReferenceInDataState \/ m_state t = CharacterReferenceInRCDATAState ->
  (st = DataState \/ st = RCDATAState) ->
  shapeOk (m_state t) t k -> queueOk T t q -> q_isEmpty q = false ->
  numbersFit (q_pending q) = true ->
  blockDone t cc q (in_CharacterReferenceInText T st t k q).
Proof.
  intros Hst Ht Hs Hq He Hsn.
  assert (Hadd : referenceAdditional t = 0) by (unfold referenceAdditional; by destruct Hst as [-> | ->]).
  assert (Hr : isReferenceState (m_state t) = true) by by destruct Hst as [-> | ->].
  assert (Hk : fits TextKind k) by (destruct Hs as [Hs _]; by destruct Hst as [E | E]; rewrite E in Hs).
  assert (Hbuf : m_bufferedEndTagName t = []).
  { destruct Hs as (_ & Hs & _). by destruct Hst as [E | E]; rewrite E in Hs. }
  assert (Hrank : (rank st < rank (m_state t))%nat).
  { destruct Hst as [-> | ->], Ht as [-> | ->]; simpl; lia. }
  destruct (consume_ok T HT t q Hq Hr He) as (r & kk & j & Href & Hcons); [by left |].
  unfold in_CharacterReferenceInText, processEntity. rewrite Hadd in *. rewrite Hcons. simpl.
  pose proof (reference_outcome T HT 0 _ _ Href) as Ho. simpl in Ho.
  assert (Hplain : forall k1, fits TextKind k1 -> shapeOk st t k1).
  { intros k1 Hk1. destruct Ht as [-> | ->]; by apply shapeOk_plain. }
  destruct r as [d | |].
  - pose proof (reference_units T HT 0 _ d kk j Hsn Href) as Hd.
    destruct (bufferCharacters_ok d k) as (k1 & -> & Hk1); [| done |].
    { eapply list.Forall_impl; [exact Hd |]. simpl. intros. lia. }
    exists t, k1, (SwitchTo st), (afterOutcome kk j q). split; [done | split; [by repeat split | split]].
    + split; [by apply Hplain | by destruct Hst as [-> | ->]].
    + destruct Ho as (Hkk & -> & Hw).
      split; [apply reads_afterOutcome | split; [by left | split; [by right |]]].
      intros _. apply (marked_drop q _ (take kk (q_pending q))); [done | | by apply reference_nonzero].
      simpl. by rewrite take_drop.
  - destruct (bufferCharacter_ok (ch "&") k ltac:(done) Hk) as (k1 & -> & Hk1).
    exists t, k1, (SwitchTo st), (afterOutcome kk j q). split; [done | split; [by repeat split | split]].
    + split; [apply Hplain; by right | by destruct Hst as [-> | ->]].
    + destruct Ho as (-> & Hj1 & Hj2 & Hj3).
      split; [apply reads_afterOutcome | split; [| split; [by right |]]].
      * right. left. split; [by destruct Ht as [-> | ->] |]. simpl. by rewrite drop_0.
      * intros _. by apply (marked_drop q _ []).
  - exists t, k, ReturnHaveBuffered, (afterOutcome kk j q).
    destruct Ho as (-> & Hj & Hall).
    assert (Hu : undecidedText T (referenceAdditional t) (drop 0 (q_pending q)) j).
    { rewrite drop_0, Hadd. by exists 0%nat. }
    split; [done | split; [by repeat split | split; [split; [done | by destruct Hst as [-> | ->]] |]]].
    split; [done | split; [done | split; [simpl; lia | split; [done | split]]]].
    + right. right. split; [done |]. exists (drop 0 (q_pending q)), []. by rewrite app_nil_r.
    + by right; right.
Qed.

Lemma attribute_done (t : HTMLTokenizer) (k : HTMLToken) (cc : Z) (q : Q) :
  m_state t = CharacterReferenceInAttributeValueState ->
  shapeOk (m_state t) t k -> queueOk T t q -> q_isEmpty q = false ->
  numbersFit (q_pending q) = true ->
  blockDone t cc q (in_CharacterReferenceInAttributeValueState T t k q).
Proof.
  intros Hst (Hk & Hbuf & Hadd) Hq He Hsn. rewrite Hst in Hk, Hbuf. specialize (Hadd Hst).
  assert (Hra : referenceAdditional t = m_additionalAllowedCharacter t)
    by (unfold referenceAdditional; by rewrite Hst).
  destruct (consume_ok T HT t q Hq ltac:(by rewrite Hst) He) as (r & kk & j & Href & Hcons).
  { rewrite Hra. by right. }
  unfold in_CharacterReferenceInAttributeValueState. rewrite <- Hra, Hcons. simpl.
  pose proof (reference_outcome T HT _ _ _ Href) as Ho. simpl in Ho.
  assert (Hnext : exists st, attributeValueStateFor (referenceAdditional t) = Some st /\
     isValueState st = true /\ (rank st < 2)%nat /\
     forall k1, fits AttributeKind k1 -> shapeOk st t k1).
  { rewrite Hra. destruct Hadd as [-> | [-> | ->]]; eexists; (split; [reflexivity | split; [done |
      split; [simpl; lia | intros k1 Hk1; by apply shapeOk_plain]]]). }
  destruct Hnext as (st & Hst' & Hv & Hrank & Hshape). rewrite Hst'.
  destruct r as [d | |].
  - pose proof (reference_units T HT _ _ d kk j Hsn Href) as Hd.
    destruct (appendAllToAttributeValue_ok d k) as (k1 & -> & Hk1); [| done |].
    { eapply list.Forall_impl; [exact Hd |]. simpl. intros. lia. }
    exists t, k1, (SwitchTo st), (afterOutcome kk j q).
    split; [done | split; [by repeat split | split; [split; [by apply Hshape | by rewrite Hst] |]]].
    destruct Ho as (Hkk & -> & Hw).
    split; [apply reads_afterOutcome | split; [by left | split; [right; by rewrite Hst |]]].
    intros _. apply (marked_drop q _ (take kk (q_pending q))); [done | | by apply reference_nonzero].
    simpl. by rewrite take_drop.
  - destruct (appendToAttributeValue_ok (ch "&") k ltac:(done) Hk) as (k1 & -> & Hk1).
    exists t, k1, (SwitchTo st), (afterOutcome kk j q).
    split; [done | split; [by repeat split | split; [split; [by apply Hshape | by rewrite Hst] |]]].
    destruct Ho as (-> & Hj1 & Hj2 & Hj3).
    split; [apply reads_afterOutcome | split; [| split; [right; by rewrite Hst |]]].
    + right. left. split; [done |]. simpl. by rewrite drop_0.
    + intros _. by apply (marked_drop q _ []).
  - exists t, k, ReturnHaveBuffered, (afterOutcome kk j q).
    destruct Ho as (-> & Hj & Hall).
    assert (Hu : undecidedText T (referenceAdditional t) (drop 0 (q_pending q)) j)
      by (rewrite drop_0; by exists 0%nat).
    split; [done | split; [by repeat split | split]].
    { cbn [endOk]. rewrite Hst. split; [| done]. split; [done | split; [done |]]. intros _. exact Hadd. }
    split; [done | split; [done | split; [simpl; lia | split; [done | split]]]].
    + right. right. split; [by rewrite Hst |]. exists (drop 0 (q_pending q)), [].
      by rewrite app_nil_r.
    + by right; right.
Qed.

(** A look-ahead in a state without pushed-back characters. *)
Lemma lookAhead_cases (str p : list Z) (b cl : bool) (n : Z) :
  let q := mkQ p 0 cl n in
  (src_lookAhead foldCase str b q = Some (DidMatch, q) /\ startsWith foldCase p str b = true /\
   (length str <= length p)%nat) \/
  src_lookAhead foldCase str b q = Some (DidNotMatch, q) \/
  (src_lookAhead foldCase str b q = Some (NotEnoughCharacters, q) /\ (length p < length str)%nat).
Proof.
  intros q. subst q. simpl. unfold q_lookAhead. simpl.
  destruct (Nat.ltb (length p) (length str)) eqn:El.
  - apply Nat.ltb_lt in El. auto.
  - apply Nat.ltb_ge in El. destruct (startsWith foldCase p str b); auto.
Qed.

Lemma queue_unpushed (t : HTMLTokenizer) (q : Q) :
  queueOk T t q -> isValueState (m_state t) = false -> isReferenceState (m_state t) = false ->
  q_pushed q = 0%nat.
Proof. intros [H | [(H & _) | (H & _)]] H1 H2; congruence. Qed.

(** The queue after reading a keyword that was looked up before. *)
Lemma keyword_read (p : list Z) (str : list Z) (cl : bool) (n : Z) (st : State) (t t1 : HTMLTokenizer) :
  str <> [] -> (length str <= length p)%nat ->
  (foldsNul foldCase -> Forall (fun c => c <> 0) (take (length str) p)) ->
  queueAfter foldCase T t (mkQ p 0 cl n) t1 (SwitchTo st)
    (mkQ (drop (length str) p) 0 cl (n + Z.of_nat (length str))).
Proof.
  intros Hs Hl Hz. split; [| split; [by left | split; [left |]]].
  - split; [done |]. exists (take (length str) p). simpl. by rewrite take_drop.
  - simpl. rewrite length_drop. destruct str; [done |]. simpl in *. lia.
  - intros Hf. apply (marked_drop _ _ (take (length str) p)); [done | | by apply Hz].
    simpl. by rewrite take_drop.
Qed.

Lemma notEnough_done (t : HTMLTokenizer) (k : HTMLToken) (p : list Z) (cl : bool) (n : Z) :
  m_state t = MarkupDeclarationOpenState \/ m_state t = AfterDOCTYPENameState ->
  queueAfter foldCase T t (mkQ p 0 cl n) t ReturnHaveBuffered (mkQ p 0 cl n).
Proof. intros Hst. repeat split; [by left | tauto]. Qed.

Lemma markup_done (t : HTMLTokenizer) (k : HTMLToken) (cc : Z) (q : Q) :
  m_state t = MarkupDeclarationOpenState -> shapeOk (m_state t) t k -> queueOk T t q ->
  blockDone t cc q (in_MarkupDeclarationOpenState foldCase t k cc q).
Proof.
  intros Hst (Hk & Hbuf & Hadd) Hq. rewrite Hst in Hk, Hbuf.
  assert (Hj : q_pushed q = 0%nat) by (by apply (queue_unpushed t); rewrite ?Hst).
  destruct q as [p j cl n]. simpl in Hj. subst j.
  assert (Hbogus : blockDone t cc (mkQ p 0 cl n)
            (Ok (t, k, ReconsumeIn BogusCommentState, mkQ p 0 cl n))).
  { do 4 eexists. split; [done | split; [by repeat split | split; [| by split]]].
    cbn [endOk]. rewrite Hst. split; [left; by apply shapeOk_plain | simpl; lia]. }
  assert (Hmore : blockDone t cc (mkQ p 0 cl n) (Ok (t, k, ReturnHaveBuffered, mkQ p 0 cl n))).
  { do 4 eexists. split; [done | split; [by repeat split | split]].
    - cbn [endOk]. rewrite Hst. split; [by split | done].
    - apply (notEnough_done t k). by left. }
  unfold in_MarkupDeclarationOpenState. cbv zeta.
  destruct (cc =? ch "-").
  { destruct (lookAhead_cases dashDashString p true cl n) as [(-> & Hm & Hl) | [-> | [-> _]]];
      [| exact Hbogus | exact Hmore].
    destruct (startsWith_sensitive _ _ _ Hm) as [p' ->]. cbn [lift mbind result_bind].
    change (dashDashString ++ p') with (ch "-" :: ch "-" :: p').
    rewrite q_take. cbn [lift mbind result_bind]. rewrite q_take. cbn [lift mbind result_bind].
    destruct (beginComment_ok k Hk) as (k1 & -> & Hk1). cbn [lift mbind result_bind].
    do 4 eexists. split; [done | split; [by repeat split | split; [split; [by apply shapeOk_plain | by rewrite Hst] |]]].
    replace (n + 1 + 1) with (n + Z.of_nat (length dashDashString)) by (simpl; lia).
    apply (keyword_read (ch "-" :: ch "-" :: p') dashDashString); try done.
    intros _. by repeat constructor. }
  destruct ((cc =? ch "D") || (cc =? ch "d")).
  { destruct (lookAhead_cases doctypeString p false cl n) as [(-> & Hm & Hl) | [-> | [-> _]]];
      [| exact Hbogus | exact Hmore].
    cbn [lift mbind result_bind]. rewrite advanceStringIgnoringCase_ok by done.
    cbn [lift mbind result_bind].
    do 4 eexists. split; [done | split; [by repeat split | split; [split; [by apply shapeOk_plain | by rewrite Hst] |]]].
    apply keyword_read; [done | done |]. intros Hf. apply (startsWith_nonzero foldCase); try done.
    by repeat constructor. }
  destruct ((cc =? ch "[") && m_shouldAllowCDATA t); [| exact Hbogus].
  destruct (lookAhead_cases cdataString p true cl n) as [(-> & Hm & Hl) | [-> | [-> _]]];
    [| exact Hbogus | exact Hmore].
  destruct (startsWith_sensitive _ _ _ Hm) as [p' ->]. cbn [lift mbind result_bind].
  rewrite advanceString_ok. cbn [lift mbind result_bind].
  do 4 eexists. split; [done | split; [by repeat split | split; [split; [apply shapeOk_plain; by try left | by rewrite Hst] |]]].
  pose proof (keyword_read (cdataString ++ p') cdataString cl n CDATASectionState t t) as Hr.
  rewrite drop_app_length, take_app_length in Hr. apply Hr; [done | done |].
  intros _. by repeat constructor.
Qed.

Lemma afterDoctypeName_done (t : HTMLTokenizer) (k : HTMLToken) (cc : Z) (q : Q) :
  m_state t = AfterDOCTYPENameState -> shapeOk (m_state t) t k -> queueOk T t q ->
  blockDone t cc q (in_AfterDOCTYPENameState foldCase t k cc q).
Proof.
  intros Hst (Hk & Hbuf & Hadd) Hq. rewrite Hst in Hk, Hbuf.
  assert (Hj : q_pushed q = 0%nat) by (by apply (queue_unpushed t); rewrite ?Hst).
  destruct q as [p j cl n]. simpl in Hj. subst j.
  assert (Hbogus : cc <> 0 -> blockDone t cc (mkQ p 0 cl n)
            (k1 ← lift (setForceQuirks k); Ok (t, k1, AdvanceTo BogusDOCTYPEState, mkQ p 0 cl n))).
  { intros Hcc. destruct (setForceQuirks_ok k Hk) as (k1 & -> & Hk1).
    do 4 eexists. split; [done | split; [by repeat split | split; [by split; [apply shapeOk_plain |] |]]].
    split; [done | by left]. }
  assert (Hmore : blockDone t cc (mkQ p 0 cl n) (Ok (t, k, ReturnHaveBuffered, mkQ p 0 cl n))).
  { do 4 eexists. split; [done | split; [by repeat split | split]].
    - cbn [endOk]. rewrite Hst. split; [by split | done].
    - apply (notEnough_done t k). by right. }
  assert (Hkeyword : forall str st, (2 <= length str)%nat ->
    Forall (fun c => isASCIILower c = true) str -> kindOf st = DoctypeKind ->
    isEndTagNameState st = false -> st <> CharacterReferenceInAttributeValueState -> cc <> 0 ->
    blockDone t cc (mkQ p 0 cl n)
      ('(result, s1) ← lift (src_lookAhead foldCase str false (mkQ p 0 cl n));
       match result with
       | DidMatch =>
           s2 ← lift (advanceStringAndASSERTIgnoringCase foldCase str s1);
           Ok (t, k, SwitchTo st, s2)
       | NotEnoughCharacters => Ok (t, k, ReturnHaveBuffered, s1)
       | DidNotMatch =>
           k1 ← lift (setForceQuirks k); Ok (t, k1, AdvanceTo BogusDOCTYPEState, s1)
       end)).
  { intros str st Hl Hlow Hs1 Hs2 Hs3 Hcc.
    destruct (lookAhead_cases str p false cl n) as [(-> & Hm & Hlen) | [-> | [-> _]]];
      [| by apply Hbogus | exact Hmore].
    cbn [lift mbind result_bind]. rewrite advanceStringIgnoringCase_ok by done.
    cbn [lift mbind result_bind].
    do 4 eexists. split; [done | split; [by repeat split | split]].
    - split; [apply shapeOk_plain; try done; by rewrite Hs1 | by rewrite Hst].
    - apply keyword_read; [intros ->; simpl in Hl; lia | done |].
      intros Hf. by apply (startsWith_nonzero foldCase). }
  unfold in_AfterDOCTYPENameState. cbv zeta.
  destruct (isTokenizerWhitespace cc) eqn:Ew.
  { do 4 eexists. split; [done | split; [by repeat split | split]].
    - split; [by apply shapeOk_plain | by eauto with tokens].
    - split; [done | by left]. }
  destruct (cc =? ch ">") eqn:Eg.
  { do 4 eexists. split; [done | split; [by repeat split | split; [| by split]]].
    split; [by apply doctype_emitted | split; [done | split; [done | by eauto with tokens]]]. }
  destruct (cc =? kEndOfFileMarker) eqn:Ee.
  { destruct (setForceQuirks_ok k Hk) as (k1 & -> & Hk1).
    do 4 eexists. split; [done | split; [by repeat split | split; [| by split]]].
    cbn [endOk]. rewrite Hst. split; [by apply doctype_emitted | split; [done | split; [done | simpl; lia]]]. }
  apply nonzero_eof in Ee. destruct ((cc =? ch "P") || (cc =? ch "p")); [by apply Hkeyword; [simpl; lia | by repeat constructor | ..] |].
  destruct ((cc =? ch "S") || (cc =? ch "s")); [by apply Hkeyword; [simpl; lia | by repeat constructor | ..] | by apply Hbogus].
Qed.

Lemma pure_done (t : HTMLTokenizer) (k : HTMLToken) (cc : Z) (q : Q) :
  usesInput (m_state t) = false -> shapeAt cc (m_state t) t k -> queueOk T t q ->
  shows (q_closed q) (q_pending q) cc ->
  blockDone t cc q ('(t1, k1, a) ← lift (pureBlock (m_state t) t k cc (q_consumed q));
                    Ok (t1, k1, a, q)).
Proof.
  intros Hu Hs Hq Hc.
  destruct (pureBlock_ok t k cc (q_consumed q) Hu Hs) as ([[t1 k1] a] & E & Hf & He).
  rewrite E. simpl. exists t1, k1, a, q. split; [done | split; [done | split; [done |]]].
  assert (Hcase : q_pushed q = 0%nat \/ (a = AdvanceTo (m_state t) /\ isValueState (m_state t) = true)).
  { destruct Hq as [Hj | [(Hv & Hj1 & Hj2 & Hr) | (Hr & _)]]; [by left | | by destruct (m_state t)].
    destruct (q_pushed q) as [| j]; [by left | right]. split; [| done].
    destruct Hc as (c & l' & Hp & Hcc & _ & _). rewrite Hp in Hr. simpl in Hr.
    apply Forall_cons_1 in Hr as [Hr _]. destruct (reference_ordinary c Hr) as (_ & H13 & H0).
    rewrite <- (Hcc H13 H0) in Hr. by apply (valueBlock t k cc _ _ Hv Hr E). }
  destruct a; try (destruct Hcase as [Hj | [H _]]; [by split | discriminate H]).
  - destruct Hcase as [Hj | [[= ->] Hv]]; split; try (by destruct q); [by left | right; done].
  - destruct He as [_ He]. congruence.
  - destruct He as [_ He]. congruence.
Qed.

End Blocks.

(** ** nextToken: total correctness on the queue *)

(** The tokenizer between two calls, when a text token was returned before the
    end tag it had already read. *)
Definition resumable (t : HTMLTokenizer) (k : HTMLToken) : Prop :=
  m_type k = Uninitialized /\ m_bufferedEndTagName t <> [] /\
  (m_state t = BeforeAttributeNameState \/ m_state t = SelfClosingStartTagState \/
   m_state t = DataState).

Definition idleShape (t : HTMLTokenizer) (k : HTMLToken) : Prop :=
  (shapeOk (m_state t) t k /\ m_type k <> Character) \/ resumable t k.

(** What every call of [nextToken] that returns a token lowers. *)
Definition measure (t : HTMLTokenizer) (q : Q) : nat :=
  4 * length (q_pending q) + rank (m_state t) +
  (if negb (isEmptyVector (m_bufferedEndTagName t)) && negb (isEndTagBufferingState (m_state t))
   then 1 else 0).

Section Loop.
Variable foldCase : Z -> Z.
Variable T : EntityTable.
Hypothesis HT : EntityTableOk T.

(** What holds when [nextToken], running with the token [k] on the queue [q],
    returns. *)
Record returns (t : HTMLTokenizer) (k : HTMLToken) (q : Q)
    (emit : bool) (t' : HTMLTokenizer) (k' : HTMLToken) (q' : Q) : Prop := {
  ret_reads : reads q q';
  ret_queue : queueOk T t' q';
  ret_token : emit = true -> m_type k' <> Uninitialized /\ idleShape t' (clear k') /\
    (m_type k' = StartTag \/ m_type k' = EndOfFile ->
      m_state t' = DataState /\ m_bufferedEndTagName t' = [] /\ q_pushed q' = 0%nat) /\
    ((measure t' q' < measure t q)%nat \/
     (m_type k = Character /\ (measure t' q' <= measure t q)%nat));
  ret_more : emit = false -> shapeOk (m_state t') t' k' /\ m_type k' <> Character /\
    (q_isEmpty q' = true \/ m_state t' = MarkupDeclarationOpenState \/
     m_state t' = AfterDOCTYPENameState \/
     undecidedText T (referenceAdditional t') (q_pending q') (q_pushed q'));
  ret_eof : foldsNul foldCase -> marked q ->
    marked q' \/ (emit = true /\ m_type k' = EndOfFile /\ q_pending q' = []) }.

Definition loopDone (t : HTMLTokenizer) (k : HTMLToken) (q : Q) (m : result (Returned (S := Q))) : Prop :=
  exists emit t' k' q', m = Ok (emit, t', k', q') /\ returns t k q emit t' k' q'.

(** The measure went down, or there is no text token yet that could be returned
    without reading anything. *)
Definition pays (t1 : HTMLTokenizer) (k1 : HTMLToken) (q1 : Q) (t : HTMLTokenizer) (q : Q) : Prop :=
  (measure t1 q1 < measure t q)%nat \/
  (m_type k1 <> Character /\ (measure t1 q1 <= measure t q)%nat).

Lemma pays_le (t1 t2 t : HTMLTokenizer) (k : HTMLToken) (q1 q2 q : Q) :
  pays t1 k q1 t q -> (measure t2 q2 <= measure t1 q1)%nat -> pays t2 k q2 t q.
Proof. intros [H | [H1 H2]] Hle; [left; lia | right; split; [done | lia]]. Qed.

(** A step that lowers the measure in front of the rest of the run. *)
Lemma loopDone_step (t t1 : HTMLTokenizer) (k k1 : HTMLToken) (q q1 : Q)
    (m : result (Returned (S := Q))) :
  reads q q1 -> pays t1 k1 q1 t q ->
  (foldsNul foldCase -> marked q -> marked q1) ->
  loopDone t1 k1 q1 m -> loopDone t k q m.
Proof.
  intros Hr Hm He (emit & t' & k' & q' & -> & [H1 H2 H3 H4 H5]).
  exists emit, t', k', q'. split; [done |]. split; try done.
  - by apply (reads_trans q q1).
  - intros E. destruct (H3 E) as (Ha & Hb & Hc & Hd). split; [done | split; [done | split; [done |]]].
    left. destruct Hm as [Hm | [Hm1 Hm2]], Hd as [Hd | [Hd1 Hd]]; try lia. by destruct Hm1.
  - auto.
Qed.

(** The measure without a pending end tag. *)
Lemma measure_plain (t : HTMLTokenizer) (k : HTMLToken) (q : Q) :
  shapeOk (m_state t) t k -> measure t q = (4 * length (q_pending q) + rank (m_state t))%nat.
Proof.
  intros (_ & Hb & _). unfold measure. destruct (isEndTagNameState (m_state t)) eqn:E.
  - replace (isEndTagBufferingState (m_state t)) with true by (by destruct (m_state t)).
    rewrite andb_false_r. lia.
  - rewrite Hb. simpl. lia.
Qed.

Lemma rank_le (s : State) : (rank s <= 3)%nat.
Proof. destruct s; simpl; lia. Qed.

(** Input ran out in a state whose token fits. *)
Lemma starved (t t' : HTMLTokenizer) (k k' : HTMLToken) (q q' : Q) :
  shapeOk (m_state t') t' k' -> queueOk T t' q' -> reads q q' ->
  pays t' k' q' t q \/ (k' = k /\ (measure t' q' <= measure t q)%nat) ->
  (q_isEmpty q' = true \/ m_state t' = MarkupDeclarationOpenState \/
     m_state t' = AfterDOCTYPENameState \/
     undecidedText T (referenceAdditional t') (q_pending q') (q_pushed q')) ->
  (foldsNul foldCase -> marked q -> marked q') ->
  loopDone t k q (Ok (haveBufferedCharacterToken k', t', k', q')).
Proof.
  intros Hs Hq Hr Hm He Hn. exists (haveBufferedCharacterToken k'), t', k', q'. split; [done |].
  split; try done.
  - intros E. apply bool_decide_eq_true_1 in E. rewrite E. split; [done | split; [| split; [by intros [? | ?] |]]].
    + left. split; [| done]. destruct Hs as (Hf & Hb). split; [| done].
      destruct (kindOf (m_state t')); simpl in *; try (destruct Hf; congruence); try congruence.
      * by left.
      * destruct Hf as [[? | ?] _]; congruence.
    + destruct Hm as [[Hm | [Hm _]] | [-> Hm]]; [by left | done | by right].
  - intros E. apply bool_decide_eq_false_1 in E. done.
  - intros Hf Hmk. left. auto.
Qed.

Lemma shapeOk_preprocessor (st : State) (t : HTMLTokenizer) (k : HTMLToken) p :
  shapeOk st (set_preprocessor p t) k <-> shapeOk st t k.
Proof. done. Qed.
Lemma shapeOk_state (st s : State) (t : HTMLTokenizer) (k : HTMLToken) :
  shapeOk st (set_state s t) k <-> shapeOk st t k.
Proof. done. Qed.
Lemma queueOk_preprocessor (t : HTMLTokenizer) (q : Q) p :
  queueOk T (set_preprocessor p t) q <-> queueOk T t q.
Proof. done. Qed.
Lemma measure_preprocessor (t : HTMLTokenizer) (q : Q) p :
  measure (set_preprocessor p t) q = measure t q.
Proof. done. Qed.

(** A run of the loop from a state about to read [cc]. *)
Definition runs (fuel : nat) : Prop := forall cc t k q,
  (measure t q < fuel)%nat -> shapeAt cc (m_state t) t k -> queueOk T t q ->
  q_isEmpty q = false -> shows (q_closed q) (q_pending q) cc ->
  numbersFit (q_pending q) = true ->
  loopDone t k q (stateLoop foldCase T fuel cc t k q).

Lemma marked_rest (ss skip sk : bool) (l : list Z) :
  exists u cc sk', nextChar ss true skip (l ++ [kEndOfFileMarker]) = (Some cc, sk', u ++ [kEndOfFileMarker]).
Proof.
  revert skip. induction l as [| c l IH]; intros skip.
  { exists [], 0, false. simpl. unfold kEndOfFileMarker. by destruct skip. }
  cbn [app nextChar]. destruct ((c =? 10) && skip); [apply IH |].
  destruct (c =? 13); [by exists (c :: l), 10, true |].
  destruct (_ && _); [| by exists (c :: l), c, false].
  destruct ss; [apply IH | by exists (c :: l), 0xFFFD, false].
Qed.

(** Peeking and entering the state: the end of ADVANCE_TO and SWITCH_TO. *)
Lemma enter_done (fuel : Q -> nat) (t : HTMLTokenizer) (k : HTMLToken) (q : Q) (t0 : HTMLTokenizer)
    (k0 : HTMLToken) (q0 : Q) :
  (forall q2, runs (fuel q2)) ->
  (forall t2 q2, (measure t2 q2 <= measure t q)%nat -> shapeOk (m_state t2) t2 k ->
     (measure t2 q2 < fuel q2)%nat) ->
  shapeOk (m_state t) t k -> queueOk T t q ->
  q_isEmpty q = false -> numbersFit (q_pending q) = true ->
  reads q0 q -> pays t k q t0 q0 -> (foldsNul foldCase -> marked q0 -> marked q) ->
  loopDone t0 k0 q0
    ('(ok, t2, s2) ← tokenizerPeek t q;
     if ok : bool
     then stateLoop foldCase T (fuel s2) (m_nextInputCharacter (m_inputStreamPreprocessor t2)) t2 k s2
     else Ok (haveBufferedCharacterToken k, t2, k, s2)).
Proof.
  intros Hrun Hf Hs Hq He Hsn Hr Hm Hmk. unfold tokenizerPeek.
  pose proof (queueOk_wf T HT t q Hq) as Hwf.
  pose proof (peek_ok (shouldSkipNullCharacters t) (m_inputStreamPreprocessor t) q He Hwf
              (queueOk_head T HT t q Hq)) as Hpk.
  destruct (nextChar _ _ _ _) as [[o sk] rest] eqn:En. rewrite Hpk. cbn [mbind result_bind].
  set (t2 := set_preprocessor _ t).
  assert (Hsuf : exists u, q_pending q = u ++ rest).
  { destruct o as [cc |]; [by apply nextChar_some in En as [_ H] |].
    apply nextChar_none in En. subst rest. exists (q_pending q). by rewrite app_nil_r. }
  assert (Hr2 : reads q (q_from q rest)) by (split; [done | exact Hsuf]).
  assert (Hj : q_pushed q = 0%nat \/ rest = q_pending q).
  { destruct (queueOk_head T HT t q Hq) as [Hj | Hc]; [by left | right].
    destruct q as [[| c p] j cl n]; [simpl in *; by injection En as _ _ <- |].
    simpl in En. change (q_head (mkQ (c :: p) j cl n)) with c in Hc.
    pose proof (nextChar_ordinary (shouldSkipNullCharacters t) cl
      (m_skipNextNewLine (m_inputStreamPreprocessor t)) c p (reference_ordinary c Hc)) as En'.
    simpl in En'. rewrite En in En'. by injection En' as _ _ ->. }
  assert (Hq2 : queueOk T t2 (q_from q rest)).
  { destruct Hj as [Hj | ->]; [by left |]. exact Hq. }
  assert (Hlen : (measure t2 (q_from q rest) <= measure t q)%nat).
  { apply reads_length in Hr2. unfold measure. subst t2. simpl in *. lia. }
  assert (Hmk2 : foldsNul foldCase -> marked q0 -> marked (q_from q rest)).
  { intros Hf0 Hm0. destruct (Hmk Hf0 Hm0) as [Hcl [u Hu]]. split; [done |].
    rewrite Hcl, Hu in En. destruct (marked_rest (shouldSkipNullCharacters t)
      (m_skipNextNewLine (m_inputStreamPreprocessor t)) false u) as (u' & cc' & sk' & En').
    rewrite En in En'. injection En' as _ _ ->. by exists u'. }
  destruct o as [cc |].
  - apply (loopDone_step t0 t2 k0 k q0 (q_from q rest));
      [by apply (reads_trans q0 q) | by apply (pays_le t t2 t0 k q) | done |].
    apply Hrun; [by apply Hf | by left | done | | | by apply (reads_short q)].
    + destruct (nextChar_some _ _ _ _ _ _ _ En) as [(c & l' & -> & _) _].
      destruct Hj as [Hj | Hrest].
      * unfold q_isEmpty. simpl. by rewrite Hj.
      * unfold q_isEmpty in *. cbn [q_from q_pending q_pushed]. by rewrite Hrest.
    + by destruct (nextChar_some _ _ _ _ _ _ _ En) as [Hsh _].
  - apply starved; [done | done | by apply (reads_trans q0 q) | left; by apply (pays_le t t2 t0 k q) | | done].
    apply nextChar_none in En. subst rest. left. unfold q_isEmpty. simpl.
    destruct Hj as [-> | Hp]; [done |]. destruct (nonempty_pending q He Hwf). done.
Qed.

(** *** The pieces of the loop *)

Lemma block_done (t : HTMLTokenizer) (k : HTMLToken) (cc : Z) (q : Q) :
  shapeAt cc (m_state t) t k -> queueOk T t q -> q_isEmpty q = false ->
  shows (q_closed q) (q_pending q) cc -> numbersFit (q_pending q) = true ->
  blockDone foldCase T t cc q (block foldCase T t k cc q).
Proof.
  intros Hs Hq He Hc Hsn. destruct (usesInput (m_state t)) eqn:Eu.
  - assert (Hok : shapeOk (m_state t) t k).
    { destruct Hs as [Hs | [Hd _]]; [done |]. by rewrite Hd in Eu. }
    unfold block. destruct (m_state t) eqn:Est; try discriminate Eu; rewrite <- Est in Hok.
    + apply text_done; try done; auto.
    + apply text_done; try done; auto.
    + by apply attribute_done.
    + by apply markup_done.
    + by apply afterDoctypeName_done.
  - replace (block foldCase T t k cc q)
      with ('(t1, k1, a) ← lift (pureBlock (m_state t) t k cc (q_consumed q)); Ok (t1, k1, a, q));
      [by apply pure_done |].
    unfold block. by destruct (m_state t).
Qed.

Ltac looked :=
  match goal with
  | |- match ?p with (_, _) => _ end = _ -> _ =>
      destruct p as [[] ?]; cbn [lift mbind result_bind]; try done
  | |- lift ?m ≫= _ = _ -> _ => destruct (lift m); cbn [lift mbind result_bind]; try done
  end.

(** Ends of blocks that leave the token alone. *)
Lemma block_keeps (t t1 : HTMLTokenizer) (k k1 : HTMLToken) (cc : Z) (q q1 : Q) (a : Action) :
  block foldCase T t k cc q = Ok (t1, k1, a, q1) ->
  match a with
  | ReturnHaveBuffered => usesInput (m_state t) = true -> k1 = k
  | EmitEndOfFile | EmitCharacters =>
      rank (m_state t) = 0%nat -> kindOf (m_state t) = TextKind -> k1 = k /\ t1 = t
  | _ => True
  end.
Proof.
  intros E. destruct a; try done.
  - intros Hr Hk. revert E. unfold block. destruct (m_state t); try discriminate Hr; try discriminate Hk;
      cbn [pureBlock]; unfold in_DataState, in_RCDATAState, in_RAWTEXTState, in_ScriptDataState,
        in_PLAINTEXTState, after, goto;
      repeat (case_match; simpl; try done); try (by intros [= <- <-]);
      destruct (bufferCharacter cc k); simpl; done.
  - intros Hr Hk. revert E. unfold block. destruct (m_state t); try discriminate Hr; try discriminate Hk;
      cbn [pureBlock]; unfold in_DataState, in_RCDATAState, in_RAWTEXTState, in_ScriptDataState,
        in_PLAINTEXTState, after, goto;
      repeat (case_match; simpl; try done); try (by intros [= <- <-]);
      destruct (bufferCharacter cc k); simpl; done.
  - intros Hu. revert E. unfold block. destruct (m_state t); try discriminate Hu.
    1, 2: unfold in_CharacterReferenceInDataState, in_CharacterReferenceInRCDATAState,
        in_CharacterReferenceInText, processEntity;
      destruct (consumeHTMLEntity T 0 q) as [[r q2] | |]; simpl; [| done..];
      destruct r; simpl; [| | by intros [= _ <- _]]; destruct (lift _); simpl; done.
    + unfold in_CharacterReferenceInAttributeValueState.
      destruct (consumeHTMLEntity T _ q) as [[r q2] | |]; simpl; [| done..].
      destruct r; simpl; [| | by intros [= _ <- _]];
        destruct (lift _); simpl; try done; destruct (lift _); simpl; done.
    + unfold in_MarkupDeclarationOpenState. cbv zeta.
      repeat (case_match; cbn [lift mbind result_bind]; try done);
        repeat looked; by intros [= _ <- _].
    + unfold in_AfterDOCTYPENameState. cbv zeta.
      repeat (case_match; cbn [lift mbind result_bind]; try done);
        repeat looked; by intros [= _ <- _].
Qed.

Lemma set_preprocessor_same (t : HTMLTokenizer) :
  set_preprocessor (m_inputStreamPreprocessor t) t = t.
Proof. by destruct t. Qed.

Lemma tokenizerAdvance_eq (t : HTMLTokenizer) (q : Q) :
  tokenizerAdvance t q =
    if q_isEmpty (q_advance q) then Ok (false, t, q_advance q) else tokenizerPeek t (q_advance q).
Proof.
  unfold tokenizerAdvance, InputStreamPreprocessor.advance. simpl.
  destruct (q_isEmpty (q_advance q)); [simpl; by rewrite set_preprocessor_same | done].
Qed.

Lemma measure_at (cc : Z) (t : HTMLTokenizer) (k : HTMLToken) (q : Q) :
  shapeAt cc (m_state t) t k -> measure t q = (4 * length (q_pending q) + rank (m_state t))%nat.
Proof.
  intros [Hs | (_ & _ & Hb)]; [by apply (measure_plain t k) |]. unfold measure. rewrite Hb. simpl. lia.
Qed.

Lemma measure_ge (t : HTMLTokenizer) (q : Q) : (4 * length (q_pending q) <= measure t q)%nat.
Proof. unfold measure. lia. Qed.

Lemma queueOk_advance (t t' : HTMLTokenizer) (q : Q) :
  queueOk T t q -> isValueState (m_state t) = true -> m_state t' = m_state t ->
  queueOk T t' (q_advance q).
Proof.
  intros Hq Hv Hst. destruct q as [[| c p] j cl n].
  - destruct Hq as [Hj | [(_ & Hj & _) | (Hr & _)]]; simpl in *; [by left | left; simpl; lia |].
    by destruct (m_state t).
  - destruct Hq as [Hj | [(_ & H1 & H2 & H3) | (Hr & _)]]; simpl in *.
    + left. simpl. by subst j.
    + right. left. simpl. rewrite Hst. split; [done | split; [lia | split; [lia |]]].
      destruct j as [| j]; [by rewrite take_0 |]. simpl in *. by apply Forall_cons_1 in H3 as [_ H3].
    + by destruct (m_state t).
Qed.

Lemma advance_pushed (q : Q) : q_pushed q = 0%nat -> q_pushed (q_advance q) = 0%nat.
Proof. destruct q as [[| c p] j cl n]; simpl; by intros ->. Qed.

Lemma marked_advance (q : Q) (cc : Z) :
  shows (q_closed q) (q_pending q) cc -> cc <> 0 -> marked q -> marked (q_advance q).
Proof.
  intros (c & l & Hp & _ & _ & Hz) Hcc Hm. pose proof Hm as [Hcl [u Hu]].
  destruct q as [p j cl n]. simpl in *. subst p. split; [done |]. simpl.
  destruct u as [| d u]; [| injection Hu as -> ->; by exists u].
  injection Hu as -> ->. destruct Hcc. by apply Hz.
Qed.

(** Advancing to a state and entering it. *)
Lemma advance_done (fuel : nat) (t : HTMLTokenizer) (k : HTMLToken) (q : Q) (t0 : HTMLTokenizer)
    (k0 : HTMLToken) (q0 : Q) :
  runs fuel -> (measure t (q_advance q) < fuel)%nat -> shapeOk (m_state t) t k ->
  queueOk T t (q_advance q) -> numbersFit (q_pending (q_advance q)) = true ->
  reads q0 (q_advance q) -> pays t k (q_advance q) t0 q0 ->
  (foldsNul foldCase -> marked q0 -> marked (q_advance q)) ->
  loopDone t0 k0 q0
    ('(ok, t2, s2) ← tokenizerAdvance t q;
     if ok : bool
     then stateLoop foldCase T fuel (m_nextInputCharacter (m_inputStreamPreprocessor t2)) t2 k s2
     else Ok (haveBufferedCharacterToken k, t2, k, s2)).
Proof.
  intros. rewrite tokenizerAdvance_eq. destruct (q_isEmpty (q_advance q)) eqn:Ee.
  - cbn [mbind result_bind]. apply starved; auto.
  - apply (enter_done (fun _ => fuel)); try done. lia.
Qed.

(** flushBufferedEndTag: a text token is returned first, otherwise the end tag is
    begun. *)
Lemma flush_cases (t : HTMLTokenizer) (k : HTMLToken) (q : Q) :
  fits TextKind k -> m_bufferedEndTagName t <> [] ->
  (m_type k = Character /\ flushBufferedEndTag t k q = Ok (true, t, k, q_advance q)) \/
  (m_type k = Uninitialized /\ exists k1, m_type k1 = EndTag /\
     flushBufferedEndTag t k q = Ok (false, clearEndTag t, k1, q_advance q)).
Proof.
  intros Hk Hb. unfold flushBufferedEndTag, isUninitialized. destruct Hk as [Hk | Hk]; rewrite Hk; simpl.
  - right. split; [done |]. destruct (beginEndTag_ok (m_bufferedEndTagName t) k Hk) as (k1 & -> & Hk1).
    simpl. eauto.
  - left. done.
Qed.

Lemma flushed_returns (t t1 : HTMLTokenizer) (k k1 : HTMLToken) (q : Q) (st : State) (cc : Z) :
  shapeAt cc (m_state t) t k -> m_type k1 = Character -> m_bufferedEndTagName t1 <> [] ->
  st = BeforeAttributeNameState \/ st = SelfClosingStartTagState \/ st = DataState ->
  cc <> 0 -> q_isEmpty q = false -> q_wf q -> q_pushed q = 0%nat ->
  shows (q_closed q) (q_pending q) cc ->
  returns t k q true (set_state st t1) k1 (q_advance q).
Proof.
  intros Hs Hk1 Hb Hst Hcc He Hw Hj Hc. split.
  - apply reads_advance.
  - left. by apply advance_pushed.
  - intros _. rewrite Hk1. split; [done | split; [by right | split; [by intros [? | ?] | left]]].
    rewrite (measure_at cc t k q Hs), (advance_length q He Hw). unfold measure.
    cbn [m_state set_state m_bufferedEndTagName].
    assert (rank st <= 2)%nat by (by destruct Hst as [-> | [-> | ->]]; simpl; lia).
    destruct (_ && _); lia.
  - done.
  - intros _ Hm. left. by eapply marked_advance.
Qed.

Lemma fresh_idle (st : State) (t : HTMLTokenizer) (k : HTMLToken) :
  m_state t = st -> kindOf st = TextKind -> isEndTagNameState st = false ->
  st <> CharacterReferenceInAttributeValueState -> m_bufferedEndTagName t = [] ->
  idleShape t (clear k).
Proof.
  intros <- Hk He Hc Hb. left. split; [| done]. apply shapeOk_plain; try done. rewrite Hk. by left.
Qed.

(** Returning a finished tag, comment or DOCTYPE token. *)
Lemma emitted_returns (t t1 : HTMLTokenizer) (k k1 : HTMLToken) (q q1 : Q) (cc : Z) :
  shapeAt cc (m_state t) t k -> emitted k1 -> m_bufferedEndTagName t1 = [] ->
  reads q q1 -> q_pushed q1 = 0%nat ->
  ((length (q_pending q1) < length (q_pending q))%nat \/
   (q1 = q /\ (0 < rank (m_state t))%nat)) ->
  (marked q -> marked q1) ->
  returns t k q true (set_state DataState t1) k1 q1.
Proof.
  intros Hs Hk1 Hb Hr Hj Hm Hmk. split.
  - done.
  - by left.
  - intros _. split; [by destruct Hk1 | split; [by apply (fresh_idle DataState) | split; [done | left]]].
    rewrite (measure_at cc t k q Hs). unfold measure. cbn [m_state set_state m_bufferedEndTagName].
    rewrite Hb. simpl. destruct Hm as [Hm | [-> Hm]]; lia.
  - done.
  - intros _ H. left. by apply Hmk.
Qed.

Lemma save_ok (t : HTMLTokenizer) (k : HTMLToken) :
  m_type k <> Uninitialized ->
  exists t1, saveEndTagNameIfNeeded t k = Some t1 /\
    m_bufferedEndTagName t1 = m_bufferedEndTagName t /\ m_state t1 = m_state t.
Proof.
  intros Hk. unfold saveEndTagNameIfNeeded, isUninitialized, tokenName, hasName.
  destruct (m_type k); try done; simpl; eauto.
Qed.

Lemma runs_all (fuel : nat) : runs fuel.
Proof.
  induction fuel as [| fuel IH]; intros cc t k q Hf Hs Hq He Hc Hsn; [lia |].
  pose proof (queueOk_wf T HT t q Hq) as Hwf.
  pose proof (measure_at cc t k q Hs) as Hme.
  pose proof (advance_length q He Hwf) as Hlen.
  destruct (block_done t k cc q Hs Hq He Hc Hsn) as (t1 & k1 & a & q1 & Eb & Hfr & Hend & Hqa).
  pose proof (block_keeps t t1 k k1 cc q q1 a Eb) as Hkeep.
  cbn [stateLoop]. rewrite Eb. cbn [mbind result_bind]. destruct Hfr as (Hst1 & _).
  destruct a as [st | st | st | st | st | st | st | | |]; cbn [endOk queueAfter] in *.
  - (* AdvanceTo *)
    destruct Hend as [Hshape Hcc], Hqa as [Hq1 Hpush].
    assert (q1 = q) as -> by (rewrite Hq1; by destruct q).
    pose proof (measure_plain (set_state st t1) k1 (q_advance q) Hshape) as Hm2.
    cbn [m_state set_state] in Hm2. pose proof (rank_le st).
    apply advance_done; try done; [lia | | | by apply reads_advance | left; lia |].
    + destruct Hpush as [Hj | (-> & Hv & _)]; [left; by apply advance_pushed |].
      by apply (queueOk_advance t).
    + by apply (reads_short q); [apply reads_advance |].
    + intros _. by eapply marked_advance.
  - (* SwitchTo *)
    destruct Hend as [Hshape _], Hqa as (Hr & Hq1 & Hless & Hmk).
    pose proof (measure_plain (set_state st t1) k1 q1 Hshape) as Hm2.
    cbn [m_state set_state] in Hm2. pose proof (rank_le st). pose proof (reads_length q q1 Hr).
    assert (measure (set_state st t1) q1 < measure t q)%nat by lia.
    assert (pays (set_state st t1) k1 q1 t q) by by left.
    change (src_isEmpty q1) with (q_isEmpty q1). destruct (q_isEmpty q1) eqn:Ee1.
    + apply starved; auto.
    + apply (enter_done (fun _ => fuel)); try done; [intros; lia | by apply (reads_short q)].
  - (* ReconsumeIn *)
    destruct Hend as [Hshape Hrank], Hqa as [-> Hj].
    pose proof (measure_at cc (set_state st t1) k1 q Hshape) as Hm2. cbn [m_state set_state] in Hm2.
    apply (loopDone_step t (set_state st t1) k k1 q q); [by apply reads_refl | left; lia | done |].
    apply IH; try done; [lia | by left].
  - (* FlushAndAdvanceTo *)
    destruct Hend as (Hk1 & Hb & Hst & Hcc), Hqa as [-> Hj].
    destruct (flush_cases (set_state st t1) k1 q Hk1 Hb) as [[Hch ->] | [Hun (k2 & Hk2 & ->)]];
      cbn [mbind result_bind].
    + do 4 eexists. split; [done |]. eapply flushed_returns; try done. tauto.
    + assert (Hshape : shapeOk st (clearEndTag (set_state st t1)) k2).
      { apply shapeOk_plain; destruct Hst as [-> | ->]; try done; by right. }
      pose proof (measure_plain (clearEndTag (set_state st t1)) k2 (q_advance q) Hshape) as Hm2.
      cbn [m_state set_state clearEndTag set_temporary set_appropriate set_buffered] in Hm2.
      pose proof (rank_le st).
      assert (Hq2 : queueOk T (clearEndTag (set_state st t1)) (q_advance q))
        by (left; by apply advance_pushed).
      change (src_isEmpty (q_advance q)) with (q_isEmpty (q_advance q)).
      destruct (q_isEmpty (q_advance q)) eqn:Ee1.
      * apply starved; try done; [by apply reads_advance | left; left; lia | by left |].
        intros _. by eapply marked_advance.
      * apply (enter_done (fun _ => fuel)); try done; [intros; lia | | by apply reads_advance | left; lia |].
        -- by apply (reads_short q); [apply reads_advance |].
        -- intros _. by eapply marked_advance.
  - (* FlushEmitAndResumeIn *)
    destruct Hend as (Hk1 & Hb & -> & Hcc), Hqa as [-> Hj]. unfold flushEmitAndResumeIn.
    destruct (flush_cases (set_state DataState t1) k1 q Hk1 Hb) as [[Hch ->] | [Hun (k2 & Hk2 & ->)]];
      cbn [mbind result_bind]; do 4 eexists; (split; [done |]).
    + eapply flushed_returns; try done. tauto.
    + apply (emitted_returns t (clearEndTag t1) k k2 q (q_advance q) cc Hs); try done.
      * unfold emitted. by rewrite Hk2.
      * by apply reads_advance.
      * by apply advance_pushed.
      * left. lia.
      * by eapply marked_advance.
  - (* EmitAndResumeIn *)
    destruct Hend as (Hk1 & Hb & -> & Hcc), Hqa as [-> Hj]. unfold emitAndResumeIn.
    destruct (save_ok t1 k1 ltac:(by destruct Hk1)) as (t2 & -> & Hb2 & _). cbn [lift mbind result_bind].
    change (src_advanceAndUpdateLineNumber q) with (Some (q_advance q)). cbn [lift mbind result_bind].
    do 4 eexists. split; [done |].
    apply (emitted_returns t t2 k k1 q (q_advance q) cc Hs); try done.
    + congruence.
    + by apply reads_advance.
    + by apply advance_pushed.
    + left. lia.
    + by eapply marked_advance.
  - (* EmitAndReconsumeIn *)
    destruct Hend as (Hk1 & Hb & -> & Hrank), Hqa as [-> Hj]. unfold emitAndReconsumeIn.
    destruct (save_ok t1 k1 ltac:(by destruct Hk1)) as (t2 & -> & Hb2 & _). cbn [lift mbind result_bind].
    do 4 eexists. split; [done |].
    apply (emitted_returns t t2 k k1 q q cc Hs); try done; [congruence | by apply reads_refl | by right].
  - (* EmitEndOfFile *)
    destruct Hend as (Hb & Hrank & -> & Hkind), Hqa as [-> Hj].
    destruct (Hkeep Hrank Hkind) as [-> ->]. unfold emitEndOfFile.
    destruct (haveBufferedCharacterToken k) eqn:Ech.
    + apply bool_decide_eq_true_1 in Ech. do 4 eexists. split; [done |]. split.
      * by apply reads_refl.
      * by left.
      * intros _. rewrite Ech. split; [done | split; [| split; [by intros [? | ?] | by right]]].
        apply (fresh_idle (m_state t)); try done; by destruct (m_state t).
      * done.
      * intros _ Hm. by left.
    + change (src_advanceAndUpdateLineNumber q) with (Some (q_advance q)). cbn [lift mbind result_bind].
      change (makeEndOfFile (clear k)) with (Some (set_type EndOfFile (clear k))).
      cbn [lift mbind result_bind]. do 4 eexists. split; [done |]. split.
      * by apply reads_advance.
      * left. by apply advance_pushed.
      * intros _. split; [done | split; [by apply (fresh_idle DataState) | split; [| left]]].
        { intros _. split; [done | split; [done | by apply advance_pushed]]. }
        unfold measure at 1. cbn [m_state set_state m_bufferedEndTagName]. rewrite Hb. simpl. lia.
      * done.
      * intros _ _. right. split; [done | split; [done |]].
        destruct Hc as (c & l & Hp & _ & Hz & _). destruct (Hz eq_refl) as (_ & _ & ->).
        destruct q as [p j cl n]. simpl in Hp. by subst p.
  - (* EmitCharacters *)
    destruct Hend as (Hk1 & Hb & Hst), Hqa as [-> Hj].
    destruct (Hkeep ltac:(by rewrite Hst) ltac:(by rewrite Hst)) as [-> ->].
    do 4 eexists. split; [done |]. split.
    + by apply reads_refl.
    + by left.
    + intros _. rewrite Hk1. split; [done | split; [by apply (fresh_idle DataState) | split; [by intros [? | ?] | by right]]].
    + done.
    + intros _ Hm. by left.
  - (* ReturnHaveBuffered *)
    destruct Hend as [Hshape Hu], Hqa as (Hp & Hcl & Hn & -> & Hq1 & Hwhy).
    pose proof (Hkeep Hu) as ->. apply starved; try done.
    + split; [done |]. exists []. by rewrite Hp.
    + right. split; [done |]. unfold measure. by rewrite Hp.
    + tauto.
    + intros _ [Hcl' Hm]. split; [congruence | by rewrite Hp].
Qed.


(** *** nextToken and pump *)

Lemma resume_cases (t : HTMLTokenizer) (k : HTMLToken) :
  idleShape t k ->
  (resumeEndTag t k = Some (false, t, k) /\ shapeOk (m_state t) t k /\ m_type k <> Character) \/
  (exists k1, m_type k1 = EndTag /\
     resumeEndTag t k = Some (bool_decide (m_state t = DataState), clearEndTag t, k1) /\
     (m_state t = BeforeAttributeNameState \/ m_state t = SelfClosingStartTagState \/
      m_state t = DataState) /\ m_bufferedEndTagName t <> [] /\ m_type k <> Character).
Proof.
  intros [[Hs Hk] | (Hk & Hb & Hst)]; [left | right].
  - split; [| done]. unfold resumeEndTag. pose proof Hs as (_ & Hb & _).
    destruct (isEndTagNameState (m_state t)) eqn:E.
    + replace (isEndTagBufferingState (m_state t)) with true by (by destruct (m_state t)).
      by rewrite andb_false_r.
    + by rewrite Hb.
  - unfold resumeEndTag.
    destruct (beginEndTag_ok (m_bufferedEndTagName t) k Hk) as (k1 & -> & Hk1).
    exists k1. split; [done |]. rewrite Hk.
    replace (negb (isEmptyVector (m_bufferedEndTagName t))) with true
      by (by destruct (m_bufferedEndTagName t)).
    replace (negb (isEndTagBufferingState (m_state t))) with true
      by (by destruct Hst as [-> | [-> | ->]]).
    done.
Qed.

Lemma nextToken_done (t : HTMLTokenizer) (k : HTMLToken) (q : Q) :
  idleShape t k -> queueOk T t q -> numbersFit (q_pending q) = true ->
  loopDone t k q (nextToken foldCase T t k q).
Proof.
  intros Hi Hq Hsn. unfold nextToken.
  assert (Hrest : forall t1 k1, shapeOk (m_state t1) t1 k1 -> m_type k1 <> Character ->
    queueOk T t1 q -> (measure t1 q <= measure t q)%nat ->
    loopDone t k q
      (if src_isEmpty q then Ok (haveBufferedCharacterToken k1, t1, k1, q) else
       '(ok, t2, s2) ← tokenizerPeek t1 q;
       if negb ok then Ok (haveBufferedCharacterToken k1, t2, k1, s2) else
       stateLoop foldCase T (loopFuel s2) (m_nextInputCharacter (m_inputStreamPreprocessor t2)) t2 k1 s2)).
  { intros t1 k1 Hs Hk Hq1 Hm. assert (Hp : pays t1 k1 q t q) by (right; by split).
    change (src_isEmpty q) with (q_isEmpty q). destruct (q_isEmpty q) eqn:Ee.
    - apply starved; try done; [by apply reads_refl | by left | by left].
    - pose proof (enter_done loopFuel t1 k1 q t k q) as He.
      destruct (tokenizerPeek t1 q) as [[[ok t2] q2] | |]; cbn [mbind result_bind] in *.
      + replace (if negb ok then Ok (haveBufferedCharacterToken k1, t2, k1, q2) else _)
          with (if ok then stateLoop foldCase T (loopFuel q2)
                  (m_nextInputCharacter (m_inputStreamPreprocessor t2)) t2 k1 q2
                else Ok (haveBufferedCharacterToken k1, t2, k1, q2)) by (by destruct ok).
        apply He; try done; [intros; apply runs_all | | by apply reads_refl].
        intros t3 q3 _ Hs3. rewrite (measure_plain t3 k1 q3 Hs3). unfold loopFuel.
        change (src_length q3) with (Z.of_nat (length (q_pending q3))). rewrite Nat2Z.id.
        pose proof (rank_le (m_state t3)). lia.
      + apply He; try done; [intros; apply runs_all | | by apply reads_refl].
        intros t3 q3 _ Hs3. rewrite (measure_plain t3 k1 q3 Hs3). unfold loopFuel.
        change (src_length q3) with (Z.of_nat (length (q_pending q3))). rewrite Nat2Z.id.
        pose proof (rank_le (m_state t3)). lia.
      + apply He; try done; [intros; apply runs_all | | by apply reads_refl].
        intros t3 q3 _ Hs3. rewrite (measure_plain t3 k1 q3 Hs3). unfold loopFuel.
        change (src_length q3) with (Z.of_nat (length (q_pending q3))). rewrite Nat2Z.id.
        pose proof (rank_le (m_state t3)). lia. }
  destruct (resume_cases t k Hi) as [(-> & Hs & Hk) | (k1 & Hk1 & -> & Hst & Hb & Hk)];
    cbn [lift mbind result_bind].
  - by apply Hrest.
  - assert (Hless : (measure (clearEndTag t) q < measure t q)%nat).
    { unfold measure. cbn [m_state m_bufferedEndTagName clearEndTag set_temporary set_appropriate set_buffered].
      replace (negb (isEmptyVector (m_bufferedEndTagName t))) with true
        by (by destruct (m_bufferedEndTagName t)).
      replace (isEndTagBufferingState (m_state t)) with false
        by (by destruct Hst as [-> | [-> | ->]]). simpl. lia. }
    case_bool_decide as Hd.
    + do 4 eexists. split; [done |]. split.
      * by apply reads_refl.
      * exact Hq.
      * intros _. rewrite Hk1. split; [done | split; [by apply (fresh_idle DataState) | split; [by intros [? | ?] | by left]]].
      * done.
      * intros _ Hm. by left.
    + apply Hrest; [| by rewrite Hk1 | exact Hq | lia].
      apply shapeOk_plain; cbn [m_state clearEndTag set_temporary set_appropriate set_buffered];
        destruct Hst as [E | [E | E]]; rewrite ?E; try done; by right.
Qed.

(** What the scanning loop leaves. *)
Record pumped (t : HTMLTokenizer) (k : HTMLToken) (q : Q)
    (tokens : list HTMLToken) (t' : HTMLTokenizer) (k' : HTMLToken) (q' : Q) : Prop := {
  pump_reads : reads q q';
  pump_queue : queueOk T t' q';
  pump_idle : idleShape t' k';
  pump_tokens : Forall (fun x => m_type x <> Uninitialized) tokens;
  pump_stop : q_isEmpty q' = true \/ m_state t' = MarkupDeclarationOpenState \/
    m_state t' = AfterDOCTYPENameState \/
    undecidedText T (referenceAdditional t') (q_pending q') (q_pushed q');
  pump_eof : foldsNul foldCase -> marked q ->
    marked q' \/ (exists l x, tokens = l ++ [x] /\ m_type x = EndOfFile /\ q_pending q' = []) }.

Lemma update_idle (t : HTMLTokenizer) (k : HTMLToken) (n : list Z) (q : Q) :
  m_state t = DataState -> m_bufferedEndTagName t = [] ->
  idleShape (updateStateFor n t) (clear k) /\ measure (updateStateFor n t) q = measure t q.
Proof.
  intros Hst Hb. unfold updateStateFor.
  repeat match goal with |- context [if ?b then _ else _] => destruct b end;
    (split; [left; split; [| done]; apply shapeOk_plain; simpl; rewrite ?Hst; try done; by left
            | unfold measure; cbn [m_state set_state m_bufferedEndTagName]; rewrite Hb, ?Hst; simpl; lia]).
Qed.

(** Calling again after the end of the file returns nothing. *)
Lemma pump_exhausted (fuel : nat) (t : HTMLTokenizer) (k : HTMLToken) (cl : bool) (n : Z) :
  m_bufferedEndTagName t = [] -> m_type k = Uninitialized ->
  pumpLoop foldCase T (S fuel) t k (mkQ [] 0 cl n) = Ok ([], t, k, mkQ [] 0 cl n).
Proof.
  intros Hb Hk. cbn [pumpLoop]. unfold nextToken, resumeEndTag, haveBufferedCharacterToken, isType.
  rewrite Hb. simpl. unfold isType. by rewrite Hk.
Qed.

Lemma pumpLoop_done (fuel : nat) (t : HTMLTokenizer) (k : HTMLToken) (q : Q) :
  (measure t q < fuel)%nat -> idleShape t k -> queueOk T t q ->
  numbersFit (q_pending q) = true ->
  exists tokens t' k' q', pumpLoop foldCase T fuel t k q = Ok (tokens, t', k', q') /\
    pumped t k q tokens t' k' q'.
Proof.
  revert t k q. induction fuel as [| fuel IH]; intros t k q Hf Hi Hq Hsn; [lia |].
  destruct (nextToken_done t k q Hi Hq Hsn) as (emit & t1 & k1 & q1 & E & [Hr1 Hq1 Htok Hmore Heof]).
  cbn [pumpLoop]. rewrite E. cbn [mbind result_bind]. destruct emit; cbn [negb].
  2: { destruct (Hmore eq_refl) as (Hs & Hk & Hstop). do 4 eexists. split; [done |]. split; try done.
       - by left.
       - intros Hn Hm. destruct (Heof Hn Hm) as [? | [? _]]; [by left | done]. }
  destruct (Htok eq_refl) as (Hun & Hi1 & Hend & Hless).
  assert (Hlt : (measure t1 q1 < measure t q)%nat).
  { destruct Hless as [? | [Hch _]]; [done |]. destruct Hi as [[_ ?] | [Hu _]]; congruence. }
  set (next := if isType (m_type k1) StartTag then _ else _).
  assert (Hnext : exists t2, next = Ok t2 /\ idleShape t2 (clear k1) /\ queueOk T t2 q1 /\
    measure t2 q1 = measure t1 q1 /\ (m_type k1 = EndOfFile -> m_bufferedEndTagName t2 = [])).
  { unfold next, isType. case_bool_decide as Es.
    - destruct (Hend (or_introl Es)) as (Hst & Hb & Hj). unfold tokenName, hasName, isType. rewrite Es. simpl.
      eexists. split; [done |].
      destruct (update_idle t1 k1 (m_data k1) q1 Hst Hb) as [Hi2 Hm2].
      split; [done | split; [by left | split; [done |]]]. done.
    - exists t1. split; [done | split; [done | split; [done | split; [done |]]]].
      intros He. by apply Hend; right. }
  destruct Hnext as (t2 & -> & Hi2 & Hq2 & Hm2 & Hb2). cbn [mbind result_bind].
  destruct (IH t2 (clear k1) q1) as (tokens & t' & k' & q' & Ep & [Pr Pq Pi Pt Ps Pe]);
    [lia | done | done | by apply (reads_short q) |].
  rewrite Ep. cbn [mbind result_bind]. do 4 eexists. split; [done |]. split; try done.
  - by apply (reads_trans q q1).
  - by constructor.
  - intros Hn Hm. destruct (Heof Hn Hm) as [Hm1 | (_ & He & Hp)].
    + destruct (Pe Hn Hm1) as [? | (l & x & -> & ? & ?)]; [by left | right]. by exists (k1 :: l), x.
    + right. destruct q1 as [p1 j1 cl1 n1]. simpl in Hp. subst p1.
      pose proof (queueOk_wf T HT _ _ Hq1) as Hw. destruct Hw as [Hw _]. simpl in Hw.
      assert (j1 = 0%nat) as -> by lia. destruct fuel as [| fuel]; [lia |].
      rewrite (pump_exhausted fuel t2 (clear k1) cl1 n1 (Hb2 He) eq_refl) in Ep.
      injection Ep as <- <- <- <-. by exists [], k1.
Qed.

End Loop.
