(* ===== verification/TokenizerTheorems.v ===== *)
(** * What the tokenizer promises

    Total correctness of [nextToken] and of the scanning loop over any input
    buffer, the end of the file, checkpoints, end tags in raw text, and plain
    text.  The proofs apply the lemmas of TokenizerSafety.v on the abstract queue
    and carry them to [SegmentedString] by TokenizerRefinement.v. *)

From S2P Require Import Prelude SegmentedString CharSource SegmentedStringSpec SegmentedStringTheorems HTMLToken HTMLEntitySearch HTMLEntityParser EntityTheorems InputStreamPreprocessor HTMLTokenizer TokenizerRefinement TokenizerInvariant TokenizerSafety.

(** ** Running over chunks *)

(** A tokenizer, its current token and its input between two calls. *)
Definition Ready (T : EntityTable) (t : HTMLTokenizer) (k : HTMLToken) (q : Q) : Prop :=
  idleShape t k /\ queueOk T t q.

Lemma pump_done (foldCase : Z -> Z) (T : EntityTable) (t : HTMLTokenizer) (k : HTMLToken) (q : Q) :
  EntityTableOk T -> Ready T t k q -> numbersFit (q_pending q) = true ->
  exists tokens t' k' q', pump foldCase T t k q = Ok (tokens, t', k', q') /\
    pumped foldCase T t k q tokens t' k' q'.
Proof.
  intros HT [Hi Hq] Hs. apply (pumpLoop_done foldCase T HT); try done.
  change (src_length q) with (Z.of_nat (length (q_pending q))). rewrite Nat2Z.id.
  unfold measure. pose proof (rank_le (m_state t)). destruct (_ && _); lia.
Qed.

Lemma ready_new (T : EntityTable) (o : HTMLParserOptions) (q : Q) :
  q_pushed q = 0%nat -> Ready T (newTokenizer o) newToken q.
Proof.
  intros Hj. split; [| by left]. left. split; [| done]. apply shapeOk_plain; try done. by left.
Qed.

Lemma ready_append (T : EntityTable) (t : HTMLTokenizer) (k : HTMLToken) (q : Q) (B : list Z) :
  Ready T t k q -> Ready T t k (mkQ (q_pending q ++ B) (q_pushed q) (q_closed q) (q_consumed q)).
Proof.
  intros [Hi Hq]. split; [done |].
  destruct Hq as [H | [(H1 & H2 & H3 & H4) | (H1 & w & R & Hp & Hu)]].
  - by left.
  - right; left. simpl. rewrite length_app, take_app_le by done. split; [done | split; [lia | done]].
  - right; right. split; [done |]. exists w, (R ++ B). simpl. by rewrite Hp, <- app_assoc.
Qed.

(** Appends a chunk and scans, for every chunk; with [last], marks the end of the
    file behind the last one first. *)
Fixpoint feed (foldCase : Z -> Z) (T : EntityTable) (chunks : list (list Z)) (t : HTMLTokenizer)
    (k : HTMLToken) (q : Q) : result (list HTMLToken * HTMLTokenizer * HTMLToken * Q) :=
  match chunks with
  | [] => Ok ([], t, k, q)
  | B :: chunks' =>
      q1 ← lift (q_append B q);
      '(tokens, t1, k1, q2) ← pump foldCase T t k q1;
      '(tokens', t2, k2, q3) ← feed foldCase T chunks' t1 k1 q2;
      Ok (tokens ++ tokens', t2, k2, q3)
  end.

(** Scanning chunk after chunk never fails, and what is left unread is a suffix
    of the whole text. *)
Lemma feed_done (foldCase : Z -> Z) (T : EntityTable) (chunks : list (list Z)) (t : HTMLTokenizer)
    (k : HTMLToken) (q : Q) :
  EntityTableOk T -> Ready T t k q -> q_closed q = false ->
  numbersFit (q_pending q ++ concat chunks) = true ->
  exists tokens t' k' q', feed foldCase T chunks t k q = Ok (tokens, t', k', q') /\
    Ready T t' k' q' /\ q_closed q' = false /\
    (exists v, q_pending q ++ concat chunks = v ++ q_pending q') /\
    Forall (fun x => m_type x <> Uninitialized) tokens.
Proof.
  intros HT. revert t k q. induction chunks as [| B chunks IH]; intros t k q Hr Hcl Hs.
  { do 4 eexists. split; [done |]. simpl. rewrite app_nil_r. split; [done | split; [done | split; [by exists [] | done]]]. }
  cbn [feed concat] in *. unfold q_append. rewrite Hcl. cbn [negb ASSERT mbind option_bind lift result_bind].
  set (q1 := mkQ (q_pending q ++ B) (q_pushed q) false (q_consumed q)).
  rewrite app_assoc in Hs.
  assert (Hr1 : Ready T t k q1) by (unfold q1; rewrite <- Hcl; by apply ready_append).
  destruct (pump_done foldCase T t k q1 HT Hr1) as (tokens & t1 & k1 & q2 & -> & [Hrd Hq Hi Ht _ _]).
  { by apply (numbersFit_prefix _ (concat chunks)). }
  cbn [mbind result_bind]. destruct Hrd as [Hc2 [u Hu]]. simpl in Hc2, Hu.
  destruct (IH t1 k1 q2) as (tokens' & t2 & k2 & q3 & -> & Hr3 & Hc3 & [v Hv] & Ht3);
    [by split | done | |].
  { apply (numbersFit_suffix u). by rewrite app_assoc, <- Hu. }
  cbn [mbind result_bind]. do 4 eexists. split; [done | split; [done | split; [done | split]]].
  - exists (u ++ v). by rewrite app_assoc, Hu, <- app_assoc, Hv, app_assoc.
  - by apply Forall_app.
Qed.

(** [markEndOfFile()] on the queue. *)
Definition q_markEndOfFile (q : Q) : option Q :=
  q1 ← q_append [kEndOfFileMarker] q; q_close q1.

(** While the marker is unread, the input is not empty and no reference is
    undecided. *)
Lemma marked_decided (T : EntityTable) (t : HTMLTokenizer) (q : Q) :
  EntityTableOk T -> queueOk T t q -> marked q ->
  q_isEmpty q = false /\ ~ undecidedText T (referenceAdditional t) (q_pending q) (q_pushed q).
Proof.
  intros HT Hq [_ [u Hu]].
  assert (Hno : Forall (fun c => isReferenceCharacter c = true) (q_pending q) -> False).
  { rewrite Hu. intros [_ H]%Forall_app. by apply Forall_cons_1 in H as [H _]. }
  split.
  - destruct (q_isEmpty q) eqn:E; [exfalso | done]. apply Nat.eqb_eq in E.
    assert (Hlen : (0 < length (q_pending q))%nat) by (rewrite Hu, length_app; simpl; lia).
    destruct Hq as [H | [(_ & _ & _ & H) | (_ & w & B & Hp & Hun)]]; [lia | |].
    + apply Hno. by rewrite <- E, firstn_all in H.
    + destruct (undecided_pushed T HT _ _ _ Hun) as [Hj Hw].
      pose proof (pushedBy_le (length w)) as [Hle _].
      rewrite Hp, length_app in E. destruct B; [| simpl in E; lia].
      apply Hno. by rewrite Hp, app_nil_r.
  - intros Hun. destruct (undecided_pushed T HT _ _ _ Hun) as [_ Hw]. auto.
Qed.

(** The runs of the driver over a buffer, from their runs over its text. *)
Lemma buffer_nextToken (foldCase : Z -> Z) (T : EntityTable) (t : HTMLTokenizer) (k : HTMLToken)
    (s : SegmentedString) (emitted : bool) (t' : HTMLTokenizer) (k' : HTMLToken) (q : Q) :
  wf s -> nextToken foldCase T t k (abs s) = Ok (emitted, t', k', q) ->
  exists s', nextToken foldCase T t k s = Ok (emitted, t', k', s') /\ wf s' /\ abs s' = q.
Proof.
  intros Hwf E. pose proof (refR_nextToken (S := SegmentedString) foldCase T t k s) as X.
  exact (X Hwf _ _ E).
Qed.

Lemma buffer_pump (foldCase : Z -> Z) (T : EntityTable) (t : HTMLTokenizer) (k : HTMLToken)
    (s : SegmentedString) (tokens : list HTMLToken) (t' : HTMLTokenizer) (k' : HTMLToken) (q : Q) :
  wf s -> pump foldCase T t k (abs s) = Ok (tokens, t', k', q) ->
  exists s', pump foldCase T t k s = Ok (tokens, t', k', s') /\ wf s' /\ abs s' = q.
Proof.
  intros Hwf E. pose proof (refR_pump (S := SegmentedString) foldCase T t k s) as X.
  exact (X Hwf _ _ E).
Qed.

(** ** The theorems *)

(** C1: [nextToken] on a buffer of any representation: called on a tokenizer between
    two tokens it does not fail, does not loop, returns a token whose type is set
    exactly when it returns true, only ever consumes input from the front, and
    when it asks for more input there is none, or a look-ahead of a markup
    declaration or a DOCTYPE, or a character reference, is undecided.  The text must
    have no number of 2^31 or more behind a [#] ([numbersFit]): as a numeric reference
    it overflows the accumulator, and can make the NUL that an assertion excludes
    ([overflowing_reference_asserts]). *)
Theorem nextToken_total (foldCase : Z -> Z) (T : EntityTable) (t : HTMLTokenizer) (k : HTMLToken)
    (s : SegmentedString) :
  EntityTableOk T -> wf s -> Ready T t k (abs s) -> numbersFit (toString s) = true ->
  exists emitted t' k' s', nextToken foldCase T t k s = Ok (emitted, t', k', s') /\ wf s' /\
    (exists u, toString s = u ++ toString s') /\
    (emitted = true -> m_type k' <> Uninitialized /\ Ready T t' (clear k') (abs s') /\
       (measure t' (abs s') < measure t (abs s))%nat) /\
    (emitted = false -> Ready T t' k' (abs s') /\
       (m_empty s' = true \/ m_state t' = MarkupDeclarationOpenState \/
        m_state t' = AfterDOCTYPENameState \/
        undecidedText T (referenceAdditional t') (toString s') (length (pushedChars s')))).
Proof.
  intros HT Hwf [Hi Hq] Hs. rewrite (toString_ok s (wf_shape _ Hwf)) in *.
  destruct (nextToken_done foldCase T HT t k (abs s) Hi Hq Hs) as
    (emitted & t' & k' & q' & E & [Hrd Hq' Htok Hmore _]).
  destruct (buffer_nextToken foldCase T t k s _ _ _ _ Hwf E) as (s' & Es & Hwf' & Ha).
  exists emitted, t', k', s'. rewrite (toString_ok s' (wf_shape _ Hwf')).
  split; [done | split; [done | split; [| split]]].
  - rewrite <- Ha in Hrd. by destruct Hrd as [_ Hrd].
  - intros ->. rewrite Ha. destruct (Htok eq_refl) as (H1 & H2 & _ & H3).
    split; [done | split; [done |]]. destruct H3 as [H3 | [H3 _]]; [done |].
    destruct Hi as [[_ ?] | [? _]]; congruence.
  - intros ->. rewrite Ha. destruct (Hmore eq_refl) as (H1 & H2 & H3).
    split; [split; [by left | done] |].
    pose proof (src_isEmpty_ok (S := SegmentedString) s' Hwf') as He. simpl in He. rewrite He, Ha.
    rewrite <- Ha in H3 at 2 3. exact H3.
Qed.

(** C5: The tokenizer behaves on a [SegmentedString] as it does on the plain queue of
    characters the buffer stands for: how the text is cut into substrings, which
    of them are 8-bit and which fast path is taken never shows in a token.  As
    everywhere, the tokenizer is between two tokens, and the text has no number of
    2^31 or more behind a [#] ([numbersFit]). *)
Theorem pump_representation (foldCase : Z -> Z) (T : EntityTable) (t : HTMLTokenizer)
    (k : HTMLToken) (s1 s2 : SegmentedString) :
  EntityTableOk T -> wf s1 -> wf s2 -> abs s1 = abs s2 ->
  Ready T t k (abs s1) -> numbersFit (toString s1) = true ->
  exists tokens t' k' s1' s2',
    pump foldCase T t k s1 = Ok (tokens, t', k', s1') /\
    pump foldCase T t k s2 = Ok (tokens, t', k', s2') /\
    wf s1' /\ wf s2' /\ abs s1' = abs s2'.
Proof.
  intros HT Hwf1 Hwf2 Heq Hr Hs. rewrite (toString_ok s1 (wf_shape _ Hwf1)) in Hs.
  destruct (pump_done foldCase T t k (abs s1) HT Hr Hs) as (tokens & t' & k' & q' & E & _).
  destruct (buffer_pump foldCase T t k s1 _ _ _ _ Hwf1 E) as (s1' & E1 & Hw1 & Ha1).
  assert (E' : pump foldCase T t k (abs s2) = Ok (tokens, t', k', q')).
  { by rewrite <- Heq. }
  destruct (buffer_pump foldCase T t k s2 _ _ _ _ Hwf2 E') as (s2' & E2 & Hw2 & Ha2).
  exists tokens, t', k', s1', s2'. split; [done | split; [done | split; [done | split; [done |]]]].
  congruence.
Qed.

(** C4: Scanning a document chunk by chunk never fails and never loops, as long as it has
    no number of 2^31 or more behind a [#] ([numbersFit]); every token has a type; what
    is left unread is a suffix of the text. *)
Theorem feed_total (foldCase : Z -> Z) (T : EntityTable) (o : HTMLParserOptions)
    (chunks : list (list Z)) :
  EntityTableOk T -> numbersFit (concat chunks) = true ->
  exists tokens t k q, feed foldCase T chunks (newTokenizer o) newToken (mkQ [] 0 false 0)
      = Ok (tokens, t, k, q) /\
    (exists v, concat chunks = v ++ q_pending q) /\
    Forall (fun x => m_type x <> Uninitialized) tokens.
Proof.
  intros HT Hs.
  destruct (feed_done foldCase T chunks (newTokenizer o) newToken (mkQ [] 0 false 0) HT)
    as (tokens & t & k & q & E & _ & _ & Hv & Ht); [by apply ready_new | done | done |].
  eauto 10.
Qed.

(** C3: Once the chunks of a document without numbers of 2^31 or more behind a [#]
    ([numbersFit]) have been scanned and the end of the file has been marked, scanning
    emits the end-of-file token as its last token with nothing left to read, unless it
    stopped in one of the two states that wait for a look-ahead.  Case folding must keep
    NUL apart from the lower-case letters ([foldsNul]). *)
Theorem end_of_file (foldCase : Z -> Z) (T : EntityTable) (o : HTMLParserOptions)
    (chunks : list (list Z)) :
  EntityTableOk T -> foldsNul foldCase -> numbersFit (concat chunks ++ [kEndOfFileMarker]) = true ->
  exists tokens t k q q1 tokens' t' k' q',
    feed foldCase T chunks (newTokenizer o) newToken (mkQ [] 0 false 0) = Ok (tokens, t, k, q) /\
    q_markEndOfFile q = Some q1 /\
    pump foldCase T t k q1 = Ok (tokens', t', k', q') /\
    ((exists l x, tokens' = l ++ [x] /\ m_type x = EndOfFile /\ q_pending q' = []) \/
     m_state t' = MarkupDeclarationOpenState \/ m_state t' = AfterDOCTYPENameState).
Proof.
  intros HT Hf Hs.
  destruct (feed_done foldCase T chunks (newTokenizer o) newToken (mkQ [] 0 false 0) HT)
    as (tokens & t & k & q & E & Hr & Hcl & [v Hv] & _);
    [by apply ready_new | done | by apply (numbersFit_prefix _ [kEndOfFileMarker]) |].
  simpl in Hv. rewrite Hv in Hs.
  set (q1 := mkQ (q_pending q ++ [kEndOfFileMarker]) (q_pushed q) true (q_consumed q)).
  assert (Em : q_markEndOfFile q = Some q1).
  { unfold q_markEndOfFile, q_append, q_close. by rewrite Hcl. }
  assert (Hr1 : Ready T t k q1).
  { destruct (ready_append T t k q [kEndOfFileMarker] Hr) as [Hi Hq]. by split. }
  destruct (pump_done foldCase T t k q1 HT Hr1) as (tokens' & t' & k' & q' & Ep & [Hrd Hq' Hi' _ Hst He]).
  { apply (numbersFit_suffix v). unfold q1; cbn [q_pending]; by rewrite app_assoc. }
  exists tokens, t, k, q, q1, tokens', t', k', q'.
  split; [done | split; [done | split; [done |]]].
  destruct (He Hf) as [Hm | ?]; [by split; [| exists (q_pending q)] | right | by left].
  destruct (marked_decided T t' q' HT Hq' Hm) as [Hne Hun].
  destruct Hst as [? | [? | [? | ?]]]; [congruence | by left | by right | done].
Qed.

(** ** Plain text *)

(** What PLAINTEXT makes of a text: newlines are normalised and NUL becomes the
    replacement character. *)
Fixpoint plainText (skip : bool) (l : list Z) : list Z :=
  match l with
  | [] => []
  | c :: l' =>
      if (c =? 10) && skip then plainText false l'
      else if c =? 13 then 10 :: plainText true l'
      else (if c =? 0 then 0xFFFD else c) :: plainText false l'
  end.

Definition appendText (l : list Z) (k : HTMLToken) : HTMLToken :=
  foldl (fun k c => appendData c (set_type Character k)) k l.

Lemma appendText_data (l : list Z) (k : HTMLToken) : m_data (appendText l k) = m_data k ++ l.
Proof.
  revert k. induction l as [| c l IH]; intros k; simpl; [by rewrite app_nil_r |].
  rewrite IH. simpl. by rewrite <- app_assoc.
Qed.

Lemma appendText_type (l : list Z) (k : HTMLToken) :
  m_type (appendText l k) = if isEmptyVector l then m_type k else Character.
Proof.
  revert k. induction l as [| c l IH]; intros k; simpl; [done |]. rewrite IH.
  by destruct (isEmptyVector l).
Qed.

Lemma bufferCharacter_eq (c : Z) (k : HTMLToken) :
  c <> 0 -> fits TextKind k -> bufferCharacter c k = Some (appendData c (set_type Character k)).
Proof.
  intros Hc Hk. unfold bufferCharacter, ensureIsCharacterToken, isUninitialized.
  apply Z.eqb_neq in Hc. unfold kEndOfFileMarker. rewrite Hc. by destruct Hk as [-> | ->].
Qed.

(** The next character of marked plain text, and the text behind it. *)
Lemma nextChar_plain (skip : bool) (l : list Z) :
  exists cc sk rest, nextChar false true skip (l ++ [kEndOfFileMarker]) = (Some cc, sk, rest) /\
    (length rest <= S (length l))%nat /\
    ((cc = 0 /\ rest = [kEndOfFileMarker] /\ plainText skip l = []) \/
     (cc <> 0 /\ exists c l', rest = c :: l' ++ [kEndOfFileMarker] /\
        plainText skip l = cc :: plainText sk l')).
Proof.
  revert skip. induction l as [| c l IH]; intros skip.
  { exists 0, false, [0]. split; [done | split; [simpl; lia | by left]]. }
  cbn [nextChar plainText app]. destruct ((c =? 10) && skip).
  { destruct (IH false) as (cc & sk & rest & -> & Hl & H). exists cc, sk, rest.
    split; [done | split; [simpl; lia | done]]. }
  destruct (c =? 13) eqn:E13.
  { exists 10, true, (c :: l ++ [kEndOfFileMarker]). split; [done | split; [simpl; rewrite length_app; simpl; lia |]].
    right. split; [done |]. by exists c, l. }
  replace (isEmptyVector (l ++ [kEndOfFileMarker])) with false by by destruct l.
  rewrite andb_true_r. destruct (c =? 0) eqn:E0; simpl.
  - exists 0xFFFD, false, (c :: l ++ [kEndOfFileMarker]).
    split; [done | split; [simpl; rewrite length_app; simpl; lia |]]. right. split; [done |]. by exists c, l.
  - exists c, false, (c :: l ++ [kEndOfFileMarker]).
    split; [done | split; [simpl; rewrite length_app; simpl; lia |]]. right. bool_to_prop.
    split; [done |]. by exists c, l.
Qed.

Section Plain.
Variables (foldCase : Z -> Z) (T : EntityTable).

(** A peek in PLAINTEXT on marked text. *)
Lemma plain_peek (t : HTMLTokenizer) (l : list Z) (n : Z) :
  m_state t = PLAINTEXTState ->
  exists cc sk rest n', tokenizerPeek t (mkQ (l ++ [kEndOfFileMarker]) 0 true n) =
      Ok (true, set_preprocessor (mkPreprocessor cc sk) t, mkQ rest 0 true n') /\
    (length rest <= S (length l))%nat /\
    let skip := m_skipNextNewLine (m_inputStreamPreprocessor t) in
    ((cc = 0 /\ rest = [kEndOfFileMarker] /\ plainText skip l = []) \/
     (cc <> 0 /\ exists c l', rest = c :: l' ++ [kEndOfFileMarker] /\
        plainText skip l = cc :: plainText sk l')).
Proof.
  intros Hst. destruct (nextChar_plain (m_skipNextNewLine (m_inputStreamPreprocessor t)) l)
    as (cc & sk & rest & En & Hl & H).
  set (q := mkQ (l ++ [kEndOfFileMarker]) 0 true n).
  assert (Hlen : (0 < length (q_pending q))%nat) by (simpl; rewrite length_app; simpl; lia).
  assert (He : q_isEmpty q = false) by (apply Nat.eqb_neq; simpl in *; lia).
  pose proof (peek_ok false (m_inputStreamPreprocessor t) q He
    ltac:(split; simpl; lia) ltac:(by left)) as Hp.
  unfold q in *. cbn [q_pending q_closed] in Hp. rewrite En in Hp.
  unfold tokenizerPeek, shouldSkipNullCharacters. rewrite Hst, andb_false_r, Hp.
  cbn [mbind result_bind default]. do 4 eexists. split; [by unfold q_from; simpl | done].
Qed.

Lemma plain_loop (fuel : nat) (t : HTMLTokenizer) (k : HTMLToken) (cc c n : Z) (l : list Z) :
  (length l + 1 < fuel)%nat -> m_state t = PLAINTEXTState -> fits TextKind k -> cc <> 0 ->
  exists t' n', m_state t' = PLAINTEXTState /\ m_bufferedEndTagName t' = m_bufferedEndTagName t /\
    stateLoop foldCase T fuel cc t k (mkQ (c :: l ++ [kEndOfFileMarker]) 0 true n) =
      Ok (true, t', appendText (cc :: plainText (m_skipNextNewLine (m_inputStreamPreprocessor t)) l) k,
          mkQ [kEndOfFileMarker] 0 true n').
Proof.
  revert t k cc c n l. induction fuel as [| fuel IH]; intros t k cc c n l Hf Hst Hk Hcc; [lia |].
  cbn [stateLoop]. unfold block. rewrite Hst. unfold pureBlock, in_PLAINTEXTState.
  replace (cc =? kEndOfFileMarker) with false by (symmetry; by apply Z.eqb_neq).
  rewrite (bufferCharacter_eq cc k Hcc Hk). cbn [after goto mbind option_bind lift result_bind].
  set (t1 := set_state PLAINTEXTState t). set (k1 := appendData cc (set_type Character k)).
  rewrite tokenizerAdvance_eq.
  change (q_advance (mkQ (c :: l ++ [kEndOfFileMarker]) 0 true n))
    with (mkQ (l ++ [kEndOfFileMarker]) 0 true (n + 1)).
  replace (q_isEmpty _) with false.
  2: { symmetry. apply Nat.eqb_neq. simpl. rewrite length_app. simpl. lia. }
  destruct (plain_peek t1 l (n + 1) eq_refl) as (cc' & sk & rest & n' & -> & Hl & H).
  cbn [mbind result_bind]. cbn zeta in H.
  change (m_skipNextNewLine (m_inputStreamPreprocessor t1))
    with (m_skipNextNewLine (m_inputStreamPreprocessor t)) in H.
  change (m_nextInputCharacter (m_inputStreamPreprocessor (set_preprocessor (mkPreprocessor cc' sk) t1)))
    with cc'.
  destruct H as [(-> & -> & ->) | (Hcc' & c' & l' & -> & ->)].
  - exists (set_preprocessor (mkPreprocessor 0 sk) t1), n'. split; [done | split; [done |]].
    destruct fuel as [| fuel]; [lia |]. cbn [stateLoop]. unfold block.
    cbn [m_state t1 set_state set_preprocessor]. unfold pureBlock, in_PLAINTEXTState.
    change (0 =? kEndOfFileMarker) with true. cbn [goto mbind option_bind lift result_bind].
    unfold emitEndOfFile, haveBufferedCharacterToken. unfold isType; by rewrite bool_decide_true.
  - destruct (IH (set_preprocessor (mkPreprocessor cc' sk) t1) k1 cc' c' n' l') as
      (t' & n2 & Hst' & Hb' & E'); [simpl in Hl; rewrite length_app in Hl; simpl in Hl; lia
                                   | done | by right | done |].
    exists t', n2. split; [done | split; [by rewrite Hb' |]]. rewrite E'. done.
Qed.
(** [nextToken] when no end tag is pending. *)
Lemma nextToken_fresh (t : HTMLTokenizer) (k : HTMLToken) (q : Q) :
  m_bufferedEndTagName t = [] ->
  nextToken foldCase T t k q =
    if q_isEmpty q then Ok (haveBufferedCharacterToken k, t, k, q) else
    '(ok, t2, q2) ← tokenizerPeek t q;
    if negb ok then Ok (haveBufferedCharacterToken k, t2, k, q2) else
    stateLoop foldCase T (loopFuel q2) (m_nextInputCharacter (m_inputStreamPreprocessor t2)) t2 k q2.
Proof. intros Hb. unfold nextToken, resumeEndTag. by rewrite Hb. Qed.

(** PLAINTEXT at the marker, without and with a pending text token. *)
Lemma plain_marker (fuel : nat) (t : HTMLTokenizer) (k : HTMLToken) (n : Z) :
  m_state t = PLAINTEXTState -> m_type k = Uninitialized ->
  stateLoop foldCase T (S fuel) 0 t k (mkQ [kEndOfFileMarker] 0 true n) =
    Ok (true, set_state DataState t, set_type EndOfFile (clear k), mkQ [] 0 true (n + 1)).
Proof.
  intros Hst Hk. cbn [stateLoop]. unfold block. rewrite Hst. unfold pureBlock, in_PLAINTEXTState.
  change (0 =? kEndOfFileMarker) with true. cbn [goto mbind option_bind lift result_bind].
  unfold emitEndOfFile, haveBufferedCharacterToken, isType. rewrite Hk.
  by rewrite bool_decide_false by done.
Qed.

(** The rest of the scan once the marker is read. *)
Lemma plain_rest (fuel : nat) (t : HTMLTokenizer) (k : HTMLToken) (n : Z) :
  m_bufferedEndTagName t = [] ->
  ('(tokens, t3, k3, q3) ← (t2 ← Ok t; pumpLoop foldCase T (S fuel) t2
                              (clear (set_type EndOfFile (clear k))) (mkQ [] 0 true n));
   Ok (set_type EndOfFile (clear k) :: tokens, t3, k3, q3)) =
  Ok ([set_type EndOfFile (clear k)], t, clear (set_type EndOfFile (clear k)), mkQ [] 0 true n).
Proof. intros Hb. cbn [mbind result_bind]. by rewrite pump_exhausted. Qed.

(** The marker alone: the end-of-file token, then nothing. *)
Lemma plain_end (fuel : nat) (t : HTMLTokenizer) (k : HTMLToken) (n : Z) :
  m_state t = PLAINTEXTState -> m_bufferedEndTagName t = [] -> m_type k = Uninitialized ->
  exists t' k' q, pumpLoop foldCase T (S (S fuel)) t k (mkQ [kEndOfFileMarker] 0 true n)
      = Ok ([set_type EndOfFile (clear k)], t', k', q) /\ q_pending q = [].
Proof.
  intros Hst Hb Hk. remember (S fuel) as more. cbn [pumpLoop]. rewrite (nextToken_fresh t k) by done.
  change (q_isEmpty (mkQ [kEndOfFileMarker] 0 true n)) with false. cbv iota.
  destruct (plain_peek t [] n Hst) as (cc & sk & rest & n' & E & _ & [(-> & -> & _) | (Hcc & H)]).
  2: { by destruct H as (c & l' & _ & H). }
  simpl app in E. rewrite E. cbn [mbind result_bind negb].
  change (loopFuel (mkQ [kEndOfFileMarker] 0 true n')) with 8%nat.
  cbn [m_nextInputCharacter m_inputStreamPreprocessor set_preprocessor].
  rewrite plain_marker by done. cbn [mbind result_bind negb].
  change (isType (m_type (set_type EndOfFile (clear k))) StartTag) with false. cbv iota.
  subst more. do 3 eexists. split; [by apply plain_rest | done].
Qed.

End Plain.

(** Behind a <plaintext> tag the rest of the document is text: one scan returns
    it as a single character token, with newlines normalised and NULs replaced and
    nothing else changed, followed by the end of the file. *)
Theorem plaintext_verbatim (foldCase : Z -> Z) (T : EntityTable) (t : HTMLTokenizer)
    (k : HTMLToken) (l : list Z) (n : Z) :
  m_state t = PLAINTEXTState -> m_bufferedEndTagName t = [] -> m_type k = Uninitialized ->
  m_data k = [] ->
  exists tokens t' k' q, pump foldCase T t k (mkQ (l ++ [kEndOfFileMarker]) 0 true n)
      = Ok (tokens, t', k', q) /\ q_pending q = [] /\
    (fun x => (m_type x, m_data x)) <$> tokens =
      (let text := plainText (m_skipNextNewLine (m_inputStreamPreprocessor t)) l in
       if isEmptyVector text then [] else [(Character, text)]) ++ [(EndOfFile, [])].
Proof.
  intros Hst Hb Hk Hd. unfold pump.
  change (src_length (mkQ (l ++ [kEndOfFileMarker]) 0 true n))
    with (Z.of_nat (length (l ++ [kEndOfFileMarker]))). rewrite Nat2Z.id.
  replace (4 * length (l ++ [kEndOfFileMarker]) + 5)%nat
    with (S (S (S (4 * length l + 6)))) by (rewrite length_app; simpl; lia).
  generalize (4 * length l + 6)%nat. intros more. remember (S (S more)) as fuel eqn:Ef.
  cbn [pumpLoop]. rewrite (nextToken_fresh foldCase T t k) by done.
  replace (q_isEmpty _) with false.
  2: { symmetry. apply Nat.eqb_neq. simpl. rewrite length_app. simpl. lia. }
  destruct (plain_peek t l n Hst) as (cc & sk & rest & n' & -> & Hl & H).
  cbn [mbind result_bind negb m_nextInputCharacter m_inputStreamPreprocessor set_preprocessor].
  set (t1 := set_preprocessor _ t). subst fuel.
  destruct H as [(-> & -> & ->) | (Hcc & c & l' & -> & ->)].
  - change (loopFuel (mkQ [kEndOfFileMarker] 0 true n')) with 8%nat.
    rewrite plain_marker by done. cbn [mbind result_bind negb].
    change (isType (m_type (set_type EndOfFile (clear k))) StartTag) with false. cbv iota.
    do 4 eexists. split; [by apply plain_rest | done].
  - destruct (plain_loop foldCase T (loopFuel (mkQ (c :: l' ++ [kEndOfFileMarker]) 0 true n')) t1 k cc c n' l')
      as (t2 & n2 & Hst2 & Hb2 & ->); [| done | by left | done |].
    { unfold loopFuel. simpl. rewrite length_app. simpl. lia. }
    cbn [mbind result_bind negb].
    set (x := appendText _ k). assert (Hx : m_type x = Character) by (unfold x; by rewrite appendText_type).
    replace (isType (m_type x) StartTag) with false by (by rewrite Hx). cbn [mbind result_bind].
    destruct (plain_end foldCase T more t2 (clear x) n2 Hst2) as (t3 & k3 & q3 & -> & Hq3); [by rewrite Hb2 | done |].
    cbn [mbind result_bind]. do 4 eexists. split; [done | split; [done |]].
    simpl. rewrite Hx. unfold x. by rewrite appendText_data, Hd.
Qed.

(** ** End tags in raw text *)

(** The four end-tag-name states and the text state each belongs to. *)
Inductive EndTagNameIn : State -> State -> Prop :=
  | rcdataEndTag : EndTagNameIn RCDATAEndTagNameState RCDATAState
  | rawtextEndTag : EndTagNameIn RAWTEXTEndTagNameState RAWTEXTState
  | scriptEndTag : EndTagNameIn ScriptDataEndTagNameState ScriptDataState
  | escapedEndTag : EndTagNameIn ScriptDataEscapedEndTagNameState ScriptDataEscapedState.

Definition endsTagName (c : Z) : bool :=
  isTokenizerWhitespace c || (c =? ch "/") || (c =? ch ">").

Lemma equalNames_ok (a b : list Z) :
  length a = length b -> equalNames (length a) a b = bool_decide (a = b).
Proof.
  revert b. induction a as [| x a IH]; intros [| y b] H; simpl in *; try done.
  rewrite IH by lia. destruct (x =? y) eqn:E; bool_to_prop; simpl.
  - subst y. apply bool_decide_ext. naive_solver.
  - symmetry. apply bool_decide_eq_false. naive_solver.
Qed.

Lemma isAppropriateEndTag_ok (t : HTMLTokenizer) :
  isAppropriateEndTag t = bool_decide (m_bufferedEndTagName t = m_appropriateEndTagName t).
Proof.
  unfold isAppropriateEndTag. destruct (Nat.eqb _ _) eqn:E; simpl.
  - apply Nat.eqb_eq in E. by apply equalNames_ok.
  - apply Nat.eqb_neq in E. symmetry. apply bool_decide_eq_false. congruence.
Qed.

Lemma notAnEndTag_data (text : State) (t t1 : HTMLTokenizer) (k k1 : HTMLToken) (a : Action) :
  notAnEndTag text t k = Some (t1, k1, a) ->
  a = ReconsumeIn text /\ m_type k1 = Character /\
  m_data k1 = m_data k ++ bufferedCharacters t /\
  m_bufferedEndTagName t1 = [] /\ m_temporaryBuffer t1 = [].
Proof.
  unfold notAnEndTag, bufferCharacter, ensureIsCharacterToken, appendToCharacter,
    appendVectorToCharacter. intros E.
  destruct (isUninitialized k || isType (m_type k) Character); [| done]. simpl in E.
  injection E as <- <- <-. simpl. unfold bufferedCharacters. by rewrite <- !app_assoc.
Qed.

(** While the name of a possible end tag is read in RCDATA, RAWTEXT or script
    text, a letter goes to both buffers; a delimiter ends the text only if the
    name read is the name of the start tag that opened it; anything else gives
    all the characters read since the less-than sign back to the text. *)
Theorem raw_text_end_tag (st text : State) (t t1 : HTMLTokenizer) (k k1 : HTMLToken) (c pos : Z)
    (a : Action) :
  EndTagNameIn st text -> m_state t = st ->
  pureBlock st t k c pos = Some (t1, k1, a) ->
  (a = AdvanceTo st /\ k1 = k /\
     m_bufferedEndTagName t1 = m_bufferedEndTagName t ++ [if isASCIIUpper c then c + 32 else c] /\
     m_temporaryBuffer t1 = m_temporaryBuffer t ++ [c]) \/
  (endsTagName c = true /\ m_bufferedEndTagName t = m_appropriateEndTagName t /\ k1 = k /\
     m_bufferedEndTagName t1 = m_bufferedEndTagName t /\
     ((isTokenizerWhitespace c = true /\ a = FlushAndAdvanceTo BeforeAttributeNameState) \/
      (c = ch "/" /\ a = FlushAndAdvanceTo SelfClosingStartTagState) \/
      (c = ch ">" /\ a = FlushEmitAndResumeIn DataState))) \/
  ((endsTagName c = true -> m_bufferedEndTagName t <> m_appropriateEndTagName t) /\
     a = ReconsumeIn text /\ m_type k1 = Character /\
     m_data k1 = m_data k ++ bufferedCharacters t /\
     m_bufferedEndTagName t1 = [] /\ m_temporaryBuffer t1 = []).
Proof.
  intros Hin Hst Hb.
  assert (Hbuf : isEndTagBufferingState (m_state t) = true) by (rewrite Hst; by destruct Hin).
  assert (E : endTagName st text t k c pos = Some (t1, k1, a)) by (by destruct Hin).
  clear Hb. unfold endTagName in E. rewrite isAppropriateEndTag_ok in E.
  assert (Hsmall : isASCIIUpper c || isASCIILower c = true -> toLChar c = c /\
    toLChar (c + 32 * Z.b2z (isASCIIUpper c)) = c + 32 * Z.b2z (isASCIIUpper c)).
  { unfold toLChar, isASCIIUpper, isASCIILower. intros Hl. apply orb_true_iff in Hl.
    rewrite !Z.mod_small; [done | |]; destruct Hl as [Hl | Hl]; bool_to_prop;
      try (match goal with |- context [Z.b2z ?b] => destruct b end; simpl); lia. }
  unfold addToPossibleEndTag, toLowerCase in E. cbn [m_state set_temporary] in E. rewrite Hbuf in E.
  assert (Hnot : endsTagName c = true ->
    notAnEndTag text t k = Some (t1, k1, a) -> m_bufferedEndTagName t <> m_appropriateEndTagName t ->
    (endsTagName c = true -> m_bufferedEndTagName t <> m_appropriateEndTagName t) /\
     a = ReconsumeIn text /\ m_type k1 = Character /\
     m_data k1 = m_data k ++ bufferedCharacters t /\
     m_bufferedEndTagName t1 = [] /\ m_temporaryBuffer t1 = []).
  { intros _ En Hne. split; [done |]. by apply notAnEndTag_data in En. }
  unfold endsTagName in *.
  destruct (isASCIIUpper c) eqn:Eu; [| destruct (isASCIILower c) eqn:El].
  - destruct (Hsmall eq_refl) as [H1 H2]. simpl in E.
    change (32 * Z.b2z true) with 32 in H2. rewrite H1, H2 in E.
    injection E as <- <- <-. by left.
  - destruct (Hsmall eq_refl) as [H1 _]. simpl in E. rewrite H1 in E. injection E as <- <- <-. by left.
  - destruct (isTokenizerWhitespace c) eqn:Ew; [| destruct (c =? ch "/") eqn:Es;
      [| destruct (c =? ch ">") eqn:Eg]]; try (case_bool_decide as Hd;
        [injection E as <- <- <-; bool_to_prop; right; left; by auto 10 | right; right; by apply Hnot]).
    right; right. split; [done |]. by apply notAnEndTag_data in E.
Qed.

(** ** Checkpoints *)

(** Restoring a checkpoint in a tokenizer with empty buffers and the same forced
    NUL replacement gives a tokenizer that does on any input what the
    checkpointed one does. *)
Theorem checkpoint_restores (foldCase : Z -> Z) (T : EntityTable) (S : Type) (src : CharSource S)
    (t t0 : HTMLTokenizer) (c0 : Checkpoint) (k : HTMLToken) (s : S) :
  canCreateCheckpoint t = true -> canCreateCheckpoint t0 = true ->
  m_forceNullCharacterReplacement t0 = m_forceNullCharacterReplacement t ->
  src_isEmpty s = false ->
  exists c, createCheckpoint c0 t = Some c /\
    nextToken foldCase T (restoreFromCheckpoint c t0) k s = nextToken foldCase T t k s.
Proof.
  intros Ht Ht0 Hf He. unfold createCheckpoint. rewrite Ht. eexists. split; [done |].
  destruct t as [st fr al ad [nx sk] ap tb bu op], t0 as [st0 fr0 al0 ad0 pr0 ap0 tb0 bu0 op0].
  unfold canCreateCheckpoint in *. simpl in *. subst fr0.
  destruct ap, tb, bu, ap0, tb0, bu0; try done.
  unfold nextToken, resumeEndTag, restoreFromCheckpoint. simpl. rewrite He. done.
Qed.

(** ** Behaviours that differ from what the code means *)

(** A case folding that agrees with Unicode on ASCII. *)
Definition asciiFold (c : Z) : Z := if isASCIIUpper c then c + 32 else c.

Definition defaultOptions : HTMLParserOptions := mkOptions false false false.

Definition start : HTMLTokenizer := newTokenizer defaultOptions.

(** A whole document: one chunk, the end of the file, and the scans of both. *)
Definition document (text : list Z) : result (list HTMLToken * State * list Z) :=
  '(tokens, t, k, q) ← feed asciiFold demoTable [text] start newToken (mkQ [] 0 false 0);
  q1 ← lift (q_markEndOfFile q);
  '(tokens', t1, _, q2) ← pump asciiFold demoTable t k q1;
  Ok (tokens ++ tokens', m_state t1, q_pending q2).

(** The text of a returned character token. *)
Definition textOf (m : result (Returned (S := Q))) : option (list Z) :=
  match m with Ok (true, _, k, _) => characters k | _ => None end.

(** The checkpoint drops the forced replacement of NULs: the restored tokenizer
    skips the NUL that the checkpointed one replaces. *)
Theorem checkpoint_loses_replacement :
  let t := setForceNullCharacterReplacement true start in
  let q := mkQ [0; ch "a"] 0 false 0 in
  exists c, canCreateCheckpoint t = true /\ createCheckpoint newCheckpoint t = Some c /\
    textOf (nextToken asciiFold demoTable t newToken q) = Some [0xFFFD; ch "a"] /\
    textOf (nextToken asciiFold demoTable (restoreFromCheckpoint c start) newToken q)
      = Some [ch "a"].
Proof.
  eexists. split; [reflexivity | split; [reflexivity | split; by vm_compute]].
Qed.

(** Two documents that end inside a look-ahead do not get their end-of-file token: the
    tokenizer waits for input that cannot come, and the comment or DOCTYPE it was
    reading is lost with the rest of the text. *)
Example unfinished_lookahead :
  document (units "x<!d") =
    Ok ([appendText (units "x") newToken], MarkupDeclarationOpenState, units "d" ++ [0]) /\
  (exists l, document (units "<!doctype html p") = Ok (l, AfterDOCTYPENameState, units "p" ++ [0]) /\
     l = []).
Proof. split; [by vm_compute | eexists; by vm_compute]. Qed.

(** Tokenizing a number beyond 2^32 whose low bits make a NUL fails the assertion
    that a NUL is never buffered. *)
Theorem overflowing_reference_asserts :
  document (units "&#xFCA10000;") = Failed.
Proof. by vm_compute. Qed.

Example document_ex :
  (fun x => (m_type x, m_data x)) <$> match document (units "<p>a&amp;b</p>") with Ok (l, _, _) => l | _ => [] end
  = [(StartTag, units "p"); (Character, units "a&b"); (EndTag, units "p"); (EndOfFile, [])].
Proof. by vm_compute. Qed.

(** ** The theorems on concrete documents *)

Lemma start_ready (l : list Z) : Ready demoTable start newToken (mkQ l 0 false 0).
Proof. by apply ready_new. Qed.

Lemma bufferOf_wf (l : list Z) (b : bool) : wf (bufferOf l b).
Proof. apply reachable_wf, bufferOf_reachable. Qed.

Lemma asciiFold_nul : foldsNul asciiFold.
Proof.
  intros c Hc. unfold asciiFold, isASCIILower, isASCIIUpper in *. bool_to_prop. simpl.
  destruct (_ && _) eqn:E; bool_to_prop; lia.
Qed.

Lemma nextToken_total_witness :
  exists emitted t' k' s',
    nextToken asciiFold demoTable start newToken (bufferOf (units "<b>x") true) = Ok (emitted, t', k', s') /\
    wf s' /\ exists u, units "<b>x" = u ++ toString s'.
Proof.
  destruct (nextToken_total asciiFold demoTable start newToken (bufferOf (units "<b>x") true) demoTable_ok
    (bufferOf_wf _ _) (start_ready (units "<b>x")) eq_refl) as (emitted & t' & k' & s' & E & Hw & Hu & _).
  exists emitted, t', k', s'. split; [exact E | split; [exact Hw | exact Hu]].
Defined.

Lemma pump_representation_witness :
  let s1 := bufferOf (units "a<b>") true in
  let s2 := bufferOf (units "a<b>") false in
  exists tokens t' k' s1' s2',
    pump asciiFold demoTable start newToken s1 = Ok (tokens, t', k', s1') /\
    pump asciiFold demoTable start newToken s2 = Ok (tokens, t', k', s2') /\
    wf s1' /\ wf s2' /\ abs s1' = abs s2'.
Proof.
  apply (pump_representation asciiFold demoTable start newToken (bufferOf (units "a<b>") true)
           (bufferOf (units "a<b>") false) demoTable_ok (bufferOf_wf _ _) (bufferOf_wf _ _) eq_refl
           (start_ready (units "a<b>")) eq_refl).
Defined.

Lemma feed_total_witness :
  exists tokens t k q,
    feed asciiFold demoTable [units "a<"; units "b>&am"; units "p;"] start newToken (mkQ [] 0 false 0)
      = Ok (tokens, t, k, q) /\
    Forall (fun x => m_type x <> Uninitialized) tokens.
Proof.
  destruct (feed_total asciiFold demoTable defaultOptions [units "a<"; units "b>&am"; units "p;"]
              demoTable_ok eq_refl) as (tokens & t & k & q & E & _ & H).
  exists tokens, t, k, q. split; [exact E | exact H].
Defined.

Lemma end_of_file_witness :
  exists tokens t k q q1 tokens' t' k' q',
    feed asciiFold demoTable [units "a<"; units "b>"] start newToken (mkQ [] 0 false 0)
      = Ok (tokens, t, k, q) /\
    q_markEndOfFile q = Some q1 /\ pump asciiFold demoTable t k q1 = Ok (tokens', t', k', q') /\
    ((exists l x, tokens' = l ++ [x] /\ m_type x = EndOfFile /\ q_pending q' = []) \/
     m_state t' = MarkupDeclarationOpenState \/ m_state t' = AfterDOCTYPENameState).
Proof.
  apply (end_of_file asciiFold demoTable defaultOptions [units "a<"; units "b>"] demoTable_ok
           asciiFold_nul eq_refl).
Defined.

Lemma plaintext_verbatim_witness :
  exists tokens t' k' q,
    pump asciiFold demoTable (set_state PLAINTEXTState start) newToken
      (mkQ ((units "a<b>" ++ [13; 10; 0]) ++ [kEndOfFileMarker]) 0 true 0) = Ok (tokens, t', k', q) /\
    q_pending q = [] /\
    (fun x => (m_type x, m_data x)) <$> tokens
      = [(Character, units "a<b>" ++ [10; 0xFFFD]); (EndOfFile, [])].
Proof.
  apply (plaintext_verbatim asciiFold demoTable (set_state PLAINTEXTState start) newToken
           (units "a<b>" ++ [13; 10; 0]) 0); reflexivity.
Defined.

(** A tokenizer that has read [</x] in RAWTEXT, opened by an [x] start tag. *)
Definition inEndTag : HTMLTokenizer :=
  set_state RAWTEXTEndTagNameState (set_temporary (units "x")
    (set_buffered (units "x") (set_appropriate (units "x") start))).

Lemma raw_text_end_tag_witness :
  exists t1 k1 a, pureBlock RAWTEXTEndTagNameState inEndTag newToken (ch ">") 0 = Some (t1, k1, a) /\
    a = FlushEmitAndResumeIn DataState /\
    (endsTagName (ch ">") = true /\ m_bufferedEndTagName inEndTag = m_appropriateEndTagName inEndTag).
Proof.
  destruct (pureBlock RAWTEXTEndTagNameState inEndTag newToken (ch ">") 0) as [[[t1 k1] a] |] eqn:E;
    [| discriminate].
  exists t1, k1, a. split; [reflexivity |].
  destruct (raw_text_end_tag RAWTEXTEndTagNameState RAWTEXTState inEndTag t1 newToken k1 (ch ">") 0 a)
    as [(H & _) | [(H1 & H2 & _ & _ & [[H _] | [[H _] | [_ H]]]) | (H & _)]];
    [constructor | reflexivity | exact E | | | | | ].
  - vm_compute in E. injection E as _ _ <-. discriminate.
  - discriminate.
  - discriminate.
  - split; [exact H | split; [exact H1 | exact H2]].
  - exfalso. apply H; reflexivity.
Defined.

Lemma checkpoint_restores_witness :
  let q := mkQ (units "<p>") 0 false 0 in
  exists c, createCheckpoint newCheckpoint (set_state RCDATAState start) = Some c /\
    nextToken asciiFold demoTable (restoreFromCheckpoint c start) newToken q
      = nextToken asciiFold demoTable (set_state RCDATAState start) newToken q.
Proof.
  apply (checkpoint_restores asciiFold demoTable Q _ (set_state RCDATAState start) start newCheckpoint
           newToken (mkQ (units "<p>") 0 false 0)); reflexivity.
Defined.
