(* ===== verification/TokenizerMachine.v ===== *)
(** * The tokenizer as a machine that writes characters as they come

    [nextToken] collects characters in a token and returns it when it meets
    something else or when the input runs out, so that the cuts between character
    tokens depend on the cuts of the input.  The machine of this file runs the
    same blocks but writes every character at once; its output is a sequence of
    characters and of the other tokens.  [loop_runs] and [pump_runs] say that
    [stateLoop] and the scanning loop write what the machine writes;
    [runs_extend] that a run that stopped for lack of input can be continued when
    more input is there, with the result of a run over all of it. *)

From S2P Require Import Prelude SegmentedString CharSource HTMLToken HTMLEntitySearch HTMLEntityParser InputStreamPreprocessor HTMLTokenizer TokenizerInvariant TokenizerSafety.

(** ** What is written *)

Definition Item : Type := Z + HTMLToken.

(** The characters a token holds, and the token without them. *)
Definition text (k : HTMLToken) : list Item :=
  if isType (m_type k) Character then inl <$> m_data k else [].
Definition settle (k : HTMLToken) : HTMLToken :=
  if isType (m_type k) Character then clear k else k.

(** A returned token as items. *)
Definition items (k : HTMLToken) : list Item :=
  if isType (m_type k) Character then inl <$> m_data k else [inr k].
Definition flatten (tokens : list HTMLToken) : list Item := concat (items <$> tokens).

(** What the scanning loop tells the tokenizer about a returned token. *)
Definition notify (k : HTMLToken) (t : HTMLTokenizer) : HTMLTokenizer :=
  if isType (m_type k) StartTag then updateStateFor (m_data k) t else t.

(** ** The machine *)

Inductive Config :=
  | Start (t : HTMLTokenizer) (k : HTMLToken) (q : Q)  (* nextToken is called *)
  | Peek (t : HTMLTokenizer) (k : HTMLToken) (q : Q)   (* about to look at a character *)
  | Run (cc : Z) (t : HTMLTokenizer) (k : HTMLToken) (q : Q).

(** Where an action leads, and the token it writes. *)
Definition next (a : Action) (cc : Z) (t : HTMLTokenizer) (k : HTMLToken) (q : Q)
  : option (Config * list Item) :=
  match a with
  | AdvanceTo st => Some (Peek (set_state st t) k (q_advance q), [])
  | SwitchTo st => Some (Peek (set_state st t) k q, [])
  | ReconsumeIn st => Some (Run cc (set_state st t) k q, [])
  | FlushAndAdvanceTo st =>
      k1 ← beginEndTag (m_bufferedEndTagName t) k;
      Some (Peek (clearEndTag (set_state st t)) k1 (q_advance q), [])
  | FlushEmitAndResumeIn st =>
      k1 ← beginEndTag (m_bufferedEndTagName t) k;
      Some (Start (clearEndTag (set_state st t)) (clear k1) (q_advance q), [inr k1])
  | EmitAndResumeIn st =>
      t1 ← saveEndTagNameIfNeeded t k;
      Some (Start (notify k (set_state st t1)) (clear k) (q_advance q), [inr k])
  | EmitAndReconsumeIn st =>
      t1 ← saveEndTagNameIfNeeded t k;
      Some (Start (notify k (set_state st t1)) (clear k) q, [inr k])
  | EmitEndOfFile =>
      k1 ← makeEndOfFile (clear k);
      Some (Start (set_state DataState t) (clear k1) (q_advance q), [inr k1])
  | EmitCharacters | ReturnHaveBuffered => None
  end.

(** The character [cc] was read from the head of the queue. *)
Definition seen (cc : Z) (t : HTMLTokenizer) (q : Q) : Prop :=
  m_nextInputCharacter (m_inputStreamPreprocessor t) = cc /\
  exists ss, nextChar ss (q_closed q) (m_skipNextNewLine (m_inputStreamPreprocessor t)) (q_pending q)
    = (Some cc, m_skipNextNewLine (m_inputStreamPreprocessor t), q_pending q).

Section Machine.
Variable foldCase : Z -> Z.
Variable T : EntityTable.

Definition Waiting : Type := HTMLTokenizer * HTMLToken * Q.

(** What holds whenever a block is run. *)
Record ready (cc : Z) (t : HTMLTokenizer) (k : HTMLToken) (q : Q) : Prop := {
  rd_shape : shapeAt cc (m_state t) t k;
  rd_queue : queueOk T t q;
  rd_input : q_isEmpty q = false;
  rd_seen : seen cc t q }.

(** A run up to the point where input is missing. *)
Inductive Runs : Config -> list Item -> Waiting -> Prop :=
  | run_emit t k q t1 k1 I W :
      resumeEndTag t k = Some (true, t1, k1) -> Runs (Peek t1 (clear k1) q) I W ->
      Runs (Start t k q) (inr k1 :: I) W
  | run_start t k q t1 k1 I W :
      resumeEndTag t k = Some (false, t1, k1) -> Runs (Peek t1 k1 q) I W ->
      Runs (Start t k q) I W
  | run_empty t k q :
      shapeOk (m_state t) t k -> q_isEmpty q = true -> Runs (Peek t k q) [] (t, k, q)
  | run_skipped t k q t1 q1 :
      shapeOk (m_state t) t k -> queueOk T t q ->
      q_isEmpty q = false -> tokenizerPeek t q = Ok (false, t1, q1) ->
      Runs (Peek t k q) [] (t1, k, q1)
  | run_peek t k q t1 q1 I W :
      shapeOk (m_state t) t k -> queueOk T t q ->
      q_isEmpty q = false -> tokenizerPeek t q = Ok (true, t1, q1) ->
      Runs (Run (m_nextInputCharacter (m_inputStreamPreprocessor t1)) t1 k q1) I W ->
      Runs (Peek t k q) I W
  | run_wait cc t k q t1 k1 q1 :
      ready cc t k q -> block foldCase T t k cc q = Ok (t1, k1, ReturnHaveBuffered, q1) ->
      Runs (Run cc t k q) [] (t1, k1, q1)
  | run_block cc t k q t1 k1 a q1 C E I W :
      ready cc t k q -> block foldCase T t k cc q = Ok (t1, k1, a, q1) ->
      next a cc t1 (settle k1) q1 = Some (C, E) -> Runs C I W ->
      Runs (Run cc t k q) (text k1 ++ E ++ I) W.

Lemma runs_unique (C : Config) (I I' : list Item) (W W' : Waiting) :
  Runs C I W -> Runs C I' W' -> I' = I /\ W' = W.
Proof.
  intros H. revert I' W'.
  induction H as [t k q t1 k1 I W Er H IH | t k q t1 k1 I W Er H IH | t k q Hs He
    | t k q t1 q1 Hs Hq He Ep | t k q t1 q1 I W Hs Hq He Ep H IH | cc t k q t1 k1 q1 Hr Eb
    | cc t k q t1 k1 a q1 C E I W Hr Eb En H IH]; intros I' W' H'; inversion H'; subst;
    repeat match goal with E1 : ?x = _, E2 : ?x = _ |- _ => rewrite E1 in E2; simplify_eq end;
    try done; 
    match goal with HR : Runs _ _ _ |- _ => apply IH in HR as [-> ->]; done end.
Qed.

End Machine.

(** ** Characters already collected do not matter to a block

    [cut u k k']: [k] is a character token that holds [u] and then what [k'] holds. *)
Definition cut (u : list Z) (k k' : HTMLToken) : Prop :=
  m_type k = Character /\ m_data k = u ++ m_data k' /\ clear k = clear k' /\
  (m_type k' = Character \/ k' = clear k).

Definition cutO (u : list Z) (m m' : option HTMLToken) : Prop :=
  forall k1, m = Some k1 -> exists k2, m' = Some k2 /\ cut u k1 k2.

Definition cutB (u : list Z) (m m' : option (HTMLTokenizer * HTMLToken * Action)) : Prop :=
  forall t1 k1 a, m = Some (t1, k1, a) -> a <> EmitCharacters ->
  exists k2, m' = Some (t1, k2, a) /\ cut u k1 k2.

Lemma clear_clear (k : HTMLToken) : clear (clear k) = clear k.
Proof. done. Qed.

Lemma cut_clear (k : HTMLToken) : m_type k = Character -> cut (m_data k) k (clear k).
Proof. intros H. split; [done | split; [by rewrite app_nil_r | split; [done | by right]]]. Qed.

Lemma cut_text (u : list Z) (k k' : HTMLToken) : cut u k k' -> text k = (inl <$> u) ++ text k'.
Proof.
  intros (H & Hd & _ & H'). unfold text, isType. rewrite H, Hd. simpl. rewrite fmap_app. f_equal.
  destruct H' as [-> | ->]; done.
Qed.

Lemma cut_settle (u : list Z) (k k' : HTMLToken) : cut u k k' -> settle k = settle k'.
Proof.
  intros (H & _ & Hc & H'). unfold settle, isType. rewrite H. simpl.
  destruct H' as [-> | ->]; simpl; done.
Qed.

Lemma cut_some (u : list Z) (k k' : HTMLToken) : cut u k k' -> cutO u (Some k) (Some k').
Proof. intros H k1 [= <-]. eauto. Qed.

Lemma cut_bind (u : list Z) (m m' : option HTMLToken) (f f' : HTMLToken -> option HTMLToken) :
  cutO u m m' -> (forall k k', cut u k k' -> cutO u (f k) (f' k')) -> cutO u (m ≫= f) (m' ≫= f').
Proof.
  intros Hm Hf k1 E. destruct m as [k |]; simpl in E; [| done].
  destruct (Hm k eq_refl) as (k' & -> & Hk). simpl. by apply (Hf k).
Qed.

Lemma cut_appendData (u l : list Z) (o o' : Z) (k k' : HTMLToken) :
  cut u k k' -> m_type k' = Character ->
  cut u (set_data (m_data k ++ l) o k) (set_data (m_data k' ++ l) o' k').
Proof.
  intros (H & Hd & Hc & _) H'. split; [done | split; [simpl; by rewrite Hd, app_assoc | split; [| by left]]].
  injection Hc as H1 H2 H3 H4. unfold clear. simpl. by rewrite H1, H2, H3, H4.
Qed.

Lemma cut_buffer (u : list Z) (c : Z) (k k' : HTMLToken) :
  cut u k k' -> cutO u (bufferCharacter c k) (bufferCharacter c k').
Proof.
  intros Hk k1. unfold bufferCharacter. destruct (ASSERT _) as [[] |]; simpl; [| done].
  unfold ensureIsCharacterToken, isUninitialized, isType. pose proof Hk as (H & Hd & Hc & H').
  rewrite H. simpl. intros [= <-].
  assert (Hk' : ASSERT (bool_decide (m_type k' = Uninitialized) || bool_decide (m_type k' = Character))
    = Some ()) by (by destruct H' as [-> | ->]).
  rewrite Hk'. simpl. eexists. split; [done |].
  apply (cut_appendData u [c] _ _ (set_type Character k) (set_type Character k')); [| done].
  split; [done | split; [done | split; [| by left]]]. exact Hc.
Qed.

Lemma cut_buffers (u l : list Z) (k k' : HTMLToken) :
  cut u k k' -> cutO u (bufferCharacters l k) (bufferCharacters l k').
Proof.
  revert k k'. induction l as [| c l IH]; intros k k' H; simpl; [by apply cut_some |].
  apply cut_bind; [by apply cut_buffer | apply IH].
Qed.

Lemma cutB_goto (u : list Z) (t : HTMLTokenizer) (k k' : HTMLToken) (a : Action) :
  cut u k k' -> cutB u (goto t k a) (goto t k' a).
Proof. intros H t1 k1 a1 [= <- <- <-] _. by exists k'. Qed.

Lemma cutB_after (u : list Z) (t : HTMLTokenizer) (m m' : option HTMLToken) (a : Action) :
  cutO u m m' -> cutB u (after t m a) (after t m' a).
Proof.
  intros H t1 k1 a1 E _. unfold after in *. destruct m as [k |]; simpl in E; [| done].
  destruct (H k eq_refl) as (k' & -> & Hk). injection E as <- <- <-. by exists k'.
Qed.

Lemma cutB_token (u : list Z) (m m' : option HTMLToken)
    (f f' : HTMLToken -> option (HTMLTokenizer * HTMLToken * Action)) :
  cutO u m m' -> (forall k k', cut u k k' -> cutB u (f k) (f' k')) -> cutB u (m ≫= f) (m' ≫= f').
Proof.
  intros Hm Hf t1 k1 a E Ha. destruct m as [k |]; simpl in E; [| done].
  destruct (Hm k eq_refl) as (k' & -> & Hk). simpl. by apply (Hf k k').
Qed.

(** A step that does not involve the token. *)
Lemma cutB_bind {A} (u : list Z) (m : option A)
    (f f' : A -> option (HTMLTokenizer * HTMLToken * Action)) :
  (forall x, cutB u (f x) (f' x)) -> cutB u (m ≫= f) (m ≫= f').
Proof. intros Hf. destruct m as [x |]; simpl; [apply Hf | done]. Qed.

Lemma cutB_vector (u l : list Z) (k k' : HTMLToken)
    (f f' : HTMLToken -> option (HTMLTokenizer * HTMLToken * Action)) :
  cut u k k' -> m_type k' = Character -> (forall k k', cut u k k' -> cutB u (f k) (f' k')) ->
  cutB u (appendVectorToCharacter l k ≫= f) (appendVectorToCharacter l k' ≫= f').
Proof.
  intros H H' Hf. unfold appendVectorToCharacter, isType. pose proof H as (Hk & _).
  rewrite Hk, H'. simpl. by apply Hf, cut_appendData.
Qed.

Lemma bufferCharacter_type (c : Z) (k k1 : HTMLToken) :
  bufferCharacter c k = Some k1 -> m_type k1 = Character.
Proof.
  unfold bufferCharacter. intros [_ H]%ASSERT_bind. unfold ensureIsCharacterToken in H.
  destruct (ASSERT _); simpl in H; [| done]. unfold appendToCharacter in H. simpl in H. by injection H as <-.
Qed.

Create HintDb cuts discriminated.
#[export] Hint Resolve cutB_goto cutB_after cut_buffer cut_some : cuts.

Lemma cutB_notAnEndTag (u : list Z) (st : State) (t : HTMLTokenizer) (k k' : HTMLToken) :
  cut u k k' -> cutB u (notAnEndTag st t k) (notAnEndTag st t k').
Proof.
  intros H. unfold notAnEndTag. apply cutB_token; [by auto with cuts |]. intros k1 k1' H1.
  intros t1 k4 a E Ha. destruct (bufferCharacter (ch "/") k1) as [k2 |] eqn:E2; simpl in E; [| done].
  destruct (cut_buffer u _ _ _ H1 k2 E2) as (k2' & E2' & H2). rewrite E2'. simpl.
  revert E Ha. revert t1 k4 a. apply (cutB_vector u (m_temporaryBuffer t) k2 k2'); [done | |].
  - by apply bufferCharacter_type in E2'.
  - intros ? ? ?. by apply cutB_goto.
Qed.

Ltac cut_step :=
  match goal with
  | |- cutB _ (if ?b then _ else _) _ => destruct b eqn:?
  | |- cutB _ (goto _ _ _) _ => by apply cutB_goto
  | |- cutB _ (after _ _ _) _ => apply cutB_after
  | |- cutB _ (notAnEndTag _ _ _) _ => by apply cutB_notAnEndTag
  | |- cutB _ (bufferCharacter _ _ ≫= _) _ => apply cutB_token; [| intros ? ? ?]
  | |- cutB _ (_ ≫= _) _ => apply cutB_bind; intros ?
  | |- cutO _ (bufferCharacter _ _ ≫= _) _ => apply cut_bind; [| intros ? ? ?]
  | |- cutO _ (bufferCharacter _ _) _ => by apply cut_buffer
  end.

Lemma cutB_text (u : list Z) (t : HTMLTokenizer) (k k' : HTMLToken) (cc pos : Z) :
  kindOf (m_state t) = TextKind -> usesInput (m_state t) = false -> cut u k k' ->
  cutB u (pureBlock (m_state t) t k cc pos) (pureBlock (m_state t) t k' cc pos).
Proof.
  intros Hk Hu H. destruct (m_state t) eqn:Est; try discriminate Hk; try discriminate Hu; cbn [pureBlock].
  { unfold in_DataState. destruct (cc =? ch "&"); [by cut_step |]. destruct (cc =? ch "<").
    - pose proof H as (Ht & _). unfold isType at 1. rewrite Ht. simpl. by intros ? ? ? [= _ _ <-].
    - repeat cut_step. }
  all: unfold in_RCDATAState, in_RAWTEXTState, in_ScriptDataState, in_PLAINTEXTState,
    in_RCDATALessThanSignState, in_RCDATAEndTagOpenState, in_RCDATAEndTagNameState,
    in_RAWTEXTLessThanSignState, in_RAWTEXTEndTagOpenState, in_RAWTEXTEndTagNameState,
    in_ScriptDataLessThanSignState, in_ScriptDataEndTagOpenState, in_ScriptDataEndTagNameState,
    in_ScriptDataEscapeStartState, in_ScriptDataEscapeStartDashState, in_ScriptDataEscapedState,
    in_ScriptDataEscapedDashState, in_ScriptDataEscapedDashDashState,
    in_ScriptDataEscapedLessThanSignState, in_ScriptDataEscapedEndTagOpenState,
    in_ScriptDataEscapedEndTagNameState, in_ScriptDataDoubleEscapeStartState,
    in_ScriptDataDoubleEscapedState, in_ScriptDataDoubleEscapedDashState,
    in_ScriptDataDoubleEscapedDashDashState, in_ScriptDataDoubleEscapedLessThanSignState,
    in_ScriptDataDoubleEscapeEndState, in_CDATASectionState, in_CDATASectionRightSquareBracketState,
    in_CDATASectionDoubleRightSquareBracketState, doubleEscape, endTagName, endTagOpen,
    lessThanSignSlash; cbv zeta; repeat cut_step.
Qed.

Section Settle.
Variable foldCase : Z -> Z.
Variable T : EntityTable.

Lemma character_kind (cc : Z) (t : HTMLTokenizer) (k : HTMLToken) :
  shapeAt cc (m_state t) t k -> m_type k = Character -> kindOf (m_state t) = TextKind.
Proof.
  intros [(Hf & _) | (-> & _)] Hk; [| done].
  destruct (kindOf (m_state t)); simpl in Hf; try done; rewrite Hk in Hf;
    repeat match goal with
    | H : _ /\ _ |- _ => destruct H
    | H : _ \/ _ |- _ => destruct H
    end; discriminate.
Qed.

Lemma block_pure (t : HTMLTokenizer) (k : HTMLToken) (cc : Z) (q : Q) :
  usesInput (m_state t) = false ->
  block foldCase T t k cc q =
    '(t1, k1, a) ← lift (pureBlock (m_state t) t k cc (q_consumed q)); Ok (t1, k1, a, q).
Proof. unfold block. by destruct (m_state t). Qed.

(** A block writes the same behind collected characters as without them. *)
Lemma block_settle (cc : Z) (t t1 : HTMLTokenizer) (k k1 : HTMLToken) (a : Action) (q q1 : Q) :
  shapeAt cc (m_state t) t k -> block foldCase T t k cc q = Ok (t1, k1, a, q1) ->
  a <> EmitCharacters ->
  exists k2, block foldCase T t (settle k) cc q = Ok (t1, k2, a, q1) /\
    text k1 = text k ++ text k2 /\ settle k1 = settle k2.
Proof.
  intros Hs E Ha. destruct (decide (m_type k = Character)) as [Hk | Hk].
  2: { assert (settle k = k /\ text k = []) as [-> ->].
       { unfold settle, text, isType. by rewrite bool_decide_eq_false_2. }
       by exists k1. }
  assert (Hset : settle k = clear k) by (unfold settle, isType; by rewrite Hk).
  rewrite Hset. pose proof (cut_clear k Hk) as Hcut. pose proof (character_kind cc t k Hs Hk) as Hkind.
  assert (Hdone : forall k2, cut (m_data k) k1 k2 -> text k1 = text k ++ text k2 /\ settle k1 = settle k2).
  { intros k2 Hc. split; [| by apply (cut_settle (m_data k))]. rewrite (cut_text _ _ _ Hc).
    unfold text at 2, isType. by rewrite Hk. }
  destruct (usesInput (m_state t)) eqn:Eu.
  - unfold block in *. destruct (m_state t); try discriminate Hkind; try discriminate Eu;
      (unfold in_CharacterReferenceInDataState, in_CharacterReferenceInRCDATAState,
         in_CharacterReferenceInText, processEntity in *;
       destruct (consumeHTMLEntity T 0 q) as [[[l | |] q2] | |]; cbn [mbind result_bind lift] in E |- *; try done;
       [ destruct (bufferCharacters l k) as [k3 |] eqn:E3; cbn [mbind result_bind lift] in E; [| done];
         destruct (cut_buffers _ l _ _ Hcut k3 E3) as (k4 & -> & H4); cbn [mbind result_bind lift];
         injection E as <- <- <- <-; exists k4; by auto
       | destruct (bufferCharacter 38 k) as [k3 |] eqn:E3; cbn [mbind result_bind lift] in E; [| done];
         destruct (cut_buffer _ 38 _ _ Hcut k3 E3) as (k4 & -> & H4); cbn [mbind result_bind lift];
         injection E as <- <- <- <-; exists k4; by auto
       | injection E as <- <- <- <-; exists (clear k); by auto ]).
  - rewrite block_pure in E |- * by done.
    destruct (pureBlock (m_state t) t k cc (q_consumed q)) as [[[t2 k2] a2] |] eqn:Eb; simpl in E; [| done].
    injection E as <- <- <- <-.
    destruct (cutB_text (m_data k) t k (clear k) cc (q_consumed q) Hkind Eu Hcut _ _ _ Eb Ha)
      as (k3 & -> & H3). simpl. exists k3. by eauto.
Qed.

End Settle.

(** ** Peeking twice, and peeking with more input *)

Lemma nextChar_length (ss cl sk sk' : bool) (l rest : list Z) (o : option Z) :
  nextChar ss cl sk l = (o, sk', rest) -> (length rest <= length l)%nat.
Proof.
  revert sk. induction l as [| c l IH]; intros sk; cbn [nextChar]; [by intros [= _ _ <-] |].
  repeat case_match; intros E; try (injection E as _ _ <-; done);
    apply IH in E; simpl; lia.
Qed.

Lemma nextChar_again (ss cl sk sk' : bool) (l rest : list Z) (cc : Z) :
  nextChar ss cl sk l = (Some cc, sk', rest) -> nextChar ss cl sk' rest = (Some cc, sk', rest).
Proof.
  revert sk. induction l as [| c l IH]; intros sk; cbn [nextChar]; [done |].
  destruct ((c =? 10) && sk) eqn:E1; [apply IH |].
  destruct (c =? 13) eqn:E2.
  { intros [= <- <- <-]. cbn [nextChar]. rewrite E2. apply Z.eqb_eq in E2. by subst c. }
  destruct ((c =? 0) && negb (cl && isEmptyVector l)) eqn:E3.
  - destruct ss; [apply IH |]. intros [= <- <- <-]. cbn [nextChar]. by rewrite andb_false_r, E2, E3.
  - intros [= <- <- <-]. cbn [nextChar]. by rewrite andb_false_r, E2, E3.
Qed.

(** The same character whatever is done with NULs, unless it stands for one. *)
Lemma nextChar_flag (ss ss' cl sk : bool) (l : list Z) (cc : Z) :
  nextChar ss cl sk l = (Some cc, sk, l) -> cc <> 0xFFFD -> nextChar ss' cl sk l = (Some cc, sk, l).
Proof.
  destruct l as [| c l]; cbn [nextChar]; [done |]. intros E Hcc.
  destruct ((c =? 10) && sk); [apply nextChar_length in E; simpl in E; lia |].
  destruct (c =? 13); [done |].
  destruct ((c =? 0) && negb (cl && isEmptyVector l)); [| done].
  destruct ss; [apply nextChar_length in E; simpl in E; lia | by injection E as <-].
Qed.

Lemma nextChar_more (ss cl sk : bool) (l B : list Z) :
  B <> [] ->
  nextChar ss cl sk (l ++ B) =
    match nextChar ss false sk l with
    | (Some cc, sk', rest) => (Some cc, sk', rest ++ B)
    | (None, sk', _) => nextChar ss cl sk' B
    end.
Proof.
  intros HB. revert sk. induction l as [| c l IH]; intros sk; [done |]. cbn [nextChar app].
  destruct ((c =? 10) && sk); [apply IH |]. destruct (c =? 13); [done |].
  replace (cl && isEmptyVector (l ++ B)) with false.
  2: { symmetry. apply andb_false_iff. right. by destruct l, B. }
  rewrite andb_false_l. cbn [negb]. rewrite !andb_true_r.
  destruct (c =? 0); [| done]. destruct ss; [apply IH | done].
Qed.

Lemma q_from_same (q : Q) : q_from q (q_pending q) = q.
Proof. destruct q. unfold q_from. simpl. f_equal. lia. Qed.

Section Peeking.
Variable foldCase : Z -> Z.
Variable T : EntityTable.
Hypothesis HT : EntityTableOk T.

Lemma peek_step (t : HTMLTokenizer) (q : Q) :
  queueOk T t q -> q_isEmpty q = false ->
  let '(o, sk, rest) := nextChar (shouldSkipNullCharacters t) (q_closed q)
    (m_skipNextNewLine (m_inputStreamPreprocessor t)) (q_pending q) in
  tokenizerPeek t q = Ok (match o with Some _ => true | None => false end,
    set_preprocessor (mkPreprocessor (default (List.last (q_pending q) 0) o) sk) t, q_from q rest) /\
  (q_pushed q = 0%nat \/ rest = q_pending q).
Proof.
  intros Hq He. pose proof (queueOk_wf T HT t q Hq) as Hwf. pose proof (queueOk_head T HT t q Hq) as Hh.
  pose proof (peek_ok (shouldSkipNullCharacters t) (m_inputStreamPreprocessor t) q He Hwf Hh) as Hp.
  destruct (nextChar _ _ _ _) as [[o sk] rest] eqn:En. unfold tokenizerPeek. rewrite Hp.
  split; [done |]. destruct Hh as [Hj | Hc]; [by left | right].
  destruct q as [[| c p] j cl n]; [simpl in *; by injection En as _ _ <- |].
  change (q_head (mkQ (c :: p) j cl n)) with c in Hc. simpl in En.
  pose proof (nextChar_ordinary (shouldSkipNullCharacters t) cl
    (m_skipNextNewLine (m_inputStreamPreprocessor t)) c p (reference_ordinary c Hc)) as En'.
  simpl in En'. rewrite En in En'. by injection En' as _ _ ->.
Qed.

Lemma peek_ready (t t1 : HTMLTokenizer) (k : HTMLToken) (q q1 : Q) :
  shapeOk (m_state t) t k -> queueOk T t q -> q_isEmpty q = false ->
  tokenizerPeek t q = Ok (true, t1, q1) ->
  ready T (m_nextInputCharacter (m_inputStreamPreprocessor t1)) t1 k q1 /\
  exists p, t1 = set_preprocessor p t.
Proof.
  intros Hs Hq He E. pose proof (peek_step t q Hq He) as Hp.
  destruct (nextChar _ _ _ _) as [[[cc |] sk] rest] eqn:En; destruct Hp as [Hp Hj];
    rewrite Hp in E; [| done]. injection E as <- <-. split; [| by eexists]. cbn [default].
  split.
  - by left.
  - destruct Hj as [Hj | ->]; [by left | rewrite q_from_same; exact Hq].
  - destruct (nextChar_some _ _ _ _ _ _ _ En) as [(c & l' & -> & _) _].
    destruct Hj as [Hj | Hr].
    + unfold q_isEmpty. simpl. by rewrite Hj.
    + rewrite Hr, q_from_same. done.
  - split; [done |]. exists (shouldSkipNullCharacters t). by apply nextChar_again in En.
Qed.

Lemma peek_again (cc : Z) (t : HTMLTokenizer) (k : HTMLToken) (q : Q) :
  ready T cc t k q -> cc <> 0xFFFD -> tokenizerPeek t q = Ok (true, t, q).
Proof.
  intros [_ Hq He [Hn [ss Hss]]] Hcc. pose proof (peek_step t q Hq He) as Hp.
  rewrite (nextChar_flag _ (shouldSkipNullCharacters t) _ _ _ _ Hss Hcc) in Hp.
  destruct Hp as [-> _]. rewrite q_from_same. cbn [default]. rewrite <- Hn.
  do 3 f_equal. by destruct t as [? ? ? ? [] ? ? ? ?].
Qed.

Lemma peek_empty (t t1 : HTMLTokenizer) (q q1 : Q) :
  queueOk T t q -> q_isEmpty q = false -> tokenizerPeek t q = Ok (false, t1, q1) ->
  q_pending q1 = [] /\ q_pushed q1 = 0%nat /\ exists p, t1 = set_preprocessor p t.
Proof.
  intros Hq He E. pose proof (peek_step t q Hq He) as Hp.
  destruct (nextChar _ _ _ _) as [[[cc |] sk] rest] eqn:En; destruct Hp as [Hp Hj];
    rewrite Hp in E; [done |]. injection E as <- <-. apply nextChar_none in En. subst rest.
  split; [done | split; [| by eexists]]. simpl.
  destruct Hj as [? | Hj]; [done |]. pose proof (queueOk_wf T HT t q Hq) as [Hw _].
  rewrite <- Hj in Hw. simpl in Hw. lia.
Qed.

End Peeking.

(** ** Waiting for input *)

Section Wait.
Variable foldCase : Z -> Z.
Variable T : EntityTable.
Hypothesis HT : EntityTableOk T.

Lemma resume_plain (st : State) (t : HTMLTokenizer) (k : HTMLToken) :
  shapeOk st t k -> m_state t = st -> resumeEndTag t k = Some (false, t, k).
Proof.
  intros (_ & Hb & _) <-. unfold resumeEndTag. destruct (isEndTagNameState (m_state t)) eqn:E.
  - replace (isEndTagBufferingState (m_state t)) with true by (by destruct (m_state t)).
    by rewrite andb_false_r.
  - by rewrite Hb.
Qed.

Lemma resume_unbuffered (t : HTMLTokenizer) (k : HTMLToken) :
  m_bufferedEndTagName t = [] -> resumeEndTag t k = Some (false, t, k).
Proof. intros Hb. unfold resumeEndTag. by rewrite Hb. Qed.

(** The collected characters are no part of the shape. *)
Lemma shapeOk_settle (st : State) (t : HTMLTokenizer) (k : HTMLToken) :
  shapeOk st t k -> shapeOk st t (settle k).
Proof.
  intros (Hf & H). split; [| exact H]. unfold settle, isType. case_bool_decide as Hk; [| done].
  pose proof (conj Hf H : shapeOk st t k) as Hs.
  assert (kindOf st = TextKind) as ->.
  { apply (character_kind 1 (set_state st t) k); [| done]. left. exact Hs. }
  by left.
Qed.

Lemma ready_settle (cc : Z) (t : HTMLTokenizer) (k : HTMLToken) (q : Q) :
  ready T cc t k q -> ready T cc t (settle k) q.
Proof.
  intros [[Hs | Hs] Hq He Hc]; split; try done; [left | right]; [by apply shapeOk_settle | done].
Qed.

Lemma settle_character (k : HTMLToken) : m_type k = Character -> settle k = clear k.
Proof. intros H. unfold settle, isType. by rewrite H. Qed.

Lemma settle_other (k : HTMLToken) : m_type k <> Character -> settle k = k /\ text k = [].
Proof. intros H. unfold settle, text, isType. by rewrite bool_decide_eq_false_2. Qed.

Lemma ready_ok (cc : Z) (t : HTMLTokenizer) (k : HTMLToken) (q : Q) :
  ready T cc t k q -> usesInput (m_state t) = true -> shapeOk (m_state t) t k.
Proof. intros [[Hs | (Hst & _)] _ _ _] Hu; [done |]. by rewrite Hst in Hu. Qed.

Lemma ready_shows (cc : Z) (t : HTMLTokenizer) (k : HTMLToken) (q : Q) :
  ready T cc t k q -> shows (q_closed q) (q_pending q) cc.
Proof. intros [_ _ _ [_ [ss H]]]. by apply nextChar_some in H as [H _]. Qed.

Lemma reference_allowed (t : HTMLTokenizer) (k : HTMLToken) :
  shapeOk (m_state t) t k -> isReferenceState (m_state t) = true ->
  allowedCharacter (referenceAdditional t).
Proof.
  intros (_ & _ & Ha) Hr. unfold referenceAdditional.
  destruct (m_state t); try discriminate Hr; [by left | by left | right; by apply Ha].
Qed.

Lemma usesInput_cases (t : HTMLTokenizer) :
  usesInput (m_state t) = true ->
  isReferenceState (m_state t) = true \/
  m_state t = MarkupDeclarationOpenState \/ m_state t = AfterDOCTYPENameState.
Proof. destruct (m_state t); auto; discriminate. Qed.

(** The blocks that look at the input see its text, not what is pushed back. *)
Lemma block_same (t : HTMLTokenizer) (k : HTMLToken) (cc : Z) (q q' : Q) :
  shapeOk (m_state t) t k -> usesInput (m_state t) = true ->
  queueOk T t q -> queueOk T t q' -> q_isEmpty q = false -> q_isEmpty q' = false ->
  q_pending q' = q_pending q -> q_closed q' = q_closed q -> q_consumed q' = q_consumed q ->
  block foldCase T t k cc q' = block foldCase T t k cc q.
Proof.
  intros Hs Hu Hq Hq' He He' Hp Hc Hn.
  destruct (usesInput_cases t Hu) as [Hr | Hl].
  - destruct (consume_ok T HT t q Hq Hr He (reference_allowed t k Hs Hr)) as (r & n & j & E & Ec).
    destruct (consume_ok T HT t q' Hq' Hr He' (reference_allowed t k Hs Hr)) as (r' & n' & j' & E' & Ec').
    rewrite Hp, E in E'. injection E' as <- <- <-.
    assert (Hsame : consumeHTMLEntity T (referenceAdditional t) q'
      = consumeHTMLEntity T (referenceAdditional t) q).
    { rewrite Ec, Ec'. unfold afterOutcome. by rewrite Hp, Hc, Hn. }
    revert Hsame. unfold block, referenceAdditional. destruct (m_state t); try discriminate Hr; intros Hsame;
      unfold in_CharacterReferenceInDataState, in_CharacterReferenceInRCDATAState,
        in_CharacterReferenceInText, processEntity, in_CharacterReferenceInAttributeValueState;
      by rewrite Hsame.
  - assert (q' = q) as ->; [| done].
    assert (Hj : q_pushed q = 0%nat) by (apply (queue_unpushed T t); [done | by destruct Hl as [-> | ->]..]).
    assert (Hj' : q_pushed q' = 0%nat) by (apply (queue_unpushed T t); [done | by destruct Hl as [-> | ->]..]).
    destruct q, q'. simpl in *. by subst.
Qed.

(** What a block that returns for lack of input leaves. *)
Record waits (t : HTMLTokenizer) (k : HTMLToken) (cc : Z) (q : Q)
    (t1 : HTMLTokenizer) (k1 : HTMLToken) (q1 : Q) : Prop := {
  ws_tokenizer : t1 = t;
  ws_token : k1 = k;
  ws_uses : usesInput (m_state t) = true;
  ws_char : cc <> 0xFFFD;
  ws_queue : queueOk T t q1;
  ws_pending : q_pending q1 = q_pending q;
  ws_closed : q_closed q1 = q_closed q;
  ws_consumed : q_consumed q1 = q_consumed q }.

Lemma pure_waits (st : State) (t t1 : HTMLTokenizer) (k k1 : HTMLToken) (cc pos : Z) :
  blockOk cc t (pureBlock st t k cc pos) -> usesInput (m_state t) = false ->
  pureBlock st t k cc pos = Some (t1, k1, ReturnHaveBuffered) -> False.
Proof. intros ([[t2 k2] a] & E & _ & Hend) Hu E'. rewrite E' in E. injection E as <- <- <-. by destruct Hend as [_ ?]; congruence. Qed.

Lemma block_waits (cc : Z) (t t1 : HTMLTokenizer) (k k1 : HTMLToken) (q q1 : Q) :
  ready T cc t k q -> block foldCase T t k cc q = Ok (t1, k1, ReturnHaveBuffered, q1) ->
  waits t k cc q t1 k1 q1.
Proof.
  intros Hr E. destruct (usesInput (m_state t)) eqn:Hu.
  2: { rewrite block_pure in E by done.
       destruct (pureBlock (m_state t) t k cc (q_consumed q)) as [[[t2 k2] a] |] eqn:Eb; simpl in E; [| done].
       injection E as <- <- -> <-. destruct Hr as [Hs _ _ _].
       by destruct (pure_waits _ _ _ _ _ _ _ (pureBlock_ok t k cc (q_consumed q) Hu Hs) Hu Eb). }
  pose proof (ready_ok cc t k q Hr Hu) as Hs. pose proof Hr as [_ Hq He Hc].
  destruct (usesInput_cases t Hu) as [Href | Hl].
  - destruct (consume_ok T HT t q Hq Href He (reference_allowed t k Hs Href)) as (r & n & j & Er & Ec).
    pose proof (reference_outcome T HT _ _ _ Er) as Ho.
    assert (Hout : r = NotEnough /\ t1 = t /\ k1 = k /\ q1 = afterOutcome n j q).
    { revert E Ec. unfold block, referenceAdditional. destruct (m_state t); try discriminate Href;
        unfold in_CharacterReferenceInDataState, in_CharacterReferenceInRCDATAState,
          in_CharacterReferenceInText, processEntity, in_CharacterReferenceInAttributeValueState;
        intros E Ec; rewrite Ec in E; destruct r; cbn [mbind result_bind] in E;
        repeat match type of E with
        | lift ?m ≫= _ = _ => destruct m; cbn [mbind result_bind lift] in E
        | (lift ?m ≫= _) ≫= _ = _ => destruct m; cbn [mbind result_bind lift] in E
        end; cbn [negb] in E; try discriminate E; by injection E as <- <- <-. }
    destruct Hout as (-> & -> & -> & ->). simpl in Ho. destruct Ho as (-> & Hj & Hall).
    split; try done; simpl; try lia.
    + destruct (q_pending q) as [| c p] eqn:Ep; [by destruct (nonempty_pending q He (queueOk_wf T HT t q Hq)) |].
      apply Forall_cons_1 in Hall as [Hc1 _]. destruct (reference_ordinary c Hc1) as (H10 & H13 & H0).
      destruct (ready_shows cc t k q Hr) as (c' & l' & Hp' & Hcc & _). rewrite Ep in Hp'. injection Hp' as <- <-.
      rewrite (Hcc H13 H0). intros ->. by vm_compute in Hc1.
    + right; right. split; [done |]. exists (q_pending q), []. rewrite app_nil_r. split; [done |]. by exists 0%nat.
  - assert (Hj : q_pushed q = 0%nat) by (apply (queue_unpushed T t); [done | by destruct Hl as [-> | ->]..]).
    destruct q as [p j cl n]. simpl in Hj. subst j.
    assert (Hdone : cc <> 0xFFFD -> (t, k, mkQ p 0 cl n) = (t1, k1, q1) -> waits t k cc (mkQ p 0 cl n) t1 k1 q1).
    { intros Hcc [= <- <- <-]. by split. }
    revert E. unfold block. destruct Hl as [Hl | Hl]; rewrite Hl.
    + unfold in_MarkupDeclarationOpenState. cbv zeta.
      destruct (cc =? ch "-") eqn:E1; [| destruct ((cc =? ch "D") || (cc =? ch "d")) eqn:E2;
        [| destruct ((cc =? ch "[") && m_shouldAllowCDATA t) eqn:E3; [| done]]].
      all: assert (Hcc : cc <> 0xFFFD) by (rewrite ?orb_true_iff, ?andb_true_iff, ?Z.eqb_eq in *; lia).
      * destruct (lookAhead_cases foldCase dashDashString p true cl n) as [(-> & Hm & _) | [-> | [-> _]]];
          cbn [lift mbind result_bind]; [| done | intros [= <- <- <-]; by apply Hdone].
        do 3 (destruct (lift _); cbn [lift mbind result_bind]; try done).
      * destruct (lookAhead_cases foldCase doctypeString p false cl n) as [(-> & Hm & _) | [-> | [-> _]]];
          cbn [lift mbind result_bind]; [| done | intros [= <- <- <-]; by apply Hdone].
        by destruct (lift _).
      * destruct (lookAhead_cases foldCase cdataString p true cl n) as [(-> & Hm & _) | [-> | [-> _]]];
          cbn [lift mbind result_bind]; [| done | intros [= <- <- <-]; by apply Hdone].
        by destruct (lift _).
    + unfold in_AfterDOCTYPENameState. cbv zeta. destruct (isTokenizerWhitespace cc); [done |].
      destruct (cc =? ch ">"); [done |]. destruct (cc =? kEndOfFileMarker); [by destruct (lift _) |].
      destruct ((cc =? ch "P") || (cc =? ch "p")) eqn:E1; [| destruct ((cc =? ch "S") || (cc =? ch "s")) eqn:E2;
        [| by destruct (lift _)]].
      all: assert (Hcc : cc <> 0xFFFD) by (rewrite ?orb_true_iff, ?Z.eqb_eq in *; lia).
      * destruct (lookAhead_cases foldCase publicString p false cl n) as [(-> & Hm & _) | [-> | [-> _]]];
          cbn [lift mbind result_bind]; [by destruct (lift _) | by destruct (lift _) |
            intros [= <- <- <-]; by apply Hdone].
      * destruct (lookAhead_cases foldCase systemString p false cl n) as [(-> & Hm & _) | [-> | [-> _]]];
          cbn [lift mbind result_bind]; [by destruct (lift _) | by destruct (lift _) |
            intros [= <- <- <-]; by apply Hdone].
Qed.

End Wait.

(** ** The driver writes what the machine writes *)

Section Driver.
Variable foldCase : Z -> Z.
Variable T : EntityTable.
Hypothesis HT : EntityTableOk T.

Local Abbreviation Runs := (Runs foldCase T).

(** How a call of [nextToken] that returned [(b, t1, k1, q1)] goes on. *)
Definition continues (b : bool) (t1 : HTMLTokenizer) (k1 : HTMLToken) (q1 : Q)
    (J : list Item) (W : Waiting) : Prop :=
  if b then Runs (Start (notify k1 t1) (clear k1) q1) J W else J = [] /\ W = (t1, k1, q1).

Definition output (b : bool) (k1 : HTMLToken) : list Item := if b then items k1 else [].

(** The driver's result [m] is what the machine gives from [C] behind the
    characters [u]. *)
Definition follows (u : list Item) (C : Config) (m : result (Returned (S := Q))) : Prop :=
  forall b t1 k1 q1, m = Ok (b, t1, k1, q1) ->
  forall J W, continues b t1 k1 q1 J W ->
  exists I, Runs C I W /\ u ++ I = output b k1 ++ J.

Lemma items_character (k : HTMLToken) : m_type k = Character -> items k = text k.
Proof. intros H. unfold items, text, isType. by rewrite H. Qed.

Lemma notify_character (k : HTMLToken) (t : HTMLTokenizer) :
  m_type k <> StartTag -> notify k t = t.
Proof. intros H. unfold notify, isType. by rewrite bool_decide_eq_false_2. Qed.

(** The input ran out: the collected characters are returned and the next call
    finds the machine where it stopped. *)
Lemma stop_follows (C : Config) (t : HTMLTokenizer) (k : HTMLToken) (q : Q) :
  Runs C [] (t, settle k, q) ->
  (m_type k = Character -> Runs (Start t (clear k) q) [] (t, clear k, q)) ->
  follows (text k) C (Ok (haveBufferedCharacterToken k, t, k, q)).
Proof.
  intros HC Hi b t1 k1 q1 [= <- <- <- <-] J W HJ. exists [].
  unfold haveBufferedCharacterToken, isType in *. case_bool_decide as Hk.
  - unfold continues in HJ. rewrite notify_character in HJ by (rewrite Hk; done).
    destruct (runs_unique _ _ _ _ _ _ _ (Hi Hk) HJ) as [-> ->].
    rewrite settle_character in HC by done. split; [done |]. simpl. by rewrite items_character.
  - destruct HJ as [-> ->]. destruct (settle_other k Hk) as [Es ->]. by rewrite Es in HC.
Qed.

Lemma empty_again (t : HTMLTokenizer) (k : HTMLToken) (q : Q) :
  shapeOk (m_state t) t k -> q_isEmpty q = true -> Runs (Start t k q) [] (t, k, q).
Proof. intros Hs He. eapply run_start; [by apply (resume_plain (m_state t)) |]. by apply run_empty. Qed.

(** Entering a state whose token fits. *)
Lemma peek_follows (fuel : Q -> nat) (t : HTMLTokenizer) (k : HTMLToken) (q : Q) :
  (forall cc t k q q', ready T cc t k q -> numbersFit (q_pending q) = true ->
     follows (text k) (Run cc t (settle k) q) (stateLoop foldCase T (fuel q') cc t k q)) ->
  shapeOk (m_state t) t k -> queueOk T t q -> numbersFit (q_pending q) = true ->
  follows (text k) (Peek t (settle k) q)
    (if q_isEmpty q then Ok (haveBufferedCharacterToken k, t, k, q) else
     '(ok, t2, s2) ← tokenizerPeek t q;
     if ok : bool
     then stateLoop foldCase T (fuel s2) (m_nextInputCharacter (m_inputStreamPreprocessor t2)) t2 k s2
     else Ok (haveBufferedCharacterToken k, t2, k, s2)).
Proof.
  intros IH Hs Hq Hsn. pose proof (shapeOk_settle _ t k Hs) as Hs'.
  destruct (q_isEmpty q) eqn:He.
  { apply stop_follows; [by apply run_empty |]. intros Hk. rewrite <- settle_character by done.
    by apply empty_again. }
  destruct (tokenizerPeek t q) as [[[ok t2] q2] | |] eqn:Ep; cbn [mbind result_bind]; [| done | done].
  destruct ok.
  - destruct (peek_ready T HT t t2 k q q2 Hs Hq He Ep) as [Hr _].
    assert (Hrd : reads q q2).
    { pose proof (peek_step T HT t q Hq He) as Hp. destruct (nextChar _ _ _ _) as [[o sk] rest] eqn:En.
      destruct Hp as [Hp _]. rewrite Hp in Ep. destruct o as [cc |]; [| done]. injection Ep as <- <-.
      apply nextChar_some in En as [_ H]. by split. }
    intros b t1 k1 q1 E J W HJ. destruct (IH _ _ _ _ _ Hr (reads_short q q2 Hrd Hsn) b t1 k1 q1 E J W HJ)
      as (I & HI & Hout).
    exists I. split; [| done]. by eapply run_peek.
  - destruct (peek_empty T HT t t2 q q2 Hq He Ep) as (Hp2 & Hj2 & p & ->).
    apply stop_follows; [by apply run_skipped |]. intros Hk. rewrite <- settle_character by done.
    apply empty_again; [done |].
    unfold q_isEmpty. by rewrite Hp2, Hj2.
Qed.

(** Calling again without having read anything. *)
Lemma restart_runs (cc : Z) (t : HTMLTokenizer) (k : HTMLToken) (q : Q) (J : list Item) (W : Waiting) :
  ready T cc t k q -> cc <> 0xFFFD -> m_bufferedEndTagName t = [] ->
  Runs (Start t k q) J W -> Runs (Run cc t k q) J W.
Proof.
  intros Hr Hcc Hb H. pose proof (peek_again T HT cc t k q Hr Hcc) as Hp.
  destruct Hr as [_ _ He [Hn _]].
  inversion H as [? ? ? ? ? ? ? Er | ? ? ? t1 k1 ? ? Er H1 | | | | |]; subst;
    rewrite (resume_unbuffered t k Hb) in Er; [discriminate Er | injection Er as <- <-].
  inversion H1 as [| | ? ? ? ? He1 | ? ? ? ? ? ? ? He1 Ep | ? ? ? ? ? ? ? ? ? He1 Ep H2 | |]; subst.
  - congruence.
  - rewrite Hp in Ep. discriminate Ep.
  - rewrite Hp in Ep. injection Ep as <- <-. exact H2.
Qed.


(** A block and its action in front of a run. *)
Lemma step_follows (cc : Z) (t t1 : HTMLTokenizer) (k k1 : HTMLToken) (a : Action) (q q1 : Q)
    (C : Config) (E : list Item) (m : result (Returned (S := Q))) :
  ready T cc t k q -> block foldCase T t k cc q = Ok (t1, k1, a, q1) -> a <> EmitCharacters ->
  next a cc t1 (settle k1) q1 = Some (C, E) ->
  follows (text k1 ++ E) C m -> follows (text k) (Run cc t (settle k) q) m.
Proof.
  intros Hr Eb Ha En Hf b t2 k2 q2 Em J W HJ.
  destruct (block_settle foldCase T cc t t1 k k1 a q q1 (rd_shape _ _ _ _ _ Hr) Eb Ha)
    as (k' & Eb' & Ht & Hs).
  destruct (Hf b t2 k2 q2 Em J W HJ) as (I & HI & Hout).
  exists (text k' ++ E ++ I). split.
  - eapply run_block; [by apply ready_settle | exact Eb' | by rewrite <- Hs | done].
  - rewrite <- Hout, Ht, <- !app_assoc. done.
Qed.

Lemma emitted_plain (k : HTMLToken) :
  emitted k -> settle k = k /\ text k = [] /\ items k = [inr k].
Proof.
  intros [_ Hk]. destruct (settle_other k Hk) as [-> ->]. unfold items, isType.
  by rewrite bool_decide_eq_false_2.
Qed.

(** A finished token is written and the machine starts again. *)
Lemma emit_follows (t : HTMLTokenizer) (k : HTMLToken) (q : Q) :
  items k = [inr k] ->
  follows [inr k] (Start (notify k t) (clear k) q) (Ok (true, t, k, q)).
Proof.
  intros Hk b t1 k1 q1 [= <- <- <- <-] J W HJ. exists J. split; [exact HJ |]. simpl. by rewrite Hk.
Qed.

(** An end tag found while characters are collected: they are returned first, and
    the next call begins the tag. *)
Lemma flushed_follows (st : State) (t : HTMLTokenizer) (k k1 : HTMLToken) (q : Q) :
  m_type k = Character -> m_bufferedEndTagName t <> [] ->
  st = BeforeAttributeNameState \/ st = SelfClosingStartTagState \/ st = DataState ->
  beginEndTag (m_bufferedEndTagName t) (clear k) = Some k1 -> m_type k1 = EndTag ->
  follows (text k ++ (if bool_decide (st = DataState) then [inr k1] else []))
    (if bool_decide (st = DataState) then Start (clearEndTag (set_state st t)) (clear k1) q
     else Peek (clearEndTag (set_state st t)) k1 q)
    (Ok (true, set_state st t, k, q)).
Proof.
  intros Hk Hb Hst Hbe Hk1 b t2 k2 q2 [= <- <- <- <-] J W HJ. unfold continues in HJ.
  rewrite notify_character in HJ by (rewrite Hk; done).
  assert (Hre : resumeEndTag (set_state st t) (clear k)
    = Some (bool_decide (st = DataState), clearEndTag (set_state st t), k1)).
  { unfold resumeEndTag. cbn [m_state set_state m_bufferedEndTagName]. rewrite Hbe.
    replace (negb (isEmptyVector (m_bufferedEndTagName t))) with true by (by destruct (m_bufferedEndTagName t)).
    replace (isEndTagBufferingState st) with false by (by destruct Hst as [-> | [-> | ->]]). done. }
  unfold output. rewrite items_character by done.
  inversion HJ as [? ? ? t3 k3 I ? Er H1 | ? ? ? t3 k3 ? ? Er H1 | | | | |]; subst;
    rewrite Hre in Er; injection Er as Hd <- <-; rewrite Hd.
  - exists I. split; [| by rewrite <- app_assoc]. eapply run_start; [by apply resume_unbuffered | done].
  - exists J. split; [done |]. by rewrite app_nil_r.
Qed.

(** A character token is returned although nothing was read. *)
Lemma restart_follows (cc : Z) (t : HTMLTokenizer) (k : HTMLToken) (q : Q) :
  ready T cc t k q -> cc <> 0xFFFD -> m_bufferedEndTagName t = [] -> m_type k = Character ->
  follows (text k) (Run cc t (settle k) q) (Ok (true, t, k, q)).
Proof.
  intros Hr Hcc Hb Hk b t1 k1 q1 [= <- <- <- <-] J W HJ. unfold continues in HJ.
  rewrite notify_character in HJ by (by rewrite Hk). exists J.
  split; [| unfold output; by rewrite items_character].
  apply restart_runs; [by apply ready_settle | done | done |]. by rewrite settle_character.
Qed.

(** A block that waits for input returns what was collected. *)
Lemma wait_follows (cc : Z) (t t1 : HTMLTokenizer) (k k1 : HTMLToken) (q q1 : Q) :
  ready T cc t k q -> block foldCase T t k cc q = Ok (t1, k1, ReturnHaveBuffered, q1) ->
  follows (text k) (Run cc t (settle k) q) (Ok (haveBufferedCharacterToken k1, t1, k1, q1)).
Proof.
  intros Hr Eb. destruct (block_waits foldCase T HT cc t t1 k k1 q q1 Hr Eb) as [-> -> Hu Hcc Hq1 Hp1 Hc1 Hn1].
  destruct (block_settle foldCase T cc t t k k _ q q1 (rd_shape _ _ _ _ _ Hr) Eb ltac:(done))
    as (k2 & Eb2 & Ht & Hs).
  pose proof (ready_settle T cc t k q Hr) as Hr'.
  destruct (block_waits foldCase T HT cc t t (settle k) k2 q q1 Hr' Eb2) as [_ -> _ _ _ _ _ _].
  apply stop_follows; [by apply run_wait |]. intros Hk. rewrite settle_character in * by done.
  pose proof (ready_ok T cc t (clear k) q Hr' Hu) as Hshape.
  destruct (q_isEmpty q1) eqn:He1.
  { by apply empty_again. }
  assert (Hr1 : ready T cc t (clear k) q1).
  { destruct Hr' as [Hsh _ _ Hseen]. split; try done. unfold seen in *. by rewrite Hp1, Hc1. }
  eapply run_start; [by apply (resume_plain (m_state t)) |].
  eapply run_peek; [done | apply Hr1 | done | by apply (peek_again T HT cc t (clear k)) |].
  destruct Hr1 as [Hsh1 Hq1' He1' [Hn Hseen]]. rewrite Hn. apply run_wait; [by split |].
  rewrite (block_same foldCase T HT t (clear k) cc q q1); try done; by destruct Hr'.
Qed.

(** [stateLoop] writes what the machine writes. *)
Lemma loop_follows (fuel : nat) (cc : Z) (t : HTMLTokenizer) (k : HTMLToken) (q : Q) :
  ready T cc t k q -> numbersFit (q_pending q) = true ->
  follows (text k) (Run cc t (settle k) q) (stateLoop foldCase T fuel cc t k q).
Proof.
  revert cc t k q. induction fuel as [| fuel IH]; intros cc t k q Hr Hsn; [done |].
  pose proof Hr as [Hs Hq He Hseen]. pose proof (ready_shows T cc t k q Hr) as Hsh.
  destruct (block_done foldCase T HT t k cc q Hs Hq He Hsh Hsn) as (t1 & k1 & a & q1 & Eb & Hf & Hend & Hqa).
  pose proof (block_keeps foldCase T t t1 k k1 cc q q1 a Eb) as Hkeep.
  cbn [stateLoop]. rewrite Eb. cbn [mbind result_bind].
  assert (IH' : forall cc t k q (_ : Q), ready T cc t k q -> numbersFit (q_pending q) = true ->
    follows (text k) (Run cc t (settle k) q) (stateLoop foldCase T fuel cc t k q)) by auto.
  pose proof (fun C E m => step_follows cc t t1 k k1 a q q1 C E m Hr Eb) as Hstep.
  assert (Hadv : numbersFit (q_pending (q_advance q)) = true)
    by (apply (reads_short q); [apply reads_advance | done]).
  destruct a; cbn [endOk queueAfter] in *; cbv zeta.
  - (* AdvanceTo *)
    destruct Hend as [Hshape _], Hqa as (-> & Hpush).
    replace (mkQ (q_pending q) (q_pushed q) (q_closed q) (q_consumed q)) with q in * by (by destruct q).
    eapply Hstep; [done | done |]. rewrite tokenizerAdvance_eq.
    pose proof (peek_follows (fun _ => fuel) (set_state s t1) k1 (q_advance q) IH' Hshape) as Hp.
    rewrite app_nil_r. destruct (q_isEmpty (q_advance q)) eqn:Ee; cbn [mbind result_bind];
      apply Hp; try done; (destruct Hpush as [Hj | (-> & Hv & _)];
        [left; by apply advance_pushed | by apply (queueOk_advance T t)]).
  - (* SwitchTo *)
    destruct Hend as [Hshape _], Hqa as (Hrd & Hq1 & _ & _).
    eapply Hstep; [done | done |]. rewrite app_nil_r. apply (peek_follows (fun _ => fuel)); try done.
    by apply (reads_short q).
  - (* ReconsumeIn *)
    destruct Hend as [Hshape _], Hqa as [-> Hj].
    eapply Hstep; [done | done |]. rewrite app_nil_r. apply IH; [| done].
    split; [done | by left | done |]. destruct Hf as (_ & _ & _ & Hpre & _). unfold seen in *.
    cbn [m_inputStreamPreprocessor set_state]. by rewrite Hpre.
  - (* FlushAndAdvanceTo *)
    destruct Hend as (Hk1 & Hb & Hst & _), Hqa as [-> Hj].
    assert (Hsd : bool_decide (s = DataState) = false) by (by destruct Hst as [-> | ->]).
    destruct (flush_cases (set_state s t1) k1 q Hk1 Hb) as [[Hch ->] | [Hun (k2 & Hk2 & Efl)]];
      cbn [mbind result_bind].
    + destruct (beginEndTag_ok (m_bufferedEndTagName t1) (clear k1) eq_refl) as (k3 & Ebe & Hk3).
      eapply Hstep; [done | |].
      { cbn [next]. rewrite settle_character, Ebe by done. done. }
      pose proof (flushed_follows s t1 k1 k3 (q_advance q) Hch Hb ltac:(tauto) Ebe Hk3) as Hfl.
      by rewrite Hsd in Hfl.
    + rewrite Efl. cbn [mbind result_bind].
      assert (Hc1 : m_type k1 <> Character) by (by rewrite Hun).
      destruct (settle_other k1 Hc1) as [Es Et].
      assert (Hc2 : m_type k2 <> Character) by (by rewrite Hk2).
      destruct (settle_other k2 Hc2) as [Es2 Et2].
      unfold flushBufferedEndTag, isUninitialized, isType in Efl. rewrite Hun in Efl. simpl in Efl.
      destruct (beginEndTag (m_bufferedEndTagName t1) k1) as [k3 |] eqn:Ebe; [| done].
      simpl in Efl. injection Efl as ->.
      eapply Hstep; [done | |].
      { cbn [next]. rewrite Es, Ebe. done. }
      rewrite Et. pose proof (peek_follows (fun _ => fuel) (clearEndTag (set_state s t1)) k2 (q_advance q) IH') as Hp.
      rewrite Es2, Et2 in Hp. apply Hp; try done; [| left; by apply advance_pushed].
      apply shapeOk_plain; destruct Hst as [-> | ->]; try done; by right.
  - (* FlushEmitAndResumeIn *)
    destruct Hend as (Hk1 & Hb & -> & _), Hqa as [-> Hj]. unfold flushEmitAndResumeIn.
    destruct (flush_cases (set_state DataState t1) k1 q Hk1 Hb) as [[Hch ->] | [Hun (k2 & Hk2 & Efl)]];
      cbn [mbind result_bind].
    + destruct (beginEndTag_ok (m_bufferedEndTagName t1) (clear k1) eq_refl) as (k3 & Ebe & Hk3).
      eapply Hstep; [done | |].
      { cbn [next]. rewrite settle_character, Ebe by done. done. }
      apply (flushed_follows DataState t1 k1 k3 (q_advance q) Hch Hb ltac:(tauto) Ebe Hk3).
    + rewrite Efl. cbn [mbind result_bind].
      assert (Hc1 : m_type k1 <> Character) by (by rewrite Hun).
      destruct (settle_other k1 Hc1) as [Es Et].
      unfold flushBufferedEndTag, isUninitialized, isType in Efl. rewrite Hun in Efl. simpl in Efl.
      destruct (beginEndTag (m_bufferedEndTagName t1) k1) as [k3 |] eqn:Ebe; [| done].
      simpl in Efl. injection Efl as ->.
      eapply Hstep; [done | |].
      { cbn [next]. rewrite Es, Ebe. done. }
      rewrite Et. pose proof (emit_follows (clearEndTag (set_state DataState t1)) k2 (q_advance q)) as Hem.
      rewrite notify_character in Hem by (by rewrite Hk2). apply Hem.
      apply emitted_plain. unfold emitted. by rewrite Hk2.
  - (* EmitAndResumeIn *)
    destruct Hend as (Hk1 & Hb & -> & _), Hqa as [-> Hj]. unfold emitAndResumeIn.
    destruct (save_ok t1 k1 ltac:(by destruct Hk1)) as (t2 & Esave & _). rewrite Esave.
    cbn [lift mbind result_bind]. change (src_advanceAndUpdateLineNumber q) with (Some (q_advance q)).
    cbn [lift mbind result_bind]. destruct (emitted_plain k1 Hk1) as (Es & Et & Ei).
    eapply Hstep; [done | |].
    { cbn [next]. rewrite Es, Esave. done. }
    rewrite Et. by apply emit_follows.
  - (* EmitAndReconsumeIn *)
    destruct Hend as (Hk1 & Hb & -> & _), Hqa as [-> Hj]. unfold emitAndReconsumeIn.
    destruct (save_ok t1 k1 ltac:(by destruct Hk1)) as (t2 & Esave & _). rewrite Esave.
    cbn [lift mbind result_bind]. destruct (emitted_plain k1 Hk1) as (Es & Et & Ei).
    eapply Hstep; [done | |].
    { cbn [next]. rewrite Es, Esave. done. }
    rewrite Et. by apply emit_follows.
  - (* EmitEndOfFile *)
    destruct Hend as (Hb & Hrank & -> & Hkind), Hqa as [-> Hj].
    destruct (Hkeep Hrank Hkind) as [-> ->]. unfold emitEndOfFile, haveBufferedCharacterToken.
    destruct (isType (m_type k) Character) eqn:Ech.
    + apply bool_decide_eq_true_1 in Ech. apply restart_follows; done.
    + apply bool_decide_eq_false_1 in Ech. destruct (settle_other k Ech) as [Es Et].
      change (src_advanceAndUpdateLineNumber q) with (Some (q_advance q)). cbn [lift mbind result_bind].
      change (makeEndOfFile (clear k)) with (Some (set_type EndOfFile (clear k))).
      cbn [lift mbind result_bind].
      eapply Hstep; [done | done |]. rewrite Es, Et.
      apply (emit_follows (set_state DataState t) (set_type EndOfFile (clear k)) (q_advance q)). done.
  - (* EmitCharacters *)
    destruct Hend as (Hk1 & Hb & Hst), Hqa as [-> Hj].
    destruct (Hkeep ltac:(by rewrite Hst) ltac:(by rewrite Hst)) as [-> ->].
    apply restart_follows; try done. intros ->.
    rewrite block_pure in Eb by (by rewrite Hst). rewrite Hst in Eb. cbn [pureBlock] in Eb.
    unfold in_DataState in Eb. change (0xFFFD =? ch "&") with false in Eb.
    change (0xFFFD =? ch "<") with false in Eb. change (0xFFFD =? kEndOfFileMarker) with false in Eb.
    cbv iota in Eb. unfold after in Eb. by destruct (bufferCharacter 0xFFFD k).
  - (* ReturnHaveBuffered *)
    destruct Hend as [Hshape Hu], Hqa as (_ & _ & _ & -> & _).
    apply wait_follows; done.
Qed.

Lemma start_follows (t t1 : HTMLTokenizer) (k k1 : HTMLToken) (q : Q)
    (u : list Item) (m : result (Returned (S := Q))) :
  resumeEndTag t k = Some (false, t1, k1) -> follows u (Peek t1 k1 q) m -> follows u (Start t k q) m.
Proof.
  intros Er H b t2 k2 q2 E J W HJ. destruct (H b t2 k2 q2 E J W HJ) as (I & HI & Ho).
  exists I. split; [by eapply run_start | done].
Qed.

(** [nextToken] writes what the machine writes. *)
Lemma nextToken_follows (t : HTMLTokenizer) (k : HTMLToken) (q : Q) :
  idleShape t k -> queueOk T t q -> numbersFit (q_pending q) = true ->
  follows [] (Start t k q) (nextToken foldCase T t k q).
Proof.
  intros Hi Hq Hsn. unfold nextToken.
  assert (Hrest : forall t1 k1, shapeOk (m_state t1) t1 k1 -> m_type k1 <> Character ->
    queueOk T t1 q -> resumeEndTag t k = Some (false, t1, k1) ->
    follows [] (Start t k q)
      (if src_isEmpty q then Ok (haveBufferedCharacterToken k1, t1, k1, q) else
       '(ok, t2, s2) ← tokenizerPeek t1 q;
       if negb ok then Ok (haveBufferedCharacterToken k1, t2, k1, s2) else
       stateLoop foldCase T (loopFuel s2) (m_nextInputCharacter (m_inputStreamPreprocessor t2)) t2 k1 s2)).
  { intros t1 k1 Hs Hk Hq1 Er. apply (start_follows t t1 k k1); [done |].
    pose proof (peek_follows loopFuel t1 k1 q (fun cc t k q q' => loop_follows (loopFuel q') cc t k q) Hs Hq1 Hsn) as Hp.
    destruct (settle_other k1 Hk) as [Es Et]. rewrite Es, Et in Hp.
    change (src_isEmpty q) with (q_isEmpty q). destruct (q_isEmpty q); [done |].
    destruct (tokenizerPeek t1 q) as [[[[] t2] q2] | |]; done. }
  destruct (resume_cases t k Hi) as [(Er & Hs & Hk) | (k1 & Hk1 & Er & Hst & Hb & Hk)];
    rewrite Er; cbn [lift mbind result_bind]; [by apply Hrest |].
  case_bool_decide as Hd.
  - intros b t1 k2 q2 [= <- <- <- <-] J W HJ. unfold continues in HJ.
    rewrite notify_character in HJ by (by rewrite Hk1).
    inversion HJ as [? ? ? t3 k3 I ? Er3 H1 | ? ? ? t3 k3 ? ? Er3 H1 | | | | |]; subst;
      rewrite resume_unbuffered in Er3 by done; [discriminate Er3 | injection Er3 as <- <-].
    exists (inr k1 :: J). split; [by eapply run_emit |].
    unfold output, items, isType. by rewrite Hk1.
  - apply Hrest; [| by rewrite Hk1 | exact Hq | done].
    apply shapeOk_plain; cbn [m_state clearEndTag set_temporary set_appropriate set_buffered];
      destruct Hst as [E | [E | E]]; rewrite ?E; try done; by right.
Qed.

(** The scanning loop writes what the machine writes. *)
Lemma pumpLoop_runs (fuel : nat) (t t' : HTMLTokenizer) (k k' : HTMLToken) (q q' : Q)
    (tokens : list HTMLToken) :
  idleShape t k -> queueOk T t q -> numbersFit (q_pending q) = true ->
  pumpLoop foldCase T fuel t k q = Ok (tokens, t', k', q') ->
  Runs (Start t k q) (flatten tokens) (t', k', q').
Proof.
  revert t k q tokens. induction fuel as [| fuel IH]; intros t k q tokens Hi Hq Hsn E; [done |].
  destruct (nextToken_done foldCase T HT t k q Hi Hq Hsn) as (b & t1 & k1 & q1 & En & [Hr1 Hq1 Htok _ _]).
  pose proof (nextToken_follows t k q Hi Hq Hsn b t1 k1 q1 En) as Hf.
  cbn [pumpLoop] in E. rewrite En in E. cbn [mbind result_bind] in E.
  destruct b; cbn [negb] in E.
  - destruct (Htok eq_refl) as (Hun & Hi1 & Hend & _).
    assert (Hnext : exists t2, (if isType (m_type k1) StartTag
        then n ← lift (tokenName k1); Ok (updateStateFor n t1) else Ok t1) = Ok t2 /\
      t2 = notify k1 t1 /\ idleShape t2 (clear k1) /\ queueOk T t2 q1).
    { unfold notify, isType. case_bool_decide as Es.
      - destruct (Hend (or_introl Es)) as (Hst & Hb & Hj). unfold tokenName, hasName, isType. rewrite Es.
        eexists. split; [done | split; [done |]]. split; [| by left]. by apply update_idle.
      - by exists t1. }
    destruct Hnext as (t2 & E2 & -> & Hi2 & Hq2). rewrite E2 in E. cbn [mbind result_bind] in E.
    destruct (pumpLoop foldCase T fuel (notify k1 t1) (clear k1) q1) as [[[[l t3] k3] q3] | |] eqn:Ep;
      cbn [mbind result_bind] in E; [| done | done].
    injection E as <- <- <- <-.
    assert (HJ : Runs (Start (notify k1 t1) (clear k1) q1) (flatten l) (t3, k3, q3)).
    { apply IH; try done. by apply (reads_short q). }
    destruct (Hf (flatten l) (t3, k3, q3) HJ) as (I & HI & Ho). simpl in Ho. by subst I.
  - injection E as <- <- <- <-.
    destruct (Hf [] (t1, k1, q1)) as (I & HI & Ho); [by split |]. simpl in Ho. by subst I.
Qed.

End Driver.
