(* ===== verification/TokenizerChunks.v ===== *)
(** * How the input is cut into chunks does not matter

    A run of the machine that stopped for lack of input goes on, when more input
    is there, as the run over all the input would have ([runs_extend]).  With
    [pumpLoop_runs] it follows that feeding a document chunk by chunk gives the
    tokens of the whole document, up to the cuts between character tokens. *)

From S2P Require Import Prelude SegmentedString CharSource HTMLToken HTMLEntitySearch HTMLEntityParser EntityTheorems InputStreamPreprocessor HTMLTokenizer TokenizerInvariant TokenizerSafety TokenizerTheorems TokenizerMachine.

(** ** More input behind a queue *)

Section Extend.
Variable foldCase : Z -> Z.
Variable T : EntityTable.
Hypothesis HT : EntityTableOk T.
(** What comes behind, and whether it is the last. *)
Variable B : list Z.
Variable cl : bool.
Hypothesis HB : B <> [].

Local Abbreviation Runs := (Runs foldCase T).

Definition ext (q : Q) : Q := mkQ (q_pending q ++ B) (q_pushed q) cl (q_consumed q).

Definition extC (C : Config) : Config :=
  match C with
  | Start t k q => Start t k (ext q)
  | Peek t k q => Peek t k (ext q)
  | Run cc t k q => Run cc t k (ext q)
  end.

Definition inputOf (C : Config) : Q :=
  match C with Start _ _ q | Peek _ _ q | Run _ _ _ q => q end.

Lemma ext_queue (t : HTMLTokenizer) (q : Q) : queueOk T t q -> queueOk T t (ext q).
Proof.
  intros [H | [(H1 & H2 & H3 & H4) | (H1 & w & R & Hp & Hu)]].
  - by left.
  - right; left. simpl. rewrite length_app, take_app_le by done. split; [done | split; [lia | done]].
  - right; right. split; [done |]. exists w, (R ++ B). simpl. by rewrite Hp, <- app_assoc.
Qed.

Lemma ext_nonempty (t : HTMLTokenizer) (q : Q) : queueOk T t q -> q_isEmpty (ext q) = false.
Proof.
  intros Hq. destruct (queueOk_wf T HT t q Hq) as [Hw _]. apply Nat.eqb_neq. simpl.
  rewrite length_app. destruct B; [done | simpl; lia].
Qed.

Lemma ext_advance (q : Q) : q_pending q <> [] -> q_advance (ext q) = ext (q_advance q).
Proof. unfold q_advance. destruct q as [[| c p] j c1 n]; [done |]. intros _. done. Qed.

Lemma ext_from (q : Q) (rest : list Z) : q_from (ext q) (rest ++ B) = ext (q_from q rest).
Proof. unfold q_from, ext. simpl. rewrite !length_app. f_equal. lia. Qed.

Lemma ready_nonempty (cc : Z) (t : HTMLTokenizer) (k : HTMLToken) (q : Q) :
  ready T cc t k q -> q_pending q <> [].
Proof. intros [_ _ _ (_ & ss & E)] Hp. rewrite Hp in E. discriminate E. Qed.

Lemma ready_ext (cc : Z) (t : HTMLTokenizer) (k : HTMLToken) (q q' : Q) :
  ready T cc t k q -> q_closed q = false -> queueOk T t q' -> q_pending q' = q_pending q ->
  ready T cc t k (ext q').
Proof.
  intros [Hs _ _ (Hn & ss & E)] Hcl Hq' Hp. rewrite Hcl in E.
  split; [done | by apply ext_queue | by apply (ext_nonempty t) |]. split; [done |].
  exists ss. simpl. rewrite Hp, nextChar_more, E by done. done.
Qed.

(** ** Peeking *)

Lemma peek_extend (t t1 : HTMLTokenizer) (q q1 : Q) :
  queueOk T t q -> q_isEmpty q = false -> q_closed q = false ->
  tokenizerPeek t q = Ok (true, t1, q1) ->
  tokenizerPeek t (ext q) = Ok (true, t1, ext q1) /\ q_closed q1 = false.
Proof.
  intros Hq He Hcl E. pose proof (peek_step T HT t q Hq He) as Hp.
  pose proof (peek_step T HT t (ext q) (ext_queue t q Hq) (ext_nonempty t q Hq)) as Hp'.
  cbn [ext q_pending q_closed] in Hp'. rewrite nextChar_more in Hp' by done. rewrite Hcl in Hp.
  destruct (nextChar _ false _ _) as [[[cc |] sk] rest]; destruct Hp as [Hp _]; rewrite Hp in E; [| done].
  destruct Hp' as [Hp' _]. injection E as <- <-. rewrite <- ext_from. by rewrite Hp'.
Qed.

(** A peek that skipped all its input goes on in the rest. *)
Lemma peek_skipped (t t1 : HTMLTokenizer) (q q1 : Q) :
  queueOk T t q -> q_isEmpty q = false -> q_closed q = false ->
  tokenizerPeek t q = Ok (false, t1, q1) ->
  tokenizerPeek t (ext q) = tokenizerPeek t1 (ext q1).
Proof.
  intros Hq He Hcl E. destruct (peek_empty T HT t t1 q q1 Hq He E) as (Hp1 & Hj1 & p & Ht1).
  assert (Hq1 : queueOk T t1 q1) by by left.
  pose proof (peek_step T HT t q Hq He) as Hp.
  pose proof (peek_step T HT t (ext q) (ext_queue t q Hq) (ext_nonempty t q Hq)) as Hx.
  pose proof (peek_step T HT t1 (ext q1) (ext_queue t1 q1 Hq1) (ext_nonempty t1 q1 Hq1)) as Hx1.
  cbn [ext q_pending q_closed] in Hx, Hx1. rewrite nextChar_more in Hx by done.
  rewrite Hp1 in Hx1. cbn [app] in Hx1. rewrite Hcl in Hp.
  destruct (nextChar _ false _ _) as [[[cc |] sk] rest] eqn:En; destruct Hp as [Hp _]; rewrite Hp in E; [done |].
  injection E as <- <-. apply nextChar_none in En. subst rest.
  cbn [m_inputStreamPreprocessor set_preprocessor m_skipNextNewLine] in Hx1.
  assert (Hlast : List.last (q_pending q ++ B) 0 = List.last B 0).
  { destruct (exists_last HB) as (B0 & b & ->). by rewrite app_assoc, !last_last. }
  replace (shouldSkipNullCharacters (set_preprocessor _ t)) with (shouldSkipNullCharacters t) in Hx1 by done.
  destruct (nextChar _ cl sk B) as [[o sk'] rest]. destruct Hx as [-> _], Hx1 as [-> _].
  rewrite Hlast. unfold q_from, ext. simpl.
  replace (Z.of_nat (length (q_pending q ++ B)))
    with (Z.of_nat (length (q_pending q)) + Z.of_nat (length B)) by (rewrite length_app; lia).
  do 3 f_equal. lia.
Qed.

(** ** The blocks *)

Lemma startsWith_more (str p : list Z) (b : bool) :
  (length str <= length p)%nat -> startsWith foldCase (p ++ B) str b = startsWith foldCase p str b.
Proof.
  revert p. induction str as [| c str IH]; intros p Hl; [by destruct (p ++ B), p |].
  destruct p as [| d p]; simpl in Hl; [lia |]. cbn [app startsWith]. by rewrite IH by lia.
Qed.

(** A look-ahead that was decided is decided the same way with more input. *)
Lemma lookAhead_extend (str p : list Z) (b c1 : bool) (n : Z) :
  src_lookAhead foldCase str b (mkQ p 0 c1 n) = Some (NotEnoughCharacters, mkQ p 0 c1 n) \/
  exists r, r <> NotEnoughCharacters /\
    src_lookAhead foldCase str b (mkQ p 0 c1 n) = Some (r, mkQ p 0 c1 n) /\
    src_lookAhead foldCase str b (mkQ (p ++ B) 0 cl n) = Some (r, mkQ (p ++ B) 0 cl n) /\
    (length str <= length p)%nat /\ (r = DidMatch -> startsWith foldCase p str b = true).
Proof.
  simpl. unfold q_lookAhead. cbn [q_pending q_closed q_consumed].
  destruct (Nat.ltb (length p) (length str)) eqn:El; [by left | right].
  apply Nat.ltb_ge in El. replace (Nat.ltb (length (p ++ B)) (length str)) with false.
  2: { symmetry. apply Nat.ltb_ge. rewrite length_app. lia. }
  rewrite startsWith_more by done. destruct (startsWith foldCase p str b); eexists;
    (split; [| split; [done | split; [done | split; [done | done]]]]); done.
Qed.

(** What a keyword leaves, with and without more input. *)
Lemma keyword_extend (str p : list Z) (c1 : bool) (n : Z) :
  startsWith foldCase p str true = true -> exists p',
    p = str ++ p' /\
    advanceStringAndASSERT str (mkQ p 0 c1 n) = Some (mkQ p' 0 c1 (n + Z.of_nat (length str))) /\
    advanceStringAndASSERT str (mkQ (p ++ B) 0 cl n)
      = Some (ext (mkQ p' 0 c1 (n + Z.of_nat (length str)))).
Proof.
  intros Hm. destruct (startsWith_sensitive _ _ _ Hm) as [p' ->]. exists p'.
  rewrite <- app_assoc, !advanceString_ok. done.
Qed.

Lemma keywordIgnoringCase_extend (str p : list Z) (c1 : bool) (n : Z) :
  (length str <= length p)%nat -> startsWith foldCase p str false = true -> exists p',
    advanceStringAndASSERTIgnoringCase foldCase str (mkQ p 0 c1 n)
      = Some (mkQ p' 0 c1 (n + Z.of_nat (length str))) /\
    advanceStringAndASSERTIgnoringCase foldCase str (mkQ (p ++ B) 0 cl n)
      = Some (ext (mkQ p' 0 c1 (n + Z.of_nat (length str)))).
Proof.
  intros Hl Hm. exists (drop (length str) p).
  rewrite !advanceStringIgnoringCase_ok by (rewrite ?startsWith_more; done).
  by rewrite drop_app_le by done.
Qed.

(** A reference that was decided is decided the same way with more input. *)
Lemma consume_extend (t : HTMLTokenizer) (q q1 : Q) (r : CharRef) :
  queueOk T t q -> isReferenceState (m_state t) = true -> q_isEmpty q = false ->
  allowedCharacter (referenceAdditional t) ->
  consumeHTMLEntity T (referenceAdditional t) q = Ok (r, q1) -> r <> NotEnough ->
  consumeHTMLEntity T (referenceAdditional t) (ext q) = Ok (r, ext q1) /\ q_closed q1 = q_closed q.
Proof.
  intros Hq Hr He Ha E Hn.
  destruct (consume_ok T HT t q Hq Hr He Ha) as (r1 & n & j & Er & Ec).
  rewrite Ec in E. injection E as <- <-. split; [| done].
  destruct (consume_ok T HT t (ext q) (ext_queue t q Hq) Hr (ext_nonempty t q Hq) Ha)
    as (r2 & n2 & j2 & Er2 & ->).
  cbn [ext q_pending] in Er2. rewrite (reference_extend T _ _ B _ _ _ Er Hn) in Er2.
  injection Er2 as <- <- <-. unfold afterOutcome, ext. simpl.
  pose proof (reference_outcome T HT _ _ _ Er) as Ho. simpl in Ho.
  assert (n <= length (q_pending q))%nat.
  { destruct r1; [lia | | done]. destruct Ho as (-> & _). lia. }
  by rewrite drop_app_le.
Qed.

(** A block that was not left waiting does the same with more input behind; it
    leaves the input alone or goes on in another state. *)
Definition extends (q : Q) (m m' : result (HTMLTokenizer * HTMLToken * Action * Q)) : Prop :=
  forall t1 k1 a q1, m = Ok (t1, k1, a, q1) -> a <> ReturnHaveBuffered ->
  m' = Ok (t1, k1, a, ext q1) /\ q_closed q1 = q_closed q /\ (q1 = q \/ exists st, a = SwitchTo st).

Lemma extends_ok (x : HTMLTokenizer * HTMLToken * Action) (q : Q) :
  extends q (Ok (x, q)) (Ok (x, ext q)).
Proof. intros t1 k1 a q1 [= -> <-] _. auto. Qed.

Lemma extends_token (m : option HTMLToken) (q : Q)
    (f : HTMLToken -> HTMLTokenizer * HTMLToken * Action) :
  extends q (k1 ← lift m; Ok (f k1, q)) (k1 ← lift m; Ok (f k1, ext q)).
Proof. destruct m as [k2 |]; simpl; [apply extends_ok | done]. Qed.

Lemma extends_switch (t : HTMLTokenizer) (k : HTMLToken) (st : State) (q q1 : Q) :
  q_closed q1 = q_closed q ->
  extends q (Ok (t, k, SwitchTo st, q1)) (Ok (t, k, SwitchTo st, ext q1)).
Proof. intros H t1 k1 a q2 [= <- <- <- <-] _. eauto. Qed.

Lemma extends_wait (t : HTMLTokenizer) (k : HTMLToken) (q q1 : Q) m' :
  extends q (Ok (t, k, ReturnHaveBuffered, q1)) m'.
Proof. by intros t1 k1 a q2 [= _ _ <- _]. Qed.

Lemma markup_extend (t : HTMLTokenizer) (k : HTMLToken) (cc : Z) (q : Q) :
  q_pushed q = 0%nat ->
  extends q (in_MarkupDeclarationOpenState foldCase t k cc q)
    (in_MarkupDeclarationOpenState foldCase t k cc (ext q)).
Proof.
  destruct q as [p j c1 n]. simpl. intros ->. unfold in_MarkupDeclarationOpenState. cbv zeta.
  change (ext (mkQ p 0 c1 n)) with (mkQ (p ++ B) 0 cl n).
  destruct (cc =? ch "-").
  { destruct (lookAhead_extend dashDashString p true c1 n) as [-> | (r & Hr & -> & -> & Hl & Hm)];
      [apply extends_wait |]. cbn [lift mbind result_bind]. destruct r; [apply extends_ok | | done].
    destruct (keyword_extend dashDashString p c1 n (Hm eq_refl)) as (p' & -> & _).
    change ((dashDashString ++ p') ++ B) with (ch "-" :: ch "-" :: (p' ++ B)).
    change (dashDashString ++ p') with (ch "-" :: ch "-" :: p').
    rewrite !q_take. cbn [lift mbind result_bind]. rewrite !q_take. cbn [lift mbind result_bind].
    destruct (beginComment k); [by apply (extends_switch _ _ _ _ (mkQ p' 0 c1 (n + 1 + 1))) | done]. }
  destruct ((cc =? ch "D") || (cc =? ch "d")).
  { destruct (lookAhead_extend doctypeString p false c1 n) as [-> | (r & Hr & -> & -> & Hl & Hm)];
      [apply extends_wait |]. cbn [lift mbind result_bind]. destruct r; [apply extends_ok | | done].
    destruct (keywordIgnoringCase_extend doctypeString p c1 n Hl (Hm eq_refl)) as (p' & -> & ->).
    by apply extends_switch. }
  destruct ((cc =? ch "[") && m_shouldAllowCDATA t); [| apply extends_ok].
  destruct (lookAhead_extend cdataString p true c1 n) as [-> | (r & Hr & -> & -> & Hl & Hm)];
    [apply extends_wait |]. cbn [lift mbind result_bind]. destruct r; [apply extends_ok | | done].
  destruct (keyword_extend cdataString p c1 n (Hm eq_refl)) as (p' & _ & -> & ->).
  by apply extends_switch.
Qed.

Lemma doctypeName_extend (t : HTMLTokenizer) (k : HTMLToken) (cc : Z) (q : Q) :
  q_pushed q = 0%nat ->
  extends q (in_AfterDOCTYPENameState foldCase t k cc q)
    (in_AfterDOCTYPENameState foldCase t k cc (ext q)).
Proof.
  destruct q as [p j c1 n]. simpl. intros ->. unfold in_AfterDOCTYPENameState. cbv zeta.
  change (ext (mkQ p 0 c1 n)) with (mkQ (p ++ B) 0 cl n).
  pose proof (extends_token (setForceQuirks k) (mkQ p 0 c1 n)
    (fun k1 => (t, k1, AdvanceTo BogusDOCTYPEState))) as Hbogus.
  assert (Hkeyword : forall str st, extends (mkQ p 0 c1 n)
    ('(result, s1) ← lift (src_lookAhead foldCase str false (mkQ p 0 c1 n));
     match result with
     | DidMatch => s2 ← lift (advanceStringAndASSERTIgnoringCase foldCase str s1);
         Ok (t, k, SwitchTo st, s2)
     | NotEnoughCharacters => Ok (t, k, ReturnHaveBuffered, s1)
     | DidNotMatch => k1 ← lift (setForceQuirks k); Ok (t, k1, AdvanceTo BogusDOCTYPEState, s1)
     end)
    ('(result, s1) ← lift (src_lookAhead foldCase str false (mkQ (p ++ B) 0 cl n));
     match result with
     | DidMatch => s2 ← lift (advanceStringAndASSERTIgnoringCase foldCase str s1);
         Ok (t, k, SwitchTo st, s2)
     | NotEnoughCharacters => Ok (t, k, ReturnHaveBuffered, s1)
     | DidNotMatch => k1 ← lift (setForceQuirks k); Ok (t, k1, AdvanceTo BogusDOCTYPEState, s1)
     end)).
  { intros str st.
    destruct (lookAhead_extend str p false c1 n) as [-> | (r & Hr & -> & -> & Hl & Hm)];
      [apply extends_wait |]. cbn [lift mbind result_bind]. destruct r; [exact Hbogus | | done].
    destruct (keywordIgnoringCase_extend str p c1 n Hl (Hm eq_refl)) as (p' & -> & ->).
    by apply extends_switch. }
  destruct (isTokenizerWhitespace cc); [apply extends_ok |].
  destruct (cc =? ch ">"); [apply extends_ok |].
  destruct (cc =? kEndOfFileMarker).
  { apply (extends_token (setForceQuirks k) (mkQ p 0 c1 n) (fun k1 => (t, k1, EmitAndReconsumeIn DataState))). }
  destruct ((cc =? ch "P") || (cc =? ch "p")); [apply Hkeyword |].
  destruct ((cc =? ch "S") || (cc =? ch "s")); [apply Hkeyword | exact Hbogus].
Qed.

Lemma reference_block_extend (t : HTMLTokenizer) (k : HTMLToken) (cc : Z) (q : Q) :
  queueOk T t q -> isReferenceState (m_state t) = true -> q_isEmpty q = false ->
  allowedCharacter (referenceAdditional t) ->
  extends q (block foldCase T t k cc q) (block foldCase T t k cc (ext q)).
Proof.
  intros Hq Hr He Ha.
  destruct (consume_ok T HT t q Hq Hr He Ha) as (r & n & j & _ & Ec).
  pose proof (fun H => consume_extend t q _ r Hq Hr He Ha Ec H) as Hx. revert Ec Hx.
  unfold block, referenceAdditional. destruct (m_state t); try discriminate Hr; intros Ec Hx;
    unfold in_CharacterReferenceInDataState, in_CharacterReferenceInRCDATAState,
      in_CharacterReferenceInText, processEntity, in_CharacterReferenceInAttributeValueState;
    rewrite Ec; (destruct r as [d | |];
      [destruct Hx as [-> Hc]; [done |] | destruct Hx as [-> Hc]; [done |] |]);
    cbn [mbind result_bind];
    repeat match goal with
    | |- extends _ (lift ?m ≫= _) _ => destruct m; cbn [mbind result_bind lift]; try done
    | |- extends _ ((lift ?m ≫= _) ≫= _) _ => destruct m; cbn [mbind result_bind lift]; try done
    end; cbn [negb];
    first [by apply extends_switch | apply extends_wait | by intros ? ? ? ?].
Qed.

Lemma block_extend (t : HTMLTokenizer) (k : HTMLToken) (cc : Z) (q : Q) :
  ready T cc t k q -> extends q (block foldCase T t k cc q) (block foldCase T t k cc (ext q)).
Proof.
  intros Hr. destruct (usesInput (m_state t)) eqn:Hu.
  - pose proof (ready_ok T cc t k q Hr Hu) as Hs. pose proof Hr as [_ Hq He _].
    destruct (usesInput_cases t Hu) as [Href | Hl].
    + by apply reference_block_extend; [.. | apply (reference_allowed t k)].
    + assert (Hj : q_pushed q = 0%nat) by (apply (queue_unpushed T t); [done | by destruct Hl as [-> | ->]..]).
      unfold block. destruct Hl as [-> | ->]; [by apply markup_extend | by apply doctypeName_extend].
  - rewrite !block_pure by done. change (q_consumed (ext q)) with (q_consumed q).
    destruct (pureBlock (m_state t) t k cc (q_consumed q)) as [[[t2 k2] a] |]; [apply extends_ok | done].
Qed.

(** ** The machine goes on *)

Lemma next_extend (a : Action) (cc : Z) (t : HTMLTokenizer) (k : HTMLToken) (q : Q)
    (C : Config) (E : list Item) :
  q_pending q <> [] \/ (exists st, a = SwitchTo st) -> next a cc t k q = Some (C, E) ->
  next a cc t k (ext q) = Some (extC C, E) /\ q_closed (inputOf C) = q_closed q.
Proof.
  intros Hq En. assert (Hadv : q_closed (q_advance q) = q_closed q)
    by (unfold q_advance; by destruct (q_pending q)).
  destruct a; cbn [next] in *; try discriminate En;
    try (destruct Hq as [Hq | [? ?]]; [rewrite ext_advance by done | discriminate]);
    try (injection En as <- <-; done);
    match type of En with ?m ≫= _ = _ => destruct m; simpl in En; [| done] end;
    injection En as <- <-; done.
Qed.

(** Starting again in a plain state is looking at the next character. *)
Lemma start_peek (t : HTMLTokenizer) (k : HTMLToken) (q : Q) (J : list Item) (W : Waiting) :
  shapeOk (m_state t) t k -> Runs (Start t k q) J W -> Runs (Peek t k q) J W.
Proof.
  intros Hs H. pose proof (resume_plain (m_state t) t k Hs eq_refl) as Hp.
  inversion H; subst; match goal with E : resumeEndTag _ _ = _ |- _ => rewrite Hp in E; by simplify_eq end.
Qed.

Lemma peek_transfer (t t1 : HTMLTokenizer) (k : HTMLToken) (q q1 : Q) (J : list Item) (W : Waiting) :
  shapeOk (m_state t) t k -> queueOk T t q -> q_isEmpty q = false -> q_isEmpty q1 = false ->
  tokenizerPeek t q = tokenizerPeek t1 q1 -> Runs (Peek t1 k q1) J W -> Runs (Peek t k q) J W.
Proof.
  intros Hs Hq He He1 Ep H. inversion H; subst; [congruence | |].
  - eapply run_skipped; try done. congruence.
  - eapply run_peek; try done. congruence.
Qed.

Lemma wait_transfer (cc : Z) (t : HTMLTokenizer) (k : HTMLToken) (q q1 : Q) (J : list Item) (W : Waiting) :
  ready T cc t k q -> block foldCase T t k cc q = block foldCase T t k cc q1 ->
  Runs (Run cc t k q1) J W -> Runs (Run cc t k q) J W.
Proof.
  intros Hr Eb H. inversion H; subst.
  - eapply run_wait; [done |]. congruence.
  - eapply run_block; try done. congruence.
Qed.

Lemma runs_extend (C : Config) (I J : list Item) (t' : HTMLTokenizer) (k' : HTMLToken) (q' : Q) (W : Waiting) :
  Runs C I (t', k', q') -> q_closed (inputOf C) = false ->
  Runs (Start t' k' (ext q')) J W -> Runs (extC C) (I ++ J) W.
Proof.
  intros H. remember (t', k', q') as W' eqn:EW. revert EW.
  induction H as [t k q t1 k1 I W' Er H IH | t k q t1 k1 I W' Er H IH | t k q Hs He
    | t k q t1 q1 Hs Hq He Ep | t k q t1 q1 I W' Hs Hq He Ep H IH | cc t k q t1 k1 q1 Hr Eb
    | cc t k q t1 k1 a q1 C E I W' Hr Eb En H IH]; intros EW Hcl HJ; cbn [inputOf extC] in *.
  - eapply run_emit; [done |]. by apply IH.
  - eapply run_start; [done |]. by apply IH.
  - injection EW as <- <- <-. by apply start_peek.
  - injection EW as <- <- <-. destruct (peek_empty T HT t t1 q q1 Hq He Ep) as (Hp1 & Hj1 & p & Ht1).
    apply (peek_transfer t t1 k (ext q) (ext q1)); [done | by apply ext_queue | by apply (ext_nonempty t) | | by apply peek_skipped |].
    + apply (ext_nonempty t1). by left.
    + apply start_peek; [by rewrite Ht1 | done].
  - destruct (peek_extend t t1 q q1 Hq He Hcl Ep) as [Ep' Hcl1].
    eapply run_peek; [done | by apply ext_queue | by apply (ext_nonempty t) | done |]. by apply IH.
  - injection EW as <- <- <-.
    destruct (block_waits foldCase T HT cc t t1 k k1 q q1 Hr Eb) as [-> -> Hu Hcc Hq1 Hp1 Hc1 Hn1].
    pose proof (ready_ok T cc t k q Hr Hu) as Hs. pose proof Hr as [_ Hq _ _].
    pose proof (ready_ext cc t k q q Hr Hcl Hq eq_refl) as Hr0.
    pose proof (ready_ext cc t k q q1 Hr Hcl Hq1 Hp1) as Hr1.
    apply (wait_transfer cc t k (ext q) (ext q1)); [done | |].
    + apply (block_same foldCase T HT); try done; try (by apply ext_queue); try (by apply (ext_nonempty t));
        simpl; congruence.
    + apply start_peek in HJ; [| done].
      pose proof (peek_again T HT cc t k (ext q1) Hr1 Hcc) as Hpk.
      inversion HJ; subst.
      * by rewrite (ext_nonempty t) in *.
      * congruence.
      * match goal with E : tokenizerPeek _ _ = _ |- _ => rewrite Hpk in E; injection E as <- <- end.
        destruct Hr1 as [_ _ _ [Hn _]]. by rewrite Hn in *.
  - assert (Ha : a <> ReturnHaveBuffered) by (by intros ->).
    destruct (block_extend t k cc q Hr _ _ _ _ Eb Ha) as (Eb' & Hc1 & Hq1).
    destruct (next_extend a cc t1 (settle k1) q1 C E) as [En' HcC]; [| done |].
    { destruct Hq1 as [-> | ?]; [left | by right]. by apply (ready_nonempty cc t k). }
    rewrite <- !app_assoc. pose proof Hr as [_ Hq _ _].
    eapply run_block; [by apply (ready_ext cc t k q) | exact Eb' | exact En' |]. apply IH; [done | congruence | done].
Qed.

End Extend.

(** ** Feeding chunks *)

Section Feed.
Variable foldCase : Z -> Z.
Variable T : EntityTable.
Hypothesis HT : EntityTableOk T.

Lemma flatten_app (l l' : list HTMLToken) : flatten (l ++ l') = flatten l ++ flatten l'.
Proof. unfold flatten. by rewrite fmap_app, concat_app. Qed.

Lemma ext_ext (B0 B : list Z) (cl : bool) (q : Q) :
  ext B cl (mkQ (q_pending q ++ B0) (q_pushed q) (q_closed q) (q_consumed q)) = ext (B0 ++ B) cl q.
Proof. unfold ext. simpl. by rewrite app_assoc. Qed.

Lemma pump_runs (t t' : HTMLTokenizer) (k k' : HTMLToken) (q q' : Q) (tokens : list HTMLToken) :
  Ready T t k q -> numbersFit (q_pending q) = true ->
  pump foldCase T t k q = Ok (tokens, t', k', q') ->
  Runs foldCase T (Start t k q) (flatten tokens) (t', k', q').
Proof. intros [Hi Hq]. by apply pumpLoop_runs. Qed.

(** What was scanned chunk by chunk, in front of a run over the rest. *)
Lemma feed_runs (chunks : list (list Z)) (t t' : HTMLTokenizer) (k k' : HTMLToken) (q q' : Q)
    (tokens : list HTMLToken) (B : list Z) (cl : bool) (J : list Item) (W : Waiting) :
  Ready T t k q -> q_closed q = false -> numbersFit (q_pending q ++ concat chunks) = true ->
  feed foldCase T chunks t k q = Ok (tokens, t', k', q') -> B <> [] ->
  Runs foldCase T (Start t' k' (ext B cl q')) J W ->
  Runs foldCase T (Start t k (ext (concat chunks ++ B) cl q)) (flatten tokens ++ J) W.
Proof.
  intros Hr Hcl Hs E HB HJ. revert t k q tokens Hr Hcl Hs E.
  induction chunks as [| B0 chunks IH]; intros t k q tokens Hr Hcl Hs E.
  { by injection E as <- <- <- <-. }
  cbn [feed concat] in *. unfold q_append in E. rewrite Hcl in E.
  cbn [negb ASSERT mbind option_bind lift result_bind] in E. rewrite <- Hcl in E.
  rewrite app_assoc in Hs. pose proof (ready_append T t k q B0 Hr) as Hr1.
  pose proof (numbersFit_prefix _ _ Hs) as Hs1.
  set (q1 := mkQ (q_pending q ++ B0) (q_pushed q) (q_closed q) (q_consumed q)) in *.
  destruct (pump_done foldCase T t k q1 HT Hr1 Hs1) as (l1 & t1 & k1 & q2 & Ep & [[Hc2 [u Hu]] Hq2 Hi2 _ _ _]).
  rewrite Ep in E. cbn [mbind result_bind] in E.
  destruct (feed foldCase T chunks t1 k1 q2) as [[[[l2 t2] k2] q3] | |] eqn:Ef; cbn [mbind result_bind] in E; try done.
  injection E as <- <- <- <-. rewrite flatten_app, <- !app_assoc, <- ext_ext.
  assert (HB' : concat chunks ++ B <> []) by (by destruct (concat chunks), B).
  apply (runs_extend foldCase T HT (concat chunks ++ B) cl HB' (Start t k q1) (flatten l1) _ t1 k1 q2);
    [by apply pump_runs | done |].
  change (q_pending q1) with (q_pending q ++ B0) in Hu. simpl in Hc2.
  apply IH; [by split | congruence | | done].
  apply (numbersFit_suffix u). by rewrite app_assoc, <- Hu.
Qed.

(** C2: Cutting a document into chunks changes nothing but the cuts between character
    tokens: scanning chunk after chunk as they come, then the end of the file,
    gives the characters, tags, comments, DOCTYPEs and end-of-file token that
    scanning the whole document gives, in the same order, and leaves the same
    tokenizer, token and unread input.  The chunks are arbitrary: a cut may fall
    inside a tag, a character reference, a keyword or a CR LF pair, and chunks
    may be empty.  The document has no number of 2^31 or more behind a [#]
    ([numbersFit]). *)
Theorem chunks_irrelevant (o : HTMLParserOptions) (chunks : list (list Z)) :
  numbersFit (concat chunks ++ [kEndOfFileMarker]) = true ->
  exists tokens t1 k1 q1 q2 tokens' whole t k q,
    feed foldCase T chunks (newTokenizer o) newToken (mkQ [] 0 false 0) = Ok (tokens, t1, k1, q1) /\
    q_markEndOfFile q1 = Some q2 /\
    pump foldCase T t1 k1 q2 = Ok (tokens', t, k, q) /\
    pump foldCase T (newTokenizer o) newToken (mkQ (concat chunks ++ [kEndOfFileMarker]) 0 true 0)
      = Ok (whole, t, k, q) /\
    flatten (tokens ++ tokens') = flatten whole.
Proof.
  intros Hs. set (q0 := mkQ [] 0 false 0).
  assert (Hr0 : Ready T (newTokenizer o) newToken q0) by by apply ready_new.
  destruct (feed_done foldCase T chunks (newTokenizer o) newToken q0 HT)
    as (tokens & t1 & k1 & q1 & Ef & [Hi1 Hq1] & Hcl & [v Hv] & _);
    [done | done | by apply (numbersFit_prefix _ [kEndOfFileMarker]) |].
  set (q2 := ext [kEndOfFileMarker] true q1).
  assert (Hr2 : Ready T t1 k1 q2) by (split; [done | by apply ext_queue]).
  assert (Hs2 : numbersFit (q_pending q2) = true).
  { apply (numbersFit_suffix v). simpl in *. by rewrite app_assoc, <- Hv. }
  destruct (pump_done foldCase T t1 k1 q2 HT Hr2 Hs2) as (tokens' & t & k & q & Ep & _).
  set (qw := mkQ (concat chunks ++ [kEndOfFileMarker]) 0 true 0).
  assert (Hrw : Ready T (newTokenizer o) newToken qw) by by apply ready_new.
  destruct (pump_done foldCase T (newTokenizer o) newToken qw HT Hrw Hs) as (whole & tw & kw & qw' & Ew & _).
  pose proof (pump_runs _ _ _ _ _ _ _ Hr2 Hs2 Ep) as HJ.
  pose proof (feed_runs chunks _ _ _ _ _ _ tokens [kEndOfFileMarker] true _ _ Hr0 eq_refl
    (numbersFit_prefix _ [kEndOfFileMarker] Hs) Ef ltac:(done) HJ) as HR.
  rewrite <- flatten_app in HR.
  destruct (runs_unique foldCase T _ _ _ _ _ HR (pump_runs _ _ _ _ _ _ _ Hrw Hs Ew)) as [Hfl [= -> -> ->]].
  exists tokens, t1, k1, q1, q2, tokens', whole, t, k, q. split; [done | split; [| split; [done | split; [done |]]]].
  - unfold q_markEndOfFile, q_append, q_close. by rewrite Hcl.
  - by symmetry.
Qed.

End Feed.

Lemma chunks_irrelevant_witness :
  exists tokens t1 k1 q1 q2 tokens' whole t k q,
    feed asciiFold demoTable [units "a<!-"; []; units "-x-->&am"; units "p;" ++ [13]; [10]] start newToken
      (mkQ [] 0 false 0) = Ok (tokens, t1, k1, q1) /\
    q_markEndOfFile q1 = Some q2 /\
    pump asciiFold demoTable t1 k1 q2 = Ok (tokens', t, k, q) /\
    pump asciiFold demoTable start newToken (mkQ (units "a<!--x-->&amp;" ++ [13; 10; 0]) 0 true 0)
      = Ok (whole, t, k, q) /\
    flatten (tokens ++ tokens') = flatten whole.
Proof.
  apply (chunks_irrelevant asciiFold demoTable demoTable_ok defaultOptions
    [units "a<!-"; []; units "-x-->&am"; units "p;" ++ [13]; [10]] eq_refl).
Defined.

(** What the chunks of the witness give before the end of the file is marked. *)
Example chunks_ex :
  (fun x => (m_type x, m_data x)) <$>
    match feed asciiFold demoTable [units "a<!-"; []; units "-x-->&am"; units "p;" ++ [13]; [10]] start newToken
      (mkQ [] 0 false 0) with Ok (l, _, _, _) => l | _ => [] end
  = [(Character, units "a"); (Comment, units "x"); (Character, units "&" ++ [10])].
Proof. by vm_compute. Qed.
