(* ===== verification/TextCodec.v ===== *)
(** * What the text codecs share: platform/text/TextCodec.h and TextCodec.cpp,
    platform/text/TextCodecASCIIFastPath.h, wtf/text/ASCIIFastPath.h and the
    macros of icu/unicode/utf16.h

    The decoders copy ASCII text a machine word at a time where the source pointer
    is aligned.  A pointer into the input is its distance from the aligned address
    space: [endAddress] is the address behind the last byte, and the address of
    the unread bytes [source] is [endAddress - length source]. *)

From S2P Require Import Prelude HTMLEntityParser EntityTheorems.

(** A byte and a UTF-16 code unit. *)
Definition isByte (b : Z) : Prop := 0 <= b < 2 ^ 8.
Definition isUnit (c : Z) : Prop := 0 <= c < 2 ^ 16.

Inductive UnencodableHandling :=
  | QuestionMarksForUnencodables
  | EntitiesForUnencodables
  | URLEncodedEntitiesForUnencodables.

(** [%u] of snprintf: the decimal digits of an unsigned number. *)
Fixpoint decimalLoop (fuel : nat) (n : Z) (acc : list Z) : list Z :=
  match fuel with
  | O => acc
  | S fuel' =>
      let acc' := (ch "0" + n mod 10) :: acc in
      if n <? 10 then acc' else decimalLoop fuel' (n / 10) acc'
  end.

(** An [unsigned] has at most ten digits. *)
Definition decimal (n : Z) : list Z := decimalLoop 10 n [].

Definition getUnencodableReplacement (codePoint : Z) (handling : UnencodableHandling) : list Z :=
  match handling with
  | QuestionMarksForUnencodables => units "?"
  | EntitiesForUnencodables => units "&#" ++ decimal codePoint ++ units ";"
  | URLEncodedEntitiesForUnencodables => units "%26%23" ++ decimal codePoint ++ units "%3B"
  end.

Definition isASCII (c : Z) : bool := Z.land c (Z.lnot 0x7F) =? 0.

(** ** Machine words *)

Section MachineWords.
(** sizeof(MachineWord): 4 or 8 *)
Variable wordSize : Z.

Definition machineWordAlignmentMask : Z := wordSize - 1.
Definition isAlignedToMachineWord (pointer : Z) : bool :=
  Z.land pointer machineWordAlignmentMask =? 0.
Definition alignToMachineWord (pointer : Z) : Z := Z.land pointer (Z.lnot machineWordAlignmentMask).

(** The mask of [isAllASCII] has bit 7 of each of the bytes of the word. *)
Definition isAllASCII (chunk : list Z) : bool := forallb (fun b => Z.land b 0x80 =? 0) chunk.

(** *reinterpret_cast_ptr<const MachineWord*>(source): reading behind the end of the
    array is not allowed. *)
Definition readWord (source : list Z) : option (list Z) :=
  ASSERT (wordSize <=? Z.of_nat (length source));; Some (take (Z.to_nat wordSize) source).

Definition address (endAddress : Z) (source : list Z) : Z := endAddress - Z.of_nat (length source).

(** The loops [while (source < alignedEnd)] of the decoders: copies words of ASCII
    characters behind [destination]; returns true when it met a word with another
    character. *)
Fixpoint copyASCIIWords (fuel : nat) (endAddress : Z) (source destination : list Z)
  : result (bool * list Z * list Z) :=
  match fuel with
  | O => OutOfFuel
  | S fuel' =>
      if address endAddress source <? alignToMachineWord endAddress then
        chunk ← lift (readWord source);
        if negb (isAllASCII chunk) then Ok (true, source, destination)
        else copyASCIIWords fuel' endAddress (drop (Z.to_nat wordSize) source) (destination ++ chunk)
      else Ok (false, source, destination)
  end.

End MachineWords.

(** ** Surrogates *)

Definition U16_IS_LEAD (c : Z) : bool := Z.land c 0xFFFFFC00 =? 0xD800.
Definition U16_IS_TRAIL (c : Z) : bool := Z.land c 0xFFFFFC00 =? 0xDC00.
Definition U_IS_SURROGATE (c : Z) : bool := Z.land c 0xFFFFF800 =? 0xD800.
Definition U16_SURROGATE_OFFSET : Z := Z.shiftl 0xD800 10 + 0xDC00 - 0x10000.
Definition U16_GET_SUPPLEMENTARY (lead trail : Z) : Z :=
  Z.shiftl lead 10 + trail - U16_SURROGATE_OFFSET.

(** U16_NEXT: the code point at the front of a text, and the text behind it. *)
Definition U16_NEXT (characters : list Z) : option (Z * list Z) :=
  match characters with
  | [] => None
  | c :: rest =>
      if U16_IS_LEAD c then
        match rest with
        | c2 :: rest' =>
            if U16_IS_TRAIL c2 then Some (U16_GET_SUPPLEMENTARY c c2, rest') else Some (c, rest)
        | [] => Some (c, rest)
        end
      else Some (c, rest)
  end.

(** ** Lemmas *)

(** A property of all bytes, or of all code units, checked one by one. *)
Lemma below_forall (f : Z -> bool) (n : nat) (b : Z) :
  forallb (fun i => f (Z.of_nat i)) (seq 0 n) = true -> 0 <= b < Z.of_nat n -> f b = true.
Proof.
  rewrite forallb_forall. intros H Hb. specialize (H (Z.to_nat b)).
  rewrite Z2Nat.id in H by lia. apply H, in_seq. lia.
Qed.

Lemma isASCII_spec (b : Z) : isByte b -> isASCII b = (b <? 0x80).
Proof.
  intros Hb. apply eqb_prop, (below_forall (fun b => Bool.eqb (isASCII b) (b <? 0x80)) 256);
    [by vm_compute | done].
Qed.

Lemma isAllASCII_spec (l : list Z) : Forall isByte l -> isAllASCII l = forallb isASCII l.
Proof.
  intros H. unfold isAllASCII. induction H as [| b l Hb Hl IH]; simpl; [done |]. rewrite IH. f_equal.
  apply eqb_prop, (below_forall (fun b => Bool.eqb (Z.land b 0x80 =? 0) (isASCII b)) 256);
    [by vm_compute | done].
Qed.

(** The surrogate tests on code units, by the bits below the mask. *)
Lemma land_high (c k v : Z) :
  0 <= c < 2 ^ 32 -> 0 <= k <= 32 -> 0 <= v ->
  (Z.land c (2 ^ 32 - 2 ^ k) =? v * 2 ^ k) = ((v * 2 ^ k <=? c) && (c <? (v + 1) * 2 ^ k)).
Proof.
  intros Hc Hk Hv. assert (Hp : 0 < 2 ^ k) by (apply Z.pow_pos_nonneg; lia).
  assert (Hl : Z.land c (2 ^ 32 - 2 ^ k) = c / 2 ^ k * 2 ^ k).
  { rewrite <- Z.shiftr_div_pow2, <- Z.shiftl_mul_pow2 by lia. apply Z.bits_inj'. intros i Hi.
    rewrite Z.land_spec, Z.shiftl_spec by lia.
    replace (2 ^ 32 - 2 ^ k) with (Z.shiftl (Z.ones (32 - k)) k).
    2: { rewrite Z.ones_equiv, Z.shiftl_mul_pow2, <- Z.sub_1_r by lia.
         rewrite Z.mul_sub_distr_r, <- Z.pow_add_r by lia. f_equal; [f_equal; lia | lia]. }
    rewrite Z.shiftl_spec by lia. destruct (decide (i < k)).
    { rewrite !(Z.testbit_neg_r _ (i - k)) by lia. by rewrite andb_false_r. }
    rewrite Z.shiftr_spec by lia. replace (i - k + k) with i by lia.
    destruct (decide (i < 32)).
    - rewrite Z.ones_spec_low by lia. apply andb_true_r.
    - rewrite Z.ones_spec_high by lia. rewrite andb_false_r. symmetry.
      rewrite <- (Z.mod_small c (2 ^ 32)) by lia. apply Z.mod_pow2_bits_high. lia. }
  rewrite Hl. apply eq_true_iff_eq. rewrite Z.eqb_eq, andb_true_iff, Z.leb_le, Z.ltb_lt.
  rewrite Z.mul_cancel_r by lia. split.
  - intros <-. pose proof (Z.div_mod c (2 ^ k) ltac:(lia)). pose proof (Z.mod_pos_bound c (2 ^ k) Hp). lia.
  - intros [H1 H2]. symmetry. apply (Z.div_unique_pos c (2 ^ k) v (c - v * 2 ^ k)); lia.
Qed.

Lemma U16_IS_LEAD_spec (c : Z) :
  0 <= c < 2 ^ 32 -> U16_IS_LEAD c = ((0xD800 <=? c) && (c <? 0xDC00)).
Proof. intros Hc. exact (land_high c 10 0x36 Hc ltac:(lia) ltac:(lia)). Qed.

Lemma U16_IS_TRAIL_spec (c : Z) :
  0 <= c < 2 ^ 32 -> U16_IS_TRAIL c = ((0xDC00 <=? c) && (c <? 0xE000)).
Proof. intros Hc. exact (land_high c 10 0x37 Hc ltac:(lia) ltac:(lia)). Qed.

Lemma U_IS_SURROGATE_spec (c : Z) :
  0 <= c < 2 ^ 32 -> U_IS_SURROGATE c = ((0xD800 <=? c) && (c <? 0xE000)).
Proof. intros Hc. exact (land_high c 11 0x1B Hc ltac:(lia) ltac:(lia)). Qed.

(** ** Copying words of ASCII characters *)

Section WordLemmas.
Variable wordSize : Z.
Hypothesis Hword : wordSize = 4 \/ wordSize = 8.

Lemma isAligned_spec (a : Z) : isAlignedToMachineWord wordSize a = (a mod wordSize =? 0).
Proof.
  unfold isAlignedToMachineWord, machineWordAlignmentMask. destruct Hword as [-> | ->].
  - change (4 - 1) with (Z.ones 2). by rewrite Z.land_ones.
  - change (8 - 1) with (Z.ones 3). by rewrite Z.land_ones.
Qed.

Lemma alignTo_spec (a : Z) : alignToMachineWord wordSize a = a - a mod wordSize.
Proof.
  unfold alignToMachineWord, machineWordAlignmentMask.
  assert (H : forall k, 0 <= k -> Z.land a (Z.lnot (Z.ones k)) = a - a mod 2 ^ k).
  { intros k Hk. rewrite <- Z.ldiff_land, Z.ldiff_ones_r, Z.shiftr_div_pow2, Z.shiftl_mul_pow2 by lia.
    pose proof (Z.div_mod a (2 ^ k) ltac:(apply Z.pow_nonzero; lia)). lia. }
  destruct Hword as [-> | ->]; [exact (H 2 ltac:(lia)) | exact (H 3 ltac:(lia))].
Qed.

(** An aligned pointer is at the last boundary or a whole word before the end. *)
Lemma aligned_word (endAddress : Z) (source : list Z) :
  isAlignedToMachineWord wordSize (address endAddress source) = true ->
  if address endAddress source <? alignToMachineWord wordSize endAddress
  then wordSize <= Z.of_nat (length source)
  else Z.of_nat (length source) = endAddress mod wordSize.
Proof.
  rewrite isAligned_spec, alignTo_spec. unfold address. intros Ha. bool_to_prop.
  apply Z.mod_divide in Ha as [x Hx]; [| lia].
  pose proof (Z.div_mod endAddress wordSize ltac:(lia)) as Hd.
  pose proof (Z.mod_pos_bound endAddress wordSize ltac:(lia)).
  destruct (_ <? _) eqn:E; bool_to_prop; nia.
Qed.

Lemma aligned_drop (endAddress : Z) (source : list Z) :
  wordSize <= Z.of_nat (length source) ->
  isAlignedToMachineWord wordSize (address endAddress source) = true ->
  isAlignedToMachineWord wordSize (address endAddress (drop (Z.to_nat wordSize) source)) = true.
Proof.
  intros Hl. rewrite !isAligned_spec, !Z.eqb_eq. unfold address. rewrite length_drop. intros H.
  replace (endAddress - Z.of_nat (length source - Z.to_nat wordSize))
    with (endAddress - Z.of_nat (length source) + 1 * wordSize) by lia.
  by rewrite Z.mod_add by lia.
Qed.

(** The word loop moves ASCII characters and stops in front of a word with another
    character, or less than a word from the end. *)
Record wordsCopied (endAddress : Z) (stopped : bool) (source rest copied : list Z) : Prop := {
  wc_source : source = copied ++ rest;
  wc_ascii : forallb isASCII copied = true;
  wc_aligned : isAlignedToMachineWord wordSize (address endAddress rest) = true;
  wc_stopped : if stopped
    then wordSize <= Z.of_nat (length rest) /\ isAllASCII (take (Z.to_nat wordSize) rest) = false
    else Z.of_nat (length rest) = endAddress mod wordSize;
  wc_words : copied = [] \/ wordSize <= Z.of_nat (length copied) }.

Lemma copyASCIIWords_ok (fuel : nat) (endAddress : Z) (source destination : list Z) :
  (length source < fuel)%nat -> Forall isByte source ->
  isAlignedToMachineWord wordSize (address endAddress source) = true ->
  exists stopped rest copied,
    copyASCIIWords wordSize fuel endAddress source destination = Ok (stopped, rest, destination ++ copied) /\
    wordsCopied endAddress stopped source rest copied.
Proof.
  revert source destination. induction fuel as [| fuel IH]; intros source destination Hf Hb Ha; [lia |].
  cbn [copyASCIIWords]. pose proof (aligned_word endAddress source Ha) as Hw.
  destruct (_ <? _).
  2: { exists false, source, []. rewrite app_nil_r. by split; [| split; [.. | left]]. }
  unfold readWord. rewrite (proj2 (Z.leb_le _ _) Hw). cbn [ASSERT mbind option_bind lift result_bind].
  set (chunk := take (Z.to_nat wordSize) source).
  assert (Hbc : Forall isByte chunk) by by apply Forall_take.
  assert (Hsrc : source = chunk ++ drop (Z.to_nat wordSize) source) by (unfold chunk; by rewrite take_drop).
  assert (Hlc : length chunk = Z.to_nat wordSize) by (unfold chunk; rewrite length_take; lia).
  destruct (isAllASCII chunk) eqn:Eall; cbn [negb].
  2: { exists true, source, []. rewrite app_nil_r. by split; [| split; [.. | left]]. }
  destruct (IH (drop (Z.to_nat wordSize) source) (destination ++ chunk)) as (st & rest & copied & -> & [W1 W2 W3 W4 W5]).
  { rewrite length_drop. lia. }
  { by apply Forall_drop. }
  { by apply aligned_drop. }
  exists st, rest, (chunk ++ copied). rewrite <- app_assoc. split; [done |]. split; try done.
  - by rewrite <- app_assoc, <- W1.
  - rewrite forallb_app, W2, andb_true_r. by rewrite <- isAllASCII_spec.
  - right. rewrite length_app. lia.
Qed.

End WordLemmas.

(** ** Code points *)

(** [U16_NEXT] reads a text code point by code point. *)
Lemma U16_NEXT_codePoints (l : list Z) :
  Forall isUnit l ->
  match U16_NEXT l with
  | Some (c, rest) => codePoints l = c :: codePoints rest /\ (length rest < length l)%nat /\
      Forall isUnit rest /\ 0 <= c <= 0x10FFFF
  | None => l = []
  end.
Proof.
  intros H. destruct l as [| a l]; [done |]. apply Forall_cons_1 in H as [Ha Hl]. unfold isUnit in Ha.
  cbn [U16_NEXT]. rewrite U16_IS_LEAD_spec by lia.
  destruct l as [| b l]; [destruct (_ && _); simpl; repeat split; (done || lia) |].
  apply Forall_cons_1 in Hl as [Hb Hl]. unfold isUnit in Hb. rewrite U16_IS_TRAIL_spec by lia.
  assert (Hone : codePoints (a :: b :: l)
    = (if (0xD800 <=? a) && (a <? 0xDC00) && (0xDC00 <=? b) && (b <? 0xE000)
       then 0x10000 + (a - 0xD800) * 1024 + (b - 0xDC00) :: codePoints l else a :: codePoints (b :: l))) by done.
  rewrite Hone. destruct ((0xD800 <=? a) && (a <? 0xDC00)) eqn:E1; cbn [andb].
  - destruct ((0xDC00 <=? b) && (b <? 0xE000)) eqn:E2; cbn [andb].
    + unfold U16_GET_SUPPLEMENTARY, U16_SURROGATE_OFFSET. rewrite Z.shiftl_mul_pow2 by lia.
      change (Z.shiftl 0xD800 10) with (0xD800 * 1024). bool_to_prop.
      split; [f_equal; lia | split; [simpl; lia | split; [done | lia]]].
    + split; [done | split; [simpl; lia | split; [by constructor | lia]]].
  - split; [done | split; [simpl; lia | split; [by constructor | lia]]].
Qed.

(** A code unit that fits no pair is a code point by itself. *)
Lemma codePoints_plain (l : list Z) :
  Forall (fun c => U16_IS_LEAD c = false) l -> Forall isUnit l -> codePoints l = l.
Proof.
  induction l as [| a l IH]; intros H Hu; [done |].
  apply Forall_cons_1 in H as [Ha Hl]. pose proof (U16_NEXT_codePoints _ Hu) as Hn.
  apply Forall_cons_1 in Hu as [_ Hu]. cbn [U16_NEXT] in Hn. rewrite Ha in Hn.
  destruct Hn as [-> _]. by rewrite IH.
Qed.
