(* ===== verification/TextCodecUTF16.v ===== *)
(** * UTF-16: platform/text/TextCodecUTF16.h and TextCodecUTF16.cpp

    The decoder keeps the first byte of a code unit whose second byte has not come
    yet.  [utf16_chunks] says that it makes of a text cut into chunks what it
    makes of the whole. *)

From S2P Require Import Prelude HTMLEntityParser TextCodec.

Record TextCodecUTF16 := mkUTF16 {
  m_littleEndian : bool;
  m_haveBufferedByte : bool;
  m_bufferedByte : Z }.

Definition newTextCodecUTF16 (littleEndian : bool) : TextCodecUTF16 :=
  mkUTF16 littleEndian false 0.

(** A code unit of its bytes in the order of the input. *)
Definition unitOf (littleEndian : bool) (b0 b1 : Z) : Z :=
  (if littleEndian then Z.lor b0 (Z.shiftl b1 8) else Z.lor (Z.shiftl b0 8) b1) mod 2 ^ 16.

(** The two loops [for (size_t i = 0; i < numChars; ++i)]: the code units read and
    the bytes behind them. *)
Fixpoint readUnits (littleEndian : bool) (numChars : nat) (p : list Z) : option (list Z * list Z) :=
  match numChars with
  | O => Some ([], p)
  | S numChars' =>
      match p with
      | p0 :: p1 :: p' =>
          '(q, rest) ← readUnits littleEndian numChars' p';
          Some (unitOf littleEndian p0 p1 :: q, rest)
      | _ => None
      end
  end.

(** decode(bytes, length, flush, stopOnError, sawError): the last three are unused. *)
Definition decodeUTF16 (bytes : list Z) (d : TextCodecUTF16) : option (list Z * TextCodecUTF16) :=
  if bool_decide (bytes = []) then Some ([], d) else
  let numBytes := (length bytes + (if m_haveBufferedByte d then 1 else 0))%nat in
  let numChars := Nat.div numBytes 2 in
  '(q, p, haveBufferedByte, numChars) ←
    (if m_haveBufferedByte d then
       match bytes with
       | p0 :: p => Some ([unitOf (m_littleEndian d) (m_bufferedByte d) p0], p, false, (numChars - 1)%nat)
       | [] => None
       end
     else Some ([], bytes, false, numChars));
  '(q', p') ← readUnits (m_littleEndian d) numChars p;
  if Nat.odd numBytes then
    ASSERT (negb haveBufferedByte);;
    b ← head p';
    Some (q ++ q', mkUTF16 (m_littleEndian d) true b)
  else Some (q ++ q', mkUTF16 (m_littleEndian d) haveBufferedByte (m_bufferedByte d)).

(** encode: a [char] keeps the low eight bits. *)
Definition encodeUTF16 (characters : list Z) (d : TextCodecUTF16) : list Z :=
  concat ((fun c => if m_littleEndian d then [c mod 2 ^ 8; Z.shiftr c 8 mod 2 ^ 8]
                    else [Z.shiftr c 8 mod 2 ^ 8; c mod 2 ^ 8]) <$> characters).

(** Decodes chunk after chunk. *)
Fixpoint decodeChunks (chunks : list (list Z)) (d : TextCodecUTF16) : option (list Z * TextCodecUTF16) :=
  match chunks with
  | [] => Some ([], d)
  | bytes :: chunks' =>
      '(u, d1) ← decodeUTF16 bytes d;
      '(u', d2) ← decodeChunks chunks' d1;
      Some (u ++ u', d2)
  end.

(** ** The specification: bytes in pairs, and what is left *)

Fixpoint pairUp (littleEndian : bool) (l : list Z) : list Z * option Z :=
  match l with
  | b0 :: b1 :: l' => let '(u, r) := pairUp littleEndian l' in (unitOf littleEndian b0 b1 :: u, r)
  | [b] => ([], Some b)
  | [] => ([], None)
  end.

(** The byte that is waiting, in front of the input. *)
Definition waiting (d : TextCodecUTF16) : list Z :=
  if m_haveBufferedByte d then [m_bufferedByte d] else [].

Lemma readUnits_pairs (le : bool) (n : nat) (p : list Z) :
  (n = length p / 2)%nat ->
  readUnits le n p = Some ((pairUp le p).1, if Nat.odd (length p) then [List.last p 0] else []) /\
  (pairUp le p).2 = if Nat.odd (length p) then Some (List.last p 0) else None.
Proof.
  revert p. induction n as [| n IH]; intros p Hn.
  - destruct p as [| b [| b1 p]]; [done | done |]. exfalso.
    assert (H : (S (S (length p)) / 2 = S (length p / 2))%nat).
    { replace (S (S (length p))) with (length p + 1 * 2)%nat by lia. rewrite Nat.div_add by lia. lia. }
    simpl length in Hn. lia.
  - destruct p as [| b0 [| b1 p]]; [done | done |].
    assert (H : (S (S (length p)) / 2 = S (length p / 2))%nat).
    { replace (S (S (length p))) with (length p + 1 * 2)%nat by lia. rewrite Nat.div_add by lia. lia. }
    simpl length in Hn. destruct (IH p) as [E1 E2]; [lia |].
    cbn [readUnits pairUp]. rewrite E1. destruct (pairUp le p) as [u r]. simpl in E2 |- *. subst r.
    rewrite Nat.odd_succ_succ. destruct p; [done | simpl; by split].
Qed.

(** [decode] pairs up the bytes behind the waiting one. *)
Lemma decode_pairs (bytes : list Z) (d : TextCodecUTF16) :
  exists d', decodeUTF16 bytes d = Some ((pairUp (m_littleEndian d) (waiting d ++ bytes)).1, d') /\
    m_littleEndian d' = m_littleEndian d /\
    waiting d' = match (pairUp (m_littleEndian d) (waiting d ++ bytes)).2 with Some b => [b] | None => [] end.
Proof.
  unfold decodeUTF16, waiting. destruct d as [le hb bb]. cbn [m_littleEndian m_haveBufferedByte m_bufferedByte].
  case_bool_decide as Hb; [subst bytes; exists (mkUTF16 le hb bb); by destruct hb |].
  destruct hb; cbn [negb ASSERT].
  - destruct bytes as [| p0 p]; [done |]. cbn [mbind option_bind app].
    replace (length (p0 :: p) + 1)%nat with (S (S (length p))) by (simpl; lia).
    assert (H : (S (S (length p)) / 2 - 1 = length p / 2)%nat).
    { replace (S (S (length p))) with (length p + 1 * 2)%nat by lia. rewrite Nat.div_add by lia. lia. }
    rewrite H. destruct (readUnits_pairs le (length p / 2) p eq_refl) as [-> E2].
    rewrite Nat.odd_succ_succ. cbn [mbind option_bind]. cbn [pairUp].
    destruct (pairUp le p) as [u r]. simpl in E2 |- *. subst r.
    destruct (Nat.odd (length p)); simpl; eexists; (split; [reflexivity | done]).
  - rewrite Nat.add_0_r. cbn [mbind option_bind app].
    destruct (readUnits_pairs le (length bytes / 2) bytes eq_refl) as [-> E2].
    cbn [mbind option_bind]. rewrite E2.
    destruct (Nat.odd (length bytes)); simpl; eexists; (split; [reflexivity | done]).
Qed.

Lemma pairUp_app (le : bool) (l l' : list Z) :
  pairUp le (l ++ l') =
    let '(u, r) := pairUp le l in
    let '(u', r') := pairUp le (match r with Some b => [b] | None => [] end ++ l') in
    (u ++ u', r').
Proof.
  revert l'. induction l as [l IH] using (induction_ltof1 _ length). intros l'.
  destruct l as [| b0 [| b1 l]].
  - simpl. by destruct (pairUp le l').
  - simpl. by destruct (match l' with [] => _ | _ => _ end).
  - cbn [app pairUp]. rewrite (IH l) by (unfold ltof; simpl; lia).
    destruct (pairUp le l) as [u r]. by destruct (pairUp le (_ ++ l')).
Qed.

(** Chunks pair up as the whole text does. *)
Lemma chunks_pairs (chunks : list (list Z)) (d : TextCodecUTF16) :
  exists d', decodeChunks chunks d
      = Some ((pairUp (m_littleEndian d) (waiting d ++ concat chunks)).1, d') /\
    m_littleEndian d' = m_littleEndian d /\
    waiting d' = match (pairUp (m_littleEndian d) (waiting d ++ concat chunks)).2 with
                 | Some b => [b] | None => [] end.
Proof.
  revert d. induction chunks as [| bytes chunks IH]; intros d.
  { exists d. rewrite app_nil_r. unfold waiting. by destruct (m_haveBufferedByte d). }
  cbn [decodeChunks concat]. destruct (decode_pairs bytes d) as (d1 & -> & Hl1 & Hw1).
  destruct (IH d1) as (d2 & E2 & Hl2 & Hw2). cbn [mbind option_bind]. rewrite E2.
  rewrite Hl1, Hw1 in *. cbn [mbind option_bind]. exists d2.
  rewrite app_assoc, (pairUp_app _ (waiting d ++ bytes) (concat chunks)), Hw2.
  destruct (pairUp _ (waiting d ++ bytes)) as [u1 r1]. cbn [fst snd].
  destruct (pairUp _ (_ ++ concat chunks)) as [u2 r2]. done.
Qed.

(** The decoder makes of a text cut into chunks at any byte what it makes of the
    whole text, and keeps the same byte. *)
Theorem utf16_chunks (chunks : list (list Z)) (d : TextCodecUTF16) :
  exists u d1 d2, decodeChunks chunks d = Some (u, d1) /\ decodeUTF16 (concat chunks) d = Some (u, d2) /\
    m_littleEndian d1 = m_littleEndian d2 /\ waiting d1 = waiting d2.
Proof.
  destruct (chunks_pairs chunks d) as (d1 & E1 & Hl1 & Hw1).
  destruct (decode_pairs (concat chunks) d) as (d2 & E2 & Hl2 & Hw2).
  eexists _, d1, d2. split; [exact E1 | split; [exact E2 | split; congruence]].
Qed.

Lemma unitOf_bytes (le : bool) (c : Z) :
  isUnit c ->
  (if le then unitOf le (c mod 2 ^ 8) (Z.shiftr c 8 mod 2 ^ 8)
   else unitOf le (Z.shiftr c 8 mod 2 ^ 8) (c mod 2 ^ 8)) = c.
Proof.
  intros Hc. unfold isUnit in Hc. rewrite Z.shiftr_div_pow2 by lia.
  pose proof (Z.div_mod c 256 ltac:(lia)). pose proof (Z.mod_pos_bound c 256 ltac:(lia)).
  assert (Hd : 0 <= c / 2 ^ 8 < 2 ^ 8) by (split; [apply Z.div_pos | apply Z.div_lt_upper_bound]; lia).
  rewrite (Z.mod_small (c / 2 ^ 8)) by done.
  assert (Hor : Z.lor (c / 2 ^ 8 * 2 ^ 8) (c mod 2 ^ 8) = c).
  { rewrite lor_low; [| lia | by apply Z.mod_pos_bound]. change (2 ^ 8) with 256. lia. }
  unfold unitOf. rewrite !Z.shiftl_mul_pow2 by lia.
  destruct le; [rewrite Z.lor_comm |]; rewrite Hor; apply Z.mod_small; lia.
Qed.

Lemma encode_pairs (le : bool) (characters : list Z) :
  Forall isUnit characters ->
  pairUp le (encodeUTF16 characters (newTextCodecUTF16 le)) = (characters, None).
Proof.
  intros H. unfold encodeUTF16. cbn [m_littleEndian newTextCodecUTF16].
  induction H as [| c l Hc Hl IH]; [done |]. rewrite fmap_cons. cbn [concat].
  pose proof (unitOf_bytes le c Hc) as Hu. destruct le; cbn [app pairUp]; by rewrite IH, Hu.
Qed.

(** Encoding code units and decoding the bytes, cut into chunks anywhere, gives
    the code units back and leaves no byte waiting, in both byte orders. *)
Theorem utf16_roundtrip (le : bool) (characters : list Z) (chunks : list (list Z)) :
  Forall isUnit characters -> concat chunks = encodeUTF16 characters (newTextCodecUTF16 le) ->
  exists d, decodeChunks chunks (newTextCodecUTF16 le) = Some (characters, d) /\
    m_haveBufferedByte d = false.
Proof.
  intros Hu Hc. destruct (chunks_pairs chunks (newTextCodecUTF16 le)) as (d & E & _ & Hw).
  cbn [waiting m_haveBufferedByte newTextCodecUTF16 m_littleEndian app] in E, Hw.
  rewrite Hc, encode_pairs in E, Hw by done. exists d. split; [done |]. simpl in Hw.
  unfold waiting in Hw. by destruct (m_haveBufferedByte d).
Qed.

Lemma utf16_roundtrip_witness :
  exists d, decodeChunks [[0x61]; []; [0x00; 0xAC; 0x20]] (newTextCodecUTF16 true) = Some ([0x61; 0x20AC], d) /\
    m_haveBufferedByte d = false.
Proof.
  apply (utf16_roundtrip true [0x61; 0x20AC] [[0x61]; []; [0x00; 0xAC; 0x20]]); [| reflexivity].
  repeat constructor; unfold isUnit; lia.
Defined.
