(* ===== verification/TextCodecLatin1.v ===== *)
(** * windows-1252: platform/text/TextCodecLatin1.cpp

    The decoder reads every byte through a table of code units, but copies ASCII
    words directly; it starts writing 8-bit characters and goes over to 16 bits at
    the first unit above 0xFF.  [latin1_decode] says what it computes, which is
    not the table for one position of the input. *)

From S2P Require Import Prelude HTMLEntityParser EntityTheorems TextCodec.

(** [table]: the bytes 80 to 9F are the extension of windows-1252, the others
    stand for themselves. *)
Definition table (b : Z) : Z :=
  if (0x80 <=? b) && (b <=? 0x9F)
  then default 0 (windowsLatin1ExtensionArray !! Z.to_nat (b - 0x80)) else b.

Section Decode.
Variable wordSize : Z.

(** The two loops of decode (8-bit and 16-bit, [wide]): the units written behind
    [destination], and what is left when a unit needs 16 bits. *)
Fixpoint decodeLoop (wide : bool) (fuel : nat) (endAddress : Z) (source destination : list Z)
  : result (list Z * list Z) :=
  match fuel with
  | O => OutOfFuel
  | S fuel' =>
      let useLookupTable s d : result (list Z * list Z) :=
        match s with
        | [] => Failed
        | b :: rest =>
            if negb wide && (0xFF <? table b) then Ok (s, d)
            else decodeLoop wide fuel' endAddress rest (d ++ [table b])
        end in
      match source with
      | [] => Ok ([], destination)
      | b :: rest =>
          if isASCII b then
            if isAlignedToMachineWord wordSize (address endAddress source) then
              '(stopped, s1, d1) ←
                copyASCIIWords wordSize (S (length source)) endAddress source destination;
              if (stopped : bool) then useLookupTable s1 d1 else
              match s1 with
              | [] => Ok ([], d1)
              | b1 :: rest1 => decodeLoop wide fuel' endAddress rest1 (d1 ++ [b1])
              end
            else decodeLoop wide fuel' endAddress rest (destination ++ [b])
          else useLookupTable source destination
      end
  end.

Definition decodeLoop8 := decodeLoop false.
Definition decodeLoop16 := decodeLoop true.

(** decode: the array of [bytes] ends at [endAddress]. *)
Definition decodeLatin1 (endAddress : Z) (bytes : list Z) : result (list Z) :=
  if bool_decide (bytes = []) then Ok [] else
  '(source, destination) ← decodeLoop8 (S (length bytes)) endAddress bytes [];
  match source with
  | [] => Ok destination
  | b :: rest =>
      '(_, destination16) ← decodeLoop16 (S (length rest)) endAddress rest (destination ++ [table b]);
      Ok destination16
  end.

End Decode.

(** The bytes above 7F whose unit is [c]. *)
Definition findByte (c : Z) : option Z :=
  (fun i => 0x80 + Z.of_nat i) <$>
    (fst <$> list_find (fun x => x = c) windowsLatin1ExtensionArray).

(** The body of the loop of encodeComplexWindowsLatin1. *)
Definition encodeCharacter (c : Z) (handling : UnencodableHandling) : list Z :=
  let b := c mod 2 ^ 8 in
  if negb (b =? c) || (Z.land c 0xE0 =? 0x80) then
    match findByte c with
    | Some b => [b]
    | None => getUnencodableReplacement c handling
    end
  else [b].

Fixpoint encodeComplex (encodeOne : Z -> list Z) (fuel : nat) (characters : list Z) : result (list Z) :=
  match fuel with
  | O => OutOfFuel
  | S fuel' =>
      match U16_NEXT characters with
      | None => Ok []
      | Some (c, rest) => l ← encodeComplex encodeOne fuel' rest; Ok (encodeOne c ++ l)
      end
  end.

Definition encodeComplexWindowsLatin1 (characters : list Z) (handling : UnencodableHandling)
  : result (list Z) :=
  encodeComplex (fun c => encodeCharacter c handling) (S (length characters)) characters.

Definition oredUnits (characters : list Z) : Z := foldl Z.lor 0 characters.

(** encode: the fast way if every unit is ASCII. *)
Definition encodeLatin1 (characters : list Z) (handling : UnencodableHandling) : result (list Z) :=
  if Z.land (oredUnits characters) 0xFF80 =? 0 then Ok ((fun c => c mod 2 ^ 8) <$> characters)
  else encodeComplexWindowsLatin1 characters handling.

(** ** x-user-defined: platform/text/TextCodecUserDefined.cpp *)

Definition signedChar (b : Z) : Z := if b mod 2 ^ 8 <? 0x80 then b mod 2 ^ 8 else b mod 2 ^ 8 - 2 ^ 8.

Definition decodeUserDefined (bytes : list Z) : list Z :=
  (fun b => Z.land (signedChar b) 0xF7FF) <$> bytes.

Definition encodeUserDefinedCharacter (c : Z) (handling : UnencodableHandling) : list Z :=
  let signedByte := signedChar c in
  if Z.land signedByte 0xF7FF =? c then [signedByte mod 2 ^ 8]
  else getUnencodableReplacement c handling.

Definition encodeComplexUserDefined (characters : list Z) (handling : UnencodableHandling)
  : result (list Z) :=
  encodeComplex (fun c => encodeUserDefinedCharacter c handling) (S (length characters)) characters.

Definition encodeUserDefined (characters : list Z) (handling : UnencodableHandling) : result (list Z) :=
  if Z.land (oredUnits characters) 0xFF80 =? 0 then Ok ((fun c => c mod 2 ^ 8) <$> characters)
  else encodeComplexUserDefined characters handling.

(** ** What the decoder computes *)

Section DecodeSpec.
Variable wordSize : Z.
Hypothesis Hword : wordSize = 4 \/ wordSize = 8.
Variable endAddress : Z.

Definition lastWord (before : list Z) : list Z :=
  drop (length before - Z.to_nat wordSize) before.

(** The position right behind the last aligned word of the input, if that word is
    there and holds only ASCII characters. *)
Definition behindWords (before source : list Z) : bool :=
  (Z.of_nat (length source) =? endAddress mod wordSize) &&
  (wordSize <=? Z.of_nat (length before)) && forallb isASCII (lastWord before).

Fixpoint latin1 (before source : list Z) : list Z :=
  match source with
  | [] => []
  | b :: rest =>
      (if behindWords before source then b else table b) :: latin1 (before ++ [b]) rest
  end.

(** How many bytes of the word that holds the last byte before [source] are before
    [source]. *)
Definition inWord (source : list Z) : Z :=
  (endAddress - Z.of_nat (length source) - 1) mod wordSize + 1.

(** The main loop never stands inside or right behind a word of the input that holds
    only ASCII characters. *)
Definition notInASCII (before source : list Z) : Prop :=
  let r := inWord source in
  r <= Z.of_nat (length before) -> wordSize - r <= Z.of_nat (length source) ->
  forallb isASCII (drop (length before - Z.to_nat r) before) = true ->
  forallb isASCII (take (Z.to_nat (wordSize - r)) source) = true -> False.

Lemma table_ascii (b : Z) : isByte b -> isASCII b = true -> table b = b.
Proof.
  intros Hb. rewrite isASCII_spec by done. intros H. unfold table. bool_to_prop.
  by rewrite (proj2 (Z.leb_gt _ _)) by lia.
Qed.

Lemma inWord_step (b : Z) (rest : list Z) :
  inWord (b :: rest) < wordSize -> inWord rest = inWord (b :: rest) + 1.
Proof.
  unfold inWord. simpl length. intros H. set (x := endAddress - Z.of_nat (S (length rest)) - 1) in *.
  replace (endAddress - Z.of_nat (length rest) - 1) with (x + 1) by lia.
  pose proof (Z.mod_pos_bound x wordSize ltac:(lia)). pose proof (Z.div_mod x wordSize ltac:(lia)).
  f_equal. symmetry. apply (Z.mod_unique_pos _ _ (x / wordSize)); lia.
Qed.

Lemma inWord_range (source : list Z) : 1 <= inWord source <= wordSize.
Proof.
  unfold inWord. pose proof (Z.mod_pos_bound (endAddress - Z.of_nat (length source) - 1) wordSize ltac:(lia)). lia.
Qed.

Lemma inWord_aligned (source : list Z) :
  isAlignedToMachineWord wordSize (address endAddress source) = true <-> inWord source = wordSize.
Proof.
  rewrite (isAligned_spec _ Hword), Z.eqb_eq. unfold address, inWord.
  set (a := endAddress - Z.of_nat (length source)). pose proof (Z.div_mod a wordSize ltac:(lia)).
  pose proof (Z.mod_pos_bound a wordSize ltac:(lia)).
  pose proof (Z.mod_pos_bound (a - 1) wordSize ltac:(lia)). pose proof (Z.div_mod (a - 1) wordSize ltac:(lia)).
  split; intros E.
  - assert ((a - 1) mod wordSize = wordSize - 1); [| lia].
    symmetry. apply (Z.mod_unique_pos _ _ (a / wordSize - 1)); lia.
  - symmetry. apply (Z.mod_unique_pos _ _ ((a - 1) / wordSize + 1)); lia.
Qed.

(** ** Steps of the main loop *)

Lemma notInASCII_other (before rest : list Z) (b : Z) :
  isASCII b = false -> notInASCII (before ++ [b]) rest.
Proof.
  intros Hb. unfold notInASCII. pose proof (inWord_range rest) as Hr. intros _ _ H _.
  rewrite forallb_forall in H. rewrite (H b) in Hb; [done |].
  rewrite length_app. simpl. rewrite drop_app_le by lia. apply in_app_iff. right. by left.
Qed.

Lemma notInASCII_inside (before rest : list Z) (b : Z) :
  inWord (b :: rest) < wordSize -> notInASCII before (b :: rest) -> notInASCII (before ++ [b]) rest.
Proof.
  intros Hin H. unfold notInASCII in *. pose proof (inWord_range (b :: rest)) as Hr.
  rewrite (inWord_step b) by done. rewrite length_app. cbn [length] in *. set (r := inWord (b :: rest)) in *.
  intros H1 H2 H3 H4. apply H; [lia | lia | |].
  - replace (length before + 1 - Z.to_nat (r + 1))%nat with (length before - Z.to_nat r)%nat in H3 by lia.
    rewrite drop_app_le in H3 by lia. rewrite forallb_app in H3. by apply andb_true_iff in H3 as [H3 _].
  - replace (length before + 1 - Z.to_nat (r + 1))%nat with (length before - Z.to_nat r)%nat in H3 by lia.
    rewrite drop_app_le, forallb_app in H3 by lia. apply andb_true_iff in H3 as [_ H3].
    replace (Z.to_nat (wordSize - r)) with (S (Z.to_nat (wordSize - (r + 1)))) by lia.
    simpl in H3 |- *. rewrite H4. by rewrite andb_true_r in H3 |- *.
Qed.

Lemma notInASCII_word (before rest : list Z) (b : Z) :
  inWord (b :: rest) = wordSize ->
  (wordSize <= Z.of_nat (length (b :: rest)) ->
   forallb isASCII (take (Z.to_nat wordSize) (b :: rest)) = false) ->
  notInASCII (before ++ [b]) rest.
Proof.
  intros Hin Hw. assert (inWord rest = 1) as Hr1.
  { unfold inWord in *. cbn [length] in Hin.
    set (x := endAddress - Z.of_nat (S (length rest)) - 1) in *.
    replace (endAddress - Z.of_nat (length rest) - 1) with (x + 1) by lia.
    pose proof (Z.div_mod x wordSize ltac:(lia)).
    assert ((x + 1) mod wordSize = 0); [| lia].
    symmetry. apply (Z.mod_unique_pos _ _ (x / wordSize + 1)); lia. }
  unfold notInASCII. rewrite Hr1, length_app. cbn [length].
  intros _ H2 H3 H4.
  replace (length before + 1 - Z.to_nat 1)%nat with (length before) in H3 by lia.
  rewrite drop_app_length in H3. simpl in H3. rewrite andb_true_r in H3.
  assert (Hfalse : forallb isASCII (take (Z.to_nat wordSize) (b :: rest)) = false) by (apply Hw; simpl; lia).
  replace (Z.to_nat wordSize) with (S (Z.to_nat (wordSize - 1))) in Hfalse by lia.
  simpl in Hfalse. by rewrite H3, H4 in Hfalse.
Qed.

Lemma notInASCII_table (before source : list Z) :
  notInASCII before source -> behindWords before source = false.
Proof.
  intros H. destruct (behindWords before source) eqn:E; [exfalso | done].
  unfold behindWords in E. bool_to_prop. rename select (forallb _ _ = true) into Hall.
  assert (Hin : inWord source = wordSize).
  { apply inWord_aligned. rewrite (isAligned_spec _ Hword). unfold address. apply Z.eqb_eq.
    pose proof (Z.div_mod endAddress wordSize ltac:(lia)).
    symmetry. apply (Z.mod_unique_pos _ _ (endAddress / wordSize)); lia. }
  apply H; rewrite Hin; [lia | lia | done |]. by rewrite Z.sub_diag.
Qed.

Lemma latin1_ascii (before copied rest : list Z) :
  Forall isByte copied -> forallb isASCII copied = true ->
  latin1 before (copied ++ rest) = copied ++ latin1 (before ++ copied) rest.
Proof.
  revert before. induction copied as [| b l IH]; intros before Hb Ha; [by rewrite app_nil_r |].
  apply Forall_cons_1 in Hb as [Hb Hl]. simpl in Ha. apply andb_true_iff in Ha as [Ha Hal].
  cbn [app latin1]. rewrite table_ascii by done. rewrite IH by done.
  replace (if behindWords _ _ then b else b) with b by (by destruct (behindWords _ _)).
  by rewrite <- app_assoc.
Qed.

(** What a loop leaves: nothing, or in the 8-bit loop a byte whose unit needs 16
    bits. *)
Definition loopLeaves (wide : bool) (before source destination : list Z) (m : result (list Z * list Z)) : Prop :=
  exists done s u, m = Ok (s, destination ++ u) /\ source = done ++ s /\
    latin1 before source = u ++ latin1 (before ++ done) s /\
    (s = [] \/ wide = false /\ exists b rest, s = b :: rest /\ 0xFF < table b /\
       behindWords (before ++ done) s = false).

Lemma leaves_step (wide : bool) (before done s destination u : list Z) (m : result (list Z * list Z)) :
  loopLeaves wide (before ++ done) s (destination ++ u) m ->
  latin1 before (done ++ s) = u ++ latin1 (before ++ done) s ->
  loopLeaves wide before (done ++ s) destination m.
Proof.
  intros (d & s' & u' & -> & -> & Hl & Hs) Hu. exists (done ++ d), s', (u ++ u').
  rewrite <- !app_assoc. split; [done | split; [done | split]].
  - rewrite Hu, Hl. by rewrite <- !app_assoc.
  - by rewrite app_assoc.
Qed.

Lemma decodeLoop_ok (wide : bool) (fuel : nat) (before source destination : list Z) :
  (length source < fuel)%nat -> Forall isByte source -> notInASCII before source ->
  loopLeaves wide before source destination (decodeLoop wordSize wide fuel endAddress source destination).
Proof.
  revert before source destination. induction fuel as [| fuel IH]; intros before source destination Hf Hb Hn; [lia |].
  cbn [decodeLoop]. destruct source as [| b rest].
  { exists [], [], []. rewrite !app_nil_r. by eauto. }
  apply Forall_cons_1 in Hb as [Hbb Hbr]. cbn [length] in Hf.
  assert (Hone : forall b rest before destination, (length rest < fuel)%nat -> Forall isByte rest ->
    notInASCII (before ++ [b]) rest -> forall v, (if behindWords before (b :: rest) then b else table b) = v ->
    loopLeaves wide before (b :: rest) destination
      (decodeLoop wordSize wide fuel endAddress rest (destination ++ [v]))).
  { intros b' rest' before' dest' Hf' Hb' Hn' v Hv. apply (leaves_step wide before' [b'] rest' dest' [v]).
    - by apply IH.
    - cbn [app latin1]. by rewrite Hv. }
  (* a byte read through the table *)
  assert (Hlook : forall b rest before destination, (length rest < fuel)%nat -> Forall isByte rest ->
    notInASCII (before ++ [b]) rest -> (if behindWords before (b :: rest) then b else table b) = table b ->
    (0xFF < table b -> behindWords before (b :: rest) = false) ->
    loopLeaves wide before (b :: rest) destination
      (if negb wide && (0xFF <? table b) then Ok (b :: rest, destination)
       else decodeLoop wordSize wide fuel endAddress rest (destination ++ [table b]))).
  { intros b' rest' before' dest' Hf' Hb' Hn' Hv Hw. destruct (negb wide && (0xFF <? table b')) eqn:Eup.
    - bool_to_prop. exists [], (b' :: rest'), []. rewrite !app_nil_r.
      split; [done | split; [done | split; [done | right]]]. split; [done |]. by eauto 10.
    - by apply Hone. }
  destruct (isASCII b) eqn:Ea.
  2: { apply Hlook; [lia | done | by apply notInASCII_other | by rewrite notInASCII_table | by rewrite notInASCII_table]. }
  destruct (isAlignedToMachineWord _ _) eqn:Eal.
  2: { apply Hone; [lia | done | | rewrite table_ascii by done; by destruct (behindWords _ _)].
       apply notInASCII_inside; [| done]. pose proof (inWord_range (b :: rest)).
       destruct (decide (inWord (b :: rest) = wordSize)) as [E |]; [| lia].
       apply inWord_aligned in E. congruence. }
  destruct (copyASCIIWords_ok wordSize Hword (S (length (b :: rest))) endAddress (b :: rest) destination)
    as (st & s1 & copied & -> & [Hsrc Hasc Hal Hstop Hwords]); [lia | by constructor | done |].
  cbn [mbind result_bind].
  assert (Hbytes : Forall isByte (copied ++ s1)) by (rewrite <- Hsrc; by constructor).
  apply Forall_app in Hbytes as [Hbc Hbs].
  assert (Hlen : (length s1 <= length (b :: rest))%nat) by (rewrite Hsrc, length_app; lia).
  rewrite Hsrc. apply (leaves_step wide before copied s1 destination copied);
    [| by apply latin1_ascii].
  apply inWord_aligned in Hal. cbn [length] in Hlen.
  destruct st.
  - destruct Hstop as [Hl Hall]. rewrite isAllASCII_spec in Hall by by apply Forall_take.
    destruct s1 as [| b1 rest1]; [cbn [length] in Hl; lia |].
    apply Forall_cons_1 in Hbs as [Hb1 Hbs].
    assert (Hnot : behindWords (before ++ copied) (b1 :: rest1) = false).
    { unfold behindWords. apply andb_false_iff. left. apply andb_false_iff. left. apply Z.eqb_neq.
      pose proof (Z.mod_pos_bound endAddress wordSize ltac:(lia)). lia. }
    apply Hlook; [simpl in Hlen; lia | done | by apply notInASCII_word | by rewrite Hnot | done].
  - destruct s1 as [| b1 rest1].
    { exists [], [], []. rewrite !app_nil_r. by eauto. }
    apply Forall_cons_1 in Hbs as [Hb1 Hbs].
    pose proof (Z.mod_pos_bound endAddress wordSize ltac:(lia)) as Hm.
    apply Hone; [simpl in Hlen; lia | done | apply notInASCII_word; [done | lia] |].
    destruct Hwords as [-> | Hw].
    { simpl in Hsrc. injection Hsrc as <- <-. rewrite table_ascii by done. by destruct (behindWords _ _). }
    replace (behindWords _ _) with true; [done |]. symmetry. unfold behindWords, lastWord.
    rewrite !andb_true_iff, Z.eqb_eq, Z.leb_le, length_app.
    split; [split; [done | lia] |]. rewrite drop_app_ge by lia.
    rewrite <- (take_drop (length before + length copied - Z.to_nat wordSize - length before) copied),
      forallb_app in Hasc. by apply andb_true_iff in Hasc as [_ Hasc].
Qed.

Lemma latin1_lookup (before source : list Z) (i : nat) (b : Z) :
  source !! i = Some b ->
  latin1 before source !! i
  = Some (if behindWords (before ++ take i source) (drop i source) then b else table b).
Proof.
  revert before i. induction source as [| a l IH]; intros before i H; [done |].
  destruct i as [| i]; simpl in H |- *.
  - injection H as ->. by rewrite app_nil_r.
  - rewrite (IH (before ++ [a]) i H). by rewrite <- app_assoc.
Qed.

Lemma latin1_length (before source : list Z) : length (latin1 before source) = length source.
Proof. revert before. induction source; intros before; simpl; by f_equal. Qed.

Lemma decodeLatin1_ok (bytes : list Z) :
  Forall isByte bytes ->
  decodeLatin1 wordSize endAddress bytes = Ok (latin1 [] bytes).
Proof.
  intros Hb. unfold decodeLatin1. case_bool_decide as He; [by subst |].
  assert (Hn : notInASCII [] bytes).
  { unfold notInASCII. pose proof (inWord_range bytes). simpl. lia. }
  destruct (decodeLoop_ok false (S (length bytes)) [] bytes [] ltac:(lia) Hb Hn)
    as (done & s & u & E & Hsrc & Hl & Hs).
  unfold decodeLoop8. rewrite E. cbn [mbind result_bind app].
  destruct Hs as [-> | (_ & b & rest & -> & Ht & Hbw)].
  { rewrite Hl. simpl. by rewrite app_nil_r. }
  rewrite Hsrc in Hb. apply Forall_app in Hb as [_ Hb]. apply Forall_cons_1 in Hb as [Hbb Hbr].
  assert (Hna : isASCII b = false).
  { destruct (isASCII b) eqn:Ea; [exfalso | done]. rewrite table_ascii in Ht by done. unfold isByte in Hbb. lia. }
  destruct (decodeLoop_ok true (S (length rest)) (done ++ [b]) rest (u ++ [table b]) ltac:(lia) Hbr)
    as (done2 & s2 & u2 & E2 & Hsrc2 & Hl2 & Hs2); [by apply notInASCII_other |].
  unfold decodeLoop16. rewrite E2. cbn [mbind result_bind].
  destruct Hs2 as [-> | [? _]]; [| done].
  rewrite Hl. cbn [app latin1] in Hbw |- *. rewrite Hbw, Hl2. simpl. rewrite app_nil_r. by rewrite <- app_assoc.
Qed.

(** The windows-1252 decoder never fails and writes one code unit for every byte,
    whatever the alignment of the input and wherever it goes over to 16 bits: the
    unit of the table, except for a byte right behind the last machine word of the
    input when that word is all ASCII, which is taken as it is. *)
Theorem latin1_decode (bytes : list Z) :
  Forall isByte bytes ->
  exists u, decodeLatin1 wordSize endAddress bytes = Ok u /\ length u = length bytes /\
    forall i b, bytes !! i = Some b ->
      u !! i = Some (if behindWords (take i bytes) (drop i bytes) then b else table b).
Proof.
  intros Hb. exists (latin1 [] bytes). split; [by apply decodeLatin1_ok |].
  split; [apply latin1_length |]. intros i b H. by rewrite (latin1_lookup [] bytes i b H).
Qed.

End DecodeSpec.

(** The exception: a euro sign behind eight ASCII characters is decoded as U+0080. *)
Example latin1_euro_lost :
  decodeLatin1 8 (0x1000 + 9) (units "12345678" ++ [0x80]) = Ok (units "12345678" ++ [0x80]) /\
  decodeLatin1 8 (0x1000 + 10) (units "12345678" ++ [0x80]) = Ok (units "12345678" ++ [0x20AC]).
Proof. split; vm_compute; reflexivity. Qed.

Lemma latin1_decode_witness :
  exists u, decodeLatin1 8 0x1003 [0x41; 0x93; 0xE9] = Ok u /\ length u = 3%nat /\
    u !! 1%nat = Some 0x201C.
Proof.
  destruct (latin1_decode 8 (or_intror eq_refl) 0x1003 [0x41; 0x93; 0xE9]) as (u & E & Hl & Hu).
  - repeat constructor; unfold isByte; lia.
  - exists u. split; [exact E | split; [exact Hl |]]. exact (Hu 1%nat 0x93 eq_refl).
Defined.

(** ** Encoding *)

Lemma encodeComplex_ok (encodeOne : Z -> list Z) (fuel : nat) (l : list Z) :
  (length l < fuel)%nat -> Forall isUnit l ->
  encodeComplex encodeOne fuel l = Ok (concat (encodeOne <$> codePoints l)).
Proof.
  revert l. induction fuel as [| fuel IH]; intros l Hf Hu; [lia |]. cbn [encodeComplex].
  pose proof (U16_NEXT_codePoints l Hu) as Hn. destruct (U16_NEXT l) as [[c rest] |]; [| by subst].
  destruct Hn as (-> & Hlen & Hrest & _). rewrite IH by (done || lia). done.
Qed.

(** The fast way is taken for ASCII texts only. *)
Lemma ored_ascii (l : list Z) :
  Forall isUnit l -> Z.land (oredUnits l) 0xFF80 = 0 -> Forall (fun c => 0 <= c < 0x80) l.
Proof.
  unfold oredUnits. intros Hu H.
  assert (Hall : forall x, Z.land (foldl Z.lor x l) 0xFF80 = 0 ->
    Z.land x 0xFF80 = 0 /\ Forall (fun c => Z.land c 0xFF80 = 0) l).
  { clear H Hu. induction l as [| c l IH]; intros x H; simpl in H; [by split |].
    apply IH in H as [H Hl]. rewrite Z.land_lor_distr_l in H.
    apply Z.lor_eq_0_iff in H as [H1 H2]. split; [done | by constructor]. }
  apply Hall in H as [_ H]. apply list.Forall_forall. intros c Hc.
  rewrite list.Forall_forall in Hu, H. specialize (Hu c Hc). specialize (H c Hc).
  unfold isUnit in Hu. destruct (decide (c < 0x80)); [lia | exfalso].
  pose proof (land_high c 7) as Hh. specialize (Hh 0 ltac:(lia) ltac:(lia) ltac:(lia)).
  assert (E : Z.land c (2 ^ 32 - 2 ^ 7) = Z.land c 0xFF80).
  { rewrite <- (Z.mod_small c (2 ^ 16)) at 1 2 by lia.
    rewrite <- !Z.land_ones, <- !Z.land_assoc by lia. done. }
  rewrite E, H in Hh. symmetry in Hh. simpl in Hh. bool_to_prop. lia.
Qed.

Lemma ascii_codePoints (l : list Z) : Forall (fun c => 0 <= c < 0x80) l -> codePoints l = l.
Proof.
  intros H. apply codePoints_plain; (eapply list.Forall_impl; [exact H |]); simpl; intros c Hc.
  - rewrite U16_IS_LEAD_spec by lia. apply andb_false_iff. left. apply Z.leb_gt. lia.
  - unfold isUnit. lia.
Qed.

Section EncodeSpec.
Variable encodeOne : Z -> list Z.
Hypothesis Hascii : forall c, 0 <= c < 0x80 -> encodeOne c = [c].

(** Both ways of encoding a text. *)
Lemma encode_codePoints (l : list Z) :
  Forall isUnit l ->
  (if Z.land (oredUnits l) 0xFF80 =? 0 then Ok ((fun c => c mod 2 ^ 8) <$> l)
   else encodeComplex encodeOne (S (length l)) l) = Ok (concat (encodeOne <$> codePoints l)).
Proof.
  intros Hu. destruct (_ =? 0) eqn:E; [| apply encodeComplex_ok; [lia | done]].
  apply Z.eqb_eq in E. pose proof (ored_ascii l Hu E) as Ha. rewrite ascii_codePoints by done. f_equal.
  clear Hu E. induction Ha as [| c l Hc Hl IH]; [done |]. rewrite !fmap_cons. cbn [concat].
  rewrite Hascii, IH by done. rewrite Z.mod_small by lia. done.
Qed.

(** A table of units of which none is a lead surrogate and that [encodeOne] inverts. *)
Lemma encode_table (f : Z -> Z) (bytes : list Z) :
  (forall b, isByte b -> isUnit (f b) /\ U16_IS_LEAD (f b) = false /\ encodeOne (f b) = [b]) ->
  Forall isByte bytes -> concat (encodeOne <$> codePoints (f <$> bytes)) = bytes.
Proof.
  intros Hf Hb. rewrite codePoints_plain.
  - induction Hb as [| b l Hb Hl IH]; [done |]. rewrite !fmap_cons. cbn [concat].
    destruct (Hf b Hb) as (_ & _ & ->). by rewrite IH.
  - apply Forall_fmap. eapply list.Forall_impl; [exact Hb |]. intros b H. by apply Hf.
  - apply Forall_fmap. eapply list.Forall_impl; [exact Hb |]. intros b H. by apply Hf.
Qed.
End EncodeSpec.

Lemma bytes_all (P : Z -> bool) :
  forallb (fun i => P (Z.of_nat i)) (seq 0 256) = true -> forall b, isByte b -> P b = true.
Proof. intros H b Hb. apply (below_forall P 256); [done | exact Hb]. Qed.

Definition invertsByte (encodeOne : Z -> list Z) (f : Z -> Z) (b : Z) : bool :=
  (0 <=? f b) && (f b <? 2 ^ 16) && negb (U16_IS_LEAD (f b)) && bool_decide (encodeOne (f b) = [b]).

Lemma invertsByte_spec (encodeOne : Z -> list Z) (f : Z -> Z) (b : Z) :
  invertsByte encodeOne f b = true ->
  isUnit (f b) /\ U16_IS_LEAD (f b) = false /\ encodeOne (f b) = [b].
Proof.
  unfold invertsByte, isUnit. rewrite !andb_true_iff, Z.leb_le, Z.ltb_lt, negb_true_iff.
  intros (((H1 & H2) & H3) & H4%bool_decide_eq_true_1). done.
Qed.

(** Encoding writes every code point of the text by itself, whether the fast way
    for ASCII is taken or not, and gives every text made of units of the table back
    as its bytes, however characters that cannot be encoded are handled. *)
Theorem latin1_roundtrip (characters bytes : list Z) (handling : UnencodableHandling) :
  Forall isUnit characters -> Forall isByte bytes ->
  encodeLatin1 characters handling
    = Ok (concat ((fun c => encodeCharacter c handling) <$> codePoints characters)) /\
  encodeLatin1 (table <$> bytes) handling = Ok bytes.
Proof.
  intros Hu Hb.
  assert (Hascii : forall c, 0 <= c < 0x80 -> encodeCharacter c handling = [c]).
  { intros c Hc. unfold encodeCharacter. rewrite Z.mod_small, Z.eqb_refl by lia. cbn [negb orb].
    pose proof (below_forall (fun c => negb (Z.land c 0xE0 =? 0x80)) 128 c eq_refl ltac:(lia)) as H.
    apply negb_true_iff in H. by rewrite H. }
  assert (Hf : forall b, isByte b -> isUnit (table b) /\ U16_IS_LEAD (table b) = false /\
    encodeCharacter (table b) handling = [b]).
  { intros b H. apply (invertsByte_spec (fun c => encodeCharacter c handling) table b).
    apply (bytes_all (invertsByte (fun c => encodeCharacter c handling) table)); [| done].
    destruct handling; vm_compute; reflexivity. }
  split; [by apply encode_codePoints |].
  etransitivity; [apply (encode_codePoints (fun c => encodeCharacter c handling)); [done |] |].
  - apply Forall_fmap. eapply list.Forall_impl; [exact Hb |]. intros b H. by apply Hf.
  - f_equal. by apply encode_table.
Qed.

Lemma latin1_roundtrip_witness :
  encodeLatin1 [0x20AC; 0x3B1; 0xD83D; 0xDE00] EntitiesForUnencodables
    = Ok ([0x80] ++ units "&#945;&#128512;") /\
  encodeLatin1 (table <$> [0x80; 0xE9]) QuestionMarksForUnencodables = Ok [0x80; 0xE9].
Proof.
  destruct (latin1_roundtrip [0x20AC; 0x3B1; 0xD83D; 0xDE00] [0x80; 0xE9] EntitiesForUnencodables) as [H _];
    [repeat constructor; unfold isUnit; lia | repeat constructor; unfold isByte; lia |].
  split; [rewrite H; vm_compute; reflexivity |].
  apply (latin1_roundtrip [] [0x80; 0xE9]); [constructor | repeat constructor; unfold isByte; lia].
Defined.

(** x-user-defined maps the bytes above 7F to the private use area from U+F780 on
    and encodes every text it decoded as the same bytes. *)
Theorem userDefined_roundtrip (bytes : list Z) (handling : UnencodableHandling) :
  Forall isByte bytes ->
  decodeUserDefined bytes = (fun b => if b <? 0x80 then b else 0xF700 + b) <$> bytes /\
  encodeUserDefined (decodeUserDefined bytes) handling = Ok bytes.
Proof.
  intros Hb. split.
  { apply list_fmap_ext. intros i b Hi. rewrite list.Forall_forall in Hb.
    apply Z.eqb_eq, (bytes_all (fun b => Z.land (signedChar b) 0xF7FF =? (if b <? 0x80 then b else 0xF700 + b))).
    - vm_compute; reflexivity.
    - by apply Hb, (list_elem_of_lookup_2 _ i). }
  assert (Hascii : forall c, 0 <= c < 0x80 -> encodeUserDefinedCharacter c handling = [c]).
  { intros c Hc. unfold encodeUserDefinedCharacter, signedChar. rewrite Z.mod_small by lia.
    rewrite (proj2 (Z.ltb_lt _ _)) by lia.
    pose proof (below_forall (fun c => Z.land c 0xF7FF =? c) 128 c eq_refl ltac:(lia)) as ->.
    by rewrite Z.mod_small by lia. }
  assert (Hf : forall b, isByte b -> isUnit (Z.land (signedChar b) 0xF7FF) /\
    U16_IS_LEAD (Z.land (signedChar b) 0xF7FF) = false /\
    encodeUserDefinedCharacter (Z.land (signedChar b) 0xF7FF) handling = [b]).
  { intros b H. apply (invertsByte_spec (fun c => encodeUserDefinedCharacter c handling)
      (fun b => Z.land (signedChar b) 0xF7FF) b).
    apply (bytes_all (invertsByte (fun c => encodeUserDefinedCharacter c handling)
      (fun b => Z.land (signedChar b) 0xF7FF))); [| done].
    destruct handling; vm_compute; reflexivity. }
  etransitivity; [apply (encode_codePoints (fun c => encodeUserDefinedCharacter c handling)); [done |] |].
  - apply Forall_fmap. eapply list.Forall_impl; [exact Hb |]. intros b H. by apply Hf.
  - f_equal. by apply encode_table.
Qed.

Lemma userDefined_roundtrip_witness :
  decodeUserDefined [0x41; 0x80; 0xFF] = [0x41; 0xF780; 0xF7FF] /\
  encodeUserDefined (decodeUserDefined [0x41; 0x80; 0xFF]) QuestionMarksForUnencodables
    = Ok [0x41; 0x80; 0xFF].
Proof.
  apply (userDefined_roundtrip [0x41; 0x80; 0xFF] QuestionMarksForUnencodables).
  repeat constructor; unfold isByte; lia.
Defined.
