(* ===== verification/TextCodecUTF8.v ===== *)
(** * UTF-8: platform/text/TextCodecUTF8.h and TextCodecUTF8.cpp

    The decoder keeps an incomplete sequence at the end of a chunk in
    [m_partialSequence].  It writes 8-bit characters until one needs 16 bits, then
    starts again where it is with 16-bit characters.  Theorems in
    TextCodecUTF8Theorems.v. *)

From S2P Require Import Prelude HTMLEntityParser TextCodec.

Definition nonCharacter : Z := -1.
Definition replacementCharacter : Z := 0xFFFD.
Definition U8_MAX_LENGTH : nat := 4.

Record TextCodecUTF8 := mkUTF8 {
  m_partialSequence : list Z;       (* uint8_t[U8_MAX_LENGTH] *)
  m_partialSequenceSize : nat }.

Definition newTextCodecUTF8 : TextCodecUTF8 := mkUTF8 (repeat 0 U8_MAX_LENGTH) 0.

(** The table of nonASCIISequenceLength. *)
Definition lengths : list nat :=
  repeat 0%nat 128 ++ repeat 2%nat 96 ++ repeat 3%nat 16 ++ repeat 4%nat 5 ++ repeat 0%nat 11.

Definition nonASCIISequenceLength (firstByte : Z) : option nat := lengths !! Z.to_nat firstByte.

Definition outside (low high b : Z) : bool := (b <? low) || (high <? b).

(** decodeNonASCIISequence(sequence, length); reading behind the sequence is
    [None]. *)
Definition decodeNonASCIISequence (sequence : list Z) (length : nat) : option Z :=
  s0 ← sequence !! 0%nat;
  ASSERT (negb (isASCII s0));;
  if Nat.eqb length 2 then
    ASSERT (s0 <=? 0xDF);;
    if s0 <? 0xC2 then Some nonCharacter else
    s1 ← sequence !! 1%nat;
    if outside 0x80 0xBF s1 then Some nonCharacter
    else Some (Z.shiftl s0 6 + s1 - 0x00003080)
  else if Nat.eqb length 3 then
    ASSERT ((0xE0 <=? s0) && (s0 <=? 0xEF));;
    s1 ← sequence !! 1%nat;
    if (if s0 =? 0xE0 then outside 0xA0 0xBF s1
        else if s0 =? 0xED then outside 0x80 0x9F s1
        else outside 0x80 0xBF s1) then Some nonCharacter else
    s2 ← sequence !! 2%nat;
    if outside 0x80 0xBF s2 then Some nonCharacter
    else Some (Z.shiftl s0 12 + Z.shiftl s1 6 + s2 - 0x000E2080)
  else
    ASSERT (Nat.eqb length 4);;
    ASSERT ((0xF0 <=? s0) && (s0 <=? 0xF4));;
    s1 ← sequence !! 1%nat;
    if (if s0 =? 0xF0 then outside 0x90 0xBF s1
        else if s0 =? 0xF4 then outside 0x80 0x8F s1
        else outside 0x80 0xBF s1) then Some nonCharacter else
    s2 ← sequence !! 2%nat;
    if outside 0x80 0xBF s2 then Some nonCharacter else
    s3 ← sequence !! 3%nat;
    if outside 0x80 0xBF s3 then Some nonCharacter
    else Some (Z.shiftl s0 18 + Z.shiftl s1 12 + Z.shiftl s2 6 + s3 - 0x03C82080).

(** The units of a character appended to a 16-bit buffer. *)
Definition appendCharacter (destination : list Z) (character : Z) : option (list Z) :=
  ASSERT (negb (character =? nonCharacter));;
  ASSERT (negb (U_IS_SURROGATE character));;
  Some (destination ++
    if U_IS_BMP character then [character mod 2 ^ 16] else [U16_LEAD character; U16_TRAIL character]).

(** memcpy into the array: writing behind its end is not allowed. *)
Definition copyBytes (offset : nat) (source : list Z) (a : list Z) : option (list Z) :=
  ASSERT (Nat.leb (offset + length source) (length a));;
  Some (take offset a ++ source ++ drop (offset + length source) a).

(** The bytes that wait. *)
Definition partialBytes (d : TextCodecUTF8) : list Z :=
  take (m_partialSequenceSize d) (m_partialSequence d).

(** memmove of the rest of the sequence to the front of the array. *)
Definition consumePartialSequenceByte (d : TextCodecUTF8) : option TextCodecUTF8 :=
  let size := pred (m_partialSequenceSize d) in
  a ← copyBytes 0 (take size (drop 1 (m_partialSequence d))) (m_partialSequence d);
  Some (mkUTF8 a size).

(** memcpy(m_partialSequence + m_partialSequenceSize, source, n). *)
Definition addToPartialSequence (n : nat) (source : list Z) (d : TextCodecUTF8) : option TextCodecUTF8 :=
  a ← copyBytes (m_partialSequenceSize d) (take n source) (m_partialSequence d);
  Some (mkUTF8 a (m_partialSequenceSize d + n)).

(** handleError; sawError becomes true. *)
Definition handleError (stopOnError : bool) (d : TextCodecUTF8) (destination : list Z)
  : option (TextCodecUTF8 * list Z) :=
  if stopOnError then Some (d, destination)
  else d1 ← consumePartialSequenceByte d; Some (d1, destination ++ [replacementCharacter]).

(** handlePartialSequence<LChar>: the first component says that 16 bits are needed. *)
Fixpoint handlePartialSequence8 (fuel : nat) (flush : bool) (d : TextCodecUTF8)
    (source destination : list Z) : result (bool * TextCodecUTF8 * list Z * list Z) :=
  match fuel with
  | O => OutOfFuel
  | S fuel' =>
      let continue d1 source1 destination1 : result (bool * TextCodecUTF8 * list Z * list Z) :=
        if Nat.eqb (m_partialSequenceSize d1) 0 then Ok (false, d1, source1, destination1)
        else handlePartialSequence8 fuel' flush d1 source1 destination1 in
      b ← lift (m_partialSequence d !! 0%nat);
      if isASCII b then
        d1 ← lift (consumePartialSequenceByte d); continue d1 source (destination ++ [b])
      else
      count ← lift (nonASCIISequenceLength b);
      if Nat.eqb count 0 then Ok (true, d, source, destination) else
      let finish d1 source1 : result (bool * TextCodecUTF8 * list Z * list Z) :=
        character ← lift (decodeNonASCIISequence (m_partialSequence d1) count);
        if (character =? nonCharacter) || (0xFF <? character) then Ok (true, d1, source1, destination)
        else continue (mkUTF8 (m_partialSequence d1) (m_partialSequenceSize d1 - count))
               source1 (destination ++ [character]) in
      if Nat.ltb (m_partialSequenceSize d) count then
        let need := (count - m_partialSequenceSize d)%nat in
        if Nat.ltb (length source) need then
          if negb flush then
            d1 ← lift (addToPartialSequence (length source) source d);
            Ok (false, d1, [], destination)
          else Ok (true, d, source, destination)
        else
          d1 ← lift (addToPartialSequence need source d);
          finish d1 (drop need source)
      else finish d source
  end.

(** handlePartialSequence<UChar>: the first component is sawError. *)
Fixpoint handlePartialSequence16 (fuel : nat) (flush stopOnError sawError : bool) (d : TextCodecUTF8)
    (source destination : list Z) : result (bool * TextCodecUTF8 * list Z * list Z) :=
  match fuel with
  | O => OutOfFuel
  | S fuel' =>
      let continue saw d1 source1 destination1 : result (bool * TextCodecUTF8 * list Z * list Z) :=
        if Nat.eqb (m_partialSequenceSize d1) 0 then Ok (saw, d1, source1, destination1)
        else handlePartialSequence16 fuel' flush stopOnError saw d1 source1 destination1 in
      let error d1 source1 : result (bool * TextCodecUTF8 * list Z * list Z) :=
        '(d2, destination1) ← lift (handleError stopOnError d1 destination);
        if stopOnError then Ok (true, d2, source1, destination1)
        else continue true d2 source1 destination1 in
      b ← lift (m_partialSequence d !! 0%nat);
      if isASCII b then
        d1 ← lift (consumePartialSequenceByte d); continue sawError d1 source (destination ++ [b])
      else
      count ← lift (nonASCIISequenceLength b);
      if Nat.eqb count 0 then error d source else
      let finish d1 source1 : result (bool * TextCodecUTF8 * list Z * list Z) :=
        character ← lift (decodeNonASCIISequence (m_partialSequence d1) count);
        if character =? nonCharacter then error d1 source1
        else
          destination1 ← lift (appendCharacter destination character);
          continue sawError (mkUTF8 (m_partialSequence d1) (m_partialSequenceSize d1 - count))
            source1 destination1 in
      if Nat.ltb (m_partialSequenceSize d) count then
        let need := (count - m_partialSequenceSize d)%nat in
        if Nat.ltb (length source) need then
          if negb flush then
            d1 ← lift (addToPartialSequence (length source) source d);
            Ok (sawError, d1, [], destination)
          else error d source
        else
          d1 ← lift (addToPartialSequence need source d);
          finish d1 (drop need source)
      else finish d source
  end.

Section Decode.
(** sizeof(MachineWord) and the address behind the input. *)
Variable wordSize : Z.
Variable endAddress : Z.

(** How the loop over the source ended. *)
Inductive LoopEnd := Finished | UpConvert.

Definition LoopState : Type := LoopEnd * bool * TextCodecUTF8 * list Z * list Z.

(** The loop [while (source < end)] of decode.  [wide] is the copy of the loop that
    writes 16-bit characters. *)
Fixpoint sourceLoop (wide : bool) (fuel : nat) (stopOnError sawError : bool) (d : TextCodecUTF8)
    (source destination : list Z) : result LoopState :=
  match fuel with
  | O => OutOfFuel
  | S fuel' =>
      let next := sourceLoop wide fuel' stopOnError in
      match source with
      | [] => Ok (Finished, sawError, d, source, destination)
      | b :: rest =>
          if isASCII b then
            if isAlignedToMachineWord wordSize (address endAddress source) then
              '(_, s1, d1) ←
                copyASCIIWords wordSize (S (length source)) endAddress source destination;
              match s1 with
              | [] => Ok (Finished, sawError, d, s1, d1)
              | b1 :: rest1 =>
                  if negb (isASCII b1) then next sawError d s1 d1
                  else next sawError d rest1 (d1 ++ [b1])
              end
            else next sawError d rest (destination ++ [b])
          else
          count ← lift (nonASCIISequenceLength b);
          if negb (Nat.eqb count 0) && Nat.ltb (length source) count then
            lift (ASSERT (Nat.ltb (length source) U8_MAX_LENGTH));;
            lift (ASSERT (Nat.eqb (m_partialSequenceSize d) 0));;
            d1 ← lift (addToPartialSequence (length source) source d);
            Ok (Finished, sawError, d1, [], destination)
          else
          character ← (if Nat.eqb count 0 then Ok nonCharacter
                       else lift (decodeNonASCIISequence source count));
          if character =? nonCharacter then
            if stopOnError then Ok (Finished, true, d, source, destination)
            else if wide then next true d rest (destination ++ [replacementCharacter])
            else Ok (UpConvert, true, d, source, destination)
          else if negb wide && (0xFF <? character) then
            Ok (UpConvert, sawError, d, source, destination)
          else
            destination1 ← (if wide then lift (appendCharacter destination character)
                            else Ok (destination ++ [character]));
            next sawError d (drop count source) destination1
      end
  end.

Definition sourceLoop8 := sourceLoop false.
Definition sourceLoop16 := sourceLoop true.

(** The two loops [do ... while (flush && m_partialSequenceSize)]. *)
Fixpoint decodeLoop8 (fuel : nat) (flush stopOnError sawError : bool) (d : TextCodecUTF8)
    (source destination : list Z) : result LoopState :=
  match fuel with
  | O => OutOfFuel
  | S fuel' =>
      let body d1 source1 destination1 : result LoopState :=
        '(ended, saw, d2, s2, dest2) ←
          sourceLoop8 (S (length source1)) stopOnError sawError d1 source1 destination1;
        match ended with
        | UpConvert => Ok (UpConvert, saw, d2, s2, dest2)
        | Finished =>
            if flush && negb (Nat.eqb (m_partialSequenceSize d2) 0)
            then decodeLoop8 fuel' flush stopOnError saw d2 s2 dest2
            else Ok (Finished, saw, d2, s2, dest2)
        end in
      if Nat.eqb (m_partialSequenceSize d) 0 then body d source destination
      else
        '(up, d1, source1, destination1) ←
          handlePartialSequence8 (S (m_partialSequenceSize d + length source)) flush d source destination;
        if up : bool then Ok (UpConvert, sawError, d1, source1, destination)
        else if negb (Nat.eqb (m_partialSequenceSize d1) 0)
        then Ok (Finished, sawError, d1, source1, destination1)
        else body d1 source1 destination1
  end.

Fixpoint decodeLoop16 (fuel : nat) (flush stopOnError sawError : bool) (d : TextCodecUTF8)
    (source destination : list Z) : result LoopState :=
  match fuel with
  | O => OutOfFuel
  | S fuel' =>
      let body saw1 d1 source1 destination1 : result LoopState :=
        '(ended, saw, d2, s2, dest2) ←
          sourceLoop16 (S (length source1)) stopOnError saw1 d1 source1 destination1;
        if flush && negb (Nat.eqb (m_partialSequenceSize d2) 0)
        then decodeLoop16 fuel' flush stopOnError saw d2 s2 dest2
        else Ok (ended, saw, d2, s2, dest2) in
      if Nat.eqb (m_partialSequenceSize d) 0 then body sawError d source destination
      else
        '(saw1, d1, source1, destination1) ←
          handlePartialSequence16 (S (m_partialSequenceSize d + length source)) flush stopOnError sawError
            d source destination;
        if negb (Nat.eqb (m_partialSequenceSize d1) 0)
        then Ok (Finished, saw1, d1, source1, destination1)
        else body saw1 d1 source1 destination1
  end.

(** A StringBuffer of [capacity] characters holds what was written. *)
Definition fits (capacity : nat) (destination : list Z) : option unit :=
  ASSERT (Nat.leb (length destination) capacity).

(** decode(bytes, length, flush, stopOnError, sawError): the units, the new value of
    sawError and the codec.  Each of the do loops runs at most three times. *)
Definition decodeUTF8 (bytes : list Z) (flush stopOnError sawError : bool) (d : TextCodecUTF8)
  : result (list Z * bool * TextCodecUTF8) :=
  '(ended, saw, d1, source, destination) ←
    decodeLoop8 3 flush stopOnError sawError d bytes [];
  lift (fits (m_partialSequenceSize d + length bytes) destination);;
  match ended with
  | Finished => Ok (destination, saw, d1)
  | UpConvert =>
      let capacity16 := (m_partialSequenceSize d1 + length bytes)%nat in
      '(_, saw2, d2, _, destination16) ←
        decodeLoop16 3 flush stopOnError saw d1 source destination;
      lift (fits capacity16 destination16);;
      Ok (destination16, saw2, d2)
  end.

End Decode.

(** ** Encoding *)

(** U8_APPEND_UNSAFE *)
Definition U8_APPEND_UNSAFE (c : Z) : list Z :=
  let u := c mod 2 ^ 32 in
  if u <=? 0x7F then [c mod 2 ^ 8]
  else
    (if u <=? 0x7FF then [Z.lor (Z.shiftr c 6) 0xC0 mod 2 ^ 8]
     else
       (if u <=? 0xFFFF then [Z.lor (Z.shiftr c 12) 0xE0 mod 2 ^ 8]
        else [Z.lor (Z.shiftr c 18) 0xF0 mod 2 ^ 8; Z.lor (Z.land (Z.shiftr c 12) 0x3F) 0x80 mod 2 ^ 8])
       ++ [Z.lor (Z.land (Z.shiftr c 6) 0x3F) 0x80 mod 2 ^ 8])
    ++ [Z.lor (Z.land c 0x3F) 0x80 mod 2 ^ 8].

Fixpoint encodeUTF8Loop (fuel : nat) (characters : list Z) : result (list Z) :=
  match fuel with
  | O => OutOfFuel
  | S fuel' =>
      match U16_NEXT characters with
      | None => Ok []
      | Some (c, rest) => l ← encodeUTF8Loop fuel' rest; Ok (U8_APPEND_UNSAFE c ++ l)
      end
  end.

(** encode: the vector has room for three bytes per code unit. *)
Definition encodeUTF8 (characters : list Z) : result (list Z) :=
  bytes ← encodeUTF8Loop (S (length characters)) characters;
  lift (ASSERT (Nat.leb (length bytes) (3 * length characters)));;
  Ok bytes.
