(* ===== verification/TextCodecUTF8Theorems.v ===== *)
(** * What the UTF-8 codec promises

    The specification of UTF-8 is [utf8], the shortest form of a scalar value; a
    text is read by taking scalar values off its front and replacing a byte where
    there is none ([parses]).  The theorems: the decoder accepts exactly the
    encodings of scalar values; it reads a whole text as specified; well-formed
    text may be cut anywhere; the decoder stays inside its buffers; encoding and
    decoding are inverse. *)

From S2P Require Import Prelude HTMLEntityParser EntityTheorems TextCodec TextCodecUTF8.

(** ** The specification *)

Definition scalar (c : Z) : Prop := 0 <= c <= 0x10FFFF /\ ~ (0xD800 <= c <= 0xDFFF).

Definition utf8 (c : Z) : list Z :=
  if c <? 0x80 then [c]
  else if c <? 0x800 then [0xC0 + c / 64; 0x80 + c mod 64]
  else if c <? 0x10000 then [0xE0 + c / 4096; 0x80 + c / 64 mod 64; 0x80 + c mod 64]
  else [0xF0 + c / 262144; 0x80 + c / 4096 mod 64; 0x80 + c / 64 mod 64; 0x80 + c mod 64].

(** Some scalar value stands at the front of a text. *)
Definition starts (l : list Z) : Prop := exists c l', scalar c /\ l = utf8 c ++ l'.

(** No scalar value can stand there, whatever comes behind. *)
Definition hopeless (l : list Z) : Prop := forall l', ~ starts (l ++ l').

(** Reading the code points [u] from [l] leaves [r]; [e] says whether a byte had to be
    replaced, which is done when no scalar value stands there: [final] if nothing
    comes behind the text, otherwise only if nothing that comes can help. *)
Inductive parses (final : bool) : list Z -> list Z -> bool -> list Z -> Prop :=
  | parses_done r : parses final r [] false r
  | parses_char c l u e r :
      scalar c -> parses final l u e r -> parses final (utf8 c ++ l) (c :: u) e r
  | parses_bad b l u e r :
      (if final then ~ starts (b :: l) else hopeless (b :: l)) -> parses final l u e r ->
      parses final (b :: l) (replacementCharacter :: u) true r.

Lemma parses_trans (final : bool) (l u r u' r' : list Z) (e e' : bool) :
  parses final l u e r -> parses final r u' e' r' -> parses final l (u ++ u') (e || e') r'.
Proof.
  intros H H'. induction H; [done | |]; simpl.
  - by constructor; [| apply IHparses].
  - eapply parses_bad; [done | by apply IHparses].
Qed.

Lemma hopeless_starts (l : list Z) : hopeless l -> ~ starts l.
Proof. intros H Hs. apply (H []). by rewrite app_nil_r. Qed.

Lemma parses_weaken (l u r : list Z) (e : bool) : parses false l u e r -> parses true l u e r.
Proof.
  induction 1 as [r | c l u e r Hc H IH | b l u e r Hb H IH]; [constructor | by constructor |].
  eapply parses_bad; [by apply hopeless_starts | done].
Qed.

(** ** A sequence of the source and the scalar value it stands for *)

Definition lengthOf (b : Z) : nat :=
  if b <? 0x80 then 0 else if b <? 0xE0 then 2 else if b <? 0xF0 then 3 else if b <? 0xF5 then 4 else 0.

Lemma nonASCIISequenceLength_spec (b : Z) :
  isByte b -> nonASCIISequenceLength b = Some (lengthOf b).
Proof.
  intros Hb. pose proof (below_forall (fun b => bool_decide (nonASCIISequenceLength b = Some (lengthOf b))) 256 b) as H.
  apply bool_decide_eq_true_1 in H; [done | by vm_compute | exact Hb].
Qed.

Lemma utf8_bytes (c : Z) : scalar c -> Forall isByte (utf8 c).
Proof.
  intros [Hc _]. unfold utf8, isByte.
  destruct (c <? 0x80) eqn:E1; [| destruct (c <? 0x800) eqn:E2; [| destruct (c <? 0x10000) eqn:E3]];
    bool_to_prop; repeat constructor; Z.div_mod_to_equations; lia.
Qed.

Lemma utf8_length (c : Z) : (1 <= length (utf8 c) <= 4)%nat.
Proof. unfold utf8. repeat case_match; simpl; lia. Qed.

(** The first byte of an encoding gives its length. *)
Lemma utf8_head (c : Z) (l : list Z) :
  scalar c -> exists b r, utf8 c ++ l = b :: r /\ isByte b /\
    ((b < 0x80 /\ c = b /\ r = l) \/ (0x80 <= b /\ length (utf8 c) = lengthOf b /\ (2 <= lengthOf b)%nat)).
Proof.
  intros [Hc _]. unfold utf8, isByte.
  destruct (c <? 0x80) eqn:E1; [| destruct (c <? 0x800) eqn:E2; [| destruct (c <? 0x10000) eqn:E3]];
    bool_to_prop; eexists _, _; (split; [simpl; reflexivity |]);
    (split; [Z.div_mod_to_equations; lia |]); [by left | right..];
    unfold lengthOf; (split; [Z.div_mod_to_equations; lia |]);
    rewrite (proj2 (Z.ltb_ge _ 0x80)) by (Z.div_mod_to_equations; lia).
  - rewrite (proj2 (Z.ltb_lt _ 0xE0)) by (Z.div_mod_to_equations; lia). simpl; lia.
  - rewrite (proj2 (Z.ltb_ge _ 0xE0)), (proj2 (Z.ltb_lt _ 0xF0)) by (Z.div_mod_to_equations; lia). simpl; lia.
  - rewrite (proj2 (Z.ltb_ge _ 0xE0)), (proj2 (Z.ltb_ge _ 0xF0)), (proj2 (Z.ltb_lt _ 0xF5))
      by (Z.div_mod_to_equations; lia). simpl; lia.
Qed.

(** What the decoder makes of a complete sequence. *)
Definition decided (l : list Z) (n : nat) (c : Z) : Prop :=
  (c = nonCharacter /\ hopeless l) \/ (scalar c /\ take n l = utf8 c /\ 0x80 <= c).

Lemma utf8_inj_prefix (c c' : Z) (l l' : list Z) :
  scalar c -> scalar c' -> utf8 c ++ l = utf8 c' ++ l' -> c = c'.
Proof.
  intros [Hc _] [Hc' _]. unfold utf8.
  destruct (c <? 0x80) eqn:E1; [| destruct (c <? 0x800) eqn:E2; [| destruct (c <? 0x10000) eqn:E3]];
  (destruct (c' <? 0x80) eqn:F1; [| destruct (c' <? 0x800) eqn:F2; [| destruct (c' <? 0x10000) eqn:F3]]);
    bool_to_prop; simpl; intros E; injection E; intros; Z.div_mod_to_equations; lia.
Qed.

Lemma outside_spec (low high b : Z) :
  outside low high b = false <-> low <= b <= high.
Proof. unfold outside. rewrite orb_false_iff, !Z.ltb_ge. lia. Qed.

Lemma outside_true (low high b : Z) : outside low high b = true -> b < low \/ high < b.
Proof. unfold outside. rewrite orb_true_iff, !Z.ltb_lt. lia. Qed.

(** No scalar value stands in front: compare the first bytes. *)
Ltac no_start :=
  left; split; [reflexivity |];
  intros l0 (c & l' & [Hc Hs] & E); unfold utf8 in E;
  destruct (c <? 0x80) eqn:?; [| destruct (c <? 0x800) eqn:?; [| destruct (c <? 0x10000) eqn:?]];
  bool_to_prop; simpl in E; injection E; intros; Z.div_mod_to_equations; lia.

(** The scalar value [c] is encoded by the bytes in front. *)
Ltac this_scalar :=
  right; unfold scalar, utf8;
  match goal with |- context [take _ _ = if ?c <? 0x80 then _ else _] =>
    rewrite (proj2 (Z.ltb_ge c 0x80)) by lia;
    first [rewrite (proj2 (Z.ltb_lt c 0x800)) by lia
          | rewrite (proj2 (Z.ltb_ge c 0x800)) by lia;
            first [rewrite (proj2 (Z.ltb_lt c 0x10000)) by lia
                  | rewrite (proj2 (Z.ltb_ge c 0x10000)) by lia]]
  end;
  split; [lia | split; [| lia]]; simpl; repeat f_equal; Z.div_mod_to_equations; lia.

Lemma decode2_ok (b s1 : Z) (r : list Z) :
  0x80 <= b < 0xE0 -> isByte s1 ->
  exists c, decodeNonASCIISequence (b :: s1 :: r) 2 = Some c /\ decided (b :: s1 :: r) 2 c.
Proof.
  intros Hb Hs1. unfold decodeNonASCIISequence. simpl lookup. cbn [mbind option_bind Nat.eqb].
  rewrite isASCII_spec, (proj2 (Z.ltb_ge b 0x80)) by (unfold isByte; lia). cbn [negb ASSERT].
  rewrite (proj2 (Z.leb_le b 0xDF)) by lia. cbn [ASSERT mbind option_bind].
  destruct (b <? 0xC2) eqn:E1; bool_to_prop; [eexists; split; [done |]; no_start |].
  destruct (outside 0x80 0xBF s1) eqn:E2.
  - apply outside_true in E2. eexists; split; [done |]. no_start.
  - apply outside_spec in E2. rewrite Z.shiftl_mul_pow2 by lia. change (2 ^ 6) with 64.
    eexists; split; [done |]. this_scalar.
Qed.

Lemma decode3_ok (b s1 s2 : Z) (r : list Z) :
  0xE0 <= b < 0xF0 -> isByte s1 -> isByte s2 ->
  exists c, decodeNonASCIISequence (b :: s1 :: s2 :: r) 3 = Some c /\ decided (b :: s1 :: s2 :: r) 3 c.
Proof.
  intros Hb Hs1 Hs2. unfold decodeNonASCIISequence. simpl lookup. cbn [mbind option_bind Nat.eqb].
  rewrite isASCII_spec, (proj2 (Z.ltb_ge b 0x80)) by (unfold isByte; lia). cbn [negb ASSERT].
  rewrite (proj2 (Z.leb_le 0xE0 b)), (proj2 (Z.leb_le b 0xEF)) by lia. cbn [andb ASSERT mbind option_bind].
  destruct (if b =? 0xE0 then _ else _) eqn:E1.
  { assert (b = 0xE0 /\ (s1 < 0xA0 \/ 0xBF < s1) \/ b = 0xED /\ (s1 < 0x80 \/ 0x9F < s1) \/
      (b <> 0xE0 /\ b <> 0xED /\ (s1 < 0x80 \/ 0xBF < s1))) as H.
    { destruct (b =? 0xE0) eqn:?; [| destruct (b =? 0xED) eqn:?]; bool_to_prop; apply outside_true in E1; tauto. }
    clear E1. eexists; split; [done |]. no_start. }
  assert (0x80 <= s1 <= 0xBF /\ (b = 0xE0 -> 0xA0 <= s1) /\ (b = 0xED -> s1 <= 0x9F)) as H.
  { destruct (b =? 0xE0) eqn:?; [| destruct (b =? 0xED) eqn:?]; bool_to_prop; apply outside_spec in E1; lia. }
  clear E1. destruct (outside 0x80 0xBF s2) eqn:E2.
  - apply outside_true in E2. eexists; split; [done |]. no_start.
  - apply outside_spec in E2. rewrite !Z.shiftl_mul_pow2 by lia. change (2 ^ 6) with 64. change (2 ^ 12) with 4096.
    eexists; split; [done |].
    assert (0x800 <= b * 4096 + s1 * 64 + s2 - 0xE2080 <= 0xFFFF) by lia. this_scalar.
Qed.

Lemma decode4_ok (b s1 s2 s3 : Z) (r : list Z) :
  0xF0 <= b < 0xF5 -> isByte s1 -> isByte s2 -> isByte s3 ->
  exists c, decodeNonASCIISequence (b :: s1 :: s2 :: s3 :: r) 4 = Some c /\
    decided (b :: s1 :: s2 :: s3 :: r) 4 c.
Proof.
  intros Hb Hs1 Hs2 Hs3. unfold decodeNonASCIISequence. simpl lookup. cbn [mbind option_bind Nat.eqb].
  rewrite isASCII_spec, (proj2 (Z.ltb_ge b 0x80)) by (unfold isByte; lia). cbn [negb ASSERT].
  rewrite (proj2 (Z.leb_le 0xF0 b)), (proj2 (Z.leb_le b 0xF4)) by lia. cbn [andb ASSERT mbind option_bind].
  destruct (if b =? 0xF0 then _ else _) eqn:E1.
  { assert (b = 0xF0 /\ (s1 < 0x90 \/ 0xBF < s1) \/ b = 0xF4 /\ (s1 < 0x80 \/ 0x8F < s1) \/
      (b <> 0xF0 /\ b <> 0xF4 /\ (s1 < 0x80 \/ 0xBF < s1))) as H.
    { destruct (b =? 0xF0) eqn:?; [| destruct (b =? 0xF4) eqn:?]; bool_to_prop; apply outside_true in E1; tauto. }
    clear E1. eexists; split; [done |]. no_start. }
  assert (0x80 <= s1 <= 0xBF /\ (b = 0xF0 -> 0x90 <= s1) /\ (b = 0xF4 -> s1 <= 0x8F)) as H.
  { destruct (b =? 0xF0) eqn:?; [| destruct (b =? 0xF4) eqn:?]; bool_to_prop; apply outside_spec in E1; lia. }
  clear E1. destruct (outside 0x80 0xBF s2) eqn:E2.
  { apply outside_true in E2. eexists; split; [done |]. no_start. }
  apply outside_spec in E2. destruct (outside 0x80 0xBF s3) eqn:E3.
  { apply outside_true in E3. eexists; split; [done |]. no_start. }
  apply outside_spec in E3. rewrite !Z.shiftl_mul_pow2 by lia.
  change (2 ^ 6) with 64. change (2 ^ 12) with 4096. change (2 ^ 18) with 262144.
  eexists; split; [done |].
  assert (0x10000 <= b * 262144 + s1 * 4096 + s2 * 64 + s3 - 0x3C82080 <= 0x10FFFF) by lia. this_scalar.
Qed.

Lemma decode_ok (b : Z) (l : list Z) :
  Forall isByte (b :: l) -> (lengthOf b <> 0)%nat -> (lengthOf b <= length (b :: l))%nat ->
  exists c, decodeNonASCIISequence (b :: l) (lengthOf b) = Some c /\ decided (b :: l) (lengthOf b) c.
Proof.
  intros Hb Hn Hl. apply Forall_cons_1 in Hb as [Hb Hr]. unfold isByte in Hb. unfold lengthOf in *.
  destruct (b <? 0x80) eqn:E0; [done |].
  destruct (b <? 0xE0) eqn:E1; [| destruct (b <? 0xF0) eqn:E2; [| destruct (b <? 0xF5) eqn:E3; [| done]]];
    bool_to_prop.
  - destruct l as [| s1 r]; [simpl in Hl; lia |]. apply Forall_cons_1 in Hr as [H1 _].
    apply decode2_ok; [lia | done].
  - destruct l as [| s1 [| s2 r]]; [simpl in Hl; lia.. |].
    apply Forall_cons_1 in Hr as [H1 Hr]. apply Forall_cons_1 in Hr as [H2 _]. apply decode3_ok; [lia | done..].
  - destruct l as [| s1 [| s2 [| s3 r]]]; [simpl in Hl; lia.. |].
    apply Forall_cons_1 in Hr as [H1 Hr]. apply Forall_cons_1 in Hr as [H2 Hr].
    apply Forall_cons_1 in Hr as [H3 _]. apply decode4_ok; [lia | done..].
Qed.

Lemma starts_head (b : Z) (l : list Z) :
  starts (b :: l) -> b < 0x80 \/ ((lengthOf b <> 0)%nat /\ (lengthOf b <= length (b :: l))%nat).
Proof.
  intros (c & l' & Hc & E). destruct (utf8_head c l' Hc) as (b' & r & E' & Hb & H).
  rewrite E' in E. injection E as -> ->. destruct H as [(? & _) | (_ & Hl & ?)]; [by left | right].
  split; [lia |]. rewrite <- Hl, <- E', length_app. lia.
Qed.

Lemma hopeless_head (b : Z) (l : list Z) : 0x80 <= b -> lengthOf b = 0%nat -> hopeless (b :: l).
Proof. intros Hb H0 l' Hs. apply starts_head in Hs as [? | [? _]]; [lia | done]. Qed.

Lemma decided_scalar (b c : Z) (l : list Z) :
  decided (b :: l) (lengthOf b) c -> c <> nonCharacter -> (lengthOf b <= length (b :: l))%nat ->
  scalar c /\ 0x80 <= c /\ b :: l = utf8 c ++ drop (lengthOf b) (b :: l) /\ length (utf8 c) = lengthOf b.
Proof.
  intros [[? _] | (Hc & Ht & Hge)] Hne Hl; [done |]. split; [done | split; [done | split]].
  - by rewrite <- Ht, take_drop.
  - rewrite <- Ht, length_take. lia.
Qed.

(** ** Code units *)

Definition utf16s (u : list Z) : list Z := concat (utf16 <$> u).

Lemma utf16s_app (u u' : list Z) : utf16s (u ++ u') = utf16s u ++ utf16s u'.
Proof. unfold utf16s. by rewrite fmap_app, concat_app. Qed.

Lemma utf16s_cons (c : Z) (u : list Z) : utf16s (c :: u) = utf16 c ++ utf16s u.
Proof. done. Qed.

Lemma utf16_bmp (c : Z) : c < 0x10000 -> utf16 c = [c].
Proof. intros H. unfold utf16. by rewrite (proj2 (Z.ltb_lt _ _)). Qed.

Lemma utf16s_ascii (l : list Z) : Forall isByte l -> utf16s l = l.
Proof.
  induction 1 as [| b l Hb Hl IH]; [done |]. unfold isByte in Hb.
  by rewrite utf16s_cons, utf16_bmp, IH by lia.
Qed.

Lemma appendCharacter_ok (destination : list Z) (c : Z) :
  scalar c -> appendCharacter destination c = Some (destination ++ utf16 c).
Proof.
  intros [Hc Hs]. unfold appendCharacter, nonCharacter.
  rewrite (proj2 (Z.eqb_neq _ _)) by lia. rewrite U_IS_SURROGATE_spec by lia.
  replace ((0xD800 <=? c) && (c <? 0xE000)) with false.
  2: { symmetry. apply andb_false_iff. rewrite Z.leb_gt, Z.ltb_ge. lia. }
  cbn [negb ASSERT mbind option_bind]. rewrite <- encodeUChar32_spec by lia. done.
Qed.

Lemma utf16_length (c : Z) : scalar c -> (length (utf16 c) <= length (utf8 c))%nat.
Proof. intros _. unfold utf16, utf8. repeat case_match; simpl; bool_to_prop; lia. Qed.

(** What is written never exceeds what was read. *)
Lemma parses_length (final : bool) (l u r : list Z) (e : bool) :
  parses final l u e r -> (length (utf16s u) + length r <= length l)%nat.
Proof.
  induction 1 as [r | c l u e r Hc H IH | b l u e r Hb H IH]; [simpl; lia | |];
    rewrite utf16s_cons, !length_app.
  - pose proof (utf16_length c Hc). lia.
  - simpl. lia.
Qed.

Lemma parses_ascii (final : bool) (l l' u r : list Z) (e : bool) :
  Forall isByte l -> forallb isASCII l = true -> parses final l' u e r ->
  parses final (l ++ l') (l ++ u) e r.
Proof.
  intros Hb Ha H. induction Hb as [| b l Hb Hl IH]; [done |]. simpl in Ha.
  apply andb_true_iff in Ha as [Ha Hal]. rewrite isASCII_spec in Ha by done. unfold isByte in Hb.
  assert (Hu : utf8 b = [b]) by (unfold utf8; by rewrite Ha). bool_to_prop.
  change ((b :: l) ++ l') with ([b] ++ (l ++ l')). rewrite <- Hu.
  apply (parses_char final b (l ++ l') (l ++ u) e r); [split; lia | by apply IH].
Qed.

(** ** The partial sequence *)

Definition codecOk (d : TextCodecUTF8) : Prop :=
  length (m_partialSequence d) = U8_MAX_LENGTH /\ Forall isByte (m_partialSequence d) /\
  (m_partialSequenceSize d <= U8_MAX_LENGTH)%nat.

(** A sequence that needs more bytes. *)
Definition incomplete (p : list Z) : Prop :=
  match p with [] => True | b :: _ => 0x80 <= b /\ (length p < lengthOf b)%nat end.

Lemma lengthOf_le (b : Z) : (lengthOf b <= 4)%nat.
Proof. unfold lengthOf. repeat case_match; lia. Qed.

Lemma incomplete_start (p : list Z) : p <> [] -> incomplete p -> ~ starts p.
Proof.
  destruct p as [| b p]; [done |]. intros _ [Hb Hl] Hs.
  apply starts_head in Hs as [? | [_ ?]]; [lia | simpl in *; lia].
Qed.

Lemma partial_empty (d : TextCodecUTF8) : m_partialSequenceSize d = 0%nat -> partialBytes d = [].
Proof. intros H. unfold partialBytes. by rewrite H. Qed.

Lemma partial_length (d : TextCodecUTF8) : codecOk d -> length (partialBytes d) = m_partialSequenceSize d.
Proof. intros (Hl & _ & Hs). unfold partialBytes. rewrite length_take. lia. Qed.

Lemma copyBytes_ok (offset : nat) (source a : list Z) :
  (offset + length source <= length a)%nat ->
  copyBytes offset source a = Some (take offset a ++ source ++ drop (offset + length source) a).
Proof. intros H. unfold copyBytes. by rewrite (proj2 (Nat.leb_le _ _) H). Qed.

Lemma add_ok (n : nat) (source : list Z) (d : TextCodecUTF8) :
  codecOk d -> Forall isByte source -> (n <= length source)%nat ->
  (m_partialSequenceSize d + n <= U8_MAX_LENGTH)%nat ->
  exists d', addToPartialSequence n source d = Some d' /\ codecOk d' /\
    m_partialSequenceSize d' = (m_partialSequenceSize d + n)%nat /\
    partialBytes d' = partialBytes d ++ take n source.
Proof.
  intros (Hl & Hb & Hs) Hsrc Hn Hle. unfold addToPartialSequence.
  assert (Ht : length (take n source) = n) by (rewrite length_take; lia).
  rewrite copyBytes_ok by lia. cbn [mbind option_bind]. eexists. split; [done |].
  split; [split; [| split] | split; [done |]].
  - cbn [m_partialSequence]. rewrite !length_app, !length_take, !length_drop. lia.
  - cbn [m_partialSequence]. apply Forall_app. split; [by apply Forall_take |].
    apply Forall_app. split; [by apply Forall_take | by apply Forall_drop].
  - cbn [m_partialSequenceSize]. lia.
  - unfold partialBytes. cbn [m_partialSequence m_partialSequenceSize].
    rewrite app_assoc, take_app_le by (rewrite length_app, !length_take; lia).
    apply take_ge. rewrite length_app, !length_take. lia.
Qed.

Lemma consumeByte_ok (d : TextCodecUTF8) :
  codecOk d -> (m_partialSequenceSize d <> 0)%nat ->
  exists d', consumePartialSequenceByte d = Some d' /\ codecOk d' /\
    m_partialSequenceSize d' = pred (m_partialSequenceSize d) /\
    partialBytes d' = drop 1 (partialBytes d).
Proof.
  intros (Hl & Hb & Hs) Hn. unfold consumePartialSequenceByte.
  assert (Ht : length (take (pred (m_partialSequenceSize d)) (drop 1 (m_partialSequence d)))
    = pred (m_partialSequenceSize d)) by (rewrite length_take, length_drop; lia).
  rewrite copyBytes_ok by lia. cbn [mbind option_bind]. eexists. split; [done |].
  split; [split; [| split] | split; [done |]].
  - cbn [m_partialSequence]. rewrite !length_app, !length_take, !length_drop. lia.
  - cbn [m_partialSequence]. apply Forall_app. split; [by apply Forall_take |].
    apply Forall_app. split; [by apply Forall_take, Forall_drop | by apply Forall_drop].
  - cbn [m_partialSequenceSize]. lia.
  - unfold partialBytes. cbn [m_partialSequence m_partialSequenceSize].
    change (take 0 (m_partialSequence d)) with (@nil Z). cbn [app].
    rewrite take_app_le, take_ge by lia.
    destruct (m_partialSequenceSize d); [done |]. by destruct (m_partialSequence d).
Qed.

(** ** The loop over the source *)

Section Loops.
Variable wordSize : Z.
Hypothesis Hword : wordSize = 4 \/ wordSize = 8.
Variable endAddress : Z.

(** How the loop ends: at the end of the source, with an incomplete sequence kept;
    at an error; or, in the 8-bit loop, at a character that needs 16 bits. *)
Definition loopEnds (wide stopOnError : bool) (saw0 e : bool) (d : TextCodecUTF8)
    (ended : LoopEnd) (saw : bool) (d' : TextCodecUTF8) (s' : list Z) : Prop :=
  (ended = Finished /\ s' = [] /\ incomplete (partialBytes d') /\ saw = saw0 || e) \/
  (ended = Finished /\ d' = d /\ stopOnError = true /\ saw = true /\ s' <> [] /\ hopeless s') \/
  (ended = UpConvert /\ d' = d /\ wide = false /\ s' <> [] /\ ~ incomplete s' /\
   (saw = saw0 \/ (saw = true /\ hopeless s'))).

Definition loopResult (wide stopOnError saw : bool) (d : TextCodecUTF8) (source destination : list Z)
    (m : result LoopState) : Prop :=
  exists ended saw' d' s' u e,
    m = Ok (ended, saw', d', s', destination ++ utf16s u) /\
    codecOk d' /\ Forall isByte s' /\ parses false source u e (partialBytes d' ++ s') /\
    (wide = false -> e = false /\ Forall (fun c => c <= 0xFF) u) /\
    loopEnds wide stopOnError saw e d ended saw' d' s'.

(** Characters read in front of the loop. *)
Lemma loop_step (wide stopOnError saw : bool) (d : TextCodecUTF8) (source source' destination u : list Z)
    (e : bool) (m : result LoopState) :
  loopResult wide stopOnError (saw || e) d source' (destination ++ utf16s u) m ->
  (forall u' e' r, parses false source' u' e' r -> parses false source (u ++ u') (e || e') r) ->
  (wide = false -> e = false /\ Forall (fun c => c <= 0xFF) u) ->
  loopResult wide stopOnError saw d source destination m.
Proof.
  intros (ended & saw' & d' & s' & u' & e' & -> & Hd & Hs & Hp & Hw & He) Hstep Hu.
  exists ended, saw', d', s', (u ++ u'), (e || e'). rewrite utf16s_app, app_assoc.
  split; [done | split; [done | split; [done | split; [by apply Hstep | split]]]].
  - intros H. destruct (Hw H) as [-> Hw'], (Hu H) as [-> Hu']. split; [done | by apply Forall_app].
  - destruct He as [(-> & -> & Hi & ->) | [He | (-> & -> & -> & Hs' & Hi & Hsaw)]].
    + left. by rewrite orb_assoc.
    + right; left. done.
    + right; right. destruct (Hu eq_refl) as [-> _]. rewrite orb_false_r in Hsaw. tauto.
Qed.

Lemma sourceLoop_ok (wide : bool) (fuel : nat) (stopOnError saw : bool) (d : TextCodecUTF8)
    (source destination : list Z) :
  (length source < fuel)%nat -> Forall isByte source -> codecOk d -> m_partialSequenceSize d = 0%nat ->
  loopResult wide stopOnError saw d source destination
    (sourceLoop wordSize endAddress wide fuel stopOnError saw d source destination).
Proof.
  revert saw source destination. induction fuel as [| fuel IH]; intros saw source destination Hf Hb Hd Hz; [lia |].
  assert (Hp0 : partialBytes d = []) by by apply partial_empty.
  cbn [sourceLoop]. destruct source as [| b rest].
  { exists Finished, saw, d, [], [], false. rewrite app_nil_r, Hp0.
    split; [done | split; [done | split; [done | split; [constructor | split; [done |]]]]].
    left. by rewrite Hp0, orb_false_r. }
  pose proof Hb as Hbb. apply Forall_cons_1 in Hb as [Hb Hr]. cbn [length] in Hf.
  assert (Hascii : forall c l dest, isByte c -> isASCII c = true -> Forall isByte l -> (length l < fuel)%nat ->
    loopResult wide stopOnError saw d (c :: l) dest
      (sourceLoop wordSize endAddress wide fuel stopOnError saw d l (dest ++ [c]))).
  { intros c l dest Hc Ha Hl Hlen. apply (loop_step _ _ _ _ _ l dest [c] false).
    - rewrite orb_false_r, utf16s_ascii by by constructor. by apply IH.
    - intros u' e' r. apply (parses_ascii false [c]); [by constructor | simpl; by rewrite Ha].
    - intros _. split; [done |]. unfold isByte in Hc. repeat constructor. lia. }
  destruct (isASCII b) eqn:Ea.
  - destruct (isAlignedToMachineWord _ _) eqn:Eal; [| apply Hascii; [done.. | lia]].
    destruct (copyASCIIWords_ok wordSize Hword (S (length (b :: rest))) endAddress (b :: rest) destination)
      as (st & s1 & copied & -> & [Hsrc Hasc _ _ _]); [lia | done | done |].
    cbn [mbind result_bind].
    assert (Hbytes : Forall isByte (copied ++ s1)) by by rewrite <- Hsrc.
    apply Forall_app in Hbytes as [Hbc Hbs].
    assert (Hlen : (length copied + length s1 = S (length rest))%nat) by (rewrite <- length_app, <- Hsrc; done).
    rewrite Hsrc. apply (loop_step _ _ _ _ _ s1 destination copied false).
    + rewrite orb_false_r, utf16s_ascii by done. destruct s1 as [| b1 rest1].
      { exists Finished, saw, d, [], [], false. rewrite app_nil_r, Hp0.
        split; [done | split; [done | split; [done | split; [constructor | split; [done |]]]]].
        left. by rewrite Hp0, orb_false_r. }
      pose proof Hbs as Hbs'. apply Forall_cons_1 in Hbs as [Hb1 Hbr1]. cbn [length] in Hlen.
      destruct (isASCII b1) eqn:E1; cbn [negb].
      * apply Hascii; [done.. | lia].
      * apply IH; [| done..]. destruct copied as [| c0 copied]; [| simpl in *; lia].
        injection Hsrc as <- <-. congruence.
    + intros u' e' r. by apply parses_ascii.
    + intros _. split; [done |]. eapply list.Forall_impl; [exact Hbc |]. unfold isByte. intros; simpl; lia.
  - rewrite isASCII_spec in Ea by done. bool_to_prop. unfold isByte in Hb.
    rewrite nonASCIISequenceLength_spec by done. cbn [lift mbind result_bind].
    destruct (negb _ && _) eqn:Einc.
    { apply andb_true_iff in Einc as [E1 E2]. apply negb_true_iff, Nat.eqb_neq in E1. apply Nat.ltb_lt in E2.
      pose proof (lengthOf_le b). rewrite (proj2 (Nat.ltb_lt _ _)) by (unfold U8_MAX_LENGTH; lia).
      rewrite Hz. cbn [Nat.eqb ASSERT lift mbind result_bind].
      destruct (add_ok (length (b :: rest)) (b :: rest) d Hd Hbb (Nat.le_refl _)) as (d1 & -> & Hd1 & _ & Hp1).
      { rewrite Hz. unfold U8_MAX_LENGTH. lia. }
      cbn [lift mbind result_bind]. rewrite Hp0, take_ge in Hp1 by lia. cbn [app] in Hp1.
      exists Finished, saw, d1, [], [], false. rewrite !app_nil_r, Hp1.
      split; [done | split; [done | split; [done | split; [constructor | split; [done |]]]]].
      left. rewrite Hp1, orb_false_r. split; [done | split; [done | split; [| done]]]. split; [lia | done]. }
    assert (Hcomplete : lengthOf b = 0%nat \/ ((lengthOf b <> 0)%nat /\ (lengthOf b <= length (b :: rest))%nat)).
    { apply andb_false_iff in Einc as [E | E]; [left; by apply negb_false_iff, Nat.eqb_eq in E |].
      apply Nat.ltb_ge in E. destruct (decide (lengthOf b = 0%nat)); [by left | by right]. }
    assert (Hnot : ~ incomplete (b :: rest)) by (intros [_ Hi]; simpl in *; lia).
    assert (Hchar : exists c, (if Nat.eqb (lengthOf b) 0 then Ok nonCharacter
        else lift (decodeNonASCIISequence (b :: rest) (lengthOf b))) = Ok c /\ decided (b :: rest) (lengthOf b) c /\
      (c <> nonCharacter -> (lengthOf b <> 0)%nat /\ (lengthOf b <= length (b :: rest))%nat)).
    { destruct Hcomplete as [H0 | [H0 Hle]].
      - rewrite H0. exists nonCharacter. split; [done | split; [left; split; [done |] | done]].
        by apply hopeless_head.
      - apply Nat.eqb_neq in H0 as H0'. rewrite H0'. destruct (decode_ok b rest Hbb H0 Hle) as (c & -> & Hdec).
        by exists c. }
    destruct Hchar as (c & -> & Hdec & Hle). cbn [mbind result_bind].
    destruct (c =? nonCharacter) eqn:Ec.
    + apply Z.eqb_eq in Ec. subst c. destruct Hdec as [[_ Hns] | (Hsc & _ & ?)]; [| unfold nonCharacter in *; lia].
      destruct stopOnError; [| destruct wide].
      * exists Finished, true, d, (b :: rest), [], false. rewrite app_nil_r, Hp0.
        split; [done | split; [done | split; [done | split; [constructor | split; [done |]]]]]. right; left. done.
      * apply (loop_step _ _ _ _ _ rest destination [replacementCharacter] true); [| | done].
        -- rewrite orb_true_r. change (utf16s [replacementCharacter]) with [replacementCharacter].
           apply IH; [lia | done..].
        -- intros u' e' r Hp. by apply (parses_bad false b rest u' e').
      * exists UpConvert, true, d, (b :: rest), [], false. rewrite app_nil_r, Hp0.
        split; [done | split; [done | split; [done | split; [constructor | split; [done |]]]]].
        right; right. split; [done | split; [done | split; [done | split; [done | split; [done |]]]]]. by right.
    + apply Z.eqb_neq in Ec. destruct (Hle Ec) as [H0 Hlen].
      destruct (decided_scalar b c rest Hdec Ec Hlen) as (Hsc & Hge & Hsplit & Hul).
      destruct (negb wide && (0xFF <? c)) eqn:Eup.
      { apply andb_true_iff in Eup as [E1 _]. apply negb_true_iff in E1.
        exists UpConvert, saw, d, (b :: rest), [], false. rewrite app_nil_r, Hp0.
        split; [done | split; [done | split; [done | split; [constructor | split; [done |]]]]].
        right; right. split; [done | split; [done | split; [done | split; [done | split; [done |]]]]]. by left. }
      assert (Happ : (if wide then lift (appendCharacter destination c) else Ok (destination ++ [c]))
        = Ok (destination ++ utf16s [c])).
      { rewrite utf16s_cons. change (utf16s []) with (@nil Z). rewrite app_nil_r.
        destruct wide; [by rewrite appendCharacter_ok |]. simpl in Eup. bool_to_prop.
        by rewrite utf16_bmp by lia. }
      rewrite Happ. cbn [mbind result_bind].
      apply (loop_step _ _ _ _ _ (drop (lengthOf b) (b :: rest)) destination [c] false).
      * rewrite orb_false_r. apply IH; [rewrite length_drop; simpl; lia | by apply Forall_drop | done | done].
      * intros u' e' r Hp. rewrite Hsplit. by apply (parses_char false c _ u' e').
      * intros ->. simpl in Eup. bool_to_prop. split; [done |]. by repeat constructor.
Qed.

(** ** Safety: any codec, any bytes *)

(** A waiting sequence begins with a byte that decodes to nothing as it stands. *)
Definition waits (d : TextCodecUTF8) : Prop :=
  m_partialSequenceSize d = 0%nat \/
  exists b a, m_partialSequence d = b :: a /\ 0x80 <= b /\
    (lengthOf b = 0%nat \/ (m_partialSequenceSize d < lengthOf b)%nat \/
     decodeNonASCIISequence (b :: a) (lengthOf b) = Some nonCharacter).

(** The room that what is read needs: a unit for each byte. *)
Definition room (d : TextCodecUTF8) (source destination : list Z) : nat :=
  (length destination + m_partialSequenceSize d + length source)%nat.

(** How a handler of the partial sequence leaves the codec. *)
Definition handled (flush stopOnError : bool) (d : TextCodecUTF8) (source destination : list Z)
    (d' : TextCodecUTF8) (s' destination' : list Z) : Prop :=
  codecOk d' /\ waits d' /\ (exists n, s' = drop n source) /\
  (room d' s' destination' <= room d source destination)%nat /\
  (Forall isUnit destination -> Forall isUnit destination') /\
  (m_partialSequenceSize d' = 0%nat \/ flush = false \/ stopOnError = true).

Lemma partial_head (d : TextCodecUTF8) :
  codecOk d -> exists b a, m_partialSequence d = b :: a /\ isByte b /\ Forall isByte (b :: a) /\
    (length (b :: a) = 4)%nat.
Proof.
  intros (Hl & Hb & _). destruct (m_partialSequence d) as [| b a]; [done |]. exists b, a.
  split; [done | split; [by apply Forall_cons_1 in Hb as [? _] | done]].
Qed.

Lemma utf16_isUnit (c : Z) : scalar c -> Forall isUnit (utf16 c).
Proof.
  intros [Hc _]. unfold utf16, isUnit. destruct (c <? 0x10000) eqn:E; bool_to_prop.
  - repeat constructor; lia.
  - repeat constructor; Z.div_mod_to_equations; lia.
Qed.

(** Decoding the array of a codec that holds a whole sequence. *)
Lemma array_decode (d : TextCodecUTF8) (b : Z) (a : list Z) :
  codecOk d -> m_partialSequence d = b :: a -> (lengthOf b <> 0)%nat ->
  exists c, decodeNonASCIISequence (m_partialSequence d) (lengthOf b) = Some c /\
    decided (m_partialSequence d) (lengthOf b) c.
Proof.
  intros (Hl & Hb & _) E H0. rewrite E in *. apply decode_ok; [done | done |].
  rewrite Hl. apply lengthOf_le.
Qed.

Lemma add_head (n : nat) (source : list Z) (d d' : TextCodecUTF8) (b : Z) (a : list Z) :
  addToPartialSequence n source d = Some d' -> m_partialSequence d = b :: a ->
  (m_partialSequenceSize d <> 0)%nat -> exists a', m_partialSequence d' = b :: a'.
Proof.
  unfold addToPartialSequence, copyBytes. intros E Ea Hn. destruct (ASSERT _); [| done].
  simpl in E. injection E as <-. simpl. rewrite Ea.
  destruct (m_partialSequenceSize d); [done |]. simpl. by eexists.
Qed.

Lemma shrink_ok (n : nat) (d : TextCodecUTF8) :
  codecOk d -> codecOk (mkUTF8 (m_partialSequence d) (m_partialSequenceSize d - n)).
Proof. intros (Hl & Hb & Hs). repeat split; simpl; try done. lia. Qed.

Lemma handle16_safe (fuel : nat) (flush stopOnError saw : bool) (d : TextCodecUTF8) (source destination : list Z) :
  (m_partialSequenceSize d + length source < fuel)%nat -> codecOk d -> (m_partialSequenceSize d <> 0)%nat ->
  Forall isByte source ->
  exists saw' d' s' dest', handlePartialSequence16 fuel flush stopOnError saw d source destination
      = Ok (saw', d', s', dest') /\ handled flush stopOnError d source destination d' s' dest'.
Proof.
  revert saw d source destination.
  induction fuel as [| fuel IH]; intros saw d source destination Hf Hd Hn Hb; [lia |].
  cbn [handlePartialSequence16]. destruct (partial_head d Hd) as (b & a & Ea & Hbb & Hba & Hla).
  rewrite Ea. change ((b :: a) !! 0%nat) with (Some b). cbn [lift mbind result_bind].
  (* going on with a smaller codec *)
  assert (Hgo : forall saw1 d1 n dest1, codecOk d1 -> (n <= length source)%nat ->
    (m_partialSequenceSize d1 + length (drop n source) < m_partialSequenceSize d + length source)%nat ->
    (room d1 (drop n source) dest1 <= room d source destination)%nat ->
    (Forall isUnit destination -> Forall isUnit dest1) ->
    exists saw' d' s' dest',
      (if Nat.eqb (m_partialSequenceSize d1) 0 then Ok (saw1, d1, drop n source, dest1)
       else handlePartialSequence16 fuel flush stopOnError saw1 d1 (drop n source) dest1) = Ok (saw', d', s', dest') /\
      handled flush stopOnError d source destination d' s' dest').
  { intros saw1 d1 n dest1 Hd1 Hn1 Hlt Hroom Hu. destruct (Nat.eqb _ 0) eqn:E0.
    - apply Nat.eqb_eq in E0. do 4 eexists. split; [done |].
      split; [done | split; [by left | split; [by exists n | split; [done | split; [done | by left]]]]].
    - apply Nat.eqb_neq in E0.
      destruct (IH saw1 d1 (drop n source) dest1) as (saw' & d' & s' & dest' & E & H1 & H2 & [m H3] & H4 & H5 & H6);
        [lia | done | done | by apply Forall_drop |].
      do 4 eexists. split; [exact E |]. split; [done | split; [done | split; [| split; [lia | split; [tauto | done]]]]].
      exists (n + m)%nat. by rewrite H3, drop_drop. }
  (* an error *)
  assert (Herror : forall d1 n, codecOk d1 -> (n <= length source)%nat ->
    (m_partialSequenceSize d1 + length (drop n source) <= m_partialSequenceSize d + length source)%nat ->
    (m_partialSequenceSize d1 <> 0)%nat -> waits d1 ->
    exists saw' d' s' dest',
      ('(d2, destination1) ← lift (handleError stopOnError d1 destination);
       if stopOnError then Ok (true, d2, drop n source, destination1)
       else if Nat.eqb (m_partialSequenceSize d2) 0 then Ok (true, d2, drop n source, destination1)
       else handlePartialSequence16 fuel flush stopOnError true d2 (drop n source) destination1)
      = Ok (saw', d', s', dest') /\ handled flush stopOnError d source destination d' s' dest').
  { intros d1 n Hd1 Hn1 Hle Hs1 Hw. unfold handleError. destruct stopOnError.
    - cbn [lift mbind result_bind]. do 4 eexists. split; [done |].
      split; [done | split; [done | split; [by exists n | split; [unfold room; lia | split; [done | by right; right]]]]].
    - destruct (consumeByte_ok d1 Hd1 Hs1) as (d2 & -> & Hd2 & Hs2 & _). cbn [lift option_bind mbind result_bind].
      apply Hgo; [done | done | lia | unfold room; rewrite length_app; simpl; lia |].
      intros Hu. apply Forall_app. split; [done |]. repeat constructor; unfold isUnit, replacementCharacter; lia. }
  assert (Hfinish : forall d1 n, codecOk d1 -> (n <= length source)%nat ->
    (m_partialSequenceSize d1 + length (drop n source) <= m_partialSequenceSize d + length source)%nat ->
    (m_partialSequenceSize d1 <> 0)%nat -> 0x80 <= b -> (lengthOf b <> 0)%nat ->
    (lengthOf b <= m_partialSequenceSize d1)%nat -> (exists a', m_partialSequence d1 = b :: a') ->
    exists saw' d' s' dest',
      (character ← lift (decodeNonASCIISequence (m_partialSequence d1) (lengthOf b));
       if character =? nonCharacter then
         '(d2, destination1) ← lift (handleError stopOnError d1 destination);
         if stopOnError then Ok (true, d2, drop n source, destination1)
         else if Nat.eqb (m_partialSequenceSize d2) 0 then Ok (true, d2, drop n source, destination1)
         else handlePartialSequence16 fuel flush stopOnError true d2 (drop n source) destination1
       else
         destination1 ← lift (appendCharacter destination character);
         if Nat.eqb (m_partialSequenceSize (mkUTF8 (m_partialSequence d1) (m_partialSequenceSize d1 - lengthOf b))) 0
         then Ok (saw, mkUTF8 (m_partialSequence d1) (m_partialSequenceSize d1 - lengthOf b), drop n source, destination1)
         else handlePartialSequence16 fuel flush stopOnError saw
           (mkUTF8 (m_partialSequence d1) (m_partialSequenceSize d1 - lengthOf b)) (drop n source) destination1)
      = Ok (saw', d', s', dest') /\ handled flush stopOnError d source destination d' s' dest').
  { intros d1 n Hd1 Hn1 Hle Hs1 Hge H0 Hfull [a' Ea'].
    destruct (array_decode d1 b a' Hd1 Ea' H0) as (c & Ec & Hdec). rewrite Ec. cbn [lift mbind result_bind].
    destruct (c =? nonCharacter) eqn:En.
    - apply Herror; try done. right. exists b, a'. apply Z.eqb_eq in En. subst c. rewrite Ea' in Ec. auto.
    - apply Z.eqb_neq in En. destruct Hdec as [[? _] | (Hsc & Ht & _)]; [done |].
      rewrite appendCharacter_ok by done. cbn [lift mbind result_bind].
      assert (Hlu : length (utf8 c) = lengthOf b).
      { rewrite <- Ht, length_take. destruct Hd1 as (Hl1 & _ & _). rewrite Hl1. pose proof (lengthOf_le b).
        unfold U8_MAX_LENGTH. lia. }
      pose proof (utf16_length c Hsc).
      apply Hgo; [by apply shrink_ok | done | cbn [m_partialSequenceSize]; lia | |].
      + unfold room in *. cbn [m_partialSequenceSize]. rewrite length_app. lia.
      + intros Hu. apply Forall_app. split; [done | by apply utf16_isUnit]. }
  rewrite isASCII_spec by done. destruct (b <? 0x80) eqn:E80.
  { destruct (consumeByte_ok d Hd Hn) as (d1 & -> & Hd1 & Hs1 & _). cbn [lift mbind result_bind].
    apply (Hgo saw d1 0%nat (destination ++ [b])); [done | lia | rewrite drop_0; lia | |].
    - unfold room. rewrite drop_0, length_app. simpl. lia.
    - intros Hu. apply Forall_app. split; [done |]. unfold isByte in Hbb. repeat constructor; lia. }
  bool_to_prop. rewrite nonASCIISequenceLength_spec by done. cbn [lift mbind result_bind].
  destruct (Nat.eqb (lengthOf b) 0) eqn:El.
  { apply Nat.eqb_eq in El. apply (Herror d 0%nat); rewrite ?drop_0; try done; try lia.
    right. exists b, a. auto. }
  apply Nat.eqb_neq in El. destruct (Nat.ltb (m_partialSequenceSize d) (lengthOf b)) eqn:Elt.
  2: { apply Nat.ltb_ge in Elt. rewrite <- Ea. apply (Hfinish d 0%nat); rewrite ?drop_0; try done; try lia. by exists a. }
  apply Nat.ltb_lt in Elt. pose proof (lengthOf_le b) as H4.
  destruct (Nat.ltb (length source) _) eqn:Emore.
  - apply Nat.ltb_lt in Emore. destruct flush; cbn [negb].
    + apply (Herror d 0%nat); rewrite ?drop_0; try done; try lia. right. exists b, a. auto.
    + destruct (add_ok (length source) source d Hd Hb (Nat.le_refl _)) as (d1 & E1 & Hd1 & Hs1 & Hp1).
      { unfold U8_MAX_LENGTH. lia. }
      rewrite E1. cbn [lift mbind result_bind]. destruct (add_head _ _ _ _ _ _ E1 Ea Hn) as [a' Ea'].
      do 4 eexists. split; [done |]. split; [done | split; [| split; [| split; [| split; [done | by right; left]]]]].
      * right. exists b, a'. split; [done | split; [done |]]. right; left. lia.
      * exists (length source). by rewrite drop_all.
      * unfold room. simpl. lia.
  - apply Nat.ltb_ge in Emore.
    destruct (add_ok (lengthOf b - m_partialSequenceSize d) source d Hd Hb Emore) as (d1 & E1 & Hd1 & Hs1 & Hp1).
    { unfold U8_MAX_LENGTH. lia. }
    rewrite E1. cbn [lift mbind result_bind].
    apply Hfinish; try done; try lia; [rewrite length_drop; lia |]. by apply (add_head _ _ _ _ _ _ E1 Ea Hn).
Qed.

(** The 8-bit handler of a waiting sequence runs once: more bytes are needed, 16 bits
    are needed, or the sequence is completed to a character. *)
Lemma handle8_ok (fuel : nat) (flush : bool) (d : TextCodecUTF8) (source destination : list Z) :
  codecOk d -> waits d -> (m_partialSequenceSize d <> 0)%nat -> Forall isByte source ->
  let m := handlePartialSequence8 (S fuel) flush d source destination in
  (exists d1 n, m = Ok (true, d1, drop n source, destination) /\ codecOk d1 /\ (n <= length source)%nat /\
     m_partialSequenceSize d1 = (m_partialSequenceSize d + n)%nat /\
     partialBytes d1 = partialBytes d ++ take n source) \/
  (flush = false /\ exists d1, m = Ok (false, d1, [], destination) /\ codecOk d1 /\ waits d1 /\
     m_partialSequenceSize d1 = (m_partialSequenceSize d + length source)%nat /\
     partialBytes d1 = partialBytes d ++ source) \/
  (exists d1 n c, m = Ok (false, d1, drop n source, destination ++ [c]) /\ codecOk d1 /\
     m_partialSequenceSize d1 = 0%nat /\ (1 <= n <= length source)%nat /\ 0x80 <= c <= 0xFF /\
     partialBytes d ++ take n source = utf8 c).
Proof.
  intros Hd [Hw | (b & a & Ea & Hge & Hw)] Hn Hb; [done |]. cbn [handlePartialSequence8].
  assert (Hbb : isByte b).
  { destruct Hd as (_ & Hbs & _). rewrite Ea in Hbs. by apply Forall_cons_1 in Hbs as [? _]. }
  rewrite Ea. change ((b :: a) !! 0%nat) with (Some b). cbn [lift mbind result_bind].
  rewrite isASCII_spec, (proj2 (Z.ltb_ge b 0x80)) by done.
  rewrite nonASCIISequenceLength_spec by done. cbn [lift mbind result_bind].
  assert (Hstay : exists d1 n, Ok (true, d, source, destination) = Ok (true, d1, drop n source, destination) /\
     codecOk d1 /\ (n <= length source)%nat /\ m_partialSequenceSize d1 = (m_partialSequenceSize d + n)%nat /\
     partialBytes d1 = partialBytes d ++ take n source).
  { exists d, 0%nat. rewrite drop_0, app_nil_r. split; [done | split; [done | split; [lia | split; [lia | done]]]]. }
  destruct (Nat.eqb (lengthOf b) 0) eqn:E0; [by left |]. apply Nat.eqb_neq in E0.
  destruct (Nat.ltb (m_partialSequenceSize d) (lengthOf b)) eqn:Elt.
  2: { apply Nat.ltb_ge in Elt. destruct Hw as [? | [? | ->]]; [lia | lia |].
       cbn [lift mbind result_bind]. by left. }
  apply Nat.ltb_lt in Elt. pose proof (lengthOf_le b) as H4.
  destruct (Nat.ltb (length source) _) eqn:Emore.
  - apply Nat.ltb_lt in Emore. destruct flush; cbn [negb]; [by left | right; left]. split; [done |].
    destruct (add_ok (length source) source d Hd Hb (Nat.le_refl _)) as (d1 & E1 & Hd1 & Hs1 & Hp1).
    { unfold U8_MAX_LENGTH. lia. }
    rewrite E1. cbn [lift mbind result_bind]. destruct (add_head _ _ _ _ _ _ E1 Ea Hn) as [a' Ea'].
    exists d1. split; [done | split; [done | split; [| split; [done |]]]].
    + right. exists b, a'. split; [done | split; [done |]]. right; left. lia.
    + by rewrite Hp1, take_ge.
  - apply Nat.ltb_ge in Emore.
    destruct (add_ok (lengthOf b - m_partialSequenceSize d) source d Hd Hb Emore) as (d1 & E1 & Hd1 & Hs1 & Hp1).
    { unfold U8_MAX_LENGTH. lia. }
    rewrite E1. cbn [lift mbind result_bind]. destruct (add_head _ _ _ _ _ _ E1 Ea Hn) as [a' Ea'].
    destruct (array_decode d1 b a' Hd1 Ea' E0) as (c & -> & Hdec). cbn [lift mbind result_bind].
    destruct ((c =? nonCharacter) || (0xFF <? c)) eqn:Ec.
    + left. exists d1, (lengthOf b - m_partialSequenceSize d)%nat. auto.
    + right; right. apply orb_false_iff in Ec as [Ec1 Ec2]. bool_to_prop.
      destruct Hdec as [[? _] | (Hsc & Ht & Hge')]; [done |].
      assert (Hfull : m_partialSequenceSize d1 = lengthOf b) by lia.
      cbn [m_partialSequenceSize]. rewrite Hfull, Nat.sub_diag. cbn [Nat.eqb].
      eexists _, (lengthOf b - m_partialSequenceSize d)%nat, c.
      split; [done | split; [| split; [done | split; [lia | split; [lia |]]]]].
      * pose proof (shrink_ok (lengthOf b) d1 Hd1) as Hs. by rewrite Hfull, Nat.sub_diag in Hs.
      * rewrite <- Hp1, <- Ht. unfold partialBytes. by rewrite Hfull.
Qed.

Lemma incomplete_waits (d : TextCodecUTF8) :
  codecOk d -> incomplete (partialBytes d) -> waits d.
Proof.
  intros Hd Hi. pose proof (partial_length d Hd) as Hlen.
  destruct (decide (m_partialSequenceSize d = 0%nat)) as [|Hn]; [by left | right].
  destruct (partial_head d Hd) as (b & a & Ea & _ & _ & _). exists b, a. split; [done |].
  unfold partialBytes in *. rewrite Ea in *. destruct (m_partialSequenceSize d); [done |].
  simpl in Hi, Hlen. destruct Hi as [H1 H2]. split; [done | right; left]. lia.
Qed.

(** What is left of a source, and the codec, after a loop. *)
Lemma loop_room (source u r : list Z) (e : bool) (d' : TextCodecUTF8) (s' destination : list Z) :
  codecOk d' -> parses false source u e (partialBytes d' ++ s') ->
  (room d' s' (destination ++ utf16s u) <= length destination + length source)%nat.
Proof.
  intros Hd Hp. apply parses_length in Hp. rewrite length_app in Hp.
  rewrite (partial_length d' Hd) in Hp. unfold room. rewrite length_app. lia.
Qed.

Lemma parses_units (final : bool) (l u r : list Z) (e : bool) : parses final l u e r -> Forall isUnit (utf16s u).
Proof.
  induction 1 as [r | c l u e r Hc H IH | b l u e r Hb H IH]; [done | |]; rewrite utf16s_cons;
    apply Forall_app; split; try done; [by apply utf16_isUnit |].
  repeat constructor; unfold isUnit, replacementCharacter; lia.
Qed.

(** The 8-bit half of decode. *)
Definition decoded8 (d : TextCodecUTF8) (source destination : list Z) (m : result LoopState) : Prop :=
  exists ended saw' d' s' dest', m = Ok (ended, saw', d', s', dest') /\ codecOk d' /\ Forall isByte s' /\
    (Forall isUnit destination -> Forall isUnit dest') /\
    (room d' s' dest' <= room d source destination)%nat /\
    match ended with
    | Finished => waits d'
    | UpConvert => (length dest' + length s' <= length destination + length source)%nat
    end.

Lemma decodeLoop8_safe (fuel : nat) (flush stopOnError saw : bool) (d : TextCodecUTF8)
    (source destination : list Z) :
  (if bool_decide (m_partialSequenceSize d = 0%nat) then 2 <= fuel
   else if bool_decide (source = []) && flush then 1 <= fuel else 3 <= fuel)%nat ->
  codecOk d -> waits d -> Forall isByte source ->
  decoded8 d source destination
    (decodeLoop8 wordSize endAddress fuel flush stopOnError saw d source destination).
Proof.
  revert saw d source destination.
  induction fuel as [| fuel IH]; intros saw d source destination Hf Hd Hw Hb.
  { exfalso. repeat case_match; lia. }
  cbn [decodeLoop8].
  (* the loop over the source, and possibly once more *)
  assert (Hbody : forall d1 s1 dest1, codecOk d1 -> m_partialSequenceSize d1 = 0%nat -> Forall isByte s1 ->
    (1 <= fuel)%nat -> (Forall isUnit destination -> Forall isUnit dest1) ->
    (room d1 s1 dest1 <= room d source destination)%nat ->
    (length dest1 + length s1 <= length destination + length source)%nat ->
    decoded8 d source destination
      ('(ended, saw0, d2, s2, dest2) ←
         sourceLoop8 wordSize endAddress (S (length s1)) stopOnError saw d1 s1 dest1;
       match ended with
       | Finished => if flush && negb (Nat.eqb (m_partialSequenceSize d2) 0)
           then decodeLoop8 wordSize endAddress fuel flush stopOnError saw0 d2 s2 dest2
           else Ok (Finished, saw0, d2, s2, dest2)
       | UpConvert => Ok (UpConvert, saw0, d2, s2, dest2)
       end)).
  { intros d1 s1 dest1 Hd1 Hz Hb1 Hf1 Hu Hroom Hlen. unfold sourceLoop8.
    destruct (sourceLoop_ok false (S (length s1)) stopOnError saw d1 s1 dest1)
      as (ended & saw' & d2 & s2 & u & e & -> & Hd2 & Hb2 & Hp & _ & He); [lia | done.. |].
    cbn [mbind result_bind].
    assert (Hroom2 : (room d2 s2 (dest1 ++ utf16s u) <= room d source destination)%nat).
    { pose proof (loop_room s1 u [] e d2 s2 dest1 Hd2 Hp) as Hr. unfold room in Hroom, Hr |- *. rewrite Hz in Hroom. lia. }
    assert (Hu2 : Forall isUnit destination -> Forall isUnit (dest1 ++ utf16s u)).
    { intros H. apply Forall_app. split; [by apply Hu | by eapply parses_units]. }
    assert (Hlen2 : (length (dest1 ++ utf16s u) + length s2 <= length destination + length source)%nat).
    { apply parses_length in Hp. rewrite !length_app in *. lia. }
    destruct He as [(-> & -> & Hi & ->) | [(-> & -> & Hst & -> & Hs2 & _) | (-> & -> & _)]].
    - destruct (flush && negb _) eqn:Eagain.
      + apply andb_true_iff in Eagain as [-> Hnz]. apply negb_true_iff, Nat.eqb_neq in Hnz.
        destruct (IH (saw || e) d2 [] (dest1 ++ utf16s u)) as (en & sw & d3 & s3 & dest3 & -> & H1 & H2 & H3 & H4 & H5).
        { rewrite bool_decide_eq_false_2 by done. simpl. lia. }
        { done. } { by apply incomplete_waits. } { done. }
        exists en, sw, d3, s3, dest3. split; [done | split; [done | split; [done | split; [tauto | split; [lia |]]]]].
        destruct en; [done |]. lia.
      + eexists _, _, _, _, _. split; [done | split; [done | split; [done | split; [done | split; [done |]]]]].
        by apply incomplete_waits.
    - rewrite Hz. cbn [Nat.eqb negb]. rewrite andb_false_r.
      eexists _, _, _, _, _. split; [done | split; [done | split; [done | split; [done | split; [done |]]]]]. by left.
    - eexists _, _, _, _, _. split; [done | split; [done | split; [done | split; [done | split; [done | done]]]]]. }
  destruct (Nat.eqb (m_partialSequenceSize d) 0) eqn:Ez.
  { apply Nat.eqb_eq in Ez. rewrite bool_decide_eq_true_2 in Hf by done. apply Hbody; try done; lia. }
  apply Nat.eqb_neq in Ez. rewrite bool_decide_eq_false_2 in Hf by done.
  destruct (handle8_ok (m_partialSequenceSize d + length source) flush d source destination Hd Hw Ez Hb)
    as [(d1 & n & -> & Hd1 & Hn & Hs1 & _) | [(-> & d1 & -> & Hd1 & Hw1 & Hs1 & _)
       | (d1 & n & c & -> & Hd1 & Hz1 & Hn & Hc & _)]]; cbn [mbind result_bind].
  - eexists _, _, _, _, _. split; [done | split; [done | split; [by apply Forall_drop | split; [done | split]]]].
    + unfold room. rewrite length_drop. lia.
    + rewrite length_drop. lia.
  - destruct (Nat.eqb (m_partialSequenceSize d1) 0) eqn:E1; cbn [negb].
    + apply Nat.eqb_eq in E1. lia.
    + eexists _, _, _, _, _. split; [done | split; [done | split; [done | split; [done | split; [| done]]]]].
      unfold room. simpl. lia.
  - rewrite Hz1. cbn [Nat.eqb negb]. apply Hbody; try done.
    + by apply Forall_drop.
    + destruct source; [simpl in Hn; lia |]. simpl in Hf. lia.
    + intros Hu. apply Forall_app. split; [done |]. repeat constructor; unfold isUnit; lia.
    + unfold room. rewrite length_app, length_drop. simpl. lia.
    + rewrite length_app, length_drop. simpl. lia.
Qed.

(** The 16-bit half of decode. *)
Definition decoded16 (d : TextCodecUTF8) (source destination : list Z) (m : result LoopState) : Prop :=
  exists ended saw' d' s' dest', m = Ok (ended, saw', d', s', dest') /\ codecOk d' /\ waits d' /\
    (Forall isUnit destination -> Forall isUnit dest') /\
    (room d' s' dest' <= room d source destination)%nat.

Lemma decodeLoop16_safe (fuel : nat) (flush stopOnError saw : bool) (d : TextCodecUTF8)
    (source destination : list Z) :
  (if bool_decide (source = []) then 1 <= fuel else 2 <= fuel)%nat ->
  codecOk d -> Forall isByte source ->
  decoded16 d source destination
    (decodeLoop16 wordSize endAddress fuel flush stopOnError saw d source destination).
Proof.
  revert saw d source destination.
  induction fuel as [| fuel IH]; intros saw d source destination Hf Hd Hb; [exfalso; case_match; lia |].
  cbn [decodeLoop16].
  assert (Hbody : forall saw1 d1 s1 dest1, codecOk d1 -> m_partialSequenceSize d1 = 0%nat -> Forall isByte s1 ->
    (s1 = [] \/ 1 <= fuel)%nat -> (Forall isUnit destination -> Forall isUnit dest1) ->
    (room d1 s1 dest1 <= room d source destination)%nat ->
    decoded16 d source destination
      ('(ended, saw0, d2, s2, dest2) ←
         sourceLoop16 wordSize endAddress (S (length s1)) stopOnError saw1 d1 s1 dest1;
       if flush && negb (Nat.eqb (m_partialSequenceSize d2) 0)
       then decodeLoop16 wordSize endAddress fuel flush stopOnError saw0 d2 s2 dest2
       else Ok (ended, saw0, d2, s2, dest2))).
  { intros saw1 d1 s1 dest1 Hd1 Hz Hb1 Hf1 Hu Hroom. unfold sourceLoop16.
    destruct (sourceLoop_ok true (S (length s1)) stopOnError saw1 d1 s1 dest1)
      as (ended & saw' & d2 & s2 & u & e & -> & Hd2 & Hb2 & Hp & _ & He); [lia | done.. |].
    cbn [mbind result_bind].
    assert (Hroom2 : (room d2 s2 (dest1 ++ utf16s u) <= room d source destination)%nat).
    { pose proof (loop_room s1 u [] e d2 s2 dest1 Hd2 Hp) as Hr. unfold room in Hroom, Hr |- *. rewrite Hz in Hroom. lia. }
    assert (Hu2 : Forall isUnit destination -> Forall isUnit (dest1 ++ utf16s u)).
    { intros H. apply Forall_app. split; [by apply Hu | by eapply parses_units]. }
    destruct (flush && negb _) eqn:Eagain.
    - apply andb_true_iff in Eagain as [-> Hnz]. apply negb_true_iff, Nat.eqb_neq in Hnz.
      assert (Hs2 : s2 = []).
      { destruct He as [(_ & -> & _) | [(_ & -> & _) | (_ & _ & ? & _)]]; [done | | done]. congruence. }
      subst s2. destruct Hf1 as [-> | Hf1].
      { apply parses_length in Hp. rewrite length_app, (partial_length d2 Hd2) in Hp. simpl in Hp. lia. }
      destruct (IH saw' d2 [] (dest1 ++ utf16s u)) as (en & sw & d3 & s3 & dest3 & -> & H1 & H2 & H3 & H4);
        [simpl; lia | done | done |].
      exists en, sw, d3, s3, dest3. split; [done | split; [done | split; [done | split; [tauto | lia]]]].
    - eexists _, _, _, _, _. split; [done | split; [done | split; [| split; [done | done]]]].
      destruct He as [(_ & _ & Hi & _) | [(_ & -> & _) | (_ & -> & _)]]; [by apply incomplete_waits | by left..]. }
  destruct (Nat.eqb (m_partialSequenceSize d) 0) eqn:Ez.
  { apply Nat.eqb_eq in Ez. apply Hbody; try done. case_bool_decide; [by left | right; lia]. }
  apply Nat.eqb_neq in Ez.
  destruct (handle16_safe (S (m_partialSequenceSize d + length source)) flush stopOnError saw d source destination)
    as (saw1 & d1 & s1 & dest1 & -> & Hd1 & Hw1 & [n Hs1] & Hroom & Hu & _); [lia | done.. |].
  cbn [mbind result_bind]. destruct (Nat.eqb (m_partialSequenceSize d1) 0) eqn:E1; cbn [negb].
  - apply Nat.eqb_eq in E1. apply Hbody; try done; [rewrite Hs1; by apply Forall_drop |].
    case_bool_decide as He; [left; rewrite Hs1, He; apply drop_nil | right; lia].
  - eexists _, _, _, _, _. split; [done | split; [done | split; [done | split; [done | done]]]].
Qed.

(** One call keeps what the decoder knows of itself. *)
Lemma decodeUTF8_safe (bytes : list Z) (flush stopOnError saw : bool) (d : TextCodecUTF8) :
  codecOk d -> waits d -> Forall isByte bytes ->
  exists u saw' d', decodeUTF8 wordSize endAddress bytes flush stopOnError saw d = Ok (u, saw', d') /\
    codecOk d' /\ waits d' /\ Forall isUnit u /\
    (length u + m_partialSequenceSize d' <= m_partialSequenceSize d + length bytes)%nat.
Proof.
  intros Hd Hw Hb. unfold decodeUTF8.
  destruct (decodeLoop8_safe 3 flush stopOnError saw d bytes []) as
    (ended & saw1 & d1 & s1 & dest1 & -> & Hd1 & Hb1 & Hu1 & Hroom1 & Hend); [repeat case_match; lia | done.. |].
  cbn [mbind result_bind]. unfold room in Hroom1. simpl in Hroom1.
  unfold fits. rewrite (proj2 (Nat.leb_le _ _)) by lia. cbn [ASSERT lift mbind result_bind].
  destruct ended.
  { do 3 eexists. split; [done | split; [done | split; [done | split; [by apply Hu1 | lia]]]]. }
  destruct (decodeLoop16_safe 3 flush stopOnError saw1 d1 s1 dest1) as
    (en & saw2 & d2 & s2 & dest2 & -> & Hd2 & Hw2 & Hu2 & Hroom2); [case_match; lia | done.. |].
  cbn [mbind result_bind]. unfold room in Hroom2. simpl in Hend.
  rewrite (proj2 (Nat.leb_le _ _)) by lia. cbn [ASSERT lift mbind result_bind].
  do 3 eexists. split; [done | split; [done | split; [done | split; [by apply Hu2, Hu1 | lia]]]].
Qed.

(** From any state the decoder can be in, decoding any bytes with any flags at any
    alignment fails no assertion, writes neither outside the array of the partial
    sequence nor outside its string buffers, terminates, yields 16-bit units, at
    most one for each byte of the input and of the partial sequence, and leaves a
    state of the same kind. *)
Theorem utf8_safe (bytes : list Z) (flush stopOnError saw : bool) (d : TextCodecUTF8) :
  codecOk d -> waits d -> Forall isByte bytes ->
  exists u saw' d', decodeUTF8 wordSize endAddress bytes flush stopOnError saw d = Ok (u, saw', d') /\
    codecOk d' /\ waits d' /\ Forall isUnit u /\
    (length u + m_partialSequenceSize d' <= m_partialSequenceSize d + length bytes)%nat.
Proof. exact (decodeUTF8_safe bytes flush stopOnError saw d). Qed.

(** ** A whole text *)

Lemma starts_app (l l' : list Z) : starts l -> starts (l ++ l').
Proof. intros (c & r & Hc & ->). exists c, (r ++ l'). by rewrite <- app_assoc. Qed.

(** The end of the input: every byte of the waiting sequence is read by itself, or the
    last two make a character. *)
Lemma handle16_flush (fuel : nat) (saw : bool) (d : TextCodecUTF8) (destination : list Z) :
  (m_partialSequenceSize d < fuel)%nat -> codecOk d -> (m_partialSequenceSize d <> 0)%nat ->
  (m_partialSequenceSize d <= 2)%nat \/ incomplete (partialBytes d) ->
  exists d' u e, handlePartialSequence16 fuel true false saw d [] destination
      = Ok (saw || e, d', [], destination ++ utf16s u) /\
    codecOk d' /\ m_partialSequenceSize d' = 0%nat /\ parses true (partialBytes d) u e [].
Proof.
  revert saw d destination. induction fuel as [| fuel IH]; intros saw d destination Hf Hd Hn Hshort; [lia |].
  cbn [handlePartialSequence16]. destruct (partial_head d Hd) as (b & a & Ea & Hbb & Hba & Hla).
  assert (Hlen : (length (partialBytes d) = m_partialSequenceSize d)%nat) by by apply partial_length.
  assert (Hp : exists p, partialBytes d = b :: p).
  { unfold partialBytes. rewrite Ea. destruct (m_partialSequenceSize d); [done |]. by eexists. }
  destruct Hp as [p Hp]. assert (Hsize : (S (length p) = m_partialSequenceSize d)%nat) by (by rewrite Hp in Hlen).
  rewrite Ea. change ((b :: a) !! 0%nat) with (Some b). cbn [lift mbind result_bind].
  (* one unit for the first byte, then the rest *)
  assert (Hgo : forall e1 c, (forall u e r, parses true p u e r -> parses true (b :: p) (c :: u) (e1 || e) r) -> c < 0x10000 ->
    (length p <= 2)%nat ->
    exists d1, consumePartialSequenceByte d = Some d1 /\
      exists d' u e, (if Nat.eqb (m_partialSequenceSize d1) 0 then Ok (saw || e1, d1, [], destination ++ [c])
         else handlePartialSequence16 fuel true false (saw || e1) d1 [] (destination ++ [c]))
        = Ok (saw || e, d', [], destination ++ utf16s u) /\
      codecOk d' /\ m_partialSequenceSize d' = 0%nat /\ parses true (partialBytes d) u e []).
  { intros e1 c Hparse Hc Hle. destruct (consumeByte_ok d Hd Hn) as (d1 & -> & Hd1 & Hs1 & Hp1).
    rewrite Hp in Hp1 |- *. simpl in Hp1. rewrite drop_0 in Hp1. exists d1. split; [done |].
    destruct (Nat.eqb _ 0) eqn:E0.
    - apply Nat.eqb_eq in E0. destruct p; [| simpl in *; lia].
      exists d1, [c], (e1 || false). rewrite utf16s_cons, utf16_bmp by done. rewrite orb_false_r.
      split; [done | split; [done | split; [done |]]].
      pose proof (Hparse [] false [] (parses_done true [])) as HP. by rewrite orb_false_r in HP.
    - apply Nat.eqb_neq in E0.
      destruct (IH (saw || e1) d1 (destination ++ [c])) as (d' & u & e & E & H1 & H2 & H3); [lia | done | done | left; lia |].
      exists d', (c :: u), (e1 || e). rewrite E, utf16s_cons, utf16_bmp, <- app_assoc, orb_assoc by done.
      split; [done | split; [done | split; [done |]]]. apply Hparse. by rewrite <- Hp1. }
  assert (Hple : (length p <= 2)%nat).
  { destruct Hshort as [? | Hi]; [lia |]. rewrite Hp in Hi. destruct Hi as [_ Hi]. pose proof (lengthOf_le b). simpl in Hi. lia. }
  rewrite isASCII_spec by done. destruct (b <? 0x80) eqn:E80.
  { destruct (Hgo false b) as (d1 & -> & H); [| bool_to_prop; unfold isByte in Hbb; lia | done |].
    - intros u e r H. apply (parses_ascii true [b]); [by constructor | simpl; by rewrite isASCII_spec, E80 | done].
    - cbn [lift mbind result_bind]. by rewrite orb_false_r in H. }
  bool_to_prop. rewrite nonASCIISequenceLength_spec by done. cbn [lift mbind result_bind handleError].
  assert (Hbad : ~ starts (b :: p) ->
    exists d' u e,
      ('(d2, destination1) ← lift (d1 ← consumePartialSequenceByte d; Some (d1, destination ++ [replacementCharacter]));
       if Nat.eqb (m_partialSequenceSize d2) 0 then Ok (true, d2, [], destination1)
       else handlePartialSequence16 fuel true false true d2 [] destination1)
      = Ok (saw || e, d', [], destination ++ utf16s u) /\
      codecOk d' /\ m_partialSequenceSize d' = 0%nat /\ parses true (partialBytes d) u e []).
  { intros Hns. destruct (Hgo true replacementCharacter) as (d1 & -> & H); [| done | done |].
    - intros u e r HP. by apply (parses_bad true b p u e).
    - cbn [lift option_bind mbind result_bind]. by rewrite orb_true_r in H. }
  destruct (Nat.eqb (lengthOf b) 0) eqn:El.
  { apply Nat.eqb_eq in El. apply Hbad. intros Hs. apply starts_head in Hs as [? | [? _]]; [lia | done]. }
  apply Nat.eqb_neq in El. destruct (Nat.ltb (m_partialSequenceSize d) (lengthOf b)) eqn:Elt.
  { apply Nat.ltb_lt in Elt. replace (Nat.ltb (length []) _) with true by (symmetry; apply Nat.ltb_lt; simpl; lia).
    cbn [negb]. apply Hbad. intros Hs. apply starts_head in Hs as [? | [_ Hs]]; [lia | simpl in Hs; lia]. }
  apply Nat.ltb_ge in Elt. rewrite <- Ea.
  destruct Hshort as [Hshort | Hi]; [| rewrite Hp in Hi; destruct Hi as [_ Hi]; simpl in Hi; lia].
  assert (H2 : lengthOf b = 2%nat).
  { revert El Elt Hshort. unfold lengthOf. repeat case_match; lia. }
  destruct (array_decode d b a Hd Ea El) as (c & -> & Hdec). cbn [lift mbind result_bind].
  assert (Harr : exists l, m_partialSequence d = partialBytes d ++ l).
  { exists (drop (m_partialSequenceSize d) (m_partialSequence d)). unfold partialBytes. by rewrite take_drop. }
  destruct Harr as [l Harr].
  destruct Hdec as [[-> Hns] | (Hsc & Ht & Hge)].
  - rewrite Z.eqb_refl. apply Hbad. intros Hs. apply (hopeless_starts _ Hns). rewrite Harr, Hp. by apply starts_app.
  - rewrite (proj2 (Z.eqb_neq _ _)) by (unfold nonCharacter; lia).
    rewrite appendCharacter_ok by done. cbn [lift mbind result_bind m_partialSequenceSize].
    rewrite H2 in *. assert (Hsz : m_partialSequenceSize d = 2%nat) by lia. rewrite Hsz. cbn [Nat.sub Nat.eqb].
    exists (mkUTF8 (m_partialSequence d) 0), [c], false. rewrite orb_false_r. split; [| split; [| split; [done |]]].
    + rewrite utf16s_cons. change (utf16s []) with (@nil Z). by rewrite app_nil_r.
    + pose proof (shrink_ok 2 d Hd) as Hs. by rewrite Hsz in Hs.
    + replace (partialBytes d) with (utf8 c ++ []).
      * by apply (parses_char true c [] []); [| apply parses_done].
      * rewrite app_nil_r, <- Ht. unfold partialBytes. by rewrite Hsz.
Qed.

(** Both loops of decode at the end of the input, from a point where no sequence
    waits, or only an incomplete one is left. *)
Lemma decodeLoop16_flush (fuel : nat) (saw : bool) (d : TextCodecUTF8) (source destination : list Z) :
  (if bool_decide (source = []) then 1 <= fuel else 2 <= fuel)%nat ->
  codecOk d -> Forall isByte source ->
  m_partialSequenceSize d = 0%nat \/ (source = [] /\ incomplete (partialBytes d)) ->
  exists ended d' s' u e, decodeLoop16 wordSize endAddress fuel true false saw d source destination
      = Ok (ended, saw || e, d', s', destination ++ utf16s u) /\
    codecOk d' /\ m_partialSequenceSize d' = 0%nat /\ parses true (partialBytes d ++ source) u e [].
Proof.
  revert saw d source destination.
  induction fuel as [| fuel IH]; intros saw d source destination Hf Hd Hb Hcase; [exfalso; case_match; lia |].
  cbn [decodeLoop16].
  assert (Hnil : forall saw1 d1 dest1, codecOk d1 -> m_partialSequenceSize d1 = 0%nat ->
    sourceLoop16 wordSize endAddress (S (length (@nil Z))) false saw1 d1 [] dest1 = Ok (Finished, saw1, d1, [], dest1)) by done.
  destruct Hcase as [Hz | [-> Hi]].
  - rewrite Hz. cbn [Nat.eqb]. rewrite partial_empty by done. cbn [app]. unfold sourceLoop16.
    destruct (sourceLoop_ok true (S (length source)) false saw d source destination)
      as (ended & saw' & d2 & s2 & u & e & -> & Hd2 & Hb2 & Hp & _ & He); [lia | done.. |].
    cbn [mbind result_bind].
    destruct He as [(-> & -> & Hi & ->) | [(_ & _ & ? & _) | (_ & _ & ? & _)]]; [| done | done].
    rewrite app_nil_r in Hp. destruct (Nat.eqb (m_partialSequenceSize d2) 0) eqn:E2; cbn [negb andb].
    + apply Nat.eqb_eq in E2. rewrite partial_empty in Hp by done.
      eexists _, d2, [], u, e. apply parses_weaken in Hp. split; [done | split; [done | split; [done | done]]].
    + apply Nat.eqb_neq in E2. destruct source as [| b0 source].
      { apply parses_length in Hp. rewrite (partial_length d2 Hd2) in Hp. simpl in Hp. lia. }
      destruct (IH (saw || e) d2 [] (destination ++ utf16s u)) as (en & d3 & s3 & u3 & e3 & -> & H1 & H2 & H3);
        [simpl in *; lia | done | done | by right |].
      exists en, d3, s3, (u ++ u3), (e || e3). rewrite utf16s_app, app_assoc, orb_assoc.
      split; [done | split; [done | split; [done |]]]. rewrite app_nil_r in H3.
      apply parses_weaken in Hp. by eapply parses_trans.
  - destruct (Nat.eqb (m_partialSequenceSize d) 0) eqn:Ez.
    { apply Nat.eqb_eq in Ez. rewrite (Hnil saw d destination Hd Ez). cbn [mbind result_bind]. rewrite Ez. cbn [Nat.eqb negb andb].
      eexists _, d, [], [], false. rewrite orb_false_r, !app_nil_r, partial_empty by done.
      split; [done | split; [done | split; [done | constructor]]]. }
    apply Nat.eqb_neq in Ez.
    destruct (handle16_flush (S (m_partialSequenceSize d + length (@nil Z))) saw d destination)
      as (d1 & u & e & -> & Hd1 & Hz1 & Hp); [simpl; lia | done | done | by right |].
    cbn [mbind result_bind]. rewrite Hz1. cbn [Nat.eqb negb].
    rewrite (Hnil _ d1 _ Hd1 Hz1). cbn [mbind result_bind]. rewrite Hz1. cbn [Nat.eqb negb andb].
    eexists _, d1, [], u, e. rewrite app_nil_r. split; [done | split; [done | split; [done | done]]].
Qed.

Lemma decodeLoop8_leftover (fuel : nat) (saw : bool) (d : TextCodecUTF8) (destination : list Z) :
  codecOk d -> incomplete (partialBytes d) -> m_partialSequenceSize d <> 0%nat ->
  exists d', decodeLoop8 wordSize endAddress (S fuel) true false saw d [] destination
      = Ok (UpConvert, saw, d', [], destination) /\ codecOk d' /\ partialBytes d' = partialBytes d.
Proof.
  intros Hd Hi Hn. cbn [decodeLoop8]. apply Nat.eqb_neq in Hn as Hn'. rewrite Hn'.
  destruct (handle8_ok (m_partialSequenceSize d + length (@nil Z)) true d [] destination)
    as [(d1 & n & -> & Hd1 & Hle & _ & Hp) | [(? & _) | (d1 & n & c & _ & _ & _ & Hle & _)]];
    [done | by apply incomplete_waits | done | done | | done | simpl in Hle; lia].
  cbn [mbind result_bind]. exists d1. rewrite drop_nil. split; [done | split; [done |]].
  by rewrite Hp, take_nil, app_nil_r.
Qed.

Lemma decodeLoop8_flush (fuel : nat) (saw : bool) (d : TextCodecUTF8) (source : list Z) :
  (1 <= fuel)%nat -> codecOk d -> m_partialSequenceSize d = 0%nat -> Forall isByte source ->
  exists ended saw' d' s' u, decodeLoop8 wordSize endAddress (S fuel) true false saw d source []
      = Ok (ended, saw', d', s', utf16s u) /\
    codecOk d' /\ Forall isByte s' /\ parses false source u false (partialBytes d' ++ s') /\
    match ended with
    | Finished => s' = [] /\ m_partialSequenceSize d' = 0%nat /\ saw' = saw
    | UpConvert => (m_partialSequenceSize d' = 0%nat \/ (s' = [] /\ incomplete (partialBytes d'))) /\
        (saw' = saw \/ (saw' = true /\ m_partialSequenceSize d' = 0%nat /\ s' <> [] /\ hopeless s'))
    end.
Proof.
  intros Hf Hd Hz Hb. cbn [decodeLoop8]. rewrite Hz. cbn [Nat.eqb]. unfold sourceLoop8.
  destruct (sourceLoop_ok false (S (length source)) false saw d source [])
    as (ended & saw' & d2 & s2 & u & e & -> & Hd2 & Hb2 & Hp & Hnarrow & He); [lia | done.. |].
  destruct (Hnarrow eq_refl) as [-> _]. cbn [mbind result_bind app].
  destruct He as [(-> & -> & Hi & ->) | [(_ & _ & ? & _) | (-> & -> & _ & Hs2 & _ & Hsaw)]]; [| done |].
  - rewrite orb_false_r. rewrite app_nil_r in Hp. destruct (Nat.eqb (m_partialSequenceSize d2) 0) eqn:E0; cbn [negb andb].
    + apply Nat.eqb_eq in E0. exists Finished, saw, d2, [], u. rewrite app_nil_r. auto 10.
    + apply Nat.eqb_neq in E0.
      destruct fuel as [| fuel]; [lia |].
      destruct (decodeLoop8_leftover fuel saw d2 (utf16s u) Hd2 Hi E0) as (d3 & E3 & Hd3 & Hp3).
      rewrite E3. exists UpConvert, saw, d3, [], u.
      rewrite app_nil_r, Hp3. auto 10.
  - exists UpConvert, saw', d, s2, u. split; [done | split; [done | split; [done | split; [done |]]]].
    split; [by left |]. destruct Hsaw as [-> | [-> Hns]]; [by left | by right].
Qed.

(** The whole text at once. *)
Lemma decodeUTF8_all (bytes : list Z) (saw : bool) (d : TextCodecUTF8) :
  codecOk d -> m_partialSequenceSize d = 0%nat -> Forall isByte bytes ->
  exists u e d', parses true bytes u e [] /\
    decodeUTF8 wordSize endAddress bytes true false saw d = Ok (utf16s u, saw || e, d') /\
    m_partialSequenceSize d' = 0%nat.
Proof.
  intros Hd Hz Hb.
  destruct (decodeUTF8_safe bytes true false saw d Hd ltac:(by left) Hb) as (v & sw & dv & Esafe & _).
  unfold decodeUTF8 in *.
  destruct (decodeLoop8_flush 2 saw d bytes ltac:(lia) Hd Hz Hb) as (ended & saw1 & d1 & s1 & u & E1 & Hd1 & Hb1 & Hp1 & Hend).
  rewrite E1 in Esafe |- *. cbn [mbind result_bind] in *.
  destruct (fits _ (utf16s u)) as [[] |]; cbn [lift mbind result_bind] in *; [| done].
  destruct ended.
  { destruct Hend as (-> & Hz1 & ->). rewrite partial_empty in Hp1 by done.
    exists u, false, d1. apply parses_weaken in Hp1. by rewrite orb_false_r. }
  destruct Hend as [Hcase Hsaw].
  destruct (decodeLoop16_flush 3 saw1 d1 s1 (utf16s u)) as (en & d' & s' & u' & e' & E' & H1 & H2 & H3);
    [case_match; lia | done.. |].
  rewrite E' in Esafe |- *. cbn [mbind result_bind] in *.
  destruct (fits _ _) as [[] |]; cbn [lift mbind result_bind] in *; [| done].
  exists (u ++ u'), e', d'. rewrite utf16s_app. split; [| split; [| done]].
  - exact (parses_trans true _ _ _ _ _ _ _ (parses_weaken _ _ _ _ Hp1) H3).
  - do 3 f_equal. destruct Hsaw as [-> | (-> & Hz1 & Hne & Hns)]; [done |].
    assert (e' = true) as ->; [| by rewrite !orb_true_r].
    rewrite partial_empty in H3 by done. cbn [app] in H3.
    inversion H3; subst; try done. exfalso. apply (hopeless_starts _ Hns). by eexists _, _.
Qed.

(** C34: A text decoded at once: the code points are the scalar values read off its
    front in their shortest form, with U+FFFD for every byte at which none begins,
    written as UTF-16; [sawError] is set exactly when a byte was replaced; whatever
    the alignment, the fast paths and the change from 8 to 16 bits. *)
Theorem utf8_decode (bytes : list Z) (saw : bool) (d : TextCodecUTF8) :
  codecOk d -> m_partialSequenceSize d = 0%nat -> Forall isByte bytes ->
  exists u e d', parses true bytes u e [] /\
    decodeUTF8 wordSize endAddress bytes true false saw d = Ok (utf16s u, saw || e, d') /\
    m_partialSequenceSize d' = 0%nat.
Proof. exact (decodeUTF8_all bytes saw d). Qed.

(** ** Well-formed text in chunks *)

Definition utf8s (u : list Z) : list Z := concat (utf8 <$> u).

Lemma utf8s_cons (c : Z) (u : list Z) : utf8s (c :: u) = utf8 c ++ utf8s u.
Proof. done. Qed.

Lemma utf8s_starts (u : list Z) (l : list Z) : Forall scalar u -> utf8s u = l -> l <> [] -> starts l.
Proof.
  intros Hu <- Hne. destruct u as [| c u]; [done |]. apply Forall_cons_1 in Hu as [Hc _].
  by exists c, (utf8s u).
Qed.

(** What is read from the front of a well-formed text is a part of it. *)
Lemma parses_valid (l u r future v : list Z) (e : bool) :
  parses false l u e r -> Forall scalar v -> l ++ future = utf8s v ->
  e = false /\ exists v', v = u ++ v' /\ r ++ future = utf8s v'.
Proof.
  intros H. revert v. induction H as [r | c l u e r Hc H IH | b l u e r Hb H IH]; intros v Hv E.
  - split; [done |]. by exists v.
  - rewrite <- app_assoc in E. destruct v as [| c' v].
    { exfalso. apply (f_equal length) in E. rewrite length_app in E. pose proof (utf8_length c). simpl in E. lia. }
    apply Forall_cons_1 in Hv as [Hc' Hv]. rewrite utf8s_cons in E.
    assert (c = c') as <- by by apply (utf8_inj_prefix c c' (l ++ future) (utf8s v)).
    apply app_inv_head in E. destruct (IH v Hv E) as (-> & v' & -> & Hr). split; [done |]. by exists v'.
  - exfalso. apply (Hb future). by apply (utf8s_starts v).
Qed.

(** A waiting sequence that is the beginning of the encoding of [c]. *)
Record begun (d : TextCodecUTF8) (c : Z) (q : list Z) : Prop := {
  bg_ok : codecOk d;
  bg_scalar : scalar c;
  bg_text : utf8 c = partialBytes d ++ q;
  bg_size : m_partialSequenceSize d <> 0%nat;
  bg_high : 0x80 <= c }.

(** Its head, and decoding it when it is complete. *)
Lemma begun_head (d : TextCodecUTF8) (c : Z) (q : list Z) :
  begun d c q -> exists b a, m_partialSequence d = b :: a /\ isByte b /\ 0x80 <= b /\
    lengthOf b = (m_partialSequenceSize d + length q)%nat /\ lengthOf b <> 0%nat.
Proof.
  intros [Hd Hc Ht Hn Hhi]. destruct (partial_head d Hd) as (b & a & Ea & Hb & _ & _).
  exists b, a. split; [done | split; [done |]].
  pose proof (partial_length d Hd) as Hlen.
  destruct (utf8_head c [] Hc) as (b' & r & E & _ & Hcase). rewrite app_nil_r in E.
  assert (b' = b) as ->.
  { rewrite Ht in E. unfold partialBytes in E. rewrite Ea in E.
    destruct (m_partialSequenceSize d); [done |]. simpl in E. by injection E as -> _. }
  destruct Hcase as [(? & -> & _) | (? & Hl & ?)]; [lia |].
  rewrite Ht, length_app in Hl. split; [done | split; lia].
Qed.

Lemma begun_decode (d : TextCodecUTF8) (c : Z) :
  begun d c [] ->
  decodeNonASCIISequence (m_partialSequence d) (m_partialSequenceSize d) = Some c.
Proof.
  intros Hg. destruct (begun_head d c [] Hg) as (b & a & Ea & Hb & Hge & Hl & H0).
  destruct Hg as [Hd Hc Ht Hn _]. rewrite app_nil_r in Ht. simpl in Hl. rewrite Nat.add_0_r in Hl.
  destruct (array_decode d b a Hd Ea H0) as (c' & E & Hdec). rewrite <- Hl, E.
  assert (Harr : m_partialSequence d = utf8 c ++ drop (m_partialSequenceSize d) (m_partialSequence d)).
  { rewrite Ht. unfold partialBytes. by rewrite take_drop. }
  destruct Hdec as [[_ Hh] | (Hsc & Htk & _)].
  - exfalso. apply (hopeless_starts _ Hh). rewrite Harr. by exists c, (drop (m_partialSequenceSize d) (m_partialSequence d)).
  - do 2 f_equal. apply (utf8_inj_prefix c' c [] []); [done.. |]. rewrite !app_nil_r, <- Htk, Ht, Hl.
    done.
Qed.

(** The rest of the sequence moves into the array. *)
Lemma begun_add (d : TextCodecUTF8) (c : Z) (n : nat) (q source : list Z) :
  begun d c q -> Forall isByte source -> (n <= length source)%nat -> (n <= length q)%nat ->
  take n source = take n q ->
  exists d', addToPartialSequence n source d = Some d' /\ begun d' c (drop n q) /\
    m_partialSequenceSize d' = (m_partialSequenceSize d + n)%nat.
Proof.
  intros Hg Hb Hn Hq Heq. destruct (begun_head d c q Hg) as (b & a & Ea & _ & _ & Hl & _).
  destruct Hg as [Hd Hc Ht Hs Hhi]. pose proof (lengthOf_le b).
  destruct (add_ok n source d Hd Hb Hn) as (d' & E & Hd' & Hs' & Hp'); [unfold U8_MAX_LENGTH; lia |].
  exists d'. split; [done | split; [| done]]. split; [done | done | | lia | done].
  by rewrite Ht, Hp', Heq, <- app_assoc, take_drop.
Qed.

(** The source ends inside the sequence, or goes on behind it. *)
Lemma sequence_split (q source future rest : list Z) :
  source ++ future = q ++ rest ->
  (length source < length q)%nat /\ take (length source) source = take (length source) q \/
  (length q <= length source)%nat /\ take (length q) source = take (length q) q /\
    drop (length q) source ++ future = rest.
Proof.
  intros E. apply app_eq_inv in E as [(k & -> & ->) | (k & -> & Ef)].
  - right. rewrite length_app, take_app_length, firstn_all, drop_app_length. split; [lia | done].
  - destruct k as [| x k]; [right | left].
    + rewrite app_nil_r in *. split; [lia | split; [done |]]. by rewrite drop_all.
    + rewrite length_app, take_app_length, firstn_all. simpl. split; [lia | done].
Qed.

(** The 8-bit handler on the beginning of [c]. *)
Lemma handle8_valid (fuel : nat) (d : TextCodecUTF8) (c : Z) (q source future rest destination : list Z) :
  begun d c q -> q <> [] -> Forall isByte source -> source ++ future = q ++ rest ->
  (exists d' q', handlePartialSequence8 (S fuel) false d source destination = Ok (false, d', [], destination) /\
     begun d' c q' /\ q' <> [] /\ future = q' ++ rest) \/
  (c <= 0xFF /\ exists d' s', handlePartialSequence8 (S fuel) false d source destination
       = Ok (false, d', s', destination ++ [c]) /\
     codecOk d' /\ m_partialSequenceSize d' = 0%nat /\ Forall isByte s' /\ s' ++ future = rest) \/
  (0xFF < c /\ exists d' s', handlePartialSequence8 (S fuel) false d source destination
       = Ok (true, d', s', destination) /\ begun d' c [] /\ Forall isByte s' /\ s' ++ future = rest).
Proof.
  intros Hg Hq Hb E. destruct (begun_head d c q Hg) as (b & a & Ea & Hbb & Hge & Hl & H0).
  pose proof (bg_size _ _ _ Hg) as Hn. assert (length q <> 0)%nat by (by destruct q).
  cbn [handlePartialSequence8]. rewrite Ea. change ((b :: a) !! 0%nat) with (Some b). cbn [lift mbind result_bind].
  rewrite isASCII_spec, (proj2 (Z.ltb_ge b 0x80)) by done.
  rewrite nonASCIISequenceLength_spec by done. cbn [lift mbind result_bind].
  apply Nat.eqb_neq in H0 as H0'. rewrite H0', Hl.
  rewrite (proj2 (Nat.ltb_lt _ _)) by lia. replace (m_partialSequenceSize d + length q - m_partialSequenceSize d)%nat with (length q) by lia.
  destruct (sequence_split q source future rest E) as [[Hlt Ht] | (Hle & Ht & Er)].
  - left. rewrite (proj2 (Nat.ltb_lt _ _)) by done. cbn [negb].
    destruct (begun_add d c (length source) q source Hg Hb ltac:(lia) ltac:(lia) Ht) as (d' & -> & Hg' & _).
    cbn [lift mbind result_bind]. exists d', (drop (length source) q). split; [done | split; [done | split]].
    + intros Hd%(f_equal length). rewrite length_drop in Hd. simpl in Hd. lia.
    + apply (app_inv_head source). rewrite E. rewrite <- (take_drop (length source) q) at 1.
      by rewrite <- Ht, firstn_all, <- app_assoc.
  - right. rewrite (proj2 (Nat.ltb_ge _ _)) by done.
    destruct (begun_add d c (length q) q source Hg Hb Hle ltac:(lia) Ht) as (d' & -> & Hg' & Hs').
    rewrite drop_all in Hg'. cbn [lift mbind result_bind]. rewrite <- Hs', (begun_decode d' c Hg').
    cbn [lift mbind result_bind]. pose proof (bg_high _ _ _ Hg).
    rewrite (proj2 (Z.eqb_neq c nonCharacter)) by (unfold nonCharacter; lia). cbn [orb].
    destruct (0xFF <? c) eqn:Ec; bool_to_prop; [right | left]; (split; [lia |]).
    + exists d', (drop (length q) source). split; [done | split; [done | split; [by apply Forall_drop | done]]].
    + cbn [m_partialSequenceSize]. rewrite Nat.sub_diag. cbn [Nat.eqb].
      eexists _, (drop (length q) source). split; [done | split; [| split; [done | split; [by apply Forall_drop | done]]]].
      pose proof (shrink_ok (m_partialSequenceSize d') d' (bg_ok _ _ _ Hg')) as Hs. by rewrite Nat.sub_diag in Hs.
Qed.

(** The 16-bit handler on a complete sequence. *)
Lemma handle16_valid (fuel : nat) (stopOnError saw : bool) (d : TextCodecUTF8) (c : Z) (source destination : list Z) :
  begun d c [] ->
  exists d', handlePartialSequence16 (S fuel) false stopOnError saw d source destination
      = Ok (saw, d', source, destination ++ utf16 c) /\ codecOk d' /\ m_partialSequenceSize d' = 0%nat.
Proof.
  intros Hg. destruct (begun_head d c [] Hg) as (b & a & Ea & Hbb & Hge & Hl & H0).
  cbn [handlePartialSequence16]. pose proof (begun_decode d c Hg) as Hdec. rewrite Ea in *.
  change ((b :: a) !! 0%nat) with (Some b). cbn [lift mbind result_bind].
  rewrite isASCII_spec, (proj2 (Z.ltb_ge b 0x80)) by done.
  rewrite nonASCIISequenceLength_spec by done. cbn [lift mbind result_bind].
  apply Nat.eqb_neq in H0 as H0'. rewrite H0', Hl. simpl length. rewrite Nat.add_0_r, Nat.ltb_irrefl, Hdec.
  cbn [lift mbind result_bind]. destruct Hg as [Hd Hc _ _ Hhi].
  rewrite (proj2 (Z.eqb_neq c nonCharacter)) by (unfold nonCharacter; lia).
  rewrite appendCharacter_ok by done. cbn [lift mbind result_bind m_partialSequenceSize].
  rewrite Nat.sub_diag. cbn [Nat.eqb]. eexists. split; [done | split; [| done]].
  pose proof (shrink_ok (m_partialSequenceSize d) d Hd) as Hs. by rewrite Nat.sub_diag, Ea in Hs.
Qed.

(** The codec between two chunks of a well-formed text: [v] is what is still to come,
    its encoding the waiting bytes and the [future] ones. *)
Record between (d : TextCodecUTF8) (v future : list Z) : Prop := {
  bt_ok : codecOk d;
  bt_incomplete : incomplete (partialBytes d);
  bt_scalars : Forall scalar v;
  bt_text : partialBytes d ++ future = utf8s v }.

Lemma between_begun (d : TextCodecUTF8) (v future : list Z) :
  between d v future -> m_partialSequenceSize d <> 0%nat ->
  exists c v' q, v = c :: v' /\ begun d c q /\ q <> [] /\ future = q ++ utf8s v'.
Proof.
  intros [Hd Hi Hv Ht] Hn. pose proof (partial_length d Hd) as Hlen.
  destruct (partialBytes d) as [| b p] eqn:Ep; [simpl in Hlen; lia |]. destruct Hi as [Hge Hi].
  destruct v as [| c v]; [done |]. apply Forall_cons_1 in Hv as [Hc Hv]. rewrite utf8s_cons in Ht.
  destruct (utf8_head c (utf8s v) Hc) as (b' & r & E & _ & Hcase).
  assert (b' = b) as ->.
  { change ((b :: p) ++ future) with (b :: (p ++ future)) in Ht. rewrite E in Ht. by injection Ht as ->. }
  destruct Hcase as [(? & _) | (_ & Hl & _)]; [lia |].
  apply app_eq_inv in Ht as [(k & Ek & _) | (q & Eq & Ef)].
  { exfalso. apply (f_equal length) in Ek. rewrite length_app in Ek. simpl in Ek, Hi. lia. }
  exists c, v, q. split; [done | split; [| split; [| done]]].
  - split; [done | done | by rewrite Ep | done |]. unfold utf8 in Eq. destruct (c <? 0x80) eqn:E8; bool_to_prop; [| lia].
    injection Eq as -> _. lia.
  - intros ->. rewrite app_nil_r in Eq. rewrite <- Eq in Hi. lia.
Qed.

Lemma begun_between (d : TextCodecUTF8) (c : Z) (q v future : list Z) :
  begun d c q -> q <> [] -> Forall scalar v -> future = q ++ utf8s v -> between d (c :: v) future.
Proof.
  intros Hg Hq Hv ->. destruct (begun_head d c q Hg) as (b & a & Ea & _ & Hge & Hl & _).
  destruct Hg as [Hd Hc Ht Hn _]. split; [done | | by constructor |].
  - pose proof (partial_length d Hd) as Hlen. unfold partialBytes in *. rewrite Ea in *.
    destruct (m_partialSequenceSize d); [done |]. cbn [take incomplete] in *. split; [done |].
    rewrite Hlen, Hl. destruct q; [done | simpl; lia].
  - by rewrite utf8s_cons, Ht, <- app_assoc.
Qed.

Lemma empty_between (d : TextCodecUTF8) (v future : list Z) :
  codecOk d -> m_partialSequenceSize d = 0%nat -> Forall scalar v -> future = utf8s v -> between d v future.
Proof. intros Hd Hz Hv ->. split; rewrite ?partial_empty; done. Qed.

(** The loops over the source on well-formed text. *)
Lemma sourceLoop_valid (wide stopOnError saw : bool) (d : TextCodecUTF8) (source future v destination : list Z) :
  codecOk d -> m_partialSequenceSize d = 0%nat -> Forall isByte source -> Forall scalar v ->
  source ++ future = utf8s v ->
  exists ended d' s' u v',
    sourceLoop wordSize endAddress wide (S (length source)) stopOnError saw d source destination
      = Ok (ended, saw, d', s', destination ++ utf16s u) /\ v = u ++ v' /\
    match ended with
    | Finished => between d' v' future
    | UpConvert => wide = false /\ d' = d /\ Forall isByte s' /\ Forall scalar v' /\ s' ++ future = utf8s v'
    end.
Proof.
  intros Hd Hz Hb Hv E.
  destruct (sourceLoop_ok wide (S (length source)) stopOnError saw d source destination)
    as (ended & saw' & d' & s' & u & e & -> & Hd' & Hb' & Hp & _ & He); [lia | done.. |].
  destruct (parses_valid _ _ _ future v e Hp Hv E) as (-> & v' & -> & Ev).
  apply Forall_app in Hv as [_ Hv'].
  assert (Hnohope : partialBytes d' = [] -> s' <> [] -> ~ hopeless s').
  { intros Hp0 Hne Hh. rewrite Hp0 in Ev. apply (Hh future), (utf8s_starts v'); [done | done |]. by destruct s'. }
  destruct He as [(-> & -> & Hi & ->) | [(-> & -> & _ & -> & Hne & Hh) | (-> & -> & -> & Hne & _ & Hsaw)]].
  - exists Finished, d', [], u, v'. rewrite orb_false_r, app_nil_r in *. split; [done | split; [done |]]. by split.
  - exfalso. apply Hnohope; [by apply partial_empty | done..].
  - rewrite partial_empty in Ev by done.
    destruct Hsaw as [-> | [_ Hh]]; [| exfalso; apply Hnohope; [by apply partial_empty | done..]].
    exists UpConvert, d, s', u, v'. auto 10.
Qed.

(** The 16-bit half after the 8-bit half gave up. *)
Lemma decodeLoop16_valid (fuel : nat) (stopOnError saw : bool) (d : TextCodecUTF8)
    (source future v destination : list Z) :
  codecOk d -> m_partialSequenceSize d = 0%nat -> Forall isByte source -> Forall scalar v ->
  source ++ future = utf8s v ->
  exists ended d' s' u v',
    ('(ended, saw', d2, s2, dest2) ←
       sourceLoop16 wordSize endAddress (S (length source)) stopOnError saw d source destination;
     if false && negb (Nat.eqb (m_partialSequenceSize d2) 0)
     then decodeLoop16 wordSize endAddress fuel false stopOnError saw' d2 s2 dest2
     else Ok (ended, saw', d2, s2, dest2)) = Ok (ended, saw, d', s', destination ++ utf16s u) /\
    v = u ++ v' /\ between d' v' future.
Proof.
  intros Hd Hz Hb Hv E. unfold sourceLoop16.
  destruct (sourceLoop_valid true stopOnError saw d source future v destination Hd Hz Hb Hv E)
    as (ended & d' & s' & u & v' & -> & -> & He). cbn [mbind result_bind andb].
  destruct ended; [| by destruct He]. by exists Finished, d', s', u, v'.
Qed.

Lemma decode_valid (bytes future v : list Z) (stopOnError saw : bool) (d : TextCodecUTF8) :
  between d v (bytes ++ future) -> Forall isByte bytes ->
  exists u v' d', decodeUTF8 wordSize endAddress bytes false stopOnError saw d = Ok (utf16s u, saw, d') /\
    v = u ++ v' /\ between d' v' future.
Proof.
  intros Hbt Hb. pose proof Hbt as [Hd Hi Hv Ht].
  destruct (decodeUTF8_safe bytes false stopOnError saw d Hd (incomplete_waits d Hd Hi) Hb) as (x & sx & dx & Esafe & _).
  (* the buffers are large enough, or the run would have failed *)
  assert (Hfits : forall ended saw1 d1 s1 dest1,
    decodeLoop8 wordSize endAddress 3 false stopOnError saw d bytes [] = Ok (ended, saw1, d1, s1, dest1) ->
    match ended with
    | Finished => decodeUTF8 wordSize endAddress bytes false stopOnError saw d = Ok (dest1, saw1, d1)
    | UpConvert => forall en saw2 d2 s2 dest2,
        decodeLoop16 wordSize endAddress 3 false stopOnError saw1 d1 s1 dest1 = Ok (en, saw2, d2, s2, dest2) ->
        decodeUTF8 wordSize endAddress bytes false stopOnError saw d = Ok (dest2, saw2, d2)
    end).
  { intros ended saw1 d1 s1 dest1 E1. unfold decodeUTF8 in *. rewrite E1 in *. cbn [mbind result_bind] in *.
    destruct (fits _ dest1) as [[] |]; cbn [lift mbind result_bind] in *; [| done].
    destruct ended; [done |]. intros en saw2 d2 s2 dest2 E2. rewrite E2 in *. cbn [mbind result_bind] in *.
    by destruct (fits _ dest2) as [[] |]. }
  (* the loop over the source *)
  assert (Hbody : forall d1 s1 v1 dest1 fuel, codecOk d1 -> m_partialSequenceSize d1 = 0%nat ->
    Forall isByte s1 -> Forall scalar v1 -> s1 ++ future = utf8s v1 ->
    decodeLoop8 wordSize endAddress 3 false stopOnError saw d bytes [] =
      ('(ended, saw0, d2, s2, dest2) ←
         sourceLoop8 wordSize endAddress (S (length s1)) stopOnError saw d1 s1 (utf16s dest1);
       match ended with
       | Finished => if false && negb (Nat.eqb (m_partialSequenceSize d2) 0)
           then decodeLoop8 wordSize endAddress fuel false stopOnError saw0 d2 s2 dest2
           else Ok (Finished, saw0, d2, s2, dest2)
       | UpConvert => Ok (UpConvert, saw0, d2, s2, dest2)
       end) ->
    exists u v' d', decodeUTF8 wordSize endAddress bytes false stopOnError saw d = Ok (utf16s (dest1 ++ u), saw, d') /\
      v1 = u ++ v' /\ between d' v' future).
  { intros d1 s1 v1 dest1 fuel Hd1 Hz1 Hb1 Hv1 E1 Erun. unfold sourceLoop8 in Erun.
    destruct (sourceLoop_valid false stopOnError saw d1 s1 future v1 (utf16s dest1) Hd1 Hz1 Hb1 Hv1 E1)
      as (ended & d2 & s2 & u & v2 & E2 & -> & He). rewrite E2 in Erun. cbn [mbind result_bind andb] in Erun.
    rewrite <- utf16s_app in Erun. destruct ended.
    - rewrite (Hfits _ _ _ _ _ Erun). by exists u, v2, d2.
    - destruct He as (_ & -> & Hb2 & Hv2 & E3).
      destruct (decodeLoop16_valid 2 stopOnError saw d1 s2 future v2 (utf16s (dest1 ++ u)) Hd1 Hz1 Hb2 Hv2 E3)
        as (en & d3 & s3 & u3 & v3 & E16 & -> & Hbt3).
      pose proof (Hfits _ _ _ _ _ Erun en saw d3 s3) as Hf. cbn [decodeLoop16] in Hf. rewrite Hz1 in Hf. cbn [Nat.eqb] in Hf.
      rewrite (Hf _ E16). exists (u ++ u3), v3, d3. rewrite <- utf16s_app, <- !app_assoc. done. }
  destruct (Nat.eqb (m_partialSequenceSize d) 0) eqn:Ez.
  { apply Nat.eqb_eq in Ez. rewrite partial_empty in Ht by done.
    apply (Hbody d bytes v [] 2%nat Hd Ez Hb Hv Ht). cbn [decodeLoop8]. by rewrite Ez. }
  apply Nat.eqb_neq in Ez as Hn. destruct (between_begun d v (bytes ++ future) Hbt Hn) as (c & v' & q & -> & Hg & Hq & Ef).
  apply Forall_cons_1 in Hv as [Hc Hv].
  destruct (handle8_valid (m_partialSequenceSize d + length bytes) d c q bytes future (utf8s v') [] Hg Hq Hb Ef)
    as [(d' & q' & E8 & Hg' & Hq' & Ef') | [(Hc8 & d' & s' & E8 & Hd' & Hz' & Hb' & Es') | (Hc8 & d' & s' & E8 & Hg' & Hb' & Es')]].
  - assert (Erun : decodeLoop8 wordSize endAddress 3 false stopOnError saw d bytes [] = Ok (Finished, saw, d', [], [])).
    { cbn [decodeLoop8]. rewrite Ez, E8. cbn [mbind result_bind].
      pose proof (bg_size _ _ _ Hg') as Hn'. apply Nat.eqb_neq in Hn'. by rewrite Hn'. }
    rewrite (Hfits _ _ _ _ _ Erun). exists [], (c :: v'), d'. split; [done | split; [done |]].
    by apply (begun_between d' c q').
  - destruct (Hbody d' s' v' [c] 2%nat Hd' Hz' Hb' Hv Es') as (u & v2 & d2 & E & -> & Hbt2).
    { cbn [decodeLoop8]. rewrite Ez, E8. cbn [mbind result_bind]. rewrite Hz'. cbn [Nat.eqb negb].
      rewrite utf16s_cons, utf16_bmp by lia. done. }
    exists (c :: u), v2, d2. done.
  - assert (Erun : decodeLoop8 wordSize endAddress 3 false stopOnError saw d bytes [] = Ok (UpConvert, saw, d', s', [])).
    { cbn [decodeLoop8]. rewrite Ez, E8. done. }
    destruct (handle16_valid (m_partialSequenceSize d' + length s') stopOnError saw d' c s' [] Hg') as (d2 & E16 & Hd2 & Hz2).
    destruct (decodeLoop16_valid 2 stopOnError saw d2 s' future v' ([] ++ utf16 c) Hd2 Hz2 Hb' Hv Es')
      as (en & d3 & s3 & u3 & v3 & E3 & -> & Hbt3).
    pose proof (Hfits _ _ _ _ _ Erun en saw d3 s3) as Hf. cbn [decodeLoop16] in Hf.
    pose proof (bg_size _ _ _ Hg') as Hn'. apply Nat.eqb_neq in Hn'. rewrite Hn', E16 in Hf.
    cbn [mbind result_bind] in Hf. rewrite Hz2 in Hf. cbn [Nat.eqb negb] in Hf.
    rewrite (Hf _ E3). by exists (c :: u3), v3, d3.
Qed.

End Loops.

(** Decodes chunk after chunk, each at its own address, without flushing. *)
Fixpoint decodeChunksUTF8 (wordSize : Z) (chunks : list (Z * list Z)) (stopOnError saw : bool)
    (d : TextCodecUTF8) : result (list Z * bool * TextCodecUTF8) :=
  match chunks with
  | [] => Ok ([], saw, d)
  | (endAddress, bytes) :: chunks' =>
      '(u, saw1, d1) ← decodeUTF8 wordSize endAddress bytes false stopOnError saw d;
      '(u', saw2, d2) ← decodeChunksUTF8 wordSize chunks' stopOnError saw1 d1;
      Ok (u ++ u', saw2, d2)
  end.

Lemma decodeChunks_valid (wordSize : Z) (chunks : list (Z * list Z)) (stopOnError saw : bool)
    (v : list Z) (d : TextCodecUTF8) :
  wordSize = 4 \/ wordSize = 8 -> between d v (concat (snd <$> chunks)) -> Forall (Forall isByte) (snd <$> chunks) ->
  exists d', decodeChunksUTF8 wordSize chunks stopOnError saw d = Ok (utf16s v, saw, d') /\
    m_partialSequenceSize d' = 0%nat.
Proof.
  intros Hword. revert v d. induction chunks as [| [endAddress bytes] chunks IH]; intros v d Hbt Hb.
  - exists d. destruct (decide (m_partialSequenceSize d = 0%nat)) as [Hz | Hn].
    + destruct Hbt as [_ _ Hv Ht]. rewrite partial_empty in Ht by done. simpl in Ht.
      destruct v as [| c v]; [done |]. exfalso. apply (f_equal length) in Ht.
      rewrite utf8s_cons, length_app in Ht. pose proof (utf8_length c). simpl in Ht. lia.
    + exfalso. destruct (between_begun d v _ Hbt Hn) as (c & v' & q & _ & _ & Hq & Ef). simpl in Ef.
      by destruct q.
  - rewrite fmap_cons in Hb, Hbt. apply Forall_cons_1 in Hb as [Hb Hbs]. cbn [snd concat] in *.
    destruct (decode_valid wordSize Hword endAddress bytes _ v stopOnError saw d Hbt Hb)
      as (u & v' & d1 & E & -> & Hbt1).
    destruct (IH v' d1 Hbt1 Hbs) as (d2 & E2 & Hz). cbn [decodeChunksUTF8]. rewrite E. cbn [mbind result_bind].
    rewrite E2. cbn [mbind result_bind]. exists d2. by rewrite utf16s_app.
Qed.

(** ** Encoding *)

Lemma continuation_spec (x : Z) : Z.lor (Z.land x 0x3F) 0x80 mod 2 ^ 8 = 0x80 + x mod 64.
Proof.
  change 0x3F with (Z.ones 6). rewrite Z.land_ones, Z.lor_comm by lia. change (2 ^ 6) with 64.
  pose proof (Z.mod_pos_bound x 64 ltac:(lia)). change 0x80 with (2 * 2 ^ 6) at 1.
  rewrite lor_low by (change (2 ^ 6) with 64; lia). change (2 ^ 6) with 64. apply Z.mod_small. lia.
Qed.

Lemma lead_spec (x hi k : Z) :
  0 <= k -> 0 <= x < 2 ^ k -> 0 <= hi * 2 ^ k -> hi * 2 ^ k + 2 ^ k <= 2 ^ 8 ->
  Z.lor x (hi * 2 ^ k) mod 2 ^ 8 = hi * 2 ^ k + x.
Proof. intros Hk Hx H0 Hle. rewrite Z.lor_comm, lor_low by lia. apply Z.mod_small. lia. Qed.

Lemma U8_APPEND_UNSAFE_spec (c : Z) : 0 <= c <= 0x10FFFF -> U8_APPEND_UNSAFE c = utf8 c.
Proof.
  intros Hc. unfold U8_APPEND_UNSAFE, utf8. rewrite (Z.mod_small c (2 ^ 32)) by lia.
  rewrite !continuation_spec, !Z.shiftr_div_pow2 by lia.
  change (2 ^ 6) with 64. change (2 ^ 12) with 4096. change (2 ^ 18) with 262144.
  destruct (c <? 0x80) eqn:E1; bool_to_prop.
  { rewrite (proj2 (Z.leb_le _ _)) by lia. by rewrite Z.mod_small by lia. }
  rewrite (proj2 (Z.leb_gt _ _)) by lia. destruct (c <? 0x800) eqn:E2; bool_to_prop.
  { rewrite (proj2 (Z.leb_le _ _)) by lia. cbn [app]. do 2 f_equal.
    apply (lead_spec (c / 64) 6 5); simpl; try lia. Z.div_mod_to_equations; lia. }
  rewrite (proj2 (Z.leb_gt _ _)) by lia. destruct (c <? 0x10000) eqn:E3; bool_to_prop.
  { rewrite (proj2 (Z.leb_le _ _)) by lia. cbn [app]. do 2 f_equal.
    apply (lead_spec (c / 4096) 14 4); simpl; try lia. Z.div_mod_to_equations; lia. }
  rewrite (proj2 (Z.leb_gt _ _)) by lia. cbn [app]. do 2 f_equal.
  apply (lead_spec (c / 262144) 30 3); simpl; try lia. Z.div_mod_to_equations; lia.
Qed.

Lemma scalar_units (u : list Z) : Forall scalar u -> Forall isUnit (utf16s u).
Proof.
  induction 1 as [| c u Hc Hu IH]; [done |]. rewrite utf16s_cons. apply Forall_app.
  split; [by apply utf16_isUnit | done].
Qed.

Lemma utf16_next (c : Z) (l : list Z) :
  scalar c -> Forall isUnit l -> U16_NEXT (utf16 c ++ l) = Some (c, l).
Proof.
  intros [Hc Hs] Hl. unfold utf16. destruct (c <? 0x10000) eqn:E; bool_to_prop; cbn [app U16_NEXT].
  - rewrite U16_IS_LEAD_spec by lia. replace (_ && _) with false; [done |].
    symmetry. apply andb_false_iff. rewrite Z.leb_gt, Z.ltb_ge. lia.
  - assert (Hd : 0 <= (c - 0x10000) / 1024 < 1024) by (Z.div_mod_to_equations; lia).
    pose proof (Z.mod_pos_bound (c - 0x10000) 1024 ltac:(lia)) as Hm.
    rewrite U16_IS_LEAD_spec, U16_IS_TRAIL_spec by lia.
    rewrite (proj2 (Z.leb_le 0xD800 _)), (proj2 (Z.ltb_lt _ 0xDC00)) by lia.
    rewrite (proj2 (Z.leb_le 0xDC00 _)), (proj2 (Z.ltb_lt _ 0xE000)) by lia. cbn [andb].
    do 2 f_equal. unfold U16_GET_SUPPLEMENTARY, U16_SURROGATE_OFFSET. rewrite Z.shiftl_mul_pow2 by lia.
    change (Z.shiftl 0xD800 10) with (0xD800 * 1024). pose proof (Z.div_mod (c - 0x10000) 1024 ltac:(lia)). lia.
Qed.

Lemma encodeUTF8Loop_ok (fuel : nat) (u : list Z) :
  (length (utf16s u) < fuel)%nat -> Forall scalar u -> encodeUTF8Loop fuel (utf16s u) = Ok (utf8s u).
Proof.
  revert u. induction fuel as [| fuel IH]; intros u Hf Hu; [lia |]. destruct u as [| c u]; [done |].
  apply Forall_cons_1 in Hu as [Hc Hu]. rewrite utf16s_cons in *. cbn [encodeUTF8Loop].
  rewrite utf16_next by (done || by apply scalar_units). rewrite IH; [| | done].
  - cbn [mbind result_bind]. destruct Hc as [Hc _]. by rewrite U8_APPEND_UNSAFE_spec, utf8s_cons.
  - rewrite length_app in Hf. assert (1 <= length (utf16 c))%nat; [| lia].
    unfold utf16. case_match; simpl; lia.
Qed.

Lemma utf8s_length (u : list Z) : Forall scalar u -> (length (utf8s u) <= 3 * length (utf16s u))%nat.
Proof.
  induction 1 as [| c u Hc Hu IH]; [done |]. rewrite utf8s_cons, utf16s_cons, !length_app.
  assert (length (utf8 c) <= 3 * length (utf16 c))%nat; [| lia].
  unfold utf8, utf16. repeat case_match; bool_to_prop; simpl; lia.
Qed.

(** C35: Well-formed text survives UTF-8: encoding its code units gives the shortest form
    of every scalar value within the space of the output vector, and decoding these
    bytes, cut into chunks anywhere, even inside a character, gives the code units
    back without an error and leaves nothing waiting. *)
Theorem utf8_roundtrip (wordSize : Z) (u : list Z) (chunks : list (Z * list Z)) (stopOnError : bool) :
  wordSize = 4 \/ wordSize = 8 -> Forall scalar u -> concat (snd <$> chunks) = utf8s u ->
  encodeUTF8 (utf16s u) = Ok (utf8s u) /\
  exists d, decodeChunksUTF8 wordSize chunks stopOnError false newTextCodecUTF8 = Ok (utf16s u, false, d) /\
    m_partialSequenceSize d = 0%nat.
Proof.
  intros Hword Hu Hc. split.
  - unfold encodeUTF8. rewrite encodeUTF8Loop_ok by (done || lia). cbn [mbind result_bind].
    by rewrite (proj2 (Nat.leb_le _ _) (utf8s_length u Hu)).
  - apply decodeChunks_valid; [done | |].
    + apply empty_between; [| done..]. split; [done | split; [| simpl; lia]].
      repeat constructor; unfold isByte; lia.
    + assert (Hall : Forall isByte (concat (snd <$> chunks))).
      { rewrite Hc. unfold utf8s. clear Hc. induction Hu as [| c u Hsc Hu IH]; [done |].
        rewrite fmap_cons. cbn [concat]. apply Forall_app. split; [by apply utf8_bytes | done]. }
      clear Hc. induction (snd <$> chunks) as [| l ls IH]; [done |]. cbn [concat] in Hall.
      apply Forall_app in Hall as [Hl Hall]. constructor; [done | by apply IH].
Qed.

Lemma new_codec : codecOk newTextCodecUTF8 /\ waits newTextCodecUTF8.
Proof.
  split; [| by left]. split; [done | split; [| simpl; lia]]. repeat constructor; unfold isByte; lia.
Qed.

Lemma utf8_roundtrip_witness :
  encodeUTF8 (utf16s [0x41; 0xE9; 0x20AC; 0x1F600]) = Ok (utf8s [0x41; 0xE9; 0x20AC; 0x1F600]) /\
  exists d, decodeChunksUTF8 8 [(0x1000, [0x41; 0xC3]); (0x2003, [0xA9; 0xE2; 0x82]); (0, []);
      (0x3005, [0xAC; 0xF0; 0x9F]); (0x4001, [0x98]); (0x5000, [0x80])] true false newTextCodecUTF8
      = Ok (utf16s [0x41; 0xE9; 0x20AC; 0x1F600], false, d) /\ m_partialSequenceSize d = 0%nat.
Proof.
  apply (utf8_roundtrip 8 [0x41; 0xE9; 0x20AC; 0x1F600] [(0x1000, [0x41; 0xC3]); (0x2003, [0xA9; 0xE2; 0x82]);
    (0, []); (0x3005, [0xAC; 0xF0; 0x9F]); (0x4001, [0x98]); (0x5000, [0x80])] true (or_intror eq_refl));
    [| reflexivity].
  repeat constructor; unfold scalar; lia.
Defined.

Lemma utf8_decode_witness :
  exists u e d', parses true [0x41; 0xFF; 0xC3; 0xA9; 0xE2; 0x82] u e [] /\
    decodeUTF8 4 0x1006 [0x41; 0xFF; 0xC3; 0xA9; 0xE2; 0x82] true false false newTextCodecUTF8
      = Ok (utf16s u, e, d') /\ m_partialSequenceSize d' = 0%nat.
Proof.
  apply (utf8_decode 4 (or_introl eq_refl) 0x1006 [0x41; 0xFF; 0xC3; 0xA9; 0xE2; 0x82] false newTextCodecUTF8);
    [apply new_codec | reflexivity | repeat constructor; unfold isByte; lia].
Defined.

Lemma utf8_safe_witness :
  exists u saw' d', decodeUTF8 8 0x1005 [0xF0; 0x9F; 0x41; 0xE2; 0x82] false true false newTextCodecUTF8
      = Ok (u, saw', d') /\ codecOk d' /\ waits d'.
Proof.
  destruct (utf8_safe 8 (or_intror eq_refl) 0x1005 [0xF0; 0x9F; 0x41; 0xE2; 0x82] false true false newTextCodecUTF8)
    as (u & saw' & d' & E & H1 & H2 & _).
  - apply new_codec.
  - apply new_codec.
  - repeat constructor; unfold isByte; lia.
  - exists u, saw', d'. split; [exact E | split; [exact H1 | exact H2]].
Defined.

(** When a chunk ends in the first byte of a sequence of four that the next chunk
    does not complete but begins with a character of two bytes, the byte behind
    that character is lost: an A becomes U+FFFD.  In one chunk it is read. *)
Theorem utf8_chunk_error :
  (fun x => (x.1.1, x.1.2)) <$>
    (match decodeChunksUTF8 8 [(0x1001, [0xF0]); (0x1004, [0xC3; 0xA9; 0x41; 0x42])] false false newTextCodecUTF8
     with Ok x => Some x | _ => None end) = Some ([0xFFFD; 0xE9; 0xFFFD; 0x42], true) /\
  (fun x => (x.1.1, x.1.2)) <$>
    (match decodeChunksUTF8 8 [(0x1005, [0xF0; 0xC3; 0xA9; 0x41; 0x42])] false false newTextCodecUTF8
     with Ok x => Some x | _ => None end) = Some ([0xFFFD; 0xE9; 0x41; 0x42], true).
Proof. split; vm_compute; reflexivity. Qed.
