(* ===== verification/Geometry.v ===== *)
(** * Points, sizes and rectangles: platform/graphics/IntPoint.h, IntSize.h and
    IntRect.{h,cpp}

    Coordinates are 32-bit.  The source adds and subtracts them as [int]s, whose
    overflow the language leaves undefined; [int32] is what the machine computes.
    The theorems about rectangles ask for coordinates that stay below 2^30
    ([inBounds]), where no operation wraps. *)

From S2P Require Import Prelude.

(** ** 32-bit integers *)

Definition INT_MAX : Z := 2 ^ 31 - 1.
Definition INT_MIN : Z := - 2 ^ 31.

(** The value an [int] holds after arithmetic with the result [z]. *)
Definition int32 (z : Z) : Z := (z + 2 ^ 31) mod 2 ^ 32 - 2 ^ 31.

Lemma int32_id (z : Z) : INT_MIN <= z <= INT_MAX -> int32 z = z.
Proof. unfold INT_MIN, INT_MAX, int32. intros H. rewrite Z.mod_small; lia. Qed.

Lemma int32_range (z : Z) : INT_MIN <= int32 z <= INT_MAX.
Proof.
  unfold INT_MIN, INT_MAX, int32.
  pose proof (Z.mod_pos_bound (z + 2 ^ 31) (2 ^ 32) ltac:(lia)). lia.
Qed.

(** A coordinate whose differences and sums with others are [int]s. *)
Definition coordOk (z : Z) : bool := (- 2 ^ 30 <=? z) && (z <? 2 ^ 30).

Lemma coordOk_spec (z : Z) : coordOk z = true <-> - 2 ^ 30 <= z < 2 ^ 30.
Proof. unfold coordOk. rewrite andb_true_iff, Z.leb_le, Z.ltb_lt. lia. Qed.

(** ** IntPoint and IntSize *)

Module IntPoint.
Record IntPoint := mk { m_x : Z; m_y : Z }.
#[export] Instance IntPoint_eq_dec : EqDecision IntPoint.
Proof. solve_decision. Defined.

Definition zero : IntPoint := mk 0 0.
Definition move (dx dy : Z) (p : IntPoint) : IntPoint :=
  mk (int32 (m_x p + dx)) (int32 (m_y p + dy)).
Definition expandedTo (other p : IntPoint) : IntPoint :=
  mk (if m_x p >? m_x other then m_x p else m_x other)
     (if m_y p >? m_y other then m_y p else m_y other).
Definition shrunkTo (other p : IntPoint) : IntPoint :=
  mk (if m_x p <? m_x other then m_x p else m_x other)
     (if m_y p <? m_y other then m_y p else m_y other).
Definition clampNegativeToZero (p : IntPoint) : IntPoint := expandedTo zero p.
Definition transposedPoint (p : IntPoint) : IntPoint := mk (m_y p) (m_x p).
End IntPoint.
Export (hints) IntPoint.
Abbreviation IntPoint := IntPoint.IntPoint.

Module IntSize.
Record IntSize := mk { m_width : Z; m_height : Z }.
#[export] Instance IntSize_eq_dec : EqDecision IntSize.
Proof. solve_decision. Defined.

Definition zero : IntSize := mk 0 0.
Definition isEmpty (s : IntSize) : bool := (m_width s <=? 0) || (m_height s <=? 0).
Definition expand (dw dh : Z) (s : IntSize) : IntSize :=
  mk (int32 (m_width s + dw)) (int32 (m_height s + dh)).
Definition transposedSize (s : IntSize) : IntSize := mk (m_height s) (m_width s).
Definition area (s : IntSize) : Z := int32 (m_width s * m_height s).
End IntSize.
Export (hints) IntSize.
Abbreviation IntSize := IntSize.IntSize.

(** ** IntRect *)

Module IntRect.
Record IntRect := mk { m_location : IntPoint; m_size : IntSize }.
#[export] Instance IntRect_eq_dec : EqDecision IntRect.
Proof. solve_decision. Defined.

(** IntRect() *)
Definition zero : IntRect := mk IntPoint.zero IntSize.zero.
(** IntRect(x, y, width, height) *)
Definition rect (x y width height : Z) : IntRect := mk (IntPoint.mk x y) (IntSize.mk width height).

Definition x (r : IntRect) : Z := IntPoint.m_x (m_location r).
Definition y (r : IntRect) : Z := IntPoint.m_y (m_location r).
Definition width (r : IntRect) : Z := IntSize.m_width (m_size r).
Definition height (r : IntRect) : Z := IntSize.m_height (m_size r).
Definition maxX (r : IntRect) : Z := int32 (x r + width r).
Definition maxY (r : IntRect) : Z := int32 (y r + height r).

Definition setX (v : Z) (r : IntRect) : IntRect := mk (IntPoint.mk v (y r)) (m_size r).
Definition setY (v : Z) (r : IntRect) : IntRect := mk (IntPoint.mk (x r) v) (m_size r).
Definition setWidth (v : Z) (r : IntRect) : IntRect := mk (m_location r) (IntSize.mk v (height r)).
Definition setHeight (v : Z) (r : IntRect) : IntRect := mk (m_location r) (IntSize.mk (width r) v).

Definition isEmpty (r : IntRect) : bool := IntSize.isEmpty (m_size r).

(** move(const IntSize&) *)
Definition move (offset : IntSize) (r : IntRect) : IntRect :=
  mk (IntPoint.move (IntSize.m_width offset) (IntSize.m_height offset) (m_location r)) (m_size r).
Definition expand (dw dh : Z) (r : IntRect) : IntRect := mk (m_location r) (IntSize.expand dw dh (m_size r)).
Definition contract (dw dh : Z) (r : IntRect) : IntRect :=
  mk (m_location r) (IntSize.expand (int32 (- dw)) (int32 (- dh)) (m_size r)).

Definition shiftXEdgeTo (edge : Z) (r : IntRect) : IntRect :=
  let delta := int32 (edge - x r) in
  let r1 := setX edge r in
  setWidth (Z.max 0 (int32 (width r1 - delta))) r1.
Definition shiftMaxXEdgeTo (edge : Z) (r : IntRect) : IntRect :=
  let delta := int32 (edge - maxX r) in
  setWidth (Z.max 0 (int32 (width r + delta))) r.
Definition shiftYEdgeTo (edge : Z) (r : IntRect) : IntRect :=
  let delta := int32 (edge - y r) in
  let r1 := setY edge r in
  setHeight (Z.max 0 (int32 (height r1 - delta))) r1.
Definition shiftMaxYEdgeTo (edge : Z) (r : IntRect) : IntRect :=
  let delta := int32 (edge - maxY r) in
  setHeight (Z.max 0 (int32 (height r + delta))) r.

Definition inflateX (dx : Z) (r : IntRect) : IntRect :=
  let r1 := setX (int32 (x r - dx)) r in
  setWidth (int32 (int32 (width r1 + dx) + dx)) r1.
Definition inflateY (dy : Z) (r : IntRect) : IntRect :=
  let r1 := setY (int32 (y r - dy)) r in
  setHeight (int32 (int32 (height r1 + dy) + dy)) r1.
Definition inflate (d : Z) (r : IntRect) : IntRect := inflateY d (inflateX d r).

Definition transposedRect (r : IntRect) : IntRect :=
  mk (IntPoint.transposedPoint (m_location r)) (IntSize.transposedSize (m_size r)).

Definition intersects (other r : IntRect) : bool :=
  negb (isEmpty r) && negb (isEmpty other)
  && (x r <? maxX other) && (x other <? maxX r)
  && (y r <? maxY other) && (y other <? maxY r).

(** contains(const IntRect&) *)
Definition contains (other r : IntRect) : bool :=
  (x r <=? x other) && (maxX r >=? maxX other) && (y r <=? y other) && (maxY r >=? maxY other).

(** contains(int px, int py) *)
Definition containsPoint (px py : Z) (r : IntRect) : bool :=
  (px >=? x r) && (px <? maxX r) && (py >=? y r) && (py <? maxY r).

Definition intersect (other r : IntRect) : IntRect :=
  let l := Z.max (x r) (x other) in
  let t := Z.max (y r) (y other) in
  let rr := Z.min (maxX r) (maxX other) in
  let b := Z.min (maxY r) (maxY other) in
  if (l >=? rr) || (t >=? b) then rect 0 0 (int32 (0 - 0)) (int32 (0 - 0))
  else rect l t (int32 (rr - l)) (int32 (b - t)).

Definition unite (other r : IntRect) : IntRect :=
  if isEmpty other then r
  else if isEmpty r then other
  else
    let l := Z.min (x r) (x other) in
    let t := Z.min (y r) (y other) in
    let rr := Z.max (maxX r) (maxX other) in
    let b := Z.max (maxY r) (maxY other) in
    rect l t (int32 (rr - l)) (int32 (b - t)).

Definition uniteIfNonZero (other r : IntRect) : IntRect :=
  if (width other =? 0) && (height other =? 0) then r
  else if (width r =? 0) && (height r =? 0) then other
  else
    let left := Z.min (x r) (x other) in
    let top := Z.min (y r) (y other) in
    let right := Z.max (maxX r) (maxX other) in
    let bottom := Z.max (maxY r) (maxY other) in
    rect left top (int32 (right - left)) (int32 (bottom - top)).

Definition distanceToInterval (pos start end_ : Z) : Z :=
  if pos <? start then int32 (start - pos)
  else if pos >? end_ then int32 (end_ - pos)
  else 0.
Definition differenceToPoint (p : IntPoint) (r : IntRect) : IntSize :=
  IntSize.mk (distanceToInterval (IntPoint.m_x p) (x r) (maxX r))
             (distanceToInterval (IntPoint.m_y p) (y r) (maxY r)).

(** unionRect(const Vector<IntRect>&) *)
Definition unionRect (rects : list IntRect) : IntRect :=
  fold_left (fun result r => unite r result) rects zero.
End IntRect.
Export (hints) IntRect.
Abbreviation IntRect := IntRect.IntRect.

(** ** Rectangles as sets of points *)

(** Every corner is a coordinate without overflow. *)
Definition inBounds (r : IntRect) : bool :=
  coordOk (IntRect.x r) && coordOk (IntRect.y r) &&
  coordOk (IntRect.x r + IntRect.width r) && coordOk (IntRect.y r + IntRect.height r).

(** The unit cell at (px, py) belongs to the rectangle. *)
Definition inRect (r : IntRect) (px py : Z) : Prop :=
  IntRect.x r <= px < IntRect.x r + IntRect.width r /\
  IntRect.y r <= py < IntRect.y r + IntRect.height r.

Lemma inBounds_spec (r : IntRect) :
  inBounds r = true <->
  (- 2 ^ 30 <= IntRect.x r < 2 ^ 30 /\ - 2 ^ 30 <= IntRect.y r < 2 ^ 30) /\
  - 2 ^ 30 <= IntRect.x r + IntRect.width r < 2 ^ 30 /\
  - 2 ^ 30 <= IntRect.y r + IntRect.height r < 2 ^ 30.
Proof. unfold inBounds. rewrite !andb_true_iff, !coordOk_spec. lia. Qed.

Lemma isEmpty_spec (r : IntRect) :
  IntRect.isEmpty r = true <-> IntRect.width r <= 0 \/ IntRect.height r <= 0.
Proof.
  unfold IntRect.isEmpty, IntSize.isEmpty, IntRect.width, IntRect.height.
  rewrite orb_true_iff, !Z.leb_le. lia.
Qed.

Lemma isEmpty_false (r : IntRect) :
  IntRect.isEmpty r = false <-> 0 < IntRect.width r /\ 0 < IntRect.height r.
Proof. rewrite <- not_true_iff_false, isEmpty_spec. lia. Qed.

Lemma maxX_ok (r : IntRect) : inBounds r = true -> IntRect.maxX r = IntRect.x r + IntRect.width r.
Proof. intros H%inBounds_spec. apply int32_id. unfold INT_MIN, INT_MAX. lia. Qed.

Lemma maxY_ok (r : IntRect) : inBounds r = true -> IntRect.maxY r = IntRect.y r + IntRect.height r.
Proof. intros H%inBounds_spec. apply int32_id. unfold INT_MIN, INT_MAX. lia. Qed.

Lemma rect_x (a b c d : Z) : IntRect.x (IntRect.rect a b c d) = a.
Proof. reflexivity. Qed.
Lemma rect_y (a b c d : Z) : IntRect.y (IntRect.rect a b c d) = b.
Proof. reflexivity. Qed.
Lemma rect_width (a b c d : Z) : IntRect.width (IntRect.rect a b c d) = c.
Proof. reflexivity. Qed.
Lemma rect_height (a b c d : Z) : IntRect.height (IntRect.rect a b c d) = d.
Proof. reflexivity. Qed.

Create Rewrite HintDb geometry.
#[export] Hint Rewrite rect_x rect_y rect_width rect_height : geometry.
#[export] Hint Rewrite maxX_ok maxY_ok using done : geometry.

Lemma containsPoint_spec (r : IntRect) (px py : Z) :
  inBounds r = true -> IntRect.containsPoint px py r = true <-> inRect r px py.
Proof.
  intros Hb. unfold IntRect.containsPoint, inRect. autorewrite with geometry.
  rewrite !andb_true_iff, !Z.geb_le, !Z.ltb_lt. lia.
Qed.

Lemma containsRect_spec (r other : IntRect) :
  inBounds r = true -> inBounds other = true ->
  IntRect.contains other r = true <->
  IntRect.x r <= IntRect.x other /\ IntRect.y r <= IntRect.y other /\
  IntRect.x other + IntRect.width other <= IntRect.x r + IntRect.width r /\
  IntRect.y other + IntRect.height other <= IntRect.y r + IntRect.height r.
Proof.
  intros Hb Ho. unfold IntRect.contains. autorewrite with geometry.
  rewrite !andb_true_iff, !Z.geb_le, !Z.leb_le. lia.
Qed.

Lemma intersects_spec (r other : IntRect) :
  inBounds r = true -> inBounds other = true ->
  IntRect.intersects other r = true <-> exists px py, inRect r px py /\ inRect other px py.
Proof.
  intros Hb Ho. unfold IntRect.intersects, inRect. autorewrite with geometry.
  rewrite !andb_true_iff, !negb_true_iff, !isEmpty_false, !Z.ltb_lt. split.
  - intros H. exists (Z.max (IntRect.x r) (IntRect.x other)), (Z.max (IntRect.y r) (IntRect.y other)). lia.
  - intros (px & py & H). lia.
Qed.

Lemma intersect_spec (r other : IntRect) :
  inBounds r = true -> inBounds other = true ->
  inBounds (IntRect.intersect other r) = true /\
  forall px py, inRect (IntRect.intersect other r) px py <-> inRect r px py /\ inRect other px py.
Proof.
  intros Hb Ho. pose proof (proj1 (inBounds_spec r) Hb). pose proof (proj1 (inBounds_spec other) Ho).
  unfold IntRect.intersect. autorewrite with geometry.
  destruct (_ || _) eqn:E.
  - split; [reflexivity |]. intros px py. unfold inRect. change (int32 (0 - 0)) with 0.
    rewrite orb_true_iff, !Z.geb_le in E. autorewrite with geometry. lia.
  - rewrite orb_false_iff, !Z.geb_leb, !Z.leb_gt in E.
    rewrite !int32_id by (unfold INT_MIN, INT_MAX; lia). split.
    + apply inBounds_spec. autorewrite with geometry. lia.
    + intros px py. unfold inRect. autorewrite with geometry. lia.
Qed.

(** [unite] gives the least rectangle around two that are not empty. *)
Lemma unite_spec (r other : IntRect) :
  inBounds r = true -> inBounds other = true ->
  IntRect.isEmpty r = false -> IntRect.isEmpty other = false ->
  let u := IntRect.unite other r in
  inBounds u = true /\ IntRect.isEmpty u = false /\
  IntRect.contains r u = true /\ IntRect.contains other u = true /\
  forall b, inBounds b = true -> IntRect.contains r b = true -> IntRect.contains other b = true ->
    IntRect.contains u b = true.
Proof.
  intros Hb Ho Er Eo u. pose proof (proj1 (inBounds_spec r) Hb). pose proof (proj1 (inBounds_spec other) Ho).
  assert (Hu : u = IntRect.rect (Z.min (IntRect.x r) (IntRect.x other)) (Z.min (IntRect.y r) (IntRect.y other))
      (Z.max (IntRect.x r + IntRect.width r) (IntRect.x other + IntRect.width other)
         - Z.min (IntRect.x r) (IntRect.x other))
      (Z.max (IntRect.y r + IntRect.height r) (IntRect.y other + IntRect.height other)
         - Z.min (IntRect.y r) (IntRect.y other))).
  { unfold u, IntRect.unite. rewrite Er, Eo. autorewrite with geometry.
    rewrite !int32_id by (unfold INT_MIN, INT_MAX; lia). reflexivity. }
  apply isEmpty_false in Er, Eo.
  assert (Hub : inBounds u = true) by (rewrite Hu; apply inBounds_spec; autorewrite with geometry; lia).
  split; [done |]. split; [rewrite Hu; apply isEmpty_false; autorewrite with geometry; lia |].
  split; [apply containsRect_spec; [done.. |]; rewrite Hu; autorewrite with geometry; lia |].
  split; [apply containsRect_spec; [done.. |]; rewrite Hu; autorewrite with geometry; lia |].
  intros b Hbb. rewrite !containsRect_spec by done. rewrite Hu. autorewrite with geometry. lia.
Qed.
