(* ===== verification/Region.v ===== *)
(** * Regions: platform/graphics/Region.{h,cpp}

    A region is a set of pixels kept as a bounding rectangle and a [Shape]: a list
    of spans from top to bottom, each with the x-coordinates at which the rows of
    the span enter and leave the region.  The coordinates of all spans are in one
    vector; a span knows the index of its first one.

    A span iterator is an index.  A segment iterator is the null pointer or an
    index, and the two iterators of a range are the list of the coordinates
    between them ([segmentsOf]).  The template parameters of [shapeOperation] and
    [compareShapes] are records.  [None] is a failed ASSERT, or a read outside a
    vector. *)

From S2P Require Import Prelude Geometry.

Module Shape.
Record Span := mkSpan { spanY : Z; segmentIndex : nat }.
Record Shape := mk { m_segments : list Z; m_spans : list Span }.

#[export] Instance Span_eq_dec : EqDecision Span.
Proof. solve_decision. Defined.
(** operator==(const Shape&, const Shape&) *)
#[export] Instance Shape_eq_dec : EqDecision Shape.
Proof. solve_decision. Defined.

(** Shape() *)
Definition empty : Shape := mk [] [].

Definition isEmpty (s : Shape) : bool := Nat.eqb (length (m_spans s)) 0.
Definition isRect (s : Shape) : bool :=
  Nat.leb (length (m_spans s)) 2 && Nat.leb (length (m_segments s)) 2.

(** ** Iterators *)

Definition spans_begin (s : Shape) : nat := 0.
Definition spans_end (s : Shape) : nat := length (m_spans s).

Definition SegmentIterator : Type := option nat.

Definition segments_begin (it : nat) (s : Shape) : option SegmentIterator :=
  span ← m_spans s !! it;
  if Nat.eqb (segmentIndex span) (length (m_segments s)) then Some None
  else
    _ ← m_segments s !! segmentIndex span;
    Some (Some (segmentIndex span)).

Definition segments_end (it : nat) (s : Shape) : option SegmentIterator :=
  span ← m_spans s !! it;
  if Nat.eqb (segmentIndex span) (length (m_segments s)) then Some None
  else
    next ← m_spans s !! S it;
    _ ← ASSERT (Nat.leb (segmentIndex next) (length (m_segments s)));
    Some (Some (segmentIndex next)).

(** The coordinates between two iterators. *)
Definition segmentRange (first last : SegmentIterator) (s : Shape) : option (list Z) :=
  match first, last with
  | None, None => Some []
  | Some i, Some j => if Nat.leb i j then Some (take (j - i) (drop i (m_segments s))) else None
  | _, _ => None
  end.

Definition segmentsOf (it : nat) (s : Shape) : option (list Z) :=
  first ← segments_begin it s;
  last ← segments_end it s;
  segmentRange first last s.

(** ** Building a shape *)

(** appendSpan(int y) *)
Definition appendSpan (y : Z) (s : Shape) : Shape :=
  mk (m_segments s) (m_spans s ++ [mkSpan y (length (m_segments s))]).

Definition appendSegment (x : Z) (s : Shape) : Shape := mk (m_segments s ++ [x]) (m_spans s).

Definition canCoalesce (segments : list Z) (s : Shape) : bool :=
  match list.last (m_spans s) with
  | None => false
  | Some lastSpan =>
      let lastSegments := drop (segmentIndex lastSpan) (m_segments s) in
      if negb (Nat.eqb (length lastSegments) (length segments)) then false
      else bool_decide (segments = lastSegments)
  end.

(** appendSpan(int y, SegmentIterator begin, SegmentIterator end) *)
Definition appendSpanSegments (y : Z) (segments : list Z) (s : Shape) : Shape :=
  if canCoalesce segments s then s
  else
    let s1 := appendSpan y s in
    mk (m_segments s1 ++ segments) (m_spans s1).

(** The [count] spans of [shape] from [it] on. *)
Fixpoint appendSpans (shape : Shape) (it count : nat) (s : Shape) : option Shape :=
  match count with
  | O => Some s
  | S count' =>
      span ← m_spans shape !! it;
      segments ← segmentsOf it shape;
      appendSpans shape (S it) count' (appendSpanSegments (spanY span) segments s)
  end.

(** Shape(const IntRect&) *)
Definition ofRect (rect : IntRect) : Shape :=
  let s := appendSpan (IntRect.y rect) empty in
  let s := appendSegment (IntRect.x rect) s in
  let s := appendSegment (IntRect.maxX rect) s in
  appendSpan (IntRect.maxY rect) s.

Definition translate (offset : IntSize) (s : Shape) : Shape :=
  mk ((fun x => int32 (x + IntSize.m_width offset)) <$> m_segments s)
     ((fun span => mkSpan (int32 (spanY span + IntSize.m_height offset)) (segmentIndex span)) <$> m_spans s).

(** ** The bounding rectangle *)

(** The loop over the spans from [it] up to the last one, [count] of them. *)
Fixpoint boundsLoop (s : Shape) (it count : nat) (minX maxX : Z) : option (Z * Z) :=
  match count with
  | O => Some (minX, maxX)
  | S count' =>
      firstSegment ← segments_begin it s;
      endSegment ← segments_end it s;
      match firstSegment, endSegment with
      | Some i, Some j =>
          (* lastSegment is j - 1 *)
          _ ← ASSERT (negb (Nat.eqb (S i) j));
          x ← m_segments s !! i;
          lastSegment ← (match j with O => None | S j' => Some j' end);
          x' ← m_segments s !! lastSegment;
          boundsLoop s (S it) count'
            (if x <? minX then x else minX) (if x' >? maxX then x' else maxX)
      | _, _ => boundsLoop s (S it) count' minX maxX
      end
  end.

Definition bounds (s : Shape) : option IntRect :=
  if isEmpty s then Some IntRect.zero
  else
    span ← m_spans s !! spans_begin s;
    lastSpan ← m_spans s !! Nat.pred (spans_end s);
    let minY := spanY span in
    let maxY := spanY lastSpan in
    '(minX, maxX) ← boundsLoop s (spans_begin s) (Nat.pred (spans_end s)) INT_MAX INT_MIN;
    _ ← ASSERT (minX <=? maxX);
    _ ← ASSERT (minY <=? maxY);
    Some (IntRect.rect minX minY (int32 (maxX - minX)) (int32 (maxY - minY))).

(** ** The set operations *)

(** struct UnionOperation and its siblings. *)
Record Operation := mkOperation {
  trySimpleOperation : Shape -> Shape -> option Shape;
  opCode : Z;
  shouldAddRemainingSegmentsFromSpan1 : bool;
  shouldAddRemainingSegmentsFromSpan2 : bool;
  shouldAddRemainingSpansFromShape1 : bool;
  shouldAddRemainingSpansFromShape2 : bool }.

Definition UnionOperation : Operation := {|
  trySimpleOperation := fun shape1 shape2 => if isEmpty shape1 then Some shape2 else None;
  opCode := 0;
  shouldAddRemainingSegmentsFromSpan1 := true;
  shouldAddRemainingSegmentsFromSpan2 := true;
  shouldAddRemainingSpansFromShape1 := true;
  shouldAddRemainingSpansFromShape2 := true |}.

Definition IntersectOperation : Operation := {|
  trySimpleOperation := fun _ _ => None;
  opCode := 3;
  shouldAddRemainingSegmentsFromSpan1 := false;
  shouldAddRemainingSegmentsFromSpan2 := false;
  shouldAddRemainingSpansFromShape1 := false;
  shouldAddRemainingSpansFromShape2 := false |}.

Definition SubtractOperation : Operation := {|
  trySimpleOperation := fun _ _ => None;
  opCode := 1;
  shouldAddRemainingSegmentsFromSpan1 := true;
  shouldAddRemainingSegmentsFromSpan2 := false;
  shouldAddRemainingSpansFromShape1 := true;
  shouldAddRemainingSpansFromShape2 := false |}.

(** The loop over the segments of two spans: the coordinates produced, and what is
    left of the spans. *)
Fixpoint segmentLoop (op : Operation) (fuel : nat) (flag oldFlag : Z) (s1 s2 segments : list Z)
    : option (list Z * list Z * list Z) :=
  match s1, s2 with
  | x1 :: s1', x2 :: s2' =>
      match fuel with
      | O => None
      | S fuel' =>
          let test := int32 (x1 - x2) in
          let '(x, flag1, t1) :=
            if test <=? 0 then (x1, Z.lxor flag 1, s1') else (0, flag, s1) in
          let '(x, flag2, t2) :=
            if test >=? 0 then (x2, Z.lxor flag1 2, s2') else (x, flag1, s2) in
          let segments1 :=
            if (flag2 =? opCode op) || (oldFlag =? opCode op) then segments ++ [x] else segments in
          segmentLoop op fuel' flag2 flag2 t1 t2 segments1
      end
  | _, _ => Some (segments, s1, s2)
  end.

Definition mergeSegments (op : Operation) (segments1 segments2 : list Z) : option (list Z) :=
  '(segments, s1, s2) ← segmentLoop op (length segments1 + length segments2) 0 0 segments1 segments2 [];
  Some (if shouldAddRemainingSegmentsFromSpan1 op && negb (Nat.eqb (length s1) 0) then segments ++ s1
        else if shouldAddRemainingSegmentsFromSpan2 op && negb (Nat.eqb (length s2) 0) then segments ++ s2
        else segments).

(** The loop over the spans of both shapes: the result, and where it has stopped. *)
Fixpoint spanLoop (op : Operation) (shape1 shape2 : Shape) (fuel : nat) (spans1 spans2 : nat)
    (segments1 segments2 : list Z) (result : Shape) : option (Shape * nat * nat) :=
  if negb (Nat.eqb spans1 (spans_end shape1)) && negb (Nat.eqb spans2 (spans_end shape2)) then
    match fuel with
    | O => None
    | S fuel' =>
        span1 ← m_spans shape1 !! spans1;
        span2 ← m_spans shape2 !! spans2;
        let test := int32 (spanY span1 - spanY span2) in
        '(y, segments1', spans1') ←
          (if test <=? 0 then
             segments ← segmentsOf spans1 shape1; Some (spanY span1, segments, S spans1)
           else Some (0, segments1, spans1));
        '(y, segments2', spans2') ←
          (if test >=? 0 then
             segments ← segmentsOf spans2 shape2; Some (spanY span2, segments, S spans2)
           else Some (y, segments2, spans2));
        segments ← mergeSegments op segments1' segments2';
        let result1 :=
          if negb (Nat.eqb (length segments) 0) || negb (isEmpty result)
          then appendSpanSegments y segments result else result in
        spanLoop op shape1 shape2 fuel' spans1' spans2' segments1' segments2' result1
    end
  else Some (result, spans1, spans2).

Definition shapeOperation (op : Operation) (shape1 shape2 : Shape) : option Shape :=
  match trySimpleOperation op shape1 shape2 with
  | Some result => Some result
  | None =>
      '(result, spans1, spans2) ←
        spanLoop op shape1 shape2 (spans_end shape1 + spans_end shape2)
          (spans_begin shape1) (spans_begin shape2) [] [] empty;
      if shouldAddRemainingSpansFromShape1 op && negb (Nat.eqb spans1 (spans_end shape1))
      then appendSpans shape1 spans1 (spans_end shape1 - spans1) result
      else if shouldAddRemainingSpansFromShape2 op && negb (Nat.eqb spans2 (spans_end shape2))
      then appendSpans shape2 spans2 (spans_end shape2 - spans2) result
      else Some result
  end.

Definition unionShapes := shapeOperation UnionOperation.
Definition intersectShapes := shapeOperation IntersectOperation.
Definition subtractShapes := shapeOperation SubtractOperation.

(** ** Comparing shapes *)

(** A comparison callback: whether to return at once, and the result so far. *)
Record CompareOperation := mkCompare {
  defaultResult : bool;
  aOutsideB : bool -> bool * bool;
  bOutsideA : bool -> bool * bool;
  aOverlapsB : bool -> bool * bool }.

Definition CompareContainsOperation : CompareOperation := {|
  defaultResult := true;
  aOutsideB := fun result => (false, result);
  bOutsideA := fun _ => (true, false);
  aOverlapsB := fun result => (false, result) |}.

Definition CompareIntersectsOperation : CompareOperation := {|
  defaultResult := false;
  aOutsideB := fun result => (false, result);
  bOutsideA := fun result => (false, result);
  aOverlapsB := fun _ => (true, true) |}.

(** [if (condition && callback(result)) return result;] followed by the rest. *)
Definition returnIf {A} (condition : bool) (callback : bool -> bool * bool) (result : bool)
    (return_ : bool -> A) (rest : bool -> A) : A :=
  if condition then
    let '(stop, result1) := callback result in
    if stop then return_ result1 else rest result1
  else rest result.

(** The loop over the segments of two spans: the value returned, or the result and
    what is left of the spans. *)
Fixpoint compareSegments (op : CompareOperation) (fuel : nat) (result : bool) (a b : list Z)
    : option (bool + bool * list Z * list Z) :=
  match a, b with
  | [], _ | _, [] => Some (inr (result, a, b))
  | aX :: aMaxX :: a', bX :: bMaxX :: b' =>
      match fuel with
      | O => None
      | S fuel' =>
          let segmentsOverlap := (bMaxX >? aX) && (bX <? aMaxX) in
          let returned r := Some (inl r) in
          returnIf segmentsOverlap (aOverlapsB op) result returned (fun result =>
          returnIf (aX <? bX) (aOutsideB op) result returned (fun result =>
          returnIf (bX <? aX) (bOutsideA op) result returned (fun result =>
          if aMaxX <? bMaxX then compareSegments op fuel' result a' b
          else if bMaxX <? aMaxX then compareSegments op fuel' result a b'
          else compareSegments op fuel' result a' b')))
      end
  | _, _ => None
  end.

Definition hasRows (it : nat) (s : Shape) : bool :=
  negb (Nat.eqb it (spans_end s)) && negb (Nat.eqb (S it) (spans_end s)).

Fixpoint compareLoop (op : CompareOperation) (aShape bShape : Shape) (fuel : nat) (result : bool)
    (aSpan bSpan : nat) (aHadSegmentInPreviousSpan bHadSegmentInPreviousSpan : bool) : option bool :=
  if hasRows aSpan aShape && hasRows bSpan bShape then
    match fuel with
    | O => None
    | S fuel' =>
        aY ← spanY <$> m_spans aShape !! aSpan;
        aMaxY ← spanY <$> m_spans aShape !! S aSpan;
        bY ← spanY <$> m_spans bShape !! bSpan;
        bMaxY ← spanY <$> m_spans bShape !! S bSpan;
        aSegments ← segmentsOf aSpan aShape;
        bSegments ← segmentsOf bSpan bShape;
        let aHasSegmentInSpan := negb (Nat.eqb (length aSegments) 0) in
        let bHasSegmentInSpan := negb (Nat.eqb (length bSegments) 0) in
        returnIf ((aY <? bY) && negb bHadSegmentInPreviousSpan && aHasSegmentInSpan)
          (aOutsideB op) result Some (fun result =>
        returnIf ((bY <? aY) && negb aHadSegmentInPreviousSpan && bHasSegmentInSpan)
          (bOutsideA op) result Some (fun result =>
        let spansOverlap := (bMaxY >? aY) && (bY <? aMaxY) in
        let next result :=
          let continue_ aSpan bSpan :=
            compareLoop op aShape bShape fuel' result aSpan bSpan aHasSegmentInSpan bHasSegmentInSpan in
          if aMaxY <? bMaxY then continue_ (S aSpan) bSpan
          else if bMaxY <? aMaxY then continue_ aSpan (S bSpan)
          else continue_ (S aSpan) (S bSpan) in
        if spansOverlap then
          compared ← compareSegments op (length aSegments + length bSegments) result aSegments bSegments;
          match compared with
          | inl returned => Some returned
          | inr (result, a, b) =>
              returnIf (negb (Nat.eqb (length a) 0)) (aOutsideB op) result Some (fun result =>
              returnIf (negb (Nat.eqb (length b) 0)) (bOutsideA op) result Some next)
          end
        else next result))
    end
  else
    returnIf (hasRows aSpan aShape) (aOutsideB op) result Some (fun result =>
    returnIf (hasRows bSpan bShape) (bOutsideA op) result Some Some).

Definition compareShapes (op : CompareOperation) (aShape bShape : Shape) : option bool :=
  compareLoop op aShape bShape (spans_end aShape + spans_end bShape) (defaultResult op)
    (spans_begin aShape) (spans_begin bShape) false false.

End Shape.
Export (hints) Shape.
Abbreviation Shape := Shape.Shape.

Module Region.
Record Region := mk { m_bounds : IntRect; m_shape : Shape }.

(** operator==(const Region&, const Region&) *)
#[export] Instance Region_eq_dec : EqDecision Region.
Proof. solve_decision. Defined.

(** Region() and Region(const IntRect&) *)
Definition empty : Region := mk IntRect.zero Shape.empty.
Definition ofRect (rect : IntRect) : Region := mk rect (Shape.ofRect rect).

Definition isEmpty (r : Region) : bool := IntRect.isEmpty (m_bounds r).
Definition isRect (r : Region) : bool := Shape.isRect (m_shape r).

(** The loop of rects() over the segments of a span. *)
Fixpoint rowRects (y height : Z) (segments : list Z) : list IntRect :=
  match segments with
  | x :: maxX :: rest => IntRect.rect x y (int32 (maxX - x)) height :: rowRects y height rest
  | _ => []
  end.

(** The loop of rects() over the spans from [it] on, [count] of them. *)
Fixpoint rectsLoop (s : Shape) (it count : nat) : option (list IntRect) :=
  match count with
  | O => Some []
  | S count' =>
      if Shape.hasRows it s then
        y ← Shape.spanY <$> Shape.m_spans s !! it;
        maxY ← Shape.spanY <$> Shape.m_spans s !! S it;
        segments ← Shape.segmentsOf it s;
        rest ← rectsLoop s (S it) count';
        Some (rowRects y (int32 (maxY - y)) segments ++ rest)
      else Some []
  end.

Definition rects (r : Region) : option (list IntRect) :=
  rectsLoop (m_shape r) (Shape.spans_begin (m_shape r)) (Shape.spans_end (m_shape r)).

(** contains(const Region&) *)
Definition contains (region r : Region) : option bool :=
  if negb (IntRect.contains (m_bounds region) (m_bounds r)) then Some false
  else Shape.compareShapes Shape.CompareContainsOperation (m_shape r) (m_shape region).

(** The loop of contains(const IntPoint&) over the segments of a span. *)
Fixpoint segmentsContain (px : Z) (segments : list Z) : bool :=
  match segments with
  | x :: maxX :: rest =>
      if x >? px then false else if maxX >? px then true else segmentsContain px rest
  | _ => false
  end.

(** The loop of contains(const IntPoint&) over the spans. *)
Fixpoint containsLoop (s : Shape) (px py : Z) (it count : nat) : option bool :=
  match count with
  | O => Some false
  | S count' =>
      if Shape.hasRows it s then
        y ← Shape.spanY <$> Shape.m_spans s !! it;
        maxY ← Shape.spanY <$> Shape.m_spans s !! S it;
        if y >? py then Some false
        else if maxY <=? py then containsLoop s px py (S it) count'
        else
          segments ← Shape.segmentsOf it s;
          if segmentsContain px segments then Some true else containsLoop s px py (S it) count'
      else Some false
  end.

(** contains(const IntPoint&) *)
Definition containsPoint (px py : Z) (r : Region) : option bool :=
  if negb (IntRect.containsPoint px py (m_bounds r)) then Some false
  else containsLoop (m_shape r) px py (Shape.spans_begin (m_shape r)) (Shape.spans_end (m_shape r)).

Definition intersects (region r : Region) : option bool :=
  if negb (IntRect.intersects (m_bounds region) (m_bounds r)) then Some false
  else Shape.compareShapes Shape.CompareIntersectsOperation (m_shape r) (m_shape region).

(** totalArea() is unsigned; the product of width and height is an int. *)
Definition totalArea (r : Region) : option Z :=
  rects ← rects r;
  Some (fold_left
    (fun total rect => (total + int32 (IntRect.width rect * IntRect.height rect)) mod 2 ^ 32) rects 0).

Definition intersect (region r : Region) : option Region :=
  if IntRect.isEmpty (m_bounds r) then Some r
  else if negb (IntRect.intersects (m_bounds region) (m_bounds r))
  then Some (mk IntRect.zero Shape.empty)
  else
    shape ← Shape.intersectShapes (m_shape r) (m_shape region);
    bounds ← Shape.bounds shape;
    Some (mk bounds shape).

Definition unite (region r : Region) : option Region :=
  if isEmpty region then Some r
  else if isRect r && IntRect.contains (m_bounds region) (m_bounds r) then Some r
  else if isRect region && IntRect.contains (m_bounds r) (m_bounds region)
  then Some (mk (m_bounds region) (m_shape region))
  else
    covered ← (if negb (isRect r) then contains region r else Some false);
    if (covered : bool) then Some r
    else
      shape ← Shape.unionShapes (m_shape r) (m_shape region);
      Some (mk (IntRect.unite (m_bounds region) (m_bounds r)) shape).

Definition subtract (region r : Region) : option Region :=
  if IntRect.isEmpty (m_bounds r) then Some r
  else if isEmpty region then Some r
  else if negb (IntRect.intersects (m_bounds region) (m_bounds r)) then Some r
  else
    shape ← Shape.subtractShapes (m_shape r) (m_shape region);
    bounds ← Shape.bounds shape;
    Some (mk bounds shape).

Definition translate (offset : IntSize) (r : Region) : Region :=
  mk (IntRect.move offset (m_bounds r)) (Shape.translate offset (m_shape r)).
End Region.
Export (hints) Region.
Abbreviation Region := Region.Region.

(** An L-shaped region. *)
Definition elbow : option Region :=
  Region.unite (Region.ofRect (IntRect.rect 0 5 10 5)) (Region.ofRect (IntRect.rect 0 0 5 10)).

Example elbow_rects :
  (elbow ≫= Region.rects) = Some [IntRect.rect 0 0 5 5; IntRect.rect 0 5 10 5].
Proof. reflexivity. Qed.

Example elbow_point :
  (elbow ≫= Region.containsPoint 7 7) = Some true /\ (elbow ≫= Region.containsPoint 7 3) = Some false.
Proof. split; reflexivity. Qed.
