(* ===== verification/RegionSpec.v ===== *)
(** * Shapes as rows

    What a [Shape] stands for: a list of rows, each with the coordinates at which
    it enters and leaves the region, from its y-coordinate down to the next row.
    [encode] is the shape of a list of rows; [canon] says that the rows are in the
    form the code keeps (no row twice, no empty row first, the last one empty);
    [cell] is the set of pixels.  The lemmas say what the iterators, the two
    merging loops and the comparison loops of Region.v do to rows. *)

From Stdlib Require Import Sorting.Sorted.
From stdpp Require Import sets.
From S2P Require Import Prelude Geometry Region.

(** ** Rows and pixels *)

Abbreviation Row := (Z * list Z)%type.

(** Between an odd and an even number of crossings. *)
Fixpoint inside (segments : list Z) (x : Z) : bool :=
  match segments with
  | [] => false
  | s :: rest => xorb (s <=? x) (inside rest x)
  end.

(** The segments of the row at [y]; [above] are those above the first row. *)
Fixpoint rowAt (above : list Z) (rows : list Row) (y : Z) : list Z :=
  match rows with
  | [] => above
  | (y0, segments) :: rest => if y0 <=? y then rowAt segments rest y else above
  end.

Definition cell (rows : list Row) (x y : Z) : bool := inside (rowAt [] rows y) x.

Definition ascending : list Z -> Prop := StronglySorted Z.lt.

Definition segsOk (segments : list Z) : Prop :=
  ascending segments /\ Nat.odd (length segments) = false /\ Forall (fun x => coordOk x = true) segments.

(** Rows below a row with the segments [above]. *)
Fixpoint canon (above : list Z) (rows : list Row) : Prop :=
  match rows with
  | [] => above = []
  | (y, segments) :: rest =>
      segments <> above /\ segsOk segments /\ coordOk y = true /\
      Forall (fun row => y < row.1) rest /\ canon segments rest
  end.

(** *** Crossings *)

Lemma inside_below (s : list Z) (x : Z) : Forall (fun z => x < z) s -> inside s x = false.
Proof.
  induction 1 as [| z s Hz _ IH]; [done |]. simpl. rewrite IH.
  replace (z <=? x) with false by (symmetry; apply Z.leb_gt; lia). done.
Qed.

Lemma inside_above (s : list Z) (x : Z) :
  Forall (fun z => z <= x) s -> inside s x = Nat.odd (length s).
Proof.
  induction 1 as [| z s Hz _ IH]; [done |]. cbn [inside length]. rewrite IH, Nat.odd_succ.
  rewrite (proj2 (Z.leb_le _ _) Hz), <- Nat.negb_odd. by destruct (Nat.odd _).
Qed.

Lemma ascending_inv (z : Z) (s : list Z) :
  ascending (z :: s) -> ascending s /\ Forall (fun z' => z < z') s.
Proof. apply StronglySorted_inv. Qed.

Lemma inside_head (z : Z) (s : list Z) : ascending (z :: s) -> inside (z :: s) z = true.
Proof.
  intros [_ H]%ascending_inv. simpl. by rewrite Z.leb_refl, (inside_below s z).
Qed.

Lemma inside_app (s t : list Z) (x : Z) : inside (s ++ t) x = xorb (inside s x) (inside t x).
Proof.
  induction s as [| z s IH]; simpl; [by destruct (inside t x) |].
  by rewrite IH, Bool.xorb_assoc.
Qed.

Lemma inside_inj (s t : list Z) :
  ascending s -> ascending t -> (forall x, inside s x = inside t x) -> s = t.
Proof.
  revert t. induction s as [| z s IH]; intros [| z' t] Hs Ht H.
  - done.
  - specialize (H z'). rewrite (inside_head z' t Ht) in H. done.
  - specialize (H z). rewrite (inside_head z s Hs) in H. done.
  - destruct (ascending_inv _ _ Hs) as [Hs' Hz], (ascending_inv _ _ Ht) as [Ht' Hz'].
    assert (z = z') as <-.
    { destruct (Z.lt_trichotomy z z') as [L | [-> | L]]; [| done |].
      - pose proof (H z) as E. rewrite (inside_head z s Hs), (inside_below (z' :: t) z) in E; [done |].
        constructor; [done |]. eapply list.Forall_impl; [exact Hz' | simpl; lia].
      - pose proof (H z') as E. rewrite (inside_head z' t Ht), (inside_below (z :: s) z') in E; [done |].
        constructor; [done |]. eapply list.Forall_impl; [exact Hz | simpl; lia]. }
    f_equal. apply IH; [done | done |]. intros x. specialize (H x). simpl in H.
    by destruct (z <=? x), (inside s x), (inside t x).
Qed.

(** *** Rows *)

Lemma rowAt_below (above : list Z) (rows : list Row) (y : Z) :
  Forall (fun row => y < row.1) rows -> rowAt above rows y = above.
Proof.
  destruct rows as [| [y0 s] rest]; [done |]. intros [H _]%Forall_cons_1. simpl in *.
  by rewrite (proj2 (Z.leb_gt _ _) H).
Qed.

Lemma rowAt_from (above : list Z) (y0 : Z) (s : list Z) (rest : list Row) (y : Z) :
  y0 <= y -> rowAt above ((y0, s) :: rest) y = rowAt s rest y.
Proof. intros H. simpl. by rewrite (proj2 (Z.leb_le _ _) H). Qed.

Lemma canon_segsOk (above : list Z) (rows : list Row) (y : Z) :
  segsOk above -> canon above rows -> segsOk (rowAt above rows y).
Proof.
  revert above. induction rows as [| [y0 s] rest IH]; intros above Ha Hc; [done |].
  destruct Hc as (_ & Hs & _ & _ & Hc). simpl. destruct (y0 <=? y); [by apply IH | done].
Qed.

Lemma segsOk_nil : segsOk [].
Proof. repeat constructor. Qed.
#[export] Hint Resolve segsOk_nil : core.

(** The last row is empty. *)
Lemma canon_ends (above : list Z) (rows : list Row) (i : nat) (row : Row) :
  canon above rows -> rows !! i = Some row -> rows !! S i = None -> row.2 = [].
Proof.
  revert above i. induction rows as [| [y0 s] rest IH]; intros above i Hc Hi Hn; [done |].
  destruct Hc as (_ & _ & _ & _ & Hc). destruct i as [| i]; simpl in *.
  - simplify_eq. destruct rest as [| r rest]; [| done]. done.
  - by eapply IH.
Qed.

Lemma canon_drop (above : list Z) (rows : list Row) (i : nat) :
  canon above rows -> exists above', canon above' (drop i rows).
Proof.
  revert above i. induction rows as [| [y0 s] rest IH]; intros above i Hc.
  - exists []. by rewrite drop_nil.
  - destruct i as [| i]; [by exists above |]. destruct Hc as (_ & _ & _ & _ & Hc). by eapply IH.
Qed.

Lemma rows_inj (above : list Z) (rows1 rows2 : list Row) :
  segsOk above -> canon above rows1 -> canon above rows2 ->
  (forall x y, inside (rowAt above rows1 y) x = inside (rowAt above rows2 y) x) -> rows1 = rows2.
Proof.
  assert (Hne : forall above (y0 : Z) s rest rows2, segsOk above -> segsOk s -> s <> above ->
    Forall (fun row => y0 < row.1) rest -> Forall (fun row => y0 < row.1) rows2 ->
    ~ forall x y, inside (rowAt above ((y0, s) :: rest) y) x = inside (rowAt above rows2 y) x).
  { intros ab y0 s rest rows Ha Hs Hn H1 H2 H. apply Hn.
    apply inside_inj; [apply Hs | apply Ha |]. intros x. specialize (H x y0).
    rewrite rowAt_from, !rowAt_below in H by (done || lia). done. }
  revert above rows2. induction rows1 as [| [y1 s1] r1 IH]; intros above [| [y2 s2] r2] Ha H1 H2 H.
  - done.
  - destruct H2 as (Hn & Hs & _ & Hlt & _). exfalso.
    apply (Hne above y2 s2 r2 []); done.
  - destruct H1 as (Hn & Hs & _ & Hlt & _). exfalso.
    by apply (Hne above y1 s1 r1 []).
  - pose proof H1 as (Hn1 & Hs1 & _ & Hlt1 & Hc1). pose proof H2 as (Hn2 & Hs2 & _ & Hlt2 & Hc2).
    destruct (Z.lt_trichotomy y1 y2) as [L | [<- | L]].
    + exfalso. apply (Hne above y1 s1 r1 ((y2, s2) :: r2)); try done.
      constructor; [done |]. eapply list.Forall_impl; [exact Hlt2 | simpl; lia].
    + assert (s1 = s2) as <-.
      { apply inside_inj; [apply Hs1 | apply Hs2 |]. intros x. specialize (H x y1).
        rewrite !rowAt_from, !rowAt_below in H by (done || lia). done. }
      f_equal. apply (IH s1); [done.. |]. intros x y. destruct (Z.le_gt_cases y1 y) as [L | L].
      * specialize (H x y). by rewrite !rowAt_from in H.
      * rewrite !rowAt_below; [done | |]; (eapply list.Forall_impl; [eassumption | simpl; lia]).
    + exfalso. apply (Hne above y2 s2 r2 ((y1, s1) :: r1)); try done.
      constructor; [done |]. eapply list.Forall_impl; [exact Hlt1 | simpl; lia].
Qed.

(** ** Rows as shapes *)

Fixpoint spansFrom (k : nat) (rows : list Row) : list Shape.Span :=
  match rows with
  | [] => []
  | (y, segments) :: rest => Shape.mkSpan y k :: spansFrom (k + length segments) rest
  end.

Definition segmentsIn (rows : list Row) : list Z := concat (snd <$> rows).

Definition encode (rows : list Row) : Shape := Shape.mk (segmentsIn rows) (spansFrom 0 rows).

Lemma segmentsIn_app (rows1 rows2 : list Row) :
  segmentsIn (rows1 ++ rows2) = segmentsIn rows1 ++ segmentsIn rows2.
Proof. unfold segmentsIn. by rewrite fmap_app, concat_app. Qed.

Lemma spansFrom_length (k : nat) (rows : list Row) : length (spansFrom k rows) = length rows.
Proof.
  revert k. induction rows as [| [y s] rest IH]; intros k; [done |]. simpl. by rewrite IH.
Qed.

Lemma encode_length (rows : list Row) : Shape.spans_end (encode rows) = length rows.
Proof. apply spansFrom_length. Qed.

Lemma spansFrom_app (k : nat) (rows1 rows2 : list Row) :
  spansFrom k (rows1 ++ rows2) = spansFrom k rows1 ++ spansFrom (k + length (segmentsIn rows1)) rows2.
Proof.
  revert k. induction rows1 as [| [y s] rest IH]; intros k; simpl; [by rewrite Nat.add_0_r |].
  rewrite IH. unfold segmentsIn. simpl. by rewrite length_app, Nat.add_assoc.
Qed.

Lemma spans_lookup (rows : list Row) (i : nat) :
  Shape.m_spans (encode rows) !! i =
  (fun row => Shape.mkSpan row.1 (length (segmentsIn (take i rows)))) <$> rows !! i.
Proof.
  destruct (rows !! i) as [[y s] |] eqn:E; simpl.
  - rewrite <- (take_drop_middle _ _ _ E) at 1. rewrite spansFrom_app.
    apply list_lookup_middle. rewrite spansFrom_length, length_take.
    pose proof (lookup_lt_Some _ _ _ E). lia.
  - apply lookup_ge_None. rewrite spansFrom_length. by apply lookup_ge_None.
Qed.

(** Row [i] in the vector of all segments. *)
Lemma segmentsIn_split (rows : list Row) (i : nat) (y : Z) (s : list Z) :
  rows !! i = Some (y, s) ->
  segmentsIn rows = segmentsIn (take i rows) ++ s ++ segmentsIn (drop (S i) rows) /\
  segmentsIn (take (S i) rows) = segmentsIn (take i rows) ++ s.
Proof.
  intros E. split.
  - rewrite <- (take_drop_middle _ _ _ E) at 1. by rewrite segmentsIn_app.
  - rewrite (take_S_r _ _ _ E), segmentsIn_app. unfold segmentsIn at 2. simpl. by rewrite app_nil_r.
Qed.

Definition ended (rows : list Row) : Prop :=
  forall i row, rows !! i = Some row -> rows !! S i = None -> row.2 = [].

Lemma canon_ended (above : list Z) (rows : list Row) : canon above rows -> ended rows.
Proof. intros H i row. by apply (canon_ends above). Qed.

Lemma ended_next (rows : list Row) (i : nat) (y : Z) (s : list Z) :
  ended rows -> rows !! i = Some (y, s) ->
  length (segmentsIn (take i rows)) <> length (segmentsIn rows) ->
  exists row, rows !! S i = Some row.
Proof.
  intros He E Hl. destruct (rows !! S i) as [row |] eqn:En; [by exists row |]. exfalso.
  pose proof (He _ _ E En) as Hs. simpl in Hs. subst s.
  destruct (segmentsIn_split _ _ _ _ E) as [Hd _]. apply Hl. rewrite Hd.
  apply lookup_ge_None in En. rewrite (drop_ge rows) by done. simpl. by rewrite app_nil_r.
Qed.

Lemma segments_begin_ok (rows : list Row) (i : nat) (y : Z) (s : list Z) :
  rows !! i = Some (y, s) ->
  Shape.segments_begin i (encode rows) =
    Some (if Nat.eqb (length (segmentsIn (take i rows))) (length (segmentsIn rows)) then None
          else Some (length (segmentsIn (take i rows)))).
Proof.
  intros E. unfold Shape.segments_begin. rewrite spans_lookup, E. cbn [fmap option_fmap option_map mbind option_bind].
  destruct (segmentsIn_split _ _ _ _ E) as [Hd _].
  cbn [encode Shape.m_segments Shape.segmentIndex fst]. destruct (Nat.eqb_spec (length (segmentsIn (take i rows))) (length (segmentsIn rows))); [done |].
  destruct (lookup_lt_is_Some_2 (segmentsIn rows) (length (segmentsIn (take i rows)))) as [v Hv].
  - rewrite Hd, length_app in *. lia.
  - by rewrite Hv.
Qed.

Lemma segments_end_ok (rows : list Row) (i : nat) (y : Z) (s : list Z) :
  ended rows -> rows !! i = Some (y, s) ->
  Shape.segments_end i (encode rows) =
    Some (if Nat.eqb (length (segmentsIn (take i rows))) (length (segmentsIn rows)) then None
          else Some (length (segmentsIn (take i rows)) + length s)%nat).
Proof.
  intros He E. unfold Shape.segments_end. rewrite (spans_lookup rows i), E. cbn [fmap option_fmap option_map mbind option_bind].
  destruct (segmentsIn_split _ _ _ _ E) as [Hd Ht].
  cbn [encode Shape.m_segments Shape.segmentIndex fst]. destruct (Nat.eqb_spec (length (segmentsIn (take i rows))) (length (segmentsIn rows))) as [| Hn]; [done |].
  destruct (ended_next _ _ _ _ He E Hn) as [row En].
  rewrite spans_lookup, En. cbn [fmap option_fmap option_map mbind option_bind Shape.segmentIndex].
  rewrite Ht, length_app.
  replace (Nat.leb _ _) with true; [done |]. symmetry. apply Nat.leb_le.
  rewrite Hd, !length_app. lia.
Qed.

Lemma segmentsOf_ok (rows : list Row) (i : nat) (y : Z) (s : list Z) :
  ended rows -> rows !! i = Some (y, s) -> Shape.segmentsOf i (encode rows) = Some s.
Proof.
  intros He E. unfold Shape.segmentsOf. rewrite (segments_begin_ok _ _ _ _ E), (segments_end_ok _ _ _ _ He E).
  cbn [mbind option_bind]. destruct (segmentsIn_split _ _ _ _ E) as [Hd _].
  destruct (Nat.eqb_spec (length (segmentsIn (take i rows))) (length (segmentsIn rows))) as [Hl |]; simpl.
  - destruct s; [done |]. rewrite Hd, !length_app in Hl. simpl in Hl. lia.
  - rewrite (proj2 (Nat.leb_le _ _)) by lia. f_equal. rewrite Nat.add_comm, Nat.add_sub, Hd.
    by rewrite drop_app_length, take_app_length.
Qed.

(** *** Building a shape *)

Definition lastSegments (rows : list Row) : list Z := from_option snd [] (list.last rows).

(** A row is added unless it repeats the last one. *)
Definition addRow (rows : list Row) (row : Row) : list Row :=
  if negb (Nat.eqb (length rows) 0) && bool_decide (row.2 = lastSegments rows) then rows
  else rows ++ [row].

Lemma appendSpan_ok (rows : list Row) (y : Z) :
  Shape.appendSpan y (encode rows) = encode (rows ++ [(y, [])]).
Proof.
  unfold Shape.appendSpan, encode. rewrite segmentsIn_app, spansFrom_app. simpl. by rewrite app_nil_r.
Qed.

Lemma canCoalesce_ok (rows : list Row) (s : list Z) :
  Shape.canCoalesce s (encode rows)
  = negb (Nat.eqb (length rows) 0) && bool_decide (s = lastSegments rows).
Proof.
  unfold Shape.canCoalesce, lastSegments. destruct rows as [| [y' s'] l _] using rev_ind; [done |].
  cbn [encode Shape.m_spans Shape.m_segments]. rewrite spansFrom_app, segmentsIn_app. simpl.
  rewrite !last_snoc, length_app. simpl. rewrite drop_app_length.
  replace (segmentsIn [(y', s')]) with s' by (unfold segmentsIn; simpl; by rewrite app_nil_r).
  replace (length l + 1)%nat with (S (length l)) by lia. simpl.
  destruct (Nat.eqb_spec (length s') (length s)) as [E | E]; [done |]. simpl.
  symmetry. apply bool_decide_eq_false. intros ->. done.
Qed.

Lemma appendSpanSegments_ok (rows : list Row) (y : Z) (s : list Z) :
  Shape.appendSpanSegments y s (encode rows) = encode (addRow rows (y, s)).
Proof.
  unfold Shape.appendSpanSegments, addRow. rewrite canCoalesce_ok. destruct (_ && _); [done |].
  unfold Shape.appendSpan, encode. rewrite segmentsIn_app, spansFrom_app.
  replace (segmentsIn [(y, s)]) with s by (unfold segmentsIn; simpl; by rewrite app_nil_r). done.
Qed.

Lemma appendSpans_ok (A out : list Row) (it count : nat) :
  ended A -> (it + count <= length A)%nat ->
  Shape.appendSpans (encode A) it count (encode out)
  = Some (encode (foldl addRow out (take count (drop it A)))).
Proof.
  intros He. revert it out. induction count as [| count IH]; intros it out Hl; [done |].
  destruct (lookup_lt_is_Some_2 A it) as [[y s] E]; [lia |].
  cbn [Shape.appendSpans]. rewrite spans_lookup, E.
  cbn [fmap option_fmap option_map mbind option_bind Shape.spanY fst].
  rewrite (segmentsOf_ok _ _ _ _ He E). cbn [mbind option_bind].
  rewrite appendSpanSegments_ok, IH by lia. by rewrite (drop_S _ _ _ E).
Qed.

Lemma addRow_new (out : list Row) (y : Z) (s : list Z) :
  s <> lastSegments out -> addRow out (y, s) = out ++ [(y, s)].
Proof.
  intros H. unfold addRow. simpl. rewrite bool_decide_eq_false_2 by done. by rewrite andb_false_r.
Qed.

Lemma lastSegments_snoc (out : list Row) (y : Z) (s : list Z) : lastSegments (out ++ [(y, s)]) = s.
Proof. unfold lastSegments. by rewrite last_snoc. Qed.

Lemma foldl_addRow (rows out : list Row) :
  canon (lastSegments out) rows -> foldl addRow out rows = out ++ rows.
Proof.
  revert out. induction rows as [| [y s] rest IH]; intros out Hc; [by rewrite app_nil_r |].
  destruct Hc as (Hn & _ & _ & _ & Hc). simpl. rewrite addRow_new, IH, <- app_assoc; [done | | done].
  by rewrite lastSegments_snoc.
Qed.

(** ** Merging the segments of two spans *)

Definition bits (b1 b2 : bool) : Z := (if b1 then 1 else 0) + (if b2 then 2 else 0).

(** The operation's code is that of pixels in the first and in the second set. *)
Definition flagIs (op : Shape.Operation) (b1 b2 : bool) : bool := bits b1 b2 =? Shape.opCode op.

(** The set operation a code stands for. *)
Definition opIn (op : Shape.Operation) (b1 b2 : bool) : bool :=
  xorb (flagIs op false false) (flagIs op b1 b2).

(** What is added when one of the spans, or shapes, has come to its end fits the
    operation. *)
Record OpOk (op : Shape.Operation) : Prop := {
  add_segments1 : Shape.shouldAddRemainingSegmentsFromSpan1 op = opIn op true false;
  add_segments2 : Shape.shouldAddRemainingSegmentsFromSpan2 op = opIn op false true;
  add_spans1 : Shape.shouldAddRemainingSpansFromShape1 op = opIn op true false;
  add_spans2 : Shape.shouldAddRemainingSpansFromShape2 op = opIn op false true;
  simple_ok : forall shape1 shape2 shape, Shape.trySimpleOperation op shape1 shape2 = Some shape ->
    Shape.isEmpty shape1 = true /\ shape = shape2 /\ opIn op false true = true }.

Lemma union_ok : OpOk Shape.UnionOperation.
Proof.
  split; try reflexivity. intros shape1 shape2 shape. simpl.
  destruct (Shape.isEmpty shape1); [| done]. by intros [= ->].
Qed.
Lemma intersect_ok : OpOk Shape.IntersectOperation.
Proof. split; reflexivity || done. Qed.
Lemma subtract_ok : OpOk Shape.SubtractOperation.
Proof. split; reflexivity || done. Qed.
#[export] Hint Resolve union_ok intersect_ok subtract_ok : core.

Lemma opIn_union (b1 b2 : bool) : opIn Shape.UnionOperation b1 b2 = b1 || b2.
Proof. by destruct b1, b2. Qed.
Lemma opIn_intersect (b1 b2 : bool) : opIn Shape.IntersectOperation b1 b2 = b1 && b2.
Proof. by destruct b1, b2. Qed.
Lemma opIn_subtract (b1 b2 : bool) : opIn Shape.SubtractOperation b1 b2 = b1 && negb b2.
Proof. by destruct b1, b2. Qed.

Lemma flag_step1 (b1 b2 : bool) : Z.lxor (bits b1 b2) 1 = bits (negb b1) b2.
Proof. by destruct b1, b2. Qed.
Lemma flag_step2 (b1 b2 : bool) : Z.lxor (bits b1 b2) 2 = bits b1 (negb b2).
Proof. by destruct b1, b2. Qed.

Lemma flagIs_unique (op : Shape.Operation) (p1 p2 q1 q2 : bool) :
  flagIs op p1 p2 = true -> flagIs op q1 q2 = true -> p1 = q1 /\ p2 = q2.
Proof.
  unfold flagIs. rewrite !Z.eqb_eq. intros <-. destruct p1, p2, q1, q2; (done || discriminate).
Qed.

Definition remainder (op : Shape.Operation) (r1 r2 : list Z) : list Z :=
  if Shape.shouldAddRemainingSegmentsFromSpan1 op && negb (Nat.eqb (length r1) 0) then r1
  else if Shape.shouldAddRemainingSegmentsFromSpan2 op && negb (Nat.eqb (length r2) 0) then r2
  else [].

(** One coordinate [c] flips the flags from p to q. *)
Lemma step_inside (op : Shape.Operation) (p1 p2 q1 q2 i1 i2 j1 j2 : bool) (c x : Z) (full : list Z) :
  (p1, p2) <> (q1, q2) ->
  (if c <=? x then xorb p1 i1 = xorb q1 j1 /\ xorb p2 i2 = xorb q2 j2
   else i1 = false /\ i2 = false /\ j1 = false /\ j2 = false) ->
  inside full x = xorb (flagIs op q1 q2) (flagIs op (xorb q1 j1) (xorb q2 j2)) ->
  inside ((if flagIs op q1 q2 || flagIs op p1 p2 then [c] else []) ++ full) x
  = xorb (flagIs op p1 p2) (flagIs op (xorb p1 i1) (xorb p2 i2)).
Proof.
  intros Hne Hij Hx. rewrite inside_app, Hx.
  replace (flagIs op q1 q2 || flagIs op p1 p2) with (xorb (flagIs op q1 q2) (flagIs op p1 p2)).
  2:{ destruct (flagIs op q1 q2) eqn:Eq, (flagIs op p1 p2) eqn:Ep; try done.
      destruct (flagIs_unique _ _ _ _ _ Ep Eq) as [-> ->]. done. }
  destruct (c <=? x) eqn:Ec.
  - destruct Hij as [-> ->]. generalize (flagIs op (xorb q1 j1) (xorb q2 j2)). intros b.
    destruct (flagIs op q1 q2), (flagIs op p1 p2), b; simpl; by rewrite ?Ec.
  - destruct Hij as (-> & -> & -> & ->). rewrite !xorb_false_r, !xorb_nilpotent, xorb_false_r.
    destruct (xorb (flagIs op q1 q2) (flagIs op p1 p2)); simpl; by rewrite ?Ec.
Qed.

Lemma inside_cons_from (c x : Z) (s : list Z) : c <= x -> inside (c :: s) x = negb (inside s x).
Proof. intros H. simpl. rewrite (proj2 (Z.leb_le _ _) H). by destruct (inside s x). Qed.

(** What is to be merged: coordinates in order and in bounds. *)
Definition mergeable (s : list Z) : Prop := ascending s /\ Forall (fun x => coordOk x = true) s.

Lemma mergeable_inv (z : Z) (s : list Z) :
  mergeable (z :: s) ->
  mergeable s /\ Forall (fun z' => z < z') s /\ - 2 ^ 30 <= z < 2 ^ 30.
Proof.
  intros [[Hs Hz]%ascending_inv [Hc%coordOk_spec Hcs]%Forall_cons_1]. repeat split; try done; lia.
Qed.

Lemma segsOk_mergeable (s : list Z) : segsOk s -> mergeable s.
Proof. intros (? & _ & ?). done. Qed.

Lemma remainder_ok (op : Shape.Operation) (s1 s2 : list Z) :
  OpOk op -> s1 = [] \/ s2 = [] -> mergeable s1 -> mergeable s2 ->
  mergeable (remainder op s1 s2) /\
  Forall (fun z => z ∈ s1 \/ z ∈ s2) (remainder op s1 s2) /\
  forall x, inside (remainder op s1 s2) x
    = xorb (flagIs op (Nat.odd (length s1)) (Nat.odd (length s2)))
        (flagIs op (xorb (Nat.odd (length s1)) (inside s1 x)) (xorb (Nat.odd (length s2)) (inside s2 x))).
Proof.
  intros Hop He H1 H2. unfold remainder. rewrite (add_segments1 _ Hop), (add_segments2 _ Hop).
  assert (Hnil : mergeable []) by (repeat constructor).
  assert (Hself : forall s : list Z, Forall (fun z => z ∈ s) s) by (intros; by apply list.Forall_forall).
  destruct He as [-> | ->]; change (Nat.odd (length [])) with false; cbn [inside].
  - change (Nat.eqb (length []) 0) with true. rewrite andb_false_r.
    destruct (Nat.eqb_spec (length s2) 0) as [E%nil_length_inv | _]; simpl negb.
    + subst s2. rewrite andb_false_r. split; [done | split; [constructor |]]. intros x. by rewrite xorb_nilpotent.
    + rewrite andb_true_r. unfold opIn.
      destruct (flagIs op false false) eqn:E0, (flagIs op false true) eqn:E1; simpl xorb.
      all: split; [done | split; [first [constructor; fail | eapply list.Forall_impl; [apply Hself | by right]] |]].
      all: intros x; generalize (Nat.odd (length s2)), (inside s2 x); intros [] []; simpl; by rewrite ?E0, ?E1.
  - change (Nat.eqb (length []) 0) with true. rewrite andb_false_r.
    destruct (Nat.eqb_spec (length s1) 0) as [E%nil_length_inv | _]; simpl negb.
    + subst s1. rewrite andb_false_r. split; [done | split; [constructor |]]. intros x. by rewrite xorb_nilpotent.
    + rewrite andb_true_r. unfold opIn.
      destruct (flagIs op false false) eqn:E0, (flagIs op true false) eqn:E1; simpl xorb.
      all: split; [done | split; [first [constructor; fail | eapply list.Forall_impl; [apply Hself | by left]] |]].
      all: intros x; generalize (Nat.odd (length s1)), (inside s1 x); intros [] []; simpl; by rewrite ?E0, ?E1.
Qed.

Lemma prepend_ok (e : bool) (c : Z) (full t1 t2 s1 s2 : list Z) :
  - 2 ^ 30 <= c < 2 ^ 30 -> Forall (fun z => c < z) t1 -> Forall (fun z => c < z) t2 ->
  mergeable full -> Forall (fun z => z ∈ t1 \/ z ∈ t2) full ->
  t1 ⊆ s1 -> t2 ⊆ s2 -> c ∈ s1 \/ c ∈ s2 ->
  mergeable ((if e then [c] else []) ++ full) /\
  Forall (fun z => z ∈ s1 \/ z ∈ s2) ((if e then [c] else []) ++ full).
Proof.
  intros Hc H1 H2 [Hf Hb] Hin Ht1 Ht2 Hcs.
  assert (Hin' : Forall (fun z => z ∈ s1 \/ z ∈ s2) full).
  { eapply list.Forall_impl; [exact Hin |]. intros z [Hz | Hz]; [left | right]; auto. }
  destruct e; [| done]. simpl. split; [| by constructor]. split.
  - constructor; [done |]. eapply list.Forall_impl; [exact Hin |].
    rewrite list.Forall_forall in H1, H2. intros z [Hz | Hz]; auto.
  - constructor; [by apply coordOk_spec | done].
Qed.

Lemma odd_cons (z : Z) (s : list Z) : Nat.odd (length (z :: s)) = negb (Nat.odd (length s)).
Proof. cbn [length]. by rewrite Nat.odd_succ, Nat.negb_odd. Qed.

Lemma xorb_negb_both (a b : bool) : xorb (negb a) (negb b) = xorb a b.
Proof. by destruct a, b. Qed.

(** [full] is the merge of what is left of two spans, read with the flags at this
    point. *)
Record merged (op : Shape.Operation) (s1 s2 full : list Z) : Prop := {
  merged_mergeable : mergeable full;
  merged_from : Forall (fun z => z ∈ s1 \/ z ∈ s2) full;
  merged_inside : forall x, inside full x
    = xorb (flagIs op (Nat.odd (length s1)) (Nat.odd (length s2)))
        (flagIs op (xorb (Nat.odd (length s1)) (inside s1 x)) (xorb (Nat.odd (length s2)) (inside s2 x))) }.

(** Taking the coordinate [c] off one of the spans, or off both. *)
Lemma merged_step (op : Shape.Operation) (c : Z) (s1 s2 t1 t2 full : list Z) :
  mergeable s1 -> mergeable s2 ->
  (s1 = c :: t1 /\ (s2 = t2 \/ s2 = c :: t2) \/ s1 = t1 /\ s2 = c :: t2) ->
  Forall (fun z => c < z) t1 -> Forall (fun z => c < z) t2 ->
  merged op t1 t2 full ->
  merged op s1 s2
    ((if flagIs op (Nat.odd (length t1)) (Nat.odd (length t2)) ||
         flagIs op (Nat.odd (length s1)) (Nat.odd (length s2)) then [c] else []) ++ full).
Proof.
  intros H1 H2 Hs L1 L2 [Hm Hf Hx].
  assert (Hc : - 2 ^ 30 <= c < 2 ^ 30).
  { destruct Hs as [[-> _] | [_ ->]]; by eapply mergeable_inv. }
  destruct (prepend_ok (flagIs op (Nat.odd (length t1)) (Nat.odd (length t2)) ||
      flagIs op (Nat.odd (length s1)) (Nat.odd (length s2))) c full t1 t2 s1 s2) as [Hm' Hf']; try done.
  { destruct Hs as [[-> _] | [-> _]]; set_solver. }
  { destruct Hs as [[_ [-> | ->]] | [_ ->]]; set_solver. }
  { destruct Hs as [[-> _] | [_ ->]]; set_solver. }
  split; [done | done |]. intros x. apply step_inside with (inside t1 x) (inside t2 x); [| | done].
  - destruct Hs as [[-> [-> | ->]] | [-> ->]]; rewrite ?odd_cons; intros [=]; by repeat destruct (Nat.odd _).
  - destruct (Z.leb_spec c x) as [L | L].
    + destruct Hs as [[-> [-> | ->]] | [-> ->]]; rewrite ?odd_cons, ?inside_cons_from, ?xorb_negb_both by done; done.
    + assert (Hb : forall t, Forall (fun z => c < z) t -> Forall (fun z => x < z) t).
      { intros t Ht. eapply list.Forall_impl; [exact Ht | simpl; lia]. }
      rewrite (inside_below t1), (inside_below t2) by auto.
      destruct Hs as [[-> [-> | ->]] | [-> ->]]; rewrite !inside_below; auto.
Qed.

Lemma snoc_if (e : bool) (acc : list Z) (c : Z) :
  (if e then acc ++ [c] else acc) = acc ++ (if e then [c] else []).
Proof. destruct e; [done | by rewrite app_nil_r]. Qed.

Lemma segmentLoop_ok (op : Shape.Operation) (fuel : nat) (s1 s2 acc : list Z) :
  OpOk op -> mergeable s1 -> mergeable s2 -> (length s1 + length s2 <= fuel)%nat ->
  let flag := bits (Nat.odd (length s1)) (Nat.odd (length s2)) in
  exists out r1 r2, Shape.segmentLoop op fuel flag flag s1 s2 acc = Some (acc ++ out, r1, r2) /\
    merged op s1 s2 (out ++ remainder op r1 r2).
Proof.
  intros Hop. revert s1 s2 acc. induction fuel as [| fuel IH]; intros s1 s2 acc H1 H2 Hl; cbv zeta.
  - destruct s1, s2; simpl in Hl; try lia. exists [], [], []. rewrite app_nil_r.
    split; [done |]. destruct (remainder_ok op [] []) as (? & ? & ?); auto. by split.
  - destruct s1 as [| x1 t1].
    { exists [], [], s2. rewrite app_nil_r. split; [done |].
      destruct (remainder_ok op [] s2) as (? & ? & ?); auto. by split. }
    destruct s2 as [| x2 t2].
    { exists [], (x1 :: t1), []. rewrite app_nil_r. split; [done |].
      destruct (remainder_ok op (x1 :: t1) []) as (? & ? & ?); auto. by split. }
    destruct (mergeable_inv _ _ H1) as (M1 & L1 & B1), (mergeable_inv _ _ H2) as (M2 & L2 & B2).
    assert (Hlt : forall c x t, c < x -> Forall (fun z => x < z) t -> Forall (fun z => c < z) (x :: t)).
    { intros c x t Hcx Ht. constructor; [done |]. eapply list.Forall_impl; [exact Ht | simpl; lia]. }
    cbn [Shape.segmentLoop]. rewrite int32_id by (unfold INT_MIN, INT_MAX; lia). simpl in Hl.
    assert (Hgo : forall c u1 u2,
      (x1 :: t1 = c :: u1 /\ (x2 :: t2 = u2 \/ x2 :: t2 = c :: u2) \/ x1 :: t1 = u1 /\ x2 :: t2 = c :: u2) ->
      mergeable u1 -> mergeable u2 -> Forall (fun z => c < z) u1 -> Forall (fun z => c < z) u2 ->
      (length u1 + length u2 <= fuel)%nat ->
      let flag := bits (Nat.odd (length u1)) (Nat.odd (length u2)) in
      exists out r1 r2, Shape.segmentLoop op fuel flag flag u1 u2
        (if (flag =? Shape.opCode op) ||
            (bits (Nat.odd (length (x1 :: t1))) (Nat.odd (length (x2 :: t2))) =? Shape.opCode op)
         then acc ++ [c] else acc) = Some (acc ++ out, r1, r2) /\
        merged op (x1 :: t1) (x2 :: t2) (out ++ remainder op r1 r2)).
    { intros c u1 u2 Hs Hu1 Hu2 Hc1 Hc2 Hl'. cbv zeta. rewrite snoc_if.
      destruct (IH u1 u2 (acc ++ (if flagIs op (Nat.odd (length u1)) (Nat.odd (length u2)) ||
         flagIs op (Nat.odd (length (x1 :: t1))) (Nat.odd (length (x2 :: t2))) then [c] else [])) Hu1 Hu2 Hl')
        as (out & r1 & r2 & E & Hm).
      eexists (_ ++ out), r1, r2. rewrite app_assoc. split; [exact E |].
      rewrite <- app_assoc. by apply merged_step. }
    destruct (Z.lt_trichotomy x1 x2) as [L | [E | L]].
    + rewrite (proj2 (Z.leb_le _ _)) by lia. replace (x1 - x2 >=? 0) with false by lia.
      destruct (Hgo x1 t1 (x2 :: t2)) as (out & r1 & r2 & E & Hm); auto; [simpl; lia |].
      exists out, r1, r2. split; [| done]. rewrite <- E, !flag_step1, !odd_cons, negb_involutive. done.
    + subst x2. rewrite (proj2 (Z.leb_le _ _)) by lia. replace (x1 - x1 >=? 0) with true by lia.
      destruct (Hgo x1 t1 t2) as (out & r1 & r2 & E & Hm); auto; [lia |].
      exists out, r1, r2. split; [| done]. rewrite <- E, !flag_step1, !flag_step2, !odd_cons, !negb_involutive. done.
    + replace (x1 - x2 <=? 0) with false by lia. replace (x1 - x2 >=? 0) with true by lia.
      destruct (Hgo x2 (x1 :: t1) t2) as (out & r1 & r2 & E & Hm); auto; [simpl; lia |].
      exists out, r1, r2. split; [| done]. rewrite <- E, !flag_step2, !odd_cons, !negb_involutive. done.
Qed.

Theorem mergeSegments_ok (op : Shape.Operation) (s1 s2 : list Z) :
  OpOk op -> segsOk s1 -> segsOk s2 ->
  exists s, Shape.mergeSegments op s1 s2 = Some s /\ segsOk s /\
    forall x, inside s x = opIn op (inside s1 x) (inside s2 x).
Proof.
  intros Hop H1 H2. pose proof H1 as (_ & O1 & C1). pose proof H2 as (_ & O2 & C2).
  destruct (segmentLoop_ok op (length s1 + length s2) s1 s2 []) as (out & r1 & r2 & E & [Hm Hf Hx]);
    auto using segsOk_mergeable.
  rewrite O1, O2 in E, Hx. exists (out ++ remainder op r1 r2). split; [| split].
  - unfold Shape.mergeSegments. change (bits false false) with 0 in E. rewrite E. cbn [mbind option_bind].
    unfold remainder. simpl. f_equal. do 2 (destruct (_ && _); [done |]). by rewrite app_nil_r.
  - destruct Hm as [Ha Hc]. split; [done | split; [| done]].
    rewrite <- (inside_above _ (2 ^ 30)).
    + rewrite Hx, !xorb_false_l, (inside_above s1), (inside_above s2), O1, O2, xorb_nilpotent; [done | |].
      all: (eapply list.Forall_impl; [eassumption | intros z Hz%coordOk_spec; lia]).
    + eapply list.Forall_impl; [exact Hc | intros z Hz%coordOk_spec; lia].
  - intros x. by rewrite Hx, !xorb_false_l.
Qed.
