(* ===== verification/RegionShapes.v ===== *)
(** * The operations on shapes

    What [shapeOperation], [compareShapes], [bounds] and the loops of the queries
    do to the rows of RegionSpec.v: a set operation on pixels, in canonical form
    again; inclusion and intersection of sets; the least rectangle around a set. *)

From stdpp Require Import sets.
From S2P Require Import Prelude Geometry Region RegionSpec.

(** ** Merging two shapes *)

Lemma merge_nil_left (op : Shape.Operation) (s : list Z) :
  OpOk op -> Shape.mergeSegments op [] s = Some (if opIn op false true then s else []).
Proof.
  intros Hop. unfold Shape.mergeSegments. rewrite <- (add_segments2 _ Hop).
  destruct s as [| z s]; simpl;
    by destruct (Shape.shouldAddRemainingSegmentsFromSpan1 op), (Shape.shouldAddRemainingSegmentsFromSpan2 op).
Qed.

Lemma merge_nil_right (op : Shape.Operation) (s : list Z) :
  OpOk op -> Shape.mergeSegments op s [] = Some (if opIn op true false then s else []).
Proof.
  intros Hop. unfold Shape.mergeSegments. rewrite <- (add_segments1 _ Hop).
  destruct s as [| z s]; simpl;
    by destruct (Shape.shouldAddRemainingSegmentsFromSpan1 op), (Shape.shouldAddRemainingSegmentsFromSpan2 op).
Qed.

Lemma opIn_none (op : Shape.Operation) : opIn op false false = false.
Proof. unfold opIn. apply xorb_nilpotent. Qed.

(** What is left of the shapes when one of them has come to its end. *)
Definition leftover (op : Shape.Operation) (A B : list Row) : list Row :=
  if opIn op true false && negb (Nat.eqb (length A) 0) then A
  else if opIn op false true && negb (Nat.eqb (length B) 0) then B
  else [].

(** [rows], below [above], is the result of the operation on what is left. *)
Record merges (op : Shape.Operation) (c1 c2 : list Z) (A B : list Row) (above : list Z)
    (rows : list Row) : Prop := {
  merges_canon : canon above rows;
  merges_from : forall y, Forall (fun row => y < row.1) A -> Forall (fun row => y < row.1) B ->
    Forall (fun row => y < row.1) rows;
  merges_inside : forall x y, inside (rowAt above rows y) x
    = opIn op (inside (rowAt c1 A y) x) (inside (rowAt c2 B y) x) }.

Lemma leftover_ok (op : Shape.Operation) (c1 c2 : list Z) (A B : list Row) (above : list Z) :
  OpOk op -> canon c1 A -> canon c2 B -> A = [] \/ B = [] ->
  Shape.mergeSegments op c1 c2 = Some above ->
  merges op c1 c2 A B above (leftover op A B).
Proof.
  intros Hop HA HB He Hm. unfold leftover. destruct He as [-> | ->].
  - rewrite HA in *. rewrite (merge_nil_left _ _ Hop) in Hm. injection Hm as <-.
    simpl (negb (Nat.eqb (length []) 0)). rewrite andb_false_r.
    destruct (opIn op false true) eqn:E; simpl.
    + destruct (Nat.eqb_spec (length B) 0) as [->%nil_length_inv | _]; split; try done.
      * intros x y. rewrite HB. simpl. by rewrite opIn_none.
      * intros x y. simpl. destruct (inside _ _); by rewrite ?E, ?opIn_none.
    + split; try done. intros x y. simpl. destruct (inside _ _); by rewrite ?E, ?opIn_none.
  - rewrite HB in *. rewrite (merge_nil_right _ _ Hop) in Hm. injection Hm as <-.
    simpl (negb (Nat.eqb (length []) 0)). rewrite (andb_false_r (opIn op false true)).
    destruct (opIn op true false) eqn:E; simpl.
    + destruct (Nat.eqb_spec (length A) 0) as [->%nil_length_inv | _]; split; try done.
      * intros x y. rewrite HA. simpl. by rewrite opIn_none.
      * intros x y. simpl. destruct (inside _ _); by rewrite ?E, ?opIn_none.
    + split; try done. intros x y. simpl. destruct (inside _ _); by rewrite ?E, ?opIn_none.
Qed.

(** How one turn of the loop moves through a shape: its segments from [y] on. *)
Record moves (y : Z) (c : list Z) (A : list Row) (c' : list Z) (A' : list Row) : Prop := {
  moves_from : forall y', y <= y' -> rowAt c A y' = rowAt c' A' y';
  moves_below : forall y', y' < y -> rowAt c A y' = c;
  moves_after : Forall (fun row => y < row.1) A';
  moves_lower : forall y', Forall (fun row => y' < row.1) A -> Forall (fun row => y' < row.1) A';
  moves_canon : canon c' A';
  moves_segs : segsOk c' }.

Lemma moves_on (y : Z) (c s : list Z) (A : list Row) :
  canon c ((y, s) :: A) -> moves y c ((y, s) :: A) s A.
Proof.
  intros (_ & Hs & _ & Hlt & Hc). split; try done.
  - intros y' H. by rewrite rowAt_from.
  - intros y' H. apply rowAt_below. constructor; [done |].
    eapply list.Forall_impl; [exact Hlt | simpl; lia].
  - by intros y' [_ ?]%Forall_cons_1.
Qed.

Lemma moves_stay (y : Z) (c : list Z) (A : list Row) :
  segsOk c -> canon c A -> Forall (fun row => y < row.1) A -> moves y c A c A.
Proof.
  intros Hs Hc Hlt. split; try done. intros y' H. apply rowAt_below.
  eapply list.Forall_impl; [exact Hlt | simpl; lia].
Qed.

Lemma canon_head_coord (c : list Z) (y : Z) (s : list Z) (A : list Row) :
  canon c ((y, s) :: A) -> - 2 ^ 30 <= y < 2 ^ 30.
Proof. by intros (_ & _ & H%coordOk_spec & _). Qed.

(** A row of the result, dropped when it repeats the one above. *)
Lemma merges_row (op : Shape.Operation) (y : Z) (c1 c2 c1' c2' : list Z) (A B A' B' : list Row)
    (above m : list Z) (rows : list Row) :
  OpOk op -> segsOk c1 -> segsOk c2 -> coordOk y = true ->
  moves y c1 A c1' A' -> moves y c2 B c2' B' ->
  (Forall (fun row => y <= row.1) A) -> Forall (fun row => y <= row.1) B ->
  (exists row, row ∈ A ++ B /\ row.1 = y) ->
  Shape.mergeSegments op c1 c2 = Some above -> Shape.mergeSegments op c1' c2' = Some m ->
  merges op c1' c2' A' B' m rows ->
  merges op c1 c2 A B above (if bool_decide (m = above) then rows else (y, m) :: rows).
Proof.
  intros Hop S1 S2 Hy M1 M2 HA HB (r0 & Hr0 & Er0) Ea Em [Hc Hf Hi].
  destruct (mergeSegments_ok op c1 c2 Hop S1 S2) as (s & Es & Hs & Hsx). simplify_eq.
  destruct (mergeSegments_ok op c1' c2' Hop (moves_segs _ _ _ _ _ M1) (moves_segs _ _ _ _ _ M2))
    as (s' & Es' & Hs' & Hsx'). simplify_eq.
  pose proof (Hf _ (moves_after _ _ _ _ _ M1) (moves_after _ _ _ _ _ M2)) as Hlt.
  split.
  - case_bool_decide as E; [by subst |]. exact (conj E (conj Hs' (conj Hy (conj Hlt Hc)))).
  - intros y' L1 L2. pose proof (Hf _ (moves_lower _ _ _ _ _ M1 _ L1) (moves_lower _ _ _ _ _ M2 _ L2)).
    case_bool_decide; [done |]. constructor; [| done]. simpl.
    rewrite list.Forall_forall in L1, L2. apply elem_of_app in Hr0 as [H' | H']; auto.
  - intros x y'. destruct (Z.le_gt_cases r0.1 y') as [L | L].
    + rewrite (moves_from _ _ _ _ _ M1), (moves_from _ _ _ _ _ M2), <- Hi by done.
      case_bool_decide as E; [by subst | by rewrite rowAt_from].
    + rewrite (moves_below _ _ _ _ _ M1), (moves_below _ _ _ _ _ M2), <- Hsx by done.
      rewrite rowAt_below; [done |].
      assert (Hlt' : Forall (fun row => y' < row.1) rows).
      { eapply list.Forall_impl; [exact Hlt | simpl; lia]. }
      case_bool_decide; [done | by constructor].
Qed.

(** The row the loop pushes onto the result. *)
Lemma push_ok (out : list Row) (y : Z) (m : list Z) :
  (if negb (Nat.eqb (length m) 0) || negb (Shape.isEmpty (encode out))
   then Shape.appendSpanSegments y m (encode out) else encode out)
  = encode (out ++ if bool_decide (m = lastSegments out) then [] else [(y, m)]).
Proof.
  rewrite appendSpanSegments_ok. unfold Shape.isEmpty. cbn [encode Shape.m_spans]. rewrite spansFrom_length. unfold addRow. simpl.
  destruct out as [| r out].
  - destruct m; done.
  - simpl. rewrite orb_true_r. case_bool_decide; simpl; by rewrite ?app_nil_r.
Qed.

Lemma lastSegments_push (out : list Row) (y : Z) (m : list Z) :
  lastSegments (out ++ if bool_decide (m = lastSegments out) then [] else [(y, m)]) = m.
Proof. case_bool_decide; [by rewrite app_nil_r | apply lastSegments_snoc]. Qed.

Lemma canon_le_head (c : list Z) (y : Z) (s : list Z) (A : list Row) :
  canon c ((y, s) :: A) -> Forall (fun row => y <= row.1) ((y, s) :: A).
Proof.
  intros (_ & _ & _ & H & _). constructor; [simpl; lia |]. eapply list.Forall_impl; [exact H | simpl; lia].
Qed.

Lemma canon_lt_head (c : list Z) (y0 y : Z) (s : list Z) (A : list Row) :
  y0 < y -> canon c ((y, s) :: A) -> Forall (fun row => y0 < row.1) ((y, s) :: A).
Proof.
  intros L (_ & _ & _ & H & _). constructor; [done |]. eapply list.Forall_impl; [exact H | simpl; lia].
Qed.

Section SpanLoop.
Context (op : Shape.Operation) (Hop : OpOk op) (A B : list Row) (HA : ended A) (HB : ended B).

Definition stops (c1 c2 : list Z) (i j : nat) (out : list Row) (r : option (Shape * nat * nat)) : Prop :=
  exists more i' j', r = Some (encode (out ++ more), i', j') /\ (i' <= length A)%nat /\ (j' <= length B)%nat /\
    merges op c1 c2 (drop i A) (drop j B) (lastSegments out) (more ++ leftover op (drop i' A) (drop j' B)).

(** Moving through one shape, or both, leaves the loop with a smaller task. *)
Lemma stops_step (y : Z) (c1 c2 c1' c2' : list Z) (i j i' j' : nat) (out : list Row) (m : list Z)
    (r : option (Shape * nat * nat)) :
  segsOk c1 -> segsOk c2 -> coordOk y = true ->
  moves y c1 (drop i A) c1' (drop i' A) -> moves y c2 (drop j B) c2' (drop j' B) ->
  Forall (fun row => y <= row.1) (drop i A) -> Forall (fun row => y <= row.1) (drop j B) ->
  (exists row, row ∈ drop i A ++ drop j B /\ row.1 = y) ->
  Shape.mergeSegments op c1 c2 = Some (lastSegments out) -> Shape.mergeSegments op c1' c2' = Some m ->
  stops c1' c2' i' j' (out ++ if bool_decide (m = lastSegments out) then [] else [(y, m)]) r ->
  stops c1 c2 i j out r.
Proof.
  intros S1 S2 Hy M1 M2 L1 L2 Hr E E' (more & k1 & k2 & -> & Hk1 & Hk2 & Hm).
  rewrite lastSegments_push in Hm. rewrite <- app_assoc. eexists _, k1, k2.
  split; [done |]. split; [done |]. split; [done |]. rewrite <- app_assoc.
  pose proof (merges_row op y c1 c2 c1' c2' _ _ _ _ _ m _ Hop S1 S2 Hy M1 M2 L1 L2 Hr E E' Hm) as X.
  by case_bool_decide.
Qed.

Lemma spanLoop_exit (fuel i j : nat) (c1 c2 : list Z) (out : list Row) :
  canon c1 (drop i A) -> canon c2 (drop j B) -> (i <= length A)%nat -> (j <= length B)%nat ->
  i = length A \/ j = length B -> Shape.mergeSegments op c1 c2 = Some (lastSegments out) ->
  stops c1 c2 i j out (Shape.spanLoop op (encode A) (encode B) fuel i j c1 c2 (encode out)).
Proof.
  intros C1 C2 Li Lj He Hm. exists [], i, j. rewrite app_nil_r. split; [| split; [done | split; [done |]]].
  - destruct fuel; cbn [Shape.spanLoop]; rewrite !encode_length;
      destruct He as [-> | ->]; rewrite Nat.eqb_refl; simpl; by rewrite ?andb_false_r.
  - apply leftover_ok; try done. destruct He as [-> | ->]; [left | right]; by apply drop_ge.
Qed.

Lemma spanLoop_ok (fuel i j : nat) (c1 c2 : list Z) (out : list Row) :
  segsOk c1 -> segsOk c2 -> canon c1 (drop i A) -> canon c2 (drop j B) ->
  (i <= length A)%nat -> (j <= length B)%nat -> ((length A - i) + (length B - j) <= fuel)%nat ->
  Shape.mergeSegments op c1 c2 = Some (lastSegments out) ->
  stops c1 c2 i j out (Shape.spanLoop op (encode A) (encode B) fuel i j c1 c2 (encode out)).
Proof.
  revert i j c1 c2 out. induction fuel as [| fuel IH]; intros i j c1 c2 out S1 S2 C1 C2 Li Lj Hl Hm.
  all: destruct (Nat.eq_dec i (length A)) as [Ei | Ni]; [apply spanLoop_exit; auto |].
  all: destruct (Nat.eq_dec j (length B)) as [Ej | Nj]; [apply spanLoop_exit; auto |].
  { exfalso. lia. }
  cbn [Shape.spanLoop]. rewrite !encode_length, !(proj2 (Nat.eqb_neq _ _)) by done. simpl andb. cbv iota.
  destruct (lookup_lt_is_Some_2 A i) as [[y1 s1] E1]; [lia |].
  destruct (lookup_lt_is_Some_2 B j) as [[y2 s2] E2]; [lia |].
  rewrite (spans_lookup A i), (spans_lookup B j), E1, E2.
  cbn [fmap option_fmap option_map mbind option_bind Shape.spanY fst].
  pose proof (drop_S _ _ _ E1) as D1. pose proof (drop_S _ _ _ E2) as D2.
  rewrite D1 in C1. rewrite D2 in C2.
  pose proof (canon_head_coord _ _ _ _ C1) as B1. pose proof (canon_head_coord _ _ _ _ C2) as B2.
  rewrite int32_id by (unfold INT_MIN, INT_MAX; lia).
  rewrite (segmentsOf_ok _ _ _ _ HA E1), (segmentsOf_ok _ _ _ _ HB E2).
  pose proof (moves_on _ _ _ _ C1) as M1. pose proof (moves_on _ _ _ _ C2) as M2.
  pose proof (moves_segs _ _ _ _ _ M1) as T1. pose proof (moves_segs _ _ _ _ _ M2) as T2.
  destruct (Z.lt_trichotomy y1 y2) as [L | [E | L]].
  - rewrite (proj2 (Z.leb_le _ _)) by lia. replace (y1 - y2 >=? 0) with false by lia.
    cbn [mbind option_bind]. destruct (mergeSegments_ok op s1 c2 Hop T1 S2) as (m & Em & _).
    rewrite Em. cbn [mbind option_bind]. rewrite push_ok.
    pose proof (canon_lt_head _ _ _ _ _ L C2) as L2.
    assert (M2' : moves y1 c2 (drop j B) c2 (drop j B)) by (rewrite D2; by apply moves_stay).
    apply (stops_step y1 c1 c2 s1 c2 i j (S i) j out m); try done.
    + by apply coordOk_spec.
    + by rewrite D1.
    + rewrite D1. by eapply canon_le_head.
    + rewrite D2. eapply list.Forall_impl; [exact L2 | simpl; lia].
    + exists (y1, s1). rewrite D1. split; [apply elem_of_app; left; apply elem_of_cons; by left | done].
    + apply IH; try done; try lia; [by apply M1 | by rewrite D2 | by rewrite lastSegments_push].
  - subst y2. rewrite (proj2 (Z.leb_le _ _)) by lia. replace (y1 - y1 >=? 0) with true by lia.
    cbn [mbind option_bind]. destruct (mergeSegments_ok op s1 s2 Hop T1 T2) as (m & Em & _).
    rewrite Em. cbn [mbind option_bind]. rewrite push_ok.
    apply (stops_step y1 c1 c2 s1 s2 i j (S i) (S j) out m); try done.
    + by apply coordOk_spec.
    + by rewrite D1.
    + by rewrite D2.
    + rewrite D1. by eapply canon_le_head.
    + rewrite D2. by eapply canon_le_head.
    + exists (y1, s1). rewrite D1. split; [apply elem_of_app; left; apply elem_of_cons; by left | done].
    + apply IH; try done; try lia; [by apply M1 | by apply M2 | by rewrite lastSegments_push].
  - replace (y1 - y2 <=? 0) with false by lia. replace (y1 - y2 >=? 0) with true by lia.
    cbn [mbind option_bind]. destruct (mergeSegments_ok op c1 s2 Hop S1 T2) as (m & Em & _).
    rewrite Em. cbn [mbind option_bind]. rewrite push_ok.
    pose proof (canon_lt_head _ _ _ _ _ L C1) as L1.
    assert (M1' : moves y2 c1 (drop i A) c1 (drop i A)) by (rewrite D1; by apply moves_stay).
    apply (stops_step y2 c1 c2 c1 s2 i j i (S j) out m); try done.
    + by apply coordOk_spec.
    + by rewrite D2.
    + rewrite D1. eapply list.Forall_impl; [exact L1 | simpl; lia].
    + rewrite D2. by eapply canon_le_head.
    + exists (y2, s2). rewrite D2. split; [apply elem_of_app; right; apply elem_of_cons; by left | done].
    + apply IH; try done; try lia; [by rewrite D1 | by apply M2 | by rewrite lastSegments_push].
Qed.
End SpanLoop.

Lemma canon_app (above : list Z) (rows1 rows2 : list Row) :
  canon above (rows1 ++ rows2) -> canon (from_option snd above (list.last rows1)) rows2.
Proof.
  revert above. induction rows1 as [| [y s] rest IH]; intros above Hc; [done |].
  destruct Hc as (_ & _ & _ & _ & Hc). specialize (IH _ Hc).
  destruct rest as [| r rest]; [done |]. rewrite last_cons_cons.
  destruct (list.last (r :: rest)) eqn:El; [done | by apply last_None in El].
Qed.

Lemma appendRest_ok (A out : list Row) (i : nat) :
  ended A -> (i <= length A)%nat -> canon [] (out ++ drop i A) ->
  Shape.appendSpans (encode A) i (length A - i) (encode out) = Some (encode (out ++ drop i A)).
Proof.
  intros He Hi Hc. rewrite appendSpans_ok by (done || lia).
  rewrite take_ge by (rewrite length_drop; lia). rewrite foldl_addRow; [done |].
  by apply canon_app in Hc.
Qed.

Theorem shapeOperation_ok (op : Shape.Operation) (A B : list Row) :
  OpOk op -> canon [] A -> canon [] B ->
  exists C, Shape.shapeOperation op (encode A) (encode B) = Some (encode C) /\ canon [] C /\
    forall x y, cell C x y = opIn op (cell A x y) (cell B x y).
Proof.
  intros Hop HA HB. unfold Shape.shapeOperation.
  pose proof (canon_ended _ _ HA) as EA. pose proof (canon_ended _ _ HB) as EB.
  destruct (Shape.trySimpleOperation op (encode A) (encode B)) as [shape |] eqn:Et.
  - destruct (simple_ok _ Hop _ _ _ Et) as (He & -> & Ho). exists B. split; [done |]. split; [done |].
    unfold Shape.isEmpty in He. cbn [encode Shape.m_spans] in He. rewrite spansFrom_length in He. apply Nat.eqb_eq, nil_length_inv in He. subst A.
    intros x y. unfold cell. simpl. destruct (inside _ _); by rewrite ?Ho, ?opIn_none.
  - rewrite !encode_length.
    destruct (spanLoop_ok op Hop A B EA EB (length A + length B) 0 0 [] [] [])
      as (more & i & j & E & Hi & Hj & [Hc _ Hx]); rewrite ?drop_0; try done; try lia.
    { rewrite (merge_nil_left _ _ Hop). by destruct (opIn _ _ _). }
    change (encode []) with Shape.empty in E. unfold Shape.spans_begin. rewrite E. cbn [mbind option_bind app].
    exists (more ++ leftover op (drop i A) (drop j B)). split; [| by rewrite !drop_0 in Hx].
    unfold leftover in *. rewrite !length_drop in *. rewrite (add_spans1 _ Hop), (add_spans2 _ Hop).
    replace (Nat.eqb i (length A)) with (Nat.eqb (length A - i) 0)
      by (destruct (Nat.eqb_spec (length A - i) 0), (Nat.eqb_spec i (length A)); (done || lia)).
    replace (Nat.eqb j (length B)) with (Nat.eqb (length B - j) 0)
      by (destruct (Nat.eqb_spec (length B - j) 0), (Nat.eqb_spec j (length B)); (done || lia)).
    destruct (opIn op true false && _); [by apply appendRest_ok |].
    destruct (opIn op false true && _); [by apply appendRest_ok | by rewrite app_nil_r].
Qed.

(** ** Looking a pixel up *)

Lemma segsOk_pair (x x' : Z) (s : list Z) :
  segsOk (x :: x' :: s) -> x < x' /\ Forall (fun z => x' < z) s /\ segsOk s.
Proof.
  intros ([Hs Hx]%ascending_inv & Ho & [_ [_ Hc]%Forall_cons_1]%Forall_cons_1).
  apply ascending_inv in Hs as [Hs Hx']. apply Forall_cons_1 in Hx as [Hx _].
  rewrite !odd_cons, negb_involutive in Ho. done.
Qed.

Lemma segsOk_one (x : Z) : ~ segsOk [x].
Proof. by intros (_ & H & _). Qed.

(** Segments come in pairs: induction over the pairs. *)
Lemma segments_ind (P : list Z -> Prop) :
  P [] ->
  (forall x x' s, x < x' -> Forall (fun z => x' < z) s -> segsOk s -> P s -> P (x :: x' :: s)) ->
  forall s, segsOk s -> P s.
Proof.
  intros H0 Hs s. remember (length s) as n eqn:En. revert s En.
  induction (lt_wf n) as [n _ IH]. intros s En H.
  destruct s as [| x [| x' s]]; [done | by apply segsOk_one in H |].
  destruct (segsOk_pair _ _ _ H) as (? & ? & ?). apply Hs; auto.
  eapply IH; [| reflexivity | done]. rewrite En. simpl. lia.
Qed.

Lemma inside_pair (x x' px : Z) (s : list Z) :
  x < x' -> Forall (fun z => x' < z) s ->
  inside (x :: x' :: s) px = (x <=? px) && (px <? x') || inside s px.
Proof.
  intros L H. cbn [inside]. destruct (Z.leb_spec x px), (Z.leb_spec x' px), (Z.ltb_spec px x'); try lia; simpl.
  - by destruct (inside s px).
  - rewrite inside_below; [done |]. eapply list.Forall_impl; [exact H | simpl; lia].
  - rewrite inside_below; [done |]. eapply list.Forall_impl; [exact H | simpl; lia].
Qed.

Lemma segmentsContain_ok (px : Z) (s : list Z) : segsOk s -> Region.segmentsContain px s = inside s px.
Proof.
  revert s. apply segments_ind; [done |]. intros x x' s L H _ IH.
  rewrite inside_pair by done. cbn [Region.segmentsContain].
  replace (x >? px) with (negb (x <=? px)) by lia. replace (x' >? px) with (px <? x') by lia.
  destruct (Z.leb_spec x px); simpl.
  - destruct (px <? x'); [done | exact IH].
  - symmetry. apply inside_below. eapply list.Forall_impl; [exact H | simpl; lia].
Qed.

Lemma hasRows_ok (rows : list Row) (i : nat) :
  (i <= length rows)%nat -> Shape.hasRows i (encode rows) = Nat.leb (S (S i)) (length rows).
Proof.
  intros H. unfold Shape.hasRows. rewrite encode_length.
  destruct (Nat.eqb_spec i (length rows)), (Nat.eqb_spec (S i) (length rows)),
    (Nat.leb_spec (S (S i)) (length rows)); (done || lia).
Qed.

(** Where the iterators are at row [i] of at least two more. *)
Lemma row_at (rows : list Row) (i : nat) :
  Shape.hasRows i (encode rows) = true -> (i <= length rows)%nat ->
  exists y s y' s', rows !! i = Some (y, s) /\ rows !! S i = Some (y', s') /\
    drop i rows = (y, s) :: (y', s') :: drop (S (S i)) rows.
Proof.
  intros H Hi. rewrite hasRows_ok in H by done. apply Nat.leb_le in H.
  destruct (lookup_lt_is_Some_2 rows i) as [[y s] E]; [lia |].
  destruct (lookup_lt_is_Some_2 rows (S i)) as [[y' s'] E']; [lia |].
  exists y, s, y', s'. by rewrite (drop_S _ _ _ E), (drop_S _ _ _ E').
Qed.

Lemma spanY_ok (rows : list Row) (i : nat) (y : Z) (s : list Z) :
  rows !! i = Some (y, s) -> Shape.spanY <$> Shape.m_spans (encode rows) !! i = Some y.
Proof. intros E. by rewrite spans_lookup, E. Qed.

(** The last row, or none. *)
Lemma no_rows (c : list Z) (rows : list Row) (i : nat) :
  Shape.hasRows i (encode rows) = false -> (i <= length rows)%nat -> canon c (drop i rows) ->
  drop i rows = [] \/ exists y, drop i rows = [(y, [])].
Proof.
  intros H Hi Hc. rewrite hasRows_ok in H by done. apply Nat.leb_gt in H.
  destruct (drop i rows) as [| [y s] [| r rest]] eqn:E; [by left | | ].
  - right. exists y. destruct Hc as (_ & _ & _ & _ & Hc). simpl in Hc. by subst.
  - apply (f_equal length) in E. rewrite length_drop in E. simpl in E. lia.
Qed.

Lemma containsLoop_ok (rows : list Row) (px py : Z) (count i : nat) (c : list Z) :
  ended rows -> canon c (drop i rows) -> (i <= length rows)%nat -> (length rows - i <= count)%nat ->
  Region.containsLoop (encode rows) px py i count = Some (inside (rowAt [] (drop i rows) py) px).
Proof.
  intros He. revert i c. induction count as [| count IH]; intros i c Hc Hi Hl.
  { by rewrite drop_ge by lia. }
  cbn [Region.containsLoop]. destruct (Shape.hasRows i (encode rows)) eqn:Eh.
  - destruct (row_at _ _ Eh Hi) as (y & s & y' & s' & E & E' & D).
    rewrite (spanY_ok _ _ _ _ E), (spanY_ok _ _ _ _ E'). cbn [mbind option_bind].
    pose proof (lookup_lt_Some _ _ _ E').
    pose proof (drop_S _ _ _ E) as D1. rewrite D1 in Hc. rewrite D1.
    pose proof Hc as (_ & Hs & _ & Hlt & Hc'). specialize (IH (S i) s Hc' ltac:(lia) ltac:(lia)).
    destruct (Z.ltb_spec py y) as [L | L].
    + replace (y >? py) with true by lia. rewrite rowAt_below; [done |].
      by eapply canon_lt_head.
    + replace (y >? py) with false by lia. rewrite rowAt_from by done.
      assert (D2 : drop (S i) rows = (y', s') :: drop (S (S i)) rows) by (by apply drop_S).
      destruct (Z.leb_spec y' py) as [L' | L'].
      * rewrite IH, D2, !rowAt_from by done. done.
      * rewrite (segmentsOf_ok _ _ _ _ He E). cbn [mbind option_bind]. rewrite segmentsContain_ok by done.
        rewrite D2 in Hlt, Hc'. rewrite (rowAt_below s) by (rewrite D2; by eapply canon_lt_head).
        destruct (inside s px) eqn:Ei; [done |]. rewrite IH, rowAt_below; [done |].
        rewrite D2. by eapply canon_lt_head.
  - destruct (no_rows _ _ _ Eh Hi Hc) as [-> | [y ->]]; [done |]. simpl. by destruct (y <=? py).
Qed.

(** ** Rows by their index *)

Lemma canon_row (c : list Z) (rows : list Row) (i : nat) (y : Z) (s : list Z) :
  canon c rows -> rows !! i = Some (y, s) -> segsOk s /\ coordOk y = true.
Proof.
  revert c i. induction rows as [| [y0 s0] rest IH]; intros c i Hc E; [done |].
  destruct Hc as (_ & Hs & Hy & _ & Hc). destruct i as [| i]; simpl in E; [by simplify_eq |].
  by eapply IH.
Qed.

Lemma canon_increasing (c : list Z) (rows : list Row) (i j : nat) (r r' : Row) :
  canon c rows -> rows !! i = Some r -> rows !! j = Some r' -> (i < j)%nat -> r.1 < r'.1.
Proof.
  revert c i j. induction rows as [| [y0 s0] rest IH]; intros c i j Hc E E' L; [done |].
  destruct Hc as (_ & _ & _ & Hlt & Hc). destruct j as [| j]; [lia |].
  destruct i as [| i]; simpl in E, E'; simplify_eq.
  - rewrite list.Forall_forall in Hlt. eapply (Hlt r'), list_elem_of_lookup_2, E'.
  - eapply IH; [done.. | lia].
Qed.

Lemma canon_differ (c : list Z) (rows : list Row) (i : nat) (r r' : Row) :
  canon c rows -> rows !! i = Some r -> rows !! S i = Some r' -> r'.2 <> r.2.
Proof.
  revert c i. induction rows as [| [y0 s0] rest IH]; intros c i Hc E E'; [done |].
  destruct Hc as (_ & _ & _ & _ & Hc). destruct i as [| i]; simpl in E, E'.
  - simplify_eq. destruct rest as [| [y1 s1] rest]; [done |]. simpl in E'. simplify_eq. apply Hc.
  - by eapply IH.
Qed.

Lemma rowAt_between (c : list Z) (rows : list Row) (i : nat) (y0 : Z) (s : list Z) (y : Z) :
  canon c rows -> rows !! i = Some (y0, s) -> y0 <= y ->
  (forall r, rows !! S i = Some r -> y < r.1) -> rowAt c rows y = s.
Proof.
  revert c i. induction rows as [| [y1 s1] rest IH]; intros c i Hc E L Hn; [done |].
  pose proof Hc as (_ & _ & _ & Hlt & Hc'). destruct i as [| i]; simpl in E.
  - simplify_eq. rewrite rowAt_from by done. apply rowAt_below.
    destruct rest as [| [y1 s1] rest]; [done |]. eapply canon_lt_head; [| done]. by apply (Hn (y1, s1)).
  - rewrite rowAt_from; [by eapply IH |].
    pose proof (canon_increasing _ _ 0%nat (S i) _ _ Hc eq_refl E ltac:(lia)). simpl in *. lia.
Qed.

Lemma rowAt_row (c : list Z) (rows : list Row) (i : nat) (y : Z) (s : list Z) :
  canon c rows -> rows !! i = Some (y, s) -> rowAt c rows y = s.
Proof.
  intros Hc E. eapply rowAt_between; [done | done | lia |]. intros r E'.
  exact (canon_increasing _ _ _ _ _ _ Hc E E' ltac:(lia)).
Qed.

(** The row a pixel is in. *)
Lemma rowAt_lookup (c : list Z) (rows : list Row) (y : Z) :
  canon c rows ->
  rowAt c rows y = c /\ Forall (fun row => y < row.1) rows \/
  exists i y0, rows !! i = Some (y0, rowAt c rows y) /\ y0 <= y /\
    (forall r, rows !! S i = Some r -> y < r.1).
Proof.
  revert c. induction rows as [| [y0 s] rest IH]; intros c Hc; [by left |].
  destruct (Z.le_gt_cases y0 y) as [L | L].
  - right. rewrite rowAt_from by done. destruct Hc as (_ & _ & _ & _ & Hc).
    destruct (IH s Hc) as [[-> Hlt] | (i & y1 & E & L' & Hn)].
    + exists 0%nat, y0. split; [done |]. split; [done |]. intros r E. simpl in E.
      rewrite list.Forall_forall in Hlt. by eapply Hlt, list_elem_of_lookup_2.
    + by exists (S i), y1.
  - left. pose proof (canon_lt_head _ _ _ _ _ L Hc) as H. split; [by apply rowAt_below | done].
Qed.

(** ** Crossings at the ends *)

Lemma inside_range (s : list Z) (x : Z) :
  segsOk s -> inside s x = true -> (exists z, z ∈ s /\ z <= x) /\ exists z, z ∈ s /\ x < z.
Proof.
  intros (_ & Ho & _) H. split.
  - destruct (decide (Forall (fun z => x < z) s)) as [F | F]; [by rewrite inside_below in H |].
    apply not_Forall_Exists in F; [| apply _]. apply list.Exists_exists in F as (z & Hz & Hlt).
    exists z. split; [done |]. simpl in Hlt. lia.
  - destruct (decide (Forall (fun z => z <= x) s)) as [F | F]; [rewrite inside_above in H by done; congruence |].
    apply not_Forall_Exists in F; [| apply _]. apply list.Exists_exists in F as (z & Hz & Hlt).
    exists z. split; [done |]. simpl in Hlt. lia.
Qed.

Lemma inside_least (s : list Z) (z : Z) :
  ascending s -> z ∈ s -> (forall z', z' ∈ s -> z <= z') -> inside s z = true.
Proof.
  intros Ha Hz Hmin. destruct s as [| z0 s]; [by apply elem_of_nil in Hz |].
  assert (z0 = z) as ->; [| by apply inside_head].
  apply ascending_inv in Ha as [_ Hlt]. apply elem_of_cons in Hz as [-> | Hz]; [done |].
  rewrite list.Forall_forall in Hlt. specialize (Hlt _ Hz).
  assert (z <= z0) by (apply Hmin, elem_of_cons; by left). lia.
Qed.

Lemma ascending_snoc (s : list Z) (z : Z) : ascending (s ++ [z]) -> Forall (fun z' => z' < z) s.
Proof.
  induction s as [| z0 s IH]; [constructor |]. intros [Ha Hlt]%ascending_inv. constructor; [| by apply IH].
  rewrite list.Forall_forall in Hlt. apply Hlt, elem_of_app. right. apply elem_of_cons. by left.
Qed.

Lemma inside_greatest (s : list Z) (z : Z) :
  segsOk s -> z ∈ s -> (forall z', z' ∈ s -> z' <= z) -> inside s (z - 1) = true.
Proof.
  intros (Ha & Ho & _) Hz Hmax. destruct s as [| z1 s _] using rev_ind; [by apply elem_of_nil in Hz |].
  pose proof (ascending_snoc _ _ Ha) as Hlt. rewrite list.Forall_forall in Hlt.
  assert (z1 = z) as ->.
  { apply elem_of_app in Hz as [Hz | Hz%elem_of_cons].
    - specialize (Hlt _ Hz).
      assert (z1 <= z) by (apply Hmax, elem_of_app; right; apply elem_of_cons; by left). lia.
    - by destruct Hz as [-> | Hz%elem_of_nil]. }
  rewrite inside_app, inside_above, (inside_below [z]).
  - rewrite length_app, Nat.add_comm in Ho. cbn [length Nat.add] in Ho.
    rewrite Nat.odd_succ, <- Nat.negb_odd in Ho. by destruct (Nat.odd _).
  - constructor; [lia | constructor].
  - apply list.Forall_forall. intros z' Hz'. specialize (Hlt _ Hz'). lia.
Qed.

(** ** The bounding rectangle *)

Lemma ascending_ends (s : list Z) (z z0 zl : Z) :
  ascending s -> z ∈ s -> s !! 0%nat = Some z0 -> s !! Nat.pred (length s) = Some zl -> z0 <= z <= zl.
Proof.
  intros Ha Hz E0 El. split.
  - destruct s as [| z1 s]; [done |]. simplify_eq/=. apply ascending_inv in Ha as [_ Hlt].
    apply elem_of_cons in Hz as [-> | Hz]; [lia |]. rewrite list.Forall_forall in Hlt. specialize (Hlt _ Hz). lia.
  - destruct s as [| z1 s _] using rev_ind; [done |].
    rewrite length_app, Nat.add_comm in El. cbn [length Nat.add Nat.pred] in El.
    rewrite list_lookup_middle in El by done. simplify_eq.
    apply elem_of_app in Hz as [Hz | Hz%elem_of_cons].
    + pose proof (ascending_snoc _ _ Ha) as Hlt. rewrite list.Forall_forall in Hlt. specialize (Hlt _ Hz). lia.
    + destruct Hz as [-> | Hz%elem_of_nil]; [lia | done].
Qed.

(** What the loop has found after some rows. *)
Definition ranges (segs : list Z) (rows : list Row) (mn mx mn' mx' : Z) : Prop :=
  mn' <= mn /\ mx <= mx' /\ (mn' = mn \/ mn' ∈ segs) /\ (mx' = mx \/ mx' ∈ segs) /\
  Forall (fun row => forall z, z ∈ row.2 -> mn' <= z <= mx') rows.

Lemma boundsRow_ok (rows : list Row) (i : nat) (y : Z) (s : list Z) :
  canon [] rows -> rows !! i = Some (y, s) ->
  let k := length (segmentsIn (take i rows)) in
  k <> length (segmentsIn rows) ->
  exists x x', segmentsIn rows !! k = Some x /\ segmentsIn rows !! Nat.pred (k + length s) = Some x' /\
    (0 < k + length s)%nat /\ length s <> 1%nat /\ forall z, z ∈ s -> x <= z <= x'.
Proof.
  intros Hc E k Hk. destruct (segmentsIn_split _ _ _ _ E) as [Hd _].
  assert (Hkn : (k + length s <= length (segmentsIn rows))%nat) by (rewrite Hd, !length_app; lia).
  destruct (canon_row _ _ _ _ _ Hc E) as [(Ha & Ho & _) _].
  assert (Hpos : (0 < k + length s)%nat).
  { destruct s as [| z s]; [| simpl; lia]. destruct i as [| i].
    - destruct rows as [| [y0 s0] rest]; [done |]. simpl in E. simplify_eq. by destruct Hc as (Hn & _).
    - destruct rows as [| [y0 s0] rest]; [done |]. destruct Hc as (Hn & _).
      unfold k, segmentsIn. simpl. destruct s0; [done |]. simpl. lia. }
  destruct (lookup_lt_is_Some_2 (segmentsIn rows) k) as [x Ex]; [lia |].
  destruct (lookup_lt_is_Some_2 (segmentsIn rows) (Nat.pred (k + length s))) as [x' Ex']; [lia |].
  exists x, x'. split; [done | split; [done | split; [done | split]]].
  - by intros H; rewrite H in Ho.
  - intros z Hz.
    assert (Hs : (0 < length s)%nat) by (destruct s; [by apply elem_of_nil in Hz | simpl; lia]).
    rewrite Hd in Ex, Ex'. rewrite lookup_app_r, lookup_app_l in Ex by lia.
    rewrite lookup_app_r, lookup_app_l in Ex' by (fold k; lia). fold k in Ex, Ex'.
    eapply ascending_ends; [done | done | |]; [rewrite <- Ex; f_equal; lia | rewrite <- Ex'; f_equal; lia].
Qed.

Lemma boundsLoop_ok (rows : list Row) (count i : nat) (mn mx : Z) :
  canon [] rows -> (i + count <= length rows)%nat ->
  exists mn' mx', Shape.boundsLoop (encode rows) i count mn mx = Some (mn', mx') /\
    ranges (segmentsIn rows) (take count (drop i rows)) mn mx mn' mx'.
Proof.
  intros Hc. revert i mn mx. induction count as [| count IH]; intros i mn mx Hi.
  { exists mn, mx. split; [done |]. repeat split; auto; lia. }
  destruct (lookup_lt_is_Some_2 rows i) as [[y s] E]; [lia |].
  pose proof (canon_ended _ _ Hc) as He. cbn [Shape.boundsLoop].
  rewrite (segments_begin_ok _ _ _ _ E), (segments_end_ok _ _ _ _ He E). cbn [mbind option_bind].
  rewrite (drop_S _ _ _ E). cbn [take].
  destruct (Nat.eqb_spec (length (segmentsIn (take i rows))) (length (segmentsIn rows))) as [Hk | Hk].
  - destruct (IH (S i) mn mx ltac:(lia)) as (mn' & mx' & Eq & Hr). exists mn', mx'. split; [exact Eq |].
    destruct Hr as (? & ? & ? & ? & Hf). repeat split; try done. constructor; [| done].
    destruct (segmentsIn_split _ _ _ _ E) as [Hd _]. apply (f_equal length) in Hd. rewrite !length_app in Hd.
    destruct s; [| simpl in Hd; lia]. intros z Hz. by apply elem_of_nil in Hz.
  - destruct (boundsRow_ok rows i y s Hc E Hk) as (x & x' & Ex & Ex' & Hpos & H1 & Hin).
    rewrite (proj2 (Nat.eqb_neq _ _)) by lia. cbn [negb ASSERT mbind option_bind].
    cbn [encode Shape.m_segments]. rewrite Ex. cbn [mbind option_bind].
    destruct (length (segmentsIn (take i rows)) + length s)%nat as [| j'] eqn:Ej; [lia |].
    cbn [mbind option_bind]. cbn [Nat.pred] in Ex'. rewrite Ex'. cbn [mbind option_bind].
    destruct (IH (S i) (if x <? mn then x else mn) (if x' >? mx then x' else mx) ltac:(lia))
      as (mn' & mx' & Eq & Hmn & Hmx & Hmn' & Hmx' & Hf).
    exists mn', mx'. split; [exact Eq |]. apply list_elem_of_lookup_2 in Ex, Ex'.
    replace (x' >? mx) with (mx <? x') in * by lia.
    destruct (Z.ltb_spec x mn), (Z.ltb_spec mx x'); (split; [lia | split; [lia | split; [| split]]]);
      try (destruct Hmn' as [-> | ?]; by auto); try (destruct Hmx' as [-> | ?]; by auto);
      (constructor; [intros z Hz; specialize (Hin z Hz); simpl; lia | done]).
Qed.

(** The least rectangle around the pixels, or the empty one. *)
Definition boxed (b : IntRect) (rows : list Row) : Prop :=
  match rows with
  | [] => b = IntRect.zero
  | _ =>
    inBounds b = true /\ IntRect.isEmpty b = false /\
    (forall x y, cell rows x y = true -> inRect b x y) /\
    forall r, inBounds r = true -> (forall x y, cell rows x y = true -> inRect r x y) ->
      IntRect.contains b r = true
  end.

(** The first row, the last and the one before it. *)
Lemma canon_shape (rows : list Row) :
  canon [] rows -> rows <> [] ->
  exists y0 s0 n y1 s1 y2, rows !! 0%nat = Some (y0, s0) /\ s0 <> [] /\ length rows = S (S n) /\
    rows !! n = Some (y1, s1) /\ s1 <> [] /\ rows !! S n = Some (y2, []) /\ y0 < y2.
Proof.
  intros Hc Hn. destruct rows as [| [y0 s0] [| [y' s'] rest]]; [done | |].
  - destruct Hc as (H & _ & _ & _ & H'). simpl in H'. by subst.
  - set (rows := (y0, s0) :: (y', s') :: rest) in *.
    destruct (lookup_lt_is_Some_2 rows (length rest)) as [[y1 s1] E1]; [simpl; lia |].
    destruct (lookup_lt_is_Some_2 rows (S (length rest))) as [[y2 s2] E2]; [simpl; lia |].
    assert (s2 = []) as -> by (apply (canon_ends _ _ _ _ Hc E2), lookup_ge_None; simpl; lia).
    exists y0, s0, (length rest), y1, s1, y2. split; [done |]. split; [apply Hc |]. split; [done |].
    split; [done |]. split; [| split; [done |]].
    + intros ->. by apply (canon_differ _ _ _ _ _ Hc E1 E2).
    + apply (canon_increasing _ _ 0%nat (S (length rest)) _ _ Hc eq_refl E2). lia.
Qed.

Lemma segmentsIn_elem (rows : list Row) (z : Z) :
  z ∈ segmentsIn rows <-> exists i y s, rows !! i = Some (y, s) /\ z ∈ s.
Proof.
  unfold segmentsIn. rewrite list_elem_of_In, in_concat. split.
  - intros (s & Hs & Hz). apply list_elem_of_In in Hs. apply list_elem_of_In in Hz.
    apply list_elem_of_fmap in Hs as ([y s'] & -> & Hr). apply list_elem_of_lookup_1 in Hr as [i E]. by exists i, y, s'.
  - intros (i & y & s & E & Hz). exists s. split; apply list_elem_of_In; [| done].
    apply list_elem_of_fmap. exists (y, s). split; [done |]. by eapply list_elem_of_lookup_2.
Qed.

(** Every pixel is between the first and the last row, and between two coordinates. *)
Lemma cell_range (rows : list Row) (x y : Z) :
  canon [] rows -> cell rows x y = true ->
  (exists r, rows !! 0%nat = Some r /\ r.1 <= y) /\
  (exists r, rows !! Nat.pred (length rows) = Some r /\ y < r.1) /\
  (exists z, z ∈ segmentsIn rows /\ z <= x) /\ exists z, z ∈ segmentsIn rows /\ x < z.
Proof.
  intros Hc Hxy. unfold cell in Hxy.
  destruct (rowAt_lookup [] rows y Hc) as [[E _] | (i & y0 & E & L & Hn)]; [by rewrite E in Hxy |].
  destruct (canon_row _ _ _ _ _ Hc E) as [Hs _].
  pose proof (lookup_lt_Some _ _ _ E) as Hi.
  destruct (lookup_lt_is_Some_2 rows 0%nat) as [r0 E0]; [lia |].
  destruct (lookup_lt_is_Some_2 rows (Nat.pred (length rows))) as [rl El]; [lia |].
  destruct (inside_range _ _ Hs Hxy) as [(z & Hz & Lz) (z' & Hz' & Lz')].
  split; [| split; [| split]].
  - exists r0. split; [done |]. destruct (Nat.eq_dec i 0%nat) as [-> |]; [by simplify_eq |].
    pose proof (canon_increasing _ _ 0%nat i _ _ Hc E0 E ltac:(lia)). simpl in *. lia.
  - exists rl. split; [done |]. destruct (rows !! S i) as [r1 |] eqn:E1.
    + specialize (Hn _ eq_refl). destruct (Nat.eq_dec (S i) (Nat.pred (length rows))) as [e |]; [by rewrite e in E1; simplify_eq |].
      pose proof (lookup_lt_Some _ _ _ E1). pose proof (canon_increasing _ _ (S i) _ _ _ Hc E1 El ltac:(lia)). lia.
    + rewrite (canon_ends _ _ _ _ Hc E E1 : rowAt [] rows y = []) in Hxy. done.
  - exists z. split; [| done]. apply segmentsIn_elem. by exists i, y0, (rowAt [] rows y).
  - exists z'. split; [| done]. apply segmentsIn_elem. by exists i, y0, (rowAt [] rows y).
Qed.

Lemma cell_row (rows : list Row) (i : nat) (y : Z) (s : list Z) (x : Z) :
  canon [] rows -> rows !! i = Some (y, s) -> cell rows x y = inside s x.
Proof. intros Hc E. unfold cell. by rewrite (rowAt_row _ _ _ _ _ Hc E). Qed.

(** The ends of the coordinates are pixels. *)
Lemma leftmost_cell (rows : list Row) (z : Z) :
  canon [] rows -> z ∈ segmentsIn rows -> (forall z', z' ∈ segmentsIn rows -> z <= z') ->
  exists y, cell rows z y = true.
Proof.
  intros Hc (i & y & s & E & Hz)%segmentsIn_elem Hmin. exists y. rewrite (cell_row _ _ _ _ _ Hc E).
  apply inside_least; [by apply (canon_row _ _ _ _ _ Hc E) | done |].
  intros z' Hz'. apply Hmin, segmentsIn_elem. by exists i, y, s.
Qed.

Lemma rightmost_cell (rows : list Row) (z : Z) :
  canon [] rows -> z ∈ segmentsIn rows -> (forall z', z' ∈ segmentsIn rows -> z' <= z) ->
  exists y, cell rows (z - 1) y = true.
Proof.
  intros Hc (i & y & s & E & Hz)%segmentsIn_elem Hmax. exists y. rewrite (cell_row _ _ _ _ _ Hc E).
  apply inside_greatest; [by apply (canon_row _ _ _ _ _ Hc E) | done |].
  intros z' Hz'. apply Hmax, segmentsIn_elem. by exists i, y, s.
Qed.

Lemma nonempty_inside (s : list Z) : segsOk s -> s <> [] -> exists x, inside s x = true.
Proof. intros (Ha & _) Hn. destruct s as [| x s]; [done |]. exists x. by apply inside_head. Qed.

Lemma topmost_cell (rows : list Row) (y : Z) (s : list Z) :
  canon [] rows -> rows !! 0%nat = Some (y, s) -> exists x, cell rows x y = true.
Proof.
  intros Hc E. destruct (canon_row _ _ _ _ _ Hc E) as [Hs _].
  destruct (nonempty_inside s Hs) as [x Hx]; [destruct rows; [done |]; simpl in E; simplify_eq; apply Hc |].
  exists x. by rewrite (cell_row _ _ _ _ _ Hc E).
Qed.

Lemma bottom_cell (rows : list Row) (n : nat) (y1 y2 : Z) (s1 : list Z) (s2 : list Z) :
  canon [] rows -> rows !! n = Some (y1, s1) -> s1 <> [] -> rows !! S n = Some (y2, s2) ->
  exists x, cell rows x (y2 - 1) = true.
Proof.
  intros Hc E Hn E2. destruct (canon_row _ _ _ _ _ Hc E) as [Hs _].
  destruct (nonempty_inside s1 Hs Hn) as [x Hx]. exists x. unfold cell.
  pose proof (canon_increasing _ _ _ _ _ _ Hc E E2 ltac:(lia)) as L. simpl in L.
  rewrite (rowAt_between [] rows n y1 s1); [done | done | done | lia |].
  intros r Er. rewrite E2 in Er. injection Er as <-. simpl. lia.
Qed.

Lemma isEmpty_encode (rows : list Row) : Shape.isEmpty (encode rows) = Nat.eqb (length rows) 0.
Proof. unfold Shape.isEmpty. cbn [encode Shape.m_spans]. by rewrite spansFrom_length. Qed.

Lemma isEmpty_encode_false (rows : list Row) : rows <> [] -> Shape.isEmpty (encode rows) = false.
Proof. intros H. rewrite isEmpty_encode. by destruct rows. Qed.

Lemma coords_ok (rows : list Row) (z : Z) :
  canon [] rows -> z ∈ segmentsIn rows -> - 2 ^ 30 <= z < 2 ^ 30.
Proof.
  intros Hc (i & y & s & E & Hz)%segmentsIn_elem. destruct (canon_row _ _ _ _ _ Hc E) as [(_ & _ & Hf) _].
  rewrite list.Forall_forall in Hf. by apply coordOk_spec, Hf.
Qed.

Lemma bounds_found (rows : list Row) :
  canon [] rows -> rows <> [] ->
  exists y0 s0 y2 mn mx, rows !! 0%nat = Some (y0, s0) /\ rows !! Nat.pred (length rows) = Some (y2, []) /\ y0 < y2 /\
    (exists x, cell rows x (y2 - 1) = true) /\
    Shape.boundsLoop (encode rows) 0 (Nat.pred (length rows)) INT_MAX INT_MIN = Some (mn, mx) /\
    mn ∈ segmentsIn rows /\ mx ∈ segmentsIn rows /\ forall z, z ∈ segmentsIn rows -> mn <= z <= mx.
Proof.
  intros Hc Hne. destruct (canon_shape _ Hc Hne) as (y0 & s0 & n & y1 & s1 & y2 & E0 & Hs0 & Hl & E1 & Hs1 & E2 & L).
  destruct (boundsLoop_ok rows (Nat.pred (length rows)) 0 INT_MAX INT_MIN Hc ltac:(lia))
    as (mn & mx & Eq & _ & _ & Hmn & Hmx & Hf).
  exists y0, s0, y2, mn, mx. rewrite Hl in *. cbn [Nat.pred] in *.
  split; [done | split; [done | split; [done | split; [by apply (bottom_cell rows n y1 y2 s1 []) |]]]].
  split; [done |]. rewrite drop_0 in Hf.
  assert (Hall : forall z, z ∈ segmentsIn rows -> mn <= z <= mx).
  { intros z (i & y & s & E & Hz)%segmentsIn_elem. rewrite list.Forall_forall in Hf.
    apply (Hf (y, s)); [| done]. apply list_elem_of_lookup. exists i. rewrite lookup_take_lt; [done |].
    pose proof (lookup_lt_Some _ _ _ E). destruct (Nat.eq_dec i (S n)) as [-> |]; [| lia].
    simplify_eq. by apply elem_of_nil in Hz. }
  destruct s0 as [| x0 s0]; [done |].
  assert (H0 : x0 ∈ segmentsIn rows).
  { apply segmentsIn_elem. exists 0%nat, y0, (x0 :: s0). split; [done |]. apply elem_of_cons. by left. }
  pose proof (Hall _ H0). pose proof (coords_ok _ _ Hc H0). unfold INT_MAX, INT_MIN in *.
  destruct Hmn as [-> | ?]; [lia |]. destruct Hmx as [-> | ?]; [lia |]. done.
Qed.

Theorem bounds_ok (rows : list Row) :
  canon [] rows -> exists b, Shape.bounds (encode rows) = Some b /\ boxed b rows.
Proof.
  intros Hc. destruct (decide (rows = [])) as [-> | Hne]; [by exists IntRect.zero |].
  destruct (bounds_found _ Hc Hne) as (y0 & s0 & y2 & mn & mx & E0 & E2 & L & [xb Hxb] & Eq & Hmn & Hmx & Hall).
  destruct (canon_row _ _ _ _ _ Hc E0) as [_ Hy0%coordOk_spec].
  destruct (canon_row _ _ _ _ _ Hc E2) as [_ Hy2%coordOk_spec].
  pose proof (coords_ok _ _ Hc Hmn). pose proof (coords_ok _ _ Hc Hmx).
  destruct (leftmost_cell rows mn Hc Hmn) as [yl Hl]; [intros z Hz; by apply Hall |].
  destruct (rightmost_cell rows mx Hc Hmx) as [yr Hr]; [intros z Hz; by apply Hall |].
  destruct (cell_range _ _ _ Hc Hl) as (_ & _ & _ & (z & Hz & Lz)). pose proof (Hall _ Hz).
  exists (IntRect.rect mn y0 (mx - mn) (y2 - y0)). split.
  - unfold Shape.bounds. rewrite (isEmpty_encode_false rows Hne), !encode_length. unfold Shape.spans_begin.
    rewrite (spans_lookup rows 0%nat), (spans_lookup rows (Nat.pred (length rows))), E0, E2.
    cbn [fmap option_fmap option_map mbind option_bind Shape.spanY fst]. rewrite Eq. cbn [mbind option_bind].
    rewrite !(proj2 (Z.leb_le _ _)) by lia. cbn [ASSERT mbind option_bind].
    rewrite !int32_id by (unfold INT_MIN, INT_MAX; lia). done.
  - destruct (topmost_cell _ _ _ Hc E0) as [xt Hxt].
    assert (Hb : inBounds (IntRect.rect mn y0 (mx - mn) (y2 - y0)) = true).
    { apply inBounds_spec. autorewrite with geometry. lia. }
    destruct rows as [| r rest]; [done |]. set (rows := r :: rest) in *. split; [done |].
    split; [apply isEmpty_false; autorewrite with geometry; lia |]. split.
    + intros x y Hxy. destruct (cell_range _ _ _ Hc Hxy) as ((r0 & Er & Lr) & (rl & El & Ll) & (z1 & Hz1 & L1) & (z2 & Hz2 & L2)).
      rewrite E0 in Er. rewrite E2 in El. simplify_eq. simpl in *. apply Hall in Hz1, Hz2.
      unfold inRect. autorewrite with geometry. lia.
    + intros b Hbb Hin. apply containsRect_spec; [done | done |]. autorewrite with geometry.
      pose proof (Hin _ _ Hl). pose proof (Hin _ _ Hr). pose proof (Hin _ _ Hxt). pose proof (Hin _ _ Hxb).
      unfold inRect in *. lia.
Qed.
