(* ===== verification/RegionCompare.v ===== *)
(** * Comparing shapes

    [compareShapes] with its two sets of callbacks: inclusion and intersection of
    the sets of pixels. *)

From S2P Require Import Prelude Geometry Region RegionSpec RegionShapes.

(** ** Callbacks *)

Lemma returnIf_pass {A} (condition : bool) (callback : bool -> bool * bool) (result : bool)
    (return_ rest : bool -> A) :
  callback result = (false, result) -> Shape.returnIf condition callback result return_ rest = rest result.
Proof. intros H. unfold Shape.returnIf. rewrite H. by destruct condition. Qed.

Lemma returnIf_false {A} (callback : bool -> bool * bool) (result : bool) (return_ rest : bool -> A) :
  Shape.returnIf false callback result return_ rest = rest result.
Proof. reflexivity. Qed.

Lemma returnIf_stop {A} (callback : bool -> bool * bool) (result r : bool) (return_ rest : bool -> A) :
  callback result = (true, r) -> Shape.returnIf true callback result return_ rest = return_ r.
Proof. intros H. unfold Shape.returnIf. by rewrite H. Qed.

(** ** Comparing two spans *)

Definition subset (a b : list Z) : Prop := forall x, inside b x = true -> inside a x = true.
Definition apart (a b : list Z) : Prop := forall x, inside a x = true -> inside b x = true -> False.

Lemma inside_after (s : list Z) (z x : Z) :
  Forall (fun z' => z < z') s -> inside s x = true -> z < x.
Proof.
  intros H Hx. destruct (Z.lt_ge_cases z x) as [L | L]; [done |].
  rewrite inside_below in Hx; [done |]. eapply list.Forall_impl; [exact H | simpl; lia].
Qed.

Lemma inside_pair_iff (x x' px : Z) (s : list Z) :
  x < x' -> Forall (fun z => x' < z) s ->
  inside (x :: x' :: s) px = true <-> x <= px < x' \/ inside s px = true.
Proof.
  intros L H. rewrite inside_pair by done. rewrite orb_true_iff, andb_true_iff, Z.leb_le, Z.ltb_lt. done.
Qed.

(** A span with pairs of coordinates, taken apart. *)
Lemma segs_cases (s : list Z) :
  segsOk s -> s = [] \/ exists x x' t, s = x :: x' :: t /\ x < x' /\ Forall (fun z => x' < z) t /\ segsOk t.
Proof.
  intros H. destruct s as [| x [| x' t]]; [by left | by apply segsOk_one in H |].
  right. exists x, x', t. destruct (segsOk_pair _ _ _ H) as (? & ? & ?). done.
Qed.

Lemma subset_nil (a b : list Z) : b = [] -> subset a b.
Proof. by intros ->. Qed.

Lemma not_subset (a b : list Z) (x : Z) : inside b x = true -> inside a x = false -> ~ subset a b.
Proof. intros Hb Ha H. rewrite H in Ha by done. done. Qed.

Lemma segs_after (z : Z) (s : list Z) (x : Z) : Forall (fun z' => z < z') s -> x <= z -> inside s x = false.
Proof. intros H L. apply inside_below. eapply list.Forall_impl; [exact H | simpl; lia]. Qed.

(** What the loop reports about inclusion. *)
Definition saysSubset (a b : list Z) (r : bool + bool * list Z * list Z) : Prop :=
  match r with
  | inl r => r = false /\ ~ subset a b
  | inr (r, _, b') => r = true /\ (b' = [] <-> subset a b)
  end.

Lemma saysSubset_iff (a b a' b' : list Z) r :
  (subset a b <-> subset a' b') -> saysSubset a' b' r -> saysSubset a b r.
Proof. intros E. destruct r as [r | [[r ?] t]]; simpl; rewrite E; done. Qed.

Lemma subset_step (ax ax' bx bx' : Z) (a b : list Z) :
  ax < ax' -> bx < bx' -> Forall (fun z => ax' < z) a -> Forall (fun z => bx' < z) b ->
  (ax <= bx -> ax' < bx' -> subset (ax :: ax' :: a) (bx :: bx' :: b) <-> subset a (bx :: bx' :: b)) /\
  (ax <= bx -> bx' < ax' -> subset (ax :: ax' :: a) (bx :: bx' :: b) <-> subset (ax :: ax' :: a) b) /\
  (ax <= bx -> bx' = ax' -> subset (ax :: ax' :: a) (bx :: bx' :: b) <-> subset a b).
Proof.
  intros La Lb Ha Hb. unfold subset. setoid_rewrite inside_pair_iff; [| done..].
  pose proof (fun x => inside_after a ax' x Ha) as Aa. pose proof (fun x => inside_after b bx' x Hb) as Ab.
  split; [| split]; intros L1 L2; split; intros H x.
  - intros [Hx | Hx]; [| destruct (H x) as [? | ?]; auto; specialize (Ab x Hx); lia].
    destruct (H x) as [Hx' | ?]; auto. exfalso. destruct (H ax') as [? | ?%Aa]; lia.
  - intros Hx. right. destruct (H x Hx). done.
  - intros Hx. destruct (H x) as [? | ?]; auto.
  - intros [Hx | Hx]; [left; lia | auto].
  - intros Hx. destruct (H x) as [? | ?]; auto. specialize (Ab x Hx). lia.
  - intros [Hx | Hx]; [left; lia | auto].
Qed.

Lemma compareSegments_contains (fuel : nat) (a b : list Z) :
  segsOk a -> segsOk b -> (length a + length b <= fuel)%nat ->
  exists r, Shape.compareSegments Shape.CompareContainsOperation fuel true a b = Some r /\ saysSubset a b r.
Proof.
  revert a b. induction fuel as [| fuel IH]; intros a b Ha Hb Hl.
  all: destruct (segs_cases a Ha) as [-> | (ax & ax' & ta & -> & La & Fa & Ta)].
  1, 3: exists (inr (true, [], b)); split; [by destruct b |]; split; [done |]; split; [apply subset_nil |];
    intros H; destruct (segs_cases b Hb) as [-> | (bx & bx' & tb & -> & Lb & Fb & _)]; [done |];
    exfalso; specialize (H bx); rewrite inside_pair_iff in H by done; assert (inside [] bx = true) by (apply H; lia); done.
  { simpl in Hl. lia. }
  destruct (segs_cases b Hb) as [-> | (bx & bx' & tb & -> & Lb & Fb & Tb)].
  { exists (inr (true, ax :: ax' :: ta, [])). split; [done |]. split; [done |]. split; [by intros _ x | done]. }
  cbn [Shape.compareSegments]. rewrite !returnIf_pass by done.
  destruct (subset_step ax ax' bx bx' ta tb La Lb Fa Fb) as (S1 & S2 & S3). simpl in Hl.
  destruct (Z.ltb_spec bx ax) as [L | L].
  - rewrite (returnIf_stop _ _ false) by done. exists (inl false). split; [done |]. split; [done |].
    apply not_subset with bx; [rewrite inside_pair_iff by done; left; lia |].
    apply inside_below. constructor; [done |]. constructor; [lia |]. eapply list.Forall_impl; [exact Fa | simpl; lia].
  - rewrite returnIf_false.
    destruct (Z.ltb_spec ax' bx') as [L' | L'].
    + destruct (IH ta (bx :: bx' :: tb) Ta Hb ltac:(simpl; lia)) as (r & E & Hr).
      exists r. split; [done |]. eapply saysSubset_iff; [by apply S1 | done].
    + destruct (Z.ltb_spec bx' ax') as [L'' | L''].
      * destruct (IH (ax :: ax' :: ta) tb Ha Tb ltac:(simpl; lia)) as (r & E & Hr).
        exists r. split; [done |]. eapply saysSubset_iff; [by apply S2 | done].
      * destruct (IH ta tb Ta Tb ltac:(simpl; lia)) as (r & E & Hr).
        exists r. split; [done |]. eapply saysSubset_iff; [apply S3; lia | done].
Qed.

(** What the loop reports about common pixels. *)
Definition saysMeet (a b : list Z) (r : bool + bool * list Z * list Z) : Prop :=
  match r with
  | inl r => r = true /\ ~ apart a b
  | inr (r, _, _) => r = false /\ apart a b
  end.

Lemma saysMeet_iff (a b a' b' : list Z) r :
  (apart a b <-> apart a' b') -> saysMeet a' b' r -> saysMeet a b r.
Proof. intros E. destruct r as [r | [[r ?] t]]; simpl; rewrite E; done. Qed.

Lemma apart_step (ax ax' bx bx' : Z) (a b : list Z) :
  ax < ax' -> bx < bx' -> Forall (fun z => ax' < z) a -> Forall (fun z => bx' < z) b ->
  ax' <= bx \/ bx' <= ax ->
  (ax' < bx' -> apart (ax :: ax' :: a) (bx :: bx' :: b) <-> apart a (bx :: bx' :: b)) /\
  (bx' < ax' -> apart (ax :: ax' :: a) (bx :: bx' :: b) <-> apart (ax :: ax' :: a) b) /\
  bx' <> ax'.
Proof.
  intros La Lb Ha Hb Hap. unfold apart. setoid_rewrite inside_pair_iff; [| done..].
  pose proof (fun x => inside_after a ax' x Ha) as Aa. pose proof (fun x => inside_after b bx' x Hb) as Ab.
  split; [| split; [| lia]]; intros L; split; intros H x.
  - intros Hx Hy. apply (H x); auto.
  - intros [Hx | Hx] [Hy | Hy]; [lia | specialize (Ab _ Hy); lia | apply (H x); auto..].
  - intros Hx Hy. apply (H x); auto.
  - intros [Hx | Hx] [Hy | Hy]; [lia | apply (H x); auto | specialize (Aa _ Hx); lia | apply (H x); auto].
Qed.

Lemma compareSegments_intersects (fuel : nat) (a b : list Z) :
  segsOk a -> segsOk b -> (length a + length b <= fuel)%nat ->
  exists r, Shape.compareSegments Shape.CompareIntersectsOperation fuel false a b = Some r /\ saysMeet a b r.
Proof.
  revert a b. induction fuel as [| fuel IH]; intros a b Ha Hb Hl.
  all: destruct (segs_cases a Ha) as [-> | (ax & ax' & ta & -> & La & Fa & Ta)];
    [exists (inr (false, [], b)); split; [by destruct b | split; [done | intros x Hx; done]] |].
  { simpl in Hl. lia. }
  destruct (segs_cases b Hb) as [-> | (bx & bx' & tb & -> & Lb & Fb & Tb)].
  { exists (inr (false, ax :: ax' :: ta, [])). split; [done |]. split; [done | intros x _ Hx; done]. }
  cbn [Shape.compareSegments]. simpl in Hl.
  destruct ((bx' >? ax) && (bx <? ax')) eqn:Eo.
  - rewrite (returnIf_stop _ _ true) by done. exists (inl true). split; [done |]. split; [done |].
    rewrite andb_true_iff, Z.gtb_gt, Z.ltb_lt in Eo. intros H.
    apply (H (Z.max ax bx)); apply inside_pair_iff; (done || left; lia).
  - rewrite returnIf_false, !returnIf_pass by done.
    destruct (apart_step ax ax' bx bx' ta tb La Lb Fa Fb) as (S1 & S2 & S3).
    { rewrite andb_false_iff, Z.gtb_ltb, !Z.ltb_ge in Eo. lia. }
    destruct (Z.ltb_spec ax' bx') as [L | L].
    + destruct (IH ta (bx :: bx' :: tb) Ta Hb ltac:(simpl; lia)) as (r & E & Hr).
      exists r. split; [done |]. eapply saysMeet_iff; [by apply S1 | done].
    + replace (bx' <? ax') with true by lia.
      destruct (IH (ax :: ax' :: ta) tb Ha Tb ltac:(simpl; lia)) as (r & E & Hr).
      exists r. split; [done |]. eapply saysMeet_iff; [apply S2; lia | done].
Qed.

(** ** The loop over the spans *)

Section Loop.
Context (A B : list Row) (HA : ended A) (HB : ended B).

(** One turn of the loop, at rows whose spans are at hand. *)
Lemma compareLoop_turn (op : Shape.CompareOperation) (fuel i j : nat) (result aHad bHad : bool)
    (ay ay' by_ by' : Z) (sa sa' sb sb' : list Z) :
  A !! i = Some (ay, sa) -> A !! S i = Some (ay', sa') ->
  B !! j = Some (by_, sb) -> B !! S j = Some (by', sb') ->
  Shape.compareLoop op (encode A) (encode B) (S fuel) result i j aHad bHad =
    (let aHas := negb (Nat.eqb (length sa) 0) in
     let bHas := negb (Nat.eqb (length sb) 0) in
     Shape.returnIf ((ay <? by_) && negb bHad && aHas) (Shape.aOutsideB op) result Some (fun result =>
     Shape.returnIf ((by_ <? ay) && negb aHad && bHas) (Shape.bOutsideA op) result Some (fun result =>
     let next result :=
       if ay' <? by' then Shape.compareLoop op (encode A) (encode B) fuel result (S i) j aHas bHas
       else if by' <? ay' then Shape.compareLoop op (encode A) (encode B) fuel result i (S j) aHas bHas
       else Shape.compareLoop op (encode A) (encode B) fuel result (S i) (S j) aHas bHas in
     if (by' >? ay) && (by_ <? ay') then
       compared ← Shape.compareSegments op (length sa + length sb) result sa sb;
       match compared with
       | inl returned => Some returned
       | inr (result, a, b) =>
           Shape.returnIf (negb (Nat.eqb (length a) 0)) (Shape.aOutsideB op) result Some (fun result =>
           Shape.returnIf (negb (Nat.eqb (length b) 0)) (Shape.bOutsideA op) result Some next)
       end
     else next result))).
Proof.
  intros E1 E2 E3 E4. cbn [Shape.compareLoop].
  pose proof (lookup_lt_Some _ _ _ E2). pose proof (lookup_lt_Some _ _ _ E4).
  rewrite !hasRows_ok, !(proj2 (Nat.leb_le _ _)) by lia. simpl andb. cbv iota.
  rewrite (spanY_ok _ _ _ _ E1), (spanY_ok _ _ _ _ E2), (spanY_ok _ _ _ _ E3), (spanY_ok _ _ _ _ E4).
  rewrite (segmentsOf_ok _ _ _ _ HA E1), (segmentsOf_ok _ _ _ _ HB E3). reflexivity.
Qed.

(** The rows at hand, and the pixels of the rows from them on. *)
Record atRows (i j : nat) (ay ay' by_ by' : Z) (sa sb : list Z) : Prop := {
  at_a : forall y, ay' <= y -> rowAt [] (drop i A) y = rowAt [] (drop (S i) A) y;
  at_b : forall y, by' <= y -> rowAt [] (drop j B) y = rowAt [] (drop (S j) B) y;
  at_a_in : forall y, ay <= y < ay' -> rowAt [] (drop i A) y = sa;
  at_b_in : forall y, by_ <= y < by' -> rowAt [] (drop j B) y = sb;
  at_a_below : forall y, y < ay -> rowAt [] (drop i A) y = [];
  at_b_below : forall y, y < by_ -> rowAt [] (drop j B) y = [];
  at_a_next : forall y, y < ay' -> rowAt [] (drop (S i) A) y = [];
  at_b_next : forall y, y < by' -> rowAt [] (drop (S j) B) y = [];
  at_segs_a : segsOk sa;
  at_segs_b : segsOk sb;
  at_canon_a : canon sa (drop (S i) A);
  at_canon_b : canon sb (drop (S j) B);
  at_canon_cur_a : exists c, canon c (drop i A);
  at_canon_cur_b : exists c, canon c (drop j B);
  at_a_lt : ay < ay';
  at_b_lt : by_ < by' }.

Lemma rows_facts (c : list Z) (rows rest : list Row) (y y' : Z) (s s' : list Z) :
  rows = (y, s) :: (y', s') :: rest -> canon c rows ->
  (forall z, y' <= z -> rowAt [] rows z = rowAt [] ((y', s') :: rest) z) /\
  (forall z, y <= z < y' -> rowAt [] rows z = s) /\ (forall z, z < y -> rowAt [] rows z = []) /\
  (forall z, z < y' -> rowAt [] ((y', s') :: rest) z = []) /\
  segsOk s /\ canon s ((y', s') :: rest) /\ y < y'.
Proof.
  intros -> (_ & Hs & _ & Hlt & Hc). apply Forall_cons_1 in Hlt as [L _]. simpl in L.
  split; [| split; [| split; [| split]]].
  - intros z Hz. rewrite !rowAt_from by lia. done.
  - intros z Hz. rewrite rowAt_from by lia. apply rowAt_below. eapply canon_lt_head; [| done]. lia.
  - intros z Hz. simpl. by rewrite (proj2 (Z.leb_gt _ _) Hz).
  - intros z Hz. simpl. by rewrite (proj2 (Z.leb_gt _ _) Hz).
  - done.
Qed.

Lemma at_rows (cA cB : list Z) (i j : nat) :
  Shape.hasRows i (encode A) = true -> Shape.hasRows j (encode B) = true ->
  (i <= length A)%nat -> (j <= length B)%nat -> canon cA (drop i A) -> canon cB (drop j B) ->
  exists ay ay' by_ by' sa sa' sb sb',
    A !! i = Some (ay, sa) /\ A !! S i = Some (ay', sa') /\
    B !! j = Some (by_, sb) /\ B !! S j = Some (by', sb') /\
    atRows i j ay ay' by_ by' sa sb.
Proof.
  intros RA RB Li Lj CA CB.
  destruct (row_at _ _ RA Li) as (ay & sa & ay' & sa' & E1 & E2 & D1).
  destruct (row_at _ _ RB Lj) as (by_ & sb & by' & sb' & E3 & E4 & D2).
  exists ay, ay', by_, by', sa, sa', sb, sb'. do 4 (split; [done |]).
  destruct (rows_facts _ _ _ _ _ _ _ D1 CA) as (? & ? & ? & ? & ? & ? & ?).
  destruct (rows_facts _ _ _ _ _ _ _ D2 CB) as (? & ? & ? & ? & ? & ? & ?).
  pose proof (drop_S _ _ _ E2) as D1'. pose proof (drop_S _ _ _ E4) as D2'.
  split; rewrite ?D1', ?D2'; try done; by eexists.
Qed.

(** *** Inclusion *)

(** From [t] on, the pixels of [b] are pixels of [a]. *)
Definition covered (t : Z) (a b : list Row) : Prop :=
  forall x y, t <= y -> inside (rowAt [] b y) x = true -> inside (rowAt [] a y) x = true.

Lemma covered_rows (i j : nat) (ay ay' by_ by' : Z) (sa sb : list Z) :
  atRows i j ay ay' by_ by' sa sb -> (ay < by') -> by_ < ay' ->
  covered ay (drop i A) (drop j B) -> subset sa sb.
Proof.
  intros [] L1 L2 H x Hx. specialize (H x (Z.max ay by_) ltac:(lia)).
  rewrite (at_a_in0 (Z.max ay by_)), (at_b_in0 (Z.max ay by_)) in H by lia. auto.
Qed.

Lemma covered_next (i j : nat) (ay ay' by_ by' : Z) (sa sb : list Z) :
  atRows i j ay ay' by_ by' sa sb -> subset sa sb \/ ay' <= by_ ->
  (ay' < by' -> covered ay (drop i A) (drop j B) <-> covered ay' (drop (S i) A) (drop j B)) /\
  (by' < ay' -> covered ay (drop i A) (drop j B) <-> covered ay (drop i A) (drop (S j) B)) /\
  (ay' = by' -> covered ay (drop i A) (drop j B) <-> covered ay' (drop (S i) A) (drop (S j) B)).
Proof.
  intros [] Hs.
  assert (Hnow : forall x y, ay <= y < ay' -> y < by' ->
    inside (rowAt [] (drop j B) y) x = true -> inside (rowAt [] (drop i A) y) x = true).
  { intros x y La Lb. destruct (Z.lt_ge_cases y by_) as [L | L]; [by rewrite at_b_below0 |].
    rewrite at_a_in0, at_b_in0 by lia. destruct Hs as [Hs | Hs]; [apply Hs | lia]. }
  split; [| split]; intros L; split; intros H x y Ly Hx.
  - rewrite <- at_a0 by done. apply H; [lia | done].
  - destruct (Z.lt_ge_cases y ay') as [L' | L']; [apply Hnow; (done || lia) |]. rewrite at_a0 by done. by apply H.
  - apply H; [done |]. destruct (Z.lt_ge_cases y by') as [L' | L']; [by rewrite at_b_next0 in Hx |]. by rewrite at_b0.
  - destruct (Z.lt_ge_cases y by') as [L' | L']; [apply Hnow; (done || lia) |]. apply H; [done |]. by rewrite <- at_b0.
  - rewrite <- at_a0 by done. apply H; [lia |]. rewrite at_b0; [done | lia].
  - destruct (Z.lt_ge_cases y ay') as [L' | L']; [apply Hnow; (done || lia) |].
    rewrite at_a0 by done. apply H; [done |]. rewrite <- at_b0; [done | lia].
Qed.

(** The loop never sees a pixel of [b] above what it has compared. *)
Definition inStep (i j : nat) (aHad : bool) : Prop :=
  forall ay sa by_ sb by' sb', A !! i = Some (ay, sa) -> B !! j = Some (by_, sb) -> B !! S j = Some (by', sb') ->
  ay < by' /\ (by_ < ay -> aHad = true \/ sb = []).

(** The rows of the first shape have come to an end. *)
Lemma not_covered (cB : list Z) (j : nat) (ay by_ by' : Z) (sb sb' : list Z) :
  canon cB (drop j B) -> B !! j = Some (by_, sb) -> B !! S j = Some (by', sb') -> ay < by' ->
  ~ covered ay [(ay, [])] (drop j B).
Proof.
  intros CB E E' L H.
  pose proof (drop_S _ _ _ E) as D. pose proof (drop_S _ _ _ E') as D'. rewrite D' in D. rewrite D in CB, H.
  destruct (rows_facts _ _ _ _ _ _ _ eq_refl CB) as (Hn & Hin & _ & _ & Hs & CB' & Lb).
  assert (Hno : forall x y, ay <= y -> inside (rowAt [] ((by_, sb) :: (by', sb') :: drop (S (S j)) B) y) x = true -> False).
  { intros x y Ly Hx. specialize (H x y Ly Hx). simpl in H. by destruct (ay <=? y). }
  destruct (decide (sb = [])) as [-> | Nb].
  - destruct CB' as (Nb' & Hs' & _ & Hlt & _). destruct (nonempty_inside sb' Hs' Nb') as [x Hx].
    apply (Hno x by'); [lia |]. rewrite Hn, rowAt_from by lia. by rewrite rowAt_below.
  - destruct (nonempty_inside sb Hs Nb) as [x Hx]. apply (Hno x (Z.max ay by_)); [lia |]. by rewrite Hin by lia.
Qed.

Lemma inStep_a (i j : nat) (ay ay' by_ by' : Z) (sa sa' sb sb' : list Z) (aHas : bool) :
  A !! S i = Some (ay', sa') -> B !! j = Some (by_, sb) -> B !! S j = Some (by', sb') ->
  ay' < by' -> (by_ < ay' -> aHas = true \/ sb = []) -> inStep (S i) j aHas.
Proof. intros E1 E2 E3 L H ? ? ? ? ? ? X1 X2 X3. simplify_eq. done. Qed.

Lemma inStep_b (cB : list Z) (i j : nat) (ay by' : Z) (sa sb' : list Z) (aHas : bool) :
  canon cB (drop (S j) B) -> A !! i = Some (ay, sa) -> B !! S j = Some (by', sb') -> ay <= by' -> inStep i (S j) aHas.
Proof.
  intros CB E1 E2 L ay0 sa0 b0 sb0 b1 sb1 X1 X2 X3.
  rewrite E1 in X1. rewrite E2 in X2. injection X1 as <- <-. injection X2 as <- <-.
  rewrite (drop_S _ _ _ E2), (drop_S _ _ _ X3) in CB.
  destruct (rows_facts _ _ _ _ _ _ _ eq_refl CB) as (_ & _ & _ & _ & _ & _ & Lb). split; [lia | intros; lia].
Qed.

(** The value returned says whether the first shape covers the second from [t] on. *)
Definition decides (t : Z) (a b : list Row) (returned : option bool) : Prop :=
  exists r, returned = Some r /\ (r = true <-> covered t a b).

Definition containsLoop (fuel i j : nat) (aHad bHad : bool) : option bool :=
  Shape.compareLoop Shape.CompareContainsOperation (encode A) (encode B) fuel true i j aHad bHad.

Definition containsFrom (fuel : nat) : Prop :=
  forall i j cA cB ay sa aHad bHad,
  canon cA (drop i A) -> canon cB (drop j B) -> (i <= length A)%nat -> (j <= length B)%nat ->
  ((length A - i) + (length B - j) <= fuel)%nat -> A !! i = Some (ay, sa) -> inStep i j aHad ->
  decides ay (drop i A) (drop j B) (containsLoop fuel i j aHad bHad).

Lemma loop_end_contains (fuel i j : nat) (cA cB : list Z) (ay : Z) (sa : list Z) (aHad bHad : bool) :
  Shape.hasRows i (encode A) && Shape.hasRows j (encode B) = false ->
  canon cA (drop i A) -> canon cB (drop j B) -> (i <= length A)%nat -> (j <= length B)%nat ->
  A !! i = Some (ay, sa) -> inStep i j aHad ->
  decides ay (drop i A) (drop j B) (containsLoop fuel i j aHad bHad).
Proof.
  intros Hr CA CB Li Lj E Hstep.
  assert (Eq : containsLoop fuel i j aHad bHad = Some (negb (Shape.hasRows j (encode B)))).
  { unfold containsLoop. destruct fuel; cbn [Shape.compareLoop]; rewrite Hr, returnIf_pass by done;
      by destruct (Shape.hasRows j (encode B)). }
  rewrite Eq. eexists. split; [done |]. destruct (Shape.hasRows j (encode B)) eqn:Ej.
  - rewrite andb_true_r in Hr. destruct (row_at _ _ Ej Lj) as (by_ & sb & by' & sb' & E1 & E2 & _).
    destruct (no_rows _ _ _ Hr Li CA) as [D | [y D]]; rewrite (drop_S _ _ _ E) in D; [done |].
    injection D as <- -> D'. rewrite (drop_S _ _ _ E), D'.
    pose proof (not_covered cB j ay by_ by' sb sb' CB E1 E2) as X.
    destruct (Hstep _ _ _ _ _ _ E E1 E2) as [L _]. simpl. split; [done | intros H; by destruct (X L)].
  - split; [intros _ | done]. intros x y _ Hx.
    destruct (no_rows _ _ _ Ej Lj CB) as [D | [y0 D]]; rewrite D in Hx; simpl in Hx; [done | by destruct (y0 <=? y)].
Qed.

Lemma hasRows_end (rows : list Row) (i : nat) : (length rows <= i)%nat -> (i <= length rows)%nat ->
  Shape.hasRows i (encode rows) = false.
Proof. intros L L'. rewrite hasRows_ok by done. apply Nat.leb_gt. lia. Qed.

Lemma subset_of_nil (b : list Z) : segsOk b -> subset [] b -> b = [].
Proof.
  intros Hs H. destruct (decide (b = [])) as [| Nb]; [done |]. exfalso.
  destruct (nonempty_inside b Hs Nb) as [x Hx]. by specialize (H x Hx).
Qed.

(** The end of a turn, when nothing has been found in the rows at hand. *)
Lemma next_contains (fuel i j : nat) (ay ay' by_ by' : Z) (sa sa' sb sb' : list Z) :
  containsFrom fuel -> atRows i j ay ay' by_ by' sa sb ->
  A !! i = Some (ay, sa) -> A !! S i = Some (ay', sa') ->
  B !! j = Some (by_, sb) -> B !! S j = Some (by', sb') -> ay < by' ->
  (length A - i + (length B - j) <= S fuel)%nat ->
  subset sa sb \/ ay' <= by_ ->
  let aHas := negb (Nat.eqb (length sa) 0) in
  let bHas := negb (Nat.eqb (length sb) 0) in
  decides ay (drop i A) (drop j B)
    (if ay' <? by' then containsLoop fuel (S i) j aHas bHas
     else if by' <? ay' then containsLoop fuel i (S j) aHas bHas
     else containsLoop fuel (S i) (S j) aHas bHas).
Proof.
  intros IH Hat E1 E2 E3 E4 Lab Hl Hs aHas bHas.
  destruct (covered_next _ _ _ _ _ _ _ _ Hat Hs) as (N1 & N2 & N3). unfold decides.
  pose proof (at_canon_a _ _ _ _ _ _ _ _ Hat) as CA'. pose proof (at_canon_b _ _ _ _ _ _ _ _ Hat) as CB'.
  pose proof (at_canon_cur_a _ _ _ _ _ _ _ _ Hat) as [cA CA]. pose proof (at_canon_cur_b _ _ _ _ _ _ _ _ Hat) as [cB CB].
  pose proof (at_a_lt _ _ _ _ _ _ _ _ Hat) as La. pose proof (at_b_lt _ _ _ _ _ _ _ _ Hat) as Lb.
  pose proof (lookup_lt_Some _ _ _ E2). pose proof (lookup_lt_Some _ _ _ E4).
  destruct (Z.ltb_spec ay' by') as [L | L]; [| destruct (Z.ltb_spec by' ay') as [L' | L']].
  - setoid_rewrite (N1 L). eapply IH; eauto; try lia. eapply inStep_a; eauto. intros L'.
    unfold aHas. destruct (Nat.eqb_spec (length sa) 0) as [Hz%nil_length_inv |]; [right | by left].
    subst sa. apply subset_of_nil; [apply Hat | destruct Hs; (done || lia)].
  - setoid_rewrite (N2 L'). eapply IH; eauto; try lia. eapply inStep_b; eauto; lia.
  - setoid_rewrite N3; [| lia]. eapply IH; eauto; try lia. eapply inStep_b; eauto; lia.
Qed.

Lemma compareLoop_contains (fuel : nat) : containsFrom fuel.
Proof.
  induction fuel as [| fuel IH]; intros i j cA cB ay sa aHad bHad CA CB Li Lj Hl E Hstep.
  { eapply loop_end_contains; eauto. by rewrite hasRows_end by lia. }
  destruct (Shape.hasRows i (encode A) && Shape.hasRows j (encode B)) eqn:Er; [| by eapply loop_end_contains; eauto].
  apply andb_true_iff in Er as [RA RB].
  destruct (at_rows cA cB i j RA RB Li Lj CA CB) as (ay0 & ay' & by_ & by' & sa0 & sa' & sb & sb' & E1 & E2 & E3 & E4 & Hat).
  rewrite E in E1. injection E1 as <- <-. unfold containsLoop.
  rewrite (compareLoop_turn _ fuel i j true aHad bHad ay ay' by_ by' sa sa' sb sb' E E2 E3 E4). cbv zeta.
  rewrite returnIf_pass by done. destruct (Hstep _ _ _ _ _ _ E E3 E4) as [Lab Hhad].
  replace ((by_ <? ay) && negb aHad && negb (Nat.eqb (length sb) 0)) with false.
  2:{ destruct (Z.ltb_spec by_ ay) as [L | L]; [| done]. destruct (Hhad L) as [-> | ->]; [done |]. by rewrite andb_false_r. }
  rewrite returnIf_false.
  pose proof (next_contains fuel i j ay ay' by_ by' sa sa' sb sb' IH Hat E E2 E3 E4 Lab Hl) as Hgo. cbv zeta in Hgo.
  destruct ((by' >? ay) && (by_ <? ay')) eqn:Eo.
  - rewrite andb_true_iff, Z.gtb_gt, Z.ltb_lt in Eo.
    destruct (compareSegments_contains (length sa + length sb) sa sb) as (r & Ec & Hr);
      [apply Hat | apply Hat | lia |].
    rewrite Ec. cbn [mbind option_bind].
    pose proof (covered_rows _ _ _ _ _ _ _ _ Hat ltac:(lia) ltac:(lia)) as Hcov.
    destruct r as [r | [[r a'] b']]; simpl in Hr; destruct Hr as [-> Hr].
    + exists false. split; [done |]. split; [done |]. intros H'. by destruct (Hr (Hcov H')).
    + rewrite returnIf_pass by done. destruct b' as [| z b'].
      * rewrite returnIf_false. apply Hgo. left. by apply Hr.
      * rewrite (returnIf_stop _ _ false) by done. exists false. split; [done |]. split; [done |].
        intros H'. exfalso. apply Hcov, Hr in H'. done.
  - apply Hgo. right. rewrite andb_false_iff, Z.gtb_ltb, !Z.ltb_ge in Eo. lia.
Qed.

(** *** Intersection *)

(** No pixel in common. *)
Definition separate (a b : list Row) : Prop :=
  forall x y, inside (rowAt [] a y) x = true -> inside (rowAt [] b y) x = true -> False.

Definition intersectsLoop (fuel i j : nat) (aHad bHad : bool) : option bool :=
  Shape.compareLoop Shape.CompareIntersectsOperation (encode A) (encode B) fuel false i j aHad bHad.

Definition tells (a b : list Row) (returned : option bool) : Prop :=
  exists r, returned = Some r /\ (r = false <-> separate a b).

Definition intersectsFrom (fuel : nat) : Prop :=
  forall i j cA cB aHad bHad,
  canon cA (drop i A) -> canon cB (drop j B) -> (i <= length A)%nat -> (j <= length B)%nat ->
  ((length A - i) + (length B - j) <= fuel)%nat ->
  tells (drop i A) (drop j B) (intersectsLoop fuel i j aHad bHad).

Lemma no_pixels (c : list Z) (rows : list Row) (i : nat) (x y : Z) :
  Shape.hasRows i (encode rows) = false -> (i <= length rows)%nat -> canon c (drop i rows) ->
  inside (rowAt [] (drop i rows) y) x = false.
Proof.
  intros H L C. destruct (no_rows _ _ _ H L C) as [-> | [y0 ->]]; [done |]. simpl. by destruct (y0 <=? y).
Qed.

Lemma loop_end_intersects (fuel i j : nat) (cA cB : list Z) (aHad bHad : bool) :
  Shape.hasRows i (encode A) && Shape.hasRows j (encode B) = false ->
  canon cA (drop i A) -> canon cB (drop j B) -> (i <= length A)%nat -> (j <= length B)%nat ->
  tells (drop i A) (drop j B) (intersectsLoop fuel i j aHad bHad).
Proof.
  intros Hr CA CB Li Lj. exists false. split.
  - unfold intersectsLoop. destruct fuel; cbn [Shape.compareLoop]; by rewrite Hr, !returnIf_pass by done.
  - split; [intros _ | done]. intros x y Hx Hy. apply andb_false_iff in Hr as [H | H].
    + by rewrite (no_pixels _ _ _ x y H Li CA) in Hx.
    + by rewrite (no_pixels _ _ _ x y H Lj CB) in Hy.
Qed.

Lemma separate_rows (i j : nat) (ay ay' by_ by' : Z) (sa sb : list Z) :
  atRows i j ay ay' by_ by' sa sb -> ay < by' -> by_ < ay' -> separate (drop i A) (drop j B) -> apart sa sb.
Proof.
  intros [] L1 L2 H x Hx Hy. apply (H x (Z.max ay by_)); [by rewrite at_a_in0 by lia | by rewrite at_b_in0 by lia].
Qed.

Lemma separate_next (i j : nat) (ay ay' by_ by' : Z) (sa sb : list Z) :
  atRows i j ay ay' by_ by' sa sb -> apart sa sb \/ ay' <= by_ \/ by' <= ay ->
  (ay' <= by' -> separate (drop i A) (drop j B) <-> separate (drop (S i) A) (drop j B)) /\
  (by' <= ay' -> separate (drop i A) (drop j B) <-> separate (drop i A) (drop (S j) B)) /\
  (ay' = by' -> separate (drop i A) (drop j B) <-> separate (drop (S i) A) (drop (S j) B)).
Proof.
  intros [] Hs.
  assert (Hnow : forall x y, y < ay' -> y < by' ->
    inside (rowAt [] (drop i A) y) x = true -> inside (rowAt [] (drop j B) y) x = true -> False).
  { intros x y La Lb. destruct (Z.lt_ge_cases y ay) as [L | L]; [by rewrite at_a_below0 |].
    destruct (Z.lt_ge_cases y by_) as [L' | L']; [by rewrite (at_b_below0 y) |].
    rewrite at_a_in0, at_b_in0 by lia. destruct Hs as [Hs | Hs]; [apply Hs | lia]. }
  split; [| split]; intros L; split; intros H x y Hx Hy.
  - destruct (Z.lt_ge_cases y ay') as [L' | L']; [by rewrite at_a_next0 in Hx |]. apply (H x y); [by rewrite at_a0 | done].
  - destruct (Z.lt_ge_cases y ay') as [L' | L']; [apply (Hnow x y); (done || lia) |].
    apply (H x y); [by rewrite <- at_a0 | done].
  - destruct (Z.lt_ge_cases y by') as [L' | L']; [by rewrite at_b_next0 in Hy |]. apply (H x y); [done | by rewrite at_b0].
  - destruct (Z.lt_ge_cases y by') as [L' | L']; [apply (Hnow x y); (done || lia) |].
    apply (H x y); [done | by rewrite <- at_b0].
  - destruct (Z.lt_ge_cases y by') as [L' | L']; [by rewrite at_b_next0 in Hy |].
    apply (H x y); [rewrite at_a0; [done | lia] | by rewrite at_b0].
  - destruct (Z.lt_ge_cases y by') as [L' | L']; [apply (Hnow x y); (done || lia) |].
    apply (H x y); [rewrite <- at_a0; [done | lia] | by rewrite <- at_b0].
Qed.

Lemma next_intersects (fuel i j : nat) (ay ay' by_ by' : Z) (sa sb : list Z) (aHas bHas : bool) :
  intersectsFrom fuel -> atRows i j ay ay' by_ by' sa sb ->
  (S i <= length A)%nat -> (S j <= length B)%nat ->
  (length A - i + (length B - j) <= S fuel)%nat ->
  apart sa sb \/ ay' <= by_ \/ by' <= ay ->
  tells (drop i A) (drop j B)
    (if ay' <? by' then intersectsLoop fuel (S i) j aHas bHas
     else if by' <? ay' then intersectsLoop fuel i (S j) aHas bHas
     else intersectsLoop fuel (S i) (S j) aHas bHas).
Proof.
  intros IH Hat Li Lj Hl Hs. destruct (separate_next _ _ _ _ _ _ _ _ Hat Hs) as (N1 & N2 & N3). unfold tells.
  pose proof (at_canon_a _ _ _ _ _ _ _ _ Hat) as CA'. pose proof (at_canon_b _ _ _ _ _ _ _ _ Hat) as CB'.
  destruct (at_canon_cur_a _ _ _ _ _ _ _ _ Hat) as [cA CA], (at_canon_cur_b _ _ _ _ _ _ _ _ Hat) as [cB CB].
  destruct (Z.ltb_spec ay' by') as [L | L]; [| destruct (Z.ltb_spec by' ay') as [L' | L']].
  - setoid_rewrite N1; [| lia]. eapply IH; eauto; lia.
  - setoid_rewrite N2; [| lia]. eapply IH; eauto; lia.
  - setoid_rewrite N3; [| lia]. eapply IH; eauto; lia.
Qed.

Lemma compareLoop_intersects (fuel : nat) : intersectsFrom fuel.
Proof.
  induction fuel as [| fuel IH]; intros i j cA cB aHad bHad CA CB Li Lj Hl.
  { eapply loop_end_intersects; eauto. by rewrite hasRows_end by lia. }
  destruct (Shape.hasRows i (encode A) && Shape.hasRows j (encode B)) eqn:Er; [| by eapply loop_end_intersects; eauto].
  apply andb_true_iff in Er as [RA RB].
  destruct (at_rows cA cB i j RA RB Li Lj CA CB) as (ay & ay' & by_ & by' & sa & sa' & sb & sb' & E1 & E2 & E3 & E4 & Hat).
  unfold intersectsLoop. rewrite (compareLoop_turn _ fuel i j false aHad bHad ay ay' by_ by' sa sa' sb sb' E1 E2 E3 E4).
  cbv zeta. rewrite !returnIf_pass by done.
  pose proof (lookup_lt_Some _ _ _ E2). pose proof (lookup_lt_Some _ _ _ E4).
  pose proof (next_intersects fuel i j ay ay' by_ by' sa sb (negb (Nat.eqb (length sa) 0)) (negb (Nat.eqb (length sb) 0))
    IH Hat ltac:(lia) ltac:(lia) Hl) as Hgo.
  destruct ((by' >? ay) && (by_ <? ay')) eqn:Eo.
  - rewrite andb_true_iff, Z.gtb_gt, Z.ltb_lt in Eo.
    destruct (compareSegments_intersects (length sa + length sb) sa sb) as (r & Ec & Hr);
      [apply Hat | apply Hat | lia |].
    rewrite Ec. cbn [mbind option_bind].
    destruct r as [r | [[r a'] b']]; simpl in Hr; destruct Hr as [-> Hr].
    + exists true. split; [done |]. split; [done |].
      intros H'. destruct Hr. eapply separate_rows; [exact Hat | lia | lia | exact H'].
    + rewrite !returnIf_pass by done. apply Hgo. by left.
  - apply Hgo. right. rewrite andb_false_iff, Z.gtb_ltb, !Z.ltb_ge in Eo. lia.
Qed.
End Loop.

(** ** The comparisons *)

Lemma cell_suffix (rows : list Row) (x y : Z) : cell rows x y = inside (rowAt [] (drop 0 rows) y) x.
Proof. by rewrite drop_0. Qed.

Theorem compareContains_ok (A B : list Row) (ay by_ : Z) (sa sb : list Z) (ra rb : list Row) :
  canon [] A -> canon [] B -> A = (ay, sa) :: ra -> B = (by_, sb) :: rb -> ay <= by_ ->
  exists r, Shape.compareShapes Shape.CompareContainsOperation (encode A) (encode B) = Some r /\
    (r = true <-> forall x y, cell B x y = true -> cell A x y = true).
Proof.
  intros CA CB EA EB L. unfold Shape.compareShapes. rewrite !encode_length.
  destruct (compareLoop_contains A B (canon_ended _ _ CA) (canon_ended _ _ CB) (length A + length B) 0%nat 0%nat
    [] [] ay sa false false) as (r & E & Hr); rewrite ?drop_0; try done; try lia; [by subst A | |].
  - intros ay0 sa0 b0 sb0 b1 sb1 X1 X2 X3. subst A B. simpl in X1, X2. injection X1 as <- <-. injection X2 as <- <-.
    pose proof (canon_increasing _ _ 0%nat 1%nat _ _ CB eq_refl X3 ltac:(lia)) as Lb. simpl in Lb. split; lia.
  - exists r. split; [exact E |]. rewrite Hr. unfold covered. setoid_rewrite <- cell_suffix.
    split; intros H x y; [| auto]. intros Hx. apply H; [| done].
    destruct (cell_range _ _ _ CB Hx) as ((r0 & Er & Lr) & _). subst B. simpl in Er. injection Er as <-. simpl in Lr. lia.
Qed.

Lemma compareContains_nothing (A : list Row) :
  Shape.compareShapes Shape.CompareContainsOperation (encode A) Shape.empty = Some true.
Proof.
  unfold Shape.compareShapes. rewrite encode_length. destruct A as [| r A]; [done |].
  unfold Shape.compareLoop. cbn [length Nat.add].
  replace (Shape.hasRows (Shape.spans_begin Shape.empty) Shape.empty) with false by done.
  rewrite andb_false_r. by rewrite returnIf_pass.
Qed.

Theorem compareIntersects_ok (A B : list Row) :
  canon [] A -> canon [] B ->
  exists r, Shape.compareShapes Shape.CompareIntersectsOperation (encode A) (encode B) = Some r /\
    (r = false <-> forall x y, cell A x y = true -> cell B x y = true -> False).
Proof.
  intros CA CB. unfold Shape.compareShapes. rewrite !encode_length.
  destruct (compareLoop_intersects A B (canon_ended _ _ CA) (canon_ended _ _ CB) (length A + length B) 0%nat 0%nat
    [] [] false false) as (r & E & Hr); rewrite ?drop_0; try done; try lia.
  exists r. split; [exact E |]. rewrite Hr. unfold separate. by setoid_rewrite <- cell_suffix.
Qed.
