(* ===== verification/RegionTheorems.v ===== *)
(** * What regions promise

    [wf] is the invariant of a region: its shape is in canonical form and its
    bounds are the least rectangle around its pixels.  Every operation keeps it
    and is the set operation of its name on pixels; the comparisons decide
    inclusion, intersection and equality; [rects] is a partition.  A region with an
    empty rectangle that is not at the origin is outside of the invariant; it may
    be an argument of every operation ([Operand]), but not the region changed by
    [unite], as the last examples show. *)

From S2P Require Import Prelude Geometry Region RegionSpec RegionShapes RegionCompare.

(** ** The invariant *)

Definition wf (r : Region) : Prop :=
  exists rows, canon [] rows /\ Region.m_shape r = encode rows /\ boxed (Region.m_bounds r) rows.

(** A region an operation may be given as its argument. *)
Definition Operand (r : Region) : Prop :=
  wf r \/ Region.isEmpty r = true /\ inBounds (Region.m_bounds r) = true.

Lemma encode_inj (rows1 rows2 : list Row) :
  canon [] rows1 -> canon [] rows2 -> encode rows1 = encode rows2 -> rows1 = rows2.
Proof.
  intros C1 C2 E. apply (rows_inj [] _ _ segsOk_nil C1 C2). intros x y.
  pose proof (containsLoop_ok rows1 x y (length rows1) 0 [] (canon_ended _ _ C1)) as X1.
  pose proof (containsLoop_ok rows2 x y (length rows2) 0 [] (canon_ended _ _ C2)) as X2.
  rewrite E in X1. rewrite !drop_0 in *.
  assert (El : length rows1 = length rows2).
  { rewrite <- (encode_length rows1), <- (encode_length rows2). by rewrite E. }
  specialize (X1 C1 ltac:(lia) ltac:(lia)). specialize (X2 C2 ltac:(lia) ltac:(lia)).
  rewrite El, X2 in X1. by injection X1.
Qed.

Lemma contains_empty (b : IntRect) (x y : Z) :
  inBounds b = true -> IntRect.isEmpty b = true -> IntRect.containsPoint x y b = false.
Proof.
  intros Hb He. apply not_true_iff_false. rewrite containsPoint_spec by done.
  apply isEmpty_spec in He. unfold inRect. lia.
Qed.

Lemma zero_no_point (x y : Z) : IntRect.containsPoint x y IntRect.zero = false.
Proof. by apply contains_empty. Qed.

Lemma boxed_inBounds (b : IntRect) (rows : list Row) : boxed b rows -> inBounds b = true.
Proof. destruct rows; simpl; [by intros -> | by intros [? _]]. Qed.

Lemma boxed_cell (b : IntRect) (rows : list Row) (x y : Z) :
  boxed b rows -> cell rows x y = true -> IntRect.containsPoint x y b = true.
Proof.
  intros Hb H. apply containsPoint_spec; [by eapply boxed_inBounds |].
  destruct rows; [done |]. destruct Hb as (_ & _ & Hb & _). by apply Hb.
Qed.

(** The code's look-up is the set of pixels. *)
Lemma lookup_ok (r : Region) (rows : list Row) (x y : Z) :
  canon [] rows -> Region.m_shape r = encode rows -> boxed (Region.m_bounds r) rows ->
  Region.containsPoint x y r = Some (cell rows x y).
Proof.
  intros Hc Hs Hb. unfold Region.containsPoint, Shape.spans_begin. rewrite Hs, encode_length.
  destruct (IntRect.containsPoint x y (Region.m_bounds r)) eqn:E; simpl.
  - rewrite (containsLoop_ok rows x y (length rows) 0 []); rewrite ?drop_0; try done; try lia.
    by eapply canon_ended.
  - destruct (cell rows x y) eqn:Ec; [| done]. by rewrite (boxed_cell _ _ _ _ Hb Ec) in E.
Qed.

Lemma boxed_empty (b : IntRect) (rows : list Row) : boxed b rows -> IntRect.isEmpty b = true <-> rows = [].
Proof.
  destruct rows; simpl.
  - by intros ->.
  - intros (_ & -> & _). done.
Qed.

(** The pixels of an operand. *)
Lemma operand_pixels (r : Region) (x y : Z) :
  Operand r -> exists rows, canon [] rows /\ Region.containsPoint x y r = Some (cell rows x y) /\
    (Region.isEmpty r = true <-> rows = []) /\ (Region.isEmpty r = false -> Region.m_shape r = encode rows /\ boxed (Region.m_bounds r) rows).
Proof.
  intros [(rows & Hc & Hs & Hb) | [He Hb]].
  - exists rows. split; [done |]. split; [by apply lookup_ok |]. split; [by apply boxed_empty | done].
  - exists []. split; [done |]. split; [| by rewrite He].
    unfold Region.containsPoint. by rewrite contains_empty.
Qed.

(** ** Construction *)

Lemma wf_empty : wf Region.empty.
Proof. by exists []. Qed.

Definition rectRows (r : IntRect) : list Row :=
  [(IntRect.y r, [IntRect.x r; IntRect.x r + IntRect.width r]); (IntRect.y r + IntRect.height r, [])].

Lemma rectRows_canon (r : IntRect) :
  inBounds r = true -> IntRect.isEmpty r = false -> canon [] (rectRows r).
Proof.
  intros Hb%inBounds_spec He%isEmpty_false. repeat split; try done; try (apply coordOk_spec; lia).
  - repeat constructor; lia.
  - repeat (constructor; [apply coordOk_spec; lia |]). constructor.
  - constructor; [simpl; lia | constructor].
  - constructor.
Qed.

Lemma rectRows_cell (r : IntRect) (x y : Z) :
  inBounds r = true -> IntRect.isEmpty r = false -> cell (rectRows r) x y = true <-> inRect r x y.
Proof.
  intros Hb He%isEmpty_false. unfold cell, rectRows, inRect. cbn [rowAt].
  destruct (Z.leb_spec (IntRect.y r) y); [| simpl; split; [done | lia]].
  destruct (Z.leb_spec (IntRect.y r + IntRect.height r) y); [simpl; split; [done | lia] |].
  rewrite inside_pair_iff by (constructor || lia). simpl. intuition (done || lia).
Qed.

Lemma ofRect_encode (r : IntRect) : inBounds r = true -> Shape.ofRect r = encode (rectRows r).
Proof.
  intros Hb. unfold Shape.ofRect, encode, rectRows. rewrite maxX_ok, maxY_ok by done. reflexivity.
Qed.

Lemma rect_boxed (r : IntRect) : inBounds r = true -> IntRect.isEmpty r = false -> boxed r (rectRows r).
Proof.
  intros Hb He. split; [done |]. split; [done |]. split.
  - intros x y. by apply rectRows_cell.
  - intros b Hbb Hin. apply containsRect_spec; [done.. |]. pose proof (proj1 (isEmpty_false r) He).
    assert (X1 : inRect b (IntRect.x r) (IntRect.y r)) by (apply Hin, rectRows_cell; [done.. |]; unfold inRect; lia).
    assert (X2 : inRect b (IntRect.x r + IntRect.width r - 1) (IntRect.y r + IntRect.height r - 1))
      by (apply Hin, rectRows_cell; [done.. |]; unfold inRect; lia).
    unfold inRect in *. lia.
Qed.

Lemma wf_ofRect (r : IntRect) : inBounds r = true -> IntRect.isEmpty r = false -> wf (Region.ofRect r).
Proof.
  intros Hb He. exists (rectRows r).
  split; [by apply rectRows_canon | split; [by apply ofRect_encode | by apply rect_boxed]].
Qed.
#[export] Hint Resolve wf_empty wf_ofRect : core.

(** A region that says it is a rectangle is its bounds. *)
Lemma isRect_ok (r : Region) (rows : list Row) (x y : Z) :
  canon [] rows -> Region.m_shape r = encode rows -> boxed (Region.m_bounds r) rows ->
  Region.isRect r = true -> cell rows x y = IntRect.containsPoint x y (Region.m_bounds r).
Proof.
  intros Hc Hs Hb Hr. unfold Region.isRect, Shape.isRect in Hr. rewrite Hs in Hr.
  cbn [encode Shape.m_spans Shape.m_segments] in Hr. rewrite spansFrom_length in Hr.
  apply andb_true_iff in Hr as [H1%Nat.leb_le H2%Nat.leb_le].
  destruct rows as [| [y0 s0] [| [y1 s1] [| ? ?]]]; [| | | simpl in H1; lia].
  - simpl in Hb. rewrite Hb. by rewrite zero_no_point.
  - destruct Hc as (Hn & _ & _ & _ & Hc). simpl in Hc. by subst.
  - pose proof Hc as (Hn & Hs0 & Hy0 & Hlt & Hn1 & _ & Hy1 & _ & Hc'). simpl in Hc'. subst s1.
    apply Forall_cons_1 in Hlt as [L _]. simpl in L.
    destruct (segs_cases _ Hs0) as [-> | (x0 & x1 & t & -> & Lx & _ & _)]; [done |].
    unfold segmentsIn in H2. simpl in H2. rewrite app_nil_r in H2. destruct t; [| simpl in H2; lia].
    set (q := IntRect.rect x0 y0 (x1 - x0) (y1 - y0)).
    destruct Hs0 as (_ & _ & [Hx0 [Hx1 _]%Forall_cons_1]%Forall_cons_1).
    rewrite coordOk_spec in Hx0, Hx1, Hy0, Hy1.
    assert (Eq : [(y0, [x0; x1]); (y1, [])] = rectRows q).
    { unfold rectRows, q. autorewrite with geometry. do 4 f_equal; lia. }
    assert (Hq : inBounds q = true) by (apply inBounds_spec; unfold q; autorewrite with geometry; lia).
    assert (Hqe : IntRect.isEmpty q = false) by (apply isEmpty_false; unfold q; autorewrite with geometry; lia).
    rewrite Eq in *. apply eq_true_iff_eq. pose proof (boxed_inBounds _ _ Hb) as Hbb.
    rewrite containsPoint_spec, rectRows_cell by done.
    destruct Hb as (_ & _ & Hin & Hleast).
    split; [intros H; by apply Hin, rectRows_cell |]. intros H.
    assert (X : IntRect.contains (Region.m_bounds r) q = true) by (apply Hleast; [done |]; intros; by apply rectRows_cell).
    apply containsRect_spec in X; [| done..]. unfold inRect in *. lia.
Qed.

(** ** The set operations *)

(** The pixels of [r'] are those [f] selects of [r1] and [r2]. *)
Definition combines (f : bool -> bool -> bool) (r1 r2 r' : Region) : Prop :=
  forall x y, exists b1 b2,
    Region.containsPoint x y r1 = Some b1 /\ Region.containsPoint x y r2 = Some b2 /\
    Region.containsPoint x y r' = Some (f b1 b2).

(** What the proofs know of a region and an argument. *)
Record operands (r region : Region) (A B : list Row) : Prop := {
  op_canon_a : canon [] A;
  op_canon_b : canon [] B;
  op_shape : Region.m_shape r = encode A;
  op_boxed : boxed (Region.m_bounds r) A;
  op_pixel_a : forall x y, Region.containsPoint x y r = Some (cell A x y);
  op_pixel_b : forall x y, Region.containsPoint x y region = Some (cell B x y);
  op_empty_b : Region.isEmpty region = true <-> B = [];
  op_shape_b : Region.isEmpty region = false ->
    Region.m_shape region = encode B /\ boxed (Region.m_bounds region) B;
  op_bounds_b : inBounds (Region.m_bounds region) = true }.

Lemma operands_ok (r region : Region) : wf r -> Operand region -> exists A B, operands r region A B.
Proof.
  intros (A & CA & SA & BA) Hop.
  destruct (operand_pixels region 0 0 Hop) as (B & CB & _ & HB & HB').
  exists A, B. split; try done.
  - intros x y. by apply lookup_ok.
  - intros x y. destruct (Region.isEmpty region) eqn:E.
    + assert (B = []) as -> by (by apply HB). destruct (operand_pixels region x y Hop) as (B' & _ & -> & H & _).
      rewrite E in H. assert (B' = []) as -> by (by apply H). done.
    + destruct HB' as [HS HBo]; [done |]. by apply lookup_ok.
  - destruct Hop as [(? & _ & _ & Hb) | [_ Hb]]; [by eapply boxed_inBounds | done].
Qed.

Lemma combines_rows (f : bool -> bool -> bool) (r region r' : Region) (A B C : list Row) :
  operands r region A B -> (forall x y, Region.containsPoint x y r' = Some (cell C x y)) ->
  (forall x y, cell C x y = f (cell A x y) (cell B x y)) -> combines f r region r'.
Proof.
  intros H HC Hf x y. exists (cell A x y), (cell B x y).
  split; [apply H | split; [apply H |]]. by rewrite HC, Hf.
Qed.

(** A shape computed from both, with its bounding rectangle. *)
Lemma computed_ok (op : Shape.Operation) (f : bool -> bool -> bool) (r region : Region) (A B : list Row) :
  OpOk op -> (forall b1 b2, opIn op b1 b2 = f b1 b2) -> operands r region A B ->
  Region.isEmpty region = false ->
  exists C, Shape.shapeOperation op (Region.m_shape r) (Region.m_shape region) = Some (encode C) /\ canon [] C /\
    (forall x y, cell C x y = f (cell A x y) (cell B x y)) /\
    forall b, boxed b C -> wf (Region.mk b (encode C)) /\ combines f r region (Region.mk b (encode C)).
Proof.
  intros Hop Hf H He. destruct (op_shape_b _ _ _ _ H He) as [Hs _].
  rewrite (op_shape _ _ _ _ H), Hs.
  destruct (shapeOperation_ok op A B Hop (op_canon_a _ _ _ _ H) (op_canon_b _ _ _ _ H)) as (C & E & HC & Hcell).
  assert (Hcell' : forall x y, cell C x y = f (cell A x y) (cell B x y)) by (intros; by rewrite Hcell, Hf).
  exists C. split; [done |]. split; [done |]. split; [done |]. intros b Hb. split; [by exists C |].
  eapply combines_rows; [exact H | | exact Hcell']. intros x y. by apply lookup_ok.
Qed.

(** Nothing in common when the bounds do not intersect. *)
Lemma bounds_apart (r region : Region) (A B : list Row) (x y : Z) :
  operands r region A B -> IntRect.intersects (Region.m_bounds region) (Region.m_bounds r) = false ->
  cell A x y = true -> cell B x y = false.
Proof.
  intros H Hi Ha. destruct (cell B x y) eqn:Hb; [| done].
  apply not_true_iff_false in Hi. exfalso. apply Hi, intersects_spec.
  - eapply boxed_inBounds, H.
  - apply H.
  - exists x, y. pose proof (op_boxed _ _ _ _ H) as BA. split.
    + apply containsPoint_spec; [by eapply boxed_inBounds | by eapply boxed_cell].
    + destruct (Region.isEmpty region) eqn:E; [apply (op_empty_b _ _ _ _ H) in E; by subst |].
      destruct (op_shape_b _ _ _ _ H E) as [_ BB].
      apply containsPoint_spec; [apply H | by eapply boxed_cell].
Qed.

(** [intersect] leaves the pixels that are in both regions, and keeps the
    invariant. *)
Theorem region_intersect (r region : Region) :
  wf r -> Operand region ->
  exists r', Region.intersect region r = Some r' /\ wf r' /\ combines andb r region r'.
Proof.
  intros Hw Ho. destruct (operands_ok r region Hw Ho) as (A & B & H). unfold Region.intersect.
  destruct (IntRect.isEmpty (Region.m_bounds r)) eqn:Ee.
  { apply (boxed_empty _ A) in Ee as ->; [| apply H]. exists r. split; [done |]. split; [done |].
    eapply combines_rows; [exact H | apply H | done]. }
  destruct (IntRect.intersects (Region.m_bounds region) (Region.m_bounds r)) eqn:Ei; simpl negb; cbv iota.
  - destruct (computed_ok Shape.IntersectOperation andb r region A B) as (C & E & HC & _ & Hres);
      [done | apply opIn_intersect | done | |].
    { destruct (Region.isEmpty region) eqn:E; [| done]. unfold IntRect.intersects in Ei.
      unfold Region.isEmpty in E. rewrite E, andb_false_r in Ei. done. }
    unfold Shape.intersectShapes. rewrite E. cbn [mbind option_bind].
    destruct (bounds_ok C HC) as (b & Eb & Hb). rewrite Eb. cbn [mbind option_bind].
    eexists. split; [done |]. by apply Hres.
  - exists (Region.mk IntRect.zero Shape.empty). split; [done |]. split; [apply wf_empty |].
    apply (combines_rows _ r region _ A B []); [done | |].
    + intros x y. by apply (lookup_ok Region.empty []).
    + intros x y. destruct (cell A x y) eqn:Ea; [| done]. by rewrite (bounds_apart r region A B x y).
Qed.

(** [subtract] removes the pixels of its argument, and keeps the invariant. *)
Theorem region_subtract (r region : Region) :
  wf r -> Operand region ->
  exists r', Region.subtract region r = Some r' /\ wf r' /\
    combines (fun b1 b2 => b1 && negb b2) r region r'.
Proof.
  intros Hw Ho. destruct (operands_ok r region Hw Ho) as (A & B & H). unfold Region.subtract.
  assert (Hsame : (forall x y, cell A x y = true -> cell B x y = false) ->
    exists r', Some r = Some r' /\ wf r' /\ combines (fun b1 b2 => b1 && negb b2) r region r').
  { intros Hn. exists r. split; [done |]. split; [done |].
    eapply combines_rows; [exact H | apply H |]. intros x y. specialize (Hn x y).
    destruct (cell A x y); [| done]. by rewrite Hn. }
  destruct (IntRect.isEmpty (Region.m_bounds r)) eqn:Ee.
  { apply (boxed_empty _ A) in Ee as ->; [| apply H]. by apply Hsame. }
  destruct (Region.isEmpty region) eqn:Er.
  { apply (op_empty_b _ _ _ _ H) in Er as ->. by apply Hsame. }
  destruct (IntRect.intersects (Region.m_bounds region) (Region.m_bounds r)) eqn:Ei; simpl negb; cbv iota.
  - destruct (computed_ok Shape.SubtractOperation (fun b1 b2 => b1 && negb b2) r region A B) as (C & E & HC & _ & Hres);
      [done | apply opIn_subtract | done | done |].
    unfold Shape.subtractShapes. rewrite E. cbn [mbind option_bind].
    destruct (bounds_ok C HC) as (b & Eb & Hb). rewrite Eb. cbn [mbind option_bind].
    eexists. split; [done |]. by apply Hres.
  - apply Hsame. intros x y Ha. by apply (bounds_apart r region A B x y).
Qed.

(** ** Inclusion and intersection *)

Lemma boxed_top (b : IntRect) (y0 : Z) (s0 : list Z) (rest : list Row) :
  canon [] ((y0, s0) :: rest) -> boxed b ((y0, s0) :: rest) -> IntRect.y b = y0.
Proof.
  intros Hc Hbx. destruct (topmost_cell _ _ _ Hc eq_refl) as [xt Hxt].
  pose proof (canon_head_coord _ _ _ _ Hc) as Hy. destruct Hbx as (Hb & He & Hin & Hleast).
  pose proof (Hin _ _ Hxt) as [_ Ht]. pose proof (proj1 (inBounds_spec b) Hb) as Hbs.
  set (q := IntRect.rect (IntRect.x b) y0 (IntRect.width b) (IntRect.y b + IntRect.height b - y0)).
  assert (Hq : inBounds q = true) by (apply inBounds_spec; unfold q; autorewrite with geometry; lia).
  assert (X : IntRect.contains b q = true).
  { apply Hleast; [done |]. intros x y Hxy. pose proof (Hin _ _ Hxy) as Hr.
    destruct (cell_range _ _ _ Hc Hxy) as ((r0 & Er & Lr) & _). injection Er as <-. simpl in Lr.
    unfold q, inRect in *. autorewrite with geometry. lia. }
  apply containsRect_spec in X; [| done..]. unfold q in X. autorewrite with geometry in X. lia.
Qed.

Lemma contains_rows (r region : Region) (A B : list Row) :
  operands r region A B -> Region.isEmpty region = false ->
  exists answer, Region.contains region r = Some answer /\
    (answer = true <-> forall x y, cell B x y = true -> cell A x y = true).
Proof.
  intros H He. destruct (op_shape_b _ _ _ _ H He) as [SB BB]. unfold Region.contains.
  pose proof (op_boxed _ _ _ _ H) as BA. pose proof (op_canon_a _ _ _ _ H) as CA. pose proof (op_canon_b _ _ _ _ H) as CB.
  pose proof (boxed_inBounds _ _ BA) as IA. pose proof (op_bounds_b _ _ _ _ H) as IB.
  destruct B as [| [by_ sb] rb]; [rewrite (proj2 (op_empty_b _ _ _ _ H) eq_refl) in He; done |].
  destruct (IntRect.contains (Region.m_bounds region) (Region.m_bounds r)) eqn:Ec; simpl negb; cbv iota.
  - rewrite (op_shape _ _ _ _ H), SB. apply containsRect_spec in Ec; [| done..].
    unfold Region.isEmpty in He. apply isEmpty_false in He.
    destruct A as [| [ay sa] ra]; [simpl in BA; rewrite BA in Ec; unfold IntRect.x, IntRect.width, IntRect.zero in *; simpl in *; lia |].
    pose proof (boxed_top _ _ _ _ CA BA). pose proof (boxed_top _ _ _ _ CB BB).
    eapply compareContains_ok; try done. lia.
  - exists false. split; [done |]. split; [done |]. intros Hsub. exfalso. apply not_true_iff_false in Ec. apply Ec.
    destruct BB as (_ & _ & _ & Hleast). apply Hleast; [done |]. intros x y Hxy.
    apply containsPoint_spec; [done |]. apply (boxed_cell _ A); [done |]. by apply Hsub.
Qed.

(** [contains] decides whether a region that is not empty is a subset. *)
Theorem region_contains (r region : Region) :
  wf r -> Operand region -> Region.isEmpty region = false ->
  exists answer, Region.contains region r = Some answer /\
    (answer = true <->
     forall x y, Region.containsPoint x y region = Some true -> Region.containsPoint x y r = Some true).
Proof.
  intros Hw Ho He. destruct (operands_ok r region Hw Ho) as (A & B & H).
  destruct (contains_rows r region A B H He) as (answer & E & Ha). exists answer. split; [done |]. rewrite Ha.
  setoid_rewrite (op_pixel_a _ _ _ _ H). setoid_rewrite (op_pixel_b _ _ _ _ H).
  split; intros X x y Hx; [injection Hx as Hx; by rewrite X |].
  specialize (X x y ltac:(by rewrite Hx)). by injection X.
Qed.

(** [intersects] answers false exactly when the regions have no pixel in common. *)
Theorem region_intersects (r region : Region) :
  wf r -> Operand region ->
  exists answer, Region.intersects region r = Some answer /\
    (answer = false <->
     forall x y, Region.containsPoint x y r = Some true -> Region.containsPoint x y region = Some true -> False).
Proof.
  intros Hw Ho. destruct (operands_ok r region Hw Ho) as (A & B & H).
  setoid_rewrite (op_pixel_a _ _ _ _ H). setoid_rewrite (op_pixel_b _ _ _ _ H). unfold Region.intersects.
  destruct (IntRect.intersects (Region.m_bounds region) (Region.m_bounds r)) eqn:Ei; simpl negb; cbv iota.
  - assert (Er : Region.isEmpty region = false).
    { destruct (Region.isEmpty region) eqn:E; [| done]. unfold IntRect.intersects in Ei.
      unfold Region.isEmpty in E. by rewrite E, andb_false_r in Ei. }
    destruct (op_shape_b _ _ _ _ H Er) as [SB _]. rewrite (op_shape _ _ _ _ H), SB.
    destruct (compareIntersects_ok A B) as (answer & E & Ha); [apply H | apply H |].
    exists answer. split; [done |]. rewrite Ha.
    split; intros X x y; [intros [= Hx] [= Hy]; by apply (X x y) | intros Hx Hy; by apply (X x y); rewrite ?Hx, ?Hy].
  - exists false. split; [done |]. split; [intros _ | done]. intros x y [= Hx] [= Hy].
    by rewrite (bounds_apart r region A B x y) in Hy.
Qed.

(** ** Union *)

Lemma contains_trans (a b c : IntRect) (x y : Z) :
  inBounds b = true -> inBounds a = true -> IntRect.contains a b = true ->
  IntRect.containsPoint x y a = true -> IntRect.containsPoint x y b = true.
Proof.
  intros Hb Ha. rewrite containsRect_spec, !containsPoint_spec by done. unfold inRect. lia.
Qed.

Lemma boxed_unite (a b : IntRect) (A B C : list Row) :
  boxed a A -> boxed b B -> B <> [] -> (forall x y, cell C x y = cell A x y || cell B x y) -> C <> [] ->
  boxed (IntRect.unite b a) C.
Proof.
  intros HA HB Hn Hc Hne. pose proof (boxed_inBounds _ _ HA) as Ia. pose proof (boxed_inBounds _ _ HB) as Ib.
  destruct B as [| rb B]; [done |]. destruct HB as (_ & Eb & Hinb & Hlb).
  destruct C as [| rc C]; [done |]. set (C' := rc :: C) in *. set (B' := rb :: B) in *.
  destruct A as [| ra A].
  - assert (IntRect.unite b a = b) as ->.
    { simpl in HA. subst a. unfold IntRect.unite. by rewrite Eb. }
    split; [done |]. split; [done |]. split.
    + intros x y Hxy. rewrite Hc in Hxy. by apply Hinb.
    + intros q Hq Hin. apply Hlb; [done |]. intros x y Hxy. apply Hin. by rewrite Hc, Hxy.
  - destruct HA as (_ & Ea & Hina & Hla). set (A' := ra :: A) in *.
    destruct (unite_spec a b Ia Ib Ea Eb) as (Iu & Eu & Cu1 & Cu2 & Hleast).
    split; [done |]. split; [done |]. split.
    + intros x y Hxy. rewrite Hc in Hxy. apply containsPoint_spec; [done |].
      apply orb_true_iff in Hxy as [Hxy | Hxy]; [apply (contains_trans a _ a) | apply (contains_trans b _ b)];
        try done; apply containsPoint_spec; auto.
    + intros q Hq Hin. apply Hleast; [done | |]; [apply Hla | apply Hlb]; try done;
        intros x y Hxy; apply Hin; rewrite Hc, Hxy; [done | apply orb_true_r].
Qed.

(** [unite] adds the pixels of its argument, and keeps the invariant. *)
Theorem region_unite (r region : Region) :
  wf r -> Operand region ->
  exists r', Region.unite region r = Some r' /\ wf r' /\ combines orb r region r'.
Proof.
  intros Hw Ho. destruct (operands_ok r region Hw Ho) as (A & B & H). unfold Region.unite.
  assert (Hsame : (forall x y, cell B x y = true -> cell A x y = true) ->
    exists r', Some r = Some r' /\ wf r' /\ combines orb r region r').
  { intros Hn. exists r. split; [done |]. split; [done |]. eapply combines_rows; [exact H | apply H |].
    intros x y. specialize (Hn x y). destruct (cell B x y); [by rewrite Hn | by rewrite orb_false_r]. }
  destruct (Region.isEmpty region) eqn:Er.
  { apply (op_empty_b _ _ _ _ H) in Er as ->. by apply Hsame. }
  destruct (op_shape_b _ _ _ _ H Er) as [SB BB]. pose proof (op_boxed _ _ _ _ H) as BA.
  pose proof (boxed_inBounds _ _ BA) as IA. pose proof (boxed_inBounds _ _ BB) as IB.
  destruct (Region.isRect r && IntRect.contains (Region.m_bounds region) (Region.m_bounds r)) eqn:E1.
  { apply andb_true_iff in E1 as [Hr Hc]. apply Hsame. intros x y Hxy.
    rewrite (isRect_ok r A x y); [| apply H | apply H | done | done].
    apply (contains_trans _ _ (Region.m_bounds r) x y IA IB Hc). by apply (boxed_cell _ B). }
  destruct (Region.isRect region && IntRect.contains (Region.m_bounds r) (Region.m_bounds region)) eqn:E2.
  { apply andb_true_iff in E2 as [Hr Hc]. exists (Region.mk (Region.m_bounds region) (Region.m_shape region)).
    split; [done |]. split; [by exists B; split; [apply H |] |].
    apply (combines_rows _ r region _ A B B H); [intros x y; apply lookup_ok; [apply H | done | done] |].
    intros x y. destruct (cell A x y) eqn:Ha; [| done].
    rewrite (isRect_ok region B x y); [| apply H | done | done | done].
    apply (contains_trans _ _ (Region.m_bounds r) x y IB IA Hc). by apply (boxed_cell _ A). }
  assert (Hc : exists covered, (if negb (Region.isRect r) then Region.contains region r else Some false) = Some covered /\
    (covered = true -> forall x y, cell B x y = true -> cell A x y = true)).
  { destruct (negb (Region.isRect r)); [| by exists false].
    destruct (contains_rows r region A B H Er) as (answer & E & Ha). exists answer. split; [done | apply Ha]. }
  destruct Hc as (covered & -> & Hcov). cbn [mbind option_bind]. destruct covered; [by apply Hsame, Hcov |].
  destruct (computed_ok Shape.UnionOperation orb r region A B) as (C & E & HC & Hcell & Hres);
    [done | apply opIn_union | done | done |].
  unfold Shape.unionShapes. rewrite E. cbn [mbind option_bind]. eexists. split; [done |]. apply Hres.
  assert (Hn : B <> []) by (intros ->; by rewrite (proj2 (op_empty_b _ _ _ _ H) eq_refl) in Er).
  apply boxed_unite with A B; try done. intros ->. destruct B as [| [yb sb] rb]; [done |].
  destruct (topmost_cell _ _ _ (op_canon_b _ _ _ _ H) eq_refl) as [x Hx].
  specialize (Hcell x yb). rewrite Hx, orb_true_r in Hcell. done.
Qed.

(** ** Equality *)

Lemma boxed_unique (b b' : IntRect) (rows : list Row) : boxed b rows -> boxed b' rows -> b = b'.
Proof.
  destruct rows as [| r rest]; [by intros -> -> |].
  intros (Hb & He & Hin & Hl) (Hb' & He' & Hin' & Hl').
  pose proof (Hl b' Hb' Hin') as X. pose proof (Hl' b Hb Hin) as X'.
  apply containsRect_spec in X, X'; [| done..].
  destruct b as [[x y] [w h]], b' as [[x' y'] [w' h']].
  unfold IntRect.x, IntRect.y, IntRect.width, IntRect.height in *. simpl in *. repeat f_equal; lia.
Qed.

(** Regions are equal, as the member-wise operator== compares them, exactly when
    they have the same pixels: the form shapes are kept in is canonical. *)
Theorem region_equality (r1 r2 : Region) :
  wf r1 -> wf r2 ->
  r1 = r2 <-> forall x y, Region.containsPoint x y r1 = Region.containsPoint x y r2.
Proof.
  intros (A & CA & SA & BA) (B & CB & SB & BB). split; [by intros -> |]. intros H.
  assert (A = B) as <-.
  { apply (rows_inj [] _ _ segsOk_nil CA CB). intros x y. specialize (H x y).
    rewrite (lookup_ok r1 A), (lookup_ok r2 B) in H by done. by injection H. }
  destruct r1 as [b1 s1], r2 as [b2 s2]. simpl in *. subst. by rewrite (boxed_unique _ _ _ BA BB).
Qed.

(** ** The rectangles of a region *)

(** How many of the rectangles a pixel is in. *)
Definition covering (x y : Z) (rects : list IntRect) : nat :=
  length (filter (fun q => IntRect.containsPoint x y q = true) rects).

Lemma covering_app (x y : Z) (l1 l2 : list IntRect) :
  covering x y (l1 ++ l2) = (covering x y l1 + covering x y l2)%nat.
Proof. unfold covering. by rewrite list.filter_app, length_app. Qed.

Definition okRect (q : IntRect) : Prop := inBounds q = true /\ IntRect.isEmpty q = false.

Definition areas (rects : list IntRect) : Z :=
  foldr (fun q total => IntRect.width q * IntRect.height q + total) 0 rects.

Lemma rowRects_ok (y y' : Z) (s : list Z) :
  - 2 ^ 30 <= y < 2 ^ 30 -> - 2 ^ 30 <= y' < 2 ^ 30 -> y < y' -> segsOk s ->
  Forall okRect (Region.rowRects y (y' - y) s) /\
  forall px py, covering px py (Region.rowRects y (y' - y) s)
    = if (y <=? py) && (py <? y') && inside s px then 1%nat else 0%nat.
Proof.
  intros Hy Hy' L Hs. pose proof Hs as (_ & _ & Hf). revert s Hs Hf.
  apply (segments_ind (fun s => Forall _ s -> _)).
  { intros _. split; [constructor |]. intros px py. by rewrite andb_false_r. }
  intros x x' s Lx Hlt _ IH [Hx%coordOk_spec [Hx'%coordOk_spec Hf]%Forall_cons_1]%Forall_cons_1.
  destruct (IH Hf) as [Hok Hcov]. cbn [Region.rowRects]. rewrite int32_id by (unfold INT_MIN, INT_MAX; lia).
  set (q := IntRect.rect x y (x' - x) (y' - y)).
  assert (Hq : okRect q).
  { split; [apply inBounds_spec | apply isEmpty_false]; unfold q; autorewrite with geometry; lia. }
  split; [by constructor |]. intros px py. specialize (Hcov px py). rewrite inside_pair by done.
  unfold covering in *. rewrite list.filter_cons.
  assert (Eq : IntRect.containsPoint px py q = (x <=? px) && (px <? x') && ((y <=? py) && (py <? y'))).
  { apply eq_true_iff_eq. rewrite containsPoint_spec by apply Hq. unfold inRect, q. autorewrite with geometry.
    rewrite !andb_true_iff, !Z.leb_le, !Z.ltb_lt. lia. }
  case_decide as E; rewrite Eq in E; cbn [length]; rewrite Hcov.
  - apply andb_true_iff in E as [Ex ->]. rewrite Ex. simpl.
    apply andb_true_iff in Ex as [_ Ex%Z.ltb_lt].
    rewrite inside_below; [done |]. eapply list.Forall_impl; [exact Hlt | simpl; lia].
  - apply not_true_iff_false in E. by destruct ((x <=? px) && (px <? x')), ((y <=? py) && (py <? y')).
Qed.

Lemma rectsLoop_ok (rows : list Row) (count i : nat) (c : list Z) :
  ended rows -> canon c (drop i rows) -> (i <= length rows)%nat -> (length rows - i <= count)%nat ->
  exists rects, Region.rectsLoop (encode rows) i count = Some rects /\ Forall okRect rects /\
    forall x y, covering x y rects = if inside (rowAt [] (drop i rows) y) x then 1%nat else 0%nat.
Proof.
  intros He. revert i c. induction count as [| count IH]; intros i c Hc Hi Hl.
  { exists []. by rewrite drop_ge by lia. }
  cbn [Region.rectsLoop]. destruct (Shape.hasRows i (encode rows)) eqn:Eh.
  - destruct (row_at _ _ Eh Hi) as (y & s & y' & s' & E & E' & D).
    rewrite (spanY_ok _ _ _ _ E), (spanY_ok _ _ _ _ E'), (segmentsOf_ok _ _ _ _ He E). cbn [mbind option_bind].
    pose proof (lookup_lt_Some _ _ _ E'). pose proof (drop_S _ _ _ E') as D'.
    pose proof (canon_head_coord _ _ _ _ ltac:(rewrite <- D; exact Hc)) as Hy.
    destruct (rows_facts _ _ _ _ _ _ _ D Hc) as (Hn & Hin & Hbelow & Hnb & Hs & Hc' & L).
    pose proof (canon_head_coord _ _ _ _ Hc') as Hy'. rewrite <- D' in Hc'.
    destruct (IH (S i) s Hc' ltac:(lia) ltac:(lia)) as (rest & Er & Hok & Hcov). rewrite Er. cbn [mbind option_bind].
    rewrite int32_id by (unfold INT_MIN, INT_MAX; lia).
    destruct (rowRects_ok y y' s Hy Hy' L Hs) as [Hok' Hcov'].
    eexists. split; [done |]. split; [by apply Forall_app |]. intros px py.
    rewrite covering_app, Hcov, Hcov'. rewrite D' in *.
    destruct (Z.leb_spec y py), (Z.ltb_spec py y'); cbn [andb].
    + rewrite Hin, Hnb by lia. by destruct (inside s px).
    + rewrite Hn by lia. done.
    + rewrite Hbelow, Hnb by lia. done.
    + lia.
  - exists []. split; [done |]. split; [done |]. intros x y.
    by rewrite (no_pixels _ _ _ x y Eh Hi Hc).
Qed.

(** [rects] is a partition of the region: no rectangle is empty, and a pixel is in
    exactly one of them if it belongs to the region, and in none if not. *)
Theorem region_rects (r : Region) :
  wf r ->
  exists rects, Region.rects r = Some rects /\
    Forall (fun q => IntRect.isEmpty q = false /\ inBounds q = true) rects /\
    forall x y, exists b, Region.containsPoint x y r = Some b /\
      covering x y rects = if b then 1%nat else 0%nat.
Proof.
  intros (A & CA & SA & BA). unfold Region.rects, Shape.spans_begin. rewrite SA, encode_length.
  destruct (rectsLoop_ok A (length A) 0 [] (canon_ended _ _ CA)) as (rects & E & Hok & Hcov);
    rewrite ?drop_0; try done; try lia.
  exists rects. split; [done |]. split; [eapply list.Forall_impl; [exact Hok |]; by intros q [? ?] |].
  intros x y. exists (cell A x y). split; [by apply lookup_ok |]. rewrite Hcov, drop_0. done.
Qed.

(** [totalArea] is the sum of the areas of the rectangles modulo 2^32, although it
    multiplies signed integers: the product's overflow does not show in the sum. *)
Theorem region_area (r : Region) :
  wf r ->
  exists rects, Region.rects r = Some rects /\ Region.totalArea r = Some (areas rects mod 2 ^ 32).
Proof.
  intros (A & CA & SA & BA). unfold Region.totalArea, Region.rects, Shape.spans_begin. rewrite SA, encode_length.
  destruct (rectsLoop_ok A (length A) 0 [] (canon_ended _ _ CA)) as (rects & E & _);
    rewrite ?drop_0; try done; try lia.
  exists rects. rewrite E. split; [done |]. cbn [mbind option_bind]. f_equal.
  assert (H : forall l t, 0 <= t < 2 ^ 32 ->
    fold_left (fun total q => (total + int32 (IntRect.width q * IntRect.height q)) mod 2 ^ 32) l t
    = (t + areas l) mod 2 ^ 32).
  { induction l as [| q l IH]; intros t Ht; cbn [fold_left areas foldr].
    - by rewrite Z.add_0_r, Z.mod_small.
    - rewrite IH by (apply Z.mod_pos_bound; lia). fold (areas l).
      unfold int32. set (m := IntRect.width q * IntRect.height q).
      rewrite Zplus_mod_idemp_l.
      replace (t + ((m + 2 ^ 31) mod 2 ^ 32 - 2 ^ 31) + areas l)
        with ((t + areas l - 2 ^ 31) + (m + 2 ^ 31) mod 2 ^ 32) by lia.
      rewrite Zplus_mod_idemp_r. f_equal. lia. }
  by rewrite H by lia.
Qed.

(** ** Translation *)

Section Shift.
Context (dx dy : Z).

Definition shiftSegments (s : list Z) : list Z := (fun x => x + dx) <$> s.
Definition shiftRow (row : Row) : Row := (row.1 + dy, shiftSegments row.2).
Definition shiftRows (rows : list Row) : list Row := shiftRow <$> rows.

Lemma inside_shift (s : list Z) (x : Z) : inside (shiftSegments s) (x + dx) = inside s x.
Proof.
  induction s as [| z s IH]; [done |]. simpl. rewrite IH. f_equal.
  destruct (Z.leb_spec z x), (Z.leb_spec (z + dx) (x + dx)); (done || lia).
Qed.

Lemma cell_shift (rows : list Row) (x y : Z) : cell (shiftRows rows) (x + dx) (y + dy) = cell rows x y.
Proof.
  unfold cell.
  assert (H : forall c, rowAt (shiftSegments c) (shiftRows rows) (y + dy) = shiftSegments (rowAt c rows y)).
  { induction rows as [| [y0 s] rest IH]; intros c; [done |]. cbn [shiftRows fmap list_fmap shiftRow rowAt fst snd].
    replace (y0 + dy <=? y + dy) with (y0 <=? y)
      by (destruct (Z.leb_spec y0 y), (Z.leb_spec (y0 + dy) (y + dy)); (done || lia)).
    destruct (y0 <=? y); [apply IH | done]. }
  change [] with (shiftSegments []) at 1. by rewrite H, inside_shift.
Qed.

Lemma canon_shift (c : list Z) (rows : list Row) :
  canon c rows ->
  Forall (fun row => coordOk (row.1 + dy) = true /\ Forall (fun x => coordOk (x + dx) = true) row.2) rows ->
  canon (shiftSegments c) (shiftRows rows).
Proof.
  revert c. induction rows as [| [y s] rest IH]; intros c Hc Hf; [simpl in Hc; by subst |].
  destruct Hc as (Hn & (Ha & Ho & _) & _ & Hlt & Hc). apply Forall_cons_1 in Hf as [[Hy Hx] Hf]. simpl in Hy, Hx.
  assert (Hs : segsOk (shiftSegments s)).
  { split; [| split].
    - clear - Ha. induction s as [| z s IH]; [constructor |]. apply ascending_inv in Ha as [Ha Hz].
      constructor; [by apply IH |]. apply Forall_fmap. eapply list.Forall_impl; [exact Hz | simpl; lia].
    - unfold shiftSegments. by rewrite length_fmap.
    - by apply Forall_fmap. }
  split; [| split; [done | split; [done | split; [| by apply IH]]]].
  - intros E. apply Hn. by apply (list_fmap_eq_inj (fun x => x + dx)) in E; [| intros ? ? ?; lia].
  - apply Forall_fmap. eapply list.Forall_impl; [exact Hlt | simpl; lia].
Qed.
End Shift.

(** The coordinates of a shape are within its bounds. *)
Lemma boxed_coords (b : IntRect) (rows : list Row) :
  canon [] rows -> boxed b rows -> rows <> [] ->
  (forall z, z ∈ segmentsIn rows -> IntRect.x b <= z <= IntRect.x b + IntRect.width b) /\
  forall i row, rows !! i = Some row -> IntRect.y b <= row.1 <= IntRect.y b + IntRect.height b.
Proof.
  intros Hc Hb Hne.
  destruct (bounds_found _ Hc Hne) as (y0 & s0 & y2 & mn & mx & E0 & E2 & L & [xb Hxb] & _ & Hmn & Hmx & Hall).
  destruct (leftmost_cell rows mn Hc Hmn) as [yl Hl]; [intros z Hz; by apply Hall |].
  destruct (rightmost_cell rows mx Hc Hmx) as [yr Hr]; [intros z Hz; by apply Hall |].
  destruct (topmost_cell _ _ _ Hc E0) as [xt Hxt].
  assert (Hin : forall x y, cell rows x y = true -> inRect b x y) by (destruct rows; [done |]; apply Hb).
  apply Hin in Hl, Hr, Hxt, Hxb. unfold inRect in *. split.
  - intros z Hz. specialize (Hall z Hz). lia.
  - intros i row E. pose proof (lookup_lt_Some _ _ _ E).
    assert (y0 <= row.1).
    { destruct (Nat.eq_dec i 0%nat) as [-> |]; [simplify_eq; simpl; lia |].
      pose proof (canon_increasing _ _ 0%nat i _ _ Hc E0 E ltac:(lia)). simpl in *. lia. }
    assert (row.1 <= y2).
    { destruct (Nat.eq_dec i (Nat.pred (length rows))) as [-> |]; [simplify_eq; simpl; lia |].
      pose proof (canon_increasing _ _ i _ _ _ Hc E E2 ltac:(lia)). simpl in *. lia. }
    lia.
Qed.

Lemma shift_encode (offset : IntSize) (rows : list Row) :
  let dx := IntSize.m_width offset in
  let dy := IntSize.m_height offset in
  (forall z, z ∈ segmentsIn rows -> INT_MIN <= z + dx <= INT_MAX) ->
  (forall i row, rows !! i = Some row -> INT_MIN <= row.1 + dy <= INT_MAX) ->
  Shape.translate offset (encode rows) = encode (shiftRows dx dy rows).
Proof.
  intros dx dy Hx Hy. unfold Shape.translate, encode. f_equal; simpl.
  - fold dx. unfold segmentsIn, shiftRows, shiftRow. rewrite <- list_fmap_compose.
    transitivity ((fun x => x + dx) <$> concat (snd <$> rows)).
    + apply list_fmap_ext. intros i z E. apply int32_id, Hx. by eapply list_elem_of_lookup_2.
    + clear. induction rows as [| [y s] rest IH]; [done |]. cbn. rewrite fmap_app. f_equal. apply IH.
  - fold dy. generalize 0%nat. clear Hx. induction rows as [| [y s] rest IH]; intros k; [done |].
    cbn. f_equal.
    + f_equal. apply int32_id, (Hy 0%nat (y, s) eq_refl).
    + unfold shiftSegments. rewrite length_fmap. apply IH. intros i row E. by apply (Hy (S i)).
Qed.

Definition shiftRect (dx dy : Z) (b : IntRect) : IntRect :=
  IntRect.rect (IntRect.x b + dx) (IntRect.y b + dy) (IntRect.width b) (IntRect.height b).

Lemma inRect_shift (dx dy : Z) (b : IntRect) (x y : Z) :
  inRect (shiftRect dx dy b) (x + dx) (y + dy) <-> inRect b x y.
Proof. unfold inRect, shiftRect. autorewrite with geometry. lia. Qed.

(** A rectangle that is not empty is within another if all its pixels are. *)
Lemma contains_pixels (a b : IntRect) :
  inBounds a = true -> inBounds b = true -> IntRect.isEmpty a = false ->
  IntRect.contains a b = true <-> forall x y, inRect a x y -> inRect b x y.
Proof.
  intros Ia Ib Ea%isEmpty_false. rewrite containsRect_spec by done. split.
  - intros H x y. unfold inRect. lia.
  - intros H.
    pose proof (H (IntRect.x a) (IntRect.y a) ltac:(unfold inRect; lia)).
    pose proof (H (IntRect.x a + IntRect.width a - 1) (IntRect.y a + IntRect.height a - 1) ltac:(unfold inRect; lia)).
    unfold inRect in *. lia.
Qed.

Lemma inRect_unshift (dx dy : Z) (b : IntRect) (x y : Z) :
  inRect (shiftRect dx dy b) x y <-> inRect b (x - dx) (y - dy).
Proof. unfold inRect, shiftRect. autorewrite with geometry. lia. Qed.

Lemma boxed_shift (dx dy : Z) (b : IntRect) (rows : list Row) :
  canon [] rows -> rows <> [] -> inBounds (shiftRect dx dy b) = true -> boxed b rows ->
  boxed (shiftRect dx dy b) (shiftRows dx dy rows).
Proof.
  intros Hc Hne Hib Hb. destruct rows as [| [y0 s0] rest]; [done |].
  destruct (topmost_cell _ _ _ Hc eq_refl) as [x0 Hx0]. destruct Hb as (Ib & Eb & Hin & Hleast).
  set (rows := (y0, s0) :: rest) in *. set (b' := shiftRect dx dy b) in *.
  assert (Hcell : forall x y, cell (shiftRows dx dy rows) x y = cell rows (x - dx) (y - dy)).
  { intros x y. rewrite <- (cell_shift dx dy rows (x - dx) (y - dy)). f_equal; lia. }
  assert (Hin' : forall x y, cell (shiftRows dx dy rows) x y = true -> inRect b' x y).
  { intros x y H. rewrite Hcell in H. by apply inRect_unshift, Hin. }
  split; [done |]. split; [exact Eb |]. split; [exact Hin' |]. intros q Hq Hqin.
  destruct (intersect_spec b' q Hib Hq) as [Hi Hspec]. set (p := IntRect.intersect q b') in *.
  assert (Hp0 : inRect p (x0 + dx) (y0 + dy)) by (apply Hspec; split; [apply Hin' | apply Hqin]; by rewrite cell_shift).
  assert (Ep : IntRect.isEmpty p = false) by (apply isEmpty_false; unfold inRect in Hp0; lia).
  assert (Hpb : IntRect.contains p b' = true) by (apply contains_pixels; [done.. |]; intros x y H; apply Hspec in H; apply H).
  set (p' := shiftRect (- dx) (- dy) p).
  assert (Ip' : inBounds p' = true).
  { apply containsRect_spec in Hpb; [| done..]. apply inBounds_spec. apply inBounds_spec in Ib.
    unfold p', b', shiftRect in *. autorewrite with geometry in *. apply isEmpty_false in Ep, Eb. lia. }
  assert (Hbp : IntRect.contains b p' = true).
  { apply Hleast; [done |]. intros x y H. apply inRect_unshift, Hspec.
    replace (x - - dx) with (x + dx) by lia. replace (y - - dy) with (y + dy) by lia.
    split; [apply Hin' | apply Hqin]; by rewrite cell_shift. }
  apply contains_pixels; [done | done | done |]. intros x y H. apply inRect_unshift in H.
  rewrite contains_pixels in Hbp by done. apply Hbp, inRect_unshift, Hspec in H as [_ H].
  replace (x - dx - - dx) with x in H by lia. replace (y - dy - - dy) with y in H by lia. done.
Qed.

(** [translate] moves the pixels, as long as the region stays among the
    coordinates, and keeps the invariant. *)
Theorem region_translate (r : Region) (offset : IntSize) :
  let dx := IntSize.m_width offset in
  let dy := IntSize.m_height offset in
  wf r -> Region.isEmpty r = false -> inBounds (shiftRect dx dy (Region.m_bounds r)) = true ->
  wf (Region.translate offset r) /\
  forall x y, Region.containsPoint (x + dx) (y + dy) (Region.translate offset r) = Region.containsPoint x y r.
Proof.
  intros dx dy (rows & Hc & Hs & Hb) He Hib. pose proof (boxed_inBounds _ _ Hb) as Ib.
  assert (Hne : rows <> []) by (intros ->; simpl in Hb; unfold Region.isEmpty in He; by rewrite Hb in He).
  destruct (boxed_coords _ _ Hc Hb Hne) as [Hx Hy].
  pose proof (proj1 (inBounds_spec _) Ib) as Ibs. pose proof (proj1 (inBounds_spec _) Hib) as Hibs.
  unfold shiftRect in Hibs. autorewrite with geometry in Hibs.
  assert (Et : Shape.translate offset (encode rows) = encode (shiftRows dx dy rows)).
  { apply shift_encode; unfold INT_MIN, INT_MAX; fold dx dy;
      [intros z Hz; specialize (Hx z Hz); lia | intros i row E; specialize (Hy i row E); lia]. }
  assert (Em : IntRect.move offset (Region.m_bounds r) = shiftRect dx dy (Region.m_bounds r)).
  { unfold IntRect.move, IntPoint.move, shiftRect, IntRect.rect. fold dx dy. unfold IntRect.x, IntRect.y in *.
    rewrite !int32_id by (unfold INT_MIN, INT_MAX; lia). by destruct (Region.m_bounds r) as [[] []]. }
  assert (Hc' : canon [] (shiftRows dx dy rows)).
  { change [] with (shiftSegments dx []) at 1. apply canon_shift; [done |]. apply list.Forall_forall.
    intros row Hr. apply list_elem_of_lookup_1 in Hr as [i E]. specialize (Hy i row E).
    split; [apply coordOk_spec; lia |]. apply list.Forall_forall. intros z Hz. apply coordOk_spec.
    destruct row as [y s]. specialize (Hx z ltac:(apply segmentsIn_elem; by exists i, y, s)). lia. }
  assert (Hb' : boxed (Region.m_bounds (Region.translate offset r)) (shiftRows dx dy rows)).
  { simpl. rewrite Em. by apply boxed_shift. }
  assert (Hs' : Region.m_shape (Region.translate offset r) = encode (shiftRows dx dy rows)) by (simpl; by rewrite Hs).
  split; [by exists (shiftRows dx dy rows) |]. intros x y.
  by rewrite (lookup_ok _ _ _ _ Hc' Hs' Hb'), (lookup_ok _ _ _ _ Hc Hs Hb), cell_shift.
Qed.

(** ** Instances *)

Definition bar : Region := Region.ofRect (IntRect.rect 0 5 10 5).
Definition post : Region := Region.ofRect (IntRect.rect 0 0 5 10).

Lemma bar_wf : wf bar.
Proof. by apply wf_ofRect. Qed.
Lemma post_operand : Operand post.
Proof. left. by apply wf_ofRect. Qed.
Lemma post_wf : wf post.
Proof. by apply wf_ofRect. Qed.

(** C36: The set operations: [unite], [intersect] and [subtract] of regions whose coordinates
    lie between -2^30 and 2^30, the operand in canonical form or empty, return a region in
    canonical form with the least bounding rectangle, whose pixels are those of
    either region, of both, and of the first but not the second, through all of the
    shortcuts. *)
Theorem region_operations (r region : Region) : wf r -> Operand region ->
  (exists r', Region.unite region r = Some r' /\ wf r' /\ combines orb r region r') /\
  (exists r', Region.intersect region r = Some r' /\ wf r' /\ combines andb r region r') /\
  (exists r', Region.subtract region r = Some r' /\ wf r' /\ combines (fun b1 b2 => b1 && negb b2) r region r').
Proof. intros Hw Ho. split; [by apply region_unite |]. split; [by apply region_intersect | by apply region_subtract]. Qed.
Lemma region_operations_witness :
  wf bar /\ Operand post /\ exists r', Region.subtract post bar = Some r' /\ wf r' /\
    combines (fun b1 b2 => b1 && negb b2) bar post r'.
Proof.
  split; [apply bar_wf | split; [apply post_operand |]]. exact (proj2 (proj2 (region_operations bar post bar_wf post_operand))).
Defined.

Lemma region_contains_witness :
  Region.isEmpty post = false /\
  exists answer, Region.contains post bar = Some answer /\
    (answer = true <->
     forall x y, Region.containsPoint x y post = Some true -> Region.containsPoint x y bar = Some true).
Proof.
  split; [reflexivity |]. exact (region_contains bar post bar_wf post_operand eq_refl).
Defined.

Lemma region_intersects_witness :
  exists answer, Region.intersects post bar = Some answer /\
    (answer = false <->
     forall x y, Region.containsPoint x y bar = Some true -> Region.containsPoint x y post = Some true -> False).
Proof. exact (region_intersects bar post bar_wf post_operand). Defined.

Lemma region_equality_witness :
  bar = post <-> forall x y, Region.containsPoint x y bar = Region.containsPoint x y post.
Proof. exact (region_equality bar post bar_wf post_wf). Defined.

Lemma region_rects_witness :
  exists rects, Region.rects bar = Some rects /\
    Forall (fun q => IntRect.isEmpty q = false /\ inBounds q = true) rects /\
    forall x y, exists b, Region.containsPoint x y bar = Some b /\
      covering x y rects = if b then 1%nat else 0%nat.
Proof. exact (region_rects bar bar_wf). Defined.

Lemma region_area_witness :
  exists rects, Region.rects bar = Some rects /\ Region.totalArea bar = Some (areas rects mod 2 ^ 32).
Proof. exact (region_area bar bar_wf). Defined.

Lemma region_translate_witness :
  inBounds (shiftRect 3 4 (Region.m_bounds bar)) = true /\
  wf (Region.translate (IntSize.mk 3 4) bar) /\
  forall x y, Region.containsPoint (x + 3) (y + 4) (Region.translate (IntSize.mk 3 4) bar)
    = Region.containsPoint x y bar.
Proof.
  split; [reflexivity |].
  exact (region_translate bar (IntSize.mk 3 4) bar_wf eq_refl eq_refl).
Defined.

(** ** Where the code departs from its comments *)

(** "Returns true if the query region is a subset of this region": the empty region is
    a subset of every region, but the comparison of the bounds comes first. *)
Example contains_nothing :
  Region.contains Region.empty (Region.ofRect (IntRect.rect 10 10 5 5)) = Some false /\
  (forall x y, Region.containsPoint x y Region.empty = Some false).
Proof.
  split; [reflexivity |]. intros x y. by apply (lookup_ok Region.empty []).
Qed.

(** A region made of an empty rectangle leaves its corner in the union with another
    region: the union has the pixels of [elbow], but is not equal to it, has empty
    rectangles, and is not contained in it. *)
Definition smudged : option Region :=
  region ← elbow; Region.unite region (Region.ofRect (IntRect.rect 20 3 0 0)).

Example smudged_rects :
  (smudged ≫= Region.rects)
  = Some [IntRect.rect 0 0 5 3; IntRect.rect 0 3 5 0; IntRect.rect 20 3 0 0; IntRect.rect 0 3 5 2;
          IntRect.rect 0 5 10 5].
Proof. reflexivity. Qed.

Example smudged_not_contained :
  (l ← elbow; u ← smudged; Region.contains l u) = Some true /\
  (l ← elbow; u ← smudged; Region.contains u l) = Some false.
Proof. split; reflexivity. Qed.

(** The difference of two coordinates overflows for regions more than 2^31 apart: the
    union puts the spans in the wrong order and loses the pixels of one region. *)
Example far_apart :
  let low := Region.ofRect (IntRect.rect 0 2000000000 10 10) in
  let high := Region.ofRect (IntRect.rect 0 (-2000000000) 10 10) in
  Region.containsPoint 5 (-1999999995) high = Some true /\
  (Region.unite low high ≫= Region.containsPoint 5 (-1999999995)) = Some false.
Proof. split; reflexivity. Qed.
