(* ===== verification/AtomicHTMLToken.v ===== *)
(** * Finished tokens: html/parser/AtomicHTMLToken.h

    The token the tree builder works on, made from the tokenizer's mutable one.  Names
    of attributes are qualified names (dom/QualifiedName.h); an attribute whose name
    is empty, or has been seen, is dropped.  [token_attributes] says what is kept.
    Strings are lists of code units, the null string is [None]. *)

From S2P Require Import Prelude HTMLToken.

(** ** Qualified names and DOM attributes *)

Record QualifiedName := mkName {
  m_prefix : option (list Z);
  localName : list Z;
  namespaceURI : option (list Z) }.

#[export] Instance QualifiedName_eq_dec : EqDecision QualifiedName.
Proof. solve_decision. Defined.

(** QualifiedName::matches: the prefix does not count. *)
Definition matches (other q : QualifiedName) : bool :=
  bool_decide (q = other) ||
  (bool_decide (localName q = localName other) && bool_decide (namespaceURI q = namespaceURI other)).

Lemma matches_spec (q q' : QualifiedName) :
  matches q q' = true <-> localName q' = localName q /\ namespaceURI q' = namespaceURI q.
Proof.
  unfold matches. rewrite orb_true_iff, andb_true_iff, !bool_decide_eq_true. naive_solver.
Qed.

(** dom/Attribute.h *)
Module Dom.
Record Attribute := mkAttribute { name : QualifiedName; value : list Z }.
#[export] Instance Attribute_eq_dec : EqDecision Attribute.
Proof. solve_decision. Defined.
End Dom.
Export (hints) Dom.

(** findAttributeInVector *)
Fixpoint findAttributeInVector (attributes : list Dom.Attribute) (name : QualifiedName) : option Dom.Attribute :=
  match attributes with
  | [] => None
  | a :: rest => if matches name (Dom.name a) then Some a else findAttributeInVector rest name
  end.

(** ** AtomicHTMLToken *)
Module AtomicHTMLToken.
Record AtomicHTMLToken := mk {
  m_type : TokenType;
  m_name : list Z;
  m_data : list Z;
  m_externalCharacters : list Z;
  m_isAll8BitData : bool;
  m_doctypeData : option DoctypeData;
  m_selfClosing : bool;
  m_attributes : list Dom.Attribute }.

Definition usesName (t : AtomicHTMLToken) : bool :=
  isType (m_type t) StartTag || isType (m_type t) EndTag || isType (m_type t) DOCTYPE.
Definition usesAttributes (t : AtomicHTMLToken) : bool :=
  isType (m_type t) StartTag || isType (m_type t) EndTag.

Definition forceQuirks (t : AtomicHTMLToken) : option bool :=
  _ ← ASSERT (isType (m_type t) DOCTYPE);
  d ← m_doctypeData t;
  Some (m_forceQuirks d).
Definition name (t : AtomicHTMLToken) : option (list Z) := _ ← ASSERT (usesName t); Some (m_name t).
Definition setName (n : list Z) (t : AtomicHTMLToken) : option AtomicHTMLToken :=
  _ ← ASSERT (usesName t);
  Some (mk (m_type t) n (m_data t) (m_externalCharacters t) (m_isAll8BitData t) (m_doctypeData t)
          (m_selfClosing t) (m_attributes t)).
Definition selfClosing (t : AtomicHTMLToken) : option bool :=
  _ ← ASSERT (isType (m_type t) StartTag || isType (m_type t) EndTag); Some (m_selfClosing t).
Definition getAttributeItem (n : QualifiedName) (t : AtomicHTMLToken) : option (option Dom.Attribute) :=
  _ ← ASSERT (usesAttributes t); Some (findAttributeInVector (m_attributes t) n).
Definition attributes (t : AtomicHTMLToken) : option (list Dom.Attribute) :=
  _ ← ASSERT (usesAttributes t); Some (m_attributes t).
Definition characters (t : AtomicHTMLToken) : option (list Z) :=
  _ ← ASSERT (isType (m_type t) Character); Some (m_externalCharacters t).
Definition comment (t : AtomicHTMLToken) : option (list Z) :=
  _ ← ASSERT (isType (m_type t) Comment); Some (m_data t).

Definition publicIdentifier (t : AtomicHTMLToken) : option (list Z) :=
  _ ← ASSERT (isType (m_type t) DOCTYPE);
  d ← m_doctypeData t;
  Some (m_publicIdentifier d).
Definition systemIdentifier (t : AtomicHTMLToken) : option (list Z) :=
  _ ← ASSERT (isType (m_type t) DOCTYPE);
  d ← m_doctypeData t;
  Some (m_systemIdentifier d).

(** AtomicHTMLToken(HTMLToken::Type) and the constructor of a tag from its name and attributes. *)
Definition ofType (type : TokenType) : AtomicHTMLToken := mk type [] [] [] false None false [].
Definition ofName (type : TokenType) (name : list Z) (attributes : list Dom.Attribute) : option AtomicHTMLToken :=
  let t := mk type name [] [] false None false attributes in
  _ ← ASSERT (usesName t);
  Some t.

(** nameForAttribute *)
Definition nameForAttribute (attribute : Attribute) : QualifiedName :=
  mkName None (HTMLToken.name attribute) None.

(** The loop of initializeAttributes. *)
Fixpoint initializeLoop (attributes : list Attribute) (m_attributes : list Dom.Attribute)
    : option (list Dom.Attribute) :=
  match attributes with
  | [] => Some m_attributes
  | attribute :: rest =>
      if bool_decide (HTMLToken.name attribute = []) then initializeLoop rest m_attributes
      else
        _ ← ASSERT (negb (rangeEnd (nameRange attribute) =? 0));
        _ ← ASSERT (negb (rangeStart (valueRange attribute) =? 0));
        _ ← ASSERT (negb (rangeEnd (valueRange attribute) =? 0));
        let n := nameForAttribute attribute in
        match findAttributeInVector m_attributes n with
        | None => initializeLoop rest (m_attributes ++ [Dom.mkAttribute n (HTMLToken.value attribute)])
        | Some _ => initializeLoop rest m_attributes
        end
  end.

Definition initializeAttributes (attributes : list Attribute) : option (list Dom.Attribute) :=
  match attributes with
  | [] => Some []
  | _ => initializeLoop attributes []
  end.

(** AtomicHTMLToken(HTMLToken&); it takes the DOCTYPE data away from the token.  The
    members a type does not use hold no value. *)
Definition ofToken (token : HTMLToken) : option (AtomicHTMLToken * HTMLToken) :=
  let blank := mk (HTMLToken.m_type token) [] [] [] false None false [] in
  match HTMLToken.m_type token with
  | Uninitialized => None
  | DOCTYPE =>
      n ← tokenName token;
      Some (mk DOCTYPE n [] [] false (HTMLToken.m_doctypeData token) false [], set_doctype None token)
  | EndOfFile => Some (blank, token)
  | StartTag | EndTag =>
      self ← HTMLToken.selfClosing token;
      n ← tokenName token;
      attrs ← HTMLToken.attributes token;
      attributes ← initializeAttributes attrs;
      Some (mk (HTMLToken.m_type token) n [] [] false None self attributes, token)
  | Comment =>
      data ← HTMLToken.comment token;
      let m_data := if isAll8BitData token then (fun c => c mod 2 ^ 8) <$> data else data in
      Some (mk Comment [] m_data [] false None false [], token)
  | Character =>
      data ← HTMLToken.characters token;
      Some (mk Character [] [] data (isAll8BitData token) None false [], token)
  end.
End AtomicHTMLToken.
Abbreviation AtomicHTMLToken := AtomicHTMLToken.AtomicHTMLToken.

(** ** The attributes that are kept *)

Definition domName (n : list Z) : QualifiedName := mkName None n None.

Lemma find_app (l1 l2 : list Dom.Attribute) (n : QualifiedName) :
  findAttributeInVector (l1 ++ l2) n =
  match findAttributeInVector l1 n with Some a => Some a | None => findAttributeInVector l2 n end.
Proof. induction l1 as [| a l1 IH]; simpl; [done |]. by destruct (matches _ _). Qed.

Lemma find_none (l : list Dom.Attribute) (n : QualifiedName) :
  findAttributeInVector l n = None <-> Forall (fun a => matches n (Dom.name a) = false) l.
Proof.
  induction l as [| a l IH]; simpl; [by split |]. rewrite list.Forall_cons.
  destruct (matches n (Dom.name a)); naive_solver.
Qed.

(** Attributes as the tokenizer hands them over: no prefix, no namespace. *)
Definition plain (a : Dom.Attribute) : Prop := Dom.name a = domName (localName (Dom.name a)).

Lemma matches_plain (n m : list Z) : matches (domName n) (domName m) = bool_decide (m = n).
Proof. apply eq_true_iff_eq. rewrite matches_spec, bool_decide_eq_true. simpl. naive_solver. Qed.

Lemma initializeLoop_ok (l : list Attribute) (kept r : list Dom.Attribute) :
  AtomicHTMLToken.initializeLoop l kept = Some r -> Forall plain kept -> NoDup (Dom.name <$> kept) ->
  Forall plain r /\ NoDup (Dom.name <$> r) /\
  forall n, findAttributeInVector r (domName n) =
    match findAttributeInVector kept (domName n) with
    | Some a => Some a
    | None =>
        if bool_decide (n = []) then None
        else (fun a => Dom.mkAttribute (domName n) (value a)) <$> findAttribute n l
    end.
Proof.
  revert kept. induction l as [| a l IH]; intros kept E Hp Hd.
  { injection E as <-. split; [done |]. split; [done |]. intros n.
    destruct (findAttributeInVector kept (domName n)); [done |]. by destruct (bool_decide (n = [])). }
  cbn [AtomicHTMLToken.initializeLoop] in E. case_bool_decide as Hn.
  - destruct (IH _ E Hp Hd) as (Hp' & Hd' & Hf). split; [done |]. split; [done |]. intros n. rewrite Hf.
    destruct (findAttributeInVector kept (domName n)); [done |]. case_bool_decide as Hn'; [done |].
    cbn [findAttribute]. rewrite bool_decide_eq_false_2; [done | congruence].
  - do 3 (apply ASSERT_bind in E as [_ E]). unfold AtomicHTMLToken.nameForAttribute in E.
    fold (domName (name a)) in E.
    destruct (findAttributeInVector kept (domName (name a))) as [a' |] eqn:Ef.
    + destruct (IH _ E Hp Hd) as (Hp' & Hd' & Hf). split; [done |]. split; [done |]. intros n. rewrite Hf.
      destruct (findAttributeInVector kept (domName n)) eqn:Ef'; [done |]. case_bool_decide as Hn'; [done |].
      cbn [findAttribute]. rewrite bool_decide_eq_false_2; [done | congruence].
    + apply IH in E as (Hp' & Hd' & Hf).
      * split; [done |]. split; [done |]. intros n. rewrite Hf, find_app.
        destruct (findAttributeInVector kept (domName n)); [done |]. cbn [findAttributeInVector Dom.name].
        rewrite matches_plain. cbn [findAttribute]. case_bool_decide as En; [subst n | done].
        by rewrite bool_decide_eq_false_2.
      * apply list.Forall_app. split; [done |]. by repeat constructor.
      * rewrite fmap_app. apply list.NoDup_app. split; [done |]. split; [| apply list.NoDup_singleton].
        intros q Hq Hq'. apply list_elem_of_singleton in Hq'. simpl in Hq'. subst q.
        apply find_none in Ef. apply list_elem_of_fmap in Hq as (b & Eb & Hb).
        rewrite list.Forall_forall in Ef. specialize (Ef b Hb). rewrite <- Eb in Ef.
        by rewrite matches_plain, bool_decide_eq_true_2 in Ef.
Qed.

(** The attributes of a finished token: no two have the same name, and looking one up
    finds the first that the tag gave this name, or nothing if the tag has none. *)
Theorem token_attributes (l : list Attribute) (r : list Dom.Attribute) :
  AtomicHTMLToken.initializeAttributes l = Some r ->
  Forall plain r /\ NoDup (Dom.name <$> r) /\
  forall n, n <> [] ->
    findAttributeInVector r (domName n)
    = (fun a => Dom.mkAttribute (domName n) (value a)) <$> findAttribute n l.
Proof.
  intros E. assert (E' : AtomicHTMLToken.initializeLoop l [] = Some r) by (by destruct l).
  destruct (initializeLoop_ok l [] r E' ltac:(constructor) ltac:(constructor)) as (Hp & Hd & Hf).
  split; [done |]. split; [done |]. intros n Hn. rewrite Hf. simpl. by rewrite bool_decide_eq_false_2.
Qed.

Definition twice : list Attribute :=
  let r := mkRange 1 2 in
  [mkAttribute r r (units "id") (units "a"); mkAttribute r r (units "id") (units "b")].

Lemma token_attributes_witness :
  AtomicHTMLToken.initializeAttributes twice = Some [Dom.mkAttribute (domName (units "id")) (units "a")] /\
  findAttributeInVector [Dom.mkAttribute (domName (units "id")) (units "a")] (domName (units "id"))
  = Some (Dom.mkAttribute (domName (units "id")) (units "a")).
Proof.
  split; [reflexivity |].
  destruct (token_attributes twice _ eq_refl) as (_ & _ & H). apply (H (units "id")). discriminate.
Defined.
