(* ===== verification/HTMLStackItem.v ===== *)
(** * Items of the tree builder's lists: html/parser/HTMLStackItem.h

    An item ties a DOM node to the token it was made from.  A node is known by its
    address; of the DOM itself only the node's kind is modelled, a document fragment
    or an element with its qualified name, which is what the functions isHTMLTableElement
    and its siblings test.  The source is compiled without the template element, the
    default of the Qt port. *)

From S2P Require Import Prelude HTMLToken AtomicHTMLToken.

(** ** Names: HTMLNames, MathMLNames and SVGNames *)

Definition xhtmlNamespaceURI : option (list Z) := Some (units "http://www.w3.org/1999/xhtml").
Definition mathmlNamespaceURI : option (list Z) := Some (units "http://www.w3.org/1998/Math/MathML").
Definition svgNamespaceURI : option (list Z) := Some (units "http://www.w3.org/2000/svg").

Definition htmlTagName (s : string) : QualifiedName := mkName None (units s) xhtmlNamespaceURI.
Definition mathmlTagName (s : string) : QualifiedName := mkName None (units s) mathmlNamespaceURI.
Definition svgTagName (s : string) : QualifiedName := mkName None (units s) svgNamespaceURI.

(** ** Nodes *)

Record Node := mkNode { address : nat; elementName : option QualifiedName }.
#[export] Instance Node_eq_dec : EqDecision Node.
Proof. solve_decision. Defined.

Definition Node_isElementNode (n : Node) : bool := match elementName n with Some _ => true | None => false end.

(** Node::hasTagName *)
Definition nodeHasTagName (name : QualifiedName) (n : Node) : bool :=
  match elementName n with Some q => matches name q | None => false end.

Definition isHTMLTableElement (n : Node) : bool := nodeHasTagName (htmlTagName "table") n.
Definition isHTMLOptionElement (n : Node) : bool := nodeHasTagName (htmlTagName "option") n.
Definition isHTMLOptGroupElement (n : Node) : bool := nodeHasTagName (htmlTagName "optgroup") n.

(** toElement of a node that is not null. *)
Definition toElement (n : Node) : option Node := _ ← ASSERT (Node_isElementNode n); Some n.

(** ** HTMLStackItem *)
Module HTMLStackItem.
Record HTMLStackItem := mk {
  m_node : Node;
  m_tokenLocalName : option (list Z);
  m_tokenAttributes : list Dom.Attribute;
  m_namespaceURI : option (list Z);
  m_isDocumentFragmentNode : bool }.
#[export] Instance HTMLStackItem_eq_dec : EqDecision HTMLStackItem.
Proof. solve_decision. Defined.

(** create(node, ItemForDocumentFragmentNode) *)
Definition ofFragment (n : Node) : HTMLStackItem := mk n None [] None true.
(** create(node, ItemForContextElement) *)
Definition ofContextElement (n : Node) : HTMLStackItem :=
  mk n (localName <$> elementName n) [] (elementName n ≫= namespaceURI) false.
(** create(node, token, namespaceURI) *)
Definition ofToken (n : Node) (token : AtomicHTMLToken) (namespaceURI : option (list Z)) : option HTMLStackItem :=
  name ← AtomicHTMLToken.name token;
  attributes ← AtomicHTMLToken.attributes token;
  Some (mk n (Some name) attributes namespaceURI false).

Definition element (i : HTMLStackItem) : option Node := toElement (m_node i).
Definition isElementNode (i : HTMLStackItem) : bool := negb (m_isDocumentFragmentNode i).

Definition attributes (i : HTMLStackItem) : option (list Dom.Attribute) :=
  _ ← m_tokenLocalName i; Some (m_tokenAttributes i).
Definition getAttributeItem (name : QualifiedName) (i : HTMLStackItem) : option (option Dom.Attribute) :=
  _ ← m_tokenLocalName i; Some (findAttributeInVector (m_tokenAttributes i) name).

Definition hasLocalName (name : list Z) (i : HTMLStackItem) : bool :=
  bool_decide (m_tokenLocalName i = Some name).
Definition hasTagName (name : QualifiedName) (i : HTMLStackItem) : bool :=
  bool_decide (m_tokenLocalName i = Some (localName name)) && bool_decide (m_namespaceURI i = namespaceURI name).
(** matchesHTMLTag(const AtomicString&) *)
Definition matchesHTMLTag (name : list Z) (i : HTMLStackItem) : bool :=
  bool_decide (m_tokenLocalName i = Some name) && bool_decide (m_namespaceURI i = xhtmlNamespaceURI).

(** hasTagName of one of several. *)
Definition hasAnyTagName (names : list QualifiedName) (i : HTMLStackItem) : bool :=
  existsb (fun name => hasTagName name i) names.

Definition causesFosterParenting : HTMLStackItem -> bool :=
  hasAnyTagName (htmlTagName <$> ["table"; "tbody"; "tfoot"; "thead"; "tr"]%string).

Definition isInHTMLNamespace (i : HTMLStackItem) : bool :=
  bool_decide (m_namespaceURI i = xhtmlNamespaceURI) || m_isDocumentFragmentNode i.

Definition isNumberedHeaderElement : HTMLStackItem -> bool :=
  hasAnyTagName (htmlTagName <$> ["h1"; "h2"; "h3"; "h4"; "h5"; "h6"]%string).

Definition isTableBodyContextElement : HTMLStackItem -> bool :=
  hasAnyTagName (htmlTagName <$> ["tbody"; "tfoot"; "thead"]%string).

(** The MathML and SVG elements that are special, and mark scopes. *)
Definition foreignNames : list QualifiedName :=
  (mathmlTagName <$> ["mi"; "mo"; "mn"; "ms"; "mtext"; "annotation-xml"]%string) ++
  (svgTagName <$> ["foreignObject"; "desc"; "title"]%string).

(** The local names of the special HTML elements, in two runs around the headings. *)
Definition specialNames1 : list (list Z) :=
  units <$> ["address"; "applet"; "area"; "article"; "aside"; "base"; "basefont"; "bgsound"; "blockquote";
    "body"; "br"; "button"; "caption"; "center"; "col"; "colgroup"; "command"; "dd"; "details"; "dir"; "div";
    "dl"; "dt"; "embed"; "fieldset"; "figcaption"; "figure"; "footer"; "form"; "frame"; "frameset"]%string.
Definition specialNames2 : list (list Z) :=
  units <$> ["head"; "header"; "hgroup"; "hr"; "html"; "iframe"; "img"; "input"; "isindex"; "li"; "link";
    "listing"; "main"; "marquee"; "menu"; "meta"; "nav"; "noembed"; "noframes"; "noscript"; "object"; "ol"; "p";
    "param"; "plaintext"; "pre"; "script"; "section"; "select"; "style"; "summary"; "table"]%string.
Definition specialNames3 : list (list Z) :=
  units <$> ["td"; "textarea"; "th"; "title"; "tr"; "ul"; "wbr"; "xmp"]%string.

Definition isSpecialNode (i : HTMLStackItem) : bool :=
  if hasAnyTagName foreignNames i then true
  else if m_isDocumentFragmentNode i then true
  else if negb (isInHTMLNamespace i) then false
  else
    existsb (fun name => hasLocalName name i) specialNames1 || isNumberedHeaderElement i ||
    existsb (fun name => hasLocalName name i) specialNames2 || isTableBodyContextElement i ||
    existsb (fun name => hasLocalName name i) specialNames3.
End HTMLStackItem.
Export (hints) HTMLStackItem.
Abbreviation HTMLStackItem := HTMLStackItem.HTMLStackItem.

(** An item whose node is what its token says: the tree builder makes no others. *)
Definition itemOk (i : HTMLStackItem) : Prop :=
  match elementName (HTMLStackItem.m_node i) with
  | None => i = HTMLStackItem.ofFragment (HTMLStackItem.m_node i)
  | Some q =>
      HTMLStackItem.m_isDocumentFragmentNode i = false /\
      HTMLStackItem.m_tokenLocalName i = Some (localName q) /\
      HTMLStackItem.m_namespaceURI i = namespaceURI q
  end.

Lemma hasTagName_spec (i : HTMLStackItem) (q : QualifiedName) :
  HTMLStackItem.hasTagName q i = true <->
  HTMLStackItem.m_tokenLocalName i = Some (localName q) /\ HTMLStackItem.m_namespaceURI i = namespaceURI q.
Proof. unfold HTMLStackItem.hasTagName. by rewrite andb_true_iff, !bool_decide_eq_true. Qed.

Lemma nodeHasTagName_item (i : HTMLStackItem) (q : QualifiedName) :
  itemOk i -> nodeHasTagName q (HTMLStackItem.m_node i) = HTMLStackItem.hasTagName q i.
Proof.
  unfold itemOk, nodeHasTagName. destruct (elementName (HTMLStackItem.m_node i)) as [q' |].
  - intros (_ & Hl & Hn). apply eq_true_iff_eq. rewrite matches_spec, hasTagName_spec, Hl, Hn. split; intros [? ?]; split; congruence.
  - intros ->. done.
Qed.
