(* ===== verification/HTMLFormattingElementList.v ===== *)
(** * The list of active formatting elements: html/parser/HTMLFormattingElementList.{h,cpp}

    The list has items and markers.  [append] enforces the condition the source calls
    Noah's Ark: since the last marker there are at most three elements of one name,
    namespace and set of attributes.  An entry is an item or, for a marker, [None];
    a pointer into the list is an index, a pointer to an element that may be null an
    optional node. *)

From S2P Require Import Prelude HTMLToken AtomicHTMLToken HTMLStackItem.

Abbreviation Entry := (option HTMLStackItem).

(** HTMLFormattingElementList, its [m_entries]. *)
Abbreviation Entries := (list Entry).

Definition kNoahsArkCapacity : nat := 3.

Definition isMarker (e : Entry) : bool := match e with None => true | Some _ => false end.

(** Entry::element *)
Definition entryElement (e : Entry) : option Node := item ← e; HTMLStackItem.element item.

(** Entry::operator==(Element* ) *)
Definition entryIs (element : option Node) (e : Entry) : option bool :=
  match e with
  | None => Some (bool_decide (element = None))
  | Some item => n ← HTMLStackItem.element item; Some (bool_decide (Some n = element))
  end.

(** Vector::reverseFind below index [i]; [notFound] is [None]. *)
Fixpoint reverseFindFrom (element : option Node) (i : nat) (l : Entries) : option (option nat) :=
  match i with
  | O => Some None
  | S index =>
      entry ← l !! index;
      equal ← entryIs element entry;
      if (equal : bool) then Some (Some index) else reverseFindFrom element index l
  end.
Definition reverseFind (element : option Node) (l : Entries) : option (option nat) :=
  reverseFindFrom element (length l) l.

(** find and contains *)
Definition find : option Node -> Entries -> option (option nat) := reverseFind.
Definition contains (element : option Node) (l : Entries) : option bool :=
  index ← find element l; Some (match index with Some _ => true | None => false end).

(** The loop of closestElementInScopeWithName below index [i]. *)
Fixpoint closestFrom (targetName : list Z) (i : nat) (l : Entries) : option (option Node) :=
  match i with
  | O => Some None
  | S index =>
      entry ← l !! index;
      match entry with
      | None => Some None
      | Some item =>
          if HTMLStackItem.matchesHTMLTag targetName item then n ← HTMLStackItem.element item; Some (Some n)
          else closestFrom targetName index l
      end
  end.
Definition closestElementInScopeWithName (targetName : list Z) (l : Entries) : option (option Node) :=
  closestFrom targetName (length l) l.

Definition remove (element : option Node) (l : Entries) : option Entries :=
  index ← reverseFind element l;
  Some (match index with Some i => delete i l | None => l end).

Definition appendMarker (l : Entries) : Entries := l ++ [None].

Fixpoint clearLoop (fuel : nat) (l : Entries) : Entries :=
  match fuel with
  | O => l
  | S fuel' =>
      match list.last l with
      | None => l
      | Some entry =>
          let l1 := take (Nat.pred (length l)) l in
          if isMarker entry then l1 else clearLoop fuel' l1
      end
  end.
Definition clearToLastMarker (l : Entries) : Entries := clearLoop (length l) l.

(** ** Bookmarks *)
Record Bookmark := mkBookmark { m_hasBeenMoved : bool; m_mark : nat }.
Definition moveToAfter (before : nat) (b : Bookmark) : Bookmark := mkBookmark true before.
Definition bookmarkFor (element : option Node) (l : Entries) : option Bookmark :=
  index ← reverseFind element l;
  index ← index;
  Some (mkBookmark false index).

Definition swapTo (oldElement : option Node) (newItem : HTMLStackItem) (bookmark : Bookmark) (l : Entries)
    : option Entries :=
  old ← contains oldElement l;
  _ ← ASSERT old;
  newElement ← HTMLStackItem.element newItem;
  new ← contains (Some newElement) l;
  _ ← ASSERT (negb new);
  if negb (m_hasBeenMoved bookmark) then
    entry ← l !! m_mark bookmark;
    marked ← entryElement entry;
    _ ← ASSERT (bool_decide (Some marked = oldElement));
    Some (<[m_mark bookmark := Some newItem]> l)
  else
    let index := m_mark bookmark in
    _ ← ASSERT (Nat.ltb index (length l));
    remove oldElement (take (S index) l ++ Some newItem :: drop (S index) l).

(** ** Noah's Ark *)

(** The loop of tryToEnsureNoahsArkConditionQuickly below index [i]. *)
Fixpoint quickLoop (newItem : HTMLStackItem) (newItemAttributeCount : nat) (l : Entries) (i : nat)
    (candidates : list HTMLStackItem) : option (list HTMLStackItem) :=
  match i with
  | O => Some candidates
  | S index =>
      entry ← l !! index;
      match entry with
      | None => Some candidates
      | Some candidate =>
          if negb (bool_decide (HTMLStackItem.m_tokenLocalName newItem = HTMLStackItem.m_tokenLocalName candidate))
             || negb (bool_decide (HTMLStackItem.m_namespaceURI newItem = HTMLStackItem.m_namespaceURI candidate))
          then quickLoop newItem newItemAttributeCount l index candidates
          else
            attributes ← HTMLStackItem.attributes candidate;
            if negb (Nat.eqb (length attributes) newItemAttributeCount)
            then quickLoop newItem newItemAttributeCount l index candidates
            else quickLoop newItem newItemAttributeCount l index (candidates ++ [candidate])
      end
  end.

Definition tryToEnsureNoahsArkConditionQuickly (newItem : HTMLStackItem) (l : Entries) : option (list HTMLStackItem) :=
  if Nat.ltb (length l) kNoahsArkCapacity then Some []
  else
    attributes ← HTMLStackItem.attributes newItem;
    candidates ← quickLoop newItem (length attributes) l (length l) [];
    Some (if Nat.ltb (length candidates) kNoahsArkCapacity then [] else candidates).

(** The loop over the candidates for one attribute. *)
Fixpoint attributeLoop (newItem : HTMLStackItem) (attribute : Dom.Attribute)
    (candidates remainingCandidates : list HTMLStackItem) : option (list HTMLStackItem) :=
  match candidates with
  | [] => Some remainingCandidates
  | candidate :: rest =>
      newAttributes ← HTMLStackItem.attributes newItem;
      candidateAttributes ← HTMLStackItem.attributes candidate;
      _ ← ASSERT (Nat.eqb (length newAttributes) (length candidateAttributes));
      _ ← ASSERT (bool_decide (HTMLStackItem.m_tokenLocalName newItem = HTMLStackItem.m_tokenLocalName candidate)
                  && bool_decide (HTMLStackItem.m_namespaceURI newItem = HTMLStackItem.m_namespaceURI candidate));
      candidateAttribute ← HTMLStackItem.getAttributeItem (Dom.name attribute) candidate;
      let keep := match candidateAttribute with
                  | Some a => bool_decide (Dom.value a = Dom.value attribute)
                  | None => false
                  end in
      attributeLoop newItem attribute rest
        (if keep then remainingCandidates ++ [candidate] else remainingCandidates)
  end.

(** The loop over the attributes: [None] inside when the function returns early. *)
Fixpoint attributesLoop (newItem : HTMLStackItem) (attributes : list Dom.Attribute) (candidates : list HTMLStackItem)
    : option (option (list HTMLStackItem)) :=
  match attributes with
  | [] => Some (Some candidates)
  | attribute :: rest =>
      remainingCandidates ← attributeLoop newItem attribute candidates [];
      if Nat.ltb (length remainingCandidates) kNoahsArkCapacity then Some None
      else attributesLoop newItem rest remainingCandidates
  end.

Fixpoint removeAll (candidates : list HTMLStackItem) (l : Entries) : option Entries :=
  match candidates with
  | [] => Some l
  | candidate :: rest =>
      element ← HTMLStackItem.element candidate;
      l1 ← remove (Some element) l;
      removeAll rest l1
  end.

Definition ensureNoahsArkCondition (newItem : HTMLStackItem) (l : Entries) : option Entries :=
  candidates ← tryToEnsureNoahsArkConditionQuickly newItem l;
  match candidates with
  | [] => Some l
  | _ =>
      attributes ← HTMLStackItem.attributes newItem;
      candidates ← attributesLoop newItem attributes candidates;
      match candidates with
      | None => Some l
      | Some candidates => removeAll (drop (kNoahsArkCapacity - 1) candidates) l
      end
  end.

Definition append (item : HTMLStackItem) (l : Entries) : option Entries :=
  l1 ← ensureNoahsArkCondition item l;
  Some (l1 ++ [Some item]).
