(* ===== verification/FormattingListTheorems.v ===== *)
(** * The list of active formatting elements: Noah's Ark

    A list is [pre ++ (Some <$> items)], where [pre] is empty or ends in the last
    marker.  [append_spec] gives the list after an append, the lookups are those of
    the last items, and [noahs_ark] is the condition the source names, in every list
    that can be built. *)

From stdpp Require Import sets relations.
From S2P Require Import Prelude HTMLToken AtomicHTMLToken HTMLStackItem HTMLFormattingElementList.

Import HTMLStackItem.

(** ** Elements that count as the same *)

Definition key (q : QualifiedName) : list Z * option (list Z) := (localName q, namespaceURI q).
Definition pair (a : Dom.Attribute) : (list Z * option (list Z)) * list Z := (key (Dom.name a), Dom.value a).

Definition twin (i c : HTMLStackItem) : Prop :=
  m_tokenLocalName i = m_tokenLocalName c /\ m_namespaceURI i = m_namespaceURI c /\
  (pair <$> m_tokenAttributes i) ≡ₚ (pair <$> m_tokenAttributes c).
#[export] Instance twin_dec (i c : HTMLStackItem) : Decision (twin i c).
Proof. unfold twin. apply _. Defined.

#[export] Instance twin_equivalence : Equivalence twin.
Proof.
  split.
  - by intros i.
  - intros i c (? & ? & ?). by repeat split.
  - intros i c d (? & ? & ?) (? & ? & ?). repeat split; etrans; done.
Qed.

(** An item of an element made from a tag: what the tree builder appends. *)
Definition tagItem (i : HTMLStackItem) : Prop :=
  is_Some (elementName (m_node i)) /\ is_Some (m_tokenLocalName i) /\
  NoDup ((fun a => key (Dom.name a)) <$> m_tokenAttributes i).

Definition tagEntry (e : Entry) : Prop := match e with Some i => tagItem i | None => True end.

Definition nodes (l : Entries) : list Node := omap (fun e => m_node <$> e) l.

Definition ListOk (l : Entries) : Prop := Forall tagEntry l /\ NoDup (nodes l).

(** What is before the last run of items. *)
Definition marked (pre : Entries) : Prop := pre = [] \/ exists pre', pre = pre' ++ [None].

(** The items an append keeps: of the twins only the last two. *)
Definition surplus (i : HTMLStackItem) (items : list HTMLStackItem) : list HTMLStackItem :=
  drop 2 (filter (twin i) (reverse items)).
Definition evict (i : HTMLStackItem) (items : list HTMLStackItem) : list HTMLStackItem :=
  filter (fun c => c ∉ surplus i items) items.

(** The runs of items between the markers. *)
Fixpoint runs (l : Entries) : list (list HTMLStackItem) :=
  match l with
  | [] => [[]]
  | None :: l' => [] :: runs l'
  | Some i :: l' => match runs l' with r :: rs => (i :: r) :: rs | [] => [[i]] end
  end.

Definition ark (r : list HTMLStackItem) : Prop := forall i, (length (filter (twin i) r) <= 3)%nat.

(** What the tree builder does with the list: [append] with a new element, markers,
    [remove], [clearToLastMarker], Entry::replaceElement when an element is opened
    again, and [swapTo] in the adoption agency, the last two with an item made from the
    same token; a bookmark that has been moved is after the last marker. *)
Inductive Step : Entries -> Entries -> Prop :=
| step_append i l l' : tagItem i -> m_node i ∉ nodes l -> append i l = Some l' -> Step l l'
| step_marker l : Step l (appendMarker l)
| step_remove n l l' : remove (Some n) l = Some l' -> Step l l'
| step_clear l : Step l (clearToLastMarker l)
| step_replace x i k l :
    l !! k = Some (Some x) -> tagItem i -> twin x i -> m_node i ∉ nodes l -> Step l (<[k := Some i]> l)
| step_swap x i b pre items l' :
    marked pre -> x ∈ items -> tagItem i -> twin x i ->
    (m_hasBeenMoved b = true -> (length pre <= m_mark b)%nat) ->
    swapTo (Some (m_node x)) i b (pre ++ (Some <$> items)) = Some l' -> Step (pre ++ (Some <$> items)) l'.

(** ** Attributes *)

Lemma find_key (l : list Dom.Attribute) (q : QualifiedName) (a : Dom.Attribute) :
  NoDup ((fun b => key (Dom.name b)) <$> l) -> a ∈ l -> key (Dom.name a) = key q ->
  findAttributeInVector l q = Some a.
Proof.
  induction l as [| b l IH]; intros Hd Ha Hk; [by apply not_elem_of_nil in Ha |].
  apply list.NoDup_cons in Hd as [Hb Hd]. cbn [findAttributeInVector].
  apply elem_of_cons in Ha as [<- | Ha].
  - by rewrite (proj2 (matches_spec q (Dom.name a))) by (by injection Hk).
  - destruct (matches q (Dom.name b)) eqn:E; [| by apply IH].
    apply matches_spec in E as [E1 E2]. exfalso. apply Hb. apply list_elem_of_fmap. exists a. split; [| done].
    rewrite Hk. unfold key. by rewrite E1, E2.
Qed.

Lemma find_in (l : list Dom.Attribute) (q : QualifiedName) (a : Dom.Attribute) :
  findAttributeInVector l q = Some a -> a ∈ l /\ key (Dom.name a) = key q.
Proof.
  induction l as [| b l IH]; intros E; [done |]. cbn [findAttributeInVector] in E.
  destruct (matches q (Dom.name b)) eqn:Em.
  - injection E as ->. apply matches_spec in Em as [E1 E2]. split; [left | unfold key; by rewrite E1, E2].
  - destruct (IH E). split; [by right | done].
Qed.

(** What one attribute of the new item asks of a candidate. *)
Definition agrees (a : Dom.Attribute) (c : HTMLStackItem) : Prop := pair a ∈ pair <$> m_tokenAttributes c.
#[export] Instance agrees_dec (a : Dom.Attribute) (c : HTMLStackItem) : Decision (agrees a c).
Proof. unfold agrees. apply _. Defined.

Lemma agrees_spec (a : Dom.Attribute) (c : HTMLStackItem) :
  tagItem c ->
  (match findAttributeInVector (m_tokenAttributes c) (Dom.name a) with
   | Some b => bool_decide (Dom.value b = Dom.value a)
   | None => false
   end) = bool_decide (agrees a c).
Proof.
  intros (_ & _ & Hd). unfold agrees. destruct (findAttributeInVector _ _) as [b |] eqn:E.
  - apply find_in in E as [Hb Hk]. apply bool_decide_ext. rewrite list_elem_of_fmap. split.
    + intros Hv. exists b. unfold pair. by rewrite Hk, Hv.
    + intros (b' & Eb & Hb'). assert (Hk' : key (Dom.name b') = key (Dom.name a)) by (unfold pair in Eb; congruence).
      pose proof (find_key _ _ _ Hd Hb Hk). pose proof (find_key _ _ _ Hd Hb' Hk').
      assert (b = b') as <- by congruence. unfold pair in Eb. congruence.
  - symmetry. apply bool_decide_eq_false_2. intros (b & Eb & Hb)%list_elem_of_fmap.
    rewrite (find_key _ _ b Hd Hb) in E; [done | unfold pair in Eb; congruence].
Qed.

Lemma pairs_nodup (i : HTMLStackItem) : tagItem i -> NoDup (pair <$> m_tokenAttributes i).
Proof.
  intros (_ & _ & Hd). apply (NoDup_fmap_1 fst). rewrite <- list_fmap_compose. exact Hd.
Qed.

(** The tests of the quick pass, and the loop over the attributes, make a twin. *)
Definition similar (i c : HTMLStackItem) : Prop :=
  m_tokenLocalName i = m_tokenLocalName c /\ m_namespaceURI i = m_namespaceURI c /\
  length (m_tokenAttributes i) = length (m_tokenAttributes c).
#[export] Instance similar_dec (i c : HTMLStackItem) : Decision (similar i c).
Proof. unfold similar. apply _. Defined.

Lemma twin_spec (i c : HTMLStackItem) :
  tagItem i -> (twin i c <-> similar i c /\ Forall (fun a => agrees a c) (m_tokenAttributes i)).
Proof.
  intros Hi. unfold twin, similar. split.
  - intros (? & ? & Hp). repeat split; [done | done | |].
    + apply Permutation_length in Hp. by rewrite !length_fmap in Hp.
    + apply list.Forall_forall. intros a Ha. unfold agrees. rewrite <- Hp. by apply list_elem_of_fmap_2.
  - intros ((? & ? & Hl) & Hf). repeat split; [done | done |].
    apply submseteq_length_Permutation; [| by rewrite !length_fmap, Hl].
    apply NoDup_submseteq; [by apply pairs_nodup |]. intros p (a & -> & Ha)%list_elem_of_fmap.
    rewrite list.Forall_forall in Hf. by apply Hf.
Qed.

(** ** The loops *)

Lemma attributes_some (i : HTMLStackItem) : tagItem i -> attributes i = Some (m_tokenAttributes i).
Proof. intros (_ & [n Hn] & _). unfold attributes. by rewrite Hn. Qed.

Lemma getAttributeItem_some (q : QualifiedName) (i : HTMLStackItem) :
  tagItem i -> getAttributeItem q i = Some (findAttributeInVector (m_tokenAttributes i) q).
Proof. intros (_ & [n Hn] & _). unfold getAttributeItem. by rewrite Hn. Qed.

Lemma element_some (i : HTMLStackItem) : tagItem i -> element i = Some (m_node i).
Proof. intros ([q Hq] & _). unfold element. destruct (m_node i) as [a q']. simpl in Hq. by subst q'. Qed.

(** The entry just below an index. *)
Lemma last_item (pre rest : Entries) (items : list HTMLStackItem) (x : HTMLStackItem) :
  (pre ++ (Some <$> items ++ [x]) ++ rest) !! (length pre + length items)%nat = Some (Some x).
Proof.
  rewrite lookup_app_r by lia. rewrite fmap_app, <- app_assoc.
  rewrite lookup_app_r by (rewrite length_fmap; lia). rewrite length_fmap.
  by replace (length pre + length items - length pre - length items)%nat with 0%nat by lia.
Qed.

Lemma snoc_split (pre rest : Entries) (items : list HTMLStackItem) (x : HTMLStackItem) :
  pre ++ (Some <$> items ++ [x]) ++ rest = pre ++ (Some <$> items) ++ Some x :: rest.
Proof. by rewrite fmap_app, <- app_assoc. Qed.

Lemma length_snoc (pre : Entries) (items : list HTMLStackItem) (x : HTMLStackItem) :
  (length pre + length (items ++ [x]) = S (length pre + length items))%nat.
Proof. rewrite length_app. simpl. lia. Qed.

Lemma marker_below (pre rest : Entries) : (pre ++ [None] ++ rest) !! length pre = Some None.
Proof. rewrite lookup_app_r by lia. by rewrite Nat.sub_diag. Qed.

(** A loop from index [length pre + length items] down reads the items from the last. *)
Lemma quickLoop_ok (new : HTMLStackItem) (pre rest : Entries) (items cs : list HTMLStackItem) :
  marked pre -> Forall tagItem items ->
  quickLoop new (length (m_tokenAttributes new)) (pre ++ (Some <$> items) ++ rest)
    (length pre + length items)%nat cs
  = Some (cs ++ filter (similar new) (reverse items)).
Proof.
  intros Hm. revert rest cs. induction items as [| x items IH] using rev_ind; intros rest cs Hok.
  - rewrite Nat.add_0_r, app_nil_r. destruct Hm as [-> | [pre' ->]]; [done |].
    rewrite length_app, Nat.add_1_r. cbn [quickLoop]. rewrite <- app_assoc. by rewrite marker_below.
  - apply list.Forall_app in Hok as [Hok Hx]. rewrite Forall_singleton in Hx.
    rewrite length_snoc. cbn [quickLoop]. rewrite last_item, snoc_split. cbn [mbind option_bind].
    rewrite attributes_some by done. cbn [mbind option_bind]. rewrite reverse_snoc, list.filter_cons.
    destruct (decide (similar new x)) as [(E1 & E2 & E3) | Hs].
    + rewrite !(bool_decide_eq_true_2 _) by done. simpl. rewrite E3, Nat.eqb_refl. simpl. rewrite <- E3.
      rewrite IH by done. by rewrite <- app_assoc.
    + case_bool_decide; [| by simpl; rewrite IH]. case_bool_decide; [| by simpl; rewrite IH]. simpl.
      destruct (Nat.eqb_spec (length (m_tokenAttributes x)) (length (m_tokenAttributes new))); [| by simpl; rewrite IH].
      exfalso. by apply Hs.
Qed.

Lemma attributeLoop_ok (new : HTMLStackItem) (a : Dom.Attribute) (cs kept : list HTMLStackItem) :
  tagItem new -> Forall tagItem cs -> Forall (similar new) cs ->
  attributeLoop new a cs kept = Some (kept ++ filter (agrees a) cs).
Proof.
  intros Hn. revert kept. induction cs as [| c cs IH]; intros kept Hok Hs; [by rewrite app_nil_r |].
  apply list.Forall_cons in Hok as [Hc Hok]. apply list.Forall_cons in Hs as [(E1 & E2 & E3) Hs].
  cbn [attributeLoop]. rewrite !attributes_some by done. cbn [mbind option_bind].
  rewrite E3, Nat.eqb_refl, !(bool_decide_eq_true_2 _) by done. cbn.
  rewrite getAttributeItem_some by done. cbn. rewrite agrees_spec by done. rewrite IH by done.
  simpl. destruct (decide (agrees a c)).
  - rewrite bool_decide_eq_true_2 by done. by rewrite <- app_assoc.
  - by rewrite bool_decide_eq_false_2.
Qed.

Lemma Forall_filter_keep (P Q : HTMLStackItem -> Prop) `{!forall c, Decision (Q c)} (cs : list HTMLStackItem) :
  Forall P cs -> Forall P (filter Q cs).
Proof. rewrite !list.Forall_forall. intros HP c [_ Hc]%list_elem_of_filter. by apply HP. Qed.

Lemma filter_all (Q : HTMLStackItem -> Prop) `{!forall c, Decision (Q c)} (cs : list HTMLStackItem) :
  Forall Q cs -> filter Q cs = cs.
Proof.
  induction 1 as [| c cs Hc Hcs IH]; [done |]. rewrite list.filter_cons_True by done. by rewrite IH.
Qed.

Lemma filter_none (Q : HTMLStackItem -> Prop) `{!forall c, Decision (Q c)} (cs : list HTMLStackItem) :
  Forall (fun c => ~ Q c) cs -> filter Q cs = [].
Proof. induction 1 as [| c cs Hc Hcs IH]; [done |]. by rewrite list.filter_cons_False. Qed.

(** An early return leaves fewer candidates than the ark has room for. *)
Lemma attributesLoop_ok (new : HTMLStackItem) (l : list Dom.Attribute) (cs : list HTMLStackItem) :
  tagItem new -> Forall tagItem cs -> Forall (similar new) cs -> (3 <= length cs)%nat ->
  exists r, attributesLoop new l cs = Some r /\
    match r with
    | Some cs' => cs' = filter (fun c => Forall (fun a => agrees a c) l) cs
    | None => (length (filter (fun c => Forall (fun a => agrees a c) l) cs) < 3)%nat
    end.
Proof.
  intros Hn. revert cs. induction l as [| a l IH]; intros cs Hok Hs Hl.
  - exists (Some cs). split; [done |]. symmetry. apply filter_all. by apply Forall_true.
  - cbn [attributesLoop]. rewrite attributeLoop_ok by done. cbn [app mbind option_bind].
    assert (E : filter (fun c => Forall (fun b => agrees b c) (a :: l)) cs
                = filter (fun c => Forall (fun b => agrees b c) l) (filter (agrees a) cs)).
    { rewrite list_filter_filter. apply list_filter_iff. intros c. rewrite list.Forall_cons. tauto. }
    rewrite E. destruct (Nat.ltb_spec (length (filter (agrees a) cs)) kNoahsArkCapacity) as [H | H].
    + exists None. split; [done |]. eapply Nat.le_lt_trans; [apply length_filter | exact H].
    + apply IH; try by apply Forall_filter_keep. exact H.
Qed.

(** ** Finding and removing *)

Lemma nodes_app (l1 l2 : Entries) : nodes (l1 ++ l2) = nodes l1 ++ nodes l2.
Proof. apply omap_app. Qed.

Lemma nodes_items (items : list HTMLStackItem) : nodes (Some <$> items) = m_node <$> items.
Proof. induction items as [| i items IH]; [done |]. cbn. f_equal. exact IH. Qed.

Lemma entryIs_tag (n : Node) (e : Entry) :
  tagEntry e -> entryIs (Some n) e = Some (bool_decide (m_node <$> e = Some n)).
Proof.
  destruct e as [i |]; intros He; cbn.
  - by rewrite element_some.
  - by rewrite bool_decide_eq_false_2.
Qed.

Lemma reverseFindFrom_skip (n : Node) (l1 l2 rest : Entries) :
  Forall tagEntry l2 -> n ∉ nodes l2 ->
  reverseFindFrom (Some n) (length (l1 ++ l2)) (l1 ++ l2 ++ rest)
  = reverseFindFrom (Some n) (length l1) (l1 ++ l2 ++ rest).
Proof.
  revert rest. induction l2 as [| e l2 IH] using rev_ind; intros rest Hok Hn; [by rewrite app_nil_r |].
  apply list.Forall_app in Hok as [Hok He]. rewrite list.Forall_singleton in He.
  rewrite nodes_app, not_elem_of_app in Hn. destruct Hn as [Hn Hne].
  rewrite (app_assoc l1 l2 [e]), length_app, Nat.add_1_r. cbn [reverseFindFrom].
  replace (l1 ++ (l2 ++ [e]) ++ rest) with ((l1 ++ l2) ++ e :: rest) by (by rewrite <- !app_assoc).
  rewrite list_lookup_middle by done. cbn [mbind option_bind]. rewrite entryIs_tag by done. cbn [mbind option_bind].
  rewrite bool_decide_eq_false_2.
  - rewrite <- app_assoc. by apply IH.
  - intros E. apply Hne. cbn. rewrite E. by left.
Qed.

Lemma reverseFind_some (x : HTMLStackItem) (l1 l2 : Entries) :
  Forall tagEntry (Some x :: l2) -> m_node x ∉ nodes l2 ->
  reverseFind (Some (m_node x)) (l1 ++ Some x :: l2) = Some (Some (length l1)).
Proof.
  intros [Hx Hok]%list.Forall_cons Hn. unfold reverseFind.
  replace (l1 ++ Some x :: l2) with ((l1 ++ [Some x]) ++ l2 ++ []) by (by rewrite app_nil_r, <- app_assoc).
  rewrite (app_nil_r l2) at 1. rewrite reverseFindFrom_skip by done. rewrite length_app, Nat.add_1_r.
  cbn [reverseFindFrom]. rewrite <- app_assoc. cbn [app]. rewrite list_lookup_middle by done. cbn [mbind option_bind].
  rewrite entryIs_tag by done. cbn [mbind option_bind]. by rewrite bool_decide_eq_true_2.
Qed.

Lemma reverseFind_none (n : Node) (l : Entries) :
  Forall tagEntry l -> n ∉ nodes l -> reverseFind (Some n) l = Some None.
Proof.
  intros Hok Hn. unfold reverseFind. pose proof (reverseFindFrom_skip n [] l [] Hok Hn) as E.
  cbn [app] in E. by rewrite app_nil_r in E.
Qed.

Lemma entries_remove (x : HTMLStackItem) (l1 l2 : Entries) :
  Forall tagEntry (Some x :: l2) -> m_node x ∉ nodes l2 ->
  remove (Some (m_node x)) (l1 ++ Some x :: l2) = Some (l1 ++ l2).
Proof.
  intros Hok Hn. unfold remove. rewrite reverseFind_some by done. cbn [mbind option_bind].
  by rewrite delete_middle.
Qed.

Lemma remove_absent (n : Node) (l : Entries) :
  Forall tagEntry l -> n ∉ nodes l -> remove (Some n) l = Some l.
Proof. intros Hok Hn. unfold remove. by rewrite reverseFind_none. Qed.

Lemma tagEntry_items (items : list HTMLStackItem) : Forall tagItem items -> Forall tagEntry (Some <$> items).
Proof. intros H. by apply list.Forall_fmap. Qed.

Lemma filter_without (c : HTMLStackItem) (cs i1 i2 : list HTMLStackItem) :
  c ∉ i1 -> c ∉ i2 ->
  filter (fun d => d ∉ cs) (i1 ++ i2) = filter (fun d => d ∉ c :: cs) (i1 ++ c :: i2).
Proof.
  assert (E : forall l : list HTMLStackItem, c ∉ l -> filter (fun d => d ∉ cs) l = filter (fun d => d ∉ c :: cs) l).
  { intros l Hl. rewrite <- (filter_all (fun d => d <> c) l) at 1 by (apply list.Forall_forall; by intros d Hd ->).
    rewrite list_filter_filter. apply list_filter_iff. intros d. rewrite not_elem_of_cons. tauto. }
  intros H1 H2. rewrite !list.filter_app, list.filter_cons_False by (intros H; apply H; by left).
  by rewrite (E i1), (E i2).
Qed.

Lemma removeAll_ok (pre : Entries) (items cs : list HTMLStackItem) :
  Forall tagItem items -> NoDup (m_node <$> items) -> NoDup cs -> cs ⊆ items ->
  removeAll cs (pre ++ (Some <$> items)) = Some (pre ++ (Some <$> filter (fun c => c ∉ cs) items)).
Proof.
  revert items. induction cs as [| c cs IH]; intros items Hok Hd Hcs Hin.
  - cbn [removeAll]. rewrite filter_all; [done |]. apply list.Forall_true. intros i. apply not_elem_of_nil.
  - apply list.NoDup_cons in Hcs as [Hc Hcs]. assert (Hci : c ∈ items) by (apply Hin; by left).
    apply list_elem_of_split in Hci as (i1 & i2 & ->).
    rewrite fmap_app, fmap_cons in Hd. apply list.NoDup_app in Hd as (Hd1 & Hx & Hd2).
    apply list.NoDup_cons in Hd2 as [Hc2 Hd2].
    apply list.Forall_app in Hok as [Hok1 Hok2]. pose proof Hok2 as [Hokc Hok2']%list.Forall_cons.
    assert (Hc1 : m_node c ∉ m_node <$> i1) by (intros H; apply (Hx _ H); by left).
    cbn [removeAll]. rewrite element_some by done. cbn [mbind option_bind].
    rewrite fmap_app, fmap_cons, app_assoc, entries_remove by (try rewrite nodes_items; try done; by apply (tagEntry_items (c :: i2))).
    cbn [mbind option_bind]. rewrite <- app_assoc, <- fmap_app, IH.
    + do 3 f_equal. apply filter_without; intros H; [apply Hc1 | apply Hc2]; by apply list_elem_of_fmap_2.
    + by apply list.Forall_app.
    + rewrite fmap_app. apply list.NoDup_app. split; [done |]. split; [| done]. intros n Hn Hn'. apply (Hx _ Hn). by right.
    + done.
    + intros d Hd'. assert (Hdi : d ∈ i1 ++ c :: i2) by (apply Hin; by right).
      apply elem_of_app in Hdi as [| [-> |]%elem_of_cons]; [apply elem_of_app; by left | done | apply elem_of_app; by right].
Qed.

(** ** Appending *)

Lemma filter_twins (new : HTMLStackItem) (l : list HTMLStackItem) :
  tagItem new ->
  filter (fun c => Forall (fun a => agrees a c) (m_tokenAttributes new)) (filter (similar new) l)
  = filter (twin new) l.
Proof. intros Hn. rewrite list_filter_filter. apply list_filter_iff. intros c. rewrite twin_spec by done. tauto. Qed.

Lemma ensure_ok (new : HTMLStackItem) (pre : Entries) (items : list HTMLStackItem) :
  marked pre -> tagItem new -> Forall tagItem items ->
  ensureNoahsArkCondition new (pre ++ (Some <$> items)) = removeAll (surplus new items) (pre ++ (Some <$> items)).
Proof.
  intros Hm Hn Hok. unfold ensureNoahsArkCondition, tryToEnsureNoahsArkConditionQuickly, surplus.
  assert (Hrev : Forall tagItem (reverse items)) by (by rewrite Forall_reverse).
  pose proof (filter_twins new (reverse items) Hn) as E.
  assert (Hlen : (length (filter (twin new) (reverse items)) <= length (filter (similar new) (reverse items)))%nat).
  { rewrite <- E. apply length_filter. }
  assert (Hshort : (length (filter (twin new) (reverse items)) < 3)%nat ->
                   drop 2 (filter (twin new) (reverse items)) = []) by (intros; apply drop_ge; lia).
  destruct (Nat.ltb_spec (length (pre ++ (Some <$> items))) kNoahsArkCapacity) as [H | H].
  { cbn [mbind option_bind]. rewrite Hshort; [done |]. pose proof (length_filter (twin new) (reverse items)) as Hf.
    rewrite length_reverse in Hf. rewrite length_app, length_fmap in H. unfold kNoahsArkCapacity in H. lia. }
  rewrite attributes_some by done. cbn [mbind option_bind].
  pose proof (quickLoop_ok new pre [] items [] Hm Hok) as Q. rewrite app_nil_r in Q.
  rewrite length_app, length_fmap, Q. cbn [mbind option_bind app].
  destruct (Nat.ltb_spec (length (filter (similar new) (reverse items))) kNoahsArkCapacity) as [H1 | H1].
  { rewrite Hshort; [done |]. unfold kNoahsArkCapacity in H1. lia. }
  destruct (filter (similar new) (reverse items)) as [| c cs] eqn:Es; [unfold kNoahsArkCapacity in H1; simpl in H1; lia |].
  rewrite <- Es in *.
  destruct (attributesLoop_ok new (m_tokenAttributes new) (filter (similar new) (reverse items))) as (r & Er & Hr);
    [done | by apply Forall_filter_keep | | done |].
  { apply list.Forall_forall. by intros d [Hd _]%list_elem_of_filter. }
  rewrite Er. cbn [mbind option_bind]. rewrite E in Hr. destruct r as [cs' |].
  - by subst cs'.
  - by rewrite Hshort.
Qed.

Lemma items_distinct (pre : Entries) (items : list HTMLStackItem) :
  NoDup (nodes (pre ++ (Some <$> items))) -> NoDup (m_node <$> items).
Proof. rewrite nodes_app, nodes_items. by intros (_ & _ & ?)%list.NoDup_app. Qed.

Lemma surplus_in (i : HTMLStackItem) (items : list HTMLStackItem) : surplus i items ⊆ items.
Proof.
  intros c Hc. apply (subseteq_drop 2) in Hc. apply list_elem_of_filter in Hc as [_ Hc]. by rewrite elem_of_reverse in Hc.
Qed.

Lemma surplus_nodup (i : HTMLStackItem) (items : list HTMLStackItem) : NoDup (m_node <$> items) -> NoDup (surplus i items).
Proof.
  intros Hd%NoDup_fmap_1. unfold surplus. apply (sublist_NoDup _ (filter (twin i) (reverse items))); [| apply sublist_drop].
  eapply sublist_NoDup; [| apply sublist_filter]. by rewrite reverse_Permutation.
Qed.

Lemma entries_append (new : HTMLStackItem) (pre : Entries) (items : list HTMLStackItem) :
  marked pre -> tagItem new -> ListOk (pre ++ (Some <$> items)) ->
  append new (pre ++ (Some <$> items)) = Some (pre ++ (Some <$> evict new items ++ [new])).
Proof.
  intros Hm Hn [Hok Hd]. assert (Hi : Forall tagItem items).
  { apply list.Forall_app in Hok as [_ Hok]. rewrite list.Forall_fmap in Hok. exact Hok. }
  apply items_distinct in Hd. unfold append. rewrite ensure_ok by done.
  rewrite removeAll_ok; [| done | done | by apply surplus_nodup | apply surplus_in].
  cbn [mbind option_bind]. by rewrite fmap_app, app_assoc.
Qed.

(** ** Runs *)

Lemma runs_cons (l : Entries) : exists r rs, runs l = r :: rs.
Proof. destruct l as [| [i |] l]; cbn [runs]; [eauto | destruct (runs l); eauto | eauto]. Qed.

Lemma runs_items (items : list HTMLStackItem) : runs (Some <$> items) = [items].
Proof. induction items as [| i items IH]; [done |]. rewrite fmap_cons. cbn [runs]. by rewrite IH. Qed.

Lemma runs_marker (l1 l2 : Entries) : runs (l1 ++ None :: l2) = runs l1 ++ runs l2.
Proof.
  induction l1 as [| [i |] l1 IH]; [done | | by cbn; rewrite IH].
  cbn [app runs]. rewrite IH. by destruct (runs_cons l1) as (r & rs & ->).
Qed.

Lemma runs_last (pre : Entries) :
  marked pre -> exists rs, forall items, runs (pre ++ (Some <$> items)) = rs ++ [items].
Proof.
  intros [-> | [pre' ->]].
  - exists []. apply runs_items.
  - exists (runs pre'). intros items. rewrite <- app_assoc. cbn [app]. rewrite runs_marker, runs_items. done.
Qed.

Lemma split_last (l : Entries) : exists pre items, l = pre ++ (Some <$> items) /\ marked pre.
Proof.
  induction l as [| e l IH] using rev_ind; [by exists [], []; split; [| left] |].
  destruct e as [i |].
  - destruct IH as (pre & items & -> & Hm). exists pre, (items ++ [i]). split; [| done].
    by rewrite fmap_app, app_assoc.
  - exists (l ++ [None]), []. split; [by rewrite app_nil_r |]. right. by exists l.
Qed.

Lemma runs_remove (x : HTMLStackItem) (l1 l2 : Entries) :
  Forall2 sublist (runs (l1 ++ l2)) (runs (l1 ++ Some x :: l2)).
Proof.
  induction l1 as [| [i |] l1 IH]; cbn [app runs].
  - destruct (runs_cons l2) as (r & rs & ->). constructor; [by apply sublist_cons | reflexivity].
  - destruct IH; [repeat constructor |]. constructor; [by apply sublist_skip | done].
  - by constructor.
Qed.

Lemma runs_replace (x y : HTMLStackItem) (l1 l2 : Entries) :
  twin x y -> Forall2 (Forall2 twin) (runs (l1 ++ Some x :: l2)) (runs (l1 ++ Some y :: l2)).
Proof.
  intros Hxy. assert (Hr : forall r, Forall2 twin r r) by (intros r; reflexivity).
  induction l1 as [| [i |] l1 IH]; cbn [app runs].
  - destruct (runs_cons l2) as (r & rs & ->). constructor; [by constructor | reflexivity].
  - destruct IH; [by repeat constructor |]. constructor; [by constructor | done].
  - by constructor.
Qed.

Lemma ark_sublist (r r' : list HTMLStackItem) : sublist r r' -> ark r' -> ark r.
Proof.
  intros Hs Hr i. etrans; [| apply (Hr i)]. clear Hr. induction Hs as [| x l1 l2 _ IH | x l1 l2 _ IH]; [done | |].
  - rewrite !list.filter_cons. destruct (decide (twin i x)); simpl; lia.
  - rewrite list.filter_cons. destruct (decide (twin i x)); simpl; lia.
Qed.

Lemma ark_twins (r r' : list HTMLStackItem) : Forall2 twin r r' -> ark r -> ark r'.
Proof.
  intros Hs Hr i. specialize (Hr i). replace (length (filter (twin i) r')) with (length (filter (twin i) r)); [done |].
  clear Hr. induction Hs as [| x y l1 l2 Hxy _ IH]; [done |]. rewrite !list.filter_cons.
  destruct (decide (twin i x)) as [H | H], (decide (twin i y)) as [H' | H']; simpl; try lia.
  - destruct H'. by etrans.
  - destruct H. etrans; [exact H' | by symmetry].
Qed.

Lemma ark_perm (r r' : list HTMLStackItem) : r ≡ₚ r' -> ark r -> ark r'.
Proof. intros Hp Hr i. by rewrite <- Hp. Qed.

(** Of the items kept, at most two are twins of the one appended. *)
Lemma evict_twins (new : HTMLStackItem) (items : list HTMLStackItem) :
  (length (filter (twin new) (evict new items)) <= 2)%nat.
Proof.
  unfold evict. set (t := filter (twin new) (reverse items)).
  assert (E : filter (twin new) (filter (fun c => c ∉ surplus new items) items)
              ≡ₚ filter (fun c => c ∉ surplus new items) t).
  { rewrite list_filter_filter, <- (reverse_Permutation items) at 1. unfold t. rewrite list_filter_filter.
    erewrite list_filter_iff; [reflexivity |]. intros c. simpl. tauto. }
  rewrite E, <- (take_drop 2 t). rewrite list.filter_app, length_app.
  replace (filter _ (drop 2 t)) with (@nil HTMLStackItem).
  - simpl. etrans; [apply Nat.add_le_mono_r, length_filter |]. rewrite length_take. lia.
  - symmetry. apply filter_none. apply list.Forall_forall. intros c Hc Hn. by apply Hn.
Qed.

(** ** The invariant *)

Lemma nodes_sublist (l l' : Entries) : sublist l l' -> sublist (nodes l) (nodes l').
Proof.
  induction 1 as [| [i |] l l' _ IH | [i |] l l' _ IH]; [done | by apply sublist_skip | done | by apply sublist_cons | done].
Qed.

Lemma ok_sublist (l l' : Entries) : sublist l l' -> ListOk l' -> ListOk l.
Proof.
  intros Hs [Hok Hd]. split.
  - apply list.Forall_forall. intros e He. rewrite list.Forall_forall in Hok. apply Hok. by eapply elem_of_sublist.
  - eapply sublist_NoDup; [exact Hd | by apply nodes_sublist].
Qed.

Lemma ok_perm (l l' : Entries) : l ≡ₚ l' -> ListOk l -> ListOk l'.
Proof.
  intros Hp [Hok Hd]. split; [by rewrite <- Hp |]. unfold nodes. by rewrite <- Hp.
Qed.

Lemma ok_cons (i : HTMLStackItem) (l : Entries) :
  ListOk (Some i :: l) <-> tagItem i /\ (m_node i ∉ nodes l) /\ ListOk l.
Proof.
  unfold ListOk. rewrite list.Forall_cons. change (nodes (Some i :: l)) with (m_node i :: nodes l).
  rewrite list.NoDup_cons. tauto.
Qed.

Lemma ok_marker (l : Entries) : ListOk (None :: l) <-> ListOk l.
Proof. unfold ListOk. rewrite list.Forall_cons. change (nodes (None :: l)) with (nodes l). simpl. tauto. Qed.

Lemma ok_replace (x i : HTMLStackItem) (l1 l2 : Entries) :
  ListOk (l1 ++ Some x :: l2) -> tagItem i -> m_node i ∉ nodes (l1 ++ Some x :: l2) -> ListOk (l1 ++ Some i :: l2).
Proof.
  intros Hok Hi Hn. apply (ok_perm (Some i :: l1 ++ l2)); [by rewrite Permutation_middle |].
  assert (Hs : sublist (l1 ++ l2) (l1 ++ Some x :: l2)) by (apply sublist_app; [done | by apply sublist_cons]).
  apply ok_cons. split; [done |]. split; [| by eapply ok_sublist].
  intros H. apply Hn. by eapply elem_of_sublist; [| apply nodes_sublist].
Qed.

Lemma nodes_elem (n : Node) (l : Entries) : n ∈ nodes l <-> exists x, Some x ∈ l /\ m_node x = n.
Proof.
  unfold nodes. rewrite list_elem_of_omap. split.
  - intros ([x |] & Hx & E); [| done]. exists x. split; [done |]. by injection E.
  - intros (x & Hx & <-). by exists (Some x).
Qed.

Lemma ok_split (n : Node) (l : Entries) :
  ListOk l -> n ∈ nodes l ->
  exists x l1 l2, l = l1 ++ Some x :: l2 /\ m_node x = n /\ (n ∉ nodes l2) /\ Forall tagEntry (Some x :: l2).
Proof.
  intros [Hok Hd] (x & Hx & <-)%nodes_elem. apply list_elem_of_split in Hx as (l1 & l2 & ->).
  exists x, l1, l2. rewrite nodes_app in Hd. apply list.NoDup_app in Hd as (_ & _ & Hd).
  apply list.NoDup_cons in Hd as [Hd _]. apply list.Forall_app in Hok as [_ Hok]. done.
Qed.

Lemma contains_ok (n : Node) (l : Entries) : ListOk l -> contains (Some n) l = Some (bool_decide (n ∈ nodes l)).
Proof.
  intros Hok. unfold contains, find. case_bool_decide as Hn.
  - destruct (ok_split n l Hok Hn) as (x & l1 & l2 & -> & <- & Hn2 & Ht). by rewrite reverseFind_some.
  - rewrite reverseFind_none; [done | apply Hok | done].
Qed.

Lemma remove_cases (n : Node) (l l' : Entries) :
  ListOk l -> remove (Some n) l = Some l' ->
  (l' = l /\ n ∉ nodes l) \/ exists x l1 l2, l = l1 ++ Some x :: l2 /\ m_node x = n /\ l' = l1 ++ l2.
Proof.
  intros Hok E. destruct (decide (n ∈ nodes l)) as [Hn | Hn].
  - destruct (ok_split n l Hok Hn) as (x & l1 & l2 & -> & <- & Hn2 & Ht). rewrite entries_remove in E by done.
    injection E as <-. right. by exists x, l1, l2.
  - rewrite remove_absent in E by (done || apply Hok). injection E as <-. by left.
Qed.

Lemma clearLoop_items (n : nat) (pre : Entries) (items : list HTMLStackItem) :
  clearLoop (length items + n) (pre ++ (Some <$> items)) = clearLoop n pre.
Proof.
  induction items as [| x items IH] using rev_ind; [by rewrite app_nil_r |].
  rewrite length_app, Nat.add_1_r. cbn [clearLoop Nat.add]. rewrite fmap_app, app_assoc.
  cbn [fmap list_fmap]. rewrite list.last_snoc. cbn [isMarker].
  rewrite length_app, Nat.add_1_r, take_app_length' by done. exact IH.
Qed.

Lemma clear_ok (pre : Entries) (items : list HTMLStackItem) :
  marked pre -> exists pre', clearToLastMarker (pre ++ (Some <$> items)) = pre' /\
    (pre = [] /\ pre' = [] \/ pre = pre' ++ [None]).
Proof.
  intros Hm. eexists. split; [done |]. unfold clearToLastMarker. rewrite length_app, length_fmap, Nat.add_comm, clearLoop_items.
  destruct Hm as [-> | [pre' ->]]; [by left | right]. rewrite length_app, Nat.add_1_r. cbn [clearLoop].
  rewrite list.last_snoc. cbn [isMarker]. by rewrite length_app, Nat.add_1_r, take_app_length' by done.
Qed.

Definition Inv (l : Entries) : Prop := ListOk l /\ Forall ark (runs l).

Lemma inv_marker (l : Entries) : Inv (l ++ [None]) <-> Inv l.
Proof.
  unfold Inv. rewrite runs_marker, list.Forall_app. assert (Hnil : Forall ark (runs [])) by (repeat constructor).
  assert (E : ListOk (l ++ [None]) <-> ListOk l); [| tauto].
  rewrite <- (ok_marker l). split; apply ok_perm; by rewrite Permutation_app_comm.
Qed.

Lemma inv_replace (x i : HTMLStackItem) (l1 l2 : Entries) :
  Inv (l1 ++ Some x :: l2) -> tagItem i -> twin x i -> m_node i ∉ nodes (l1 ++ Some x :: l2) ->
  Inv (l1 ++ Some i :: l2).
Proof.
  intros [Hok Hark] Hi Ht Hn. split; [by eapply ok_replace |].
  pose proof (runs_replace x i l1 l2 Ht) as Hr. revert Hark. generalize (runs (l1 ++ Some i :: l2)), Hr.
  generalize (runs (l1 ++ Some x :: l2)). clear. intros rs. induction rs; intros rs' Hr Hark; inversion Hr; subst; [done |].
  apply list.Forall_cons in Hark as [Ha Hark]. constructor; [by eapply ark_twins | by apply IHrs].
Qed.

Lemma inv_remove (x : HTMLStackItem) (l1 l2 : Entries) : Inv (l1 ++ Some x :: l2) -> Inv (l1 ++ l2).
Proof.
  intros [Hok Hark]. split; [eapply ok_sublist, Hok; apply sublist_app; [done | by apply sublist_cons] |].
  pose proof (runs_remove x l1 l2) as Hr. revert Hark. induction Hr as [| r r' rs rs' Hs _ IH]; [done |].
  intros [Ha Hark]%list.Forall_cons. constructor; [by eapply ark_sublist | by apply IH].
Qed.

(** The last run of a list, for another with the same markers. *)
Lemma inv_last (pre : Entries) (items items' : list HTMLStackItem) :
  marked pre -> Inv (pre ++ (Some <$> items)) -> ListOk (pre ++ (Some <$> items')) ->
  (ark items -> ark items') -> Inv (pre ++ (Some <$> items')).
Proof.
  intros Hm [Hok Hark] Hok' Himp. split; [done |]. destruct (runs_last pre Hm) as [rs Hrs].
  rewrite Hrs in *. apply list.Forall_app in Hark as [H1 H2]. apply list.Forall_app. split; [done |].
  rewrite list.Forall_singleton in H2. constructor; [by apply Himp | constructor].
Qed.

Lemma ark_evict (new : HTMLStackItem) (items : list HTMLStackItem) : ark items -> ark (evict new items ++ [new]).
Proof.
  intros Ha i. rewrite list.filter_app, length_app, list.filter_cons. cbn [filter list_filter].
  destruct (decide (twin i new)) as [H | H].
  - rewrite (list_filter_iff (twin i) (twin new)).
    + pose proof (evict_twins new items). simpl. lia.
    + intros c. split; intros H'; [etrans; [symmetry; exact H | exact H'] | by etrans].
  - simpl. rewrite Nat.add_0_r. apply (ark_sublist _ items); [apply sublist_filter | done].
Qed.

(** ** Every operation keeps the invariant *)

Lemma inv_append (new : HTMLStackItem) (l l' : Entries) :
  Inv l -> tagItem new -> m_node new ∉ nodes l -> append new l = Some l' -> Inv l'.
Proof.
  intros [Hok Hark] Hn Hf E. destruct (split_last l) as (pre & items & -> & Hm).
  rewrite entries_append in E by done. injection E as <-. eapply inv_last; [done | by split | | apply ark_evict].
  rewrite fmap_app, app_assoc. apply (ok_perm (Some new :: pre ++ (Some <$> evict new items))).
  { by rewrite (Permutation_app_comm _ [Some new]). }
  assert (Hs : sublist (pre ++ (Some <$> evict new items)) (pre ++ (Some <$> items))).
  { apply sublist_app; [done |]. apply fmap_sublist, sublist_filter. }
  apply ok_cons. split; [done |]. split; [| by eapply ok_sublist].
  intros H. apply Hf. by eapply elem_of_sublist; [| apply nodes_sublist].
Qed.

Lemma ark_swap (x i : HTMLStackItem) (items items' : list HTMLStackItem) :
  twin x i -> x :: items' ≡ₚ i :: items -> ark items -> ark items'.
Proof.
  intros Ht Hp Ha j. specialize (Ha j). apply (filter_Permutation (twin j)) in Hp.
  apply Permutation_length in Hp. rewrite !list.filter_cons in Hp.
  destruct (decide (twin j x)) as [H | H], (decide (twin j i)) as [H' | H']; simpl in Hp; try lia.
  destruct H. etrans; [exact H' | by symmetry].
Qed.

Lemma ok_inj (l : Entries) (x z : HTMLStackItem) (k : nat) :
  ListOk l -> Some x ∈ l -> l !! k = Some (Some z) -> m_node z = m_node x -> z = x.
Proof.
  intros Hok Hx Hz E. apply list_elem_of_split in Hx as (l1 & l2 & ->).
  apply (ok_perm _ (Some x :: l1 ++ l2)) in Hok; [| symmetry; apply Permutation_middle].
  apply ok_cons in Hok as (_ & Hn & _). apply list_elem_of_lookup_2 in Hz.
  apply elem_of_app in Hz as [Hz | [[= ->] | Hz]%elem_of_cons]; [| done |].
  all: destruct Hn; rewrite <- E; apply nodes_elem; exists z; split; [apply elem_of_app; auto | done].
Qed.

Lemma inv_replace_at (x i : HTMLStackItem) (k : nat) (l : Entries) :
  Inv l -> l !! k = Some (Some x) -> tagItem i -> twin x i -> m_node i ∉ nodes l -> Inv (<[k := Some i]> l).
Proof.
  intros Hinv Hk Hi Ht Hn. apply list_elem_of_split_length in Hk as (l1 & l2 & -> & ->).
  rewrite insert_app_r_alt, Nat.sub_diag by lia. by eapply inv_replace.
Qed.

(** [swapTo] to a bookmark that was moved: the item goes to after the mark, which is
    in the last run, and the old one away. *)
Lemma swap_moved (x i : HTMLStackItem) (k : nat) (pre l' : Entries) (items : list HTMLStackItem) :
  let l := pre ++ (Some <$> items) in
  ListOk l -> x ∈ items -> tagItem i -> m_node i ∉ nodes l -> (length pre <= k)%nat ->
  remove (Some (m_node x)) (take (S k) l ++ Some i :: drop (S k) l) = Some l' ->
  exists items', l' = pre ++ (Some <$> items') /\ x :: items' ≡ₚ i :: items /\ ListOk l'.
Proof.
  intros l Hok Hx Hi Hn Hk. unfold l. rewrite !take_app_ge, drop_app_ge by lia.
  rewrite <- fmap_take, <- fmap_drop. set (a := take _ items). set (b := drop _ items).
  assert (Hab : a ++ b = items) by apply take_drop.
  rewrite <- app_assoc. change (Some i :: (Some <$> b)) with (Some <$> (i :: b)). rewrite <- fmap_app.
  assert (Hp : a ++ i :: b ≡ₚ i :: items) by (by rewrite <- Permutation_middle, Hab).
  assert (Hok' : ListOk (pre ++ (Some <$> a ++ i :: b))).
  { apply (ok_perm (Some i :: l)); [| by apply ok_cons]. unfold l.
    rewrite Hp, fmap_cons. by rewrite Permutation_middle. }
  assert (Hx' : x ∈ a ++ i :: b) by (rewrite Hp; by right).
  apply list_elem_of_split in Hx' as (i1 & i2 & E). rewrite E in *.
  rewrite fmap_app, fmap_cons, app_assoc in Hok' |- *. intros Hr.
  assert (E' : l' = pre ++ (Some <$> i1 ++ i2)); [| exists (i1 ++ i2); split; [done |]].
  { pose proof Hok' as [Ht Hd]. apply list.Forall_app in Ht as [_ Ht].
    rewrite nodes_app in Hd. apply list.NoDup_app in Hd as (_ & _ & [Hd _]%list.NoDup_cons).
    rewrite entries_remove in Hr by done. injection Hr as <-. by rewrite fmap_app, app_assoc. }
  split; [by rewrite Permutation_middle | subst l'].
  eapply ok_sublist, Hok'. rewrite fmap_app, app_assoc. apply sublist_app; [done | by apply sublist_cons].
Qed.

Lemma inv_swap (x i : HTMLStackItem) (b : Bookmark) (pre l' : Entries) (items : list HTMLStackItem) :
  marked pre -> x ∈ items -> tagItem i -> twin x i -> (m_hasBeenMoved b = true -> (length pre <= m_mark b)%nat) ->
  Inv (pre ++ (Some <$> items)) -> swapTo (Some (m_node x)) i b (pre ++ (Some <$> items)) = Some l' -> Inv l'.
Proof.
  intros Hm Hx Hi Ht Hb Hinv. pose proof Hinv as [Hok _]. unfold swapTo.
  rewrite contains_ok by done. cbn [mbind option_bind]. intros (_ & E)%ASSERT_bind.
  rewrite element_some in E by done. cbn [mbind option_bind] in E. rewrite contains_ok in E by done.
  cbn [mbind option_bind] in E. apply ASSERT_bind in E as [Hn E]. apply negb_true_iff, bool_decide_eq_false in Hn.
  destruct (m_hasBeenMoved b); cbn [negb] in E.
  - apply ASSERT_bind in E as [_ E]. destruct (swap_moved x i (m_mark b) pre l' items) as (items' & -> & Hp & Hok'); try done.
    + by apply Hb.
    + eapply inv_last; [done | done | done |]. by eapply ark_swap.
  - destruct (_ !! m_mark b) as [e |] eqn:Ek; [| done]. cbn [mbind option_bind] in E. destruct e as [z |]; [| done].
    assert (Hz : tagItem z).
    { destruct Hok as [Hok _]. rewrite list.Forall_forall in Hok. apply (Hok (Some z)). by eapply list_elem_of_lookup_2. }
    cbn [entryElement mbind option_bind] in E. rewrite element_some in E by done. cbn [mbind option_bind] in E.
    apply ASSERT_bind in E as [Hzx E]. apply bool_decide_eq_true in Hzx. injection Hzx as Hzx. injection E as <-.
    eapply inv_replace_at; try done.
    assert (z = x) as ->; [| done]. eapply ok_inj; [done | | done | done].
    apply elem_of_app. right. by apply list_elem_of_fmap_2.
Qed.

Lemma inv_clear (l : Entries) : Inv l -> Inv (clearToLastMarker l).
Proof.
  intros Hinv. destruct (split_last l) as (pre & items & -> & Hm).
  destruct (clear_ok pre items Hm) as (pre' & -> & Hc).
  assert (Hpre : Inv pre).
  { rewrite <- (app_nil_r pre). apply (inv_last pre items []); [done | done | |].
    - eapply ok_sublist, Hinv. apply sublist_app; [done | apply sublist_nil_l].
    - intros _ i. simpl. lia. }
  destruct Hc as [[-> ->] | ->]; [done | by apply inv_marker].
Qed.

Lemma inv_step (l l' : Entries) : Step l l' -> Inv l -> Inv l'.
Proof.
  intros Hs Hinv. destruct Hs as [i l l' Hi Hn E | l | n l l' E | l | x i k l Hk Hi Ht Hn | x i b pre items l' Hm Hx Hi Ht Hb E].
  - by eapply inv_append.
  - by apply inv_marker.
  - apply remove_cases in E as [[-> _] | (x & l1 & l2 & -> & _ & ->)]; [done | by eapply inv_remove | apply Hinv].
  - by apply inv_clear.
  - by eapply inv_replace_at.
  - by eapply inv_swap.
Qed.

Lemma closestFrom_ok (tag : list Z) (pre rest : Entries) (items : list HTMLStackItem) :
  marked pre -> Forall tagItem items ->
  closestFrom tag (length pre + length items)%nat (pre ++ (Some <$> items) ++ rest)
  = Some (m_node <$> list.last (filter (fun i => matchesHTMLTag tag i = true) items)).
Proof.
  intros Hm. revert rest. induction items as [| x items IH] using rev_ind; intros rest Hok.
  - rewrite Nat.add_0_r. destruct Hm as [-> | [pre' ->]]; [done |].
    rewrite length_app, Nat.add_1_r. cbn [closestFrom]. rewrite <- app_assoc. by rewrite marker_below.
  - apply list.Forall_app in Hok as [Hok Hx]. rewrite list.Forall_singleton in Hx.
    rewrite length_snoc. cbn [closestFrom]. rewrite last_item, snoc_split. cbn [mbind option_bind].
    rewrite list.filter_app, list.filter_cons. cbn [filter list_filter].
    destruct (matchesHTMLTag tag x) eqn:E; simpl.
    + rewrite element_some by done. by rewrite list.last_snoc.
    + rewrite app_nil_r. by apply IH.
Qed.

(** ** The properties *)

(** Appending an element to a list whose last run is [items] fails no assertion and
    keeps everything, but for those twins (elements with the same name, namespace and
    attributes in any order) in the last run that have two later twins in it. *)
Theorem formatting_append (new : HTMLStackItem) (pre : Entries) (items : list HTMLStackItem) :
  marked pre -> tagItem new -> ListOk (pre ++ (Some <$> items)) ->
  append new (pre ++ (Some <$> items))
  = Some (pre ++ (Some <$> filter (fun c => c ∉ drop 2 (filter (twin new) (reverse items))) items ++ [new])).
Proof. apply entries_append. Qed.

(** C39: In every list the tree builder can make, no element is listed twice and between two
    markers there are at most three elements of one name, namespace and set of attributes;
    a new element can always be appended. *)
Theorem noahs_ark (l : Entries) :
  rtc Step [] l ->
  ListOk l /\ Forall ark (runs l) /\
  forall new, tagItem new -> m_node new ∉ nodes l -> exists l', append new l = Some l' /\ rtc Step [] l'.
Proof.
  intros Hs. assert (Hinv : Inv l).
  { revert Hs. apply (rtc_ind_r Inv []); [| intros l1 l2 _ H Hi; by eapply inv_step].
    repeat split; constructor; [| constructor]. intros i. simpl. lia. }
  split; [apply Hinv |]. split; [apply Hinv |]. intros new Hn Hf.
  destruct (split_last l) as (pre & items & E & Hm). assert (Ha := entries_append new pre items Hm Hn).
  rewrite <- E in Ha. eexists. split; [apply Ha, Hinv |]. eapply rtc_r; [exact Hs |].
  eapply step_append; [exact Hn | exact Hf |]. apply Ha, Hinv.
Qed.

(** Lookups stop at the last marker: the closest element with a tag name is the last of
    that name in the last run, and clearing removes the last run with its marker. *)
Theorem formatting_scope (tag : list Z) (pre : Entries) (items : list HTMLStackItem) :
  Forall tagItem items ->
  closestElementInScopeWithName tag (pre ++ None :: (Some <$> items))
  = Some (m_node <$> list.last (filter (fun i => matchesHTMLTag tag i = true) items)) /\
  closestElementInScopeWithName tag (Some <$> items)
  = Some (m_node <$> list.last (filter (fun i => matchesHTMLTag tag i = true) items)) /\
  clearToLastMarker (pre ++ None :: (Some <$> items)) = pre /\ clearToLastMarker (Some <$> items) = [].
Proof.
  intros Hok. assert (E : pre ++ None :: (Some <$> items) = (pre ++ [None]) ++ (Some <$> items)) by by rewrite <- app_assoc.
  assert (Hm : marked (pre ++ [None])) by (right; by exists pre). unfold closestElementInScopeWithName.
  pose proof (closestFrom_ok tag (pre ++ [None]) [] items Hm Hok) as H1.
  pose proof (closestFrom_ok tag [] [] items (or_introl eq_refl) Hok) as H2.
  rewrite app_nil_r in H1, H2. cbn [app length Nat.add] in H2.
  rewrite E, (length_app (pre ++ [None])), !length_fmap. repeat split; [exact H1 | exact H2 | |].
  - destruct (clear_ok _ items Hm) as (pre' & -> & [[H _] | H]); [by destruct pre | by apply app_inj_tail in H as [-> _]].
  - destruct (clear_ok [] items (or_introl eq_refl)) as (pre' & Ec & [[_ ->] | H]); [exact Ec | by destruct pre'].
Qed.

(** ** Examples *)

Definition bold (n : nat) (attributes : list Dom.Attribute) : HTMLStackItem :=
  mk (mkNode n (Some (htmlTagName "b"))) (Some (units "b")) attributes xhtmlNamespaceURI false.
Definition classA : Dom.Attribute := Dom.mkAttribute (domName (units "class")) (units "a").
Definition idB : Dom.Attribute := Dom.mkAttribute (domName (units "id")) (units "b").
Definition bolds : list HTMLStackItem := [bold 1 [classA; idB]; bold 2 []; bold 3 [idB; classA]; bold 4 [classA; idB]].

Lemma bold_tag (n : nat) (attributes : list Dom.Attribute) :
  NoDup ((fun a => key (Dom.name a)) <$> attributes) -> tagItem (bold n attributes).
Proof. intros H. split; [eauto | split; [eauto | done]]. Qed.

Lemma bolds_ok : Forall tagItem bolds.
Proof. repeat (constructor; [apply bold_tag; by apply (bool_decide_unpack _) |]). constructor. Qed.

Lemma bolds_list : ListOk ([None] ++ (Some <$> bolds)).
Proof.
  split; [constructor; [done | apply tagEntry_items, bolds_ok] |].
  apply (bool_decide_unpack _). vm_compute. exact I.
Qed.

Lemma formatting_append_witness :
  append (bold 5 [idB; classA]) ([None] ++ (Some <$> bolds))
  = Some ([None] ++ (Some <$> [bold 2 []; bold 3 [idB; classA]; bold 4 [classA; idB]; bold 5 [idB; classA]])).
Proof.
  rewrite (formatting_append (bold 5 [idB; classA]) [None] bolds).
  - reflexivity.
  - right. by exists [].
  - apply bold_tag. by apply (bool_decide_unpack _).
  - apply bolds_list.
Defined.

Lemma noahs_ark_witness :
  rtc Step [] [Some (bold 1 []); None] /\ Forall ark (runs [Some (bold 1 []); None]).
Proof.
  assert (Hs : rtc Step [] [Some (bold 1 []); None]).
  { eapply rtc_l; [| eapply rtc_once, (step_marker [Some (bold 1 [])])].
    apply (step_append (bold 1 [])); [apply bold_tag; constructor | by apply not_elem_of_nil | reflexivity]. }
  split; [exact Hs |]. apply (noahs_ark _ Hs).
Defined.

Lemma formatting_scope_witness :
  closestElementInScopeWithName (units "b") ([Some (bold 9 [])] ++ None :: (Some <$> bolds))
  = Some (Some (mkNode 4 (Some (htmlTagName "b")))).
Proof. exact (proj1 (formatting_scope (units "b") [Some (bold 9 [])] bolds bolds_ok)). Defined.
