(* ===== verification/HTMLElementStack.v ===== *)
(** * The stack of open elements: html/parser/HTMLElementStack.{h,cpp}

    The chain of records is a list with the top first.  A record has an address, which
    pointers to it hold, and an item; a new record is given its address.  The calls made
    on nodes, beginParsingChildren and finishParsingChildren, are kept in order.  A failed
    assertion or a null dereference is [None]. *)

From S2P Require Import Prelude HTMLToken AtomicHTMLToken HTMLStackItem.

Import HTMLStackItem.

Definition hasHTMLTag (s : string) (i : HTMLStackItem) : bool := hasTagName (htmlTagName s) i.

(** ** The markers of scopes *)

Definition isRootNode (i : HTMLStackItem) : bool := m_isDocumentFragmentNode i || hasHTMLTag "html" i.

Definition isScopeMarker (i : HTMLStackItem) : bool :=
  hasHTMLTag "applet" i || hasHTMLTag "caption" i || hasHTMLTag "marquee" i || hasHTMLTag "object" i ||
  isHTMLTableElement (m_node i) || hasHTMLTag "td" i || hasHTMLTag "th" i ||
  hasTagName (mathmlTagName "mi") i || hasTagName (mathmlTagName "mo") i || hasTagName (mathmlTagName "mn") i ||
  hasTagName (mathmlTagName "ms") i || hasTagName (mathmlTagName "mtext") i ||
  hasTagName (mathmlTagName "annotation-xml") i || hasTagName (svgTagName "foreignObject") i ||
  hasTagName (svgTagName "desc") i || hasTagName (svgTagName "title") i || isRootNode i.

Definition isListItemScopeMarker (i : HTMLStackItem) : bool :=
  isScopeMarker i || hasHTMLTag "ol" i || hasHTMLTag "ul" i.

Definition isTableScopeMarker (i : HTMLStackItem) : bool := isHTMLTableElement (m_node i) || isRootNode i.

Definition isTableBodyScopeMarker (i : HTMLStackItem) : bool :=
  hasHTMLTag "tbody" i || hasHTMLTag "tfoot" i || hasHTMLTag "thead" i || isRootNode i.

Definition isTableRowScopeMarker (i : HTMLStackItem) : bool := hasHTMLTag "tr" i || isRootNode i.

Definition isButtonScopeMarker (i : HTMLStackItem) : bool := isScopeMarker i || hasHTMLTag "button" i.

Definition isSelectScopeMarker (i : HTMLStackItem) : bool :=
  negb (isHTMLOptGroupElement (m_node i)) && negb (isHTMLOptionElement (m_node i)).

Definition isMathMLTextIntegrationPoint (i : HTMLStackItem) : bool :=
  if negb (isElementNode i) then false
  else hasTagName (mathmlTagName "mi") i || hasTagName (mathmlTagName "mo") i || hasTagName (mathmlTagName "mn") i ||
       hasTagName (mathmlTagName "ms") i || hasTagName (mathmlTagName "mtext") i.

(** equalIgnoringCase(const StringImpl*, const LChar* ) of two strings that are not null;
    the first pass is [None] when it meets the end of [b]. *)

Fixpoint asciiPass (a b : list Z) (ored : Z) (equal : bool) : option (Z * bool) :=
  match a with
  | [] => Some (ored, equal)
  | ac :: a' =>
      match b with
      | [] => None
      | bc :: b' => asciiPass a' b' (Z.lor ored ac) (equal && (toASCIILower ac =? toASCIILower bc))
      end
  end.

Fixpoint foldPass (foldCase : Z -> Z) (a b : list Z) : bool :=
  match a, b with
  | ac :: a', bc :: b' => (foldCase ac =? foldCase bc) && foldPass foldCase a' b'
  | _, _ => true
  end.

Definition equalIgnoringCase (foldCase : Z -> Z) (a b : list Z) : bool :=
  match asciiPass a b 0 true with
  | None => false
  | Some (ored, equal) =>
      let equal := if negb (Z.land ored (Z.lnot 0x7F) =? 0) then foldPass foldCase a b else equal in
      equal && Nat.eqb (length b) (length a)
  end.

Definition encodingAttr : QualifiedName := domName (units "encoding").

Definition isHTMLIntegrationPoint (foldCase : Z -> Z) (i : HTMLStackItem) : option bool :=
  if negb (isElementNode i) then Some false
  else if hasTagName (mathmlTagName "annotation-xml") i then
    attr ← getAttributeItem encodingAttr i;
    Some (match attr with
          | Some a => equalIgnoringCase foldCase (Dom.value a) (units "text/html")
                      || equalIgnoringCase foldCase (Dom.value a) (units "application/xhtml+xml")
          | None => false
          end)
  else Some (hasTagName (svgTagName "foreignObject") i || hasTagName (svgTagName "desc") i
             || hasTagName (svgTagName "title") i).

Definition isForeignContentScopeMarker (foldCase : Z -> Z) (i : HTMLStackItem) : option bool :=
  if isMathMLTextIntegrationPoint i then Some true
  else
    html ← isHTMLIntegrationPoint foldCase i;
    Some (html || isInHTMLNamespace i).

(** ** The stack *)

Record ElementRecord := mkRecord { recordAddress : nat; m_item : HTMLStackItem }.
#[export] Instance ElementRecord_eq_dec : EqDecision ElementRecord.
Proof. solve_decision. Defined.

Inductive NodeCall := BeginParsingChildren (n : Node) | FinishParsingChildren (n : Node).

Record HTMLElementStack := mkStack {
  m_top : list ElementRecord;
  m_rootNode : option Node;
  m_headElement : option Node;
  m_bodyElement : option Node;
  m_stackDepth : Z;
  m_calls : list NodeCall }.

Definition newStack : HTMLElementStack := mkStack [] None None None 0 [].

Definition set_top (top : list ElementRecord) (depth : Z) (calls : list NodeCall) (s : HTMLElementStack) : HTMLElementStack :=
  mkStack top (m_rootNode s) (m_headElement s) (m_bodyElement s) (depth mod 2 ^ 32) (m_calls s ++ calls).
Definition set_root (n : option Node) (s : HTMLElementStack) : HTMLElementStack :=
  mkStack (m_top s) n (m_headElement s) (m_bodyElement s) (m_stackDepth s) (m_calls s).
Definition set_head (n : option Node) (s : HTMLElementStack) : HTMLElementStack :=
  mkStack (m_top s) (m_rootNode s) n (m_bodyElement s) (m_stackDepth s) (m_calls s).
Definition set_body (n : option Node) (s : HTMLElementStack) : HTMLElementStack :=
  mkStack (m_top s) (m_rootNode s) (m_headElement s) n (m_stackDepth s) (m_calls s).

(** topRecord *)
Definition topRecord (s : HTMLElementStack) : option ElementRecord := head (m_top s).
Definition top (s : HTMLElementStack) : option Node := r ← topRecord s; element (m_item r).
Definition topNode (s : HTMLElementStack) : option Node := r ← topRecord s; Some (m_node (m_item r)).
Definition topStackItem (s : HTMLElementStack) : option HTMLStackItem := r ← topRecord s; Some (m_item r).

Definition oneBelowTop (s : HTMLElementStack) : option (option HTMLStackItem) :=
  match m_top s with
  | _ :: r :: _ => Some (if isElementNode (m_item r) then Some (m_item r) else None)
  | _ => None
  end.

Definition hasOnlyOneElement (s : HTMLElementStack) : option bool :=
  match m_top s with [] => None | [_] => Some true | _ => Some false end.

Definition secondElementIsHTMLBodyElement (s : HTMLElementStack) : option bool :=
  _ ← m_rootNode s; Some (match m_bodyElement s with Some _ => true | None => false end).

Definition rootNode (s : HTMLElementStack) : option Node := m_rootNode s.
Definition htmlElement (s : HTMLElementStack) : option Node := n ← m_rootNode s; toElement n.
Definition headElement (s : HTMLElementStack) : option Node := m_headElement s.
Definition bodyElement (s : HTMLElementStack) : option Node := m_bodyElement s.

(** ElementRecord::replaceElement of the record at an address. *)
Fixpoint replaceElement (address : nat) (item : HTMLStackItem) (l : list ElementRecord) : option (list ElementRecord) :=
  match l with
  | [] => None
  | r :: rest =>
      if Nat.eqb (recordAddress r) address
      then _ ← ASSERT (isElementNode (m_item r)); Some (mkRecord address item :: rest)
      else rest' ← replaceElement address item rest; Some (r :: rest')
  end.

(** ElementRecord::isAbove, for the record at the head of a list. *)
Definition isAbove (other : nat) (l : list ElementRecord) : bool :=
  existsb (fun below => Nat.eqb (recordAddress below) other) (tail l).

(** ** Pushing *)

Definition pushCommon (address : nat) (item : HTMLStackItem) (s : HTMLElementStack) : option HTMLElementStack :=
  _ ← m_rootNode s;
  Some (set_top (mkRecord address item :: m_top s) (m_stackDepth s + 1) [] s).

Definition pushRootNodeCommon (address : nat) (rootItem : HTMLStackItem) (s : HTMLElementStack) : option HTMLElementStack :=
  _ ← ASSERT (bool_decide (m_top s = []));
  _ ← ASSERT (bool_decide (m_rootNode s = None));
  pushCommon address rootItem (set_root (Some (m_node rootItem)) s).

Definition pushRootNode (address : nat) (rootItem : HTMLStackItem) (s : HTMLElementStack) : option HTMLElementStack :=
  _ ← ASSERT (m_isDocumentFragmentNode rootItem);
  pushRootNodeCommon address rootItem s.

Definition pushHTMLHtmlElement (address : nat) (item : HTMLStackItem) (s : HTMLElementStack) : option HTMLElementStack :=
  _ ← ASSERT (hasHTMLTag "html" item);
  pushRootNodeCommon address item s.

Definition pushHTMLHeadElement (address : nat) (item : HTMLStackItem) (s : HTMLElementStack) : option HTMLElementStack :=
  _ ← ASSERT (hasHTMLTag "head" item);
  _ ← ASSERT (bool_decide (m_headElement s = None));
  n ← element item;
  pushCommon address item (set_head (Some n) s).

Definition pushHTMLBodyElement (address : nat) (item : HTMLStackItem) (s : HTMLElementStack) : option HTMLElementStack :=
  _ ← ASSERT (hasHTMLTag "body" item);
  _ ← ASSERT (bool_decide (m_bodyElement s = None));
  n ← element item;
  pushCommon address item (set_body (Some n) s).

Definition push (address : nat) (item : HTMLStackItem) (s : HTMLElementStack) : option HTMLElementStack :=
  _ ← ASSERT (negb (hasHTMLTag "html" item));
  _ ← ASSERT (negb (hasHTMLTag "head" item));
  _ ← ASSERT (negb (hasHTMLTag "body" item));
  _ ← m_rootNode s;
  pushCommon address item s.

(** The loop of insertAbove: puts the new record before the one at [recordBelow]. *)
Fixpoint insertLoop (new : ElementRecord) (recordBelow : nat) (l : list ElementRecord) : option (list ElementRecord) :=
  match l with
  | [] => None
  | recordAbove :: rest =>
      match rest with
      | below :: _ =>
          if Nat.eqb (recordAddress below) recordBelow then Some (recordAbove :: new :: rest)
          else rest' ← insertLoop new recordBelow rest; Some (recordAbove :: rest')
      | [] => None
      end
  end.

Definition insertAbove (address : nat) (item : HTMLStackItem) (recordBelow : nat) (s : HTMLElementStack)
    : option HTMLElementStack :=
  r ← topRecord s;
  _ ← ASSERT (negb (hasHTMLTag "html" item));
  _ ← ASSERT (negb (hasHTMLTag "head" item));
  _ ← ASSERT (negb (hasHTMLTag "body" item));
  _ ← m_rootNode s;
  if Nat.eqb recordBelow (recordAddress r) then push address item s
  else
    l ← insertLoop (mkRecord address item) recordBelow (m_top s);
    n ← element item;
    Some (set_top l (m_stackDepth s + 1) [BeginParsingChildren n] s).

(** ** Popping *)

Definition popCommon (s : HTMLElementStack) : option HTMLElementStack :=
  item ← topStackItem s;
  _ ← ASSERT (negb (hasHTMLTag "html" item));
  _ ← ASSERT (negb (hasHTMLTag "head" item) || bool_decide (m_headElement s = None));
  _ ← ASSERT (negb (hasHTMLTag "body" item) || bool_decide (m_bodyElement s = None));
  n ← top s;
  Some (set_top (tail (m_top s)) (m_stackDepth s - 1) [FinishParsingChildren n] s).

Definition popHTMLHeadElement (s : HTMLElementStack) : option HTMLElementStack :=
  n ← top s;
  _ ← ASSERT (bool_decide (Some n = m_headElement s));
  popCommon (set_head None s).

Definition popHTMLBodyElement (s : HTMLElementStack) : option HTMLElementStack :=
  n ← top s;
  _ ← ASSERT (bool_decide (Some n = m_bodyElement s));
  popCommon (set_body None s).

Definition popAll (s : HTMLElementStack) : HTMLElementStack :=
  mkStack [] None None None 0 (m_calls s ++ ((fun r => FinishParsingChildren (m_node (m_item r))) <$> m_top s)).

Definition pop (s : HTMLElementStack) : option HTMLElementStack :=
  item ← topStackItem s;
  _ ← ASSERT (negb (hasHTMLTag "head" item));
  popCommon s.

(** while (!stop(top)) pop(), where [stop] may fail an assertion; every turn takes a
    record away, so that the fuel is the number of records. *)
Fixpoint popWhile (fuel : nat) (stop : HTMLElementStack -> option bool) (s : HTMLElementStack) : option HTMLElementStack :=
  stopped ← stop s;
  if (stopped : bool) then Some s
  else
    match fuel with
    | O => None
    | S fuel' => s1 ← pop s; popWhile fuel' stop s1
    end.

Definition onTopItem (stop : HTMLStackItem -> option bool) (s : HTMLElementStack) : option bool :=
  item ← topStackItem s; stop item.

Definition popUntilItem (stop : HTMLStackItem -> option bool) (s : HTMLElementStack) : option HTMLElementStack :=
  popWhile (length (m_top s)) (onTopItem stop) s.

(** popUntil(const AtomicString&) and popUntilPopped(const AtomicString&) *)
Definition popUntil (tagName : list Z) : HTMLElementStack -> option HTMLElementStack :=
  popUntilItem (fun item => Some (matchesHTMLTag tagName item)).
Definition popUntilPopped (tagName : list Z) (s : HTMLElementStack) : option HTMLElementStack :=
  s1 ← popUntil tagName s; pop s1.

Definition popUntilNumberedHeaderElementPopped (s : HTMLElementStack) : option HTMLElementStack :=
  s1 ← popUntilItem (fun item => Some (isNumberedHeaderElement item)) s; pop s1.

(** popUntil(Element* ) and popUntilPopped(Element* ) *)
Definition popUntilElement (n : Node) (s : HTMLElementStack) : option HTMLElementStack :=
  popWhile (length (m_top s)) (fun s => t ← top s; Some (bool_decide (t = n))) s.
Definition popUntilElementPopped (n : Node) (s : HTMLElementStack) : option HTMLElementStack :=
  s1 ← popUntilElement n s; pop s1.

Definition popUntilTableScopeMarker : HTMLElementStack -> option HTMLElementStack :=
  popUntilItem (fun item => Some (isTableScopeMarker item)).
Definition popUntilTableBodyScopeMarker : HTMLElementStack -> option HTMLElementStack :=
  popUntilItem (fun item => Some (isTableBodyScopeMarker item)).
Definition popUntilTableRowScopeMarker : HTMLElementStack -> option HTMLElementStack :=
  popUntilItem (fun item => Some (isTableRowScopeMarker item)).
Definition popUntilForeignContentScopeMarker (foldCase : Z -> Z) : HTMLElementStack -> option HTMLElementStack :=
  popUntilItem (isForeignContentScopeMarker foldCase).

(** ** Removing *)

(** The loop of removeNonTopCommon: the next record is read without a test for null. *)
Fixpoint removeLoop (n : Node) (l : list ElementRecord) : option (list ElementRecord) :=
  match l with
  | [] => None
  | pos :: rest =>
      match rest with
      | [] => None
      | next :: below =>
          nextElement ← element (m_item next);
          if bool_decide (nextElement = n) then Some (pos :: below)
          else rest' ← removeLoop n rest; Some (pos :: rest')
      end
  end.

Definition removeNonTopCommon (n : Node) (s : HTMLElementStack) : option HTMLElementStack :=
  _ ← ASSERT (negb (nodeHasTagName (htmlTagName "html") n));
  _ ← ASSERT (negb (nodeHasTagName (htmlTagName "body") n));
  t ← top s;
  _ ← ASSERT (negb (bool_decide (t = n)));
  l ← removeLoop n (m_top s);
  Some (set_top l (m_stackDepth s - 1) [FinishParsingChildren n] s).

Definition removeHTMLHeadElement (n : Node) (s : HTMLElementStack) : option HTMLElementStack :=
  _ ← ASSERT (bool_decide (m_headElement s = Some n));
  r ← topRecord s;
  t ← element (m_item r);
  if bool_decide (t = n) then popHTMLHeadElement s
  else removeNonTopCommon n (set_head None s).

Definition remove (n : Node) (s : HTMLElementStack) : option HTMLElementStack :=
  _ ← ASSERT (negb (nodeHasTagName (htmlTagName "head") n));
  r ← topRecord s;
  t ← element (m_item r);
  if bool_decide (t = n) then pop s
  else removeNonTopCommon n s.

(** ** Queries *)

(** The loops of find and topmost. *)
Fixpoint findRecord (found : ElementRecord -> bool) (l : list ElementRecord) : option ElementRecord :=
  match l with
  | [] => None
  | pos :: rest => if found pos then Some pos else findRecord found rest
  end.
Definition find (n : Node) (s : HTMLElementStack) : option ElementRecord :=
  findRecord (fun pos => bool_decide (m_node (m_item pos) = n)) (m_top s).
Definition topmost (tagName : list Z) (s : HTMLElementStack) : option ElementRecord :=
  findRecord (fun pos => matchesHTMLTag tagName (m_item pos)) (m_top s).
Definition contains (n : Node) (s : HTMLElementStack) : bool := match find n s with Some _ => true | None => false end.
Definition containsTag (tagName : list Z) (s : HTMLElementStack) : bool :=
  match topmost tagName s with Some _ => true | None => false end.

(** The loops of inScopeCommon, inScope(Element* ) and hasNumberedHeaderElementInScope. *)
Fixpoint inScopeLoop (isTarget isMarker : HTMLStackItem -> bool) (l : list ElementRecord) : option bool :=
  match l with
  | [] => None
  | pos :: rest =>
      let item := m_item pos in
      if isTarget item then Some true
      else if isMarker item then Some false
      else inScopeLoop isTarget isMarker rest
  end.

Definition inScopeCommon (isMarker : HTMLStackItem -> bool) (l : list ElementRecord) (targetTag : list Z) : option bool :=
  inScopeLoop (matchesHTMLTag targetTag) isMarker l.

Definition hasNumberedHeaderElementInScope (s : HTMLElementStack) : option bool :=
  inScopeLoop isNumberedHeaderElement isScopeMarker (m_top s).
Definition inScopeElement (n : Node) (s : HTMLElementStack) : option bool :=
  inScopeLoop (fun item => bool_decide (m_node item = n)) isScopeMarker (m_top s).
Definition inScope (targetTag : list Z) (s : HTMLElementStack) : option bool :=
  inScopeCommon isScopeMarker (m_top s) targetTag.
Definition inListItemScope (targetTag : list Z) (s : HTMLElementStack) : option bool :=
  inScopeCommon isListItemScopeMarker (m_top s) targetTag.
Definition inTableScope (targetTag : list Z) (s : HTMLElementStack) : option bool :=
  inScopeCommon isTableScopeMarker (m_top s) targetTag.
Definition inButtonScope (targetTag : list Z) (s : HTMLElementStack) : option bool :=
  inScopeCommon isButtonScopeMarker (m_top s) targetTag.
Definition inSelectScope (targetTag : list Z) (s : HTMLElementStack) : option bool :=
  inScopeCommon isSelectScopeMarker (m_top s) targetTag.

(** The loop of furthestBlockForFormattingElement. *)
Fixpoint furthestBlockLoop (formattingElement : Node) (furthestBlock : option ElementRecord) (l : list ElementRecord)
    : option (option ElementRecord) :=
  match l with
  | [] => None
  | pos :: rest =>
      n ← element (m_item pos);
      if bool_decide (n = formattingElement) then Some furthestBlock
      else furthestBlockLoop formattingElement (if isSpecialNode (m_item pos) then Some pos else furthestBlock) rest
  end.
Definition furthestBlockForFormattingElement (formattingElement : Node) (s : HTMLElementStack)
    : option (option ElementRecord) :=
  furthestBlockLoop formattingElement None (m_top s).
