(* ===== verification/ElementStackTheorems.v ===== *)
(** * The stack of open elements: its invariant and its queries

    In every state that can be reached the depth counts the records, the root is at the
    bottom and the only root, and the pointers to <head> and <body> are those of the
    records with these tags.  This is what the assertions that can not fail rest on:
    every walk for a scope meets a marker. *)

From stdpp Require Import sets relations.
From S2P Require Import Prelude HTMLToken AtomicHTMLToken HTMLStackItem HTMLElementStack.

Import HTMLStackItem.

(** ** The invariant *)

Definition recordNode (r : ElementRecord) : Node := m_node (m_item r).
Definition recordIs (s : string) (r : ElementRecord) : bool := hasHTMLTag s (m_item r).
Definition isRoot (r : ElementRecord) : bool := isRootNode (m_item r).

(** The records with a tag are that of a pointer to an element. *)
Definition pointsTo (p : option Node) (s : string) (l : list ElementRecord) : Prop :=
  recordNode <$> filter (fun r => recordIs s r = true) l = option_list p.

Definition Rooted (root : option Node) (l : list ElementRecord) : Prop :=
  match root with
  | None => l = []
  | Some n => exists above r, l = above ++ [r] /\ recordNode r = n /\ isRoot r = true /\
                              Forall (fun r => isRoot r = false) above
  end.

Record StackOk (s : HTMLElementStack) : Prop := {
  ok_depth : m_stackDepth s = Z.of_nat (length (m_top s)) mod 2 ^ 32;
  ok_addresses : NoDup (recordAddress <$> m_top s);
  ok_nodes : NoDup (recordNode <$> m_top s);
  ok_items : Forall (fun r => itemOk (m_item r)) (m_top s);
  ok_rooted : Rooted (m_rootNode s) (m_top s);
  ok_head : pointsTo (m_headElement s) "head" (m_top s);
  ok_body : pointsTo (m_bodyElement s) "body" (m_top s) }.

(** A new record: its address and its node are on no other record. *)
Definition freshRecord (address : nat) (item : HTMLStackItem) (s : HTMLElementStack) : Prop :=
  (address ∉ recordAddress <$> m_top s) /\ (m_node item ∉ recordNode <$> m_top s) /\ itemOk item.

(** The tree builder's operations on the stack.  A record's element is replaced in the
    adoption agency, by one made from the same token. *)
Inductive Step : HTMLElementStack -> HTMLElementStack -> Prop :=
| step_root a i s s' : freshRecord a i s -> pushRootNode a i s = Some s' -> Step s s'
| step_html a i s s' : freshRecord a i s -> pushHTMLHtmlElement a i s = Some s' -> Step s s'
| step_head a i s s' : freshRecord a i s -> pushHTMLHeadElement a i s = Some s' -> Step s s'
| step_body a i s s' : freshRecord a i s -> pushHTMLBodyElement a i s = Some s' -> Step s s'
| step_push a i s s' :
    freshRecord a i s -> isElementNode i = true -> push a i s = Some s' -> Step s s'
| step_insert a i below s s' :
    freshRecord a i s -> isElementNode i = true -> insertAbove a i below s = Some s' -> Step s s'
| step_pop s s' : pop s = Some s' -> Step s s'
| step_pop_head s s' : popHTMLHeadElement s = Some s' -> Step s s'
| step_pop_body s s' : popHTMLBodyElement s = Some s' -> Step s s'
| step_pop_all s : Step s (popAll s)
| step_pop_until stop s s' : popUntilItem stop s = Some s' -> Step s s'
| step_pop_until_element n s s' : popUntilElement n s = Some s' -> Step s s'
| step_remove n s s' : remove n s = Some s' -> Step s s'
| step_remove_head n s s' : removeHTMLHeadElement n s = Some s' -> Step s s'
| step_replace r i l s :
    r ∈ m_top s -> m_node i ∉ recordNode <$> m_top s -> itemOk i -> isRoot r = false ->
    recordIs "head" r = false -> recordIs "body" r = false ->
    m_tokenLocalName i = m_tokenLocalName (m_item r) -> m_namespaceURI i = m_namespaceURI (m_item r) ->
    m_isDocumentFragmentNode i = false ->
    replaceElement (recordAddress r) i (m_top s) = Some l ->
    Step s (mkStack l (m_rootNode s) (m_headElement s) (m_bodyElement s) (m_stackDepth s) (m_calls s)).

(** ** Lemmas on items *)

Lemma itemOk_element (i : HTMLStackItem) : itemOk i -> m_isDocumentFragmentNode i = false -> element i = Some (m_node i).
Proof.
  unfold itemOk, element. destruct (m_node i) as [a [q |]]; simpl; [done |].
  intros Hi Hf. exfalso. rewrite Hi in Hf. discriminate.
Qed.

Lemma itemOk_fragment (i : HTMLStackItem) : itemOk i -> m_isDocumentFragmentNode i = true -> element i = None.
Proof. unfold itemOk, element. destruct (m_node i) as [a [q |]]; simpl; [by intros [-> _] | done]. Qed.

Lemma not_root_element (r : ElementRecord) : itemOk (m_item r) -> isRoot r = false -> element (m_item r) = Some (recordNode r).
Proof.
  intros Hi Hr. unfold isRoot, isRootNode in Hr. apply orb_false_iff in Hr as [Hf _]. by apply itemOk_element.
Qed.

Lemma hasHTMLTag_name (s : string) (i : HTMLStackItem) :
  hasHTMLTag s i = true <-> m_tokenLocalName i = Some (units s) /\ m_namespaceURI i = xhtmlNamespaceURI.
Proof. unfold hasHTMLTag. rewrite hasTagName_spec. done. Qed.

Lemma head_not_root (r : ElementRecord) (s : string) :
  itemOk (m_item r) -> units s <> units "html" -> recordIs s r = true -> isRoot r = false.
Proof.
  unfold recordIs, isRoot, isRootNode. intros Hi Hs [Hl Hn]%hasHTMLTag_name. apply orb_false_iff. split.
  - unfold itemOk in Hi. destruct (elementName _) as [q |]; [apply Hi |]. rewrite Hi in Hl. discriminate.
  - apply not_true_is_false. intros [Hl' _]%hasHTMLTag_name. congruence.
Qed.

Lemma root_scope_marker (i : HTMLStackItem) : isRootNode i = true -> isScopeMarker i = true.
Proof. unfold isScopeMarker. intros ->. by rewrite !orb_true_r. Qed.

Lemma root_not_option (i : HTMLStackItem) : itemOk i -> isRootNode i = true -> isSelectScopeMarker i = true.
Proof.
  intros Hi Hr. unfold isSelectScopeMarker, isHTMLOptGroupElement, isHTMLOptionElement.
  rewrite !nodeHasTagName_item by done. apply andb_true_iff. rewrite !negb_true_iff, <- !not_true_iff_false, !hasTagName_spec.
  unfold isRootNode in Hr. apply orb_true_iff in Hr as [Hf | [Hl _]%hasHTMLTag_name].
  - assert (E : m_tokenLocalName i = None); [| rewrite E; split; intros [[=] _]].
    unfold itemOk in Hi. destruct (elementName _) as [q |]; [destruct Hi; congruence |]. by rewrite Hi.
  - rewrite Hl. split; intros [[=] _].
Qed.

(** ** Inserting and deleting a record *)

Lemma rooted_app (n : Node) (above below : list ElementRecord) :
  below <> [] ->
  (Rooted (Some n) (above ++ below) <-> Forall (fun r => isRoot r = false) above /\ Rooted (Some n) below).
Proof.
  intros Hb. simpl. split.
  - intros (l & r & E & Hn & Hr & Hl). destruct (exists_last Hb) as (b & x & ->).
    rewrite app_assoc in E. apply app_inj_tail in E as [<- ->]. apply list.Forall_app in Hl as [Ha Hl].
    split; [done |]. by exists b, r.
  - intros [Ha (l & r & -> & Hn & Hr & Hl)]. exists (above ++ l), r. rewrite app_assoc.
    repeat split; try done. by apply list.Forall_app.
Qed.

Lemma pointsTo_other (p : option Node) (t : string) (above below : list ElementRecord) (r : ElementRecord) :
  recordIs t r = false -> (pointsTo p t (above ++ r :: below) <-> pointsTo p t (above ++ below)).
Proof.
  intros Hr. unfold pointsTo. rewrite !list.filter_app, list.filter_cons_False by (by rewrite Hr). done.
Qed.

Lemma pointsTo_new (t : string) (above below : list ElementRecord) (r : ElementRecord) :
  recordIs t r = true -> pointsTo None t (above ++ below) -> pointsTo (Some (recordNode r)) t (above ++ r :: below).
Proof.
  intros Hr. unfold pointsTo. rewrite !list.filter_app, list.filter_cons_True by done. rewrite !fmap_app, fmap_cons.
  by intros [-> ->]%app_nil.
Qed.

Lemma pointsTo_gone (p : option Node) (t : string) (above below : list ElementRecord) (r : ElementRecord) :
  recordIs t r = true -> pointsTo p t (above ++ r :: below) -> p = Some (recordNode r) /\ pointsTo None t (above ++ below).
Proof.
  intros Hr. unfold pointsTo. rewrite !list.filter_app, list.filter_cons_True by done. rewrite !fmap_app, fmap_cons.
  destruct p as [n |]; simpl.
  - destruct (recordNode <$> filter _ above) as [| x xs]; simpl.
    + by intros [= <- ->].
    + intros [= _ E]. by destruct xs.
  - intros E. by destruct (recordNode <$> filter _ above).
Qed.

Lemma pointsTo_none (p : option Node) (t : string) (l : list ElementRecord) (r : ElementRecord) :
  pointsTo p t l -> r ∈ l -> recordIs t r = true -> p = Some (recordNode r).
Proof. intros Hp (above & below & ->)%list_elem_of_split Hr. by eapply pointsTo_gone. Qed.

Section Change.
Context (s : HTMLElementStack) (above below : list ElementRecord) (r : ElementRecord).
Context (h b : option Node) (calls : list NodeCall).
Context (Hs : StackOk s) (Hbelow : below <> []).

Lemma ok_insert :
  m_top s = above ++ below -> freshRecord (recordAddress r) (m_item r) s -> isRoot r = false ->
  pointsTo h "head" (above ++ r :: below) -> pointsTo b "body" (above ++ r :: below) ->
  StackOk (mkStack (above ++ r :: below) (m_rootNode s) h b ((m_stackDepth s + 1) mod 2 ^ 32) calls).
Proof.
  intros Et (Ha & Hn & Hi) Hr Hh Hb. destruct Hs as [Hdepth Haddr Hnodes Hitems Hroot _ _].
  rewrite Et in *.
  assert (Hp : forall A (f : ElementRecord -> A), f <$> above ++ r :: below ≡ₚ f r :: (f <$> above ++ below)).
  { intros A f. rewrite <- fmap_cons. by rewrite Permutation_middle. }
  constructor; simpl.
  - rewrite Hdepth, !length_app, Zplus_mod_idemp_l. f_equal. simpl. lia.
  - rewrite Hp. by apply list.NoDup_cons.
  - rewrite Hp. by apply list.NoDup_cons.
  - apply list.Forall_app in Hitems as [H1 H2]. apply list.Forall_app. by repeat constructor.
  - destruct (m_rootNode s) as [n |]; [| by apply app_nil in Hroot as [_ ->]].
    apply rooted_app in Hroot as [H1 H2]; [| done]. apply rooted_app; [done |]. split; [done |].
    apply (rooted_app n [r] below); [done |]. by repeat constructor.
  - done.
  - done.
Qed.

Lemma ok_delete :
  m_top s = above ++ r :: below ->
  pointsTo h "head" (above ++ below) -> pointsTo b "body" (above ++ below) ->
  StackOk (mkStack (above ++ below) (m_rootNode s) h b ((m_stackDepth s - 1) mod 2 ^ 32) calls).
Proof.
  intros Et Hh Hb. destruct Hs as [Hdepth Haddr Hnodes Hitems Hroot _ _]. rewrite Et in *.
  assert (Hsub : sublist (above ++ below) (above ++ r :: below)) by (apply sublist_app; [done | by apply sublist_cons]).
  constructor; simpl.
  - rewrite Hdepth, !length_app, Zminus_mod_idemp_l. f_equal. simpl. lia.
  - eapply sublist_NoDup; [exact Haddr | by apply fmap_sublist].
  - eapply sublist_NoDup; [exact Hnodes | by apply fmap_sublist].
  - apply list.Forall_app in Hitems as [H1 [_ H2]%list.Forall_cons]. by apply list.Forall_app.
  - destruct (m_rootNode s) as [n |]; [| by apply app_nil in Hroot as [_ ?]].
    apply rooted_app in Hroot as [H1 H2]; [| done]. apply rooted_app; [done |]. split; [done |].
    apply (rooted_app n [r] below) in H2 as [_ H2]; done.
  - done.
  - done.
Qed.
End Change.

(** ** Every operation keeps the invariant *)

Lemma rooted_nonempty (s : HTMLElementStack) (n : Node) : StackOk s -> m_rootNode s = Some n -> m_top s <> [].
Proof.
  intros [_ _ _ _ Hr _ _] E. rewrite E in Hr. destruct Hr as (above & r & -> & _). by destruct above.
Qed.

Lemma not_tag (t : string) (i : HTMLStackItem) (a : nat) : hasHTMLTag t i = false -> recordIs t (mkRecord a i) = false.
Proof. done. Qed.

Lemma tags_differ (t t' : string) (r : ElementRecord) : units t <> units t' -> recordIs t r = true -> recordIs t' r = false.
Proof.
  intros Ht [Hl _]%hasHTMLTag_name. apply not_true_is_false. intros [Hl' _]%hasHTMLTag_name. congruence.
Qed.

Lemma root_ok (a : nat) (i : HTMLStackItem) (s s' : HTMLElementStack) :
  StackOk s -> freshRecord a i s -> isRootNode i = true -> pushRootNodeCommon a i s = Some s' -> StackOk s'.
Proof.
  intros [Hd _ _ _ _ Hh Hb] (_ & _ & Hi) Hr E. unfold pushRootNodeCommon in E.
  apply ASSERT_bind in E as [Et%bool_decide_eq_true E]. apply ASSERT_bind in E as [_ E]. injection E as <-.
  rewrite Et in *. unfold set_top. simpl.
  assert (Hn : forall t, units t <> units "html" -> recordIs t (mkRecord a i) = false).
  { intros t Ht. destruct (recordIs t (mkRecord a i)) eqn:Er; [| done].
    exfalso. eapply (head_not_root (mkRecord a i) t) in Er; [| done | done]. unfold isRoot in Er. simpl in Er. congruence. }
  constructor; simpl.
  - rewrite Hd. done.
  - repeat constructor. apply not_elem_of_nil.
  - repeat constructor. apply not_elem_of_nil.
  - by repeat constructor.
  - by exists [], (mkRecord a i).
  - apply (pointsTo_other _ _ [] []); [by apply Hn | done].
  - apply (pointsTo_other _ _ [] []); [by apply Hn | done].
Qed.

Lemma not_root_item (i : HTMLStackItem) :
  isElementNode i = true -> hasHTMLTag "html" i = false -> isRootNode i = false.
Proof. intros Hf%negb_true_iff Hh. unfold isRootNode. by rewrite Hf, Hh. Qed.

Lemma push_keeps (a : nat) (i : HTMLStackItem) (s s' : HTMLElementStack) :
  StackOk s -> freshRecord a i s -> isElementNode i = true -> push a i s = Some s' -> StackOk s'.
Proof.
  intros Hs Hf Hi E. unfold push in E. do 3 (apply ASSERT_bind in E as [?%negb_true_iff E]).
  unfold pushCommon in E. destruct (m_rootNode s) as [n |] eqn:En; [| done]. injection E as <-.
  pose proof Hs as [_ _ _ _ _ Hh Hb]. unfold set_top. 
  apply (ok_insert s [] (m_top s) (mkRecord a i) (m_headElement s) (m_bodyElement s)); try done.
  - by eapply rooted_nonempty.
  - by apply not_root_item.
  - by apply (pointsTo_other _ _ []).
  - by apply (pointsTo_other _ _ []).
Qed.

Lemma push_head_ok (a : nat) (i : HTMLStackItem) (s s' : HTMLElementStack) :
  StackOk s -> freshRecord a i s -> pushHTMLHeadElement a i s = Some s' -> StackOk s'.
Proof.
  intros Hs Hf E. unfold pushHTMLHeadElement in E. apply ASSERT_bind in E as [Ht E].
  apply ASSERT_bind in E as [Ep%bool_decide_eq_true E].
  pose proof (head_not_root (mkRecord a i) "head" (proj2 (proj2 Hf)) ltac:(discriminate) Ht) as Hr.
  pose proof (not_root_element (mkRecord a i) (proj2 (proj2 Hf)) Hr) as Ee. simpl in Ee.
  rewrite Ee in E. cbn [mbind option_bind] in E.
  unfold pushCommon in E. simpl in E. destruct (m_rootNode s) as [n |] eqn:En; [| done]. injection E as <-.
  pose proof Hs as [_ _ _ _ _ Hh Hb]. rewrite Ep in Hh.
  apply (ok_insert s [] (m_top s) (mkRecord a i) (Some (m_node i)) (m_bodyElement s)); try done.
  - by eapply rooted_nonempty.
  - by apply (pointsTo_new "head" [] (m_top s) (mkRecord a i)).
  - apply (pointsTo_other _ _ []); [by eapply (tags_differ "head") | done].
Qed.

Lemma push_body_ok (a : nat) (i : HTMLStackItem) (s s' : HTMLElementStack) :
  StackOk s -> freshRecord a i s -> pushHTMLBodyElement a i s = Some s' -> StackOk s'.
Proof.
  intros Hs Hf E. unfold pushHTMLBodyElement in E. apply ASSERT_bind in E as [Ht E].
  apply ASSERT_bind in E as [Ep%bool_decide_eq_true E].
  pose proof (head_not_root (mkRecord a i) "body" (proj2 (proj2 Hf)) ltac:(discriminate) Ht) as Hr.
  pose proof (not_root_element (mkRecord a i) (proj2 (proj2 Hf)) Hr) as Ee. simpl in Ee.
  rewrite Ee in E. cbn [mbind option_bind] in E.
  unfold pushCommon in E. simpl in E. destruct (m_rootNode s) as [n |] eqn:En; [| done]. injection E as <-.
  pose proof Hs as [_ _ _ _ _ Hh Hb]. rewrite Ep in Hb.
  apply (ok_insert s [] (m_top s) (mkRecord a i) (m_headElement s) (Some (m_node i))); try done.
  - by eapply rooted_nonempty.
  - apply (pointsTo_other _ _ []); [by eapply (tags_differ "body") | done].
  - by apply (pointsTo_new "body" [] (m_top s) (mkRecord a i)).
Qed.

Lemma insertLoop_ok (new : ElementRecord) (address : nat) (l l' : list ElementRecord) :
  insertLoop new address l = Some l' ->
  exists above below r, l = above ++ r :: below /\ l' = above ++ new :: r :: below /\ recordAddress r = address.
Proof.
  revert l'. induction l as [| x [| y l] IH]; intros l' E; [done | done |]. cbn [insertLoop] in E.
  destruct (Nat.eqb_spec (recordAddress y) address) as [Ha | Ha].
  - injection E as <-. by exists [x], l, y.
  - apply bind_Some in E as (m & E & [= <-]). destruct (IH m E) as (above & below & r & -> & -> & Hr).
    by exists (x :: above), below, r.
Qed.

Lemma insert_keeps (a below : nat) (i : HTMLStackItem) (s s' : HTMLElementStack) :
  StackOk s -> freshRecord a i s -> isElementNode i = true -> insertAbove a i below s = Some s' -> StackOk s'.
Proof.
  intros Hs Hf Hi E. unfold insertAbove in E. apply bind_Some in E as (t & Et & E).
  do 3 (apply ASSERT_bind in E as [?%negb_true_iff E]). apply bind_Some in E as (root & Er & E).
  destruct (Nat.eqb _ _); [by eapply push_keeps |].
  apply bind_Some in E as (l & El & E). apply bind_Some in E as (n & _ & [= <-]).
  apply insertLoop_ok in El as (ab & be & r & Etop & -> & _).
  pose proof Hs as [_ _ _ _ _ Hh Hb]. rewrite Etop in Hh, Hb.
  apply (ok_insert s ab (r :: be) (mkRecord a i) (m_headElement s) (m_bodyElement s)); try done.
  - by apply not_root_item.
  - by apply pointsTo_other.
  - by apply pointsTo_other.
Qed.

Lemma element_inv (i : HTMLStackItem) (n : Node) :
  itemOk i -> element i = Some n -> n = m_node i /\ m_isDocumentFragmentNode i = false.
Proof.
  intros Hi E. destruct (m_isDocumentFragmentNode i) eqn:Ef.
  - by rewrite itemOk_fragment in E.
  - rewrite itemOk_element in E by done. by injection E as <-.
Qed.

Lemma record_item (r : ElementRecord) (s : HTMLElementStack) : StackOk s -> r ∈ m_top s -> itemOk (m_item r).
Proof. intros [_ _ _ Hi _ _ _] Hr. rewrite list.Forall_forall in Hi. by apply Hi. Qed.

Lemma nonroot_below (s : HTMLElementStack) (above below : list ElementRecord) (r : ElementRecord) :
  StackOk s -> m_top s = above ++ r :: below -> isRoot r = false -> below <> [].
Proof.
  intros [_ _ _ _ Hr _ _] E Hf ->. rewrite E in Hr. destruct (m_rootNode s) as [n |]; [| by destruct above].
  destruct Hr as (ab & r' & E' & _ & Hr' & _). apply app_inj_tail in E' as [_ ->]. congruence.
Qed.

Lemma top_record (s : HTMLElementStack) (r : ElementRecord) (l : list ElementRecord) : m_top s = r :: l -> r ∈ m_top s.
Proof. intros ->. by left. Qed.

(** The record of the head or of the body, once and where the pointer says. *)
Lemma pointsTo_record (s : HTMLElementStack) (n : Node) (t : string) (r : ElementRecord) :
  StackOk s -> pointsTo (Some n) t (m_top s) -> r ∈ m_top s -> recordNode r = n -> recordIs t r = true.
Proof.
  intros [_ _ Hn _ _ _ _] Hp Hr E. assert (Hin : n ∈ recordNode <$> filter (fun r => recordIs t r = true) (m_top s)).
  { rewrite Hp. by left. }
  apply list_elem_of_fmap in Hin as (r' & E' & [Ht Hr']%list_elem_of_filter).
  assert (r = r') as ->; [| done]. apply list_elem_of_lookup in Hr as [i Hi], Hr' as [j Hj].
  assert (i = j) as ->; [| congruence].
  eapply (NoDup_lookup _ i j n Hn); rewrite list_lookup_fmap; [rewrite Hi | rewrite Hj]; simpl; congruence.
Qed.

Lemma popCommon_inv (s s' : HTMLElementStack) :
  popCommon s = Some s' ->
  exists r rest, m_top s = r :: rest /\ recordIs "html" r = false /\
    (recordIs "head" r = true -> m_headElement s = None) /\ (recordIs "body" r = true -> m_bodyElement s = None) /\
    exists n, element (m_item r) = Some n /\ s' = set_top rest (m_stackDepth s - 1) [FinishParsingChildren n] s.
Proof.
  unfold popCommon, topStackItem, top, topRecord. intros E. apply bind_Some in E as (i & Ei & E).
  destruct (m_top s) as [| r rest] eqn:Et; [done |]. injection Ei as <-. exists r, rest.
  apply ASSERT_bind in E as [H1%negb_true_iff E].
  apply ASSERT_bind in E as [H2%orb_true_iff E]. apply ASSERT_bind in E as [H3%orb_true_iff E].
  apply bind_Some in E as (n & En & [= <-]). unfold recordIs. rewrite negb_true_iff, bool_decide_eq_true in H2, H3.
  split; [done |]. split; [done |]. split; [intros; destruct H2; congruence |]. split; [intros; destruct H3; congruence |].
  by exists n.
Qed.

Lemma element_not_root (r : ElementRecord) (n : Node) :
  itemOk (m_item r) -> element (m_item r) = Some n -> recordIs "html" r = false -> isRoot r = false /\ n = recordNode r.
Proof.
  intros Hi En Hh. apply element_inv in En as [-> Hf]; [| done]. split; [| done].
  unfold isRoot, isRootNode. by rewrite Hf.
Qed.

Lemma pop_keeps (s s' : HTMLElementStack) : StackOk s -> pop s = Some s' -> StackOk s'.
Proof.
  intros Hs E. unfold pop in E. apply bind_Some in E as (i & Ei & E). apply ASSERT_bind in E as [Hi%negb_true_iff E].
  apply popCommon_inv in E as (r & rest & Et & Hh & _ & Hb & n & En & ->).
  unfold topStackItem, topRecord in Ei. rewrite Et in Ei. injection Ei as <-.
  pose proof (record_item r s Hs (top_record _ _ _ Et)) as Hok.
  destruct (element_not_root r n Hok En Hh) as [Hr _].
  pose proof Hs as [_ _ _ _ _ Hph Hpb]. rewrite Et in Hph, Hpb. unfold set_top.
  assert (Hbody : recordIs "body" r = false).
  { apply not_true_is_false. intros Hbody. pose proof (pointsTo_none _ _ _ r Hpb (list_elem_of_here _ _) Hbody).
    specialize (Hb Hbody). congruence. }
  apply (ok_delete s [] rest r); try done.
  - by eapply (nonroot_below s []).
  - by apply (pointsTo_other _ _ [] rest r).
  - by apply (pointsTo_other _ _ [] rest r).
Qed.

Lemma pop_head_ok (s s' : HTMLElementStack) : StackOk s -> popHTMLHeadElement s = Some s' -> StackOk s'.
Proof.
  intros Hs E. unfold popHTMLHeadElement in E. apply bind_Some in E as (n & En & E).
  apply ASSERT_bind in E as [Hn%bool_decide_eq_true E].
  apply popCommon_inv in E as (r & rest & Et & Hh & _ & _ & n' & En' & ->). simpl in Et.
  unfold top, topRecord in En. rewrite Et in En. cbn in En.
  pose proof (record_item r s Hs (top_record _ _ _ Et)) as Hok.
  destruct (element_not_root r n Hok En Hh) as [Hr ->].
  pose proof Hs as [_ _ _ _ _ Hph Hpb]. rewrite <- Hn in Hph.
  pose proof (pointsTo_record s _ "head" r Hs Hph (top_record _ _ _ Et) eq_refl) as Htag. rewrite Et in Hph, Hpb.
  apply (ok_delete s [] rest r); try done.
  - by eapply (nonroot_below s []).
  - by eapply (pointsTo_gone _ _ [] rest r).
  - apply (pointsTo_other _ _ [] rest r); [by eapply (tags_differ "head") | done].
Qed.

Lemma pop_body_ok (s s' : HTMLElementStack) : StackOk s -> popHTMLBodyElement s = Some s' -> StackOk s'.
Proof.
  intros Hs E. unfold popHTMLBodyElement in E. apply bind_Some in E as (n & En & E).
  apply ASSERT_bind in E as [Hn%bool_decide_eq_true E].
  apply popCommon_inv in E as (r & rest & Et & Hh & _ & _ & n' & En' & ->). simpl in Et.
  unfold top, topRecord in En. rewrite Et in En. cbn in En.
  pose proof (record_item r s Hs (top_record _ _ _ Et)) as Hok.
  destruct (element_not_root r n Hok En Hh) as [Hr ->].
  pose proof Hs as [_ _ _ _ _ Hph Hpb]. rewrite <- Hn in Hpb.
  pose proof (pointsTo_record s _ "body" r Hs Hpb (top_record _ _ _ Et) eq_refl) as Htag. rewrite Et in Hph, Hpb.
  apply (ok_delete s [] rest r); try done.
  - by eapply (nonroot_below s []).
  - apply (pointsTo_other _ _ [] rest r); [by eapply (tags_differ "body") | done].
  - by eapply (pointsTo_gone _ _ [] rest r).
Qed.

Lemma popWhile_ok (fuel : nat) (stop : HTMLElementStack -> option bool) (s s' : HTMLElementStack) :
  StackOk s -> popWhile fuel stop s = Some s' -> StackOk s'.
Proof.
  revert s. induction fuel as [| fuel IH]; intros s Hs E; cbn [popWhile] in E;
    apply bind_Some in E as ([|] & _ & E); try by injection E as <-.
  - done.
  - apply bind_Some in E as (s1 & E1 & E). eapply IH; [by eapply pop_keeps | exact E].
Qed.

Lemma removeLoop_inv (n : Node) (l l' : list ElementRecord) :
  removeLoop n l = Some l' ->
  exists x above r below, l = (x :: above) ++ r :: below /\ l' = (x :: above) ++ below /\ element (m_item r) = Some n.
Proof.
  revert l'. induction l as [| x [| y l] IH]; intros l' E; [done | done |]. cbn [removeLoop] in E.
  apply bind_Some in E as (m & Em & E). case_bool_decide as Hm.
  - injection E as <-. exists x, [], y, l. by subst m.
  - apply bind_Some in E as (k & E & [= <-]). destruct (IH k E) as (z & above & r & below & El & -> & Hr).
    exists x, (z :: above), r, below. rewrite El. done.
Qed.

Lemma node_tag (r : ElementRecord) (t : string) :
  itemOk (m_item r) -> nodeHasTagName (htmlTagName t) (recordNode r) = recordIs t r.
Proof. apply nodeHasTagName_item. Qed.

(** removeNonTopCommon, of the stack itself or with the pointer to <head> cleared. *)
Lemma removeNonTop_ok (n : Node) (h : option Node) (s s' : HTMLElementStack) :
  StackOk s ->
  (forall above below r, m_top s = above ++ r :: below -> recordNode r = n -> isRoot r = false ->
     pointsTo h "head" (above ++ below)) ->
  removeNonTopCommon n (set_head h s) = Some s' -> StackOk s'.
Proof.
  intros Hs Hh E. unfold removeNonTopCommon in E.
  apply ASSERT_bind in E as [H1%negb_true_iff E]. apply ASSERT_bind in E as [H2%negb_true_iff E].
  apply bind_Some in E as (t & Et & E). apply ASSERT_bind in E as [_ E].
  apply bind_Some in E as (l & El & [= <-]). simpl in El. apply removeLoop_inv in El as (x & above & r & below & Etop & -> & En).
  assert (Hok : itemOk (m_item r)). { eapply record_item; [exact Hs |]. rewrite Etop. apply elem_of_app. right. by left. }
  destruct (element_inv _ _ Hok En) as [-> _].
  change (m_node (m_item r)) with (recordNode r) in *. rewrite node_tag in H1, H2 by done.
  destruct (element_not_root r (recordNode r) Hok En H1) as [Hr _].
  pose proof Hs as [_ _ _ _ _ _ Hpb]. rewrite Etop in Hpb. unfold set_top, set_head. simpl m_top.
  apply (ok_delete s (x :: above) below r); try done.
  - by eapply nonroot_below.
  - by eapply Hh.
  - by eapply pointsTo_other.
Qed.

Lemma remove_keeps (n : Node) (s s' : HTMLElementStack) : StackOk s -> remove n s = Some s' -> StackOk s'.
Proof.
  intros Hs E. unfold remove in E. apply ASSERT_bind in E as [Hhead%negb_true_iff E].
  apply bind_Some in E as (r & Er & E). apply bind_Some in E as (t & _ & E).
  destruct (bool_decide (t = n)); [by eapply pop_keeps |].
  apply (removeNonTop_ok n (m_headElement s) s s'); [done | | by destruct s].
  intros above below r' Et En _. pose proof Hs as [_ _ _ _ _ Hph _]. rewrite Et in Hph.
  eapply pointsTo_other, Hph. rewrite <- node_tag, En; [done |].
  eapply record_item; [exact Hs |]. rewrite Et. apply elem_of_app. right. by left.
Qed.

Lemma remove_head_ok (n : Node) (s s' : HTMLElementStack) : StackOk s -> removeHTMLHeadElement n s = Some s' -> StackOk s'.
Proof.
  intros Hs E. unfold removeHTMLHeadElement in E. apply ASSERT_bind in E as [Hn%bool_decide_eq_true E].
  apply bind_Some in E as (r & Er & E). apply bind_Some in E as (t & _ & E).
  destruct (bool_decide (t = n)); [by eapply pop_head_ok |].
  apply (removeNonTop_ok n None s s'); [done | | done].
  intros above below r' Et En _. pose proof Hs as [_ _ _ _ _ Hph _]. rewrite Hn in Hph.
  assert (Hin : r' ∈ m_top s) by (rewrite Et; apply elem_of_app; right; by left).
  pose proof (pointsTo_record s n "head" r' Hs Hph Hin En) as Ht. rewrite Et in Hph. by eapply pointsTo_gone.
Qed.

Lemma replace_inv (address : nat) (i : HTMLStackItem) (l l' : list ElementRecord) :
  replaceElement address i l = Some l' ->
  exists above r below, l = above ++ r :: below /\ l' = above ++ mkRecord address i :: below /\ recordAddress r = address.
Proof.
  revert l'. induction l as [| x l IH]; intros l' E; [done |]. cbn [replaceElement] in E.
  destruct (Nat.eqb_spec (recordAddress x) address) as [Ha | Ha].
  - apply ASSERT_bind in E as [_ [= <-]]. by exists [], x, l.
  - apply bind_Some in E as (m & E & [= <-]). destruct (IH m E) as (above & r & below & -> & -> & Hr).
    by exists (x :: above), r, below.
Qed.

Lemma same_tag (i : HTMLStackItem) (r : ElementRecord) (a : nat) (t : string) :
  m_tokenLocalName i = m_tokenLocalName (m_item r) -> m_namespaceURI i = m_namespaceURI (m_item r) ->
  recordIs t (mkRecord a i) = recordIs t r.
Proof. intros E1 E2. unfold recordIs, hasHTMLTag, hasTagName. simpl. by rewrite E1, E2. Qed.

(** A record whose item is another of the same name. *)
Lemma replace_ok (s : HTMLElementStack) (above below : list ElementRecord) (r : ElementRecord) (i : HTMLStackItem) :
  let r' := mkRecord (recordAddress r) i in
  StackOk s -> m_top s = above ++ r :: below -> m_node i ∉ recordNode <$> m_top s -> itemOk i -> isRoot r = false ->
  recordIs "head" r = false -> recordIs "body" r = false ->
  m_tokenLocalName i = m_tokenLocalName (m_item r) -> m_namespaceURI i = m_namespaceURI (m_item r) ->
  m_isDocumentFragmentNode i = false ->
  StackOk (mkStack (above ++ r' :: below) (m_rootNode s) (m_headElement s) (m_bodyElement s) (m_stackDepth s) (m_calls s)).
Proof.
  intros r' Hs Et Hn Hi Hr Hh Hb El Ens Hf.
  pose proof (nonroot_below s above below r Hs Et Hr) as Hbelow.
  destruct Hs as [Hd Ha Hnodes Hitems Hroot Hph Hpb]. rewrite Et in *.
  assert (Hr' : isRoot r' = false).
  { unfold isRoot, isRootNode in Hr |- *. apply orb_false_iff in Hr as [_ Hhtml].
    apply orb_false_iff. split; [done |]. exact (eq_trans (same_tag i r (recordAddress r) "html" El Ens) Hhtml). }
  constructor; simpl.
  - rewrite Hd, !length_app. done.
  - rewrite fmap_app in *. done.
  - rewrite fmap_app, fmap_cons in *. rewrite <- Permutation_middle in Hnodes |- *.
    apply list.NoDup_cons in Hnodes as [_ Hnodes]. apply list.NoDup_cons. split; [| done].
    rewrite elem_of_app, elem_of_cons in Hn. rewrite elem_of_app. unfold r', recordNode in *. simpl. tauto.
  - apply list.Forall_app in Hitems as [H1 [_ H2]%list.Forall_cons]. apply list.Forall_app. by repeat constructor.
  - destruct (m_rootNode s) as [n |]; [| by destruct above].
    apply rooted_app in Hroot as [H1 H2]; [| done]. apply rooted_app; [done |]. split; [done |].
    apply (rooted_app n [r] below) in H2 as [_ H2]; [| done]. apply (rooted_app n [r'] below); [done |]. by repeat constructor.
  - apply pointsTo_other; [exact (eq_trans (same_tag i r (recordAddress r) "head" El Ens) Hh) |]. by eapply pointsTo_other.
  - apply pointsTo_other; [exact (eq_trans (same_tag i r (recordAddress r) "body" El Ens) Hb) |]. by eapply pointsTo_other.
Qed.

Lemma stack_step (s s' : HTMLElementStack) : Step s s' -> StackOk s -> StackOk s'.
Proof.
  intros Hstep Hs. destruct Hstep as [a i s s' Hf E | a i s s' Hf E | a i s s' Hf E | a i s s' Hf E | a i s s' Hf Hi E
    | a i b s s' Hf Hi E | s s' E | s s' E | s s' E | s | st s s' E | n s s' E | n s s' E | n s s' E
    | r i l s Hr Hn Hi Hroot Hh Hb El Ens Hfr E].
  - unfold pushRootNode in E. apply ASSERT_bind in E as [Hr E]. eapply root_ok; [done | done | | exact E].
    unfold isRootNode. by rewrite Hr.
  - unfold pushHTMLHtmlElement in E. apply ASSERT_bind in E as [Hr E]. eapply root_ok; [done | done | | exact E].
    unfold isRootNode. by rewrite Hr, orb_true_r.
  - by eapply push_head_ok.
  - by eapply push_body_ok.
  - by eapply push_keeps.
  - by eapply insert_keeps.
  - by eapply pop_keeps.
  - by eapply pop_head_ok.
  - by eapply pop_body_ok.
  - constructor; (done || constructor).
  - by eapply popWhile_ok.
  - by eapply popWhile_ok.
  - by eapply remove_keeps.
  - by eapply remove_head_ok.
  - pose proof E as E'. apply replace_inv in E as (above & r' & below & Et & -> & Ha).
    assert (r' = r) as ->; [| by apply replace_ok].
    pose proof Hs as [_ Hd _ _ _ _ _]. apply list_elem_of_lookup in Hr as [j Hj].
    assert (Hk : m_top s !! length above = Some r') by (rewrite Et; by apply list_lookup_middle).
    assert (j = length above) as ->; [| congruence].
    eapply (NoDup_lookup _ j (length above) (recordAddress r) Hd); rewrite list_lookup_fmap; [by rewrite Hj |].
    rewrite Hk. simpl. by rewrite Ha.
Qed.
