(* ===== verification/ElementStackQueries.v ===== *)
(** * The stack of open elements: what the operations do

    In a state that satisfies the invariant: the answers of the scope queries, the
    records that popping takes away, the furthest block of a formatting element, and
    removing and inserting in the middle of the stack. *)

From stdpp Require Import sets relations.
From S2P Require Import Prelude HTMLToken AtomicHTMLToken HTMLStackItem HTMLElementStack ElementStackTheorems.

Import HTMLStackItem.

(** ** What is meant *)

(** A record that satisfies [target] with no marker above it. *)
Definition sees (target marker : HTMLStackItem -> bool) (l : list ElementRecord) : Prop :=
  exists above r below, l = above ++ r :: below /\ target (m_item r) = true /\
    Forall (fun x => marker (m_item x) = false) above.

Definition decides (answer : option bool) (P : Prop) : Prop := exists b, answer = Some b /\ (b = true <-> P).

(** The records that pop() refuses. *)
Definition blocked (r : ElementRecord) : bool := isRoot r || recordIs "head" r || recordIs "body" r.

(** The stack after the records [above] are popped. *)
Definition popped (above rest : list ElementRecord) (s : HTMLElementStack) : HTMLElementStack :=
  mkStack rest (m_rootNode s) (m_headElement s) (m_bodyElement s) (Z.of_nat (length rest) mod 2 ^ 32)
    (m_calls s ++ ((fun r => FinishParsingChildren (recordNode r)) <$> above)).

(** ** Scopes *)

Lemma inScopeLoop_ok (target marker : HTMLStackItem -> bool) (l : list ElementRecord) :
  Exists (fun r => marker (m_item r) = true) l -> decides (inScopeLoop target marker l) (sees target marker l).
Proof.
  intros He. induction l as [| r l IH]; [by inversion He |]. cbn [inScopeLoop].
  destruct (target (m_item r)) eqn:Et.
  { exists true. split; [done |]. split; [| done]. intros _. by exists [], r, l. }
  destruct (marker (m_item r)) eqn:Em.
  { exists false. split; [done |]. split; [done |]. intros ([| x above] & r' & below & E & Ht & Hm); simpl in E; simplify_eq; [congruence |].
    apply list.Forall_cons in Hm as [Hm _]. congruence. }
  destruct IH as (b & -> & Hb).
  { inversion He as [? ? H | ? ? H]; subst; [congruence | done]. }
  exists b. split; [done |]. rewrite Hb. split.
  - intros (above & r' & below & -> & Ht & Hm). exists (r :: above), r', below. repeat split; [done |]. by constructor.
  - intros ([| x above] & r' & below & E & Ht & Hm); simpl in E; simplify_eq; [congruence |].
    apply list.Forall_cons in Hm as [_ Hm]. by exists above, r', below.
Qed.

Lemma root_marks (marker : HTMLStackItem -> bool) (s : HTMLElementStack) (n : Node) :
  StackOk s -> m_rootNode s = Some n ->
  (forall i, itemOk i -> isRootNode i = true -> marker i = true) -> Exists (fun r => marker (m_item r) = true) (m_top s).
Proof.
  intros [_ _ _ Hi Hr _ _] En Hm. rewrite En in Hr. destruct Hr as (above & r & E & _ & Hr & _). rewrite E in *.
  apply list.Forall_app in Hi as [_ [Hi _]%list.Forall_cons]. apply list.Exists_app. right. constructor. by apply Hm.
Qed.

(** The scope queries never run off the stack, and say whether the target is on it with
    no marker of the scope above: for a tag name in the five scopes, for an element and
    for a heading. *)
Theorem stack_scopes (s : HTMLElementStack) (root n : Node) (tag : list Z) :
  StackOk s -> m_rootNode s = Some root ->
  decides (inScope tag s) (sees (matchesHTMLTag tag) isScopeMarker (m_top s)) /\
  decides (inListItemScope tag s) (sees (matchesHTMLTag tag) isListItemScopeMarker (m_top s)) /\
  decides (inTableScope tag s) (sees (matchesHTMLTag tag) isTableScopeMarker (m_top s)) /\
  decides (inButtonScope tag s) (sees (matchesHTMLTag tag) isButtonScopeMarker (m_top s)) /\
  decides (inSelectScope tag s) (sees (matchesHTMLTag tag) isSelectScopeMarker (m_top s)) /\
  decides (inScopeElement n s) (sees (fun i => bool_decide (m_node i = n)) isScopeMarker (m_top s)) /\
  decides (hasNumberedHeaderElementInScope s) (sees isNumberedHeaderElement isScopeMarker (m_top s)).
Proof.
  intros Hs Hr. repeat split; apply inScopeLoop_ok; eapply root_marks; try done; intros i Hi Hi'.
  all: try (by apply root_scope_marker); try (by apply root_not_option).
  - unfold isListItemScopeMarker. by rewrite root_scope_marker.
  - unfold isTableScopeMarker. by rewrite Hi', orb_true_r.
  - unfold isButtonScopeMarker. by rewrite root_scope_marker.
Qed.

(** ** Popping *)

Lemma blocked_element (r : ElementRecord) (s : HTMLElementStack) :
  StackOk s -> r ∈ m_top s -> blocked r = false ->
  isRoot r = false /\ recordIs "html" r = false /\ recordIs "head" r = false /\ recordIs "body" r = false /\
  element (m_item r) = Some (recordNode r).
Proof.
  intros Hs Hr Hb. unfold blocked in Hb. apply orb_false_iff in Hb as [[H1 H2]%orb_false_iff H3].
  split; [done |]. split; [by apply orb_false_iff in H1 as [_ H1] |]. split; [done |]. split; [done |].
  apply not_root_element; [by eapply record_item | done].
Qed.

Lemma pop_spec (s : HTMLElementStack) (r : ElementRecord) (rest : list ElementRecord) :
  StackOk s -> m_top s = r :: rest -> pop s = if blocked r then None else Some (popped [r] rest s).
Proof.
  intros Hs Et. destruct (blocked r) eqn:Eb.
  - destruct (pop s) as [s' |] eqn:E; [exfalso | done]. unfold pop in E.
    apply bind_Some in E as (i & Ei & E). apply ASSERT_bind in E as [Hi%negb_true_iff E].
    unfold topStackItem, topRecord in Ei. rewrite Et in Ei. injection Ei as <-.
    apply popCommon_inv in E as (r' & rest' & Et' & Hh & _ & Hb & n & En & _).
    rewrite Et in Et'. injection Et' as <- <-.
    pose proof (record_item r s Hs (top_record _ _ _ Et)) as Hok. destruct (element_not_root r n Hok En Hh) as [Hr _].
    unfold blocked, recordIs in Eb. rewrite Hr, Hi in Eb. simpl in Eb. specialize (Hb Eb).
    pose proof (pointsTo_none _ _ _ r (ok_body s Hs) (top_record _ _ _ Et) Eb). congruence.
  - destruct (blocked_element r s Hs (top_record _ _ _ Et) Eb) as (Hr & Hhtml & Hhead & Hbody & En).
    unfold pop, popCommon, topStackItem, top, topRecord. rewrite Et. unfold recordIs in *. cbn.
    rewrite Hhead, Hhtml, Hbody. cbn. rewrite En. cbn. unfold set_top, popped. do 2 f_equal.
    rewrite (ok_depth s Hs), Et, Zminus_mod_idemp_l. f_equal. simpl. lia.
Qed.

Lemma popped_trans (l1 l2 rest : list ElementRecord) (s : HTMLElementStack) :
  popped l2 rest (popped l1 (l2 ++ rest) s) = popped (l1 ++ l2) rest s.
Proof. unfold popped. simpl. by rewrite fmap_app, app_assoc. Qed.

Lemma popped_none (s : HTMLElementStack) : StackOk s -> popped [] (m_top s) s = s.
Proof. intros Hs. unfold popped. rewrite <- (ok_depth s Hs). simpl. rewrite app_nil_r. by destruct s. Qed.

Lemma popped_ok (above rest : list ElementRecord) (s : HTMLElementStack) :
  StackOk s -> m_top s = above ++ rest -> forallb (fun r => negb (blocked r)) above = true -> StackOk (popped above rest s).
Proof.
  revert s. induction above as [| r above IH]; intros s Hs Et Hb.
  - simpl in Et. rewrite <- Et, popped_none; done.
  - simpl in Hb. apply andb_true_iff in Hb as [Hr%negb_true_iff Hb].
    pose proof (pop_spec s r (above ++ rest) Hs Et) as Hp. rewrite Hr in Hp.
    change (r :: above) with ([r] ++ above). rewrite <- popped_trans. apply IH; [by eapply pop_keeps | done | done].
Qed.

(** popWhile on a condition that holds first at [r]. *)
Lemma popWhile_spec (stop : HTMLElementStack -> option bool) (above below : list ElementRecord) (r : ElementRecord)
    (s : HTMLElementStack) (fuel : nat) :
  StackOk s -> m_top s = above ++ r :: below -> (length above <= fuel)%nat ->
  (forall s' x rest, StackOk s' -> m_top s' = x :: rest -> x ∈ above -> stop s' = Some false) ->
  (forall s', StackOk s' -> m_top s' = r :: below -> stop s' = Some true) ->
  popWhile fuel stop s = if forallb (fun x => negb (blocked x)) above then Some (popped above (r :: below) s) else None.
Proof.
  revert s fuel. induction above as [| x above IH]; intros s fuel Hs Et Hf Ha Hr.
  - simpl in Et. assert (E : popWhile fuel stop s = Some s); [by destruct fuel; cbn; rewrite Hr |].
    rewrite E. simpl. by rewrite <- Et, popped_none.
  - destruct fuel as [| fuel]; [simpl in Hf; lia |]. simpl in Et, Hf. cbn [popWhile].
    rewrite (Ha s x (above ++ r :: below)) by (done || by left). cbn [mbind option_bind].
    rewrite (pop_spec s x (above ++ r :: below)) by done. simpl.
    destruct (blocked x) eqn:Eb; [done |]. cbn [mbind option_bind negb andb].
    rewrite IH; [| | done | lia | | done].
    + destruct (forallb _ above); [| done]. by rewrite popped_trans.
    + apply (popped_ok [x] (above ++ r :: below)); [done | done |]. simpl. by rewrite Eb.
    + intros s' y rest Hs' Et' Hy. eapply Ha; [done | done | by right].
Qed.

Lemma popUntilItem_spec (stop : HTMLStackItem -> option bool) (above below : list ElementRecord) (r : ElementRecord)
    (s : HTMLElementStack) :
  StackOk s -> m_top s = above ++ r :: below ->
  Forall (fun x => stop (m_item x) = Some false) above -> stop (m_item r) = Some true ->
  popUntilItem stop s = if forallb (fun x => negb (blocked x)) above then Some (popped above (r :: below) s) else None.
Proof.
  intros Hs Et Ha Hr. apply popWhile_spec; [done | done | rewrite Et, length_app; lia | |].
  - intros s' x rest _ Et' Hx. unfold onTopItem, topStackItem, topRecord. rewrite Et'. cbn.
    rewrite list.Forall_forall in Ha. by apply Ha.
  - intros s' _ Et'. unfold onTopItem, topStackItem, topRecord. by rewrite Et'.
Qed.

Lemma popped_pop (above rest : list ElementRecord) (r : ElementRecord) (s : HTMLElementStack) :
  StackOk s -> m_top s = above ++ r :: rest ->
  (s1 ← (if forallb (fun x => negb (blocked x)) above then Some (popped above (r :: rest) s) else None); pop s1)
  = if forallb (fun x => negb (blocked x)) (above ++ [r]) then Some (popped (above ++ [r]) rest s) else None.
Proof.
  intros Hs Et. rewrite forallb_app. destruct (forallb _ above) eqn:Ea; [| done]. cbn [mbind option_bind andb forallb].
  rewrite (pop_spec _ r rest) by (done || by apply popped_ok). rewrite andb_true_r.
  destruct (blocked r); [done |]. cbn. f_equal. exact (popped_trans above [r] rest s).
Qed.

Lemma first_match (P : HTMLStackItem -> bool) (l : list ElementRecord) :
  Exists (fun r => P (m_item r) = true) l ->
  exists above r below, l = above ++ r :: below /\ P (m_item r) = true /\ Forall (fun x => P (m_item x) = false) above.
Proof.
  induction l as [| x l IH]; intros He; [by inversion He |]. destruct (P (m_item x)) eqn:Ex.
  - by exists [], x, l.
  - destruct IH as (above & r & below & -> & Hr & Ha); [by inversion He; simplify_eq; congruence |].
    exists (x :: above), r, below. repeat split; [done |]. by constructor.
Qed.

Lemma root_tag (r : ElementRecord) (tag : list Z) :
  itemOk (m_item r) -> tag <> units "html" -> isRoot r = true -> matchesHTMLTag tag (m_item r) = false.
Proof.
  intros Hi Ht Hr. apply not_true_is_false. unfold matchesHTMLTag.
  rewrite andb_true_iff, !bool_decide_eq_true. intros [Hl _]. unfold isRoot, isRootNode in Hr.
  apply orb_true_iff in Hr as [Hf | [Hl' _]%hasHTMLTag_name]; [| congruence].
  unfold itemOk in Hi. destruct (elementName _); [destruct Hi; congruence |]. rewrite Hi in Hl. discriminate.
Qed.

(** What the tree builder does for an end tag: when the tag name is in scope, popUntilPopped
    takes away the records down to the topmost with that name, this one included, and
    finishes the elements in this order; it fails only on the assertion that no <head> or
    <body> is popped this way. *)
Theorem scope_then_pop (s : HTMLElementStack) (tag : list Z) :
  StackOk s -> tag <> units "html" -> inScope tag s = Some true ->
  exists above r below, m_top s = above ++ r :: below /\
    matchesHTMLTag tag (m_item r) = true /\ Forall (fun x => matchesHTMLTag tag (m_item x) = false) above /\
    isRoot r = false /\
    popUntilPopped tag s =
      if forallb (fun x => negb (recordIs "head" x || recordIs "body" x)) (above ++ [r])
      then Some (popped (above ++ [r]) below s) else None.
Proof.
  intros Hs Ht E. assert (He : Exists (fun r => matchesHTMLTag tag (m_item r) = true) (m_top s)).
  { unfold inScope, inScopeCommon in E. induction (m_top s) as [| x l IH]; [done |]. cbn [inScopeLoop] in E.
    destruct (matchesHTMLTag tag (m_item x)) eqn:Ex; [by constructor |]. right. apply IH. by destruct (isScopeMarker (m_item x)). }
  apply first_match in He as (above & r & below & Et & Hr & Ha). exists above, r, below.
  assert (Hroot : isRoot r = false).
  { apply not_true_is_false. intros Hroot. rewrite (root_tag r tag) in Hr; [done | | done | done].
    eapply record_item; [done |]. rewrite Et. apply elem_of_app. right. by left. }
  do 4 (split; [done |]). unfold popUntilPopped, popUntil.
  rewrite (popUntilItem_spec _ above below r); [| done | done | | by rewrite Hr].
  2: { eapply list.Forall_impl; [exact Ha |]. simpl. by intros x ->. }
  rewrite popped_pop by done. replace (forallb (fun x => negb (blocked x)) (above ++ [r]))
    with (forallb (fun x => negb (recordIs "head" x || recordIs "body" x)) (above ++ [r])); [done |].
  pose proof (ok_rooted s Hs) as Hrt. destruct (m_rootNode s) as [n |]; [| by rewrite Hrt in Et; destruct above].
  rewrite Et in Hrt. change (r :: below) with ([r] ++ below) in Hrt. rewrite app_assoc in Hrt.
  apply rooted_app in Hrt as [Hrt _]; [| by eapply nonroot_below].
  induction Hrt as [| x l Hx _ IH]; [done |]. simpl. rewrite IH. unfold blocked. by rewrite Hx.
Qed.

(** Clearing the stack back to a table, table body or table row context: the records above
    the first marker are popped, and the marker is always there; only the assertion on
    <head> and <body> can fail. *)
Theorem clear_to_context (s : HTMLElementStack) (root : Node) :
  StackOk s -> m_rootNode s = Some root ->
  Forall (fun '(clear, marker) =>
    exists above r below, m_top s = above ++ r :: below /\
      marker (m_item r) = true /\ Forall (fun x => marker (m_item x) = false) above /\
      clear s = if forallb (fun x => negb (recordIs "head" x || recordIs "body" x)) above
                then Some (popped above (r :: below) s) else None)
    [(popUntilTableScopeMarker, isTableScopeMarker); (popUntilTableBodyScopeMarker, isTableBodyScopeMarker);
     (popUntilTableRowScopeMarker, isTableRowScopeMarker)].
Proof.
  intros Hs Hr.
  assert (H : forall marker, (forall i, isRootNode i = true -> marker i = true) ->
    exists above r below, m_top s = above ++ r :: below /\
      marker (m_item r) = true /\ Forall (fun x => marker (m_item x) = false) above /\
      popUntilItem (fun item => Some (marker item)) s
      = if forallb (fun x => negb (recordIs "head" x || recordIs "body" x)) above
        then Some (popped above (r :: below) s) else None).
  { intros marker Hm. assert (He : Exists (fun r => marker (m_item r) = true) (m_top s)).
    { eapply root_marks; [done | done |]. intros i _. apply Hm. }
    apply first_match in He as (above & r & below & Et & Hmr & Ha). exists above, r, below.
    do 3 (split; [done |]). rewrite (popUntilItem_spec _ above below r); [| done | done | | by rewrite Hmr].
    2: { eapply list.Forall_impl; [exact Ha |]. simpl. by intros x ->. }
    replace (forallb (fun x => negb (blocked x)) above)
      with (forallb (fun x => negb (recordIs "head" x || recordIs "body" x)) above); [done |].
    clear Et. induction Ha as [| x l Hx _ IH]; [done |]. simpl. rewrite IH. unfold blocked.
    destruct (isRoot x) eqn:Ex; [| done]. unfold isRoot in Ex. rewrite Hm in Hx; done. }
  repeat constructor; apply H; intros i Hi.
  - unfold isTableScopeMarker. by rewrite Hi, orb_true_r.
  - unfold isTableBodyScopeMarker. by rewrite Hi, orb_true_r.
  - unfold isTableRowScopeMarker. by rewrite Hi, orb_true_r.
Qed.

(** ** The middle of the stack *)

Lemma above_elements (s : HTMLElementStack) (above below : list ElementRecord) (r : ElementRecord) :
  StackOk s -> m_top s = above ++ r :: below ->
  Forall (fun x => isRoot x = false /\ element (m_item x) = Some (recordNode x) /\ recordNode x <> recordNode r) above.
Proof.
  intros Hs Et. pose proof Hs as [_ _ Hn Hi Hr _ _]. rewrite Et in *.
  destruct (m_rootNode s) as [n |]; [| by destruct above]. apply rooted_app in Hr as [Hr _]; [| done].
  rewrite fmap_app in Hn. apply list.NoDup_app in Hn as (_ & Hn & _).
  apply list.Forall_forall. intros x Hx. rewrite list.Forall_forall in Hr, Hi. specialize (Hr x Hx).
  split; [done |]. split.
  - apply not_root_element; [apply Hi; apply elem_of_app; by left | done].
  - intros E. apply (Hn (recordNode x)); [by apply list_elem_of_fmap_2 |]. rewrite E. by left.
Qed.

(** The furthest block of a formatting element on the stack is the special element above it
    that is closest to it, if there is one; the walk never runs off the stack. *)
Theorem furthest_block (s : HTMLElementStack) (above below : list ElementRecord) (r : ElementRecord) :
  StackOk s -> m_top s = above ++ r :: below -> m_isDocumentFragmentNode (m_item r) = false ->
  furthestBlockForFormattingElement (recordNode r) s
  = Some (list.last (filter (fun x => isSpecialNode (m_item x) = true) above)).
Proof.
  intros Hs Et Hf. pose proof (above_elements s above below r Hs Et) as Ha.
  unfold furthestBlockForFormattingElement. rewrite Et.
  assert (Hr : element (m_item r) = Some (recordNode r)).
  { apply itemOk_element; [| done]. eapply record_item; [done |]. rewrite Et. apply elem_of_app. right. by left. }
  assert (H : forall b, furthestBlockLoop (recordNode r) b (above ++ r :: below)
    = Some (match list.last (filter (fun x => isSpecialNode (m_item x) = true) above) with Some x => Some x | None => b end)).
  { clear Et. induction Ha as [| x l (_ & Ex & Hx) _ IH]; intros b; cbn [app furthestBlockLoop].
    - rewrite Hr. cbn. by rewrite bool_decide_eq_true_2.
    - rewrite Ex. cbn [mbind option_bind]. rewrite bool_decide_eq_false_2 by done. rewrite IH, list.filter_cons.
      destruct (isSpecialNode (m_item x)) eqn:Es; simpl; [| done].
      rewrite list.last_cons. by destruct (list.last _). }
  rewrite H. by destruct (list.last _).
Qed.

Lemma removeLoop_cons (n : Node) (pos next : ElementRecord) (below : list ElementRecord) :
  removeLoop n (pos :: next :: below) =
  (nextElement ← element (m_item next);
   if bool_decide (nextElement = n) then Some (pos :: below)
   else rest' ← removeLoop n (next :: below); Some (pos :: rest')).
Proof. done. Qed.

Lemma insertLoop_cons (new x below : ElementRecord) (address : nat) (l : list ElementRecord) :
  insertLoop new address (x :: below :: l) =
  if Nat.eqb (recordAddress below) address then Some (x :: new :: below :: l)
  else rest' ← insertLoop new address (below :: l); Some (x :: rest').
Proof. done. Qed.

Lemma removeLoop_found (above below : list ElementRecord) (x r : ElementRecord) :
  Forall (fun y => element (m_item y) = Some (recordNode y) /\ recordNode y <> recordNode r) above ->
  element (m_item r) = Some (recordNode r) ->
  removeLoop (recordNode r) (x :: above ++ r :: below) = Some (x :: above ++ below).
Proof.
  revert x. induction above as [| y above IH]; intros x Ha Hr.
  - cbn [removeLoop app]. rewrite Hr. cbn. by rewrite bool_decide_eq_true_2.
  - apply list.Forall_cons in Ha as [[Hy Hn] Ha]. cbn [app]. rewrite removeLoop_cons, Hy. cbn [mbind option_bind].
    rewrite bool_decide_eq_false_2 by done. by rewrite IH.
Qed.

Lemma remove_spec (s : HTMLElementStack) (above below : list ElementRecord) (r : ElementRecord) :
  StackOk s -> m_top s = above ++ r :: below -> blocked r = false ->
  remove (recordNode r) s
  = Some (mkStack (above ++ below) (m_rootNode s) (m_headElement s) (m_bodyElement s)
            (Z.of_nat (length (above ++ below)) mod 2 ^ 32) (m_calls s ++ [FinishParsingChildren (recordNode r)])).
Proof.
  intros Hs Et Hb. assert (Hin : r ∈ m_top s) by (rewrite Et; apply elem_of_app; right; by left).
  destruct (blocked_element r s Hs Hin Hb) as (Hr & Hhtml & Hhead & Hbody & En).
  pose proof (record_item r s Hs Hin) as Hok. pose proof (above_elements s above below r Hs Et) as Ha.
  unfold remove, topRecord. rewrite (node_tag r "head"), Hhead by done. cbn [negb Prelude.ASSERT mbind option_bind].
  destruct above as [| x above].
  - rewrite Et. cbn. rewrite En. cbn. rewrite bool_decide_eq_true_2 by done.
    rewrite (pop_spec s r below), Hb by done. done.
  - apply list.Forall_cons in Ha as [(_ & Ex & Hx) Ha]. rewrite Et. cbn -[removeLoop]. rewrite Ex. cbn -[removeLoop].
    rewrite bool_decide_eq_false_2 by done. unfold removeNonTopCommon, top, topRecord.
    rewrite (node_tag r "html"), (node_tag r "body"), Hhtml, Hbody by done. cbn -[removeLoop]. rewrite Et. cbn -[removeLoop]. rewrite Ex. cbn -[removeLoop].
    rewrite bool_decide_eq_false_2 by done. cbn -[removeLoop].
    rewrite removeLoop_found; [| | done].
    + cbn. unfold set_top. do 2 f_equal. rewrite (ok_depth s Hs), Et, Zminus_mod_idemp_l. f_equal.
      rewrite !length_app. simpl. lia.
    + eapply list.Forall_impl; [exact Ha |]. simpl. tauto.
Qed.

Lemma insertLoop_found (above below : list ElementRecord) (x r new : ElementRecord) :
  NoDup (recordAddress <$> x :: above ++ r :: below) ->
  insertLoop new (recordAddress r) (x :: above ++ r :: below) = Some (x :: above ++ new :: r :: below).
Proof.
  revert x. induction above as [| y above IH]; intros x Hd.
  - cbn [insertLoop app]. by rewrite Nat.eqb_refl.
  - apply list.NoDup_cons in Hd as [_ Hd]. cbn [app]. rewrite insertLoop_cons.
    destruct (Nat.eqb_spec (recordAddress y) (recordAddress r)) as [E | E].
    { exfalso. apply list.NoDup_cons in Hd as [Hd _]. apply Hd. rewrite E.
      apply list_elem_of_fmap_2. apply elem_of_app. right. by left. }
    by rewrite IH.
Qed.

(** insertAbove puts a new element right above the record it is given, wherever this is, and
    removing the element restores the records, the depth and the pointers. *)
Theorem insert_then_remove (s : HTMLElementStack) (above below : list ElementRecord) (r : ElementRecord) (a : nat)
    (i : HTMLStackItem) :
  StackOk s -> m_top s = above ++ r :: below -> freshRecord a i s -> blocked (mkRecord a i) = false ->
  exists s1 s2,
    insertAbove a i (recordAddress r) s = Some s1 /\ m_top s1 = above ++ mkRecord a i :: r :: below /\
    remove (m_node i) s1 = Some s2 /\ m_top s2 = m_top s /\ m_stackDepth s2 = m_stackDepth s /\
    m_rootNode s2 = m_rootNode s /\ m_headElement s2 = m_headElement s /\ m_bodyElement s2 = m_bodyElement s.
Proof.
  intros Hs Et Hf Hb. pose proof Hb as Hb'. unfold blocked in Hb'.
  apply orb_false_iff in Hb' as [[[Hfr Hhtml]%orb_false_iff Hhead]%orb_false_iff Hbody]. unfold recordIs in Hhead, Hbody. simpl in *.
  pose proof (ok_addresses s Hs) as Hd. pose proof (ok_rooted s Hs) as Hrt.
  assert (Hroot : exists n, m_rootNode s = Some n).
  { destruct (m_rootNode s); [eauto |]. rewrite Hrt in Et. by destruct above. }
  destruct Hroot as [n Hroot].
  assert (E1 : exists s1, insertAbove a i (recordAddress r) s = Some s1 /\ m_top s1 = above ++ mkRecord a i :: r :: below /\
    m_rootNode s1 = m_rootNode s /\ m_headElement s1 = m_headElement s /\ m_bodyElement s1 = m_bodyElement s).
  { unfold insertAbove, topRecord. rewrite Hhtml, Hhead, Hbody, Hroot. destruct above as [| x above].
    - rewrite Et. cbn. rewrite Nat.eqb_refl. unfold push, pushCommon. rewrite Hhtml, Hhead, Hbody, Hroot. cbn.
      eexists. split; [done |]. by rewrite Et.
    - rewrite Et in *. cbn -[insertLoop]. destruct (Nat.eqb_spec (recordAddress r) (recordAddress x)) as [E | E].
      { exfalso. simpl in Hd. apply list.NoDup_cons in Hd as [Hd _]. apply Hd. rewrite <- E.
        apply list_elem_of_fmap_2. apply elem_of_app. right. by left. }
      change (x :: (above ++ r :: below)) with (x :: above ++ r :: below). rewrite insertLoop_found by done. cbn.
      rewrite (itemOk_element i) by (done || apply Hf). cbn. eexists. split; [done |]. by repeat split. }
  destruct E1 as (s1 & E1 & Et1 & Er1 & Eh1 & Eb1).
  assert (Hs1 : StackOk s1) by (eapply insert_keeps; [exact Hs | exact Hf | by apply negb_true_iff | exact E1]).
  exists s1. eexists. split; [done |]. split; [done |].
  split; [exact (remove_spec s1 above (r :: below) (mkRecord a i) Hs1 Et1 Hb) |]. simpl.
  rewrite Er1, Eh1, Eb1, (ok_depth s Hs), Et. done.
Qed.

(** C38: In every state the tree builder can reach, the depth is the number of records, no node
    or record occurs twice, the root is at the bottom and nothing else is a root, and the
    pointers to <head> and <body> are null or to the one record with this tag. *)
Theorem stack_reachable (s : HTMLElementStack) : rtc Step newStack s -> StackOk s.
Proof.
  intros H. revert H. apply (rtc_ind_r StackOk newStack); [| intros s1 s2 _ Hs Hi; by eapply stack_step].
  constructor; (done || constructor).
Qed.

(** ** Examples *)

Definition anItem (n : nat) (name : string) : HTMLStackItem :=
  mk (mkNode n (Some (htmlTagName name))) (Some (units name)) [] xhtmlNamespaceURI false.
Definition aRecord (n : nat) (name : string) : ElementRecord := mkRecord n (anItem n name).

(** <html><body><table><b><p><i>, the top first. *)
Definition aboveTable : list ElementRecord := [aRecord 6 "i"; aRecord 5 "p"; aRecord 4 "b"].
Definition document : HTMLElementStack :=
  mkStack (aboveTable ++ [aRecord 3 "table"; aRecord 2 "body"; aRecord 1 "html"])
    (Some (mkNode 1 (Some (htmlTagName "html")))) None (Some (mkNode 2 (Some (htmlTagName "body")))) 6 [].

Lemma document_reachable : rtc Step newStack document.
Proof.
  assert (Hi : forall n name, itemOk (anItem n name)) by done.
  assert (Hfr : forall n name s, (n ∉ recordAddress <$> m_top s) -> (m_node (anItem n name) ∉ recordNode <$> m_top s) ->
    freshRecord n (anItem n name) s) by done.
  eapply rtc_l; [eapply (step_html 1 (anItem 1 "html")); [apply Hfr; by apply (bool_decide_unpack _) | reflexivity] |].
  eapply rtc_l; [eapply (step_body 2 (anItem 2 "body")); [apply Hfr; by apply (bool_decide_unpack _) | reflexivity] |].
  eapply rtc_l; [eapply (step_push 3 (anItem 3 "table")); [apply Hfr; by apply (bool_decide_unpack _) | done | reflexivity] |].
  eapply rtc_l; [eapply (step_push 4 (anItem 4 "b")); [apply Hfr; by apply (bool_decide_unpack _) | done | reflexivity] |].
  eapply rtc_l; [eapply (step_push 5 (anItem 5 "p")); [apply Hfr; by apply (bool_decide_unpack _) | done | reflexivity] |].
  eapply rtc_l; [eapply (step_push 6 (anItem 6 "i")); [apply Hfr; by apply (bool_decide_unpack _) | done | reflexivity] |].
  apply rtc_refl.
Qed.

Lemma document_ok : StackOk document.
Proof.
  pose proof document_reachable as H. revert H.
  apply (rtc_ind_r StackOk newStack); [constructor; (done || constructor) | intros s1 s2 _ Hs Hi; by eapply stack_step].
Qed.

Lemma stack_reachable_witness : StackOk document.
Proof. exact (stack_reachable document document_reachable). Defined.

Lemma stack_scopes_witness :
  decides (inTableScope (units "p") document) (sees (matchesHTMLTag (units "p")) isTableScopeMarker (m_top document)) /\
  inTableScope (units "p") document = Some true /\ inTableScope (units "div") document = Some false /\
  inScope (units "body") document = Some false /\ inSelectScope (units "p") document = Some false.
Proof.
  split; [| vm_compute; auto].
  apply (stack_scopes document _ (mkNode 4 (Some (htmlTagName "b"))) (units "p") document_ok eq_refl).
Defined.

Lemma scope_then_pop_witness :
  exists above r below, m_top document = above ++ r :: below /\
    popUntilPopped (units "b") document =
      if forallb (fun x => negb (recordIs "head" x || recordIs "body" x)) (above ++ [r])
      then Some (popped (above ++ [r]) below document) else None.
Proof.
  destruct (scope_then_pop document (units "b") document_ok ltac:(discriminate) eq_refl)
    as (above & r & below & E & _ & _ & _ & H).
  exists above, r, below. split; [exact E | exact H].
Defined.

Lemma clear_to_context_witness :
  popUntilTableScopeMarker document = Some (popped aboveTable [aRecord 3 "table"; aRecord 2 "body"; aRecord 1 "html"] document) /\
  exists above r below, m_top document = above ++ r :: below /\ isTableScopeMarker (m_item r) = true.
Proof.
  split; [reflexivity |].
  destruct (list.Forall_cons_1 _ _ _ (clear_to_context document _ document_ok eq_refl)) as [(above & r & below & E & H & _) _].
  exists above, r, below. split; [exact E | exact H].
Defined.

Lemma furthest_block_witness :
  furthestBlockForFormattingElement (mkNode 4 (Some (htmlTagName "b"))) document = Some (Some (aRecord 5 "p")).
Proof.
  exact (furthest_block document [aRecord 6 "i"; aRecord 5 "p"]
    [aRecord 3 "table"; aRecord 2 "body"; aRecord 1 "html"] (aRecord 4 "b") document_ok eq_refl eq_refl).
Defined.

Lemma insert_then_remove_witness :
  exists s1 s2, insertAbove 7 (anItem 7 "b") 5 document = Some s1 /\ remove (mkNode 7 (Some (htmlTagName "b"))) s1 = Some s2 /\
    m_top s2 = m_top document.
Proof.
  destruct (insert_then_remove document [aRecord 6 "i"]
    [aRecord 4 "b"; aRecord 3 "table"; aRecord 2 "body"; aRecord 1 "html"] (aRecord 5 "p") 7 (anItem 7 "b"))
    as (s1 & s2 & E1 & _ & E2 & E3 & _).
  - apply document_ok.
  - reflexivity.
  - split; [by apply (bool_decide_unpack _) | split; [by apply (bool_decide_unpack _) | done]].
  - reflexivity.
  - exists s1, s2. split; [exact E1 | split; [exact E2 | exact E3]].
Defined.
