(* ===== verification/Compare.v ===== *)
(** * Three-way comparisons

    The interface a comparison of the source promises to what is sorted by it: its
    values are -1, 0 and 1, swapping the arguments negates it, and it is transitive, in
    the strong form that says when the result is strict.  Lexicographic orders on pairs
    and lists have it when their parts have. *)

From S2P Require Import Prelude.

(** Transitivity from [x] on. *)
Definition chains {A} (P : A -> Prop) (cmp : A -> A -> Z) (x : A) : Prop :=
  forall y z, P y -> P z -> cmp x y <= 0 -> cmp y z <= 0 -> cmp x z = Z.min (cmp x y) (cmp y z).

Class Comparison {A} (P : A -> Prop) (cmp : A -> A -> Z) : Prop := {
  cmp_sgn x y : Z.sgn (cmp x y) = cmp x y;
  cmp_swap x y : P x -> P y -> cmp y x = - cmp x y;
  cmp_chains x : P x -> chains P cmp x }.

Lemma sgn_cases (z : Z) : Z.sgn z = z -> z = -1 \/ z = 0 \/ z = 1.
Proof. lia. Qed.

Section Facts.
Context {A : Type} (P : A -> Prop) (cmp : A -> A -> Z) {C : Comparison P cmp}.

Lemma cmp_refl (x : A) : P x -> cmp x x = 0.
Proof. intros Hx. pose proof (cmp_swap x x Hx Hx). lia. Qed.

Lemma cmp_trans (x y z : A) : P x -> P y -> P z -> cmp x y <= 0 -> cmp y z <= 0 -> cmp x z <= 0.
Proof. intros Hx Hy Hz H1 H2. rewrite (cmp_chains x Hx y z Hy Hz H1 H2). lia. Qed.

(** Equal keys stand in the same place. *)
Lemma cmp_equal (x y z : A) : P x -> P y -> P z -> cmp x y = 0 -> cmp x z = cmp y z.
Proof.
  intros Hx Hy Hz E. pose proof (cmp_swap x y Hx Hy). pose proof (cmp_swap x z Hx Hz). pose proof (cmp_swap y z Hy Hz).
  destruct (Z.le_gt_cases (cmp y z) 0) as [H2 | H2].
  - rewrite (cmp_chains x Hx y z Hy Hz); pose proof (sgn_cases _ (cmp_sgn y z)); lia.
  - assert (H3 : cmp z y <= 0) by lia. assert (H4 : cmp y x <= 0) by lia.
    pose proof (cmp_chains z Hz y x Hy Hx H3 H4). pose proof (sgn_cases _ (cmp_sgn y z)). lia.
Qed.
End Facts.

(** ** Integers *)

Definition compareZ (a b : Z) : Z := Z.sgn (a - b).

#[export] Instance compareZ_comparison : Comparison (fun _ => True) compareZ.
Proof. split; unfold compareZ, chains; intros; lia. Qed.

(** A comparison through a number. *)
Lemma comparison_image {A} (P : A -> Prop) (f : A -> Z) (cmp : A -> A -> Z) :
  (forall x y, P x -> P y -> cmp x y = compareZ (f x) (f y)) -> (forall x y, Z.sgn (cmp x y) = cmp x y) -> Comparison P cmp.
Proof.
  intros H Hs. split.
  - done.
  - intros x y Hx Hy. rewrite !H by done. unfold compareZ. lia.
  - intros x Hx y z Hy Hz. rewrite !H by done. unfold compareZ. lia.
Qed.

(** ** Lexicographic composition *)

Definition thenCompare (first second : Z) : Z := if negb (first =? 0) then first else second.

Lemma thenCompare_sgn (a b : Z) : Z.sgn a = a -> Z.sgn b = b -> Z.sgn (thenCompare a b) = thenCompare a b.
Proof. intros Ha Hb. unfold thenCompare. by destruct (a =? 0). Qed.

Lemma thenCompare_swap (a b : Z) : thenCompare (- a) (- b) = - thenCompare a b.
Proof. unfold thenCompare. destruct (Z.eqb_spec a 0), (Z.eqb_spec (- a) 0); simpl; lia. Qed.

Lemma thenCompare_chain (a1 a2 a3 b1 b2 b3 : Z) :
  Z.sgn a1 = a1 -> Z.sgn a2 = a2 -> Z.sgn b1 = b1 -> Z.sgn b2 = b2 ->
  (a1 <= 0 -> a2 <= 0 -> a3 = Z.min a1 a2) -> (b1 <= 0 -> b2 <= 0 -> b3 = Z.min b1 b2) ->
  thenCompare a1 b1 <= 0 -> thenCompare a2 b2 <= 0 ->
  thenCompare a3 b3 = Z.min (thenCompare a1 b1) (thenCompare a2 b2).
Proof.
  unfold thenCompare. intros H1 H2 H3 H4 Ha Hb.
  destruct (Z.eqb_spec a1 0), (Z.eqb_spec a2 0), (Z.eqb_spec a3 0); simpl; lia.
Qed.

(** Two comparisons of parts of a value, one after the other. *)
#[export] Instance then_comparison {A} (P : A -> Prop) (f g : A -> A -> Z)
  {F : Comparison P f} {G : Comparison P g} : Comparison P (fun x y => thenCompare (f x y) (g x y)).
Proof.
  split.
  - intros x y. apply thenCompare_sgn; apply cmp_sgn.
  - intros x y Hx Hy. by rewrite (cmp_swap (cmp := f) x y Hx Hy), (cmp_swap (cmp := g) x y Hx Hy), thenCompare_swap.
  - intros x Hx y z Hy Hz. apply thenCompare_chain; try apply cmp_sgn.
    + apply (cmp_chains (cmp := f) x Hx y z Hy Hz).
    + apply (cmp_chains (cmp := g) x Hx y z Hy Hz).
Qed.

(** A comparison of a part. *)
Lemma comparison_part {A B} (P : A -> Prop) (Q : B -> Prop) (f : A -> B) (cmp : B -> B -> Z) {C : Comparison Q cmp} :
  (forall x, P x -> Q (f x)) -> Comparison P (fun x y => cmp (f x) (f y)).
Proof.
  intros H. split.
  - intros x y. apply cmp_sgn.
  - intros x y Hx Hy. apply cmp_swap; by apply H.
  - intros x Hx y z Hy Hz. apply cmp_chains; by apply H.
Qed.

(** ** Lists *)

Section Lists.
Context {A : Type} (P : A -> Prop) (cmp : A -> A -> Z).

Fixpoint listCompare (l m : list A) : Z :=
  match l, m with
  | x :: l', y :: m' => thenCompare (cmp x y) (listCompare l' m')
  | [], [] => 0
  | [], _ => -1
  | _, [] => 1
  end.

Lemma listCompare_sgn (l m : list A) : (forall x y, Z.sgn (cmp x y) = cmp x y) -> Z.sgn (listCompare l m) = listCompare l m.
Proof.
  intros Hs. revert m. induction l as [| x l IH]; intros [| y m]; try done. apply thenCompare_sgn; [apply Hs | apply IH].
Qed.

Lemma listCompare_swap (l m : list A) :
  Forall (fun x => forall y, P y -> cmp y x = - cmp x y) l -> Forall P m -> listCompare m l = - listCompare l m.
Proof.
  intros Hl. revert m. induction Hl as [| x l Hx _ IH]; intros [| y m] Hm; try done.
  apply list.Forall_cons in Hm as [Hy Hm]. cbn [listCompare]. by rewrite Hx, IH, thenCompare_swap.
Qed.

Lemma listCompare_chains (l : list A) :
  (forall x y, Z.sgn (cmp x y) = cmp x y) -> Forall (chains P cmp) l -> chains (Forall P) listCompare l.
Proof.
  intros Hs. induction 1 as [| x l Hx _ IH]; intros [| y m] [| z n] Hm Hn; cbn [listCompare]; try lia.
  - apply list.Forall_cons in Hm as [Hy Hm]. apply list.Forall_cons in Hn as [Hz Hn]. intros H1 H2.
    pose proof (sgn_cases _ (thenCompare_sgn _ _ (Hs y z) (listCompare_sgn m n Hs))). lia.
  - apply list.Forall_cons in Hm as [Hy Hm]. apply list.Forall_cons in Hn as [Hz Hn].
    apply thenCompare_chain; auto using listCompare_sgn.
Qed.

Lemma listCompare_comparison : Comparison P cmp -> Comparison (Forall P) listCompare.
Proof.
  intros C. split.
  - intros x y. apply listCompare_sgn, C.
  - intros l m Hl Hm. apply listCompare_swap; [| done]. eapply list.Forall_impl; [exact Hl |]. intros x Hx y Hy. by apply cmp_swap.
  - intros l Hl. apply listCompare_chains; [apply C |]. eapply list.Forall_impl; [exact Hl |]. intros x Hx. by apply cmp_chains.
Qed.
End Lists.
