(* ===== verification/IDBCoding.v ===== *)
(** * IndexedDB values as bytes: Modules/indexeddb/IDBLevelDBCoding.{h,cpp}, the codecs

    Bytes, integers, strings, doubles.  A pointer and its limit are the bytes between
    them.  A decoder gives the value and the bytes behind it; it may return null, or be
    undefined: a failed assertion, or C++ without a meaning (a shift by 64 or more).  A
    double is its bit pattern.  A host is little-endian, as the source assumes. *)

From S2P Require Import Prelude.

(** ** Outcomes *)

Inductive parsed (A : Type) : Type :=
  | Parsed (a : A)
  | NotParsed
  | Undefined
  | Exhausted.
Arguments Parsed {A} a.
Arguments NotParsed {A}.
Arguments Undefined {A}.
Arguments Exhausted {A}.

#[export] Instance parsed_ret : MRet parsed := fun A a => Parsed a.
#[export] Instance parsed_bind : MBind parsed := fun A B f m =>
  match m with Parsed a => f a | NotParsed => NotParsed | Undefined => Undefined | Exhausted => Exhausted end.

(** An assertion in a decoder. *)
Definition assert (b : bool) : parsed unit := if b then Parsed () else Undefined.
Definition defined {A} (m : option A) : parsed A := match m with Some a => Parsed a | None => Undefined end.
(** return 0 on a condition. *)
Definition unless (b : bool) : parsed unit := if b then NotParsed else Parsed ().

(** ** Machine integers *)

Definition wrap64 (z : Z) : Z := (z + 2 ^ 63) mod 2 ^ 64 - 2 ^ 63.

(** static_cast<int64_t>(x) << shift *)
Definition shl64 (x shift : Z) : option Z := _ ← ASSERT (shift <? 64); Some (wrap64 (Z.shiftl x shift)).

Definition DefaultInlineBufferSize : Z := 32.
Definition MinimumIndexId : Z := 30.
Definition INT64_MAX : Z := 2 ^ 63 - 1.

(** The assertion on the size at the end of an encoder. *)
Definition sized (v : list Z) : option (list Z) :=
  _ ← ASSERT (Z.of_nat (length v) <=? DefaultInlineBufferSize); Some v.

(** ** Bytes and booleans *)

Definition encodeByte (c : Z) : list Z := [c].
Definition decodeByte (p : list Z) : parsed (Z * list Z) :=
  match p with [] => NotParsed | c :: p' => Parsed (c, p') end.

Definition encodeBool (b : bool) : list Z := [if b then 1 else 0].
Definition decodeBool (p : list Z) : option bool := c ← head p; Some (negb (c =? 0)).

(** ** Integers *)

Fixpoint encodeIntLoop (fuel : nat) (n : Z) : list Z :=
  match fuel with
  | O => []
  | S fuel' =>
      let c := n mod 2 ^ 8 in
      let n' := Z.shiftr n 8 in
      c :: (if n' =? 0 then [] else encodeIntLoop fuel' n')
  end.
Definition encodeInt (nParam : Z) : option (list Z) :=
  _ ← ASSERT (0 <=? nParam);
  sized (encodeIntLoop 8 (nParam mod 2 ^ 64)).

Definition encodeIntSafely (nParam max : Z) : option (list Z) := _ ← ASSERT (nParam <=? max); encodeInt nParam.

Fixpoint decodeIntLoop (p : list Z) (shift ret : Z) : option Z :=
  match p with
  | [] => Some ret
  | c :: p' => t ← shl64 c shift; decodeIntLoop p' (shift + 8) (Z.lor ret t)
  end.
Definition decodeInt (p : list Z) : option Z := decodeIntLoop p 0 0.

Definition compareInts (a b : Z) : option Z :=
  _ ← ASSERT (0 <=? a);
  _ ← ASSERT (0 <=? b);
  let diff := a - b in
  Some (if diff <? 0 then -1 else if diff >? 0 then 1 else 0).

Fixpoint encodeVarIntLoop (fuel : nat) (n : Z) : list Z :=
  match fuel with
  | O => []
  | S fuel' =>
      let c := Z.land n 0x7F in
      let n' := Z.shiftr n 7 in
      (if negb (n' =? 0) then Z.lor c 0x80 else c) :: (if n' =? 0 then [] else encodeVarIntLoop fuel' n')
  end.
(** A 64-bit number has at most ten groups of seven bits. *)
Definition encodeVarInt (nParam : Z) : option (list Z) :=
  _ ← ASSERT (0 <=? nParam);
  sized (encodeVarIntLoop 10 (nParam mod 2 ^ 64)).

Fixpoint decodeVarIntLoop (p : list Z) (shift foundInt : Z) : parsed (Z * list Z) :=
  match p with
  | [] => NotParsed
  | c :: p' =>
      t ← defined (shl64 (Z.land c 0x7F) shift);
      let foundInt := Z.lor foundInt t in
      if Z.land c 0x80 =? 0 then Parsed (foundInt, p') else decodeVarIntLoop p' (shift + 7) foundInt
  end.
Definition decodeVarInt (p : list Z) : parsed (Z * list Z) := decodeVarIntLoop p 0 0.

(** ** Strings: lists of 16-bit code units *)

Definition encodeString (s : list Z) : list Z := concat ((fun c => [Z.shiftr c 8; Z.land c 0xFF]) <$> s).

Fixpoint decodeUnits (p : list Z) : list Z :=
  match p with
  | hi :: lo :: p' => Z.lor (Z.shiftl hi 8) lo :: decodeUnits p'
  | _ => []
  end.
Definition decodeString (p : list Z) : option (list Z) :=
  _ ← ASSERT (Nat.even (length p)); Some (decodeUnits p).

Definition encodeStringWithLength (s : list Z) : option (list Z) :=
  ret ← encodeVarInt (Z.of_nat (length s)); Some (ret ++ encodeString s).

(** len * 2 in int64_t *)
Definition doubled (len : Z) : option Z := _ ← ASSERT (len * 2 <? 2 ^ 63); Some (len * 2).

Definition decodeStringWithLength (p : list Z) : parsed (list Z * list Z) :=
  '(len, p) ← decodeVarInt p;
  unless (len <? 0);;
  bytes ← defined (doubled len);
  unless (Z.of_nat (length p) <? bytes);;
  foundString ← defined (decodeString (take (Z.to_nat bytes) p));
  Parsed (foundString, drop (Z.to_nat bytes) p).

(** memcmp: only the sign of its result is used. *)
Fixpoint memcmp (n : nat) (p q : list Z) : Z :=
  match n, p, q with
  | S n', a :: p', b :: q' => if a =? b then memcmp n' p' q' else if a <? b then -1 else 1
  | _, _, _ => 0
  end.

(** The result with the two pointers behind the strings; [NotParsed] is ok = false. *)
Definition compareEncodedStringsWithLength (p q : list Z) : parsed (Z * list Z * list Z) :=
  match decodeVarInt p, decodeVarInt q with
  | Parsed (lenP, p), Parsed (lenQ, q) =>
      unless ((lenP <? 0) || (lenQ <? 0));;
      bytesP ← defined (doubled lenP);
      bytesQ ← defined (doubled lenQ);
      assert (bytesP <=? Z.of_nat (length p));;
      assert (bytesQ <=? Z.of_nat (length q));;
      let lmin := if lenP <? lenQ then lenP else lenQ in
      let x := memcmp (Z.to_nat (lmin * 2)) p q in
      let result := if negb (x =? 0) then x else if lenP =? lenQ then 0 else if lenP >? lenQ then 1 else -1 in
      Parsed (result, drop (Z.to_nat bytesP) p, drop (Z.to_nat bytesQ) q)
  | Undefined, _ | _, Undefined => Undefined
  | _, _ => NotParsed
  end.

(** codePointCompare *)
Fixpoint codePointCompare (c1 c2 : list Z) : Z :=
  match c1, c2 with
  | a :: c1', b :: c2' => if a =? b then codePointCompare c1' c2' else if a >? b then 1 else -1
  | [], [] => 0
  | [], _ => -1
  | _, [] => 1
  end.

(** ** Doubles: 64-bit patterns *)

Fixpoint littleEndian (n : nat) (x : Z) : list Z :=
  match n with O => [] | S n' => x mod 2 ^ 8 :: littleEndian n' (Z.shiftr x 8) end.
Fixpoint ofLittleEndian (p : list Z) : Z :=
  match p with [] => 0 | c :: p' => c + 2 ^ 8 * ofLittleEndian p' end.

Definition encodeDouble (x : Z) : list Z := littleEndian 8 x.
Definition decodeDouble (p : list Z) : parsed (Z * list Z) :=
  unless (Nat.ltb (length p) 8);; Parsed (ofLittleEndian (take 8 p), drop 8 p).

Definition isNaN (x : Z) : bool := 0x7FF0000000000000 <? Z.land x 0x7FFFFFFFFFFFFFFF.
(** The patterns without the sign bit are ordered as the numbers are; the two zeros are equal. *)
Definition doubleOrder (x : Z) : Z :=
  let magnitude := Z.land x 0x7FFFFFFFFFFFFFFF in if Z.testbit x 63 then - magnitude else magnitude.
(** operator< on doubles *)
Definition doubleLess (x y : Z) : bool := negb (isNaN x) && negb (isNaN y) && (doubleOrder x <? doubleOrder y).
Definition compareDoubles (d e : Z) : Z := if doubleLess d e then -1 else if doubleLess e d then 1 else 0.
