(* ===== verification/IDBCodingTheorems.v ===== *)
(** * IndexedDB values as bytes: the codecs give back what they were given

    Every decoder, on the bytes of the encoder and any bytes behind them, gives the
    value and those bytes; integers take the bytes their size needs. *)

From S2P Require Import Prelude IDBCoding.

Definition isByte (c : Z) : Prop := 0 <= c < 2 ^ 8.
Definition isUnit16 (c : Z) : Prop := 0 <= c < 2 ^ 16.

(** ** 64-bit integers *)

Lemma wrap64_small (z : Z) : - 2 ^ 63 <= z < 2 ^ 63 -> wrap64 z = z.
Proof. intros H. unfold wrap64. rewrite Z.mod_small; lia. Qed.

Lemma shl64_small (x shift : Z) :
  0 <= shift < 64 -> 0 <= x * 2 ^ shift < 2 ^ 63 -> shl64 x shift = Some (x * 2 ^ shift).
Proof.
  intros Hs Hx. unfold shl64. rewrite (proj2 (Z.ltb_lt shift 64)) by lia. cbn [ASSERT mbind option_bind].
  rewrite Z.shiftl_mul_pow2, wrap64_small by lia. done.
Qed.

(** One more group of [k] bits above the bits read so far. *)
Lemma next_group (found c rest shift k : Z) :
  0 <= k -> 0 <= shift < 64 -> 0 <= found < 2 ^ shift -> 0 <= c < 2 ^ k -> 0 <= rest ->
  found + (c + rest * 2 ^ k) * 2 ^ shift < 2 ^ 63 ->
  shl64 c shift = Some (c * 2 ^ shift) /\ Z.lor found (c * 2 ^ shift) = found + c * 2 ^ shift /\
  0 <= found + c * 2 ^ shift < 2 ^ (shift + k).
Proof.
  intros Hk Hs Hf Hc Hr Hb. assert (Hp : 0 < 2 ^ shift) by (apply Z.pow_pos_nonneg; lia).
  assert (Hp' : 0 < 2 ^ k) by (apply Z.pow_pos_nonneg; lia).
  assert (H0 : 0 <= c * 2 ^ shift) by nia. assert (H1 : 0 <= rest * 2 ^ k * 2 ^ shift) by nia.
  split; [apply shl64_small; nia |]. rewrite Z.lor_comm, lor_low by lia. split; [lia |].
  rewrite Z.pow_add_r by lia. nia.
Qed.

Lemma shiftr_div (n k : Z) : 0 <= k -> Z.shiftr n k = n / 2 ^ k.
Proof. intros. by apply Z.shiftr_div_pow2. Qed.

Lemma varint_loop (fuel : nat) (n shift found : Z) (rest : list Z) :
  0 <= n < 2 ^ (7 * Z.of_nat fuel) -> (fuel <> 0)%nat -> 0 <= shift < 64 -> 0 <= found < 2 ^ shift ->
  found + n * 2 ^ shift < 2 ^ 63 ->
  decodeVarIntLoop (encodeVarIntLoop fuel n ++ rest) shift found = Parsed (found + n * 2 ^ shift, rest).
Proof.
  revert n shift found. induction fuel as [| fuel IH]; intros n shift found Hn Hf Hs Hfound Hb; [done |].
  cbn [encodeVarIntLoop app]. change 0x7F with (Z.ones 7). rewrite Z.land_ones, shiftr_div by lia.
  assert (Hdm := Z.div_mod n (2 ^ 7) ltac:(lia)). assert (Hm := Z.mod_pos_bound n (2 ^ 7) ltac:(lia)).
  assert (Hq : 0 <= n / 2 ^ 7) by (apply Z.div_pos; lia).
  destruct (next_group found (n mod 2 ^ 7) (n / 2 ^ 7) shift 7) as (Eshl & Elor & Hnext); try lia.
  cbn [decodeVarIntLoop]. destruct (Z.eqb_spec (n / 2 ^ 7) 0) as [E0 | E0]; cbn [negb].
  - change 0x7F with (Z.ones 7). rewrite Z.land_ones, Z.mod_mod, Eshl by lia. cbn. rewrite Elor.
    replace (Z.land (n mod 2 ^ 7) 0x80 =? 0) with true; [by replace (n mod 2 ^ 7) with n by lia |].
    symmetry. apply Z.eqb_eq. apply Z.bits_inj'. intros i Hi. rewrite Z.land_spec, Z.bits_0.
    destruct (decide (i = 7)) as [-> | Hi7]; [by rewrite Z.mod_pow2_bits_high by lia |].
    change 0x80 with (2 ^ 7). rewrite Z.pow2_bits_false by lia. apply andb_false_r.
  - assert (El : Z.lor (n mod 2 ^ 7) 0x80 = 1 * 2 ^ 7 + n mod 2 ^ 7) by (rewrite Z.lor_comm; change 0x80 with (1 * 2 ^ 7); apply lor_low; lia).
    rewrite El. change 0x7F with (Z.ones 7). rewrite Z.land_ones by lia.
    rewrite Z.add_comm, Z_mod_plus_full, Z.mod_mod, Eshl by lia. cbn. rewrite Elor.
    replace (Z.land (n mod 2 ^ 7 + 1 * 2 ^ 7) 0x80 =? 0) with false.
    + assert (Hfuel : (fuel <> 0)%nat).
      { intros ->. apply E0. apply Z.div_small. simpl in Hn. lia. }
      assert (Hn' : 0 <= n / 2 ^ 7 < 2 ^ (7 * Z.of_nat fuel)).
      { split; [done |]. apply Z.div_lt_upper_bound; [lia |]. rewrite <- Z.pow_add_r by lia.
        replace (7 + 7 * Z.of_nat fuel) with (7 * Z.of_nat (S fuel)) by lia. apply Hn. }
      assert (Hsplit : found + n * 2 ^ shift = found + n mod 2 ^ 7 * 2 ^ shift + n / 2 ^ 7 * 2 ^ (shift + 7)).
      { rewrite Z.pow_add_r by lia. rewrite Hdm at 1. ring. }
      rewrite IH; [by rewrite <- Hsplit | done | done | | done | by rewrite <- Hsplit].
      assert (H1 : 1 * 2 ^ (shift + 7) <= n / 2 ^ 7 * 2 ^ (shift + 7)) by (apply Z.mul_le_mono_nonneg_r; lia).
      assert (Hlt : 2 ^ (shift + 7) < 2 ^ 63) by lia. apply Z.pow_lt_mono_r_iff in Hlt; lia.
    + symmetry. apply Z.eqb_neq. intros Hz. assert (Hbit : Z.testbit (Z.land (n mod 2 ^ 7 + 1 * 2 ^ 7) 0x80) 7 = true).
      { rewrite Z.land_spec. change (Z.testbit 0x80 7) with true. rewrite andb_true_r, Z.testbit_true by lia.
        rewrite Z.div_add, Z.div_small by lia. done. }
      by rewrite Hz, Z.bits_0 in Hbit.
Qed.

Lemma varint_length (fuel k : nat) (n : Z) :
  0 <= n < 2 ^ (7 * Z.of_nat k) -> (1 <= k)%nat -> (length (encodeVarIntLoop fuel n) <= k)%nat.
Proof.
  revert k n. induction fuel as [| fuel IH]; intros k n Hn Hk; cbn [encodeVarIntLoop length]; [lia |].
  rewrite shiftr_div by lia. destruct (Z.eqb_spec (n / 2 ^ 7) 0) as [E | E]; [simpl; lia |].
  destruct k as [| [| k]]; [lia | exfalso; apply E, Z.div_small; simpl in Hn; lia |].
  apply le_n_S, IH; [| lia]. split; [apply Z.div_pos; lia |]. apply Z.div_lt_upper_bound; [lia |].
  rewrite <- Z.pow_add_r by lia. replace (7 + 7 * Z.of_nat (S k)) with (7 * Z.of_nat (S (S k))) by lia. apply Hn.
Qed.

Lemma varint_bytes (fuel : nat) (n : Z) : 0 <= n -> Forall isByte (encodeVarIntLoop fuel n).
Proof.
  revert n. induction fuel as [| fuel IH]; intros n Hn; cbn [encodeVarIntLoop]; [constructor |].
  assert (Hm := Z.mod_pos_bound n (2 ^ 7) ltac:(lia)).
  constructor.
  - change 0x7F with (Z.ones 7). rewrite Z.land_ones by lia. unfold isByte. destruct (negb _); [| lia].
    rewrite Z.lor_comm. change 0x80 with (1 * 2 ^ 7). rewrite lor_low by lia. lia.
  - destruct (_ =? 0); [constructor |]. apply IH. rewrite shiftr_div by lia. apply Z.div_pos; lia.
Qed.

Lemma sized_ok (v : list Z) : (length v <= 32)%nat -> sized v = Some v.
Proof. intros H. unfold sized, DefaultInlineBufferSize. destruct (Z.leb_spec (Z.of_nat (length v)) 32); [done | lia]. Qed.

Lemma encodeVarInt_ok (n : Z) :
  0 <= n < 2 ^ 63 ->
  exists v, encodeVarInt n = Some v /\ (1 <= length v <= 9)%nat /\ Forall isByte v /\
    forall rest, decodeVarInt (v ++ rest) = Parsed (n, rest).
Proof.
  intros Hn. unfold encodeVarInt. rewrite (proj2 (Z.leb_le 0 n)) by lia. cbn [ASSERT mbind option_bind].
  rewrite Z.mod_small by lia. assert (Hl := varint_length 10 9 n ltac:(change (7 * Z.of_nat 9) with 63; lia) ltac:(lia)).
  rewrite sized_ok by lia. eexists. split; [done |]. split; [split; [cbn [encodeVarIntLoop length]; lia | done] |].
  split; [by apply varint_bytes; lia |]. intros rest. unfold decodeVarInt.
  rewrite varint_loop; [do 2 f_equal; lia | change (7 * Z.of_nat 10) with 70; lia | done | lia | lia | lia].
Qed.

(** ** encodeInt *)

Lemma int_loop (fuel : nat) (n shift found : Z) :
  0 <= n < 2 ^ (8 * Z.of_nat fuel) -> (fuel <> 0)%nat -> 0 <= shift < 64 -> 0 <= found < 2 ^ shift ->
  found + n * 2 ^ shift < 2 ^ 63 -> decodeIntLoop (encodeIntLoop fuel n) shift found = Some (found + n * 2 ^ shift).
Proof.
  revert n shift found. induction fuel as [| fuel IH]; intros n shift found Hn Hf Hs Hfound Hb; [done |].
  cbn [encodeIntLoop]. rewrite shiftr_div by lia.
  assert (Hdm := Z.div_mod n (2 ^ 8) ltac:(lia)). assert (Hm := Z.mod_pos_bound n (2 ^ 8) ltac:(lia)).
  assert (Hq : 0 <= n / 2 ^ 8) by (apply Z.div_pos; lia).
  destruct (next_group found (n mod 2 ^ 8) (n / 2 ^ 8) shift 8) as (Eshl & Elor & Hnext); try lia.
  cbn [decodeIntLoop]. rewrite Eshl. cbn [mbind option_bind]. rewrite Elor.
  destruct (Z.eqb_spec (n / 2 ^ 8) 0) as [E0 | E0].
  - cbn [decodeIntLoop]. by replace (n mod 2 ^ 8) with n by lia.
  - assert (Hfuel : (fuel <> 0)%nat).
    { intros ->. apply E0. apply Z.div_small. simpl in Hn. lia. }
    assert (Hn' : 0 <= n / 2 ^ 8 < 2 ^ (8 * Z.of_nat fuel)).
    { split; [done |]. apply Z.div_lt_upper_bound; [lia |]. rewrite <- Z.pow_add_r by lia.
      replace (8 + 8 * Z.of_nat fuel) with (8 * Z.of_nat (S fuel)) by lia. apply Hn. }
    assert (Hsplit : found + n * 2 ^ shift = found + n mod 2 ^ 8 * 2 ^ shift + n / 2 ^ 8 * 2 ^ (shift + 8)).
    { rewrite Z.pow_add_r by lia. rewrite Hdm at 1. ring. }
    rewrite IH; [by rewrite <- Hsplit | done | done | | done | by rewrite <- Hsplit].
    assert (H1 : 1 * 2 ^ (shift + 8) <= n / 2 ^ 8 * 2 ^ (shift + 8)) by (apply Z.mul_le_mono_nonneg_r; lia).
    assert (Hlt : 2 ^ (shift + 8) < 2 ^ 63) by lia. apply Z.pow_lt_mono_r_iff in Hlt; lia.
Qed.

Lemma int_length (fuel k : nat) (n : Z) :
  0 <= n < 2 ^ (8 * Z.of_nat k) -> (1 <= k)%nat -> (length (encodeIntLoop fuel n) <= k)%nat.
Proof.
  revert k n. induction fuel as [| fuel IH]; intros k n Hn Hk; cbn [encodeIntLoop length]; [lia |].
  rewrite shiftr_div by lia. destruct (Z.eqb_spec (n / 2 ^ 8) 0) as [E | E]; [simpl; lia |].
  destruct k as [| [| k]]; [lia | exfalso; apply E, Z.div_small; simpl in Hn; lia |].
  apply le_n_S, IH; [| lia]. split; [apply Z.div_pos; lia |]. apply Z.div_lt_upper_bound; [lia |].
  rewrite <- Z.pow_add_r by lia. replace (8 + 8 * Z.of_nat (S k)) with (8 * Z.of_nat (S (S k))) by lia. apply Hn.
Qed.

Lemma int_bytes (fuel : nat) (n : Z) : 0 <= n -> Forall isByte (encodeIntLoop fuel n).
Proof.
  revert n. induction fuel as [| fuel IH]; intros n Hn; cbn [encodeIntLoop]; [constructor |].
  assert (Hm := Z.mod_pos_bound n (2 ^ 8) ltac:(lia)). constructor; [done |].
  destruct (_ =? 0); [constructor |]. apply IH. rewrite shiftr_div by lia. apply Z.div_pos; lia.
Qed.

(** A number below 2^(8k) takes at most [k] bytes, of eight. *)
Lemma encodeInt_ok (n : Z) (k : nat) :
  0 <= n < 2 ^ 63 -> n < 2 ^ (8 * Z.of_nat k) -> (1 <= k)%nat ->
  exists v, encodeInt n = Some v /\ (1 <= length v <= 8)%nat /\ (length v <= k)%nat /\ Forall isByte v /\ decodeInt v = Some n.
Proof.
  intros Hn Hk H1. unfold encodeInt. rewrite (proj2 (Z.leb_le 0 n)) by lia. cbn [ASSERT mbind option_bind].
  rewrite Z.mod_small by lia. assert (Hl := int_length 8 8 n ltac:(change (8 * Z.of_nat 8) with 64; lia) ltac:(lia)).
  rewrite sized_ok by lia. eexists. split; [done |]. split; [split; [cbn [encodeIntLoop length]; lia | done] |].
  split; [apply int_length; [lia | done] |]. split; [by apply int_bytes; lia |]. unfold decodeInt.
  rewrite int_loop; [f_equal; lia | change (8 * Z.of_nat 8) with 64; lia | done | lia | lia | lia].
Qed.

Lemma compareInts_ok (a b : Z) : 0 <= a -> 0 <= b -> compareInts a b = Some (Z.sgn (a - b)).
Proof.
  intros Ha Hb. unfold compareInts. rewrite (proj2 (Z.leb_le 0 a)), (proj2 (Z.leb_le 0 b)) by lia. cbn.
  f_equal. destruct (Z.ltb_spec (a - b) 0), (Z.gtb_spec (a - b) 0); lia.
Qed.

(** ** Strings *)

Lemma encodeString_cons (c : Z) (s : list Z) : encodeString (c :: s) = Z.shiftr c 8 :: Z.land c 0xFF :: encodeString s.
Proof. done. Qed.

Lemma encodeString_length (s : list Z) : length (encodeString s) = (2 * length s)%nat.
Proof. induction s as [| c s IH]; [done |]. rewrite encodeString_cons. simpl. lia. Qed.

Lemma unit_split (c : Z) : isUnit16 c -> Z.shiftr c 8 = c / 2 ^ 8 /\ Z.land c 0xFF = c mod 2 ^ 8 /\ 0 <= c / 2 ^ 8 < 2 ^ 8.
Proof.
  intros [H1 H2]. change 0xFF with (Z.ones 8). rewrite Z.land_ones, shiftr_div by lia. repeat split.
  - apply Z.div_pos; lia.
  - apply Z.div_lt_upper_bound; lia.
Qed.

Lemma decodeUnits_ok (s : list Z) : Forall isUnit16 s -> decodeUnits (encodeString s) = s.
Proof.
  induction 1 as [| c s Hc _ IH]; [done |]. rewrite encodeString_cons. cbn [decodeUnits]. rewrite IH. f_equal.
  destruct (unit_split c Hc) as (-> & -> & _). rewrite Z.shiftl_mul_pow2 by lia.
  assert (Hm := Z.mod_pos_bound c (2 ^ 8) ltac:(lia)). rewrite lor_low by lia.
  assert (Hdm := Z.div_mod c (2 ^ 8) ltac:(lia)). lia.
Qed.

Lemma encodeString_bytes (s : list Z) : Forall isUnit16 s -> Forall isByte (encodeString s).
Proof.
  induction 1 as [| c s Hc _ IH]; [constructor |]. rewrite encodeString_cons.
  destruct (unit_split c Hc) as (-> & -> & ?). constructor; [done |]. constructor; [apply Z.mod_pos_bound; lia | done].
Qed.

(** A string the engine can hold: an unsigned length of 16-bit units. *)
Definition isString (s : list Z) : Prop := Forall isUnit16 s /\ Z.of_nat (length s) < 2 ^ 32.

Lemma doubled_ok (len : Z) : len < 2 ^ 32 -> doubled len = Some (len * 2).
Proof. intros H. unfold doubled. destruct (Z.ltb_spec (len * 2) (2 ^ 63)); [done | lia]. Qed.

Lemma take_units (s rest : list Z) :
  take (Z.to_nat (Z.of_nat (length s) * 2)) (encodeString s ++ rest) = encodeString s /\
  drop (Z.to_nat (Z.of_nat (length s) * 2)) (encodeString s ++ rest) = rest.
Proof.
  replace (Z.to_nat (Z.of_nat (length s) * 2)) with (length (encodeString s)) by (rewrite encodeString_length; lia).
  by rewrite take_app_length, drop_app_length.
Qed.

Lemma encodeStringWithLength_ok (s : list Z) :
  isString s ->
  exists v, encodeVarInt (Z.of_nat (length s)) = Some v /\ encodeStringWithLength s = Some (v ++ encodeString s) /\
    (1 <= length v <= 9)%nat /\ Forall isByte (v ++ encodeString s) /\
    forall rest, decodeVarInt (v ++ rest) = Parsed (Z.of_nat (length s), rest).
Proof.
  intros [Hu Hl]. destruct (encodeVarInt_ok (Z.of_nat (length s))) as (v & E & Hv & Hb & Hd); [lia |].
  exists v. split; [done |]. unfold encodeStringWithLength. rewrite E. split; [done |]. split; [done |].
  split; [| done]. apply list.Forall_app. split; [done | by apply encodeString_bytes].
Qed.

Lemma decodeStringWithLength_ok (s v rest : list Z) :
  isString s -> (forall rest, decodeVarInt (v ++ rest) = Parsed (Z.of_nat (length s), rest)) ->
  decodeStringWithLength ((v ++ encodeString s) ++ rest) = Parsed (s, rest).
Proof.
  intros [Hu Hl] Hv. unfold decodeStringWithLength. rewrite <- app_assoc, Hv. cbn [mbind parsed_bind].
  destruct (Z.ltb_spec (Z.of_nat (length s)) 0); [lia |]. cbn [unless mbind parsed_bind]. rewrite doubled_ok by done.
  cbn [defined mbind parsed_bind]. rewrite length_app, encodeString_length.
  destruct (Z.ltb_spec (Z.of_nat (2 * length s + length rest)) (Z.of_nat (length s) * 2)); [lia |].
  cbn [unless mbind parsed_bind]. destruct (take_units s rest) as [-> ->]. unfold decodeString.
  rewrite encodeString_length, Nat.even_mul. cbn. by rewrite decodeUnits_ok.
Qed.

(** ** Comparing strings byte by byte is comparing them unit by unit *)

Lemma memcmp_unit (n : nat) (c d : Z) (p q : list Z) :
  isUnit16 c -> isUnit16 d ->
  memcmp (S (S n)) (Z.shiftr c 8 :: Z.land c 0xFF :: p) (Z.shiftr d 8 :: Z.land d 0xFF :: q)
  = if c =? d then memcmp n p q else if c <? d then -1 else 1.
Proof.
  intros Hc Hd. destruct (unit_split c Hc) as (-> & -> & ?), (unit_split d Hd) as (-> & -> & ?).
  assert (H1 := Z.div_mod c (2 ^ 8) ltac:(lia)). assert (H2 := Z.mod_pos_bound c (2 ^ 8) ltac:(lia)).
  assert (H3 := Z.div_mod d (2 ^ 8) ltac:(lia)). assert (H4 := Z.mod_pos_bound d (2 ^ 8) ltac:(lia)).
  cbn [memcmp]. destruct (Z.eqb_spec (c / 2 ^ 8) (d / 2 ^ 8)), (Z.eqb_spec c d); try lia.
  - destruct (Z.eqb_spec (c mod 2 ^ 8) (d mod 2 ^ 8)); [done | lia].
  - destruct (Z.eqb_spec (c mod 2 ^ 8) (d mod 2 ^ 8)); [lia |].
    destruct (Z.ltb_spec (c mod 2 ^ 8) (d mod 2 ^ 8)), (Z.ltb_spec c d); lia || done.
  - destruct (Z.ltb_spec (c / 2 ^ 8) (d / 2 ^ 8)), (Z.ltb_spec c d); lia || done.
Qed.

Lemma memcmp_strings (s t p q : list Z) :
  Forall isUnit16 s -> Forall isUnit16 t ->
  let x := memcmp (2 * Nat.min (length s) (length t)) (encodeString s ++ p) (encodeString t ++ q) in
  (if negb (x =? 0) then x
   else if Z.of_nat (length s) =? Z.of_nat (length t) then 0
   else if Z.of_nat (length s) >? Z.of_nat (length t) then 1 else -1) = codePointCompare s t.
Proof.
  intros Hs. revert t. induction Hs as [| c s Hc _ IH]; intros t Ht.
  - destruct t as [| d t]; [done |]. cbn [length codePointCompare Nat.min Nat.mul memcmp]. rewrite Nat2Z.inj_succ.
    destruct (Z.eqb_spec (Z.of_nat 0) (Z.succ (Z.of_nat (length t)))); [lia |].
    destruct (Z.gtb_spec (Z.of_nat 0) (Z.succ (Z.of_nat (length t)))); [lia | done].
  - destruct Ht as [| d t Hd Ht]; [done |]. rewrite !encodeString_cons. cbn [length app].
    replace (2 * Nat.min (S (length s)) (S (length t)))%nat with (S (S (2 * Nat.min (length s) (length t)))) by lia.
    rewrite memcmp_unit by done. cbn [codePointCompare]. destruct (Z.eqb_spec c d) as [-> | Hcd].
    + rewrite <- (IH t Ht). rewrite !Nat2Z.inj_succ.
      destruct (negb _); [done |].
      destruct (Z.eqb_spec (Z.of_nat (length s)) (Z.of_nat (length t))), (Z.eqb_spec (Z.succ (Z.of_nat (length s))) (Z.succ (Z.of_nat (length t)))); try lia.
      destruct (Z.gtb_spec (Z.of_nat (length s)) (Z.of_nat (length t))), (Z.gtb_spec (Z.succ (Z.of_nat (length s))) (Z.succ (Z.of_nat (length t)))); lia.
    + destruct (Z.ltb_spec c d), (Z.gtb_spec c d); try lia; done.
Qed.

Lemma compareEncodedStrings_ok (s t v w p q : list Z) :
  isString s -> isString t ->
  (forall rest, decodeVarInt (v ++ rest) = Parsed (Z.of_nat (length s), rest)) ->
  (forall rest, decodeVarInt (w ++ rest) = Parsed (Z.of_nat (length t), rest)) ->
  compareEncodedStringsWithLength ((v ++ encodeString s) ++ p) ((w ++ encodeString t) ++ q)
  = Parsed (codePointCompare s t, p, q).
Proof.
  intros [Hs Hls] [Ht Hlt] Hv Hw. unfold compareEncodedStringsWithLength.
  rewrite <- !app_assoc, Hv, Hw.
  destruct (Z.ltb_spec (Z.of_nat (length s)) 0); [lia |]. destruct (Z.ltb_spec (Z.of_nat (length t)) 0); [lia |].
  cbn [orb unless mbind parsed_bind]. rewrite !doubled_ok by done. cbn [defined mbind parsed_bind].
  rewrite !length_app, !encodeString_length.
  destruct (Z.leb_spec (Z.of_nat (length s) * 2) (Z.of_nat (2 * length s + length p))); [| lia].
  destruct (Z.leb_spec (Z.of_nat (length t) * 2) (Z.of_nat (2 * length t + length q))); [| lia].
  cbn [assert mbind parsed_bind].
  destruct (take_units s p) as [_ ->], (take_units t q) as [_ ->]. do 3 f_equal.
  rewrite <- (memcmp_strings s t p q Hs Ht). cbv zeta.
  replace (Z.to_nat ((if Z.of_nat (length s) <? Z.of_nat (length t) then Z.of_nat (length s) else Z.of_nat (length t)) * 2))
    with (2 * Nat.min (length s) (length t))%nat; [done |].
  destruct (Z.ltb_spec (Z.of_nat (length s)) (Z.of_nat (length t))); lia.
Qed.

(** ** Doubles *)

Definition isDouble (x : Z) : Prop := 0 <= x < 2 ^ 64.

Lemma littleEndian_length (n : nat) (x : Z) : length (littleEndian n x) = n.
Proof. revert x. induction n as [| n IH]; intros x; [done |]. cbn. by rewrite IH. Qed.

Lemma littleEndian_bytes (n : nat) (x : Z) : Forall isByte (littleEndian n x).
Proof. revert x. induction n as [| n IH]; intros x; constructor; [apply Z.mod_pos_bound; lia | apply IH]. Qed.

Lemma ofLittleEndian_ok (n : nat) (x : Z) : 0 <= x < 2 ^ (8 * Z.of_nat n) -> ofLittleEndian (littleEndian n x) = x.
Proof.
  revert x. induction n as [| n IH]; intros x Hx; [simpl in *; lia |]. cbn [littleEndian ofLittleEndian].
  assert (Hdm := Z.div_mod x (2 ^ 8) ltac:(lia)). rewrite shiftr_div, IH by lia || (rewrite ?shiftr_div by lia; split; [apply Z.div_pos; lia |
    apply Z.div_lt_upper_bound; [lia |]; rewrite <- Z.pow_add_r by lia;
    replace (8 + 8 * Z.of_nat n) with (8 * Z.of_nat (S n)) by lia; apply Hx]). lia.
Qed.

Lemma decodeDouble_ok (x : Z) (rest : list Z) : isDouble x -> decodeDouble (encodeDouble x ++ rest) = Parsed (x, rest).
Proof.
  intros Hx. unfold decodeDouble, encodeDouble. rewrite length_app, littleEndian_length.
  destruct (Nat.ltb_spec (8 + length rest) 8); [lia |]. cbn [unless mbind parsed_bind].
  rewrite take_app_length', drop_app_length' by (by rewrite littleEndian_length).
  by rewrite ofLittleEndian_ok.
Qed.
