(* ===== verification/IDBKey.v ===== *)
(** * IndexedDB keys: Modules/indexeddb/IDBKey.{h,cpp} and their bytes

    The key with its order, and encodeIDBKey, decodeIDBKey, extractEncodedIDBKey and
    compareEncodedIDBKeys of IDBLevelDBCoding.cpp.  Decoders recurse on fuel: twice the
    number of bytes is enough, since every call reads a byte. *)

From S2P Require Import Prelude IDBCoding.

Inductive IDBKey :=
  | InvalidKey
  | ArrayKey (m_array : list IDBKey)
  | StringKey (m_string : list Z)
  | DateKey (m_number : Z)
  | NumberKey (m_number : Z).

(** IDBKey::Type; no key is made with MinType. *)
Definition InvalidType : Z := 0.
Definition ArrayType : Z := 1.
Definition StringType : Z := 2.
Definition DateType : Z := 3.
Definition NumberType : Z := 4.
Definition MinType : Z := 5.

Definition keyType (k : IDBKey) : Z :=
  match k with
  | InvalidKey => InvalidType
  | ArrayKey _ => ArrayType
  | StringKey _ => StringType
  | DateKey _ => DateType
  | NumberKey _ => NumberType
  end.

Definition compareTypes (a b : Z) : Z := b - a.

Fixpoint isValid (k : IDBKey) : bool :=
  match k with
  | InvalidKey => false
  | ArrayKey m_array => forallb isValid m_array
  | _ => true
  end.

Fixpoint compareKeys (k other : IDBKey) : option Z :=
  if negb (keyType k =? keyType other) then Some (if keyType k >? keyType other then -1 else 1)
  else
    match k, other with
    | ArrayKey m_array, ArrayKey other_array =>
        (fix compareArrays (a b : list IDBKey) : option Z :=
           match a, b with
           | x :: a', y :: b' =>
               result ← compareKeys x y;
               if negb (result =? 0) then Some result else compareArrays a' b'
           | [], [] => Some 0
           | [], _ => Some (-1)
           | _, [] => Some 1
           end) m_array other_array
    | StringKey s, StringKey t => Some (- codePointCompare t s)
    | DateKey d, DateKey e => Some (compareDoubles d e)
    | NumberKey d, NumberKey e => Some (compareDoubles d e)
    | _, _ => None
    end.

Definition isLessThan (k other : IDBKey) : option bool := c ← compareKeys k other; Some (c =? -1).
Definition isEqual (k other : IDBKey) : option bool := c ← compareKeys k other; Some (c =? 0).

(** m_sizeEstimate, a size_t *)
Definition OverheadSize : Z := 16.
Fixpoint sizeEstimate (k : IDBKey) : Z :=
  match k with
  | InvalidKey => OverheadSize
  | ArrayKey m_array => (OverheadSize + foldr (fun x n => (sizeEstimate x + n) mod 2 ^ 64) 0 m_array) mod 2 ^ 64
  | StringKey s => (OverheadSize + 2 * Z.of_nat (length s)) mod 2 ^ 64
  | DateKey _ | NumberKey _ => OverheadSize + 8
  end.

(** createMultiEntryArray: the valid keys, each once. *)
Fixpoint contains (k : IDBKey) (result : list IDBKey) : option bool :=
  match result with
  | [] => Some false
  | r :: result' => equal ← isEqual k r; if (equal : bool) then Some true else contains k result'
  end.
Fixpoint multiEntryLoop (array result : list IDBKey) : option (list IDBKey) :=
  match array with
  | [] => Some result
  | k :: array' =>
      if negb (isValid k) then multiEntryLoop array' result
      else
        skip ← contains k result;
        multiEntryLoop array' (if (skip : bool) then result else result ++ [k])
  end.
Definition createMultiEntryArray (array : list IDBKey) : option IDBKey :=
  result ← multiEntryLoop array [];
  _ ← ASSERT (isValid (ArrayKey result));
  Some (ArrayKey result).

(** ** Type bytes *)
Definition IDBKeyNullTypeByte : Z := 0.
Definition IDBKeyStringTypeByte : Z := 1.
Definition IDBKeyDateTypeByte : Z := 2.
Definition IDBKeyNumberTypeByte : Z := 3.
Definition IDBKeyArrayTypeByte : Z := 4.
Definition IDBKeyMinKeyTypeByte : Z := 5.

Definition maxIDBKey : list Z := encodeByte IDBKeyNullTypeByte.
Definition minIDBKey : list Z := encodeByte IDBKeyMinKeyTypeByte.

(** ** Encoding: what is appended to [into] *)
Fixpoint encodeIDBKey (key : IDBKey) : option (list Z) :=
  _ ← ASSERT (isValid key);
  match key with
  | InvalidKey => None
  | ArrayKey m_array =>
      length ← encodeVarInt (Z.of_nat (length m_array));
      keys ← (fix encodeKeys (l : list IDBKey) : option (list Z) :=
                match l with
                | [] => Some []
                | k :: l' => v ← encodeIDBKey k; w ← encodeKeys l'; Some (v ++ w)
                end) m_array;
      Some (encodeByte IDBKeyArrayTypeByte ++ length ++ keys)
  | StringKey s => v ← encodeStringWithLength s; Some (encodeByte IDBKeyStringTypeByte ++ v)
  | DateKey d => Some (encodeByte IDBKeyDateTypeByte ++ encodeDouble d)
  | NumberKey d => Some (encodeByte IDBKeyNumberTypeByte ++ encodeDouble d)
  end.

(** ** Decoding *)
Fixpoint decodeKeyFuel (fuel : nat) (p : list Z) : parsed (IDBKey * list Z) :=
  match fuel with
  | O => Exhausted
  | S fuel' =>
      '(type, p) ← decodeByte p;
      if type =? IDBKeyNullTypeByte then Parsed (InvalidKey, p)
      else if type =? IDBKeyArrayTypeByte then
        '(length, p) ← decodeVarInt p;
        unless (length <? 0);;
        '(array, p) ← decodeKeysFuel fuel' length p [];
        Parsed (ArrayKey array, p)
      else if type =? IDBKeyStringTypeByte then '(s, p) ← decodeStringWithLength p; Parsed (StringKey s, p)
      else if type =? IDBKeyDateTypeByte then '(d, p) ← decodeDouble p; Parsed (DateKey d, p)
      else if type =? IDBKeyNumberTypeByte then '(d, p) ← decodeDouble p; Parsed (NumberKey d, p)
      else Undefined
  end
with decodeKeysFuel (fuel : nat) (length : Z) (p : list Z) (array : list IDBKey) : parsed (list IDBKey * list Z) :=
  match fuel with
  | O => Exhausted
  | S fuel' =>
      if length =? 0 then Parsed (array, p)
      else
        '(key, p) ← decodeKeyFuel fuel' p;
        decodeKeysFuel fuel' (length - 1) p (array ++ [key])
  end.

Definition enough (p : list Z) : nat := (2 * length p + 2)%nat.
Definition decodeIDBKey (p : list Z) : parsed (IDBKey * list Z) := decodeKeyFuel (enough p) p.

(** extractEncodedIDBKey: the pointer behind the key; the switch has no case for other bytes,
    which are taken as a key of one byte. *)
Fixpoint skipKeyFuel (fuel : nat) (start : list Z) : parsed (list Z) :=
  match fuel with
  | O => Exhausted
  | S fuel' =>
      '(type, p) ← decodeByte start;
      if type =? IDBKeyArrayTypeByte then
        '(length, p) ← decodeVarInt p;
        unless (length <? 0);;
        skipKeysFuel fuel' length p
      else if type =? IDBKeyStringTypeByte then
        '(length, p) ← decodeVarInt p;
        unless (length <? 0);;
        bytes ← defined (doubled length);
        unless (Z.of_nat (List.length p) <? bytes);;
        Parsed (drop (Z.to_nat bytes) p)
      else if (type =? IDBKeyDateTypeByte) || (type =? IDBKeyNumberTypeByte) then
        unless (Nat.ltb (List.length p) 8);;
        Parsed (drop 8 p)
      else Parsed p
  end
with skipKeysFuel (fuel : nat) (length : Z) (p : list Z) : parsed (list Z) :=
  match fuel with
  | O => Exhausted
  | S fuel' =>
      if length =? 0 then Parsed p
      else p ← skipKeyFuel fuel' p; skipKeysFuel fuel' (length - 1) p
  end.

(** With a result: the bytes of the key, and the pointer. *)
Definition extractEncodedIDBKey (start : list Z) : parsed (list Z * list Z) :=
  p ← skipKeyFuel (enough start) start;
  Parsed (take (length start - length p) start, p).

(** ** Comparing *)
Definition keyTypeByteToKeyType (type : Z) : option Z :=
  if type =? IDBKeyNullTypeByte then Some InvalidType
  else if type =? IDBKeyArrayTypeByte then Some ArrayType
  else if type =? IDBKeyStringTypeByte then Some StringType
  else if type =? IDBKeyDateTypeByte then Some DateType
  else if type =? IDBKeyNumberTypeByte then Some NumberType
  else if type =? IDBKeyMinKeyTypeByte then Some MinType
  else None.

(** A null pointer of one of two decoders sets ok = false; both are run. *)
Definition bothParsed {A B} (m : parsed A) (n : parsed B) : parsed (A * B) :=
  match m, n with
  | Parsed a, Parsed b => Parsed (a, b)
  | Undefined, _ | _, Undefined => Undefined
  | _, _ => NotParsed
  end.

Fixpoint compareKeyFuel (fuel : nat) (ptrA ptrB : list Z) : parsed (Z * list Z * list Z) :=
  match fuel with
  | O => Exhausted
  | S fuel' =>
      '(typeA, ptrA) ← defined (match ptrA with [] => None | c :: p => Some (c, p) end);
      '(typeB, ptrB) ← defined (match ptrB with [] => None | c :: p => Some (c, p) end);
      keyTypeA ← defined (keyTypeByteToKeyType typeA);
      keyTypeB ← defined (keyTypeByteToKeyType typeB);
      let x := compareTypes keyTypeA keyTypeB in
      if negb (x =? 0) then Parsed (x, ptrA, ptrB)
      else if (typeA =? IDBKeyNullTypeByte) || (typeA =? IDBKeyMinKeyTypeByte) then Parsed (0, ptrA, ptrB)
      else if typeA =? IDBKeyArrayTypeByte then
        '((lengthA, ptrA), (lengthB, ptrB)) ← bothParsed (decodeVarInt ptrA) (decodeVarInt ptrB);
        unless ((lengthA <? 0) || (lengthB <? 0));;
        compareKeysFuel fuel' 0 lengthA lengthB ptrA ptrB
      else if typeA =? IDBKeyStringTypeByte then compareEncodedStringsWithLength ptrA ptrB
      else
        match bothParsed (decodeDouble ptrA) (decodeDouble ptrB) with
        | Parsed ((d, ptrA), (e, ptrB)) => Parsed (compareDoubles d e, ptrA, ptrB)
        | _ => Undefined
        end
  end
with compareKeysFuel (fuel : nat) (i lengthA lengthB : Z) (ptrA ptrB : list Z) : parsed (Z * list Z * list Z) :=
  match fuel with
  | O => Exhausted
  | S fuel' =>
      if (i <? lengthA) && (i <? lengthB) then
        '(result, ptrA, ptrB) ← compareKeyFuel fuel' ptrA ptrB;
        if negb (result =? 0) then Parsed (result, ptrA, ptrB)
        else compareKeysFuel fuel' (i + 1) lengthA lengthB ptrA ptrB
      else Parsed (if lengthA <? lengthB then -1 else if lengthA >? lengthB then 1 else 0, ptrA, ptrB)
  end.

(** compareEncodedIDBKeys, on pointers and on vectors. *)
Definition compareEncodedIDBKeys (ptrA ptrB : list Z) : parsed (Z * list Z * list Z) :=
  compareKeyFuel (enough ptrA) ptrA ptrB.
Definition compareEncodedIDBKeyVectors (keyA keyB : list Z) : parsed Z :=
  '(result, _, _) ← compareEncodedIDBKeys keyA keyB; Parsed result.
