(* ===== verification/IDBKeyTheorems.v ===== *)
(** * IndexedDB keys: round trips and the order of encoded keys

    [Encoding] relates a key to its bytes; encodeIDBKey gives such bytes for every key
    that is well formed, decodeIDBKey and extractEncodedIDBKey read them back with any
    bytes behind, and compareEncodedIDBKeys orders them as the keys are ordered. *)

From S2P Require Import Prelude Compare IDBCoding IDBCodingTheorems IDBKey.

(** ** Well-formed keys *)

(** A valid key whose strings, arrays and numbers the engine can hold. *)
Fixpoint keyOk (k : IDBKey) : Prop :=
  match k with
  | InvalidKey => False
  | ArrayKey l => Z.of_nat (length l) < 2 ^ 32 /\ foldr (fun x P => keyOk x /\ P) True l
  | StringKey s => isString s
  | DateKey d | NumberKey d => isDouble d
  end.

Lemma keyOk_array (l : list IDBKey) : keyOk (ArrayKey l) <-> Z.of_nat (length l) < 2 ^ 32 /\ Forall keyOk l.
Proof.
  simpl. assert (E : foldr (fun x P => keyOk x /\ P) True l <-> Forall keyOk l); [| tauto].
  induction l as [| x l IH]; simpl; [split; constructor |]. rewrite list.Forall_cons. tauto.
Qed.

Lemma key_ind (P : IDBKey -> Prop) :
  P InvalidKey -> (forall l, Forall P l -> P (ArrayKey l)) -> (forall s, P (StringKey s)) ->
  (forall d, P (DateKey d)) -> (forall d, P (NumberKey d)) -> forall k, P k.
Proof.
  intros Hi Ha Hs Hd Hn. fix IH 1. intros [| l | s | d | d]; [exact Hi | | apply Hs | apply Hd | apply Hn].
  apply Ha. induction l as [| x l IHl]; constructor; [apply IH | exact IHl].
Qed.

(** The bytes of a number that decodeVarInt reads. *)
Definition varIntBytes (n : Z) (v : list Z) : Prop :=
  (1 <= length v)%nat /\ Forall isByte v /\ forall rest, decodeVarInt (v ++ rest) = Parsed (n, rest).

Inductive Encoding : IDBKey -> list Z -> Prop :=
| encodes_array l len vs :
    varIntBytes (Z.of_nat (length l)) len -> Forall2 Encoding l vs ->
    Encoding (ArrayKey l) (IDBKeyArrayTypeByte :: len ++ concat vs)
| encodes_string s len :
    isString s -> varIntBytes (Z.of_nat (length s)) len ->
    Encoding (StringKey s) (IDBKeyStringTypeByte :: len ++ encodeString s)
| encodes_date d : isDouble d -> Encoding (DateKey d) (IDBKeyDateTypeByte :: encodeDouble d)
| encodes_number d : isDouble d -> Encoding (NumberKey d) (IDBKeyNumberTypeByte :: encodeDouble d).

Lemma Encoding_nested (P : IDBKey -> list Z -> Prop) :
  (forall l len vs, varIntBytes (Z.of_nat (length l)) len -> Forall2 Encoding l vs -> Forall2 P l vs ->
     P (ArrayKey l) (IDBKeyArrayTypeByte :: len ++ concat vs)) ->
  (forall s len, isString s -> varIntBytes (Z.of_nat (length s)) len ->
     P (StringKey s) (IDBKeyStringTypeByte :: len ++ encodeString s)) ->
  (forall d, isDouble d -> P (DateKey d) (IDBKeyDateTypeByte :: encodeDouble d)) ->
  (forall d, isDouble d -> P (NumberKey d) (IDBKeyNumberTypeByte :: encodeDouble d)) ->
  forall k v, Encoding k v -> P k v.
Proof.
  intros Ha Hs Hd Hn. fix IH 3. intros k v [l len vs Hlen Hl | s len H1 H2 | d H | d H].
  - apply Ha; [done | done |]. clear Hlen. induction Hl as [| x w l vs Hx Hl IHl]; constructor; [by apply IH | exact IHl].
  - by apply Hs.
  - by apply Hd.
  - by apply Hn.
Qed.

(** ** The encoder *)

Definition encodeKeys : list IDBKey -> option (list Z) :=
  fix encodeKeys (l : list IDBKey) : option (list Z) :=
    match l with
    | [] => Some []
    | k :: l' => v ← encodeIDBKey k; w ← encodeKeys l'; Some (v ++ w)
    end.

Lemma encode_array (l : list IDBKey) :
  encodeIDBKey (ArrayKey l) =
  (_ ← ASSERT (isValid (ArrayKey l));
   len ← encodeVarInt (Z.of_nat (length l));
   keys ← encodeKeys l;
   Some (encodeByte IDBKeyArrayTypeByte ++ len ++ keys)).
Proof. done. Qed.

Lemma keyOk_valid (k : IDBKey) : keyOk k -> isValid k = true.
Proof.
  induction k as [| l IH | s | d | d] using key_ind; try done. intros [_ Hl]%keyOk_array. simpl.
  apply forallb_forall. intros x Hx%list_elem_of_In. rewrite list.Forall_forall in IH, Hl. by apply IH, Hl.
Qed.

Lemma encodes (k : IDBKey) : keyOk k -> exists v, encodeIDBKey k = Some v /\ Encoding k v.
Proof.
  induction k as [| l IH | s | d | d] using key_ind; intros Hk.
  - done.
  - rewrite encode_array, (keyOk_valid _ Hk). cbn [ASSERT mbind option_bind]. apply keyOk_array in Hk as [Hlen Hl].
    destruct (encodeVarInt_ok (Z.of_nat (length l))) as (len & -> & Hv & Hb & Hd); [lia |]. cbn [mbind option_bind].
    assert (E : exists vs, encodeKeys l = Some (concat vs) /\ Forall2 Encoding l vs).
    { clear -IH Hl. induction l as [| x l IHl]; [by exists [] |].
      apply list.Forall_cons in IH as [Hx IH]. apply list.Forall_cons in Hl as [Hxo Hl].
      destruct (Hx Hxo) as (v & Ev & Hv), (IHl IH Hl) as (vs & Evs & Hvs). exists (v :: vs).
      cbn [encodeKeys]. rewrite Ev. cbn [mbind option_bind]. fold encodeKeys. rewrite Evs. split; [done | by constructor]. }
    destruct E as (vs & -> & Hvs). cbn [mbind option_bind]. eexists. split; [done |]. constructor; [| done].
    split; [lia | done].
  - cbn [encodeIDBKey isValid ASSERT mbind option_bind]. destruct (encodeStringWithLength_ok s Hk) as (v & _ & -> & Hv & Hb & Hd).
    cbn [mbind option_bind]. eexists. split; [done |]. constructor; [done |]. split; [lia |]. split; [| done].
    by apply list.Forall_app in Hb as [Hb _].
  - eexists. split; [done |]. by constructor.
  - eexists. split; [done |]. by constructor.
Qed.

Lemma encoding_length (k : IDBKey) (v : list Z) : Encoding k v -> (1 <= length v)%nat.
Proof. intros []; simpl; lia. Qed.

(** Enough fuel for the bytes of a key, and of the keys of an array. *)
Definition keyFuel (v : list Z) : nat := (2 * length v)%nat.
Definition keysFuel (v : list Z) : nat := (2 * length v + 1)%nat.

Lemma enough_fuel (v rest : list Z) : (keyFuel v <= enough (v ++ rest))%nat.
Proof. unfold keyFuel, enough. rewrite length_app. lia. Qed.

(** ** Decoding *)

Ltac step := cbn [mbind parsed_bind unless defined negb orb andb].

Lemma nonnegative (n : nat) : (Z.of_nat n <? 0) = false.
Proof. apply Z.ltb_ge. lia. Qed.

(** The loop of decodeIDBKey over an array, given its elements. *)
Lemma decodeKeys_ok (l : list IDBKey) (vs : list (list Z)) :
  Forall2 (fun k v => (1 <= length v)%nat /\ forall fuel rest, (keyFuel v <= fuel)%nat ->
    decodeKeyFuel fuel (v ++ rest) = Parsed (k, rest)) l vs ->
  forall fuel acc rest, (keysFuel (concat vs) <= fuel)%nat ->
  decodeKeysFuel fuel (Z.of_nat (length l)) (concat vs ++ rest) acc = Parsed (acc ++ l, rest).
Proof.
  unfold keyFuel, keysFuel. induction 1 as [| x v l vs [Hv Hx] _ IH]; intros fuel acc rest Hf.
  - destruct fuel as [| fuel]; [simpl in Hf; lia |]. cbn. by rewrite app_nil_r.
  - simpl in Hf. rewrite length_app in Hf. destruct fuel as [| fuel]; [lia |].
    cbn [decodeKeysFuel length concat]. destruct (Z.eqb_spec (Z.of_nat (S (length l))) 0); [lia |].
    rewrite <- app_assoc, Hx by lia. step. replace (Z.of_nat (S (length l)) - 1) with (Z.of_nat (length l)) by lia.
    rewrite IH by lia. by rewrite <- app_assoc.
Qed.

Lemma decodeKey_ok (k : IDBKey) (v : list Z) :
  Encoding k v -> forall fuel rest, (keyFuel v <= fuel)%nat -> decodeKeyFuel fuel (v ++ rest) = Parsed (k, rest).
Proof.
  intros He. pattern k, v. revert k v He. apply Encoding_nested.
  - intros l len vs (Hl & _ & Hd) Hvs IH fuel rest Hf. unfold keyFuel in Hf. simpl in Hf. rewrite length_app in Hf.
    destruct fuel as [| fuel]; [lia |]. cbn [decodeKeyFuel app]. cbn [decodeByte]. step. cbn [Z.eqb IDBKeyArrayTypeByte IDBKeyNullTypeByte].
    rewrite <- app_assoc, Hd. step. rewrite nonnegative. step.
    rewrite (decodeKeys_ok l vs); [done | | unfold keysFuel; lia].
    apply Forall2_same_length_lookup_2; [by eapply Forall2_length |]. intros i x w Hx Hw.
    split; [| by eapply (Forall2_lookup_lr _ _ _ _ _ _ IH)].
    eapply encoding_length, (Forall2_lookup_lr _ _ _ _ _ _ Hvs); done.
  - intros s len Hs (Hl & _ & Hd) fuel rest Hf. unfold keyFuel in Hf. simpl in Hf. destruct fuel as [| fuel]; [lia |].
    cbn -[decodeStringWithLength]. by rewrite decodeStringWithLength_ok.
  - intros d Hd fuel rest Hf. destruct fuel as [| fuel]; [unfold keyFuel in Hf; simpl in Hf; lia |].
    cbn -[decodeDouble encodeDouble]. by rewrite decodeDouble_ok.
  - intros d Hd fuel rest Hf. destruct fuel as [| fuel]; [unfold keyFuel in Hf; simpl in Hf; lia |].
    cbn -[decodeDouble encodeDouble]. by rewrite decodeDouble_ok.
Qed.

(** ** Skipping *)

Lemma skipKeys_ok (l : list IDBKey) (vs : list (list Z)) :
  Forall2 (fun k v => (1 <= length v)%nat /\ forall fuel rest, (keyFuel v <= fuel)%nat ->
    skipKeyFuel fuel (v ++ rest) = Parsed rest) l vs ->
  forall fuel rest, (keysFuel (concat vs) <= fuel)%nat ->
  skipKeysFuel fuel (Z.of_nat (length l)) (concat vs ++ rest) = Parsed rest.
Proof.
  unfold keyFuel, keysFuel. induction 1 as [| x v l vs [Hv Hx] _ IH]; intros fuel rest Hf.
  - destruct fuel as [| fuel]; [simpl in Hf; lia | done].
  - simpl in Hf. rewrite length_app in Hf. destruct fuel as [| fuel]; [lia |].
    cbn [skipKeysFuel length concat]. destruct (Z.eqb_spec (Z.of_nat (S (length l))) 0); [lia |].
    rewrite <- app_assoc, Hx by lia. step. replace (Z.of_nat (S (length l)) - 1) with (Z.of_nat (length l)) by lia.
    by rewrite IH by lia.
Qed.

Lemma skipKey_ok (k : IDBKey) (v : list Z) :
  Encoding k v -> forall fuel rest, (keyFuel v <= fuel)%nat -> skipKeyFuel fuel (v ++ rest) = Parsed rest.
Proof.
  intros He. pattern k, v. revert k v He. apply Encoding_nested.
  - intros l len vs (Hl & _ & Hd) Hvs IH fuel rest Hf. unfold keyFuel in Hf. simpl in Hf. rewrite length_app in Hf.
    destruct fuel as [| fuel]; [lia |]. cbn [skipKeyFuel app]. cbn [decodeByte]. step. cbn [Z.eqb IDBKeyArrayTypeByte].
    rewrite <- app_assoc, Hd. step. rewrite nonnegative. step.
    rewrite (skipKeys_ok l vs); [done | | unfold keysFuel; lia].
    apply Forall2_same_length_lookup_2; [by eapply Forall2_length |]. intros i x w Hx Hw.
    split; [| by eapply (Forall2_lookup_lr _ _ _ _ _ _ IH)].
    eapply encoding_length, (Forall2_lookup_lr _ _ _ _ _ _ Hvs); done.
  - intros s len [Hu Hs] (Hl & _ & Hd) fuel rest Hf. unfold keyFuel in Hf. simpl in Hf. destruct fuel as [| fuel]; [lia |].
    cbn -[doubled Z.mul Z.of_nat drop]. rewrite <- app_assoc, Hd. step. rewrite nonnegative. step. rewrite doubled_ok by done. step.
    rewrite length_app, encodeString_length.
    destruct (Z.ltb_spec (Z.of_nat (2 * length s + length rest)) (Z.of_nat (length s) * 2)); [lia |]. step.
    by destruct (take_units s rest) as [_ ->].
  - intros d Hd fuel rest Hf. destruct fuel as [| fuel]; [unfold keyFuel in Hf; simpl in Hf; lia |]. done.
  - intros d Hd fuel rest Hf. destruct fuel as [| fuel]; [unfold keyFuel in Hf; simpl in Hf; lia |]. done.
Qed.

Lemma extract_ok (k : IDBKey) (v rest : list Z) :
  Encoding k v -> extractEncodedIDBKey (v ++ rest) = Parsed (v, rest).
Proof.
  intros He. unfold extractEncodedIDBKey. rewrite (skipKey_ok k v He) by apply enough_fuel. step.
  do 2 f_equal. rewrite length_app. replace (length v + length rest - length rest)%nat with (length v) by lia.
  apply take_app_length.
Qed.

(** ** Comparing *)

Definition compareArrays : list IDBKey -> list IDBKey -> option Z :=
  fix compareArrays (a b : list IDBKey) : option Z :=
    match a, b with
    | x :: a', y :: b' =>
        result ← compareKeys x y;
        if negb (result =? 0) then Some result else compareArrays a' b'
    | [], [] => Some 0
    | [], _ => Some (-1)
    | _, [] => Some 1
    end.

Lemma compare_array (l m : list IDBKey) : compareKeys (ArrayKey l) (ArrayKey m) = compareArrays l m.
Proof. done. Qed.

Lemma codePointCompare_swap (s t : list Z) : codePointCompare t s = - codePointCompare s t.
Proof.
  revert t. induction s as [| c s IH]; intros [| d t]; cbn [codePointCompare]; try done.
  rewrite (Z.eqb_sym d c). destruct (Z.eqb_spec c d); [apply IH |].
  destruct (Z.gtb_spec c d), (Z.gtb_spec d c); lia.
Qed.

Lemma codePointCompare_sgn (s t : list Z) : Z.sgn (codePointCompare s t) = codePointCompare s t.
Proof.
  revert t. induction s as [| c s IH]; intros [| d t]; cbn [codePointCompare]; try done.
  destruct (c =? d); [apply IH |]. by destruct (c >? d).
Qed.

Lemma compareDoubles_sgn (d e : Z) : Z.sgn (compareDoubles d e) = compareDoubles d e.
Proof. unfold compareDoubles. by destruct (doubleLess d e), (doubleLess e d). Qed.

(** What a comparison of the bytes [v] and [w] is to give: the sign of the order of the
    keys, with the pointers behind the keys when they are equal. *)
Definition compares (order : option Z) (run : list Z -> list Z -> parsed (Z * list Z * list Z)) : Prop :=
  forall p q, exists r p' q', run p q = Parsed (r, p', q') /\ order = Some (Z.sgn r) /\ (r = 0 -> p' = p /\ q' = q).

Lemma compareKeysLoop_ok (l : list IDBKey) (vs : list (list Z)) :
  Forall2 (fun a v => (1 <= length v)%nat /\ forall b w, Encoding b w -> forall fuel, (keyFuel v <= fuel)%nat ->
    compares (compareKeys a b) (fun p q => compareKeyFuel fuel (v ++ p) (w ++ q))) l vs ->
  forall m ws, Forall2 Encoding m ws -> forall fuel i, (keysFuel (concat vs) <= fuel)%nat ->
  compares (compareArrays l m)
    (fun p q => compareKeysFuel fuel i (i + Z.of_nat (length l)) (i + Z.of_nat (length m)) (concat vs ++ p) (concat ws ++ q)).
Proof.
  unfold keysFuel. induction 1 as [| a v l vs [Hv Ha] _ IH]; intros m ws Hm fuel i Hf p q;
    (destruct fuel as [| fuel]; [lia |]); cbn [compareKeysFuel].
  - destruct (Z.ltb_spec i (i + Z.of_nat (length (@nil IDBKey)))) as [H | H]; [simpl in H; lia |]. step.
    destruct Hm as [| b w m ws Hb Hm]; cbn [compareArrays].
    + rewrite Z.ltb_irrefl, Z.gtb_ltb, Z.ltb_irrefl. by exists 0, p, q.
    + destruct (Z.ltb_spec (i + Z.of_nat (length (@nil IDBKey))) (i + Z.of_nat (length (b :: m)))) as [H' | H']; [| simpl in H'; lia].
      by eexists (-1), _, _.
  - destruct (Z.ltb_spec i (i + Z.of_nat (length (a :: l)))) as [H | H]; [| simpl in H; lia]. step.
    destruct Hm as [| b w m ws Hb Hm].
    + destruct (Z.ltb_spec i (i + Z.of_nat (length (@nil IDBKey)))) as [H' | H']; [simpl in H'; lia |].
      cbn [compareArrays length]. rewrite Z.gtb_ltb.
      destruct (Z.ltb_spec (i + Z.of_nat (S (length l))) (i + Z.of_nat 0)); [lia |].
      destruct (Z.ltb_spec (i + Z.of_nat 0) (i + Z.of_nat (S (length l)))); [| lia]. by eexists 1, _, _.
    + destruct (Z.ltb_spec i (i + Z.of_nat (length (b :: m)))) as [H' | H']; [| simpl in H'; lia].
      simpl in Hf. rewrite length_app in Hf. cbn [concat]. rewrite <- !app_assoc.
      destruct (Ha b w Hb fuel ltac:(unfold keyFuel; lia) (concat vs ++ p) (concat ws ++ q)) as (r & p' & q' & -> & Er & Hr).
      step. cbn [compareArrays]. fold compareArrays. rewrite Er. cbn [mbind option_bind].
      destruct (Z.eqb_spec r 0) as [-> | Hr0]; step.
      * destruct (Hr eq_refl) as [-> ->]. cbn [Z.sgn Z.eqb negb length].
        replace (i + Z.of_nat (S (length l))) with (i + 1 + Z.of_nat (length l)) by lia.
        replace (i + Z.of_nat (S (length m))) with (i + 1 + Z.of_nat (length m)) by lia.
        apply (IH m ws Hm fuel (i + 1) ltac:(lia) p q).
      * destruct (Z.eqb_spec (Z.sgn r) 0) as [E | E]; [apply Z.sgn_null_iff in E; lia |].
        exists r, p', q'. split; [done |]. split; [done | lia].
Qed.

Definition typeByte (k : IDBKey) : Z :=
  match k with
  | InvalidKey => IDBKeyNullTypeByte
  | ArrayKey _ => IDBKeyArrayTypeByte
  | StringKey _ => IDBKeyStringTypeByte
  | DateKey _ => IDBKeyDateTypeByte
  | NumberKey _ => IDBKeyNumberTypeByte
  end.

Lemma typeByte_type (k : IDBKey) : keyTypeByteToKeyType (typeByte k) = Some (keyType k).
Proof. by destruct k. Qed.

Lemma encoding_head (k : IDBKey) (v : list Z) : Encoding k v -> exists v', v = typeByte k :: v'.
Proof. intros []; by eexists. Qed.

Lemma compare_types (a b : IDBKey) (v w : list Z) (fuel : nat) :
  Encoding a v -> Encoding b w -> keyType a <> keyType b -> (keyFuel v <= fuel)%nat ->
  compares (compareKeys a b) (fun p q => compareKeyFuel fuel (v ++ p) (w ++ q)).
Proof.
  intros Ha Hb Ht Hf p q. destruct (encoding_head a v Ha) as (v' & ->), (encoding_head b w Hb) as (w' & ->).
  destruct fuel as [| fuel]; [unfold keyFuel in Hf; simpl in Hf; lia |].
  cbn [compareKeyFuel app]. step. rewrite !typeByte_type. step. unfold compareTypes.
  destruct (Z.eqb_spec (keyType b - keyType a) 0) as [E | E]; [lia |]. step.
  eexists _, _, _. split; [done |]. split; [| lia].
  assert (Ec : compareKeys a b = Some (if keyType a >? keyType b then -1 else 1)).
  { destruct a, b; done. }
  rewrite Ec. f_equal. destruct (Z.gtb_spec (keyType a) (keyType b)); lia.
Qed.

Lemma compareKey_ok (a : IDBKey) (v : list Z) :
  Encoding a v -> forall b w, Encoding b w -> forall fuel, (keyFuel v <= fuel)%nat ->
  compares (compareKeys a b) (fun p q => compareKeyFuel fuel (v ++ p) (w ++ q)).
Proof.
  intros He. pattern a, v. revert a v He. apply Encoding_nested.
  - intros l len vs Hlen Hvs IH b w Hb fuel Hf. pose proof Hlen as (Hl & _ & Hd).
    destruct Hb as [m len' ws (_ & _ & Hd') Hws | | |];
      try (apply compare_types; [by constructor | by constructor | done | done]).
    intros p q. unfold keyFuel in Hf. simpl in Hf. rewrite length_app in Hf.
    destruct fuel as [| fuel]; [lia |]. cbn [compareKeyFuel app]. step. cbn [keyTypeByteToKeyType IDBKeyArrayTypeByte Z.eqb].
    step. cbn [Z.eqb IDBKeyArrayTypeByte IDBKeyNullTypeByte IDBKeyMinKeyTypeByte compareTypes ArrayType Z.sub].
    rewrite <- !app_assoc, Hd, Hd'. cbn [bothParsed]. step. rewrite !nonnegative. step.
    rewrite compare_array. eapply (compareKeysLoop_ok l vs) with (i := 0); [| done | unfold keysFuel; lia].
    apply Forall2_same_length_lookup_2; [by eapply Forall2_length |]. intros i x y Hx Hy.
    split; [| by eapply (Forall2_lookup_lr _ _ _ _ _ _ IH)].
    eapply encoding_length, (Forall2_lookup_lr _ _ _ _ _ _ Hvs); done.
  - intros s len Hs Hlen b w Hb fuel Hf. pose proof Hlen as (Hl & _ & Hd).
    destruct Hb as [| t len' Ht (_ & _ & Hd') | |];
      try (apply compare_types; [by constructor | by constructor | done | done]).
    intros p q. destruct fuel as [| fuel]; [unfold keyFuel in Hf; simpl in Hf; lia |].
    cbn -[compareEncodedStringsWithLength]. rewrite compareEncodedStrings_ok by done.
    eexists _, _, _. split; [done |]. rewrite codePointCompare_swap, Z.opp_involutive, codePointCompare_sgn. done.
  - intros d Hd b w Hb fuel Hf.
    destruct Hb as [| | e He |]; try (apply compare_types; [by constructor | by constructor | done | done]).
    intros p q. destruct fuel as [| fuel]; [unfold keyFuel in Hf; simpl in Hf; lia |].
    cbn -[decodeDouble encodeDouble]. rewrite !decodeDouble_ok by done. cbn [bothParsed].
    eexists _, _, _. split; [done |]. by rewrite compareDoubles_sgn.
  - intros d Hd b w Hb fuel Hf.
    destruct Hb as [| | | e He]; try (apply compare_types; [by constructor | by constructor | done | done]).
    intros p q. destruct fuel as [| fuel]; [unfold keyFuel in Hf; simpl in Hf; lia |].
    cbn -[decodeDouble encodeDouble]. rewrite !decodeDouble_ok by done. cbn [bothParsed].
    eexists _, _, _. split; [done |]. by rewrite compareDoubles_sgn.
Qed.

Lemma compareEncoded_ok (a b : IDBKey) (v w : list Z) :
  Encoding a v -> Encoding b w ->
  compares (compareKeys a b) (fun p q => compareEncodedIDBKeys (v ++ p) (w ++ q)).
Proof.
  intros Ha Hb p q. apply (compareKey_ok a v Ha b w Hb (enough (v ++ p)) (enough_fuel v p) p q).
Qed.

(** ** Termination: the fuel is enough for any bytes *)

Lemma varint_shorter (p rest : list Z) (shift found n : Z) :
  decodeVarIntLoop p shift found = Parsed (n, rest) -> (length rest < length p)%nat.
Proof.
  revert shift found. induction p as [| c p IH]; intros shift found E; [done |]. cbn [decodeVarIntLoop] in E.
  destruct (shl64 _ _); [| done]. cbn in E. destruct (_ =? 0); [injection E as _ <-; simpl; lia |].
  apply IH in E. simpl. lia.
Qed.

Lemma varint_not_exhausted (p : list Z) (shift found : Z) : decodeVarIntLoop p shift found <> Exhausted.
Proof.
  revert shift found. induction p as [| c p IH]; intros shift found; [done |]. cbn [decodeVarIntLoop].
  destruct (shl64 _ _); [| done]. cbn. by destruct (_ =? 0).
Qed.

Lemma unless_bind {A} (b : bool) (m : parsed A) (r : A) : (unless b;; m) = Parsed r -> m = Parsed r.
Proof. by destruct b. Qed.

Lemma string_shorter (p rest s : list Z) : decodeStringWithLength p = Parsed (s, rest) -> (length rest < length p)%nat.
Proof.
  unfold decodeStringWithLength. destruct (decodeVarInt p) as [[len p'] | | |] eqn:E; try done. step.
  apply varint_shorter in E. intros H%unless_bind. destruct (doubled len) as [b |]; [| done]. cbn [mbind parsed_bind defined] in H.
  apply unless_bind in H. destruct (decodeString _); [| done]. injection H as _ <-. rewrite length_drop. lia.
Qed.

Lemma double_shorter (p rest : list Z) (d : Z) : decodeDouble p = Parsed (d, rest) -> (length rest <= length p)%nat.
Proof. unfold decodeDouble. intros H%unless_bind. injection H as _ <-. rewrite length_drop. lia. Qed.

Lemma string_not_exhausted (p : list Z) : decodeStringWithLength p <> Exhausted.
Proof.
  unfold decodeStringWithLength. pose proof (varint_not_exhausted p 0 0) as E. fold (decodeVarInt p) in E.
  destruct (decodeVarInt p) as [[len p'] | | |]; try done. step. destruct (len <? 0); [done |]. step.
  destruct (doubled len); [| done]. step. destruct (_ <? z); [done |]. step. by destruct (decodeString _).
Qed.

Lemma double_not_exhausted (p : list Z) : decodeDouble p <> Exhausted.
Proof. unfold decodeDouble. by destruct (Nat.ltb _ _). Qed.

(** A fallible step of a decoder does not run out of fuel, and the rest is shorter. *)
Definition settles {A} (m : parsed (A * list Z)) (n : nat) : Prop :=
  match m with Parsed (_, rest) => (length rest <= n)%nat | Exhausted => False | _ => True end.

Lemma settles_bind {A B} (m : parsed (A * list Z)) (f : A -> list Z -> parsed (B * list Z)) (n n' : nat) :
  settles m n -> (forall a rest, (length rest <= n)%nat -> settles (f a rest) n') -> settles ('(a, rest) ← m; f a rest) n'.
Proof. destruct m as [[a rest] | | |]; simpl; auto. Qed.

Lemma settles_le {A} (m : parsed (A * list Z)) (n n' : nat) : (n <= n')%nat -> settles m n -> settles m n'.
Proof. destruct m as [[a rest] | | |]; simpl; [lia | done..]. Qed.

Lemma settles_varint (p : list Z) : settles (decodeVarInt p) (length p - 1).
Proof.
  pose proof (varint_not_exhausted p 0 0) as E. fold (decodeVarInt p) in E.
  destruct (decodeVarInt p) as [[n rest] | | |] eqn:Ev; try done. apply varint_shorter in Ev. simpl. lia.
Qed.

Lemma settles_string (p : list Z) : settles (decodeStringWithLength p) (length p).
Proof.
  pose proof (string_not_exhausted p) as E. destruct (decodeStringWithLength p) as [[n rest] | | |] eqn:Ev; try done.
  apply string_shorter in Ev. simpl. lia.
Qed.

Lemma settles_double (p : list Z) : settles (decodeDouble p) (length p).
Proof.
  pose proof (double_not_exhausted p) as E. destruct (decodeDouble p) as [[n rest] | | |] eqn:Ev; try done.
  apply double_shorter in Ev. simpl. lia.
Qed.

Lemma decode_settles (fuel : nat) :
  (forall p, (2 * length p + 1 <= fuel)%nat -> settles (decodeKeyFuel fuel p) (length p - 1)) /\
  (forall n p acc, (2 * length p + 2 <= fuel)%nat -> settles (decodeKeysFuel fuel n p acc) (length p)).
Proof.
  induction fuel as [| fuel [IHk IHl]]; (split; [intros p Hf | intros n p acc Hf]; try lia).
  - cbn [decodeKeyFuel]. destruct p as [| c p]; [done |]. cbn [decodeByte]. step. simpl length in *. rewrite Nat.sub_succ, Nat.sub_0_r.
    destruct (c =? _); [simpl; lia |]. destruct (c =? _).
    { eapply settles_bind; [apply settles_varint |]. intros n rest Hr. destruct (n <? 0); [done |]. step.
      eapply settles_bind; [apply IHl; lia |]. simpl. lia. }
    destruct (c =? _); [eapply settles_bind; [apply settles_string | simpl; lia] |].
    destruct (c =? _); [eapply settles_bind; [apply settles_double | simpl; lia] |].
    destruct (c =? _); [eapply settles_bind; [apply settles_double | simpl; lia] | done].
  - cbn [decodeKeysFuel]. destruct (n =? 0); [simpl; lia |].
    pose proof (IHk p ltac:(lia)) as Hk. destruct (decodeKeyFuel fuel p) as [[k rest] | | |] eqn:E; try done. step. simpl in Hk.
    assert (Hp : (length p <> 0)%nat).
    { intros Hp. destruct p; [| done]. by destruct fuel. }
    eapply settles_le; [| apply IHl]; lia.
Qed.

(** The same of a pointer alone, and of a comparison (by its first pointer). *)
Definition settlesPointer (m : parsed (list Z)) (n : nat) : Prop :=
  match m with Parsed rest => (length rest <= n)%nat | Exhausted => False | _ => True end.
Definition settlesFirst (m : parsed (Z * list Z * list Z)) (n : nat) : Prop :=
  match m with Parsed (_, rest, _) => (length rest <= n)%nat | Exhausted => False | _ => True end.

Lemma skip_settles (fuel : nat) :
  (forall p, (2 * length p + 1 <= fuel)%nat -> settlesPointer (skipKeyFuel fuel p) (length p - 1)) /\
  (forall n p, (2 * length p + 2 <= fuel)%nat -> settlesPointer (skipKeysFuel fuel n p) (length p)).
Proof.
  induction fuel as [| fuel [IHk IHl]]; (split; [intros p Hf | intros n p Hf]; try lia).
  - cbn [skipKeyFuel]. destruct p as [| c p]; [done |]. cbn [decodeByte]. step. simpl length in *. rewrite Nat.sub_succ, Nat.sub_0_r.
    pose proof (settles_varint p) as Hv.
    destruct (c =? _).
    { destruct (decodeVarInt p) as [[n rest] | | |]; try done. step. simpl in Hv. destruct (n <? 0); [done |]. step.
      pose proof (IHl n rest ltac:(lia)) as H. destruct (skipKeysFuel fuel n rest); simpl in *; [lia | done..]. }
    destruct (c =? _).
    { destruct (decodeVarInt p) as [[n rest] | | |]; try done. step. simpl in Hv. destruct (n <? 0); [done |]. step.
      destruct (doubled n); [| done]. step. destruct (_ <? z); [done |]. simpl. rewrite length_drop. lia. }
    destruct (_ || _); [| simpl; lia]. destruct (Nat.ltb _ _); [done |]. step. unfold settlesPointer. rewrite length_drop. lia.
  - cbn [skipKeysFuel]. destruct (n =? 0); [simpl; lia |].
    pose proof (IHk p ltac:(lia)) as Hk. destruct (skipKeyFuel fuel p) as [rest | | |] eqn:E; try done. step. simpl in Hk.
    assert (Hp : (length p <> 0)%nat).
    { intros Hp. destruct p; [| done]. by destruct fuel. }
    pose proof (IHl (n - 1) rest ltac:(lia)) as H. destruct (skipKeysFuel fuel (n - 1) rest); simpl in *; [lia | done..].
Qed.

Lemma settles_strings (p q : list Z) : settlesFirst (compareEncodedStringsWithLength p q) (length p).
Proof.
  unfold compareEncodedStringsWithLength. pose proof (settles_varint p) as Hp. pose proof (settles_varint q) as Hq.
  destruct (decodeVarInt p) as [[n p'] | | |], (decodeVarInt q) as [[m q'] | | |]; try done. simpl in Hp.
  destruct (_ || _); [done |]. step. destruct (doubled n) as [z |], (doubled m) as [z0 |]; try done. step.
  destruct (z <=? _); [| exact I]. destruct (z0 <=? _); [| exact I]. cbn [assert]. step.
  unfold settlesFirst. rewrite length_drop. lia.
Qed.

Lemma compare_settles (fuel : nat) :
  (forall p q, (2 * length p + 1 <= fuel)%nat -> settlesFirst (compareKeyFuel fuel p q) (length p - 1)) /\
  (forall i n m p q, (2 * length p + 2 <= fuel)%nat -> settlesFirst (compareKeysFuel fuel i n m p q) (length p)).
Proof.
  induction fuel as [| fuel [IHk IHl]]; (split; [intros p q Hf | intros i n m p q Hf]; try lia).
  - cbn [compareKeyFuel]. destruct p as [| c p]; [done |]. destruct q as [| d q]; [done |]. step.
    simpl length in *. rewrite Nat.sub_succ, Nat.sub_0_r.
    destruct (keyTypeByteToKeyType c); [| done]. step. destruct (keyTypeByteToKeyType d); [| done]. step.
    destruct (negb _); [simpl; lia |]. destruct (_ || _); [simpl; lia |].
    pose proof (settles_varint p) as Hv. pose proof (settles_varint q) as Hv'.
    destruct (c =? _).
    { destruct (decodeVarInt p) as [[n p'] | | |], (decodeVarInt q) as [[m q'] | | |]; try done. cbn [bothParsed]. step.
      simpl in Hv. destruct (_ || _); [done |]. step.
      pose proof (IHl 0 n m p' q' ltac:(lia)) as H. destruct (compareKeysFuel _ _ _ _ _ _) as [[[? ?] ?] | | |]; simpl in *; [lia | done..]. }
    destruct (c =? _); [apply settles_strings |].
    pose proof (settles_double p) as Hd. pose proof (settles_double q) as Hd'.
    destruct (decodeDouble p) as [[x p'] | | |], (decodeDouble q) as [[y q'] | | |]; done.
  - cbn [compareKeysFuel]. destruct (_ && _); [| simpl; lia].
    pose proof (IHk p q ltac:(lia)) as Hk. destruct (compareKeyFuel fuel p q) as [[[r p'] q'] | | |] eqn:E; try done. step. simpl in Hk.
    assert (Hp : (length p <> 0)%nat).
    { intros Hp. destruct p; [| done]. by destruct fuel. }
    destruct (r =? 0); step; [| simpl; lia].
    pose proof (IHl (i + 1) n m p' q' ltac:(lia)) as H.
    destruct (compareKeysFuel _ _ _ _ _ _) as [[[? ?] ?] | | |]; simpl in *; [lia | done..].
Qed.

(** ** The order of keys *)

Definition keyCompare (a b : IDBKey) : Z := default 0 (compareKeys a b).

(** A key whose numbers are numbers: the engine makes no key of a NaN. *)
Fixpoint noNaN (k : IDBKey) : bool :=
  match k with
  | ArrayKey l => forallb noNaN l
  | DateKey d | NumberKey d => negb (isNaN d)
  | _ => true
  end.

Definition ordered (k : IDBKey) : Prop := keyOk k /\ noNaN k = true.

Lemma ordered_array (l : list IDBKey) : ordered (ArrayKey l) -> Forall ordered l.
Proof.
  intros [[_ Hl]%keyOk_array Hn]. simpl in Hn. rewrite forallb_forall in Hn. apply list.Forall_forall. intros x Hx.
  rewrite list.Forall_forall in Hl. split; [by apply Hl |]. by apply Hn, list_elem_of_In.
Qed.

Lemma compareDoubles_order (d e : Z) :
  isNaN d = false -> isNaN e = false -> compareDoubles d e = compareZ (doubleOrder d) (doubleOrder e).
Proof.
  intros Hd He. unfold compareDoubles, doubleLess, compareZ. rewrite Hd, He. cbn [negb andb].
  destruct (Z.ltb_spec (doubleOrder d) (doubleOrder e)), (Z.ltb_spec (doubleOrder e) (doubleOrder d)); lia.
Qed.

#[export] Instance doubles_comparison : Comparison (fun d => isNaN d = false) compareDoubles.
Proof. eapply comparison_image; [apply compareDoubles_order | apply compareDoubles_sgn]. Qed.

Lemma codePointCompare_list (s t : list Z) : codePointCompare s t = listCompare compareZ s t.
Proof.
  revert t. induction s as [| c s IH]; intros [| d t]; try done. cbn [codePointCompare listCompare]. rewrite <- IH.
  unfold thenCompare, compareZ. destruct (Z.eqb_spec c d) as [-> | E]; [by rewrite Z.sub_diag |].
  destruct (Z.eqb_spec (Z.sgn (c - d)) 0), (Z.gtb_spec c d); simpl; lia.
Qed.

#[export] Instance strings_comparison : Comparison (fun _ => True) codePointCompare.
Proof.
  pose proof (listCompare_comparison _ _ compareZ_comparison) as [H1 H2 H3].
  assert (HT : forall s : list Z, Forall (fun _ => True) s) by (intros s; by apply list.Forall_true).
  split.
  - intros s t. apply codePointCompare_sgn.
  - intros s t _ _. rewrite !codePointCompare_list. by apply H2.
  - intros s _ t u _ _. rewrite !codePointCompare_list. by apply H3.
Qed.

Lemma keyType_compare (a b : IDBKey) : keyType a <> keyType b -> keyCompare a b = compareZ (keyType b) (keyType a).
Proof.
  intros Ht. assert (E : compareKeys a b = Some (if keyType a >? keyType b then -1 else 1)) by (destruct a, b; done).
  unfold keyCompare, compareZ. rewrite E. simpl. destruct (Z.gtb_spec (keyType a) (keyType b)); lia.
Qed.

Lemma compareKeys_sgn (a : IDBKey) : forall b c, compareKeys a b = Some c -> Z.sgn c = c.
Proof.
  induction a as [| l IH | s | d | d] using key_ind; intros b c;
    (destruct (decide (keyType b = ArrayType)) as [Eb | Eb]; destruct b as [| m | t | e | e]; try done); simpl;
    try (intros [= <-]; done).
  - clear Eb. rewrite compare_array || fold compareArrays. revert m. induction IH as [| x l Hx _ IHl]; intros [| y m]; try (intros [= <-]; done).
    cbn [compareArrays]. fold compareArrays. destruct (compareKeys x y) as [r |] eqn:E; [| done]. cbn [mbind option_bind].
    destruct (r =? 0); simpl; [apply IHl | intros [= <-]; by eapply Hx].
  - intros [= <-]. by rewrite codePointCompare_swap, Z.opp_involutive, codePointCompare_sgn.
  - intros [= <-]. apply compareDoubles_sgn.
  - intros [= <-]. apply compareDoubles_sgn.
Qed.

Lemma keyCompare_sgn (a b : IDBKey) : Z.sgn (keyCompare a b) = keyCompare a b.
Proof. unfold keyCompare. destruct (compareKeys a b) eqn:E; [by eapply compareKeys_sgn | done]. Qed.

(** compare of two valid keys fails no assertion; on arrays it is lexicographic. *)
Lemma compareKeys_some (a : IDBKey) : forall b, keyOk a -> keyOk b -> compareKeys a b = Some (keyCompare a b).
Proof.
  assert (H : forall a b, keyOk a -> keyOk b -> is_Some (compareKeys a b)).
  { clear a. intros a. induction a as [| l IH | s | d | d] using key_ind; intros [| m | t | e | e] Ha Hb; try done; simpl; try (by eexists).
    fold compareArrays. apply keyOk_array in Ha as [_ Ha], Hb as [_ Hb]. revert m Hb.
    induction IH as [| x l Hx _ IHl]; intros [| y m] Hb; try (by eexists).
    apply list.Forall_cons in Ha as [Hxo Ha]. apply list.Forall_cons in Hb as [Hyo Hb].
    cbn [compareArrays]. fold compareArrays. destruct (Hx y Hxo Hyo) as [r ->]. cbn [mbind option_bind].
    destruct (r =? 0); simpl; [by apply IHl | by eexists]. }
  intros b Ha Hb. unfold keyCompare. by destruct (H a b Ha Hb) as [c ->].
Qed.

Lemma keyCompare_array (l m : list IDBKey) :
  Forall keyOk l -> Forall keyOk m -> keyCompare (ArrayKey l) (ArrayKey m) = listCompare keyCompare l m.
Proof.
  intros Hl Hm. unfold keyCompare at 1. rewrite compare_array.
  assert (E : compareArrays l m = Some (listCompare keyCompare l m)); [| by rewrite E].
  revert m Hm. induction Hl as [| x l Hx _ IH]; intros m Hm; destruct Hm as [| y m Hy Hm]; try done.
  cbn [compareArrays listCompare]. fold compareArrays. rewrite compareKeys_some by done. cbn [mbind option_bind].
  unfold thenCompare. destruct (keyCompare x y =? 0); [by apply IH | done].
Qed.

Lemma keyCompare_swap (a : IDBKey) : forall b, ordered a -> ordered b -> keyCompare b a = - keyCompare a b.
Proof.
  induction a as [| l IH | s | d | d] using key_ind; intros b Ha Hb;
    match goal with |- keyCompare b ?a = _ => destruct (decide (keyType b = keyType a)) as [Et | Et] end;
    try (rewrite !keyType_compare by done; unfold compareZ; lia); destruct b as [| m | t | e | e]; try done.
  - pose proof (ordered_array l Ha) as Hl. pose proof (ordered_array m Hb) as Hm.
    rewrite !keyCompare_array by (eapply list.Forall_impl; [eassumption | by intros x []]).
    apply (listCompare_swap ordered); [| done]. rewrite list.Forall_forall in IH, Hl. apply list.Forall_forall.
    intros x Hx y Hy. apply IH; [done | by apply Hl | done].
  - unfold keyCompare. simpl. rewrite (codePointCompare_swap s t). lia.
  - destruct Ha as [_ Ha%negb_true_iff], Hb as [_ Hb%negb_true_iff]. unfold keyCompare. simpl. by apply (cmp_swap (cmp := compareDoubles)).
  - destruct Ha as [_ Ha%negb_true_iff], Hb as [_ Hb%negb_true_iff]. unfold keyCompare. simpl. by apply (cmp_swap (cmp := compareDoubles)).
Qed.

Lemma chains_types (a b c : IDBKey) :
  ~ (keyType a = keyType b /\ keyType b = keyType c) -> keyCompare a b <= 0 -> keyCompare b c <= 0 ->
  keyCompare a c = Z.min (keyCompare a b) (keyCompare b c).
Proof.
  intros Ht. pose proof (sgn_cases _ (keyCompare_sgn a b)). pose proof (sgn_cases _ (keyCompare_sgn b c)).
  destruct (decide (keyType a = keyType b)) as [E1 | E1], (decide (keyType b = keyType c)) as [E2 | E2].
  - destruct Ht. done.
  - rewrite (keyType_compare b c), (keyType_compare a c) by congruence. rewrite E1. unfold compareZ. lia.
  - rewrite (keyType_compare a b), (keyType_compare a c) by congruence. rewrite <- E2. unfold compareZ. lia.
  - intros H1 H2. rewrite (keyType_compare a b) in * by done. rewrite (keyType_compare b c) in * by done.
    unfold compareZ in *. rewrite keyType_compare by lia. unfold compareZ. lia.
Qed.

Lemma keyCompare_chains (a : IDBKey) : ordered a -> chains ordered keyCompare a.
Proof.
  induction a as [| l IH | s | d | d] using key_ind; intros Ha b c Hb Hc;
    (destruct (decide (keyType b = keyType c)) as [E2 | E2]; [| apply chains_types; tauto]);
    match goal with |- context [keyCompare ?a b] => destruct (decide (keyType a = keyType b)) as [E1 | E1]; [| apply chains_types; tauto] end;
    destruct b as [| m | t | e | e]; try done; destruct c as [| n | u | f | f]; try done.
  - pose proof (ordered_array l Ha) as Hl. pose proof (ordered_array m Hb) as Hm. pose proof (ordered_array n Hc) as Hn.
    rewrite !keyCompare_array by (eapply list.Forall_impl; [eassumption | by intros x []]).
    apply (listCompare_chains ordered); [apply keyCompare_sgn | | done | done].
    rewrite list.Forall_forall in IH, Hl. apply list.Forall_forall. intros x Hx. apply IH; [done | by apply Hl].
  - unfold keyCompare. simpl.
    rewrite (codePointCompare_swap s t), (codePointCompare_swap t u), (codePointCompare_swap s u), !Z.opp_involutive.
    by apply (cmp_chains (cmp := codePointCompare)).
  - destruct Ha as [_ Ha%negb_true_iff], Hb as [_ Hb%negb_true_iff], Hc as [_ Hc%negb_true_iff]. unfold keyCompare. simpl.
    by apply (cmp_chains (cmp := compareDoubles)).
  - destruct Ha as [_ Ha%negb_true_iff], Hb as [_ Hb%negb_true_iff], Hc as [_ Hc%negb_true_iff]. unfold keyCompare. simpl.
    by apply (cmp_chains (cmp := compareDoubles)).
Qed.

(** IDBKey::compare orders the valid keys without NaN. *)
#[export] Instance keys_comparison : Comparison ordered keyCompare.
Proof. split; [apply keyCompare_sgn | intros a b; apply keyCompare_swap | intros a; apply keyCompare_chains]. Qed.
