(* ===== verification/IDBUserKeyTheorems.v ===== *)
(** * User keys: the theorems

    Round trips, the order of encoded keys, readers on any bytes, the types of what is
    read, and the keys of a multi-entry index. *)

From S2P Require Import Prelude Compare IDBCoding IDBCodingTheorems IDBKey IDBKeyTheorems.

(** ** Round trips and order *)

(** C11: Every key that the engine can hold is encoded without a failed assertion; whatever
    follows its bytes, decodeIDBKey gives the key and extractEncodedIDBKey its bytes,
    and both leave the pointer right behind them. *)
Theorem key_roundtrip (k : IDBKey) (rest : list Z) :
  keyOk k ->
  exists v, encodeIDBKey k = Some v /\ v <> [] /\
    decodeIDBKey (v ++ rest) = Parsed (k, rest) /\ extractEncodedIDBKey (v ++ rest) = Parsed (v, rest).
Proof.
  intros Hk. destruct (encodes k Hk) as (v & Ev & Hv). exists v. split; [done |]. split.
  - apply encoding_length in Hv. by destruct v; [simpl in Hv; lia |].
  - split; [| by apply (extract_ok k)]. by apply decodeKey_ok, enough_fuel.
Qed.

Definition sampleKey : IDBKey := ArrayKey [StringKey [97; 0; 65535]; ArrayKey []; NumberKey (1023 * 2 ^ 52); DateKey 0].

Lemma sampleKey_ok : keyOk sampleKey.
Proof.
  split; [by vm_compute |]. simpl. split; [| by repeat split].
  split; [| by vm_compute]. repeat (apply list.Forall_cons; split; [by vm_compute |]). constructor.
Qed.

Lemma key_roundtrip_witness :
  exists v, encodeIDBKey sampleKey = Some v /\ v <> [] /\
    decodeIDBKey (v ++ [7; 7]) = Parsed (sampleKey, [7; 7]) /\ extractEncodedIDBKey (v ++ [7; 7]) = Parsed (v, [7; 7]).
Proof. apply key_roundtrip, sampleKey_ok. Defined.

(** compareEncodedIDBKeys on the bytes of two keys agrees with IDBKey::compare on the
    keys, NaN included, and when they are equal the pointers stand behind them. *)
Theorem encoded_order (a b : IDBKey) (p q : list Z) :
  keyOk a -> keyOk b ->
  exists v w r p' q', encodeIDBKey a = Some v /\ encodeIDBKey b = Some w /\
    compareEncodedIDBKeys (v ++ p) (w ++ q) = Parsed (r, p', q') /\ compareKeys a b = Some (Z.sgn r) /\ (r = 0 -> p' = p /\ q' = q).
Proof.
  intros Ha Hb. destruct (encodes a Ha) as (v & Ev & Hv), (encodes b Hb) as (w & Ew & Hw).
  destruct (compareEncoded_ok a b v w Hv Hw p q) as (r & p' & q' & H). by exists v, w, r, p', q'.
Qed.

Lemma encoded_order_witness :
  exists v w r p' q', encodeIDBKey sampleKey = Some v /\ encodeIDBKey (StringKey [97]) = Some w /\
    compareEncodedIDBKeys (v ++ [1]) (w ++ []) = Parsed (r, p', q') /\ compareKeys sampleKey (StringKey [97]) = Some (Z.sgn r) /\
    (r = 0 -> p' = [1] /\ q' = []).
Proof. apply encoded_order; [apply sampleKey_ok |]. split; [by apply list.Forall_singleton | by vm_compute]. Defined.

(** ** What is read of any bytes *)

(** A reader of [p] leaves a suffix of it, and its value satisfies [Q]. *)
Definition reads {A} (Q : A -> Prop) (p : list Z) (m : parsed (A * list Z)) : Prop :=
  match m with Parsed (a, rest) => rest `suffix_of` p /\ Q a | _ => True end.

Lemma reads_bind {A B} (Q : A -> Prop) (R : B -> Prop) (p : list Z) (m : parsed (A * list Z)) (f : A -> list Z -> parsed (B * list Z)) :
  reads Q p m -> (forall a rest, rest `suffix_of` p -> Q a -> reads R rest (f a rest)) -> reads R p ('(a, rest) ← m; f a rest).
Proof.
  destruct m as [[a rest] | | |]; simpl; try done. intros [Hs Hq] H. specialize (H a rest Hs Hq).
  destruct (f a rest) as [[b rest'] | | |]; try done. destruct H as [H1 H2]. split; [by etrans | done].
Qed.

Lemma reads_suffix {A} (Q : A -> Prop) (p p' : list Z) (m : parsed (A * list Z)) : p' `suffix_of` p -> reads Q p' m -> reads Q p m.
Proof. intros Hp. destruct m as [[a rest] | | |]; try done. intros [H1 H2]. split; [by etrans | done]. Qed.

Lemma drop_suffix (n : nat) (p : list Z) : drop n p `suffix_of` p.
Proof. exists (take n p). by rewrite take_drop. Qed.

Lemma bytes_suffix (p p' : list Z) : p' `suffix_of` p -> Forall isByte p -> Forall isByte p'.
Proof. intros [k ->] H. by apply list.Forall_app in H as [_ H]. Qed.

Lemma reads_varint (p : list Z) : reads (fun _ => True) p (decodeVarInt p).
Proof.
  unfold decodeVarInt. generalize 0 at 2 as found. generalize 0 as shift. induction p as [| c p IH]; intros shift found; [done |].
  cbn [decodeVarIntLoop]. destruct (shl64 _ _); [| done]. step. destruct (_ =? 0).
  - split; [by exists [c] | done].
  - eapply reads_suffix; [by exists [c] | apply IH].
Qed.

Lemma decodeUnits_typed (p : list Z) : Forall isByte p -> Forall isUnit16 (decodeUnits p).
Proof.
  assert (H : forall n q, (length q <= n)%nat -> Forall isByte q -> Forall isUnit16 (decodeUnits q)); [| by apply (H (length p))].
  induction n as [| n IH]; intros [| hi [| lo q]] Hn Hq; try constructor; try (simpl in Hn; lia).
  - apply list.Forall_cons in Hq as [Hh Hq]. apply list.Forall_cons in Hq as [Hl _]. unfold isByte, isUnit16 in *.
    rewrite Z.shiftl_mul_pow2, lor_low by lia. lia.
  - apply list.Forall_cons in Hq as [_ Hq]. apply list.Forall_cons in Hq as [_ Hq]. apply IH; [simpl in Hn; lia | done].
Qed.

Lemma reads_string (p : list Z) : Forall isByte p -> reads (Forall isUnit16) p (decodeStringWithLength p).
Proof.
  intros Hp. unfold decodeStringWithLength. eapply reads_bind; [apply reads_varint |]. intros len rest Hs _.
  destruct (len <? 0); [done |]. step. destruct (doubled len) as [n |]; [| done]. step. destruct (_ <? n); [done |]. step.
  unfold decodeString. destruct (Nat.even _); [| done]. cbn [ASSERT mbind option_bind]. step. split; [apply drop_suffix |].
  apply decodeUnits_typed, Forall_take. by eapply bytes_suffix.
Qed.

Lemma ofLittleEndian_typed (p : list Z) (n : nat) :
  Forall isByte p -> (length p <= n)%nat -> 0 <= ofLittleEndian p < 2 ^ (8 * Z.of_nat n).
Proof.
  intros H. revert n. induction H as [| c p Hc _ IH]; intros n Hn; [split; [done |]; apply Z.pow_pos_nonneg; lia |].
  destruct n as [| n]; [simpl in Hn; lia |]. cbn [ofLittleEndian]. specialize (IH n ltac:(simpl in Hn; lia)).
  replace (8 * Z.of_nat (S n)) with (8 + 8 * Z.of_nat n) by lia. rewrite Z.pow_add_r by lia. unfold isByte in Hc. lia.
Qed.

Lemma reads_double (p : list Z) : Forall isByte p -> reads isDouble p (decodeDouble p).
Proof.
  intros Hp. unfold decodeDouble. destruct (Nat.ltb _ _); [done |]. step. split; [apply drop_suffix |].
  apply (ofLittleEndian_typed _ 8); [by apply Forall_take | rewrite length_take; lia].
Qed.

(** A key of 16-bit units and 64-bit doubles; the null key included. *)
Fixpoint keyTyped (k : IDBKey) : Prop :=
  match k with
  | InvalidKey => True
  | ArrayKey l => foldr (fun x P => keyTyped x /\ P) True l
  | StringKey s => Forall isUnit16 s
  | DateKey d | NumberKey d => isDouble d
  end.

Lemma keyTyped_array (l : list IDBKey) : keyTyped (ArrayKey l) <-> Forall keyTyped l.
Proof.
  simpl. induction l as [| x l IH]; simpl; [split; constructor |]. rewrite list.Forall_cons. tauto.
Qed.

Lemma reads_key (fuel : nat) :
  (forall p, Forall isByte p -> reads keyTyped p (decodeKeyFuel fuel p)) /\
  (forall n p acc, Forall isByte p -> Forall keyTyped acc -> reads (Forall keyTyped) p (decodeKeysFuel fuel n p acc)).
Proof.
  induction fuel as [| fuel [IHk IHl]]; [by split |]. split; [intros p Hp | intros n p acc Hp Ha].
  - cbn [decodeKeyFuel]. destruct p as [| c p]; [done |]. cbn [decodeByte]. step. apply list.Forall_cons in Hp as [_ Hp].
    eapply (reads_suffix _ _ p); [by exists [c] |].
    destruct (c =? _); [done |]. destruct (c =? _).
    { eapply reads_bind; [apply reads_varint |]. intros n rest Hs _. destruct (n <? 0); [done |]. step.
      eapply reads_bind; [apply IHl; [by eapply bytes_suffix | constructor] |]. intros l rest' _ Hl. by split; [| apply keyTyped_array]. }
    destruct (c =? _); [eapply reads_bind; [by apply reads_string | by split] |].
    destruct (c =? _); [eapply reads_bind; [by apply reads_double | by split] |].
    destruct (c =? _); [eapply reads_bind; [by apply reads_double | by split] | done].
  - cbn [decodeKeysFuel]. destruct (n =? 0); [done |]. eapply reads_bind; [by apply IHk |]. intros k rest Hs Hk.
    apply IHl; [by eapply bytes_suffix |]. apply list.Forall_app. split; [done | by apply list.Forall_singleton].
Qed.

(** Decoding bytes gives a key whose strings are 16-bit units and whose numbers are
    64-bit doubles, with a suffix of the bytes left. *)
Theorem decoded_typed (p rest : list Z) (k : IDBKey) :
  Forall isByte p -> decodeIDBKey p = Parsed (k, rest) -> keyTyped k /\ exists read, p = read ++ rest /\ read <> [].
Proof.
  intros Hp E. pose proof (proj1 (reads_key (enough p)) p Hp) as H. unfold decodeIDBKey in E. rewrite E in H.
  destruct H as [[read ->] Ht]. split; [done |]. exists read. split; [done |]. intros ->.
  pose proof (proj1 (decode_settles (enough ([] ++ rest))) rest ltac:(unfold enough; simpl; lia)) as D. simpl app in *.
  rewrite E in D. simpl in D. destruct rest; [done | simpl in D; lia].
Qed.

Lemma decoded_typed_witness :
  keyTyped (ArrayKey [StringKey [258]; InvalidKey]) /\ exists read, [4; 2; 1; 1; 1; 2; 0; 9] = read ++ [9] /\ read <> [].
Proof.
  apply decoded_typed; [| by vm_compute]. repeat (apply list.Forall_cons; split; [by vm_compute |]). constructor.
Defined.

(** ** Every reader returns *)

Definition skips (p : list Z) (m : parsed (list Z)) : Prop := match m with Parsed rest => rest `suffix_of` p | _ => True end.

Lemma skips_suffix (p p' : list Z) (m : parsed (list Z)) : p' `suffix_of` p -> skips p' m -> skips p m.
Proof. intros Hp. destruct m; try done. unfold skips. intros H. by etrans. Qed.

Lemma skips_bind {A} (Q : A -> Prop) (p : list Z) (m : parsed (A * list Z)) (f : A -> list Z -> parsed (list Z)) :
  reads Q p m -> (forall a rest, skips rest (f a rest)) -> skips p ('(a, rest) ← m; f a rest).
Proof. destruct m as [[a rest] | | |]; simpl; try done. intros [Hs _] H. by eapply skips_suffix. Qed.

Lemma skips_key (fuel : nat) :
  (forall p, skips p (skipKeyFuel fuel p)) /\ (forall n p, skips p (skipKeysFuel fuel n p)).
Proof.
  induction fuel as [| fuel [IHk IHl]]; [by split |]. split; [intros p | intros n p].
  - cbn [skipKeyFuel]. destruct p as [| c p]; [done |]. cbn [decodeByte]. step. eapply (skips_suffix _ p); [by exists [c] |].
    destruct (c =? _).
    { eapply skips_bind; [apply reads_varint |]. intros n rest. destruct (n <? 0); [done | apply IHl]. }
    destruct (c =? _).
    { eapply skips_bind; [apply reads_varint |]. intros n rest. destruct (n <? 0); [done |]. step.
      destruct (doubled n) as [b |]; [| done]. step. destruct (_ <? b); [done | apply drop_suffix]. }
    destruct (_ || _); [| by exists []]. destruct (Nat.ltb _ _); [done | apply drop_suffix].
  - cbn [skipKeysFuel]. destruct (n =? 0); [by exists [] |]. pose proof (IHk p) as Hk.
    destruct (skipKeyFuel fuel p) as [rest | | |]; try done. step. by eapply skips_suffix.
Qed.

(** C12: On any bytes, however damaged, decoding, skipping and comparing a key return: they
    read at least a byte and leave fewer, or give a null pointer, or fail an assertion,
    and the recursion does not go deeper than twice the number of bytes.  What
    extractEncodedIDBKey takes is the front of the bytes. *)
Theorem readers_return (p q : list Z) :
  match decodeIDBKey p with Parsed (_, rest) => (length rest < length p)%nat | Exhausted => False | _ => True end /\
  match extractEncodedIDBKey p with
  | Parsed (v, rest) => v ++ rest = p /\ v <> []
  | Exhausted => False
  | _ => True
  end /\
  match compareEncodedIDBKeys p q with Parsed (_, rest, _) => (length rest < length p)%nat | Exhausted => False | _ => True end.
Proof.
  assert (H : (2 * length p + 1 <= enough p)%nat) by (unfold enough; lia).
  assert (Hp : p = [] \/ (length p - 1 < length p)%nat) by (destruct p; [by left | right; simpl; lia]).
  destruct Hp as [-> | Hp]; [by repeat split |]. split; [| split].
  - pose proof (proj1 (decode_settles (enough p)) p H) as D. unfold decodeIDBKey.
    destruct (decodeKeyFuel (enough p) p) as [[k rest] | | |]; simpl in *; (lia || done).
  - pose proof (proj1 (skip_settles (enough p)) p H) as D. pose proof (proj1 (skips_key (enough p)) p) as S. unfold extractEncodedIDBKey.
    destruct (skipKeyFuel (enough p) p) as [rest | | |]; try done. destruct S as [v ->]. step. simpl in D. rewrite length_app in *.
    rewrite Nat.add_sub, take_app_length. split; [done |]. intros ->. simpl in *. lia.
  - pose proof (proj1 (compare_settles (enough p)) p q H) as D. unfold compareEncodedIDBKeys.
    destruct (compareKeyFuel (enough p) p q) as [[[r rest] rest'] | | |]; simpl in *; (lia || done).
Qed.

(** ** The keys of a multi-entry index *)

(** No two elements are equal keys. *)
Definition distinctKeys (l : list IDBKey) : Prop :=
  forall i j x y, l !! i = Some x -> l !! j = Some y -> keyCompare x y = 0 -> i = j.

Lemma keyCompare_eq_sym (a b : IDBKey) : ordered a -> ordered b -> keyCompare a b = 0 -> keyCompare b a = 0.
Proof. intros Ha Hb E. rewrite keyCompare_swap by done. lia. Qed.

Lemma distinct_snoc (l : list IDBKey) (k : IDBKey) :
  Forall ordered l -> ordered k -> distinctKeys l -> (forall r, r ∈ l -> keyCompare k r <> 0) -> distinctKeys (l ++ [k]).
Proof.
  intros Hl Hk Hd Hn i j x y Hi Hj E. rewrite list.Forall_forall in Hl.
  apply lookup_snoc_Some in Hi as [[_ Hi] | [-> <-]], Hj as [[_ Hj] | [-> <-]].
  - by eapply Hd.
  - apply list_elem_of_lookup_2 in Hi. destruct (Hn x Hi). apply keyCompare_eq_sym; auto.
  - apply list_elem_of_lookup_2 in Hj. by destruct (Hn y Hj).
  - done.
Qed.

Lemma containsKey_ok (k : IDBKey) (l : list IDBKey) :
  ordered k -> Forall ordered l -> exists b : bool, contains k l = Some b /\ (b = true <-> exists r, r ∈ l /\ keyCompare k r = 0).
Proof.
  intros Hk. induction 1 as [| r l Hr _ (b & E & Hb)]; [exists false; split; [done |]; split; [done |]; by intros (r & ?%elem_of_nil & _) |].
  cbn [contains]. unfold isEqual. rewrite (compareKeys_some k r) by (apply Hk || apply Hr). cbn [mbind option_bind].
  destruct (Z.eqb_spec (keyCompare k r) 0) as [E0 | E0].
  - exists true. split; [done |]. split; [| done]. intros _. exists r. split; [constructor | done].
  - exists b. split; [done |]. rewrite Hb. split; intros (s & Hs & Es); exists s; (split; [| done]).
    + by constructor.
    + by apply elem_of_cons in Hs as [-> |].
Qed.

Lemma multiEntry_loop (array : list IDBKey) :
  forall result, Forall (fun k => isValid k = true -> ordered k) array -> Forall ordered result -> distinctKeys result ->
  exists l, multiEntryLoop array result = Some (result ++ l) /\ l `sublist_of` array /\ Forall ordered (result ++ l) /\
    distinctKeys (result ++ l) /\ (forall k, k ∈ array -> isValid k = true -> exists r, r ∈ result ++ l /\ keyCompare k r = 0).
Proof.
  induction array as [| k array IH]; intros result Ha Hr Hd.
  - exists []. rewrite app_nil_r. repeat (split; [done |]). by intros k ?%elem_of_nil.
  - apply list.Forall_cons in Ha as [Hk Ha]. cbn [multiEntryLoop]. destruct (isValid k) eqn:V; cbn [negb].
    + specialize (Hk eq_refl). destruct (containsKey_ok k result Hk Hr) as (b & -> & Hb). cbn [mbind option_bind]. destruct b.
      * destruct (IH result Ha Hr Hd) as (l & E & Hs & Ho & Hdl & Hc). exists l. split; [done |].
        split; [by constructor |]. split; [done |]. split; [done |].
        intros x [-> | Hx]%elem_of_cons Vx; [| by apply Hc].
        destruct (proj1 Hb eq_refl) as (r & Hin & Er). exists r. split; [| done]. apply elem_of_app. by left.
      * destruct (IH (result ++ [k])) as (l & E & Hs & Ho & Hdl & Hc); [done | | |].
        { apply list.Forall_app. split; [done | by apply list.Forall_singleton]. }
        { apply distinct_snoc; try done. intros r Hin Er. destruct Hb as [_ Hb]. by specialize (Hb (ex_intro _ r (conj Hin Er))). }
        rewrite <- app_assoc in *. exists (k :: l). split; [done |]. split; [by constructor |]. split; [done |]. split; [done |].
        intros x [-> | Hx]%elem_of_cons Vx; [| by apply Hc]. exists k. split; [rewrite elem_of_app; right; constructor |].
        by apply (cmp_refl ordered keyCompare).
    + destruct (IH result Ha Hr Hd) as (l & E & Hs & Ho & Hdl & Hc). exists l. split; [done |].
      split; [by constructor |]. split; [done |]. split; [done |].
      intros x [-> | Hx]%elem_of_cons Vx; [congruence | by apply Hc].
Qed.

(** A multi-entry array holds valid keys of the script's array in its order, no two of
    them equal and one equal to each valid key there; making it fails no assertion. *)
Theorem multi_entry (array : list IDBKey) :
  Forall (fun k => isValid k = true -> ordered k) array ->
  exists l, createMultiEntryArray array = Some (ArrayKey l) /\ l `sublist_of` array /\ distinctKeys l /\
    Forall (fun k => isValid k = true) l /\
    (forall k, k ∈ array -> isValid k = true -> exists r, r ∈ l /\ isEqual k r = Some true).
Proof.
  intros Ha. destruct (multiEntry_loop array [] Ha) as (l & E & Hs & Ho & Hd & Hc); [by apply list.Forall_nil | by intros i j x y | ].
  simpl app in *. assert (V : Forall (fun k => isValid k = true) l).
  { eapply list.Forall_impl; [exact Ho |]. intros k Hk. apply keyOk_valid, Hk. }
  exists l. unfold createMultiEntryArray. rewrite E. cbn [mbind option_bind]. split.
  - replace (isValid (ArrayKey l)) with true; [done |]. symmetry. simpl. apply forallb_forall.
    rewrite list.Forall_forall in V. intros x Hx. by apply V, list_elem_of_In.
  - split; [done |]. split; [done |]. split; [done |]. intros k Hk Vk. destruct (Hc k Hk Vk) as (r & Hr & Er). exists r. split; [done |].
    rewrite list.Forall_forall in Ha, Ho. unfold isEqual. destruct (Ha k Hk Vk) as [Hko _], (Ho r Hr) as [Hro _]. rewrite compareKeys_some by done. cbn.
    by rewrite Er.
Qed.

Definition sampleArray : list IDBKey := [NumberKey 0; InvalidKey; NumberKey (2 ^ 63); StringKey [97]].

Lemma multi_entry_witness :
  exists l, createMultiEntryArray sampleArray = Some (ArrayKey l) /\ l `sublist_of` sampleArray /\ distinctKeys l /\
    Forall (fun k => isValid k = true) l /\
    (forall k, k ∈ sampleArray -> isValid k = true -> exists r, r ∈ l /\ isEqual k r = Some true).
Proof.
  apply multi_entry. apply list.Forall_forall. intros k Hk V. unfold sampleArray in Hk. rewrite !elem_of_cons, elem_of_nil in Hk.
  destruct Hk as [-> | [-> | [-> | [-> | []]]]]; [by split | discriminate | by split |].
  split; [| done]. split; [by apply list.Forall_singleton | by vm_compute].
Defined.
