(* ===== verification/IDBLevelDBCoding.v ===== *)
(** * Keys of the IndexedDB backing store: Modules/indexeddb/IDBLevelDBCoding.{h,cpp}

    The prefix of ids, one module per class of keys with its encoder, decoder and
    comparison, and [compare], the comparison of two encoded keys that LevelDB sorts by.
    Key paths are at the end. *)

From S2P Require Import Prelude IDBCoding IDBKey.

(** ** KeyPrefix *)
Module KeyPrefix.
Record KeyPrefix := mk { m_databaseId : Z; m_objectStoreId : Z; m_indexId : Z }.

Inductive Type_ := GlobalMetaData | DatabaseMetaData | ObjectStoreData | ExistsEntry | IndexData | InvalidType.
#[export] Instance Type_eq_dec : EqDecision Type_.
Proof. solve_decision. Defined.

Definition kMaxDatabaseIdSizeBits : Z := 3.
Definition kMaxObjectStoreIdSizeBits : Z := 3.
Definition kMaxIndexIdSizeBits : Z := 2.
Definition kMaxDatabaseIdSizeBytes : Z := 8.
Definition kMaxObjectStoreIdSizeBytes : Z := 8.
Definition kMaxIndexIdSizeBytes : Z := 4.
Definition kMaxDatabaseId : Z := 2 ^ 63 - 1.
Definition kMaxObjectStoreId : Z := 2 ^ 63 - 1.
Definition kMaxIndexId : Z := 2 ^ 31 - 1.
Definition InvalidId : Z := -1.
Definition ObjectStoreDataIndexId : Z := 1.
Definition ExistsEntryIndexId : Z := 2.

Definition isValidDatabaseId (id : Z) : bool := (0 <? id) && (id <? kMaxDatabaseId).
Definition isValidObjectStoreId (id : Z) : bool := (0 <? id) && (id <? kMaxObjectStoreId).
Definition isValidIndexId (id : Z) : bool := (MinimumIndexId <=? id) && (id <? kMaxIndexId).

(** KeyPrefix(): the ids are set to the enumerator InvalidType, which is 5. *)
Definition new : KeyPrefix := mk 5 5 5.
Definition ofDatabase (databaseId : Z) : option KeyPrefix :=
  _ ← ASSERT (isValidDatabaseId databaseId); Some (mk databaseId 0 0).
Definition ofObjectStore (databaseId objectStoreId : Z) : option KeyPrefix :=
  _ ← ASSERT (isValidDatabaseId databaseId);
  _ ← ASSERT (isValidObjectStoreId objectStoreId);
  Some (mk databaseId objectStoreId 0).
Definition ofIndex (databaseId objectStoreId indexId : Z) : option KeyPrefix :=
  _ ← ASSERT (isValidDatabaseId databaseId);
  _ ← ASSERT (isValidObjectStoreId objectStoreId);
  _ ← ASSERT (isValidIndexId indexId);
  Some (mk databaseId objectStoreId indexId).
Definition createWithSpecialIndex (databaseId objectStoreId indexId : Z) : option KeyPrefix :=
  _ ← ASSERT (isValidDatabaseId databaseId);
  _ ← ASSERT (isValidObjectStoreId objectStoreId);
  _ ← ASSERT (negb (indexId =? 0));
  Some (mk databaseId objectStoreId indexId).

Definition decode (p : list Z) : parsed (KeyPrefix * list Z) :=
  match p with
  | [] => NotParsed
  | firstByte :: p =>
      let databaseIdBytes := Z.to_nat (Z.land (Z.shiftr firstByte 5) 7 + 1) in
      let objectStoreIdBytes := Z.to_nat (Z.land (Z.shiftr firstByte 2) 7 + 1) in
      let indexIdBytes := Z.to_nat (Z.land firstByte 3 + 1) in
      unless (Nat.ltb (length p) (databaseIdBytes + objectStoreIdBytes + indexIdBytes));;
      databaseId ← defined (decodeInt (take databaseIdBytes p));
      let p := drop databaseIdBytes p in
      objectStoreId ← defined (decodeInt (take objectStoreIdBytes p));
      let p := drop objectStoreIdBytes p in
      indexId ← defined (decodeInt (take indexIdBytes p));
      Parsed (mk databaseId objectStoreId indexId, drop indexIdBytes p)
  end.

Definition encodeInternal (databaseId objectStoreId indexId : Z) : option (list Z) :=
  databaseIdString ← encodeIntSafely databaseId kMaxDatabaseId;
  objectStoreIdString ← encodeIntSafely objectStoreId kMaxObjectStoreId;
  indexIdString ← encodeIntSafely indexId kMaxIndexId;
  let size v := Z.of_nat (length v) in
  _ ← ASSERT (size databaseIdString <=? kMaxDatabaseIdSizeBytes);
  _ ← ASSERT (size objectStoreIdString <=? kMaxObjectStoreIdSizeBytes);
  _ ← ASSERT (size indexIdString <=? kMaxIndexIdSizeBytes);
  let firstByte :=
    Z.lor (Z.lor (Z.shiftl (size databaseIdString - 1) (kMaxObjectStoreIdSizeBits + kMaxIndexIdSizeBits))
                 (Z.shiftl (size objectStoreIdString - 1) kMaxIndexIdSizeBits))
          (size indexIdString - 1) mod 2 ^ 8 in
  sized ([firstByte] ++ databaseIdString ++ objectStoreIdString ++ indexIdString).

Definition encodeEmpty : option (list Z) :=
  zeros ← encodeInternal 0 0 0;
  _ ← ASSERT (bool_decide (zeros = [0; 0; 0; 0]));
  Some [0; 0; 0; 0].

(** None of the ids is InvalidId. *)
Definition isSet (k : KeyPrefix) : bool :=
  negb (m_databaseId k =? InvalidId) && negb (m_objectStoreId k =? InvalidId) && negb (m_indexId k =? InvalidId).

Definition encode (k : KeyPrefix) : option (list Z) :=
  _ ← ASSERT (isSet k); encodeInternal (m_databaseId k) (m_objectStoreId k) (m_indexId k).

Definition compare (k other : KeyPrefix) : option Z :=
  _ ← ASSERT (isSet k);
  if negb (m_databaseId k =? m_databaseId other) then compareInts (m_databaseId k) (m_databaseId other)
  else if negb (m_objectStoreId k =? m_objectStoreId other) then compareInts (m_objectStoreId k) (m_objectStoreId other)
  else if negb (m_indexId k =? m_indexId other) then compareInts (m_indexId k) (m_indexId other)
  else Some 0.

Definition type (k : KeyPrefix) : option Type_ :=
  _ ← ASSERT (isSet k);
  if m_databaseId k =? 0 then Some GlobalMetaData
  else if m_objectStoreId k =? 0 then Some DatabaseMetaData
  else if m_indexId k =? ObjectStoreDataIndexId then Some ObjectStoreData
  else if m_indexId k =? ExistsEntryIndexId then Some ExistsEntry
  else if MinimumIndexId <=? m_indexId k then Some IndexData
  else None.
End KeyPrefix.
Export (hints) KeyPrefix.

Import KeyPrefix.

(** ** Type bytes *)
Definition SchemaVersionTypeByte : Z := 0.
Definition MaxDatabaseIdTypeByte : Z := 1.
Definition DataVersionTypeByte : Z := 2.
Definition MaxSimpleGlobalMetaDataTypeByte : Z := 3.
Definition DatabaseFreeListTypeByte : Z := 100.
Definition DatabaseNameTypeByte : Z := 201.
Definition ObjectStoreMetaDataTypeByte : Z := 50.
Definition IndexMetaDataTypeByte : Z := 100.
Definition ObjectStoreFreeListTypeByte : Z := 150.
Definition IndexFreeListTypeByte : Z := 151.
Definition ObjectStoreNamesTypeByte : Z := 200.
Definition IndexNamesKeyTypeByte : Z := 201.
Definition ObjectMetaDataTypeMaximum : Z := 255.
Definition IndexMetaDataTypeMaximum : Z := 255.
Definition MaxSimpleMetaDataType : Z := 5.

(** The start of every decoder of meta-data: the prefix, the assertions on its ids, the
    test for the end and the type byte.  [global] keys have no database id. *)
Definition decodeHeader (global : bool) (expected : Z) (p : list Z) : parsed (list Z) :=
  '(prefix, p) ← KeyPrefix.decode p;
  assert (eqb global (m_databaseId prefix =? 0));;
  assert (m_objectStoreId prefix =? 0);;
  assert (m_indexId prefix =? 0);;
  unless (bool_decide (p = []));;
  '(typeByte, p) ← decodeByte p;
  assert (typeByte =? expected);;
  Parsed p.

(** The start of the encoders of meta-data of a database. *)
Definition encodeHeader (databaseId typeByte : Z) : option (list Z) :=
  prefix ← ofDatabase databaseId;
  ret ← KeyPrefix.encode prefix;
  Some (ret ++ encodeByte typeByte).
Definition encodeGlobalHeader (typeByte : Z) : option (list Z) :=
  ret ← encodeEmpty; Some (ret ++ encodeByte typeByte).

(** ** Keys of all databases *)
Module SchemaVersionKey.
Definition encode : option (list Z) := encodeGlobalHeader SchemaVersionTypeByte.
End SchemaVersionKey.

Module MaxDatabaseIdKey.
Definition encode : option (list Z) := encodeGlobalHeader MaxDatabaseIdTypeByte.
End MaxDatabaseIdKey.

Module DataVersionKey.
Definition encode : option (list Z) := encodeGlobalHeader DataVersionTypeByte.
End DataVersionKey.

(** A key is what decode leaves in its result: on a failure the result is not used. *)
Module DatabaseFreeListKey.
Record DatabaseFreeListKey := mk { m_databaseId : Z }.
Definition new : DatabaseFreeListKey := mk (-1).
Definition decode (p : list Z) : parsed (DatabaseFreeListKey * list Z) :=
  p ← decodeHeader true DatabaseFreeListTypeByte p;
  unless (bool_decide (p = []));;
  '(databaseId, p) ← decodeVarInt p;
  Parsed (mk databaseId, p).
Definition encode (databaseId : Z) : option (list Z) :=
  ret ← encodeGlobalHeader DatabaseFreeListTypeByte;
  v ← encodeVarInt databaseId;
  Some (ret ++ v).
Definition encodeMaxKey : option (list Z) := encode INT64_MAX.
Definition databaseId (k : DatabaseFreeListKey) : option Z :=
  _ ← ASSERT (0 <=? m_databaseId k); Some (m_databaseId k).
Definition compare (k other : DatabaseFreeListKey) : option Z :=
  _ ← ASSERT (0 <=? m_databaseId k); compareInts (m_databaseId k) (m_databaseId other).
End DatabaseFreeListKey.

Module DatabaseNameKey.
Record DatabaseNameKey := mk { m_origin : list Z; m_databaseName : list Z }.
Definition decode (p : list Z) : parsed (DatabaseNameKey * list Z) :=
  p ← decodeHeader true DatabaseNameTypeByte p;
  unless (bool_decide (p = []));;
  '(origin, p) ← decodeStringWithLength p;
  '(databaseName, p) ← decodeStringWithLength p;
  Parsed (mk origin databaseName, p).
Definition encode (origin databaseName : list Z) : option (list Z) :=
  ret ← encodeGlobalHeader DatabaseNameTypeByte;
  v ← encodeStringWithLength origin;
  w ← encodeStringWithLength databaseName;
  Some (ret ++ v ++ w).
Definition encodeMinKeyForOrigin (origin : list Z) : option (list Z) := encode origin [].
Definition encodeStopKeyForOrigin (origin : list Z) : option (list Z) := encodeMinKeyForOrigin (origin ++ [1]).
Definition compare (k other : DatabaseNameKey) : Z :=
  let x := codePointCompare (m_origin k) (m_origin other) in
  if negb (x =? 0) then x else codePointCompare (m_databaseName k) (m_databaseName other).
End DatabaseNameKey.

(** ** Keys of a database *)
Module DatabaseMetaDataKey.
Definition encode (databaseId metaDataType : Z) : option (list Z) := encodeHeader databaseId metaDataType.
End DatabaseMetaDataKey.

Module ObjectStoreMetaDataKey.
Record ObjectStoreMetaDataKey := mk { m_objectStoreId : Z; m_metaDataType : Z }.
(** -1 as an unsigned char *)
Definition new : ObjectStoreMetaDataKey := mk (-1) 255.
Definition decode (p : list Z) : parsed (ObjectStoreMetaDataKey * list Z) :=
  p ← decodeHeader false ObjectStoreMetaDataTypeByte p;
  unless (bool_decide (p = []));;
  '(objectStoreId, p) ← decodeVarInt p;
  assert (negb (objectStoreId =? 0));;
  unless (bool_decide (p = []));;
  '(metaDataType, p) ← decodeByte p;
  Parsed (mk objectStoreId metaDataType, p).
Definition encode (databaseId objectStoreId metaDataType : Z) : option (list Z) :=
  ret ← encodeHeader databaseId ObjectStoreMetaDataTypeByte;
  v ← encodeVarInt objectStoreId;
  Some (ret ++ v ++ encodeByte metaDataType).
Definition encodeMaxKey (databaseId : Z) : option (list Z) := encode databaseId INT64_MAX ObjectMetaDataTypeMaximum.
Definition encodeMaxKeyOfStore (databaseId objectStoreId : Z) : option (list Z) :=
  encode databaseId objectStoreId ObjectMetaDataTypeMaximum.
Definition objectStoreId (k : ObjectStoreMetaDataKey) : option Z :=
  _ ← ASSERT (0 <=? m_objectStoreId k); Some (m_objectStoreId k).
Definition metaDataType (k : ObjectStoreMetaDataKey) : Z := m_metaDataType k.
Definition compare (k other : ObjectStoreMetaDataKey) : option Z :=
  _ ← ASSERT (0 <=? m_objectStoreId k);
  x ← compareInts (m_objectStoreId k) (m_objectStoreId other);
  if negb (x =? 0) then Some x
  else
    let result := m_metaDataType k - m_metaDataType other in
    Some (if result <? 0 then -1 else if result >? 0 then 1 else result).
End ObjectStoreMetaDataKey.

Module IndexMetaDataKey.
Record IndexMetaDataKey := mk { m_objectStoreId : Z; m_indexId : Z; m_metaDataType : Z }.
Definition new : IndexMetaDataKey := mk (-1) (-1) 0.
Definition decode (p : list Z) : parsed (IndexMetaDataKey * list Z) :=
  p ← decodeHeader false IndexMetaDataTypeByte p;
  unless (bool_decide (p = []));;
  '(objectStoreId, p) ← decodeVarInt p;
  '(indexId, p) ← decodeVarInt p;
  unless (bool_decide (p = []));;
  '(metaDataType, p) ← decodeByte p;
  Parsed (mk objectStoreId indexId metaDataType, p).
Definition encode (databaseId objectStoreId indexId metaDataType : Z) : option (list Z) :=
  ret ← encodeHeader databaseId IndexMetaDataTypeByte;
  v ← encodeVarInt objectStoreId;
  w ← encodeVarInt indexId;
  Some (ret ++ v ++ w ++ encodeByte metaDataType).
Definition encodeMaxKey (databaseId objectStoreId : Z) : option (list Z) :=
  encode databaseId objectStoreId INT64_MAX IndexMetaDataTypeMaximum.
Definition encodeMaxKeyOfIndex (databaseId objectStoreId indexId : Z) : option (list Z) :=
  encode databaseId objectStoreId indexId IndexMetaDataTypeMaximum.
Definition compare (k other : IndexMetaDataKey) : option Z :=
  _ ← ASSERT (0 <=? m_objectStoreId k);
  _ ← ASSERT (0 <=? m_indexId k);
  x ← compareInts (m_objectStoreId k) (m_objectStoreId other);
  if negb (x =? 0) then Some x
  else
    x ← compareInts (m_indexId k) (m_indexId other);
    if negb (x =? 0) then Some x else Some (m_metaDataType k - m_metaDataType other).
Definition indexId (k : IndexMetaDataKey) : option Z := _ ← ASSERT (0 <=? m_indexId k); Some (m_indexId k).
End IndexMetaDataKey.

Module ObjectStoreFreeListKey.
Record ObjectStoreFreeListKey := mk { m_objectStoreId : Z }.
Definition new : ObjectStoreFreeListKey := mk (-1).
Definition decode (p : list Z) : parsed (ObjectStoreFreeListKey * list Z) :=
  p ← decodeHeader false ObjectStoreFreeListTypeByte p;
  unless (bool_decide (p = []));;
  '(objectStoreId, p) ← decodeVarInt p;
  Parsed (mk objectStoreId, p).
Definition encode (databaseId objectStoreId : Z) : option (list Z) :=
  ret ← encodeHeader databaseId ObjectStoreFreeListTypeByte;
  v ← encodeVarInt objectStoreId;
  Some (ret ++ v).
Definition encodeMaxKey (databaseId : Z) : option (list Z) := encode databaseId INT64_MAX.
Definition objectStoreId (k : ObjectStoreFreeListKey) : option Z :=
  _ ← ASSERT (0 <=? m_objectStoreId k); Some (m_objectStoreId k).
Definition compare (k other : ObjectStoreFreeListKey) : option Z :=
  _ ← ASSERT (0 <=? m_objectStoreId k); compareInts (m_objectStoreId k) (m_objectStoreId other).
End ObjectStoreFreeListKey.

Module IndexFreeListKey.
Record IndexFreeListKey := mk { m_objectStoreId : Z; m_indexId : Z }.
Definition new : IndexFreeListKey := mk (-1) (-1).
Definition decode (p : list Z) : parsed (IndexFreeListKey * list Z) :=
  p ← decodeHeader false IndexFreeListTypeByte p;
  unless (bool_decide (p = []));;
  '(objectStoreId, p) ← decodeVarInt p;
  '(indexId, p) ← decodeVarInt p;
  Parsed (mk objectStoreId indexId, p).
Definition encode (databaseId objectStoreId indexId : Z) : option (list Z) :=
  ret ← encodeHeader databaseId IndexFreeListTypeByte;
  v ← encodeVarInt objectStoreId;
  w ← encodeVarInt indexId;
  Some (ret ++ v ++ w).
Definition encodeMaxKey (databaseId objectStoreId : Z) : option (list Z) := encode databaseId objectStoreId INT64_MAX.
Definition compare (k other : IndexFreeListKey) : option Z :=
  _ ← ASSERT (0 <=? m_objectStoreId k);
  _ ← ASSERT (0 <=? m_indexId k);
  x ← compareInts (m_objectStoreId k) (m_objectStoreId other);
  if negb (x =? 0) then Some x else compareInts (m_indexId k) (m_indexId other).
Definition objectStoreId (k : IndexFreeListKey) : option Z :=
  _ ← ASSERT (0 <=? m_objectStoreId k); Some (m_objectStoreId k).
Definition indexId (k : IndexFreeListKey) : option Z := _ ← ASSERT (0 <=? m_indexId k); Some (m_indexId k).
End IndexFreeListKey.

Module ObjectStoreNamesKey.
Record ObjectStoreNamesKey := mk { m_objectStoreName : list Z }.
Definition decode (p : list Z) : parsed (ObjectStoreNamesKey * list Z) :=
  p ← decodeHeader false ObjectStoreNamesTypeByte p;
  '(objectStoreName, p) ← decodeStringWithLength p;
  Parsed (mk objectStoreName, p).
Definition encode (databaseId : Z) (objectStoreName : list Z) : option (list Z) :=
  ret ← encodeHeader databaseId ObjectStoreNamesTypeByte;
  v ← encodeStringWithLength objectStoreName;
  Some (ret ++ v).
Definition compare (k other : ObjectStoreNamesKey) : Z := codePointCompare (m_objectStoreName k) (m_objectStoreName other).
End ObjectStoreNamesKey.

Module IndexNamesKey.
Record IndexNamesKey := mk { m_objectStoreId : Z; m_indexName : list Z }.
Definition new : IndexNamesKey := mk (-1) [].
Definition decode (p : list Z) : parsed (IndexNamesKey * list Z) :=
  p ← decodeHeader false IndexNamesKeyTypeByte p;
  unless (bool_decide (p = []));;
  '(objectStoreId, p) ← decodeVarInt p;
  '(indexName, p) ← decodeStringWithLength p;
  Parsed (mk objectStoreId indexName, p).
Definition encode (databaseId objectStoreId : Z) (indexName : list Z) : option (list Z) :=
  ret ← encodeHeader databaseId IndexNamesKeyTypeByte;
  v ← encodeVarInt objectStoreId;
  w ← encodeStringWithLength indexName;
  Some (ret ++ v ++ w).
Definition compare (k other : IndexNamesKey) : option Z :=
  _ ← ASSERT (0 <=? m_objectStoreId k);
  x ← compareInts (m_objectStoreId k) (m_objectStoreId other);
  Some (if negb (x =? 0) then x else codePointCompare (m_indexName k) (m_indexName other)).
End IndexNamesKey.

(** ** Keys of records *)

(** The prefix of a key of a record: its ids are asserted. *)
Definition decodeDataPrefix (indexId : Z -> bool) (p : list Z) : parsed (KeyPrefix * list Z) :=
  '(prefix, p) ← KeyPrefix.decode p;
  assert (negb (m_databaseId prefix =? 0));;
  assert (negb (m_objectStoreId prefix =? 0));;
  assert (indexId (m_indexId prefix));;
  Parsed (prefix, p).

Module ObjectStoreDataKey.
Definition SpecialIndexNumber : Z := ObjectStoreDataIndexId.
Record ObjectStoreDataKey := mk { m_encodedUserKey : list Z }.
Definition decode (p : list Z) : parsed (ObjectStoreDataKey * list Z) :=
  '(_, p) ← decodeDataPrefix (Z.eqb SpecialIndexNumber) p;
  unless (bool_decide (p = []));;
  '(encodedUserKey, p) ← extractEncodedIDBKey p;
  Parsed (mk encodedUserKey, p).
Definition encode (databaseId objectStoreId : Z) (encodedUserKey : list Z) : option (list Z) :=
  prefix ← createWithSpecialIndex databaseId objectStoreId SpecialIndexNumber;
  ret ← KeyPrefix.encode prefix;
  Some (ret ++ encodedUserKey).
Definition encodeUserKey (databaseId objectStoreId : Z) (userKey : IDBKey) : option (list Z) :=
  v ← encodeIDBKey userKey; encode databaseId objectStoreId v.
Definition compare (k other : ObjectStoreDataKey) : parsed Z :=
  compareEncodedIDBKeyVectors (m_encodedUserKey k) (m_encodedUserKey other).
Definition userKey (k : ObjectStoreDataKey) : parsed IDBKey := '(key, _) ← decodeIDBKey (m_encodedUserKey k); Parsed key.
End ObjectStoreDataKey.

Module ExistsEntryKey.
Definition SpecialIndexNumber : Z := ExistsEntryIndexId.
Record ExistsEntryKey := mk { m_encodedUserKey : list Z }.
Definition decode (p : list Z) : parsed (ExistsEntryKey * list Z) :=
  '(_, p) ← decodeDataPrefix (Z.eqb SpecialIndexNumber) p;
  unless (bool_decide (p = []));;
  '(encodedUserKey, p) ← extractEncodedIDBKey p;
  Parsed (mk encodedUserKey, p).
Definition encode (databaseId objectStoreId : Z) (encodedKey : list Z) : option (list Z) :=
  prefix ← createWithSpecialIndex databaseId objectStoreId SpecialIndexNumber;
  ret ← KeyPrefix.encode prefix;
  Some (ret ++ encodedKey).
Definition encodeUserKey (databaseId objectStoreId : Z) (userKey : IDBKey) : option (list Z) :=
  v ← encodeIDBKey userKey; encode databaseId objectStoreId v.
Definition compare (k other : ExistsEntryKey) : parsed Z :=
  compareEncodedIDBKeyVectors (m_encodedUserKey k) (m_encodedUserKey other).
Definition userKey (k : ExistsEntryKey) : parsed IDBKey := '(key, _) ← decodeIDBKey (m_encodedUserKey k); Parsed key.
End ExistsEntryKey.

Module IndexDataKey.
Record IndexDataKey := mk {
  m_databaseId : Z; m_objectStoreId : Z; m_indexId : Z;
  m_encodedUserKey : list Z; m_encodedPrimaryKey : list Z; m_sequenceNumber : Z }.
Definition new : IndexDataKey := mk (-1) (-1) (-1) [] [] (-1).
(** The sequence number and the primary key are optional. *)
Definition decode (p : list Z) : parsed (IndexDataKey * list Z) :=
  '(prefix, p) ← decodeDataPrefix (Z.leb MinimumIndexId) p;
  let key := mk (KeyPrefix.m_databaseId prefix) (KeyPrefix.m_objectStoreId prefix) (KeyPrefix.m_indexId prefix) in
  '(encodedUserKey, p) ← extractEncodedIDBKey p;
  if bool_decide (p = []) then Parsed (key encodedUserKey minIDBKey (-1), p)
  else
    '(sequenceNumber, p) ← decodeVarInt p;
    if bool_decide (p = []) then Parsed (key encodedUserKey minIDBKey sequenceNumber, p)
    else
      '(encodedPrimaryKey, p) ← extractEncodedIDBKey p;
      Parsed (key encodedUserKey encodedPrimaryKey sequenceNumber, p).
Definition encode (databaseId objectStoreId indexId : Z) (encodedUserKey encodedPrimaryKey : list Z) (sequenceNumber : Z)
    : option (list Z) :=
  prefix ← ofIndex databaseId objectStoreId indexId;
  ret ← KeyPrefix.encode prefix;
  v ← encodeVarInt sequenceNumber;
  Some (ret ++ encodedUserKey ++ v ++ encodedPrimaryKey).
Definition encodeUserKey (databaseId objectStoreId indexId : Z) (userKey : IDBKey) : option (list Z) :=
  v ← encodeIDBKey userKey; encode databaseId objectStoreId indexId v minIDBKey 0.
Definition encodeMinKey (databaseId objectStoreId indexId : Z) : option (list Z) :=
  encode databaseId objectStoreId indexId minIDBKey minIDBKey 0.
Definition encodeMaxKey (databaseId objectStoreId indexId : Z) : option (list Z) :=
  encode databaseId objectStoreId indexId maxIDBKey maxIDBKey INT64_MAX.
Definition compare (k other : IndexDataKey) (ignoreDuplicates : bool) : parsed Z :=
  assert (0 <=? m_databaseId k);;
  assert (0 <=? m_objectStoreId k);;
  assert (0 <=? m_indexId k);;
  result ← compareEncodedIDBKeyVectors (m_encodedUserKey k) (m_encodedUserKey other);
  if negb (result =? 0) then Parsed result
  else if ignoreDuplicates then Parsed 0
  else
    result ← compareEncodedIDBKeyVectors (m_encodedPrimaryKey k) (m_encodedPrimaryKey other);
    if negb (result =? 0) then Parsed result
    else defined (compareInts (m_sequenceNumber k) (m_sequenceNumber other)).
Definition databaseId (k : IndexDataKey) : option Z := _ ← ASSERT (0 <=? m_databaseId k); Some (m_databaseId k).
Definition objectStoreId (k : IndexDataKey) : option Z := _ ← ASSERT (0 <=? m_objectStoreId k); Some (m_objectStoreId k).
Definition indexId (k : IndexDataKey) : option Z := _ ← ASSERT (0 <=? m_indexId k); Some (m_indexId k).
Definition userKey (k : IndexDataKey) : parsed IDBKey := '(key, _) ← decodeIDBKey (m_encodedUserKey k); Parsed key.
Definition primaryKey (k : IndexDataKey) : parsed IDBKey := '(key, _) ← decodeIDBKey (m_encodedPrimaryKey k); Parsed key.
End IndexDataKey.

(** ** Comparing encoded keys *)

(** ASSERT(ptr) *)
Definition asserted {A} (m : parsed A) : parsed A := match m with NotParsed => Undefined | _ => m end.

(** compare<KeyType>, with the decoder and the comparison of the class. *)
Definition compareAs {K} (decode : list Z -> parsed (K * list Z)) (compareKey : K -> K -> option Z) (a b : list Z)
    : parsed Z :=
  '(keyA, _) ← asserted (decode a);
  '(keyB, _) ← asserted (decode b);
  defined (compareKey keyA keyB).

(** The start of the specialisations for the keys of records. *)
Definition dataPointers (indexId : Z -> bool) (a b : list Z) : parsed (list Z * list Z) :=
  '(prefixA, ptrA) ← asserted (decodeDataPrefix indexId a);
  '(prefixB, ptrB) ← asserted (decodeDataPrefix indexId b);
  assert (negb (bool_decide (ptrA = [])));;
  assert (negb (bool_decide (ptrB = [])));;
  x ← defined (KeyPrefix.compare prefixA prefixB);
  assert (x =? 0);;
  Parsed (ptrA, ptrB).

Definition compareExistsEntryKey (a b : list Z) : parsed Z :=
  '(ptrA, ptrB) ← dataPointers (Z.eqb ExistsEntryKey.SpecialIndexNumber) a b;
  compareEncodedIDBKeyVectors ptrA ptrB.
Definition compareObjectStoreDataKey (a b : list Z) : parsed Z :=
  '(ptrA, ptrB) ← dataPointers (Z.eqb ObjectStoreDataKey.SpecialIndexNumber) a b;
  compareEncodedIDBKeyVectors ptrA ptrB.

(** The optional sequence number: -1 when nothing is left. *)
Definition optionalSequence (ptr : list Z) : parsed (Z * list Z) :=
  if bool_decide (ptr = []) then Parsed (-1, ptr) else decodeVarInt ptr.

Definition compareIndexDataKey (a b : list Z) (ignoreDuplicates : bool) : parsed Z :=
  '(ptrA, ptrB) ← dataPointers (Z.leb MinimumIndexId) a b;
  '(result, ptrA, ptrB) ← compareEncodedIDBKeys ptrA ptrB;
  if negb (result =? 0) then Parsed result
  else if ignoreDuplicates then Parsed 0
  else
    match bothParsed (optionalSequence ptrA) (optionalSequence ptrB) with
    | Parsed ((sequenceNumberA, ptrA), (sequenceNumberB, ptrB)) =>
        match ptrA, ptrB with
        | [], [] => Parsed 0
        | [], _ => Parsed (-1)
        | _, [] => Parsed 1
        | _, _ =>
            '(result, _, _) ← compareEncodedIDBKeys ptrA ptrB;
            if negb (result =? 0) then Parsed result else defined (compareInts sequenceNumberA sequenceNumberB)
        end
    | NotParsed => Parsed 0
    | Undefined => Undefined
    | Exhausted => Exhausted
    end.

Definition total {K} (compareKey : K -> K -> Z) (k other : K) : option Z := Some (compareKey k other).

(** The branches on the type byte; None where no class has it. *)
Definition compareGlobalMetaData (typeByte : Z) (a b : list Z) : parsed Z :=
  if typeByte <? MaxSimpleGlobalMetaDataTypeByte then Parsed 0
  else if typeByte =? DatabaseFreeListTypeByte then compareAs DatabaseFreeListKey.decode DatabaseFreeListKey.compare a b
  else if typeByte =? DatabaseNameTypeByte then compareAs DatabaseNameKey.decode (total DatabaseNameKey.compare) a b
  else Undefined.
Definition compareDatabaseMetaData (typeByte : Z) (a b : list Z) : parsed Z :=
  if typeByte <? MaxSimpleMetaDataType then Parsed 0
  else if typeByte =? ObjectStoreMetaDataTypeByte then
    compareAs ObjectStoreMetaDataKey.decode ObjectStoreMetaDataKey.compare a b
  else if typeByte =? IndexMetaDataTypeByte then compareAs IndexMetaDataKey.decode IndexMetaDataKey.compare a b
  else if typeByte =? ObjectStoreFreeListTypeByte then
    compareAs ObjectStoreFreeListKey.decode ObjectStoreFreeListKey.compare a b
  else if typeByte =? IndexFreeListTypeByte then compareAs IndexFreeListKey.decode IndexFreeListKey.compare a b
  else if typeByte =? ObjectStoreNamesTypeByte then
    compareAs ObjectStoreNamesKey.decode (total ObjectStoreNamesKey.compare) a b
  else if typeByte =? IndexNamesKeyTypeByte then compareAs IndexNamesKey.decode IndexNamesKey.compare a b
  else Undefined.

(** Behind equal prefixes of meta-data: the type bytes, then [compareTyped]. *)
Definition compareMetaData (compareTyped : Z -> parsed Z) (ptrA ptrB : list Z) : parsed Z :=
  match ptrA, ptrB with
  | typeByteA :: _, typeByteB :: _ =>
      let x := typeByteA - typeByteB in
      if negb (x =? 0) then Parsed x else compareTyped typeByteA
  | _, _ => Undefined
  end.

(** Behind equal prefixes of records. *)
Definition compareData (compareKeys : parsed Z) (ptrA ptrB : list Z) : parsed Z :=
  match ptrA, ptrB with
  | [], [] => Parsed 0
  | [], _ => Parsed (-1)
  | _, [] => Parsed 1
  | _, _ => compareKeys
  end.

(** compare with its ok: [NotParsed] is ok = false, which the caller asserts. *)
Definition compareSlices (a b : list Z) (indexKeys : bool) : parsed Z :=
  '(prefixA, ptrA) ← asserted (KeyPrefix.decode a);
  '(prefixB, ptrB) ← asserted (KeyPrefix.decode b);
  x ← defined (KeyPrefix.compare prefixA prefixB);
  if negb (x =? 0) then Parsed x
  else
    type ← defined (KeyPrefix.type prefixA);
    match type with
    | GlobalMetaData => compareMetaData (fun typeByte => compareGlobalMetaData typeByte a b) ptrA ptrB
    | DatabaseMetaData => compareMetaData (fun typeByte => compareDatabaseMetaData typeByte a b) ptrA ptrB
    | ObjectStoreData => compareData (compareObjectStoreDataKey a b) ptrA ptrB
    | ExistsEntry => compareData (compareExistsEntryKey a b) ptrA ptrB
    | IndexData => compareData (compareIndexDataKey a b indexKeys) ptrA ptrB
    | InvalidType => Undefined
    end.

Definition compare (a b : list Z) (indexKeys : bool) : parsed Z := asserted (compareSlices a b indexKeys).
