(* ===== verification/IDBPrefixTheorems.v ===== *)
(** * IndexedDB key prefixes and headers: what their encoders write, their decoders read

    The prefix of any ids that fit, with any bytes behind; the headers of meta-data; the
    comparison of prefixes. *)

From S2P Require Import Prelude Compare IDBCoding IDBCodingTheorems IDBKey IDBKeyTheorems IDBLevelDBCoding.
Import KeyPrefix.

(** ** The first byte: three sizes in eight bits *)

Definition packSizes (d o i : Z) : Z := Z.lor (Z.lor (Z.shiftl d 5) (Z.shiftl o 2)) i mod 2 ^ 8.

Definition unpacks (d o i : Z) : bool :=
  let f := packSizes d o i in
  (Z.land (Z.shiftr f 5) 7 =? d) && (Z.land (Z.shiftr f 2) 7 =? o) && (Z.land f 3 =? i).

Lemma unpack_all :
  forallb (fun d => forallb (fun o => forallb (fun i => unpacks (Z.of_nat d) (Z.of_nat o) (Z.of_nat i)) (seq 0 4)) (seq 0 8)) (seq 0 8)
  = true.
Proof. by vm_compute. Qed.

Lemma unpack_ok (d o i : Z) :
  0 <= d < 8 -> 0 <= o < 8 -> 0 <= i < 4 ->
  let f := packSizes d o i in Z.land (Z.shiftr f 5) 7 = d /\ Z.land (Z.shiftr f 2) 7 = o /\ Z.land f 3 = i.
Proof.
  intros Hd Ho Hi. pose proof unpack_all as H. rewrite forallb_forall in H.
  specialize (H (Z.to_nat d) ltac:(apply in_seq; lia)). rewrite forallb_forall in H.
  specialize (H (Z.to_nat o) ltac:(apply in_seq; lia)). rewrite forallb_forall in H.
  specialize (H (Z.to_nat i) ltac:(apply in_seq; lia)). rewrite !Z2Nat.id in H by lia.
  unfold unpacks in H. rewrite !andb_true_iff, !Z.eqb_eq in H. destruct H as [[? ?] ?]. done.
Qed.

(** ** The prefix *)

(** Ids that have an encoding; zero stands for an id that the key does not have. *)
Definition idsFit (k : KeyPrefix) : Prop :=
  0 <= m_databaseId k < 2 ^ 63 /\ 0 <= m_objectStoreId k < 2 ^ 63 /\ 0 <= m_indexId k < 2 ^ 31.

Lemma encodeIntSafely_ok (n max : Z) (k : nat) :
  0 <= n <= max -> max < 2 ^ 63 -> max < 2 ^ (8 * Z.of_nat k) -> (1 <= k)%nat ->
  exists v, encodeIntSafely n max = Some v /\ (1 <= length v <= 8)%nat /\ (length v <= k)%nat /\ Forall isByte v /\ decodeInt v = Some n.
Proof.
  intros Hn Hm Hk H1. unfold encodeIntSafely. rewrite (proj2 (Z.leb_le n max)) by lia. cbn [ASSERT mbind option_bind].
  apply encodeInt_ok; lia.
Qed.

Lemma app3_take_drop (u v w rest : list Z) :
  take (length u) (u ++ v ++ w ++ rest) = u /\
  take (length v) (drop (length u) (u ++ v ++ w ++ rest)) = v /\
  take (length w) (drop (length v) (drop (length u) (u ++ v ++ w ++ rest))) = w /\
  drop (length w) (drop (length v) (drop (length u) (u ++ v ++ w ++ rest))) = rest.
Proof. by rewrite !drop_app_length, !take_app_length. Qed.

Lemma decode_prefix (u v w rest : list Z) (d o i : Z) :
  (1 <= length u <= 8)%nat -> (1 <= length v <= 8)%nat -> (1 <= length w <= 4)%nat ->
  decodeInt u = Some d -> decodeInt v = Some o -> decodeInt w = Some i ->
  KeyPrefix.decode (packSizes (Z.of_nat (length u) - 1) (Z.of_nat (length v) - 1) (Z.of_nat (length w) - 1) :: u ++ v ++ w ++ rest)
  = Parsed (mk d o i, rest).
Proof.
  intros Hu Hv Hw Ed Eo Ei. unfold KeyPrefix.decode.
  destruct (unpack_ok (Z.of_nat (length u) - 1) (Z.of_nat (length v) - 1) (Z.of_nat (length w) - 1)) as (-> & -> & ->); [lia.. |].
  rewrite !Z.sub_add, !Nat2Z.id. rewrite !length_app. destruct (Nat.ltb_spec (length u + (length v + (length w + length rest)))
    (length u + length v + length w)) as [H | _]; [lia |]. step.
  destruct (app3_take_drop u v w rest) as (-> & -> & -> & ->). rewrite Ed. step. rewrite Eo. step. by rewrite Ei.
Qed.

Lemma encodeInternal_ok (k : KeyPrefix) :
  idsFit k ->
  exists v, encodeInternal (m_databaseId k) (m_objectStoreId k) (m_indexId k) = Some v /\
    (4 <= length v <= 21)%nat /\ forall rest, KeyPrefix.decode (v ++ rest) = Parsed (k, rest).
Proof.
  destruct k as [d o i]. intros (Hd & Ho & Hi). cbn [m_databaseId m_objectStoreId m_indexId] in *. unfold encodeInternal.
  destruct (encodeIntSafely_ok d kMaxDatabaseId 8) as (u & -> & Hu & _ & _ & Eu);
    [unfold kMaxDatabaseId; lia | done | done | lia |].
  destruct (encodeIntSafely_ok o kMaxObjectStoreId 8) as (v & -> & Hv & _ & _ & Ev);
    [unfold kMaxObjectStoreId; lia | done | done | lia |].
  destruct (encodeIntSafely_ok i kMaxIndexId 4) as (w & -> & Hw & Hw' & _ & Ew);
    [unfold kMaxIndexId; lia | done | done | lia |].
  cbn [mbind option_bind]. unfold kMaxDatabaseIdSizeBytes, kMaxObjectStoreIdSizeBytes, kMaxIndexIdSizeBytes.
  rewrite !(proj2 (Z.leb_le _ _)) by lia. cbn [ASSERT mbind option_bind].
  rewrite sized_ok by (rewrite !length_app; simpl; lia). eexists. split; [done |].
  split; [rewrite !length_app; simpl; lia |]. intros rest.
  rewrite <- !app_assoc. cbn [app]. apply decode_prefix; (lia || done).
Qed.

Lemma isSet_fits (k : KeyPrefix) : idsFit k -> isSet k = true.
Proof.
  intros (? & ? & ?). unfold isSet, InvalidId.
  destruct (Z.eqb_spec (m_databaseId k) (-1)), (Z.eqb_spec (m_objectStoreId k) (-1)), (Z.eqb_spec (m_indexId k) (-1)); try lia; done.
Qed.

Lemma encode_fits (k : KeyPrefix) :
  idsFit k -> KeyPrefix.encode k = encodeInternal (m_databaseId k) (m_objectStoreId k) (m_indexId k).
Proof. intros H. unfold KeyPrefix.encode. by rewrite isSet_fits. Qed.

Definition prefixCompare (k other : KeyPrefix) : Z :=
  thenCompare (compareZ (m_databaseId k) (m_databaseId other))
    (thenCompare (compareZ (m_objectStoreId k) (m_objectStoreId other)) (compareZ (m_indexId k) (m_indexId other))).

Lemma compareZ_eqb (a b : Z) : (compareZ a b =? 0) = (a =? b).
Proof. unfold compareZ. destruct (Z.eqb_spec a b), (Z.eqb_spec (Z.sgn (a - b)) 0); lia. Qed.

Lemma prefix_compare (k other : KeyPrefix) :
  idsFit k -> idsFit other -> KeyPrefix.compare k other = Some (prefixCompare k other).
Proof.
  intros Hk (? & ? & ?). unfold KeyPrefix.compare. rewrite isSet_fits by done. cbn [ASSERT mbind option_bind].
  destruct Hk as (? & ? & ?). rewrite !compareInts_ok by lia. unfold prefixCompare, thenCompare. rewrite !compareZ_eqb. unfold compareZ.
  destruct (_ =? _); [| done]. destruct (_ =? _); [| done].
  destruct (Z.eqb_spec (m_indexId k) (m_indexId other)) as [-> | E]; [by rewrite Z.sub_diag | done].
Qed.

Lemma prefixCompare_zero (k other : KeyPrefix) : prefixCompare k other = 0 -> k = other.
Proof.
  destruct k as [d o i], other as [d' o' i']. unfold prefixCompare, thenCompare, compareZ. simpl.
  destruct (Z.eqb_spec (Z.sgn (d - d')) 0), (Z.eqb_spec (Z.sgn (o - o')) 0); simpl; intros; f_equal; lia.
Qed.

(** ** Headers *)

Definition isTypeByte (t : Z) : Prop := 0 <= t < 2 ^ 8.

Lemma encodeGlobalHeader_ok (t : Z) : encodeGlobalHeader t = Some [0; 0; 0; 0; t].
Proof. unfold encodeGlobalHeader. replace encodeEmpty with (Some [0; 0; 0; 0]) by (by vm_compute). done. Qed.

Lemma decode_zeros (rest : list Z) : KeyPrefix.decode (0 :: 0 :: 0 :: 0 :: rest) = Parsed (mk 0 0 0, rest).
Proof. apply (decode_prefix [0] [0] [0] rest 0 0 0); simpl; (lia || done). Qed.

Lemma decode_global (t : Z) (rest : list Z) : KeyPrefix.decode ([0; 0; 0; 0; t] ++ rest) = Parsed (mk 0 0 0, t :: rest).
Proof. apply decode_zeros. Qed.

Lemma decodeHeader_ok (global : bool) (t : Z) (v rest : list Z) (k : KeyPrefix) :
  KeyPrefix.decode v = Parsed (k, t :: rest) -> global = (m_databaseId k =? 0) -> m_objectStoreId k = 0 -> m_indexId k = 0 ->
  decodeHeader global t v = Parsed rest.
Proof.
  intros Hv -> Ho Hi. unfold decodeHeader. rewrite Hv. step. rewrite Ho, Hi, eqb_reflx. cbn [assert Z.eqb]. step.
  rewrite bool_decide_false by done. step. cbn [decodeByte]. step. by rewrite Z.eqb_refl.
Qed.

Lemma isValidDatabaseId_spec (d : Z) : isValidDatabaseId d = true <-> 0 < d < 2 ^ 63 - 1.
Proof. unfold isValidDatabaseId, kMaxDatabaseId. rewrite andb_true_iff, !Z.ltb_lt. done. Qed.
Lemma isValidObjectStoreId_spec (d : Z) : isValidObjectStoreId d = true <-> 0 < d < 2 ^ 63 - 1.
Proof. unfold isValidObjectStoreId, kMaxObjectStoreId. rewrite andb_true_iff, !Z.ltb_lt. done. Qed.
Lemma isValidIndexId_spec (d : Z) : isValidIndexId d = true <-> 30 <= d < 2 ^ 31 - 1.
Proof. unfold isValidIndexId, kMaxIndexId, MinimumIndexId. rewrite andb_true_iff, Z.leb_le, Z.ltb_lt. done. Qed.

Lemma encodeHeader_ok (d t : Z) :
  isValidDatabaseId d = true ->
  exists v, encodeHeader d t = Some v /\ forall rest, KeyPrefix.decode (v ++ rest) = Parsed (mk d 0 0, t :: rest).
Proof.
  intros H. unfold encodeHeader, ofDatabase. rewrite H. cbn [ASSERT mbind option_bind]. apply isValidDatabaseId_spec in H.
  assert (F : idsFit (mk d 0 0)) by (unfold idsFit; simpl; lia). rewrite encode_fits by done.
  destruct (encodeInternal_ok _ F) as (v & -> & _ & Hv). eexists. split; [done |]. intros rest.
  rewrite <- app_assoc. apply Hv.
Qed.
