(* ===== verification/IDBKeyOrder.v ===== *)
(** * The keys of the backing store, and the order they are meant to have

    [Key] lists what the classes of IDBLevelDBCoding.h encode, with [encodeKey] calling
    the encoder of the class.  [keyComponents] writes a key as the sequence of numbers,
    names and user keys that its bytes hold; the order of the store is the
    lexicographic order of these sequences.  Bounds of a range stand where a user key
    does: the smallest and the largest encoded key. *)

From S2P Require Import Prelude Compare IDBCoding IDBCodingTheorems IDBKey IDBKeyTheorems IDBLevelDBCoding.

(** ** Slots: a user key, or a bound *)

Inductive Slot := MinKey | UserKey (k : IDBKey) | MaxKey.

Definition slotOk (s : Slot) : Prop := match s with UserKey k => ordered k | _ => True end.
Definition encodeSlot (s : Slot) : option (list Z) :=
  match s with MinKey => Some minIDBKey | UserKey k => encodeIDBKey k | MaxKey => Some maxIDBKey end.

Definition slotRank (s : Slot) : Z := match s with MinKey => -1 | UserKey _ => 0 | MaxKey => 1 end.
Definition slotCompare (s t : Slot) : Z :=
  match s, t with UserKey a, UserKey b => keyCompare a b | _, _ => compareZ (slotRank s) (slotRank t) end.

#[export] Instance slots_comparison : Comparison slotOk slotCompare.
Proof.
  split.
  - intros [| a |] [| b |]; try done. apply keyCompare_sgn.
  - intros [| a |] [| b |] Ha Hb; try done. by apply keyCompare_swap.
  - intros [| a |] Ha [| b |] [| c |] Hb Hc; try done; simpl; try (unfold compareZ; simpl; lia).
    + intros _ H. pose proof (sgn_cases _ (keyCompare_sgn b c)). unfold compareZ. simpl. lia.
    + by apply keyCompare_chains.
    + intros H _. pose proof (sgn_cases _ (keyCompare_sgn a b)). unfold compareZ. simpl. lia.
Qed.

(** ** Components *)

Inductive Component := Number (n : Z) | Name (s : list Z) | KeySlot (s : Slot).

Definition componentOk (c : Component) : Prop := match c with KeySlot s => slotOk s | _ => True end.
Definition componentRank (c : Component) : Z := match c with Number _ => 0 | Name _ => 1 | KeySlot _ => 2 end.
Definition componentCompare (c d : Component) : Z :=
  match c, d with
  | Number m, Number n => compareZ m n
  | Name s, Name t => codePointCompare s t
  | KeySlot s, KeySlot t => slotCompare s t
  | _, _ => compareZ (componentRank c) (componentRank d)
  end.

Lemma componentCompare_sgn (c d : Component) : Z.sgn (componentCompare c d) = componentCompare c d.
Proof.
  destruct c, d; simpl; try done.
  - apply (cmp_sgn (cmp := compareZ)).
  - apply codePointCompare_sgn.
  - apply (cmp_sgn (cmp := slotCompare)).
Qed.

Lemma components_chain (c d e : Component) :
  ~ (componentRank c = componentRank d /\ componentRank d = componentRank e) ->
  componentCompare c d <= 0 -> componentCompare d e <= 0 ->
  componentCompare c e = Z.min (componentCompare c d) (componentCompare d e).
Proof.
  pose proof (sgn_cases _ (componentCompare_sgn c d)). pose proof (sgn_cases _ (componentCompare_sgn d e)).
  destruct c, d, e; simpl in *; unfold compareZ in *; simpl in *; lia.
Qed.

#[export] Instance component_comparison : Comparison componentOk componentCompare.
Proof.
  split.
  - apply componentCompare_sgn.
  - intros [m | s | s] [n | t | t] Hc Hd; try done.
    + by apply (cmp_swap (cmp := compareZ)).
    + by apply (cmp_swap (cmp := codePointCompare)).
    + by apply (cmp_swap (cmp := slotCompare)).
  - intros c Hc d e Hd He.
    destruct (decide (componentRank c = componentRank d /\ componentRank d = componentRank e)) as [[E1 E2] | E];
      [| by apply components_chain].
    destruct c, d; try done; destruct e; try done.
    + by apply (cmp_chains (cmp := compareZ)).
    + by apply (cmp_chains (cmp := codePointCompare)).
    + by apply (cmp_chains (cmp := slotCompare)).
Qed.

(** ** Keys *)

Inductive Key :=
  | SchemaVersion
  | MaxDatabaseId
  | DataVersion
  | DatabaseFreeList (databaseId : Z)
  | DatabaseName (origin name : list Z)
  | DatabaseMeta (databaseId metaType : Z)
  | ObjectStoreMeta (databaseId objectStoreId metaType : Z)
  | IndexMeta (databaseId objectStoreId indexId metaType : Z)
  | ObjectStoreFreeList (databaseId objectStoreId : Z)
  | IndexFreeList (databaseId objectStoreId indexId : Z)
  | ObjectStoreNames (databaseId : Z) (name : list Z)
  | IndexNames (databaseId objectStoreId : Z) (name : list Z)
  | StoreRecord (databaseId objectStoreId : Z) (key : Slot)
  | Exists (databaseId objectStoreId : Z) (key : Slot)
  | IndexRecord (databaseId objectStoreId indexId : Z) (key primaryKey : Slot) (sequenceNumber : Z).

Definition encodeKey (k : Key) : option (list Z) :=
  match k with
  | SchemaVersion => SchemaVersionKey.encode
  | MaxDatabaseId => MaxDatabaseIdKey.encode
  | DataVersion => DataVersionKey.encode
  | DatabaseFreeList d => DatabaseFreeListKey.encode d
  | DatabaseName origin name => DatabaseNameKey.encode origin name
  | DatabaseMeta d t => DatabaseMetaDataKey.encode d t
  | ObjectStoreMeta d o t => ObjectStoreMetaDataKey.encode d o t
  | IndexMeta d o i t => IndexMetaDataKey.encode d o i t
  | ObjectStoreFreeList d o => ObjectStoreFreeListKey.encode d o
  | IndexFreeList d o i => IndexFreeListKey.encode d o i
  | ObjectStoreNames d name => ObjectStoreNamesKey.encode d name
  | IndexNames d o name => IndexNamesKey.encode d o name
  | StoreRecord d o key => v ← encodeSlot key; ObjectStoreDataKey.encode d o v
  | Exists d o key => v ← encodeSlot key; ExistsEntryKey.encode d o v
  | IndexRecord d o i key primaryKey sequence =>
      v ← encodeSlot key; w ← encodeSlot primaryKey; IndexDataKey.encode d o i v w sequence
  end.

(** What the assertions of the encoders and decoders ask. *)
Definition isId (n : Z) : Prop := 0 <= n < 2 ^ 63.
Definition databaseOk (d : Z) : Prop := KeyPrefix.isValidDatabaseId d = true.
Definition storeOk (d o : Z) : Prop := databaseOk d /\ KeyPrefix.isValidObjectStoreId o = true.

Definition levelOk (k : Key) : Prop :=
  match k with
  | SchemaVersion | MaxDatabaseId | DataVersion => True
  | DatabaseFreeList d => isId d
  | DatabaseName origin name => isString origin /\ isString name
  | DatabaseMeta d t => databaseOk d /\ 0 <= t < MaxSimpleMetaDataType
  | ObjectStoreMeta d o t => databaseOk d /\ isId o /\ o <> 0 /\ isByte t
  | IndexMeta d o i t => databaseOk d /\ isId o /\ isId i /\ isByte t
  | ObjectStoreFreeList d o => databaseOk d /\ isId o
  | IndexFreeList d o i => databaseOk d /\ isId o /\ isId i
  | ObjectStoreNames d name => databaseOk d /\ isString name
  | IndexNames d o name => databaseOk d /\ isId o /\ isString name
  | StoreRecord d o key | Exists d o key => storeOk d o /\ slotOk key
  | IndexRecord d o i key primaryKey sequence =>
      storeOk d o /\ KeyPrefix.isValidIndexId i = true /\ slotOk key /\ slotOk primaryKey /\ isId sequence
  end.

(** The ids, the type byte of meta-data, and what is behind. *)
Definition keyIds (k : Key) : Z * Z * Z :=
  match k with
  | SchemaVersion | MaxDatabaseId | DataVersion | DatabaseFreeList _ | DatabaseName _ _ => (0, 0, 0)
  | DatabaseMeta d _ | ObjectStoreMeta d _ _ | IndexMeta d _ _ _ | ObjectStoreFreeList d _ | IndexFreeList d _ _
  | ObjectStoreNames d _ | IndexNames d _ _ => (d, 0, 0)
  | StoreRecord d o _ => (d, o, 1)
  | Exists d o _ => (d, o, 2)
  | IndexRecord d o i _ _ _ => (d, o, i)
  end.

Definition keyTypeByte (k : Key) : option Z :=
  match k with
  | SchemaVersion => Some 0
  | MaxDatabaseId => Some 1
  | DataVersion => Some 2
  | DatabaseFreeList _ => Some 100
  | DatabaseName _ _ => Some 201
  | DatabaseMeta _ t => Some t
  | ObjectStoreMeta _ _ _ => Some 50
  | IndexMeta _ _ _ _ => Some 100
  | ObjectStoreFreeList _ _ => Some 150
  | IndexFreeList _ _ _ => Some 151
  | ObjectStoreNames _ _ => Some 200
  | IndexNames _ _ _ => Some 201
  | StoreRecord _ _ _ | Exists _ _ _ | IndexRecord _ _ _ _ _ _ => None
  end.

(** Comparing index keys alone, [indexKeys], ignores the primary key and the sequence number. *)
Definition keyFields (indexKeys : bool) (k : Key) : list Component :=
  match k with
  | SchemaVersion | MaxDatabaseId | DataVersion | DatabaseMeta _ _ => []
  | DatabaseFreeList d => [Number d]
  | DatabaseName origin name => [Name origin; Name name]
  | ObjectStoreMeta _ o t => [Number o; Number t]
  | IndexMeta _ o i t => [Number o; Number i; Number t]
  | ObjectStoreFreeList _ o => [Number o]
  | IndexFreeList _ o i => [Number o; Number i]
  | ObjectStoreNames _ name => [Name name]
  | IndexNames _ o name => [Number o; Name name]
  | StoreRecord _ _ key | Exists _ _ key => [KeySlot key]
  | IndexRecord _ _ _ key primaryKey sequence =>
      KeySlot key :: if indexKeys then [] else [KeySlot primaryKey; Number sequence]
  end.

Definition keyComponents (indexKeys : bool) (k : Key) : list Component :=
  let '(d, o, i) := keyIds k in
  [Number d; Number o; Number i] ++ match keyTypeByte k with Some t => [Number t] | None => [] end ++ keyFields indexKeys k.

Definition levelCompare (indexKeys : bool) (a b : Key) : Z :=
  listCompare componentCompare (keyComponents indexKeys a) (keyComponents indexKeys b).

Lemma keyComponents_ok (indexKeys : bool) (k : Key) : levelOk k -> Forall componentOk (keyComponents indexKeys k).
Proof.
  intros H. unfold keyComponents. destruct (keyIds k) as [[d o] i]. rewrite !list.Forall_app. split; [by repeat constructor |]. split.
  - destruct (keyTypeByte k); by repeat constructor.
  - destruct k; simpl in *; repeat (constructor; simpl; try done); try tauto.
    destruct indexKeys; repeat (constructor; simpl; try done); tauto.
Qed.

(** The order of the store is total. *)
#[export] Instance level_comparison (indexKeys : bool) : Comparison levelOk (levelCompare indexKeys).
Proof.
  apply (comparison_part levelOk (Forall componentOk) (keyComponents indexKeys) (listCompare componentCompare)
    (C := listCompare_comparison _ _ component_comparison)), keyComponents_ok.
Qed.
