(* ===== verification/IDBKeyOrderTheorems.v ===== *)
(** * The comparison of encoded keys is the order of the keys

    [KeyBytes] says what bytes a key has; the encoders write such bytes, the decoders
    of every class read them, and [compare] gives the sign of [levelCompare]. *)

From S2P Require Import Prelude Compare IDBCoding IDBCodingTheorems IDBKey IDBKeyTheorems IDBLevelDBCoding IDBPrefixTheorems IDBKeyOrder.
Import KeyPrefix.

(** ** Slots *)

Definition slotBytes (s : Slot) (v : list Z) : Prop :=
  match s with MinKey => v = minIDBKey | UserKey k => Encoding k v | MaxKey => v = maxIDBKey end.

Lemma encodeSlot_ok (s : Slot) : slotOk s -> exists v, encodeSlot s = Some v /\ slotBytes s v.
Proof. destruct s as [| k |]; intros H; [by eexists | by apply encodes, H | by eexists]. Qed.

Lemma slot_nonempty (s : Slot) (v : list Z) : slotBytes s v -> v <> [].
Proof. destruct s as [| k |]; [by intros -> | intros H%encoding_length -> | by intros ->]. simpl in H. lia. Qed.

Lemma slot_extract (s : Slot) (v rest : list Z) : slotBytes s v -> extractEncodedIDBKey (v ++ rest) = Parsed (v, rest).
Proof.
  destruct s as [| k |]; [| apply extract_ok |]; intros ->; unfold extractEncodedIDBKey; cbn -[Nat.sub take];
    (replace (S (length rest) - length rest)%nat with 1%nat by lia); done.
Qed.

Definition slotTypeByte (s : Slot) : Z :=
  match s with MinKey => IDBKeyMinKeyTypeByte | UserKey k => typeByte k | MaxKey => IDBKeyNullTypeByte end.
Definition slotType (s : Slot) : Z := match s with MinKey => MinType | UserKey k => keyType k | MaxKey => IDBKey.InvalidType end.

Lemma slot_head (s : Slot) (v : list Z) : slotBytes s v -> exists v', v = slotTypeByte s :: v'.
Proof. destruct s; [intros ->; by eexists | apply encoding_head | intros ->; by eexists]. Qed.

Lemma slotType_ok (s : Slot) : keyTypeByteToKeyType (slotTypeByte s) = Some (slotType s).
Proof. destruct s; [done | apply typeByte_type | done]. Qed.

Lemma slotType_rank (s t : Slot) :
  slotOk s -> slotOk t -> slotRank s <> slotRank t -> Z.sgn (slotType t - slotType s) = compareZ (slotRank s) (slotRank t) /\ slotType t <> slotType s.
Proof.
  assert (H : forall k, ordered k -> 1 <= keyType k <= 4) by (by intros [] []).
  intros Hs Ht Hr. destruct s as [| a |], t as [| b |]; try done; simpl in *;
    try (apply H in Hs); try (apply H in Ht); unfold MinType, IDBKey.InvalidType, compareZ; lia.
Qed.

Lemma slot_compare (s t : Slot) (v w p q : list Z) :
  slotBytes s v -> slotBytes t w -> slotOk s -> slotOk t ->
  exists r p' q', compareEncodedIDBKeys (v ++ p) (w ++ q) = Parsed (r, p', q') /\ Z.sgn r = slotCompare s t /\ (r = 0 -> p' = p /\ q' = q).
Proof.
  intros Hv Hw Hs Ht. destruct (decide (slotRank s = slotRank t)) as [E | E].
  - destruct s as [| a |], t as [| b |]; try done.
    + rewrite Hv, Hw. by exists 0, p, q.
    + destruct (compareEncoded_ok a b v w Hv Hw p q) as (r & p' & q' & H1 & H2 & H3). exists r, p', q'. split; [done |]. split; [| done].
      simpl. unfold keyCompare. by rewrite H2.
    + rewrite Hv, Hw. by exists 0, p, q.
  - destruct (slotType_rank s t Hs Ht E) as [Er Ed]. destruct (slot_head s v Hv) as [v' ->], (slot_head t w Hw) as [w' ->].
    unfold compareEncodedIDBKeys, enough. replace (2 * length ((slotTypeByte s :: v') ++ p) + 2)%nat
      with (S (2 * length ((slotTypeByte s :: v') ++ p) + 1)) by lia. cbn [compareKeyFuel app]. step. rewrite !slotType_ok. step.
    unfold compareTypes. destruct (Z.eqb_spec (slotType t - slotType s) 0) as [E0 | E0]; [lia |]. step.
    eexists _, _, _. split; [done |]. split; [| lia]. rewrite Er. by destruct s, t.
Qed.

(** ** The bytes of a key *)

Definition stringBytes (s v : list Z) : Prop := v <> [] /\ forall rest, decodeStringWithLength (v ++ rest) = Parsed (s, rest).

Lemma encodeString_ok (s : list Z) : isString s -> exists v, encodeStringWithLength s = Some v /\ stringBytes s v.
Proof.
  intros H. destruct (encodeStringWithLength_ok s H) as (v & _ & -> & Hl & _ & Hd). eexists. split; [done |].
  split; [by destruct v; [simpl in Hl; lia |] |]. intros rest. by apply decodeStringWithLength_ok.
Qed.

Lemma encodeVarInt_bytes (n : Z) : isId n -> exists v, encodeVarInt n = Some v /\ varIntBytes n v.
Proof.
  intros H. destruct (encodeVarInt_ok n H) as (v & -> & Hl & Hb & Hd). eexists. split; [done |]. split; [lia | done].
Qed.

Definition keyBody (k : Key) (body : list Z) : Prop :=
  match k with
  | SchemaVersion | MaxDatabaseId | DataVersion | DatabaseMeta _ _ => body = []
  | DatabaseFreeList d => varIntBytes d body
  | DatabaseName origin name => exists u v, stringBytes origin u /\ stringBytes name v /\ body = u ++ v
  | ObjectStoreMeta _ o t => exists u, varIntBytes o u /\ body = u ++ [t]
  | IndexMeta _ o i t => exists u v, varIntBytes o u /\ varIntBytes i v /\ body = u ++ v ++ [t]
  | ObjectStoreFreeList _ o => varIntBytes o body
  | IndexFreeList _ o i => exists u v, varIntBytes o u /\ varIntBytes i v /\ body = u ++ v
  | ObjectStoreNames _ name => stringBytes name body
  | IndexNames _ o name => exists u v, varIntBytes o u /\ stringBytes name v /\ body = u ++ v
  | StoreRecord _ _ key | Exists _ _ key => slotBytes key body
  | IndexRecord _ _ _ key primaryKey sequence =>
      exists u n v, slotBytes key u /\ varIntBytes sequence n /\ slotBytes primaryKey v /\ body = u ++ n ++ v
  end.

Definition keyPrefix (k : Key) : KeyPrefix := let '(d, o, i) := keyIds k in mk d o i.
Definition typed (k : Key) (body : list Z) : list Z := match keyTypeByte k with Some t => t :: body | None => body end.

Definition KeyBytes (k : Key) (v : list Z) : Prop :=
  exists body, KeyPrefix.decode v = Parsed (keyPrefix k, typed k body) /\ keyBody k body.

Lemma keyPrefix_fits (k : Key) : levelOk k -> idsFit (keyPrefix k).
Proof.
  unfold idsFit.
  destruct k; simpl; unfold storeOk, databaseOk, isId;
    rewrite ?isValidDatabaseId_spec, ?isValidObjectStoreId_spec, ?isValidIndexId_spec; lia.
Qed.

Lemma encodePrefix_ok (k : KeyPrefix) :
  idsFit k -> exists v, KeyPrefix.encode k = Some v /\ forall rest, KeyPrefix.decode (v ++ rest) = Parsed (k, rest).
Proof. intros H. rewrite encode_fits by done. destruct (encodeInternal_ok k H) as (v & -> & _ & Hv). by exists v. Qed.

Lemma special_index (d o i : Z) : storeOk d o -> i <> 0 -> createWithSpecialIndex d o i = Some (mk d o i).
Proof. intros [Hd Ho] Hi. unfold createWithSpecialIndex. rewrite Hd, Ho. cbn. by destruct (Z.eqb_spec i 0). Qed.

Lemma special_prefix (d o i : Z) : storeOk d o -> 0 < i < 2 ^ 31 -> idsFit (mk d o i).
Proof. intros [Hd%isValidDatabaseId_spec Ho%isValidObjectStoreId_spec] Hi. unfold idsFit. simpl. lia. Qed.

(** ** The encoders *)

Ltac run := cbn [mbind option_bind].

Lemma global_bytes (t : Z) (k : Key) (body : list Z) :
  keyIds k = (0, 0, 0) -> keyTypeByte k = Some t -> keyBody k body -> KeyBytes k ([0; 0; 0; 0; t] ++ body).
Proof. intros Hk Ht Hb. exists body. split; [| done]. unfold keyPrefix, typed. rewrite Hk, Ht. apply decode_global. Qed.

Lemma meta_bytes (d t : Z) (k : Key) (body ret : list Z) :
  (forall rest, KeyPrefix.decode (ret ++ rest) = Parsed (mk d 0 0, t :: rest)) ->
  keyIds k = (d, 0, 0) -> keyTypeByte k = Some t -> keyBody k body -> KeyBytes k (ret ++ body).
Proof. intros Hr Hk Ht Hb. exists body. split; [| done]. unfold keyPrefix, typed. rewrite Hk, Ht. apply Hr. Qed.

Lemma record_bytes (d o i : Z) (k : Key) (body ret : list Z) :
  (forall rest, KeyPrefix.decode (ret ++ rest) = Parsed (mk d o i, rest)) ->
  keyIds k = (d, o, i) -> keyTypeByte k = None -> keyBody k body -> KeyBytes k (ret ++ body).
Proof. intros Hr Hk Ht Hb. exists body. split; [| done]. unfold keyPrefix, typed. rewrite Hk, Ht. apply Hr. Qed.

Lemma encode_global_keys (k : Key) : levelOk k -> keyIds k = (0, 0, 0) -> exists v, encodeKey k = Some v /\ KeyBytes k v.
Proof.
  destruct k; intros Hk Ei; cbn [encodeKey]; try (by destruct (proj1 (isValidDatabaseId_spec _) (proj1 Hk)); injection Ei; lia).
  all: try (injection Ei; intros; subst; destruct Hk as [[Hd%isValidDatabaseId_spec _] _]; lia).
  - exists [0; 0; 0; 0; 0]. split; [by vm_compute |]. by apply (global_bytes 0 SchemaVersion []).
  - exists [0; 0; 0; 0; 1]. split; [by vm_compute |]. by apply (global_bytes 1 MaxDatabaseId []).
  - exists [0; 0; 0; 0; 2]. split; [by vm_compute |]. by apply (global_bytes 2 DataVersion []).
  - unfold DatabaseFreeListKey.encode. rewrite encodeGlobalHeader_ok. run.
    destruct (encodeVarInt_bytes databaseId Hk) as (v & -> & Hv). run. eexists. split; [done |]. by apply (global_bytes 100).
  - unfold DatabaseNameKey.encode. rewrite encodeGlobalHeader_ok. run. destruct Hk as [Ho Hn].
    destruct (encodeString_ok origin Ho) as (u & -> & Hu), (encodeString_ok name Hn) as (v & -> & Hv). run.
    eexists. split; [done |]. apply (global_bytes 201); [done.. |]. by exists u, v.
Qed.

Lemma encode_meta_keys (k : Key) (d : Z) :
  levelOk k -> d <> 0 -> keyIds k = (d, 0, 0) -> exists v, encodeKey k = Some v /\ KeyBytes k v.
Proof.
  intros Hk Hd Ei. destruct k; cbn [encodeKey]; simpl in Ei; injection Ei as; subst;
    try done; try (exfalso; destruct Hk as [[_ Ho%isValidObjectStoreId_spec] _]; lia);
    destruct Hk as [Hdb Hk].
  - destruct (encodeHeader_ok d metaType Hdb) as (ret & E & Hret). exists ret. split; [done |].
    rewrite <- (app_nil_r ret). by apply (meta_bytes d metaType).
  - destruct (encodeHeader_ok d ObjectStoreMetaDataTypeByte Hdb) as (ret & E & Hret). destruct Hk as (Ho & _ & _).
    unfold ObjectStoreMetaDataKey.encode. rewrite E. run. destruct (encodeVarInt_bytes _ Ho) as (u & -> & Hu). run.
    eexists. split; [done |]. apply (meta_bytes d 50); [done.. |]. by exists u.
  - destruct (encodeHeader_ok d IndexMetaDataTypeByte Hdb) as (ret & E & Hret). destruct Hk as (Ho & Hi & _).
    unfold IndexMetaDataKey.encode. rewrite E. run.
    destruct (encodeVarInt_bytes _ Ho) as (u & -> & Hu), (encodeVarInt_bytes _ Hi) as (v & -> & Hv). run.
    eexists. split; [done |]. apply (meta_bytes d 100); [done.. |]. by exists u, v.
  - destruct (encodeHeader_ok d ObjectStoreFreeListTypeByte Hdb) as (ret & E & Hret).
    unfold ObjectStoreFreeListKey.encode. rewrite E. run. destruct (encodeVarInt_bytes _ Hk) as (u & -> & Hu). run.
    eexists. split; [done |]. by apply (meta_bytes d 150).
  - destruct (encodeHeader_ok d IndexFreeListTypeByte Hdb) as (ret & E & Hret). destruct Hk as (Ho & Hi).
    unfold IndexFreeListKey.encode. rewrite E. run.
    destruct (encodeVarInt_bytes _ Ho) as (u & -> & Hu), (encodeVarInt_bytes _ Hi) as (v & -> & Hv). run.
    eexists. split; [done |]. apply (meta_bytes d 151); [done.. |]. by exists u, v.
  - destruct (encodeHeader_ok d ObjectStoreNamesTypeByte Hdb) as (ret & E & Hret).
    unfold ObjectStoreNamesKey.encode. rewrite E. run. destruct (encodeString_ok _ Hk) as (u & -> & Hu). run.
    eexists. split; [done |]. by apply (meta_bytes d 200).
  - destruct (encodeHeader_ok d IndexNamesKeyTypeByte Hdb) as (ret & E & Hret). destruct Hk as (Ho & Hn).
    unfold IndexNamesKey.encode. rewrite E. run.
    destruct (encodeVarInt_bytes _ Ho) as (u & -> & Hu), (encodeString_ok _ Hn) as (v & -> & Hv). run.
    eexists. split; [done |]. apply (meta_bytes d 201); [done.. |]. by exists u, v.
Qed.

Lemma encode_record_keys (k : Key) : levelOk k -> keyTypeByte k = None -> exists v, encodeKey k = Some v /\ KeyBytes k v.
Proof.
  intros Hk Et. destruct k; try done; cbn [encodeKey]; destruct Hk as [Hs Hk].
  - destruct (encodeSlot_ok _ Hk) as (v & -> & Hv). run. unfold ObjectStoreDataKey.encode. rewrite special_index by done. run.
    destruct (encodePrefix_ok _ (special_prefix _ _ ObjectStoreDataKey.SpecialIndexNumber Hs ltac:(done))) as (ret & -> & Hr). run.
    eexists. split; [done |]. by apply (record_bytes databaseId objectStoreId 1).
  - destruct (encodeSlot_ok _ Hk) as (v & -> & Hv). run. unfold ExistsEntryKey.encode. rewrite special_index by done. run.
    destruct (encodePrefix_ok _ (special_prefix _ _ ExistsEntryKey.SpecialIndexNumber Hs ltac:(done))) as (ret & -> & Hr). run.
    eexists. split; [done |]. by apply (record_bytes databaseId objectStoreId 2).
  - destruct Hk as (Hi & Hk & Hp & Hn). destruct (encodeSlot_ok _ Hk) as (u & -> & Hu), (encodeSlot_ok _ Hp) as (v & -> & Hv). run.
    unfold IndexDataKey.encode, ofIndex. destruct Hs as [Hd Ho]. rewrite Hd, Ho, Hi. cbn [ASSERT]. run.
    apply isValidIndexId_spec in Hi. destruct (encodePrefix_ok (mk databaseId objectStoreId indexId)) as (ret & -> & Hr);
      [by apply special_prefix; [split | lia] |]. run.
    destruct (encodeVarInt_bytes _ Hn) as (n & -> & Hnb). run.
    eexists. split; [done |]. apply (record_bytes databaseId objectStoreId indexId); [done.. |]. by exists u, n, v.
Qed.

Lemma encodeKey_ok (k : Key) : levelOk k -> exists v, encodeKey k = Some v /\ KeyBytes k v.
Proof.
  intros Hk. destruct (keyTypeByte k) as [t |] eqn:Et; [| by apply encode_record_keys].
  destruct (keyIds k) as [[d o] i] eqn:Ei. destruct (decide (d = 0)) as [-> | Hd].
  - apply encode_global_keys; [done |]. destruct k; simpl in *; congruence.
  - apply (encode_meta_keys k d Hk Hd). destruct k; simpl in *; congruence.
Qed.

(** ** The decoders of the classes *)

Lemma varint_end (n : Z) (v : list Z) : varIntBytes n v -> decodeVarInt v = Parsed (n, []).
Proof. intros (_ & _ & H). rewrite <- (app_nil_r v). apply H. Qed.
Lemma string_end (s v : list Z) : stringBytes s v -> decodeStringWithLength v = Parsed (s, []).
Proof. intros [_ H]. rewrite <- (app_nil_r v). apply H. Qed.
Lemma slot_end (s : Slot) (v : list Z) : slotBytes s v -> extractEncodedIDBKey v = Parsed (v, []).
Proof. intros H. rewrite <- (app_nil_r v) at 1. by apply (slot_extract s). Qed.
Lemma varint_nonempty (n : Z) (v : list Z) : varIntBytes n v -> v <> [].
Proof. intros [H _] ->. simpl in H. lia. Qed.
Lemma app_nonempty (v w : list Z) : v <> [] -> v ++ w <> [].
Proof. by destruct v. Qed.
Lemma unless_left (p : list Z) : p <> [] -> unless (bool_decide (p = [])) = Parsed ().
Proof. intros H. by rewrite bool_decide_false. Qed.
Create HintDb idb.
#[export] Hint Resolve varint_nonempty app_nonempty slot_nonempty : idb.
#[export] Hint Extern 1 (_ <> []) => discriminate : idb.
#[export] Hint Extern 1 (_ <> []) => (match goal with H : stringBytes _ _ |- _ => apply H end) : idb.

(** Reading past what is known to be there. *)
Ltac past := rewrite unless_left by eauto with idb; step.

Lemma header_global (k : Key) (v : list Z) (t : Z) :
  KeyBytes k v -> keyIds k = (0, 0, 0) -> keyTypeByte k = Some t -> exists body, decodeHeader true t v = Parsed body /\ keyBody k body.
Proof.
  intros (body & Hd & Hb) Hi Ht. exists body. split; [| done]. unfold keyPrefix, typed in Hd. rewrite Hi, Ht in Hd.
  by apply (decodeHeader_ok true t v body _ Hd).
Qed.

Lemma header_meta (k : Key) (v : list Z) (d t : Z) :
  KeyBytes k v -> databaseOk d -> keyIds k = (d, 0, 0) -> keyTypeByte k = Some t ->
  exists body, decodeHeader false t v = Parsed body /\ keyBody k body.
Proof.
  intros (body & Hd & Hb) H Hi Ht. exists body. split; [| done]. unfold keyPrefix, typed in Hd. rewrite Hi, Ht in Hd.
  apply (decodeHeader_ok false t v body _ Hd); [| done..]. apply isValidDatabaseId_spec in H. simpl. destruct (Z.eqb_spec d 0); [lia | done].
Qed.

Lemma decode_DatabaseFreeList (d : Z) (v : list Z) :
  KeyBytes (DatabaseFreeList d) v -> DatabaseFreeListKey.decode v = Parsed (DatabaseFreeListKey.mk d, []).
Proof.
  intros H. destruct (header_global _ _ DatabaseFreeListTypeByte H eq_refl eq_refl) as (body & E & Hb). unfold DatabaseFreeListKey.decode.
  rewrite E. step. past. by rewrite (varint_end d).
Qed.

Lemma decode_DatabaseName (origin name v : list Z) :
  KeyBytes (DatabaseName origin name) v -> DatabaseNameKey.decode v = Parsed (DatabaseNameKey.mk origin name, []).
Proof.
  intros H. destruct (header_global _ _ DatabaseNameTypeByte H eq_refl eq_refl) as (body & E & u & w & Hu & Hw & ->). unfold DatabaseNameKey.decode.
  rewrite E. step. past. rewrite (proj2 Hu). step. by rewrite (string_end name).
Qed.

Lemma decode_ObjectStoreMeta (d o t : Z) (v : list Z) :
  levelOk (ObjectStoreMeta d o t) -> KeyBytes (ObjectStoreMeta d o t) v ->
  ObjectStoreMetaDataKey.decode v = Parsed (ObjectStoreMetaDataKey.mk o t, []).
Proof.
  intros (Hd & _ & Ho & _) H. destruct (header_meta _ _ d ObjectStoreMetaDataTypeByte H Hd eq_refl eq_refl) as (body & E & u & Hu & ->).
  unfold ObjectStoreMetaDataKey.decode. rewrite E. step. past. destruct Hu as (Hl & Hb & Hu). rewrite Hu. step.
  destruct (Z.eqb_spec o 0); [done |]. cbn [negb assert]. step. by past.
Qed.

Lemma decode_IndexMeta (d o i t : Z) (v : list Z) :
  levelOk (IndexMeta d o i t) -> KeyBytes (IndexMeta d o i t) v ->
  IndexMetaDataKey.decode v = Parsed (IndexMetaDataKey.mk o i t, []).
Proof.
  intros (Hd & _) H. destruct (header_meta _ _ d IndexMetaDataTypeByte H Hd eq_refl eq_refl) as (body & E & u & w & Hu & Hw & ->).
  unfold IndexMetaDataKey.decode. rewrite E. step. past. destruct Hu as (_ & _ & Hu), Hw as (_ & _ & Hw).
  rewrite Hu. step. rewrite Hw. step. by past.
Qed.

Lemma decode_ObjectStoreFreeList (d o : Z) (v : list Z) :
  levelOk (ObjectStoreFreeList d o) -> KeyBytes (ObjectStoreFreeList d o) v ->
  ObjectStoreFreeListKey.decode v = Parsed (ObjectStoreFreeListKey.mk o, []).
Proof.
  intros (Hd & _) H. destruct (header_meta _ _ d ObjectStoreFreeListTypeByte H Hd eq_refl eq_refl) as (body & E & Hb).
  unfold ObjectStoreFreeListKey.decode. rewrite E. step. past. by rewrite (varint_end o).
Qed.

Lemma decode_IndexFreeList (d o i : Z) (v : list Z) :
  levelOk (IndexFreeList d o i) -> KeyBytes (IndexFreeList d o i) v ->
  IndexFreeListKey.decode v = Parsed (IndexFreeListKey.mk o i, []).
Proof.
  intros (Hd & _) H. destruct (header_meta _ _ d IndexFreeListTypeByte H Hd eq_refl eq_refl) as (body & E & u & w & Hu & Hw & ->).
  unfold IndexFreeListKey.decode. rewrite E. step. past. destruct Hu as (_ & _ & Hu). rewrite Hu. step. by rewrite (varint_end i).
Qed.

Lemma decode_ObjectStoreNames (d : Z) (name v : list Z) :
  levelOk (ObjectStoreNames d name) -> KeyBytes (ObjectStoreNames d name) v ->
  ObjectStoreNamesKey.decode v = Parsed (ObjectStoreNamesKey.mk name, []).
Proof.
  intros (Hd & _) H. destruct (header_meta _ _ d ObjectStoreNamesTypeByte H Hd eq_refl eq_refl) as (body & E & Hb).
  unfold ObjectStoreNamesKey.decode. rewrite E. step. by rewrite (string_end name).
Qed.

Lemma decode_IndexNames (d o : Z) (name v : list Z) :
  levelOk (IndexNames d o name) -> KeyBytes (IndexNames d o name) v ->
  IndexNamesKey.decode v = Parsed (IndexNamesKey.mk o name, []).
Proof.
  intros (Hd & _) H. destruct (header_meta _ _ d IndexNamesKeyTypeByte H Hd eq_refl eq_refl) as (body & E & u & w & Hu & Hw & ->).
  unfold IndexNamesKey.decode. rewrite E. step. past. destruct Hu as (_ & _ & Hu). rewrite Hu. step. by rewrite (string_end name).
Qed.

(** ** Comparing meta-data *)

(** A comparison gives a value of the sign [c]. *)
Definition agrees (m : parsed Z) (c : Z) : Prop := exists r, m = Parsed r /\ Z.sgn r = c.

Lemma agrees_as {K} (decode : list Z -> parsed (K * list Z)) (cmp : K -> K -> option Z) (v w : list Z) (k l : K) (r c : Z) :
  decode v = Parsed (k, []) -> decode w = Parsed (l, []) -> cmp k l = Some r -> Z.sgn r = c -> agrees (compareAs decode cmp v w) c.
Proof. intros Hv Hw Hc <-. exists r. split; [| done]. unfold compareAs. rewrite Hv, Hw. cbn [asserted]. step. by rewrite Hc. Qed.

Lemma thenCompare_nil (a : Z) : thenCompare a 0 = a.
Proof. unfold thenCompare. by destruct (Z.eqb_spec a 0). Qed.
Lemma thenCompare_if (a b : Z) : (if negb (a =? 0) then a else b) = thenCompare a b.
Proof. done. Qed.
Lemma thenCompare_some (a b : Z) : (if negb (a =? 0) then Some a else Some b) = Some (thenCompare a b).
Proof. unfold thenCompare. by destruct (negb _). Qed.
Lemma leb_id (n : Z) : 0 <= n -> (0 <=? n) = true.
Proof. apply Z.leb_le. Qed.

Lemma compare_three_way (m n : Z) :
  (let result := m - n in if result <? 0 then -1 else if result >? 0 then 1 else result) = compareZ m n.
Proof. unfold compareZ. cbn zeta. destruct (Z.ltb_spec (m - n) 0), (Z.gtb_spec (m - n) 0); lia. Qed.

Lemma sgn_thenCompare (a b : Z) : Z.sgn a = a -> Z.sgn (thenCompare a b) = thenCompare a (Z.sgn b).
Proof. intros Ha. unfold thenCompare. by destruct (negb _). Qed.

Ltac ids := rewrite ?leb_id by done; cbn [ASSERT]; run; rewrite ?compareInts_ok by lia; run.

Lemma compare_DatabaseFreeList (d e : Z) : isId d -> isId e ->
  DatabaseFreeListKey.compare (DatabaseFreeListKey.mk d) (DatabaseFreeListKey.mk e) = Some (compareZ d e).
Proof. intros [Hd _] [He _]. unfold DatabaseFreeListKey.compare. cbn. by ids. Qed.

Lemma compare_ObjectStoreMeta (o t o' t' : Z) : isId o -> isId o' ->
  ObjectStoreMetaDataKey.compare (ObjectStoreMetaDataKey.mk o t) (ObjectStoreMetaDataKey.mk o' t')
  = Some (thenCompare (compareZ o o') (compareZ t t')).
Proof.
  intros [Ho _] [Ho' _]. unfold ObjectStoreMetaDataKey.compare. cbn [ObjectStoreMetaDataKey.m_objectStoreId ObjectStoreMetaDataKey.m_metaDataType].
  ids. rewrite compare_three_way. apply thenCompare_some.
Qed.

Lemma compare_IndexMeta (o i t o' i' t' : Z) : isId o -> isId o' -> isId i -> isId i' ->
  IndexMetaDataKey.compare (IndexMetaDataKey.mk o i t) (IndexMetaDataKey.mk o' i' t')
  = Some (thenCompare (compareZ o o') (thenCompare (compareZ i i') (t - t'))).
Proof.
  intros [Ho _] [Ho' _] [Hi _] [Hi' _]. unfold IndexMetaDataKey.compare.
  cbn [IndexMetaDataKey.m_objectStoreId IndexMetaDataKey.m_indexId IndexMetaDataKey.m_metaDataType].
  ids. rewrite thenCompare_some. apply thenCompare_some.
Qed.

Lemma compare_ObjectStoreFreeList (o o' : Z) : isId o -> isId o' ->
  ObjectStoreFreeListKey.compare (ObjectStoreFreeListKey.mk o) (ObjectStoreFreeListKey.mk o') = Some (compareZ o o').
Proof. intros [Ho _] [Ho' _]. unfold ObjectStoreFreeListKey.compare. cbn. by ids. Qed.

Lemma compare_IndexFreeList (o i o' i' : Z) : isId o -> isId o' -> isId i -> isId i' ->
  IndexFreeListKey.compare (IndexFreeListKey.mk o i) (IndexFreeListKey.mk o' i') = Some (thenCompare (compareZ o o') (compareZ i i')).
Proof.
  intros [Ho _] [Ho' _] [Hi _] [Hi' _]. unfold IndexFreeListKey.compare.
  cbn [IndexFreeListKey.m_objectStoreId IndexFreeListKey.m_indexId]. ids. apply thenCompare_some.
Qed.

Lemma compare_IndexNames (o o' : Z) (s s' : list Z) : isId o -> isId o' ->
  IndexNamesKey.compare (IndexNamesKey.mk o s) (IndexNamesKey.mk o' s') = Some (thenCompare (compareZ o o') (codePointCompare s s')).
Proof.
  intros [Ho _] [Ho' _]. unfold IndexNamesKey.compare. cbn [IndexNamesKey.m_objectStoreId IndexNamesKey.m_indexName]. by ids.
Qed.

Definition fieldsCompare (indexKeys : bool) (a b : Key) : Z := listCompare componentCompare (keyFields indexKeys a) (keyFields indexKeys b).

Lemma fieldsCompare_sgn (indexKeys : bool) (a b : Key) : Z.sgn (fieldsCompare indexKeys a b) = fieldsCompare indexKeys a b.
Proof. apply listCompare_sgn, componentCompare_sgn. Qed.

(** Two keys of the same class of meta-data. *)
Lemma compare_global (a b : Key) (v w : list Z) (t : Z) (indexKeys : bool) :
  levelOk a -> levelOk b -> KeyBytes a v -> KeyBytes b w -> keyIds a = (0, 0, 0) -> keyIds b = (0, 0, 0) ->
  keyTypeByte a = Some t -> keyTypeByte b = Some t -> agrees (compareGlobalMetaData t v w) (fieldsCompare indexKeys a b).
Proof.
  intros Ha Hb Hv Hw Ia Ib Ta Tb.
  destruct a; try done; try (exfalso; injection Ia; intros; subst; destruct Ha as [[Hd%isValidDatabaseId_spec _] _] || destruct Ha as [Hd%isValidDatabaseId_spec _]; lia);
    injection Ta as <-; destruct b; try done;
    try (exfalso; injection Ib; intros; subst; destruct Hb as [Hd%isValidDatabaseId_spec _]; lia).
  - by exists 0.
  - by exists 0.
  - by exists 0.
  - eapply agrees_as; [by apply decode_DatabaseFreeList | by apply decode_DatabaseFreeList | by apply compare_DatabaseFreeList |].
    cbn. by rewrite thenCompare_nil, (cmp_sgn (cmp := compareZ)).
  - eapply agrees_as; [by apply decode_DatabaseName | by apply decode_DatabaseName | done |].
    cbn. rewrite thenCompare_nil. unfold DatabaseNameKey.compare. apply thenCompare_sgn; apply codePointCompare_sgn.
Qed.

Lemma compare_meta (a b : Key) (v w : list Z) (d t : Z) (indexKeys : bool) :
  levelOk a -> levelOk b -> KeyBytes a v -> KeyBytes b w -> d <> 0 -> keyIds a = (d, 0, 0) -> keyIds b = (d, 0, 0) ->
  keyTypeByte a = Some t -> keyTypeByte b = Some t -> agrees (compareDatabaseMetaData t v w) (fieldsCompare indexKeys a b).
Proof.
  intros Ha Hb Hv Hw Hd Ia Ib Ta Tb.
  destruct a; try done; try congruence; injection Ta as <-; injection Ia as <-;
    destruct b; try done; try congruence; injection Ib as E; subst;
    try (injection Tb as E; subst; exfalso; unfold levelOk, MaxSimpleMetaDataType in *; lia); try (by destruct Hd).
  - injection Tb as ->. exists 0. split; [| done]. unfold compareDatabaseMetaData.
    destruct (Z.ltb_spec metaType MaxSimpleMetaDataType); [done |]. destruct Ha. lia.
  - eapply agrees_as; [eapply decode_ObjectStoreMeta; [exact Ha | exact Hv] | eapply decode_ObjectStoreMeta; [exact Hb | exact Hw] | apply compare_ObjectStoreMeta; simpl in *; tauto |].
    cbn. rewrite thenCompare_nil. apply thenCompare_sgn; apply (cmp_sgn (cmp := compareZ)).
  - eapply agrees_as; [eapply decode_IndexMeta; [exact Ha | exact Hv] | eapply decode_IndexMeta; [exact Hb | exact Hw] | apply compare_IndexMeta; simpl in *; tauto |].
    cbn. rewrite thenCompare_nil, !sgn_thenCompare by apply (cmp_sgn (cmp := compareZ)). done.
  - eapply agrees_as; [eapply decode_ObjectStoreFreeList; [exact Ha | exact Hv] | eapply decode_ObjectStoreFreeList; [exact Hb | exact Hw] |
      apply compare_ObjectStoreFreeList; simpl in *; tauto |].
    cbn. by rewrite thenCompare_nil, (cmp_sgn (cmp := compareZ)).
  - eapply agrees_as; [eapply decode_IndexFreeList; [exact Ha | exact Hv] | eapply decode_IndexFreeList; [exact Hb | exact Hw] | apply compare_IndexFreeList; simpl in *; tauto |].
    cbn. rewrite thenCompare_nil. apply thenCompare_sgn; apply (cmp_sgn (cmp := compareZ)).
  - eapply agrees_as; [eapply decode_ObjectStoreNames; [exact Ha | exact Hv] | eapply decode_ObjectStoreNames; [exact Hb | exact Hw] | done |].
    cbn. by rewrite thenCompare_nil, codePointCompare_sgn.
  - eapply agrees_as; [eapply decode_IndexNames; [exact Ha | exact Hv] | eapply decode_IndexNames; [exact Hb | exact Hw] | apply compare_IndexNames; simpl in *; tauto |].
    cbn. rewrite thenCompare_nil. apply thenCompare_sgn; [apply (cmp_sgn (cmp := compareZ)) | apply codePointCompare_sgn].
Qed.

(** ** Comparing records *)

Lemma compareVectors (s t : Slot) (v w : list Z) :
  slotBytes s v -> slotBytes t w -> slotOk s -> slotOk t -> agrees (compareEncodedIDBKeyVectors v w) (slotCompare s t).
Proof.
  intros Hv Hw Hs Ht. destruct (slot_compare s t v w [] [] Hv Hw Hs Ht) as (r & p & q & E & Hr & _). rewrite !app_nil_r in E.
  exists r. split; [| done]. unfold compareEncodedIDBKeyVectors. by rewrite E.
Qed.

Lemma prefix_refl (k : KeyPrefix) : idsFit k -> KeyPrefix.compare k k = Some 0.
Proof. intros H. rewrite prefix_compare by done. unfold prefixCompare, compareZ. by rewrite !Z.sub_diag. Qed.

Lemma dataPointers_ok (a b : Key) (v w ba bb : list Z) (i : Z -> bool) :
  KeyPrefix.decode v = Parsed (keyPrefix a, ba) -> KeyPrefix.decode w = Parsed (keyPrefix b, bb) ->
  idsFit (keyPrefix a) -> keyPrefix a = keyPrefix b -> m_databaseId (keyPrefix a) <> 0 -> m_objectStoreId (keyPrefix a) <> 0 ->
  i (m_indexId (keyPrefix a)) = true -> ba <> [] -> bb <> [] -> dataPointers i v w = Parsed (ba, bb).
Proof.
  intros Hv Hw Hf E Hd Ho Hi Ha Hb. unfold dataPointers, decodeDataPrefix. rewrite Hv, Hw. step. rewrite <- E.
  destruct (Z.eqb_spec (m_databaseId (keyPrefix a)) 0); [done |]. destruct (Z.eqb_spec (m_objectStoreId (keyPrefix a)) 0); [done |].
  rewrite Hi. cbn [negb assert]. step. cbn [asserted]. step. rewrite !bool_decide_false by done. cbn [negb assert]. step.
  by rewrite prefix_refl.
Qed.

Lemma optionalSequence_ok (n : Z) (v rest : list Z) : varIntBytes n v -> optionalSequence (v ++ rest) = Parsed (n, rest).
Proof.
  intros H. unfold optionalSequence. rewrite bool_decide_false by eauto with idb. apply H.
Qed.

Lemma compareData_ok (m : parsed Z) (p q : list Z) : p <> [] -> q <> [] -> compareData m p q = m.
Proof. by destruct p, q. Qed.

Lemma body_nonempty (k : Key) (body : list Z) : keyTypeByte k = None -> keyBody k body -> body <> [].
Proof.
  destruct k; try done; simpl; intros _.
  - apply slot_nonempty.
  - apply slot_nonempty.
  - intros (u & n & v & Hu & _ & _ & ->). eauto with idb.
Qed.

(** The part of the comparison behind the user key. *)
Lemma compare_sequence (s t : Slot) (m n : Z) (vm vn v w : list Z) :
  varIntBytes m vm -> varIntBytes n vn -> slotBytes s v -> slotBytes t w -> slotOk s -> slotOk t -> 0 <= m -> 0 <= n ->
  agrees (match bothParsed (optionalSequence (vm ++ v)) (optionalSequence (vn ++ w)) with
    | Parsed ((sequenceNumberA, ptrA), (sequenceNumberB, ptrB)) =>
        match ptrA, ptrB with
        | [], [] => Parsed 0
        | [], _ => Parsed (-1)
        | _, [] => Parsed 1
        | _, _ =>
            '(result, _, _) ← compareEncodedIDBKeys ptrA ptrB;
            if negb (result =? 0) then Parsed result else defined (compareInts sequenceNumberA sequenceNumberB)
        end
    | NotParsed => Parsed 0
    | Undefined => Undefined
    | Exhausted => Exhausted
    end) (thenCompare (slotCompare s t) (compareZ m n)).
Proof.
  intros Hm Hn Hv Hw Hs Ht H0 H1. rewrite !(optionalSequence_ok _ _ _ Hm), !(optionalSequence_ok _ _ _ Hn). cbn [bothParsed].
  destruct (slot_compare s t v w [] [] Hv Hw Hs Ht) as (r & p & q & E & Hr & _). rewrite !app_nil_r in E. rewrite E.
  destruct v as [| c v]; [by apply slot_nonempty in Hv |]. destruct w as [| d w]; [by apply slot_nonempty in Hw |]. step.
  rewrite <- Hr. unfold thenCompare. destruct (Z.eqb_spec r 0) as [-> | Hr0]; step.
  - rewrite compareInts_ok by done. exists (Z.sgn (m - n)). split; [done |]. apply (cmp_sgn (cmp := compareZ)).
  - exists r. split; [done |]. destruct (Z.eqb_spec (Z.sgn r) 0); lia || done.
Qed.

(** KeyPrefix::type of an encoded key. *)
Definition keyClass (k : Key) : Type_ :=
  match k with
  | SchemaVersion | MaxDatabaseId | DataVersion | DatabaseFreeList _ | DatabaseName _ _ => GlobalMetaData
  | StoreRecord _ _ _ => ObjectStoreData
  | Exists _ _ _ => ExistsEntry
  | IndexRecord _ _ _ _ _ _ => IndexData
  | _ => DatabaseMetaData
  end.

Lemma eqb_false (m n : Z) : m <> n -> (m =? n) = false.
Proof. apply Z.eqb_neq. Qed.

Lemma database_nonzero (d : Z) : databaseOk d -> d <> 0.
Proof. intros H%isValidDatabaseId_spec. lia. Qed.

Lemma store_nonzero (d o : Z) : storeOk d o -> d <> 0 /\ o <> 0.
Proof. intros [Hd%isValidDatabaseId_spec Ho%isValidObjectStoreId_spec]. lia. Qed.

Lemma type_meta (d : Z) : databaseOk d -> KeyPrefix.type (mk d 0 0) = Some DatabaseMetaData.
Proof.
  intros H. pose proof (database_nonzero d H). apply isValidDatabaseId_spec in H. unfold KeyPrefix.type.
  rewrite isSet_fits by (unfold idsFit; simpl; lia). cbn. by rewrite eqb_false.
Qed.

Lemma type_record (d o i : Z) :
  storeOk d o -> 0 < i < 2 ^ 31 ->
  KeyPrefix.type (mk d o i) =
    if i =? 1 then Some ObjectStoreData else if i =? 2 then Some ExistsEntry else if 30 <=? i then Some IndexData else None.
Proof.
  intros H Hi. unfold KeyPrefix.type. rewrite isSet_fits by (by apply special_prefix). destruct (store_nonzero d o H).
  cbn [ASSERT mbind option_bind m_databaseId m_objectStoreId m_indexId]. by rewrite (eqb_false d), (eqb_false o).
Qed.

Lemma keyClass_ok (k : Key) : levelOk k -> KeyPrefix.type (keyPrefix k) = Some (keyClass k).
Proof.
  destruct k; try done; intros Hk; try (apply type_meta; apply Hk); unfold keyPrefix; cbn [keyIds]; destruct Hk as [Hs Hk].
  - rewrite type_record; [done | done | lia].
  - rewrite type_record; [done | done | lia].
  - destruct Hk as [Hi%isValidIndexId_spec _]. rewrite type_record by (done || lia).
    rewrite !eqb_false, (proj2 (Z.leb_le 30 indexId)) by lia. done.
Qed.

Lemma compare_record (a b : Key) (v w ba bb : list Z) (indexKeys : bool) :
  levelOk a -> levelOk b -> KeyPrefix.decode v = Parsed (keyPrefix a, ba) -> KeyPrefix.decode w = Parsed (keyPrefix b, bb) ->
  keyBody a ba -> keyBody b bb -> keyTypeByte a = None -> keyClass a = keyClass b -> keyPrefix a = keyPrefix b ->
  agrees (match keyClass a with
    | ObjectStoreData => compareData (compareObjectStoreDataKey v w) ba bb
    | ExistsEntry => compareData (compareExistsEntryKey v w) ba bb
    | IndexData => compareData (compareIndexDataKey v w indexKeys) ba bb
    | _ => Undefined
    end) (fieldsCompare indexKeys a b).
Proof.
  intros Ha Hb Hv Hw Hba Hbb Ta C E. assert (Tb : keyTypeByte b = None) by (by destruct a, b).
  pose proof (body_nonempty _ _ Ta Hba) as Na. pose proof (body_nonempty _ _ Tb Hbb) as Nb.
  pose proof (keyPrefix_fits a Ha) as Hf. rewrite !compareData_ok by done.
  pose proof (fun i Hd Ho Hi => dataPointers_ok a b v w ba bb i Hv Hw Hf E Hd Ho Hi Na Nb) as Hp.
  destruct a; try done; destruct b; try done; clear C Hv Hw Hf E Ta Tb; destruct Ha as [[Hd Ho]%store_nonzero Ha], Hb as [_ Hb]; cbn [keyClass].
  - unfold compareObjectStoreDataKey. rewrite Hp by done. step.
    destruct (compareVectors _ _ ba bb Hba Hbb Ha Hb) as (r & E & Hr). exists r. split; [done |]. cbn. by rewrite thenCompare_nil.
  - unfold compareExistsEntryKey. rewrite Hp by done. step.
    destruct (compareVectors _ _ ba bb Hba Hbb Ha Hb) as (r & E & Hr). exists r. split; [done |]. cbn. by rewrite thenCompare_nil.
  - destruct Ha as (Hi & Hk & Hq & Hn), Hb as (Hi' & Hk' & Hq' & Hn'). unfold compareIndexDataKey.
    rewrite Hp by (try done; apply isValidIndexId_spec in Hi; apply Z.leb_le, Hi). step.
    destruct Hba as (ua & na & pa & Hua & Hna & Hpa & ->), Hbb as (ub & nb & pb & Hub & Hnb & Hpb & ->).
    destruct (slot_compare _ _ ua ub (na ++ pa) (nb ++ pb) Hua Hub Hk Hk') as (r & p & q & E & Hr & Hz). rewrite E. step.
    unfold fieldsCompare. cbn [keyFields listCompare componentCompare]. rewrite <- Hr. unfold thenCompare at 1.
    destruct (Z.eqb_spec r 0) as [-> | Hr0]; step.
    + destruct (Hz eq_refl) as [-> ->]. destruct indexKeys; [by exists 0 |]. cbn [Z.sgn Z.eqb negb listCompare componentCompare].
      rewrite thenCompare_nil. apply compare_sequence; try done; [apply Hn | apply Hn'].
    + exists r. split; [done |]. destruct (Z.eqb_spec (Z.sgn r) 0); lia || done.
Qed.

(** ** The comparison of the store *)

Lemma agrees_asserted (m : parsed Z) (c : Z) : agrees m c -> agrees (asserted m) c.
Proof. by intros (r & -> & Hr); exists r. Qed.

Lemma listCompare_app_number (d e : Z) (l m : list Component) :
  listCompare componentCompare (Number d :: l) (Number e :: m) = thenCompare (compareZ d e) (listCompare componentCompare l m).
Proof. done. Qed.

(** The order, prefix first. *)
Lemma levelCompare_prefix (indexKeys : bool) (a b : Key) :
  levelCompare indexKeys a b =
  thenCompare (prefixCompare (keyPrefix a) (keyPrefix b))
    (listCompare componentCompare
      (match keyTypeByte a with Some t => [Number t] | None => [] end ++ keyFields indexKeys a)
      (match keyTypeByte b with Some t => [Number t] | None => [] end ++ keyFields indexKeys b)).
Proof.
  unfold levelCompare, keyComponents, keyPrefix. destruct (keyIds a) as [[d o] i], (keyIds b) as [[d' o'] i'].
  unfold prefixCompare. cbn [app m_databaseId m_objectStoreId m_indexId]. rewrite !listCompare_app_number. unfold thenCompare.
  by destruct (compareZ d d' =? 0) eqn:E1, (compareZ o o' =? 0) eqn:E2, (compareZ i i' =? 0) eqn:E3;
    cbn [negb]; rewrite ?E1, ?E2, ?E3.
Qed.

Lemma compare_typed (f : Z -> parsed Z) (a b : Key) (ba bb : list Z) (t u : Z) (indexKeys : bool) :
  keyTypeByte a = Some t -> keyTypeByte b = Some u -> (t = u -> agrees (f t) (fieldsCompare indexKeys a b)) ->
  agrees (compareMetaData f (typed a ba) (typed b bb))
    (listCompare componentCompare ([Number t] ++ keyFields indexKeys a) ([Number u] ++ keyFields indexKeys b)).
Proof.
  intros Ta Tb H. unfold typed. rewrite Ta, Tb. cbn [app compareMetaData]. rewrite listCompare_app_number. unfold thenCompare.
  rewrite compareZ_eqb. destruct (Z.eqb_spec t u) as [-> | E].
  - rewrite Z.sub_diag. by apply H.
  - destruct (Z.eqb_spec (t - u) 0); [lia |]. by exists (t - u).
Qed.

Lemma compare_same_prefix (a b : Key) (v w : list Z) (indexKeys : bool) :
  levelOk a -> levelOk b -> KeyBytes a v -> KeyBytes b w -> keyPrefix a = keyPrefix b ->
  agrees (compareSlices v w indexKeys) (levelCompare indexKeys a b).
Proof.
  intros Ha Hb Kv Kw E. assert (C : keyClass a = keyClass b).
  { pose proof (keyClass_ok a Ha) as Ca. pose proof (keyClass_ok b Hb) as Cb. rewrite E in Ca. congruence. }
  pose proof Kv as (ba & Hv & Hba). pose proof Kw as (bb & Hw & Hbb).
  unfold compareSlices. rewrite Hv, Hw. cbn [asserted]. step. rewrite E, prefix_refl by (by apply keyPrefix_fits). step. cbn [Z.eqb negb].
  rewrite <- E, (keyClass_ok a Ha). step. rewrite levelCompare_prefix, E.
  assert (P : prefixCompare (keyPrefix b) (keyPrefix b) = 0) by (unfold prefixCompare, compareZ; by rewrite !Z.sub_diag).
  rewrite P. unfold thenCompare. cbn [Z.eqb negb]. clear P.
  destruct (keyTypeByte a) as [t |] eqn:Ta.
  - destruct (keyTypeByte b) as [u |] eqn:Tb; [| by destruct a, b].
    destruct (decide (keyClass a = GlobalMetaData)) as [G | G].
    + rewrite G. apply (compare_typed _ a b ba bb t u); [done.. |]. intros <-.
      apply compare_global; try done; [by destruct a | rewrite C in G; by destruct b].
    + assert (M : keyClass a = DatabaseMetaData) by (by destruct a). rewrite M.
      apply (compare_typed _ a b ba bb t u); [done.. |]. intros <-. rewrite M in C.
      destruct (keyIds a) as [[d o] i] eqn:Ia. assert (Ib : keyIds b = (d, o, i)).
      { unfold keyPrefix in E. rewrite Ia in E. destruct (keyIds b) as [[d' o'] i']. congruence. }
      assert (Z : o = 0 /\ i = 0) by (by destruct a; try done; injection Ia as). destruct Z as [-> ->].
      apply (compare_meta a b v w d); try done. destruct a; try done; injection Ia as <-; by apply database_nonzero, Ha.
  - assert (Tb : keyTypeByte b = None) by (by destruct a, b). rewrite Tb. unfold typed. rewrite Ta, Tb.
    unfold typed in Hv, Hw. rewrite Ta in Hv. rewrite Tb in Hw. cbn [app]. fold (fieldsCompare indexKeys a b).
    pose proof (compare_record a b v w ba bb indexKeys Ha Hb Hv Hw Hba Hbb Ta C E) as H. by destruct a.
Qed.

Lemma compare_ok (a b : Key) (v w : list Z) (indexKeys : bool) :
  levelOk a -> levelOk b -> KeyBytes a v -> KeyBytes b w -> agrees (IDBLevelDBCoding.compare v w indexKeys) (levelCompare indexKeys a b).
Proof.
  intros Ha Hb Kv Kw. apply agrees_asserted. destruct (decide (prefixCompare (keyPrefix a) (keyPrefix b) = 0)) as [E | E].
  - apply compare_same_prefix; try done. by apply prefixCompare_zero.
  - destruct Kv as (ba & Hv & _), Kw as (bb & Hw & _). exists (prefixCompare (keyPrefix a) (keyPrefix b)). split.
    + unfold compareSlices. rewrite Hv, Hw. cbn [asserted]. step. rewrite prefix_compare by (by apply keyPrefix_fits). step.
      by destruct (Z.eqb_spec (prefixCompare (keyPrefix a) (keyPrefix b)) 0).
    + rewrite levelCompare_prefix. unfold thenCompare.
      destruct (Z.eqb_spec (prefixCompare (keyPrefix a) (keyPrefix b)) 0); [done |].
      unfold prefixCompare. apply thenCompare_sgn; [| apply thenCompare_sgn]; apply (cmp_sgn (cmp := compareZ)).
Qed.
