(* ===== verification/IDBStoreTheorems.v ===== *)
(** * Keys of the IndexedDB backing store: the theorems

    What a writer encodes every reader gets back; the readers return on any bytes; the
    comparison of encoded keys is a total order, that of the keys, and the ranges that
    the store walks hold what they are meant to hold. *)

From S2P Require Import Prelude Compare IDBCoding IDBCodingTheorems IDBKey IDBKeyTheorems IDBLevelDBCoding IDBPrefixTheorems IDBKeyOrder IDBKeyOrderTheorems.
Import KeyPrefix.

Abbreviation compareStore := IDBLevelDBCoding.compare.

(** ** The order of the store *)

(** C9: Two keys that the store can hold are encoded without a failed assertion, and the
    comparison of their bytes has the sign of the order of the keys: ids first, then the
    type byte, then the fields in turn; with or without the part behind an index key. *)
Theorem comparator_order (a b : Key) (indexKeys : bool) :
  levelOk a -> levelOk b ->
  exists v w r, encodeKey a = Some v /\ encodeKey b = Some w /\ compareStore v w indexKeys = Parsed r /\
    Z.sgn r = levelCompare indexKeys a b.
Proof.
  intros Ha Hb. destruct (encodeKey_ok a Ha) as (v & Ev & Kv), (encodeKey_ok b Hb) as (w & Ew & Kw).
  destruct (compare_ok a b v w indexKeys Ha Hb Kv Kw) as (r & Er & Hr). by exists v, w, r.
Qed.

Definition sampleRecord (n : Z) : Key := IndexRecord 1 2 30 (UserKey (StringKey [n])) (UserKey (NumberKey 0)) 7.

Lemma sampleRecord_ok (n : Z) : 0 <= n < 2 ^ 16 -> levelOk (sampleRecord n).
Proof.
  intros H. simpl. split; [done |]. split; [done |]. split; [| by split].
  split; [| done]. split; [by apply list.Forall_singleton | done].
Qed.

Lemma comparator_order_witness :
  exists v w r, encodeKey (sampleRecord 65) = Some v /\ encodeKey (sampleRecord 66) = Some w /\
    compareStore v w false = Parsed r /\ Z.sgn r = levelCompare false (sampleRecord 65) (sampleRecord 66).
Proof. apply comparator_order; apply sampleRecord_ok; lia. Defined.

(** LevelDB asks of its comparator a total order: swapping the arguments negates the
    sign, it is transitive, and keys that compare equal stand in the same place. *)
Theorem comparator_contract (a b c : Key) (indexKeys : bool) :
  levelOk a -> levelOk b -> levelOk c ->
  exists u v w x x' y z, encodeKey a = Some u /\ encodeKey b = Some v /\ encodeKey c = Some w /\
    compareStore u v indexKeys = Parsed x /\ compareStore v u indexKeys = Parsed x' /\
    compareStore v w indexKeys = Parsed y /\ compareStore u w indexKeys = Parsed z /\
    Z.sgn x' = - Z.sgn x /\ (x <= 0 -> y <= 0 -> z <= 0) /\ (x = 0 -> Z.sgn z = Z.sgn y).
Proof.
  intros Ha Hb Hc.
  destruct (encodeKey_ok a Ha) as (u & Eu & Ku), (encodeKey_ok b Hb) as (v & Ev & Kv), (encodeKey_ok c Hc) as (w & Ew & Kw).
  destruct (compare_ok a b u v indexKeys) as (x & Ex & Hx); [done.. |].
  destruct (compare_ok b a v u indexKeys) as (x' & Ex' & Hx'); [done.. |].
  destruct (compare_ok b c v w indexKeys) as (y & Ey & Hy); [done.. |].
  destruct (compare_ok a c u w indexKeys) as (z & Ez & Hz); [done.. |].
  exists u, v, w, x, x', y, z. repeat (split; [done |]).
  rewrite Hx', Hx, Hz, Hy. split; [by apply (cmp_swap (cmp := levelCompare indexKeys)) |]. split.
  - intros H1 H2. assert (levelCompare indexKeys a c <= 0) by (apply (cmp_trans levelOk (levelCompare indexKeys) a b c); done || lia). lia.
  - intros ->. apply (cmp_equal levelOk (levelCompare indexKeys)); done.
Qed.

Lemma comparator_contract_witness :
  exists u v w x x' y z, encodeKey (sampleRecord 65) = Some u /\ encodeKey SchemaVersion = Some v /\ encodeKey (sampleRecord 66) = Some w /\
    compareStore u v true = Parsed x /\ compareStore v u true = Parsed x' /\
    compareStore v w true = Parsed y /\ compareStore u w true = Parsed z /\
    Z.sgn x' = - Z.sgn x /\ (x <= 0 -> y <= 0 -> z <= 0) /\ (x = 0 -> Z.sgn z = Z.sgn y).
Proof. apply comparator_contract; try (apply sampleRecord_ok; lia). exact I. Defined.

(** ** Ranges *)

Lemma thenCompare_first (a b : Z) : thenCompare a b <= 0 -> a <= 0.
Proof. unfold thenCompare. destruct (Z.eqb_spec a 0); simpl; lia. Qed.

Lemma prefixCompare_swap (k l : KeyPrefix) : prefixCompare l k = - prefixCompare k l.
Proof.
  unfold prefixCompare. rewrite !(cmp_swap (cmp := compareZ) (m_databaseId k)), !(cmp_swap (cmp := compareZ) (m_objectStoreId k)),
    !(cmp_swap (cmp := compareZ) (m_indexId k)) by done. by rewrite !thenCompare_swap.
Qed.

(** Between two keys with one prefix there are only keys with this prefix. *)
Lemma between_prefix (indexKeys : bool) (lo a hi : Key) :
  keyPrefix lo = keyPrefix hi -> levelCompare indexKeys lo a <= 0 -> levelCompare indexKeys a hi <= 0 -> keyPrefix a = keyPrefix hi.
Proof.
  rewrite !levelCompare_prefix. intros E H1%thenCompare_first H2%thenCompare_first. rewrite E, prefixCompare_swap in H1.
  apply prefixCompare_zero. lia.
Qed.

Lemma same_prefix_class (a b : Key) : levelOk a -> levelOk b -> keyPrefix a = keyPrefix b -> keyClass a = keyClass b.
Proof. intros Ha Hb E. pose proof (keyClass_ok a Ha) as Ca. pose proof (keyClass_ok b Hb). rewrite E in Ca. congruence. Qed.

Lemma compareZ_refl (n : Z) : compareZ n n = 0.
Proof. unfold compareZ. by rewrite Z.sub_diag. Qed.

Lemma slot_bounds (s : Slot) : slotCompare MinKey s <= 0 /\ slotCompare s MaxKey <= 0.
Proof. by destruct s. Qed.

Lemma thenCompare_le (a b : Z) : a <= 0 -> b <= 0 -> thenCompare a b <= 0.
Proof. unfold thenCompare. by destruct (negb _). Qed.

Lemma records_between (d o i n : Z) (k p : Slot) :
  isId n -> levelCompare false (IndexRecord d o i MinKey MinKey 0) (IndexRecord d o i k p n) <= 0 /\
  levelCompare false (IndexRecord d o i k p n) (IndexRecord d o i MaxKey MaxKey INT64_MAX) <= 0.
Proof.
  intros [H0 H1]. destruct (slot_bounds k), (slot_bounds p). unfold levelCompare, keyComponents.
  cbn [keyIds keyTypeByte keyFields app listCompare componentCompare]. rewrite !compareZ_refl.
  split; (repeat apply thenCompare_le); try done; unfold compareZ, INT64_MAX; lia.
Qed.

(** C10: The keys from encodeMinKey to encodeMaxKey of an index are its entries and no other
    key, whatever their user keys, primary keys and sequence numbers. *)
Theorem index_range (d o i : Z) (a : Key) :
  storeOk d o -> isValidIndexId i = true -> levelOk a ->
  exists lo hi v x y, IndexDataKey.encodeMinKey d o i = Some lo /\ IndexDataKey.encodeMaxKey d o i = Some hi /\ encodeKey a = Some v /\
    compareStore lo v false = Parsed x /\ compareStore v hi false = Parsed y /\
    (x <= 0 /\ y <= 0 <-> exists k p n, a = IndexRecord d o i k p n).
Proof.
  intros Hs Hi Ha. set (kl := IndexRecord d o i MinKey MinKey 0). set (kh := IndexRecord d o i MaxKey MaxKey INT64_MAX).
  assert (Hl : levelOk kl) by done. assert (Hh : levelOk kh) by done.
  destruct (encodeKey_ok kl Hl) as (lo & El & Kl), (encodeKey_ok kh Hh) as (hi & Eh & Kh), (encodeKey_ok a Ha) as (v & Ev & Kv).
  destruct (compare_ok kl a lo v false) as (x & Ex & Hx); [done.. |].
  destruct (compare_ok a kh v hi false) as (y & Ey & Hy); [done.. |].
  exists lo, hi, v, x, y. repeat (split; [done |]). split.
  - intros [H1 H2]. assert (E : keyPrefix a = keyPrefix kh) by (apply (between_prefix false kl); [done | lia | lia]).
    pose proof (same_prefix_class a kh Ha Hh E) as C. destruct a; try done. injection E as <- <- <-. by eexists _, _, _.
  - intros (k & p & n & ->). destruct Ha as (_ & _ & _ & _ & Hn). unfold kl in Hx. unfold kh in Hy. destruct (records_between d o i n k p Hn). lia.
Qed.

Lemma index_range_witness :
  exists lo hi v x y, IndexDataKey.encodeMinKey 1 2 30 = Some lo /\ IndexDataKey.encodeMaxKey 1 2 30 = Some hi /\
    encodeKey (sampleRecord 65) = Some v /\ compareStore lo v false = Parsed x /\ compareStore v hi false = Parsed y /\
    (x <= 0 /\ y <= 0 <-> exists k p n, sampleRecord 65 = IndexRecord 1 2 30 k p n).
Proof. apply index_range; [done | done | apply sampleRecord_ok; lia]. Defined.

Lemma typeByte_between (lo a hi : Key) (t : Z) :
  keyPrefix lo = keyPrefix a -> keyPrefix a = keyPrefix hi -> keyTypeByte lo = Some t -> keyTypeByte hi = Some t -> is_Some (keyTypeByte a) ->
  levelCompare false lo a <= 0 -> levelCompare false a hi <= 0 ->
  keyTypeByte a = Some t /\ fieldsCompare false lo a = levelCompare false lo a /\ fieldsCompare false a hi = levelCompare false a hi.
Proof.
  intros E1 E2 Tl Th [u Ta]. rewrite !levelCompare_prefix, E1, E2, Tl, Th, Ta.
  assert (P : prefixCompare (keyPrefix hi) (keyPrefix hi) = 0) by (unfold prefixCompare; by rewrite !compareZ_refl).
  rewrite P. unfold thenCompare. cbn [Z.eqb negb app]. rewrite !listCompare_app_number. unfold thenCompare. rewrite !compareZ_eqb.
  destruct (Z.eqb_spec t u) as [-> | H].
  - by rewrite Z.eqb_refl.
  - destruct (Z.eqb_spec u t); [congruence |]. cbn [negb]. unfold compareZ. lia.
Qed.

Lemma codePointCompare_stop (s t : list Z) :
  isString t -> 0 ∉ t -> codePointCompare s t <= 0 -> codePointCompare t (s ++ [1]) < 0 -> t = s.
Proof.
  intros [Hu _] H0. revert t Hu H0. induction s as [| c s IH]; intros [| d t] Hu H0; try done; simpl.
  - apply not_elem_of_cons in H0 as [H0 _]. apply list.Forall_cons in Hu as [[Hd _] _]. simpl.
    destruct (Z.eqb_spec d 1) as [-> | H1].
    + by destruct t.
    + destruct (Z.gtb_spec d 1); [done |]. intros _. lia.
  - apply not_elem_of_cons in H0 as [_ H0]. apply list.Forall_cons in Hu as [_ Hu]. rewrite (Z.eqb_sym d c).
    destruct (Z.eqb_spec c d) as [-> | H1]; [intros H2 H3; f_equal; by apply IH |].
    destruct (Z.gtb_spec c d), (Z.gtb_spec d c); lia.
Qed.

Lemma codePointCompare_refl (s : list Z) : codePointCompare s s = 0.
Proof. by apply (cmp_refl (fun _ => True) codePointCompare). Qed.

Lemma codePointCompare_snoc (s : list Z) (c : Z) : codePointCompare s (s ++ [c]) = -1.
Proof. induction s as [| d s IH]; [done |]. simpl. by rewrite Z.eqb_refl. Qed.

(** The keys from encodeMinKeyForOrigin to before encodeStopKeyForOrigin are the database
    names of this origin and no other key, as long as no origin has a NUL. *)
Theorem origin_range (origin : list Z) (a : Key) :
  isString (origin ++ [1]) -> levelOk a -> (forall o n, a = DatabaseName o n -> 0 ∉ o) ->
  exists lo hi v x y, DatabaseNameKey.encodeMinKeyForOrigin origin = Some lo /\ DatabaseNameKey.encodeStopKeyForOrigin origin = Some hi /\
    encodeKey a = Some v /\ compareStore lo v false = Parsed x /\ compareStore v hi false = Parsed y /\
    (x <= 0 /\ y < 0 <-> exists name, a = DatabaseName origin name).
Proof.
  intros Hs Ha H0. set (kl := DatabaseName origin []). set (kh := DatabaseName (origin ++ [1]) []).
  assert (Hl : levelOk kl).
  { destruct Hs as [Hu Hs]. apply list.Forall_app in Hu as [Hu _]. rewrite length_app in Hs. split; [split; [done | lia] | done]. }
  assert (Hh : levelOk kh) by done.
  destruct (encodeKey_ok kl Hl) as (lo & El & Kl), (encodeKey_ok kh Hh) as (hi & Eh & Kh), (encodeKey_ok a Ha) as (v & Ev & Kv).
  destruct (compare_ok kl a lo v false) as (x & Ex & Hx); [done.. |].
  destruct (compare_ok a kh v hi false) as (y & Ey & Hy); [done.. |].
  exists lo, hi, v, x, y. repeat (split; [done |]). split.
  - intros [H1 H2]. assert (E : keyPrefix a = keyPrefix kh) by (apply (between_prefix false kl); [done | lia | lia]).
    destruct (typeByte_between kl a kh 201) as (Ta & <- & <-) in Hx, Hy; try done; try lia.
    { pose proof (same_prefix_class a kh Ha Hh E) as C. destruct a; try done; by eexists. }
    pose proof (same_prefix_class a kh Ha Hh E) as C. destruct a; try done. exists name. f_equal.
    cbn in Hx, Hy. rewrite thenCompare_nil in Hx. apply codePointCompare_stop; [apply Ha | by eapply H0 | |].
    + eapply thenCompare_first. rewrite <- Hx. lia.
    + pose proof (codePointCompare_sgn origin0 (origin ++ [1])). revert Hy. rewrite thenCompare_nil. unfold thenCompare.
      destruct (Z.eqb_spec (codePointCompare origin0 (origin ++ [1])) 0); simpl; [destruct name; simpl; lia | lia].
  - intros (name & ->). assert (x <= 0 <-> Z.sgn x <= 0) as -> by lia. assert (y < 0 <-> Z.sgn y < 0) as -> by lia. rewrite Hx, Hy.
    unfold levelCompare. cbn. rewrite codePointCompare_refl, codePointCompare_snoc. by destruct name.
Qed.

Definition sampleOrigin : list Z := [104; 116; 116; 112].

Lemma origin_range_witness :
  exists lo hi v x y, DatabaseNameKey.encodeMinKeyForOrigin sampleOrigin = Some lo /\ DatabaseNameKey.encodeStopKeyForOrigin sampleOrigin = Some hi /\
    encodeKey (DatabaseName sampleOrigin [65]) = Some v /\ compareStore lo v false = Parsed x /\ compareStore v hi false = Parsed y /\
    (x <= 0 /\ y < 0 <-> exists name, DatabaseName sampleOrigin [65] = DatabaseName sampleOrigin name).
Proof.
  apply origin_range.
  - split; [repeat (apply list.Forall_cons; split; [by vm_compute |]); constructor | by vm_compute].
  - split; (split; [repeat (apply list.Forall_cons; split; [by vm_compute |]); constructor | by vm_compute]).
  - intros o n [= <- <-]. rewrite list_elem_of_In. simpl. lia.
Defined.

(** ** The comparison returns on any bytes *)

Definition returns {A} (m : parsed A) : Prop := m <> Exhausted.

Lemma returns_bind {A B} (m : parsed A) (f : A -> parsed B) : returns m -> (forall a, returns (f a)) -> returns (m ≫= f).
Proof. by destruct m; [intros _ H; apply H | ..]. Qed.
Lemma returns_defined {A} (m : option A) : returns (defined m).
Proof. by destruct m. Qed.
Lemma returns_assert (b : bool) : returns (assert b).
Proof. by destruct b. Qed.
Lemma returns_unless (b : bool) : returns (unless b).
Proof. by destruct b. Qed.
Lemma returns_asserted {A} (m : parsed A) : returns m -> returns (asserted m).
Proof. by destruct m. Qed.
Lemma returns_parsed {A} (a : A) : returns (Parsed a).
Proof. done. Qed.
Lemma returns_varint (p : list Z) : returns (decodeVarInt p).
Proof. apply varint_not_exhausted. Qed.
Lemma returns_string (p : list Z) : returns (decodeStringWithLength p).
Proof. apply string_not_exhausted. Qed.
Lemma returns_byte (p : list Z) : returns (decodeByte p).
Proof. by destruct p. Qed.
Lemma returns_compareKeys (p q : list Z) : returns (compareEncodedIDBKeys p q).
Proof.
  pose proof (proj1 (compare_settles (enough p)) p q ltac:(unfold enough; lia)) as D. unfold returns, compareEncodedIDBKeys.
  by destruct (compareKeyFuel (enough p) p q).
Qed.

Create HintDb returns.
#[local] Hint Resolve returns_defined returns_assert returns_unless returns_asserted returns_parsed returns_varint returns_string
  returns_byte returns_compareKeys : returns.

(** A decoder or comparison is a sequence of steps that return. *)
Ltac sequence :=
  repeat (lazymatch goal with
    | |- returns (_ ≫= _) => apply returns_bind; [eauto with returns | intros]
    | |- returns (match ?x with _ => _ end) => destruct x
    | |- _ => fail
    end); try done; eauto with returns.

Lemma returns_prefix (p : list Z) : returns (KeyPrefix.decode p).
Proof. unfold KeyPrefix.decode. sequence. Qed.
#[local] Hint Resolve returns_prefix : returns.

Lemma returns_header (g : bool) (t : Z) (p : list Z) : returns (decodeHeader g t p).
Proof. unfold decodeHeader. sequence. Qed.
Lemma returns_dataPrefix (i : Z -> bool) (p : list Z) : returns (decodeDataPrefix i p).
Proof. unfold decodeDataPrefix. sequence. Qed.
#[local] Hint Resolve returns_header returns_dataPrefix : returns.

Lemma returns_pointers (i : Z -> bool) (p q : list Z) : returns (dataPointers i p q).
Proof. unfold dataPointers. sequence. Qed.
Lemma returns_vectors (p q : list Z) : returns (compareEncodedIDBKeyVectors p q).
Proof. unfold compareEncodedIDBKeyVectors. sequence. Qed.
Lemma returns_as {K} (decode : list Z -> parsed (K * list Z)) (cmp : K -> K -> option Z) (p q : list Z) :
  (forall p, returns (decode p)) -> returns (compareAs decode cmp p q).
Proof. intros H. unfold compareAs. sequence. Qed.
#[local] Hint Resolve returns_pointers returns_vectors returns_as : returns.

Lemma returns_global (t : Z) (p q : list Z) : returns (compareGlobalMetaData t p q).
Proof.
  unfold compareGlobalMetaData. sequence; apply returns_as; intros r; unfold DatabaseFreeListKey.decode, DatabaseNameKey.decode; sequence.
Qed.

Lemma returns_meta (t : Z) (p q : list Z) : returns (compareDatabaseMetaData t p q).
Proof.
  unfold compareDatabaseMetaData. sequence; apply returns_as; intros r;
    unfold ObjectStoreMetaDataKey.decode, IndexMetaDataKey.decode, ObjectStoreFreeListKey.decode, IndexFreeListKey.decode,
      ObjectStoreNamesKey.decode, IndexNamesKey.decode; sequence.
Qed.

Lemma returns_sequence (p : list Z) : returns (optionalSequence p).
Proof. unfold optionalSequence. sequence. Qed.

Lemma returns_index (p q : list Z) (f : bool) : returns (compareIndexDataKey p q f).
Proof.
  unfold compareIndexDataKey. apply returns_bind; [eauto with returns |]. intros [p' q'].
  apply returns_bind; [eauto with returns |]. intros [[r p1] q1]. destruct (negb _); [done |]. destruct f; [done |].
  pose proof (returns_sequence p1) as H1. pose proof (returns_sequence q1) as H2.
  destruct (optionalSequence p1) as [[m p2] | | |], (optionalSequence q1) as [[n q2] | | |]; try done. cbn [bothParsed]. sequence.
Qed.

(** The comparison of the store returns on any two byte strings. *)
Theorem compare_returns (a b : list Z) (indexKeys : bool) :
  compareStore a b indexKeys <> Exhausted /\ compareStore a b indexKeys <> NotParsed.
Proof.
  assert (H : returns (compareSlices a b indexKeys)).
  { unfold compareSlices. apply returns_bind; [eauto with returns |]. intros [prefixA ptrA].
    apply returns_bind; [eauto with returns |]. intros [prefixB ptrB]. apply returns_bind; [eauto with returns |]. intros x.
    destruct (negb _); [done |]. apply returns_bind; [eauto with returns |]. intros [].
    - unfold compareMetaData. sequence. apply returns_global.
    - unfold compareMetaData. sequence. apply returns_meta.
    - unfold compareData, compareObjectStoreDataKey. destruct ptrA, ptrB; try done. sequence.
    - unfold compareData, compareExistsEntryKey. destruct ptrA, ptrB; try done. sequence.
    - unfold compareData. destruct ptrA, ptrB; try done. apply returns_index.
    - done. }
  unfold compareStore, asserted. by destruct (compareSlices a b indexKeys).
Qed.

(** ** Prefixes and index entries *)

(** A prefix made by any of the constructors is encoded in 4 to 21 bytes, the inline
    buffer does not overflow, and decoding gives the ids with the bytes behind it. *)
Theorem prefix_roundtrip (k : KeyPrefix) (d o i : Z) (rest : list Z) :
  ofDatabase d = Some k \/ ofObjectStore d o = Some k \/ ofIndex d o i = Some k \/ (createWithSpecialIndex d o i = Some k /\ 0 < i < 2 ^ 31) ->
  exists v, KeyPrefix.encode k = Some v /\ 4 <= Z.of_nat (length v) <= 21 /\ KeyPrefix.decode (v ++ rest) = Parsed (k, rest) /\
    m_databaseId k = d.
Proof.
  intros H. assert (F : idsFit k /\ m_databaseId k = d).
  { unfold ofDatabase, ofObjectStore, ofIndex, createWithSpecialIndex in H. unfold idsFit.
    destruct (isValidDatabaseId d) eqn:Hd; [| by destruct H as [H | [H | [H | [H _]]]]]. apply isValidDatabaseId_spec in Hd.
    cbn [ASSERT mbind option_bind] in H. destruct H as [[= <-] | H]; [simpl; lia |].
    destruct (isValidObjectStoreId o) eqn:Ho; [| by destruct H as [H | [H | [H _]]]]. apply isValidObjectStoreId_spec in Ho.
    cbn [ASSERT mbind option_bind] in H. destruct H as [[= <-] | H]; [simpl; lia |].
    destruct H as [H | [H Hi]].
    - destruct (isValidIndexId i) eqn:Hi; [| done]. apply isValidIndexId_spec in Hi. injection H as <-. simpl. lia.
    - destruct (negb _); [| done]. injection H as <-. simpl. lia. }
  destruct F as [F <-]. rewrite encode_fits by done. destruct (encodeInternal_ok k F) as (v & -> & Hl & Hv).
  exists v. split; [done |]. split; [lia |]. by split.
Qed.

Lemma prefix_roundtrip_witness :
  exists v, KeyPrefix.encode (mk 300 5 30) = Some v /\ 4 <= Z.of_nat (length v) <= 21 /\
    KeyPrefix.decode (v ++ [9]) = Parsed (mk 300 5 30, [9]) /\ m_databaseId (mk 300 5 30) = 300.
Proof. apply (prefix_roundtrip _ 300 5 30). right. right. left. reflexivity. Defined.

Lemma decodeUser_ok (k : IDBKey) (v : list Z) : Encoding k v -> decodeIDBKey v = Parsed (k, []).
Proof. intros H. rewrite <- (app_nil_r v). unfold decodeIDBKey. apply decodeKey_ok; [done | apply enough_fuel]. Qed.

Lemma decodeDataPrefix_ok (d o i : Z) (f : Z -> bool) (v rest : list Z) :
  storeOk d o -> f i = true -> KeyPrefix.decode v = Parsed (mk d o i, rest) -> decodeDataPrefix f v = Parsed (mk d o i, rest).
Proof.
  intros [Hd Ho]%store_nonzero Hf Hv. unfold decodeDataPrefix. rewrite Hv. step. cbn [m_databaseId m_objectStoreId m_indexId].
  by rewrite !eqb_false, Hf.
Qed.

(** An index entry read back: its ids, sequence number, and the user key and primary key
    decoded from it are those it was made of, and no byte is left. *)
Theorem index_entry_roundtrip (d o i sequence : Z) (key primary : IDBKey) :
  storeOk d o -> isValidIndexId i = true -> keyOk key -> keyOk primary -> isId sequence ->
  exists u w v entry, encodeIDBKey key = Some u /\ encodeIDBKey primary = Some w /\
    IndexDataKey.encode d o i u w sequence = Some v /\ IndexDataKey.decode v = Parsed (entry, []) /\
    IndexDataKey.databaseId entry = Some d /\ IndexDataKey.objectStoreId entry = Some o /\ IndexDataKey.indexId entry = Some i /\
    IndexDataKey.userKey entry = Parsed key /\ IndexDataKey.primaryKey entry = Parsed primary /\
    IndexDataKey.m_sequenceNumber entry = sequence.
Proof.
  intros Hs Hi Hk Hp Hn. destruct (encodes key Hk) as (u & Eu & Hu), (encodes primary Hp) as (w & Ew & Hw).
  destruct (encodeVarInt_bytes sequence Hn) as (n & En & Hnb).
  pose proof (proj1 (isValidIndexId_spec i) Hi) as Bi. destruct (encodePrefix_ok (mk d o i)) as (ret & Er & Hr).
  { apply special_prefix; [done | lia]. }
  exists u, w, (ret ++ u ++ n ++ w), (IndexDataKey.mk d o i u w sequence).
  split; [done |]. split; [done |]. split.
  { unfold IndexDataKey.encode, ofIndex. destruct Hs as [Hd Ho]. rewrite Hd, Ho, Hi. cbn [ASSERT]. run. by rewrite Er, En. }
  split.
  { unfold IndexDataKey.decode. rewrite (decodeDataPrefix_ok d o i _ _ (u ++ n ++ w)); [| done | by apply Z.leb_le, Bi | apply Hr].
    step. rewrite (extract_ok key) by done. step. rewrite bool_decide_false by eauto with idb.
    rewrite (proj2 (proj2 Hnb)). step. rewrite bool_decide_false by (apply encoding_length in Hw; destruct w; [simpl in Hw; lia | done]).
    by rewrite (slot_end (UserKey primary)). }
  apply store_nonzero in Hs as Hnz. destruct Hs as [Hd%isValidDatabaseId_spec Ho%isValidObjectStoreId_spec].
  unfold IndexDataKey.databaseId, IndexDataKey.objectStoreId, IndexDataKey.indexId, IndexDataKey.userKey, IndexDataKey.primaryKey.
  cbn [IndexDataKey.m_databaseId IndexDataKey.m_objectStoreId IndexDataKey.m_indexId IndexDataKey.m_encodedUserKey
    IndexDataKey.m_encodedPrimaryKey IndexDataKey.m_sequenceNumber].
  rewrite !leb_id, !(decodeUser_ok _ _ Hu), !(decodeUser_ok _ _ Hw) by lia. done.
Qed.

Lemma index_entry_roundtrip_witness :
  exists u w v entry, encodeIDBKey (NumberKey 5) = Some u /\ encodeIDBKey (ArrayKey []) = Some w /\
    IndexDataKey.encode 1 2 30 u w 9 = Some v /\ IndexDataKey.decode v = Parsed (entry, []) /\
    IndexDataKey.databaseId entry = Some 1 /\ IndexDataKey.objectStoreId entry = Some 2 /\ IndexDataKey.indexId entry = Some 30 /\
    IndexDataKey.userKey entry = Parsed (NumberKey 5) /\ IndexDataKey.primaryKey entry = Parsed (ArrayKey []) /\
    IndexDataKey.m_sequenceNumber entry = 9.
Proof. apply index_entry_roundtrip; [by split | done | by split | by split | by split]. Defined.
