(* ===== verification/IDBKeyPath.v ===== *)
(** * IndexedDB key paths: Modules/indexeddb/IDBKeyPath.{h,cpp} and their bytes

    The lexer and parser of key path strings, IDBKeyPath, and encodeIDBKeyPath and
    decodeIDBKeyPath of IDBLevelDBCoding.cpp.  The category of a character, a mask of the
    Unicode library, is a parameter. *)

From S2P Require Import Prelude IDBCoding IDBCodingTheorems.

(** ** Characters *)

Definition unicodeLetter : Z := Z.lor 0x2 (Z.lor 0x4 (Z.lor 0x8 (Z.lor 0x10 (Z.lor 0x20 0x400)))).
Definition unicodeCombiningMark : Z := Z.lor 0x40 0x100.
Definition unicodeDigit : Z := 0x200.
Definition unicodeConnectorPunctuation : Z := 0x400000.
Definition ZWNJ : Z := 0x200C.
Definition ZWJ : Z := 0x200D.

Definition nonzero (z : Z) : bool := negb (z =? 0).

Section Characters.
Context (category : Z -> Z).

Definition isIdentifierStartCharacter (c : Z) : bool :=
  nonzero (Z.land (category c) unicodeLetter) || (c =? 0x24) || (c =? 0x5F).
Definition isIdentifierCharacter (c : Z) : bool :=
  nonzero (Z.land (category c) (Z.lor unicodeLetter (Z.lor unicodeCombiningMark (Z.lor unicodeDigit unicodeConnectorPunctuation))))
  || (c =? 0x24) || (c =? 0x5F) || (c =? ZWNJ) || (c =? ZWJ).
End Characters.

(** ** The lexer *)

Inductive TokenType := TokenIdentifier | TokenDot | TokenEnd | TokenError.

(** The text from m_ptr to m_end. *)
Record IDBKeyPathLexer := Lexer {
  m_ptr : list Z;
  m_currentElement : list Z;
  m_currentTokenType : TokenType }.

Definition newLexer (s : list Z) : IDBKeyPathLexer := Lexer s [] TokenError.

Section Lexing.
Context (category : Z -> Z).

(** while (m_ptr < m_end && isIdentifierCharacter( *m_ptr)): what is passed, and the rest. *)
Fixpoint identifierLoop (p : list Z) : list Z * list Z :=
  match p with
  | c :: p' =>
      if isIdentifierCharacter category c then let '(passed, rest) := identifierLoop p' in (c :: passed, rest) else ([], p)
  | [] => ([], [])
  end.

(** The token, the element when it is an identifier, and m_ptr. *)
Definition lexIdentifier (p : list Z) : TokenType * option (list Z) * list Z :=
  match p with
  | c :: p' =>
      if isIdentifierStartCharacter category c then
        let '(passed, rest) := identifierLoop p' in (TokenIdentifier, Some (c :: passed), rest)
      else (TokenError, None, p)
  | [] => (TokenError, None, p)
  end.

Definition lex (p : list Z) : TokenType * option (list Z) * list Z :=
  match p with
  | [] => (TokenEnd, None, p)
  | c :: p' => if c =? 0x2E then (TokenDot, None, p') else lexIdentifier p
  end.

Definition nextTokenType (l : IDBKeyPathLexer) : TokenType * IDBKeyPathLexer :=
  let '(type, element, rest) := lex (m_ptr l) in
  (type, Lexer rest (default (m_currentElement l) element) type).

(** ** The parser *)

Inductive IDBKeyPathParseError :=
  IDBKeyPathParseErrorNone | IDBKeyPathParseErrorStart | IDBKeyPathParseErrorIdentifier | IDBKeyPathParseErrorDot.

Inductive ParserState := Identifier | Dot | End_.

(** while (1): None is a failed assertion; every round but the last reads a character. *)
Fixpoint parseLoop (fuel : nat) (state : ParserState) (lexer : IDBKeyPathLexer) (elements : list (list Z))
    : option (list (list Z) * IDBKeyPathParseError) :=
  match fuel with
  | O => None
  | S fuel' =>
      match state with
      | Identifier =>
          _ ← ASSERT (match m_currentTokenType lexer with TokenIdentifier => true | _ => false end);
          let elements := elements ++ [m_currentElement lexer] in
          match nextTokenType lexer with
          | (TokenDot, lexer) => parseLoop fuel' Dot lexer elements
          | (TokenEnd, lexer) => parseLoop fuel' End_ lexer elements
          | _ => Some (elements, IDBKeyPathParseErrorIdentifier)
          end
      | Dot =>
          _ ← ASSERT (match m_currentTokenType lexer with TokenDot => true | _ => false end);
          match nextTokenType lexer with
          | (TokenIdentifier, lexer) => parseLoop fuel' Identifier lexer elements
          | _ => Some (elements, IDBKeyPathParseErrorDot)
          end
      | End_ => Some (elements, IDBKeyPathParseErrorNone)
      end
  end.

Definition IDBParseKeyPath (keyPath : list Z) (elements : list (list Z)) : option (list (list Z) * IDBKeyPathParseError) :=
  let fuel := (length keyPath + 2)%nat in
  match nextTokenType (newLexer keyPath) with
  | (TokenIdentifier, lexer) => parseLoop fuel Identifier lexer elements
  | (TokenEnd, lexer) => parseLoop fuel End_ lexer elements
  | _ => Some (elements, IDBKeyPathParseErrorStart)
  end.

Definition IDBIsValidKeyPath (keyPath : list Z) : option bool :=
  '(_, error) ← IDBParseKeyPath keyPath [];
  Some (match error with IDBKeyPathParseErrorNone => true | _ => false end).
End Lexing.

(** ** IDBKeyPath: strings are not null *)

Inductive IDBKeyPath :=
  | NullPath
  | StringPath (m_string : list Z)
  | ArrayPath (m_array : list (list Z)).

Definition pathType (k : IDBKeyPath) : Z := match k with NullPath => 0 | StringPath _ => 1 | ArrayPath _ => 2 end.

Fixpoint allValid (category : Z -> Z) (array : list (list Z)) : option bool :=
  match array with
  | [] => Some true
  | s :: array' =>
      valid ← IDBIsValidKeyPath category s;
      if (valid : bool) then allValid category array' else Some false
  end.

Definition isValidPath (category : Z -> Z) (k : IDBKeyPath) : option bool :=
  match k with
  | NullPath => Some false
  | StringPath s => IDBIsValidKeyPath category s
  | ArrayPath array => if bool_decide (array = []) then Some false else allValid category array
  end.

Definition equalPaths (k other : IDBKeyPath) : bool :=
  match k, other with
  | NullPath, NullPath => true
  | StringPath s, StringPath t => bool_decide (s = t)
  | ArrayPath l, ArrayPath m => bool_decide (l = m)
  | _, _ => false
  end.

(** ** Bytes *)

Definition IDBKeyPathTypeCodedByte1 : Z := 0.
Definition IDBKeyPathTypeCodedByte2 : Z := 0.

Fixpoint encodeStrings (array : list (list Z)) : option (list Z) :=
  match array with
  | [] => Some []
  | s :: array' => v ← encodeStringWithLength s; w ← encodeStrings array'; Some (v ++ w)
  end.

Definition encodeIDBKeyPath (keyPath : IDBKeyPath) : option (list Z) :=
  body ← match keyPath with
         | NullPath => Some []
         | StringPath s => encodeStringWithLength s
         | ArrayPath array => count ← encodeVarInt (Z.of_nat (length array)); v ← encodeStrings array; Some (count ++ v)
         end;
  Some ([IDBKeyPathTypeCodedByte1; IDBKeyPathTypeCodedByte2; pathType keyPath] ++ body).

(** while (count--): a string takes a byte at least. *)
Fixpoint decodeStrings (fuel : nat) (count : Z) (p : list Z) (array : list (list Z)) : parsed (list (list Z) * list Z) :=
  match fuel with
  | O => Exhausted
  | S fuel' =>
      if count =? 0 then Parsed (array, p)
      else
        match decodeStringWithLength p with
        | Parsed (string, p) => decodeStrings fuel' (count - 1) p (array ++ [string])
        | NotParsed => Undefined
        | Undefined => Undefined
        | Exhausted => Exhausted
        end
  end.

(** ASSERT(p == limit); a null pointer is not the limit. *)
Definition wholly {A} (m : parsed (A * list Z)) : parsed A :=
  match m with
  | Parsed (a, []) => Parsed a
  | Parsed _ | NotParsed | Undefined => Undefined
  | Exhausted => Exhausted
  end.

(** One byte is read beyond the limit. *)
Definition decodeIDBKeyPath (p : list Z) : parsed IDBKeyPath :=
  match p with
  | [] => string ← defined (decodeString p); Parsed (StringPath string)
  | [_] => Undefined
  | c :: d :: rest =>
      if negb (c =? IDBKeyPathTypeCodedByte1) || negb (d =? IDBKeyPathTypeCodedByte2) then
        string ← defined (decodeString p); Parsed (StringPath string)
      else
        match rest with
        | [] => Undefined
        | type :: p =>
            if type =? 0 then wholly (Parsed (NullPath, p))
            else if type =? 1 then string ← wholly (decodeStringWithLength p); Parsed (StringPath string)
            else if type =? 2 then
              match decodeVarInt p with
              | Parsed (count, p) =>
                  assert (0 <=? count);;
                  array ← wholly (decodeStrings (length p + 1) count p []);
                  Parsed (ArrayPath array)
              | NotParsed | Undefined => Undefined
              | Exhausted => Exhausted
              end
            else Undefined
        end
  end.
