(* ===== verification/IDBKeyPathTheorems.v ===== *)
(** * Key paths: the parser accepts the grammar, and paths survive the store

    IDBKeyPath ::= EMPTY_STRING | identifier ('.' identifier)* *)

From S2P Require Import Prelude IDBCoding IDBCodingTheorems IDBKeyPath.

(** ** The grammar *)

Fixpoint joinDots (l : list (list Z)) : list Z :=
  match l with
  | [] => []
  | [e] => e
  | e :: l' => e ++ 0x2E :: joinDots l'
  end.

(** What follows the first element. *)
Definition dotTail (l : list (list Z)) : list Z := match l with [] => [] | _ => 0x2E :: joinDots l end.

Lemma joinDots_cons (e : list Z) (l : list (list Z)) : joinDots (e :: l) = e ++ dotTail l.
Proof. destruct l; [by rewrite app_nil_r | done]. Qed.

Section Grammar.
Context (category : Z -> Z).
#[local] Abbreviation start := (isIdentifierStartCharacter category).
#[local] Abbreviation part := (isIdentifierCharacter category).

Definition isIdentifier (e : list Z) : bool := match e with c :: e' => start c && forallb part e' | [] => false end.
Definition isPath (l : list (list Z)) : Prop := Forall (fun e => isIdentifier e = true) l.

(** The text is at the end of an identifier. *)
Definition atBoundary (t : list Z) : Prop := match t with c :: _ => part c = false | [] => True end.

Lemma nonzero_land_lor (x a b : Z) : nonzero (Z.land x a) = true -> nonzero (Z.land x (Z.lor a b)) = true.
Proof.
  unfold nonzero. rewrite !negb_true_iff, !Z.eqb_neq, Z.land_lor_distr_r. intros H [H1 _]%Z.lor_eq_0_iff. done.
Qed.

Lemma start_part (c : Z) : start c = true -> part c = true.
Proof.
  unfold isIdentifierStartCharacter, isIdentifierCharacter. rewrite !orb_true_iff.
  intros [[H | H] | H]; [| tauto..]. left. left. left. left. by apply nonzero_land_lor.
Qed.

Lemma identifier_parts (e : list Z) : isIdentifier e = true -> Forall (fun c => part c = true) e.
Proof.
  destruct e as [| c e]; [done |]. simpl. intros [Hc He]%andb_true_iff. constructor; [by apply start_part |].
  rewrite forallb_forall in He. apply list.Forall_forall. intros x Hx. by apply He, list_elem_of_In.
Qed.

(** The cut between an identifier and what follows is determined. *)
Lemma cut_unique (e e' t t' : list Z) :
  Forall (fun c => part c = true) e -> Forall (fun c => part c = true) e' -> atBoundary t -> atBoundary t' -> e ++ t = e' ++ t' -> e = e' /\ t = t'.
Proof.
  intros He. revert e'. induction He as [| c e Hc _ IH]; intros e' He' Ht Ht' E.
  - destruct He' as [| c' e' Hc' _]; [done |]. simpl in E. subst t. simpl in Ht. congruence.
  - destruct He' as [| c' e' Hc' He'].
    + simpl in E. subst t'. simpl in Ht'. congruence.
    + injection E as <- E. destruct (IH e' He' Ht Ht' E) as [-> ->]. done.
Qed.

Lemma identifierLoop_ok (p : list Z) :
  exists passed rest, identifierLoop category p = (passed, rest) /\ p = passed ++ rest /\ forallb part passed = true /\ atBoundary rest.
Proof.
  induction p as [| c p (passed & rest & E & -> & Hp & Hr)]; [by exists [], [] |]. cbn [identifierLoop].
  destruct (part c) eqn:Hc; [| by exists [], (c :: passed ++ rest)].
  rewrite E. exists (c :: passed), rest. split; [done |]. split; [done |]. simpl. by rewrite Hc.
Qed.

(** '.' is other punctuation: no identifier has it. *)
Context (dot_category : category 0x2E = 0x800000).

Lemma dot_part : part 0x2E = false.
Proof. unfold isIdentifierCharacter. rewrite dot_category. done. Qed.

Lemma dotTail_boundary (l : list (list Z)) : atBoundary (dotTail l).
Proof. destruct l; [done | apply dot_part]. Qed.

Lemma lex_cases (p : list Z) :
  match p with
  | [] => lex category p = (TokenEnd, None, p)
  | c :: p' =>
      if c =? 0x2E then lex category p = (TokenDot, None, p')
      else if start c then exists e rest, lex category p = (TokenIdentifier, Some e, rest) /\ p = e ++ rest /\ isIdentifier e = true /\ atBoundary rest
      else lex category p = (TokenError, None, p)
  end.
Proof.
  destruct p as [| c p]; [done |]. cbn [lex]. destruct (c =? 0x2E); [done |]. cbn [lexIdentifier].
  destruct (start c) eqn:Hc; [| done]. destruct (identifierLoop_ok p) as (passed & rest & -> & -> & Hp & Hr).
  exists (c :: passed), rest. split; [done |]. split; [done |]. split; [| done]. simpl. by rewrite Hc.
Qed.

(** No path of the grammar is the text. *)
Definition notPath (s : list Z) : Prop := forall l, isPath l -> s <> joinDots l.

Lemma path_head (l : list (list Z)) : isPath l -> l <> [] -> exists c t, joinDots l = c :: t /\ start c = true.
Proof.
  destruct 1 as [| e l He _]; [done |]. intros _. rewrite joinDots_cons. destruct e as [| c e]; [done |].
  apply andb_true_iff in He as [Hc _]. by eexists c, _.
Qed.

(** The text behind an identifier decides which paths there are. *)
Lemma path_split (e t : list Z) (l : list (list Z)) :
  isIdentifier e = true -> atBoundary t -> isPath l -> e ++ t = joinDots l -> exists l', l = e :: l' /\ t = dotTail l' /\ isPath l'.
Proof.
  intros He Ht Hl E. destruct Hl as [| e' l He' Hl]; [by destruct e |]. rewrite joinDots_cons in E.
  apply cut_unique in E as [-> ->]; [by exists l | by apply identifier_parts.. | done | apply dotTail_boundary].
Qed.

Lemma notPath_dot (e p : list Z) :
  isIdentifier e = true -> (forall l, isPath l -> l <> [] -> p <> joinDots l) -> notPath (e ++ 0x2E :: p).
Proof.
  intros He Hp l Hl E. apply path_split in E as (l' & -> & E & Hl'); [| done | apply dot_part | done].
  destruct l' as [| e' l']; [done |]. injection E as E. by eapply Hp.
Qed.

Lemma loop_identifier (fuel : nat) :
  forall element rest elements, (length rest + 2 <= fuel)%nat -> isIdentifier element = true -> atBoundary rest ->
  exists more error, parseLoop category fuel Identifier (Lexer rest element TokenIdentifier) elements = Some (elements ++ element :: more, error) /\
    isPath more /\ joinDots (element :: more) `prefix_of` element ++ rest /\
    (error = IDBKeyPathParseErrorNone /\ element ++ rest = joinDots (element :: more) \/ error <> IDBKeyPathParseErrorNone /\ notPath (element ++ rest)).
Proof.
  induction (Nat.lt_wf_0 fuel) as [fuel _ IH]. intros element rest elements Hf He Hr.
  destruct fuel as [| [| fuel]]; [lia.. |]. cbn [parseLoop m_currentTokenType ASSERT mbind option_bind m_currentElement].
  unfold nextTokenType at 1. cbn [m_ptr m_currentElement]. pose proof (lex_cases rest) as L. destruct rest as [| c rest].
  - rewrite L. exists [], IDBKeyPathParseErrorNone. split; [done |]. split; [constructor |]. rewrite app_nil_r. split; [done |]. by left.
  - destruct (Z.eqb_spec c 0x2E) as [-> | Hc].
    + rewrite L. cbn [default m_currentTokenType ASSERT mbind option_bind]. unfold nextTokenType. cbn [m_ptr m_currentElement].
      pose proof (lex_cases rest) as L'.
      assert (Stop : lex category rest = (lex category rest) -> (forall l, isPath l -> l <> [] -> rest <> joinDots l) ->
        exists more error, Some (elements ++ [element], IDBKeyPathParseErrorDot) = Some (elements ++ element :: more, error) /\
          isPath more /\ joinDots (element :: more) `prefix_of` element ++ 0x2E :: rest /\
          (error = IDBKeyPathParseErrorNone /\ element ++ 0x2E :: rest = joinDots (element :: more) \/
           error <> IDBKeyPathParseErrorNone /\ notPath (element ++ 0x2E :: rest))).
      { intros _ Hp. exists [], IDBKeyPathParseErrorDot. split; [done |]. split; [constructor |]. split; [by eexists |].
        right. split; [done | by apply notPath_dot]. }
      destruct rest as [| d rest].
      { rewrite L'. apply Stop; [done |]. intros l Hl Hn E. by destruct (path_head l Hl Hn) as (c & t & Ej & _); rewrite Ej in E. }
      destruct (Z.eqb_spec d 0x2E) as [-> | Hd].
      { rewrite L'. apply Stop; [done |]. intros l Hl Hn E. destruct (path_head l Hl Hn) as (c & t & Ej & Hs). rewrite Ej in E.
        injection E as <- _. apply start_part in Hs. rewrite dot_part in Hs. done. }
      destruct (start d) eqn:Hd'.
      * destruct L' as (e & rest' & -> & E & Hi & Hb). cbn [default from_option id]. assert (Hl : (length rest' + 1 <= length (d :: rest))%nat).
        { rewrite E, length_app. destruct e; [done | simpl; lia]. }
        destruct (IH fuel ltac:(lia) e rest' (elements ++ [element])) as (more & error & Ep & Hm & [k Hk] & Hc); [simpl in Hf, Hl; lia | done | done |].
        exists (e :: more), error. rewrite Ep, <- app_assoc. split; [done |]. split; [by constructor |]. rewrite (joinDots_cons element), E.
        split; [exists k; unfold dotTail; rewrite Hk, <- app_assoc; done |].
        destruct Hc as [[-> Hc] | [Hc Hn]]; [left; split; [done |]; unfold dotTail; by rewrite Hc |].
        right. split; [done |]. apply notPath_dot; [done |]. intros l Hl' _. by apply Hn.
      * rewrite L'. apply Stop; [done |]. intros l Hl Hn E. destruct (path_head l Hl Hn) as (c & t & Ej & Hs). rewrite Ej in E.
        injection E as <- _. congruence.
    + destruct (start c) eqn:Hs; [apply start_part in Hs; simpl in Hr; congruence |]. rewrite L.
      exists [], IDBKeyPathParseErrorIdentifier. split; [done |]. split; [constructor |]. split; [by eexists |]. right. split; [done |].
      intros l Hl E. apply path_split in E as (l' & -> & E & _); [| done..]. destruct l'; [done |]. injection E as -> _. done.
Qed.

Lemma joinDots_nil (l : list (list Z)) : isPath l -> joinDots l = [] -> l = [].
Proof. destruct l as [| e l]; [done |]. intros H E. by destruct (path_head _ H) as (c & t & Ej & _); [| rewrite Ej in E]. Qed.

Lemma joinDots_inj (l m : list (list Z)) : isPath l -> isPath m -> joinDots l = joinDots m -> l = m.
Proof.
  intros Hl. revert m. induction Hl as [| e l He Hl IH]; intros m Hm E; [symmetry in E; by apply joinDots_nil in E |].
  rewrite joinDots_cons in E. apply path_split in E as (m' & -> & E & Hm'); [| done | apply dotTail_boundary | done]. f_equal.
  destruct l as [| e' l], m' as [| e'' m']; try done. injection E as E. by apply IH.
Qed.
End Grammar.

(** IDBParseKeyPath returns for every string, with the identifiers it parsed: joined by
    dots they are the front of the string.  There is no error exactly when the string is
    of the grammar, and then they are its only reading; '.' is taken to be punctuation. *)
Theorem key_path_grammar (category : Z -> Z) (keyPath : list Z) :
  category 0x2E = 0x800000 ->
  exists elements error, IDBParseKeyPath category keyPath [] = Some (elements, error) /\
    isPath category elements /\ joinDots elements `prefix_of` keyPath /\
    (error = IDBKeyPathParseErrorNone <-> exists l, isPath category l /\ keyPath = joinDots l) /\
    (forall l, isPath category l -> keyPath = joinDots l -> elements = l).
Proof.
  intros Hd. unfold IDBParseKeyPath, nextTokenType, newLexer. cbn [m_ptr m_currentElement]. pose proof (lex_cases category keyPath) as L.
  assert (Stop : (exists c t, keyPath = c :: t /\ isIdentifierStartCharacter category c = false) ->
    exists elements error, Some ([], IDBKeyPathParseErrorStart) = Some (elements, error) /\
    isPath category elements /\ joinDots elements `prefix_of` keyPath /\
    (error = IDBKeyPathParseErrorNone <-> exists l, isPath category l /\ keyPath = joinDots l) /\
    (forall l, isPath category l -> keyPath = joinDots l -> elements = l)).
  { intros (c & t & -> & Hc). exists [], IDBKeyPathParseErrorStart. split; [done |]. split; [constructor |]. split; [by eexists |].
    assert (N : forall l, isPath category l -> c :: t <> joinDots l).
    { intros l Hl E. destruct l as [| e l]; [done |]. destruct (path_head category _ Hl) as (c' & t' & Ej & Hs); [done |].
      rewrite Ej in E. injection E as <- _. congruence. }
    split; [split; [done |]; intros (l & Hl & E); by destruct (N l Hl) | intros l Hl E; by destruct (N l Hl)]. }
  destruct keyPath as [| c p].
  - rewrite L. exists [], IDBKeyPathParseErrorNone. split; [done |]. split; [constructor |]. split; [done |].
    split; [split; [exists []; split; [constructor | done] | done] |]. intros l Hl E. symmetry. by apply (joinDots_nil category).
  - destruct (Z.eqb_spec c 0x2E) as [-> | Hc].
    + rewrite L. apply Stop. exists 0x2E, p. split; [done |]. apply not_true_is_false. intros Hs%start_part.
      by rewrite (dot_part category Hd) in Hs.
    + destruct (isIdentifierStartCharacter category c) eqn:Hs; [| rewrite L; apply Stop; by exists c, p].
      destruct L as (e & rest & -> & -> & He & Hr). cbn [default from_option id].
      destruct (loop_identifier category Hd (length (e ++ rest) + 2) e rest []) as (more & error & -> & Hm & Hp & Hc');
        [rewrite length_app; lia | done | done |].
      assert (Hem : isPath category (e :: more)) by (by constructor).
      exists (e :: more), error. split; [done |]. split; [done |]. split; [done |]. split; [split |].
      * intros ->. destruct Hc' as [[_ E] | [? _]]; [| done]. by exists (e :: more).
      * intros (l & Hl & E). destruct Hc' as [[-> _] | [_ N]]; [done |]. by destruct (N l Hl).
      * intros l Hl E. destruct Hc' as [[_ E'] | [_ N]]; [| by destruct (N l Hl)]. apply (joinDots_inj category Hd); congruence.
Qed.

(** The general categories of ASCII letters, digits and the full stop. *)
Definition asciiCategory (c : Z) : Z :=
  if (0x61 <=? c) && (c <=? 0x7A) then 0x4
  else if (0x41 <=? c) && (c <=? 0x5A) then 0x2
  else if (0x30 <=? c) && (c <=? 0x39) then 0x200
  else if c =? 0x2E then 0x800000 else 0x8000000.

Lemma key_path_grammar_witness :
  exists elements error, IDBParseKeyPath asciiCategory [0x61; 0x31; 0x2E; 0x62] [] = Some (elements, error) /\
    isPath asciiCategory elements /\ joinDots elements `prefix_of` [0x61; 0x31; 0x2E; 0x62] /\
    (error = IDBKeyPathParseErrorNone <-> exists l, isPath asciiCategory l /\ [0x61; 0x31; 0x2E; 0x62] = joinDots l) /\
    (forall l, isPath asciiCategory l -> [0x61; 0x31; 0x2E; 0x62] = joinDots l -> elements = l).
Proof. apply key_path_grammar. reflexivity. Defined.

(** ** Bytes *)

Definition pathOk (k : IDBKeyPath) : Prop :=
  match k with
  | NullPath => True
  | StringPath s => isString s
  | ArrayPath l => Forall isString l /\ Z.of_nat (length l) < 2 ^ 32
  end.

Lemma encodeStrings_ok (l : list (list Z)) :
  Forall isString l ->
  exists v, encodeStrings l = Some v /\ (length l <= length v)%nat /\
    forall fuel acc, (length l + 1 <= fuel)%nat -> decodeStrings fuel (Z.of_nat (length l)) v acc = Parsed (acc ++ l, []).
Proof.
  induction 1 as [| s l Hs _ (v & Ev & Hl & Hd)].
  - exists []. split; [done |]. split; [done |]. intros [| fuel] acc Hf; [lia |]. cbn. by rewrite app_nil_r.
  - destruct (encodeStringWithLength_ok s Hs) as (n & _ & Es & Hn & _ & Hdn). exists ((n ++ encodeString s) ++ v).
    cbn [encodeStrings]. rewrite Es. cbn [mbind option_bind]. rewrite Ev. split; [done |].
    split; [rewrite !length_app; simpl; lia |]. intros [| fuel] acc Hf; [simpl in Hf; lia |]. cbn [decodeStrings].
    destruct (Z.eqb_spec (Z.of_nat (length (s :: l))) 0) as [E | _]; [simpl in E; lia |].
    rewrite decodeStringWithLength_ok by done. replace (Z.of_nat (length (s :: l)) - 1) with (Z.of_nat (length l)) by (simpl; lia).
    rewrite Hd by (simpl in Hf; lia). by rewrite <- app_assoc.
Qed.

Lemma decode_raw (s : list Z) :
  Forall isUnit16 s -> hd 1 s <> 0 -> decodeIDBKeyPath (encodeString s) = Parsed (StringPath s).
Proof.
  intros Hu Hh. assert (E : decodeString (encodeString s) = Some s).
  { unfold decodeString. rewrite encodeString_length, Nat.even_mul. cbn. by rewrite decodeUnits_ok. }
  destruct Hu as [| c s Hc Hu]; [done |]. rewrite encodeString_cons in *. unfold decodeIDBKeyPath. rewrite E.
  simpl in Hh. replace (negb (Z.shiftr c 8 =? IDBKeyPathTypeCodedByte1) || negb (Z.land c 0xFF =? IDBKeyPathTypeCodedByte2)) with true; [done |].
  destruct (unit_split c Hc) as (-> & -> & _). unfold IDBKeyPathTypeCodedByte1, IDBKeyPathTypeCodedByte2.
  assert (Hdm := Z.div_mod c (2 ^ 8) ltac:(lia)). destruct (Z.eqb_spec (c / 2 ^ 8) 0), (Z.eqb_spec (c mod 2 ^ 8) 0); done || lia.
Qed.

(** A key path of any kind is read back from its bytes; so is a string stored without
    the type bytes, as old records are, unless it begins with a NUL. *)
Theorem key_path_roundtrip (k : IDBKeyPath) (s : list Z) :
  pathOk k -> Forall isUnit16 s -> hd 1 s <> 0 ->
  (exists v, encodeIDBKeyPath k = Some v /\ decodeIDBKeyPath v = Parsed k) /\ decodeIDBKeyPath (encodeString s) = Parsed (StringPath s).
Proof.
  intros Hk Hs Hh. split; [| by apply decode_raw]. destruct k as [| t | l]; unfold encodeIDBKeyPath.
  - by eexists.
  - destruct (encodeStringWithLength_ok t Hk) as (n & _ & -> & _ & _ & Hd). cbn [mbind option_bind]. eexists. split; [done |].
    cbn -[decodeStringWithLength]. rewrite <- (app_nil_r (n ++ encodeString t)), decodeStringWithLength_ok by done. done.
  - destruct Hk as [Hl Hn]. destruct (encodeVarInt_ok (Z.of_nat (length l))) as (n & -> & _ & _ & Hd); [lia |].
    destruct (encodeStrings_ok l Hl) as (v & -> & Hv & Hdv). cbn [mbind option_bind]. eexists. split; [done |].
    cbn -[decodeVarInt decodeStrings]. rewrite Hd. destruct (Z.leb_spec 0 (Z.of_nat (length l))); [| lia].
    cbn [assert mbind parsed_bind]. by rewrite Hdv by lia.
Qed.

Lemma key_path_roundtrip_witness :
  (exists v, encodeIDBKeyPath (ArrayPath [[0x61]; []]) = Some v /\ decodeIDBKeyPath v = Parsed (ArrayPath [[0x61]; []])) /\
  decodeIDBKeyPath (encodeString [0x61; 0x2E; 0x62]) = Parsed (StringPath [0x61; 0x2E; 0x62]).
Proof.
  apply key_path_roundtrip.
  - split; [| by vm_compute]. apply list.Forall_cons. split; [| apply list.Forall_singleton]; (split; [| by vm_compute]).
    + by apply list.Forall_singleton.
    + constructor.
  - repeat (apply list.Forall_cons; split; [by vm_compute |]). constructor.
  - discriminate.
Defined.
