(* ===== verification/Digits.v ===== *)
(** * Digits: decimal digits of integers

    The loop that writes an integer (WTF/wtf/text/IntegerToStringConversion.h), and the
    number that a list of digits spells, with the lemmas that the readers and printers of
    numbers share. *)

From S2P Require Import Prelude.

(** ** Writing an integer *)

(** numberToStringImpl: twenty digits are enough for 64 bits. *)
Fixpoint digitsLoop (fuel : nat) (number : Z) (acc : list Z) : list Z :=
  match fuel with
  | O => acc
  | S fuel' =>
      let acc := number mod 10 + ch "0" :: acc in
      let number := number / 10 in
      if number =? 0 then acc else digitsLoop fuel' number acc
  end.
Definition numberToString (number : Z) : list Z := digitsLoop 20 number [].
Definition signedToString (number : Z) : list Z :=
  if number <? 0 then ch "-" :: numberToString (- number) else numberToString number.

(** ** Powers of ten *)

Lemma pow10_pos (n : Z) : 0 <= n -> 0 < 10 ^ n.
Proof. intros H. by apply Z.pow_pos_nonneg. Qed.
Lemma pow10_succ (n : Z) : 0 <= n -> 10 ^ (n + 1) = 10 ^ n * 10.
Proof. intros H. rewrite Z.pow_add_r by lia. done. Qed.
Lemma pow10_le (m n : Z) : m <= n -> 10 ^ m <= 10 ^ n.
Proof. intros H. by apply Z.pow_le_mono_r. Qed.
Lemma pow10_lt_inv (m n : Z) : 0 <= n -> 10 ^ m < 10 ^ n -> m < n.
Proof. intros H. apply Z.pow_lt_mono_r_iff; lia. Qed.
#[export] Hint Resolve pow10_pos : core.

(** ** Digits *)

Definition numFrom (acc : Z) (ds : list Z) : Z := fold_left (fun a c => a * 10 + (c - ch "0")) ds acc.
Definition digits (ds : list Z) : Prop := Forall (fun c => 48 <= c <= 57) ds.
Definition count (ds : list Z) : Z := Z.of_nat (length ds).

Lemma numFrom_bounds (acc n : Z) (ds : list Z) : digits ds -> 0 <= n -> 0 <= acc < 10 ^ n -> 0 <= numFrom acc ds < 10 ^ (n + count ds).
Proof.
  unfold numFrom, count. intros Hd. revert acc n. induction Hd as [| c ds Hc _ IH]; intros acc n Hn Ha; cbn [fold_left length]; [by rewrite Z.add_0_r |].
  rewrite Nat2Z.inj_succ. replace (n + Z.succ (Z.of_nat (length ds))) with (n + 1 + Z.of_nat (length ds)) by lia.
  apply IH; [lia |]. rewrite pow10_succ by lia. lia.
Qed.

Lemma numFrom_app (acc : Z) (ds es : list Z) : numFrom acc (ds ++ es) = numFrom (numFrom acc ds) es.
Proof. apply fold_left_app. Qed.

Lemma numFrom_shift (acc : Z) (ds : list Z) : numFrom acc ds = acc * 10 ^ count ds + numFrom 0 ds.
Proof.
  unfold numFrom, count. revert acc. induction ds as [| c ds IH]; intros acc; cbn [fold_left length]; [lia |].
  rewrite IH, (IH (0 * 10 + (c - ch "0"))). rewrite Nat2Z.inj_succ, Z.pow_succ_r by lia. ring.
Qed.

Lemma numFrom_le (acc : Z) (ds : list Z) : digits ds -> 0 <= acc -> acc <= numFrom acc ds.
Proof.
  intros Hd Ha. rewrite numFrom_shift. pose proof (numFrom_bounds 0 0 ds Hd) as H. unfold count in *.
  assert (1 <= 10 ^ Z.of_nat (length ds)) by (change 1 with (10 ^ 0) at 1; apply pow10_le; lia). nia.
Qed.

(** ** The digits of a number *)

(** The digits of n, the first of which is 0 for zero only. *)
Definition spells (ds : list Z) (n : Z) : Prop :=
  digits ds /\ numFrom 0 ds = n /\ 1 <= count ds /\ (n = 0 -> ds = [ch "0"]) /\
  (0 < n -> 10 ^ (count ds - 1) <= n /\ exists c rest, ds = c :: rest /\ c <> ch "0").

Lemma count_snoc (ds : list Z) (c : Z) : count (ds ++ [c]) = count ds + 1.
Proof. unfold count. rewrite length_app. cbn [length]. lia. Qed.

Lemma digitsLoop_ok (fuel : nat) (n : Z) (acc : list Z) : (1 <= fuel)%nat -> 0 <= n < 10 ^ Z.of_nat fuel ->
  exists ds, digitsLoop fuel n acc = ds ++ acc /\ spells ds n.
Proof.
  revert n acc. induction fuel as [| fuel IH]; intros n acc Hf Hn; [lia |]. cbn [digitsLoop]. rewrite Nat2Z.inj_succ, Z.pow_succ_r in Hn by lia.
  pose proof (Z.div_mod n 10). pose proof (Z.mod_pos_bound n 10). destruct (Z.eqb_spec (n / 10) 0) as [E | E].
  - exists [n mod 10 + 48]. split; [done |]. unfold spells, count. cbn [length]. split; [repeat constructor; lia |]. split; [cbn; lia |]. split; [lia |].
    split; [by intros -> |]. intros Hp. split; [cbn; lia |]. eexists _, []. split; [done | lia].
  - assert (Hq : 0 < n / 10) by (pose proof (Z.div_pos n 10); lia).
    destruct (IH (n / 10) (n mod 10 + 48 :: acc)) as (ds & -> & Hd & Hv & Hc & _ & Hp).
    { destruct fuel; [change (10 ^ Z.of_nat 0) with 1 in Hn; lia | lia]. } { split; [lia | apply Z.div_lt_upper_bound; lia]. }
    destruct (Hp Hq) as (Hl & c & rest & Eds & Hh). exists (ds ++ [n mod 10 + 48]). split; [by rewrite <- app_assoc |].
    unfold spells. rewrite numFrom_app, Hv, count_snoc. split; [apply list.Forall_app; split; [done | repeat constructor; lia] |].
    split; [cbn; lia |]. split; [lia |]. split; [lia |]. intros _. split; [| exists c, (rest ++ [n mod 10 + 48]); by rewrite Eds].
    replace (count ds + 1 - 1) with (count ds - 1 + 1) by lia. rewrite pow10_succ by lia. lia.
Qed.

Lemma numberToString_ok (n : Z) : 0 <= n < 10 ^ 20 -> spells (numberToString n) n.
Proof. intros Hn. unfold numberToString. destruct (digitsLoop_ok 20 n []) as (ds & -> & H); [lia | done |]. by rewrite app_nil_r. Qed.

Lemma spells_count (ds : list Z) (n k : Z) : spells ds n -> n < 10 ^ k -> 1 <= k -> count ds <= k.
Proof.
  intros (Hd & Hv & Hc & H0 & Hp) Hn Hk. destruct (Z.eq_dec n 0) as [E | E]; [rewrite (H0 E); unfold count; cbn [length]; lia |].
  destruct Hp as [Hl _]; [pose proof (numFrom_bounds 0 0 ds Hd); lia |]. assert (count ds - 1 < k); [apply pow10_lt_inv; lia | lia].
Qed.

Lemma numFrom_zeros (acc : Z) (t : nat) : numFrom acc (replicate t (ch "0")) = acc * 10 ^ Z.of_nat t.
Proof.
  revert acc. induction t as [| t IH]; intros acc; [cbn; lia |]. rewrite Nat2Z.inj_succ, Z.pow_succ_r by lia.
  change (numFrom acc (replicate (S t) (ch "0"))) with (numFrom (acc * 10 + (ch "0" - ch "0")) (replicate t (ch "0"))). rewrite IH. ring.
Qed.

Lemma digit_lists (ds es : list Z) : digits (ds ++ es) -> digits ds /\ digits es.
Proof. by intros H%list.Forall_app. Qed.

Lemma count_app (ds es : list Z) : count (ds ++ es) = count ds + count es.
Proof. unfold count. rewrite length_app. lia. Qed.
