(* ===== verification/Decimal.v ===== *)
(** * Decimal: platform/Decimal.{h,cpp}

    Decimal floating-point numbers of 18 digits, with the 128-bit arithmetic and the
    scaling they are computed with, and their conversions from and to strings.  A Decimal
    is its EncodedData.  Conversions from and to double go through the number printer and
    parser of WTF and are left out. *)

From S2P Require Import Prelude Digits.

(** ** Machine integers *)
Definition u64 (z : Z) : Z := z mod 2 ^ 64.
Definition u32 (z : Z) : Z := z mod 2 ^ 32.
Definition int64 (z : Z) : Z := (z + 2 ^ 63) mod 2 ^ 64 - 2 ^ 63.
Definition int16 (z : Z) : Z := (z + 2 ^ 15) mod 2 ^ 16 - 2 ^ 15.

Definition ExponentMax : Z := 1023.
Definition ExponentMin : Z := -1023.
Definition Precision : Z := 18.
Definition MaxCoefficient : Z := 0x16345785D89FFFF.

(** ** 128-bit arithmetic *)
Record UInt128 := MakeUInt128 { m_low : Z; m_high : Z }.

Definition highUInt32 (x : Z) : Z := u32 (Z.shiftr x 32).
Definition lowUInt32 (x : Z) : Z := u32 (Z.land x (Z.shiftl 1 32 - 1)).
Definition makeUInt64 (low high : Z) : Z := Z.lor low (Z.shiftl high 32).

Definition multiplyHigh (u v : Z) : Z :=
  let uLow := lowUInt32 u in
  let uHigh := highUInt32 u in
  let vLow := lowUInt32 v in
  let vHigh := highUInt32 v in
  let partialProduct := u64 (u64 (uHigh * vLow) + highUInt32 (u64 (uLow * vLow))) in
  u64 (u64 (u64 (uHigh * vHigh) + highUInt32 partialProduct) + highUInt32 (u64 (u64 (uLow * vHigh) + lowUInt32 partialProduct))).

Definition multiply (u v : Z) : UInt128 := MakeUInt128 (u64 (u * v)) (multiplyHigh u v).

(** The loop over the dividend from its highest word on. *)
Fixpoint divideLoop (dividend : list Z) (remainder divisor : Z) : list Z :=
  match dividend with
  | [] => []
  | word :: dividend' =>
      let work := makeUInt64 word remainder in
      u32 (work / divisor) :: divideLoop dividend' (u32 (work mod divisor)) divisor
  end.

(** operator/= *)
Definition divide (x : UInt128) (divisor : Z) : option UInt128 :=
  _ ← ASSERT (negb (divisor =? 0));
  if m_high x =? 0 then Some (MakeUInt128 (m_low x / divisor) (m_high x))
  else
    match divideLoop [highUInt32 (m_high x); lowUInt32 (m_high x); highUInt32 (m_low x); lowUInt32 (m_low x)] 0 divisor with
    | [q3; q2; q1; q0] => Some (MakeUInt128 (makeUInt64 q0 q1) (makeUInt64 q2 q3))
    | _ => None
    end.

(** ** Digits and scaling *)

(** The powers of ten below 2^64 are twenty. *)
Fixpoint countDigitsLoop (fuel : nat) (x powerOfTen numberOfDigits : Z) : Z :=
  match fuel with
  | O => numberOfDigits
  | S fuel' =>
      if x >=? powerOfTen then
        if powerOfTen >=? (2 ^ 64 - 1) / 10 then numberOfDigits + 1
        else countDigitsLoop fuel' x (u64 (powerOfTen * 10)) (numberOfDigits + 1)
      else numberOfDigits
  end.
Definition countDigits (x : Z) : Z := countDigitsLoop 20 x 1 0.

Fixpoint scaleDownLoop (n : nat) (x : Z) : Z :=
  match n with O => x | S n' => if x =? 0 then x else scaleDownLoop n' (x / 10) end.
Definition scaleDown (x n : Z) : option Z := _ ← ASSERT (0 <=? n); Some (scaleDownLoop (Z.to_nat n) x).

(** n has five bits. *)
Fixpoint scaleUpLoop (fuel : nat) (x n y z : Z) : option Z :=
  match fuel with
  | O => None
  | S fuel' =>
      let y := if Z.odd n then u64 (y * z) else y in
      let n := Z.shiftr n 1 in
      if n =? 0 then Some (u64 (x * y)) else scaleUpLoop fuel' x n y (u64 (z * z))
  end.
Definition scaleUp (x n : Z) : option Z :=
  _ ← ASSERT (0 <=? n);
  _ ← ASSERT (n <? Precision);
  scaleUpLoop 5 x n 1 10.

(** ** Data *)
Inductive Sign := Positive | Negative.
Inductive FormatClass := ClassInfinity | ClassNormal | ClassNaN | ClassZero.
#[export] Instance Sign_eq_dec : EqDecision Sign.
Proof. solve_decision. Defined.
#[export] Instance FormatClass_eq_dec : EqDecision FormatClass.
Proof. solve_decision. Defined.

Record EncodedData := Encoded { m_coefficient : Z; m_exponent : Z; m_formatClass : FormatClass; m_sign : Sign }.
#[export] Instance EncodedData_eq_dec : EqDecision EncodedData.
Proof. solve_decision. Defined.
Abbreviation Decimal := EncodedData.

Definition sameSign (s t : Sign) : bool := bool_decide (s = t).
Definition invertSign (s : Sign) : Sign := match s with Negative => Positive | Positive => Negative end.

Definition ofClass (sign : Sign) (formatClass : FormatClass) : EncodedData := Encoded 0 0 formatClass sign.

(** A 64-bit coefficient takes three divisions at most. *)
Fixpoint normalizeLoop (fuel : nat) (coefficient exponent : Z) : Z * Z :=
  match fuel with
  | O => (coefficient, exponent)
  | S fuel' => if coefficient >? MaxCoefficient then normalizeLoop fuel' (coefficient / 10) (exponent + 1) else (coefficient, exponent)
  end.

(** EncodedData(Sign, int, uint64_t), which Decimal(Sign, int, uint64_t) calls. *)
Definition make (sign : Sign) (exponent coefficient : Z) : EncodedData :=
  let formatClass := if coefficient =? 0 then ClassZero else ClassNormal in
  let '(coefficient, exponent) :=
    if (ExponentMin <=? exponent) && (exponent <=? ExponentMax) then normalizeLoop 3 coefficient exponent
    else (coefficient, exponent) in
  if exponent >? ExponentMax then Encoded 0 0 ClassInfinity sign
  else if exponent <? ExponentMin then Encoded 0 0 ClassZero sign
  else Encoded coefficient (int16 exponent) formatClass sign.

Definition ofInt32 (i32 : Z) : Decimal := make (if i32 <? 0 then Negative else Positive) 0 (u64 (if i32 <? 0 then - i32 else i32)).

Definition isInfinity (d : Decimal) : bool := bool_decide (m_formatClass d = ClassInfinity).
Definition isNaN (d : Decimal) : bool := bool_decide (m_formatClass d = ClassNaN).
Definition isSpecial (d : Decimal) : bool := isInfinity d || isNaN d.
Definition isFinite (d : Decimal) : bool := negb (isSpecial d).
Definition isZero (d : Decimal) : bool := bool_decide (m_formatClass d = ClassZero).
Definition isNegative (d : Decimal) : bool := sameSign (m_sign d) Negative.
Definition isPositive (d : Decimal) : bool := sameSign (m_sign d) Positive.
Definition setSign (d : Decimal) (s : Sign) : Decimal := Encoded (m_coefficient d) (m_exponent d) (m_formatClass d) s.

Definition exponent (d : Decimal) : option Z := _ ← ASSERT (isFinite d); Some (m_exponent d).

Definition infinity (sign : Sign) : Decimal := ofClass sign ClassInfinity.
Definition nan : Decimal := ofClass Positive ClassNaN.
Definition zero (sign : Sign) : Decimal := ofClass sign ClassZero.

Definition negate (d : Decimal) : Decimal := if isNaN d then d else setSign d (invertSign (m_sign d)).
Definition abs (d : Decimal) : Decimal := setSign d Positive.

(** ** SpecialValueHandler *)
Inductive HandleResult := BothFinite | BothInfinity | EitherNaN | LHSIsInfinity | RHSIsInfinity.
Inductive Result := ResultIsLHS | ResultIsRHS | ResultIsUnknown.

Definition handle (lhs rhs : Decimal) : option (HandleResult * Result) :=
  if isFinite lhs && isFinite rhs then Some (BothFinite, ResultIsUnknown)
  else
    match m_formatClass lhs, m_formatClass rhs with
    | ClassNaN, _ => Some (EitherNaN, ResultIsLHS)
    | _, ClassNaN => Some (EitherNaN, ResultIsRHS)
    | ClassInfinity, ClassInfinity => Some (BothInfinity, ResultIsUnknown)
    | ClassInfinity, _ => Some (LHSIsInfinity, ResultIsUnknown)
    | _, ClassInfinity => Some (RHSIsInfinity, ResultIsUnknown)
    | _, _ => None
    end.

Definition value (lhs rhs : Decimal) (r : Result) : option Decimal :=
  match r with ResultIsLHS => Some lhs | ResultIsRHS => Some rhs | ResultIsUnknown => None end.

(** ** Aligning *)
Record AlignedOperands := Aligned { lhsCoefficient : Z; rhsCoefficient : Z; alignedExponent : Z }.

(** The operand with the larger exponent is scaled up as far as 18 digits allow, and the
    other down by what is left. *)
Definition alignTo (coefficient otherCoefficient shiftAmount : Z) : option (Z * Z * Z) :=
  let numberOfDigits := countDigits coefficient in
  if numberOfDigits =? 0 then Some (coefficient, otherCoefficient, 0)
  else
    let overflow := numberOfDigits + shiftAmount - Precision in
    if overflow <=? 0 then
      c ← scaleUp coefficient shiftAmount; Some (c, otherCoefficient, 0)
    else
      c ← scaleUp coefficient (shiftAmount - overflow);
      o ← scaleDown otherCoefficient overflow;
      Some (c, o, overflow).

Definition alignOperands (lhs rhs : Decimal) : option AlignedOperands :=
  _ ← ASSERT (isFinite lhs);
  _ ← ASSERT (isFinite rhs);
  lhsExponent ← exponent lhs;
  rhsExponent ← exponent rhs;
  let e := Z.min lhsExponent rhsExponent in
  if lhsExponent >? rhsExponent then
    '(l, r, overflow) ← alignTo (m_coefficient lhs) (m_coefficient rhs) (lhsExponent - rhsExponent);
    Some (Aligned l r (e + overflow))
  else if lhsExponent <? rhsExponent then
    '(r, l, overflow) ← alignTo (m_coefficient rhs) (m_coefficient lhs) (rhsExponent - lhsExponent);
    Some (Aligned l r (e + overflow))
  else Some (Aligned (m_coefficient lhs) (m_coefficient rhs) e).

(** ** Arithmetic *)

(** The end of operator+ and operator-: [result] is an uint64_t. *)
Definition signedResult (lhsSign : Sign) (e result : Z) : Decimal :=
  if 0 <=? int64 result then make lhsSign e result
  else make (invertSign lhsSign) e (u64 (- int64 result)).

Definition add (lhs rhs : Decimal) : option Decimal :=
  let lhsSign := m_sign lhs in
  let rhsSign := m_sign rhs in
  '(h, r) ← handle lhs rhs;
  match h with
  | BothFinite =>
      alignedOperands ← alignOperands lhs rhs;
      let result :=
        u64 (if sameSign lhsSign rhsSign then lhsCoefficient alignedOperands + rhsCoefficient alignedOperands
             else lhsCoefficient alignedOperands - rhsCoefficient alignedOperands) in
      Some (if sameSign lhsSign Negative && sameSign rhsSign Positive && (result =? 0)
            then make Positive (alignedExponent alignedOperands) 0
            else signedResult lhsSign (alignedExponent alignedOperands) result)
  | BothInfinity => Some (if sameSign lhsSign rhsSign then lhs else nan)
  | EitherNaN => value lhs rhs r
  | LHSIsInfinity => Some lhs
  | RHSIsInfinity => Some rhs
  end.

Definition subtract (lhs rhs : Decimal) : option Decimal :=
  let lhsSign := m_sign lhs in
  let rhsSign := m_sign rhs in
  '(h, r) ← handle lhs rhs;
  match h with
  | BothFinite =>
      alignedOperands ← alignOperands lhs rhs;
      let result :=
        u64 (if sameSign lhsSign rhsSign then lhsCoefficient alignedOperands - rhsCoefficient alignedOperands
             else lhsCoefficient alignedOperands + rhsCoefficient alignedOperands) in
      Some (if sameSign lhsSign Negative && sameSign rhsSign Negative && (result =? 0)
            then make Positive (alignedExponent alignedOperands) 0
            else signedResult lhsSign (alignedExponent alignedOperands) result)
  | BothInfinity => Some (if sameSign lhsSign rhsSign then nan else lhs)
  | EitherNaN => value lhs rhs r
  | LHSIsInfinity => Some lhs
  | RHSIsInfinity => Some (infinity (invertSign rhsSign))
  end.

(** while (work.high()): the product has less than 128 bits. *)
Fixpoint reduceLoop (fuel : nat) (work : UInt128) (resultExponent : Z) : option (Z * Z) :=
  if m_high work =? 0 then Some (m_low work, resultExponent)
  else
    match fuel with
    | O => None
    | S fuel' => work ← divide work 10; reduceLoop fuel' work (resultExponent + 1)
    end.

Definition signOfProduct (lhsSign rhsSign : Sign) : Sign := if sameSign lhsSign rhsSign then Positive else Negative.

Definition multiplyDecimal (lhs rhs : Decimal) : option Decimal :=
  let resultSign := signOfProduct (m_sign lhs) (m_sign rhs) in
  '(h, r) ← handle lhs rhs;
  match h with
  | BothFinite =>
      lhsExponent ← exponent lhs;
      rhsExponent ← exponent rhs;
      '(low, resultExponent) ← reduceLoop 20 (multiply (m_coefficient lhs) (m_coefficient rhs)) (lhsExponent + rhsExponent);
      Some (make resultSign resultExponent low)
  | BothInfinity => Some (infinity resultSign)
  | EitherNaN => value lhs rhs r
  | LHSIsInfinity => Some (if isZero rhs then nan else infinity resultSign)
  | RHSIsInfinity => Some (if isZero lhs then nan else infinity resultSign)
  end.

(** while (remainder < divisor) *)
Fixpoint bringDown (fuel : nat) (remainder divisor result resultExponent : Z) : option (Z * Z * Z) :=
  if remainder <? divisor then
    match fuel with
    | O => None
    | S fuel' => bringDown fuel' (u64 (remainder * 10)) divisor (u64 (result * 10)) (resultExponent - 1)
    end
  else Some (remainder, result, resultExponent).

(** while (result < MaxCoefficient / 100) *)
Fixpoint divisionLoop (fuel : nat) (remainder divisor res resultExponent : Z) : result (Z * Z * Z) :=
  if res <? MaxCoefficient / 100 then
    match fuel with
    | O => OutOfFuel
    | S fuel' =>
        '(remainder, res, resultExponent) ← lift (bringDown 20 remainder divisor res resultExponent);
        let res := u64 (res + remainder / divisor) in
        let remainder := remainder mod divisor in
        if remainder =? 0 then Ok (remainder, res, resultExponent)
        else divisionLoop fuel' remainder divisor res resultExponent
    end
  else Ok (remainder, res, resultExponent).

Definition divideDecimal (lhs rhs : Decimal) : result Decimal :=
  let resultSign := signOfProduct (m_sign lhs) (m_sign rhs) in
  '(h, r) ← lift (handle lhs rhs);
  match h with
  | BothFinite =>
      if isZero rhs then Ok (if isZero lhs then nan else infinity resultSign)
      else
        lhsExponent ← lift (exponent lhs);
        rhsExponent ← lift (exponent rhs);
        let resultExponent := lhsExponent - rhsExponent in
        if isZero lhs then Ok (make resultSign resultExponent 0)
        else
          let divisor := m_coefficient rhs in
          '(remainder, res, resultExponent) ← divisionLoop 40 (m_coefficient lhs) divisor 0 resultExponent;
          Ok (make resultSign resultExponent (if remainder >? divisor / 2 then u64 (res + 1) else res))
  | BothInfinity => Ok nan
  | EitherNaN => lift (value lhs rhs r)
  | LHSIsInfinity => Ok (infinity resultSign)
  | RHSIsInfinity => Ok (zero resultSign)
  end.

(** ** Comparison *)
Definition compareTo (lhs rhs : Decimal) : option Decimal :=
  result ← subtract lhs rhs;
  Some (match m_formatClass result with
        | ClassInfinity => if isNegative result then ofInt32 (-1) else ofInt32 1
        | ClassNaN | ClassNormal => result
        | ClassZero => zero Positive
        end).

Definition equal (lhs rhs : Decimal) : option bool :=
  if bool_decide (lhs = rhs) then Some true else result ← compareTo lhs rhs; Some (isZero result).
Definition notEqual (lhs rhs : Decimal) : option bool :=
  if bool_decide (lhs = rhs) then Some false
  else result ← compareTo lhs rhs; Some (if isNaN result then false else negb (isZero result)).
Definition less (lhs rhs : Decimal) : option bool :=
  result ← compareTo lhs rhs; Some (if isNaN result then false else negb (isZero result) && isNegative result).
Definition lessOrEqual (lhs rhs : Decimal) : option bool :=
  if bool_decide (lhs = rhs) then Some true
  else result ← compareTo lhs rhs; Some (if isNaN result then false else isZero result || isNegative result).
Definition greater (lhs rhs : Decimal) : option bool :=
  result ← compareTo lhs rhs; Some (if isNaN result then false else negb (isZero result) && isPositive result).
Definition greaterOrEqual (lhs rhs : Decimal) : option bool :=
  if bool_decide (lhs = rhs) then Some true
  else result ← compareTo lhs rhs; Some (if isNaN result then false else isZero result || negb (isNegative result)).

(** ** Rounding *)

(** The last of the dropped digits is kept. *)
Definition dropDigits (d : Decimal) (numberOfDropDigits : Z) : option Z := scaleDown (m_coefficient d) (numberOfDropDigits - 1).

Definition ceiling (d : Decimal) : option Decimal :=
  if isSpecial d then Some d
  else
    e ← exponent d;
    if 0 <=? e then Some d
    else
      let numberOfDropDigits := - e in
      if countDigits (m_coefficient d) <? numberOfDropDigits then Some (if isPositive d then ofInt32 1 else zero Positive)
      else
        result ← dropDigits d numberOfDropDigits;
        let result := if sameSign (m_sign d) Positive && (result mod 10 >? 0) then u64 (result + 10) else result in
        Some (make (m_sign d) 0 (result / 10)).

Definition floor (d : Decimal) : option Decimal :=
  if isSpecial d then Some d
  else
    e ← exponent d;
    if 0 <=? e then Some d
    else
      let numberOfDropDigits := - e in
      if countDigits (m_coefficient d) <? numberOfDropDigits then Some (if isPositive d then zero Positive else ofInt32 (-1))
      else
        result ← dropDigits d numberOfDropDigits;
        let result := if isNegative d && (result mod 10 >? 0) then u64 (result + 10) else result in
        Some (make (m_sign d) 0 (result / 10)).

Definition round (d : Decimal) : option Decimal :=
  if isSpecial d then Some d
  else
    e ← exponent d;
    if 0 <=? e then Some d
    else
      let numberOfDropDigits := - e in
      if countDigits (m_coefficient d) <? numberOfDropDigits then Some (zero Positive)
      else
        result ← dropDigits d numberOfDropDigits;
        let result := if result mod 10 >=? 5 then u64 (result + 10) else result in
        Some (make (m_sign d) 0 (result / 10)).

Definition remainder (lhs rhs : Decimal) : result Decimal :=
  quotient ← divideDecimal lhs rhs;
  if isSpecial quotient then Ok quotient
  else
    n ← lift (if isNegative quotient then ceiling quotient else floor quotient);
    product ← lift (multiplyDecimal n rhs);
    lift (subtract lhs product).

(** ** Strings: lists of UTF-16 code units *)

Definition isDigit (c : Z) : bool := (ch "0" <=? c) && (c <=? ch "9").

Inductive ScanState := StateDigit | StateDot | StateDotDigit | StateE | StateEDigit | StateESign | StateSign | StateStart | StateZero.

Record Scan := MakeScan {
  s_exponent : Z; s_exponentSign : Sign; s_numberOfDigits : Z; s_numberOfDigitsAfterDot : Z; s_numberOfExtraDigits : Z;
  s_sign : Sign; s_state : ScanState; s_accumulator : Z }.

Definition newScan : Scan := MakeScan 0 Positive 0 0 0 Positive StateStart 0.

Definition goto (s : Scan) (next : ScanState) : Scan :=
  MakeScan (s_exponent s) (s_exponentSign s) (s_numberOfDigits s) (s_numberOfDigitsAfterDot s) (s_numberOfExtraDigits s) (s_sign s) next
    (s_accumulator s).
Definition withExponent (s : Scan) (e : Z) : Scan :=
  MakeScan e (s_exponentSign s) (s_numberOfDigits s) (s_numberOfDigitsAfterDot s) (s_numberOfExtraDigits s) (s_sign s) StateEDigit
    (s_accumulator s).
Definition withExponentSign (s : Scan) (sign : Sign) : Scan :=
  MakeScan (s_exponent s) sign (s_numberOfDigits s) (s_numberOfDigitsAfterDot s) (s_numberOfExtraDigits s) (s_sign s) StateESign
    (s_accumulator s).
Definition withSign (s : Scan) (sign : Sign) : Scan :=
  MakeScan (s_exponent s) (s_exponentSign s) (s_numberOfDigits s) (s_numberOfDigitsAfterDot s) (s_numberOfExtraDigits s) sign StateSign
    (s_accumulator s).
Definition firstDigit (s : Scan) (c : Z) : Scan :=
  MakeScan (s_exponent s) (s_exponentSign s) 1 (s_numberOfDigitsAfterDot s) (s_numberOfExtraDigits s) (s_sign s) StateDigit (c - ch "0").

(** accumulator *= 10; accumulator += ch - '0'; *)
Definition accumulate (s : Scan) (c : Z) : Z := u64 (u64 (s_accumulator s * 10) + (c - ch "0")).

(** A digit before the dot. *)
Definition digit (s : Scan) (c : Z) : Scan :=
  if s_numberOfDigits s <? Precision then
    MakeScan (s_exponent s) (s_exponentSign s) (s_numberOfDigits s + 1) (s_numberOfDigitsAfterDot s) (s_numberOfExtraDigits s)
      (s_sign s) StateDigit (accumulate s c)
  else
    MakeScan (s_exponent s) (s_exponentSign s) (s_numberOfDigits s) (s_numberOfDigitsAfterDot s) (s_numberOfExtraDigits s + 1)
      (s_sign s) StateDigit (s_accumulator s).

(** A digit after the dot; beyond the precision it is dropped. *)
Definition dotDigit (s : Scan) (c : Z) : Scan :=
  if s_numberOfDigits s <? Precision then
    MakeScan (s_exponent s) (s_exponentSign s) (s_numberOfDigits s + 1) (s_numberOfDigitsAfterDot s + 1) (s_numberOfExtraDigits s)
      (s_sign s) StateDotDigit (accumulate s c)
  else goto s StateDotDigit.

Definition isE (c : Z) : bool := (c =? ch "E") || (c =? ch "e").
Definition isNonZeroDigit (c : Z) : bool := (ch "1" <=? c) && (c <=? ch "9").

(** A character: the next state, or what is returned. *)
Definition step (s : Scan) (c : Z) : Scan + Decimal :=
  match s_state s with
  | StateDigit =>
      if isDigit c then inl (digit s c)
      else if c =? ch "." then inl (goto s StateDot)
      else if isE c then inl (goto s StateE)
      else inr nan
  | StateDot | StateDotDigit =>
      if isDigit c then inl (dotDigit s c)
      else if isE c then inl (goto s StateE)
      else inr nan
  | StateE =>
      if c =? ch "+" then inl (withExponentSign s Positive)
      else if c =? ch "-" then inl (withExponentSign s Negative)
      else if isDigit c then inl (withExponent s (c - ch "0"))
      else inr nan
  | StateEDigit =>
      if isDigit c then
        let e := s_exponent s * 10 + (c - ch "0") in
        if e >? ExponentMax + Precision then
          inr (if negb (s_accumulator s =? 0) then
                 if sameSign (s_exponentSign s) Negative then zero Positive else infinity (s_sign s)
               else zero (s_sign s))
        else inl (withExponent s e)
      else inr nan
  | StateESign => if isDigit c then inl (withExponent s (c - ch "0")) else inr nan
  | StateSign =>
      if isNonZeroDigit c then inl (firstDigit s c)
      else if c =? ch "0" then inl (goto s StateZero)
      else inr nan
  | StateStart =>
      if isNonZeroDigit c then inl (firstDigit s c)
      else if c =? ch "-" then inl (withSign s Negative)
      else if c =? ch "+" then inl (withSign s Positive)
      else if c =? ch "0" then inl (goto s StateZero)
      else if c =? ch "." then inl (goto s StateDot)
      else inr nan
  | StateZero =>
      if c =? ch "0" then inl s
      else if isNonZeroDigit c then inl (firstDigit s c)
      else if c =? ch "." then inl (goto s StateDot)
      else if isE c then inl (goto s StateE)
      else inr nan
  end.

(** Behind the loop. *)
Definition finish (s : Scan) : option Decimal :=
  match s_state s with
  | StateZero => Some (zero (s_sign s))
  | StateDigit | StateEDigit | StateDotDigit =>
      let resultExponent :=
        s_exponent s * (if sameSign (s_exponentSign s) Negative then -1 else 1) - s_numberOfDigitsAfterDot s + s_numberOfExtraDigits s in
      if resultExponent <? ExponentMin then Some (zero Positive)
      else
        let overflow := resultExponent - ExponentMax + 1 in
        if overflow >? 0 then
          if overflow + s_numberOfDigits s - s_numberOfDigitsAfterDot s >? Precision then Some (infinity (s_sign s))
          else
            accumulator ← scaleUp (s_accumulator s) overflow;
            Some (make (s_sign s) (resultExponent - overflow) accumulator)
        else Some (make (s_sign s) resultExponent (s_accumulator s))
  | _ => Some nan
  end.

Fixpoint scanLoop (s : Scan) (str : list Z) : Scan + Decimal :=
  match str with
  | [] => inl s
  | c :: str' => match step s c with inl s' => scanLoop s' str' | inr d => inr d end
  end.
Definition fromString (str : list Z) : option Decimal :=
  match scanLoop newScan str with inl s => finish s | inr d => Some d end.

Definition DBL_DIG : Z := 15.

(** while (countDigits(coefficient) > maxDigits): the coefficient, the exponent and the
    last digit dropped. *)
Fixpoint limitLoop (fuel : nat) (coefficient e lastDigit : Z) : Z * Z * Z :=
  match fuel with
  | O => (coefficient, e, lastDigit)
  | S fuel' =>
      if countDigits coefficient >? DBL_DIG then limitLoop fuel' (coefficient / 10) (e + 1) (coefficient mod 10)
      else (coefficient, e, lastDigit)
  end.

Fixpoint stripLoop (fuel : nat) (coefficient e : Z) : Z * Z :=
  match fuel with
  | O => (coefficient, e)
  | S fuel' =>
      if (e <? 0) && negb (coefficient =? 0) && (coefficient mod 10 =? 0) then stripLoop fuel' (coefficient / 10) (e + 1)
      else (coefficient, e)
  end.

(** The digits that are printed, and their exponent: at most 15 below the unit. *)
Definition printedDigits (coefficient e : Z) : Z * Z :=
  if e <? 0 then
    let '(coefficient, e, lastDigit) := limitLoop 20 coefficient e 0 in
    stripLoop 20 (if lastDigit >=? 5 then u64 (coefficient + 1) else coefficient) e
  else (coefficient, e).

(** The loop that puts the dot behind digit number adjustedExponent. *)
Fixpoint withDot (digits : list Z) (i adjustedExponent : Z) : list Z :=
  match digits with
  | [] => []
  | d :: digits' => d :: (if i =? adjustedExponent then [ch "."] else []) ++ withDot digits' (i + 1) adjustedExponent
  end.

Definition isZeroDigit (c : Z) : bool := c =? ch "0".

(** while (coefficientLength >= 2 && digits[coefficientLength - 1] == '0') *)
Fixpoint trimLoop (reversed : list Z) : list Z :=
  match reversed with
  | d :: rest => if isZeroDigit d && Nat.leb 1 (length rest) then trimLoop rest else reversed
  | [] => reversed
  end.

Definition signPrefix (d : Decimal) : list Z := if sameSign (m_sign d) Negative then [ch "-"] else [].

Definition toString (d : Decimal) : option (list Z) :=
  match m_formatClass d with
  | ClassInfinity => Some (if sameSign (m_sign d) Negative then units "-Infinity" else units "Infinity")
  | ClassNaN => Some (units "NaN")
  | ClassNormal | ClassZero =>
      originalExponent ← exponent d;
      let '(coefficient, originalExponent) := printedDigits (m_coefficient d) originalExponent in
      let digits := numberToString coefficient in
      let adjustedExponent := originalExponent + Z.of_nat (length digits) - 1 in
      Some (signPrefix d ++
        if (originalExponent <=? 0) && (-6 <=? adjustedExponent) then
          if originalExponent =? 0 then digits
          else if 0 <=? adjustedExponent then withDot digits 0 adjustedExponent
          else units "0." ++ replicate (Z.to_nat (- (adjustedExponent + 1))) (ch "0") ++ digits
        else
          match rev (trimLoop (rev digits)) with
          | [] => []
          | d0 :: more =>
              [d0] ++ (match more with [] => [] | _ => ch "." :: more end) ++
              (if adjustedExponent =? 0 then []
               else (if adjustedExponent <? 0 then units "e" else units "e+") ++ signedToString adjustedExponent)
          end)
  end.
