(* ===== verification/DecimalArithmetic.v ===== *)
(** * Decimal: the integer arithmetic under it

    The 128-bit product and quotient, counting digits, scaling by powers of ten and
    normalising a coefficient are what their names say, without overflow. *)

From S2P Require Import Prelude Digits Decimal.

(** ** Words *)

Definition isU64 (z : Z) : Prop := 0 <= z < 2 ^ 64.
Definition isU32 (z : Z) : Prop := 0 <= z < 2 ^ 32.

Lemma u64_small (z : Z) : isU64 z -> u64 z = z.
Proof. intros H. by apply Z.mod_small. Qed.
Lemma u32_small (z : Z) : isU32 z -> u32 z = z.
Proof. intros H. by apply Z.mod_small. Qed.

Lemma u64_isU64 (z : Z) : isU64 (u64 z).
Proof. unfold isU64, u64. apply Z.mod_pos_bound. lia. Qed.
#[export] Hint Resolve u64_isU64 : core.

Lemma highUInt32_ok (x : Z) : isU64 x -> highUInt32 x = x / 2 ^ 32 /\ isU32 (highUInt32 x).
Proof.
  intros [H0 H1]. unfold highUInt32. rewrite Z.shiftr_div_pow2 by lia. assert (H : isU32 (x / 2 ^ 32)).
  { split; [apply Z.div_pos; lia | apply Z.div_lt_upper_bound; lia]. }
  by rewrite u32_small.
Qed.

Lemma lowUInt32_ok (x : Z) : lowUInt32 x = x mod 2 ^ 32 /\ isU32 (lowUInt32 x).
Proof.
  unfold lowUInt32. change (Z.shiftl 1 32 - 1) with (Z.ones 32). rewrite Z.land_ones by lia. unfold u32. rewrite Z.mod_mod by lia.
  split; [done | apply Z.mod_pos_bound; lia].
Qed.

Lemma makeUInt64_ok (low high : Z) : isU32 low -> makeUInt64 low high = low + high * 2 ^ 32.
Proof.
  intros H. unfold makeUInt64. rewrite Z.lor_comm, Z.shiftl_mul_pow2 by lia. rewrite lor_low; [lia | lia | exact H].
Qed.

Lemma word_split (x : Z) : isU64 x ->
  exists h l, highUInt32 x = h /\ lowUInt32 x = l /\ x = h * 2 ^ 32 + l /\ isU32 h /\ isU32 l.
Proof.
  intros H. destruct (highUInt32_ok x H) as [Eh Hh], (lowUInt32_ok x) as [El Hl]. exists (highUInt32 x), (lowUInt32 x).
  split; [done |]. split; [done |]. split; [| done]. rewrite Eh, El. pose proof (Z.div_mod x (2 ^ 32)). lia.
Qed.

(** ** Products of two 64-bit numbers *)

Lemma mul_u32 (a b : Z) : isU32 a -> isU32 b -> 0 <= a * b <= (2 ^ 32 - 1) * (2 ^ 32 - 1).
Proof. intros [Ha0 Ha] [Hb0 Hb]. split; [nia |]. apply Z.mul_le_mono_nonneg; lia. Qed.

Lemma multiplyHigh_ok (u v : Z) : isU64 u -> isU64 v -> multiplyHigh u v = u * v / 2 ^ 64.
Proof.
  intros Hu Hv. destruct (word_split u Hu) as (uh & ul & Euh & Eul & -> & Huh & Hul). destruct (word_split v Hv) as (vh & vl & Evh & Evl & -> & Hvh & Hvl).
  unfold multiplyHigh. rewrite Euh, Eul, Evh, Evl. clear Hu Hv Euh Eul Evh Evl.
  pose proof (mul_u32 ul vl Hul Hvl) as B1. pose proof (mul_u32 uh vl Huh Hvl) as B2.
  pose proof (mul_u32 ul vh Hul Hvh) as B3. pose proof (mul_u32 uh vh Huh Hvh) as B4.
  rewrite !(u64_small (ul * vl)), !(u64_small (uh * vl)), !(u64_small (ul * vh)), !(u64_small (uh * vh)) by (unfold isU64; lia).
  destruct (word_split (ul * vl)) as (p & p0 & -> & _ & Ep & Hp & Hp0); [unfold isU64; lia |].
  unfold isU32 in *.
  rewrite (u64_small (uh * vl + p)) by (unfold isU64; lia).
  destruct (word_split (uh * vl + p)) as (q & r & -> & -> & Eq & Hq & Hr); [unfold isU64; lia |]. unfold isU32 in *.
  rewrite (u64_small (ul * vh + r)) by (unfold isU64; lia).
  destruct (word_split (ul * vh + r)) as (s & t & -> & _ & Es & Hs & Ht); [unfold isU64; lia |]. unfold isU32 in *.
  assert (E : (uh * 2 ^ 32 + ul) * (vh * 2 ^ 32 + vl) = (uh * vh + q + s) * 2 ^ 64 + (t * 2 ^ 32 + p0)) by lia.
  assert (B : 0 <= (uh * vh + q + s) < 2 ^ 64).
  { split; [lia |]. assert ((uh * 2 ^ 32 + ul) * (vh * 2 ^ 32 + vl) <= (2 ^ 64 - 1) * (2 ^ 64 - 1)); [apply Z.mul_le_mono_nonneg; lia | lia]. }
  rewrite (u64_small (uh * vh + q)), u64_small by (unfold isU64; lia). rewrite E.
  rewrite Z.div_add_l by lia. rewrite (Z.div_small (t * 2 ^ 32 + p0)); lia.
Qed.

(** The 128-bit number. *)
Definition val128 (x : UInt128) : Z := m_low x + m_high x * 2 ^ 64.
Definition isU128 (x : UInt128) : Prop := isU64 (m_low x) /\ isU64 (m_high x).

Lemma multiply_ok (u v : Z) : isU64 u -> isU64 v -> val128 (multiply u v) = u * v /\ isU128 (multiply u v).
Proof.
  intros Hu Hv. unfold multiply, val128, isU128. cbn [m_low m_high]. rewrite multiplyHigh_ok by done. unfold u64, isU64 in *.
  pose proof (Z.div_mod (u * v) (2 ^ 64)). split; [lia |]. split; [apply Z.mod_pos_bound; lia |].
  split; [apply Z.div_pos; nia |]. apply Z.div_lt_upper_bound; [lia |].
  assert (u * v <= (2 ^ 64 - 1) * (2 ^ 64 - 1)) by (apply Z.mul_le_mono_nonneg; lia). lia.
Qed.

(** A step of the long division: the word of the quotient and the next remainder. *)
Lemma divideStep (word remainder divisor : Z) :
  isU32 word -> 0 <= remainder < divisor -> isU32 divisor ->
  exists q r, u32 (makeUInt64 word remainder / divisor) = q /\ u32 (makeUInt64 word remainder mod divisor) = r /\
    word + remainder * 2 ^ 32 = q * divisor + r /\ isU32 q /\ 0 <= r < divisor.
Proof.
  intros Hw Hr Hd. rewrite makeUInt64_ok by done. set (x := word + remainder * 2 ^ 32). unfold isU32 in *.
  assert (Hq : 0 <= x / divisor < 2 ^ 32).
  { split; [apply Z.div_pos; lia |]. apply Z.div_lt_upper_bound; [lia |]. unfold x. nia. }
  assert (Hm := Z.mod_pos_bound x divisor ltac:(lia)). exists (x / divisor), (x mod divisor).
  rewrite !u32_small by (unfold isU32; lia). pose proof (Z.div_mod x divisor). lia.
Qed.

Lemma divide_ok (x : UInt128) (divisor : Z) :
  isU128 x -> isU32 divisor -> divisor <> 0 ->
  exists y, divide x divisor = Some y /\ isU128 y /\ val128 y = val128 x / divisor.
Proof.
  intros [Hl Hh] Hd Hd0. unfold divide. rewrite (proj2 (Z.eqb_neq divisor 0)) by done. cbn [negb ASSERT mbind option_bind].
  destruct (Z.eqb_spec (m_high x) 0) as [E | E].
  - eexists. split; [done |]. unfold isU128, val128, isU64, isU32 in *. cbn [m_low m_high]. rewrite E, !Z.mul_0_l, !Z.add_0_r.
    split; [| done]. split; [| lia]. split; [apply Z.div_pos; lia |]. apply Z.div_lt_upper_bound; nia.
  - destruct (word_split (m_high x) Hh) as (w3 & w2 & -> & -> & E1 & H3 & H2), (word_split (m_low x) Hl) as (w1 & w0 & -> & -> & E0 & H1 & H0).
    cbn [divideLoop].
    destruct (divideStep w3 0 divisor) as (q3 & r3 & -> & -> & D3 & Q3 & R3); [done | unfold isU32 in *; lia | done |].
    destruct (divideStep w2 r3 divisor) as (q2 & r2 & -> & -> & D2 & Q2 & R2); [done.. |].
    destruct (divideStep w1 r2 divisor) as (q1 & r1 & -> & -> & D1 & Q1 & R1); [done.. |].
    destruct (divideStep w0 r1 divisor) as (q0 & r0 & -> & _ & D0 & Q0 & R0); [done.. |].
    eexists. split; [done |]. unfold isU128, val128. cbn [m_low m_high]. rewrite !makeUInt64_ok by done. unfold isU64, isU32 in *.
    split; [lia |]. rewrite E0, E1. apply (Z.div_unique_pos _ _ _ r0); [lia |].
    transitivity (w0 + 2 ^ 32 * (w1 + 2 ^ 32 * (w2 + 2 ^ 32 * (w3 + 0 * 2 ^ 32)))); [lia |]. rewrite D3.
    transitivity (w0 + 2 ^ 32 * (w1 + 2 ^ 32 * (w2 + r3 * 2 ^ 32)) + 2 ^ 96 * (q3 * divisor)); [lia |]. rewrite D2.
    transitivity (w0 + 2 ^ 32 * (w1 + r2 * 2 ^ 32) + 2 ^ 64 * (q2 * divisor) + 2 ^ 96 * (q3 * divisor)); [lia |]. rewrite D1.
    transitivity ((w0 + r1 * 2 ^ 32) + 2 ^ 32 * (q1 * divisor) + 2 ^ 64 * (q2 * divisor) + 2 ^ 96 * (q3 * divisor)); [lia |]. rewrite D0.
    lia.
Qed.

(** ** Counting digits *)

Lemma countDigitsLoop_ok (fuel : nat) (x n : Z) :
  isU64 x -> 0 <= n <= 19 -> Z.of_nat fuel = 20 - n ->
  exists m, countDigitsLoop fuel x (10 ^ n) n = m /\ n <= m <= 20 /\ x < 10 ^ m /\ (m = n \/ 10 ^ (m - 1) <= x).
Proof.
  intros Hx. revert n. induction fuel as [| fuel IH]; intros n Hn Hf; [lia |]. cbn [countDigitsLoop]. rewrite Z.geb_leb.
  destruct (Z.leb_spec (10 ^ n) x) as [L | L]; [| exists n; split; [done | split; [lia | split; [done | by left]]]].
  rewrite Z.geb_leb. destruct (Z.leb_spec ((2 ^ 64 - 1) / 10) (10 ^ n)) as [G | G].
  - assert (n = 19) as ->.
    { assert (18 < n); [| lia]. apply pow10_lt_inv; [lia |]. eapply Z.lt_le_trans; [| exact G]. by vm_compute. }
    exists 20. unfold isU64 in Hx. split; [done |]. split; [lia |]. split; [lia |]. right. exact L.
  - assert (n <= 18) as B.
    { assert (n < 19); [| lia]. apply pow10_lt_inv; [lia |]. eapply Z.lt_trans; [exact G |]. by vm_compute. }
    assert (10 ^ (n + 1) <= 10 ^ 19) as C by (apply pow10_le; lia). pose proof (pow10_pos n).
    rewrite u64_small by (unfold isU64; rewrite <- pow10_succ by lia; split; [pose proof (pow10_pos (n + 1)); lia | lia]).
    rewrite <- pow10_succ by lia. destruct (IH (n + 1)) as (m & -> & Hm & Hlt & Hor); [lia.. |].
    exists m. split; [done |]. split; [lia |]. split; [done |]. right. destruct Hor as [-> |]; [| done]. by rewrite Z.add_simpl_r.
Qed.

Lemma countDigits_ok (x : Z) :
  isU64 x -> 0 <= countDigits x <= 20 /\ x < 10 ^ countDigits x /\ (countDigits x = 0 -> x = 0) /\
             (0 < x -> 0 < countDigits x /\ 10 ^ (countDigits x - 1) <= x).
Proof.
  intros Hx. destruct (countDigitsLoop_ok 20 x 0 Hx) as (m & E & Hm & Hlt & Hor); [lia.. |].
  change (countDigits x = m) in E. rewrite !E. unfold isU64 in Hx.
  split; [lia |]. split; [done |]. split; [intros ->; lia |]. intros Hp. destruct Hor as [-> | Hor]; [lia |].
  split; [| done]. destruct (Z.eq_dec m 0) as [-> |]; lia.
Qed.

Lemma countDigits_zero : countDigits 0 = 0.
Proof. done. Qed.

Lemma countDigits_le (x n : Z) : isU64 x -> 0 <= n -> x < 10 ^ n -> countDigits x <= n.
Proof.
  intros Hx Hn Hlt. destruct (countDigits_ok x Hx) as (Hm & _ & _ & Hp). destruct (Z.eq_dec x 0) as [-> |]; [by rewrite countDigits_zero |].
  unfold isU64 in Hx. destruct Hp as [H0 Hp]; [lia |]. assert (countDigits x - 1 < n); [apply pow10_lt_inv; lia | lia].
Qed.

(** ** Scaling *)

Lemma scaleDownLoop_ok (n : nat) (x : Z) : 0 <= x -> scaleDownLoop n x = x / 10 ^ Z.of_nat n.
Proof.
  revert x. induction n as [| n IH]; intros x Hx; cbn [scaleDownLoop]; [by rewrite Z.div_1_r |].
  rewrite Nat2Z.inj_succ, Z.pow_succ_r by lia. rewrite <- Z.div_div by (try apply pow10_pos; lia).
  rewrite <- IH by (apply Z.div_pos; lia). destruct (Z.eqb_spec x 0) as [-> | _]; [| done]. destruct n; done.
Qed.

Lemma scaleDown_ok (x n : Z) : 0 <= x -> 0 <= n -> scaleDown x n = Some (x / 10 ^ n).
Proof.
  intros Hx Hn. unfold scaleDown. rewrite (proj2 (Z.leb_le 0 n)) by done. cbn. rewrite scaleDownLoop_ok by done. by rewrite Z2Nat.id.
Qed.

Lemma scaleUp_ok (x n : Z) : 0 <= n < 18 -> scaleUp x n = Some (u64 (x * 10 ^ n)).
Proof.
  intros Hn. assert (n ∈ [0; 1; 2; 3; 4; 5; 6; 7; 8; 9; 10; 11; 12; 13; 14; 15; 16; 17]) as H by (apply (elem_of_seqZ 0 18); lia).
  repeat (apply elem_of_cons in H as [-> | H]; [reflexivity |]). by apply not_elem_of_nil in H.
Qed.

Lemma scaleUp_typed (x n y : Z) : scaleUp x n = Some y -> isU64 y.
Proof.
  intros E. assert (0 <= n < 18).
  { unfold scaleUp in E. change Precision with 18 in E. destruct (Z.leb_spec 0 n); [| done]. destruct (Z.ltb_spec n 18); [lia | done]. }
  rewrite scaleUp_ok in E by done. injection E as <-. done.
Qed.

(** ** Normalising a coefficient *)

Lemma normalizeLoop_ok (c e : Z) : isU64 c ->
  exists j, normalizeLoop 3 c e = (c / 10 ^ j, e + j) /\ 0 <= j <= 3 /\ 0 <= c / 10 ^ j <= MaxCoefficient /\
            (c <= MaxCoefficient -> j = 0) /\ (MaxCoefficient < c -> 10 ^ 16 <= c / 10 ^ j).
Proof.
  intros Hc. unfold isU64 in Hc. cbn [normalizeLoop]. rewrite !Z.gtb_ltb, !Z.div_div by lia. unfold MaxCoefficient.
  change (10 * 10 * 10) with 1000. change (10 * 10) with 100. change (10 ^ 16) with 10000000000000000.
  destruct (Z.ltb_spec 99999999999999999 c); [| exists 0; rewrite Z.add_0_r; change (10 ^ 0) with 1; rewrite Z.div_1_r; split; [done | lia]].
  assert (D : 10000000000000000 <= c / 10) by (apply Z.div_le_lower_bound; lia).
  destruct (Z.ltb_spec 99999999999999999 (c / 10)) as [H1 | H1]; [| exists 1; change (10 ^ 1) with 10; split; [done | lia]].
  assert (D2 : 10000000000000000 <= c / 100) by (change 100 with (10 * 10); rewrite <- Z.div_div by lia; apply Z.div_le_lower_bound; lia).
  destruct (Z.ltb_spec 99999999999999999 (c / 100)) as [H2 | H2]; [| exists 2; change (10 ^ 2) with 100; split; [f_equal; lia | lia]].
  assert (D3 : 10000000000000000 <= c / 1000) by (change 1000 with (100 * 10); rewrite <- Z.div_div by lia; apply Z.div_le_lower_bound; lia).
  exists 3. change (10 ^ 3) with 1000. split; [f_equal; lia |]. assert (c / 1000 < 99999999999999999) by (apply Z.div_lt_upper_bound; lia). lia.
Qed.
