(* ===== verification/DecimalValue.v ===== *)
(** * Decimal: what a Decimal stands for

    The exact value of a finite Decimal, in units of 10^-1023; the invariant of its fields;
    what building a Decimal from a coefficient does to them; and what aligning two operands
    keeps of their values. *)

From S2P Require Import Prelude Digits Decimal DecimalArithmetic.

Lemma cut_bounds (u a : Z) : 0 < u -> a / u * u <= a < a / u * u + u.
Proof. intros Hu. pose proof (Z.div_mod a u). pose proof (Z.mod_pos_bound a u). lia. Qed.

(** ** The invariant and the value *)

Definition exponentRange (e : Z) : Prop := -1023 <= e <= 1023.

(** The fields fit the class. *)
Definition isDecimal (d : Decimal) : Prop :=
  match m_formatClass d with
  | ClassNormal => 1 <= m_coefficient d <= MaxCoefficient /\ exponentRange (m_exponent d)
  | ClassZero => m_coefficient d = 0 /\ exponentRange (m_exponent d)
  | ClassInfinity => m_coefficient d = 0 /\ m_exponent d = 0
  | ClassNaN => m_coefficient d = 0 /\ m_exponent d = 0 /\ m_sign d = Positive
  end.

Definition signed (s : Sign) (z : Z) : Z := match s with Positive => z | Negative => - z end.
Definition unitAt (e : Z) : Z := 10 ^ (e + 1023).
Definition magnitude (d : Decimal) : Z := m_coefficient d * unitAt (m_exponent d).
Definition val (d : Decimal) : Z := signed (m_sign d) (magnitude d).

(** The largest finite magnitude. *)
Definition maxMagnitude : Z := MaxCoefficient * unitAt 1023.

Lemma signed_abs (s : Sign) (z : Z) : Z.abs (signed s z) = Z.abs z.
Proof. destruct s; cbn; lia. Qed.
Lemma signed_invert (s : Sign) (z : Z) : signed (invertSign s) z = - signed s z.
Proof. destruct s; cbn; lia. Qed.
Lemma signed_opp (s : Sign) (z : Z) : signed s (- z) = - signed s z.
Proof. destruct s; cbn; lia. Qed.
Lemma signed_mul (s : Sign) (a b : Z) : signed s (a * b) = signed s a * b.
Proof. destruct s; cbn; lia. Qed.

Lemma unitAt_pos (e : Z) : -1023 <= e -> 0 < unitAt e.
Proof. intros H. apply pow10_pos. lia. Qed.
Lemma unitAt_add (e n : Z) : -1023 <= e -> 0 <= n -> unitAt (e + n) = 10 ^ n * unitAt e.
Proof. intros He Hn. unfold unitAt. rewrite <- Z.pow_add_r by lia. f_equal. lia. Qed.
Lemma unitAt_le (e f : Z) : e <= f -> unitAt e <= unitAt f.
Proof. intros H. apply pow10_le. lia. Qed.
#[export] Hint Resolve unitAt_pos : core.

(** Evaluates the predicates on a Decimal whose class and sign are known. *)
Ltac evaluate_to_bool b :=
  let v := eval vm_compute in b in match v with true => change b with true in * | false => change b with false in * end.
Ltac classify_in T :=
  match T with
  | context [sameSign ?s ?t] => evaluate_to_bool (sameSign s t)
  | context [isNaN (Encoded ?c ?e ?f ?s)] => evaluate_to_bool (isNaN (Encoded c e f s))
  | context [isInfinity (Encoded ?c ?e ?f ?s)] => evaluate_to_bool (isInfinity (Encoded c e f s))
  | context [isZero (Encoded ?c ?e ?f ?s)] => evaluate_to_bool (isZero (Encoded c e f s))
  | context [isFinite (Encoded ?c ?e ?f ?s)] => evaluate_to_bool (isFinite (Encoded c e f s))
  | context [isSpecial (Encoded ?c ?e ?f ?s)] => evaluate_to_bool (isSpecial (Encoded c e f s))
  | context [isNegative (Encoded ?c ?e ?f ?s)] => evaluate_to_bool (isNegative (Encoded c e f s))
  end.
Ltac classify :=
  unfold infinity, zero, nan, ofClass in *;
  repeat match goal with |- ?G => classify_in G | H : ?T |- _ => classify_in T end;
  cbn -[Z.mul Z.add Z.sub Z.pow] in *.

Lemma finite_fields (d : Decimal) : isDecimal d -> isFinite d = true ->
  0 <= m_coefficient d <= MaxCoefficient /\ exponentRange (m_exponent d) /\ exponent d = Some (m_exponent d).
Proof.
  unfold isDecimal, exponent, isFinite, isSpecial, isInfinity, isNaN. destruct (m_formatClass d); cbn; intros H; try done; intros _.
  - destruct H as [H He]. split; [lia |]. by split.
  - destruct H as [-> He]. by split.
Qed.

Lemma finite_zero (d : Decimal) : isDecimal d -> isFinite d = true -> isZero d = (m_coefficient d =? 0).
Proof.
  unfold isDecimal, isFinite, isSpecial, isInfinity, isNaN, isZero. destruct (m_formatClass d); cbn; intros H; try done; intros _.
  - symmetry. apply Z.eqb_neq. lia.
  - by destruct H as [-> _].
Qed.

Lemma coefficient_u64 (c : Z) : 0 <= c <= MaxCoefficient -> isU64 c.
Proof. unfold MaxCoefficient, isU64. lia. Qed.

(** ** Building *)

(** In the range of exponents: j digits are dropped, none if the coefficient fits. *)
Definition droppedDigits (c j : Z) : Prop :=
  0 <= j <= 3 /\ 0 <= c / 10 ^ j <= MaxCoefficient /\ (c <= MaxCoefficient -> j = 0) /\ (MaxCoefficient < c -> 10 ^ 16 <= c / 10 ^ j).

Lemma make_in_range (s : Sign) (e c : Z) : isU64 c -> exponentRange e ->
  exists j, droppedDigits c j /\
    make s e c = if e + j >? 1023 then infinity s else Encoded (c / 10 ^ j) (e + j) (if c =? 0 then ClassZero else ClassNormal) s.
Proof.
  intros Hc He. destruct (normalizeLoop_ok c e Hc) as (j & E & Hj & Hd). exists j. split; [done |].
  unfold make. unfold exponentRange in He. rewrite (proj2 (Z.leb_le ExponentMin e)), (proj2 (Z.leb_le e ExponentMax)) by (unfold ExponentMin, ExponentMax; lia).
  cbn [andb]. rewrite E. unfold ExponentMax, ExponentMin. rewrite !Z.gtb_ltb. destruct (Z.ltb_spec 1023 (e + j)); [done |].
  rewrite (proj2 (Z.ltb_ge (e + j) (-1023))) by lia. f_equal. unfold int16. rewrite Z.mod_small by lia. lia.
Qed.

(** Outside it: infinite above, zero below. *)
Lemma make_out_of_range (s : Sign) (e c : Z) : ~ exponentRange e -> make s e c = if e >? 1023 then infinity s else zero s.
Proof.
  intros He. unfold make, exponentRange, ExponentMin, ExponentMax in *. assert ((-1023 <=? e) && (e <=? 1023) = false) as ->.
  { apply andb_false_iff. rewrite !Z.leb_gt. lia. }
  rewrite !Z.gtb_ltb. destruct (Z.ltb_spec 1023 e); [done |]. by rewrite (proj2 (Z.ltb_lt e (-1023))) by lia.
Qed.

Lemma make_small (s : Sign) (e c : Z) : 0 <= c <= MaxCoefficient -> exponentRange e ->
  make s e c = Encoded c e (if c =? 0 then ClassZero else ClassNormal) s.
Proof.
  intros Hc He. destruct (make_in_range s e c (coefficient_u64 c Hc) He) as (j & (_ & _ & Hj & _) & ->). rewrite Hj by lia.
  unfold exponentRange in He. rewrite Z.add_0_r, Z.gtb_ltb, (proj2 (Z.ltb_ge 1023 e)) by lia. change (10 ^ 0) with 1. by rewrite Z.div_1_r.
Qed.

Lemma make_sign (s : Sign) (e c : Z) : m_sign (make s e c) = s.
Proof.
  unfold make. destruct (if (ExponentMin <=? e) && (e <=? ExponentMax) then normalizeLoop 3 c e else (c, e)) as [c' e'].
  by destruct (e' >? ExponentMax), (e' <? ExponentMin).
Qed.

Lemma infinity_isDecimal (s : Sign) : isDecimal (infinity s).
Proof. done. Qed.
Lemma zero_isDecimal (s : Sign) : isDecimal (zero s).
Proof. unfold isDecimal, exponentRange. cbn. lia. Qed.
Lemma nan_isDecimal : isDecimal nan.
Proof. done. Qed.
#[export] Hint Resolve infinity_isDecimal zero_isDecimal nan_isDecimal : core.

Lemma make_isDecimal (s : Sign) (e c : Z) : isU64 c -> isDecimal (make s e c).
Proof.
  intros Hc. destruct (decide (exponentRange e)) as [He | He].
  - destruct (make_in_range s e c Hc He) as (j & (Hj & Hd & Hs & Hb) & ->). rewrite Z.gtb_ltb. destruct (Z.ltb_spec 1023 (e + j)); [done |].
    unfold isDecimal, exponentRange in *. cbn [m_coefficient m_exponent m_formatClass]. destruct (Z.eqb_spec c 0) as [-> | Hn].
    { split; [apply Z.div_0_l; pose proof (pow10_pos j); lia | lia]. }
    split; [| lia]. split; [| lia]. destruct (Z.le_gt_cases c MaxCoefficient) as [L | L].
    { rewrite (Hs L). change (10 ^ 0) with 1. rewrite Z.div_1_r. unfold isU64 in Hc. lia. }
    specialize (Hb L). lia.
  - rewrite make_out_of_range by done. by destruct (e >? 1023).
Qed.
#[export] Hint Resolve make_isDecimal : core.

(** ** Aligning *)

(** The coefficients of a and b in units of u, the last of which may be cut; then the other
    has eighteen digits and the cut one is far smaller. *)
Definition aligned (u a b x y : Z) : Prop :=
  x = a / u /\ y = b / u /\ 0 <= x < 10 ^ 18 /\ 0 <= y < 10 ^ 18 /\
  ((a = x * u /\ b = y * u) \/ (a = x * u /\ 10 ^ 17 <= x /\ y < 10 ^ 16) \/ (b = y * u /\ 10 ^ 17 <= y /\ x < 10 ^ 16)).

Lemma aligned_swap (u a b x y : Z) : aligned u a b x y -> aligned u b a y x.
Proof. unfold aligned. tauto. Qed.

Lemma alignTo_ok (c o shift : Z) :
  0 <= c <= MaxCoefficient -> 0 <= o <= MaxCoefficient -> 0 < shift ->
  exists c' o' ov, alignTo c o shift = Some (c', o', ov) /\ 0 <= ov <= shift /\ o' = o / 10 ^ ov /\ c' < 10 ^ 18 /\
    c' * 10 ^ ov = c * 10 ^ shift /\ (ov = 0 \/ 10 ^ 17 <= c').
Proof.
  intros Hc Ho Hs. unfold alignTo. destruct (countDigits_ok c (coefficient_u64 c Hc)) as (_ & Hlt & H0 & Hp). cbv zeta.
  assert (Hn : countDigits c <= 17) by (apply countDigits_le; [by apply coefficient_u64 | lia | unfold MaxCoefficient in Hc; lia]).
  destruct (Z.eqb_spec (countDigits c) 0) as [E | E].
  { rewrite (H0 E). exists 0, o, 0. change (10 ^ 0) with 1. rewrite Z.div_1_r. split; [done |]. lia. }
  assert (Hc0 : 0 < c). { destruct (Z.eq_dec c 0) as [-> |]; [by rewrite countDigits_zero in E | lia]. }
  destruct (Hp Hc0) as [Hn0 Hge]. clear Hp H0 E. set (n := countDigits c) in *. change Precision with 18.
  assert (Up : forall k, 0 <= k <= 18 - n -> scaleUp c k = Some (c * 10 ^ k) /\ c * 10 ^ k < 10 ^ 18).
  { intros k Hk. assert (B : c * 10 ^ k < 10 ^ 18).
    { eapply Z.lt_le_trans; [apply Z.mul_lt_mono_pos_r; [apply pow10_pos; lia | exact Hlt] |].
      rewrite <- Z.pow_add_r by lia. apply pow10_le. lia. }
    split; [| done]. rewrite scaleUp_ok by lia. rewrite u64_small; [done |]. pose proof (pow10_pos k). unfold isU64. nia. }
  destruct (Z.leb_spec (n + shift - 18) 0) as [L | L].
  - destruct (Up shift) as [-> B]; [lia |]. cbn. exists (c * 10 ^ shift), o, 0. change (10 ^ 0) with 1. rewrite Z.div_1_r, Z.mul_1_r.
    split; [done |]. lia.
  - destruct (Up (shift - (n + shift - 18))) as [-> B]; [lia |]. cbn [mbind option_bind]. rewrite scaleDown_ok by lia. cbn [mbind option_bind]. eexists _, _, _. split; [done |].
    split; [lia |]. split; [done |]. split; [done |]. split.
    + rewrite <- Z.mul_assoc, <- Z.pow_add_r by lia. f_equal. f_equal. lia.
    + right. replace (shift - (n + shift - 18)) with (18 - n) by lia. replace (10 ^ 17) with (10 ^ (n - 1) * 10 ^ (18 - n)).
      * apply Z.mul_le_mono_nonneg_r; [apply Z.lt_le_incl, pow10_pos; lia | done].
      * rewrite <- Z.pow_add_r by lia. f_equal. lia.
Qed.

(** Aligning two operands of different exponents, the larger first. *)
Lemma alignTo_aligned (c o e f : Z) :
  0 <= c <= MaxCoefficient -> 0 <= o <= MaxCoefficient -> -1023 <= f < e ->
  exists c' o' ov, alignTo c o (e - f) = Some (c', o', ov) /\ f <= f + ov <= e /\
    aligned (unitAt (f + ov)) (c * unitAt e) (o * unitAt f) c' o' /\ (0 < ov -> 10 ^ 18 * unitAt f <= c * unitAt e).
Proof.
  intros Hc Ho Hf. destruct (alignTo_ok c o (e - f)) as (c' & o' & ov & E & Hov & Eo & Hc' & Ec & Hbig); [lia.. |].
  exists c', o', ov. split; [done |]. split; [lia |]. pose proof (unitAt_pos f) as Uf. pose proof (pow10_pos ov) as Pov.
  assert (Ea : c * unitAt e = c' * unitAt (f + ov)).
  { replace e with (f + (e - f)) at 1 by lia. rewrite !unitAt_add by lia. rewrite !Z.mul_assoc. by rewrite Ec. }
  assert (Pu : 0 < unitAt (f + ov)) by (apply unitAt_pos; lia).
  assert (Ho' : 0 <= o' <= MaxCoefficient).
  { rewrite Eo. split; [apply Z.div_pos; lia |]. etransitivity; [| apply Ho]. apply Z.div_le_upper_bound; [lia |]. nia. }
  assert (Eb : o' = o * unitAt f / unitAt (f + ov)) by (rewrite unitAt_add, Z.div_mul_cancel_r by lia; done).
  assert (Hpos : 0 <= c') by nia. unfold MaxCoefficient in *. split.
  - split; [rewrite Ea, Z.div_mul; lia |]. split; [done |]. split; [lia |]. split; [lia |].
    destruct (Z.eq_dec ov 0) as [-> | Hn].
    + left. split; [done |]. rewrite Eo, Z.add_0_r. change (10 ^ 0) with 1. by rewrite Z.div_1_r.
    + right. left. split; [done |]. split; [lia |]. rewrite Eo. apply Z.div_lt_upper_bound; [lia |].
      pose proof (pow10_le 1 ov). lia.
  - intros Hn. rewrite Ea, unitAt_add, Z.mul_assoc by lia. apply Z.mul_le_mono_nonneg_r; [lia |].
    pose proof (pow10_le 1 ov). change (10 ^ 18) with (10 ^ 17 * 10 ^ 1). apply Z.mul_le_mono_nonneg; lia.
Qed.

Lemma alignOperands_ok (l r : Decimal) :
  isDecimal l -> isDecimal r -> isFinite l = true -> isFinite r = true ->
  exists x y e, alignOperands l r = Some (Aligned x y e) /\ exponentRange e /\ aligned (unitAt e) (magnitude l) (magnitude r) x y /\
    (e = Z.min (m_exponent l) (m_exponent r) \/
     (10 ^ 18 * unitAt (Z.min (m_exponent l) (m_exponent r)) <= Z.max (magnitude l) (magnitude r) /\
      Z.min (magnitude l) (magnitude r) <= MaxCoefficient * unitAt (Z.min (m_exponent l) (m_exponent r)))).
Proof.
  intros Hl Hr Fl Fr. destruct (finite_fields l Hl Fl) as (Cl & El & Xl), (finite_fields r Hr Fr) as (Cr & Er & Xr).
  unfold alignOperands. rewrite Fl, Fr, Xl, Xr. cbn [ASSERT mbind option_bind]. unfold magnitude, exponentRange in *. rewrite Z.gtb_ltb.
  destruct (Z.ltb_spec (m_exponent r) (m_exponent l)) as [L | L]; [| destruct (Z.ltb_spec (m_exponent l) (m_exponent r)) as [G | G]].
  - destruct (alignTo_aligned (m_coefficient l) (m_coefficient r) (m_exponent l) (m_exponent r)) as (c & o & ov & -> & Hov & Ha & Hb); [lia.. |].
    cbn. rewrite Z.min_r by lia. eexists _, _, _. split; [done |]. split; [lia |]. split; [done |].
    destruct (Z.eq_dec ov 0) as [-> | Hn]; [left; lia | right]. split; [specialize (Hb ltac:(lia)); lia |].
    etransitivity; [apply Z.le_min_r |]. apply Z.mul_le_mono_nonneg_r; [apply Z.lt_le_incl, unitAt_pos; lia | lia].
  - destruct (alignTo_aligned (m_coefficient r) (m_coefficient l) (m_exponent r) (m_exponent l)) as (c & o & ov & -> & Hov & Ha & Hb); [lia.. |].
    cbn. rewrite Z.min_l by lia. eexists _, _, _. split; [done |]. split; [lia |]. split; [by apply aligned_swap |].
    destruct (Z.eq_dec ov 0) as [-> | Hn]; [left; lia | right]. split; [specialize (Hb ltac:(lia)); lia |].
    etransitivity; [apply Z.le_min_l |]. apply Z.mul_le_mono_nonneg_r; [apply Z.lt_le_incl, unitAt_pos; lia | lia].
  - assert (E : m_exponent l = m_exponent r) by lia. rewrite E, Z.min_id. pose proof (unitAt_pos (m_exponent r)).
    eexists _, _, _. split; [done |]. split; [lia |]. split; [| by left]. unfold aligned, MaxCoefficient in *. rewrite !Z.div_mul by lia. lia.
Qed.
