(* ===== verification/DecimalSum.v ===== *)
(** * Decimal: sums, differences and the order

    The sum and the difference of two finite Decimals are off by less than one unit of the
    last digit of the result, and the comparison operators, which look at the difference,
    decide the order of the values exactly. *)

From S2P Require Import Prelude Digits Decimal DecimalArithmetic DecimalValue.

(** ** The sum of aligned coefficients *)

Lemma magnitude_bounds (d : Decimal) : isDecimal d -> isFinite d = true -> 0 <= magnitude d <= maxMagnitude.
Proof.
  intros Hd Fd. destruct (finite_fields d Hd Fd) as ([C0 C1] & [E0 E1] & _). unfold magnitude, maxMagnitude.
  pose proof (unitAt_pos (m_exponent d)). pose proof (unitAt_le (m_exponent d) 1023). split; [nia |]. apply Z.mul_le_mono_nonneg; lia.
Qed.

(** The sum of the coefficients is the sum of the operands to within less than a unit, and
    has its sign. *)
Lemma aligned_sum (u a b x y : Z) (s t : Sign) :
  0 < u -> aligned u a b x y ->
  let z := signed s x + signed t y in
  let exact := signed s a + signed t b in
  Z.abs z < 2 * 10 ^ 18 /\ Z.abs (z * u - exact) < u /\ Z.sgn z = Z.sgn exact.
Proof.
  intros Hu (-> & -> & Hx & Hy & Hc). pose proof (cut_bounds u a Hu) as Ba. pose proof (cut_bounds u b Hu) as Bb.
  set (x := a / u) in *. set (y := b / u) in *. cbv zeta. split; [destruct s, t; cbn; lia |]. destruct Hc as [[Ea Eb] | [[Ea [Hx' Hy']] | [Eb [Hy' Hx']]]].
  - assert (E : signed s a + signed t b = (signed s x + signed t y) * u) by (rewrite Ea, Eb, !signed_mul; lia).
    rewrite E. split; [lia |]. by rewrite Z.sgn_mul, (Z.sgn_pos u), Z.mul_1_r.
  - assert (x * u = a) by done. split; [destruct s, t; cbn; lia |].
    destruct s, t; cbn; [rewrite !Z.sgn_pos | rewrite !Z.sgn_pos | rewrite !Z.sgn_neg | rewrite !Z.sgn_neg]; nia.
  - assert (y * u = b) by done. split; [destruct s, t; cbn; lia |].
    destruct s, t; cbn; [rewrite !Z.sgn_pos | rewrite !Z.sgn_neg | rewrite !Z.sgn_pos | rewrite !Z.sgn_neg]; nia.
Qed.

(** ** The result *)

Lemma sameSign_spec (s t : Sign) : sameSign s t = true <-> s = t.
Proof. apply bool_decide_eq_true. Qed.

Lemma sum_of_signs (s t : Sign) (x y : Z) : (if sameSign s t then x + y else x - y) = signed s (signed s x + signed t y).
Proof. unfold sameSign. case_bool_decide; destruct s, t; try done; cbn; lia. Qed.

Lemma signedResult_ok (s : Sign) (e z : Z) : Z.abs z < 2 * 10 ^ 18 ->
  exists s', signedResult s e (u64 z) = make s' e (Z.abs z) /\ signed s' (Z.abs z) = signed s z.
Proof.
  intros Hz. unfold signedResult. assert (int64 (u64 z) = z) as ->.
  { unfold int64, u64. rewrite Zplus_mod_idemp_l. rewrite Z.mod_small by lia. lia. }
  destruct (Z.leb_spec 0 z) as [L | L].
  - exists s. by rewrite u64_small, Z.abs_eq by (unfold isU64; lia).
  - exists (invertSign s). rewrite u64_small by (unfold isU64; lia). rewrite Z.abs_neq by lia. split; [done |].
    rewrite signed_invert, signed_opp. lia.
Qed.

Lemma add_make (l r : Decimal) :
  isDecimal l -> isDecimal r -> isFinite l = true -> isFinite r = true ->
  exists x y e s, alignOperands l r = Some (Aligned x y e) /\
    let z := signed (m_sign l) x + signed (m_sign r) y in
    add l r = Some (make s e (Z.abs z)) /\ signed s (Z.abs z) = z.
Proof.
  intros Hl Hr Fl Fr. destruct (alignOperands_ok l r Hl Hr Fl Fr) as (x & y & e & Ea & He & Ha & _).
  assert (Hu : 0 < unitAt e) by (unfold exponentRange in He; apply unitAt_pos; lia).
  destruct (aligned_sum (unitAt e) _ _ x y (m_sign l) (m_sign r) Hu Ha) as (Hz & _). cbv zeta in Hz.
  unfold add, handle. rewrite Fl, Fr, Ea. cbn [andb mbind option_bind lhsCoefficient rhsCoefficient alignedExponent].
  set (z := signed (m_sign l) x + signed (m_sign r) y) in *.
  assert (E := sum_of_signs (m_sign l) (m_sign r) x y). fold z in E.
  assert (Hz' : Z.abs (signed (m_sign l) z) < 2 * 10 ^ 18) by (rewrite signed_abs; lia).
  rewrite E. destruct (signedResult_ok (m_sign l) e (signed (m_sign l) z) Hz') as (s & Es & Hs). rewrite signed_abs in Es, Hs.
  assert (Hss : signed (m_sign l) (signed (m_sign l) z) = z) by (destruct (m_sign l); cbn; lia). rewrite Hss in Hs.
  destruct (sameSign (m_sign l) Negative && sameSign (m_sign r) Positive && (u64 (signed (m_sign l) z) =? 0)) eqn:G.
  - apply andb_true_iff in G as [_ G%Z.eqb_eq]. assert (Ez : z = 0).
    { unfold u64 in G. apply Z.mod_divide in G; [| lia]. destruct G as [k G]. destruct (m_sign l); cbn in *; lia. }
    exists x, y, e, Positive. split; [done |]. cbv zeta. fold z. by rewrite Ez.
  - exists x, y, e, s. split; [done |]. cbv zeta. fold z. by rewrite Es.
Qed.

(** A result that approximates an exact value: it is less than one unit of its last digit
    away, infinite only beyond the largest finite magnitude, zero only for zero, and has
    the sign. *)
Definition approximates (q : Decimal) (exact : Z) : Prop :=
  isDecimal q /\ isNaN q = false /\ isZero q = (exact =? 0) /\
  (isFinite q = true -> Z.abs (val q - exact) < unitAt (m_exponent q)) /\
  (isInfinity q = true -> maxMagnitude < Z.abs exact) /\
  (exact <> 0 -> m_sign q = if exact <? 0 then Negative else Positive).

(** [z] units of 10^e that are off by less than a unit. *)
Lemma make_error (s : Sign) (e z exact : Z) :
  exponentRange e -> Z.abs z < 2 * 10 ^ 18 -> signed s (Z.abs z) = z ->
  Z.abs (z * unitAt e - exact) < unitAt e -> Z.sgn z = Z.sgn exact ->
  approximates (make s e (Z.abs z)) exact.
Proof.
  intros He Hz Hs Herr Hsgn. unfold approximates. assert (Hc : isU64 (Z.abs z)) by (unfold isU64; lia). split; [by apply make_isDecimal |].
  destruct (make_in_range s e (Z.abs z) Hc He) as (j & (Hj & Hd & Hsm & Hb) & ->). unfold exponentRange in He.
  assert (Pu : 0 < unitAt e) by (apply unitAt_pos; lia). assert (Pj : 0 < 10 ^ j) by (apply pow10_pos; lia).
  assert (Sg : exact <> 0 -> s = if exact <? 0 then Negative else Positive).
  { intros Hn. destruct (Z.ltb_spec exact 0) as [L | L].
    - rewrite (Z.sgn_neg exact L) in Hsgn. destruct s; [cbn in Hs; lia | done].
    - rewrite (Z.sgn_pos exact) in Hsgn by lia. destruct s; [done | cbn in Hs; lia]. }
  assert (Z0 : (Z.abs z =? 0) = (exact =? 0)).
  { destruct (Z.eqb_spec exact 0) as [-> |]; [apply Z.eqb_eq; lia | apply Z.eqb_neq; lia]. }
  rewrite Z.gtb_ltb. destruct (Z.ltb_spec 1023 (e + j)) as [L | L].
  - split; [done |]. assert (M : maxMagnitude < Z.abs exact).
    { specialize (Hb ltac:(destruct (Z.le_gt_cases (Z.abs z) MaxCoefficient) as [G | G]; [specialize (Hsm G); lia | lia])).
      pose proof (cut_bounds (10 ^ j) (Z.abs z) Pj) as Bc. assert (unitAt e <= unitAt 1023) by (apply unitAt_le; lia).
      assert (unitAt 1024 <= 10 ^ j * unitAt e) by (rewrite <- unitAt_add by lia; apply unitAt_le; lia).
      assert (0 < unitAt 1024) by (apply unitAt_pos; lia).
      assert (10 ^ 16 * unitAt 1024 <= Z.abs z * unitAt e).
      { etransitivity; [| apply Z.mul_le_mono_nonneg_r; [lia | apply Bc]]. rewrite <- Z.mul_assoc. apply Z.mul_le_mono_nonneg; lia. }
      assert (unitAt 1024 = 10 * unitAt 1023) by (apply (unitAt_add 1023 1); lia).
      unfold maxMagnitude, MaxCoefficient. nia. }
    assert (exact <> 0) by (unfold maxMagnitude, MaxCoefficient in M; assert (0 < unitAt 1023) by (apply unitAt_pos; lia); lia).
    split; [symmetry; by apply Z.eqb_neq |]. split; [done |]. split; [done |]. intros Hn. by apply Sg.
  - rewrite Z0. split; [by destruct (exact =? 0) |]. split; [by destruct (exact =? 0) |]. split; [| split; [by destruct (exact =? 0) |]; by intros Hn; apply Sg].
    intros _. unfold val, magnitude. cbn [m_coefficient m_exponent m_sign]. rewrite unitAt_add by lia.
    pose proof (cut_bounds (10 ^ j) (Z.abs z) Pj) as Bc. set (c := Z.abs z / 10 ^ j) in *.
    assert (Z.abs (signed s (c * (10 ^ j * unitAt e)) - z * unitAt e) <= (10 ^ j - 1) * unitAt e); [| nia].
    rewrite <- Hs at 1. rewrite Z.mul_assoc, !signed_mul. rewrite <- signed_mul, <- Z.mul_sub_distr_r, Z.abs_mul, (Z.abs_eq (unitAt e)) by lia.
    apply Z.mul_le_mono_nonneg_r; [lia |]. destruct s; cbn; lia.
Qed.

(** ** Sums and differences *)

Lemma add_approximates (l r : Decimal) :
  isDecimal l -> isDecimal r -> isFinite l = true -> isFinite r = true ->
  exists q, add l r = Some q /\ approximates q (val l + val r).
Proof.
  intros Hl Hr Fl Fr. destruct (add_make l r Hl Hr Fl Fr) as (x & y & e & s & Ea & E & Hs). eexists. split; [exact E |].
  destruct (alignOperands_ok l r Hl Hr Fl Fr) as (x' & y' & e' & Ea' & He & Ha & _). rewrite Ea in Ea'. injection Ea' as <- <- <-.
  assert (Hu : 0 < unitAt e) by (unfold exponentRange in He; apply unitAt_pos; lia).
  destruct (aligned_sum (unitAt e) _ _ x y (m_sign l) (m_sign r) Hu Ha) as (Hz & Herr & Hsgn). by apply make_error.
Qed.

(** Exact, when the result has seventeen digits in units of the smaller exponent. *)
Lemma add_exact (l r : Decimal) :
  isDecimal l -> isDecimal r -> isFinite l = true -> isFinite r = true ->
  Z.abs (val l + val r) <= MaxCoefficient * unitAt (Z.min (m_exponent l) (m_exponent r)) ->
  exists q, add l r = Some q /\ isFinite q = true /\ val q = val l + val r.
Proof.
  intros Hl Hr Fl Fr Hsmall. destruct (add_make l r Hl Hr Fl Fr) as (x & y & e & s & Ea & E & Hs). eexists. split; [exact E |].
  destruct (alignOperands_ok l r Hl Hr Fl Fr) as (x' & y' & e' & Ea' & He & Ha & Hor). rewrite Ea in Ea'. injection Ea' as <- <- <-.
  destruct (finite_fields l Hl Fl) as (_ & El & _), (finite_fields r Hr Fr) as (_ & Er & _). unfold exponentRange in *.
  pose proof (magnitude_bounds l Hl Fl) as Ml. pose proof (magnitude_bounds r Hr Fr) as Mr.
  set (m := Z.min (m_exponent l) (m_exponent r)) in *. assert (Pm : 0 < unitAt m) by (apply unitAt_pos; lia).
  assert (em : e = m).
  { destruct Hor as [-> | [H1 H2]]; [done |]. exfalso. unfold val, MaxCoefficient in *. destruct (m_sign l), (m_sign r); cbn [signed] in Hsmall; nia. }
  destruct Ha as (Hx & Hy & _). unfold magnitude in Hx, Hy. rewrite em in Hx, Hy.
  assert (Ex : val l + val r = (signed (m_sign l) x + signed (m_sign r) y) * unitAt m).
  { unfold val, magnitude. rewrite Hx, Hy. replace (m_exponent l) with (m + (m_exponent l - m)) by lia.
    replace (m_exponent r) with (m + (m_exponent r - m)) by lia. rewrite !unitAt_add, !Z.mul_assoc, !Z.div_mul by lia.
    rewrite !signed_mul. lia. }
  set (z := signed (m_sign l) x + signed (m_sign r) y) in *. rewrite Ex, Z.abs_mul, (Z.abs_eq (unitAt m)) in Hsmall by lia.
  assert (Z.abs z <= MaxCoefficient) by nia. rewrite make_small by (unfold exponentRange; lia).
  unfold val, magnitude. cbn [m_coefficient m_exponent m_sign]. rewrite em, signed_mul, Hs. fold (magnitude l) (magnitude r).
  split; [by destruct (Z.abs z =? 0) |]. by rewrite <- Ex.
Qed.

(** A difference is the sum with the negated operand. *)
Lemma subtract_negate (l r : Decimal) : isDecimal r -> subtract l r = add l (negate r).
Proof.
  destruct l as [lc le lf ls], r as [rc re rf rs]. intros Hr. unfold isDecimal in Hr. cbn in Hr. unfold subtract, add, negate, sameSign.
  destruct rf; cbn in *.
  - destruct Hr as [-> ->]. destruct lf; cbn; try done. destruct ls, rs; done.
  - destruct lf; cbn; try done; unfold alignOperands; cbn [isFinite isSpecial isInfinity isNaN m_formatClass]; by destruct ls, rs.
  - destruct lf; cbn; try done.
  - destruct lf; cbn; try done; by destruct ls, rs.
Qed.

Lemma negate_facts (d : Decimal) : isDecimal d ->
  isDecimal (negate d) /\ isFinite (negate d) = isFinite d /\ isNaN (negate d) = isNaN d /\ m_exponent (negate d) = m_exponent d /\ val (negate d) = - val d.
Proof.
  destruct d as [c e f s]. unfold isDecimal, negate, val, magnitude. destruct f; classify; rewrite ?signed_invert; try tauto.
  intros (-> & -> & ->). by cbn.
Qed.

Lemma subtract_approximates (l r : Decimal) :
  isDecimal l -> isDecimal r -> isFinite l = true -> isFinite r = true ->
  exists q, subtract l r = Some q /\ approximates q (val l - val r).
Proof.
  intros Hl Hr Fl Fr. rewrite subtract_negate by done. destruct (negate_facts r Hr) as (Hn & Fn & _ & _ & Vn).
  rewrite <- Z.add_opp_r, <- Vn. apply add_approximates; by rewrite ?Fn.
Qed.

(** ** The order *)

(** An infinity is beyond every finite value. *)
Definition extended (d : Decimal) : Z := if isInfinity d then signed (m_sign d) (maxMagnitude + 1) else val d.

Lemma extended_infinity (d : Decimal) : isDecimal d -> isInfinity d = true -> d = infinity (m_sign d).
Proof.
  destruct d as [c e f s]. unfold isDecimal, isInfinity. intros H Hi%bool_decide_eq_true. cbn in *. subst f. by destruct H as [-> ->].
Qed.

Lemma unit_compare (b : bool) (x y : Z) : (if b then x < y else y < x) ->
  exists q, Some (if b then ofInt32 (-1) else ofInt32 1) = Some q /\ isNaN q = false /\ isZero q = (x =? y) /\
    (isZero q = false -> isNegative q = (x <? y)).
Proof.
  intros H. eexists. split; [done |]. rewrite (proj2 (Z.eqb_neq x y)) by (destruct b; lia).
  destruct b; (split; [done |]; split; [done |]; intros _; symmetry); [by apply Z.ltb_lt | apply Z.ltb_ge; lia].
Qed.

(** What compareTo says of two operands that are not the same infinity. *)
Lemma compareTo_ok (l r : Decimal) :
  isDecimal l -> isDecimal r -> isNaN l || isNaN r = false -> (isInfinity l && isInfinity r = true -> l <> r) ->
  exists q, compareTo l r = Some q /\ isNaN q = false /\ isZero q = (extended l =? extended r) /\
    (isZero q = false -> isNegative q = (extended l <? extended r)).
Proof.
  intros Hl Hr Hnan Hinf. assert (Mp : 0 < maxMagnitude + 1) by (unfold maxMagnitude, MaxCoefficient; assert (0 < unitAt 1023) by (apply unitAt_pos; lia); lia).
  unfold compareTo. destruct (isFinite l && isFinite r) eqn:F.
  - apply andb_true_iff in F as [Fl Fr]. destruct (subtract_approximates l r Hl Hr Fl Fr) as (q & -> & _ & Hq & Hz & _ & _ & Hs). cbn [mbind option_bind].
    assert (El : extended l = val l) by (unfold extended, isFinite, isSpecial in *; by destruct (isInfinity l)).
    assert (Er : extended r = val r) by (unfold extended, isFinite, isSpecial in *; by destruct (isInfinity r)). rewrite El, Er.
    assert (Zq : isZero q = (val l =? val r)) by (rewrite Hz; destruct (Z.eqb_spec (val l) (val r)); [apply Z.eqb_eq | apply Z.eqb_neq]; lia).
    assert (Sq : isZero q = false -> isNegative q = (val l <? val r)).
    { intros Hn. unfold isNegative. rewrite Hs.
      - destruct (Z.ltb_spec (val l - val r) 0), (Z.ltb_spec (val l) (val r)); try done; lia.
      - intros E. rewrite Hz, E in Hn. done. }
    eexists. split; [done |]. unfold isNaN, isZero, isNegative in *. destruct q as [c e f s]. cbn in *. by destruct f, s.
  - unfold subtract, handle. rewrite F. pose proof (magnitude_bounds l Hl) as Ml. pose proof (magnitude_bounds r Hr) as Mr.
    unfold extended, val. destruct l as [lc le lf ls], r as [rc re rf rs]. unfold isDecimal in Hl, Hr. cbn in Hl, Hr.
    destruct lf, rf; classify; try done; destruct ls, rs; classify; try first [apply (unit_compare true); lia | apply (unit_compare false); lia].
    all: exfalso; apply Hinf; [done |]; by destruct Hl as [-> ->], Hr as [-> ->].
Qed.

Lemma compareTo_nan (l r : Decimal) :
  isDecimal l -> isDecimal r -> isNaN l || isNaN r = true \/ (isInfinity l = true /\ l = r) ->
  exists q, compareTo l r = Some q /\ isNaN q = true.
Proof.
  intros Hl Hr [Hn | [Hi ->]]; unfold compareTo, subtract, handle.
  - destruct l as [lc le lf ls], r as [rc re rf rs]. destruct lf, rf; classify; try done; eexists; by (split; [done |]).
  - destruct r as [rc re rf rs]. destruct rf; classify; try done. destruct rs; classify; eexists; by (split; [done |]).
Qed.

Lemma nan_unique (l r : Decimal) : isDecimal l -> isDecimal r -> isNaN l = true -> isNaN r = true -> l = r.
Proof.
  destruct l as [lc le lf ls], r as [rc re rf rs]. unfold isDecimal. destruct lf; classify; try done. destruct rf; classify; try done.
  intros (-> & -> & ->) (-> & -> & ->). done.
Qed.

Lemma extended_sign (l r : Decimal) : isDecimal l -> isDecimal r -> isInfinity l = true -> isInfinity r = true -> extended l = extended r -> l = r.
Proof.
  intros Hl Hr Il Ir E. rewrite (extended_infinity l), (extended_infinity r) by done. f_equal. unfold extended in E. rewrite Il, Ir in E.
  assert (0 < maxMagnitude + 1) by (unfold maxMagnitude, MaxCoefficient; assert (0 < unitAt 1023) by (apply unitAt_pos; lia); lia).
  destruct (m_sign l), (m_sign r); cbn in E; try done; lia.
Qed.

Lemma positive_negative (d : Decimal) : isPositive d = negb (isNegative d).
Proof. unfold isPositive, isNegative, sameSign. by destruct (m_sign d). Qed.

Lemma comparison_nan (l r : Decimal) : isDecimal l -> isDecimal r -> isNaN l || isNaN r = true ->
  less l r = Some false /\ lessOrEqual l r = Some (isNaN l && isNaN r) /\
  greater l r = Some false /\ greaterOrEqual l r = Some (isNaN l && isNaN r) /\
  equal l r = Some (isNaN l && isNaN r) /\ notEqual l r = Some false.
Proof.
  intros Hl Hr Hn. destruct (compareTo_nan l r Hl Hr) as (q & E & Hq); [by left |].
  unfold less, lessOrEqual, greater, greaterOrEqual, equal, notEqual. rewrite E. cbn [mbind option_bind]. rewrite Hq.
  assert (Zq : isZero q = false) by (unfold isNaN, isZero in *; by destruct (m_formatClass q)).
  rewrite Zq. assert (bool_decide (l = r) = isNaN l && isNaN r) as ->; [| by destruct (isNaN l && isNaN r)].
  destruct (isNaN l) eqn:Nl, (isNaN r) eqn:Nr; cbn in *; try done; [by apply bool_decide_eq_true, nan_unique | |]; apply bool_decide_eq_false; congruence.
Qed.

Lemma comparison_numbers (l r : Decimal) : isDecimal l -> isDecimal r -> isNaN l || isNaN r = false ->
  less l r = Some (extended l <? extended r) /\ lessOrEqual l r = Some (extended l <=? extended r) /\
  greater l r = Some (extended r <? extended l) /\ greaterOrEqual l r = Some (extended r <=? extended l) /\
  equal l r = Some (extended l =? extended r) /\ notEqual l r = Some (negb (extended l =? extended r)).
Proof.
  intros Hl Hr Hn. unfold less, lessOrEqual, greater, greaterOrEqual, equal, notEqual.
  destruct (decide (isInfinity l = true /\ l = r)) as [[Hi ->] | Hni].
  - destruct (compareTo_nan r r Hl Hr) as (q & -> & Hq); [by right |]. cbn [mbind option_bind]. rewrite Hq, bool_decide_true by done.
    rewrite Z.ltb_irrefl, Z.eqb_refl, Z.leb_refl. done.
  - destruct (compareTo_ok l r Hl Hr Hn) as (q & -> & Hq & Hz & Hs); [intros [Hi _]%andb_true_iff -> ; tauto |]. cbn [mbind option_bind]. rewrite Hq.
    assert (Eq : bool_decide (l = r) = true -> extended l = extended r) by (intros ->%bool_decide_eq_true; done).
    destruct (bool_decide (l = r)); [rewrite (Eq eq_refl) in *; clear Eq |]; rewrite ?positive_negative.
    + rewrite Z.ltb_irrefl, Z.leb_refl, Z.eqb_refl, Hz, Z.eqb_refl. done.
    + rewrite Hz in *. destruct (Z.lt_total (extended l) (extended r)) as [L | [-> | L]].
      * rewrite (proj2 (Z.eqb_neq (extended l) (extended r))) in * by lia. rewrite Hs, (proj2 (Z.ltb_lt _ _) L) by done.
        rewrite (proj2 (Z.leb_le (extended l) _)), (proj2 (Z.ltb_ge (extended r) _)), (proj2 (Z.leb_gt (extended r) _)) by lia. done.
      * rewrite Z.ltb_irrefl, Z.leb_refl, Z.eqb_refl. done.
      * rewrite (proj2 (Z.eqb_neq (extended l) (extended r))) in * by lia. rewrite Hs, (proj2 (Z.ltb_lt _ _) L), (proj2 (Z.ltb_ge (extended l) _)) by lia || done.
        rewrite (proj2 (Z.leb_gt (extended l) _)), (proj2 (Z.leb_le (extended r) _)) by lia. done.
Qed.

(** ** What the operators promise *)

(** C23: operator+ and operator- of two finite Decimals return, no assertion failing, a
    Decimal less than one unit of its last digit from the exact sum or difference, with its
    sign and zero only when it is; it is infinite only when the exact result is beyond the
    largest finite magnitude, and exact when that has seventeen digits in units of the
    smaller exponent. *)
Theorem sum_error (l r : Decimal) :
  isDecimal l -> isDecimal r -> isFinite l = true -> isFinite r = true ->
  let fits exact := Z.abs exact <= MaxCoefficient * unitAt (Z.min (m_exponent l) (m_exponent r)) in
  (exists q, add l r = Some q /\ approximates q (val l + val r) /\ (fits (val l + val r) -> val q = val l + val r)) /\
  (exists q, subtract l r = Some q /\ approximates q (val l - val r) /\ (fits (val l - val r) -> val q = val l - val r)).
Proof.
  intros Hl Hr Fl Fr fits. destruct (negate_facts r Hr) as (Hn & Fn & _ & En & Vn). split.
  - destruct (add_approximates l r Hl Hr Fl Fr) as (q & E & Ha). exists q. split; [done |]. split; [done |]. intros Hfit.
    destruct (add_exact l r Hl Hr Fl Fr Hfit) as (q' & E' & _ & V). rewrite E in E'. by injection E' as <-.
  - rewrite subtract_negate by done. rewrite <- Z.add_opp_r, <- Vn. rewrite <- Fn in Fr.
    destruct (add_approximates l (negate r) Hl Hn Fl Fr) as (q & E & Ha). exists q. split; [done |]. split; [done |]. intros Hfit.
    destruct (add_exact l (negate r) Hl Hn Fl Fr) as (q' & E' & _ & V); [by rewrite En |]. rewrite E in E'. by injection E' as <-.
Qed.
Lemma sum_error_witness :
  exists q, subtract (make Positive 3 99999999999999999) (make Positive (-20) 7) = Some q /\
            approximates q (val (make Positive 3 99999999999999999) - val (make Positive (-20) 7)).
Proof.
  destruct (sum_error (make Positive 3 99999999999999999) (make Positive (-20) 7)) as [_ (q & E & Ha & _)]; [by apply make_isDecimal | by apply make_isDecimal | done | done |].
  exact (ex_intro _ q (conj E Ha)).
Defined.

(** C22: the six comparison operators decide the order of the exact values, infinities
    included, whatever the exponents; with a NaN operand < and > and != are false, and the
    others hold between two NaNs only. *)
Theorem comparison_order (l r : Decimal) : isDecimal l -> isDecimal r ->
  if isNaN l || isNaN r then
    less l r = Some false /\ lessOrEqual l r = Some (isNaN l && isNaN r) /\
    greater l r = Some false /\ greaterOrEqual l r = Some (isNaN l && isNaN r) /\
    equal l r = Some (isNaN l && isNaN r) /\ notEqual l r = Some false
  else
    less l r = Some (extended l <? extended r) /\ lessOrEqual l r = Some (extended l <=? extended r) /\
    greater l r = Some (extended r <? extended l) /\ greaterOrEqual l r = Some (extended r <=? extended l) /\
    equal l r = Some (extended l =? extended r) /\ notEqual l r = Some (negb (extended l =? extended r)).
Proof. intros Hl Hr. destruct (isNaN l || isNaN r) eqn:N; [by apply comparison_nan | by apply comparison_numbers]. Qed.
Lemma comparison_order_witness : less (make Negative 1000 5) (make Positive (-1000) 5) = Some true.
Proof.
  destruct (comparison_order (make Negative 1000 5) (make Positive (-1000) 5)) as [-> _]; [by apply make_isDecimal | by apply make_isDecimal | by vm_compute].
Defined.
