(* ===== verification/DecimalProduct.v ===== *)
(** * Decimal: products and quotients

    The product of two Decimals is the exact one with the digits behind the seventeenth cut
    off, and the quotient by a number of up to four digits is the exact one to within one
    unit of its last digit. *)

From S2P Require Import Prelude Digits Decimal DecimalArithmetic DecimalValue.

(** ** Reducing the 128-bit product *)

Lemma high_zero (w : UInt128) : isU128 w -> (m_high w =? 0) = (val128 w <? 2 ^ 64).
Proof.
  unfold isU128, isU64, val128. intros H. destruct (Z.eqb_spec (m_high w) 0), (Z.ltb_spec (m_low w + m_high w * 2 ^ 64) (2 ^ 64)); try done; lia.
Qed.

Lemma reduceLoop_ok (n fuel : nat) (w : UInt128) (e : Z) :
  isU128 w -> val128 w < 10 ^ Z.of_nat n * 2 ^ 64 -> (n <= fuel)%nat ->
  exists k, reduceLoop fuel w e = Some (val128 w / 10 ^ k, e + k) /\ 0 <= k <= Z.of_nat n /\ isU64 (val128 w / 10 ^ k) /\
    (k = 0 \/ 10 ^ 17 <= val128 w / 10 ^ k).
Proof.
  revert fuel w e. induction n as [| n IH]; intros fuel w e Hw Hb Hn; assert (H0 : 0 <= val128 w) by (unfold isU128, isU64, val128 in *; lia).
  - assert (reduceLoop fuel w e = Some (val128 w, e)) as ->.
    { destruct fuel; cbn [reduceLoop]; rewrite high_zero, (proj2 (Z.ltb_lt _ _)) by (done || lia); unfold val128 in *; do 2 f_equal; unfold isU128, isU64 in Hw; lia. }
    exists 0. change (10 ^ 0) with 1 in *. rewrite Z.div_1_r, Z.add_0_r. split; [done |]. split; [lia |]. split; [unfold isU64; lia | by left].
  - destruct fuel as [| fuel]; [lia |]. cbn [reduceLoop]. rewrite high_zero by done. destruct (Z.ltb_spec (val128 w) (2 ^ 64)) as [L | L].
    + exists 0. change (10 ^ 0) with 1. rewrite Z.div_1_r, Z.add_0_r. split; [| split; [lia | split; [unfold isU64; lia | by left]]].
      unfold val128 in *. do 2 f_equal. unfold isU128, isU64 in Hw. lia.
    + destruct (divide_ok w 10 Hw) as (y & -> & Hy & Ey); [unfold isU32; lia | done |]. cbn [mbind option_bind].
      assert (Hlt : val128 y < 10 ^ Z.of_nat n * 2 ^ 64).
      { rewrite Ey. apply Z.div_lt_upper_bound; [lia |]. rewrite Nat2Z.inj_succ, Z.pow_succ_r in Hb by lia. lia. }
      destruct (IH fuel y (e + 1) Hy Hlt) as (k & -> & Hk & Hu & Hor); [lia |]. exists (k + 1).
      assert (E : val128 y / 10 ^ k = val128 w / 10 ^ (k + 1)).
      { rewrite Ey, Z.div_div, pow10_succ by (try apply pow10_pos; lia). f_equal. lia. }
      rewrite <- E. split; [f_equal; f_equal; lia |]. split; [lia |]. split; [done |]. right.
      destruct Hor as [-> | Hor]; [| done]. change (10 ^ 0) with 1 in *. rewrite Z.div_1_r, Ey. apply Z.div_le_lower_bound; lia.
Qed.

(** ** The product *)

Definition productSign (l r : Decimal) : Sign := signOfProduct (m_sign l) (m_sign r).

(** The result of a multiplication whose exponent stays in range: cut to its digits. *)
Lemma multiply_make (l r : Decimal) :
  isDecimal l -> isDecimal r -> isFinite l = true -> isFinite r = true ->
  let P := m_coefficient l * m_coefficient r in
  exists k, multiplyDecimal l r = Some (make (productSign l r) (m_exponent l + m_exponent r + k) (P / 10 ^ k)) /\
    0 <= k <= 15 /\ isU64 (P / 10 ^ k) /\ (k = 0 \/ 10 ^ 17 <= P / 10 ^ k).
Proof.
  intros Hl Hr Fl Fr P. destruct (finite_fields l Hl Fl) as (Cl & _ & El), (finite_fields r Hr Fr) as (Cr & _ & Er).
  unfold multiplyDecimal, handle. rewrite Fl, Fr, El, Er. cbn [andb mbind option_bind].
  destruct (multiply_ok (m_coefficient l) (m_coefficient r)) as [V Hw]; [by apply coefficient_u64.. |].
  destruct (reduceLoop_ok 15 20 (multiply (m_coefficient l) (m_coefficient r)) (m_exponent l + m_exponent r) Hw) as (k & -> & Hk & Hu & Hor); [| lia |].
  { rewrite V. unfold MaxCoefficient in *. assert (m_coefficient l * m_coefficient r <= 99999999999999999 * 99999999999999999) by (apply Z.mul_le_mono_nonneg; lia). lia. }
  rewrite V in *. cbn [mbind option_bind]. exists k. split; [done |]. split; [lia |]. by split.
Qed.

(** The product of the units is a unit of 10^-2046. *)
Lemma unit_product (e f : Z) : -1023 <= e -> -1023 <= f -> -1023 <= e + f -> unitAt e * unitAt f = unitAt (e + f) * 10 ^ 1023.
Proof. intros He Hf Hef. unfold unitAt. rewrite <- !Z.pow_add_r by lia. f_equal. lia. Qed.

(** Reduced to 64 bits, and then to seventeen digits: [n] digits are cut. *)
Lemma make_cut (s : Sign) (e p k : Z) :
  0 <= p < 10 ^ 34 -> 0 <= k <= 15 -> isU64 (p / 10 ^ k) -> (k = 0 \/ 10 ^ 17 <= p / 10 ^ k) -> -1023 <= e <= 1005 ->
  exists n, make s (e + k) (p / 10 ^ k) = Encoded (p / 10 ^ n) (e + n) (if p =? 0 then ClassZero else ClassNormal) s /\
    0 <= n <= 17 /\ (p <= MaxCoefficient -> n = 0) /\ (n = 0 \/ 10 ^ 16 <= p / 10 ^ n).
Proof.
  intros Hp Hk Hu Hor He. destruct (make_in_range s (e + k) (p / 10 ^ k) Hu) as (j & (Hj & Hd & Hs & Hb) & ->); [unfold exponentRange; lia |].
  assert (Cut : p / 10 ^ k / 10 ^ j = p / 10 ^ (k + j)) by (rewrite Z.div_div by (try apply pow10_pos; lia); by rewrite <- Z.pow_add_r by lia).
  assert (Big : k + j = 0 \/ 10 ^ 16 <= p / 10 ^ (k + j)).
  { destruct (Z.le_gt_cases (p / 10 ^ k) MaxCoefficient) as [L | L]; [| right; rewrite <- Cut; by apply Hb].
    left. rewrite (Hs L). unfold MaxCoefficient in L. lia. }
  assert (Hn : k + j <= 17).
  { destruct Big as [-> | Big]; [lia |]. assert (16 + (k + j) < 34); [| lia]. apply pow10_lt_inv; [lia |]. rewrite Z.pow_add_r by lia.
    pose proof (pow10_pos (k + j)). pose proof (cut_bounds (10 ^ (k + j)) p). nia. }
  assert (Small : p <= MaxCoefficient -> k + j = 0).
  { intros G. destruct Big as [| Big]; [done |]. destruct Hor as [-> | Hor].
    - rewrite Hs; [done |]. change (10 ^ 0) with 1. by rewrite Z.div_1_r.
    - pose proof (pow10_pos k). pose proof (cut_bounds (10 ^ k) p). unfold MaxCoefficient in G. nia. }
  exists (k + j). rewrite Z.gtb_ltb, (proj2 (Z.ltb_ge 1023 (e + k + j))), Cut by lia. split; [| split; [lia | by split]].
  f_equal; [lia |]. assert ((p / 10 ^ k =? 0) = (p =? 0)) as ->; [| done].
  destruct Hor as [-> | Hor]; [change (10 ^ 0) with 1; by rewrite Z.div_1_r |]. rewrite !(proj2 (Z.eqb_neq _ 0)); [done | intros -> | lia].
  rewrite Z.div_0_l in Hor; pose proof (pow10_pos k); lia.
Qed.

Lemma cut_magnitude (p n e : Z) : -1023 <= e -> 0 <= n ->
  p / 10 ^ n * unitAt (e + n) <= p * unitAt e < p / 10 ^ n * unitAt (e + n) + unitAt (e + n).
Proof.
  intros He Hn. rewrite unitAt_add by lia. assert (Pn : 0 < 10 ^ n) by (apply pow10_pos; lia). assert (Pu : 0 < unitAt e) by (apply unitAt_pos; lia).
  pose proof (cut_bounds (10 ^ n) p Pn). rewrite !Z.mul_assoc. nia.
Qed.

(** C24: the product of two finite Decimals, as long as the sum of the exponents is between
    -1023 and 1005, is the exact product with its last digits cut off: less than one unit
    of the last digit below it in magnitude, exact when the product of the coefficients
    has seventeen digits, with the sign of the operands' signs.  Beyond 1023 it is
    infinite. *)
Theorem product_cut (l r : Decimal) :
  isDecimal l -> isDecimal r -> isFinite l = true -> isFinite r = true ->
  let e := m_exponent l + m_exponent r in
  let P := magnitude l * magnitude r in
  exists q, multiplyDecimal l r = Some q /\ isDecimal q /\ m_sign q = productSign l r /\
    (-1023 <= e <= 1005 ->
       isFinite q = true /\ magnitude q * 10 ^ 1023 <= P < (magnitude q + unitAt (m_exponent q)) * 10 ^ 1023 /\
       isZero q = isZero l || isZero r /\
       (m_coefficient l * m_coefficient r <= MaxCoefficient -> magnitude q * 10 ^ 1023 = P)) /\
    (1023 < e -> q = infinity (productSign l r)).
Proof.
  intros Hl Hr Fl Fr e P. destruct (multiply_make l r Hl Hr Fl Fr) as (k & E & Hk & Hu & Hor).
  destruct (finite_fields l Hl Fl) as (Cl & El & _), (finite_fields r Hr Fr) as (Cr & Er & _). unfold exponentRange in *.
  set (p := m_coefficient l * m_coefficient r) in *. fold e in E. eexists. split; [exact E |]. split; [by apply make_isDecimal |].
  split; [apply make_sign |]. split.
  - intros He. assert (Hp : 0 <= p < 10 ^ 34).
    { unfold p, MaxCoefficient in *. split; [nia |]. assert (m_coefficient l * m_coefficient r <= 99999999999999999 * 99999999999999999) by (apply Z.mul_le_mono_nonneg; lia). lia. }
    destruct (make_cut (productSign l r) e p k Hp Hk Hu Hor He) as (n & -> & Hn & Hs & _).
    assert (EP : P = p * unitAt e * 10 ^ 1023).
    { rewrite <- (Z.mul_assoc p). unfold e. rewrite <- unit_product by (unfold e in He; lia). unfold P, magnitude, p. ring. }
    unfold magnitude. cbn [m_coefficient m_exponent]. pose proof (cut_magnitude p n e) as Hc. assert (0 < 10 ^ 1023) by (apply pow10_pos; lia).
    split; [by destruct (p =? 0) |]. rewrite EP. split; [split; [apply Z.mul_le_mono_nonneg_r | apply Z.mul_lt_mono_pos_r]; lia |]. split.
    + rewrite (finite_zero l), (finite_zero r) by done. destruct (Z.eqb_spec p 0) as [Z0 | Z0]; unfold p in Z0; classify.
      * symmetry. apply orb_true_iff. rewrite !Z.eqb_eq. by apply Z.mul_eq_0.
      * symmetry. apply orb_false_iff. rewrite !Z.eqb_neq. by apply Z.neq_mul_0.
    + intros G. rewrite (Hs G). change (10 ^ 0) with 1. by rewrite Z.div_1_r, Z.add_0_r.
  - intros He. rewrite make_out_of_range by (unfold exponentRange; lia). by rewrite Z.gtb_ltb, (proj2 (Z.ltb_lt 1023 (e + k))) by lia.
Qed.
Lemma product_cut_witness :
  exists q, multiplyDecimal (make Negative (-3) 99999999999999999) (make Positive 40 123456789012345) = Some q /\ isFinite q = true.
Proof.
  destruct (product_cut (make Negative (-3) 99999999999999999) (make Positive 40 123456789012345)) as (q & E & _ & _ & H & _);
    [by apply make_isDecimal | by apply make_isDecimal | done | done |].
  assert (R : -1023 <= m_exponent (make Negative (-3) 99999999999999999) + m_exponent (make Positive 40 123456789012345) <= 1005)
    by (vm_compute; split; discriminate).
  exact (ex_intro _ q (conj E (proj1 (H R)))).
Defined.

(** ** Quotients *)

(** Divisors of at most four digits, with which no intermediate result overflows. *)
Definition shortDivisor (d : Z) : Prop := 1 <= d <= 10 ^ 4.

Lemma bringDown_ok (m fuel : nat) (rem d res e : Z) :
  1 <= rem -> shortDivisor d -> 0 <= res -> d <= rem * 10 ^ Z.of_nat m -> (m <= 4)%nat -> (m <= fuel)%nat -> res * 10 ^ Z.of_nat m < 2 ^ 64 ->
  exists k, bringDown fuel rem d res e = Some (rem * 10 ^ k, res * 10 ^ k, e - k) /\ 0 <= k <= Z.of_nat m /\
    d <= rem * 10 ^ k /\ (d <= rem -> k = 0) /\ (rem < d -> 1 <= k /\ rem * 10 ^ k < 10 * d).
Proof.
  unfold shortDivisor. revert fuel rem res e. induction m as [| m IH]; intros fuel rem res e Hrem Hd Hres Hle Hm Hf Hlt.
  - change (10 ^ Z.of_nat 0) with 1 in Hle. exists 0. change (10 ^ 0) with 1. rewrite !Z.mul_1_r, Z.sub_0_r.
    assert (bringDown fuel rem d res e = Some (rem, res, e)) as ->; [| split; [done | lia]].
    destruct fuel; cbn [bringDown]; by rewrite (proj2 (Z.ltb_ge rem d)) by lia.
  - destruct fuel as [| fuel]; [lia |]. cbn [bringDown]. destruct (Z.ltb_spec rem d) as [L | L].
    + rewrite Nat2Z.inj_succ, Z.pow_succ_r in * by lia. assert (0 < 10 ^ Z.of_nat m) by (apply pow10_pos; lia).
      rewrite (u64_small (rem * 10)), (u64_small (res * 10)) by (unfold isU64; nia).
      destruct (IH fuel (rem * 10) (res * 10) (e - 1)) as (k & -> & Hk & Hdk & H0 & Hsm); [lia | done | lia | lia | lia | lia | lia |].
      exists (k + 1). rewrite pow10_succ by lia. split; [f_equal; f_equal; [f_equal; ring | ring] |]. split; [lia |]. split; [lia |]. split; [lia |]. intros _.
      split; [lia |]. destruct (Z.lt_ge_cases (rem * 10) d) as [G | G]; [destruct (Hsm G); lia |].
      rewrite (H0 G). change (10 ^ 0) with 1. lia.
    + exists 0. change (10 ^ 0) with 1. rewrite !Z.mul_1_r, Z.sub_0_r. split; [done | lia].
Qed.

(** The loop divides [c] with ever more digits: [res] is the quotient of c * 10^k. *)
Lemma divisionLoop_ok (fuel : nat) (c d e0 rem res k : Z) :
  shortDivisor d -> 1 <= rem <= MaxCoefficient -> 0 <= res -> 0 <= k -> c * 10 ^ k = res * d + rem ->
  (res = 0 /\ (17 <= fuel)%nat) \/ (1 <= res /\ rem < d /\ 10 ^ 15 <= res * 10 ^ Z.of_nat fuel) -> res <= 10 ^ 19 ->
  exists rem' res' k', divisionLoop fuel rem d res (e0 - k) = Ok (rem', res', e0 - k') /\
    c * 10 ^ k' = res' * d + rem' /\ 0 <= rem' < d /\ 1 <= res' <= 10 ^ 19 /\ 0 <= k'.
Proof.
  intros Hd. revert rem res k. induction fuel as [| fuel IH]; intros rem res k Hrem Hres Hk Hinv Hor Hle;
    cbn [divisionLoop]; change (MaxCoefficient / 100) with 999999999999999; unfold MaxCoefficient in *.
  { change (10 ^ Z.of_nat 0) with 1 in Hor. rewrite (proj2 (Z.ltb_ge res _)) by lia. exists rem, res, k. split; [done | lia]. }
  destruct (Z.ltb_spec res 999999999999999) as [L | L]; [| exists rem, res, k; split; [done | lia]].
  assert (Hd4 := Hd). unfold shortDivisor in Hd4.
  destruct (bringDown_ok 4 20 rem d res (e0 - k)) as (m & -> & Hm & Hdm & H0 & Hsm); [lia | done | lia | change (Z.of_nat 4) with 4; lia | lia | lia | change (Z.of_nat 4) with 4; lia |].
  cbn [lift mbind result_bind]. change (Z.of_nat 4) with 4 in Hm.
  assert (Pm : 0 < 10 ^ m) by (apply pow10_pos; lia). assert (Pm4 : 10 ^ m <= 10 ^ 4) by (apply pow10_le; lia).
  set (w := rem * 10 ^ m) in *. pose proof (Z.div_mod w d ltac:(lia)) as Dm. pose proof (Z.mod_pos_bound w d ltac:(lia)) as Bm.
  assert (Hq1 : 1 <= w / d) by (apply Z.div_le_lower_bound; lia).
  assert (Hq : rem < d -> 1 <= m /\ w / d < 10) by (intros G; destruct (Hsm G); split; [lia | apply Z.div_lt_upper_bound; lia]).
  assert (Hnew : 1 <= res * 10 ^ m + w / d <= 10 ^ 19).
  { split; [nia |]. destruct (Z.lt_ge_cases rem d) as [G | G].
    - destruct (Hq G). assert (res * 10 ^ m <= 999999999999998 * 10 ^ 4) by (apply Z.mul_le_mono_nonneg; lia). lia.
    - destruct Hor as [[-> _] | (_ & ? & _)]; [| lia]. unfold w. rewrite (H0 G) in *. change (10 ^ 0) with 1 in *.
      assert (rem * 1 / d <= rem) by (apply Z.div_le_upper_bound; nia). lia. }
  rewrite u64_small by (unfold isU64; lia).
  assert (Hinv' : c * 10 ^ (k + m) = (res * 10 ^ m + w / d) * d + w mod d).
  { rewrite Z.pow_add_r, Z.mul_assoc, Hinv by lia. unfold w in *. lia. }
  replace (e0 - k - m) with (e0 - (k + m)) by lia.
  destruct (Z.eqb_spec (w mod d) 0) as [Z0 | Z0]; [eexists _, _, (k + m); split; [done | lia] |].
  apply IH; [lia | lia | lia | done | | lia]. right. split; [lia |]. split; [lia |].
  destruct Hor as [[-> Hf] | (Hr1 & Hlt & Hp)].
  - assert (10 ^ 16 <= 10 ^ Z.of_nat fuel) by (apply pow10_le; lia). nia.
  - rewrite Nat2Z.inj_succ, Z.pow_succ_r in Hp by lia. destruct (Hq Hlt) as [Hm1 _]. assert (10 ^ 1 <= 10 ^ m) by (apply pow10_le; lia).
    assert (0 < 10 ^ Z.of_nat fuel) by (apply pow10_pos; lia). nia.
Qed.

(** The rounding at the end: half a unit away at most. *)
Lemma round_half (c10 d res rem : Z) : shortDivisor d -> c10 = res * d + rem -> 0 <= rem < d ->
  let res' := if rem >? d / 2 then res + 1 else res in 2 * Z.abs (c10 - res' * d) <= d.
Proof.
  intros Hd -> Hr. cbv zeta. rewrite Z.gtb_ltb. unfold shortDivisor in Hd. pose proof (Z.div_mod d 2). pose proof (Z.mod_pos_bound d 2).
  destruct (Z.ltb_spec (d / 2) rem); [replace (res * d + rem - (res + 1) * d) with (rem - d) by ring | replace (res * d + rem - res * d) with rem by ring]; lia.
Qed.

Lemma divide_make (l r : Decimal) :
  isDecimal l -> isDecimal r -> isFinite l = true -> isFinite r = true -> isZero l = false -> shortDivisor (m_coefficient r) ->
  exists res k, divideDecimal l r = Ok (make (productSign l r) (m_exponent l - m_exponent r - k) res) /\
    2 * Z.abs (m_coefficient l * 10 ^ k - res * m_coefficient r) <= m_coefficient r /\ 1 <= res <= 10 ^ 19 + 1 /\ 0 <= k <= 23.
Proof.
  intros Hl Hr Fl Fr Zl Hd. destruct (finite_fields l Hl Fl) as (Cl & _ & El), (finite_fields r Hr Fr) as (Cr & _ & Er).
  unfold divideDecimal, handle. rewrite (finite_zero r), Fl, Fr, El, Er, Zl by done. rewrite (finite_zero l) in Zl by done. apply Z.eqb_neq in Zl.
  assert (Hd4 := Hd). unfold shortDivisor in Hd4. rewrite (proj2 (Z.eqb_neq (m_coefficient r) 0)) by lia. cbn [andb lift mbind result_bind].
  set (c := m_coefficient l) in *. set (d := m_coefficient r) in *. set (e := m_exponent l - m_exponent r).
  destruct (divisionLoop_ok 40 c d e c 0 0 Hd) as (rem & res & k & E & Hinv & Hrem & Hres & Hk); [lia | lia | lia | change (10 ^ 0) with 1; lia | left; lia | lia |].
  rewrite Z.sub_0_r in E. rewrite E. cbn [mbind result_bind]. pose proof (round_half _ d res rem Hd Hinv Hrem) as Hround. cbv zeta in Hround.
  rewrite u64_small by (unfold isU64; lia). eexists _, k. split; [done |]. split; [exact Hround |].
  split; [destruct (rem >? d / 2); lia |]. split; [done |]. assert (k < 24); [| lia]. apply pow10_lt_inv; [lia |]. nia.
Qed.

(** C25: the quotient of two finite Decimals with exponents up to 1000 apart, by a divisor
    whose coefficient is from 1 to 10^4, is finite, is computed without overflow, and is less
    than one unit of its last digit away from the exact quotient, with the sign of the
    operands' signs and zero only for zero. *)
Theorem quotient_error (l r : Decimal) :
  isDecimal l -> isDecimal r -> isFinite l = true -> isFinite r = true -> shortDivisor (m_coefficient r) ->
  -1000 <= m_exponent l - m_exponent r <= 1000 ->
  exists q, divideDecimal l r = Ok q /\ isDecimal q /\ isFinite q = true /\ m_sign q = productSign l r /\ isZero q = isZero l /\
    Z.abs (magnitude l * 10 ^ 1023 - magnitude q * magnitude r) < magnitude r * unitAt (m_exponent q).
Proof.
  intros Hl Hr Fl Fr Hd He. destruct (finite_fields l Hl Fl) as (Cl & El & Xl), (finite_fields r Hr Fr) as (Cr & Er & Xr).
  assert (Hd4 := Hd). unfold shortDivisor, exponentRange in *. destruct (isZero l) eqn:Zl.
  - exists (make (productSign l r) (m_exponent l - m_exponent r) 0). assert (Zr : isZero r = false) by (rewrite finite_zero by done; apply Z.eqb_neq; lia).
    assert (Cl0 : m_coefficient l = 0) by (rewrite finite_zero in Zl by done; by apply Z.eqb_eq).
    assert (0 < magnitude r) by (unfold magnitude; assert (0 < unitAt (m_exponent r)) by (apply unitAt_pos; lia); nia).
    assert (0 < unitAt (m_exponent l - m_exponent r)) by (apply unitAt_pos; lia).
    split; [unfold divideDecimal, handle; by rewrite Fl, Fr, Xl, Xr, Zl, Zr |]. split; [by apply make_isDecimal |].
    rewrite make_small by (unfold MaxCoefficient, exponentRange; lia). split; [done |]. split; [done |]. split; [done |].
    unfold magnitude at 1 2. cbn [m_coefficient m_exponent]. rewrite Cl0, !Z.mul_0_l. nia.
  - destruct (divide_make l r Hl Hr Fl Fr Zl Hd) as (res & k & E & Herr & Hres & Hk). eexists. split; [exact E |].
    assert (Hu : isU64 res) by (unfold isU64; lia). split; [by apply make_isDecimal |].
    destruct (make_in_range (productSign l r) (m_exponent l - m_exponent r - k) res Hu) as (j & (Hj & _) & ->); [unfold exponentRange; lia |].
    rewrite Z.gtb_ltb, (proj2 (Z.ltb_ge 1023 _)), (proj2 (Z.eqb_neq res 0)) by lia. split; [done |]. split; [done |]. split; [done |].
    set (e := m_exponent l - m_exponent r - k) in *. unfold magnitude at 1 2 3. cbn [m_coefficient m_exponent]. rewrite unitAt_add by lia.
    assert (Pj : 0 < 10 ^ j) by (apply pow10_pos; lia). pose proof (cut_bounds (10 ^ j) res Pj) as Hc.
    set (a := unitAt e * unitAt (m_exponent r)). assert (Pa : 0 < a) by (apply Z.mul_pos_pos; apply unitAt_pos; lia).
    assert (Ea : unitAt (m_exponent l) * 10 ^ 1023 = 10 ^ k * a) by (unfold a, unitAt, e; rewrite <- !Z.pow_add_r by lia; f_equal; lia).
    rewrite <- (Z.mul_assoc (m_coefficient l)), Ea. unfold magnitude, a.
    replace (Z.abs _) with (Z.abs (m_coefficient l * 10 ^ k - res / 10 ^ j * 10 ^ j * m_coefficient r) * a) by (rewrite <- (Z.abs_eq a) at 1 by lia; rewrite <- Z.abs_mul; f_equal; unfold a; ring).
    replace (_ * _ * (10 ^ j * _)) with (m_coefficient r * 10 ^ j * a) by (unfold a; ring). apply Z.mul_lt_mono_pos_r; [done |].
    assert (Z.abs (m_coefficient l * 10 ^ k - res / 10 ^ j * 10 ^ j * m_coefficient r) <=
            Z.abs (m_coefficient l * 10 ^ k - res * m_coefficient r) + (10 ^ j - 1) * m_coefficient r); [nia | nia].
Qed.
Lemma quotient_error_witness : exists q, divideDecimal (make Positive 0 22) (make Negative (-2) 7) = Ok q /\ isFinite q = true.
Proof.
  destruct (quotient_error (make Positive 0 22) (make Negative (-2) 7)) as (q & E & _ & F & _);
    [by apply make_isDecimal | by apply make_isDecimal | done | done | vm_compute; split; discriminate | vm_compute; split; discriminate |].
  exact (ex_intro _ q (conj E F)).
Defined.
