(* ===== verification/DecimalRound.v ===== *)
(** * Decimal: rounding, and the invariant of the fields

    round is rounding half away from zero, floor of a positive and ceiling of a negative
    number cut its fraction off; and every operation keeps the invariant. *)

From S2P Require Import Prelude Digits Decimal DecimalArithmetic DecimalValue DecimalSum DecimalProduct.

(** ** Dropping the fraction *)

Definition one : Z := unitAt 0.

Lemma one_split (e : Z) : -1023 <= e <= 0 -> one = 10 ^ (- e) * unitAt e.
Proof. intros He. unfold one. rewrite <- unitAt_add by lia. f_equal. lia. Qed.

(** The integer part of a magnitude. *)
Definition integerPart (d : Decimal) : Z := magnitude d / one.

Lemma integerPart_ok (d : Decimal) : -1023 <= m_exponent d <= 0 -> integerPart d = m_coefficient d / 10 ^ (- m_exponent d).
Proof.
  intros He. unfold integerPart, magnitude. rewrite (one_split (m_exponent d)) by lia. apply Z.div_mul_cancel_r.
  - assert (0 < 10 ^ (- m_exponent d)) by (apply pow10_pos; lia). lia.
  - assert (0 < unitAt (m_exponent d)) by (apply unitAt_pos; lia). lia.
Qed.

Lemma whole_magnitude (d : Decimal) : 0 <= m_exponent d -> magnitude d = integerPart d * one.
Proof.
  intros He. unfold integerPart, magnitude. assert (H1 : 0 < one) by (apply unitAt_pos; lia).
  replace (m_exponent d) with (0 + m_exponent d) at 1 by lia. replace (m_exponent d) with (0 + m_exponent d) at 2 by lia.
  rewrite unitAt_add by lia. fold one. rewrite !Z.mul_assoc. by rewrite Z.div_mul by lia.
Qed.

(** A number with fewer digits than are dropped is less than a tenth. *)
Lemma few_digits (c n : Z) : 0 <= c <= MaxCoefficient -> 1 <= n -> countDigits c < n -> 10 * c < 10 ^ n.
Proof.
  intros Hc Hn Hd. destruct (countDigits_ok c (coefficient_u64 c Hc)) as (_ & Hlt & _). assert (10 ^ countDigits c <= 10 ^ (n - 1)) by (apply pow10_le; lia).
  replace n with (n - 1 + 1) by lia. rewrite pow10_succ by lia. lia.
Qed.

Lemma dropDigits_ok (d : Decimal) (n : Z) : 0 <= m_coefficient d -> 1 <= n -> dropDigits d n = Some (m_coefficient d / 10 ^ (n - 1)).
Proof. intros Hc Hn. unfold dropDigits. apply scaleDown_ok; lia. Qed.

Lemma last_digit (c n : Z) : 1 <= n -> c / 10 ^ n = c / 10 ^ (n - 1) / 10.
Proof. intros Hn. rewrite Z.div_div by (try apply pow10_pos; lia). rewrite <- pow10_succ by lia. do 2 f_equal. lia. Qed.

(** Adding ten when the last digit is five or more, and cutting it, is adding a half. *)
Lemma half_up (c n : Z) : 1 <= n -> 0 <= c ->
  (if c / 10 ^ (n - 1) mod 10 >=? 5 then c / 10 ^ (n - 1) + 10 else c / 10 ^ (n - 1)) / 10 = (2 * c + 10 ^ n) / (2 * 10 ^ n).
Proof.
  intros Hn Hc. replace (10 ^ n) with (10 ^ (n - 1) * 10) by (rewrite <- pow10_succ by lia; f_equal; lia).
  assert (Pn : 0 < 10 ^ (n - 1)) by (apply pow10_pos; lia). set (p := 10 ^ (n - 1)) in *. pose proof (cut_bounds p c Pn) as Hb. set (x := c / p) in *.
  rewrite Z.geb_leb. symmetry. pose proof (Z.div_mod x 10). pose proof (Z.mod_pos_bound x 10).
  destruct (Z.leb_spec 5 (x mod 10)) as [L | L].
  - replace (x + 10) with (x + 1 * 10) by lia. rewrite Z.div_add by lia. symmetry. apply (Z.div_unique_pos _ _ _ (2 * c + p * 10 - 2 * (p * 10) * (x / 10 + 1))); [nia | lia].
  - symmetry. apply (Z.div_unique_pos _ _ _ (2 * c + p * 10 - 2 * (p * 10) * (x / 10))); [nia | lia].
Qed.

Lemma half_magnitude (d : Decimal) : -1023 <= m_exponent d <= 0 ->
  (2 * magnitude d + one) / (2 * one) = (2 * m_coefficient d + 10 ^ (- m_exponent d)) / (2 * 10 ^ (- m_exponent d)).
Proof.
  intros He. unfold magnitude. rewrite (one_split (m_exponent d)) by lia. assert (0 < unitAt (m_exponent d)) by (apply unitAt_pos; lia).
  assert (0 < 10 ^ (- m_exponent d)) by (apply pow10_pos; lia).
  rewrite <- (Z.div_mul_cancel_r (2 * m_coefficient d + _) (2 * _) (unitAt (m_exponent d))) by lia. f_equal; ring.
Qed.

(** ** Rounding *)

(** An integer that fits is made exactly. *)
Lemma make_integer (s : Sign) (n : Z) : 0 <= n <= MaxCoefficient ->
  isDecimal (make s 0 n) /\ isFinite (make s 0 n) = true /\ val (make s 0 n) = signed s (n * one).
Proof.
  intros Hn. split; [apply make_isDecimal; by apply coefficient_u64 |]. rewrite make_small by (try unfold exponentRange; lia).
  split; [by destruct (n =? 0) | done].
Qed.

Lemma round_ok (d : Decimal) : isDecimal d -> isFinite d = true ->
  exists q, round d = Some q /\ isDecimal q /\ isFinite q = true /\ val q = signed (m_sign d) ((2 * magnitude d + one) / (2 * one) * one).
Proof.
  intros Hd Fd. destruct (finite_fields d Hd Fd) as (Hc & He & Ex). unfold exponentRange in He. unfold round. rewrite Ex.
  assert (isSpecial d = false) as -> by (unfold isFinite in Fd; by destruct (isSpecial d)). cbn [mbind option_bind].
  assert (H1 : 0 < one) by (apply unitAt_pos; lia). destruct (Z.leb_spec 0 (m_exponent d)) as [L | L].
  - exists d. split; [done |]. split; [done |]. split; [done |]. unfold val. f_equal. rewrite (whole_magnitude d L) at 1. f_equal.
    rewrite (whole_magnitude d L). apply (Z.div_unique_pos _ _ _ one); lia.
  - rewrite half_magnitude by lia. destruct (Z.ltb_spec (countDigits (m_coefficient d)) (- m_exponent d)) as [G | G].
    + exists (zero Positive). split; [done |]. split; [done |]. split; [done |]. assert (F := few_digits (m_coefficient d) (- m_exponent d) Hc ltac:(lia) G).
      rewrite Z.div_small by lia. by destruct (m_sign d).
    + rewrite dropDigits_ok by lia. cbn [mbind option_bind]. set (n := - m_exponent d) in *. set (c := m_coefficient d) in *.
      assert (Hx : 0 <= c / 10 ^ (n - 1) <= c).
      { assert (1 <= 10 ^ (n - 1)) by (change 1 with (10 ^ 0) at 1; apply pow10_le; lia). split; [apply Z.div_pos; lia |]. apply Z.div_le_upper_bound; nia. }
      unfold MaxCoefficient in Hc. rewrite u64_small by (unfold isU64; lia). rewrite half_up by lia.
      destruct (make_integer (m_sign d) ((2 * c + 10 ^ n) / (2 * 10 ^ n))) as (Hq & Fq & Vq).
      { rewrite <- half_up by lia. unfold MaxCoefficient. split; [apply Z.div_pos; [| lia]; destruct (_ >=? 5); lia |].
        apply Z.div_le_upper_bound; [lia |]. destruct (_ >=? 5); lia. }
      by eexists.
Qed.

(** Towards zero: floor of a positive, ceiling of a negative number. *)
Lemma truncate_ok (d : Decimal) : isDecimal d -> isFinite d = true ->
  exists q, (if isPositive d then floor d else ceiling d) = Some q /\ isDecimal q /\ isFinite q = true /\ val q = signed (m_sign d) (integerPart d * one).
Proof.
  intros Hd Fd. destruct (finite_fields d Hd Fd) as (Hc & He & Ex). unfold exponentRange in He. unfold floor, ceiling. rewrite Ex.
  assert (isSpecial d = false) as -> by (unfold isFinite in Fd; by destruct (isSpecial d)). cbn [mbind option_bind].
  destruct (Z.leb_spec 0 (m_exponent d)) as [L | L].
  - exists d. split; [by destruct (isPositive d) |]. split; [done |]. split; [done |]. unfold val. f_equal. by apply whole_magnitude.
  - rewrite integerPart_ok by lia. rewrite dropDigits_ok by lia. cbn [mbind option_bind].
    destruct (Z.ltb_spec (countDigits (m_coefficient d)) (- m_exponent d)) as [G | G].
    + exists (zero Positive). split; [by destruct (isPositive d) |]. split; [done |]. split; [done |].
      assert (F := few_digits (m_coefficient d) (- m_exponent d) Hc ltac:(lia) G). rewrite Z.div_small by lia. by destruct (m_sign d).
    + rewrite (last_digit _ (- m_exponent d)) by lia. set (x := m_coefficient d / 10 ^ (- m_exponent d - 1)).
      assert (Hx : 0 <= x <= m_coefficient d).
      { assert (1 <= 10 ^ (- m_exponent d - 1)) by (change 1 with (10 ^ 0) at 1; apply pow10_le; lia). split; [apply Z.div_pos; lia |]. apply Z.div_le_upper_bound; nia. }
      destruct (make_integer (m_sign d) (x / 10)) as (Hq & Fq & Vq); [unfold MaxCoefficient in *; split; [apply Z.div_pos; lia | apply Z.div_le_upper_bound; lia] |].
      exists (make (m_sign d) 0 (x / 10)). split; [| by split]. unfold isPositive, isNegative. destruct (m_sign d); classify; done.
Qed.

(** round is the nearest integer, halves away from zero; floor of a positive and
    ceiling of a negative number, of which remainder makes use, are the integer part. *)
Theorem rounding (d : Decimal) : isDecimal d -> isFinite d = true ->
  (exists q, round d = Some q /\ isFinite q = true /\ val q = signed (m_sign d) ((2 * magnitude d + one) / (2 * one) * one)) /\
  (exists q, (if isPositive d then floor d else ceiling d) = Some q /\ isFinite q = true /\ val q = signed (m_sign d) (integerPart d * one)).
Proof.
  intros Hd Fd. split.
  - destruct (round_ok d Hd Fd) as (q & E & _ & F & V). by exists q.
  - destruct (truncate_ok d Hd Fd) as (q & E & _ & F & V). by exists q.
Qed.
Lemma rounding_witness : exists q, round (make Negative (-1) 25) = Some q /\ isFinite q = true.
Proof.
  destruct (rounding (make Negative (-1) 25)) as [(q & E & F & _) _]; [by apply make_isDecimal | done |]. exact (ex_intro _ q (conj E F)).
Defined.

(** ** The invariant *)

Lemma bringDown_u64 (fuel : nat) (rem d res e : Z) : isU64 res ->
  forall rem' res' e', bringDown fuel rem d res e = Some (rem', res', e') -> isU64 res'.
Proof.
  revert rem res e. induction fuel as [| fuel IH]; intros rem res e Hr rem' res' e'; cbn [bringDown]; destruct (rem <? d); try done.
  - by intros [= _ <- _].
  - by apply IH.
  - by intros [= _ <- _].
Qed.

Lemma divisionLoop_u64 (fuel : nat) (rem d res e : Z) : isU64 res ->
  forall rem' res' e', divisionLoop fuel rem d res e = Ok (rem', res', e') -> isU64 res'.
Proof.
  revert rem res e. induction fuel as [| fuel IH]; intros rem res e Hr rem' res' e'; cbn [divisionLoop].
  - destruct (res <? MaxCoefficient / 100); [discriminate | by intros [= _ <- _]].
  - destruct (res <? MaxCoefficient / 100); [| by intros [= _ <- _]].
    destruct (bringDown 20 rem d res e) as [[[rem1 res1] e1] |]; [| discriminate]. cbn [lift mbind result_bind].
    destruct (_ =? 0); [by intros [= _ <- _] | by apply IH].
Qed.

Lemma setSign_isDecimal (d : Decimal) (s : Sign) : isDecimal d -> isNaN d = false -> isDecimal (setSign d s).
Proof. destruct d as [c e f s']. unfold isDecimal, setSign. by destruct f; classify. Qed.

Lemma handle_ok (l r : Decimal) :
  exists h v, handle l r = Some (h, v) /\
    match h with
    | BothFinite => isFinite l = true /\ isFinite r = true
    | EitherNaN => value l r v = Some l \/ value l r v = Some r
    | _ => True
    end.
Proof.
  unfold handle. destruct l as [lc le lf ls], r as [rc re rf rs]. destruct lf, rf; classify; eexists _, _; (split; [done |]); cbn; tauto.
Qed.

Lemma add_typed (l r : Decimal) : isDecimal l -> isDecimal r -> exists q, add l r = Some q /\ isDecimal q.
Proof.
  intros Hl Hr. destruct (handle_ok l r) as (h & v & E & Hh). destruct h.
  - destruct Hh as [Fl Fr]. destruct (add_approximates l r Hl Hr Fl Fr) as (q & Eq & Hq & _). by exists q.
  - unfold add. rewrite E. cbn. eexists. split; [done |]. by destruct (sameSign (m_sign l) (m_sign r)).
  - unfold add. rewrite E. cbn. destruct Hh as [-> | ->]; by eexists.
  - unfold add. rewrite E. cbn. by eexists.
  - unfold add. rewrite E. cbn. by eexists.
Qed.

Lemma multiply_typed (l r : Decimal) : isDecimal l -> isDecimal r -> exists q, multiplyDecimal l r = Some q /\ isDecimal q.
Proof.
  intros Hl Hr. destruct (handle_ok l r) as (h & v & E & Hh). destruct h.
  - destruct Hh as [Fl Fr]. destruct (multiply_make l r Hl Hr Fl Fr) as (k & Eq & _ & Hu & _). eexists. split; [exact Eq |]. by apply make_isDecimal.
  - unfold multiplyDecimal. rewrite E. cbn. by eexists.
  - unfold multiplyDecimal. rewrite E. cbn. destruct Hh as [-> | ->]; by eexists.
  - unfold multiplyDecimal. rewrite E. cbn. eexists. split; [done |]. by destruct (isZero r).
  - unfold multiplyDecimal. rewrite E. cbn. eexists. split; [done |]. by destruct (isZero l).
Qed.

Lemma divide_typed (l r q : Decimal) : isDecimal l -> isDecimal r -> divideDecimal l r = Ok q -> isDecimal q.
Proof.
  intros Hl Hr. unfold divideDecimal. destruct (handle_ok l r) as (h & v & -> & Hh). cbn [lift mbind result_bind]. destruct h.
  - destruct (isZero r); [by destruct (isZero l); intros [= <-] |].
    destruct Hh as [Fl Fr]. destruct (finite_fields l Hl Fl) as (_ & _ & ->), (finite_fields r Hr Fr) as (_ & _ & ->). cbn [lift mbind result_bind].
    destruct (isZero l); [intros [= <-]; apply make_isDecimal; unfold isU64; lia |].
    destruct (divisionLoop _ _ _ _ _) as [[[rem res] e] | |] eqn:E; try done. cbn [mbind result_bind]. intros [= <-]. apply make_isDecimal.
    destruct (_ >? _); [done |]. eapply divisionLoop_u64; [| exact E]. unfold isU64. lia.
  - by intros [= <-].
  - destruct Hh as [-> | ->]; by intros [= <-].
  - by intros [= <-].
  - by intros [= <-].
Qed.

(** What is cut, plus ten, is 64 bits wide. *)
Lemma rounded_typed (s : Sign) (c : Z) (b : bool) : 0 <= c <= MaxCoefficient -> isDecimal (make s 0 ((if b then u64 (c + 10) else c) / 10)).
Proof.
  unfold MaxCoefficient. intros Hc. apply make_isDecimal. destruct b; [rewrite u64_small by (unfold isU64; lia) |]; (split; [apply Z.div_pos; lia | apply Z.div_lt_upper_bound; lia]).
Qed.

Lemma integer_typed (d : Decimal) : isDecimal d ->
  (exists q, ceiling d = Some q /\ isDecimal q) /\ (exists q, floor d = Some q /\ isDecimal q) /\ (exists q, round d = Some q /\ isDecimal q).
Proof.
  intros Hd. unfold ceiling, floor, round. destruct (isSpecial d) eqn:S; [by split; [eexists | split; eexists] |].
  assert (Fd : isFinite d = true) by (unfold isFinite; by rewrite S). destruct (finite_fields d Hd Fd) as (Hc & He & ->). cbn [mbind option_bind].
  destruct (Z.leb_spec 0 (m_exponent d)) as [L | L]; [by split; [eexists | split; eexists] |].
  assert (Hi : forall i, i = 1 \/ i = -1 -> isDecimal (ofInt32 i)) by (intros i [-> | ->]; vm_compute; intuition discriminate).
  destruct (Z.ltb_spec (countDigits (m_coefficient d)) (- m_exponent d)) as [G | G].
  - split; [eexists; split; [done |]; destruct (isPositive d); auto |]. split; [eexists; split; [done |]; destruct (isPositive d); auto |]. by eexists.
  - rewrite dropDigits_ok by lia. cbn [mbind option_bind].
    assert (Hx : 0 <= m_coefficient d / 10 ^ (- m_exponent d - 1) <= MaxCoefficient).
    { assert (1 <= 10 ^ (- m_exponent d - 1)) by (change 1 with (10 ^ 0) at 1; apply pow10_le; lia). split; [apply Z.div_pos; lia |]. apply Z.div_le_upper_bound; nia. }
    split; [| split]; eexists; (split; [done |]); by apply rounded_typed.
Qed.
