(* ===== verification/DecimalScan.v ===== *)
(** * Decimal: reading a numeral

    A numeral with sign, leading zeros, digits, fraction and exponent, as long as the
    digits and the exponent fit, is read as the number it spells. *)

From S2P Require Import Prelude Digits Decimal DecimalArithmetic DecimalValue.

Lemma isDigit_true (c : Z) : 48 <= c <= 57 -> isDigit c = true.
Proof. intros H. unfold isDigit. apply andb_true_iff. rewrite !Z.leb_le. lia. Qed.

Lemma digit_not (c k : Z) : 48 <= c <= 57 -> ~ 48 <= k <= 57 -> (c =? k) = false.
Proof. intros Hc Hk. apply Z.eqb_neq. intros ->. done. Qed.

(** The digit goes into the accumulator without overflow. *)
Lemma accumulate_ok (s : Scan) (c : Z) : 48 <= c <= 57 -> 0 <= s_numberOfDigits s < 18 -> 0 <= s_accumulator s < 10 ^ s_numberOfDigits s ->
  accumulate s c = s_accumulator s * 10 + (c - ch "0").
Proof.
  intros Hc Hn Ha. assert (10 ^ (s_numberOfDigits s + 1) <= 10 ^ 18) by (apply pow10_le; lia). rewrite pow10_succ in * by lia.
  unfold accumulate. rewrite !u64_small; [done | unfold isU64; lia | rewrite u64_small; unfold isU64; lia].
Qed.

(** ** The loop over digits *)

Lemma scan_digits (ds rest : list Z) (e nd nad nxd acc : Z) (es sg : Sign) :
  digits ds -> 0 <= nd -> nd + count ds <= 18 -> 0 <= acc < 10 ^ nd ->
  scanLoop (MakeScan e es nd nad nxd sg StateDigit acc) (ds ++ rest) =
  scanLoop (MakeScan e es (nd + count ds) nad nxd sg StateDigit (numFrom acc ds)) rest.
Proof.
  unfold count. intros Hd. revert nd acc. induction Hd as [| c ds Hc Hd IH]; intros nd acc Hn Hle Ha; cbn [app length numFrom fold_left].
  { by rewrite Z.add_0_r. }
  cbn [length] in Hle. rewrite Nat2Z.inj_succ in *. cbn [scanLoop]. unfold step. cbn [s_state]. rewrite isDigit_true by done.
  unfold digit. cbn [s_numberOfDigits s_exponent s_exponentSign s_numberOfDigitsAfterDot s_numberOfExtraDigits s_sign]. change Precision with 18.
  rewrite (proj2 (Z.ltb_lt nd 18)) by lia. rewrite accumulate_ok by (done || cbn; lia). cbn [s_accumulator].
  rewrite IH; [unfold numFrom; do 2 f_equal; lia | lia | lia |]. rewrite pow10_succ by lia. lia.
Qed.

Lemma scan_fraction (ds rest : list Z) (e nd nad nxd acc : Z) (es sg : Sign) (st : ScanState) :
  digits ds -> 0 <= nd -> nd + count ds <= 18 -> 0 <= acc < 10 ^ nd -> st = StateDot \/ st = StateDotDigit ->
  scanLoop (MakeScan e es nd nad nxd sg st acc) (ds ++ rest) =
  scanLoop (MakeScan e es (nd + count ds) (nad + count ds) nxd sg (match ds with [] => st | _ => StateDotDigit end) (numFrom acc ds)) rest.
Proof.
  unfold count. intros Hd. revert nd nad acc st. induction Hd as [| c ds Hc Hd IH]; intros nd nad acc st Hn Hle Ha Hst; cbn [app length numFrom fold_left].
  { by rewrite !Z.add_0_r. }
  cbn [length] in Hle. rewrite Nat2Z.inj_succ in *. cbn [scanLoop].
  assert (step (MakeScan e es nd nad nxd sg st acc) c = inl (MakeScan e es (nd + 1) (nad + 1) nxd sg StateDotDigit (acc * 10 + (c - ch "0")))) as ->.
  { unfold step. cbn [s_state]. rewrite isDigit_true by done. unfold dotDigit. cbn [s_numberOfDigits]. change Precision with 18.
    rewrite (proj2 (Z.ltb_lt nd 18)) by lia. rewrite accumulate_ok by (done || cbn; lia). by destruct Hst as [-> | ->]. }
  rewrite IH; [unfold numFrom; f_equal; f_equal; [lia | lia | by destruct ds] | lia | lia | | by right].
  rewrite pow10_succ by lia. lia.
Qed.

Lemma scan_exponent (ds rest : list Z) (e nd nad nxd acc : Z) (es sg : Sign) :
  digits ds -> 0 <= e -> numFrom e ds <= 1041 ->
  scanLoop (MakeScan e es nd nad nxd sg StateEDigit acc) (ds ++ rest) =
  scanLoop (MakeScan (numFrom e ds) es nd nad nxd sg StateEDigit acc) rest.
Proof.
  intros Hd. revert e. induction Hd as [| c ds Hc Hd IH]; intros e He Hle; cbn [app]; [done |].
  cbn [scanLoop]. unfold step. cbn [s_state s_exponent]. rewrite isDigit_true by done. cbn zeta.
  change (numFrom e (c :: ds)) with (numFrom (e * 10 + (c - ch "0")) ds) in *.
  pose proof (numFrom_le (e * 10 + (c - 48)) ds Hd ltac:(lia)) as Hl. change (ExponentMax + Precision) with 1041.
  rewrite Z.gtb_ltb, (proj2 (Z.ltb_ge 1041 _)) by lia. apply IH; lia.
Qed.

(** ** Numerals *)

(** A sign, leading zeros and digits, a dot and digits, and the marker of an exponent with
    its sign and digits. *)
Record Numeral := MakeNumeral {
  n_sign : option Sign; n_zeros : nat; n_digits : list Z; n_fraction : option (list Z); n_exponent : option (Z * option Sign * list Z) }.

Definition spellSign (s : option Sign) : list Z := match s with Some Positive => [ch "+"] | Some Negative => [ch "-"] | None => [] end.
Definition spellFraction (f : option (list Z)) : list Z := match f with Some ds => ch "." :: ds | None => [] end.
Definition spellExponent (x : option (Z * option Sign * list Z)) : list Z :=
  match x with Some (marker, s, ds) => marker :: spellSign s ++ ds | None => [] end.
Definition spell (n : Numeral) : list Z :=
  spellSign (n_sign n) ++ replicate (n_zeros n) (ch "0") ++ n_digits n ++ spellFraction (n_fraction n) ++ spellExponent (n_exponent n).

(** The number it spells: its digits times a power of ten. *)
Definition fractionDigits (n : Numeral) : list Z := default [] (n_fraction n).
Definition coefficientOf (n : Numeral) : Z := numFrom 0 (n_digits n ++ fractionDigits n).
Definition exponentOf (n : Numeral) : Z :=
  match n_exponent n with Some (_, s, ds) => signed (default Positive s) (numFrom 0 ds) | None => 0 end - count (fractionDigits n).

(** What is well spelled: digits or a zero before the dot, digits behind the dot unless an
    exponent follows, digits in the exponent. *)
Definition wellSpelled (n : Numeral) : Prop :=
  digits (n_digits n) /\ digits (fractionDigits n) /\
  match n_digits n with [] => n_zeros n <> 0%nat | c :: _ => c <> ch "0" end /\
  (n_fraction n = Some [] -> n_exponent n <> None) /\
  match n_exponent n with Some (marker, _, ds) => isE marker = true /\ digits ds /\ ds <> [] /\ numFrom 0 ds <= 1041 | None => True end.

(** And what fits: seventeen digits, and an exponent a Decimal can have. *)
Definition fits (n : Numeral) : Prop :=
  count (n_digits n) + count (fractionDigits n) <= 18 /\ coefficientOf n <= MaxCoefficient /\ -1023 <= exponentOf n /\
  (exponentOf n <= 1022 \/
   exponentOf n - 1022 <= 17 /\ exponentOf n - 1022 + count (n_digits n) <= 18 /\ coefficientOf n * 10 ^ (exponentOf n - 1022) < 10 ^ 18).

Lemma scan_zeros (n : nat) (rest : list Z) (s : Scan) : s_state s = StateZero -> scanLoop s (replicate n (ch "0") ++ rest) = scanLoop s rest.
Proof. intros Hs. induction n as [| n IH]; [done |]. cbn [replicate app scanLoop]. unfold step. rewrite Hs. exact IH. Qed.

(** A digit other than 0 in the states that begin a number. *)
Lemma scan_first (s : Scan) (c : Z) (rest : list Z) :
  48 <= c <= 57 -> c <> 48 -> s_state s = StateStart \/ s_state s = StateSign \/ s_state s = StateZero ->
  scanLoop s (c :: rest) = scanLoop (firstDigit s c) rest.
Proof.
  intros Hc Hn Hs. cbn [scanLoop]. assert (isNonZeroDigit c = true) as E by (unfold isNonZeroDigit; apply andb_true_iff; rewrite !Z.leb_le; lia).
  unfold step. destruct Hs as [-> | [-> | ->]]; rewrite ?E; [done | done |]. by rewrite (proj2 (Z.eqb_neq c _)).
Qed.

(** The part before the dot. *)
Lemma scan_integer (sg : option Sign) (zeros : nat) (ds rest : list Z) :
  digits ds -> count ds <= 18 -> match ds with [] => zeros <> 0%nat | c :: _ => c <> ch "0" end ->
  scanLoop newScan (spellSign sg ++ replicate zeros (ch "0") ++ ds ++ rest) =
  scanLoop (MakeScan 0 Positive (count ds) 0 0 (default Positive sg) (match ds with [] => StateZero | _ => StateDigit end) (numFrom 0 ds)) rest.
Proof.
  intros Hd Hle Hhead. set (s := MakeScan 0 Positive 0 0 0 (default Positive sg) (match sg with None => StateStart | _ => StateSign end) 0).
  assert (scanLoop newScan (spellSign sg ++ replicate zeros (ch "0") ++ ds ++ rest) = scanLoop s (replicate zeros (ch "0") ++ ds ++ rest)) as ->
    by (by destruct sg as [[|] |]).
  assert (First : forall s', s_state s' = StateStart \/ s_state s' = StateSign \/ s_state s' = StateZero ->
    forall c ds', ds = c :: ds' -> s_exponent s' = 0 -> s_exponentSign s' = Positive -> s_numberOfDigitsAfterDot s' = 0 -> s_numberOfExtraDigits s' = 0 ->
    scanLoop s' (ds ++ rest) = scanLoop (MakeScan 0 Positive (count ds) 0 0 (s_sign s') StateDigit (numFrom 0 ds)) rest).
  { intros s' Hs c ds' -> H1 H2 H3 H4. inversion Hd as [| ? ? Hc Hd']. subst. cbn [app]. rewrite scan_first by done.
    unfold firstDigit. rewrite H1, H2, H3, H4. unfold count in *. cbn [length] in *. rewrite scan_digits by (done || unfold count; lia).
    unfold count. do 2 f_equal. lia. }
  destruct zeros as [| zeros].
  - destruct ds as [| c ds']; [done |]. change (replicate 0 (ch "0") ++ (c :: ds') ++ rest) with ((c :: ds') ++ rest).
    rewrite (First s) with (c := c) (ds' := ds') by (done || (subst s; destruct sg as [[|] |]; cbn; tauto)). done.
  - change (replicate (S zeros) (ch "0") ++ ds ++ rest) with (ch "0" :: replicate zeros (ch "0") ++ ds ++ rest).
    assert (scanLoop s (ch "0" :: replicate zeros (ch "0") ++ ds ++ rest) = scanLoop (goto s StateZero) (replicate zeros (ch "0") ++ ds ++ rest)) as ->
      by (subst s; by destruct sg as [[|] |]).
    rewrite scan_zeros by done. destruct ds as [| c ds']; [done |]. rewrite (First (goto s StateZero)) with (c := c) (ds' := ds') by (done || (cbn; tauto)). done.
Qed.

(** The dot and the digits behind it. *)
Lemma scan_dot (f : option (list Z)) (e nd acc : Z) (es sg : Sign) (st : ScanState) (rest : list Z) :
  digits (default [] f) -> 0 <= nd -> nd + count (default [] f) <= 18 -> 0 <= acc < 10 ^ nd -> st = StateZero \/ st = StateDigit ->
  scanLoop (MakeScan e es nd 0 0 sg st acc) (spellFraction f ++ rest) =
  scanLoop (MakeScan e es (nd + count (default [] f)) (count (default [] f)) 0 sg
              (match f with None => st | Some [] => StateDot | Some _ => StateDotDigit end) (numFrom acc (default [] f))) rest.
Proof.
  intros Hd Hn Hle Ha Hst. destruct f as [ds |]; cbn [default from_option id spellFraction app] in *.
  - assert (scanLoop (MakeScan e es nd 0 0 sg st acc) (ch "." :: ds ++ rest) = scanLoop (MakeScan e es nd 0 0 sg StateDot acc) (ds ++ rest)) as ->
      by (by destruct Hst as [-> | ->]).
    rewrite scan_fraction by (done || by left). rewrite Z.add_0_l. by destruct ds.
  - unfold count. cbn [length]. by rewrite Z.add_0_r.
Qed.

(** The exponent. *)
Lemma scan_marker (marker : Z) (xs : option Sign) (ds : list Z) (nd nad acc : Z) (sg : Sign) (st : ScanState) :
  isE marker = true -> digits ds -> ds <> [] -> numFrom 0 ds <= 1041 -> st <> StateE -> st <> StateEDigit -> st <> StateESign -> st <> StateSign -> st <> StateStart ->
  scanLoop (MakeScan 0 Positive nd nad 0 sg st acc) (marker :: spellSign xs ++ ds) =
  inl (MakeScan (numFrom 0 ds) (default Positive xs) nd nad 0 sg StateEDigit acc).
Proof.
  intros Hm Hd Hne Hle H1 H2 H3 H4 H5. cbn [scanLoop].
  assert (step (MakeScan 0 Positive nd nad 0 sg st acc) marker = inl (MakeScan 0 Positive nd nad 0 sg StateE acc)) as ->.
  { unfold isE in Hm. apply orb_true_iff in Hm. destruct Hm as [->%Z.eqb_eq | ->%Z.eqb_eq]; by destruct st. }
  destruct ds as [| c ds]; [done |]. inversion Hd as [| ? ? Hc Hd']. subst.
  assert (scanLoop (MakeScan 0 Positive nd nad 0 sg StateE acc) (spellSign xs ++ c :: ds) =
          scanLoop (MakeScan (0 * 10 + (c - 48)) (default Positive xs) nd nad 0 sg StateEDigit acc) (ds ++ [])) as ->.
  { rewrite app_nil_r. destruct xs as [[|] |]; cbn [spellSign app scanLoop step s_state]; unfold step; cbn [s_state];
      try (change (ch "+" =? ch "+") with true; change (ch "-" =? ch "-") with true; change (ch "-" =? ch "+") with false);
      cbn [scanLoop withExponentSign]; unfold step; cbn [s_state]; rewrite ?(digit_not c 43), ?(digit_not c 45), ?isDigit_true by lia; done. }
  change (numFrom 0 (c :: ds)) with (numFrom (0 * 10 + (c - 48)) ds) in *. by rewrite scan_exponent by (done || lia).
Qed.

(** ** Behind the last character *)

Lemma finish_ok (sg : Sign) (es : Sign) (e nd nad acc : Z) (st : ScanState) :
  st = StateDigit \/ st = StateEDigit \/ st = StateDotDigit -> 0 <= acc <= MaxCoefficient ->
  let R := signed es e - nad in
  -1023 <= R -> (R <= 1022 \/ R - 1022 <= 17 /\ R - 1022 + (nd - nad) <= 18 /\ acc * 10 ^ (R - 1022) < 10 ^ 18) ->
  exists q, finish (MakeScan e es nd nad 0 sg st acc) = Some q /\ isDecimal q /\ isFinite q = true /\ m_sign q = sg /\ val q = signed sg (acc * unitAt R).
Proof.
  intros Hst Ha R HR Hfit. unfold finish. cbn [s_state s_exponent s_exponentSign s_numberOfDigitsAfterDot s_numberOfExtraDigits s_sign s_accumulator s_numberOfDigits].
  assert ((e * (if sameSign es Negative then -1 else 1) - nad + 0) = R) as -> by (unfold R; destruct es; classify; lia).
  change ExponentMin with (-1023). change ExponentMax with 1023. change Precision with 18. rewrite (proj2 (Z.ltb_ge R (-1023))) by lia. cbn zeta.
  rewrite !Z.gtb_ltb. assert (Hu := coefficient_u64 acc Ha). destruct (Z.ltb_spec 0 (R - 1023 + 1)) as [L | L].
  - rewrite (proj2 (Z.ltb_ge 18 _)) by lia. rewrite scaleUp_ok by lia. replace (R - 1023 + 1) with (R - 1022) by lia.
    assert (Hp : acc * 10 ^ (R - 1022) < 10 ^ 18) by lia. assert (P1 : 0 < 10 ^ (R - 1022)) by (apply pow10_pos; lia).
    rewrite u64_small by (unfold isU64; nia). cbn [mbind option_bind].
    set (c := acc * 10 ^ (R - 1022)) in *. replace (R - (R - 1022)) with 1022 by lia. exists (make sg 1022 c).
    assert (Hc : isU64 c) by (unfold isU64; nia). assert (c <> 0 -> 0 < c) by nia.
    destruct (make_in_range sg 1022 c Hc) as (j & (Hj & Hd & Hs & Hb) & E); [unfold exponentRange; lia |].
    assert (J : j = 0 \/ j = 1).
    { destruct (Z.le_gt_cases c MaxCoefficient) as [G | G]; [left; by apply Hs |]. specialize (Hb G).
      assert (j < 2); [| lia]. apply pow10_lt_inv; [lia |]. assert (P2 : 0 < 10 ^ j) by (apply pow10_pos; lia). pose proof (cut_bounds (10 ^ j) c P2). nia. }
    assert (D : c / 10 ^ j * unitAt (1022 + j) = acc * unitAt R).
    { rewrite unitAt_add by lia. replace R with (1022 + (R - 1022)) by lia. rewrite unitAt_add by lia.
      rewrite !Z.mul_assoc. f_equal. fold c. destruct J as [-> | ->]; [change (10 ^ 0) with 1; by rewrite Z.div_1_r, Z.mul_1_r |].
      unfold c. replace (R - 1022) with (R - 1023 + 1) by lia. rewrite pow10_succ, Z.mul_assoc by lia. change (10 ^ 1) with 10. by rewrite Z.div_mul. }
    split; [by destruct Hst as [-> | [-> | ->]] |]. split; [by apply make_isDecimal |].
    rewrite E, Z.gtb_ltb, (proj2 (Z.ltb_ge 1023 (1022 + j))) by lia. split; [by destruct (c =? 0) |]. split; [done |]. unfold val, magnitude. cbn [m_coefficient m_exponent m_sign]. by rewrite D.
  - exists (make sg R acc). split; [by destruct Hst as [-> | [-> | ->]] |]. split; [by apply make_isDecimal |].
    rewrite make_small by (try unfold exponentRange; lia). split; [by destruct (acc =? 0) |]. by split.
Qed.

(** ** Reading what is spelled *)

Definition signOf (n : Numeral) : Sign := default Positive (n_sign n).

Lemma scan_spelled (n : Numeral) : wellSpelled n -> count (n_digits n) + count (fractionDigits n) <= 18 ->
  exists st e es, scanLoop newScan (spell n) =
    inl (MakeScan e es (count (n_digits n) + count (fractionDigits n)) (count (fractionDigits n)) 0 (signOf n) st (coefficientOf n)) /\
    signed es e - count (fractionDigits n) = exponentOf n /\
    (st = StateDigit \/ st = StateEDigit \/ st = StateDotDigit \/ (st = StateZero /\ n_digits n = [] /\ n_fraction n = None /\ n_exponent n = None)).
Proof.
  intros (Hd & Hf & Hhead & Hdot & Hx) Hle. unfold spell, coefficientOf, fractionDigits, exponentOf in *. rewrite numFrom_app.
  destruct n as [sg zeros ds f x]. cbn [n_sign n_zeros n_digits n_fraction n_exponent] in *. rewrite scan_integer by (done || unfold count in *; lia).
  assert (Hb : 0 <= numFrom 0 ds < 10 ^ count ds) by (replace (count ds) with (0 + count ds) by lia; apply numFrom_bounds; [done | lia | lia]).
  rewrite scan_dot; [| done | unfold count; lia | done | done | destruct ds; tauto].
  unfold signOf. cbn [n_sign]. destruct x as [[[marker xs] es] |]; cbn [spellExponent].
  - destruct Hx as (Hm & Hes & Hne & Hle'). rewrite scan_marker by (done || by destruct f as [[|] |], ds).
    eexists StateEDigit, _, _. split; [done |]. split; [done | tauto].
  - cbn [scanLoop]. eexists _, _, _. split; [done |]. split; [done |].
    destruct f as [[| c fs] |]; [by destruct Hdot | tauto | destruct ds; tauto].
Qed.

Lemma fromString_reads (n : Numeral) : wellSpelled n -> fits n ->
  exists q, fromString (spell n) = Some q /\ isDecimal q /\ isFinite q = true /\ m_sign q = signOf n /\
    val q = signed (signOf n) (coefficientOf n * unitAt (exponentOf n)).
Proof.
  intros Hw (Hc & Hmax & Hlo & Hhi). destruct (scan_spelled n Hw Hc) as (st & e & es & E & Ex & Hst). unfold fromString. rewrite E.
  assert (H0 : 0 <= coefficientOf n).
  { unfold coefficientOf. apply (numFrom_bounds 0 0); [| lia | lia]. destruct Hw as (Hd & Hf & _). by apply list.Forall_app. }
  assert (Hn : st = StateDigit \/ st = StateEDigit \/ st = StateDotDigit \/ st = StateZero) by tauto.
  destruct Hst as [Hst | [Hst | [Hst | (-> & Hd & Hf & Hx)]]].
  1-3: rewrite <- Ex in *; apply finish_ok; [tauto | lia | lia | destruct Hhi as [| (? & ? & ?)]; [by left | right; lia]].
  exists (zero (signOf n)). unfold coefficientOf, fractionDigits. rewrite Hd, Hf. by destruct (signOf n).
Qed.

(** The accumulator stays 64 bits wide, whatever is read. *)
Lemma step_typed (s : Scan) (c : Z) : isU64 (s_accumulator s) ->
  match step s c with inl s' => isU64 (s_accumulator s') | inr d => isDecimal d end.
Proof.
  intros Hs. assert (Hn : isDecimal nan) by done.
  assert (Hfirst : isNonZeroDigit c = true -> isU64 (s_accumulator (firstDigit s c))).
  { unfold isNonZeroDigit. rewrite andb_true_iff, !Z.leb_le. cbn. unfold isU64. lia. }
  assert (Hdigit : isU64 (s_accumulator (digit s c))) by (unfold digit; destruct (_ <? _); [cbn; unfold accumulate; apply u64_isU64 | done]).
  assert (Hdot : isU64 (s_accumulator (dotDigit s c))) by (unfold dotDigit; destruct (_ <? _); [cbn; unfold accumulate; apply u64_isU64 | done]).
  unfold step. destruct (s_state s).
  all: repeat match goal with |- context [if ?b then _ else _] => destruct b eqn:? end; try done; by auto.
Qed.

Lemma fromString_typed (str : list Z) (q : Decimal) : fromString str = Some q -> isDecimal q.
Proof.
  unfold fromString. assert (H : match scanLoop newScan str with inl s => isU64 (s_accumulator s) | inr d => isDecimal d end).
  { assert (H0 : isU64 (s_accumulator newScan)) by (unfold isU64; cbn; lia). revert H0. generalize newScan. induction str as [| c str IH]; intros s Hs; [done |].
    cbn [scanLoop]. pose proof (step_typed s c Hs) as H1. destruct (step s c); [by apply IH | done]. }
  destruct (scanLoop newScan str) as [s | d]; [| by intros [= <-]]. unfold finish.
  assert (Hmake : forall e a, isU64 a -> Some (make (s_sign s) e a) = Some q -> isDecimal q) by (intros e a Ha [= <-]; by apply make_isDecimal).
  destruct (s_state s); try (by intros [= <-]).
  all: destruct (_ <? ExponentMin); [by intros [= <-] |]; cbv zeta; destruct (_ >? 0); [| by apply Hmake].
  all: destruct (_ >? Precision); [by intros [= <-] |]; destruct (scaleUp _ _) as [a |] eqn:E; [| done]; cbn [mbind option_bind]; apply Hmake.
  all: by eapply scaleUp_typed.
Qed.

(** The digits behind the dot are among the digits, and these are at most eighteen. *)
Definition counted (s : Scan) : Prop :=
  0 <= s_numberOfDigitsAfterDot s <= s_numberOfDigits s /\ s_numberOfDigits s <= Precision /\
  match s_state s with StateStart | StateSign | StateZero => s_numberOfDigitsAfterDot s = 0 | _ => True end.

Lemma step_counted (s s' : Scan) (c : Z) : counted s -> step s c = inl s' -> counted s'.
Proof.
  unfold counted, Precision. destruct s as [e es nd na ne sg st acc]. unfold step, digit, dotDigit, Precision. cbn [s_state s_numberOfDigits]. intros Hs E.
  destruct st; cbn in Hs.
  all: repeat match type of E with (if ?b then _ else _) = _ => destruct b eqn:? end; try discriminate E; injection E as <-.
  all: repeat match goal with |- context [if ?b then _ else _] => destruct b eqn:? end; cbn in *; try rewrite Z.ltb_lt in *; lia.
Qed.

Lemma scan_counted (str : list Z) : forall s s', counted s -> scanLoop s str = inl s' -> counted s'.
Proof.
  induction str as [| c str IH]; intros s s' Hs; cbn [scanLoop]; [by intros [= <-] |].
  destruct (step s c) as [s1 | d] eqn:E; [| done]. apply IH. by eapply step_counted.
Qed.

(** The exponent of the integer that the digits make. *)
Definition scannedExponent (s : Scan) : Z :=
  s_exponent s * (if sameSign (s_exponentSign s) Negative then -1 else 1) - s_numberOfDigitsAfterDot s + s_numberOfExtraDigits s.

(** A text without a counted digit before the dot whose digits have the exponent 1040. *)
Definition unscalable (str : list Z) : Prop :=
  exists s, scanLoop newScan str = inl s /\ (s_state s = StateDigit \/ s_state s = StateEDigit \/ s_state s = StateDotDigit) /\
    scannedExponent s = ExponentMax + 17 /\ s_numberOfDigits s = s_numberOfDigitsAfterDot s.

(** fromString fails the assertion of scaleUp for these texts, and for no other. *)
Lemma fromString_fails (str : list Z) : fromString str = None <-> unscalable str.
Proof.
  unfold fromString, unscalable. destruct (scanLoop newScan str) as [s | d] eqn:E; [| split; [done | by intros (s & ? & _)]].
  assert (Hc : counted s) by (eapply scan_counted; [| exact E]; by vm_compute). destruct Hc as (Hc & Hp & _).
  trans ((s_state s = StateDigit \/ s_state s = StateEDigit \/ s_state s = StateDotDigit) /\ scannedExponent s = ExponentMax + 17 /\ s_numberOfDigits s = s_numberOfDigitsAfterDot s);
    [| split; [intros H; by exists s | by intros (s' & [= <-] & H)]].
  unfold finish. fold (scannedExponent s). unfold Precision, ExponentMin, ExponentMax in *. cbv zeta.
  destruct (s_state s); try (split; [done | by intros ([H | [H | H]] & _)]).
  all: destruct (Z.ltb_spec (scannedExponent s) (-1023)); [split; [done | lia] |].
  all: rewrite !Z.gtb_ltb; destruct (Z.ltb_spec 0 (scannedExponent s - 1023 + 1)); [| split; [done | lia]].
  all: match goal with |- context [18 <? ?z] => destruct (Z.ltb_spec 18 z) end; [split; [done | lia] |].
  all: destruct (Z.lt_ge_cases (scannedExponent s - 1023 + 1) 18); [rewrite scaleUp_ok by lia; split; [done | lia] |].
  all: unfold scaleUp, Precision; rewrite (proj2 (Z.leb_le 0 _)), (proj2 (Z.ltb_ge _ 18)) by lia; split; [intros _; split; [tauto | lia] | done].
Qed.
