(* ===== verification/DecimalText.v ===== *)
(** * Decimal: printing, and reading back what was printed

    toString prints a numeral that fromString reads back as the same value, unless the
    number has more than thirteen digits and a fraction. *)

From S2P Require Import Prelude Digits Decimal DecimalArithmetic DecimalValue DecimalSum DecimalProduct DecimalRound DecimalScan.

(** ** What is printed *)

Lemma stripLoop_ok (fuel : nat) (c e : Z) : 0 <= c -> e <= 0 ->
  exists z, 0 <= z /\ stripLoop fuel c e = (c / 10 ^ z, e + z) /\ c / 10 ^ z * 10 ^ z = c /\ e + z <= 0 /\ 0 <= c / 10 ^ z <= c.
Proof.
  revert c e. induction fuel as [| fuel IH]; intros c e Hc He; cbn [stripLoop];
    [exists 0; change (10 ^ 0) with 1; rewrite Z.div_1_r, Z.add_0_r; split; [lia |]; split; [done | lia] |].
  destruct ((e <? 0) && negb (c =? 0) && (c mod 10 =? 0)) eqn:G.
  - rewrite !andb_true_iff in G. destruct G as [[G1%Z.ltb_lt G2] G3%Z.eqb_eq]. pose proof (Z.div_mod c 10).
    destruct (IH (c / 10) (e + 1)) as (z & Hz & -> & Hm & He' & Hb); [lia | lia |]. exists (z + 1).
    assert (E : c / 10 / 10 ^ z = c / 10 ^ (z + 1)) by (rewrite pow10_succ, Z.div_div by (try apply pow10_pos; lia); f_equal; lia).
    rewrite E in *. set (q := c / 10 ^ (z + 1)) in *. split; [lia |]. split; [f_equal; lia |]. rewrite pow10_succ by lia. split; [lia |]. split; [lia |].
    assert (c / 10 <= c) by (apply Z.div_le_upper_bound; lia). lia.
  - exists 0. change (10 ^ 0) with 1. rewrite Z.div_1_r, Z.add_0_r. split; [lia |]. split; [done | lia].
Qed.

(** The number printed has the value, and is in the range that was. *)
Lemma printedDigits_ok (c e : Z) : 0 <= c <= MaxCoefficient -> exponentRange e -> 0 <= e \/ c < 10 ^ 15 ->
  exists c' e', printedDigits c e = (c', e') /\ 0 <= c' <= c /\ exponentRange e' /\ c' * unitAt e' = c * unitAt e /\ (e' < 0 -> e < 0).
Proof.
  intros Hc He Hor. unfold exponentRange in *. unfold printedDigits. destruct (Z.ltb_spec e 0) as [L | L]; [| exists c, e; split; [done |]; split; [lia |]; split; [lia |]; split; [done | lia]].
  assert (Hn : countDigits c <= 15) by (apply countDigits_le; [by apply coefficient_u64 | lia | lia]).
  assert (limitLoop 20 c e 0 = (c, e, 0)) as ->.
  { cbn [limitLoop]. change DBL_DIG with 15. by rewrite Z.gtb_ltb, (proj2 (Z.ltb_ge 15 _)) by lia. }
  change (0 >=? 5) with false. cbn iota. destruct (stripLoop_ok 20 c e) as (z & Hz & -> & Hm & He' & Hb); [lia | lia |].
  eexists _, _. split; [done |]. split; [done |]. split; [lia |]. split; [| lia]. rewrite unitAt_add, Z.mul_assoc by lia. by rewrite Hm.
Qed.

Lemma withDot_behind (ds : list Z) (i k : Z) : k < i -> withDot ds i k = ds.
Proof.
  revert i. induction ds as [| d ds IH]; intros i Hi; cbn [withDot]; [done |]. rewrite (proj2 (Z.eqb_neq i k)) by lia. cbn [app]. by rewrite IH by lia.
Qed.

(** The dot goes behind the digits before it. *)
Lemma withDot_ok (ds : list Z) (i k : Z) : i <= k < i + count ds ->
  withDot ds i k = take (Z.to_nat (k - i + 1)) ds ++ ch "." :: drop (Z.to_nat (k - i + 1)) ds.
Proof.
  unfold count. revert i. induction ds as [| d ds IH]; intros i Hk; cbn [length] in Hk; [lia |]. cbn [withDot].
  destruct (Z.eqb_spec i k) as [-> | Hne].
  - replace (k - k + 1) with 1 by lia. cbn [app]. change (Z.to_nat 1) with 1%nat. cbn [take drop app]. rewrite drop_0, withDot_behind by lia. done.
  - rewrite IH by lia. replace (Z.to_nat (k - i + 1)) with (S (Z.to_nat (k - (i + 1) + 1))) by lia. done.
Qed.

(** Zeros at the end are cut, but not the last digit. *)
Lemma trimLoop_ok (rs : list Z) : rs <> [] ->
  exists t kept, rs = replicate t (ch "0") ++ kept /\ trimLoop rs = kept /\ kept <> [].
Proof.
  induction rs as [| d rs IH]; [done |]. intros _. cbn [trimLoop]. destruct (isZeroDigit d && Nat.leb 1 (length rs)) eqn:G.
  - apply andb_true_iff in G as [G1%Z.eqb_eq G2]. destruct IH as (t & kept & E & T & K); [by destruct rs |].
    exists (S t), kept. split; [| done]. cbn. by rewrite <- E, G1.
  - by exists 0%nat, (d :: rs).
Qed.

Lemma trimmed_ok (ds : list Z) : ds <> [] ->
  exists t kept, ds = kept ++ replicate t (ch "0") /\ rev (trimLoop (rev ds)) = kept /\ kept <> [].
Proof.
  intros Hd. destruct (trimLoop_ok (rev ds)) as (t & kept & E & -> & K); [by destruct ds as [| d ds]; [| cbn; destruct (rev ds)] |].
  exists t, (rev kept). split; [| split; [done |]].
  - rewrite <- (rev_involutive ds), E, rev_app_distr. f_equal. clear. induction t as [| t IH]; [done |].
    cbn [replicate rev]. by rewrite IH, <- replicate_cons_app.
  - intros Hr. apply K. by rewrite <- (rev_involutive kept), Hr.
Qed.

(** ** The four forms *)

(** [body] behind a sign is a numeral that spells c * 10^e and fits. *)
Definition printsAs (body : list Z) (sg : option Sign) (c e : Z) : Prop :=
  exists n, spell n = spellSign sg ++ body /\ wellSpelled n /\ fits n /\ n_sign n = sg /\ coefficientOf n * unitAt (exponentOf n) = c * unitAt e.

(** A number of up to seventeen digits without exponent. *)
Lemma prints_whole (ds : list Z) (sg : option Sign) (c : Z) : 0 <= c <= MaxCoefficient -> spells ds c -> printsAs ds sg c 0.
Proof.
  intros Hc Hs. assert (Hn : count ds <= 17) by (apply (spells_count ds c); [done | unfold MaxCoefficient in Hc; lia | lia]).
  destruct Hs as (Hd & Hv & Hc1 & H0 & Hp). unfold printsAs. destruct (Z.eq_dec c 0) as [-> | Hne].
  - exists (MakeNumeral sg 1 [] None None). rewrite (H0 eq_refl). split; [done |]. split; [by repeat constructor |]. split; [| done].
    unfold fits, exponentOf, coefficientOf, fractionDigits, MaxCoefficient, count. cbn. lia.
  - destruct Hp as (_ & d & rest & Eds & Hh); [lia |]. exists (MakeNumeral sg 0 ds None None).
    assert (Ec : coefficientOf (MakeNumeral sg 0 ds None None) = c) by (unfold coefficientOf; cbn; by rewrite app_nil_r).
    split; [unfold spell; cbn; by rewrite !app_nil_r |]. split; [| split; [| split; [done | by rewrite Ec]]].
    + split; [done |]. split; [by constructor |]. split; [by rewrite Eds |]. by split.
    + unfold fits. rewrite Ec. unfold exponentOf, fractionDigits, count in *. cbn [n_digits n_fraction n_exponent default from_option id length]. lia.
Qed.

(** Digits on both sides of a dot. *)
Lemma prints_dotted (ds : list Z) (sg : option Sign) (c e : Z) : 0 < c <= MaxCoefficient -> spells ds c -> e < 0 -> 0 <= e + count ds - 1 ->
  printsAs (withDot ds 0 (e + count ds - 1)) sg c e.
Proof.
  intros Hc Hs He Ha. assert (Hn : count ds <= 17) by (apply (spells_count ds c); [done | unfold MaxCoefficient in Hc; lia | lia]).
  destruct Hs as (Hd & Hv & Hc1 & H0 & Hp). destruct Hp as (_ & d & rest & Eds & Hh); [lia |].
  rewrite withDot_ok by lia. replace (e + count ds - 1 - 0 + 1) with (e + count ds) by lia. set (k := Z.to_nat (e + count ds)).
  assert (Hk : (1 <= k < length ds)%nat) by (unfold k, count in *; lia).
  exists (MakeNumeral sg 0 (take k ds) (Some (drop k ds)) None).
  assert (Ec : coefficientOf (MakeNumeral sg 0 (take k ds) (Some (drop k ds)) None) = c) by (unfold coefficientOf, fractionDigits; cbn; by rewrite take_drop).
  assert (Hct : count (take k ds) + count (drop k ds) = count ds) by (rewrite <- count_app; by rewrite take_drop).
  assert (Hcd : count (drop k ds) = - e) by (unfold count; rewrite length_drop; unfold k, count in *; lia).
  assert (Ee : exponentOf (MakeNumeral sg 0 (take k ds) (Some (drop k ds)) None) = e) by (unfold exponentOf, fractionDigits; cbn; lia).
  split; [unfold spell; cbn; by rewrite app_nil_r |]. split; [| split; [| split; [done | by rewrite Ec, Ee]]].
  - rewrite <- (take_drop k ds) in Hd. apply digit_lists in Hd as [Hd1 Hd2]. split; [done |]. split; [done |]. cbn [n_digits n_zeros n_fraction n_exponent].
    split; [subst ds; destruct k as [| k']; [lia | done] |]. split; [| done]. intros [= E]. unfold count in Hcd. rewrite E in Hcd. cbn in Hcd. lia.
  - unfold fits. rewrite Ec, Ee. unfold fractionDigits. cbn [n_digits n_fraction default from_option id]. unfold count in *. lia.
Qed.

(** A zero, the dot, zeros and the digits, eighteen digits in all. *)
Lemma prints_fraction (ds : list Z) (sg : option Sign) (c e : Z) :
  0 <= c <= MaxCoefficient -> spells ds c -> e < 0 -> -18 <= e -> e + count ds - 1 < 0 ->
  printsAs ([ch "0"; ch "."] ++ replicate (Z.to_nat (- (e + count ds - 1 + 1))) (ch "0") ++ ds) sg c e.
Proof.
  intros Hc Hs He He' Ha. destruct Hs as (Hd & Hv & Hc1 & H0 & Hp). set (k := Z.to_nat (- (e + count ds - 1 + 1))).
  set (f := replicate k (ch "0") ++ ds). exists (MakeNumeral sg 1 [] (Some f) None).
  assert (Hf : digits f) by (apply list.Forall_app; split; [apply Forall_replicate; lia | done]).
  assert (Ec : coefficientOf (MakeNumeral sg 1 [] (Some f) None) = c).
  { unfold coefficientOf, fractionDigits. cbn [n_digits n_fraction default from_option id app]. unfold f. rewrite numFrom_app, numFrom_zeros. done. }
  assert (Hcf : count f = - e) by (unfold f; rewrite count_app; unfold count at 1; rewrite length_replicate; unfold k; lia).
  assert (Ee : exponentOf (MakeNumeral sg 1 [] (Some f) None) = e) by (unfold exponentOf, fractionDigits; cbn; lia).
  split; [unfold spell; cbn; by rewrite app_nil_r |]. split; [| split; [| split; [done | by rewrite Ec, Ee]]].
  - split; [by constructor |]. split; [done |]. split; [done |]. split; [| done]. cbn. intros [= E]. rewrite E in Hcf. unfold count in Hcf. cbn in Hcf. lia.
  - unfold fits. rewrite Ec, Ee. unfold fractionDigits. cbn [n_digits n_fraction default from_option id]. unfold count in *. cbn [length]. lia.
Qed.

(** The exponent as it is printed. *)
Definition printedExponent (a : Z) : list Z := (if a <? 0 then units "e" else units "e+") ++ signedToString a.

Lemma printedExponent_ok (a : Z) : a <> 0 -> -1041 <= a <= 1041 ->
  exists s ds, printedExponent a = spellExponent (Some (ch "e", Some s, ds)) /\ digits ds /\ ds <> [] /\ signed s (numFrom 0 ds) = a /\ numFrom 0 ds <= 1041.
Proof.
  intros Hn Ha. unfold printedExponent, signedToString. destruct (Z.ltb_spec a 0) as [L | L].
  - destruct (numberToString_ok (- a)) as (Hd & Hv & Hc & _); [lia |]. exists Negative, (numberToString (- a)).
    split; [done |]. split; [done |]. split; [intros E; rewrite E in Hc; unfold count in Hc; cbn in Hc; lia |]. rewrite Hv. cbn [signed]. lia.
  - destruct (numberToString_ok a) as (Hd & Hv & Hc & _); [lia |]. exists Positive, (numberToString a).
    split; [done |]. split; [done |]. split; [intros E; rewrite E in Hc; unfold count in Hc; cbn in Hc; lia |]. rewrite Hv. cbn [signed]. lia.
Qed.

(** The digits of a number that is not zero, zeros at their end cut. *)
Lemma kept_digits (kept : list Z) (t : nat) (c : Z) : spells (kept ++ replicate t (ch "0")) c -> c = numFrom 0 kept * 10 ^ Z.of_nat t.
Proof. intros (_ & Hv & _). by rewrite numFrom_app, numFrom_zeros in Hv. Qed.

(** The digit before the dot is a leading zero, or the first digit. *)
Lemma leading_digit (d0 : Z) (more : list Z) : 48 <= d0 <= 57 ->
  exists z ds, replicate z (ch "0") ++ ds = [d0] /\ digits ds /\ match ds with [] => z <> 0%nat | c :: _ => c <> ch "0" end /\
    count ds <= 1 /\ numFrom 0 (ds ++ more) = numFrom 0 (d0 :: more).
Proof.
  intros H. destruct (Z.eq_dec d0 (ch "0")) as [-> | Hd0].
  - exists 1%nat, []. split; [done |]. split; [constructor |]. split; [done |]. split; [unfold count; cbn; lia | done].
  - exists 0%nat, [d0]. split; [done |]. split; [constructor; [done | constructor] |]. split; [done |]. split; [unfold count; cbn; lia | done].
Qed.

(** A digit, the dot and digits if there are more, and the exponent. *)
Lemma prints_scientific (ds : list Z) (sg : option Sign) (c e : Z) :
  0 <= c <= MaxCoefficient -> spells ds c -> exponentRange e -> e + count ds - 1 <> 0 ->
  printsAs (match rev (trimLoop (rev ds)) with
            | [] => []
            | d0 :: more => [d0] ++ (match more with [] => [] | _ => ch "." :: more end) ++ printedExponent (e + count ds - 1)
            end) sg c e.
Proof.
  intros Hc Hs He Ha. unfold exponentRange in He. assert (Hn : count ds <= 17) by (apply (spells_count ds c); [done | unfold MaxCoefficient in Hc; lia | lia]).
  destruct (trimmed_ok ds) as (t & kept & Eds & -> & Hk); [destruct Hs as (_ & _ & H1 & _); by destruct ds |].
  destruct kept as [| d0 more]; [done |]. set (a := e + count ds - 1) in *.
  assert (Hct : count ds = 1 + count more + Z.of_nat t).
  { rewrite Eds, count_app. unfold count. rewrite length_replicate. cbn [length]. lia. }
  assert (Hm0 : 0 <= count more) by (unfold count; lia).
  destruct (printedExponent_ok a Ha) as (s & es & -> & Hes & Hne & Hsa & Hle); [unfold a; lia |].
  assert (Hs' := Hs). rewrite Eds in Hs'. assert (Ekept := kept_digits _ _ _ Hs'). destruct Hs' as (Hd & _). apply digit_lists in Hd as [Hd _].
  set (f := match more with [] => None | _ => Some more end). assert (Hf : default [] f = more) by (by destruct more).
  assert (Hfs : match more with [] => [] | _ => ch "." :: more end = spellFraction f) by (by destruct more). rewrite Hfs.
  assert (Hfe : f <> Some []) by (by destruct more).
  assert (Hdm : digits more) by (by inversion Hd).
  assert (Ht : 1 <= 10 ^ Z.of_nat t) by (change 1 with (10 ^ 0) at 1; apply pow10_le; lia).
  destruct (leading_digit d0 more) as (z & ds' & Ez & Hd' & Hh & Hc1 & Ev); [by inversion Hd |]. exists (MakeNumeral sg z ds' f (Some (ch "e", Some s, es))).
  assert (Ec : coefficientOf (MakeNumeral sg z ds' f (Some (ch "e", Some s, es))) * 10 ^ Z.of_nat t = c).
  { unfold coefficientOf, fractionDigits. cbn [n_digits n_fraction]. by rewrite Hf, Ev. }
  assert (Ee : exponentOf (MakeNumeral sg z ds' f (Some (ch "e", Some s, es))) = e + Z.of_nat t).
  { unfold exponentOf, fractionDigits. cbn [n_exponent n_fraction default from_option id]. rewrite Hf, Hsa. unfold a. lia. }
  set (n := MakeNumeral sg z ds' f (Some (ch "e", Some s, es))) in *.
  assert (H0 : 0 <= coefficientOf n) by nia.
  split; [unfold spell, n; cbn [n_sign n_zeros n_digits n_fraction n_exponent]; f_equal; by rewrite (app_assoc (replicate _ _)), Ez |].
  split; [| split; [| split; [done |]]].
  - split; [done |]. split; [unfold fractionDigits, n; cbn [n_fraction]; by rewrite Hf |]. split; [done |]. split; [done |]. by repeat split.
  - unfold fits. rewrite Ee. unfold fractionDigits, n at 1. cbn [n_digits n_fraction]. fold n. split; [change (count ds' + count (default [] f) <= 18); rewrite Hf; lia |].
    split; [nia |]. split; [lia |]. destruct (Z.le_gt_cases (e + Z.of_nat t) 1022) as [L | L]; [by left | right].
    split; [lia |]. split; [change (e + Z.of_nat t - 1022 + count ds' <= 18); lia |].
    assert (10 ^ (e + Z.of_nat t - 1022) <= 10 ^ (Z.of_nat t + 1)) by (apply pow10_le; lia). rewrite pow10_succ in * by lia. unfold MaxCoefficient in Hc. nia.
  - rewrite Ee, unitAt_add by lia. nia.
Qed.

(** ** Reading back *)

Definition printedSign (d : Decimal) : option Sign := match m_sign d with Negative => Some Negative | Positive => None end.

Lemma spell_printedSign (d : Decimal) : spellSign (printedSign d) = signPrefix d.
Proof. unfold printedSign, signPrefix. by destruct (m_sign d). Qed.

(** The digits are read back: all of them without a fraction, thirteen of them with one. *)
Definition printable (d : Decimal) : Prop := 0 <= m_exponent d \/ m_coefficient d < 10 ^ 13.

(** What follows the sign. *)
Definition printedBody (c e : Z) : list Z :=
  let ds := numberToString c in
  let a := e + count ds - 1 in
  if (e <=? 0) && (-6 <=? a) then
    if e =? 0 then ds
    else if 0 <=? a then withDot ds 0 a
    else [ch "0"; ch "."] ++ replicate (Z.to_nat (- (a + 1))) (ch "0") ++ ds
  else
    match rev (trimLoop (rev ds)) with
    | [] => []
    | d0 :: more => [d0] ++ (match more with [] => [] | _ => ch "." :: more end) ++ (if a =? 0 then [] else printedExponent a)
    end.

Lemma toString_body (d : Decimal) (c e : Z) : isDecimal d -> isFinite d = true -> printedDigits (m_coefficient d) (m_exponent d) = (c, e) ->
  toString d = Some (signPrefix d ++ printedBody c e).
Proof.
  intros Hd Fd Ep. destruct (finite_fields d Hd Fd) as (_ & _ & Ex). unfold toString. rewrite Ex. cbn [mbind option_bind]. rewrite Ep.
  destruct d as [dc de f s]. by destruct f; classify.
Qed.

Lemma printedBody_ok (c e : Z) (sg : option Sign) : 0 <= c <= MaxCoefficient -> exponentRange e -> 0 <= e \/ c < 10 ^ 13 -> printsAs (printedBody c e) sg c e.
Proof.
  intros Hc He Hp. assert (Hs := numberToString_ok c ltac:(unfold MaxCoefficient in Hc; lia)). unfold printedBody. set (ds := numberToString c) in *. cbv zeta.
  assert (H1 : 1 <= count ds) by apply Hs. assert (Hz : c = 0 -> count ds = 1) by (intros E; destruct Hs as (_ & _ & _ & H0 & _); by rewrite (H0 E)).
  destruct ((e <=? 0) && (-6 <=? e + count ds - 1)) eqn:G.
  - apply andb_true_iff in G as [G1%Z.leb_le G2%Z.leb_le]. destruct (Z.eqb_spec e 0) as [-> | Hne]; [by apply prints_whole |].
    assert (Hn : count ds <= 13) by (apply (spells_count ds c); [done | lia | lia]).
    destruct (Z.leb_spec 0 (e + count ds - 1)) as [L | L].
    + apply prints_dotted; [lia | done | lia | lia].
    + apply prints_fraction; [done | done | lia | lia | lia].
  - apply andb_false_iff in G. rewrite !Z.leb_gt in G. assert (Ha : e + count ds - 1 <> 0) by lia.
    rewrite (proj2 (Z.eqb_neq _ 0) Ha). by apply prints_scientific.
Qed.

(** C26: what toString prints of a finite Decimal without a fraction, or of one of at most
    thirteen digits, is read back by fromString with its sign and value, from the smallest
    to the largest exponent. *)
Theorem text_roundtrip (d : Decimal) : isDecimal d -> isFinite d = true -> printable d ->
  exists text q, toString d = Some text /\ fromString text = Some q /\ isDecimal q /\ isFinite q = true /\ m_sign q = m_sign d /\ val q = val d.
Proof.
  intros Hd Fd Hp. destruct (finite_fields d Hd Fd) as (Hc & He & _).
  destruct (printedDigits_ok (m_coefficient d) (m_exponent d) Hc He) as (c & e & Ep & Hc' & He' & Hv & Hneg); [unfold printable in Hp; lia |].
  destruct (printedBody_ok c e (printedSign d)) as (n & En & Hw & Hf & Hsg & Hval); [lia | done | unfold printable in Hp; lia |].
  destruct (fromString_reads n Hw Hf) as (q & Eq & Hq & Fq & Sq & Vq). exists (spell n), q. split; [| split; [done |]].
  - rewrite En, spell_printedSign. by apply toString_body.
  - assert (Hs : signOf n = m_sign d) by (unfold signOf; rewrite Hsg; unfold printedSign; by destruct (m_sign d)). rewrite Hs in *.
    split; [done |]. split; [done |]. split; [done |]. rewrite Vq, Hval. by rewrite Hv.
Qed.
Lemma text_roundtrip_witness :
  exists text q, toString (make Negative (-1020) 1234567890123) = Some text /\ fromString text = Some q /\ val q = val (make Negative (-1020) 1234567890123).
Proof.
  destruct (text_roundtrip (make Negative (-1020) 1234567890123)) as (text & q & E & F & _ & _ & _ & V); [by apply make_isDecimal | done | by right |].
  exact (ex_intro _ text (ex_intro _ q (conj E (conj F V)))).
Defined.

(** C27: a numeral with sign, leading zeros, digits, fraction and exponent is read as the
    number it spells, sign and value, as long as its digits without leading zeros and its
    exponent fit a Decimal. *)
Theorem numeral_read (n : Numeral) : wellSpelled n -> fits n ->
  exists q, fromString (spell n) = Some q /\ isFinite q = true /\ m_sign q = signOf n /\
    val q = signed (signOf n) (coefficientOf n * unitAt (exponentOf n)).
Proof. intros Hw Hf. destruct (fromString_reads n Hw Hf) as (q & E & _ & H). by exists q. Qed.
Lemma numeral_read_witness :
  exists q, fromString (units "-007.50e-3") = Some q /\ m_sign q = Negative.
Proof.
  destruct (numeral_read (MakeNumeral (Some Negative) 2 (units "7") (Some (units "50")) (Some (ch "e", Some Negative, units "3")))) as (q & E & _ & S & _).
  - split; [by repeat constructor |]. split; [by repeat constructor |]. split; [done |]. split; [done |]. split; [done |]. split; [by repeat constructor | done].
  - split; [done |]. split; [done |]. split; [done |]. by left.
  - exact (ex_intro _ q (conj E S)).
Defined.

(** Division returns when the divisor has at most four digits, is zero or is not finite. *)
Lemma divide_returns (l r : Decimal) : isDecimal l -> isDecimal r -> m_coefficient r <= 10 ^ 4 -> exists q, divideDecimal l r = Ok q.
Proof.
  intros Hl Hr Hc. destruct (handle_ok l r) as (h & v & E & Hh). unfold divideDecimal at 1. rewrite E. cbn [lift mbind result_bind].
  destruct h; [| by eexists | by destruct Hh as [-> | ->]; eexists | by eexists | by eexists].
  destruct Hh as [Fl Fr]. destruct (finite_fields l Hl Fl) as (_ & _ & El), (finite_fields r Hr Fr) as (Cr & _ & Er).
  destruct (isZero r) eqn:Zr; [by eexists |]. destruct (isZero l) eqn:Zl; [rewrite El, Er; by eexists |].
  rewrite (finite_zero r), Z.eqb_neq in Zr by done. destruct (divide_make l r Hl Hr Fl Fr Zl ltac:(unfold shortDivisor; lia)) as (res & k & Eq & _).
  unfold divideDecimal in Eq. rewrite E in Eq. cbn [lift mbind result_bind] in Eq. rewrite (finite_zero r), (proj2 (Z.eqb_neq _ _) Zr), Zl in Eq by done. by eexists.
Qed.

(** The remainder returns when the division does. *)
Lemma remainder_typed (l r q : Decimal) : isDecimal l -> isDecimal r -> divideDecimal l r = Ok q -> exists m, remainder l r = Ok m /\ isDecimal m.
Proof.
  intros Hl Hr E. pose proof (divide_typed l r q Hl Hr E) as Hq. unfold remainder. rewrite E. cbn [mbind result_bind].
  destruct (isSpecial q); [by eexists |]. destruct (integer_typed q Hq) as ((a & Ea & Ha) & (b & Eb & Hb) & _).
  assert (H : exists n, (if isNegative q then ceiling q else floor q) = Some n /\ isDecimal n) by (destruct (isNegative q); by eexists).
  destruct H as (n & -> & Hn). destruct (multiply_typed n r Hn Hr) as (p & Ep & Hp). cbn [lift mbind result_bind]. rewrite Ep. cbn [lift mbind result_bind].
  destruct (negate_facts p Hp) as (Hp' & _). rewrite subtract_negate by done. destruct (add_typed l (negate p) Hl Hp') as (m & Em & Hm). rewrite Em. by eexists.
Qed.

(** C28: every operation on Decimals whose fields fit their class returns, no assertion
    failing, such a Decimal, specials included.  Division and remainder do so whenever the
    loops of the division end, which they do for a divisor of at most four digits.
    fromString does so on any text but those that have no digit, other than zeros, before
    the dot, and whose digits make an integer with the exponent 1040 ([unscalable]): for
    these, and only these, it fails an assertion. *)
Theorem decimal_typed (l r : Decimal) : isDecimal l -> isDecimal r ->
  isDecimal (negate l) /\ isDecimal (abs l) /\
  (exists q, add l r = Some q /\ isDecimal q) /\ (exists q, subtract l r = Some q /\ isDecimal q) /\
  (exists q, multiplyDecimal l r = Some q /\ isDecimal q) /\
  (forall q, divideDecimal l r = Ok q -> isDecimal q /\ exists m, remainder l r = Ok m /\ isDecimal m) /\
  (m_coefficient r <= 10 ^ 4 -> exists q, divideDecimal l r = Ok q) /\
  (exists q, ceiling l = Some q /\ isDecimal q) /\ (exists q, floor l = Some q /\ isDecimal q) /\ (exists q, round l = Some q /\ isDecimal q) /\
  (forall text, (exists q, fromString text = Some q /\ isDecimal q) \/ (fromString text = None /\ unscalable text)).
Proof.
  intros Hl Hr. destruct (negate_facts l Hl) as (Hn & _), (negate_facts r Hr) as (Hnr & _), (integer_typed l Hl) as (H1 & H2 & H3).
  split; [done |]. split; [unfold abs, setSign; destruct l as [c e f s]; unfold isDecimal in *; destruct f; classify; tauto |].
  split; [by apply add_typed |]. split; [rewrite subtract_negate by done; by apply add_typed |]. split; [by apply multiply_typed |].
  split; [intros q E; split; [by apply (divide_typed l r) | by apply (remainder_typed l r q)] |]. split; [by apply divide_returns |].
  split; [done |]. split; [done |]. split; [done |]. intros text. pose proof (fromString_fails text) as [Hf _].
  destruct (fromString text) as [q |] eqn:E; [left | right; by split; [| apply Hf]]. exists q. split; [done |]. by apply (fromString_typed text).
Qed.
Lemma decimal_typed_witness : (exists q, add (infinity Negative) (make Positive 1023 99999999999999999) = Some q /\ isDecimal q) /\
  (exists q, divideDecimal (make Positive 0 1) (make Positive 0 3) = Ok q /\ isDecimal q).
Proof.
  destruct (decimal_typed (infinity Negative) (make Positive 1023 99999999999999999)) as (_ & _ & H & _); [done | by apply make_isDecimal |]. split; [exact H |].
  destruct (decimal_typed (make Positive 0 1) (make Positive 0 3)) as (_ & _ & _ & _ & _ & Ht & Hd & _); [by apply make_isDecimal | by apply make_isDecimal |].
  destruct Hd as [q E]; [by vm_compute |]. exists q. split; [exact E | exact (proj1 (Ht q E))].
Defined.

(** ** Where the code departs *)

(** Two finite operands of seventeen digits overflow the 64-bit quotient. *)
Example quotient_overflow :
  divideDecimal (make Positive 0 18699999999999977) (make Positive 0 99999999999999877) = Ok (Encoded 25325592629044838 (-19) ClassNormal Positive).
Proof. by vm_compute. Qed.

(** ceiling looks at the first digit behind the point only. *)
Example ceiling_hundredths : ceiling (make Positive (-2) 101) = Some (make Positive 0 1) /\ floor (make Negative (-2) 101) = Some (make Negative 0 1).
Proof. by vm_compute. Qed.
Example ceiling_zero : ceiling (make Positive (-2) 0) = Some (make Positive 0 1) /\ floor (make Negative (-2) 0) = Some (make Negative 0 1).
Proof. by vm_compute. Qed.

(** A zero with a large exponent. *)
Example zero_product : multiplyDecimal (make Positive 600 0) (make Positive 600 0) = Some (infinity Positive).
Proof. by vm_compute. Qed.
Example zero_text : fromString (units "0e1041") = Some (infinity Positive) /\ fromString (units "0e1040") = None /\ fromString (units ".5e1041") = None.
Proof. by vm_compute. Qed.

(** Zeros behind the dot count as digits. *)
Example leading_zeros_lost :
  toString (make Positive (-20) 123456789012345) = Some (units "0.00000123456789012345") /\
  fromString (units "0.00000123456789012345") = Some (Encoded 1234567890123 (-18) ClassNormal Positive).
Proof. by vm_compute. Qed.

(** The documented syntax has a sign before a dot, and nothing behind one. *)
Example documented_syntax : fromString (units "-.5") = Some nan /\ fromString (units "1.") = Some nan.
Proof. by vm_compute. Qed.

(** A large exponent ends the reading where it is. *)
Example unread_rest : fromString (units "1e99999 and more") = Some (infinity Positive).
Proof. by vm_compute. Qed.
