(* ===== verification/DateMath.v ===== *)
(** * DateMath: the calendar of WTF/wtf/DateMath.{h,cpp}

    Days, months and years of the proleptic Gregorian calendar, and the year and day of a
    time value.  The source computes with doubles.  For time values up to 2^53 in magnitude,
    which the theorems ask for, all of them but the quotients are integers that a double
    holds: they are integers here.  A quotient is only used rounded down, and is further
    below the next integer than the rounding of doubles reaches, so that its floor is that of
    the exact quotient.  The conversion to int is checked.  Local time and the parsing of RFC
    dates are left out. *)

From S2P Require Import Prelude.

(** Integer division of C. *)
Infix "÷" := Z.quot (at level 40, left associativity) : Z_scope.

Definition msPerSecond : Z := 1000.
Definition secondsPerMinute : Z := 60.
Definition minutesPerHour : Z := 60.
Definition msPerDay : Z := 24 * 60 * 60 * 1000.

(** static_cast<int> of a double: undefined outside of the range. *)
Definition toIntCast (z : Z) : option Z := if (- 2 ^ 31 <=? z) && (z <? 2 ^ 31) then Some z else None.

Definition isLeapYear (year : Z) : bool :=
  if negb (Z.rem year 4 =? 0) then false
  else if Z.rem year 400 =? 0 then true
  else if Z.rem year 100 =? 0 then false
  else true.

Definition daysInYear (year : Z) : Z := 365 + (if isLeapYear year then 1 else 0).

Definition daysFrom1970ToYear (year : Z) : Z :=
  let leapDaysBefore1971By4Rule := 1970 ÷ 4 in
  let excludedLeapDaysBefore1971By100Rule := 1970 ÷ 100 in
  let leapDaysBefore1971By400Rule := 1970 ÷ 400 in
  let yearMinusOne := year - 1 in
  let yearsToAddBy4Rule := yearMinusOne / 4 - leapDaysBefore1971By4Rule in
  let yearsToExcludeBy100Rule := yearMinusOne / 100 - excludedLeapDaysBefore1971By100Rule in
  let yearsToAddBy400Rule := yearMinusOne / 400 - leapDaysBefore1971By400Rule in
  365 * (year - 1970) + yearsToAddBy4Rule - yearsToExcludeBy100Rule + yearsToAddBy400Rule.

Definition msToDays (ms : Z) : Z := ms / msPerDay.

(** msPerDay * 365.2425 *)
Definition msPerAverageYear : Z := 31556952000.

Definition msToYear (ms : Z) : option Z :=
  approxYear ← toIntCast (ms / msPerAverageYear + 1970);
  let msFromApproxYearTo1970 := msPerDay * daysFrom1970ToYear approxYear in
  Some (if msFromApproxYearTo1970 >? ms then approxYear - 1
        else if msFromApproxYearTo1970 + msPerDay * daysInYear approxYear <=? ms then approxYear + 1
        else approxYear).

(** dayInYear(double, int) *)
Definition dayInYearOfMs (ms year : Z) : option Z := toIntCast (msToDays ms - daysFrom1970ToYear year).

Definition monthFromDayInYear (dayInYear : Z) (leapYear : bool) : Z :=
  let d := dayInYear in
  let step := 31 in
  if d <? step then 0
  else let step := step + (if leapYear then 29 else 28) in
  if d <? step then 1
  else let step := step + 31 in
  if d <? step then 2
  else let step := step + 30 in
  if d <? step then 3
  else let step := step + 31 in
  if d <? step then 4
  else let step := step + 30 in
  if d <? step then 5
  else let step := step + 31 in
  if d <? step then 6
  else let step := step + 31 in
  if d <? step then 7
  else let step := step + 30 in
  if d <? step then 8
  else let step := step + 31 in
  if d <? step then 9
  else let step := step + 30 in
  if d <? step then 10
  else 11.

(** The answer, startDayOfThisMonth and startDayOfNextMonth. *)
Definition checkMonth (dayInYear startDayOfNextMonth daysInThisMonth : Z) : bool * Z * Z :=
  let startDayOfThisMonth := startDayOfNextMonth in
  let startDayOfNextMonth := startDayOfNextMonth + daysInThisMonth in
  (dayInYear <=? startDayOfNextMonth, startDayOfThisMonth, startDayOfNextMonth).

(** The calls of checkMonth, one per month, with the lengths of the months. *)
Fixpoint checkMonths (d next : Z) (lengths : list Z) : Z :=
  match lengths with
  | [] => d - next
  | daysInThisMonth :: lengths' =>
      let '(found, step, next) := checkMonth d next daysInThisMonth in
      if found then d - step else checkMonths d next lengths'
  end.

Definition dayInMonthFromDayInYear (dayInYear : Z) (leapYear : bool) : Z :=
  let d := dayInYear in
  let next := 30 in
  if d <=? next then d + 1
  else
    let daysInFeb := if leapYear then 29 else 28 in
    checkMonths d next [daysInFeb; 31; 30; 31; 30; 31; 31; 30; 31; 30].

Definition firstDayOfMonth (leapYear : bool) : list Z :=
  if leapYear then [0; 31; 60; 91; 121; 152; 182; 213; 244; 274; 305; 335]
  else [0; 31; 59; 90; 120; 151; 181; 212; 243; 273; 304; 334].

(** An element of an array, in its bounds. *)
Definition at_ (a : list Z) (i : Z) : option Z := if 0 <=? i then a !! Z.to_nat i else None.

Definition dayInYear (year month day : Z) : option Z :=
  first ← at_ (firstDayOfMonth (isLeapYear year)) month;
  Some (first + day - 1).

Definition dateToDaysFrom1970 (year month day : Z) : option Z :=
  let year := year + month ÷ 12 in
  let month := Z.rem month 12 in
  let '(year, month) := if month <? 0 then (year - 1, month + 12) else (year, month) in
  let yearday := daysFrom1970ToYear year in
  _ ← ASSERT (((1970 <=? year) && (0 <=? yearday)) || ((year <? 1970) && (yearday <? 0)));
  d ← dayInYear year month day;
  Some (yearday + d).

(** * DateMath: the calendar is right

    The days before a year add up, the year and the day of a time value are found, and the
    month and day of a day of the year are the inverse of the table of first days. *)

(** ** Years *)

Definition leapDays (year : Z) : Z := if isLeapYear year then 1 else 0.

Lemma rem_zero (a n : Z) : 0 < n -> (Z.rem a n =? 0) = (a mod n =? 0).
Proof.
  intros Hn. destruct (Z.eqb_spec (a mod n) 0) as [E | E].
  - apply Z.eqb_eq. apply Z.rem_divide; [lia |]. by apply Z.mod_divide; [lia |].
  - apply Z.eqb_neq. intros E2. apply E. apply Z.mod_divide; [lia |]. by apply Z.rem_divide; [lia |].
Qed.

Lemma isLeapYear_ok (year : Z) : isLeapYear year = true <-> year mod 4 = 0 /\ (year mod 100 <> 0 \/ year mod 400 = 0).
Proof.
  unfold isLeapYear. rewrite !rem_zero by lia.
  destruct (Z.eqb_spec (year mod 4) 0), (Z.eqb_spec (year mod 400) 0), (Z.eqb_spec (year mod 100) 0); cbn; split; intros H; try done; lia.
Qed.

(** A multiple of n is counted by the quotients. *)
Lemma multiples_step (a n : Z) : 1 < n -> a / n - (a - 1) / n = if a mod n =? 0 then 1 else 0.
Proof.
  intros Hn. pose proof (Z.div_mod a n ltac:(lia)) as E. pose proof (Z.mod_pos_bound a n ltac:(lia)) as B.
  destruct (Z.eqb_spec (a mod n) 0) as [Z0 | Z0].
  - assert ((a - 1) / n = a / n - 1); [| lia]. symmetry. apply (Z.div_unique_pos _ _ _ (n - 1)); nia.
  - assert ((a - 1) / n = a / n); [| lia]. symmetry. apply (Z.div_unique_pos _ _ _ (a mod n - 1)); nia.
Qed.

Lemma leapDays_ok (year : Z) : leapDays year = year / 4 - (year - 1) / 4 - (year / 100 - (year - 1) / 100) + (year / 400 - (year - 1) / 400).
Proof.
  replace (year / 4 - (year - 1) / 4 - (year / 100 - (year - 1) / 100) + (year / 400 - (year - 1) / 400))
    with ((year / 4 - (year - 1) / 4) - (year / 100 - (year - 1) / 100) + (year / 400 - (year - 1) / 400)) by lia.
  rewrite !multiples_step by lia. unfold leapDays, isLeapYear. rewrite !rem_zero by lia.
  assert (M : forall n k, 0 < n -> 0 < k -> year mod (n * k) = 0 -> year mod n = 0).
  { intros n k Hn Hk H. apply Z.mod_divide in H as [q ->]; [| lia]. replace (q * (n * k)) with (q * k * n) by ring. apply Z.mod_mul. lia. }
  assert (M1 := M 4 100 ltac:(lia) ltac:(lia)). assert (M2 := M 100 4 ltac:(lia) ltac:(lia)). assert (M3 := M 4 25 ltac:(lia) ltac:(lia)). clear M.
  change (4 * 100) with 400 in M1. change (100 * 4) with 400 in M2. change (4 * 25) with 100 in M3.
  destruct (Z.eqb_spec (year mod 4) 0), (Z.eqb_spec (year mod 400) 0), (Z.eqb_spec (year mod 100) 0); cbn; lia.
Qed.

Lemma daysFrom1970_eq (year : Z) :
  daysFrom1970ToYear year = 365 * (year - 1970) + ((year - 1) / 4 - 492) - ((year - 1) / 100 - 19) + ((year - 1) / 400 - 4).
Proof. reflexivity. Qed.

(** The next year begins behind the days of this one. *)
Lemma daysFrom1970_succ (year : Z) : daysFrom1970ToYear (year + 1) = daysFrom1970ToYear year + daysInYear year.
Proof.
  rewrite !daysFrom1970_eq. unfold daysInYear. fold (leapDays year). rewrite leapDays_ok. replace (year + 1 - 1) with year by lia. lia.
Qed.

Lemma leapDays_bounds (year : Z) : 0 <= leapDays year <= 1.
Proof. unfold leapDays. destruct (isLeapYear year); lia. Qed.

Lemma daysInYear_eq (year : Z) : daysInYear year = 365 + leapDays year.
Proof. reflexivity. Qed.

Lemma daysFrom1970_mono (y z : Z) : y <= z -> daysFrom1970ToYear y + 365 * (z - y) <= daysFrom1970ToYear z.
Proof.
  intros H. assert (G : forall n, 0 <= n -> daysFrom1970ToYear y + 365 * n <= daysFrom1970ToYear (y + n)).
  { apply natlike_ind; [replace (y + 0) with y by lia; lia |]. intros n Hn IH. replace (y + Z.succ n) with (y + n + 1) by lia.
    rewrite daysFrom1970_succ, daysInYear_eq. pose proof (leapDays_bounds (y + n)). lia. }
  specialize (G (z - y)). replace (y + (z - y)) with z in G by lia. lia.
Qed.

(** Within two days of the average. *)
Lemma daysFrom1970_bounds (y : Z) : -20000 <= 10000 * daysFrom1970ToYear y - 3652425 * (y - 1970) <= 20000.
Proof.
  rewrite daysFrom1970_eq. pose proof (Z.div_mod (y - 1) 4). pose proof (Z.mod_pos_bound (y - 1) 4). pose proof (Z.div_mod (y - 1) 100).
  pose proof (Z.mod_pos_bound (y - 1) 100). pose proof (Z.div_mod (y - 1) 400). pose proof (Z.mod_pos_bound (y - 1) 400). lia.
Qed.

(** A day is in one year only. *)
Lemma year_unique (n y z : Z) :
  daysFrom1970ToYear y <= n < daysFrom1970ToYear (y + 1) -> daysFrom1970ToYear z <= n < daysFrom1970ToYear (z + 1) -> y = z.
Proof.
  intros Hy Hz. destruct (Z.lt_total y z) as [L | [-> | L]]; [| done |].
  - pose proof (daysFrom1970_mono (y + 1) z). lia.
  - pose proof (daysFrom1970_mono (z + 1) y). lia.
Qed.

Lemma msPerDay_eq : msPerDay = 86400000.
Proof. reflexivity. Qed.

(** The year of a time value: its days begin before and end behind it. *)
Lemma msToYear_ok (ms : Z) : - 2 ^ 53 <= ms <= 2 ^ 53 ->
  exists year, msToYear ms = Some year /\ daysFrom1970ToYear year <= ms / msPerDay < daysFrom1970ToYear (year + 1).
Proof.
  intros Hms. unfold msToYear, msPerAverageYear.
  pose proof (Z.div_mod ms 31556952000 ltac:(lia)) as E. pose proof (Z.mod_pos_bound ms 31556952000 ltac:(lia)) as R.
  set (q := ms / 31556952000) in *. clearbody q. set (a := q + 1970).
  assert (Ha : - 2 ^ 31 <= a < 2 ^ 31) by (unfold a; lia). unfold toIntCast.
  rewrite (proj2 (Z.leb_le (- 2 ^ 31) a)), (proj2 (Z.ltb_lt a (2 ^ 31))) by lia. cbn [andb mbind option_bind]. rewrite msPerDay_eq.
  pose proof (daysFrom1970_bounds (a - 1)) as B1. pose proof (daysFrom1970_bounds (a + 1 + 1)) as B2.
  assert (Hlo : daysFrom1970ToYear (a - 1) <= ms / 86400000) by (apply Z.div_le_lower_bound; unfold a in *; lia).
  assert (Hhi : ms / 86400000 < daysFrom1970ToYear (a + 1 + 1)) by (apply Z.div_lt_upper_bound; unfold a in *; lia).
  pose proof (daysFrom1970_succ a) as Hs. rewrite Z.gtb_ltb.
  pose proof (Z.div_mod ms 86400000 ltac:(lia)) as E2. pose proof (Z.mod_pos_bound ms 86400000 ltac:(lia)) as R2.
  set (n := ms / 86400000) in *. clearbody n.
  destruct (Z.ltb_spec ms (86400000 * daysFrom1970ToYear a)) as [L | L].
  - exists (a - 1). split; [done |]. replace (a - 1 + 1) with a by lia. lia.
  - destruct (Z.leb_spec (86400000 * daysFrom1970ToYear a + 86400000 * daysInYear a) ms) as [G | G].
    + exists (a + 1). split; [done |]. lia.
    + exists a. split; [done |]. lia.
Qed.

(** ** Days of the year *)

(** All days of a year with their months and days, by computation. *)
Definition yearTable (leapYear : bool) : bool :=
  forallb (fun yd =>
    let m := monthFromDayInYear yd leapYear in
    let d := dayInMonthFromDayInYear yd leapYear in
    match at_ (firstDayOfMonth leapYear) m with
    | Some first => (0 <=? m) && (m <=? 11) && (1 <=? d) && (first + d - 1 =? yd)
    | None => false
    end) (seqZ 0 (if leapYear then 366 else 365)).

Lemma yearTable_true (leapYear : bool) : yearTable leapYear = true.
Proof. by destruct leapYear; vm_compute. Qed.

Lemma dayInYear_inverse (yd : Z) (leapYear : bool) : 0 <= yd < 365 + (if leapYear then 1 else 0) ->
  let m := monthFromDayInYear yd leapYear in let d := dayInMonthFromDayInYear yd leapYear in
  0 <= m <= 11 /\ 1 <= d /\ exists first, at_ (firstDayOfMonth leapYear) m = Some first /\ first + d - 1 = yd.
Proof.
  intros H. pose proof (yearTable_true leapYear) as T. unfold yearTable in T. rewrite forallb_forall in T. specialize (T yd).
  cbv zeta in *. rewrite <- list_elem_of_In, elem_of_seqZ in T. specialize (T ltac:(destruct leapYear; lia)).
  destruct (at_ (firstDayOfMonth leapYear) (monthFromDayInYear yd leapYear)) as [first |]; [| done].
  rewrite !andb_true_iff, !Z.leb_le, Z.eqb_eq in T. split; [lia |]. split; [lia |]. exists first. split; [done | lia].
Qed.
