(* ===== verification/DateComponents.v ===== *)
(** * DateComponents: platform/DateComponents.{h,cpp}

    The values of date and time controls: parsing of the ISO 8601 forms of HTML5, the
    adjustment to a time zone, the conversions from and to milliseconds and months since
    1970, and printing.  A parser returns the object and where it stopped, or no position
    when it returns false; [None] is a failed assertion or a read outside of the text. *)

From S2P Require Import Prelude Digits DateMath.

Definition minimumWeekNumber : Z := 1.
Definition maximumWeekNumber : Z := 53.
Definition maximumMonthInMaximumYear : Z := 8.
Definition maximumDayInMaximumMonth : Z := 13.
Definition maximumWeekInMaximumYear : Z := 37.
Definition minimumYear : Z := 1.
Definition maximumYear : Z := 275760.
Definition INT_MAX : Z := 2147483647.

Definition daysInMonth : list Z := [31; 28; 31; 30; 31; 30; 31; 31; 30; 31; 30; 31].

Definition maxDayOfMonth (year month : Z) : option Z :=
  if negb (month =? 1) then at_ daysInMonth month
  else Some (if isLeapYear year then 29 else 28).

Definition dayOfWeek (year month day : Z) : Z :=
  let shiftedMonth := month + 2 in
  let '(shiftedMonth, year) := if shiftedMonth <=? 3 then (shiftedMonth + 12, year - 1) else (shiftedMonth, year) in
  let highYear := year ÷ 100 in
  let lowYear := Z.rem year 100 in
  Z.rem (day + 13 * shiftedMonth ÷ 5 + lowYear + lowYear ÷ 4 + highYear ÷ 4 + 5 * highYear + 6) 7.

Inductive Type_ := Invalid | Date | DateTime | DateTimeLocal | Month | Time | Week.
#[export] Instance Type_eq_dec : EqDecision Type_.
Proof. solve_decision. Defined.
Inductive SecondFormat := NoSeconds | Second | Millisecond.

Record DateComponents := MakeDate {
  m_millisecond : Z; m_second : Z; m_minute : Z; m_hour : Z; m_monthDay : Z; m_month : Z; m_year : Z; m_week : Z; m_type : Type_ }.

Definition newDate : DateComponents := MakeDate 0 0 0 0 0 0 0 0 Invalid.

Definition set_type (t : Type_) (d : DateComponents) : DateComponents :=
  MakeDate (m_millisecond d) (m_second d) (m_minute d) (m_hour d) (m_monthDay d) (m_month d) (m_year d) (m_week d) t.
Definition set_year (y : Z) (d : DateComponents) : DateComponents :=
  MakeDate (m_millisecond d) (m_second d) (m_minute d) (m_hour d) (m_monthDay d) (m_month d) y (m_week d) (m_type d).
Definition set_month (m : Z) (d : DateComponents) : DateComponents :=
  MakeDate (m_millisecond d) (m_second d) (m_minute d) (m_hour d) (m_monthDay d) m (m_year d) (m_week d) (m_type d).
Definition set_monthDay (x : Z) (d : DateComponents) : DateComponents :=
  MakeDate (m_millisecond d) (m_second d) (m_minute d) (m_hour d) x (m_month d) (m_year d) (m_week d) (m_type d).
Definition set_week (w : Z) (d : DateComponents) : DateComponents :=
  MakeDate (m_millisecond d) (m_second d) (m_minute d) (m_hour d) (m_monthDay d) (m_month d) (m_year d) w (m_type d).
Definition set_minute (x : Z) (d : DateComponents) : DateComponents :=
  MakeDate (m_millisecond d) (m_second d) x (m_hour d) (m_monthDay d) (m_month d) (m_year d) (m_week d) (m_type d).
Definition set_hour (x : Z) (d : DateComponents) : DateComponents :=
  MakeDate (m_millisecond d) (m_second d) (m_minute d) x (m_monthDay d) (m_month d) (m_year d) (m_week d) (m_type d).
Definition set_time (hour minute second millisecond : Z) (d : DateComponents) : DateComponents :=
  MakeDate millisecond second minute hour (m_monthDay d) (m_month d) (m_year d) (m_week d) (m_type d).

Definition maxWeekNumberInYear (d : DateComponents) : Z :=
  let day := dayOfWeek (m_year d) 0 1 in
  if (day =? 4) || ((day =? 3) && isLeapYear (m_year d)) then maximumWeekNumber else maximumWeekNumber - 1.

(** ** Limits *)

Definition withinHTMLDateLimitsMonth (year month : Z) : bool :=
  if year <? minimumYear then false
  else if year <? maximumYear then true
  else month <=? maximumMonthInMaximumYear.

Definition withinHTMLDateLimitsDay (year month monthDay : Z) : bool :=
  if year <? minimumYear then false
  else if year <? maximumYear then true
  else if month <? maximumMonthInMaximumYear then true
  else monthDay <=? maximumDayInMaximumMonth.

Definition withinHTMLDateLimits (year month monthDay hour minute second millisecond : Z) : bool :=
  if year <? minimumYear then false
  else if year <? maximumYear then true
  else if month <? maximumMonthInMaximumYear then true
  else if monthDay <? maximumDayInMaximumMonth then true
  else if monthDay >? maximumDayInMaximumMonth then false
  else (hour =? 0) && (minute =? 0) && (second =? 0) && (millisecond =? 0).

Definition within (d : DateComponents) : bool :=
  withinHTMLDateLimits (m_year d) (m_month d) (m_monthDay d) (m_hour d) (m_minute d) (m_second d) (m_millisecond d).

(** ** Adding days and minutes *)

(** for (; dayDiff > 0; --dayDiff): year, month and day. *)
Fixpoint forwardLoop (dayDiff : nat) (year month day maxDay : Z) : option (Z * Z * Z) :=
  match dayDiff with
  | O => Some (year, month, day)
  | S dayDiff' =>
      let day := day + 1 in
      if day >? maxDay then
        let day := 1 in
        let month := month + 1 in
        let '(year, month) := if 12 <=? month then (year + 1, 0) else (year, month) in
        maxDay ← maxDayOfMonth year month;
        forwardLoop dayDiff' year month day maxDay
      else forwardLoop dayDiff' year month day maxDay
  end.

(** for (; dayDiff < 0; ++dayDiff) *)
Fixpoint backwardLoop (dayDiff : nat) (year month day : Z) : option (Z * Z * Z) :=
  match dayDiff with
  | O => Some (year, month, day)
  | S dayDiff' =>
      let day := day - 1 in
      if day <? 1 then
        let month := month - 1 in
        let '(year, month) := if month <? 0 then (year - 1, 11) else (year, month) in
        day ← maxDayOfMonth year month;
        backwardLoop dayDiff' year month day
      else backwardLoop dayDiff' year month day
  end.

Definition addDay (d : DateComponents) (dayDiff : Z) : option (DateComponents * bool) :=
  _ ← ASSERT (negb (m_monthDay d =? 0));
  let day := m_monthDay d + dayDiff in
  maxDay ← maxDayOfMonth (m_year d) (m_month d);
  if day >? maxDay then
    '(year, month, day) ← forwardLoop (Z.to_nat dayDiff) (m_year d) (m_month d) (m_monthDay d) maxDay;
    Some (if negb (withinHTMLDateLimitsDay year month day) then (d, false)
          else (set_monthDay day (set_month month (set_year year d)), true))
  else if day <? 1 then
    '(year, month, day) ← backwardLoop (Z.to_nat (- dayDiff)) (m_year d) (m_month d) (m_monthDay d);
    Some (if negb (withinHTMLDateLimitsDay year month day) then (d, false)
          else (set_monthDay day (set_month month (set_year year d)), true))
  else
    Some (if negb (withinHTMLDateLimitsDay (m_year d) (m_month d) day) then (d, false) else (set_monthDay day d, true)).

(** The carry and the value in range, of minutes (n = 60) or hours (n = 24). *)
Definition carryOver (n value : Z) : option (option Z * Z) :=
  if value >? n - 1 then Some (Some (value ÷ n), Z.rem value n)
  else if value <? 0 then
    let carry := (n - 1 - value) ÷ n in
    let value := value + carry * n in
    _ ← ASSERT ((0 <=? value) && (value <=? n - 1));
    Some (Some (- carry), value)
  else Some (None, value).

Definition addMinute (d : DateComponents) (minute : Z) : option (DateComponents * bool) :=
  _ ← ASSERT (withinHTMLDateLimitsDay (m_year d) (m_month d) (m_monthDay d));
  '(carry, minute) ← carryOver 60 (minute + m_minute d);
  match carry with
  | None =>
      Some (if negb (withinHTMLDateLimits (m_year d) (m_month d) (m_monthDay d) (m_hour d) minute (m_second d) (m_millisecond d)) then (d, false)
            else (set_minute minute d, true))
  | Some carry =>
      '(carry, hour) ← carryOver 24 (m_hour d + carry);
      match carry with
      | None =>
          Some (if negb (withinHTMLDateLimits (m_year d) (m_month d) (m_monthDay d) hour minute (m_second d) (m_millisecond d)) then (d, false)
                else (set_hour hour (set_minute minute d), true))
      | Some carry =>
          '(d, ok) ← addDay d carry;
          Some (if negb ok then (d, false)
                else if negb (withinHTMLDateLimits (m_year d) (m_month d) (m_monthDay d) hour minute (m_second d) (m_millisecond d)) then (d, false)
                else (set_hour hour (set_minute minute d), true))
      end
  end.

(** ** Parsing *)

Definition isASCIIDigit (c : Z) : bool := (ch "0" <=? c) && (c <=? ch "9").

(** The object, and the end if the parser returns true. *)
Definition Parsed : Type := option (DateComponents * option Z).
Definition stop (d : DateComponents) : Parsed := Some (d, None).
Definition accept (d : DateComponents) (end_ : Z) : Parsed := Some (d, Some end_).
Definition andThen (m : Parsed) (f : DateComponents -> Z -> Parsed) : Parsed :=
  '(d, end_) ← m;
  match end_ with None => stop d | Some index => f d index end.

Definition lengthOf (src : list Z) : Z := Z.of_nat (length src).

Fixpoint digitRun (src : list Z) : Z :=
  match src with c :: src' => if isASCIIDigit c then 1 + digitRun src' else 0 | [] => 0 end.
Definition countDigits (src : list Z) (start : Z) : Z := digitRun (drop (Z.to_nat start) src).

Fixpoint toIntLoop (chars : list Z) (value : Z) : option Z :=
  match chars with
  | [] => Some value
  | c :: chars' =>
      if negb (isASCIIDigit c) then None
      else
        let digit := c - ch "0" in
        if value >? (INT_MAX - digit) ÷ 10 then None
        else toIntLoop chars' (value * 10 + digit)
  end.
Definition toInt (src : list Z) (parseStart parseLength : Z) : option Z :=
  if (parseStart + parseLength >? lengthOf src) || (parseLength <=? 0) then None
  else toIntLoop (take (Z.to_nat parseLength) (drop (Z.to_nat parseStart) src)) 0.

(** A number of [digits] digits between [low] and [high]. *)
Definition toIntBetween (src : list Z) (parseStart parseLength low high : Z) : option Z :=
  match toInt src parseStart parseLength with
  | Some value => if (value <? low) || (value >? high) then None else Some value
  | None => None
  end.

Definition parseYear (d : DateComponents) (src : list Z) (start : Z) : Parsed :=
  let digitsLength := countDigits src start in
  if digitsLength <? 4 then stop d
  else
    match toIntBetween src start digitsLength minimumYear maximumYear with
    | None => stop d
    | Some year => accept (set_year year d) (start + digitsLength)
    end.

Definition parseTimeZone (d : DateComponents) (src : list Z) (start : Z) : Parsed :=
  if lengthOf src <=? start then stop d
  else
    c ← at_ src start;
    if c =? ch "Z" then accept d (start + 1)
    else if negb ((c =? ch "+") || (c =? ch "-")) then stop d
    else
      let minus := c =? ch "-" in
      let index := start + 1 in
      match toIntBetween src index 2 0 23 with
      | None => stop d
      | Some hour =>
          let index := index + 2 in
          if lengthOf src <=? index then stop d
          else
            c ← at_ src index;
            if negb (c =? ch ":") then stop d
            else
              let index := index + 1 in
              match toIntBetween src index 2 0 59 with
              | None => stop d
              | Some minute =>
                  let index := index + 2 in
                  let '(hour, minute) := if minus : bool then (- hour, - minute) else (hour, minute) in
                  '(d, ok) ← addMinute d (- (hour * 60 + minute));
                  if ok : bool then accept d index else stop d
              end
      end.

Definition parseMonth (d : DateComponents) (src : list Z) (start : Z) : Parsed :=
  andThen (parseYear d src start) (fun d index =>
  if lengthOf src <=? index then stop d
  else
    c ← at_ src index;
    if negb (c =? ch "-") then stop d
    else
      let index := index + 1 in
      match toIntBetween src index 2 1 12 with
      | None => stop d
      | Some month =>
          let month := month - 1 in
          if negb (withinHTMLDateLimitsMonth (m_year d) month) then stop d
          else accept (set_type Month (set_month month d)) (index + 2)
      end).

Definition parseDate (d : DateComponents) (src : list Z) (start : Z) : Parsed :=
  andThen (parseMonth d src start) (fun d index =>
  if lengthOf src <=? index + 2 then stop d
  else
    c ← at_ src index;
    if negb (c =? ch "-") then stop d
    else
      let index := index + 1 in
      maxDay ← maxDayOfMonth (m_year d) (m_month d);
      match toIntBetween src index 2 1 maxDay with
      | None => stop d
      | Some day =>
          if negb (withinHTMLDateLimitsDay (m_year d) (m_month d) day) then stop d
          else accept (set_type Date (set_monthDay day d)) (index + 2)
      end).

Definition parseWeek (d : DateComponents) (src : list Z) (start : Z) : Parsed :=
  andThen (parseYear d src start) (fun d index =>
  if lengthOf src <=? index + 3 then stop d
  else
    c ← at_ src index;
    if negb (c =? ch "-") then stop d
    else
      let index := index + 1 in
      c ← at_ src index;
      if negb (c =? ch "W") then stop d
      else
        let index := index + 1 in
        match toIntBetween src index 2 minimumWeekNumber (maxWeekNumberInYear d) with
        | None => stop d
        | Some week =>
            if (m_year d =? maximumYear) && (week >? maximumWeekInMaximumYear) then stop d
            else accept (set_type Week (set_week week d)) (index + 2)
        end).

(** The optional part behind the minutes: second, millisecond and where it ends.  A number
    that is too large stays in [second]. *)
Definition parseFraction (src : list Z) (index : Z) : option (Z * Z) :=
  if index <? lengthOf src then
    c ← at_ src index;
    if c =? ch "." then
      let digitsLength := countDigits src (index + 1) in
      if digitsLength >? 0 then
        let index := index + 1 in
        millisecond ← (if digitsLength =? 1 then m ← toInt src index 1; Some (m * 100)
                       else if digitsLength =? 2 then m ← toInt src index 2; Some (m * 10)
                       else toInt src index 3);
        Some (millisecond, index + digitsLength)
      else Some (0, index)
    else Some (0, index)
  else Some (0, index).

Definition parseSeconds (src : list Z) (index : Z) : option (Z * Z * Z) :=
  if index + 2 <? lengthOf src then
    c ← at_ src index;
    if c =? ch ":" then
      match toInt src (index + 1) 2 with
      | Some second =>
          if (0 <=? second) && (second <=? 59) then
            '(millisecond, index) ← parseFraction src (index + 3);
            Some (second, millisecond, index)
          else Some (second, 0, index)
      | None => Some (0, 0, index)
      end
    else Some (0, 0, index)
  else Some (0, 0, index).

Definition parseTime (d : DateComponents) (src : list Z) (start : Z) : Parsed :=
  match toIntBetween src start 2 0 23 with
  | None => stop d
  | Some hour =>
      let index := start + 2 in
      if lengthOf src <=? index then stop d
      else
        c ← at_ src index;
        if negb (c =? ch ":") then stop d
        else
          let index := index + 1 in
          match toIntBetween src index 2 0 59 with
          | None => stop d
          | Some minute =>
              '(second, millisecond, index) ← parseSeconds src (index + 2);
              accept (set_type Time (set_time hour minute second millisecond d)) index
          end
  end.

Definition parseDateTimeLocal (d : DateComponents) (src : list Z) (start : Z) : Parsed :=
  andThen (parseDate d src start) (fun d index =>
  if lengthOf src <=? index then stop d
  else
    c ← at_ src index;
    if negb (c =? ch "T") then stop d
    else
      andThen (parseTime d src (index + 1)) (fun d end_ =>
      if negb (within d) then stop d else accept (set_type DateTimeLocal d) end_)).

Definition parseDateTime (d : DateComponents) (src : list Z) (start : Z) : Parsed :=
  andThen (parseDate d src start) (fun d index =>
  if lengthOf src <=? index then stop d
  else
    c ← at_ src index;
    if negb (c =? ch "T") then stop d
    else
      andThen (parseTime d src (index + 1)) (fun d index =>
      andThen (parseTimeZone d src index) (fun d end_ =>
      if negb (within d) then stop d else accept (set_type DateTime d) end_))).

(** ** Milliseconds and months

    A double argument is what round() makes of it, [None] for an infinity or NaN: rounding
    is the first thing done to a finite one. *)

Definition positiveFmod (value divider : Z) : Z :=
  let remainder := Z.rem value divider in
  if remainder <? 0 then remainder + divider else remainder.

Definition setMillisecondsSinceMidnightInternal (d : DateComponents) (msInDay : Z) : option DateComponents :=
  _ ← ASSERT ((0 <=? msInDay) && (msInDay <? msPerDay));
  let millisecond := Z.rem msInDay msPerSecond in
  let value := msInDay / msPerSecond in
  let second := Z.rem value secondsPerMinute in
  let value := value / secondsPerMinute in
  let minute := Z.rem value minutesPerHour in
  let hour := value ÷ minutesPerHour in
  Some (set_time hour minute second millisecond d).

Definition setMillisecondsSinceEpochForDateInternal (d : DateComponents) (ms : Z) : option DateComponents :=
  year ← msToYear ms;
  yearDay ← dayInYearOfMs ms year;
  Some (set_monthDay (dayInMonthFromDayInYear yearDay (isLeapYear year))
         (set_month (monthFromDayInYear yearDay (isLeapYear year)) (set_year year d))).

Definition setMillisecondsSinceEpochForDate (d : DateComponents) (ms : option Z) : option (DateComponents * bool) :=
  let d := set_type Invalid d in
  match ms with
  | None => Some (d, false)
  | Some ms =>
      d ← setMillisecondsSinceEpochForDateInternal d ms;
      Some (if negb (withinHTMLDateLimitsDay (m_year d) (m_month d) (m_monthDay d)) then (d, false) else (set_type Date d, true))
  end.

Definition setMillisecondsSinceEpochForDateTime (d : DateComponents) (ms : option Z) : option (DateComponents * bool) :=
  let d := set_type Invalid d in
  match ms with
  | None => Some (d, false)
  | Some ms =>
      d ← setMillisecondsSinceMidnightInternal d (positiveFmod ms msPerDay);
      d ← setMillisecondsSinceEpochForDateInternal d ms;
      Some (if negb (within d) then (d, false) else (set_type DateTime d, true))
  end.

Definition setMillisecondsSinceEpochForDateTimeLocal (d : DateComponents) (ms : option Z) : option (DateComponents * bool) :=
  '(d, ok) ← setMillisecondsSinceEpochForDateTime d ms;
  Some (if negb ok then (d, false) else (set_type DateTimeLocal d, true)).

Definition setMillisecondsSinceEpochForMonth (d : DateComponents) (ms : option Z) : option (DateComponents * bool) :=
  let d := set_type Invalid d in
  match ms with
  | None => Some (d, false)
  | Some ms =>
      d ← setMillisecondsSinceEpochForDateInternal d ms;
      Some (if negb (withinHTMLDateLimitsMonth (m_year d) (m_month d)) then (d, false) else (set_type Month d, true))
  end.

Definition setMillisecondsSinceMidnight (d : DateComponents) (ms : option Z) : option (DateComponents * bool) :=
  let d := set_type Invalid d in
  match ms with
  | None => Some (d, false)
  | Some ms => d ← setMillisecondsSinceMidnightInternal d (positiveFmod ms msPerDay); Some (set_type Time d, true)
  end.

Definition setMonthsSinceEpoch (d : DateComponents) (months : option Z) : option (DateComponents * bool) :=
  match months with
  | None => Some (d, false)
  | Some months =>
      let doubleMonth := positiveFmod months 12 in
      let doubleYear := 1970 + (months - doubleMonth) / 12 in
      if (doubleYear <? minimumYear) || (maximumYear <? doubleYear) then Some (d, false)
      else
        year ← toIntCast doubleYear;
        month ← toIntCast doubleMonth;
        Some (if negb (withinHTMLDateLimitsMonth year month) then (d, false)
              else (set_type Month (set_month month (set_year year d)), true))
  end.

Definition offsetTo1stWeekStart (year : Z) : Z :=
  let offset := 1 - dayOfWeek year 0 1 in
  if offset <=? -4 then offset + 7 else offset.

Definition setMillisecondsSinceEpochForWeek (d : DateComponents) (ms : option Z) : option (DateComponents * bool) :=
  let d := set_type Invalid d in
  match ms with
  | None => Some (d, false)
  | Some ms =>
      year ← msToYear ms;
      let d := set_year year d in
      if (m_year d <? minimumYear) || (m_year d >? maximumYear) then Some (d, false)
      else
        yearDay ← dayInYearOfMs ms (m_year d);
        let offset := offsetTo1stWeekStart (m_year d) in
        if yearDay <? offset then
          let d := set_year (m_year d - 1) d in
          Some (if m_year d <=? minimumYear then (d, false)
                else (set_type Week (set_week (maxWeekNumberInYear d) d), true))
        else
          let d := set_week ((yearDay - offset) ÷ 7 + 1) d in
          let d := if m_week d >? maxWeekNumberInYear d then set_week 1 (set_year (m_year d + 1) d) else d in
          Some (if (m_year d >? maximumYear) || ((m_year d =? maximumYear) && (m_week d >? maximumWeekInMaximumYear)) then (d, false)
                else (set_type Week d, true))
  end.

Definition is_type (t u : Type_) : bool := bool_decide (t = u).

Definition millisecondsSinceEpochForTime (d : DateComponents) : option Z :=
  _ ← ASSERT (is_type (m_type d) Time || is_type (m_type d) DateTime || is_type (m_type d) DateTimeLocal);
  Some (((m_hour d * minutesPerHour + m_minute d) * secondsPerMinute + m_second d) * msPerSecond + m_millisecond d).

Definition millisecondsSinceEpoch (d : DateComponents) : option Z :=
  match m_type d with
  | Date => days ← dateToDaysFrom1970 (m_year d) (m_month d) (m_monthDay d); Some (days * msPerDay)
  | DateTime | DateTimeLocal =>
      days ← dateToDaysFrom1970 (m_year d) (m_month d) (m_monthDay d);
      ms ← millisecondsSinceEpochForTime d;
      Some (days * msPerDay + ms)
  | Month => days ← dateToDaysFrom1970 (m_year d) (m_month d) 1; Some (days * msPerDay)
  | Time => millisecondsSinceEpochForTime d
  | Week =>
      days ← dateToDaysFrom1970 (m_year d) 0 1;
      Some ((days + offsetTo1stWeekStart (m_year d) + (m_week d - 1) * 7) * msPerDay)
  | Invalid => None
  end.

Definition monthsSinceEpoch (d : DateComponents) : option Z :=
  _ ← ASSERT (is_type (m_type d) Month);
  Some ((m_year d - 1970) * 12 + m_month d).

(** ** Printing *)

(** A conversion %0nd of an integer that is not negative. *)
Definition formatted (width : nat) (number : Z) : list Z :=
  let ds := numberToString number in replicate (width - length ds) (ch "0") ++ ds.

Definition toStringForTime (d : DateComponents) (format : SecondFormat) : option (list Z) :=
  _ ← ASSERT (is_type (m_type d) DateTime || is_type (m_type d) DateTimeLocal || is_type (m_type d) Time);
  let effectiveFormat :=
    if negb (m_millisecond d =? 0) then Millisecond
    else match format with NoSeconds => if negb (m_second d =? 0) then Second else format | _ => format end in
  let hourAndMinute := formatted 2 (m_hour d) ++ [ch ":"] ++ formatted 2 (m_minute d) in
  Some (match effectiveFormat with
        | NoSeconds => hourAndMinute
        | Second => hourAndMinute ++ [ch ":"] ++ formatted 2 (m_second d)
        | Millisecond => hourAndMinute ++ [ch ":"] ++ formatted 2 (m_second d) ++ [ch "."] ++ formatted 3 (m_millisecond d)
        end).

Definition formattedMonth (d : DateComponents) : list Z := formatted 4 (m_year d) ++ [ch "-"] ++ formatted 2 (m_month d + 1).
Definition formattedDate (d : DateComponents) : list Z := formattedMonth d ++ [ch "-"] ++ formatted 2 (m_monthDay d).

Definition toString (d : DateComponents) (format : SecondFormat) : option (list Z) :=
  match m_type d with
  | Date => Some (formattedDate d)
  | DateTime => time ← toStringForTime d format; Some (formattedDate d ++ [ch "T"] ++ time ++ [ch "Z"])
  | DateTimeLocal => time ← toStringForTime d format; Some (formattedDate d ++ [ch "T"] ++ time)
  | Month => Some (formattedMonth d)
  | Time => toStringForTime d format
  | Week => Some (formatted 4 (m_year d) ++ units "-W" ++ formatted 2 (m_week d))
  | Invalid => None
  end.
