(* ===== verification/DateTheorems.v ===== *)
(** * DateComponents: days, limits and time zones

    A date is a number of days and a time of day a number of milliseconds; adding days and
    minutes adds to these numbers, and the limits of HTML are an interval of them. *)

From S2P Require Import Prelude Digits DateMath DateComponents.

(** ** Months *)

Definition firstOf (leapYear : bool) (month : Z) : Z := default 0 (at_ (firstDayOfMonth leapYear) month).
Definition lengthOfMonth (leapYear : bool) (month : Z) : Z :=
  if month =? 1 then (if leapYear then 29 else 28) else default 0 (at_ daysInMonth month).

Definition isMonth (month : Z) : Prop := 0 <= month <= 11.

(** Case analysis on the twelve months. *)
Ltac months m := match goal with H : isMonth m |- _ =>
  let E := fresh in
  assert (E : m ∈ [0; 1; 2; 3; 4; 5; 6; 7; 8; 9; 10; 11]) by (apply (elem_of_seqZ 0 12); unfold isMonth in H; lia);
  repeat (apply elem_of_cons in E as [-> | E]); [.. | by apply not_elem_of_nil in E] end.

Lemma firstOf_at (b : bool) (m : Z) : isMonth m -> at_ (firstDayOfMonth b) m = Some (firstOf b m).
Proof. intros Hm. months m; by destruct b. Qed.

Lemma maxDayOfMonth_ok (y m : Z) : isMonth m -> maxDayOfMonth y m = Some (lengthOfMonth (isLeapYear y) m).
Proof. intros Hm. unfold maxDayOfMonth, lengthOfMonth. months m; by cbn. Qed.

Lemma lengthOfMonth_bounds (b : bool) (m : Z) : isMonth m -> 28 <= lengthOfMonth b m <= 31.
Proof. intros Hm. months m; destruct b; vm_compute; split; discriminate. Qed.

Lemma firstOf_succ (b : bool) (m : Z) : isMonth m -> m < 11 -> firstOf b (m + 1) = firstOf b m + lengthOfMonth b m.
Proof. intros Hm Hl. months m; by destruct b. Qed.

Lemma firstOf_last (b : bool) : firstOf b 11 + lengthOfMonth b 11 = 365 + (if b then 1 else 0).
Proof. by destruct b. Qed.

Lemma firstOf_zero (b : bool) : firstOf b 0 = 0.
Proof. by destruct b. Qed.

Lemma firstOf_bounds (b : bool) (m : Z) : isMonth m -> 0 <= firstOf b m /\ firstOf b m + lengthOfMonth b m <= 365 + (if b then 1 else 0).
Proof. intros Hm. months m; destruct b; vm_compute; split; discriminate. Qed.

Lemma firstOf_october (b : bool) (m : Z) : isMonth m -> 9 <= m -> 273 + (if b then 1 else 0) <= firstOf b m.
Proof. intros Hm Hl. months m; first [lia | destruct b; vm_compute; discriminate]. Qed.

(** ** Dates *)

(** A date of the calendar, and its number: days since 1970-01-01. *)
Definition validDate (y m d : Z) : Prop := isMonth m /\ 1 <= d <= lengthOfMonth (isLeapYear y) m.
Definition dayNumber (y m d : Z) : Z := daysFrom1970ToYear y + firstOf (isLeapYear y) m + (d - 1).

Lemma daysInYear_leap (y : Z) : daysInYear y = 365 + (if isLeapYear y then 1 else 0).
Proof. reflexivity. Qed.

Lemma dayNumber_year (y m d : Z) : validDate y m d -> daysFrom1970ToYear y <= dayNumber y m d < daysFrom1970ToYear (y + 1).
Proof.
  intros [Hm Hd]. unfold dayNumber. pose proof (firstOf_bounds (isLeapYear y) m Hm). rewrite daysFrom1970_succ, daysInYear_leap. lia.
Qed.

(** The assertion of dateToDaysFrom1970 holds: days are negative before 1970 only. *)
Lemma dateToDaysFrom1970_ok (y m d : Z) : isMonth m -> dateToDaysFrom1970 y m d = Some (dayNumber y m d).
Proof.
  intros Hm. unfold dateToDaysFrom1970. assert (m ÷ 12 = 0) as -> by (unfold isMonth in Hm; apply Z.quot_small; lia).
  assert (Z.rem m 12 = m) as -> by (unfold isMonth in Hm; apply Z.rem_small; lia). rewrite Z.add_0_r. unfold isMonth in Hm.
  rewrite (proj2 (Z.ltb_ge m 0)) by lia.
  assert ((1970 <=? y) && (0 <=? daysFrom1970ToYear y) || (y <? 1970) && (daysFrom1970ToYear y <? 0) = true) as ->.
  { destruct (Z.leb_spec 1970 y) as [L | L].
    - pose proof (daysFrom1970_mono 1970 y L) as G. change (daysFrom1970ToYear 1970) with 0 in G. rewrite (proj2 (Z.leb_le 0 _)) by lia. done.
    - pose proof (daysFrom1970_mono y 1970 ltac:(lia)) as G. change (daysFrom1970ToYear 1970) with 0 in G.
      rewrite (proj2 (Z.ltb_lt y 1970)), (proj2 (Z.ltb_lt _ 0)) by lia. apply orb_true_r. }
  cbn [ASSERT mbind option_bind]. unfold dayInYear. rewrite firstOf_at by done. cbn [mbind option_bind]. unfold dayNumber. f_equal. lia.
Qed.

(** All dates of a year, by computation. *)
Definition monthTable (leapYear : bool) : bool :=
  forallb (fun m => forallb (fun d =>
    let yd := firstOf leapYear m + d - 1 in
    (monthFromDayInYear yd leapYear =? m) && (dayInMonthFromDayInYear yd leapYear =? d)) (seqZ 1 (lengthOfMonth leapYear m))) (seqZ 0 12).

Lemma monthTable_true (leapYear : bool) : monthTable leapYear = true.
Proof. by destruct leapYear; vm_compute. Qed.

Lemma monthFromDay_ok (b : bool) (m d : Z) : isMonth m -> 1 <= d <= lengthOfMonth b m ->
  monthFromDayInYear (firstOf b m + d - 1) b = m /\ dayInMonthFromDayInYear (firstOf b m + d - 1) b = d.
Proof.
  intros Hm Hd. pose proof (monthTable_true b) as T. unfold monthTable in T. rewrite forallb_forall in T. specialize (T m).
  rewrite <- list_elem_of_In, elem_of_seqZ in T. unfold isMonth in Hm. specialize (T ltac:(lia)). rewrite forallb_forall in T. specialize (T d).
  rewrite <- list_elem_of_In, elem_of_seqZ in T. specialize (T ltac:(lia)). cbv zeta in T. by rewrite andb_true_iff, !Z.eqb_eq in T.
Qed.

(** The day found is in its month, for all days of a year. *)
Definition boundTable (leapYear : bool) : bool :=
  forallb (fun yd => dayInMonthFromDayInYear yd leapYear <=? lengthOfMonth leapYear (monthFromDayInYear yd leapYear)) (seqZ 0 (if leapYear then 366 else 365)).

Lemma boundTable_true (leapYear : bool) : boundTable leapYear = true.
Proof. by destruct leapYear; vm_compute. Qed.

(** The month and the day of a day of the year are a date. *)
Lemma dateOfDay_ok (y yd : Z) : 0 <= yd < daysInYear y ->
  let m := monthFromDayInYear yd (isLeapYear y) in let d := dayInMonthFromDayInYear yd (isLeapYear y) in
  validDate y m d /\ dayNumber y m d = daysFrom1970ToYear y + yd.
Proof.
  intros H. destruct (dayInYear_inverse yd (isLeapYear y) H) as (Hm & Hd & first & E & Hy). cbv zeta in *.
  assert (Hm' : isMonth (monthFromDayInYear yd (isLeapYear y))) by done. rewrite firstOf_at in E by done. injection E as E.
  split; [| unfold dayNumber; lia]. split; [done |]. split; [done |].
  pose proof (boundTable_true (isLeapYear y)) as T. unfold boundTable in T. rewrite forallb_forall in T. specialize (T yd).
  rewrite <- list_elem_of_In, elem_of_seqZ, Z.leb_le in T. apply T. rewrite daysInYear_leap in H. destruct (isLeapYear y); lia.
Qed.

(** ** The loops of addDay *)

Lemma validDate_max (y m d : Z) : validDate y m d -> maxDayOfMonth y m = Some (lengthOfMonth (isLeapYear y) m).
Proof. intros [Hm _]. by apply maxDayOfMonth_ok. Qed.

(** The first day of the next month, and the last of the one before. *)
Lemma next_month (y m : Z) : isMonth m ->
  let '(y', m') := if 12 <=? m + 1 then (y + 1, 0) else (y, m + 1) in
  validDate y' m' 1 /\ dayNumber y' m' 1 = dayNumber y m (lengthOfMonth (isLeapYear y) m) + 1.
Proof.
  intros Hm. unfold dayNumber, validDate. destruct (Z.leb_spec 12 (m + 1)) as [L | L].
  - assert (m = 11) as -> by (unfold isMonth in Hm; lia). assert (Hm0 : isMonth 0) by (unfold isMonth; lia).
    pose proof (lengthOfMonth_bounds (isLeapYear (y + 1)) 0 Hm0). split; [split; [done | lia] |].
    rewrite daysFrom1970_succ, daysInYear_leap, firstOf_zero. pose proof (firstOf_last (isLeapYear y)). lia.
  - assert (Hm1 : isMonth (m + 1)) by (unfold isMonth in *; lia). pose proof (lengthOfMonth_bounds (isLeapYear y) (m + 1) Hm1).
    split; [split; [done | lia] |]. rewrite firstOf_succ by (done || lia). lia.
Qed.

Lemma previous_month (y m : Z) : isMonth m ->
  let '(y', m') := if m - 1 <? 0 then (y - 1, 11) else (y, m - 1) in
  isMonth m' /\ validDate y' m' (lengthOfMonth (isLeapYear y') m') /\ dayNumber y' m' (lengthOfMonth (isLeapYear y') m') = dayNumber y m 1 - 1.
Proof.
  intros Hm. unfold dayNumber, validDate. destruct (Z.ltb_spec (m - 1) 0) as [L | L].
  - assert (m = 0) as -> by (unfold isMonth in Hm; lia). assert (Hm0 : isMonth 11) by (unfold isMonth; lia).
    pose proof (lengthOfMonth_bounds (isLeapYear (y - 1)) 11 Hm0). split; [done |]. split; [split; [done | lia] |].
    pose proof (daysFrom1970_succ (y - 1)) as E. replace (y - 1 + 1) with y in E by lia. rewrite firstOf_zero, E, daysInYear_leap.
    pose proof (firstOf_last (isLeapYear (y - 1))). lia.
  - assert (Hm1 : isMonth (m - 1)) by (unfold isMonth in *; lia). pose proof (lengthOfMonth_bounds (isLeapYear y) (m - 1) Hm1).
    split; [done |]. split; [split; [done | lia] |]. pose proof (firstOf_succ (isLeapYear y) (m - 1) Hm1) as E.
    replace (m - 1 + 1) with m in E by lia. unfold isMonth in Hm. lia.
Qed.

Lemma forwardLoop_ok (n : nat) (y m d : Z) : validDate y m d ->
  exists y' m' d', forwardLoop n y m d (lengthOfMonth (isLeapYear y) m) = Some (y', m', d') /\ validDate y' m' d' /\
    dayNumber y' m' d' = dayNumber y m d + Z.of_nat n.
Proof.
  revert y m d. induction n as [| n IH]; intros y m d Hv; cbn [forwardLoop]; [exists y, m, d; split; [done |]; split; [done | lia] |].
  destruct Hv as [Hm Hd]. rewrite Z.gtb_ltb. destruct (Z.ltb_spec (lengthOfMonth (isLeapYear y) m) (d + 1)) as [L | L].
  - pose proof (next_month y m Hm) as Hn. destruct (if 12 <=? m + 1 then (y + 1, 0) else (y, m + 1)) as [y1 m1]. destruct Hn as [Hv1 Hn1].
    rewrite (validDate_max y1 m1 1 Hv1). cbn [mbind option_bind]. destruct (IH y1 m1 1 Hv1) as (y' & m' & d' & -> & Hv' & E).
    exists y', m', d'. split; [done |]. split; [done |]. assert (d = lengthOfMonth (isLeapYear y) m) as -> by lia. lia.
  - destruct (IH y m (d + 1)) as (y' & m' & d' & -> & Hv' & E); [split; [done | lia] |].
    exists y', m', d'. split; [done |]. split; [done |]. unfold dayNumber in *. lia.
Qed.

Lemma backwardLoop_ok (n : nat) (y m d : Z) : validDate y m d ->
  exists y' m' d', backwardLoop n y m d = Some (y', m', d') /\ validDate y' m' d' /\ dayNumber y' m' d' = dayNumber y m d - Z.of_nat n.
Proof.
  revert y m d. induction n as [| n IH]; intros y m d Hv; cbn [backwardLoop]; [exists y, m, d; split; [done |]; split; [done | lia] |].
  destruct Hv as [Hm Hd]. destruct (Z.ltb_spec (d - 1) 1) as [L | L].
  - pose proof (previous_month y m Hm) as Hn. destruct (if m - 1 <? 0 then (y - 1, 11) else (y, m - 1)) as [y1 m1]. destruct Hn as (Hm1 & Hv1 & Hn1).
    rewrite (maxDayOfMonth_ok y1 m1 Hm1). cbn [mbind option_bind]. destruct (IH y1 m1 _ Hv1) as (y' & m' & d' & -> & Hv' & E).
    exists y', m', d'. split; [done |]. split; [done |]. assert (d = 1) as -> by lia. lia.
  - destruct (IH y m (d - 1)) as (y' & m' & d' & -> & Hv' & E); [split; [done | lia] |].
    exists y', m', d'. split; [done |]. split; [done |]. unfold dayNumber in *. lia.
Qed.

Definition set_date (y m x : Z) (d : DateComponents) : DateComponents := set_monthDay x (set_month m (set_year y d)).

Definition validDay (d : DateComponents) : Prop := validDate (m_year d) (m_month d) (m_monthDay d).
Definition dayOf (d : DateComponents) : Z := dayNumber (m_year d) (m_month d) (m_monthDay d).

(** The date that many days away is set if it is within the limits. *)
Lemma addDay_ok (d : DateComponents) (n : Z) : validDay d ->
  exists y m x, validDate y m x /\ dayNumber y m x = dayOf d + n /\
    addDay d n = Some (if withinHTMLDateLimitsDay y m x then (set_date y m x d, true) else (d, false)).
Proof.
  intros Hv. unfold validDay, dayOf in *. destruct (proj2 Hv) as [H1 H2]. unfold addDay. rewrite (proj2 (Z.eqb_neq (m_monthDay d) 0)) by lia.
  cbn [negb ASSERT mbind option_bind]. rewrite (validDate_max _ _ _ Hv). cbn [mbind option_bind]. rewrite Z.gtb_ltb.
  destruct (Z.ltb_spec (lengthOfMonth (isLeapYear (m_year d)) (m_month d)) (m_monthDay d + n)) as [L | L].
  - destruct (forwardLoop_ok (Z.to_nat n) _ _ _ Hv) as (y & m & x & -> & Hv' & E). cbn [mbind option_bind]. exists y, m, x.
    split; [done |]. split; [lia |]. by destruct (withinHTMLDateLimitsDay y m x).
  - destruct (Z.ltb_spec (m_monthDay d + n) 1) as [G | G].
    + destruct (backwardLoop_ok (Z.to_nat (- n)) _ _ _ Hv) as (y & m & x & -> & Hv' & E). cbn [mbind option_bind]. exists y, m, x.
      split; [done |]. split; [lia |]. by destruct (withinHTMLDateLimitsDay y m x).
    + exists (m_year d), (m_month d), (m_monthDay d + n). split; [split; [apply Hv | lia] |]. split; [unfold dayNumber; lia |].
      destruct d. by destruct (withinHTMLDateLimitsDay _ _ _).
Qed.

(** ** The limits *)

Definition minimumDay : Z := -719162.
Definition maximumDay : Z := 100000000.

Lemma year_of_day (y m d z : Z) : validDate y m d -> (z <= y <-> daysFrom1970ToYear z <= dayNumber y m d).
Proof.
  intros Hv. pose proof (dayNumber_year y m d Hv) as B. split; intros H.
  - pose proof (daysFrom1970_mono z y H). lia.
  - destruct (Z.le_gt_cases z y) as [L | L]; [done |]. pose proof (daysFrom1970_mono (y + 1) z ltac:(lia)). lia.
Qed.

(** Dates up to the end of the last month are in the last month or before. *)
Lemma last_month (y m d : Z) : validDate y m d -> dayNumber y m d <= maximumDay + 17 -> y <= maximumYear /\ (y = maximumYear -> m <= maximumMonthInMaximumYear).
Proof.
  intros Hv H. unfold maximumDay, maximumYear, maximumMonthInMaximumYear in *. assert (Hy : y <= 275760).
  { destruct (Z.le_gt_cases y 275760) as [L | L]; [done |]. apply Z.lt_le_pred in L.
    pose proof (proj1 (year_of_day y m d 275761 Hv) ltac:(lia)) as G. change (daysFrom1970ToYear 275761) with 100000110 in G. lia. }
  split; [done |]. intros ->. destruct (Z.le_gt_cases m 8) as [L | L]; [done |]. pose proof (firstOf_october (isLeapYear 275760) m (proj1 Hv) ltac:(lia)) as F.
  change (isLeapYear 275760) with true in F. cbv iota in F. unfold dayNumber in H. change (isLeapYear 275760) with true in H. change (daysFrom1970ToYear 275760) with 99999744 in H. destruct (proj2 Hv). lia.
Qed.

Lemma limits_day (y m d : Z) : validDate y m d -> dayNumber y m d <= maximumDay + 17 ->
  withinHTMLDateLimitsDay y m d = true <-> minimumDay <= dayNumber y m d <= maximumDay.
Proof.
  intros Hv H. destruct (last_month y m d Hv H) as [Hy Hm]. pose proof (year_of_day y m d 1 Hv) as Y1. change (daysFrom1970ToYear 1) with minimumDay in Y1.
  unfold withinHTMLDateLimitsDay, minimumYear, maximumYear, maximumMonthInMaximumYear, maximumDayInMaximumMonth in *.
  destruct (Z.ltb_spec y 1) as [L | L]; [split; [done | lia] |]. destruct (Z.ltb_spec y 275760) as [G | G].
  - split; [| done]. intros _. pose proof (year_of_day y m d 275760 Hv) as Y2. change (daysFrom1970ToYear 275760) with 99999744 in Y2. unfold maximumDay. lia.
  - assert (y = 275760) as -> by lia. specialize (Hm eq_refl). unfold dayNumber, minimumDay, maximumDay in *. change (daysFrom1970ToYear 275760) with 99999744 in *.
    change (isLeapYear 275760) with true in *. destruct Hv as [Hmm Hd]. change (isLeapYear 275760) with true in Hd. destruct (Z.ltb_spec m 8) as [K | K].
    + split; [| done]. intros _. pose proof (firstOf_bounds true m Hmm). assert (firstOf true m + lengthOfMonth true m <= 244); [| lia].
      months m; first [lia | vm_compute; discriminate].
    + assert (m = 8) as -> by lia. change (firstOf true 8) with 244 in *. rewrite Z.leb_le. lia.
Qed.

(** ** Times *)

Definition validTime (d : DateComponents) : Prop :=
  0 <= m_hour d <= 23 /\ 0 <= m_minute d <= 59 /\ 0 <= m_second d <= 59 /\ 0 <= m_millisecond d <= 999.
Definition timeOf (d : DateComponents) : Z := ((m_hour d * 60 + m_minute d) * 60 + m_second d) * 1000 + m_millisecond d.
Definition instantOf (d : DateComponents) : Z := dayOf d * msPerDay + timeOf d.

Definition minimumInstant : Z := minimumDay * msPerDay.
Definition maximumInstant : Z := maximumDay * msPerDay.

Lemma timeOf_bounds (d : DateComponents) : validTime d -> 0 <= timeOf d < msPerDay.
Proof. unfold validTime, timeOf. rewrite msPerDay_eq. lia. Qed.

(** The limits are an interval of instants. *)
Lemma limits_instant (d : DateComponents) : validDay d -> validTime d -> dayOf d <= maximumDay + 17 ->
  within d = true <-> minimumInstant <= instantOf d <= maximumInstant.
Proof.
  intros Hv Ht Hd. pose proof (timeOf_bounds d Ht) as Hb. unfold within.
  assert (W : withinHTMLDateLimits (m_year d) (m_month d) (m_monthDay d) (m_hour d) (m_minute d) (m_second d) (m_millisecond d) = true <->
              withinHTMLDateLimitsDay (m_year d) (m_month d) (m_monthDay d) = true /\ (dayOf d = maximumDay -> timeOf d = 0)).
  { destruct (last_month _ _ _ Hv Hd) as [Hy Hm]. unfold withinHTMLDateLimits, withinHTMLDateLimitsDay, dayOf, minimumYear, maximumYear, maximumMonthInMaximumYear, maximumDayInMaximumMonth in *.
    destruct (Z.ltb_spec (m_year d) 1) as [L | L]; [split; [done | by intros []] |].
    destruct (Z.ltb_spec (m_year d) 275760) as [G | G].
    - split; [intros _; split; [done |] | done]. intros E. pose proof (year_of_day _ _ _ 275760 Hv) as Y.
      change (daysFrom1970ToYear 275760) with 99999744 in Y. unfold maximumDay in E. lia.
    - assert (Ey : m_year d = 275760) by lia. specialize (Hm Ey). destruct Hv as [Hmm Hdd]. rewrite Ey in *. change (isLeapYear 275760) with true in Hdd.
      unfold dayNumber. change (daysFrom1970ToYear 275760) with 99999744. change (isLeapYear 275760) with true.
      assert (F : m_month d < 8 -> firstOf true (m_month d) + lengthOfMonth true (m_month d) <= 244).
      { revert Hmm Hm. clear. generalize (m_month d). intros m Hmm _ Hl. months m; first [lia | vm_compute; discriminate]. }
      destruct (Z.ltb_spec (m_month d) 8) as [K | K]; [split; [intros _; split; [done |]; specialize (F K); unfold maximumDay; lia | done] |].
      assert (m_month d = 8) as -> by lia. change (firstOf true 8) with 244. unfold maximumDay. rewrite Z.gtb_ltb.
      destruct (Z.ltb_spec (m_monthDay d) 13) as [A | A]; [rewrite Z.leb_le; split; [intros _; split; lia | done] |].
      destruct (Z.ltb_spec 13 (m_monthDay d)) as [B | B]; [rewrite Z.leb_le; split; [done | lia] |].
      rewrite Z.leb_le, !andb_true_iff, !Z.eqb_eq. unfold validTime, timeOf in *. lia. }
  rewrite W. unfold validDay in Hv. pose proof (limits_day _ _ _ Hv Hd) as LD. fold (dayOf d) in LD. rewrite LD.
  unfold minimumInstant, maximumInstant, instantOf. rewrite msPerDay_eq in *. lia.
Qed.

(** The minutes or hours in range and the carry. *)
Lemma carryOver_ok (n v : Z) : 1 < n -> exists carry r, carryOver n v = Some (carry, r) /\ 0 <= r < n /\ v = default 0 carry * n + r /\
  (carry = None <-> 0 <= v < n).
Proof.
  intros Hn. unfold carryOver. rewrite Z.gtb_ltb. destruct (Z.ltb_spec (n - 1) v) as [L | L].
  - rewrite Z.quot_div_nonneg, Z.rem_mod_nonneg by lia. eexists _, _. split; [done |]. pose proof (Z.mod_pos_bound v n ltac:(lia)).
    split; [lia |]. cbn [default from_option id]. split; [pose proof (Z.div_mod v n); lia |]. split; [done | lia].
  - destruct (Z.ltb_spec v 0) as [G | G].
    + rewrite Z.quot_div_nonneg by lia. pose proof (Z.div_mod (n - 1 - v) n ltac:(lia)) as E. pose proof (Z.mod_pos_bound (n - 1 - v) n ltac:(lia)) as B.
      set (q := (n - 1 - v) / n) in *. assert (0 <= v + q * n <= n - 1) by lia.
      rewrite (proj2 (Z.leb_le 0 _)), (proj2 (Z.leb_le _ (n - 1))) by lia. cbn [andb ASSERT mbind option_bind]. eexists _, _. split; [done |].
      cbn [default from_option id]. split; [lia |]. split; [lia |]. split; [done | lia].
    + exists None, v. split; [done |]. split; [lia |]. cbn [default from_option id]. split; [lia |]. split; [lia | done].
Qed.

(** ** Adding minutes *)

Definition inLimits (d : DateComponents) : Prop := minimumInstant <= instantOf d <= maximumInstant.
Definition set_clock (hour minute : Z) (d : DateComponents) : DateComponents := set_hour hour (set_minute minute d).

Lemma inLimits_day (d : DateComponents) : validTime d -> inLimits d -> minimumDay <= dayOf d <= maximumDay.
Proof.
  intros Ht H. pose proof (timeOf_bounds d Ht). unfold inLimits, minimumInstant, maximumInstant, instantOf in H. rewrite msPerDay_eq in *. lia.
Qed.

(** The last test: the object is set when the new time is within the limits. *)
Lemma clock_outcome (d0 d : DateComponents) (instant : Z) :
  validDay d -> validTime d -> dayOf d <= maximumDay + 17 -> instantOf d = instant ->
  exists d1 ok, Some (if negb (within d) then (d0, false) else (d, true)) = Some (d1, ok) /\
    (ok = true <-> minimumInstant <= instant <= maximumInstant) /\ (ok = true -> d1 = d).
Proof.
  intros Hv Ht Hd <-. pose proof (limits_instant d Hv Ht Hd) as L. destruct (within d); eexists _, _; (split; [done |]); (split; [exact L | done]).
Qed.

Lemma addMinute_ok (d : DateComponents) (k : Z) :
  validDay d -> validTime d -> minimumDay <= dayOf d <= maximumDay -> -1439 <= k <= 1439 ->
  let instant := instantOf d + k * 60000 in
  exists d' ok, addMinute d k = Some (d', ok) /\ (ok = true <-> minimumInstant <= instant <= maximumInstant) /\
    (ok = true -> validDay d' /\ validTime d' /\ instantOf d' = instant /\
       exists y m x hour minute, d' = set_clock hour minute (set_date y m x d)).
Proof.
  intros Hv Ht Hd Hk instant. unfold addMinute.
  rewrite (proj2 (limits_day _ _ _ Hv ltac:(unfold dayOf in Hd; lia)) Hd). cbn [ASSERT mbind option_bind].
  destruct (carryOver_ok 60 (k + m_minute d)) as (c & mi & -> & Hmi & Ec & Hc); [lia |]. cbn [mbind option_bind].
  assert (Hsame : d = set_date (m_year d) (m_month d) (m_monthDay d) d) by (by destruct d). unfold validTime in Ht.
  destruct c as [c |]; cbn [default from_option id] in Ec.
  - destruct (carryOver_ok 24 (m_hour d + c)) as (c2 & h & -> & Hh & Ec2 & Hc2); [lia |]. cbn [mbind option_bind].
    destruct c2 as [c2 |]; cbn [default from_option id] in Ec2.
    + destruct (addDay_ok d c2 Hv) as (y & m & x & Hv' & En & ->). cbn [mbind option_bind].
      assert (Hc2' : -1 <= c2 <= 1) by lia. pose proof (limits_day y m x Hv' ltac:(lia)) as LD.
      set (d' := set_clock h mi (set_date y m x d)).
      assert (Hv2 : validDay d') by exact Hv'. assert (Ht2 : validTime d') by (unfold validTime; cbn; lia).
      assert (Ed : dayOf d' = dayOf d + c2) by exact En.
      assert (Ei : instantOf d' = instant) by (unfold instant, instantOf, timeOf; rewrite Ed; cbn; rewrite msPerDay_eq; lia).
      destruct (withinHTMLDateLimitsDay y m x) eqn:W.
      * cbn [negb]. change (withinHTMLDateLimits _ _ _ _ _ _ _) with (within d').
        destruct (clock_outcome (set_date y m x d) d' instant Hv2 Ht2 ltac:(lia) Ei) as (d1 & ok & Eo & Ho1 & Ho2).
        exists d1, ok. split; [exact Eo |]. split; [exact Ho1 |]. intros Hok. rewrite (Ho2 Hok).
        split; [done |]. split; [done |]. split; [done |]. by exists y, m, x, h, mi.
      * exists d, false. split; [done |]. split; [| done]. split; [done |]. intros Hi. exfalso. rewrite <- Ei in Hi.
        pose proof (inLimits_day d' Ht2 Hi) as Hd'. rewrite Ed, <- En, <- LD in Hd'. done.
    + set (d' := set_clock h mi d). assert (Hv2 : validDay d') by exact Hv. assert (Ht2 : validTime d') by (unfold validTime; cbn; lia).
      assert (Ei : instantOf d' = instant) by (unfold instant, instantOf, timeOf; change (dayOf d') with (dayOf d); cbn; rewrite msPerDay_eq; lia).
      change (withinHTMLDateLimits _ _ _ _ _ _ _) with (within d').
      destruct (clock_outcome d d' instant Hv2 Ht2 ltac:(change (dayOf d') with (dayOf d); lia) Ei) as (d1 & ok & Eo & Ho1 & Ho2).
      exists d1, ok. split; [exact Eo |]. split; [exact Ho1 |]. intros Hok. rewrite (Ho2 Hok).
      split; [done |]. split; [done |]. split; [done |]. exists (m_year d), (m_month d), (m_monthDay d), h, mi. by rewrite <- Hsame.
  - set (d' := set_clock (m_hour d) mi d). assert (Hv2 : validDay d') by exact Hv. assert (Ht2 : validTime d') by (unfold validTime; cbn; lia).
    assert (Ei : instantOf d' = instant) by (unfold instant, instantOf, timeOf; change (dayOf d') with (dayOf d); cbn; rewrite msPerDay_eq; lia).
    change (withinHTMLDateLimits _ _ _ _ _ _ _) with (within d'). change (set_minute mi d) with d'.
    destruct (clock_outcome d d' instant Hv2 Ht2 ltac:(change (dayOf d') with (dayOf d); lia) Ei) as (d1 & ok & Eo & Ho1 & Ho2).
    exists d1, ok. split; [exact Eo |]. split; [exact Ho1 |]. intros Hok. rewrite (Ho2 Hok).
    split; [done |]. split; [done |]. split; [done |]. exists (m_year d), (m_month d), (m_monthDay d), (m_hour d), mi. by rewrite <- Hsame.
Qed.
