(* ===== verification/DateEpochTheorems.v ===== *)
(** * DateComponents: milliseconds and months since 1970

    The conversions to milliseconds and months and back are inverse to each other, for
    every type of value; weeks are the weeks of ISO 8601. *)

From S2P Require Import Prelude Digits DateMath DateComponents DateTheorems.

(** ** Days and times are determined *)

Lemma dayNumber_inj (y m d y' m' d' : Z) : validDate y m d -> validDate y' m' d' -> dayNumber y m d = dayNumber y' m' d' -> (y, m, d) = (y', m', d').
Proof.
  intros Hv Hv' E. assert (y = y') as <-.
  { pose proof (dayNumber_year y m d Hv) as B. pose proof (dayNumber_year y' m' d' Hv') as B'. rewrite <- E in B'. by eapply year_unique. }
  destruct Hv as [Hm Hd], Hv' as [Hm' Hd']. destruct (monthFromDay_ok _ _ _ Hm Hd) as [Em Ed], (monthFromDay_ok _ _ _ Hm' Hd') as [Em' Ed'].
  unfold dayNumber in E. replace (firstOf (isLeapYear y) m' + d' - 1) with (firstOf (isLeapYear y) m + d - 1) in * by lia. congruence.
Qed.

(** ** The setters *)

Lemma positiveFmod_ok (v n : Z) : 0 < n -> positiveFmod v n = v mod n.
Proof.
  intros Hn. unfold positiveFmod. pose proof (Z.quot_rem' v n) as E. pose proof (Z.rem_bound_abs v n ltac:(lia)) as B.
  destruct (Z.ltb_spec (Z.rem v n) 0) as [L | L].
  - apply (Z.mod_unique_pos _ _ (v ÷ n - 1)); lia.
  - apply (Z.mod_unique_pos _ _ (v ÷ n)); lia.
Qed.

Lemma setMidnight_ok (d : DateComponents) (t : Z) : 0 <= t < msPerDay ->
  exists h mi s ms, setMillisecondsSinceMidnightInternal d t = Some (set_time h mi s ms d) /\
    validTime (set_time h mi s ms d) /\ timeOf (set_time h mi s ms d) = t.
Proof.
  intros Ht. unfold setMillisecondsSinceMidnightInternal. rewrite (proj2 (Z.leb_le 0 t)), (proj2 (Z.ltb_lt t msPerDay)) by lia.
  cbn [andb ASSERT mbind option_bind]. rewrite msPerDay_eq in Ht. unfold msPerSecond, secondsPerMinute, minutesPerHour.
  pose proof (Z.div_mod t 1000 ltac:(lia)). pose proof (Z.mod_pos_bound t 1000 ltac:(lia)). set (v := t / 1000) in *. assert (0 <= v) by lia.
  pose proof (Z.div_mod v 60 ltac:(lia)). pose proof (Z.mod_pos_bound v 60 ltac:(lia)). set (w := v / 60) in *. assert (0 <= w) by lia.
  pose proof (Z.div_mod w 60 ltac:(lia)). pose proof (Z.mod_pos_bound w 60 ltac:(lia)).
  rewrite !Z.rem_mod_nonneg, Z.quot_div_nonneg by lia. eexists _, _, _, _. split; [done |]. unfold validTime, timeOf.
  cbn [m_hour m_minute m_second m_millisecond set_time]. lia.
Qed.

Lemma setDateInternal_ok (d : DateComponents) (ms : Z) : - 2 ^ 53 <= ms <= 2 ^ 53 ->
  exists y m x, setMillisecondsSinceEpochForDateInternal d ms = Some (set_date y m x d) /\ validDate y m x /\ dayNumber y m x = ms / msPerDay.
Proof.
  intros Hms. unfold setMillisecondsSinceEpochForDateInternal. destruct (msToYear_ok ms Hms) as (y & -> & Hy). cbn [mbind option_bind].
  rewrite daysFrom1970_succ in Hy. pose proof (leapDays_bounds y). rewrite daysInYear_eq in Hy. unfold dayInYearOfMs, msToDays, toIntCast.
  rewrite (proj2 (Z.leb_le _ _)), (proj2 (Z.ltb_lt _ _)) by lia. cbn [andb mbind option_bind].
  destruct (dateOfDay_ok y (ms / msPerDay - daysFrom1970ToYear y)) as [Hv E]; [rewrite daysInYear_eq; lia |].
  eexists _, _, _. split; [done |]. split; [exact Hv | rewrite E; lia].
Qed.

(** ** Weeks *)

(** Sunday is 0, and 1970-01-01 was a Thursday. *)
Definition weekday (n : Z) : Z := (n + 4) mod 7.

(** The years of Zeller's congruence. *)
Lemma zeller_year (y : Z) : 0 <= y ->
  Z.rem y 100 + Z.rem y 100 ÷ 4 + y ÷ 100 ÷ 4 + 5 * (y ÷ 100) = y + y / 4 - y / 100 + y / 400 - 7 * (17 * (y / 100)).
Proof.
  intros Hy. rewrite Z.rem_mod_nonneg, (Z.quot_div_nonneg y 100) by lia. pose proof (Z.div_mod y 100 ltac:(lia)) as E.
  pose proof (Z.mod_pos_bound y 100 ltac:(lia)) as B. assert (E4 : y / 400 = y / 100 / 4) by (rewrite Z.div_div by lia; done). rewrite E4.
  set (h := y / 100) in *. set (l := y mod 100) in *. clearbody h l.
  assert (y / 4 = 25 * h + l / 4) as -> by (rewrite E; replace (100 * h + l) with (l + 25 * h * 4) by lia; rewrite Z.div_add by lia; lia).
  rewrite !Z.quot_div_nonneg by lia. lia.
Qed.

Lemma mod7 (a b k : Z) : a = b + 7 * k -> a mod 7 = b mod 7.
Proof. intros ->. rewrite Z.mul_comm, Z.mod_add by lia. done. Qed.

(** And its months. *)
Lemma zeller_month (b : bool) (m : Z) : isMonth m ->
  (m <= 1 -> (13 * (m + 2 + 12) ÷ 5 + 719529 - firstOf b m) mod 7 = 0) /\
  (2 <= m -> (13 * (m + 2) ÷ 5 + 719530 + (if b then 1 else 0) - firstOf b m) mod 7 = 0).
Proof. intros Hm. months m; destruct b; (split; intros Hl; first [lia | by vm_compute]). Qed.

Lemma dayOfWeek_ok (y m d : Z) : 1 <= y -> isMonth m -> 1 <= d -> dayOfWeek y m d = weekday (dayNumber y m d).
Proof.
  intros Hy Hm Hd. unfold dayOfWeek, weekday, dayNumber. rewrite daysFrom1970_eq.
  assert (Z1 := zeller_year (y - 1) ltac:(lia)). assert (Z2 := zeller_year y ltac:(lia)). pose proof (leapDays_ok y) as HL.
  assert (P : forall a, 0 <= a -> Z.rem a 7 = a mod 7) by (intros a Ha; apply Z.rem_mod_nonneg; lia).
  assert (Q : forall a n, 0 <= a -> 0 < n -> 0 <= a ÷ n) by (intros a n Ha Hn; apply Z.quot_pos; lia).
  assert (R : forall a n, 0 <= a -> 0 < n -> 0 <= Z.rem a n) by (intros a n Ha Hn; apply Z.rem_nonneg; lia).
  pose proof (Q (y - 1) 100 ltac:(lia) ltac:(lia)). pose proof (R (y - 1) 100 ltac:(lia) ltac:(lia)).
  pose proof (Q y 100 ltac:(lia) ltac:(lia)). pose proof (R y 100 ltac:(lia) ltac:(lia)).
  pose proof (Q (y ÷ 100) 4 ltac:(lia) ltac:(lia)). pose proof (Q (Z.rem y 100) 4 ltac:(lia) ltac:(lia)).
  pose proof (Q ((y - 1) ÷ 100) 4 ltac:(lia) ltac:(lia)). pose proof (Q (Z.rem (y - 1) 100) 4 ltac:(lia) ltac:(lia)).
  clear Q R. unfold leapDays in HL.
  assert (Hc : forall k, 0 <= k -> 0 <= 13 * k ÷ 5) by (intros k Hk; apply Z.quot_pos; lia).
  destruct (zeller_month (isLeapYear y) m Hm) as [M1 M2]. unfold isMonth in Hm.
  pose proof (Hc (m + 2) ltac:(lia)). pose proof (Hc (m + 2 + 12) ltac:(lia)).
  destruct (Z.leb_spec (m + 2) 3) as [L | L]; rewrite P by lia.
  - pose proof (Z.div_mod (13 * (m + 2 + 12) ÷ 5 + 719529 - firstOf (isLeapYear y) m) 7 ltac:(lia)). specialize (M1 ltac:(lia)).
    apply (mod7 _ _ (-52 * y - 17 * ((y - 1) / 100) + (13 * (m + 2 + 12) ÷ 5 + 719529 - firstOf (isLeapYear y) m) / 7)). lia.
  - pose proof (Z.div_mod (13 * (m + 2) ÷ 5 + 719530 + (if isLeapYear y then 1 else 0) - firstOf (isLeapYear y) m) 7 ltac:(lia)). specialize (M2 ltac:(lia)).
    apply (mod7 _ _ (-52 * y - 17 * (y / 100) + (13 * (m + 2) ÷ 5 + 719530 + (if isLeapYear y then 1 else 0) - firstOf (isLeapYear y) m) / 7)). lia.
Qed.

Definition weekStart (y : Z) : Z := daysFrom1970ToYear y + offsetTo1stWeekStart y.

Lemma january_first (y : Z) : dayNumber y 0 1 = daysFrom1970ToYear y.
Proof. unfold dayNumber. rewrite firstOf_zero. lia. Qed.

Lemma dayOfWeek_january (y : Z) : 1 <= y -> dayOfWeek y 0 1 = weekday (daysFrom1970ToYear y).
Proof. intros Hy. by rewrite dayOfWeek_ok, january_first by (unfold isMonth; lia). Qed.

(** The first week begins on a Monday, three days around the first of January. *)
Lemma weekStart_ok (y : Z) : 1 <= y -> weekday (weekStart y) = 1 /\ -3 <= weekStart y - daysFrom1970ToYear y <= 3.
Proof.
  intros Hy. unfold weekStart, offsetTo1stWeekStart. rewrite dayOfWeek_january by done. unfold weekday. set (n := daysFrom1970ToYear y).
  assert (W : forall k, (n + k + 4) mod 7 = ((n + 4) mod 7 + k) mod 7) by (intros k; rewrite Zplus_mod_idemp_l; f_equal; lia). rewrite W. clear W.
  pose proof (Z.mod_pos_bound (n + 4) 7 ltac:(lia)) as B. set (w := (n + 4) mod 7) in *. clearbody w.
  assert (Hw : w ∈ [0; 1; 2; 3; 4; 5; 6]) by (apply (elem_of_seqZ 0 7); lia).
  repeat (apply elem_of_cons in Hw as [-> | Hw]); [.. | by apply not_elem_of_nil in Hw].
  all: match goal with |- context [?a <=? -4] => destruct (Z.leb_spec a (-4)) end; (split; [first [done | lia] | lia]).
Qed.

Lemma maxWeek_ok (d : DateComponents) : 1 <= m_year d -> weekStart (m_year d + 1) = weekStart (m_year d) + 7 * maxWeekNumberInYear d.
Proof.
  intros Hy. unfold weekStart, offsetTo1stWeekStart, maxWeekNumberInYear. rewrite !dayOfWeek_january by lia. rewrite daysFrom1970_succ, daysInYear_leap.
  unfold weekday. set (n := daysFrom1970ToYear (m_year d)). unfold maximumWeekNumber.
  assert (W : forall k, (n + k + 4) mod 7 = ((n + 4) mod 7 + k) mod 7) by (intros k; rewrite Zplus_mod_idemp_l; f_equal; lia). rewrite W. clear W.
  pose proof (Z.mod_pos_bound (n + 4) 7 ltac:(lia)) as B. set (w := (n + 4) mod 7) in *. clearbody w.
  assert (Hw : w ∈ [0; 1; 2; 3; 4; 5; 6]) by (apply (elem_of_seqZ 0 7); lia).
  repeat (apply elem_of_cons in Hw as [-> | Hw]); [.. | by apply not_elem_of_nil in Hw].
  all: destruct (isLeapYear (m_year d)).
  all: repeat match goal with |- context [?a <=? -4] => let v := eval vm_compute in (a <=? -4) in change (a <=? -4) with v end; cbn -[Z.add Z.sub Z.mul].
  all: match goal with |- context [?a mod 7] => let v := eval vm_compute in (a mod 7) in change (a mod 7) with v end; lia.
Qed.

(** ** Values *)

(** What a value of its type is: a date of the calendar, a time of the day, a month or a
    week of a year, within the limits of HTML. *)
Definition validComponents (d : DateComponents) : Prop :=
  match m_type d with
  | Invalid => False
  | Date => validDay d /\ minimumDay <= dayOf d <= maximumDay
  | DateTime | DateTimeLocal => validDay d /\ validTime d /\ inLimits d
  | Month => isMonth (m_month d) /\ minimumYear <= m_year d <= maximumYear /\ (m_year d = maximumYear -> m_month d <= maximumMonthInMaximumYear)
  | Time => validTime d
  | Week => minimumYear <= m_year d <= maximumYear /\ minimumWeekNumber <= m_week d <= maxWeekNumberInYear d /\
      (m_year d = maximumYear -> m_week d <= maximumWeekInMaximumYear)
  end.

Definition sameDay (d e : DateComponents) : Prop := m_year d = m_year e /\ m_month d = m_month e /\ m_monthDay d = m_monthDay e.
Definition sameTime (d e : DateComponents) : Prop :=
  m_hour d = m_hour e /\ m_minute d = m_minute e /\ m_second d = m_second e /\ m_millisecond d = m_millisecond e.

(** The fields that the type uses. *)
Definition sameValue (d e : DateComponents) : Prop :=
  m_type d = m_type e /\
  match m_type d with
  | Invalid => True
  | Date => sameDay d e
  | DateTime | DateTimeLocal => sameDay d e /\ sameTime d e
  | Month => m_year d = m_year e /\ m_month d = m_month e
  | Time => sameTime d e
  | Week => m_year d = m_year e /\ m_week d = m_week e
  end.

Definition setterFor (t : Type_) (d : DateComponents) (ms : option Z) : option (DateComponents * bool) :=
  match t with
  | Date => setMillisecondsSinceEpochForDate d ms
  | DateTime => setMillisecondsSinceEpochForDateTime d ms
  | DateTimeLocal => setMillisecondsSinceEpochForDateTimeLocal d ms
  | Month => setMillisecondsSinceEpochForMonth d ms
  | Time => setMillisecondsSinceMidnight d ms
  | Week => setMillisecondsSinceEpochForWeek d ms
  | Invalid => None
  end.

(** The day, instant, month, time of day or week that a time value is in begins at ms'. *)
Definition beginsAt (t : Type_) (ms' ms : Z) : Prop :=
  match t with
  | Invalid => False
  | Date => ms' = ms / msPerDay * msPerDay
  | DateTime | DateTimeLocal => ms' = ms
  | Month => exists y m, isMonth m /\ ms' = dayNumber y m 1 * msPerDay /\ ms' <= ms < (dayNumber y m (lengthOfMonth (isLeapYear y) m) + 1) * msPerDay
  | Time => ms' = ms mod msPerDay
  | Week => weekday (ms' / msPerDay) = 1 /\ ms' mod msPerDay = 0 /\ ms' <= ms < ms' + 7 * msPerDay
  end.

Lemma time_get (d : DateComponents) : m_type d = Time \/ m_type d = DateTime \/ m_type d = DateTimeLocal ->
  millisecondsSinceEpochForTime d = Some (timeOf d).
Proof. intros Ht. unfold millisecondsSinceEpochForTime, is_type. by destruct Ht as [-> | [-> | ->]]. Qed.

(** ms in days and the rest. *)
Lemma ms_split (ms : Z) : ms = ms / msPerDay * msPerDay + ms mod msPerDay /\ 0 <= ms mod msPerDay < msPerDay.
Proof. rewrite msPerDay_eq. pose proof (Z.div_mod ms 86400000). pose proof (Z.mod_pos_bound ms 86400000). lia. Qed.

Definition valueRange (ms : Z) : Prop := minimumInstant <= ms <= maximumInstant.

Lemma valueRange_ok (ms : Z) : valueRange ms -> - 2 ^ 53 <= ms <= 2 ^ 53 /\ minimumDay <= ms / msPerDay <= maximumDay.
Proof.
  unfold valueRange, minimumInstant, maximumInstant, minimumDay, maximumDay. destruct (ms_split ms) as [E B]. set (n := ms / msPerDay) in *. rewrite msPerDay_eq in *. lia.
Qed.

Lemma set_date_ok (d : DateComponents) (ms : Z) : valueRange ms ->
  exists e, setMillisecondsSinceEpochForDate d (Some ms) = Some (e, true) /\ m_type e = Date /\ validDay e /\ dayOf e = ms / msPerDay.
Proof.
  intros Hr. destruct (valueRange_ok ms Hr) as [H53 Hday]. unfold setMillisecondsSinceEpochForDate.
  destruct (setDateInternal_ok (set_type Invalid d) ms H53) as (y & m & x & -> & Hv & En). cbn [mbind option_bind].
  change (withinHTMLDateLimitsDay _ _ _) with (withinHTMLDateLimitsDay y m x). rewrite (proj2 (limits_day y m x Hv ltac:(lia))) by lia.
  cbn [negb]. eexists. split; [done |]. split; [done |]. split; [exact Hv | exact En].
Qed.

Lemma set_datetime_ok (d : DateComponents) (ms : Z) : valueRange ms ->
  exists e, setMillisecondsSinceEpochForDateTime d (Some ms) = Some (e, true) /\ m_type e = DateTime /\ validDay e /\ validTime e /\ instantOf e = ms.
Proof.
  intros Hr. destruct (valueRange_ok ms Hr) as [H53 Hday]. destruct (ms_split ms) as [E B]. unfold setMillisecondsSinceEpochForDateTime.
  rewrite positiveFmod_ok by (rewrite msPerDay_eq; lia). destruct (setMidnight_ok (set_type Invalid d) (ms mod msPerDay) B) as (h & mi & s & l & -> & Ht & Et).
  cbn [mbind option_bind]. destruct (setDateInternal_ok (set_time h mi s l (set_type Invalid d)) ms H53) as (y & m & x & -> & Hv & En). cbn [mbind option_bind].
  set (e := set_date y m x (set_time h mi s l (set_type Invalid d))). assert (Hv' : validDay e) by exact Hv. assert (Ht' : validTime e) by exact Ht.
  assert (Ei : instantOf e = ms) by (unfold instantOf; change (dayOf e) with (dayNumber y m x); change (timeOf e) with (timeOf (set_time h mi s l (set_type Invalid d))); lia).
  assert (W : within e = true).
  { apply limits_instant; [done | done | change (dayOf e) with (dayNumber y m x); lia | by rewrite Ei]. }
  rewrite W. cbn [negb]. eexists. split; [done |]. split; [done |]. split; [exact Hv | split; [exact Ht | exact Ei]].
Qed.

(** The first day of the month of a date. *)
Lemma month_of_day (y m x : Z) : validDate y m x ->
  dayNumber y m 1 <= dayNumber y m x < dayNumber y m (lengthOfMonth (isLeapYear y) m) + 1.
Proof. intros [_ Hx]. unfold dayNumber. lia. Qed.

Lemma set_month_ok (d : DateComponents) (ms : Z) : valueRange ms ->
  exists e, setMillisecondsSinceEpochForMonth d (Some ms) = Some (e, true) /\ m_type e = Month /\ validComponents e /\
    exists x, validDate (m_year e) (m_month e) x /\ dayNumber (m_year e) (m_month e) x = ms / msPerDay.
Proof.
  intros Hr. destruct (valueRange_ok ms Hr) as [H53 Hday]. unfold setMillisecondsSinceEpochForMonth.
  destruct (setDateInternal_ok (set_type Invalid d) ms H53) as (y & m & x & -> & Hv & En). cbn [mbind option_bind].
  change (withinHTMLDateLimitsMonth _ _) with (withinHTMLDateLimitsMonth y m). destruct (last_month y m x Hv ltac:(lia)) as [Hy Hm].
  pose proof (proj2 (year_of_day y m x 1 Hv)) as Y1. change (daysFrom1970ToYear 1) with minimumDay in Y1. specialize (Y1 ltac:(lia)).
  assert (withinHTMLDateLimitsMonth y m = true) as ->.
  { unfold withinHTMLDateLimitsMonth, minimumYear. rewrite (proj2 (Z.ltb_ge y 1)) by lia. destruct (Z.ltb_spec y maximumYear) as [L | L]; [done |].
    apply Z.leb_le, Hm. lia. }
  cbn [negb]. eexists. split; [done |]. split; [done |]. split; [split; [apply Hv | split; [done | exact Hm]] |]. by exists x.
Qed.

Lemma weekStart_first : weekStart 1 = minimumDay. Proof. by vm_compute. Qed.
Lemma weekStart_last : weekStart maximumYear = 99999743. Proof. by vm_compute. Qed.

Lemma week_start (d : DateComponents) (n : Z) :
  weekStart (m_year d) + (m_week d - 1) * 7 <= n < weekStart (m_year d) + m_week d * 7 ->
  minimumDay <= n <= maximumDay -> minimumYear <= m_year d <= maximumYear -> minimumWeekNumber <= m_week d <= maxWeekNumberInYear d ->
  m_type d = Week -> validComponents d.
Proof.
  intros Hn Hd Hy Hw Ht. unfold validComponents. rewrite Ht. split; [done |]. split; [done |]. intros E. rewrite E, weekStart_last in Hn.
  unfold maximumDay, maximumWeekInMaximumYear in *. lia.
Qed.

Lemma set_week_ok (d : DateComponents) (ms : Z) : valueRange ms ->
  exists e, setMillisecondsSinceEpochForWeek d (Some ms) = Some (e, true) /\ m_type e = Week /\ validComponents e /\
    weekStart (m_year e) + (m_week e - 1) * 7 <= ms / msPerDay < weekStart (m_year e) + m_week e * 7.
Proof.
  intros Hr. destruct (valueRange_ok ms Hr) as [H53 Hday]. unfold setMillisecondsSinceEpochForWeek.
  destruct (msToYear_ok ms H53) as (y & -> & Hy). set (n := ms / msPerDay) in *. cbn [mbind option_bind]. cbn [m_year set_year].
  assert (Hy1 : minimumYear <= y <= maximumYear).
  { unfold minimumYear, maximumYear. split.
    - destruct (Z.le_gt_cases 1 y) as [L | L]; [done |]. pose proof (daysFrom1970_mono (y + 1) 1 ltac:(lia)) as M. change (daysFrom1970ToYear 1) with minimumDay in M. lia.
    - destruct (Z.le_gt_cases y 275760) as [L | L]; [done |]. pose proof (daysFrom1970_mono 275761 y ltac:(lia)) as M.
      change (daysFrom1970ToYear 275761) with 100000110 in M. unfold maximumDay in Hday. lia. }
  rewrite (proj2 (Z.ltb_ge y minimumYear)), Z.gtb_ltb, (proj2 (Z.ltb_ge maximumYear y)) by lia. cbn [orb].
  unfold dayInYearOfMs, msToDays, toIntCast. fold n. pose proof Hy as Hy'. rewrite daysFrom1970_succ in Hy'. pose proof (leapDays_bounds y). rewrite daysInYear_eq in Hy'.
  rewrite (proj2 (Z.leb_le (- 2 ^ 31) (n - daysFrom1970ToYear y))), (proj2 (Z.ltb_lt (n - daysFrom1970ToYear y) (2 ^ 31))) by lia. cbn [andb mbind option_bind].
  assert (Hoff : offsetTo1stWeekStart y = weekStart y - daysFrom1970ToYear y) by (unfold weekStart; lia). rewrite Hoff.
  destruct (weekStart_ok y ltac:(unfold minimumYear in *; lia)) as [_ Hws].
  destruct (Z.ltb_spec (n - daysFrom1970ToYear y) (weekStart y - daysFrom1970ToYear y)) as [L | L].
  - assert (Hy3 : 3 <= y).
    { destruct (Z.le_gt_cases 3 y) as [K | K]; [done |]. exfalso. unfold minimumYear in *. assert (y = 1 \/ y = 2) as [-> | ->] by lia.
      - rewrite weekStart_first in L. change (daysFrom1970ToYear 1) with minimumDay in *. lia.
      - change (daysFrom1970ToYear 2) with (-718797) in *. change (weekStart 2) with (-718798) in L. lia. }
    cbn [m_year set_year]. rewrite (proj2 (Z.leb_gt _ minimumYear)) by (unfold minimumYear; lia). eexists. split; [done |]. split; [done |].
    set (e := set_type Week _). pose proof (maxWeek_ok (set_year (y - 1) e) ltac:(cbn; lia)) as M. cbn [m_year set_year] in M. replace (y - 1 + 1) with y in M by lia.
    assert (Eb : weekStart (m_year e) + (m_week e - 1) * 7 <= n < weekStart (m_year e) + m_week e * 7).
    { change (m_year e) with (y - 1). change (m_week e) with (maxWeekNumberInYear (set_year (y - 1) e)). lia. }
    split; [| exact Eb]. apply (week_start e n Eb Hday); [cbn; unfold minimumYear in *; lia | | done].
    change (m_week e) with (maxWeekNumberInYear e). split; [| done]. unfold minimumWeekNumber, maxWeekNumberInYear, maximumWeekNumber. by destruct (_ || _).
  - rewrite Z.quot_div_nonneg by lia. replace (n - daysFrom1970ToYear y - (weekStart y - daysFrom1970ToYear y)) with (n - weekStart y) by lia.
    pose proof (Z.div_mod (n - weekStart y) 7 ltac:(lia)) as E7. pose proof (Z.mod_pos_bound (n - weekStart y) 7 ltac:(lia)) as B7.
    set (q := (n - weekStart y) / 7) in *. clearbody q. assert (Hq : 0 <= q) by lia. cbn [m_week set_week].
    set (e0 := set_week (q + 1) (set_year y (set_type Invalid d))). pose proof (maxWeek_ok e0 ltac:(cbn; unfold minimumYear in *; lia)) as M.
    change (m_year e0) with y in M. rewrite (Z.gtb_ltb (q + 1)). destruct (Z.ltb_spec (maxWeekNumberInYear e0) (q + 1)) as [K | K].
    + assert (Hlt : y < maximumYear).
      { destruct (Z.le_gt_cases maximumYear y) as [G | G]; [| done]. assert (y = maximumYear) as -> by lia. change (weekStart (maximumYear + 1)) with 100000107 in M.
        unfold maximumDay in Hday. lia. }
      destruct (weekStart_ok (y + 1) ltac:(unfold minimumYear in *; lia)) as [_ Hws1]. match goal with |- context [set_type Week ?D] => set (e := D) end.
      change (m_year e) with (y + 1). change (m_week e) with 1. rewrite Z.gtb_ltb, (proj2 (Z.ltb_ge maximumYear (y + 1))), andb_false_r by lia. cbn [orb].
      eexists. split; [done |]. split; [done |]. set (e1 := set_type Week e).
      assert (Eb : weekStart (m_year e1) + (m_week e1 - 1) * 7 <= n < weekStart (m_year e1) + m_week e1 * 7) by (change (m_year e1) with (y + 1); change (m_week e1) with 1; lia).
      split; [| exact Eb]. apply (week_start e1 n Eb Hday); [cbn; unfold minimumYear in *; lia | | done].
      change (m_week e1) with 1. unfold minimumWeekNumber, maxWeekNumberInYear, maximumWeekNumber. destruct (_ || _); lia.
    + set (e := set_type Week e0). assert (Eb : weekStart (m_year e) + (m_week e - 1) * 7 <= n < weekStart (m_year e) + m_week e * 7)
        by (change (m_year e) with y; change (m_week e) with (q + 1); lia).
      assert (Hve : validComponents e).
      { apply (week_start e n Eb Hday); [exact Hy1 | | done]. change (m_week e) with (q + 1). change (maxWeekNumberInYear e) with (maxWeekNumberInYear e0). unfold minimumWeekNumber. lia. }
      change (m_year e0) with y. change (m_week e0) with (q + 1). rewrite !Z.gtb_ltb, (proj2 (Z.ltb_ge maximumYear y)) by lia. cbn [orb].
      assert ((y =? maximumYear) && (maximumWeekInMaximumYear <? q + 1) = false) as ->.
      { destruct (Z.eqb_spec y maximumYear) as [G | G]; [| done]. apply Z.ltb_ge. by apply Hve. }
      exists e. split; [done |]. split; [done |]. split; [exact Hve | exact Eb].
Qed.

Lemma set_time_ok (d : DateComponents) (ms : Z) :
  exists e, setMillisecondsSinceMidnight d (Some ms) = Some (e, true) /\ m_type e = Time /\ validTime e /\ timeOf e = ms mod msPerDay.
Proof.
  unfold setMillisecondsSinceMidnight. rewrite positiveFmod_ok by (rewrite msPerDay_eq; lia). destruct (ms_split ms) as [_ B].
  destruct (setMidnight_ok (set_type Invalid d) (ms mod msPerDay) B) as (h & mi & s & l & -> & Ht & Et). cbn [mbind option_bind].
  eexists. split; [done |]. split; [done |]. split; [exact Ht | exact Et].
Qed.

(** ** Getters *)

Lemma week_get (d : DateComponents) : m_type d = Week -> millisecondsSinceEpoch d = Some ((weekStart (m_year d) + (m_week d - 1) * 7) * msPerDay).
Proof.
  intros Ht. unfold millisecondsSinceEpoch. rewrite Ht, dateToDaysFrom1970_ok by (unfold isMonth; lia). cbn [mbind option_bind]. by rewrite january_first.
Qed.

Lemma day_get (d : DateComponents) : m_type d = Date -> isMonth (m_month d) -> millisecondsSinceEpoch d = Some (dayOf d * msPerDay).
Proof. intros Ht Hm. unfold millisecondsSinceEpoch. rewrite Ht. by rewrite dateToDaysFrom1970_ok. Qed.

Lemma month_get (d : DateComponents) : m_type d = Month -> isMonth (m_month d) ->
  millisecondsSinceEpoch d = Some (dayNumber (m_year d) (m_month d) 1 * msPerDay).
Proof. intros Ht Hm. unfold millisecondsSinceEpoch. rewrite Ht. by rewrite dateToDaysFrom1970_ok. Qed.

Lemma instant_get (d : DateComponents) : m_type d = DateTime \/ m_type d = DateTimeLocal -> isMonth (m_month d) ->
  millisecondsSinceEpoch d = Some (instantOf d).
Proof.
  intros Ht Hm. unfold millisecondsSinceEpoch. rewrite dateToDaysFrom1970_ok, time_get by tauto. by destruct Ht as [-> | ->].
Qed.

(** The day of a number of days in milliseconds. *)
Lemma day_ms (n : Z) : n * msPerDay / msPerDay = n /\ (n * msPerDay) mod msPerDay = 0.
Proof. split; [apply Z.div_mul | apply Z.mod_mul]; by vm_compute. Qed.

Lemma setter_get (t : Type_) (d : DateComponents) (ms : Z) : t <> Invalid -> valueRange ms ->
  exists e ms', setterFor t d (Some ms) = Some (e, true) /\ m_type e = t /\ validComponents e /\
    millisecondsSinceEpoch e = Some ms' /\ beginsAt t ms' ms.
Proof.
  intros Hi Hr. destruct (ms_split ms) as [E B]. destruct (valueRange_ok ms Hr) as [_ Hday]. destruct t; [done | ..]; cbn [setterFor beginsAt].
  - destruct (set_date_ok d ms Hr) as (e & -> & Ht & Hv & En). exists e, (dayOf e * msPerDay). split; [done |]. split; [done |].
    split; [unfold validComponents; rewrite Ht, En; by split |]. split; [by apply day_get; [| apply Hv] | by rewrite En].
  - destruct (set_datetime_ok d ms Hr) as (e & -> & Ht & Hv & Hvt & Ei). exists e, ms. split; [done |]. split; [done |].
    split; [unfold validComponents, inLimits; rewrite Ht, Ei; by split |]. split; [| done]. rewrite instant_get, Ei; [done | by left | apply Hv].
  - destruct (set_datetime_ok d ms Hr) as (e & Ee & Ht & Hv & Hvt & Ei). exists (set_type DateTimeLocal e), ms.
    unfold setMillisecondsSinceEpochForDateTimeLocal. rewrite Ee. split; [done |]. split; [done |].
    split; [split; [exact Hv | split; [exact Hvt |]]; unfold inLimits; change (instantOf _) with (instantOf e); by rewrite Ei |].
    split; [| done]. rewrite instant_get; [change (instantOf _) with (instantOf e); by rewrite Ei | by right | apply Hv].
  - destruct (set_month_ok d ms Hr) as (e & -> & Ht & Hv & x & Hx & En). eexists e, _. split; [done |]. split; [done |]. split; [done |].
    split; [by apply month_get; [| apply Hx] |]. exists (m_year e), (m_month e). split; [apply Hx |]. split; [done |].
    pose proof (month_of_day _ _ _ Hx) as Bm. rewrite En in Bm. rewrite msPerDay_eq in *. lia.
  - destruct (set_time_ok d ms) as (e & -> & Ht & Hv & En). exists e, (timeOf e). split; [done |]. split; [done |].
    split; [unfold validComponents; by rewrite Ht |]. split; [| done]. unfold millisecondsSinceEpoch. rewrite Ht. apply time_get. by left.
  - destruct (set_week_ok d ms Hr) as (e & -> & Ht & Hv & Bw). eexists e, _. split; [done |]. split; [done |]. split; [done |].
    split; [by apply week_get |]. destruct (day_ms (weekStart (m_year e) + (m_week e - 1) * 7)) as [-> ->].
    split; [| split; [done |]].
    + unfold validComponents in Hv. rewrite Ht in Hv. destruct (weekStart_ok (m_year e) (proj1 (proj1 Hv))) as [W _].
      etrans; [| exact W]. apply (mod7 _ _ (m_week e - 1)). lia.
    + rewrite msPerDay_eq in *. lia.
Qed.

(** ** Weeks are determined *)

Lemma week_unique (d e : DateComponents) (n : Z) : 1 <= m_year d -> 1 <= m_year e ->
  1 <= m_week d <= maxWeekNumberInYear d -> 1 <= m_week e <= maxWeekNumberInYear e ->
  weekStart (m_year d) + (m_week d - 1) * 7 <= n < weekStart (m_year d) + m_week d * 7 ->
  weekStart (m_year e) + (m_week e - 1) * 7 <= n < weekStart (m_year e) + m_week e * 7 -> m_year d = m_year e /\ m_week d = m_week e.
Proof.
  intros Hd He Wd We Bd Be. pose proof (maxWeek_ok d Hd) as Md. pose proof (maxWeek_ok e He) as Me.
  assert (M : forall y z, 1 <= y -> y < z -> weekStart (y + 1) <= weekStart z).
  { intros y z Hy Hz. destruct (Z.eq_dec z (y + 1)) as [-> | N]; [done |]. destruct (weekStart_ok (y + 1) ltac:(lia)) as [_ B1].
    destruct (weekStart_ok z ltac:(lia)) as [_ B2]. pose proof (daysFrom1970_mono (y + 1) z ltac:(lia)). lia. }
  assert (Ey : m_year d = m_year e).
  { destruct (Z.lt_trichotomy (m_year d) (m_year e)) as [L | [L | L]]; [| done |].
    - pose proof (M _ _ Hd L). lia.
    - pose proof (M _ _ He L). lia. }
  split; [done |]. rewrite Ey in Bd. lia.
Qed.

(** The day that a week begins with is in the range. *)
Lemma week_range (d : DateComponents) : m_type d = Week -> validComponents d -> valueRange ((weekStart (m_year d) + (m_week d - 1) * 7) * msPerDay).
Proof.
  intros Ht Hv. unfold validComponents in Hv. rewrite Ht in Hv. destruct Hv as (Hy & Hw & Hm). unfold valueRange, minimumInstant, maximumInstant.
  assert (minimumDay <= weekStart (m_year d) + (m_week d - 1) * 7 <= maximumDay); [| rewrite msPerDay_eq; lia].
  unfold minimumYear, minimumWeekNumber in *. assert (H52 : maxWeekNumberInYear d <= 53) by (unfold maxWeekNumberInYear, maximumWeekNumber; destruct (_ || _); lia).
  destruct (weekStart_ok (m_year d) ltac:(lia)) as [_ B]. destruct (Z.eq_dec (m_year d) 1) as [E | N].
  - rewrite E, weekStart_first. unfold minimumDay, maximumDay. lia.
  - pose proof (daysFrom1970_mono 2 (m_year d) ltac:(lia)) as M. change (daysFrom1970ToYear 2) with (-718797) in M. unfold minimumDay. split; [lia |].
    destruct (Z.eq_dec (m_year d) maximumYear) as [E | N'].
    + rewrite E, weekStart_last. specialize (Hm E). unfold maximumDay, maximumWeekInMaximumYear in *. lia.
    + pose proof (daysFrom1970_mono (m_year d + 1) maximumYear ltac:(unfold maximumYear in *; lia)) as M'. rewrite daysFrom1970_succ in M'.
      change (daysFrom1970ToYear maximumYear) with 99999744 in M'. rewrite daysInYear_eq in M'. pose proof (leapDays_bounds (m_year d)). unfold maximumDay. lia.
Qed.

(** The first of a month in the range is in the range. *)
Lemma month_range (d : DateComponents) : m_type d = Month -> validComponents d ->
  validDate (m_year d) (m_month d) 1 /\ valueRange (dayNumber (m_year d) (m_month d) 1 * msPerDay).
Proof.
  intros Ht Hv. unfold validComponents in Hv. rewrite Ht in Hv. destruct Hv as (Hm & Hy & Hl). pose proof (lengthOfMonth_bounds (isLeapYear (m_year d)) (m_month d) Hm).
  assert (Hv : validDate (m_year d) (m_month d) 1) by (split; [done | lia]). split; [done |].
  pose proof (proj1 (year_of_day _ _ _ 1 Hv) ltac:(unfold minimumYear in *; lia)) as L. change (daysFrom1970ToYear 1) with minimumDay in L.
  assert (dayNumber (m_year d) (m_month d) 1 <= maximumDay); [| unfold valueRange, minimumInstant, maximumInstant; rewrite msPerDay_eq; lia].
  destruct (Z.eq_dec (m_year d) maximumYear) as [E | N].
  - specialize (Hl E). unfold dayNumber. rewrite E. change (daysFrom1970ToYear maximumYear) with 99999744. change (isLeapYear maximumYear) with true.
    assert (F : firstOf true (m_month d) <= 244); [| unfold maximumDay; lia]. revert Hm Hl. generalize (m_month d). intros m Hm Hl.
    unfold maximumMonthInMaximumYear in Hl. months m; first [lia | by vm_compute].
  - assert (~ (maximumYear <= m_year d)) as G by lia. rewrite (year_of_day _ _ _ _ Hv) in G. change (daysFrom1970ToYear maximumYear) with 99999744 in G. unfold maximumDay. lia.
Qed.

(** A time of the day is its milliseconds. *)
Lemma time_unique (d e : DateComponents) : validTime d -> validTime e -> timeOf d = timeOf e -> sameTime d e.
Proof. unfold validTime, timeOf, sameTime. lia. Qed.

Lemma instant_unique (d e : DateComponents) : validDay d -> validTime d -> validDay e -> validTime e -> instantOf d = instantOf e -> sameDay d e /\ sameTime d e.
Proof.
  intros Hd Td He Te E. pose proof (timeOf_bounds d Td) as Bd. pose proof (timeOf_bounds e Te) as Be. unfold instantOf in E. rewrite msPerDay_eq in *.
  assert (En : dayOf d = dayOf e) by lia. pose proof (dayNumber_inj _ _ _ _ _ _ Hd He En) as G. injection G as G1 G2 G3.
  split; [done |]. apply time_unique; [done | done | lia].
Qed.

Lemma getter_set (d d0 : DateComponents) : validComponents d ->
  exists ms e, millisecondsSinceEpoch d = Some ms /\ valueRange ms /\ setterFor (m_type d) d0 (Some ms) = Some (e, true) /\ sameValue d e.
Proof.
  intros Hv. pose proof Hv as Hv0. unfold validComponents in Hv. destruct (m_type d) eqn:Ht; [done | ..]; cbn [setterFor].
  - destruct Hv as [Hd Hl]. assert (Hr : valueRange (dayOf d * msPerDay)) by (unfold valueRange, minimumInstant, maximumInstant; rewrite msPerDay_eq; lia).
    exists (dayOf d * msPerDay). destruct (set_date_ok d0 _ Hr) as (e & -> & Hte & He & En). rewrite (proj1 (day_ms _)) in En.
    exists e. split; [by apply day_get; [| apply Hd] |]. split; [done |]. split; [done |]. unfold sameValue. rewrite Ht. split; [done |].
    pose proof (dayNumber_inj _ _ _ _ _ _ He Hd En) as G. injection G as G1 G2 G3. by unfold sameDay.
  - destruct Hv as (Hd & Hvt & Hr). exists (instantOf d). destruct (set_datetime_ok d0 _ Hr) as (e & -> & Hte & He & Te & En). exists e.
    split; [apply instant_get; [by left | apply Hd] |]. split; [exact Hr |]. split; [done |]. unfold sameValue. rewrite Ht. split; [done |]. by apply instant_unique.
  - destruct Hv as (Hd & Hvt & Hr). exists (instantOf d). destruct (set_datetime_ok d0 _ Hr) as (e & Ee & Hte & He & Te & En). exists (set_type DateTimeLocal e).
    unfold setMillisecondsSinceEpochForDateTimeLocal. rewrite Ee.
    split; [apply instant_get; [by right | apply Hd] |]. split; [exact Hr |]. split; [done |]. unfold sameValue. rewrite Ht. split; [done |].
    by apply (instant_unique d e).
  - destruct (month_range d Ht Hv0) as [H1 Hr]. eexists. destruct (set_month_ok d0 _ Hr) as (e & -> & Hte & He & x & Hx & En). exists e.
    split; [apply month_get; [done | apply Hv] |]. split; [exact Hr |]. split; [done |]. unfold sameValue. rewrite Ht. split; [done |].
    rewrite (proj1 (day_ms _)) in En. pose proof (dayNumber_inj _ _ _ _ _ _ Hx H1 En) as G. injection G as G1 G2 G3. by rewrite G1, G2.
  - exists (timeOf d). destruct (set_time_ok d0 (timeOf d)) as (e & -> & Hte & He & En). exists e. pose proof (timeOf_bounds d Hv) as B.
    rewrite Z.mod_small in En by exact B. split; [unfold millisecondsSinceEpoch; rewrite Ht; apply time_get; by left |].
    split; [unfold valueRange, minimumInstant, maximumInstant, minimumDay, maximumDay; rewrite msPerDay_eq in *; lia |]. split; [done |].
    unfold sameValue. rewrite Ht. split; [done |]. by apply time_unique.
  - pose proof (week_range d Ht Hv0) as Hr. eexists. destruct (set_week_ok d0 _ Hr) as (e & -> & Hte & He & Be). exists e. split; [by apply week_get |].
    split; [exact Hr |]. split; [done |]. unfold sameValue. rewrite Ht. split; [done |]. rewrite (proj1 (day_ms _)) in Be.
    unfold validComponents in He. rewrite Hte in He. destruct Hv as (Hy & Hw & _), He as (Hy' & Hw' & _). unfold minimumYear, minimumWeekNumber in *.
    apply (week_unique d e (weekStart (m_year d) + (m_week d - 1) * 7)); [lia | lia | done | done | lia | done].
Qed.

(** ** Months *)

Definition minimumMonths : Z := (minimumYear - 1970) * 12.
Definition maximumMonths : Z := (maximumYear - 1970) * 12 + maximumMonthInMaximumYear.

Lemma months_set (d : DateComponents) (months : Z) :
  exists e ok, setMonthsSinceEpoch d (Some months) = Some (e, ok) /\ (ok = true <-> minimumMonths <= months <= maximumMonths) /\
    (ok = true -> m_type e = Month /\ validComponents e /\ monthsSinceEpoch e = Some months).
Proof.
  unfold setMonthsSinceEpoch. rewrite positiveFmod_ok by lia. pose proof (Z.div_mod months 12 ltac:(lia)) as E. pose proof (Z.mod_pos_bound months 12 ltac:(lia)) as B.
  assert ((months - months mod 12) / 12 = months / 12) as -> by (rewrite E at 1; replace (12 * (months / 12) + months mod 12 - months mod 12) with (months / 12 * 12) by lia; apply Z.div_mul; lia).
  set (q := months / 12) in *. set (r := months mod 12) in *. clearbody q r.
  unfold minimumMonths, maximumMonths, minimumYear, maximumYear, maximumMonthInMaximumYear.
  destruct (Z.ltb_spec (1970 + q) 1) as [L | L]; [exists d, false; cbn [orb]; split; [done |]; split; [split; [done | lia] | done] |].
  destruct (Z.ltb_spec 275760 (1970 + q)) as [G | G]; [exists d, false; cbn [orb]; split; [done |]; split; [split; [done | lia] | done] |].
  cbn [orb]. unfold toIntCast. rewrite !(proj2 (Z.leb_le _ _)), !(proj2 (Z.ltb_lt _ _)) by lia. cbn [andb mbind option_bind].
  unfold withinHTMLDateLimitsMonth, minimumYear, maximumYear, maximumMonthInMaximumYear. rewrite (proj2 (Z.ltb_ge (1970 + q) 1)) by lia.
  assert (W : (if 1970 + q <? 275760 then true else r <=? 8) = true <-> (1970 + q = 275760 -> r <= 8)).
  { destruct (Z.ltb_spec (1970 + q) 275760); [split; [lia | done] | rewrite Z.leb_le; lia]. }
  destruct (if 1970 + q <? 275760 then true else r <=? 8).
  - cbn [negb]. eexists _, true. split; [done |]. split; [split; [| done]; intros _; pose proof (proj1 W eq_refl); lia |]. intros _. split; [done |]. split.
    + split; [exact (conj (proj1 B) (proj1 (Z.lt_le_pred r 12) (proj2 B))) |]. split; [cbn; unfold minimumYear, maximumYear; lia | exact (proj1 W eq_refl)].
    + change (Some ((1970 + q - 1970) * 12 + r) = Some months). f_equal. lia.
  - cbn [negb]. exists d, false. split; [done |]. split; [split; [done |] | done]. intros H. apply W. lia.
Qed.
