(* ===== verification/DateProperties.v ===== *)
(** * DateComponents: properties

    The theorems about the values of date and time controls, and their instances. *)

From S2P Require Import Prelude Digits DateMath DateComponents DateTheorems DateEpochTheorems.

(** * DateComponents: text

    What is printed parses to the value it was printed from, for every type and every
    choice of the seconds.  On any text the parsers stay inside of it, and a text that one
    accepts to its end is a valid value of its type. *)

(** ** Reading a text at a place *)

(** The text from i on is t. *)
Definition At (src : list Z) (i : Z) (t : list Z) : Prop := 0 <= i /\ i + count t = lengthOf src /\ drop (Z.to_nat i) src = t.

Lemma at_start (src : list Z) : At src 0 src.
Proof. done. Qed.

Lemma at_any (src : list Z) (i : Z) : 0 <= i <= lengthOf src -> exists t, At src i t.
Proof. intros Hi. exists (drop (Z.to_nat i) src). split; [lia |]. split; [| done]. unfold count, lengthOf in *. rewrite length_drop. lia. Qed.

Lemma at_app (src : list Z) (i : Z) (a b : list Z) : At src i (a ++ b) -> At src (i + count a) b.
Proof.
  intros (H0 & Hl & E). rewrite count_app in Hl. unfold At, count in *. split; [lia |]. split; [lia |].
  replace (Z.to_nat (i + Z.of_nat (length a))) with (Z.to_nat i + length a)%nat by lia. by rewrite <- drop_drop, E, drop_app_length.
Qed.

Lemma at_char (src : list Z) (i : Z) (c : Z) (t : list Z) : At src i (c :: t) -> at_ src i = Some c /\ At src (i + 1) t /\ i < lengthOf src.
Proof.
  intros H. split; [| split; [exact (at_app src i [c] t H) |]]; destruct H as (H0 & Hl & E).
  - unfold at_. rewrite (proj2 (Z.leb_le 0 i) H0), <- (Nat.add_0_r (Z.to_nat i)), <- lookup_drop. by rewrite E.
  - unfold count in Hl. cbn [length] in Hl. lia.
Qed.

Lemma isASCIIDigit_ok (c : Z) : isASCIIDigit c = true <-> 48 <= c <= 57.
Proof. unfold isASCIIDigit. change (ch "0") with 48. change (ch "9") with 57. rewrite andb_true_iff, !Z.leb_le. lia. Qed.

Definition noDigit (t : list Z) : Prop := match t with c :: _ => isASCIIDigit c = false | [] => True end.

Lemma digitRun_ok (ds t : list Z) : digits ds -> noDigit t -> digitRun (ds ++ t) = count ds.
Proof.
  intros Hd Ht. induction Hd as [| c ds Hc _ IH].
  - destruct t as [| c t]; [done |]. cbn [app digitRun]. by rewrite Ht.
  - cbn [app digitRun]. rewrite (proj2 (isASCIIDigit_ok c) Hc), IH. unfold count. cbn [length]. lia.
Qed.

Lemma countDigits_at (src ds t : list Z) (i : Z) : At src i (ds ++ t) -> digits ds -> noDigit t -> countDigits src i = count ds.
Proof. intros (_ & _ & E) Hd Ht. unfold countDigits. rewrite E. by apply digitRun_ok. Qed.

Lemma toIntLoop_ok (ds : list Z) (v k : Z) : digits ds -> 0 <= k -> 0 <= v < 10 ^ k -> k + count ds <= 9 ->
  toIntLoop ds v = Some (numFrom v ds).
Proof.
  intros Hd. revert v k. induction Hd as [| c ds Hc _ IH]; intros v k Hk Hv Hl; [done |]. cbn [toIntLoop].
  rewrite (proj2 (isASCIIDigit_ok c) Hc). cbn [negb]. unfold count in *. cbn [length] in Hl. change (ch "0") with 48.
  assert (10 ^ k <= 10 ^ 8) by (apply pow10_le; lia). change (10 ^ 8) with 100000000 in *.
  assert (Q : 100000000 <= (INT_MAX - (c - 48)) ÷ 10).
  { unfold INT_MAX. rewrite Z.quot_div_nonneg by lia. apply Z.div_le_lower_bound; lia. }
  rewrite Z.gtb_ltb, (proj2 (Z.ltb_ge _ _)) by lia. change (numFrom v (c :: ds)) with (numFrom (v * 10 + (c - 48)) ds).
  apply (IH _ (k + 1)); [lia | rewrite pow10_succ by lia; lia | lia].
Qed.

Lemma toInt_at (src ds t : list Z) (i : Z) : At src i (ds ++ t) -> digits ds -> 1 <= count ds <= 9 ->
  toInt src i (count ds) = Some (numFrom 0 ds).
Proof.
  intros (H0 & Hl & E) Hd Hc. rewrite count_app in Hl. unfold toInt. rewrite Z.gtb_ltb, (proj2 (Z.ltb_ge _ _)), (proj2 (Z.leb_gt _ 0)) by (unfold count in *; lia).
  cbn [orb]. rewrite E. unfold count. rewrite Nat2Z.id, take_app_length. apply (toIntLoop_ok ds 0 0); [done | lia | lia | unfold count in *; lia].
Qed.

(** ** Numbers of fixed width *)

Lemma digits_replicate (n : nat) : digits (replicate n (ch "0")).
Proof. apply list.Forall_forall. intros c [-> _]%elem_of_replicate. by change (ch "0") with 48. Qed.

Lemma formatted_ok (w : nat) (n k : Z) : 0 <= n < 10 ^ k -> 1 <= k <= 9 -> Z.of_nat w <= k ->
  digits (formatted w n) /\ numFrom 0 (formatted w n) = n /\ Z.of_nat w <= count (formatted w n) <= k /\ 1 <= count (formatted w n).
Proof.
  intros Hn Hk Hw. unfold formatted. assert (10 ^ k <= 10 ^ 20) by (apply pow10_le; lia). pose proof (numberToString_ok n ltac:(lia)) as S.
  pose proof (spells_count _ _ _ S (proj2 Hn) (proj1 Hk)) as B. destruct S as (Hd & Hv & Hc & _). set (ds := numberToString n) in *. clearbody ds.
  split; [apply list.Forall_app; split; [apply digits_replicate | done] |]. split; [rewrite numFrom_app, numFrom_zeros; exact Hv |].
  rewrite count_app. unfold count in *. rewrite length_replicate. lia.
Qed.

Lemma formatted_exact (w : nat) (n : Z) : 0 <= n < 10 ^ Z.of_nat w -> 1 <= Z.of_nat w <= 9 ->
  digits (formatted w n) /\ numFrom 0 (formatted w n) = n /\ count (formatted w n) = Z.of_nat w.
Proof. intros Hn Hw. destruct (formatted_ok w n (Z.of_nat w) Hn Hw) as (Hd & Hv & Hc & _); [lia |]. repeat split; [done | done | lia]. Qed.

(** Reading a number of fixed width in its range. *)
Lemma between_at (src t : list Z) (i : Z) (w : nat) (n low high : Z) : At src i (formatted w n ++ t) -> 1 <= Z.of_nat w <= 9 ->
  0 <= n < 10 ^ Z.of_nat w -> low <= n <= high -> toIntBetween src i (Z.of_nat w) low high = Some n /\ At src (i + Z.of_nat w) t.
Proof.
  intros HA Hw Hn Hr. destruct (formatted_exact w n Hn Hw) as (Hd & Hv & Hc). pose proof (at_app _ _ _ _ HA) as HA'. rewrite Hc in HA'. split; [| done].
  unfold toIntBetween. rewrite <- Hc, (toInt_at _ _ _ _ HA Hd) by lia. rewrite Hv, Z.gtb_ltb, (proj2 (Z.ltb_ge n low)), (proj2 (Z.ltb_ge high n)) by lia. done.
Qed.

(** ** Reading what was printed *)

Lemma year_at (d : DateComponents) (src t : list Z) (i y : Z) : At src i (formatted 4 y ++ t) -> noDigit t -> minimumYear <= y <= maximumYear ->
  exists j, parseYear d src i = accept (set_year y d) j /\ At src j t.
Proof.
  intros HA Ht Hy. unfold minimumYear, maximumYear in *. destruct (formatted_ok 4 y 6) as (Hd & Hv & Hc & _); [lia.. |].
  exists (i + count (formatted 4 y)). split; [| by apply at_app]. unfold parseYear, toIntBetween, minimumYear, maximumYear.
  rewrite (countDigits_at _ _ _ _ HA Hd Ht), (proj2 (Z.ltb_ge _ 4)), (toInt_at _ _ _ _ HA Hd), Hv by lia.
  by rewrite Z.gtb_ltb, (proj2 (Z.ltb_ge y 1)), (proj2 (Z.ltb_ge 275760 y)) by lia.
Qed.

Lemma limits_month_valid (y m : Z) : minimumYear <= y <= maximumYear -> (y = maximumYear -> m <= maximumMonthInMaximumYear) ->
  withinHTMLDateLimitsMonth y m = true.
Proof.
  intros Hy Hm. unfold withinHTMLDateLimitsMonth. rewrite (proj2 (Z.ltb_ge y minimumYear)) by lia.
  destruct (Z.ltb_spec y maximumYear); [done |]. apply Z.leb_le, Hm. lia.
Qed.

Lemma month_at (v d : DateComponents) (src t : list Z) (i : Z) : At src i (formattedMonth v ++ t) ->
  isMonth (m_month v) -> minimumYear <= m_year v <= maximumYear -> (m_year v = maximumYear -> m_month v <= maximumMonthInMaximumYear) ->
  exists j, parseMonth d src i = accept (set_type Month (set_month (m_month v) (set_year (m_year v) d))) j /\ At src j t.
Proof.
  intros HA Hm Hy Hl. unfold formattedMonth in HA. rewrite <- !app_assoc in HA. unfold isMonth in Hm. cbn [app] in HA. unfold parseMonth.
  destruct (year_at d _ _ _ _ HA eq_refl Hy) as (j & -> & HA1). cbn [andThen accept mbind option_bind].
  destruct (at_char _ _ _ _ HA1) as (Ec & HA2 & L). rewrite (proj2 (Z.leb_gt _ _) L), Ec. cbn [mbind option_bind].
  change (negb (ch "-" =? ch "-")) with false. cbv iota.
  destruct (between_at _ _ _ 2 _ 1 12 HA2) as [E HA3]; [lia.. |]. change (Z.of_nat 2) with 2 in *. rewrite E. cbn [m_year set_year].
  replace (m_month v + 1 - 1) with (m_month v) by lia. rewrite (limits_month_valid _ _ Hy Hl). cbn [negb]. by eexists.
Qed.

(** A day within the limits is in a year within them. *)
Lemma day_limits (v : DateComponents) : validDay v -> minimumDay <= dayOf v <= maximumDay ->
  minimumYear <= m_year v <= maximumYear /\ (m_year v = maximumYear -> m_month v <= maximumMonthInMaximumYear) /\
  withinHTMLDateLimitsDay (m_year v) (m_month v) (m_monthDay v) = true.
Proof.
  intros Hv Hd. unfold dayOf in Hd. destruct (last_month _ _ _ Hv ltac:(lia)) as [Hy Hm].
  split; [split; [| done]; apply (year_of_day _ _ _ 1 Hv); change (daysFrom1970ToYear 1) with minimumDay; lia |].
  split; [done |]. by apply (limits_day _ _ _ Hv ltac:(lia)).
Qed.

Lemma date_at (v d : DateComponents) (src t : list Z) (i : Z) : At src i (formattedDate v ++ t) -> validDay v -> minimumDay <= dayOf v <= maximumDay ->
  exists j, parseDate d src i = accept (set_type Date (set_date (m_year v) (m_month v) (m_monthDay v) (set_type Month d))) j /\ At src j t.
Proof.
  intros HA Hv Hd. destruct (day_limits v Hv Hd) as (Hy & Hl & Hw). unfold formattedDate in HA. rewrite <- !app_assoc in HA. cbn [app] in HA.
  unfold parseDate. destruct (month_at v d _ _ _ HA (proj1 Hv) Hy Hl) as (j & -> & HA1). cbn [andThen accept mbind option_bind].
  destruct (at_char _ _ _ _ HA1) as (Ec & HA2 & L). pose proof (lengthOfMonth_bounds (isLeapYear (m_year v)) (m_month v) (proj1 Hv)) as Bl.
  destruct Hv as [Hm Hx]. destruct (between_at _ _ _ 2 _ 1 (lengthOfMonth (isLeapYear (m_year v)) (m_month v)) HA2) as [E HA3]; [lia.. |].
  change (Z.of_nat 2) with 2 in *. assert (L2 : j + 2 < lengthOf src) by (destruct HA3 as (_ & HA3 & _); unfold count in HA3; lia).
  rewrite (proj2 (Z.leb_gt _ _) L2), Ec. cbn [mbind option_bind]. change (negb (ch "-" =? ch "-")) with false. cbv iota.
  cbn [m_year m_month set_type set_month set_year]. rewrite (maxDayOfMonth_ok _ _ Hm). cbn [mbind option_bind]. rewrite E, Hw. cbn [negb]. by eexists.
Qed.

(** What may follow a time: the end or Z. *)
Definition timeEnd (t : list Z) : Prop := match t with c :: _ => isASCIIDigit c = false /\ (c =? ch ":") = false /\ (c =? ch ".") = false | [] => True end.

Lemma timeEnd_noDigit (t : list Z) : timeEnd t -> noDigit t.
Proof. by destruct t as [| c t]; [| intros [H _]]. Qed.

Lemma at_end (src : list Z) (i : Z) : At src i [] -> i = lengthOf src.
Proof. intros (_ & H & _). unfold count in H. cbn [length] in H. lia. Qed.

Lemma fraction_none (src t : list Z) (i : Z) : At src i t -> timeEnd t -> parseFraction src i = Some (0, i).
Proof.
  intros HA Ht. unfold parseFraction. destruct t as [| c t].
  - apply at_end in HA. by rewrite (proj2 (Z.ltb_ge _ _)) by lia.
  - destruct (at_char _ _ _ _ HA) as (Ec & _ & L). rewrite (proj2 (Z.ltb_lt _ _) L), Ec. cbn [mbind option_bind]. destruct Ht as (_ & _ & Hp). by rewrite Hp.
Qed.

Lemma fraction_at (src t : list Z) (i n : Z) : At src i (ch "." :: formatted 3 n ++ t) -> noDigit t -> 0 <= n <= 999 ->
  parseFraction src i = Some (n, i + 4) /\ At src (i + 4) t.
Proof.
  intros HA Ht Hn. destruct (at_char _ _ _ _ HA) as (Ec & HA1 & L). destruct (formatted_exact 3 n) as (Hd & Hv & Hc); [lia.. |].
  unfold parseFraction. rewrite (proj2 (Z.ltb_lt _ _) L), Ec. cbn [mbind option_bind]. change (ch "." =? ch ".") with true. cbv iota.
  pose proof (at_app _ _ _ _ HA1) as HA2. pose proof (toInt_at _ _ _ _ HA1 Hd) as HI. rewrite Hc in *. change (Z.of_nat 3) with 3 in *.
  rewrite (countDigits_at _ _ _ _ HA1 Hd Ht), Hc. change (Z.of_nat 3 >? 0) with true. change (Z.of_nat 3 =? 1) with false. change (Z.of_nat 3 =? 2) with false.
  cbv iota. rewrite HI by lia. cbn [mbind option_bind]. rewrite Hv. replace (i + 1 + 3) with (i + 4) in * by lia. by split.
Qed.

Lemma seconds_none (src t : list Z) (i : Z) : At src i t -> timeEnd t -> parseSeconds src i = Some (0, 0, i).
Proof.
  intros HA Ht. unfold parseSeconds. destruct (i + 2 <? lengthOf src) eqn:L; [| done]. destruct t as [| c t].
  - apply at_end in HA. apply Z.ltb_lt in L. lia.
  - destruct (at_char _ _ _ _ HA) as (Ec & _ & _). rewrite Ec. cbn [mbind option_bind]. destruct Ht as (_ & Hp & _). by rewrite Hp.
Qed.

Lemma seconds_at (src t : list Z) (i s : Z) : At src i (ch ":" :: formatted 2 s ++ t) -> 0 <= s <= 59 ->
  At src (i + 3) t /\ forall ms j, parseFraction src (i + 3) = Some (ms, j) -> parseSeconds src i = Some (s, ms, j).
Proof.
  intros HA Hs. destruct (at_char _ _ _ _ HA) as (Ec & HA1 & L). destruct (formatted_exact 2 s) as (Hd & Hv & Hc); [lia.. |].
  pose proof (at_app _ _ _ _ HA1) as HA2. pose proof (toInt_at _ _ _ _ HA1 Hd) as HI. rewrite Hc in *. change (Z.of_nat 2) with 2 in *.
  replace (i + 1 + 2) with (i + 3) in * by lia. split; [done |]. intros ms j Ef. unfold parseSeconds.
  assert (L2 : i + 2 < lengthOf src) by (destruct HA2 as (_ & HA2 & _); unfold count in HA2; lia). rewrite (proj2 (Z.ltb_lt _ _) L2), Ec. cbn [mbind option_bind].
  change (ch ":" =? ch ":") with true. cbv iota. rewrite HI by lia. rewrite Hv, (proj2 (Z.leb_le 0 s)), (proj2 (Z.leb_le s 59)) by lia. cbn [andb].
  by rewrite Ef.
Qed.

(** The seconds that are printed, and nothing when they are left out. *)
Lemma time_text (v : DateComponents) (format : SecondFormat) : m_type v = Time \/ m_type v = DateTime \/ m_type v = DateTimeLocal ->
  exists tail, toStringForTime v format = Some (formatted 2 (m_hour v) ++ [ch ":"] ++ formatted 2 (m_minute v) ++ tail) /\
    (tail = [] /\ m_second v = 0 /\ m_millisecond v = 0 \/ tail = ch ":" :: formatted 2 (m_second v) /\ m_millisecond v = 0 \/
     tail = ch ":" :: formatted 2 (m_second v) ++ ch "." :: formatted 3 (m_millisecond v)).
Proof.
  intros Ht. unfold toStringForTime.
  assert (is_type (m_type v) DateTime || is_type (m_type v) DateTimeLocal || is_type (m_type v) Time = true) as -> by (destruct Ht as [-> | [-> | ->]]; done).
  cbn [ASSERT mbind option_bind].
  destruct (Z.eqb_spec (m_millisecond v) 0) as [E | E]; cbn [negb];
    [destruct format; [destruct (Z.eqb_spec (m_second v) 0) as [E' | E']; cbn [negb] | |] |].
  all: eexists; split; [rewrite <- ?app_assoc; first [done | by rewrite app_nil_r] |]; tauto.
Qed.

Lemma time_at (v d : DateComponents) (format : SecondFormat) (text src t : list Z) (i : Z) :
  m_type v = Time \/ m_type v = DateTime \/ m_type v = DateTimeLocal -> validTime v -> toStringForTime v format = Some text ->
  At src i (text ++ t) -> timeEnd t ->
  exists j, parseTime d src i = accept (set_type Time (set_time (m_hour v) (m_minute v) (m_second v) (m_millisecond v) d)) j /\ At src j t.
Proof.
  intros Hty Hv Et HA Ht. destruct (time_text v format Hty) as (tail & Et' & Htail). rewrite Et in Et'. injection Et' as ->. clear Et. unfold validTime in Hv.
  rewrite <- !app_assoc in HA. cbn [app] in HA. unfold parseTime. destruct (between_at _ _ _ 2 _ 0 23 HA) as [Eh HA1]; [lia.. |].
  change (Z.of_nat 2) with 2 in *. rewrite Eh. destruct (at_char _ _ _ _ HA1) as (Ec & HA2 & L). rewrite (proj2 (Z.leb_gt _ _) L), Ec. cbn [mbind option_bind].
  change (negb (ch ":" =? ch ":")) with false. cbv iota. rewrite <- ?app_assoc in HA2. destruct (between_at _ _ _ 2 _ 0 59 HA2) as [Em HA3]; [lia.. |].
  change (Z.of_nat 2) with 2 in *. rewrite Em.
  assert (S : exists j, parseSeconds src (i + 2 + 1 + 2) = Some (m_second v, m_millisecond v, j) /\ At src j t).
  { destruct Htail as [(-> & -> & ->) | [(-> & ->) | ->]].
    - eexists. split; [by eapply seconds_none | exact HA3].
    - destruct (seconds_at _ _ _ _ HA3) as [HA4 F]; [lia |]. eexists. split; [by apply F, (fraction_none _ t) | exact HA4].
    - cbn [app] in HA3. rewrite <- app_assoc in HA3. destruct (seconds_at _ _ _ _ HA3) as [HA4 F]; [lia |]. cbn [app] in HA4.
      destruct (fraction_at _ _ _ _ HA4 (timeEnd_noDigit t Ht)) as [Ef HA5]; [lia |]. eexists. split; [by apply F | exact HA5]. }
  destruct S as (j & -> & HA4). cbn [mbind option_bind]. by eexists.
Qed.

(** ** The parsers of the types *)

Definition parserFor (t : Type_) (d : DateComponents) (src : list Z) (start : Z) : Parsed :=
  match t with
  | Date => parseDate d src start
  | DateTime => parseDateTime d src start
  | DateTimeLocal => parseDateTimeLocal d src start
  | Month => parseMonth d src start
  | Time => parseTime d src start
  | Week => parseWeek d src start
  | Invalid => None
  end.

(** The common part of the two forms with a date and a time. *)
Lemma date_time_at (v d : DateComponents) (format : SecondFormat) (time src t : list Z) :
  m_type v = DateTime \/ m_type v = DateTimeLocal -> validDay v -> validTime v -> inLimits v -> toStringForTime v format = Some time ->
  src = formattedDate v ++ ch "T" :: time ++ t -> timeEnd t ->
  exists e i j, parseDate d src 0 = accept e i /\ at_ src i = Some (ch "T") /\ i < lengthOf src /\
    let e' := set_type Time (set_time (m_hour v) (m_minute v) (m_second v) (m_millisecond v) e) in
    parseTime e src (i + 1) = accept e' j /\ At src j t /\ sameDay v e' /\ sameTime v e' /\ within e' = true.
Proof.
  intros Hty Hv Hvt Hl Et -> Ht. pose proof (inLimits_day v Hvt Hl) as Hd.
  set (src := formattedDate v ++ ch "T" :: time ++ t). destruct (date_at v d src (ch "T" :: time ++ t) 0 (at_start src) Hv Hd) as (i & -> & HA). destruct (at_char _ _ _ _ HA) as (Ec & HA1 & L).
  eexists _, i. destruct (time_at v (set_type Date (set_date (m_year v) (m_month v) (m_monthDay v) (set_type Month d))) format time _ t (i + 1) ltac:(tauto) Hvt Et HA1 Ht) as (j & Ep & HA2).
  exists j. split; [done |]. split; [done |]. split; [done |]. split; [exact Ep |]. split; [done |]. split; [done |]. split; [done |].
  change (within v = true). by apply limits_instant; [| | lia |].
Qed.

Lemma date_text (v d : DateComponents) (format : SecondFormat) : validComponents v ->
  exists text e, toString v format = Some text /\ parserFor (m_type v) d text 0 = accept e (lengthOf text) /\ sameValue v e.
Proof.
  intros Hv. pose proof Hv as Hv0. unfold validComponents in Hv. unfold toString, sameValue. destruct (m_type v) eqn:Ht; [done | ..]; cbn [parserFor].
  - destruct Hv as [Hd Hl]. destruct (date_at v d (formattedDate v) [] 0) as (j & Ep & HA); [by rewrite app_nil_r | done | done |].
    apply at_end in HA as ->. eexists _, _. split; [done |]. split; [exact Ep | done].
  - destruct Hv as (Hd & Hvt & Hl). destruct (time_text v format ltac:(tauto)) as (tail & Et & _). rewrite Et. cbn [mbind option_bind].
    set (time := formatted 2 (m_hour v) ++ _) in *. clearbody time. set (text := formattedDate v ++ _). exists text.
    destruct (date_time_at v d format time text [ch "Z"] ltac:(tauto) Hd Hvt Hl Et eq_refl) as (e & i & j & Ep & Ec & L & Eq & HA & S1 & S2 & W); [done |].
    eexists. split; [done |]. unfold parseDateTime. rewrite Ep. cbn [andThen accept mbind option_bind]. rewrite (proj2 (Z.leb_gt _ _) L), Ec. cbn [mbind option_bind].
    change (negb (ch "T" =? ch "T")) with false. cbv iota. rewrite Eq. cbn [andThen accept mbind option_bind].
    destruct (at_char _ _ _ _ HA) as (Ez & HA1 & L1). unfold parseTimeZone. rewrite (proj2 (Z.leb_gt _ _) L1), Ez. cbn [mbind option_bind].
    change (ch "Z" =? ch "Z") with true. cbv iota. cbn [andThen accept mbind option_bind]. rewrite W. cbn [negb]. apply at_end in HA1 as ->.
    split; [done |]. by split.
  - destruct Hv as (Hd & Hvt & Hl). destruct (time_text v format ltac:(tauto)) as (tail & Et & _). rewrite Et. cbn [mbind option_bind].
    set (time := formatted 2 (m_hour v) ++ _) in *. clearbody time. set (text := formattedDate v ++ _). exists text.
    destruct (date_time_at v d format time text [] ltac:(tauto) Hd Hvt Hl Et) as (e & i & j & Ep & Ec & L & Eq & HA & S1 & S2 & W);
      [by rewrite app_nil_r | done |].
    eexists. split; [done |]. unfold parseDateTimeLocal. rewrite Ep. cbn [andThen accept mbind option_bind]. rewrite (proj2 (Z.leb_gt _ _) L), Ec. cbn [mbind option_bind].
    change (negb (ch "T" =? ch "T")) with false. cbv iota. rewrite Eq. cbn [andThen accept mbind option_bind]. rewrite W. cbn [negb]. apply at_end in HA as ->.
    split; [done |]. by split.
  - destruct Hv as (Hm & Hy & Hl). destruct (month_at v d (formattedMonth v) [] 0) as (j & Ep & HA); [by rewrite app_nil_r | done | done | done |].
    apply at_end in HA as ->. eexists _, _. split; [done |]. split; [exact Ep | done].
  - destruct (time_text v format ltac:(tauto)) as (tail & Et & _). rewrite Et.
    set (time := formatted 2 (m_hour v) ++ _) in *. clearbody time. exists time.
    destruct (time_at v d format time time [] 0 ltac:(tauto) Hv Et) as (j & Ep & HA); [by rewrite app_nil_r | done |].
    apply at_end in HA as ->. eexists. split; [done |]. split; [exact Ep | done].
  - destruct Hv as (Hy & Hw & Hl). set (text := formatted 4 (m_year v) ++ units "-W" ++ formatted 2 (m_week v)).
    assert (HA : At text 0 (formatted 4 (m_year v) ++ ch "-" :: ch "W" :: formatted 2 (m_week v) ++ [])) by (by rewrite app_nil_r).
    destruct (year_at d _ _ _ _ HA eq_refl Hy) as (j & Ep & HA1). destruct (at_char _ _ _ _ HA1) as (Ec & HA2 & L1). destruct (at_char _ _ _ _ HA2) as (Ew & HA3 & L2).
    assert (H53 : maxWeekNumberInYear v <= 53) by (unfold maxWeekNumberInYear, maximumWeekNumber; destruct (_ || _); lia). unfold minimumWeekNumber in Hw.
    destruct (between_at _ _ _ 2 _ minimumWeekNumber (maxWeekNumberInYear v) HA3) as [E HA4]; [lia | lia | unfold minimumWeekNumber; lia |].
    change (Z.of_nat 2) with 2 in *. eexists _, _. split; [done |]. unfold parseWeek. rewrite Ep. cbn [andThen accept mbind option_bind].
    apply at_end in HA4 as El. rewrite (proj2 (Z.leb_gt (lengthOf text) (j + 3))), Ec by lia. cbn [mbind option_bind].
    change (negb (ch "-" =? ch "-")) with false. cbv iota. rewrite Ew. cbn [mbind option_bind]. change (negb (ch "W" =? ch "W")) with false. cbv iota.
    change (maxWeekNumberInYear (set_year (m_year v) d)) with (maxWeekNumberInYear v). rewrite E. cbn [m_year set_year].
    assert ((m_year v =? maximumYear) && (m_week v >? maximumWeekInMaximumYear) = false) as ->.
    { destruct (Z.eqb_spec (m_year v) maximumYear) as [G | G]; [| done]. rewrite Z.gtb_ltb. apply Z.ltb_ge. by apply Hl. }
    rewrite El. split; [done |]. done.
Qed.

(** ** Any text *)

(** A parser returns, and P holds of what it accepts and where it stops. *)
Definition parses (P : DateComponents -> Z -> Prop) (r : Parsed) : Prop := exists e o, r = Some (e, o) /\ forall j, o = Some j -> P e j.

Lemma parses_stop (P : DateComponents -> Z -> Prop) (d : DateComponents) : parses P (stop d).
Proof. by exists d, None. Qed.

Lemma parses_accept (P : DateComponents -> Z -> Prop) (d : DateComponents) (j : Z) : P d j -> parses P (accept d j).
Proof. intros H. exists d, (Some j). split; [done |]. by intros k [= ->]. Qed.

Lemma parses_andThen (P Q : DateComponents -> Z -> Prop) (m : Parsed) (f : DateComponents -> Z -> Parsed) :
  parses P m -> (forall e j, P e j -> parses Q (f e j)) -> parses Q (andThen m f).
Proof. intros (e & o & -> & H) Hf. destruct o as [j |]; cbn; [by apply Hf, H | apply parses_stop]. Qed.

#[local] Hint Resolve parses_stop : core.

Lemma at_total (src : list Z) (i : Z) : 0 <= i < lengthOf src -> exists c, at_ src i = Some c.
Proof.
  intros Hi. unfold at_, lengthOf in *. rewrite (proj2 (Z.leb_le 0 i)) by lia. apply lookup_lt_is_Some. lia.
Qed.

Lemma at_past (src : list Z) (i : Z) : lengthOf src <= i -> at_ src i = None.
Proof. intros Hi. unfold at_, lengthOf in *. destruct (0 <=? i); [apply lookup_ge_None; lia | done]. Qed.

Lemma toIntLoop_inv (ds : list Z) (v n : Z) : toIntLoop ds v = Some n -> digits ds /\ n = numFrom v ds.
Proof.
  revert v. induction ds as [| c ds IH]; intros v; cbn [toIntLoop]; [intros [= ->]; split; [constructor | done] |]. destruct (isASCIIDigit c) eqn:Hc; cbn [negb]; [| done].
  destruct (_ >? _); [done |]. intros H. destruct (IH _ H) as [Hd ->]. apply isASCIIDigit_ok in Hc. split; [by constructor | done].
Qed.

Lemma toInt_inv (src : list Z) (i k n : Z) : 0 <= i -> toInt src i k = Some n -> 0 < k /\ i + k <= lengthOf src /\ 0 <= n < 10 ^ k.
Proof.
  intros Hi. unfold toInt. rewrite Z.gtb_ltb. destruct (Z.ltb_spec (lengthOf src) (i + k)) as [L | L]; [done |]. destruct (Z.leb_spec k 0) as [G | G]; [done |].
  cbn [orb]. intros [Hd ->]%toIntLoop_inv. split; [done |]. split; [done |]. pose proof (numFrom_bounds 0 0 _ Hd) as B. unfold count in B.
  rewrite length_take, length_drop in B. unfold lengthOf in L.
  replace (0 + Z.of_nat (Nat.min (Z.to_nat k) (length src - Z.to_nat i))) with k in B by lia. lia.
Qed.

Lemma between_inv (src : list Z) (i k low high n : Z) : 0 <= i -> toIntBetween src i k low high = Some n ->
  0 < k /\ i + k <= lengthOf src /\ low <= n <= high.
Proof.
  intros Hi. unfold toIntBetween. destruct (toInt src i k) as [v |] eqn:E; [| done]. destruct (toInt_inv _ _ _ _ Hi E) as (Hk & Hl & _).
  rewrite Z.gtb_ltb. destruct (Z.ltb_spec v low), (Z.ltb_spec high v); try done. intros [= <-]. lia.
Qed.

Lemma digitRun_split (l : list Z) : exists ds t, l = ds ++ t /\ digits ds /\ noDigit t /\ digitRun l = count ds.
Proof.
  induction l as [| c l (ds & t & -> & Hd & Ht & Hr)]; [exists [], []; repeat split; constructor |]. cbn [digitRun]. destruct (isASCIIDigit c) eqn:Hc.
  - exists (c :: ds), t. split; [done |]. split; [apply list.Forall_cons; split; [by apply isASCIIDigit_ok | done] |]. split; [done |]. unfold count in *. cbn [length]. lia.
  - exists [], (c :: ds ++ t). split; [done |]. split; [constructor |]. by split.
Qed.

Lemma countDigits_bounds (src : list Z) (i : Z) : 0 <= i <= lengthOf src -> 0 <= countDigits src i /\ i + countDigits src i <= lengthOf src.
Proof.
  intros Hi. destruct (at_any src i Hi) as (t & H0 & Hl & E). unfold countDigits. rewrite E. destruct (digitRun_split t) as (ds & r & -> & _ & _ & ->).
  rewrite count_app in Hl. unfold count in *. lia.
Qed.

(** The first digits of a run are a number. *)
Lemma toInt_run (src : list Z) (i k : Z) : 0 <= i <= lengthOf src -> 1 <= k <= 3 -> k <= countDigits src i -> exists n, toInt src i k = Some n /\ 0 <= n < 10 ^ k.
Proof.
  intros Hi Hk. destruct (at_any src i Hi) as (t & HA). unfold countDigits. rewrite (proj2 (proj2 HA)). destruct (digitRun_split t) as (ds & r & -> & Hd & _ & ->).
  intros Hc. rewrite <- (take_drop (Z.to_nat k) ds) in HA. rewrite <- app_assoc in HA. unfold count in Hc.
  assert (Ek : count (take (Z.to_nat k) ds) = k) by (unfold count; rewrite length_take; lia).
  assert (Hd' : digits (take (Z.to_nat k) ds)) by (by apply Forall_take). pose proof (toInt_at _ _ _ _ HA Hd') as HT. rewrite Ek in HT.
  eexists. split; [apply HT; lia |]. pose proof (numFrom_bounds 0 0 _ Hd') as B. rewrite Ek in B. change (0 + k) with k in B. apply B; lia.
Qed.

(** ** What the parsers accept *)

Lemma year_parses (d : DateComponents) (src : list Z) (i : Z) : 0 <= i ->
  parses (fun e j => exists y, e = set_year y d /\ minimumYear <= y <= maximumYear /\ i + 4 <= j <= lengthOf src) (parseYear d src i).
Proof.
  intros Hi. unfold parseYear. destruct (Z.ltb_spec (countDigits src i) 4) as [L | L]; [done |]. destruct (toIntBetween _ _ _ _ _) as [y |] eqn:E; [| done].
  destruct (between_inv _ _ _ _ _ _ Hi E) as (Hk & Hl & Hy). apply parses_accept. exists y. split; [done |]. lia.
Qed.

Lemma limits_month_inv (y m : Z) : withinHTMLDateLimitsMonth y m = true -> y = maximumYear -> m <= maximumMonthInMaximumYear.
Proof. unfold withinHTMLDateLimitsMonth. intros H ->. by apply Z.leb_le. Qed.

Lemma month_parses (d : DateComponents) (src : list Z) (i : Z) : 0 <= i ->
  parses (fun e j => exists y m, e = set_type Month (set_month m (set_year y d)) /\ validComponents e /\ i + 7 <= j <= lengthOf src) (parseMonth d src i).
Proof.
  intros Hi. unfold parseMonth. eapply parses_andThen; [by apply year_parses |]. intros e j (y & -> & Hy & Hj).
  destruct (Z.leb_spec (lengthOf src) j) as [L | L]; [done |]. destruct (at_total src j) as [c ->]; [lia |]. cbn [mbind option_bind].
  destruct (negb _); [done |]. destruct (toIntBetween _ _ _ _ _) as [n |] eqn:E; [| done]. apply between_inv in E as (_ & Hl & Hn); [| lia].
  cbn [m_year set_year]. destruct (withinHTMLDateLimitsMonth y (n - 1)) eqn:W; cbn [negb]; [| done]. apply parses_accept. exists y, (n - 1).
  split; [done |]. split; [| lia]. split; [change (isMonth (n - 1)); unfold isMonth; lia |]. split; [exact Hy | exact (limits_month_inv y (n - 1) W)].
Qed.

Lemma day_of_limits (y m x : Z) : validDate y m x -> y <= maximumYear -> (y = maximumYear -> m <= maximumMonthInMaximumYear) ->
  withinHTMLDateLimitsDay y m x = true -> minimumDay <= dayNumber y m x <= maximumDay.
Proof.
  intros Hv Hy Hm W. apply (limits_day y m x Hv); [| done]. destruct (Z.eq_dec y maximumYear) as [E | N].
  - specialize (Hm E). destruct Hv as [Hmm Hx]. unfold dayNumber. rewrite E in *. change (daysFrom1970ToYear maximumYear) with 99999744.
    change (isLeapYear maximumYear) with true in *. unfold maximumMonthInMaximumYear in Hm. unfold maximumDay. 
    assert (F : firstOf true m + lengthOfMonth true m <= 274) by (revert Hmm Hm; clear; intros Hmm Hm; months m; first [lia | vm_compute; discriminate]). lia.
  - assert (~ (maximumYear <= y)) as G by lia. rewrite (year_of_day _ _ _ _ Hv) in G. change (daysFrom1970ToYear maximumYear) with 99999744 in G. unfold maximumDay. lia.
Qed.

Lemma date_parses (d : DateComponents) (src : list Z) (i : Z) : 0 <= i ->
  parses (fun e j => m_type e = Date /\ validDay e /\ minimumDay <= dayOf e <= maximumDay /\ i + 10 <= j <= lengthOf src) (parseDate d src i).
Proof.
  intros Hi. unfold parseDate. eapply parses_andThen; [by apply month_parses |]. intros e j (y & m & -> & (Hm & Hy & Hl) & Hj).
  destruct (Z.leb_spec (lengthOf src) (j + 2)) as [L | L]; [done |]. destruct (at_total src j) as [c ->]; [lia |]. cbn [mbind option_bind].
  destruct (negb _); [done |]. rewrite (maxDayOfMonth_ok _ _ Hm). cbn [mbind option_bind]. destruct (toIntBetween _ _ _ _ _) as [x |] eqn:E; [| done].
  apply between_inv in E as (_ & Hl' & Hx); [| lia]. destruct (withinHTMLDateLimitsDay _ _ _) eqn:W; cbn [negb]; [| done].
  apply parses_accept. split; [done |]. assert (Hv : validDate y m x) by by split. split; [exact Hv |]. split; [| lia].
  apply (day_of_limits y m x Hv); [apply Hy | exact Hl | exact W].
Qed.

Lemma fraction_parses (src : list Z) (i : Z) : 0 <= i <= lengthOf src ->
  exists ms j, parseFraction src i = Some (ms, j) /\ 0 <= ms <= 999 /\ i <= j <= lengthOf src.
Proof.
  intros Hi. unfold parseFraction. destruct (Z.ltb_spec i (lengthOf src)) as [L | L]; [| exists 0, i; split; [done | lia]].
  destruct (at_total src i) as [c ->]; [lia |]. cbn [mbind option_bind]. destruct (c =? ch "."); [| exists 0, i; split; [done | lia]].
  destruct (countDigits_bounds src (i + 1)) as [C0 C1]; [lia |]. rewrite Z.gtb_ltb. set (k := countDigits src (i + 1)) in *.
  destruct (Z.ltb_spec 0 k) as [G | G]; [| exists 0, i; split; [done | lia]].
  assert (M : exists ms, (if k =? 1 then m ← toInt src (i + 1) 1; Some (m * 100) else if k =? 2 then m ← toInt src (i + 1) 2; Some (m * 10) else toInt src (i + 1) 3) = Some ms /\ 0 <= ms <= 999).
  { destruct (Z.eqb_spec k 1) as [K | K]; [| destruct (Z.eqb_spec k 2) as [K' | K']].
    - destruct (toInt_run src (i + 1) 1) as (n & -> & Hn); [lia | lia | fold k; lia |]. exists (n * 100). split; [done | lia].
    - destruct (toInt_run src (i + 1) 2) as (n & -> & Hn); [lia | lia | fold k; lia |]. exists (n * 10). split; [done | lia].
    - destruct (toInt_run src (i + 1) 3) as (n & -> & Hn); [lia | lia | fold k; lia |]. exists n. split; [done | lia]. }
  destruct M as (ms & -> & Hm). cbn [mbind option_bind]. eexists ms, _. split; [done | lia].
Qed.

(** Seconds from 60 on are kept when the parser stops before them. *)
Lemma seconds_parses (src : list Z) (i : Z) : 0 <= i <= lengthOf src ->
  exists s ms j, parseSeconds src i = Some (s, ms, j) /\ 0 <= s <= 99 /\ 0 <= ms <= 999 /\ i <= j <= lengthOf src /\ (s <= 59 \/ at_ src j = Some (ch ":")).
Proof.
  intros Hi. unfold parseSeconds. destruct (Z.ltb_spec (i + 2) (lengthOf src)) as [L | L]; [| exists 0, 0, i; split; [done | lia]].
  destruct (at_total src i) as [c Ec]; [lia |]. rewrite Ec. cbn [mbind option_bind]. destruct (Z.eqb_spec c (ch ":")) as [-> | N]; [| exists 0, 0, i; split; [done | lia]].
  destruct (toInt src (i + 1) 2) as [s |] eqn:E; [| exists 0, 0, i; split; [done | lia]]. apply toInt_inv in E as (_ & Hl & Hs); [| lia].
  destruct ((0 <=? s) && (s <=? 59)) eqn:R.
  - rewrite andb_true_iff, !Z.leb_le in R. destruct (fraction_parses src (i + 3)) as (ms & j & -> & Hm & Hj); [lia |]. cbn [mbind option_bind].
    exists s, ms, j. split; [done | lia].
  - exists s, 0, i. split; [done |]. split; [lia |]. split; [lia |]. split; [lia | by right].
Qed.

Lemma time_parses (d : DateComponents) (src : list Z) (i : Z) : 0 <= i ->
  parses (fun e j => exists h mi s ms, e = set_type Time (set_time h mi s ms d) /\ (at_ src j = Some (ch ":") \/ validTime e) /\ i + 5 <= j <= lengthOf src) (parseTime d src i).
Proof.
  intros Hi. unfold parseTime. destruct (toIntBetween src i 2 0 23) as [h |] eqn:Eh; [| done]. apply between_inv in Eh as (_ & Hl & Hh); [| lia].
  destruct (Z.leb_spec (lengthOf src) (i + 2)) as [L | L]; [done |]. destruct (at_total src (i + 2)) as [c ->]; [lia |]. cbn [mbind option_bind].
  destruct (negb _); [done |]. destruct (toIntBetween _ _ _ _ _) as [mi |] eqn:Em; [| done]. apply between_inv in Em as (_ & Hl2 & Hm); [| lia].
  destruct (seconds_parses src (i + 2 + 1 + 2)) as (s & ms & j & -> & Hs & Hms & Hj & Hc); [lia |]. cbn [mbind option_bind]. apply parses_accept.
  exists h, mi, s, ms. split; [done |]. split; [| lia]. destruct Hc as [Hc | Hc]; [right | by left]. unfold validTime. cbn [m_hour m_minute m_second m_millisecond set_type set_time]. lia.
Qed.

Lemma zone_parses (d : DateComponents) (src : list Z) (i : Z) : 0 <= i -> at_ src i = Some (ch ":") \/ validTime d -> validDay d -> minimumDay <= dayOf d <= maximumDay ->
  parses (fun e j => validDay e /\ validTime e /\ dayOf e <= maximumDay + 17 /\ i < j <= lengthOf src) (parseTimeZone d src i).
Proof.
  intros Hi Ht Hv Hd. unfold parseTimeZone. destruct (Z.leb_spec (lengthOf src) i) as [L | L]; [done |]. destruct (at_total src i) as [c Ec]; [lia |].
  rewrite Ec in *. cbn [mbind option_bind]. destruct Ht as [[= ->] | Ht]; [apply parses_stop |]. destruct (c =? ch "Z").
  { apply parses_accept. split; [done |]. split; [done |]. split; lia. }
  destruct (negb _); [done |]. destruct (toIntBetween _ _ 2 0 23) as [h |] eqn:Eh; [| done]. apply between_inv in Eh as (_ & Hl & Hh); [| lia].
  destruct (Z.leb_spec (lengthOf src) (i + 1 + 2)) as [L2 | L2]; [done |]. destruct (at_total src (i + 1 + 2)) as [c2 ->]; [lia |]. cbn [mbind option_bind].
  destruct (negb _); [done |]. destruct (toIntBetween _ _ 2 0 59) as [mi |] eqn:Em; [| done]. apply between_inv in Em as (_ & Hl2 & Hm); [| lia].
  destruct (if c =? ch "-" then (- h, - mi) else (h, mi)) as [h' mi'] eqn:Es.
  assert (Hk : -1439 <= - (h' * 60 + mi') <= 1439) by (destruct (c =? ch "-"); injection Es as <- <-; lia).
  destruct (addMinute_ok d (- (h' * 60 + mi')) Hv Ht Hd Hk) as (e & ok & -> & Hok & He). cbn [mbind option_bind]. destruct ok; [| done].
  destruct (He eq_refl) as (Hv' & Ht' & Ei & _). apply parses_accept. split; [done |]. split; [done |].
  assert (HL : inLimits e) by (unfold inLimits; rewrite Ei; by apply Hok). pose proof (inLimits_day e Ht' HL). lia.
Qed.

Lemma date_time_parses (d : DateComponents) (src : list Z) (i : Z) (rest : DateComponents -> Z -> Parsed) (Q : DateComponents -> Z -> Prop) : 0 <= i ->
  (forall e j, validDay e -> minimumDay <= dayOf e <= maximumDay -> at_ src j = Some (ch ":") \/ validTime e -> i < j <= lengthOf src -> parses Q (rest e j)) ->
  parses Q (andThen (parseDate d src i) (fun d index =>
    if lengthOf src <=? index then stop d
    else c ← at_ src index; if negb (c =? ch "T") then stop d else andThen (parseTime d src (index + 1)) rest)).
Proof.
  intros Hi Hr. eapply parses_andThen; [by apply date_parses |]. intros e j (_ & Hv & Hd & Hj).
  destruct (Z.leb_spec (lengthOf src) j) as [L | L]; [done |]. destruct (at_total src j) as [c ->]; [lia |]. cbn [mbind option_bind].
  destruct (negb _); [done |]. eapply parses_andThen; [apply time_parses; lia |]. intros e' k (h & mi & s & ms & -> & Ht & Hk).
  apply Hr; [exact Hv | exact Hd | exact Ht | lia].
Qed.

Lemma week_parses (d : DateComponents) (src : list Z) (i : Z) : 0 <= i ->
  parses (fun e j => m_type e = Week /\ validComponents e /\ i < j <= lengthOf src) (parseWeek d src i).
Proof.
  intros Hi. unfold parseWeek. eapply parses_andThen; [by apply year_parses |]. intros e j (y & -> & Hy & Hj).
  destruct (Z.leb_spec (lengthOf src) (j + 3)) as [L | L]; [done |]. destruct (at_total src j) as [c ->]; [lia |]. cbn [mbind option_bind].
  destruct (negb _); [done |]. destruct (at_total src (j + 1)) as [c2 ->]; [lia |]. cbn [mbind option_bind]. destruct (negb _); [done |].
  destruct (toIntBetween _ _ _ _ _) as [w |] eqn:E; [| done]. apply between_inv in E as (_ & Hl & Hw); [| lia].
  cbn [m_year set_year]. destruct ((y =? maximumYear) && _) eqn:W; [done |]. apply parses_accept. split; [done |]. split; [| lia].
  split; [exact Hy |]. split; [exact Hw |]. intros Ey. change (y = maximumYear) in Ey. rewrite (proj2 (Z.eqb_eq _ _) Ey) in W. cbn [andb] in W.
  rewrite Z.gtb_ltb in W. by apply Z.ltb_ge in W.
Qed.

Lemma parser_typed (t : Type_) (d : DateComponents) (src : list Z) (start : Z) : t <> Invalid -> 0 <= start ->
  parses (fun e end_ => start < end_ <= lengthOf src /\ m_type e = t /\ (at_ src end_ = Some (ch ":") \/ validComponents e)) (parserFor t d src start).
Proof.
  intros Ht Hs. assert (E : forall (P Q : DateComponents -> Z -> Prop) r, (forall e j, P e j -> Q e j) -> parses P r -> parses Q r).
  { intros P Q r Himp (e & o & -> & H). exists e, o. split; [done |]. intros j Ej. by apply Himp, H. }
  destruct t; [done | ..]; cbn [parserFor].
  - eapply E; [| by apply date_parses]. intros e j (He & Hv & Hd & Hj). split; [lia |]. split; [done |]. right. unfold validComponents. by rewrite He.
  - apply date_time_parses; [done |]. intros e j Hv Hd Hc Hj. eapply parses_andThen; [apply zone_parses; [lia | exact Hc | exact Hv | exact Hd] |].
    intros e' k (Hv' & Ht' & Hd' & Hk). destruct (within e') eqn:W; cbn [negb]; [| done]. apply parses_accept. split; [lia |]. split; [done |]. right.
    split; [exact Hv' |]. split; [exact Ht' |]. by apply (limits_instant e' Hv' Ht' Hd').
  - apply date_time_parses; [done |]. intros e j Hv Hd Hc Hj. destruct (within e) eqn:W; cbn [negb]; [| done]. apply parses_accept.
    split; [lia |]. split; [done |]. destruct Hc as [Hc | Hvt]; [by left | right]. split; [exact Hv |]. split; [exact Hvt |].
    by apply (limits_instant e Hv Hvt); [lia |].
  - eapply E; [| by apply month_parses]. intros e j (y & m & -> & Hv & Hj). split; [lia |]. split; [done |]. by right.
  - eapply E; [| by apply time_parses]. intros e j (h & mi & s & ms & -> & Hc & Hj). split; [lia |]. split; [done |]. exact Hc.
  - eapply E; [| by apply week_parses]. intros e j (He & Hv & Hj). split; [lia |]. split; [done |]. by right.
Qed.

(** C30: a value of any type set from milliseconds in the range of the calendar is accepted,
    is a valid value of its type, and its milliseconds are where the day, month, time or
    week of the argument begins. *)
Theorem date_set_get (t : Type_) (d : DateComponents) (ms : Z) : t <> Invalid -> valueRange ms ->
  exists e ms', setterFor t d (Some ms) = Some (e, true) /\ m_type e = t /\ validComponents e /\
    millisecondsSinceEpoch e = Some ms' /\ beginsAt t ms' ms.
Proof. apply setter_get. Qed.

Lemma date_set_get_witness : exists e ms', setMillisecondsSinceEpochForWeek newDate (Some 1000000000000) = Some (e, true) /\ m_type e = Week /\
  validComponents e /\ millisecondsSinceEpoch e = Some ms' /\ beginsAt Week ms' 1000000000000.
Proof. apply (date_set_get Week newDate 1000000000000); [discriminate | split; vm_compute; discriminate]. Defined.

(** C29: the milliseconds of a valid value are in the range of the calendar, and set in any
    object they give a value with the same fields. *)
Theorem date_get_set (d d0 : DateComponents) : validComponents d ->
  exists ms e, millisecondsSinceEpoch d = Some ms /\ valueRange ms /\ setterFor (m_type d) d0 (Some ms) = Some (e, true) /\ sameValue d e.
Proof. apply getter_set. Qed.

Definition leapDay : DateComponents := MakeDate 500 30 45 12 29 1 2000 0 DateTime.

Lemma leapDay_valid : validComponents leapDay.
Proof. repeat split; vm_compute; discriminate. Qed.

Lemma date_get_set_witness : exists ms e, millisecondsSinceEpoch leapDay = Some ms /\ valueRange ms /\
  setMillisecondsSinceEpochForDateTime newDate (Some ms) = Some (e, true) /\ sameValue leapDay e.
Proof. apply (date_get_set leapDay newDate). exact leapDay_valid. Defined.

(** setting from months succeeds exactly for the months of the calendar, and the months
    of the value are those it was set from. *)
Theorem months_since_epoch (d : DateComponents) (months : Z) :
  exists e ok, setMonthsSinceEpoch d (Some months) = Some (e, ok) /\ (ok = true <-> minimumMonths <= months <= maximumMonths) /\
    (ok = true -> m_type e = Month /\ validComponents e /\ monthsSinceEpoch e = Some months).
Proof. apply months_set. Qed.

Definition zoneText (sign hour minute : Z) : list Z := sign :: formatted 2 hour ++ ch ":" :: formatted 2 minute.
Definition zoneOffset (sign hour minute : Z) : Z := if sign =? ch "-" then - (hour * 60 + minute) else hour * 60 + minute.

(** a time zone moves the instant by exactly its offset, over any carry from minutes to
    years, and is refused exactly when the instant leaves the range of the calendar. *)
Theorem time_zone_shift (d : DateComponents) (sign hour minute : Z) :
  sign = ch "+" \/ sign = ch "-" -> 0 <= hour <= 23 -> 0 <= minute <= 59 -> validDay d -> validTime d -> minimumDay <= dayOf d <= maximumDay ->
  let instant := instantOf d - zoneOffset sign hour minute * 60000 in
  exists e o, parseTimeZone d (zoneText sign hour minute) 0 = Some (e, o) /\ (o = Some 6 <-> minimumInstant <= instant <= maximumInstant) /\
    (o = None <-> o <> Some 6) /\ (o = Some 6 -> validDay e /\ validTime e /\ instantOf e = instant).
Proof.
  intros Hs Hh Hm Hv Ht Hd instant. pose proof (at_start (zoneText sign hour minute)) as HA. unfold zoneText in HA at 2.
  destruct (at_char _ _ _ _ HA) as (Es & HA1 & L). destruct (between_at _ _ _ 2 _ 0 23 HA1) as [Eh HA2]; [lia.. |]. change (Z.of_nat 2) with 2 in *.
  destruct (at_char _ _ _ _ HA2) as (Ec & HA3 & L2). rewrite <- (app_nil_r (formatted 2 minute)) in HA3.
  destruct (between_at _ _ _ 2 _ 0 59 HA3) as [Em HA4]; [lia.. |]. change (Z.of_nat 2) with 2 in *.
  unfold parseTimeZone. rewrite (proj2 (Z.leb_gt _ _) L), Es. cbn [mbind option_bind].
  assert ((sign =? ch "Z") = false) as -> by (by destruct Hs as [-> | ->]). assert (negb ((sign =? ch "+") || (sign =? ch "-")) = false) as -> by (by destruct Hs as [-> | ->]).
  rewrite Eh, (proj2 (Z.leb_gt _ _) L2), Ec. cbn [mbind option_bind]. change (negb (ch ":" =? ch ":")) with false. cbv iota. rewrite Em.
  set (k := - zoneOffset sign hour minute). assert (Hk : -1439 <= k <= 1439) by (unfold k, zoneOffset; destruct (sign =? ch "-"); lia).
  assert (E : exists h' m', (if sign =? ch "-" then (- hour, - minute) else (hour, minute)) = (h', m') /\ - (h' * 60 + m') = k).
  { unfold k, zoneOffset. destruct (sign =? ch "-"); eexists _, _; (split; [done | lia]). }
  destruct E as (h' & m' & -> & ->). destruct (addMinute_ok d k Hv Ht Hd Hk) as (e & ok & -> & Hok & He). cbn [mbind option_bind].
  assert (Ei : instantOf d + k * 60000 = instant) by (unfold instant, k; lia). rewrite Ei in *. destruct ok.
  - eexists _, _. split; [done |]. change (0 + 1 + 2 + 1 + 2) with 6. split; [tauto |]. split; [done |]. intros _. destruct (He eq_refl) as (H1 & H2 & H3 & _). done.
  - eexists _, _. split; [done |]. split; [rewrite <- Hok; split; done |]. done.
Qed.

Lemma time_zone_shift_witness : exists e o, parseTimeZone leapDay (zoneText (ch "+") 13 45) 0 = Some (e, o) /\
  (o = Some 6 <-> minimumInstant <= instantOf leapDay - zoneOffset (ch "+") 13 45 * 60000 <= maximumInstant) /\ (o = None <-> o <> Some 6) /\
  (o = Some 6 -> validDay e /\ validTime e /\ instantOf e = instantOf leapDay - zoneOffset (ch "+") 13 45 * 60000).
Proof.
  apply (time_zone_shift leapDay (ch "+") 13 45); [by left | lia | lia | | | split; vm_compute; discriminate].
  - repeat split; vm_compute; discriminate.
  - repeat split; vm_compute; discriminate.
Defined.

(** C31: what a valid value prints, with any choice of the seconds, its parser reads to the
    end and gives the same fields back. *)
Theorem date_text_roundtrip (v d : DateComponents) (format : SecondFormat) : validComponents v ->
  exists text e, toString v format = Some text /\ parserFor (m_type v) d text 0 = accept e (lengthOf text) /\ sameValue v e.
Proof. apply date_text. Qed.

Lemma date_text_roundtrip_witness : exists text e, toString leapDay NoSeconds = Some text /\
  parseDateTime newDate text 0 = accept e (lengthOf text) /\ sameValue leapDay e.
Proof. apply (date_text_roundtrip leapDay newDate NoSeconds). exact leapDay_valid. Defined.

(** on any text each parser returns without failing an assertion or reading outside of
    the text; where it accepts, it stops behind the start and inside of the text, and the
    value is valid unless a colon follows. *)
Theorem date_parser_typed (t : Type_) (d : DateComponents) (src : list Z) (start : Z) : t <> Invalid -> 0 <= start ->
  parses (fun e end_ => start < end_ <= lengthOf src /\ m_type e = t /\ (at_ src end_ = Some (ch ":") \/ validComponents e)) (parserFor t d src start).
Proof. apply parser_typed. Qed.

Lemma date_parser_typed_witness :
  parses (fun e end_ => 0 < end_ <= lengthOf (units "2000-02-29T12:34Z") /\ m_type e = DateTime /\
    (at_ (units "2000-02-29T12:34Z") end_ = Some (ch ":") \/ validComponents e)) (parseDateTime newDate (units "2000-02-29T12:34Z") 0).
Proof. apply (date_parser_typed DateTime newDate (units "2000-02-29T12:34Z") 0); [discriminate | lia]. Defined.

(** ** Findings *)

(** October of the last year is accepted although it is behind the last date. *)
Example october_beyond_maximum : maximumInstant < 8640000000000000 + 22 * msPerDay /\
  exists e, setMillisecondsSinceEpochForDate newDate (Some (8640000000000000 + 22 * msPerDay)) = Some (e, true) /\
    m_year e = 275760 /\ m_month e = 9 /\ m_monthDay e = 5.
Proof. split; [by vm_compute |]. eexists. split; [vm_compute; reflexivity |]. done. Qed.

(** A second out of range is kept by a parser that stops before it. *)
Example second_kept : exists e, parseTime newDate (units "12:34:75") 0 = accept e 5 /\ m_second e = 75.
Proof. eexists. split; [vm_compute; reflexivity | done]. Qed.
