(* ===== verification/KURL.v ===== *)
(** * KURL: platform/KURL.{h,cpp}

    Parsing and canonicalising URLs, the members of a URL, changing them, and resolving
    relative references.  A C string is the list of its bytes, 0 to 255, without the
    terminator; [at0] reads it with the terminator, and nothing behind.  Pointers are offsets,
    and what is written through [p] is the list written so far, whose length is compared with
    the size of the buffer where the source does.  [None] is a failed assertion or a read
    outside of a buffer. *)

From S2P Require Import Prelude.

(** ** Characters *)

Definition SchemeFirstChar : Z := 1.
Definition SchemeChar : Z := 2.
Definition UserInfoChar : Z := 4.
Definition HostnameChar : Z := 8.
Definition IPv6Char : Z := 16.
Definition PathSegmentEndChar : Z := 32.
Definition BadChar : Z := 64.

(** The entries of equal neighbours are written once, with their number. *)
Definition entries (n : nat) (classes : list Z) : list Z := replicate n (foldr Z.lor 0 classes).
Definition characterClassTable : list Z :=
  entries 1 (* nul *) [PathSegmentEndChar] ++
  entries 32 (* soh to sp *) [BadChar] ++
  entries 1 (* ! *) [UserInfoChar] ++
  entries 1 (* double quote *) [BadChar] ++
  entries 1 (* # *) [PathSegmentEndChar; BadChar] ++
  entries 1 (* $ *) [UserInfoChar] ++
  entries 1 (* % *) [UserInfoChar; HostnameChar; IPv6Char; BadChar] ++
  entries 5 (* ampersand to asterisk *) [UserInfoChar] ++
  entries 1 (* + *) [SchemeChar; UserInfoChar] ++
  entries 1 (* , *) [UserInfoChar] ++
  entries 1 (* - *) [SchemeChar; UserInfoChar; HostnameChar] ++
  entries 1 (* . *) [SchemeChar; UserInfoChar; HostnameChar; IPv6Char] ++
  entries 1 (* / *) [PathSegmentEndChar] ++
  entries 10 (* 0 to 9 *) [SchemeChar; UserInfoChar; HostnameChar; IPv6Char] ++
  entries 1 (* : *) [UserInfoChar; IPv6Char] ++
  entries 1 (* ; *) [UserInfoChar] ++
  entries 1 (* < *) [BadChar] ++
  entries 1 (* = *) [UserInfoChar] ++
  entries 1 (* > *) [BadChar] ++
  entries 1 (* ? *) [PathSegmentEndChar; BadChar] ++
  entries 1 (* @ *) [] ++
  entries 6 (* A to F *) [SchemeFirstChar; SchemeChar; UserInfoChar; HostnameChar; IPv6Char] ++
  entries 20 (* G to Z *) [SchemeFirstChar; SchemeChar; UserInfoChar; HostnameChar] ++
  entries 4 (* brackets, backslash and circumflex *) [] ++
  entries 1 (* _ *) [UserInfoChar; HostnameChar] ++
  entries 1 (* ` *) [] ++
  entries 6 (* a to f *) [SchemeFirstChar; SchemeChar; UserInfoChar; HostnameChar; IPv6Char] ++
  entries 20 (* g to z *) [SchemeFirstChar; SchemeChar; UserInfoChar; HostnameChar] ++
  entries 3 (* braces and bar *) [] ++
  entries 1 (* ~ *) [UserInfoChar] ++
  entries 129 (* del to 255 *) [BadChar].

(** Both the versions for bytes and for code units: a unit above 255 is in no class. *)
Definition hasClass (class c : Z) : bool := negb (Z.land (default 0 (characterClassTable !! Z.to_nat c)) class =? 0).
Definition isSchemeFirstChar (c : Z) : bool := hasClass SchemeFirstChar c.
Definition isSchemeChar (c : Z) : bool := hasClass SchemeChar c.
Definition isUserInfoChar (c : Z) : bool := hasClass UserInfoChar c.
Definition isHostnameChar (c : Z) : bool := hasClass HostnameChar c.
Definition isIPv6Char (c : Z) : bool := hasClass IPv6Char c.
Definition isPathSegmentEndChar (c : Z) : bool := hasClass PathSegmentEndChar c.
Definition isBadChar (c : Z) : bool := hasClass BadChar c.

Definition isASCIIDigit (c : Z) : bool := (ch "0" <=? c) && (c <=? ch "9").
Definition isLetterMatchIgnoringCase (character lowercaseLetter : Z) : bool := Z.lor character 0x20 =? lowercaseLetter.

(** ** Strings and buffers *)

(** A byte of a C string, its terminator included. *)
Definition at0 (s : list Z) (i : nat) : option Z := (s ++ [0]) !! i.
(** The C string in a buffer. *)
Fixpoint cString (buffer : list Z) : list Z :=
  match buffer with [] => [] | c :: buffer' => if c =? 0 then [] else c :: cString buffer' end.
(** What a loop copies from one offset to another. *)
Definition slice (s : list Z) (first last : nat) : list Z := take (last - first) (drop first s).

(** while (f(s[i])) ++i *)
Fixpoint scanFrom (f : Z -> bool) (s : list Z) : option nat :=
  match s with [] => None | c :: s' => if f c then S <$> scanFrom f s' else Some 0%nat end.
Definition scan (f : Z -> bool) (s : list Z) (i : nat) : option nat := (fun n => (i + n)%nat) <$> scanFrom f (drop i (s ++ [0])).

(** isLetterMatchIgnoringCase of the first characters, joined by && *)
Fixpoint matchLetters (s word : list Z) : option bool :=
  match word with
  | [] => Some true
  | letter :: word' =>
      match s with
      | [] => None
      | c :: s' => if isLetterMatchIgnoringCase c letter then matchLetters s' word' else Some false
      end
  end.
Definition startsWithLetters (url : list Z) (i : nat) (word : list Z) : option bool := matchLetters (drop i (url ++ [0])) word.

Definition copyChecked (f : Z -> bool) (s : list Z) : option (list Z) := _ ← ASSERT (forallb f s); Some s.

(** ** Schemes and ports *)

Definition wsScheme : list Z := units "ws".
Definition ftpScheme : list Z := units "ftp".
Definition ftpPort : list Z := units "21".
Definition wssScheme : list Z := units "wss".
Definition fileScheme : list Z := units "file".
Definition httpScheme : list Z := units "http".
Definition httpPort : list Z := units "80".
Definition httpsScheme : list Z := units "https".
Definition httpsPort : list Z := units "443".
Definition gopherScheme : list Z := units "gopher".
Definition gopherPort : list Z := units "70".

Definition equal (a b : list Z) : bool := bool_decide (a = b).

Definition isDefaultPortForScheme (port scheme : list Z) : bool :=
  match length scheme with
  | 2%nat => equal scheme wsScheme && equal port httpPort
  | 3%nat =>
      if equal scheme ftpScheme then equal port ftpPort
      else if equal scheme wssScheme then equal port httpsPort
      else false
  | 4%nat => equal scheme httpScheme && equal port httpPort
  | 5%nat => equal scheme httpsScheme && equal port httpsPort
  | 6%nat => equal scheme gopherScheme && equal port gopherPort
  | _ => false
  end.

Definition isNonFileHierarchicalScheme (scheme : list Z) : bool :=
  match length scheme with
  | 2%nat => equal scheme wsScheme
  | 3%nat => equal scheme ftpScheme || equal scheme wssScheme
  | 4%nat => equal scheme httpScheme
  | 5%nat => equal scheme httpsScheme
  | 6%nat => equal scheme gopherScheme
  | _ => false
  end.

Definition isCanonicalHostnameLowercaseForScheme (scheme : list Z) : bool :=
  match length scheme with
  | 2%nat => equal scheme wsScheme
  | 3%nat => equal scheme ftpScheme || equal scheme wssScheme
  | 4%nat => equal scheme httpScheme || equal scheme fileScheme
  | 5%nat => equal scheme httpsScheme
  | 6%nat => equal scheme gopherScheme
  | _ => false
  end.

Definition hostPortIsEmptyButCredentialsArePresent (hostStart portEnd : nat) (userinfoEndChar : Z) : bool :=
  (userinfoEndChar =? ch "@") && bool_decide (hostStart = portEnd).

(** ** Escaping *)

Definition hexDigit (n : Z) : Z := default 0 (units "0123456789ABCDEF" !! Z.to_nat n).
Definition placeByteAsHex (c : Z) : list Z := [hexDigit (Z.shiftr c 4); hexDigit (Z.land c 0xF)].
Definition appendEscapedChar (c : Z) : list Z := ch "%" :: placeByteAsHex c.

Definition isTabOrNewline (c : Z) : bool := (c =? 0x09) || (c =? 0x0a) || (c =? 0x0d).

Definition escapingBadChar (c : Z) : list Z :=
  if isBadChar c then
    if (c =? ch "%") || (c =? ch "?") then [c]
    else if negb (isTabOrNewline c) then appendEscapedChar c
    else []
  else [c].
Definition appendEscapingBadChars (s : list Z) : list Z := s ≫= escapingBadChar.

Definition nonHierarchicalChar (c : Z) : list Z :=
  if isTabOrNewline c then []
  else if (c <? 0x20) || (127 <=? c) then appendEscapedChar c
  else [c].
Definition escapeAndAppendNonHierarchicalPart (s : list Z) : list Z := s ≫= nonHierarchicalChar.

(** ** Dot segments *)

(** if (dst > start + 1) dst--; while (dst > start && dst[-1] != '/') dst--;
    The last character written comes first. *)
Fixpoint dropToSlash (dst : list Z) : list Z :=
  match dst with c :: dst' => if negb (c =? ch "/") then dropToSlash dst' else dst | [] => [] end.
Definition rewindSegment (dst : list Z) : list Z := dropToSlash (if (1 <? length dst)%nat then tail dst else dst).

(** The loop of copyPathRemovingDots; [src] has what may be read behind the end. *)
Fixpoint copyDotsLoop (fuel : nat) (src : list Z) (pos srcEnd : nat) (dst : list Z) : option (list Z) :=
  match fuel with
  | O => None
  | S fuel' =>
      if (pos <? srcEnd)%nat then
        c ← src !! pos;
        last ← head dst;
        let copy := copyDotsLoop fuel' src (S pos) srcEnd (c :: dst) in
        if (c =? ch ".") && (last =? ch "/") then
          c1 ← src !! S pos;
          if (c1 =? ch "/") || bool_decide (S pos = srcEnd) then copyDotsLoop fuel' src (pos + 2) srcEnd dst
          else if c1 =? ch "." then
            c2 ← src !! S (S pos);
            if (c2 =? ch "/") || bool_decide (S (S pos) = srcEnd) then copyDotsLoop fuel' src (pos + 3) srcEnd (rewindSegment dst)
            else copy
          else copy
        else copy
      else Some dst
  end.

Definition copyPathRemovingDots (src : list Z) (srcStart srcEnd : nat) : option (list Z) :=
  if bool_decide (srcStart = srcEnd) then Some []
  else
    c ← src !! srcStart;
    _ ← ASSERT (c =? ch "/");
    dst ← copyDotsLoop (S (srcEnd - srcStart)) src (S srcStart) srcEnd [c];
    Some (rev dst).

Fixpoint slashDotLoop (pc : Z) (s : list Z) : bool :=
  match s with
  | [] => false
  | c :: s' => if (c =? ch ".") && ((pc =? ch "/") || (pc =? ch ".")) then true else slashDotLoop c s'
  end.
Definition hasSlashDotOrDotDot (s : list Z) : bool := match s with [] => false | c :: s' => slashDotLoop c s' end.

(** ** KURL *)

Record KURL := MakeKURL {
  m_string : list Z; m_isValid : bool; m_protocolIsInHTTPFamily : bool;
  m_schemeEnd : nat; m_userStart : nat; m_userEnd : nat; m_passwordEnd : nat; m_hostEnd : nat; m_portEnd : nat;
  m_pathAfterLastSlash : nat; m_pathEnd : nat; m_queryEnd : nat; m_fragmentEnd : nat }.
#[export] Instance KURL_eq_dec : EqDecision KURL.
Proof. solve_decision. Defined.

(** m_string = string; invalidate(); *)
Definition invalid (string : list Z) : KURL := MakeKURL string false false 0 0 0 0 0 0 0 0 0 0.

(** The local offsets of parse into the text. *)
Record Authority := MakeAuthority {
  userStart : nat; userEnd : nat; passwordStart : nat; passwordEnd : nat; hostStart : nat; hostEnd : nat; portStart : nat; portEnd : nat }.
Definition noAuthority (i : nat) : Authority := MakeAuthority i i i i i i i i.

(** while (isUserInfoChar(url[userEnd])), with the first colon; [colonPos] is 0 before it. *)
Fixpoint userInfoLoop (s : list Z) (userEnd colonPos : nat) : option (nat * nat) :=
  match s with
  | [] => None
  | c :: s' =>
      if isUserInfoChar c then userInfoLoop s' (S userEnd) (if (c =? ch ":") && bool_decide (colonPos = 0%nat) then userEnd else colonPos)
      else Some (userEnd, colonPos)
  end.

(** The end of the user, the password and the start of the host, or nothing for an invalid
    character. *)
Definition findUserInfo (url : list Z) (userStart : nat) : option (option (nat * nat * nat * nat)) :=
  '(userEnd, colonPos) ← userInfoLoop (drop userStart (url ++ [0])) userStart 0;
  c ← at0 url userEnd;
  if c =? ch "@" then
    Some (Some (if negb (bool_decide (colonPos = 0%nat)) then (colonPos, S colonPos, userEnd, S userEnd) else (userEnd, userEnd, userEnd, S userEnd)))
  else if (c =? ch "[") || isPathSegmentEndChar c then Some (Some (userStart, userStart, userStart, userStart))
  else Some None.

Definition findHostEnd (url : list Z) (hostStart : nat) : option (option nat) :=
  c ← at0 url hostStart;
  if c =? ch "[" then
    hostEnd ← scan isIPv6Char url (S hostStart);
    c ← at0 url hostEnd;
    Some (if c =? ch "]" then Some (S hostEnd) else None)
  else Some <$> scan isHostnameChar url hostStart.

Definition findPort (url : list Z) (hostEnd : nat) : option (nat * nat) :=
  c ← at0 url hostEnd;
  if c =? ch ":" then portEnd ← scan isASCIIDigit url (S hostEnd); Some (S hostEnd, portEnd)
  else Some (hostEnd, hostEnd).

Definition findAuthority (url : list Z) (schemeEnd : nat) (hierarchical hasSecondSlash inHTTPFamily isFile : bool) : option (option Authority) :=
  let userStart := S schemeEnd in
  let userStart := if hierarchical then S userStart else userStart in
  let userStart := if hasSecondSlash then S userStart else userStart in
  info ← findUserInfo url userStart;
  match info with
  | None => Some None
  | Some (userEnd, passwordStart, passwordEnd, hostStart) =>
      hostEnd ← findHostEnd url hostStart;
      match hostEnd with
      | None => Some None
      | Some hostEnd =>
          '(portStart, portEnd) ← findPort url hostEnd;
          c ← at0 url portEnd;
          if negb (isPathSegmentEndChar c) then Some None
          else
            c ← at0 url passwordEnd;
            if hostPortIsEmptyButCredentialsArePresent hostStart portEnd c then Some None
            else if bool_decide (userStart = portEnd) && negb inHTTPFamily && negb isFile then Some (Some (noAuthority (userStart - 2)))
            else Some (Some (MakeAuthority userStart userEnd passwordStart passwordEnd hostStart hostEnd portStart portEnd))
      end
  end.

(** The offsets of the end of the path, of the query and of the fragment. *)
Definition findEnds (url : list Z) (pathStart : nat) : option (nat * nat * nat * nat) :=
  pathEnd ← scan (fun c => negb (c =? 0) && negb (c =? ch "?") && negb (c =? ch "#")) url pathStart;
  c ← at0 url pathEnd;
  queryEnd ← (if c =? ch "?" then scan (fun c => negb (c =? 0) && negb (c =? ch "#")) url pathEnd else Some pathEnd);
  c ← at0 url queryEnd;
  if c =? ch "#" then fragmentEnd ← scan (fun c => negb (c =? 0)) url (S queryEnd); Some (pathEnd, queryEnd, S queryEnd, fragmentEnd)
  else Some (pathEnd, queryEnd, queryEnd, queryEnd).

(** What is written from the scheme on, with m_userStart, m_userEnd, m_passwordEnd, m_hostEnd
    and m_portEnd. *)
Definition assembleAuthority (url scheme p : list Z) (isFile degenerateFilePath hostIsLocalHost haveNonHostAuthorityPart : bool) (a : Authority) :
  option (list Z * nat * nat * nat * nat * nat) :=
  if (if isFile then negb degenerateFilePath else haveNonHostAuthorityPart || negb (bool_decide (hostStart a = hostEnd a))) then
    let p := p ++ [ch "/"; ch "/"] in
    let userStart' := length p in
    user ← copyChecked isUserInfoChar (slice url (userStart a) (userEnd a));
    let p := p ++ user in
    let userEnd' := length p in
    p ← (if negb (bool_decide (passwordEnd a = passwordStart a)) then
           password ← copyChecked isUserInfoChar (slice url (passwordStart a) (passwordEnd a));
           Some (p ++ ch ":" :: password)
         else Some p);
    let passwordEnd' := length p in
    let p := if negb (bool_decide (length p = userStart')) then p ++ [ch "@"] else p in
    p ← (if negb (isFile && hostIsLocalHost && negb haveNonHostAuthorityPart) then
           let host := slice url (hostStart a) (hostEnd a) in
           host ← copyChecked (fun c => isHostnameChar c || (c =? ch "[") || (c =? ch "]") || (c =? ch ":"))
                    (if isCanonicalHostnameLowercaseForScheme scheme then toASCIILower <$> host else host);
           Some (p ++ host)
         else Some p);
    let hostEnd' := length p in
    let port := slice url (portStart a) (portEnd a) in
    let p := if negb (bool_decide (hostEnd a = portStart a))
             then if (negb (bool_decide (port = [])) && negb (isDefaultPortForScheme port scheme)) || (bool_decide (hostStart a = hostEnd a) && negb (bool_decide (hostEnd a = portStart a)))
                  then p ++ ch ":" :: port else p
             else p in
    Some (p, userStart', userEnd', passwordEnd', hostEnd', length p)
  else
    p ← (if isFile then _ ← ASSERT degenerateFilePath; Some (p ++ [ch "/"; ch "/"]) else Some p);
    Some (p, length p, length p, length p, length p, length p).

(** for (i = m_pathEnd; i > m_portEnd; --i) if (buffer[i - 1] == '/') break; *)
Fixpoint afterLastSlash (buffer : list Z) (portEnd : nat) (i : nat) : nat :=
  match i with
  | O => O
  | S i' => if (portEnd <? i)%nat then if bool_decide (buffer !! i' = Some (ch "/")) then i else afterLastSlash buffer portEnd i' else i
  end.

Definition assemblePath (url : list Z) (hierarchical : bool) (pathStart pathEnd : nat) : option (list Z) :=
  if negb hierarchical then Some (escapeAndAppendNonHierarchicalPart (slice url pathStart pathEnd))
  else if negb (hasSlashDotOrDotDot url) then Some (appendEscapingBadChars (slice url pathStart pathEnd))
  else path ← copyPathRemovingDots (url ++ [0]) pathStart pathEnd; Some (appendEscapingBadChars path).

Definition assemble (url originalString : list Z) (schemeEnd : nat) (hierarchical inHTTPFamily isFile : bool) (a : Authority) : option KURL :=
  let pathStart := portEnd a in
  '(pathEnd, queryEnd, fragmentStart, fragmentEnd) ← findEnds url pathStart;
  let scheme := toASCIILower <$> slice url 0 schemeEnd in
  hostIsLocalHost ← (if bool_decide (portEnd a - userStart a = 9)%nat then startsWithLetters url (userStart a) (units "localhost") else Some false);
  let degenerateFilePath := bool_decide (pathStart = pathEnd) && (bool_decide (hostStart a = hostEnd a) || hostIsLocalHost) in
  let haveNonHostAuthorityPart :=
    negb (bool_decide (userStart a = userEnd a)) || negb (bool_decide (passwordStart a = passwordEnd a)) || negb (bool_decide (hostEnd a = portEnd a)) in
  '(p, userStart', userEnd', passwordEnd', hostEnd', portEnd') ←
    assembleAuthority url scheme (scheme ++ [ch ":"]) isFile degenerateFilePath hostIsLocalHost haveNonHostAuthorityPart a;
  let p := if (inHTTPFamily || isFile) && bool_decide (pathEnd = pathStart) then p ++ [ch "/"] else p in
  path ← assemblePath url hierarchical pathStart pathEnd;
  let p := p ++ path in
  let pathEnd' := length p in
  let pathAfterLastSlash := afterLastSlash p portEnd' pathEnd' in
  let p := p ++ appendEscapingBadChars (slice url pathEnd queryEnd) in
  let queryEnd' := length p in
  let p := if negb (bool_decide (fragmentEnd = queryEnd)) then p ++ ch "#" :: escapeAndAppendNonHierarchicalPart (slice url fragmentStart fragmentEnd) else p in
  _ ← ASSERT (length p <=? fragmentEnd * 3 + 1)%nat;
  Some (MakeKURL (if equal originalString p then originalString else p) true inHTTPFamily
          schemeEnd userStart' userEnd' passwordEnd' hostEnd' portEnd' pathAfterLastSlash pathEnd' queryEnd' (length p)).

(** parse(const char* url, const String* originalString) *)
Definition parse (url originalString : list Z) : option KURL :=
  c ← at0 url 0;
  if c =? 0 then Some (invalid originalString)
  else if negb (isSchemeFirstChar c) then Some (invalid originalString)
  else
    schemeEnd ← scan isSchemeChar url 0;
    c ← at0 url schemeEnd;
    if negb (c =? ch ":") then Some (invalid originalString)
    else
      c ← at0 url (S schemeEnd);
      let hierarchical := c =? ch "/" in
      hasSecondSlash ← (if hierarchical then c ← at0 url (S (S schemeEnd)); Some (c =? ch "/") else Some false);
      isFile ← (if bool_decide (schemeEnd = 4%nat) then startsWithLetters url 0 (units "file") else Some false);
      isHTTP ← startsWithLetters url 0 (units "http");
      inHTTPFamily ←
        (if isHTTP : bool then
           c ← at0 url 4;
           if c =? ch ":" then Some true
           else if isLetterMatchIgnoringCase c (ch "s") then c ← at0 url 5; Some (c =? ch ":")
           else Some false
         else Some false);
      authority ←
        (if (hierarchical && hasSecondSlash) || isNonFileHierarchicalScheme (slice url 0 schemeEnd)
         then findAuthority url schemeEnd hierarchical hasSecondSlash inHTTPFamily isFile
         else Some (Some (noAuthority (S schemeEnd))));
      match authority with
      | None => Some (invalid originalString)
      | Some a => assemble url originalString schemeEnd hierarchical inHTTPFamily isFile a
      end.
