(* ===== verification/KURLParts.v ===== *)
(** * KURL: the parts of a URL

    What [parse] computes with offsets, on the text itself: [splitURL] reads the parts off
    the front of the text, [buildParts] makes them canonical, and [print] writes them.  The
    parse of a text is [kurlOf] its canonical parts. *)

From S2P Require Import Prelude KURL.

(** * KURL: paths without dot segments

    The reference: a path is split at its slashes, a segment of one dot is left out, one of
    two dots takes the segment before it away, and the rest is joined again.  The loop of
    [copyPathRemovingDots] computes it in one pass, and [hasSlashDotOrDotDot] may skip it. *)

(** ** Segments *)

Fixpoint splitSlash (s : list Z) : list (list Z) :=
  match s with
  | [] => [[]]
  | c :: s' => if c =? ch "/" then [] :: splitSlash s' else match splitSlash s' with seg :: segs => (c :: seg) :: segs | [] => [[c]] end
  end.

Fixpoint joinSlash (segs : list (list Z)) : list Z :=
  match segs with [] => [] | seg :: segs' => ch "/" :: seg ++ joinSlash segs' end.

Definition dot : list Z := [ch "."].
Definition dotDot : list Z := [ch "."; ch "."].
Definition isDots (s : list Z) : bool := equal s dot || equal s dotDot.

(** [kept] has the segments so far, the last one first.  Dots at the end leave a slash. *)
Fixpoint dropDots (kept segs : list (list Z)) : list (list Z) :=
  match segs with
  | [] => rev kept
  | seg :: segs' =>
      let last := match segs' with [] => true | _ => false end in
      if equal seg dot then if last then rev ([] :: kept) else dropDots kept segs'
      else if equal seg dotDot then if last then rev ([] :: tail kept) else dropDots (tail kept) segs'
      else dropDots (seg :: kept) segs'
  end.

Definition removeDots (path : list Z) : list Z := match path with [] => [] | _ :: s => joinSlash (dropDots [] (splitSlash s)) end.

Definition noSlash (s : list Z) : Prop := Forall (fun c => c <> ch "/") s.

Lemma splitSlash_shape (s : list Z) : exists seg segs, splitSlash s = seg :: segs.
Proof. destruct s as [| c s]; [by eexists _, _ |]. cbn [splitSlash]. destruct (c =? ch "/"); [by eexists _, _ |]. destruct (splitSlash s); by eexists _, _. Qed.

Lemma splitSlash_cons (c : Z) (s seg : list Z) (segs : list (list Z)) : c <> ch "/" -> splitSlash s = seg :: segs -> splitSlash (c :: s) = (c :: seg) :: segs.
Proof. intros Hc Hs. cbn [splitSlash]. rewrite (proj2 (Z.eqb_neq c (ch "/")) Hc). by rewrite Hs. Qed.

Lemma splitSlash_slash (s : list Z) : splitSlash (ch "/" :: s) = [] :: splitSlash s.
Proof. done. Qed.

Lemma split_noSlash (s : list Z) : Forall noSlash (splitSlash s).
Proof.
  induction s as [| c s IH]; [repeat constructor |]. cbn [splitSlash]. destruct (Z.eqb_spec c (ch "/")) as [-> | N]; [by constructor; [constructor |] |].
  destruct (splitSlash s) as [| seg segs]; [by repeat constructor |]. apply list.Forall_cons in IH as [H1 H2]. constructor; [by constructor | done].
Qed.

Lemma join_split (s : list Z) : joinSlash (splitSlash s) = ch "/" :: s.
Proof.
  induction s as [| c s IH]; [done |]. destruct (splitSlash_shape s) as (seg & segs & E). destruct (Z.eq_dec c (ch "/")) as [-> | N].
  - rewrite splitSlash_slash. cbn [joinSlash app]. by rewrite IH.
  - rewrite (splitSlash_cons _ _ _ _ N E). rewrite E in IH. cbn [joinSlash app] in *. by injection IH as ->.
Qed.

Lemma split_app (seg s : list Z) : noSlash seg -> splitSlash (seg ++ ch "/" :: s) = seg :: splitSlash s.
Proof. intros H. induction H as [| c seg Hc H IH]; [apply splitSlash_slash |]. cbn [app]. by apply splitSlash_cons. Qed.

Lemma split_single (seg : list Z) : noSlash seg -> splitSlash seg = [seg].
Proof. intros H. induction H as [| c seg Hc H IH]; [done | by apply splitSlash_cons]. Qed.

(** Splitting undoes joining. *)
Lemma split_join (seg : list Z) (segs : list (list Z)) : Forall noSlash (seg :: segs) -> splitSlash (seg ++ joinSlash segs) = seg :: segs.
Proof.
  revert seg. induction segs as [| seg' segs IH]; intros seg [H1 H2]%list.Forall_cons; cbn [joinSlash]; [by rewrite app_nil_r, split_single |].
  by rewrite split_app, IH.
Qed.

Lemma joinSlash_app (a b : list (list Z)) : joinSlash (a ++ b) = joinSlash a ++ joinSlash b.
Proof. induction a as [| seg a IH]; [done |]. cbn [joinSlash app]. by rewrite IH, app_assoc. Qed.

(** ** What is written *)

(** The buffer at the start of a segment, the last character first. *)
Fixpoint dstOf (kept : list (list Z)) : list Z :=
  match kept with [] => [ch "/"] | seg :: kept' => ch "/" :: rev seg ++ dstOf kept' end.

Lemma dstOf_slash (kept : list (list Z)) : exists d, dstOf kept = ch "/" :: d.
Proof. destruct kept; by eexists. Qed.

Lemma rev_dstOf (kept : list (list Z)) : rev (dstOf kept) = joinSlash (rev kept) ++ [ch "/"].
Proof.
  induction kept as [| seg kept IH]; [done |]. cbn [dstOf rev]. rewrite rev_app_distr, rev_involutive, IH, joinSlash_app. cbn [joinSlash].
  by rewrite app_nil_r, <- !app_assoc.
Qed.

Lemma dropToSlash_app (s d : list Z) : noSlash s -> dropToSlash (s ++ ch "/" :: d) = ch "/" :: d.
Proof. intros H. induction H as [| c s Hc H IH]; [done |]. cbn [app dropToSlash]. by rewrite (proj2 (Z.eqb_neq c (ch "/")) Hc). Qed.

Lemma noSlash_rev (s : list Z) : noSlash s -> noSlash (rev s).
Proof. apply Forall_rev. Qed.

Lemma rewind_ok (kept : list (list Z)) : Forall noSlash kept -> rewindSegment (dstOf kept) = dstOf (tail kept).
Proof.
  intros H. destruct kept as [| seg kept]; [done |]. apply list.Forall_cons in H as [Hs H]. destruct (dstOf_slash kept) as [d E].
  unfold rewindSegment. cbn [dstOf tail]. rewrite E. assert ((1 <? length (ch "/" :: rev seg ++ ch "/" :: d))%nat = true) as ->.
  { apply Nat.ltb_lt. cbn [length]. rewrite length_app. cbn [length]. lia. }
  cbn [tail]. by apply dropToSlash_app, noSlash_rev.
Qed.

(** ** The loop *)

(** What is left of the segment that has begun with [w]. *)
Definition begun (w : list Z) (segs : list (list Z)) : list (list Z) := match segs with seg :: segs' => (w ++ seg) :: segs' | [] => [w] end.
Definition plain (w : list Z) (segs : list (list Z)) : Prop := w = [] \/ isDots (hd [] (begun w segs)) = false.

Lemma dropDots_plain (kept segs : list (list Z)) (seg : list Z) : isDots seg = false -> dropDots kept (seg :: segs) = dropDots (seg :: kept) segs.
Proof. unfold isDots. intros [H1 H2]%orb_false_iff. cbn [dropDots]. by rewrite H1, H2. Qed.

Lemma equal_eq (a b : list Z) : equal a b = true <-> a = b.
Proof. apply bool_decide_eq_true. Qed.
Lemma equal_refl (a : list Z) : equal a a = true.
Proof. by apply equal_eq. Qed.
Lemma equal_neq (a b : list Z) : a <> b -> equal a b = false.
Proof. intros H. by apply bool_decide_eq_false. Qed.

(** The text that may be read: up to one character behind the end, or up to the end when a
    slash is there. *)
Definition readable (src : list Z) (srcEnd : nat) (t : list Z) : Prop := (srcEnd < length src)%nat \/ (srcEnd <= length src)%nat /\ (t = [] \/ list.last t = Some (ch "/")).

Lemma slice_cons (src : list Z) (pos srcEnd : nat) (c : Z) (t : list Z) : slice src pos srcEnd = c :: t ->
  (pos < srcEnd)%nat /\ src !! pos = Some c /\ slice src (S pos) srcEnd = t.
Proof.
  unfold slice. intros E. destruct (Nat.le_gt_cases srcEnd pos) as [L | L]; [by replace (srcEnd - pos)%nat with 0%nat in E by lia |].
  replace (srcEnd - pos)%nat with (S (srcEnd - S pos)) in E by lia. destruct (drop pos src) as [| c' d] eqn:D; [done |]. cbn [take] in E. injection E as -> E.
  split; [done |]. assert (Hl : src !! pos = Some c) by (rewrite <- (Nat.add_0_r pos), <- lookup_drop; by rewrite D). split; [done |].
  rewrite (drop_S _ _ _ Hl) in D. injection D as ->. exact E.
Qed.

Lemma slice_nil (src : list Z) (pos srcEnd : nat) : (srcEnd <= length src)%nat -> slice src pos srcEnd = [] -> (srcEnd <= pos)%nat.
Proof. unfold slice. intros H E. apply (f_equal length) in E. rewrite length_take, length_drop in E. cbn [length] in E. lia. Qed.

Lemma slice_end (src : list Z) (pos srcEnd : nat) : (srcEnd <= pos)%nat -> slice src pos srcEnd = [].
Proof. intros H. unfold slice. by replace (srcEnd - pos)%nat with 0%nat by lia. Qed.

Lemma readable_tail (src : list Z) (srcEnd : nat) (c : Z) (t : list Z) : readable src srcEnd (c :: t) -> readable src srcEnd t.
Proof.
  intros [H | [H1 [H | H]]]; [by left | done |]. right. split; [done |]. destruct t as [| c' t]; [by left | right; exact H].
Qed.

Lemma readable_le (src : list Z) (srcEnd : nat) (t : list Z) : readable src srcEnd t -> (srcEnd <= length src)%nat.
Proof. intros [H | [H _]]; lia. Qed.

(** Behind a character that is not a slash there is another one to read. *)
Lemma read_next (src : list Z) (pos srcEnd : nat) (c : Z) (t : list Z) : readable src srcEnd (c :: t) -> c <> ch "/" -> slice src pos srcEnd = c :: t ->
  exists c1, src !! S pos = Some c1 /\ match t with [] => S pos = srcEnd | c' :: _ => c' = c1 /\ S pos <> srcEnd end.
Proof.
  intros Hr Hc E. destruct (slice_cons _ _ _ _ _ E) as (L & _ & E'). destruct t as [| c' t].
  - pose proof (slice_nil _ _ _ (readable_le _ _ _ Hr) E') as L'. destruct Hr as [Hr | [_ [Hr | Hr]]]; [| done |].
    + destruct (lookup_lt_is_Some_2 src (S pos)) as [c1 Hc1]; [lia |]. exists c1. split; [done | lia].
    + cbn in Hr. congruence.
  - destruct (slice_cons _ _ _ _ _ E') as (L' & Hc1 & _). exists c'. split; [done |]. split; [done | lia].
Qed.

Lemma isDots_spec (s : list Z) : isDots s = true <-> s = dot \/ s = dotDot.
Proof. unfold isDots. rewrite orb_true_iff, !equal_eq. done. Qed.

Lemma dots_begun (c : Z) (s seg : list Z) (segs : list (list Z)) : splitSlash s = seg :: segs -> c <> ch "/" -> splitSlash (c :: s) = begun [c] (seg :: segs).
Proof. intros E Hc. by apply splitSlash_cons. Qed.

(** One more plain character of the segment. *)
Lemma begun_step (w t : list Z) (c : Z) : c <> ch "/" -> begun w (splitSlash (c :: t)) = begun (w ++ [c]) (splitSlash t).
Proof.
  intros Hc. destruct (splitSlash_shape t) as (seg & segs & E). rewrite (splitSlash_cons _ _ _ _ Hc E), E. cbn [begun]. by rewrite <- app_assoc.
Qed.

Lemma copyDots_ok (fuel : nat) (src : list Z) (pos srcEnd : nat) (w t : list Z) (kept : list (list Z)) :
  readable src srcEnd t -> slice src pos srcEnd = t -> (srcEnd - pos < fuel)%nat -> noSlash w -> Forall noSlash kept -> plain w (splitSlash t) ->
  exists dst, copyDotsLoop fuel src pos srcEnd (rev w ++ dstOf kept) = Some dst /\
    rev dst = joinSlash (if bool_decide (w = []) then dropDots kept (splitSlash t) else dropDots (hd [] (begun w (splitSlash t)) :: kept) (tail (splitSlash t))).
Proof.
  revert pos w t kept. induction fuel as [| fuel IH]; intros pos w t kept Hr E Hf Hw Hk Hp; [lia |]. cbn [copyDotsLoop].
  pose proof (readable_le _ _ _ Hr) as Hle. destruct t as [| c t].
  { apply slice_nil in E; [| done]. rewrite (proj2 (Nat.ltb_ge _ _) E). eexists. split; [done |]. rewrite rev_app_distr, rev_involutive, rev_dstOf.
    destruct (decide (w = [])) as [-> | Ew]; [rewrite (bool_decide_eq_true_2 ([] = [])) by done; cbn [splitSlash dropDots app] | rewrite (bool_decide_eq_false_2 _ Ew); cbn [splitSlash begun hd tail dropDots]].
    - change (equal [] dot) with false. change (equal [] dotDot) with false. cbv iota. cbn [rev]. rewrite joinSlash_app, app_nil_r. done.
    - cbn [rev]. rewrite joinSlash_app. cbn [joinSlash]. by rewrite !app_nil_r, <- app_assoc. }
  destruct (slice_cons _ _ _ _ _ E) as (L & Hc & E'). rewrite (proj2 (Nat.ltb_lt _ _) L), Hc. cbn [mbind option_bind].
  assert (Hh : exists last d, rev w ++ dstOf kept = last :: d /\ (last = ch "/" <-> w = [])).
  { destruct (dstOf_slash kept) as [d Ed]. rewrite Ed. destruct (rev w) as [| l w'] eqn:Er; cbn [app].
    - eexists _, _. split; [done |]. split; [| done]. intros _. by rewrite <- (rev_involutive w), Er.
    - eexists _, _. split; [done |]. pose proof (noSlash_rev _ Hw) as Hw'. rewrite Er in Hw'. apply list.Forall_cons in Hw' as [Hl _].
      split; [done |]. intros ->. done. }
  destruct Hh as (last & d & Eh & Hlast). assert (Ehead : head (rev w ++ dstOf kept) = Some last) by (by rewrite Eh). rewrite Ehead. cbn [mbind option_bind].
  pose proof (readable_tail _ _ _ _ Hr) as Hr'.
  (* copying a character *)
  assert (Hcopy : (c = ch "/" \/ plain (w ++ [c]) (splitSlash t)) -> exists dst, copyDotsLoop fuel src (S pos) srcEnd (c :: rev w ++ dstOf kept) = Some dst /\
    rev dst = joinSlash (if bool_decide (w = []) then dropDots kept (splitSlash (c :: t)) else dropDots (hd [] (begun w (splitSlash (c :: t))) :: kept) (tail (splitSlash (c :: t))))).
  { intros Hcase. destruct (Z.eq_dec c (ch "/")) as [-> | N].
    - rewrite splitSlash_slash. cbn [begun hd tail]. rewrite app_nil_r. change (ch "/" :: rev w ++ dstOf kept) with (rev [] ++ dstOf (w :: kept)).
      destruct (IH (S pos) [] t (w :: kept) Hr' E' ltac:(lia) ltac:(constructor) ltac:(by constructor) ltac:(by left)) as (dst & -> & Ed). eexists. split; [done |].
      rewrite Ed. rewrite (bool_decide_eq_true_2 ([] = [])) by done. destruct (decide (w = [])) as [-> | Ew]; [rewrite (bool_decide_eq_true_2 ([] = [])) by done | by rewrite (bool_decide_eq_false_2 _ Ew)].
      rewrite dropDots_plain by done. done.
    - destruct Hcase as [-> | Hpl]; [done |]. rewrite begun_step by done.
      replace (c :: rev w ++ dstOf kept) with (rev (w ++ [c]) ++ dstOf kept) by (by rewrite rev_app_distr).
      assert (Hw2 : noSlash (w ++ [c])) by (apply list.Forall_app; by repeat constructor).
      destruct (IH (S pos) (w ++ [c]) t kept Hr' E' ltac:(lia) Hw2 Hk Hpl) as (dst & -> & Ed). eexists. split; [done |].
      rewrite Ed. rewrite (bool_decide_eq_false_2 (w ++ [c] = [])) by (by destruct w). destruct (splitSlash_shape t) as (seg & segs & Es).
      rewrite (splitSlash_cons _ _ _ _ N Es), Es. cbn [begun hd tail]. destruct (decide (w = [])) as [-> | Ew]; [rewrite (bool_decide_eq_true_2 ([] = [])) by done | by rewrite (bool_decide_eq_false_2 _ Ew)].
      destruct Hpl as [Hpl | Hpl]; [done |]. rewrite Es in Hpl. cbn [begun hd app] in Hpl |- *. by rewrite dropDots_plain. }
  destruct ((c =? ch ".") && (last =? ch "/")) eqn:Edot.
  2: { apply Hcopy. destruct (Z.eq_dec c (ch "/")) as [-> | N]; [by left | right]. right. rewrite <- begun_step by done.
       destruct Hp as [-> | Hp]; [| done]. destruct (splitSlash_shape t) as (seg & segs & Es). rewrite (splitSlash_cons _ _ _ _ N Es). cbn [begun hd app].
       rewrite (proj2 (Z.eqb_eq last (ch "/"))), andb_true_r in Edot by (by apply Hlast). apply Z.eqb_neq in Edot.
       destruct (isDots (c :: seg)) eqn:Ed; [| done]. apply isDots_spec in Ed as [Ed | Ed]; by injection Ed as -> _. }
  apply andb_true_iff in Edot as [->%Z.eqb_eq Hl%Z.eqb_eq]. assert (w = []) as -> by (by apply Hlast). cbn [rev app] in *.
  rewrite (bool_decide_eq_true_2 ([] = [])) in * by done. assert (N1 : ch "." <> ch "/") by done.
  destruct (read_next _ _ _ _ _ Hr N1 E) as (c1 & Hc1 & Ht). rewrite Hc1. cbn [mbind option_bind].
  assert (Hskip : forall k, slice src (pos + k) srcEnd = [] -> exists n, copyDotsLoop fuel src (pos + k) srcEnd n = copyDotsLoop fuel src (pos + k) srcEnd n) by (intros; by exists []).
  clear Hskip. assert (Hstart : forall k kept' t', (1 <= k)%nat -> Forall noSlash kept' -> readable src srcEnd t' -> slice src (pos + k) srcEnd = t' ->
    exists dst, copyDotsLoop fuel src (pos + k) srcEnd (dstOf kept') = Some dst /\ rev dst = joinSlash (dropDots kept' (splitSlash t'))).
  { intros k kept' t' Hk1 Hk' Hrt Et. destruct (IH (pos + k)%nat [] t' kept' Hrt Et ltac:(lia) ltac:(constructor) Hk' ltac:(by left)) as (dst & Edst & Ed).
    exists dst. split; [exact Edst |]. rewrite (bool_decide_eq_true_2 ([] = [])) in Ed by done. exact Ed. }
  assert (Hempty : readable src srcEnd []) by (destruct Hr as [Hr | [Hr _]]; [by left | right; split; [done | by left]]).
  destruct t as [| c' t].
  - subst srcEnd. rewrite (bool_decide_eq_true_2 (S pos = S pos)), orb_true_r by done.
    destruct (Hstart 2%nat kept [] ltac:(lia) Hk Hempty (slice_end src (pos + 2) (S pos) ltac:(lia))) as (dst & -> & Ed). eexists. split; [done |]. rewrite Ed. done.
  - destruct Ht as [<- Hne]. rewrite (bool_decide_eq_false_2 (S pos = srcEnd)), orb_false_r by done. destruct (slice_cons _ _ _ _ _ E') as (L1 & _ & E2).
    pose proof (readable_tail _ _ _ _ Hr') as Hr2. destruct (Z.eqb_spec c' (ch "/")) as [-> | N2].
    + replace (S (S pos)) with (pos + 2)%nat in E2 by lia. destruct (Hstart 2%nat kept t ltac:(lia) Hk Hr2 E2) as (dst & -> & Ed). eexists. split; [done |]. rewrite Ed.
      change (splitSlash (ch "." :: ch "/" :: t)) with (dot :: splitSlash t). cbn [dropDots]. rewrite equal_refl. destruct (splitSlash_shape t) as (seg & segs & ->). done.
    + destruct (Z.eqb_spec c' (ch ".")) as [-> | N3].
      * destruct (read_next _ _ _ _ _ Hr' N1 E') as (c2 & Hc2 & Ht2). rewrite Hc2. cbn [mbind option_bind]. pose proof (rewind_ok kept Hk) as Hrw.
        assert (Hk' : Forall noSlash (tail kept)) by (destruct Hk; [constructor | done]). destruct t as [| c'' t].
        -- rewrite <- Ht2, (bool_decide_eq_true_2 (S (S pos) = S (S pos))), orb_true_r, Hrw by done. rewrite Ht2.
           destruct (Hstart 3%nat (tail kept) [] ltac:(lia) Hk' Hempty (slice_end src (pos + 3) srcEnd ltac:(lia))) as (dst & -> & Ed). eexists. split; [done |]. rewrite Ed. done.
        -- destruct Ht2 as [<- Hne2]. rewrite (bool_decide_eq_false_2 (S (S pos) = srcEnd)), orb_false_r by done. destruct (slice_cons _ _ _ _ _ E2) as (L2 & _ & E3).
           destruct (Z.eqb_spec c'' (ch "/")) as [-> | N4].
           ++ rewrite Hrw. replace (S (S (S pos))) with (pos + 3)%nat in E3 by lia.
              destruct (Hstart 3%nat (tail kept) t ltac:(lia) Hk' (readable_tail _ _ _ _ Hr2) E3) as (dst & -> & Ed). eexists. split; [done |]. rewrite Ed.
              change (splitSlash (ch "." :: ch "." :: ch "/" :: t)) with (dotDot :: splitSlash t). cbn [dropDots]. rewrite (equal_neq dotDot dot) by done. rewrite equal_refl.
              destruct (splitSlash_shape t) as (seg & segs & ->). done.
           ++ apply Hcopy. right. right. destruct (splitSlash_shape t) as (seg & segs & Es). rewrite (splitSlash_cons _ _ (c'' :: seg) segs N1 (splitSlash_cons _ _ _ _ N4 Es)). done.
      * apply Hcopy. right. right. destruct (splitSlash_shape t) as (seg & segs & Es). rewrite (splitSlash_cons _ _ _ _ N2 Es). cbn [begun hd app].
        destruct (isDots _) eqn:Ed; [| done]. apply isDots_spec in Ed as [Ed | Ed]; [done |]. injection Ed as -> _. done.
Qed.

(** The routine on a part of a buffer is the reference on its text. *)
Lemma copyPath_ok (src : list Z) (first last : nat) (path : list Z) : readable src last path -> slice src first last = path -> path = [] \/ head path = Some (ch "/") ->
  (first <= last)%nat -> copyPathRemovingDots src first last = Some (removeDots path).
Proof.
  intros Hr E Hp Hle. unfold copyPathRemovingDots. case_bool_decide as Eq.
  - subst. by rewrite slice_end by done.
  - destruct path as [| c t]; [apply slice_nil in E; [lia | by eapply readable_le] |]. destruct Hp as [| [= ->]]; [done |].
    destruct (slice_cons _ _ _ _ _ E) as (L & Hc & E'). rewrite Hc. cbn [mbind option_bind]. change (ch "/" =? ch "/") with true. cbn [ASSERT mbind option_bind].
    destruct (copyDots_ok (S (last - first)) src (S first) last [] t []) as (dst & Ed & Er).
    + by eapply readable_tail. + done. + lia. + constructor. + constructor. + by left.
    + cbn [rev app dstOf] in Ed. rewrite Ed. cbn [mbind option_bind]. rewrite Er. rewrite (bool_decide_eq_true_2 ([] = [])) by done. done.
Qed.

(** ** Paths without dots *)

Definition noDots (segs : list (list Z)) : Prop := Forall (fun seg => isDots seg = false) segs.
Definition dotFree (path : list Z) : Prop := path = [] \/ exists t, path = ch "/" :: t /\ noDots (splitSlash t).

Lemma dropDots_free (kept segs : list (list Z)) : noDots segs -> dropDots kept segs = rev kept ++ segs.
Proof.
  intros H. revert kept. induction H as [| seg segs Hs H IH]; intros kept; [by rewrite app_nil_r |]. rewrite dropDots_plain, IH by done. cbn [rev]. by rewrite <- app_assoc.
Qed.

Lemma removeDots_free (path : list Z) : dotFree path -> removeDots path = path.
Proof. intros [-> | (t & -> & H)]; [done |]. cbn [removeDots]. rewrite dropDots_free by done. apply join_split. Qed.

Lemma dropDots_shape (kept segs : list (list Z)) : Forall noSlash kept -> Forall noSlash segs -> noDots kept -> segs <> [] ->
  Forall noSlash (dropDots kept segs) /\ noDots (dropDots kept segs) /\ dropDots kept segs <> [].
Proof.
  revert kept. induction segs as [| seg segs IH]; intros kept Hk Hs Hd Hne; [done |]. apply list.Forall_cons in Hs as [Hseg Hs].
  assert (F : forall k, Forall noSlash k -> noDots k -> Forall noSlash (rev ([] :: k)) /\ noDots (rev ([] :: k)) /\ rev ([] :: k) <> []).
  { intros k H1 H2. split; [apply Forall_rev; by repeat constructor |]. split; [apply Forall_rev; by constructor |]. cbn [rev]. by destruct (rev k). }
  assert (Ht1 : Forall noSlash (tail kept)) by (destruct Hk; [constructor | done]). assert (Ht2 : noDots (tail kept)) by (destruct Hd; [constructor | done]).
  cbn [dropDots]. destruct (equal seg dot) eqn:E1; [destruct segs; [by apply F | by apply IH] |].
  destruct (equal seg dotDot) eqn:E2; [destruct segs; [by apply F | by apply IH] |].
  assert (Hn : isDots seg = false) by (unfold isDots; by rewrite E1, E2).
  destruct segs as [| seg' segs]; [| apply IH; [by constructor | done | by constructor | done]].
  cbn [dropDots]. split; [apply Forall_rev; by constructor |]. split; [apply Forall_rev; by constructor |]. cbn [rev]. by destruct (rev kept).
Qed.

Lemma removeDots_dotFree (path : list Z) : dotFree (removeDots path).
Proof.
  destruct path as [| c t]; [by left |]. right. cbn [removeDots]. destruct (splitSlash_shape t) as (seg0 & segs0 & E0).
  destruct (dropDots_shape [] (splitSlash t)) as (H1 & H2 & H3); [constructor | apply split_noSlash | constructor | by rewrite E0 |].
  destruct (dropDots [] (splitSlash t)) as [| seg segs]; [done |]. exists (seg ++ joinSlash segs). split; [done |]. by rewrite split_join.
Qed.

Lemma removeDots_head (path : list Z) : path = [] \/ head (removeDots path) = Some (ch "/").
Proof.
  destruct path as [| c t]; [by left |]. right. destruct (removeDots_dotFree (c :: t)) as [E | (t' & -> & _)]; [| done].
  cbn [removeDots] in E. destruct (splitSlash_shape t) as (seg0 & segs0 & E0).
  destruct (dropDots_shape [] (splitSlash t)) as (_ & _ & H3); [constructor | apply split_noSlash | constructor | by rewrite E0 |].
  by destruct (dropDots [] (splitSlash t)).
Qed.

(** ** Skipping the removal *)

Lemma slashDot_free (pc : Z) (t : list Z) : slashDotLoop pc t = false ->
  noDots (tail (splitSlash t)) /\ (pc = ch "/" -> isDots (hd [] (splitSlash t)) = false).
Proof.
  revert pc. induction t as [| c t IH]; intros pc H; [split; [constructor | done] |]. cbn [slashDotLoop] in H.
  destruct ((c =? ch ".") && _) eqn:E; [done |]. destruct (IH c H) as [H1 H2]. destruct (splitSlash_shape t) as (seg & segs & Es). rewrite Es in *.
  destruct (Z.eq_dec c (ch "/")) as [-> | N].
  - rewrite splitSlash_slash, Es. cbn [tail hd] in *. split; [constructor; [by apply H2 | done] | done].
  - rewrite (splitSlash_cons _ _ _ _ N Es). cbn [tail hd] in *. split; [done |]. intros ->. change (ch "/" =? ch "/") with true in E. rewrite andb_true_r in E.
    apply Z.eqb_neq in E. destruct (isDots (c :: seg)) eqn:Ed; [| done]. apply isDots_spec in Ed as [Ed | Ed]; by injection Ed as -> _.
Qed.

Lemma slashDot_app (pc : Z) (a b : list Z) : slashDotLoop pc (a ++ b) = false -> slashDotLoop pc a = false.
Proof. revert pc. induction a as [| c a IH]; intros pc; [done |]. cbn [app slashDotLoop]. destruct (_ && _); [done | apply IH]. Qed.

Lemma slashDot_suffix (pc : Z) (a b : list Z) (c : Z) : slashDotLoop pc (a ++ c :: b) = false -> slashDotLoop c b = false.
Proof. revert pc. induction a as [| c' a IH]; intros pc; cbn [app slashDotLoop]; destruct (_ && _); try done. apply IH. Qed.

Lemma hasSlashDot_free (a path b : list Z) : hasSlashDotOrDotDot (a ++ path ++ b) = false -> path = [] \/ head path = Some (ch "/") -> dotFree path.
Proof.
  intros H [-> | Hp]; [by left |]. destruct path as [| c t]; [done |]. injection Hp as ->. right. exists t. split; [done |].
  assert (Ht : slashDotLoop (ch "/") t = false).
  { apply slashDot_app with (b := b). destruct a as [| c a]; [exact H |]. cbn [app hasSlashDotOrDotDot] in H. by apply slashDot_suffix in H. }
  destruct (slashDot_free _ _ Ht) as [H1 H2]. destruct (splitSlash_shape t) as (seg & segs & E). rewrite E in *. constructor; [by apply H2 | done].
Qed.

(** ** Escaping keeps the segments *)

Section Escape.
Context (e : Z -> list Z).
Hypothesis (e_slash : e (ch "/") = [ch "/"]) (e_dot : e (ch ".") = [ch "."]).

Definition keepsSegments (c : Z) : Prop := c <> ch "/" -> noSlash (e c) /\ (c <> ch "." -> exists c' r, e c = c' :: r /\ c' <> ch ".").

Lemma split_escape (s : list Z) : Forall keepsSegments s -> splitSlash (s ≫= e) = (fun seg => seg ≫= e) <$> splitSlash s.
Proof.
  intros H. induction H as [| c s Hc H IH]; [done |]. cbn [mbind list_bind]. destruct (Z.eq_dec c (ch "/")) as [-> | N].
  - rewrite e_slash. cbn [app]. by rewrite !splitSlash_slash, IH.
  - destruct (splitSlash_shape s) as (seg & segs & Es). rewrite Es in IH. rewrite (splitSlash_cons _ _ _ _ N Es). cbn [fmap list_fmap mbind list_bind] in *.
    destruct (Hc N) as [Hn _]. revert IH. generalize (s ≫= e). generalize (seg ≫= e). intros a b IH.
    induction Hn as [| x l Hx Hn IHl]; [exact IH |]. cbn [app]. by apply splitSlash_cons.
Qed.

Lemma dots_escape (seg : list Z) : noSlash seg -> Forall keepsSegments seg -> isDots (seg ≫= e) = isDots seg.
Proof.
  intros Hn Hk. apply eq_bool_prop_intro. rewrite !Is_true_true, !isDots_spec. assert (Hd : forall c r, c <> ch "/" -> keepsSegments c -> e c ++ r = ch "." :: tail (e c ++ r) -> c = ch ".").
  { intros c r N Hc E. destruct (Z.eq_dec c (ch ".")) as [-> | N2]; [done |]. destruct (Hc N) as [_ Hc']. destruct (Hc' N2) as (c' & r' & E' & N3). rewrite E' in E.
    cbn [app tail] in E. by injection E as ->. }
  destruct seg as [| c1 [| c2 [| c3 seg]]].
  - done.
  - apply list.Forall_cons in Hn as [N1 _], Hk as [K1 _]. cbn [mbind list_bind]. rewrite app_nil_r. split; intros H.
    + assert (c1 = ch ".") as ->; [| by left]. apply (Hd c1 [] N1 K1). rewrite app_nil_r. by destruct H as [-> | ->].
    + destruct H as [H | H]; [injection H as ->; rewrite e_dot; by left | done].
  - apply list.Forall_cons in Hn as [N1 Hn], Hk as [K1 Hk]. apply list.Forall_cons in Hn as [N2 _], Hk as [K2 _]. cbn [mbind list_bind]. rewrite app_nil_r. split; intros H.
    + assert (c1 = ch ".") as ->; [apply (Hd c1 (e c2) N1 K1); by destruct H as [-> | ->] |]. rewrite e_dot in H. cbn [app] in H.
      assert (c2 = ch ".") as ->; [| by right]. apply (Hd c2 [] N2 K2). rewrite app_nil_r. destruct H as [H | H]; injection H as H.
      * destruct (Z.eq_dec c2 (ch ".")) as [-> | N]; [by rewrite e_dot in H |]. destruct (K2 N2) as [_ K]. destruct (K N) as (c' & r' & E' & _). by rewrite E' in H.
      * by rewrite H.
    + destruct H as [H | H]; [done |]. injection H as -> ->. rewrite e_dot. by right.
  - split; [| by intros [H | H]]. apply list.Forall_cons in Hn as [N1 Hn], Hk as [K1 Hk]. apply list.Forall_cons in Hn as [N2 Hn], Hk as [K2 Hk].
    apply list.Forall_cons in Hn as [N3 _], Hk as [K3 _]. cbn [mbind list_bind]. intros H. exfalso.
    assert (L : forall c, c <> ch "/" -> keepsSegments c -> (1 <= length (e c))%nat).
    { intros c N K. destruct (Z.eq_dec c (ch ".")) as [-> | N']; [by rewrite e_dot |]. destruct (K N) as [_ K']. destruct (K' N') as (c' & r & -> & _). cbn. lia. }
    pose proof (L c1 N1 K1). pose proof (L c2 N2 K2). pose proof (L c3 N3 K3).
    assert (length (e c1 ++ e c2 ++ e c3 ++ mbind e seg) <= 2)%nat by (destruct H as [-> | ->]; cbn; lia). rewrite !length_app in *. lia.
Qed.

Lemma dotFree_escape (path : list Z) : Forall keepsSegments path -> dotFree path -> dotFree (path ≫= e).
Proof.
  intros Hk [-> | (t & -> & Hd)]; [by left |]. right. apply list.Forall_cons in Hk as [_ Hk]. cbn [mbind list_bind]. rewrite e_slash. exists (t ≫= e).
  split; [done |]. rewrite split_escape by done. unfold noDots. rewrite Forall_fmap. pose proof (split_noSlash t) as Hn.
  assert (Hks : Forall (Forall keepsSegments) (splitSlash t)).
  { clear Hd Hn. induction Hk as [| c s Hc Hk IH]; [by repeat constructor |]. destruct (Z.eq_dec c (ch "/")) as [-> | N]; [rewrite splitSlash_slash; by constructor; [constructor |] |].
    destruct (splitSlash_shape s) as (seg & segs & Es). rewrite (splitSlash_cons _ _ _ _ N Es). rewrite Es in IH. apply list.Forall_cons in IH as [I1 I2]. constructor; [by constructor | done]. }
  revert Hd Hn Hks. unfold noDots. generalize (splitSlash t). intros segs Hd Hn Hks. induction segs as [| seg segs IH]; [constructor |].
  apply list.Forall_cons in Hd as [D1 D2], Hn as [S1 S2], Hks as [K1 K2]. constructor; [change (isDots (seg ≫= e) = false); by rewrite dots_escape | by apply IH].
Qed.
End Escape.

(** The bytes of a C string. *)
Definition cText (s : list Z) : Prop := Forall (fun c => 0 < c < 256) s.

(** ** Reading parts off the front *)

Fixpoint run (f : Z -> bool) (s : list Z) : list Z := match s with c :: s' => if f c then c :: run f s' else [] | [] => [] end.
Fixpoint rest (f : Z -> bool) (s : list Z) : list Z := match s with c :: s' => if f c then rest f s' else s | [] => [] end.

Record RawAuthority := mkRaw { a_text : list Z; a_user : list Z; a_password : list Z; a_host : list Z; a_port : option (list Z) }.
Definition emptyAuthority : RawAuthority := mkRaw [] [] [] [] None.

Definition isColon (c : Z) : bool := c =? ch ":".

(** The user, the password and what follows; nothing for an invalid character. *)
Definition splitUserInfo (t : list Z) : option (bool * list Z * list Z * list Z) :=
  let info := run isUserInfoChar t in
  match rest isUserInfoChar t with
  | [] => Some (false, [], [], t)
  | c :: r =>
      if c =? ch "@" then Some (true, run (fun c => negb (isColon c)) info, tail (rest (fun c => negb (isColon c)) info), r)
      else if (c =? ch "[") || isPathSegmentEndChar c then Some (false, [], [], t)
      else None
  end.

Definition splitHost (t : list Z) : option (list Z * list Z) :=
  match t with
  | c :: t' =>
      if c =? ch "[" then
        match rest isIPv6Char t' with
        | c :: r => if c =? ch "]" then Some (ch "[" :: run isIPv6Char t' ++ [ch "]"], r) else None
        | [] => None
        end
      else Some (run isHostnameChar t, rest isHostnameChar t)
  | [] => Some ([], [])
  end.

Definition splitPort (t : list Z) : option (list Z) * list Z :=
  match t with
  | c :: t' => if c =? ch ":" then (Some (run isASCIIDigit t'), rest isASCIIDigit t') else (None, t)
  | [] => (None, [])
  end.

(** [t] is what follows the two slashes. *)
Definition splitAuthority (mayBeEmpty : bool) (t : list Z) : option (RawAuthority * list Z) :=
  '(credentials, user, password, t1) ← splitUserInfo t;
  '(host, t2) ← splitHost t1;
  let '(port, t3) := splitPort t2 in
  if negb (isPathSegmentEndChar (hd 0 t3)) then None
  else if credentials && equal host [] && bool_decide (port = None) then None
  else if negb credentials && equal host [] && bool_decide (port = None) && negb mayBeEmpty then Some (emptyAuthority, ch "/" :: ch "/" :: t)
  else Some (mkRaw (take (length t - length t3) t) user password host port, t3).

Definition isPathChar (c : Z) : bool := negb (c =? 0) && negb (c =? ch "?") && negb (c =? ch "#").
Definition isQueryChar (c : Z) : bool := negb (c =? 0) && negb (c =? ch "#").

(** The path, the query with its mark, and the fragment without. *)
Definition splitEnd (t : list Z) : list Z * list Z * option (list Z) :=
  let path := run isPathChar t in
  let t1 := rest isPathChar t in
  let query := match t1 with c :: _ => if c =? ch "?" then run isQueryChar t1 else [] | [] => [] end in
  let t2 := match t1 with c :: _ => if c =? ch "?" then rest isQueryChar t1 else t1 | [] => [] end in
  (path, query, match t2 with c :: t3 => if c =? ch "#" then Some t3 else None | [] => None end).

Definition lower (s : list Z) : list Z := toASCIILower <$> s.
Definition isFileScheme (scheme : list Z) : bool := equal (lower scheme) fileScheme.
Definition isHTTPScheme (scheme : list Z) : bool := equal (lower scheme) httpScheme || equal (lower scheme) httpsScheme.

Record RawURL := mkRawURL { r_scheme : list Z; r_hierarchical : bool; r_authority : RawAuthority; r_path : list Z; r_query : list Z; r_fragment : option (list Z) }.

Definition splitURL (url : list Z) : option RawURL :=
  if negb (isSchemeFirstChar (hd 0 url)) then None
  else
    let scheme := run isSchemeChar url in
    match rest isSchemeChar url with
    | c :: t =>
        if negb (c =? ch ":") then None
        else
          match (match t with
                 | c1 :: c2 :: t2 => if (c1 =? ch "/") && (c2 =? ch "/") then splitAuthority (isHTTPScheme scheme || isFileScheme scheme) t2 else Some (emptyAuthority, t)
                 | _ => Some (emptyAuthority, t)
                 end) with
          | None => None
          | Some (a, t3) => let '(path, query, fragment) := splitEnd t3 in Some (mkRawURL scheme (hd 0 t =? ch "/") a path query fragment)
          end
    | [] => None
    end.

(** The schemes for which an authority is looked for without slashes do have them. *)
Definition wellSlashed (url : list Z) : Prop :=
  isNonFileHierarchicalScheme (run isSchemeChar url) = true -> exists t, rest isSchemeChar url = ch ":" :: ch "/" :: ch "/" :: t.

(** ** Canonical parts *)

(** The port, the query and the fragment have the character that begins them. *)
Record Parts := mkParts {
  p_scheme : list Z; p_slashes : bool; p_user : list Z; p_password : list Z; p_host : list Z; p_port : list Z;
  p_path : list Z; p_query : list Z; p_fragment : list Z }.

Definition prefixText (P : Parts) : list Z := p_scheme P ++ ch ":" :: (if p_slashes P then [ch "/"; ch "/"] else []).
Definition passwordText (P : Parts) : list Z := if equal (p_password P) [] then [] else ch ":" :: p_password P.
Definition userInfoText (P : Parts) : list Z := p_user P ++ passwordText P.
Definition atText (P : Parts) : list Z := if equal (userInfoText P) [] then [] else [ch "@"].
Definition authorityText (P : Parts) : list Z := userInfoText P ++ atText P ++ p_host P ++ p_port P.
Definition print (P : Parts) : list Z := prefixText P ++ authorityText P ++ p_path P ++ p_query P ++ p_fragment P.

Definition kurlOf (P : Parts) : KURL :=
  let userStart := length (prefixText P) in
  let passwordEnd := (userStart + length (userInfoText P))%nat in
  let hostEnd := (passwordEnd + length (atText P) + length (p_host P))%nat in
  let portEnd := (hostEnd + length (p_port P))%nat in
  let pathEnd := (portEnd + length (p_path P))%nat in
  let queryEnd := (pathEnd + length (p_query P))%nat in
  MakeKURL (print P) true (isHTTPScheme (p_scheme P)) (length (p_scheme P))
    userStart (userStart + length (p_user P)) passwordEnd hostEnd portEnd (afterLastSlash (print P) portEnd pathEnd) pathEnd queryEnd (length (print P)).

(** The canonical parts of what was read. *)
Definition isLocalhost (text : list Z) : bool := equal (lower text) (units "localhost").

Definition buildParts (r : RawURL) : Parts :=
  let a := r_authority r in
  let scheme := lower (r_scheme r) in
  let isFile := isFileScheme (r_scheme r) in
  let local := isLocalhost (a_text a) in
  let degenerate := equal (r_path r) [] && (equal (a_host a) [] || local) in
  let haveNonHost := negb (equal (a_user a) []) || negb (equal (a_password a) []) || negb (bool_decide (a_port a = None)) in
  let full := if isFile then negb degenerate else haveNonHost || negb (equal (a_host a) []) in
  let host := if isCanonicalHostnameLowercaseForScheme scheme then lower (a_host a) else a_host a in
  let port := match a_port a with
              | Some digits => if (negb (equal digits []) && negb (isDefaultPortForScheme digits scheme)) || equal (a_host a) [] then ch ":" :: digits else []
              | None => []
              end in
  mkParts scheme (isFile || full)
    (if full then a_user a else []) (if full then a_password a else [])
    (if full && negb (isFile && local && negb haveNonHost) then host else [])
    (if full then port else [])
    (if equal (r_path r) [] then if isHTTPScheme (r_scheme r) || isFile then [ch "/"] else []
     else if r_hierarchical r then appendEscapingBadChars (removeDots (r_path r)) else escapeAndAppendNonHierarchicalPart (r_path r))
    (appendEscapingBadChars (r_query r))
    (match r_fragment r with Some f => ch "#" :: escapeAndAppendNonHierarchicalPart f | None => [] end).

(** ** Places in the text *)

Definition At (url : list Z) (i : nat) (t : list Z) : Prop := (i + length t = length url)%nat /\ drop i url = t.

Lemma run_rest (f : Z -> bool) (s : list Z) : run f s ++ rest f s = s.
Proof. induction s as [| c s IH]; [done |]. cbn [run rest]. destruct (f c); [| done]. cbn [app]. by rewrite IH. Qed.

Lemma run_forall (f : Z -> bool) (s : list Z) : Forall (fun c => f c = true) (run f s).
Proof. induction s as [| c s IH]; [constructor |]. cbn [run]. destruct (f c) eqn:E; [by constructor | constructor]. Qed.

Lemma rest_head (f : Z -> bool) (s : list Z) : f 0 = false -> f (hd 0 (rest f s)) = false.
Proof. intros H0. induction s as [| c s IH]; [done |]. cbn [rest]. destruct (f c) eqn:E; [exact IH | exact E]. Qed.

Lemma run_app (f : Z -> bool) (a b : list Z) : Forall (fun c => f c = true) a -> run f (a ++ b) = a ++ run f b.
Proof. intros H. induction H as [| c a Hc H IH]; [done |]. cbn [app run]. by rewrite Hc, IH. Qed.

Lemma rest_app (f : Z -> bool) (a b : list Z) : Forall (fun c => f c = true) a -> rest f (a ++ b) = rest f b.
Proof. intros H. induction H as [| c a Hc H IH]; [done |]. cbn [app rest]. by rewrite Hc. Qed.

Lemma run_stop (f : Z -> bool) (b : list Z) : f 0 = false -> f (hd 0 b) = false -> run f b = [] /\ rest f b = b.
Proof. intros H0 H. destruct b as [| c b]; [done |]. cbn in H |- *. by rewrite H. Qed.

Lemma run_exact (f : Z -> bool) (a b : list Z) : f 0 = false -> Forall (fun c => f c = true) a -> f (hd 0 b) = false -> run f (a ++ b) = a /\ rest f (a ++ b) = b.
Proof. intros H0 Ha Hb. rewrite run_app, rest_app by done. destruct (run_stop f b H0 Hb) as [-> ->]. by rewrite app_nil_r. Qed.

Lemma url_at_start (url : list Z) : At url 0 url.
Proof. done. Qed.

Lemma url_at_app (url : list Z) (i : nat) (a b : list Z) : At url i (a ++ b) -> At url (i + length a) b /\ slice url i (i + length a) = a.
Proof.
  intros [Hl E]. rewrite length_app in Hl. split.
  - split; [lia |]. by rewrite <- drop_drop, E, drop_app_length.
  - unfold slice. rewrite E. replace (i + length a - i)%nat with (length a) by lia. apply take_app_length.
Qed.

Lemma at_cons (url : list Z) (i : nat) (c : Z) (t : list Z) : At url i (c :: t) -> At url (S i) t.
Proof. intros H. replace (S i) with (i + length [c])%nat by (cbn; lia). by apply (url_at_app url i [c] t). Qed.

Lemma at_text (url : list Z) (i : nat) (t : list Z) : At url i t -> drop i (url ++ [0]) = t ++ [0].
Proof. intros [Hl E]. rewrite drop_app_le by lia. by rewrite E. Qed.

Lemma at0_at (url : list Z) (i : nat) (t : list Z) : At url i t -> at0 url i = Some (hd 0 t).
Proof. intros H. unfold at0. rewrite <- (Nat.add_0_r i), <- lookup_drop, (at_text _ _ _ H). by destruct t. Qed.

Lemma scanFrom_ok (f : Z -> bool) (s : list Z) : f 0 = false -> scanFrom f (s ++ [0]) = Some (length (run f s)).
Proof. intros H0. induction s as [| c s IH]; cbn [app scanFrom run]; [by rewrite H0 |]. destruct (f c); [| done]. by rewrite IH. Qed.

Lemma scan_at (f : Z -> bool) (url : list Z) (i : nat) (t : list Z) : At url i t -> f 0 = false ->
  scan f url i = Some (i + length (run f t))%nat /\ At url (i + length (run f t)) (rest f t) /\ slice url i (i + length (run f t)) = run f t.
Proof.
  intros HA H0. unfold scan. rewrite (at_text _ _ _ HA), scanFrom_ok by done. split; [done |]. rewrite <- (run_rest f t) in HA. by apply url_at_app.
Qed.

Lemma at_bounds (url : list Z) (i : nat) (t : list Z) : At url i t -> (i <= length url)%nat.
Proof. intros [H _]. lia. Qed.

Lemma slice_self (url : list Z) (i : nat) : slice url i i = [].
Proof. by apply slice_end. Qed.

Lemma equal_nil (s : list Z) : equal s [] = bool_decide (length s = 0%nat).
Proof. unfold equal. apply bool_decide_ext. by rewrite length_zero_iff_nil. Qed.

(** ** The classes of characters *)

Lemma byte_check (P : Z -> bool) (c : Z) : forallb P (seqZ 0 256) = true -> 0 <= c < 256 -> P c = true.
Proof. intros H Hc. rewrite forallb_forall in H. apply H, list_elem_of_In, elem_of_seqZ. lia. Qed.

Lemma hasClass_byte (class c : Z) : Z.land PathSegmentEndChar class = 0 -> hasClass class c = true -> 0 <= c < 256.
Proof.
  intros H0 H. unfold hasClass in H. destruct (Z.lt_ge_cases c 0) as [L | L].
  - replace (Z.to_nat c) with 0%nat in H by lia. cbn [characterClassTable lookup] in H. change (default 0 (characterClassTable !! 0%nat)) with PathSegmentEndChar in H. by rewrite H0 in H.
  - destruct (Z.lt_ge_cases c 256) as [G | G]; [done |]. rewrite lookup_ge_None_2 in H by (change (length characterClassTable) with 256%nat; lia). done.
Qed.

Lemma class_implies (class : Z) (P : Z -> bool) (c : Z) : Z.land PathSegmentEndChar class = 0 ->
  forallb (fun c => implb (hasClass class c) (P c)) (seqZ 0 256) = true -> hasClass class c = true -> P c = true.
Proof. intros H0 Hall H. pose proof (byte_check _ c Hall (hasClass_byte _ _ H0 H)) as G. cbv beta in G. by rewrite H in G. Qed.

(** A fact about the characters of a class is a check of the bytes. *)
Ltac class_fact class c :=
  let H := fresh in intros H;
  match goal with |- ?B = true => let F := eval pattern c in B in match F with ?P c => change (P c = true); apply (class_implies class P c); [done | by vm_compute | exact H] end end.

(** What user information can not hold. *)
Lemma userInfo_not (c : Z) : isUserInfoChar c = true ->
  negb (c =? 0) && negb (c =? ch "/") && negb (c =? ch "@") && negb (c =? ch "[") && negb (c =? ch "?") && negb (c =? ch "#") && (c <? 127) && (32 <? c) = true.
Proof. class_fact UserInfoChar c. Qed.

Lemma hostname_userInfo (c : Z) : isHostnameChar c = true -> isUserInfoChar c && negb (c =? ch ":") && negb (c =? ch "[") = true.
Proof. class_fact HostnameChar c. Qed.

Lemma ipv6_userInfo (c : Z) : isIPv6Char c = true -> isUserInfoChar c && (isHostnameChar c || (c =? ch ":")) && negb (c =? ch "]") = true.
Proof. class_fact IPv6Char c. Qed.

Lemma scheme_chars (c : Z) : isSchemeChar c = true -> (0 <? c) && (c <? 127) && negb (c =? ch ":") && negb (c =? ch "/") && isSchemeChar (toASCIILower c) && (toASCIILower (toASCIILower c) =? toASCIILower c) = true.
Proof. class_fact SchemeChar c. Qed.

Lemma schemeFirst_chars (c : Z) : isSchemeFirstChar c = true -> isSchemeChar c && isSchemeFirstChar (toASCIILower c) && negb (c =? 0) = true.
Proof. class_fact SchemeFirstChar c. Qed.

Lemma hostname_lower (c : Z) : isHostnameChar c = true -> isHostnameChar (toASCIILower c) && (toASCIILower (toASCIILower c) =? toASCIILower c) = true.
Proof. class_fact HostnameChar c. Qed.

Lemma ipv6_lower (c : Z) : isIPv6Char c = true -> isIPv6Char (toASCIILower c) && (toASCIILower (toASCIILower c) =? toASCIILower c) = true.
Proof. class_fact IPv6Char c. Qed.

Lemma digit_userInfo (c : Z) : isASCIIDigit c = true -> isUserInfoChar c = true.
Proof.
  intros H. assert (0 <= c < 256) by (unfold isASCIIDigit in H; apply andb_true_iff in H as [H1%Z.leb_le H2%Z.leb_le]; lia). revert H.
  apply implb_true_iff, (byte_check (fun c => implb (isASCIIDigit c) (isUserInfoChar c)) c); [by vm_compute | done].
Qed.

Lemma pathEnd_chars (c : Z) : 0 <= c < 256 -> isPathSegmentEndChar c = true <-> c = 0 \/ c = ch "/" \/ c = ch "?" \/ c = ch "#".
Proof.
  intros Hc. pose proof (byte_check (fun c => Bool.eqb (isPathSegmentEndChar c) ((c =? 0) || (c =? ch "/") || (c =? ch "?") || (c =? ch "#"))) c ltac:(by vm_compute) Hc) as E.
  cbv beta in E. apply eqb_prop in E. rewrite E, !orb_true_iff, !Z.eqb_eq. tauto.
Qed.

(** ** The authority *)

Definition colonPosition (info : list Z) (i : nat) : nat := if bool_decide (ch ":" ∈ info) then (i + length (run (fun c => negb (isColon c)) info))%nat else 0%nat.

Lemma userInfoLoop_ok (t : list Z) (i colonPos : nat) : (0 < i)%nat ->
  userInfoLoop (t ++ [0]) i colonPos =
    Some ((i + length (run isUserInfoChar t))%nat, if bool_decide (colonPos = 0%nat) then colonPosition (run isUserInfoChar t) i else colonPos).
Proof.
  revert i colonPos. induction t as [| c t IH]; intros i colonPos Hi; cbn [app userInfoLoop run].
  - change (isUserInfoChar 0) with false. cbv iota. rewrite Nat.add_0_r. case_bool_decide; [by subst | done].
  - destruct (isUserInfoChar c) eqn:Ec; [| rewrite Nat.add_0_r; case_bool_decide; [by subst | done]].
    rewrite IH by lia. cbn [length]. replace (S i + length (run isUserInfoChar t))%nat with (i + S (length (run isUserInfoChar t)))%nat by lia. do 2 f_equal.
    unfold colonPosition. cbn [run]. unfold isColon at 2. destruct (Z.eqb_spec c (ch ":")) as [-> | N]; cbn [andb negb].
    + rewrite (bool_decide_eq_true_2 (ch ":" ∈ ch ":" :: _)) by left. cbn [length]. rewrite Nat.add_0_r. destruct (decide (colonPos = 0%nat)) as [-> | N].
      * rewrite !(bool_decide_eq_true_2 (0%nat = 0%nat)) by done. rewrite bool_decide_eq_false_2 by lia. done.
      * rewrite !(bool_decide_eq_false_2 (colonPos = 0%nat)) by done. done.
    + destruct (decide (colonPos = 0%nat)) as [-> | N']; [rewrite !(bool_decide_eq_true_2 (0%nat = 0%nat)) by done | by rewrite !(bool_decide_eq_false_2 _ N')].
      destruct (decide (ch ":" ∈ run isUserInfoChar t)) as [Hin | Hin].
      * rewrite !bool_decide_eq_true_2 by (done || by right). cbn [length]. lia.
      * rewrite !bool_decide_eq_false_2; [done | | done]. intros [E | E]%elem_of_cons; [by apply N | done].
Qed.

Lemma colon_split (info : list Z) : ch ":" ∈ info -> info = run (fun c => negb (isColon c)) info ++ ch ":" :: tail (rest (fun c => negb (isColon c)) info).
Proof.
  induction info as [| c info IH]; [by intros ?%not_elem_of_nil |]. cbn [run rest]. unfold isColon at 1 3. destruct (Z.eqb_spec c (ch ":")) as [-> | N]; cbn [negb]; [done |].
  intros [E | E]%elem_of_cons; [by destruct N |]. cbn [app]. f_equal. by apply IH.
Qed.

Lemma no_colon (info : list Z) : ch ":" ∉ info -> run (fun c => negb (isColon c)) info = info /\ rest (fun c => negb (isColon c)) info = [].
Proof.
  induction info as [| c info IH]; [done |]. rewrite not_elem_of_cons. intros [N Hin]. cbn [run rest]. unfold isColon at 1 3. destruct (Z.eqb_spec c (ch ":")) as [-> | _]; [done |].
  cbn [negb]. destruct (IH Hin) as [-> ->]. done.
Qed.

Lemma userInfo_zero : isUserInfoChar 0 = false. Proof. done. Qed.
Lemma hostname_zero : isHostnameChar 0 = false. Proof. done. Qed.
Lemma ipv6_zero : isIPv6Char 0 = false. Proof. done. Qed.
Lemma digit_zero : isASCIIDigit 0 = false. Proof. done. Qed.
#[export] Hint Resolve userInfo_zero hostname_zero ipv6_zero digit_zero : core.

(** The offsets that stand for the user, the password and the place of the host. *)
Lemma findUserInfo_ok (url t : list Z) (i : nat) : (0 < i)%nat -> At url i t ->
  match splitUserInfo t with
  | None => findUserInfo url i = Some None
  | Some (credentials, user, password, t1) => exists userEnd passwordStart passwordEnd hostStart,
      findUserInfo url i = Some (Some (userEnd, passwordStart, passwordEnd, hostStart)) /\
      slice url i userEnd = user /\ slice url passwordStart passwordEnd = password /\ At url hostStart t1 /\
      userEnd = (i + length user)%nat /\ passwordEnd = (passwordStart + length password)%nat /\
      (at0 url passwordEnd = Some (ch "@") <-> credentials = true) /\ (exists c, at0 url passwordEnd = Some c) /\
      (if credentials then (i < hostStart)%nat else hostStart = i)
  end.
Proof.
  intros Hi HA. unfold splitUserInfo, findUserInfo. rewrite (at_text _ _ _ HA), userInfoLoop_ok by done. cbn [mbind option_bind].
  rewrite (bool_decide_eq_true_2 (0%nat = 0%nat)) by done. destruct (scan_at isUserInfoChar url i t HA ltac:(done)) as (_ & HA1 & Hs). rewrite (at0_at _ _ _ HA1). cbn [mbind option_bind].
  set (info := run isUserInfoChar t) in *. assert (Hinfo : Forall (fun c => isUserInfoChar c = true) info) by apply run_forall.
  assert (Hempty : exists userEnd passwordStart passwordEnd hostStart, Some (Some (i, i, i, i)) = Some (Some (userEnd, passwordStart, passwordEnd, hostStart)) /\
      slice url i userEnd = [] /\ slice url passwordStart passwordEnd = [] /\ At url hostStart t /\
      userEnd = (i + @length Z [])%nat /\ passwordEnd = (passwordStart + @length Z [])%nat /\ (exists c, at0 url passwordEnd = Some c) /\ hostStart = i /\ passwordEnd = i).
  { exists i, i, i, i. rewrite slice_self. cbn [length]. rewrite (at0_at _ _ _ HA).
    split; [done |]. split; [done |]. split; [done |]. split; [exact HA |]. split; [lia |]. split; [lia |]. split; [by eexists | done]. }
  destruct (rest isUserInfoChar t) as [| c r] eqn:Er; cbn [hd].
  - change (0 =? ch "@") with false. change ((0 =? ch "[") || isPathSegmentEndChar 0) with true. cbv iota.
    destruct Hempty as (ue & ps & pe & hs & -> & H1 & H2 & H3 & H4 & H5 & H6 & H7 & H8). exists ue, ps, pe, hs. split; [done |]. split; [done |]. split; [done |]. split; [exact H3 |]. split; [exact H4 |]. split; [exact H5 |].
    split; [split; [| done] | split; [exact H6 | exact H7]].
    rewrite H8, (at0_at _ _ _ HA). intros [= E]. destruct t as [| c t]; [done |]. cbn [hd] in E. subst c. done.
  - destruct (Z.eqb_spec c (ch "@")) as [-> | N].
    + pose proof (at_cons _ _ _ _ HA1) as HA2. unfold colonPosition. destruct (decide (ch ":" ∈ info)) as [Hin | Hin].
      * pose proof (colon_split info Hin) as Ei. set (user := run (fun c => negb (isColon c)) info) in *. set (password := tail (rest (fun c => negb (isColon c)) info)) in *.
        rewrite (bool_decide_eq_true_2 _ Hin). rewrite (bool_decide_eq_false_2 ((i + length user)%nat = 0%nat)) by lia. cbn [negb]. eexists _, _, _, _. split; [done |].
        assert (HAi : At url i (user ++ ch ":" :: password ++ ch "@" :: r)).
        { rewrite <- (run_rest isUserInfoChar t) in HA. fold info in HA. rewrite Er, Ei in HA. rewrite <- app_assoc in HA. exact HA. }
        destruct (url_at_app _ _ _ _ HAi) as [HAc Hu]. pose proof (at_cons _ _ _ _ HAc) as HAp. destruct (url_at_app _ _ _ _ HAp) as [HAe Hp].
        assert (El : (i + length info)%nat = (S (i + length user) + length password)%nat) by (rewrite Ei, length_app; cbn [length]; lia).
        rewrite El in *. split; [exact Hu |]. split; [exact Hp |]. split; [exact HA2 |]. split; [done |]. split; [done |]. rewrite (at0_at _ _ _ HAe). cbn [hd].
        split; [done |]. split; [by eexists | lia].
      * destruct (no_colon info Hin) as [-> ->]. rewrite (bool_decide_eq_false_2 _ Hin). rewrite (bool_decide_eq_true_2 (0%nat = 0%nat)) by done. cbn [negb tail].
        eexists _, _, _, _. split; [done |]. split; [exact Hs |]. split; [apply slice_self |]. split; [exact HA2 |]. split; [done |]. split; [cbn; lia |]. rewrite (at0_at _ _ _ HA1). cbn [hd].
        split; [done |]. split; [by eexists | lia].
    + destruct ((c =? ch "[") || isPathSegmentEndChar c); [| done].
      destruct Hempty as (ue & ps & pe & hs & -> & H1 & H2 & H3 & H4 & H5 & H6 & H7 & H8). exists ue, ps, pe, hs. split; [done |]. split; [done |]. split; [done |]. split; [exact H3 |]. split; [exact H4 |]. split; [exact H5 |].
    split; [split; [| done] | split; [exact H6 | exact H7]].
      rewrite H8, (at0_at _ _ _ HA). intros [= E]. destruct t as [| c' t]; [done |]. cbn [hd] in E. subst c'. cbn [rest] in Er. change (isUserInfoChar (ch "@")) with false in Er. by injection Er as <- _.
Qed.

Lemma findHost_ok (url t : list Z) (i : nat) : At url i t ->
  match splitHost t with
  | None => findHostEnd url i = Some None
  | Some (host, t2) => findHostEnd url i = Some (Some (i + length host)%nat) /\ At url (i + length host) t2 /\ slice url i (i + length host) = host
  end.
Proof.
  intros HA. unfold findHostEnd, splitHost. rewrite (at0_at _ _ _ HA). cbn [mbind option_bind]. destruct t as [| c t]; cbn [hd].
  - change (0 =? ch "[") with false. cbv iota. destruct (scan_at isHostnameChar url i [] HA ltac:(done)) as (-> & H1 & H2). done.
  - destruct (Z.eqb_spec c (ch "[")) as [-> | N].
    + pose proof (at_cons _ _ _ _ HA) as HA1. destruct (scan_at isIPv6Char url (S i) t HA1 ltac:(done)) as (-> & HA2 & Hs). cbn [mbind option_bind].
      rewrite (at0_at _ _ _ HA2). cbn [mbind option_bind]. pose proof (run_rest isIPv6Char t) as Er. destruct (rest isIPv6Char t) as [| c r]; cbn [hd]; [done |].
      destruct (Z.eqb_spec c (ch "]")) as [-> | N]; [| done].
      assert (HAt : At url i ((ch "[" :: run isIPv6Char t ++ [ch "]"]) ++ r)) by (cbn [app]; rewrite <- app_assoc; cbn [app]; by rewrite Er).
      destruct (url_at_app _ _ _ _ HAt) as [H1 H2]. assert (El : (i + length (ch "[" :: run isIPv6Char t ++ [ch "]"]))%nat = S (S i + length (run isIPv6Char t))) by (cbn [length]; rewrite length_app; cbn [length]; lia).
      rewrite El in *. done.
    + destruct (scan_at isHostnameChar url i (c :: t) HA ltac:(done)) as (-> & H1 & H2). done.
Qed.

Lemma findPort_ok (url t : list Z) (i : nat) : At url i t ->
  exists portStart portEnd, findPort url i = Some (portStart, portEnd) /\ slice url portStart portEnd = default [] (fst (splitPort t)) /\ At url portEnd (snd (splitPort t)) /\
    (i = portStart <-> fst (splitPort t) = None) /\ (i = portEnd <-> fst (splitPort t) = None) /\ (i <= portEnd)%nat.
Proof.
  intros HA. unfold findPort, splitPort. rewrite (at0_at _ _ _ HA). cbn [mbind option_bind].
  assert (Hno : exists portStart portEnd, Some (i, i) = Some (portStart, portEnd) /\ slice url portStart portEnd = [] /\ At url portEnd t /\
    (i = portStart <-> @None (list Z) = None) /\ (i = portEnd <-> @None (list Z) = None) /\ (i <= portEnd)%nat).
  { exists i, i. rewrite slice_self. done. }
  destruct t as [| c t]; cbn [hd]; [exact Hno |]. destruct (Z.eqb_spec c (ch ":")) as [-> | N]; [| exact Hno].
  destruct (scan_at isASCIIDigit url (S i) t (at_cons _ _ _ _ HA) ltac:(done)) as (-> & H1 & H2). cbn [mbind option_bind fst snd default from_option id].
  eexists _, _. split; [done |]. split; [exact H2 |]. split; [exact H1 |]. split; [split; [lia | done] |]. split; [split; [lia | done] | lia].
Qed.

(** ** Letters *)

Definition isLetter (c : Z) : bool := (ch "a" <=? c) && (c <=? ch "z").

Lemma letter_match (c letter : Z) : 0 <= c < 256 -> isLetter letter = true -> isLetterMatchIgnoringCase c letter = (toASCIILower c =? letter).
Proof.
  intros Hc Hl. unfold isLetterMatchIgnoringCase, isLetter in *. apply andb_true_iff in Hl as [L1%Z.leb_le L2%Z.leb_le].
  pose proof (byte_check (fun c => forallb (fun l => Bool.eqb (Z.lor c 0x20 =? l) (toASCIILower c =? l)) (seqZ 97 26)) c ltac:(by vm_compute) Hc) as E. cbv beta in E.
  rewrite forallb_forall in E. apply eqb_prop, E, list_elem_of_In, elem_of_seqZ. lia.
Qed.

Lemma matchLetters_ok (s word : list Z) : cText s -> forallb isLetter word = true ->
  matchLetters (s ++ [0]) word = Some (equal (lower (take (length word) s)) word).
Proof.
  intros Hs. revert word. induction Hs as [| c s Hc Hs IH]; intros word Hw.
  - destruct word as [| l word]; [by rewrite equal_refl |]. cbn [app matchLetters]. cbn [forallb] in Hw. apply andb_true_iff in Hw as [Hl _].
    rewrite letter_match by (done || lia). change (toASCIILower 0) with 0. unfold isLetter in Hl. apply andb_true_iff in Hl as [L1%Z.leb_le _].
    destruct (Z.eqb_spec 0 l) as [<- | N]; [lia |]. by rewrite equal_neq.
  - destruct word as [| l word]; [by rewrite equal_refl |]. cbn [app matchLetters length take]. cbn [forallb] in Hw. apply andb_true_iff in Hw as [Hl Hw].
    rewrite letter_match by (done || lia). unfold lower. cbn [fmap list_fmap]. destruct (Z.eqb_spec (toASCIILower c) l) as [E | N].
    + rewrite IH by done. f_equal. unfold equal. apply bool_decide_ext. rewrite E. split; [intros H; f_equal; exact H | intros H; by injection H].
    + f_equal. symmetry. apply equal_neq. by intros [= E _].
Qed.

Lemma starts_at (url t word : list Z) (i : nat) : cText url -> At url i t -> forallb isLetter word = true ->
  startsWithLetters url i word = Some (equal (lower (take (length word) t)) word).
Proof.
  intros Hu HA Hw. unfold startsWithLetters. rewrite (at_text _ _ _ HA). apply matchLetters_ok; [| done]. destruct HA as [_ <-]. by apply Forall_drop.
Qed.

Lemma lower_length (s : list Z) : length (lower s) = length s.
Proof. apply length_fmap. Qed.

Lemma equal_length (a b : list Z) : length a <> length b -> equal a b = false.
Proof. intros H. apply equal_neq. by intros ->. Qed.

(** ** The authority, located *)

Record located (url : list Z) (a : Authority) (r : RawAuthority) (t : list Z) : Prop := {
  l_user : slice url (userStart a) (userEnd a) = a_user r;
  l_password : slice url (passwordStart a) (passwordEnd a) = a_password r;
  l_host : slice url (hostStart a) (hostEnd a) = a_host r;
  l_port : slice url (portStart a) (portEnd a) = default [] (a_port r);
  l_noUser : userStart a = userEnd a <-> a_user r = [];
  l_noPassword : passwordEnd a = passwordStart a <-> a_password r = [];
  l_noHost : hostStart a = hostEnd a <-> a_host r = [];
  l_noPort : hostEnd a = portStart a <-> a_port r = None;
  l_noPortEnd : hostEnd a = portEnd a <-> a_port r = None;
  l_at : At url (portEnd a) t;
  l_local : (if bool_decide (portEnd a - userStart a = 9)%nat then startsWithLetters url (userStart a) (units "localhost") else Some false) = Some (isLocalhost (a_text r)) }.

Lemma isLocalhost_length (text : list Z) : length text <> 9%nat -> isLocalhost text = false.
Proof. intros H. apply equal_length. rewrite lower_length. exact H. Qed.

Lemma located_empty (url t : list Z) (i : nat) : At url i t -> located url (noAuthority i) emptyAuthority t.
Proof.
  intros HA. split; cbn [noAuthority emptyAuthority userStart userEnd passwordStart passwordEnd hostStart hostEnd portStart portEnd a_user a_password a_host a_port a_text]; rewrite ?slice_self; try done.
  rewrite bool_decide_eq_false_2 by lia. done.
Qed.

Lemma length_zero_iff (n : nat) (s : list Z) : (n + length s)%nat = n <-> s = [].
Proof. rewrite <- length_zero_iff_nil. lia. Qed.

Lemma splitHost_text (t host t2 : list Z) : splitHost t = Some (host, t2) -> t = host ++ t2.
Proof.
  unfold splitHost. destruct t as [| c t]; [by intros [= <- <-] |]. destruct (Z.eqb_spec c (ch "[")) as [-> | N].
  - pose proof (run_rest isIPv6Char t) as E. destruct (rest isIPv6Char t) as [| c r]; [done |]. destruct (Z.eqb_spec c (ch "]")) as [-> | N]; [| done]. intros [= <- <-].
    cbn [app]. rewrite <- app_assoc. cbn [app]. by rewrite E.
  - intros [= <- <-]. symmetry. exact (run_rest isHostnameChar (c :: t)).
Qed.

Lemma at_unique (url : list Z) (i j : nat) (t : list Z) : At url i t -> At url j t -> i = j.
Proof. intros [H1 _] [H2 _]. lia. Qed.

(** The text between two places. *)
Lemma at_between (url : list Z) (i j : nat) (t t' : list Z) : At url i t -> At url j t' -> (i <= j)%nat -> t = take (length t - length t') t ++ t' /\ (j - i)%nat = length (take (length t - length t') t).
Proof.
  intros [L1 E1] [L2 E2] Hle. rewrite length_take. split; [| lia].
  assert (E : drop (j - i) t = t') by (rewrite <- E1, drop_drop; by replace (i + (j - i))%nat with j by lia).
  rewrite <- E at 2. replace (length t - length t')%nat with (j - i)%nat by lia. by rewrite take_drop.
Qed.

Lemma local_at (url t t3 : list Z) (i j : nat) : cText url -> At url i t -> At url j t3 -> (i <= j)%nat ->
  (if bool_decide (j - i = 9)%nat then startsWithLetters url i (units "localhost") else Some false) = Some (isLocalhost (take (length t - length t3) t)).
Proof.
  intros Hu H1 H2 Hle. destruct (at_between _ _ _ _ _ H1 H2 Hle) as [E El]. case_bool_decide as D.
  - rewrite (starts_at url t (units "localhost") i Hu H1) by done. rewrite length_take in El. by replace (length t - length t3)%nat with 9%nat by lia.
  - rewrite isLocalhost_length; [done |]. rewrite <- El. exact D.
Qed.

Lemma bool_eq (a b : bool) : (a = true <-> b = true) -> a = b.
Proof. destruct a, b; intros [H1 H2]; try done; [by specialize (H1 eq_refl) | by specialize (H2 eq_refl)]. Qed.

Lemma findAuthority_ok (url t : list Z) (schemeEnd : nat) (inHTTPFamily isFile : bool) : cText url -> At url (S schemeEnd) (ch "/" :: ch "/" :: t) ->
  match splitAuthority (inHTTPFamily || isFile) t with
  | None => findAuthority url schemeEnd true true inHTTPFamily isFile = Some None
  | Some (r, t3) => exists a, findAuthority url schemeEnd true true inHTTPFamily isFile = Some (Some a) /\ located url a r t3
  end.
Proof.
  intros Hu HA0. pose proof (at_cons _ _ _ _ (at_cons _ _ _ _ HA0)) as HA. unfold splitAuthority, findAuthority. set (i := S (S (S schemeEnd))) in *.
  pose proof (findUserInfo_ok url t i ltac:(lia) HA) as HU. destruct (splitUserInfo t) as [[[[credentials user] password] t1] |]; cbn [mbind option_bind]; [| by rewrite HU].
  destruct HU as (ue & pws & pwe & hs & -> & Su & Sp & HA1 & Eu & Ep & Hc & [cp Hcp] & Hh). cbn [mbind option_bind].
  pose proof (findHost_ok url t1 hs HA1) as HH. destruct (splitHost t1) as [[host t2] |] eqn:Esh; cbn [mbind option_bind]; [| by rewrite HH].
  destruct HH as (-> & HA2 & Sh). cbn [mbind option_bind]. destruct (findPort_ok url t2 (hs + length host) HA2) as (ps & pe & -> & Spt & HA3 & Np & Npe & Hle).
  cbn [mbind option_bind]. destruct (splitPort t2) as [port t3]. cbn [fst snd] in *. rewrite (at0_at _ _ _ HA3). cbn [mbind option_bind].
  destruct (negb (isPathSegmentEndChar (hd 0 t3))); [done |]. rewrite Hcp. cbn [mbind option_bind].
  assert (Hempty : hs = pe <-> host = [] /\ port = None).
  { rewrite <- Npe. split; [intros E; split; [apply length_zero_iff_nil |]; lia | intros [-> E]; cbn [length] in E; lia]. }
  assert (E1 : hostPortIsEmptyButCredentialsArePresent hs pe cp = credentials && equal host [] && bool_decide (port = None)).
  { apply bool_eq. unfold hostPortIsEmptyButCredentialsArePresent, equal. rewrite !andb_true_iff, !bool_decide_eq_true, Hempty, Z.eqb_eq. rewrite Hcp in Hc.
    split; [intros [-> [H1 H2]]; split; [split; [by apply Hc | done] | done] | intros [[H1 H2] H3]; split; [| done]; apply Hc in H1; by injection H1]. }
  rewrite E1. destruct (credentials && equal host [] && bool_decide (port = None)); [done |].
  assert (E2 : bool_decide (i = pe) && negb inHTTPFamily && negb isFile = negb credentials && equal host [] && bool_decide (port = None) && negb (inHTTPFamily || isFile)).
  { rewrite negb_orb, !andb_assoc. do 2 f_equal. apply bool_eq. unfold equal. rewrite !andb_true_iff, !bool_decide_eq_true. destruct credentials; cbn [negb].
    - split; [lia | by intros [[H _] _]].
    - subst hs. rewrite Hempty. tauto. }
  rewrite E2. destruct (negb credentials && equal host [] && bool_decide (port = None) && negb (inHTTPFamily || isFile)) eqn:E3.
  - eexists. split; [done |]. replace (i - 2)%nat with (S schemeEnd) by lia. by apply located_empty.
  - eexists. split; [done |]. assert (Hle2 : (i <= pe)%nat) by (destruct credentials; lia).
    split; cbn [userStart userEnd passwordStart passwordEnd hostStart hostEnd portStart portEnd a_user a_password a_host a_port a_text]; try done.
    + rewrite Eu. split; [intros E; apply (length_zero_iff i); lia | intros ->; cbn; lia].
    + rewrite Ep. apply length_zero_iff.
    + split; [intros E; apply (length_zero_iff hs); lia | intros ->; cbn; lia].
    + by apply local_at.
Qed.

(** ** The end of the text *)

Lemma findEnds_ok (url t : list Z) (i : nat) : cText url -> At url i t ->
  let '(path, query, fragment) := splitEnd t in
  exists pathEnd queryEnd fragmentStart, findEnds url i = Some (pathEnd, queryEnd, fragmentStart, length url) /\
    pathEnd = (i + length path)%nat /\ slice url i pathEnd = path /\ slice url pathEnd queryEnd = query /\
    (length url = queryEnd <-> fragment = None) /\ (forall f, fragment = Some f -> slice url fragmentStart (length url) = f).
Proof.
  intros Hu HA. unfold splitEnd, findEnds. change (fun c => negb (c =? 0) && negb (c =? ch "?") && negb (c =? ch "#")) with isPathChar.
  destruct (scan_at isPathChar url i t HA ltac:(done)) as (-> & HA1 & S1). cbn [mbind option_bind]. rewrite (at0_at _ _ _ HA1). cbn [mbind option_bind].
  set (path := run isPathChar t) in *. set (t1 := rest isPathChar t) in *. change (fun c => negb (c =? 0) && negb (c =? ch "#")) with isQueryChar.
  set (pathEnd := (i + length path)%nat) in *.
  assert (HQ : exists queryEnd t2 query, (if hd 0 t1 =? ch "?" then scan isQueryChar url pathEnd else Some pathEnd) = Some queryEnd /\ At url queryEnd t2 /\ slice url pathEnd queryEnd = query /\
    query = match t1 with c :: _ => if c =? ch "?" then run isQueryChar t1 else [] | [] => [] end /\
    t2 = match t1 with c :: _ => if c =? ch "?" then rest isQueryChar t1 else t1 | [] => [] end).
  { destruct t1 as [| c t1'] eqn:Et1; cbn [hd].
    - change (0 =? ch "?") with false. cbv iota. exists pathEnd, [], []. rewrite slice_self. done.
    - destruct (c =? ch "?").
      + destruct (scan_at isQueryChar url pathEnd (c :: t1') HA1 ltac:(done)) as (-> & H1 & H2). by eexists _, _, _.
      + exists pathEnd, (c :: t1'), []. rewrite slice_self. done. }
  destruct HQ as (queryEnd & t2 & query & -> & HA2 & S2 & <- & Et2). rewrite <- Et2. cbn [mbind option_bind]. rewrite (at0_at _ _ _ HA2). cbn [mbind option_bind].
  assert (Hnil : t2 = [] -> queryEnd = length url) by (intros ->; destruct HA2 as [H _]; cbn in H; lia).
  destruct t2 as [| c t3]; cbn [hd].
  - change (0 =? ch "#") with false. cbv iota. eexists _, queryEnd, _. rewrite (Hnil eq_refl) in *. split; [done |]. split; [done |]. split; [done |]. split; [exact S2 |]. split; [done |]. done.
  - assert (Hc : c <> 0 /\ (forall x, c :: t3 = x -> True)) by (split; [| done]; destruct HA2 as [_ HA2]; assert (Hd : cText (drop queryEnd url)) by (by apply Forall_drop);
      rewrite HA2 in Hd; apply list.Forall_cons in Hd as [Hd _]; lia). destruct Hc as [Hc _].
    assert (Hlt : (queryEnd < length url)%nat) by (destruct HA2 as [H _]; cbn in H; lia). destruct (Z.eqb_spec c (ch "#")) as [-> | N].
    + pose proof (at_cons _ _ _ _ HA2) as HA3. destruct (scan_at (fun c => negb (c =? 0)) url (S queryEnd) t3 HA3 ltac:(done)) as (-> & HA4 & S4). cbn [mbind option_bind].
      assert (Er : run (fun c => negb (c =? 0)) t3 = t3).
      { assert (Ht3 : cText t3) by (destruct HA3 as [_ <-]; by apply Forall_drop). rewrite <- (app_nil_r t3) at 1. rewrite run_app; [by rewrite app_nil_r |].
        eapply list.Forall_impl; [exact Ht3 |]. intros x Hx. cbv beta in *. by rewrite (proj2 (Z.eqb_neq x 0)) by lia. }
      rewrite Er in *. assert (El : (S queryEnd + length t3)%nat = length url) by (destruct HA3 as [H _]; exact H). rewrite El in *.
      eexists _, queryEnd, _. split; [done |]. split; [done |]. split; [done |]. split; [exact S2 |]. split; [split; [lia | done] |]. by intros f [= <-].
    + exfalso. assert (Hq : isQueryChar c = false).
      { destruct t1 as [| c1 t1'] eqn:Et1; [done |]. destruct (Z.eqb_spec c1 (ch "?")) as [-> | N1].
        - pose proof (rest_head isQueryChar (ch "?" :: t1') ltac:(done)) as H. rewrite <- Et2 in H. exact H.
        - pose proof (rest_head isPathChar t ltac:(done)) as H. fold t1 in H. rewrite Et1 in H. injection Et2 as <- <-. cbn [hd] in H. unfold isPathChar, isQueryChar in *.
          rewrite (proj2 (Z.eqb_neq c (ch "?")) N1), andb_true_r in H. exact H. }
      unfold isQueryChar in Hq. by rewrite (proj2 (Z.eqb_neq c 0) Hc), (proj2 (Z.eqb_neq c (ch "#")) N) in Hq.
Qed.
