(* ===== verification/KURLParse.v ===== *)
(** * KURL: parsing is reading the parts and writing them canonically

    [parse_ok]: the offsets of [parse], its buffer and its assertions, against [splitURL],
    [buildParts] and [kurlOf]. *)

From S2P Require Import Prelude KURL KURLParts.

(** ** What is known of the parts *)

Definition hostOk (host : list Z) : Prop :=
  Forall (fun c => isHostnameChar c = true) host \/ exists v, host = ch "[" :: v ++ [ch "]"] /\ Forall (fun c => isIPv6Char c = true) v.

Record authorityOk (r : RawAuthority) : Prop := {
  o_user : Forall (fun c => isUserInfoChar c = true /\ c <> ch ":") (a_user r);
  o_password : Forall (fun c => isUserInfoChar c = true) (a_password r);
  o_host : hostOk (a_host r);
  o_port : forall digits, a_port r = Some digits -> Forall (fun c => isASCIIDigit c = true) digits;
  o_credentials : a_host r = [] -> a_port r = None -> a_user r = [] /\ a_password r = [];
  o_length : (length (a_user r) + length (a_password r) + length (a_host r) + length (default [] (a_port r)) +
              (if bool_decide (a_port r = None) then 0 else 1) + (if bool_decide (a_user r = []) && bool_decide (a_password r = []) then 0 else 1) +
              (if bool_decide (a_password r = []) then 0 else 1) <= length (a_text r))%nat }.

Lemma authorityOk_empty : authorityOk emptyAuthority.
Proof.
  split; cbn [emptyAuthority a_user a_password a_host a_port]; [constructor | constructor | left; constructor | done | done | cbn; lia].
Qed.

Lemma colon_false (c : Z) : negb (isColon c) = true -> c <> ch ":".
Proof. unfold isColon. intros H%negb_true_iff. by apply Z.eqb_neq. Qed.

Lemma splitUserInfo_text (t user password t1 : list Z) (credentials : bool) : splitUserInfo t = Some (credentials, user, password, t1) ->
  Forall (fun c => isUserInfoChar c = true /\ c <> ch ":") user /\ Forall (fun c => isUserInfoChar c = true) password /\
  (credentials = false -> user = [] /\ password = [] /\ t1 = t) /\
  (credentials = true -> (length user + length password + length t1 + 1 + (if bool_decide (password = []) then 0 else 1) <= length t)%nat).
Proof.
  unfold splitUserInfo. pose proof (run_rest isUserInfoChar t) as Et. pose proof (run_forall isUserInfoChar t) as Hi. set (info := run isUserInfoChar t) in *.
  destruct (rest isUserInfoChar t) as [| c r]; [by intros [= <- <- <- <-] |]. destruct (c =? ch "@").
  - intros [= <- <- <- <-]. pose proof (run_rest (fun c => negb (isColon c)) info) as Ei. pose proof (run_forall (fun c => negb (isColon c)) info) as Hc.
    set (user := run (fun c => negb (isColon c)) info) in *. set (after := rest (fun c => negb (isColon c)) info) in *.
    assert (Hu : Forall (fun c => isUserInfoChar c = true) user /\ Forall (fun c => isUserInfoChar c = true) after) by (apply list.Forall_app; by rewrite Ei).
    destruct Hu as [H1 H2]. split; [apply list.Forall_and; split; [done |]; eapply list.Forall_impl; [exact Hc |]; intros x; apply colon_false |].
    split; [by destruct H2 |]. split; [done |]. intros _. rewrite <- Et, <- Ei, !length_app. cbn [length]. destruct after as [| c' after]; cbn [tail length].
    + rewrite bool_decide_eq_true_2 by done. lia.
    + case_bool_decide; lia.
  - destruct (_ || _); [| done]. by intros [= <- <- <- <-].
Qed.

Lemma splitHost_ok (t host t2 : list Z) : splitHost t = Some (host, t2) -> hostOk host.
Proof.
  unfold splitHost. destruct t as [| c t]; [intros [= <- <-]; by left |]. destruct (c =? ch "[").
  - destruct (rest isIPv6Char t) as [| c' r]; [done |]. destruct (c' =? ch "]"); [| done]. intros [= <- <-]. right. eexists. split; [done | apply run_forall].
  - intros [= <- <-]. left. exact (run_forall isHostnameChar (c :: t)).
Qed.

Lemma splitPort_ok (t : list Z) : (forall digits, fst (splitPort t) = Some digits -> Forall (fun c => isASCIIDigit c = true) digits) /\
  (length t = length (default [] (fst (splitPort t))) + (if bool_decide (fst (splitPort t) = None) then 0 else 1) + length (snd (splitPort t)))%nat.
Proof.
  unfold splitPort. destruct t as [| c t]; [done |]. destruct (c =? ch ":"); cbn [fst snd default from_option id]; [| rewrite bool_decide_eq_true_2 by done; done].
  split; [intros d [= <-]; apply run_forall |]. rewrite bool_decide_eq_false_2 by done. cbn [length]. rewrite <- (run_rest isASCIIDigit t) at 1. rewrite length_app. lia.
Qed.

Lemma splitAuthority_ok (mayBeEmpty : bool) (t t3 : list Z) (r : RawAuthority) : splitAuthority mayBeEmpty t = Some (r, t3) ->
  authorityOk r /\ ((r = emptyAuthority /\ t3 = ch "/" :: ch "/" :: t) \/ isPathSegmentEndChar (hd 0 t3) = true /\ t = a_text r ++ t3).
Proof.
  unfold splitAuthority. destruct (splitUserInfo t) as [[[[credentials user] password] t1] |] eqn:Eu; cbn [mbind option_bind]; [| done].
  destruct (splitUserInfo_text _ _ _ _ _ Eu) as (Hu & Hp & Hno & Hlen). destruct (splitHost t1) as [[host t2] |] eqn:Eh; cbn [mbind option_bind]; [| done].
  pose proof (splitHost_ok _ _ _ Eh) as Hh. apply splitHost_text in Eh. destruct (splitPort_ok t2) as [Hd Hl]. pose proof (run_rest isASCIIDigit t2) as Er.
  assert (Es : exists pre, t2 = pre ++ snd (splitPort t2)).
  { unfold splitPort. destruct t2 as [| c t2]; [by exists [] |]. destruct (c =? ch ":"); cbn [snd]; [exists (c :: run isASCIIDigit t2); cbn [app]; by rewrite run_rest | by exists []]. }
  assert (Et : exists pre, t = pre ++ t1).
  { unfold splitUserInfo in Eu. pose proof (run_rest isUserInfoChar t) as Ei. destruct (rest isUserInfoChar t) as [| c r']; [injection Eu as _ _ _ <-; by exists [] |].
    destruct (c =? ch "@"); [injection Eu as _ _ _ <-; exists (run isUserInfoChar t ++ [c]); by rewrite <- app_assoc |]. destruct (_ || _); [injection Eu as _ _ _ <-; by exists [] | done]. }
  destruct (splitPort t2) as [port t3']. cbn [fst snd] in *. destruct (negb (isPathSegmentEndChar (hd 0 t3'))) eqn:Epe; [done |]. apply negb_false_iff in Epe.
  destruct (credentials && equal host [] && bool_decide (port = None)) eqn:Ec; [done |].
  destruct (negb credentials && equal host [] && bool_decide (port = None) && negb mayBeEmpty); [intros [= <- <-]; split; [exact authorityOk_empty | by left] |].
  intros [= <- <-]. destruct Es as [pre2 Es], Et as [pre1 Et].
  assert (Etake : take (length t - length t3') t = pre1 ++ host ++ pre2).
  { rewrite Et, Eh, Es, !app_assoc, length_app. rewrite <- !app_assoc. replace (length (pre1 ++ host ++ pre2) + length t3' - length t3')%nat with (length (pre1 ++ host ++ pre2)) by lia.
    rewrite !app_assoc. apply take_app_length. }
  split.
  - split; cbn [a_user a_password a_host a_port a_text]; [done | done | done | done | |].
    + intros -> ->. rewrite equal_refl, (bool_decide_eq_true_2 (@None (list Z) = None)) in Ec by done. destruct credentials; [done |]. by destruct (Hno eq_refl) as (-> & -> & _).
    + rewrite length_take. assert (E1 : length t1 = (length host + length t2)%nat) by (by rewrite Eh, length_app).
      assert (E2 : length t = (length pre1 + length t1)%nat) by (by rewrite Et, length_app). destruct credentials.
      * specialize (Hlen eq_refl). destruct (bool_decide (user = []) && bool_decide (password = [])); lia.
      * destruct (Hno eq_refl) as (-> & -> & ->). rewrite (bool_decide_eq_true_2 (@nil Z = [])) by done. cbn [length andb]. lia.
  - right. split; [done |]. cbn [a_text]. rewrite Etake. rewrite Et, Eh, Es. by rewrite !app_assoc.
Qed.

(** ** The authority is written *)

Lemma copyChecked_ok (f : Z -> bool) (s : list Z) : Forall (fun c => f c = true) s -> copyChecked f s = Some s.
Proof. intros H. unfold copyChecked. assert (forallb f s = true) as ->; [| done]. apply forallb_forall. intros c Hc. rewrite list.Forall_forall in H. by apply H, list_elem_of_In. Qed.

Definition isHostText (c : Z) : bool := isHostnameChar c || (c =? ch "[") || (c =? ch "]") || (c =? ch ":").

Lemma hostOk_text (host : list Z) : hostOk host -> Forall (fun c => isHostText c = true) host /\ Forall (fun c => isHostText c = true) (lower host).
Proof.
  assert (F1 : forall c, isHostnameChar c = true -> isHostText c = true /\ isHostText (toASCIILower c) = true).
  { intros c H. pose proof (hostname_lower c H) as L. apply andb_true_iff in L as [L _]. unfold isHostText. by rewrite H, L. }
  assert (F2 : forall c, isIPv6Char c = true -> isHostText c = true /\ isHostText (toASCIILower c) = true).
  { intros c H. pose proof (ipv6_lower c H) as L. apply andb_true_iff in L as [L _]. pose proof (ipv6_userInfo c H) as U. pose proof (ipv6_userInfo _ L) as U'.
    unfold isHostText. apply andb_true_iff in U as [U _], U' as [U' _]. apply andb_true_iff in U as [_ U], U' as [_ U'].
    apply orb_true_iff in U as [-> | ->], U' as [-> | ->]; rewrite ?orb_true_r; done. }
  intros [H | (v & -> & H)].
  - split; [| unfold lower; rewrite Forall_fmap]; (eapply list.Forall_impl; [exact H |]); intros c Hc; by apply F1.
  - unfold lower. rewrite fmap_cons, fmap_app. split; (constructor; [done |]); (apply list.Forall_app; split; [| by repeat constructor]); [| rewrite Forall_fmap];
      (eapply list.Forall_impl; [exact H |]); intros c Hc; by apply F2.
Qed.

(** The flags of [assemble], from the parts. *)
Definition haveNonHost (a : RawAuthority) : bool := negb (equal (a_user a) []) || negb (equal (a_password a) []) || negb (bool_decide (a_port a = None)).
Definition degenerate (r : RawURL) : bool := equal (r_path r) [] && (equal (a_host (r_authority r)) [] || isLocalhost (a_text (r_authority r))).

Lemma length_eq_app (n : nat) (s t : list Z) : n = length s -> bool_decide (length (s ++ t) = n) = equal t [].
Proof. intros ->. rewrite equal_nil. apply bool_decide_ext. rewrite length_app. lia. Qed.

Lemma assembleAuthority_ok (url t : list Z) (a : Authority) (r : RawURL) : located url a (r_authority r) t -> authorityOk (r_authority r) ->
  let P := buildParts r in
  let userStart := length (prefixText P) in
  let passwordEnd := (userStart + length (userInfoText P))%nat in
  let hostEnd := (passwordEnd + length (atText P) + length (p_host P))%nat in
  assembleAuthority url (lower (r_scheme r)) (lower (r_scheme r) ++ [ch ":"]) (isFileScheme (r_scheme r)) (degenerate r) (isLocalhost (a_text (r_authority r))) (haveNonHost (r_authority r)) a =
    Some (prefixText P ++ authorityText P, userStart, (userStart + length (p_user P))%nat, passwordEnd, hostEnd, (hostEnd + length (p_port P))%nat).
Proof.
  intros HL HO P. unfold assembleAuthority. set (scheme := lower (r_scheme r)) in *. set (isFile := isFileScheme (r_scheme r)) in *. set (ra := r_authority r) in *.
  assert (Hno : bool_decide (hostStart a = hostEnd a) = equal (a_host ra) []) by (unfold equal; apply bool_decide_ext, (l_noHost _ _ _ _ HL)).
  rewrite Hno. set (full := if isFile then negb (degenerate r) else haveNonHost ra || negb (equal (a_host ra) [])).
  assert (EP : P = mkParts scheme (isFile || full) (if full then a_user ra else []) (if full then a_password ra else [])
    (if full && negb (isFile && isLocalhost (a_text ra) && negb (haveNonHost ra)) then if isCanonicalHostnameLowercaseForScheme scheme then lower (a_host ra) else a_host ra else [])
    (if full then match a_port ra with Some digits => if (negb (equal digits []) && negb (isDefaultPortForScheme digits scheme)) || equal (a_host ra) [] then ch ":" :: digits else [] | None => [] end else [])
    (p_path P) (p_query P) (p_fragment P)) by done.
  clearbody P. destruct full eqn:Efull.
  - rewrite (l_user _ _ _ _ HL), (copyChecked_ok isUserInfoChar (a_user ra)) by (eapply list.Forall_impl; [exact (o_user _ HO) |]; intros c Hc; apply Hc). cbn [mbind option_bind].
    assert (Hpw : bool_decide (passwordEnd a = passwordStart a) = equal (a_password ra) []) by (unfold equal; apply bool_decide_ext, (l_noPassword _ _ _ _ HL)).
    assert (Hpo : bool_decide (hostEnd a = portStart a) = bool_decide (a_port ra = None)) by (apply bool_decide_ext, (l_noPort _ _ _ _ HL)).
    rewrite Hpw, Hpo, (l_password _ _ _ _ HL), (l_host _ _ _ _ HL), (l_port _ _ _ _ HL). rewrite (copyChecked_ok isUserInfoChar (a_password ra)) by (exact (o_password _ HO)). cbn [mbind option_bind].
    set (pre := (scheme ++ [ch ":"]) ++ [ch "/"; ch "/"]). assert (Epre : prefixText P = pre) by (rewrite EP; unfold prefixText, pre; cbn [p_scheme p_slashes]; rewrite orb_true_r, <- app_assoc; done).
    assert (Einfo : (if negb (equal (a_password ra) []) then Some ((pre ++ a_user ra) ++ ch ":" :: a_password ra) else Some (pre ++ a_user ra)) = Some (pre ++ userInfoText P)).
    { rewrite EP. unfold userInfoText, passwordText. cbn [p_user p_password]. destruct (equal (a_password ra) []) eqn:E; cbn [negb]; [by rewrite app_nil_r | by rewrite <- app_assoc]. }
    rewrite Einfo. cbn [mbind option_bind]. rewrite (length_eq_app _ _ _ eq_refl).
    assert (Eat : (if negb (equal (userInfoText P) []) then (pre ++ userInfoText P) ++ [ch "@"] else pre ++ userInfoText P) = pre ++ userInfoText P ++ atText P).
    { unfold atText. destruct (equal (userInfoText P) []); cbn [negb]; [by rewrite app_nil_r | by rewrite <- app_assoc]. }
    rewrite Eat. destruct (hostOk_text _ (o_host _ HO)) as [H1 H2]. change (fun c => isHostnameChar c || (c =? ch "[") || (c =? ch "]") || (c =? ch ":")) with isHostText.
    assert (Ehost : (if negb (isFile && isLocalhost (a_text ra) && negb (haveNonHost ra)) then
        host ← copyChecked isHostText (if isCanonicalHostnameLowercaseForScheme scheme then toASCIILower <$> a_host ra else a_host ra); Some ((pre ++ userInfoText P ++ atText P) ++ host)
        else Some (pre ++ userInfoText P ++ atText P)) = Some (pre ++ userInfoText P ++ atText P ++ p_host P)).
    { assert (Eh : p_host P = if negb (isFile && isLocalhost (a_text ra) && negb (haveNonHost ra)) then if isCanonicalHostnameLowercaseForScheme scheme then lower (a_host ra) else a_host ra else []) by (rewrite EP; done).
      rewrite Eh. destruct (negb (isFile && isLocalhost (a_text ra) && negb (haveNonHost ra))); [| by rewrite !app_nil_r]. rewrite copyChecked_ok by (destruct (isCanonicalHostnameLowercaseForScheme scheme); done).
      cbn [mbind option_bind]. by rewrite <- !app_assoc. }
    rewrite Ehost. cbn [mbind option_bind].
    assert (Eport : (if negb (bool_decide (a_port ra = None)) then
        if (negb (bool_decide (default [] (a_port ra) = [])) && negb (isDefaultPortForScheme (default [] (a_port ra)) scheme)) || (equal (a_host ra) [] && negb (bool_decide (a_port ra = None)))
        then (pre ++ userInfoText P ++ atText P ++ p_host P) ++ ch ":" :: default [] (a_port ra) else pre ++ userInfoText P ++ atText P ++ p_host P
        else pre ++ userInfoText P ++ atText P ++ p_host P) = pre ++ userInfoText P ++ atText P ++ p_host P ++ p_port P).
    { assert (Ep : p_port P = match a_port ra with Some digits => if (negb (equal digits []) && negb (isDefaultPortForScheme digits scheme)) || equal (a_host ra) [] then ch ":" :: digits else [] | None => [] end) by (rewrite EP; done).
      rewrite Ep. destruct (a_port ra) as [digits |]; [rewrite (bool_decide_eq_false_2 (Some digits = None)) by done | by rewrite (bool_decide_eq_true_2 (@None (list Z) = None)), app_nil_r by done].
      cbn [negb default from_option id]. rewrite andb_true_r. assert (bool_decide (digits = []) = equal digits []) as -> by (by apply bool_decide_ext).
      destruct (negb (equal digits []) && negb (isDefaultPortForScheme digits scheme) || equal (a_host ra) []); [by rewrite <- !app_assoc | by rewrite app_nil_r]. }
    rewrite Eport. unfold authorityText. rewrite Epre, !length_app. assert (Eu : p_user P = a_user ra) by (rewrite EP; done). rewrite Eu. by rewrite !Nat.add_assoc.
  - assert (Eu : p_user P = [] /\ p_password P = [] /\ p_host P = [] /\ p_port P = [] /\ p_slashes P = isFile /\ p_scheme P = scheme) by (rewrite EP; cbn [p_user p_password p_host p_port p_slashes p_scheme andb]; by rewrite orb_false_r).
    destruct Eu as (Eu1 & Eu2 & Eu3 & Eu4 & Eu5 & Eu6).
    assert (Et : authorityText P = [] /\ userInfoText P = [] /\ atText P = []) by (unfold authorityText, atText, userInfoText, passwordText; rewrite Eu1, Eu2, Eu3, Eu4; done).
    destruct Et as (-> & -> & ->). rewrite Eu1, Eu3, Eu4. cbn [length]. rewrite !Nat.add_0_r, app_nil_r. unfold prefixText. rewrite Eu5, Eu6.
    destruct isFile eqn:Ef.
    + assert (degenerate r = true) as ->.
      { unfold full in Efull. by apply negb_false_iff in Efull. }
      cbn [ASSERT mbind option_bind]. by rewrite <- app_assoc.
    + done.
Qed.

(** ** Schemes *)

Definition schemeOk (scheme : list Z) : Prop :=
  (exists c s, scheme = c :: s /\ isSchemeFirstChar c = true) /\ Forall (fun c => isSchemeChar c = true) scheme.

Lemma scheme_facts (c : Z) : isSchemeChar c = true -> 0 < c < 127 /\ c <> ch ":" /\ c <> ch "/" /\ isSchemeChar (toASCIILower c) = true /\ toASCIILower (toASCIILower c) = toASCIILower c.
Proof.
  intros H. pose proof (scheme_chars c H) as E. rewrite !andb_true_iff, !negb_true_iff, !Z.ltb_lt, !Z.eqb_neq, Z.eqb_eq in E. tauto.
Qed.

Lemma lower_idem (scheme : list Z) : Forall (fun c => isSchemeChar c = true) scheme -> lower (lower scheme) = lower scheme.
Proof. intros H. unfold lower. induction H as [| c s Hc H IH]; [done |]. rewrite !fmap_cons, IH. f_equal. by apply scheme_facts. Qed.

Lemma file_scheme (scheme t : list Z) : cText (scheme ++ t) ->
  (if bool_decide (length scheme = 4%nat) then startsWithLetters (scheme ++ t) 0 (units "file") else Some false) = Some (isFileScheme scheme).
Proof.
  intros Hu. unfold isFileScheme. case_bool_decide as E.
  - rewrite (starts_at _ _ _ 0 Hu (url_at_start _)) by done. change (length (units "file")) with 4%nat. rewrite <- E, take_app_length. done.
  - rewrite equal_length; [done |]. rewrite lower_length. exact E.
Qed.

Lemma http_scheme (scheme t : list Z) : cText (scheme ++ ch ":" :: t) -> Forall (fun c => isSchemeChar c = true) scheme ->
  (isHTTP ← startsWithLetters (scheme ++ ch ":" :: t) 0 (units "http");
   (if isHTTP : bool then
      c ← at0 (scheme ++ ch ":" :: t) 4;
      if c =? ch ":" then Some true
      else if isLetterMatchIgnoringCase c (ch "s") then c ← at0 (scheme ++ ch ":" :: t) 5; Some (c =? ch ":")
      else Some false
    else Some false)) = Some (isHTTPScheme scheme).
Proof.
  intros Hu Hs. rewrite (starts_at _ _ _ 0 Hu (url_at_start _)) by done. cbn [mbind option_bind]. change (length (units "http")) with 4%nat.
  assert (Hl : forall n w, length w = n -> length scheme <> n -> equal (lower scheme) w = false) by (intros n w <- Hn; apply equal_length; by rewrite lower_length).
  assert (N : forall c, isSchemeChar c = true -> (c =? ch ":") = false) by (intros c Hc; apply Z.eqb_neq; by apply scheme_facts).
  assert (Hb : forall c, isSchemeChar c = true -> 0 <= c < 256) by (intros c Hc; pose proof (scheme_facts c Hc); lia).
  unfold isHTTPScheme, httpScheme, httpsScheme. change (units "http") with [ch "h"; ch "t"; ch "t"; ch "p"]. change (units "https") with [ch "h"; ch "t"; ch "t"; ch "p"; ch "s"].
  destruct scheme as [| c1 [| c2 [| c3 [| c4 scheme]]]].
  1-4: cbn [app take lower fmap list_fmap]; rewrite !equal_neq by (intros E; first [discriminate E | injection E; discriminate]); done.
  do 4 (apply list.Forall_cons in Hs as [_ Hs]). cbn [app take lower fmap list_fmap]. destruct scheme as [| c5 scheme]; cbn [app fmap list_fmap].
  - rewrite (equal_neq _ [ch "h"; ch "t"; ch "t"; ch "p"; ch "s"]), orb_false_r by discriminate. by destruct (equal _ _).
  - apply list.Forall_cons in Hs as [H5 Hs]. rewrite (equal_neq (_ :: _ :: _ :: _ :: toASCIILower c5 :: _) [ch "h"; ch "t"; ch "t"; ch "p"]) by discriminate. cbn [orb].
    change (at0 (c1 :: c2 :: c3 :: c4 :: c5 :: scheme ++ ch ":" :: t) 4) with (Some c5). cbn [mbind option_bind]. rewrite N, letter_match by (done || by apply Hb).
    assert (E5 : at0 (c1 :: c2 :: c3 :: c4 :: c5 :: scheme ++ ch ":" :: t) 5 = Some (hd (ch ":") scheme)) by (by destruct scheme). rewrite E5. cbn [mbind option_bind].
    assert (E6 : equal (toASCIILower c1 :: toASCIILower c2 :: toASCIILower c3 :: toASCIILower c4 :: toASCIILower c5 :: (toASCIILower <$> scheme)) [ch "h"; ch "t"; ch "t"; ch "p"; ch "s"] =
      equal [toASCIILower c1; toASCIILower c2; toASCIILower c3; toASCIILower c4] [ch "h"; ch "t"; ch "t"; ch "p"] && (toASCIILower c5 =? ch "s") && (hd (ch ":") scheme =? ch ":")).
    { apply bool_eq. rewrite !andb_true_iff, !equal_eq, !Z.eqb_eq. destruct scheme as [| c6 scheme]; cbn [fmap list_fmap hd].
      - split; [intros E; by injection E as -> -> -> -> -> | intros [[E ->] _]; by injection E as -> -> -> ->].
      - apply list.Forall_cons in Hs as [H6 _]. split; [intros E; by injection E | intros [_ E]]. apply N in H6. by rewrite E in H6. }
    unfold lower in E6. rewrite E6. change (take 0 _) with (@nil Z). change (toASCIILower <$> []) with (@nil Z).
    destruct (equal [_; _; _; _] _); [| done]. by destruct (toASCIILower c5 =? ch "s").
Qed.

(** ** The path *)

Lemma afterLastSlash_app (a b : list Z) (portEnd i : nat) : (i <= length a)%nat -> afterLastSlash (a ++ b) portEnd i = afterLastSlash a portEnd i.
Proof.
  induction i as [| i IH]; intros Hi; [done |]. cbn [afterLastSlash]. rewrite lookup_app_l by lia. by rewrite IH by lia.
Qed.

Lemma escape_bad_length (s : list Z) : (length (appendEscapingBadChars s) <= 3 * length s)%nat.
Proof.
  induction s as [| c s IH]; [done |]. unfold appendEscapingBadChars in *. cbn [mbind list_bind]. rewrite length_app. cbn [length].
  assert (length (escapingBadChar c) <= 3)%nat; [| lia]. unfold escapingBadChar. destruct (isBadChar c); [destruct (_ || _); [cbn; lia | destruct (negb _); cbn; lia] | cbn; lia].
Qed.

Lemma escape_nonHier_length (s : list Z) : (length (escapeAndAppendNonHierarchicalPart s) <= 3 * length s)%nat.
Proof.
  induction s as [| c s IH]; [done |]. unfold escapeAndAppendNonHierarchicalPart in *. cbn [mbind list_bind]. rewrite length_app. cbn [length].
  assert (length (nonHierarchicalChar c) <= 3)%nat; [| lia]. unfold nonHierarchicalChar. destruct (isTabOrNewline c); [cbn; lia |]. destruct (_ || _); cbn; lia.
Qed.

Lemma join_length (segs : list (list Z)) : length (joinSlash segs) = (length segs + sum_list (length <$> segs))%nat.
Proof. induction segs as [| seg segs IH]; [done |]. cbn [joinSlash fmap list_fmap sum_list length]. rewrite length_app, IH. unfold sum_list. cbn. lia. Qed.

Lemma dropDots_length (kept segs : list (list Z)) : segs <> [] -> (length (joinSlash (dropDots kept segs)) <= length (joinSlash (rev kept)) + length (joinSlash segs))%nat.
Proof.
  revert kept. induction segs as [| seg segs IH]; intros kept Hne; [done |]. cbn [dropDots].
  assert (L1 : forall k, length (joinSlash (rev ([] :: k))) = S (length (joinSlash (rev k)))) by (intros k; cbn [rev]; rewrite joinSlash_app, length_app; cbn; lia).
  assert (L2 : forall k (x : list Z), length (joinSlash (rev (x :: k))) = (length (joinSlash (rev k)) + S (length x))%nat) by (intros k x; cbn [rev]; rewrite joinSlash_app, length_app; cbn [joinSlash length]; rewrite length_app; cbn; lia).
  assert (L3 : (length (joinSlash (rev (tail kept))) <= length (joinSlash (rev kept)))%nat) by (destruct kept as [| x k]; [done | cbn [tail]; rewrite L2; lia]).
  cbn [joinSlash length]. rewrite length_app. destruct (equal seg dot); [destruct segs; [rewrite L1; lia | etrans; [by apply IH | lia]] |].
  destruct (equal seg dotDot); [destruct segs; [rewrite L1; lia | etrans; [by apply IH | lia]] |].
  destruct segs; [cbn [dropDots joinSlash length]; rewrite L2; lia | etrans; [by apply IH |]; rewrite L2; lia].
Qed.

Lemma removeDots_length (path : list Z) : (length (removeDots path) <= length path)%nat.
Proof.
  destruct path as [| c t]; [done |]. cbn [removeDots]. destruct (splitSlash_shape t) as (seg & segs & E).
  pose proof (dropDots_length [] (splitSlash t) ltac:(by rewrite E)) as H. rewrite join_split in H. cbn in H |- *. lia.
Qed.

Lemma urlPath_head (t : list Z) : isPathSegmentEndChar (hd 0 t) = true -> cText t -> run isPathChar t = [] \/ head (run isPathChar t) = Some (ch "/").
Proof.
  intros H Ht. destruct t as [| c t]; [by left |]. cbn [hd] in H. apply list.Forall_cons in Ht as [Hc _]. apply pathEnd_chars in H; [| lia].
  destruct H as [-> | [-> | [-> | ->]]]; [lia | by right | by left | by left].
Qed.

Lemma assemblePath_ok (url t path : list Z) (i : nat) (hierarchical : bool) : At url i t -> path = run isPathChar t -> (hierarchical = true -> path = [] \/ head path = Some (ch "/")) ->
  assemblePath url hierarchical i (i + length path) = Some (if hierarchical then appendEscapingBadChars (removeDots path) else escapeAndAppendNonHierarchicalPart path).
Proof.
  intros HA Ep Hh. unfold assemblePath. rewrite <- (run_rest isPathChar t), <- Ep in HA. destruct (url_at_app _ _ _ _ HA) as [HA' Hs]. rewrite Hs.
  destruct hierarchical; cbn [negb]; [| done]. specialize (Hh eq_refl). destruct (hasSlashDotOrDotDot url) eqn:E; cbn [negb].
  - rewrite (copyPath_ok (url ++ [0]) i (i + length path) path); [done | | | done | lia].
    + left. rewrite length_app. cbn [length]. pose proof (at_bounds _ _ _ HA'). lia.
    + unfold slice in *. rewrite drop_app_le, take_app_le; [done | | by eapply at_bounds]. rewrite length_drop. pose proof (at_bounds _ _ _ HA'). lia.
  - do 2 f_equal. symmetry. apply removeDots_free. destruct HA as [_ HA]. rewrite <- (take_drop i url), HA in E. by eapply hasSlashDot_free.
Qed.

(** ** The whole text *)

Lemma authority_length (r : RawURL) : authorityOk (r_authority r) -> (length (authorityText (buildParts r)) <= length (a_text (r_authority r)))%nat.
Proof.
  intros HO. pose proof (o_length _ HO) as L. set (ra := r_authority r) in *. unfold buildParts, authorityText, userInfoText, atText, userInfoText, passwordText. fold ra.
  set (full := if isFileScheme (r_scheme r) then _ else _). cbn [p_user p_password p_host p_port].
  destruct full; [| cbn [andb]; rewrite !equal_refl; apply Nat.le_0_l]. cbn [andb]. rewrite !length_app.
  assert (H1 : (length (if negb (isFileScheme (r_scheme r) && isLocalhost (a_text ra) && negb (negb (equal (a_user ra) []) || negb (equal (a_password ra) []) || negb (bool_decide (a_port ra = None))))
    then if isCanonicalHostnameLowercaseForScheme (lower (r_scheme r)) then lower (a_host ra) else a_host ra else []) <= length (a_host ra))%nat).
  { destruct (negb _); [| apply Nat.le_0_l]. destruct (isCanonicalHostnameLowercaseForScheme _); [by rewrite lower_length | done]. }
  assert (H2 : (length (match a_port ra with Some digits => if (negb (equal digits []) && negb (isDefaultPortForScheme digits (lower (r_scheme r)))) || equal (a_host ra) [] then ch ":" :: digits else [] | None => [] end)
    <= length (default [] (a_port ra)) + (if bool_decide (a_port ra = None) then 0 else 1))%nat).
  { destruct (a_port ra) as [digits |]; [| apply Nat.le_0_l]. rewrite bool_decide_eq_false_2 by done. cbn [default from_option id]. destruct (negb (equal digits []) && _ || _); cbn [length]; lia. }
  assert (H3 : (length (if equal (a_user ra ++ (if equal (a_password ra) [] then [] else ch ":" :: a_password ra)) [] then [] else [ch "@"]) <= (if bool_decide (a_user ra = []) && bool_decide (a_password ra = []) then 0 else 1))%nat).
  { destruct (equal (a_user ra ++ _) []) eqn:E; [apply Nat.le_0_l |]. destruct (bool_decide (a_user ra = []) && bool_decide (a_password ra = [])) eqn:D; [| done]. apply andb_true_iff in D as [D1%bool_decide_eq_true D2%bool_decide_eq_true].
    rewrite D1, D2 in E. discriminate E. }
  assert (H4 : (length (if equal (a_password ra) [] then [] else ch ":" :: a_password ra) <= length (a_password ra) + (if bool_decide (a_password ra = []) then 0 else 1))%nat).
  { clear. destruct (a_password ra) as [| w ws]; [done |]. rewrite bool_decide_eq_false_2 by done. destruct (equal _ []); cbn; lia. }
  lia.
Qed.

Lemma splitEnd_length (t path query : list Z) (fragment : option (list Z)) : splitEnd t = (path, query, fragment) ->
  (length path + length query + (match fragment with Some f => S (length f) | None => 0 end) <= length t)%nat /\ path = run isPathChar t.
Proof.
  unfold splitEnd. intros [= <- <- <-]. pose proof (run_rest isPathChar t) as E. set (path := run isPathChar t) in *. set (t1 := rest isPathChar t) in *. split; [| done].
  rewrite <- E, length_app. assert (forall t2 : list Z, (match match t2 with c :: t3 => if (c =? ch "#")%Z then Some t3 else None | [] => None end with Some f => S (length f) | None => 0 end <= length t2)%nat) as Hf.
  { intros [| c t2]; [done |]. destruct (c =? ch "#"); cbn; lia. }
  destruct t1 as [| c t1']; [cbn; lia |]. destruct (c =? ch "?").
  - pose proof (f_equal length (run_rest isQueryChar (c :: t1'))) as L. rewrite length_app in L. specialize (Hf (rest isQueryChar (c :: t1'))). lia.
  - specialize (Hf (c :: t1')). cbn [length] in *. lia.
Qed.

Lemma kurl_string (o p : list Z) : (if equal o p then o else p) = p.
Proof. destruct (equal o p) eqn:E; [by apply equal_eq in E | done]. Qed.

Lemma assemble_ok (url originalString t : list Z) (scheme : list Z) (hierarchical : bool) (a : Authority) (ra : RawAuthority) (path query : list Z) (fragment : option (list Z)) :
  cText url -> slice url 0 (length scheme) = scheme -> schemeOk scheme -> located url a ra t -> authorityOk ra -> splitEnd t = (path, query, fragment) ->
  (hierarchical = true -> path = [] \/ head path = Some (ch "/")) -> (length scheme + 1 + length (a_text ra) + length t <= length url)%nat ->
  assemble url originalString (length scheme) hierarchical (isHTTPScheme scheme) (isFileScheme scheme) a =
    Some (kurlOf (buildParts (mkRawURL scheme hierarchical ra path query fragment))).
Proof.
  intros Hu Hs [(c0 & s0 & Es & _) Hsc] HL HO Hend Hh Hlen. set (r := mkRawURL scheme hierarchical ra path query fragment). unfold assemble.
  pose proof (findEnds_ok url t (portEnd a) Hu (l_at _ _ _ _ HL)) as HE. rewrite Hend in HE. destruct HE as (pathEnd & queryEnd & fragmentStart & -> & Epe & Sp & Sq & Nf & Sf). cbn [mbind option_bind].
  rewrite Hs, (l_local _ _ _ _ HL). cbn [mbind option_bind].
  assert (Hpe : bool_decide (portEnd a = pathEnd) = equal path []) by (unfold equal; apply bool_decide_ext; rewrite Epe; rewrite <- length_zero_iff_nil; lia).
  assert (Hpe' : bool_decide (pathEnd = portEnd a) = equal path []) by (rewrite <- Hpe; apply bool_decide_ext; done).
  assert (Hno : bool_decide (hostStart a = hostEnd a) = equal (a_host ra) []) by (unfold equal; apply bool_decide_ext, (l_noHost _ _ _ _ HL)).
  rewrite Hpe, Hpe', Hno.
  assert (Hnh : negb (bool_decide (userStart a = userEnd a)) || negb (bool_decide (passwordStart a = passwordEnd a)) || negb (bool_decide (hostEnd a = portEnd a)) = haveNonHost ra).
  { unfold haveNonHost, equal. f_equal; [f_equal |]; f_equal; apply bool_decide_ext; [apply (l_noUser _ _ _ _ HL) | rewrite <- (l_noPassword _ _ _ _ HL); done | apply (l_noPortEnd _ _ _ _ HL)]. }
  rewrite Hnh. change (equal path [] && (equal (a_host ra) [] || isLocalhost (a_text ra))) with (degenerate r).
  pose proof (assembleAuthority_ok url t a r HL HO) as HA. cbv zeta in HA. change (r_authority r) with ra in HA. change (r_scheme r) with scheme in HA. fold (lower scheme). rewrite HA. cbn [mbind option_bind].
  clear HA. set (P := buildParts r).
  destruct (splitEnd_length _ _ _ _ Hend) as [Lend Epath].
  rewrite Epe, (assemblePath_ok url t path (portEnd a) hierarchical (l_at _ _ _ _ HL) Epath Hh). cbn [mbind option_bind]. rewrite <- Epe.
  set (pre := prefixText P ++ authorityText P).
  assert (EpathP : p_path P = if equal path [] then if isHTTPScheme scheme || isFileScheme scheme then [ch "/"] else [] else if hierarchical then appendEscapingBadChars (removeDots path) else escapeAndAppendNonHierarchicalPart path) by done.
  assert (Ep : (if (isHTTPScheme scheme || isFileScheme scheme) && equal path [] then pre ++ [ch "/"] else pre) ++ (if hierarchical then appendEscapingBadChars (removeDots path) else escapeAndAppendNonHierarchicalPart path) = pre ++ p_path P).
  { rewrite EpathP. destruct (equal path []) eqn:E; [apply equal_eq in E; rewrite E | by rewrite andb_false_r]. rewrite andb_true_r. destruct hierarchical; cbn; destruct (isHTTPScheme scheme || isFileScheme scheme); by rewrite ?app_nil_r. }
  rewrite Ep, Sq. change (appendEscapingBadChars query) with (p_query P).
  assert (Efr : (if negb (bool_decide (length url = queryEnd)) then ((pre ++ p_path P) ++ p_query P) ++ ch "#" :: escapeAndAppendNonHierarchicalPart (slice url fragmentStart (length url)) else (pre ++ p_path P) ++ p_query P) = print P).
  { unfold print. unfold pre. assert (Ef : p_fragment P = match fragment with Some f => ch "#" :: escapeAndAppendNonHierarchicalPart f | None => [] end) by done. rewrite Ef. destruct fragment as [f |].
    - rewrite bool_decide_eq_false_2 by (intros E; by apply Nf in E). rewrite (Sf f eq_refl). cbn [negb]. by rewrite <- !app_assoc.
    - rewrite bool_decide_eq_true_2 by (by apply Nf). cbn [negb]. by rewrite !app_nil_r, <- !app_assoc. }
  rewrite Efr, kurl_string.
  assert (Hfit : (length (print P) <= length url * 3 + 1)%nat).
  { unfold print. rewrite !length_app. pose proof (authority_length r HO) as La. change (r_authority r) with ra in La. fold P in La.
    assert (Lpre : (length (prefixText P) <= 3 * (length scheme + 1))%nat).
    { unfold prefixText. rewrite length_app. change (length (p_scheme P)) with (length (lower scheme)). rewrite lower_length. subst scheme. destruct (p_slashes P); cbn [length]; lia. }
    assert (Lpath : (length (p_path P) <= 3 * length path + 1)%nat).
    { rewrite EpathP. destruct (equal path []); [destruct (isHTTPScheme scheme || isFileScheme scheme); cbn; lia |]. destruct hierarchical; [pose proof (escape_bad_length (removeDots path)); pose proof (removeDots_length path); lia | pose proof (escape_nonHier_length path); lia]. }
    assert (Lq : (length (p_query P) <= 3 * length query)%nat) by apply escape_bad_length.
    assert (Lf : (length (p_fragment P) <= 3 * match fragment with Some f => S (length f) | None => 0 end)%nat).
    { change (p_fragment P) with (match fragment with Some f => ch "#" :: escapeAndAppendNonHierarchicalPart f | None => [] end). destruct fragment as [f |]; [| done]. cbn [length]. pose proof (escape_nonHier_length f). lia. }
    lia. }
  assert ((length (print P) <=? length url * 3 + 1)%nat = true) as -> by (by apply Nat.leb_le). cbn [ASSERT mbind option_bind]. unfold kurlOf. f_equal.
  assert (Els : length scheme = length (p_scheme P)) by (change (p_scheme P) with (lower scheme); by rewrite lower_length).
  assert (Ehttp : isHTTPScheme (p_scheme P) = isHTTPScheme scheme) by (unfold isHTTPScheme; change (p_scheme P) with (lower scheme); by rewrite (lower_idem scheme Hsc)).
  rewrite Ehttp, <- Els. assert (Epl : length (pre ++ p_path P) = (length (prefixText P) + length (userInfoText P) + length (atText P) + length (p_host P) + length (p_port P) + length (p_path P))%nat).
  { unfold pre, authorityText. rewrite !length_app. lia. }
  assert (Eql : length ((pre ++ p_path P) ++ p_query P) = (length (prefixText P) + length (userInfoText P) + length (atText P) + length (p_host P) + length (p_port P) + length (p_path P) + length (p_query P))%nat).
  { rewrite length_app, Epl. lia. }
  rewrite Epl, Eql. f_equal. rewrite <- Epl. transitivity (afterLastSlash ((pre ++ p_path P) ++ p_query P ++ p_fragment P) (length (prefixText P) + length (userInfoText P) + length (atText P) + length (p_host P) + length (p_port P)) (length (pre ++ p_path P))).
  { symmetry. by apply afterLastSlash_app. }
  unfold print, pre. by rewrite <- !app_assoc.
Qed.

Lemma splitURL_scheme (url : list Z) : isSchemeFirstChar (hd 0 url) = true -> schemeOk (run isSchemeChar url).
Proof.
  intros H. split; [| apply run_forall]. destruct url as [| c0 url]; [done |]. cbn [hd] in H. exists c0, (run isSchemeChar url). cbn [run].
  pose proof (schemeFirst_chars c0 H) as E. apply andb_true_iff in E as [E _]. apply andb_true_iff in E as [-> _]. done.
Qed.

Lemma slash_path (t path query : list Z) (fragment : option (list Z)) : cText t -> splitEnd t = (path, query, fragment) -> isPathSegmentEndChar (hd 0 t) = true -> path = [] \/ head path = Some (ch "/").
Proof. intros Ht Hend H. destruct (splitEnd_length _ _ _ _ Hend) as [_ ->]. by apply urlPath_head. Qed.

Definition startsWithSlashes (t : list Z) : bool := match t with c1 :: c2 :: _ => (c1 =? ch "/") && (c2 =? ch "/") | _ => false end.

Lemma slashes_cases (t : list Z) : (exists t2, t = ch "/" :: ch "/" :: t2) \/ startsWithSlashes t = false.
Proof.
  destruct t as [| c1 [| c2 t]]; [by right | by right |]. cbn [startsWithSlashes]. destruct (Z.eqb_spec c1 (ch "/")) as [-> | N]; [| by right].
  destruct (Z.eqb_spec c2 (ch "/")) as [-> | N]; [left; by eexists | by right].
Qed.

(** What [parse] tests for the two slashes. *)
Lemma hasSecondSlash_ok (url t : list Z) (i : nat) : At url i t ->
  (if hd 0 t =? ch "/" then c ← at0 url (S i); Some (c =? ch "/") else Some false) = Some (startsWithSlashes t).
Proof.
  intros HA. destruct t as [| c1 t]; [done |]. cbn [hd]. destruct (Z.eqb_spec c1 (ch "/")) as [-> | N].
  - rewrite (at0_at _ _ _ (at_cons _ _ _ _ HA)). cbn [mbind option_bind]. by destruct t.
  - apply Z.eqb_neq in N. destruct t as [| c2 t]; [done |]. cbn [startsWithSlashes]. by rewrite N.
Qed.

(** Parsing a text is reading its parts and writing them canonically; none of its
    assertions fails and it reads nothing outside the text and its terminator. *)
Lemma parse_ok (url originalString : list Z) : cText url -> wellSlashed url ->
  parse url originalString = Some (match splitURL url with Some r => kurlOf (buildParts r) | None => invalid originalString end).
Proof.
  intros Hu Hw. unfold parse, splitURL. rewrite (at0_at url 0 url (url_at_start url)). cbn [mbind option_bind].
  destruct (Z.eqb_spec (hd 0 url) 0) as [-> | N0]; [done |]. destruct (isSchemeFirstChar (hd 0 url)) eqn:Ef; cbn [negb]; [| done].
  pose proof (splitURL_scheme url Ef) as Hsc. destruct (scan_at isSchemeChar url 0 url (url_at_start url) ltac:(done)) as (-> & HA & Hs). cbn [mbind option_bind].
  pose proof (run_rest isSchemeChar url) as Er. unfold wellSlashed in Hw. set (scheme := run isSchemeChar url) in *. cbn [plus] in *. rewrite Hs. rewrite (at0_at _ _ _ HA). cbn [mbind option_bind].
  destruct (rest isSchemeChar url) as [| c t]; cbn [hd]; [done |]. destruct (Z.eqb_spec c (ch ":")) as [-> | N]; cbn [negb]; [| done].
  pose proof (at_cons _ _ _ _ HA) as HA1. rewrite (at0_at _ _ _ HA1). cbn [mbind option_bind].
  assert (Hfile : (if bool_decide (length scheme = 4%nat) then startsWithLetters url 0 (units "file") else Some false) = Some (isFileScheme scheme)) by (rewrite <- Er; apply file_scheme; by rewrite Er).
  assert (Hhttp := http_scheme scheme t ltac:(by rewrite Er) ltac:(apply Hsc)). rewrite Er in Hhttp.
  assert (Ht : cText t) by (destruct HA1 as [_ <-]; by apply Forall_drop).
  assert (Hno : assemble url originalString (length scheme) (hd 0 t =? ch "/") (isHTTPScheme scheme) (isFileScheme scheme) (noAuthority (S (length scheme))) =
    Some (let '(path, query, fragment) := splitEnd t in kurlOf (buildParts (mkRawURL scheme (hd 0 t =? ch "/") emptyAuthority path query fragment)))).
  { destruct (splitEnd t) as [[path query] fragment] eqn:Hend. apply (assemble_ok url originalString t); [done | done | done | by apply located_empty | apply authorityOk_empty | done | |].
    - intros Eh%Z.eqb_eq. eapply slash_path; [done | done |]. by rewrite Eh.
    - destruct HA1 as [L _]. cbn [emptyAuthority a_text length]. lia. }
  rewrite (hasSecondSlash_ok url t (S (length scheme)) HA1). cbn [mbind option_bind]. rewrite Hfile. cbn [mbind option_bind].
  destruct (startsWithLetters url 0 (units "http")) as [isHTTP |]; cbn [mbind option_bind] in Hhttp |- *; [| done]. rewrite Hhttp. cbn [mbind option_bind]. clear Hhttp Hfile.
  destruct (slashes_cases t) as [[t2 ->] | Hs2].
  - cbn [hd startsWithSlashes]. rewrite !Z.eqb_refl. cbn [andb orb]. pose proof (findAuthority_ok url t2 (length scheme) (isHTTPScheme scheme) (isFileScheme scheme) Hu HA1) as HF.
    destruct (splitAuthority (isHTTPScheme scheme || isFileScheme scheme) t2) as [[ra t3] |] eqn:Ea; [| by rewrite HF]. destruct HF as (a & -> & HL). cbn [mbind option_bind].
    destruct (splitAuthority_ok _ _ _ _ Ea) as [HO Ht3]. destruct (splitEnd t3) as [[path query] fragment] eqn:Hend. pose proof (l_at _ _ _ _ HL) as HA3.
    apply (assemble_ok url originalString t3); [done | done | done | done | done | done | |].
    + intros _. apply (slash_path t3 path query fragment); [destruct HA3 as [_ <-]; by apply Forall_drop | exact Hend |]. by destruct Ht3 as [[_ ->] | [H _]].
    + destruct HA1 as [L _]. cbn [length] in L. destruct Ht3 as [[-> ->] | [_ E]]; [cbn [emptyAuthority a_text length]; lia |]. rewrite E, length_app in L. lia.
  - assert (isNonFileHierarchicalScheme scheme = false) as ->.
    { destruct (isNonFileHierarchicalScheme scheme); [| done]. destruct (Hw eq_refl) as [t2 [= ->]]. done. }
    rewrite Hs2, andb_false_r. cbn [orb]. cbn [mbind option_bind]. rewrite Hno.
    destruct t as [| c1 [| c2 t2]]; [by destruct (splitEnd []) as [[path query] fragment] | by destruct (splitEnd [c1]) as [[path query] fragment] |].
    cbn [startsWithSlashes] in Hs2. rewrite Hs2. by destruct (splitEnd (c1 :: c2 :: t2)) as [[path query] fragment].
Qed.
