(* ===== verification/KURLProperties.v ===== *)
(** * KURL: what the offsets of a parsed URL are

    The string of a parsed URL is its parts one after the other, at the offsets the URL has,
    and parsing that string changes nothing. *)

From S2P Require Import Prelude KURL KURLParts KURLParse.

(** * KURL: a parsed URL parses to itself

    The canonical parts of a text, when nothing in them can be taken for an authority
    ([stable]), are read back from what [print] writes. *)

(** ** Escaping *)

Definition noTabs (s : list Z) : Prop := Forall (fun c => isTabOrNewline c = false) s.

(** A fact about what the bytes are escaped to is a check of the bytes. *)
Lemma escape_all (e : Z -> list Z) (f g : Z -> bool) (s : list Z) :
  forallb (fun c => implb (f c) (forallb g (e c))) (seqZ 0 256) = true -> cText s -> Forall (fun c => f c = true) s -> Forall (fun c => g c = true) (s ≫= e).
Proof.
  intros H Hs Hf. induction Hs as [| c s Hc Hs IH]; [constructor |]. apply list.Forall_cons in Hf as [Hfc Hf]. cbn [mbind list_bind]. apply list.Forall_app. split; [| by apply IH].
  pose proof (byte_check _ c H ltac:(lia)) as E. cbv beta in E. rewrite Hfc in E. cbn [implb] in E. apply list.Forall_forall. intros x Hx. rewrite forallb_forall in E. by apply E, list_elem_of_In.
Qed.

Lemma escape_fixed (e : Z -> list Z) (s : list Z) : Forall (fun c => equal (e c) [c] = true) s -> s ≫= e = s.
Proof. intros H. induction H as [| c s Hc H IH]; [done |]. cbn [mbind list_bind]. apply equal_eq in Hc. rewrite Hc. cbn [app]. by f_equal. Qed.

Lemma escape_idem (e : Z -> list Z) (s : list Z) : forallb (fun c => implb true (forallb (fun x => equal (e x) [x]) (e c))) (seqZ 0 256) = true -> cText s -> (s ≫= e) ≫= e = s ≫= e.
Proof. intros H Hs. apply escape_fixed. apply (escape_all e (fun _ => true)); [exact H | exact Hs |]. apply list.Forall_forall. done. Qed.

Definition isURLChar (c : Z) : bool := (0 <? c) && (c <? 127) && negb (isTabOrNewline c).

Lemma escapeBad_idem (s : list Z) : cText s -> appendEscapingBadChars (appendEscapingBadChars s) = appendEscapingBadChars s.
Proof. apply escape_idem. by vm_compute. Qed.

Lemma escapeNonHier_idem (s : list Z) : cText s -> escapeAndAppendNonHierarchicalPart (escapeAndAppendNonHierarchicalPart s) = escapeAndAppendNonHierarchicalPart s.
Proof. apply escape_idem. by vm_compute. Qed.

Lemma text_nonzero (s : list Z) : cText s -> Forall (fun c => negb (c =? 0) = true) s.
Proof. intros H. eapply list.Forall_impl; [exact H |]. intros c Hc. cbv beta in *. apply negb_true_iff, Z.eqb_neq. lia. Qed.

Lemma escapeBad_url (s : list Z) : cText s -> Forall (fun c => isURLChar c = true) (appendEscapingBadChars s).
Proof. intros Hs. apply (escape_all escapingBadChar (fun c => negb (c =? 0))); [by vm_compute | exact Hs | by apply text_nonzero]. Qed.

Lemma escapeNonHier_url (s : list Z) : cText s -> Forall (fun c => isURLChar c = true) (escapeAndAppendNonHierarchicalPart s).
Proof. intros Hs. apply (escape_all nonHierarchicalChar (fun c => negb (c =? 0))); [by vm_compute | exact Hs | by apply text_nonzero]. Qed.

Lemma escapeBad_path (s : list Z) : cText s -> Forall (fun c => isPathChar c = true) s -> Forall (fun c => isPathChar c = true) (appendEscapingBadChars s).
Proof. apply escape_all. by vm_compute. Qed.

Lemma escapeNonHier_path (s : list Z) : cText s -> Forall (fun c => isPathChar c = true) s -> Forall (fun c => isPathChar c = true) (escapeAndAppendNonHierarchicalPart s).
Proof. apply escape_all. by vm_compute. Qed.

Lemma escapeBad_query (s : list Z) : cText s -> Forall (fun c => isQueryChar c = true) s -> Forall (fun c => isQueryChar c = true) (appendEscapingBadChars s).
Proof. apply escape_all. by vm_compute. Qed.

Lemma escapeBad_keeps (c : Z) : 0 < c < 256 -> isTabOrNewline c = false -> keepsSegments escapingBadChar c.
Proof.
  intros Hc Ht Hs. pose proof (byte_check (fun c => isTabOrNewline c || (c =? ch "/") || (forallb (fun x => negb (x =? ch "/")) (escapingBadChar c) &&
    ((c =? ch ".") || match escapingBadChar c with x :: _ => negb (x =? ch ".") | [] => false end))) c ltac:(by vm_compute) ltac:(lia)) as E. cbv beta in E.
  rewrite Ht, (proj2 (Z.eqb_neq c (ch "/")) Hs) in E. cbn [orb] in E. apply andb_true_iff in E as [E1 E2]. split.
  - apply list.Forall_forall. intros x Hx. rewrite forallb_forall in E1. apply list_elem_of_In, E1 in Hx. apply negb_true_iff in Hx. by apply Z.eqb_neq.
  - intros Hd. rewrite (proj2 (Z.eqb_neq c (ch ".")) Hd) in E2. cbn [orb] in E2. destruct (escapingBadChar c) as [| x r]; [done |]. exists x, r. split; [done |].
    apply negb_true_iff in E2. by apply Z.eqb_neq.
Qed.

(** ** Paths *)

Lemma dropDots_members (Q : Z -> Prop) (kept segs : list (list Z)) : Forall (Forall Q) kept -> Forall (Forall Q) segs -> Forall (Forall Q) (dropDots kept segs).
Proof.
  revert kept. induction segs as [| seg segs IH]; intros kept Hk Hs; [by apply Forall_rev |]. apply list.Forall_cons in Hs as [H1 H2]. cbn [dropDots].
  assert (Ht : Forall (Forall Q) (tail kept)) by (destruct Hk; [constructor | done]).
  destruct (equal seg dot); [destruct segs; [apply Forall_rev; by constructor | by apply IH] |].
  destruct (equal seg dotDot); [destruct segs; [apply Forall_rev; by constructor | by apply IH] |]. apply IH; [by constructor | done].
Qed.

Lemma split_members (Q : Z -> Prop) (s : list Z) : Forall Q s -> Forall (Forall Q) (splitSlash s).
Proof.
  intros H. induction H as [| c s Hc H IH]; [by repeat constructor |]. cbn [splitSlash]. destruct (c =? ch "/"); [by constructor |].
  destruct (splitSlash s) as [| seg segs]; [by repeat constructor |]. apply list.Forall_cons in IH as [H1 H2]. constructor; [by constructor | done].
Qed.

Lemma join_members (Q : Z -> Prop) (segs : list (list Z)) : Q (ch "/") -> Forall (Forall Q) segs -> Forall Q (joinSlash segs).
Proof. intros Hq H. induction H as [| seg segs Hs H IH]; [constructor |]. cbn [joinSlash]. constructor; [done |]. by apply list.Forall_app. Qed.

Lemma removeDots_members (Q : Z -> Prop) (path : list Z) : Q (ch "/") -> Forall Q path -> Forall Q (removeDots path).
Proof.
  intros Hq H. destruct path as [| c t]; [constructor |]. apply list.Forall_cons in H as [_ H]. cbn [removeDots]. apply join_members; [done |].
  apply dropDots_members; [constructor | by apply split_members].
Qed.

(** The path is written once: its dots are gone and its characters are escaped. *)
Lemma path_idem (path : list Z) : cText path -> noTabs path ->
  appendEscapingBadChars (removeDots (appendEscapingBadChars (removeDots path))) = appendEscapingBadChars (removeDots path).
Proof.
  intros Hc Ht. assert (Hd : dotFree (appendEscapingBadChars (removeDots path))).
  { apply dotFree_escape; [done | done | | apply removeDots_dotFree]. assert (Hk : Forall (fun c => 0 < c < 256 /\ isTabOrNewline c = false) (removeDots path)).
    { apply removeDots_members; [done |]. apply list.Forall_and. done. }
    eapply list.Forall_impl; [exact Hk |]. intros c [H1 H2]. by apply escapeBad_keeps. }
  rewrite (removeDots_free _ Hd). apply escapeBad_idem, removeDots_members; [done | exact Hc].
Qed.

(** ** The authority is read back *)

Definition portDigits (port : list Z) : option (list Z) := match port with [] => None | _ :: digits => Some digits end.

Record writtenAuthority (P : Parts) : Prop := {
  w_user : Forall (fun c => isUserInfoChar c = true /\ c <> ch ":") (p_user P);
  w_password : Forall (fun c => isUserInfoChar c = true) (p_password P);
  w_host : hostOk (p_host P);
  w_port : p_port P = [] \/ exists digits, p_port P = ch ":" :: digits /\ Forall (fun c => isASCIIDigit c = true) digits;
  w_credentials : p_host P = [] -> p_port P = [] -> userInfoText P = [] }.

Definition endsSegment (t : list Z) : Prop := cText t /\ isPathSegmentEndChar (hd 0 t) = true.

Lemma segmentEnd_cases (t : list Z) : endsSegment t -> t = [] \/ exists c t', t = c :: t' /\ (c = ch "/" \/ c = ch "?" \/ c = ch "#").
Proof.
  intros [Ht H]. destruct t as [| c t]; [by left |]. right. exists c, t. split; [done |]. apply list.Forall_cons in Ht as [Hc _]. cbn [hd] in H. apply pathEnd_chars in H; [| lia].
  destruct H as [-> | H]; [lia | done].
Qed.

(** No class of the authority has the character that ends it. *)
Lemma segmentEnd_stops (f : Z -> bool) (t : list Z) : f 0 = false -> f (ch "/") = false -> f (ch "?") = false -> f (ch "#") = false -> endsSegment t -> f (hd 0 t) = false.
Proof. intros H0 H1 H2 H3 Ht. destruct (segmentEnd_cases _ Ht) as [-> | (c & t' & -> & [-> | [-> | ->]])]; done. Qed.

Lemma port_userInfo (P : Parts) : writtenAuthority P -> Forall (fun c => isUserInfoChar c = true) (p_port P).
Proof.
  intros HW. destruct (w_port _ HW) as [-> | (digits & -> & Hd)]; [constructor |]. constructor; [done |]. eapply list.Forall_impl; [exact Hd |]. intros c. apply digit_userInfo.
Qed.

Lemma host_userInfo (host : list Z) : Forall (fun c => isHostnameChar c = true) host -> Forall (fun c => isUserInfoChar c = true) host.
Proof. intros H. eapply list.Forall_impl; [exact H |]. intros c Hc. pose proof (hostname_userInfo c Hc) as E. rewrite !andb_true_iff in E. tauto. Qed.

Lemma userInfo_stop (P : Parts) (tail : list Z) : writtenAuthority P -> endsSegment tail ->
  match rest isUserInfoChar (p_host P ++ p_port P ++ tail) with [] => True | c :: _ => (c =? ch "@") = false /\ (c =? ch "[") || isPathSegmentEndChar c = true end.
Proof.
  intros HW Ht. destruct (w_host _ HW) as [Hh | (v & -> & Hv)]; [| done].
  rewrite !rest_app by (by apply port_userInfo || by apply host_userInfo). destruct (run_stop isUserInfoChar tail) as [_ ->]; [done | by apply segmentEnd_stops |].
  destruct (segmentEnd_cases _ Ht) as [-> | (c & t' & -> & [-> | [-> | ->]])]; done.
Qed.

Lemma colon_true (c : Z) : c <> ch ":" -> negb (isColon c) = true.
Proof. intros H. unfold isColon. by rewrite (proj2 (Z.eqb_neq c (ch ":")) H). Qed.

Lemma splitUserInfo_written (P : Parts) (tail : list Z) : writtenAuthority P -> endsSegment tail ->
  splitUserInfo (authorityText P ++ tail) = Some (negb (equal (userInfoText P) []), p_user P, p_password P, p_host P ++ p_port P ++ tail).
Proof.
  intros HW Ht. unfold splitUserInfo, authorityText, atText. assert (Hu : Forall (fun c => isUserInfoChar c = true) (p_user P)) by (eapply list.Forall_impl; [exact (w_user _ HW) |]; intros c Hc; apply Hc).
  assert (Hc : Forall (fun c => negb (isColon c) = true) (p_user P)) by (eapply list.Forall_impl; [exact (w_user _ HW) |]; intros c [_ N]; by apply colon_true).
  destruct (equal (userInfoText P) []) eqn:E; cbn [negb].
  - apply equal_eq in E. rewrite E. cbn [app]. rewrite <- !app_assoc. assert (En : p_user P = [] /\ p_password P = []).
    { unfold userInfoText, passwordText in E. apply app_nil in E as [-> E]. split; [done |]. destruct (equal (p_password P) []) eqn:E2; [by apply equal_eq in E2 | done]. }
    destruct En as [-> ->]. pose proof (userInfo_stop P tail HW Ht) as Hs. destruct (rest isUserInfoChar _) as [| c r]; [done |]. destruct Hs as [-> Hs]. by rewrite Hs.
  - rewrite <- !app_assoc. cbn [app]. assert (Hi : Forall (fun c => isUserInfoChar c = true) (userInfoText P)).
    { unfold userInfoText, passwordText. apply list.Forall_app. split; [done |]. destruct (equal (p_password P) []); [constructor | constructor; [done | exact (w_password _ HW)]]. }
    destruct (run_exact isUserInfoChar (userInfoText P) (ch "@" :: p_host P ++ p_port P ++ tail)) as [-> ->]; [done | exact Hi | done |]. cbn. f_equal. f_equal.
    unfold userInfoText, passwordText. destruct (equal (p_password P) []) eqn:E2.
    + apply equal_eq in E2. rewrite E2, run_app, rest_app by exact Hc. cbn [run rest List.tl tl]. by rewrite app_nil_r.
    + rewrite run_app, rest_app by exact Hc. cbn. by rewrite app_nil_r.
Qed.

Lemma splitHost_written (P : Parts) (tail : list Z) : writtenAuthority P -> endsSegment tail -> splitHost (p_host P ++ p_port P ++ tail) = Some (p_host P, p_port P ++ tail).
Proof.
  intros HW Ht. unfold splitHost. assert (Hstop : isHostnameChar (hd 0 (p_port P ++ tail)) = false).
  { destruct (w_port _ HW) as [-> | (digits & -> & _)]; [by apply segmentEnd_stops | done]. }
  destruct (w_host _ HW) as [Hh | (v & -> & Hv)].
  - destruct (run_exact isHostnameChar (p_host P) (p_port P ++ tail)) as [E1 E2]; [done | exact Hh | exact Hstop |]. destruct (p_host P ++ p_port P ++ tail) as [| c t] eqn:E.
    + apply app_nil in E as [-> E]. by rewrite E.
    + assert ((c =? ch "[") = false) as ->; [| by rewrite E1, E2]. destruct (p_host P) as [| c' h].
      * cbn [app] in E. destruct (w_port _ HW) as [Ep | (digits & Ep & _)]; rewrite Ep in E; cbn [app] in E; [| by injection E as <- _].
        subst tail. destruct (segmentEnd_cases _ Ht) as [? | (x & t' & [= -> _] & [-> | [-> | ->]])]; done.
      * injection E as -> _. apply list.Forall_cons in Hh as [Hc _]. pose proof (hostname_userInfo _ Hc) as U. rewrite !andb_true_iff, !negb_true_iff in U. tauto.
  - cbn [app]. change (ch "[" =? ch "[") with true. cbv iota. rewrite <- app_assoc. cbn [app].
    destruct (run_exact isIPv6Char v (ch "]" :: p_port P ++ tail)) as [-> ->]; [done | exact Hv | done |]. done.
Qed.

Lemma splitPort_written (P : Parts) (tail : list Z) : writtenAuthority P -> endsSegment tail -> splitPort (p_port P ++ tail) = (portDigits (p_port P), tail).
Proof.
  intros HW Ht. destruct (w_port _ HW) as [-> | (digits & -> & Hd)].
  - cbn [app portDigits]. unfold splitPort. destruct (segmentEnd_cases _ Ht) as [-> | (c & t' & -> & [-> | [-> | ->]])]; done.
  - cbn [app splitPort portDigits]. change (ch ":" =? ch ":") with true. cbv iota. destruct (run_exact isASCIIDigit digits tail) as [-> ->]; [done | exact Hd | by apply segmentEnd_stops | done].
Qed.

Lemma splitAuthority_written (P : Parts) (tail : list Z) (mayBeEmpty : bool) : writtenAuthority P -> endsSegment tail -> mayBeEmpty = true \/ authorityText P <> [] ->
  splitAuthority mayBeEmpty (authorityText P ++ tail) = Some (mkRaw (authorityText P) (p_user P) (p_password P) (p_host P) (portDigits (p_port P)), tail).
Proof.
  intros HW Ht Hm. unfold splitAuthority. rewrite (splitUserInfo_written _ _ HW Ht). cbn [mbind option_bind]. rewrite (splitHost_written _ _ HW Ht). cbn [mbind option_bind].
  rewrite (splitPort_written _ _ HW Ht). destruct Ht as [Ht1 Ht2]. rewrite Ht2. cbn [negb].
  assert (E : equal (p_host P) [] && bool_decide (portDigits (p_port P) = None) = true -> userInfoText P = [] /\ authorityText P = []).
  { intros [E1%equal_eq E2%bool_decide_eq_true]%andb_true_iff. assert (E3 : p_port P = []) by (by destruct (p_port P)). pose proof (w_credentials _ HW E1 E3) as E4. split; [done |].
    unfold authorityText, atText. rewrite E1, E3, E4. done. }
  rewrite length_app, Nat.add_sub, take_app_length. destruct (equal (p_host P) []), (bool_decide (portDigits (p_port P) = None)); cbn [andb] in *; rewrite ?andb_false_r; cbn [andb]; try done.
  destruct (E eq_refl) as [Eu Ea]. rewrite Eu, equal_refl. cbn [negb andb]. by destruct Hm as [-> | Hm].
Qed.

(** ** The end is read back *)

Definition fragmentText (fragment : option (list Z)) : list Z := match fragment with Some f => ch "#" :: f | None => [] end.
Definition queryOk (query : list Z) : Prop := (query = [] \/ head query = Some (ch "?")) /\ Forall (fun c => isQueryChar c = true) query.

Lemma splitEnd_written (path query : list Z) (fragment : option (list Z)) : Forall (fun c => isPathChar c = true) path -> queryOk query ->
  splitEnd (path ++ query ++ fragmentText fragment) = (path, query, fragment).
Proof.
  intros Hp [Hq1 Hq2]. unfold splitEnd. assert (Hf : isPathChar (hd 0 (fragmentText fragment)) = false /\ isQueryChar (hd 0 (fragmentText fragment)) = false) by (by destruct fragment).
  destruct Hf as [Hf1 Hf2]. destruct (run_exact isPathChar path (query ++ fragmentText fragment)) as [-> ->]; [done | exact Hp | |].
  - destruct Hq1 as [-> | Hq1]; [exact Hf1 |]. destruct query as [| c q]; [done |]. by injection Hq1 as ->.
  - assert (E : match fragmentText fragment with c :: t3 => if c =? ch "#" then Some t3 else None | [] => None end = fragment) by (by destruct fragment).
    destruct Hq1 as [-> | Hq1].
    + cbn [app]. destruct fragment as [f |]; [| done]. done.
    + destruct query as [| c q]; [done |]. injection Hq1 as ->. destruct (run_exact isQueryChar (ch "?" :: q) (fragmentText fragment)) as [-> ->]; [done | exact Hq2 | exact Hf2 |].
      cbn [app]. change (ch "?" =? ch "?") with true. cbv iota. by rewrite E.
Qed.

Lemma splitEnd_ok (t path query : list Z) (fragment : option (list Z)) : cText t -> splitEnd t = (path, query, fragment) ->
  t = path ++ query ++ fragmentText fragment /\ Forall (fun c => isPathChar c = true) path /\ queryOk query.
Proof.
  unfold splitEnd. intros Ht [= <- <- <-]. pose proof (run_rest isPathChar t) as E. pose proof (run_forall isPathChar t) as Hp. pose proof (rest_head isPathChar t ltac:(done)) as Hh.
  set (path := run isPathChar t) in *. set (t1 := rest isPathChar t) in *.
  assert (Hend : forall t2, cText t2 -> isQueryChar (hd 0 t2) = false -> t2 = fragmentText (match t2 with c :: t3 => if c =? ch "#" then Some t3 else None | [] => None end)).
  { intros [| c t2] H2 Hq; [done |]. apply list.Forall_cons in H2 as [Hc _]. cbn [hd] in Hq. unfold isQueryChar in Hq. rewrite (proj2 (Z.eqb_neq c 0)) in Hq by lia. cbn [negb andb] in Hq.
    apply negb_false_iff in Hq. rewrite Hq. apply Z.eqb_eq in Hq. by rewrite Hq. }
  assert (Ht1 : cText t1) by (rewrite <- E in Ht; apply list.Forall_app in Ht; apply Ht).
  assert (Hr : t1 = (match t1 with c :: _ => if c =? ch "?" then run isQueryChar t1 else [] | [] => [] end) ++ (match t1 with c :: _ => if c =? ch "?" then rest isQueryChar t1 else t1 | [] => [] end)).
  { destruct t1 as [| c t1']; [done |]. destruct (c =? ch "?"); [by rewrite run_rest | done]. }
  set (t2 := match t1 with c :: _ => if c =? ch "?" then rest isQueryChar t1 else t1 | [] => [] end) in *.
  split; [| split; [exact Hp |]].
  - rewrite <- E at 1. f_equal. rewrite Hr at 1. f_equal. apply Hend; [rewrite Hr in Ht1; apply list.Forall_app in Ht1; apply Ht1 |].
    unfold t2. destruct t1 as [| c t1'] eqn:E1; [done |]. destruct (c =? ch "?") eqn:Ec; [by apply rest_head |]. cbn [hd] in *. unfold isPathChar, isQueryChar in *. rewrite Ec in Hh. cbn [negb] in Hh. by rewrite andb_true_r in Hh.
  - destruct t1 as [| c t1']; [by split; [left | constructor] |]. destruct (c =? ch "?") eqn:Ec; [| by split; [left | constructor]]. split; [right | apply run_forall].
    apply Z.eqb_eq in Ec. by rewrite Ec.
Qed.

(** ** The parts of a text *)

Record readParts (r : RawURL) : Prop := {
  d_scheme : schemeOk (r_scheme r);
  d_authority : authorityOk (r_authority r);
  d_path : Forall (fun c => isPathChar c = true) (r_path r);
  d_query : queryOk (r_query r);
  d_text : cText (r_path r ++ r_query r ++ fragmentText (r_fragment r));
  d_hierarchical : r_hierarchical r = true -> r_path r = [] \/ head (r_path r) = Some (ch "/");
  d_opaque : r_hierarchical r = false -> r_authority r = emptyAuthority /\ hd 0 (r_path r) <> ch "/" }.

(** What follows the scheme and its colon is at the end of the text. *)
Lemma splitURL_inv (url : list Z) (r : RawURL) : splitURL url = Some r -> exists t t3,
  url = run isSchemeChar url ++ ch ":" :: t /\ r_scheme r = run isSchemeChar url /\ isSchemeFirstChar (hd 0 url) = true /\ r_hierarchical r = (hd 0 t =? ch "/") /\
  splitEnd t3 = (r_path r, r_query r, r_fragment r) /\
  ((r_authority r = emptyAuthority /\ t3 = t) \/
   exists t2, t = ch "/" :: ch "/" :: t2 /\ splitAuthority (isHTTPScheme (r_scheme r) || isFileScheme (r_scheme r)) t2 = Some (r_authority r, t3)).
Proof.
  unfold splitURL. destruct (isSchemeFirstChar (hd 0 url)) eqn:Ef; cbn [negb]; [| done]. pose proof (run_rest isSchemeChar url) as E. set (scheme := run isSchemeChar url) in *.
  destruct (rest isSchemeChar url) as [| c t]; [done |]. destruct (Z.eqb_spec c (ch ":")) as [-> | N]; cbn [negb]; [| done]. intros H. exists t.
  destruct (slashes_cases t) as [[t2 ->] | Hs].
  - rewrite !Z.eqb_refl in H. cbn [andb] in H. destruct (splitAuthority _ t2) as [[a t3] |] eqn:Ea; [| done]. exists t3. destruct (splitEnd t3) as [[path query] fragment] eqn:Ee. injection H as <-.
    cbn [r_scheme r_hierarchical r_authority r_path r_query r_fragment]. do 5 (split; [done |]). right. by exists t2.
  - exists t. assert (H' : (let '(path, query, fragment) := splitEnd t in Some (mkRawURL scheme (hd 0 t =? ch "/") emptyAuthority path query fragment)) = Some r).
    { destruct t as [| c1 [| c2 t2]]; [done | done |]. cbn [startsWithSlashes] in Hs. by rewrite Hs in H. }
    destruct (splitEnd t) as [[path query] fragment] eqn:Ee. injection H' as <-. cbn [r_scheme r_hierarchical r_authority r_path r_query r_fragment]. do 5 (split; [done |]). by left.
Qed.

Lemma splitURL_read (url : list Z) (r : RawURL) : cText url -> splitURL url = Some r -> readParts r.
Proof.
  intros Hu H. destruct (splitURL_inv _ _ H) as (t & t3 & E & Es & Ef & Eh & Ee & Ha). assert (Ht : cText t) by (rewrite E in Hu; apply list.Forall_app in Hu as [_ Hu]; apply list.Forall_cons in Hu; apply Hu).
  assert (H3 : authorityOk (r_authority r) /\ cText t3 /\ (r_hierarchical r = true -> isPathSegmentEndChar (hd 0 t3) = true) /\ (r_hierarchical r = false -> r_authority r = emptyAuthority /\ hd 0 t3 <> ch "/")).
  { destruct Ha as [[-> ->] | (t2 & -> & Ha)].
    - split; [apply authorityOk_empty |]. split; [done |]. rewrite Eh. split; [by intros ->%Z.eqb_eq | by intros ?%Z.eqb_neq].
    - destruct (splitAuthority_ok _ _ _ _ Ha) as [HO Hc]. split; [done |]. rewrite Eh. split; [| split; [| done]].
      + destruct Hc as [[_ ->] | [_ Hc]]; [done |]. do 2 (apply list.Forall_cons in Ht as [_ Ht]). rewrite Hc in Ht. apply list.Forall_app in Ht. apply Ht.
      + intros _. by destruct Hc as [[_ ->] | [Hc _]]. }
  destruct H3 as (HO & Ht3 & Hsl & Hop). destruct (splitEnd_ok _ _ _ _ Ht3 Ee) as (E3 & Hp & Hq). split.
  - rewrite Es. by apply splitURL_scheme.
  - exact HO.
  - exact Hp.
  - exact Hq.
  - by rewrite <- E3.
  - intros Hh. eapply slash_path; [exact Ht3 | exact Ee | by apply Hsl].
  - intros Hh. destruct (Hop Hh) as [Ea Hn]. split; [done |]. intros Hs. apply Hn. rewrite E3. destruct (r_path r) as [| c p]; [done | exact Hs].
Qed.

(** ** The canonical parts *)

Definition fullAuthority (r : RawURL) : bool :=
  if isFileScheme (r_scheme r) then negb (degenerate r) else haveNonHost (r_authority r) || negb (equal (a_host (r_authority r)) []).
Definition hostDropped (r : RawURL) : bool := isFileScheme (r_scheme r) && isLocalhost (a_text (r_authority r)) && negb (haveNonHost (r_authority r)).
Definition canonicalHost (scheme host : list Z) : list Z := if isCanonicalHostnameLowercaseForScheme scheme then lower host else host.
Definition canonicalPort (scheme host : list Z) (port : option (list Z)) : list Z :=
  match port with
  | Some digits => if (negb (equal digits []) && negb (isDefaultPortForScheme digits scheme)) || equal host [] then ch ":" :: digits else []
  | None => []
  end.
Definition canonicalPath (r : RawURL) : list Z :=
  if equal (r_path r) [] then if isHTTPScheme (r_scheme r) || isFileScheme (r_scheme r) then [ch "/"] else []
  else if r_hierarchical r then appendEscapingBadChars (removeDots (r_path r)) else escapeAndAppendNonHierarchicalPart (r_path r).

Lemma buildParts_eq (r : RawURL) : let a := r_authority r in let scheme := lower (r_scheme r) in
  buildParts r = mkParts scheme (isFileScheme (r_scheme r) || fullAuthority r) (if fullAuthority r then a_user a else []) (if fullAuthority r then a_password a else [])
    (if fullAuthority r && negb (hostDropped r) then canonicalHost scheme (a_host a) else []) (if fullAuthority r then canonicalPort scheme (a_host a) (a_port a) else [])
    (canonicalPath r) (appendEscapingBadChars (r_query r)) (match r_fragment r with Some f => ch "#" :: escapeAndAppendNonHierarchicalPart f | None => [] end).
Proof. done. Qed.

Lemma canonicalHost_ok (scheme host : list Z) : hostOk host -> hostOk (canonicalHost scheme host).
Proof.
  intros H. unfold canonicalHost. destruct (isCanonicalHostnameLowercaseForScheme scheme); [| done]. destruct H as [H | (v & -> & H)]; [left | right; exists (lower v)].
  - unfold lower. rewrite Forall_fmap. eapply list.Forall_impl; [exact H |]. intros c Hc. apply hostname_lower in Hc. by apply andb_true_iff in Hc as [Hc _].
  - unfold lower. rewrite fmap_cons, fmap_app. split; [done |]. rewrite Forall_fmap. eapply list.Forall_impl; [exact H |]. intros c Hc. apply ipv6_lower in Hc. by apply andb_true_iff in Hc as [Hc _].
Qed.

Lemma lower_fixed (s : list Z) : Forall (fun c => toASCIILower (toASCIILower c) = toASCIILower c) s -> lower (lower s) = lower s.
Proof. intros H. unfold lower. induction H as [| c s Hc H IH]; [done |]. rewrite !fmap_cons, IH. by f_equal. Qed.

Lemma canonicalHost_idem (scheme host : list Z) : hostOk host -> canonicalHost scheme (canonicalHost scheme host) = canonicalHost scheme host.
Proof.
  intros H. unfold canonicalHost. destruct (isCanonicalHostnameLowercaseForScheme scheme); [| done]. apply lower_fixed. destruct H as [H | (v & -> & H)].
  - eapply list.Forall_impl; [exact H |]. intros c Hc. apply hostname_lower in Hc. apply andb_true_iff in Hc as [_ Hc]. by apply Z.eqb_eq.
  - constructor; [done |]. apply list.Forall_app. split; [| by repeat constructor]. eapply list.Forall_impl; [exact H |]. intros c Hc. apply ipv6_lower in Hc. apply andb_true_iff in Hc as [_ Hc]. by apply Z.eqb_eq.
Qed.

Lemma canonicalHost_nil (scheme host : list Z) : canonicalHost scheme host = [] <-> host = [].
Proof. unfold canonicalHost. destruct (isCanonicalHostnameLowercaseForScheme scheme); [| done]. unfold lower. destruct host; done. Qed.

Lemma haveNonHost_false (a : RawAuthority) : haveNonHost a = false <-> a_user a = [] /\ a_password a = [] /\ a_port a = None.
Proof. unfold haveNonHost. rewrite !orb_false_iff, !negb_false_iff, !equal_eq, bool_decide_eq_true. tauto. Qed.

Lemma built_written (r : RawURL) : authorityOk (r_authority r) -> writtenAuthority (buildParts r).
Proof.
  intros HO. rewrite buildParts_eq. cbv zeta. set (a := r_authority r) in *. split; cbn [p_user p_password p_host p_port].
  - destruct (fullAuthority r); [apply (o_user _ HO) | constructor].
  - destruct (fullAuthority r); [apply (o_password _ HO) | constructor].
  - destruct (fullAuthority r && negb (hostDropped r)); [apply canonicalHost_ok, (o_host _ HO) | left; constructor].
  - destruct (fullAuthority r); [| by left]. unfold canonicalPort. destruct (a_port a) as [digits |] eqn:Ep; [| by left]. destruct (_ || equal (a_host a) []); [| by left].
    right. exists digits. split; [done | by apply (o_port _ HO)].
  - unfold userInfoText, passwordText. cbn [p_user p_password]. destruct (fullAuthority r); [| done]. cbn [andb]. intros Hh Hp.
    assert (E : a_user a = [] /\ a_password a = []); [| by destruct E as [-> ->]]. destruct (hostDropped r) eqn:Ed; cbn [negb] in Hh.
    + unfold hostDropped in Ed. rewrite !andb_true_iff, negb_true_iff in Ed. destruct Ed as [_ Ed]. apply haveNonHost_false in Ed. by destruct Ed as (H1 & H2 & _).
    + apply canonicalHost_nil in Hh. apply (o_credentials _ HO); [done |]. unfold canonicalPort in Hp. destruct (a_port a); [| done]. by rewrite Hh, equal_refl, orb_true_r in Hp.
Qed.

(** A part without tabs is not escaped away. *)
Lemma escape_head (e : Z -> list Z) (c : Z) (s : list Z) : forallb (fun c => isTabOrNewline c || match e c with x :: _ => (c =? ch "/") || negb (x =? ch "/") | [] => false end) (seqZ 0 256) = true ->
  0 < c < 256 -> isTabOrNewline c = false -> c <> ch "/" -> exists x t, (c :: s) ≫= e = x :: t /\ x <> ch "/".
Proof.
  intros H Hc Ht Hn. pose proof (byte_check _ c H ltac:(lia)) as E. cbv beta in E. rewrite Ht, (proj2 (Z.eqb_neq c (ch "/")) Hn) in E. cbn [orb] in E. cbn [mbind list_bind].
  destruct (e c) as [| x t]; [done |]. eexists x, _. split; [done |]. apply negb_true_iff in E. by apply Z.eqb_neq.
Qed.

(** What [canonicalPath] begins with. *)
Lemma canonicalPath_cases (r : RawURL) : readParts r -> noTabs (r_path r) ->
  (r_path r = [] /\ canonicalPath r = (if isHTTPScheme (r_scheme r) || isFileScheme (r_scheme r) then [ch "/"] else [])) \/
  (r_path r <> [] /\ r_hierarchical r = true /\ head (canonicalPath r) = Some (ch "/") /\ canonicalPath r = appendEscapingBadChars (removeDots (r_path r))) \/
  (r_path r <> [] /\ r_hierarchical r = false /\ (exists x t, canonicalPath r = x :: t /\ x <> ch "/") /\ canonicalPath r = escapeAndAppendNonHierarchicalPart (r_path r)).
Proof.
  intros HR Ht. pose proof (d_hierarchical _ HR) as Hh. pose proof (d_opaque _ HR) as Ho. pose proof (d_text _ HR) as Hc. apply list.Forall_app in Hc as [Hc _]. unfold canonicalPath.
  destruct (r_path r) as [| c p]; [left; done |]. right. cbn [equal]. rewrite (equal_neq (c :: p) []) by done. destruct (r_hierarchical r) eqn:Er.
  - left. split; [done |]. split; [done |]. split; [| done]. destruct (removeDots_head (c :: p)) as [? | E]; [done |]. destruct (removeDots (c :: p)) as [| x q]; [done |]. by injection E as ->.
  - right. split; [done |]. split; [done |]. split; [| done]. destruct (Ho eq_refl) as [_ Hn]. apply list.Forall_cons in Hc as [Hc _]. apply list.Forall_cons in Ht as [Ht _].
    apply escape_head; [by vm_compute | done | done | exact Hn].
Qed.

(** ** Reading what was written *)

Definition opensAuthority (path : list Z) : bool :=
  match path with c1 :: c2 :: c :: _ => (c1 =? ch "/") && (c2 =? ch "/") && negb (isPathSegmentEndChar c) | _ => false end.

(** Nothing in the parts is taken for an authority that is not there, or for none when it is. *)
Definition stable (P : Parts) : bool :=
  (p_slashes P || negb (isNonFileHierarchicalScheme (p_scheme P))) &&
  (if isFileScheme (p_scheme P) then negb (isLocalhost (authorityText P)) && (hd 0 (p_path P) =? ch "/") else p_slashes P || negb (opensAuthority (p_path P))).

(** What the text written for [P] is read as. *)
Definition rereadURL (P : Parts) : RawURL :=
  mkRawURL (p_scheme P) (p_slashes P || (hd 0 (p_path P) =? ch "/"))
    (if p_slashes P then mkRaw (authorityText P) (p_user P) (p_password P) (p_host P) (portDigits (p_port P)) else emptyAuthority)
    (p_path P) (p_query P) (portDigits (p_fragment P)).

Record rereadable (P : Parts) : Prop := {
  v_scheme : schemeOk (p_scheme P);
  v_written : writtenAuthority P;
  v_path : Forall (fun c => isPathChar c = true) (p_path P);
  v_query : queryOk (p_query P);
  v_fragment : p_fragment P = fragmentText (portDigits (p_fragment P));
  v_text : cText (p_path P ++ p_query P ++ p_fragment P);
  v_slashes : p_slashes P = true -> p_path P = [] \/ head (p_path P) = Some (ch "/");
  v_plain : p_slashes P = false -> authorityText P = [] /\ isHTTPScheme (p_scheme P) || isFileScheme (p_scheme P) = false /\ opensAuthority (p_path P) = false;
  v_empty : isHTTPScheme (p_scheme P) || isFileScheme (p_scheme P) = true \/ p_slashes P = false \/ authorityText P <> [] }.

Lemma tail_ends (P : Parts) : rereadable P -> p_path P = [] \/ head (p_path P) = Some (ch "/") -> endsSegment (p_path P ++ p_query P ++ p_fragment P).
Proof.
  intros HV Hp. split; [exact (v_text _ HV) |]. destruct Hp as [-> | Hp]; [| destruct (p_path P) as [| c p]; [done | by injection Hp as ->]]. cbn [app].
  destruct (v_query _ HV) as [[-> | Hq] _]; [| destruct (p_query P) as [| c q]; [done | by injection Hq as ->]]. cbn [app]. rewrite (v_fragment _ HV). by destruct (portDigits (p_fragment P)).
Qed.

Lemma no_authority (t : list Z) : endsSegment t -> splitAuthority false t = Some (emptyAuthority, ch "/" :: ch "/" :: t).
Proof.
  intros Ht. set (P := mkParts [] false [] [] [] [] [] [] []). assert (HW : writtenAuthority P) by (split; [constructor | constructor | left; constructor | by left | done]). unfold splitAuthority.
  pose proof (splitUserInfo_written P t HW Ht) as E1. pose proof (splitHost_written P t HW Ht) as E2. pose proof (splitPort_written P t HW Ht) as E3. cbn [app] in *.
  change (authorityText P) with (@nil Z) in E1. cbn [app P p_host p_port] in E1, E2, E3. rewrite E1. cbn [mbind option_bind]. rewrite E2. cbn [mbind option_bind]. rewrite E3. destruct Ht as [_ ->]. done.
Qed.

Lemma splitURL_print (P : Parts) : rereadable P -> splitURL (print P) = Some (rereadURL P).
Proof.
  intros HV. destruct (v_scheme _ HV) as [(c & s & Es & Hc) Hs]. unfold splitURL, print, prefixText. set (tail := p_path P ++ p_query P ++ p_fragment P).
  assert (Eh : hd 0 ((p_scheme P ++ ch ":" :: (if p_slashes P then [ch "/"; ch "/"] else [])) ++ authorityText P ++ tail) = c) by (by rewrite Es). rewrite Eh, Hc. cbn [negb].
  rewrite <- app_assoc. cbn [app]. destruct (run_exact isSchemeChar (p_scheme P) (ch ":" :: (if p_slashes P then [ch "/"; ch "/"] else []) ++ authorityText P ++ tail)) as [-> ->]; [done | exact Hs | done |].
  rewrite Z.eqb_refl. cbn [negb]. assert (Ee : splitEnd tail = (p_path P, p_query P, portDigits (p_fragment P))).
  { unfold tail. rewrite (v_fragment _ HV) at 1. apply splitEnd_written; [exact (v_path _ HV) | exact (v_query _ HV)]. }
  unfold rereadURL. destruct (p_slashes P) eqn:Esl.
  - cbn [app]. rewrite Z.eqb_refl. cbn [andb]. assert (Ht : endsSegment tail) by (apply tail_ends; [exact HV | by apply (v_slashes _ HV)]).
    rewrite splitAuthority_written; [by rewrite Ee | exact (v_written _ HV) | exact Ht |]. destruct (v_empty _ HV) as [H | [H | H]]; [by left | congruence | by right].
  - destruct (v_plain _ HV Esl) as (Ea & Eno & Eop). rewrite Ea, Eno. cbn [app orb]. assert (Hhd : (hd 0 tail =? ch "/") = (hd 0 (p_path P) =? ch "/")).
    { unfold tail. destruct (p_path P) as [| x p]; [| done]. cbn [app]. destruct (v_query _ HV) as [[-> | Hq] _]; [| destruct (p_query P) as [| x q]; [done | by injection Hq as ->]].
      cbn [app]. rewrite (v_fragment _ HV). by destruct (portDigits (p_fragment P)). }
    rewrite Hhd. destruct (slashes_cases tail) as [[t2 E] | Hsl].
    + assert (Ht2 : endsSegment t2).
      { split; [pose proof (v_text _ HV) as Ht; fold tail in Ht; rewrite E in Ht; do 2 (apply list.Forall_cons in Ht as [_ Ht]); exact Ht |].
        unfold tail in E. destruct (p_path P) as [| x1 [| x2 [| x3 p]]] eqn:Ep.
        - rewrite (v_fragment _ HV) in E. destruct (v_query _ HV) as [[Eq | Hq] _]; [rewrite Eq in E; by destruct (portDigits (p_fragment P)) |].
          destruct (p_query P) as [| x q]; [done |]. injection Hq as ->. discriminate E.
        - cbn [app] in E. injection E as -> E. rewrite (v_fragment _ HV) in E. destruct (v_query _ HV) as [[Eq | Hq] _]; [rewrite Eq in E; by destruct (portDigits (p_fragment P)) |].
          destruct (p_query P) as [| x q]; [done |]. injection Hq as ->. discriminate E.
        - cbn [app] in E. injection E as _ _ <-. destruct (v_query _ HV) as [[-> | Hq] _]; [| destruct (p_query P) as [| x q]; [done | by injection Hq as ->]].
          cbn [app]. rewrite (v_fragment _ HV). by destruct (portDigits (p_fragment P)).
        - cbn [app] in E. injection E as -> -> <-. cbn [opensAuthority] in Eop. rewrite Z.eqb_refl in Eop. cbn [andb] in Eop. by apply negb_false_iff in Eop. }
      rewrite E. rewrite Z.eqb_refl. cbn [andb]. rewrite (no_authority _ Ht2), <- E, Ee. done.
    + assert (Em : (match tail with c1 :: c2 :: t2 => if (c1 =? ch "/") && (c2 =? ch "/") then splitAuthority false t2 else Some (emptyAuthority, tail) | _ => Some (emptyAuthority, tail) end) = Some (emptyAuthority, tail)).
      { destruct tail as [| c1 [| c2 t2]]; [done | done |]. cbn [startsWithSlashes] in Hsl. by rewrite Hsl. }
      rewrite Em, Ee. done.
Qed.

(** ** The parts of a text are canonical *)

Lemma http_nonFile (scheme : list Z) : isHTTPScheme scheme = true -> isFileScheme scheme = false /\ isNonFileHierarchicalScheme (lower scheme) = true.
Proof. unfold isHTTPScheme, isFileScheme. intros [E | E]%orb_true_iff; apply equal_eq in E; rewrite E; done. Qed.

Lemma schemeOk_lower (scheme : list Z) : schemeOk scheme -> schemeOk (lower scheme) /\ lower (lower scheme) = lower scheme.
Proof.
  intros [(c & s & -> & Hc) Hs]. split; [| by apply lower_idem]. split.
  - exists (toASCIILower c), (lower s). split; [done |]. pose proof (schemeFirst_chars c Hc) as E. rewrite !andb_true_iff in E. tauto.
  - unfold lower. rewrite Forall_fmap. eapply list.Forall_impl; [exact Hs |]. intros x Hx. cbv beta in *. apply scheme_facts in Hx. tauto.
Qed.

Lemma scheme_lower (scheme : list Z) : schemeOk scheme -> isHTTPScheme (lower scheme) = isHTTPScheme scheme /\ isFileScheme (lower scheme) = isFileScheme scheme.
Proof. intros H. unfold isHTTPScheme, isFileScheme. by rewrite (proj2 (schemeOk_lower _ H)). Qed.

Lemma not_full (P : Parts) (r : RawURL) : P = buildParts r -> fullAuthority r = false -> authorityText P = [].
Proof. intros -> Hf. rewrite buildParts_eq. cbv zeta. rewrite Hf. done. Qed.

(** Away from files, the authority is written exactly when it has text. *)
Lemma full_text (r : RawURL) : authorityOk (r_authority r) -> isFileScheme (r_scheme r) = false -> fullAuthority r = negb (equal (p_host (buildParts r)) []) || negb (equal (p_port (buildParts r)) []).
Proof.
  intros HO Hf. rewrite buildParts_eq. cbv zeta. cbn [p_host p_port]. unfold hostDropped. rewrite Hf. cbn [andb negb]. rewrite andb_true_r. destruct (fullAuthority r) eqn:E; [| done].
  unfold fullAuthority in E. rewrite Hf in E. destruct (equal (a_host (r_authority r)) []) eqn:Eh.
  - cbn [negb] in E. rewrite orb_false_r in E. apply equal_eq in Eh. rewrite Eh. unfold haveNonHost in E. destruct (a_port (r_authority r)) as [digits |] eqn:Ep.
    + cbn [canonicalPort]. rewrite equal_refl, orb_true_r. rewrite (equal_neq (ch ":" :: digits) []) by done. by rewrite orb_true_r.
    + destruct (o_credentials _ HO Eh Ep) as [E1 E2]. by rewrite E1, E2 in E.
  - rewrite (equal_neq (canonicalHost _ _) []); [done |]. intros H%canonicalHost_nil. by rewrite H, equal_refl in Eh.
Qed.

Lemma text_nonempty (P : Parts) : negb (equal (p_host P) []) || negb (equal (p_port P) []) = true -> authorityText P <> [].
Proof.
  intros H E. unfold authorityText in E. apply app_nil in E as [_ E]. apply app_nil in E as [_ E]. apply app_nil in E as [E1 E2]. by rewrite E1, E2 in H.
Qed.

Lemma url_char_text (s : list Z) : Forall (fun c => isURLChar c = true) s -> cText s.
Proof. intros H. eapply list.Forall_impl; [exact H |]. intros c Hc. cbv beta in *. unfold isURLChar in Hc. rewrite !andb_true_iff, !Z.ltb_lt in Hc. lia. Qed.

Lemma built_text (r : RawURL) : readParts r ->
  Forall (fun c => isURLChar c = true) (p_path (buildParts r)) /\ Forall (fun c => isURLChar c = true) (p_query (buildParts r)) /\ Forall (fun c => isURLChar c = true) (p_fragment (buildParts r)).
Proof.
  intros HR. rewrite buildParts_eq. cbv zeta. cbn [p_path p_query p_fragment]. pose proof (d_text _ HR) as Ht. apply list.Forall_app in Ht as [H1 Ht]. apply list.Forall_app in Ht as [H2 H3].
  split; [| split; [by apply escapeBad_url |]].
  - unfold canonicalPath. destruct (equal (r_path r) []); [destruct (_ || isFileScheme (r_scheme r)); by repeat constructor |]. destruct (r_hierarchical r); [| by apply escapeNonHier_url].
    apply escapeBad_url, removeDots_members; [done | exact H1].
  - destruct (r_fragment r) as [f |]; [| constructor]. cbn [fragmentText] in H3. apply list.Forall_cons in H3 as [_ H3]. constructor; [done | by apply escapeNonHier_url].
Qed.

Lemma built_rereadable (r : RawURL) : readParts r -> noTabs (r_path r) -> stable (buildParts r) = true -> rereadable (buildParts r).
Proof.
  intros HR Ht Hst. unfold stable in Hst. apply andb_true_iff in Hst as [Hs1 Hs2]. pose proof (d_scheme _ HR) as Hsc. destruct (scheme_lower _ Hsc) as [Eh Ef].
  pose proof (built_text r HR) as (T1 & T2 & T3). pose proof (full_text r (d_authority _ HR)) as Hfull. pose proof (not_full (buildParts r) r eq_refl) as Hnot.
  pose proof (canonicalPath_cases r HR Ht) as Hp. set (P := buildParts r) in *. pose proof (buildParts_eq r) as EP. cbv zeta in EP. fold P in EP.
  assert (E1 : p_scheme P = lower (r_scheme r)) by (by rewrite EP). assert (E2 : p_slashes P = isFileScheme (r_scheme r) || fullAuthority r) by (by rewrite EP).
  assert (E3 : p_path P = canonicalPath r) by (by rewrite EP). rewrite E1, Ef in Hs2. rewrite E1 in Hs1.
  pose proof (d_text _ HR) as Htx. apply list.Forall_app in Htx as [X1 Htx]. apply list.Forall_app in Htx as [X2 X3]. split.
  - rewrite E1. by apply schemeOk_lower.
  - apply built_written, (d_authority _ HR).
  - rewrite E3. unfold canonicalPath. destruct (equal (r_path r) []); [destruct (_ || isFileScheme (r_scheme r)); by repeat constructor |].
    destruct (r_hierarchical r); [| by apply escapeNonHier_path; [| apply (d_path _ HR)]]. apply escapeBad_path; (apply removeDots_members; [done |]); [exact X1 | apply (d_path _ HR)].
  - assert (Eq : p_query P = appendEscapingBadChars (r_query r)) by (by rewrite EP). rewrite Eq. destruct (d_query _ HR) as [Hq1 Hq2]. split; [| by apply escapeBad_query].
    destruct Hq1 as [-> | Hq1]; [by left | right]. destruct (r_query r) as [| c q]; [done |]. by injection Hq1 as ->.
  - assert (Eq : p_fragment P = match r_fragment r with Some f => ch "#" :: escapeAndAppendNonHierarchicalPart f | None => [] end) by (by rewrite EP). rewrite Eq. by destruct (r_fragment r).
  - repeat (apply list.Forall_app; split); by apply url_char_text.
  - intros Hsl. rewrite E3 in Hs2 |- *. destruct (isFileScheme (r_scheme r)) eqn:Efile.
    + apply andb_true_iff in Hs2 as [_ Hs2]. apply Z.eqb_eq in Hs2. right. destruct (canonicalPath r); [done |]. cbn [hd] in Hs2. by subst.
    + rewrite E2 in Hsl. cbn [orb] in Hsl. destruct Hp as [(_ & ->) | [(_ & _ & Hp & _) | (_ & Hh & _)]]; [destruct (_ || false); [by right | by left] | by right |].
      destruct (d_opaque _ HR Hh) as [Ea _]. unfold fullAuthority in Hsl. rewrite Efile, Ea in Hsl. done.
  - intros Hsl. rewrite Hsl in Hs1, Hs2. cbn [orb] in Hs1, Hs2. rewrite E2 in Hsl. apply orb_false_iff in Hsl as [Efile Hsl]. rewrite Efile in Hs2. apply negb_true_iff in Hs1, Hs2.
    split; [by apply Hnot |]. split; [| done]. rewrite E1, Eh, Ef, Efile, orb_false_r. destruct (isHTTPScheme (r_scheme r)) eqn:Ehttp; [| done]. apply http_nonFile in Ehttp as [_ H]. congruence.
  - rewrite E1, Eh, Ef. destruct (isFileScheme (r_scheme r)) eqn:Efile; [left; apply orb_true_r |]. right. rewrite E2. cbn [orb]. destruct (fullAuthority r) eqn:Efu; [right | by left].
    apply text_nonempty. symmetry. by apply Hfull.
Qed.

Lemma reread_host (r : RawURL) : authorityOk (r_authority r) -> let P := buildParts r in canonicalHost (p_scheme P) (p_host P) = p_host P.
Proof.
  intros HO P. unfold P. rewrite buildParts_eq. cbv zeta. cbn [p_scheme p_host]. destruct (fullAuthority r && negb (hostDropped r)); [| by apply canonicalHost_nil].
  apply canonicalHost_idem, (o_host _ HO).
Qed.

Lemma reread_port (r : RawURL) : let P := buildParts r in canonicalPort (p_scheme P) (p_host P) (portDigits (p_port P)) = p_port P.
Proof.
  intros P. unfold P. rewrite buildParts_eq. cbv zeta. cbn [p_scheme p_host p_port]. set (a := r_authority r). set (scheme := lower (r_scheme r)).
  destruct (fullAuthority r); [| done]. cbn [andb]. unfold canonicalPort at 2 3. destruct (a_port a) as [digits |] eqn:Ep; [| done].
  destruct (negb (equal digits []) && negb (isDefaultPortForScheme digits scheme)) eqn:E1; cbn [orb].
  - cbn [portDigits canonicalPort]. by rewrite E1.
  - destruct (equal (a_host a) []) eqn:Eh; [| done]. cbn [portDigits canonicalPort]. apply equal_eq in Eh. rewrite Eh.
    assert (canonicalHost scheme [] = []) as -> by (by apply canonicalHost_nil). destruct (negb (hostDropped r)); by rewrite E1.
Qed.

Lemma reread_path (r : RawURL) : readParts r -> noTabs (r_path r) -> stable (buildParts r) = true -> canonicalPath (rereadURL (buildParts r)) = p_path (buildParts r).
Proof.
  intros HR Ht Hst. pose proof (v_slashes _ (built_rereadable r HR Ht Hst)) as Hsl. pose proof (canonicalPath_cases r HR Ht) as Hp. destruct (scheme_lower _ (d_scheme _ HR)) as [Eh Ef].
  pose proof (d_text _ HR) as Htx. apply list.Forall_app in Htx as [X1 _]. set (P := buildParts r) in *. assert (E3 : p_path P = canonicalPath r) by done.
  assert (E4 : canonicalPath (rereadURL P) = if equal (p_path P) [] then if isHTTPScheme (r_scheme r) || isFileScheme (r_scheme r) then [ch "/"] else []
    else if p_slashes P || (hd 0 (p_path P) =? ch "/") then appendEscapingBadChars (removeDots (p_path P)) else escapeAndAppendNonHierarchicalPart (p_path P)) by (rewrite <- Eh, <- Ef; done).
  rewrite E4. rewrite E3 in *. destruct Hp as [(_ & ->) | [(_ & _ & Hh & Ep) | (_ & _ & (x & t & Hh & Hn) & Ep)]].
  - destruct (isHTTPScheme (r_scheme r) || isFileScheme (r_scheme r)); [| done]. cbn [hd]. change (ch "/" =? ch "/") with true. rewrite orb_true_r. done.
  - destruct (canonicalPath r) as [| c p] eqn:Ec; [done |]. injection Hh as ->. cbn [hd]. change (ch "/" =? ch "/") with true. rewrite orb_true_r, equal_neq, Ep by done. by apply path_idem.
  - rewrite Hh in *. rewrite equal_neq by done. cbn [hd]. rewrite (proj2 (Z.eqb_neq x (ch "/")) Hn), orb_false_r. destruct (p_slashes P).
    + destruct (Hsl eq_refl) as [? | [= ->]]; done.
    + rewrite Ep. by apply escapeNonHier_idem.
Qed.

Lemma haveNonHost_parts (P : Parts) : negb (equal (p_port P) []) = true -> haveNonHost (mkRaw (authorityText P) (p_user P) (p_password P) (p_host P) (portDigits (p_port P))) = true.
Proof. intros H. unfold haveNonHost. cbn [a_port]. destruct (p_port P); [done |]. cbn [portDigits]. rewrite bool_decide_eq_false_2 by done. cbn [negb]. apply orb_true_r. Qed.

(** The parts of what was written are the parts. *)
Lemma build_reread (r : RawURL) : readParts r -> noTabs (r_path r) -> stable (buildParts r) = true -> buildParts (rereadURL (buildParts r)) = buildParts r.
Proof.
  intros HR Ht Hst. pose proof (reread_path r HR Ht Hst) as Rp. pose proof (reread_host r (d_authority _ HR)) as Rh. pose proof (reread_port r) as Ro. cbv zeta in Rh, Ro.
  pose proof (full_text r (d_authority _ HR)) as Hfull. pose proof (not_full (buildParts r) r eq_refl) as Hnot. destruct (schemeOk_lower _ (d_scheme _ HR)) as [_ Els]. destruct (scheme_lower _ (d_scheme _ HR)) as [_ Ef].
  pose proof (v_slashes _ (built_rereadable r HR Ht Hst)) as Hsl. pose proof (d_text _ HR) as Htx. apply list.Forall_app in Htx as [_ Htx]. apply list.Forall_app in Htx as [X2 X3].
  unfold stable in Hst. apply andb_true_iff in Hst as [_ Hst]. pose proof (buildParts_eq r) as EP. cbv zeta in EP. set (P := buildParts r) in *.
  assert (E1 : p_scheme P = lower (r_scheme r)) by (by rewrite EP). assert (E2 : p_slashes P = isFileScheme (r_scheme r) || fullAuthority r) by (by rewrite EP).
  assert (Eq : p_query P = appendEscapingBadChars (r_query r)) by (by rewrite EP). assert (Eg : p_fragment P = match r_fragment r with Some f => ch "#" :: escapeAndAppendNonHierarchicalPart f | None => [] end) by (by rewrite EP).
  rewrite E1, Ef in Hst. set (r' := rereadURL P) in *. assert (Es' : r_scheme r' = lower (r_scheme r)) by (by rewrite <- E1).
  assert (Hall : fullAuthority r' = p_slashes P /\ (p_slashes P = true -> hostDropped r' = false) /\ (p_slashes P = false -> p_user P = [] /\ p_password P = [] /\ p_host P = [] /\ p_port P = [])).
  { unfold fullAuthority, hostDropped. rewrite Es', Ef. destruct (isFileScheme (r_scheme r)) eqn:Efile.
    - rewrite E2. cbn [orb]. apply andb_true_iff in Hst as [Hl Hh]. apply negb_true_iff in Hl. unfold r', rereadURL, degenerate. cbn [r_path r_authority]. rewrite E2. cbn [orb a_text]. rewrite Hl.
      split; [| done]. destruct (p_path P); [done |]. done.
    - rewrite E2. cbn [orb]. split; [| split; [done |]].
      + rewrite (Hfull eq_refl). unfold r', rereadURL. cbn [r_authority]. rewrite E2, (Hfull eq_refl). cbn [orb].
        destruct (negb (equal (p_port P) [])) eqn:Epo; [rewrite orb_true_r, haveNonHost_parts by done; done |]. rewrite orb_false_r. destruct (negb (equal (p_host P) [])) eqn:Eho; [cbn [a_host]; by rewrite Eho, orb_true_r | done].
      + intros Hf. assert (E : buildParts r = P) by done. rewrite buildParts_eq in E. cbv zeta in E. rewrite Hf in E. by rewrite <- E. }
  destruct Hall as (Hf' & Hd' & Hn'). rewrite (buildParts_eq r'). cbv zeta. rewrite Hf', Es', Els, Ef, Rp.
  assert (Ea : r_authority r' = if p_slashes P then mkRaw (authorityText P) (p_user P) (p_password P) (p_host P) (portDigits (p_port P)) else emptyAuthority) by done. rewrite Ea.
  change (r_query r') with (p_query P). change (r_fragment r') with (portDigits (p_fragment P)). rewrite Eq, escapeBad_idem by done.
  assert (Efr : match portDigits (p_fragment P) with Some f => ch "#" :: escapeAndAppendNonHierarchicalPart f | None => [] end = p_fragment P).
  { rewrite Eg. destruct (r_fragment r) as [f |]; [| done]. cbn [portDigits]. f_equal. apply escapeNonHier_idem. cbn [fragmentText] in X3. apply list.Forall_cons in X3. apply X3. }
  rewrite Efr, <- E1, <- Eq. assert (Eslash : isFileScheme (r_scheme r) || p_slashes P = p_slashes P) by (rewrite E2; by destruct (isFileScheme (r_scheme r))). rewrite Eslash.
  assert (Eta : P = mkParts (p_scheme P) (p_slashes P) (p_user P) (p_password P) (p_host P) (p_port P) (p_path P) (p_query P) (p_fragment P)) by (by destruct P).
  destruct (p_slashes P) eqn:Esl.
  - cbn [a_user a_password a_host a_port andb]. rewrite (Hd' eq_refl), Rh, Ro. cbn [negb]. by symmetry.
  - destruct (Hn' eq_refl) as (H1 & H2 & H3 & H4). cbn [andb]. rewrite H1, H2, H3, H4 in Eta. by symmetry.
Qed.

Lemma written_text (P : Parts) : writtenAuthority P -> cText (authorityText P).
Proof.
  intros HW. assert (Hu : forall c, isUserInfoChar c = true -> 0 < c < 256).
  { intros c Hc. apply userInfo_not in Hc. rewrite !andb_true_iff, !Z.ltb_lt in Hc. lia. }
  assert (Hb : forall s, Forall (fun c => isUserInfoChar c = true) s -> cText s) by (intros s Hs; eapply list.Forall_impl; [exact Hs |]; exact Hu).
  unfold authorityText, atText, userInfoText, passwordText. repeat (apply list.Forall_app; split).
  - apply Hb. eapply list.Forall_impl; [exact (w_user _ HW) |]. intros c Hc. apply Hc.
  - destruct (equal (p_password P) []); [constructor |]. constructor; [done |]. apply Hb, (w_password _ HW).
  - destruct (equal (p_user P ++ _) []); by repeat constructor.
  - destruct (w_host _ HW) as [Hh | (v & -> & Hv)]; [by apply Hb, host_userInfo |]. constructor; [done |]. apply list.Forall_app. split; [| by repeat constructor].
    apply Hb. eapply list.Forall_impl; [exact Hv |]. intros c Hc. apply ipv6_userInfo in Hc. rewrite !andb_true_iff in Hc. tauto.
  - by apply Hb, port_userInfo.
Qed.

Lemma text_app (s t : list Z) : cText s -> cText t -> cText (s ++ t).
Proof. intros H1 H2. by apply list.Forall_app. Qed.

Lemma print_text (P : Parts) : rereadable P -> cText (print P).
Proof.
  intros HV. unfold print, prefixText. apply text_app; [apply text_app | apply text_app; [by apply written_text, (v_written _ HV) | exact (v_text _ HV)]].
  - destruct (v_scheme _ HV) as [_ H]. eapply list.Forall_impl; [exact H |]. intros c Hc. apply scheme_facts in Hc. lia.
  - constructor; [done |]. by destruct (p_slashes P); repeat constructor.
Qed.

Lemma print_slashed (P : Parts) : rereadable P -> stable P = true -> wellSlashed (print P).
Proof.
  intros HV Hst. destruct (v_scheme _ HV) as [_ Hs]. unfold wellSlashed, print, prefixText. rewrite <- app_assoc. cbn [app].
  destruct (run_exact isSchemeChar (p_scheme P) (ch ":" :: (if p_slashes P then [ch "/"; ch "/"] else []) ++ authorityText P ++ p_path P ++ p_query P ++ p_fragment P)) as [-> ->]; [done | exact Hs | done |].
  intros Hh. unfold stable in Hst. rewrite Hh in Hst. destruct (p_slashes P); [by eexists | done].
Qed.

(** Nothing is left to change: the text of a URL parses to the same URL. *)
Lemma reparse (url o : list Z) (r : RawURL) : cText url -> noTabs url -> splitURL url = Some r -> stable (buildParts r) = true ->
  parse (print (buildParts r)) o = Some (kurlOf (buildParts r)).
Proof.
  intros Hu Ht Hr Hst. pose proof (splitURL_read _ _ Hu Hr) as HR.
  assert (Htp : noTabs (r_path r)).
  { destruct (splitURL_inv _ _ Hr) as (t & t3 & E & _ & _ & _ & Ee & Ha). assert (H3 : exists a, url = a ++ t3).
    { destruct Ha as [[_ ->] | (t2 & -> & Ha)]; [exists (run isSchemeChar url ++ [ch ":"]); by rewrite <- app_assoc |].
      destruct (splitAuthority_ok _ _ _ _ Ha) as [_ [[_ ->] | [_ E2]]]; [exists (run isSchemeChar url ++ [ch ":"]); by rewrite <- app_assoc |].
      exists (run isSchemeChar url ++ [ch ":"; ch "/"; ch "/"] ++ a_text (r_authority r)). rewrite E2 in E. rewrite <- !app_assoc. exact E. }
    destruct H3 as [a H3]. rewrite H3 in Ht. apply list.Forall_app in Ht as [_ Ht]. destruct (splitEnd_length _ _ _ _ Ee) as [_ ->]. rewrite <- (run_rest isPathChar t3) in Ht. apply list.Forall_app in Ht. apply Ht. }
  pose proof (built_rereadable r HR Htp Hst) as HV. rewrite parse_ok by (by apply print_text || by apply print_slashed). by rewrite splitURL_print, build_reread.
Qed.

Lemma afterLastSlash_bounds (buffer : list Z) (portEnd i : nat) : (portEnd <= i)%nat -> (portEnd <= afterLastSlash buffer portEnd i <= i)%nat.
Proof.
  induction i as [| i IH]; intros H; [cbn; lia |]. cbn [afterLastSlash]. destruct (portEnd <? S i)%nat eqn:E; [| lia]. apply Nat.ltb_lt in E. case_bool_decide; [lia |]. specialize (IH ltac:(lia)). lia.
Qed.

(** m_pathAfterLastSlash is behind the last slash of the path, or at its start. *)
Lemma afterLastSlash_spec (buffer : list Z) (portEnd i : nat) : (portEnd <= i <= length buffer)%nat -> let n := afterLastSlash buffer portEnd i in
  (n = portEnd \/ buffer !! (n - 1)%nat = Some (ch "/")) /\ Forall (fun c => c <> ch "/") (slice buffer n i).
Proof.
  cbv zeta. induction i as [| i IH]; intros H; [split; [left; cbn; lia | rewrite slice_end by (cbn; lia); constructor] |]. cbn [afterLastSlash]. destruct (portEnd <? S i)%nat eqn:E.
  - apply Nat.ltb_lt in E. case_bool_decide as D.
    + split; [right; cbn; by rewrite Nat.sub_0_r | rewrite slice_end by lia; constructor].
    + destruct (IH ltac:(lia)) as [I1 I2]. split; [done |]. pose proof (afterLastSlash_bounds buffer portEnd i ltac:(lia)) as B. set (n := afterLastSlash buffer portEnd i) in *.
      destruct (lookup_lt_is_Some_2 buffer i ltac:(lia)) as [c Hc]. unfold slice in *. replace (S i - n)%nat with (S (i - n)) by lia.
      rewrite (take_S_r _ _ c) by (rewrite lookup_drop; by replace (n + (i - n))%nat with i by lia). apply list.Forall_app. split; [done |]. constructor; [congruence | constructor].
  - apply Nat.ltb_ge in E. split; [left; lia |]. rewrite slice_end by lia. constructor.
Qed.

(** A text of several parts has each behind the ones before. *)
Lemma slice_concat (parts : list (list Z)) (i : nat) (part : list Z) (first last : nat) : parts !! i = Some part ->
  first = sum_list_with length (take i parts) -> last = (first + length part)%nat -> slice (concat parts) first last = part.
Proof.
  intros Hi -> ->. assert (E : concat parts = concat (take i parts) ++ part ++ concat (drop (S i) parts)).
  { rewrite <- (take_drop_middle parts i part Hi) at 1. rewrite concat_app. done. }
  assert (L : forall l : list (list Z), length (concat l) = sum_list_with length l) by (induction l as [| x l IH]; [done | cbn; by rewrite length_app, IH]).
  rewrite E, <- L. unfold slice. rewrite drop_app_length, Nat.add_comm, Nat.add_sub. apply take_app_length.
Qed.

Lemma print_length (P : Parts) : length (print P) =
  (length (prefixText P) + length (userInfoText P) + length (atText P) + length (p_host P) + length (p_port P) + length (p_path P) + length (p_query P) + length (p_fragment P))%nat.
Proof. unfold print, authorityText. rewrite !length_app. lia. Qed.

(** The parts are where the offsets say. *)
Lemma slices (P : Parts) (k : KURL) : k = kurlOf P ->
  slice (m_string k) 0 (m_schemeEnd k) = p_scheme P /\
  slice (m_string k) (m_schemeEnd k) (m_userStart k) = ch ":" :: (if p_slashes P then [ch "/"; ch "/"] else []) /\
  slice (m_string k) (m_userStart k) (m_userEnd k) = p_user P /\
  slice (m_string k) (m_userEnd k) (m_passwordEnd k) = passwordText P /\
  slice (m_string k) (m_passwordEnd k) (m_hostEnd k) = atText P ++ p_host P /\
  slice (m_string k) (m_hostEnd k) (m_portEnd k) = p_port P /\
  slice (m_string k) (m_portEnd k) (m_pathEnd k) = p_path P /\
  slice (m_string k) (m_pathEnd k) (m_queryEnd k) = p_query P /\
  slice (m_string k) (m_queryEnd k) (m_fragmentEnd k) = p_fragment P.
Proof.
  intros ->. unfold kurlOf. cbn [m_string m_schemeEnd m_userStart m_userEnd m_passwordEnd m_hostEnd m_portEnd m_pathEnd m_queryEnd m_fragmentEnd].
  set (slashes := if p_slashes P then [ch "/"; ch "/"] else []).
  assert (E : print P = concat [p_scheme P; ch ":" :: slashes; p_user P; passwordText P; atText P ++ p_host P; p_port P; p_path P; p_query P; p_fragment P]).
  { unfold print, prefixText, authorityText, userInfoText. fold slashes. cbn [concat]. rewrite <- !app_assoc, app_nil_r. cbn [app]. done. }
  assert (Lp : length (prefixText P) = (length (p_scheme P) + length (ch ":" :: slashes))%nat) by (unfold prefixText; fold slashes; by rewrite length_app).
  assert (Lu : length (userInfoText P) = (length (p_user P) + length (passwordText P))%nat) by apply length_app.
  assert (La : length (atText P ++ p_host P) = (length (atText P) + length (p_host P))%nat) by apply length_app.
  pose proof (print_length P) as Ll. rewrite Ll, E.
  split; [| split; [| split; [| split; [| split; [| split; [| split; [| split]]]]]]];
    [apply (slice_concat _ 0) | apply (slice_concat _ 1) | apply (slice_concat _ 2) | apply (slice_concat _ 3) | apply (slice_concat _ 4) | apply (slice_concat _ 5) | apply (slice_concat _ 6) | apply (slice_concat _ 7) | apply (slice_concat _ 8)];
    try reflexivity; cbn [take sum_list_with]; lia.
Qed.

(** ** What is written *)

Lemma url_app (s t : list Z) : Forall (fun c => isURLChar c = true) s -> Forall (fun c => isURLChar c = true) t -> Forall (fun c => isURLChar c = true) (s ++ t).
Proof. intros H1 H2. by apply list.Forall_app. Qed.

Lemma scheme_url (c : Z) : isSchemeChar c = true -> isURLChar c = true.
Proof. class_fact SchemeChar c. Qed.

Lemma userInfo_url (c : Z) : isUserInfoChar c = true -> isURLChar c = true.
Proof. class_fact UserInfoChar c. Qed.

Lemma all_impl (f g : Z -> bool) (s : list Z) : (forall c, f c = true -> g c = true) -> Forall (fun c => f c = true) s -> Forall (fun c => g c = true) s.
Proof. intros H Hs. eapply list.Forall_impl; [exact Hs |]. intros c. apply H. Qed.

Lemma authority_url (P : Parts) : writtenAuthority P -> Forall (fun c => isURLChar c = true) (authorityText P).
Proof.
  intros HW. unfold authorityText, userInfoText, passwordText, atText. apply url_app; [apply url_app | apply url_app; [| apply url_app]].
  - apply (all_impl isUserInfoChar); [exact userInfo_url |]. eapply list.Forall_impl; [exact (w_user _ HW) |]. intros c Hc. apply Hc.
  - destruct (equal (p_password P) []); [constructor |]. constructor; [done |]. apply (all_impl isUserInfoChar); [exact userInfo_url | exact (w_password _ HW)].
  - destruct (equal (userInfoText P) []); by repeat constructor.
  - destruct (w_host _ HW) as [Hh | (v & -> & Hv)]; [apply (all_impl isUserInfoChar); [exact userInfo_url | by apply host_userInfo] |].
    constructor; [done |]. apply url_app; [| by repeat constructor]. apply (all_impl isIPv6Char); [| exact Hv]. intros c Hc. apply ipv6_userInfo in Hc. rewrite !andb_true_iff in Hc. apply userInfo_url. tauto.
  - apply (all_impl isUserInfoChar); [exact userInfo_url | by apply port_userInfo].
Qed.

Lemma prefix_url (P : Parts) : schemeOk (p_scheme P) -> Forall (fun c => isURLChar c = true) (prefixText P).
Proof.
  intros [_ H]. unfold prefixText. apply url_app; [apply (all_impl isSchemeChar); [exact scheme_url | exact H] |]. constructor; [done |]. destruct (p_slashes P); by repeat constructor.
Qed.

Lemma built_url (r : RawURL) : readParts r -> Forall (fun c => isURLChar c = true) (print (buildParts r)).
Proof.
  intros HR. destruct (built_text r HR) as (T1 & T2 & T3). unfold print. apply url_app; [apply prefix_url; apply schemeOk_lower, (d_scheme _ HR) |].
  apply url_app; [apply authority_url, built_written, (d_authority _ HR) |]. apply url_app; [done |]. by apply url_app.
Qed.

(** The order of the offsets. *)
Record ordered (k : KURL) : Prop := {
  f_scheme : (0 < m_schemeEnd k < m_userStart k)%nat;
  f_user : (m_userStart k <= m_userEnd k)%nat;
  f_password : (m_userEnd k <= m_passwordEnd k)%nat;
  f_host : (m_passwordEnd k <= m_hostEnd k)%nat;
  f_port : (m_hostEnd k <= m_portEnd k)%nat;
  f_lastSlash : (m_portEnd k <= m_pathAfterLastSlash k <= m_pathEnd k)%nat;
  f_query : (m_pathEnd k <= m_queryEnd k)%nat;
  f_fragment : (m_queryEnd k <= m_fragmentEnd k)%nat;
  f_string : m_fragmentEnd k = length (m_string k) }.

Lemma kurlOf_ordered (P : Parts) : schemeOk (p_scheme P) -> ordered (kurlOf P).
Proof.
  intros [(c & s & Es & _) _]. pose proof (print_length P) as L.
  assert (Lp : (length (p_scheme P) < length (prefixText P))%nat) by (unfold prefixText; rewrite length_app; cbn [length]; lia).
  assert (Lu : (length (p_user P) <= length (userInfoText P))%nat) by (unfold userInfoText; rewrite length_app; lia).
  assert (Ls : (0 < length (p_scheme P))%nat) by (rewrite Es; cbn; lia).
  split; unfold kurlOf; cbn [m_string m_schemeEnd m_userStart m_userEnd m_passwordEnd m_hostEnd m_portEnd m_pathEnd m_queryEnd m_fragmentEnd m_pathAfterLastSlash]; try lia.
  apply afterLastSlash_bounds. lia.
Qed.

Lemma text_check (s : list Z) : forallb (fun c => (0 <? c) && (c <? 256)) s = true -> cText s.
Proof. intros H. apply list.Forall_forall. intros c Hc. rewrite forallb_forall in H. apply list_elem_of_In, H in Hc. rewrite andb_true_iff, !Z.ltb_lt in Hc. lia. Qed.

(** C18: Parsing never fails an assertion and never leaves its buffers, for any text of bytes
    whose special scheme, if it has one, is followed by two slashes.  Of a valid result, the
    ten offsets are in order and the last one is the length of the string; the string is
    printable ASCII that begins with a letter, so that it passes checkEncodedString; nothing
    behind m_pathAfterLastSlash in the path is a slash.  Of an invalid one, the text is kept
    and every offset is 0. *)
Theorem parse_offsets (url originalString : list Z) : cText url -> wellSlashed url -> exists k, parse url originalString = Some k /\
  (m_isValid k = false -> k = invalid originalString) /\
  (m_isValid k = true -> ordered k /\ Forall (fun c => isURLChar c = true) (m_string k) /\ isSchemeFirstChar (hd 0 (m_string k)) = true /\
     Forall (fun c => c <> ch "/") (slice (m_string k) (m_pathAfterLastSlash k) (m_pathEnd k))).
Proof.
  intros Hu Hw. rewrite parse_ok by done. eexists. split; [done |]. destruct (splitURL url) as [r |] eqn:Er; [| done]. split; [done |]. intros _.
  pose proof (splitURL_read _ _ Hu Er) as HR. destruct (schemeOk_lower _ (d_scheme _ HR)) as [Hs _]. split; [by apply kurlOf_ordered |]. split; [by apply built_url |]. split.
  - destruct Hs as [(c & s & Es & Hc) _]. cbn [kurlOf m_string]. unfold print, prefixText. change (p_scheme (buildParts r)) with (lower (r_scheme r)). by rewrite Es.
  - cbn [kurlOf m_string m_pathAfterLastSlash m_pathEnd]. apply afterLastSlash_spec. rewrite print_length. lia.
Qed.

Lemma parse_offsets_witness : exists k, parse (units "HTTP://Us%er:p@EXAMPLE.com:80/a/./b/../c d?q r#f") [] = Some k /\
  (m_isValid k = false -> k = invalid []) /\
  (m_isValid k = true -> ordered k /\ Forall (fun c => isURLChar c = true) (m_string k) /\ isSchemeFirstChar (hd 0 (m_string k)) = true /\
     Forall (fun c => c <> ch "/") (slice (m_string k) (m_pathAfterLastSlash k) (m_pathEnd k))).
Proof.
  apply parse_offsets; [apply text_check; vm_compute; reflexivity | intros _; eexists; vm_compute; reflexivity].
Defined.

(** With a host there is an authority, and nothing can be mistaken for one. *)
Lemma host_stable (r : RawURL) : isFileScheme (r_scheme r) = false -> schemeOk (r_scheme r) -> a_host (r_authority r) <> [] -> stable (buildParts r) = true.
Proof.
  intros Hf Hs Hh. assert (Hfull : fullAuthority r = true) by (unfold fullAuthority; rewrite Hf, (equal_neq _ [] Hh); apply orb_true_r).
  unfold stable. rewrite buildParts_eq. cbv zeta. cbn [p_slashes p_scheme]. rewrite Hfull, (proj2 (scheme_lower _ Hs)), Hf. done.
Qed.

(** C17: Parsing is idempotent: the string of a parsed URL parses to the same URL with the same
    offsets, so that the constructor for already parsed strings changes nothing.  The text has
    no tabs and newlines, and if its scheme is a special one two slashes follow it
    ([wellSlashed]).  It may be any such text from which a host was read, for a scheme other
    than file; in general what is written for it must be [stable], that is, nothing in it can be
    taken for an authority, a scheme that needs slashes has them, and a file URL was not left
    with the host localhost. *)
Theorem parse_idempotent (url o o' : list Z) (r : RawURL) : cText url -> wellSlashed url -> noTabs url -> splitURL url = Some r ->
  (isFileScheme (r_scheme r) = false /\ a_host (r_authority r) <> []) \/ stable (buildParts r) = true ->
  exists k, parse url o = Some k /\ m_isValid k = true /\ parse (m_string k) o' = Some k.
Proof.
  intros Hu Hw Ht Hr Hst. assert (Hst' : stable (buildParts r) = true).
  { destruct Hst as [[Hf Hh] | Hst]; [| done]. apply host_stable; [done | | done]. by apply (d_scheme _ (splitURL_read _ _ Hu Hr)). }
  rewrite parse_ok, Hr by done. eexists. split; [done |]. split; [done |]. by apply (reparse url o' r).
Qed.

Lemma parse_idempotent_witness : exists k, parse (units "HTTP://Us%er:p@EXAMPLE.com:80/a/./b/../c d?q r#f") [] = Some k /\ m_isValid k = true /\ parse (m_string k) [] = Some k.
Proof.
  eapply parse_idempotent; [apply text_check; vm_compute; reflexivity | intros _; eexists; vm_compute; reflexivity | | vm_compute; reflexivity | left; split; [vm_compute; reflexivity | vm_compute; discriminate]].
  apply list.Forall_forall. intros c Hc. assert (H : forallb (fun c => negb (isTabOrNewline c)) (units "HTTP://Us%er:p@EXAMPLE.com:80/a/./b/../c d?q r#f") = true) by (vm_compute; reflexivity).
  rewrite forallb_forall in H. apply list_elem_of_In, H in Hc. by apply negb_true_iff.
Defined.

(** Removing the dot segments of a path is what the reference definition says: of the path
    between two offsets, with one more character to read or a slash at its end, the loop with
    its rewinding writes [removeDots], which drops every segment dot, and with every segment
    of two dots the one before it, leaving a slash where one of them was last; no segment of
    dots is left, and a path without any is copied. *)
Theorem dots_removed (src path : list Z) (first last : nat) : readable src last path -> slice src first last = path -> path = [] \/ head path = Some (ch "/") -> (first <= last)%nat ->
  copyPathRemovingDots src first last = Some (removeDots path) /\ dotFree (removeDots path) /\ (dotFree path -> removeDots path = path) /\ (length (removeDots path) <= length path)%nat.
Proof.
  intros Hr Hs Hp Hle. split; [by apply copyPath_ok |]. split; [apply removeDots_dotFree |]. split; [apply removeDots_free | apply removeDots_length].
Qed.

Lemma dots_removed_witness : let path := units "/a/./b/../../c/d/.." in
  copyPathRemovingDots (path ++ [0]) 0 19 = Some (removeDots path) /\ dotFree (removeDots path) /\ (dotFree path -> removeDots path = path) /\ (length (removeDots path) <= length path)%nat.
Proof. apply (dots_removed _ (units "/a/./b/../../c/d/..") 0 19); [left; cbn; lia | vm_compute; reflexivity | right; vm_compute; reflexivity | lia]. Defined.

Example dots_removed_value : removeDots (units "/a/./b/../../c/d/..") = units "/c/".
Proof. by vm_compute. Qed.

(** ** Texts that are not canonical after one parse *)

Definition parsedText (url : list Z) : option (list Z) := m_string <$> parse url [].

(** The two slashes are taken back although there were none: the authority starts inside of
    the scheme. *)
Example slashes_not_there : parsedText (units "ws:") = Some (units "ws:s:") /\ parsedText (units "ftp:") = Some (units "ftp:p:").
Proof. by vm_compute. Qed.

(** A path that does not begin with a slash comes to copyPathRemovingDots. *)
Example dots_asserted : parse (units "ws:/#..") [] = None.
Proof. by vm_compute. Qed.

(** Removing the dots leaves two slashes behind the scheme, and the first segment becomes the
    host. *)
Example dots_make_host : parsedText (units "foo:/.//bar") = Some (units "foo://bar") /\ (m_hostEnd <$> parse (units "foo:/.//bar") []) = Some 4%nat /\ (m_hostEnd <$> parse (units "foo://bar") []) = Some 9%nat.
Proof. by vm_compute. Qed.

(** A tab is taken out after the dots have been removed. *)
Example tab_hides_dots : parsedText (units "http://h/." ++ [9] ++ units "/a") = Some (units "http://h/./a") /\ parsedText (units "http://h/./a") = Some (units "http://h/a").
Proof. by vm_compute. Qed.

(** An empty authority is dropped, and the path is read as one. *)
Example empty_authority_lost : parsedText (units "http:///foo/bar") = Some (units "http:/foo/bar") /\ parsedText (units "http:/foo/bar") = Some (units "http://foo/bar").
Proof. by vm_compute. Qed.

(** Schemes are compared with their case before they are put in lower case. *)
Example scheme_case : parsedText (units "HTTP:/foo") = Some (units "http:/foo") /\ parsedText (units "http:/foo") = Some (units "http://foo/").
Proof. by vm_compute. Qed.

(** A path without a slash becomes the host of a file URL. *)
Example file_path_host : parsedText (units "file:foo") = Some (units "file://foo") /\ parsedText (units "file://foo") = Some (units "file://foo/").
Proof. by vm_compute. Qed.
