(* ===== verification/KURLEscape.v ===== *)
(** * KURL: escape sequences

    decodeURLEscapeSequences and encodeWithURLEscapeSequences of platform/KURL.cpp, with
    platform/text/DecodeEscapeSequences.h and String::utf8 of WTF/wtf/text/WTFString.cpp and
    WTF/wtf/unicode/UTF8.cpp.  A [String] is its code units and whether they are kept in
    bytes; the bytes to decode are given to the UTF-8 codec of TextCodecUTF8.v. *)

From S2P Require Import Prelude HTMLEntityParser TextCodec TextCodecUTF8 KURL EntityTheorems TextCodecUTF8Theorems KURLParts.

(** ** String::utf8 *)

Definition firstByteMark : list Z := [0x00; 0x00; 0xC0; 0xE0; 0xF0; 0xF8; 0xFC].
Definition bytesToWrite (c : Z) : nat := if c <? 0x80 then 1 else if c <? 0x800 then 2 else if c <? 0x10000 then 3 else 4.

(** The switch, from the last byte to the first. *)
Fixpoint continuationBytes (n : nat) (c : Z) (acc : list Z) : Z * list Z :=
  match n with O => (c, acc) | S n' => continuationBytes n' (Z.shiftr c 6) (Z.land (Z.lor c 0x80) 0xBF :: acc) end.
Definition writeUTF8 (c : Z) : list Z :=
  let c := if c <? 0x110000 then c else replacementCharacter in
  let n := bytesToWrite c in
  let '(c, acc) := continuationBytes (n - 1) c [] in
  Z.lor c (default 0 (firstByteMark !! n)) mod 256 :: acc.

Definition convertLatin1ToUTF8 (source : list Z) : list Z := source ≫= writeUTF8.

(** convertUTF16ToUTF8 when it is not strict; a high surrogate at the end is left to the
    caller, putUTF8Triple. *)
Fixpoint convertUTF16ToUTF8 (source : list Z) : list Z :=
  match source with
  | [] => []
  | c :: rest =>
      if (0xD800 <=? c) && (c <=? 0xDBFF) then
        match rest with
        | [] => writeUTF8 c
        | c2 :: rest' =>
            if (0xDC00 <=? c2) && (c2 <=? 0xDFFF) then writeUTF8 (Z.shiftl (c - 0xD800) 10 + (c2 - 0xDC00) + 0x10000) ++ convertUTF16ToUTF8 rest'
            else writeUTF8 c ++ convertUTF16ToUTF8 rest
        end
      else writeUTF8 c ++ convertUTF16ToUTF8 rest
  end.

(** String::utf8(LenientConversion): the vector has three bytes for a character. *)
Definition utf8Of (is8Bit : bool) (s : list Z) : option (list Z) :=
  let bytes := if is8Bit then convertLatin1ToUTF8 s else convertUTF16ToUTF8 s in
  _ ← ASSERT (Nat.leb (length bytes) (3 * length s)); Some bytes.

(** ** Encoding *)

Definition encodeWithURLEscapeSequences (is8Bit : bool) (notEncodedString : list Z) : option (list Z) :=
  asUTF8 ← utf8Of is8Bit notEncodedString;
  let buffer := asUTF8 ≫= (fun c => if isBadChar c then appendEscapedChar c else [c]) in
  _ ← ASSERT (Nat.leb (length buffer) (3 * length asUTF8 + 1));
  Some buffer.

(** ** Decoding *)

Definition isASCIIHexDigit (c : Z) : bool := isASCIIDigit c || ((ch "a" <=? Z.lor c 0x20) && (Z.lor c 0x20 <=? ch "f")).
Definition toASCIIHexValue (c : Z) : option Z :=
  _ ← ASSERT (isASCIIHexDigit c); Some (if c <? ch "A" then c - ch "0" else Z.land (c - ch "A" + 10) 0xF).

Definition charAt (s : list Z) (i : nat) : Z := default 0 (s !! i).
Definition sequenceSize : nat := 3.

(** string.find('%', startPosition) *)
Definition findInString (s : list Z) (startPosition : nat) : option nat :=
  (fun p => (startPosition + fst p)%nat) <$> list_find (fun c => c = ch "%") (drop startPosition s).

Fixpoint findEndOfRunLoop (fuel : nat) (s : list Z) (runEnd endPosition numberOfTrailingCharacters : nat) : nat :=
  match fuel with
  | O => runEnd
  | S fuel' =>
      if (runEnd <? endPosition)%nat then
        if charAt s runEnd =? ch "%" then
          if (sequenceSize <=? endPosition - runEnd)%nat && isASCIIHexDigit (charAt s (runEnd + 1)) && isASCIIHexDigit (charAt s (runEnd + 2))
          then findEndOfRunLoop fuel' s (runEnd + sequenceSize) endPosition 0
          else runEnd
        else if (0x40 <=? charAt s runEnd) && (charAt s runEnd <=? 0x7F) && (numberOfTrailingCharacters <? 2)%nat
        then findEndOfRunLoop fuel' s (runEnd + 1) endPosition (numberOfTrailingCharacters + 1)
        else runEnd
      else runEnd
  end.
Definition findEndOfRun (s : list Z) (startPosition endPosition : nat) : nat := findEndOfRunLoop (S endPosition) s startPosition endPosition 0.

(** The bytes of decodeRun; reading behind the run is [None]. *)
Fixpoint runBytes (run : list Z) : option (list Z) :=
  match run with
  | [] => Some []
  | c :: rest =>
      if c =? ch "%" then
        match rest with
        | h1 :: h2 :: rest' =>
            v1 ← toASCIIHexValue h1; v2 ← toASCIIHexValue h2; bytes ← runBytes rest'; Some (Z.lor (Z.shiftl v1 4) v2 mod 256 :: bytes)
        | _ => None
        end
      else bytes ← runBytes rest; Some (c mod 256 :: bytes)
  end.

Section Decode.
(** encoding.decode *)
Context (decode : list Z -> result (list Z)).

Definition decodeRun (run : list Z) : result (list Z) :=
  bytes ← lift (runBytes run);
  lift (ASSERT (Nat.leb (length bytes) (length run)));;
  decode bytes.

Fixpoint decodeEscapeLoop (fuel : nat) (s out : list Z) (decodedPosition searchPosition : nat) : result (list Z) :=
  match fuel with
  | O => OutOfFuel
  | S fuel' =>
      match findInString s searchPosition with
      | None => Ok (out ++ drop decodedPosition s)
      | Some encodedRunPosition =>
          let encodedRunEnd := findEndOfRun s encodedRunPosition (length s) in
          if bool_decide (encodedRunEnd = encodedRunPosition) then decodeEscapeLoop fuel' s out decodedPosition (S encodedRunEnd)
          else
            decoded ← decodeRun (slice s encodedRunPosition encodedRunEnd);
            match decoded with
            | [] => decodeEscapeLoop fuel' s out decodedPosition encodedRunEnd
            | _ => decodeEscapeLoop fuel' s (out ++ slice s decodedPosition encodedRunPosition ++ decoded) encodedRunEnd encodedRunEnd
            end
      end
  end.
Definition decodeEscapeSequences (s : list Z) : result (list Z) := decodeEscapeLoop (S (length s)) s [] 0 0.
End Decode.

(** UTF8Encoding().decode, on a machine with words of [wordSize] bytes. *)
Definition decodeAsUTF8 (wordSize endAddress : Z) (bytes : list Z) : result (list Z) :=
  '(units, _, _) ← decodeUTF8 wordSize endAddress bytes true false false newTextCodecUTF8; Ok units.
Definition decodeURLEscapeSequences (wordSize endAddress : Z) (s : list Z) : result (list Z) := decodeEscapeSequences (decodeAsUTF8 wordSize endAddress) s.

(** * KURL: escaping and decoding

    Any text survives encodeWithURLEscapeSequences and decodeURLEscapeSequences. *)

(** ** String::utf8 writes UTF-8 *)

Lemma markedByte (c : Z) : Z.land (Z.lor c 0x80) 0xBF = 0x80 + c mod 64.
Proof.
  rewrite <- continuation_spec. change 0xBF with (Z.lor 0x3F 0x80). rewrite <- Z.lor_land_distr_l. symmetry. apply Z.mod_small.
  change 0x3F with (Z.ones 6). rewrite Z.land_ones, Z.lor_comm by lia. change 0x80 with (2 * 2 ^ 6). pose proof (Z.mod_pos_bound c (2 ^ 6) ltac:(lia)). rewrite lor_low by lia. lia.
Qed.

Lemma writeUTF8_ok (c : Z) : 0 <= c <= 0x10FFFF -> writeUTF8 c = utf8 c.
Proof.
  intros Hc. unfold writeUTF8, bytesToWrite, utf8. rewrite (proj2 (Z.ltb_lt c 0x110000)) by lia.
  destruct (c <? 0x80) eqn:E1; bool_to_prop; cbn [continuationBytes Nat.sub]; rewrite ?markedByte, ?Z.shiftr_div_pow2 by lia; change (2 ^ 6) with 64.
  { cbn. rewrite Z.lor_0_r. by rewrite Z.mod_small by lia. }
  destruct (c <? 0x800) eqn:E2; bool_to_prop; cbn [continuationBytes Nat.sub]; rewrite ?markedByte, ?Z.shiftr_div_pow2 by lia; change (2 ^ 6) with 64.
  { change (default 0 (firstByteMark !! 2%nat)) with (6 * 2 ^ 5). rewrite lead_spec by (simpl; try lia; Z.div_mod_to_equations; lia). done. }
  destruct (c <? 0x10000) eqn:E3; bool_to_prop; cbn [continuationBytes Nat.sub]; rewrite ?markedByte, ?Z.shiftr_div_pow2 by lia; change (2 ^ 6) with 64.
  { change (default 0 (firstByteMark !! 3%nat)) with (14 * 2 ^ 4). rewrite Z.div_div by lia. change (64 * 64) with 4096. rewrite lead_spec by (simpl; try lia; Z.div_mod_to_equations; lia). done. }
  change (default 0 (firstByteMark !! 4%nat)) with (30 * 2 ^ 3). rewrite !Z.div_div by lia. change (64 * 64 * 64) with 262144. change (64 * 64) with 4096. rewrite lead_spec by (simpl; try lia; Z.div_mod_to_equations; lia). done.
Qed.

Lemma convertUTF16_ok (u : list Z) : Forall scalar u -> convertUTF16ToUTF8 (utf16s u) = utf8s u.
Proof.
  intros H. induction H as [| c u [Hc Hs] H IH]; [done |]. rewrite utf16s_cons, utf8s_cons, <- IH. unfold utf16. destruct (c <? 0x10000) eqn:E; bool_to_prop; cbn [app convertUTF16ToUTF8].
  - replace ((0xD800 <=? c) && (c <=? 0xDBFF)) with false by (symmetry; apply andb_false_iff; rewrite !Z.leb_gt; lia). by rewrite writeUTF8_ok by lia.
  - assert (Hd : 0 <= (c - 0x10000) / 1024 < 1024) by (Z.div_mod_to_equations; lia). pose proof (Z.mod_pos_bound (c - 0x10000) 1024 ltac:(lia)) as Hm.
    rewrite (proj2 (Z.leb_le 0xD800 _)), (proj2 (Z.leb_le _ 0xDBFF)), (proj2 (Z.leb_le 0xDC00 _)), (proj2 (Z.leb_le _ 0xDFFF)) by lia. cbn [andb].
    rewrite Z.shiftl_mul_pow2 by lia. change (2 ^ 10) with 1024. rewrite <- writeUTF8_ok by lia. do 2 f_equal. pose proof (Z.div_mod (c - 0x10000) 1024 ltac:(lia)). lia.
Qed.

Lemma utf8Of_ok (u : list Z) : Forall scalar u -> utf8Of false (utf16s u) = Some (utf8s u).
Proof. intros H. unfold utf8Of. rewrite convertUTF16_ok by done. by rewrite (proj2 (Nat.leb_le _ _) (utf8s_length u H)). Qed.

Lemma convertLatin1_ok (u : list Z) : Forall (fun c => 0 <= c < 256) u -> utf8Of true u = Some (utf8s u).
Proof.
  intros H. unfold utf8Of. assert (E : convertLatin1ToUTF8 u = utf8s u) by (induction H as [| c u Hc H IH]; [done |]; unfold convertLatin1ToUTF8 in *; cbn [mbind list_bind]; by rewrite IH, writeUTF8_ok by lia). rewrite E.
  assert (Hl : (length (utf8s u) <= 3 * length u)%nat).
  { clear E. induction H as [| c u Hc H IH]; [done |]. rewrite utf8s_cons, length_app. cbn [length]. assert (length (utf8 c) <= 3)%nat; [| lia]. unfold utf8. repeat case_match; bool_to_prop; simpl; lia. }
  by rewrite (proj2 (Nat.leb_le _ _) Hl).
Qed.

(** ** Decoding a whole text *)

Lemma parses_whole (l u r v : list Z) (e : bool) : parses true l u e r -> r = [] -> Forall scalar v -> l = utf8s v -> u = v.
Proof.
  intros H. revert v. induction H as [r | c l u e r Hc H IH | b l u e r Hb H IH]; intros v Er Hv E.
  - subst. destruct v as [| c v]; [done |]. exfalso. apply (f_equal length) in E. rewrite utf8s_cons, length_app in E. pose proof (utf8_length c). simpl in E. lia.
  - destruct v as [| c' v]; [exfalso; apply (f_equal length) in E; rewrite length_app in E; pose proof (utf8_length c); simpl in E; lia |].
    apply Forall_cons_1 in Hv as [Hc' Hv]. rewrite utf8s_cons in E. assert (c = c') as <- by by apply (utf8_inj_prefix c c' l (utf8s v)). apply app_inv_head in E. f_equal. by apply IH.
  - exfalso. apply Hb. by apply (utf8s_starts v).
Qed.

Lemma utf8s_bytes (u : list Z) : Forall scalar u -> Forall isByte (utf8s u).
Proof. intros H. induction H as [| c u Hc H IH]; [constructor |]. rewrite utf8s_cons. apply list.Forall_app. split; [by apply utf8_bytes | done]. Qed.

Lemma decodeAsUTF8_ok (wordSize endAddress : Z) (u : list Z) : wordSize = 4 \/ wordSize = 8 -> Forall scalar u -> decodeAsUTF8 wordSize endAddress (utf8s u) = Ok (utf16s u).
Proof.
  intros Hw Hu. unfold decodeAsUTF8. destruct (decodeUTF8_all wordSize Hw endAddress (utf8s u) false newTextCodecUTF8) as (v & e & d & Hp & -> & _).
  - apply new_codec.
  - done.
  - by apply utf8s_bytes.
  - cbn [mbind result_bind]. by rewrite (parses_whole _ _ _ u e Hp eq_refl Hu eq_refl).
Qed.

(** A text is cut between characters where no continuation byte follows. *)
Lemma utf8s_cut (u a r : list Z) : Forall scalar u -> utf8s u = a ++ r -> (forall b r', r = b :: r' -> ~ 0x80 <= b < 0xC0) -> exists u1 u2, u = u1 ++ u2 /\ utf8s u1 = a /\ utf8s u2 = r.
Proof.
  revert a. induction u as [| c u IH]; intros a Hu E Hr.
  - symmetry in E. apply app_nil in E as [-> ->]. by exists [], [].
  - apply Forall_cons_1 in Hu as [Hc Hu]. rewrite utf8s_cons in E. destruct (Nat.le_gt_cases (length (utf8 c)) (length a)) as [L | L].
    + assert (Ea : a = utf8 c ++ drop (length (utf8 c)) a).
      { rewrite <- (take_drop (length (utf8 c)) a) at 1. f_equal. apply (f_equal (take (length (utf8 c)))) in E. rewrite take_app_length, take_app_le in E by done. by symmetry. }
      rewrite Ea, <- app_assoc in E. apply app_inv_head in E. destruct (IH _ Hu E Hr) as (u1 & u2 & -> & E1 & E2). exists (c :: u1), u2. split; [done |]. split; [| done]. by rewrite utf8s_cons, E1.
    + destruct a as [| x a]; [exists [], (c :: u); done |]. exfalso. assert (Et : exists b r', r = b :: r' /\ b ∈ tail (utf8 c)).
      { assert (Ed : drop (length (x :: a)) (utf8 c) ++ utf8s u = r) by (apply (f_equal (drop (length (x :: a)))) in E; rewrite drop_app_length, drop_app_le in E by lia; done).
        destruct (drop (length (x :: a)) (utf8 c)) as [| b d] eqn:D; [apply (f_equal length) in D; rewrite length_drop in D; cbn in D, L; lia |]. exists b, (d ++ utf8s u). split; [by rewrite <- Ed |].
        destruct (utf8 c) as [| y t]; [done |]. cbn [length drop] in D. cbn [tail]. rewrite <- (take_drop (length a) t), D. apply elem_of_app. right. left. }
      destruct Et as (b & r' & -> & Hb). apply (Hr b r'); [done |]. clear - Hb Hc. destruct Hc as [Hc _]. unfold utf8 in Hb. repeat case_match; bool_to_prop; cbn [tail] in Hb;
        rewrite ?elem_of_cons, ?elem_of_nil in Hb; repeat match goal with H : _ \/ _ |- _ => destruct H end; try done; subst; Z.div_mod_to_equations; lia.
Qed.

Lemma utf8s_plain (u : list Z) : Forall scalar u -> Forall (fun b => b < 0x80) (utf8s u) -> utf8s u = u /\ utf16s u = u.
Proof.
  intros Hu. induction Hu as [| c u [Hc _] Hu IH]; intros H; [done |]. rewrite utf8s_cons in *. apply list.Forall_app in H as [H1 H2]. destruct (IH H2) as [-> E]. rewrite utf16s_cons, E.
  unfold utf8 in *. destruct (c <? 0x80) eqn:E1; bool_to_prop; [split; [done |]; by rewrite utf16_bmp by lia |].
  exfalso. destruct (c <? 0x800); [| destruct (c <? 0x10000)]; apply list.Forall_cons in H1 as [H1 _]; Z.div_mod_to_equations; lia.
Qed.

(** ** Runs of escape sequences *)

Definition escapeByte (c : Z) : list Z := if isBadChar c then appendEscapedChar c else [c].
Definition escapedText (bytes : list Z) : list Z := bytes ≫= escapeByte.

(** The bytes of one run. *)
Fixpoint runOf (n : nat) (bytes : list Z) : list Z :=
  match bytes with
  | [] => []
  | c :: rest => if isBadChar c then c :: runOf 0 rest else if (0x40 <=? c) && (n <? 2)%nat then c :: runOf (S n) rest else []
  end.

Lemma escaped_cons (c : Z) (b : list Z) : escapedText (c :: b) = escapeByte c ++ escapedText b.
Proof. done. Qed.

Lemma runOf_prefix (n : nat) (b : list Z) : exists r, b = runOf n b ++ r /\ (r = [] \/ isBadChar (hd 0 r) = false).
Proof.
  revert n. induction b as [| c b IH]; intros n; [by exists []; split; [| left] |]. cbn [runOf]. destruct (isBadChar c) eqn:E.
  - destruct (IH 0%nat) as (r & E1 & H). exists r. cbn [app]. by rewrite <- E1.
  - destruct (_ && _); [| exists (c :: b); by split; [| right]]. destruct (IH (S n)) as (r & E1 & H). exists r. cbn [app]. by rewrite <- E1.
Qed.

(** What an escapedText byte is, for the bytes. *)
Lemma escapeByte_cases (c : Z) : isByte c ->
  (isBadChar c = true /\ exists h1 h2 v1 v2, escapeByte c = [ch "%"; h1; h2] /\ isASCIIHexDigit h1 = true /\ isASCIIHexDigit h2 = true /\
     toASCIIHexValue h1 = Some v1 /\ toASCIIHexValue h2 = Some v2 /\ Z.lor (Z.shiftl v1 4) v2 mod 256 = c) \/
  (isBadChar c = false /\ escapeByte c = [c] /\ c <> ch "%" /\ c < 0x7F).
Proof.
  intros Hc. unfold escapeByte. destruct (isBadChar c) eqn:E; [left | right]; (split; [done |]).
  - unfold appendEscapedChar, placeByteAsHex. set (h1 := hexDigit (Z.shiftr c 4)). set (h2 := hexDigit (Z.land c 0xF)).
    pose proof (byte_check (fun c => let h1 := hexDigit (Z.shiftr c 4) in let h2 := hexDigit (Z.land c 0xF) in
      isASCIIHexDigit h1 && isASCIIHexDigit h2 && (Z.lor (Z.shiftl (default 0 (toASCIIHexValue h1)) 4) (default 0 (toASCIIHexValue h2)) mod 256 =? c)) c ltac:(by vm_compute) Hc) as B.
    cbv beta zeta in B. fold h1 h2 in B. rewrite !andb_true_iff in B. destruct B as [[B1 B2] B3]. apply Z.eqb_eq in B3. unfold toASCIIHexValue in *. rewrite B1, B2 in *. cbn [ASSERT mbind option_bind default from_option id] in *.
    eexists h1, h2, _, _. split; [reflexivity |]. split; [exact B1 |]. split; [exact B2 |]. rewrite B1, B2. do 2 (split; [reflexivity |]). exact B3.
  - split; [done |]. pose proof (byte_check (fun c => isBadChar c || (negb (c =? ch "%") && (c <? 0x7F))) c ltac:(by vm_compute) Hc) as B. cbv beta in B. rewrite E in B. cbn [orb] in B.
    apply andb_true_iff in B as [B1%negb_true_iff B2%Z.ltb_lt]. by apply Z.eqb_neq in B1.
Qed.

Lemma charAt_drop (s t : list Z) (i n : nat) : drop i s = t -> charAt s (i + n) = default 0 (t !! n).
Proof. intros <-. unfold charAt. by rewrite lookup_drop. Qed.

Lemma drop_more (s t1 t2 : list Z) (i : nat) : drop i s = t1 ++ t2 -> drop (i + length t1) s = t2.
Proof. intros E. rewrite <- drop_drop, E. apply drop_app_length. Qed.

Lemma findEndOfRun_ok (fuel : nat) (s b : list Z) (pos n : nat) : Forall isByte b -> (pos <= length s)%nat -> drop pos s = escapedText b -> (length b < fuel)%nat ->
  findEndOfRunLoop fuel s pos (length s) n = (pos + length (escapedText (runOf n b)))%nat.
Proof.
  intros Hb. revert pos n b Hb. induction fuel as [| fuel IH]; intros pos n b Hb Hp E Hf; [lia |]. cbn [findEndOfRunLoop].
  assert (Hlen : (length s - pos)%nat = length (escapedText b)) by (rewrite <- E, length_drop; done).
  destruct b as [| c b]; [cbn in Hlen; rewrite (proj2 (Nat.ltb_ge _ _)) by lia; cbn; lia |]. apply list.Forall_cons in Hb as [Hc Hb]. cbn [length] in Hf.
  rewrite escaped_cons in E, Hlen. pose proof (charAt_drop s _ pos 0 E) as C0. rewrite Nat.add_0_r in C0.
  destruct (escapeByte_cases c Hc) as [(Ec & h1 & h2 & v1 & v2 & Ee & H1 & H2 & _) | (Ec & Ee & Hn & Hlt)]; rewrite Ee in E, C0, Hlen; cbn [app length lookup list_lookup default from_option id] in *.
  - rewrite (proj2 (Nat.ltb_lt _ _)) by lia. rewrite C0. change (ch "%" =? ch "%") with true. cbv iota. pose proof (charAt_drop s _ pos 1 E) as C1. pose proof (charAt_drop s _ pos 2 E) as C2.
    cbn [lookup list_lookup default from_option id] in C1, C2. rewrite C1, C2, H1, H2. rewrite (proj2 (Nat.leb_le _ _)) by (unfold sequenceSize; lia). cbn [andb].
    cbn [runOf]. rewrite Ec, escaped_cons, Ee. cbn [app length]. unfold sequenceSize. rewrite (IH _ _ b); [lia | done | lia | | lia].
    by apply (drop_more s [ch "%"; h1; h2] (escapedText b) pos).
  - rewrite (proj2 (Nat.ltb_lt _ _)) by lia. rewrite C0, (proj2 (Z.eqb_neq c (ch "%")) Hn). cbn [runOf]. rewrite Ec, (proj2 (Z.leb_le c 0x7F)) by lia. rewrite andb_true_r.
    destruct ((0x40 <=? c) && (n <? 2)%nat) eqn:En; [| cbn; lia]. rewrite escaped_cons, Ee. cbn [app length]. rewrite (IH _ _ b); [rewrite (Nat.add_1_r n); lia | done | lia | | lia].
    by apply (drop_more s [c] (escapedText b) pos).
Qed.

Lemma runBytes_ok (b : list Z) : Forall isByte b -> runBytes (escapedText b) = Some b.
Proof.
  intros H. induction H as [| c b Hc H IH]; [done |]. rewrite escaped_cons.
  destruct (escapeByte_cases c Hc) as [(Ec & h1 & h2 & v1 & v2 & -> & H1 & H2 & V1 & V2 & V) | (Ec & -> & Hn & Hlt)]; cbn [app runBytes].
  - change (ch "%" =? ch "%") with true. cbv iota. rewrite V1, V2. cbn [mbind option_bind]. rewrite IH. cbn [mbind option_bind]. by rewrite V.
  - rewrite (proj2 (Z.eqb_neq c (ch "%")) Hn), IH. cbn [mbind option_bind]. unfold isByte in Hc. by rewrite Z.mod_small by lia.
Qed.

Lemma escaped_length (b : list Z) : (length b <= length (escapedText b) <= 3 * length b)%nat.
Proof.
  induction b as [| c b IH]; [cbn; lia |]. rewrite escaped_cons, length_app. cbn [length]. assert (1 <= length (escapeByte c) <= 3)%nat; [| lia]. unfold escapeByte. destruct (isBadChar c); cbn; lia.
Qed.

Lemma escaped_app (a b : list Z) : escapedText (a ++ b) = escapedText a ++ escapedText b.
Proof. apply bind_app. Qed.

(** Nothing is escapedText before the first bad byte. *)
Lemma plain_cases (b : list Z) : Forall isByte b -> exists p r, b = p ++ r /\ escapedText p = p /\ Forall (fun c => c <> ch "%" /\ c < 0x7F) p /\ (r = [] \/ exists c t, r = c :: t /\ isBadChar c = true).
Proof.
  intros H. induction H as [| c b Hc H IH]; [exists [], []; split; [done |]; split; [done |]; split; [constructor | by left] |].
  destruct (escapeByte_cases c Hc) as [(Ec & _) | (Ec & Ee & Hn & Hlt)].
  - exists [], (c :: b). split; [done |]. split; [done |]. split; [constructor |]. right. by exists c, b.
  - destruct IH as (p & r & -> & E1 & E2 & E3). exists (c :: p), r. split; [done |]. rewrite escaped_cons, Ee, E1. split; [done |]. split; [by constructor | done].
Qed.

Lemma findInString_ok (s p t : list Z) (pos : nat) : drop pos s = p ++ t -> Forall (fun c => c <> ch "%" /\ c < 0x7F) p -> (t = [] \/ exists t', t = ch "%" :: t') ->
  findInString s pos = match t with [] => None | _ => Some (pos + length p)%nat end.
Proof.
  intros E Hp Ht. unfold findInString. rewrite E. assert (Hn : list_find (fun c => c = ch "%") p = None) by (apply list_find_None; eapply list.Forall_impl; [exact Hp |]; intros c [Hc _]; exact Hc).
  rewrite list_find_app_r by done. destruct Ht as [-> | [t' ->]]; [done |]. cbn. done.
Qed.

(** ASCII at the front of a text stands for itself. *)
Lemma plain_cut (u q r : list Z) : Forall scalar u -> Forall (fun c => c <> ch "%" /\ c < 0x7F) q -> utf8s u = q ++ r -> exists v, u = q ++ v /\ utf8s v = r /\ utf16s q = q.
Proof.
  intros Hu Hq. revert u Hu. induction Hq as [| c q [_ Hc] Hq IH]; intros u Hu E; [by exists u |]. destruct u as [| c' u]; [done |]. apply Forall_cons_1 in Hu as [[Hc' Hs] Hu].
  rewrite utf8s_cons in E. assert (E8 : utf8 c' = [c']).
  { unfold utf8 in *. destruct (c' <? 0x80) eqn:E1; [done |]. exfalso. bool_to_prop. repeat case_match; bool_to_prop; cbn [app] in E; injection E as E2 _; Z.div_mod_to_equations; lia. }
  rewrite E8 in E. cbn [app] in E. injection E as -> E. destruct (IH u Hu E) as (v & -> & E1 & E2). exists v. split; [done |]. split; [done |]. by rewrite utf16s_cons, E2, utf16_bmp by lia.
Qed.

Section Decoding.
Context (decode : list Z -> result (list Z)).
Hypothesis (decode_ok : forall u, Forall scalar u -> decode (utf8s u) = Ok (utf16s u)).

(** One run is decoded as a whole, and ends between characters. *)
Lemma decodeRun_ok (u : list Z) : Forall scalar u -> decodeRun decode (escapedText (utf8s u)) = Ok (utf16s u).
Proof.
  intros Hu. unfold decodeRun. rewrite runBytes_ok by (by apply utf8s_bytes). cbn [lift mbind result_bind]. destruct (escaped_length (utf8s u)) as [L _].
  rewrite (proj2 (Nat.leb_le _ _) L). cbn [ASSERT lift mbind result_bind]. by apply decode_ok.
Qed.

Lemma bad_head (r : list Z) : Forall isByte r -> r = [] \/ isBadChar (hd 0 r) = false -> forall b r', r = b :: r' -> ~ 0x80 <= b < 0xC0.
Proof.
  intros Hb [-> | H] b r' E; [done |]. subst. cbn [hd] in H. apply list.Forall_cons in Hb as [Hb _]. destruct (escapeByte_cases b Hb) as [(E & _) | (_ & _ & _ & E)]; [congruence | lia].
Qed.

Lemma decodeEscapes_ok (fuel : nat) (s out u : list Z) (pos : nat) : Forall scalar u -> (pos <= length s)%nat -> drop pos s = escapedText (utf8s u) -> (length s - pos < fuel)%nat ->
  decodeEscapeLoop decode fuel s out pos pos = Ok (out ++ utf16s u).
Proof.
  revert out u pos. induction fuel as [| fuel IH]; intros out u pos Hu Hp E Hf; [lia |]. cbn [decodeEscapeLoop].
  pose proof (utf8s_bytes u Hu) as Hb. destruct (plain_cases _ Hb) as (p & r & Ebytes & Ep & Hplain & Hr). rewrite Ebytes, escaped_app, Ep in E.
  destruct (plain_cut u p r Hu Hplain Ebytes) as (v & -> & <- & E16). apply list.Forall_app in Hu as [_ Hv]. rewrite utf16s_app, E16. clear Hb Ebytes.
  assert (Hfind : findInString s pos = match escapedText (utf8s v) with [] => None | _ => Some (pos + length p)%nat end).
  { apply (findInString_ok s p _ pos E Hplain). destruct Hr as [-> | (c & t & -> & Hc)]; [by left | right]. rewrite escaped_cons. unfold escapeByte. rewrite Hc. eexists. reflexivity. }
  rewrite Hfind. clear Hfind. pose proof (drop_more _ _ _ _ E) as Er. assert (Hlen : (length s - pos)%nat = (length p + length (escapedText (utf8s v)))%nat) by (rewrite <- length_app, <- E, length_drop; done).
  destruct Hr as [Er0 | (c & t & Er0 & Hc)].
  { rewrite Er0. cbn [escapedText mbind list_bind]. rewrite E, Er0. cbn [escapedText mbind list_bind]. rewrite app_nil_r. assert (v = []) as ->; [| by rewrite app_nil_r].
    destruct v as [| x v]; [done |]. exfalso. rewrite utf8s_cons in Er0. pose proof (utf8_length x) as L. apply app_nil in Er0 as [Er0 _]. rewrite Er0 in L. cbn in L. lia. }
  assert (Hne : exists x y, escapedText (utf8s v) = x :: y) by (rewrite Er0, escaped_cons; unfold escapeByte; rewrite Hc; eexists _, _; reflexivity). destruct Hne as (x & y & Hne). rewrite Hne. cbv iota. clear x y Hne.
  set (q := (pos + length p)%nat) in *. pose proof (utf8s_bytes v Hv) as Hb. destruct (runOf_prefix 0 (utf8s v)) as (r & Erun & Hr).
  pose proof Hb as Hb'. rewrite Erun in Hb'. apply list.Forall_app in Hb' as [_ Hbr]. destruct (utf8s_cut v _ r Hv Erun (bad_head r Hbr Hr)) as (u1 & u2 & -> & E1 & E2). apply list.Forall_app in Hv as [Hv1 Hv2].
  assert (Hend : findEndOfRun s q (length s) = (q + length (escapedText (utf8s u1)))%nat).
  { unfold findEndOfRun. rewrite (findEndOfRun_ok _ s (utf8s (u1 ++ u2)) q 0 Hb); [by rewrite <- E1 | lia | done |]. pose proof (escaped_length (utf8s (u1 ++ u2))). lia. }
  rewrite Hend. assert (Hpos : (0 < length (escapedText (utf8s u1)))%nat).
  { rewrite E1, Er0. cbn [runOf]. rewrite Hc. pose proof (escaped_length (c :: runOf 0 t)) as L. cbn [length] in L. lia. }
  rewrite bool_decide_eq_false_2 by lia. rewrite Erun, <- E1, <- E2, escaped_app in Er, Hlen.
  assert (Hslice : slice s q (q + length (escapedText (utf8s u1))) = escapedText (utf8s u1)) by (unfold slice; rewrite Er; replace (q + length (escapedText (utf8s u1)) - q)%nat with (length (escapedText (utf8s u1))) by lia; apply take_app_length).
  rewrite Hslice, decodeRun_ok by done. cbn [mbind result_bind]. assert (Hp2 : slice s pos q = p) by (unfold slice; rewrite E; replace (q - pos)%nat with (length p) by lia; apply take_app_length).
  assert (Hu1 : exists x y, utf16s u1 = x :: y).
  { destruct u1 as [| x u1]; [cbn in Hpos; lia |]. rewrite utf16s_cons. unfold utf16. case_match; by eexists _, _. }
  destruct Hu1 as (x & y & Hu1). rewrite Hu1. cbv iota. rewrite <- Hu1, Hp2. rewrite length_app in Hlen. rewrite (IH _ u2); [| done | lia | by apply drop_more | lia].
  by rewrite utf16s_app, <- !app_assoc.
Qed.
End Decoding.

(** C21: Any text of Unicode scalar values survives the escaping of URLs: what
    encodeWithURLEscapeSequences writes for it, through String::utf8, is printable ASCII (or NUL), and
    decodeURLEscapeSequences with the UTF-8 decoder gives the text back, wherever its runs of
    escapes begin and end, without a failed assertion. *)
Theorem escape_roundtrip (wordSize endAddress : Z) (u : list Z) : wordSize = 4 \/ wordSize = 8 -> Forall scalar u ->
  exists s, encodeWithURLEscapeSequences false (utf16s u) = Some s /\ Forall (fun c => 0x20 < c < 0x7F \/ c = 0) s /\
    decodeURLEscapeSequences wordSize endAddress s = Ok (utf16s u).
Proof.
  intros Hw Hu. exists (escapedText (utf8s u)). split; [| split].
  - unfold encodeWithURLEscapeSequences. rewrite utf8Of_ok by done. cbn [mbind option_bind]. fold escapeByte. fold (escapedText (utf8s u)). rewrite (proj2 (Nat.leb_le _ _)); [done |].
    pose proof (escaped_length (utf8s u)). lia.
  - pose proof (utf8s_bytes u Hu) as Hb. unfold escapedText. induction Hb as [| c b Hc Hb IH]; [constructor |]. cbn [mbind list_bind]. apply list.Forall_app. split; [| done].
    pose proof (byte_check (fun c => forallb (fun x => (0x20 <? x) && (x <? 0x7F)) (escapeByte c) || (c =? 0)) c ltac:(by vm_compute) Hc) as E. cbv beta in E. apply orb_true_iff in E as [E | E].
    + apply list.Forall_forall. intros x Hx. rewrite forallb_forall in E. apply list_elem_of_In, E in Hx. rewrite andb_true_iff, !Z.ltb_lt in Hx. by left.
    + apply Z.eqb_eq in E. subst. by repeat constructor; right.
  - unfold decodeURLEscapeSequences, decodeEscapeSequences. apply (decodeEscapes_ok (decodeAsUTF8 wordSize endAddress)) with (out := []) (u := u); [intros v Hv; by apply decodeAsUTF8_ok | done | lia | done | lia].
Qed.

Lemma escape_roundtrip_witness : exists s, encodeWithURLEscapeSequences false (utf16s [0x41; ch "%"; 0x7A; 0x7A; 0x7A; 0xE9; 0x42; 0x20AC; 0x1F600]) = Some s /\
  Forall (fun c => 0x20 < c < 0x7F \/ c = 0) s /\ decodeURLEscapeSequences 8 0x1003 s = Ok (utf16s [0x41; ch "%"; 0x7A; 0x7A; 0x7A; 0xE9; 0x42; 0x20AC; 0x1F600]).
Proof.
  apply (escape_roundtrip 8 0x1003 [0x41; ch "%"; 0x7A; 0x7A; 0x7A; 0xE9; 0x42; 0x20AC; 0x1F600] (or_intror eq_refl)).
  repeat constructor; unfold scalar; cbn; lia.
Defined.
