(* ===== verification/KURLMembers.v ===== *)
(** * KURL: the members of a URL and the operations that change them

    The accessors and the setters of platform/KURL.{h,cpp}, isValidProtocol, protocolIs,
    isDefaultPortForProtocol, portAllowed and mimeTypeFromDataURL, and the reader of
    numbers they use (WTF/wtf/text/WTFString.cpp).  A [String] is the list of its code units;
    a null String that the caller can tell from an empty one is [None].  A setter is
    [None] where an assertion of it or of [parse] fails. *)

From S2P Require Import Prelude Digits KURL KURLEscape.

(** ** String *)

(** String::substring(pos, len) with an unsigned length. *)
Definition substring (s : list Z) (pos : nat) (len : Z) : list Z := if len <? 0 then drop pos s else take (Z.to_nat len) (drop pos s).
Definition left (s : list Z) (len : nat) : list Z := take len s.
(** substring(length() - len, len): a greater length wraps around, behind the end. *)
Definition right (s : list Z) (len : nat) : list Z := if (len <=? length s)%nat then drop (length s - len) s else [].
Definition findChar (s : list Z) (c : Z) : option nat := fst <$> list_find (fun x => x = c) s.

(** reverseFindChar(c, index) *)
Fixpoint reverseFindLoop (s : list Z) (c : Z) (index : nat) : option nat :=
  if charAt s index =? c then Some index else match index with O => None | S i => reverseFindLoop s c i end.
Definition reverseFindChar (s : list Z) (c : Z) (index : nat) : option nat :=
  match length s with O => None | S n => reverseFindLoop s c (if (length s <=? index)%nat then n else index) end.

Definition containsOnlyASCII (s : list Z) : bool := forallb (fun c => c <? 0x80) s.

Section Number.
(** u_charDirection(c) == U_WHITE_SPACE_NEUTRAL, of ICU. *)
Context (whiteSpaceNeutral : Z -> bool).

Definition isSpaceOrNewline (c : Z) : bool := if c <=? 0x7F then (c =? 0x20) || ((c <=? 0xD) && (0x9 <=? c)) else whiteSpaceNeutral c.
Fixpoint skipSpaces (s : list Z) : list Z := match s with c :: s' => if isSpaceOrNewline c then skipSpaces s' else s | [] => [] end.

(** toIntegralType<unsigned> in base 10: what is left behind the digits, unless the value overflows. *)
Fixpoint toUIntLoop (s : list Z) (value : Z) : option (Z * list Z) :=
  match s with
  | [] => Some (value, [])
  | c :: s' =>
      if isASCIIDigit c then
        let digitValue := c - ch "0" in
        let maxMultiplier := (2 ^ 32 - 1) / 10 in
        if (maxMultiplier <? value) || ((value =? maxMultiplier) && ((2 ^ 32 - 1) mod 10 <? digitValue)) then None
        else toUIntLoop s' (10 * value + digitValue)
      else Some (value, s)
  end.
Definition charactersToUIntStrict (s : list Z) : Z * bool :=
  let s := skipSpaces s in
  let s := match s with c :: s' => if c =? ch "+" then s' else s | [] => s end in
  match s with
  | c :: _ =>
      if isASCIIDigit c then
        match toUIntLoop s 0 with
        | Some (value, rest) => match skipSpaces rest with [] => (value, true) | _ => (0, false) end
        | None => (0, false)
        end
      else (0, false)
  | [] => (0, false)
  end.
End Number.

(** ** The free functions *)

Definition isValidProtocol (protocol : list Z) : bool :=
  match protocol with [] => false | c :: rest => isSchemeFirstChar c && forallb isSchemeChar rest end.

(** protocolIs(url, protocol), with assertProtocolIsGood; reading behind the text gives 0. *)
Definition protocolIsGood (protocol : list Z) : bool := forallb (fun c => (ch " " <? c) && (c <? 0x7F) && negb (isASCIIUpper c)) protocol.
Fixpoint protocolIsLoop (url protocol : list Z) : bool :=
  match protocol with
  | [] => hd 0 url =? ch ":"
  | c :: protocol' => if negb (isLetterMatchIgnoringCase (hd 0 url) c) then false else protocolIsLoop (tail url) protocol'
  end.
Definition protocolIs (url protocol : list Z) : option bool := _ ← ASSERT (protocolIsGood protocol); Some (protocolIsLoop url protocol).
Definition protocolIsJavaScript (url : list Z) : option bool := protocolIs url (units "javascript").

(** CaseFoldingHash compares the keys of the map without case; [foldCase] is u_foldCase. *)
Definition defaultPorts : list (list Z * Z) := [(units "http", 80); (units "https", 443); (units "ftp", 21); (units "ftps", 990)].
Definition isDefaultPortForProtocol (foldCase : Z -> Z) (port : Z) (protocol : list Z) : bool :=
  match protocol with
  | [] => false
  | _ => default 0 (snd <$> (snd <$> list_find (fun e => (foldCase <$> fst e) = (foldCase <$> protocol)) defaultPorts)) =? port
  end.

Definition mimeTypeFromDataURL (lowerCase : list Z -> list Z) (url : list Z) : option (list Z) :=
  isData ← protocolIs url (units "data");
  _ ← ASSERT isData;
  Some (match (match findChar url (ch ";") with Some i => Some i | None => findChar url (ch ",") end) with
        | Some index => if (5 <? index)%nat then lowerCase (substring url 5 (Z.of_nat index - 5)) else units "text/plain"
        | None => []
        end).

Definition blockedPortList : list Z :=
  [1; 7; 9; 11; 13; 15; 17; 19; 20; 21; 22; 23; 25; 37; 42; 43; 53; 77; 79; 87; 95; 101; 102; 103; 104; 109; 110; 111; 113; 115; 117; 119; 123; 135; 139; 143; 179;
   389; 465; 512; 513; 514; 515; 526; 530; 531; 532; 540; 556; 563; 587; 601; 636; 993; 995; 2049; 3659; 4045; 6000; 6665; 6666; 6667; 6668; 6669; 0xFFFF].

(** std::binary_search *)
Fixpoint binarySearchLoop (fuel : nat) (a : list Z) (first count : nat) (value : Z) : nat :=
  match fuel with
  | O => first
  | S fuel' =>
      if (0 <? count)%nat then
        let step := (count / 2)%nat in
        if charAt a (first + step) <? value then binarySearchLoop fuel' a (S (first + step)) (count - (step + 1)) value
        else binarySearchLoop fuel' a first step value
      else first
  end.
Definition binary_search (a : list Z) (value : Z) : bool :=
  let first := binarySearchLoop (S (length a)) a 0 (length a) value in
  (first <? length a)%nat && negb (value <? charAt a first).

(** ** The members of a URL *)

Module Member.

Definition maximumValidPortNumber : Z := 0xFFFE.
Definition invalidPortNumber : Z := 0xFFFF.

Definition isEmpty (k : KURL) : bool := bool_decide (m_string k = []).
Definition hasPath (k : KURL) : bool := negb (bool_decide (m_pathEnd k = m_portEnd k)).
Definition hasPort (k : KURL) : bool := (m_hostEnd k <? m_portEnd k)%nat.
Definition hostStart (k : KURL) : nat := if bool_decide (m_passwordEnd k = m_userStart k) then m_passwordEnd k else S (m_passwordEnd k).

(** The difference of two offsets, for [substring]. *)
Definition between (first last : nat) : Z := Z.of_nat last - Z.of_nat first.

Definition protocol (k : KURL) : list Z := left (m_string k) (m_schemeEnd k).
Definition host (k : KURL) : list Z := let start := hostStart k in substring (m_string k) start (between start (m_hostEnd k)).
Definition path (k : KURL) : list Z := substring (m_string k) (m_portEnd k) (between (m_portEnd k) (m_pathEnd k)).
Definition query (k : KURL) : option (list Z) :=
  if bool_decide (m_queryEnd k = m_pathEnd k) then None else Some (substring (m_string k) (S (m_pathEnd k)) (between (S (m_pathEnd k)) (m_queryEnd k))).
Definition fragmentIdentifier (k : KURL) : option (list Z) :=
  if bool_decide (m_fragmentEnd k = m_queryEnd k) then None else Some (substring (m_string k) (S (m_queryEnd k)) (between (S (m_queryEnd k)) (m_fragmentEnd k))).
Definition hasFragmentIdentifier (k : KURL) : bool := negb (bool_decide (m_fragmentEnd k = m_queryEnd k)).
Definition baseAsString (k : KURL) : list Z := left (m_string k) (m_pathAfterLastSlash k).

Definition port (whiteSpaceNeutral : Z -> bool) (k : KURL) : Z :=
  if bool_decide (m_hostEnd k = m_portEnd k) || bool_decide (S (m_hostEnd k) = m_portEnd k) then 0
  else
    let '(number, ok) := charactersToUIntStrict whiteSpaceNeutral (substring (m_string k) (S (m_hostEnd k)) (between (S (m_hostEnd k)) (m_portEnd k))) in
    if negb ok || (maximumValidPortNumber <? number) then invalidPortNumber else number.

(** The text that user() and pass() decode. *)
Definition encodedUser (k : KURL) : list Z := substring (m_string k) (m_userStart k) (between (m_userStart k) (m_userEnd k)).
Definition encodedPass (k : KURL) : option (list Z) :=
  if bool_decide (m_passwordEnd k = m_userEnd k) then None else Some (substring (m_string k) (S (m_userEnd k)) (between (S (m_userEnd k)) (m_passwordEnd k))).
Definition user (wordSize endAddress : Z) (k : KURL) : result (list Z) := decodeURLEscapeSequences wordSize endAddress (encodedUser k).
Definition pass (wordSize endAddress : Z) (k : KURL) : result (option (list Z)) :=
  match encodedPass k with None => Ok None | Some p => decoded ← decodeURLEscapeSequences wordSize endAddress p; Ok (Some decoded) end.

Definition lastPathComponent (k : KURL) : option (list Z) :=
  if negb (hasPath k) then None
  else
    let last := (m_pathEnd k - 1)%nat in
    let last := if charAt (m_string k) last =? ch "/" then (last - 1)%nat else last in
    (* notFound is greater than the end of the port *)
    match reverseFindChar (m_string k) (ch "/") last with
    | Some start => if (start <? m_portEnd k)%nat then None else Some (substring (m_string k) (S start) (between (S start) (S last)))
    | None => Some (substring (m_string k) 0 (between 0 (S last)))
    end.

Definition isHierarchical (k : KURL) : option bool :=
  if negb (m_isValid k) then Some false
  else _ ← ASSERT (charAt (m_string k) (m_schemeEnd k) =? ch ":"); Some (charAt (m_string k) (S (m_schemeEnd k)) =? ch "/").

Definition isSchemeCharacterMatchIgnoringCase (character schemeCharacter : Z) : option bool :=
  _ ← ASSERT (isSchemeChar character);
  _ ← ASSERT (negb (Z.land schemeCharacter 0x20 =? 0));
  _ ← ASSERT (isASCIILower schemeCharacter || (negb (isASCIIUpper schemeCharacter) && isSchemeChar schemeCharacter));
  Some (Z.lor character 0x20 =? schemeCharacter).

(** KURL::protocolIs; [protocol] is a C string. *)
Fixpoint matchProtocol (scheme protocol : list Z) : option bool :=
  match scheme with
  | [] => Some (match protocol with [] => true | _ => false end)
  | c :: scheme' =>
      match protocol with
      | [] => Some false
      | x :: protocol' => same ← isSchemeCharacterMatchIgnoringCase c x; if same : bool then matchProtocol scheme' protocol' else Some false
      end
  end.
Definition protocolIs (k : KURL) (protocol : list Z) : option bool :=
  _ ← ASSERT (protocolIsGood protocol);
  _ ← ASSERT (negb (equal protocol (units "javascript")));
  if negb (m_isValid k) then Some false else matchProtocol (left (m_string k) (m_schemeEnd k)) protocol.

Definition portAllowed (whiteSpaceNeutral : Z -> bool) (k : KURL) : option bool :=
  let port := port whiteSpaceNeutral k in
  if port =? 0 then Some true
  else if negb (binary_search blockedPortList port) then Some true
  else
    ftp ← (if (port =? 21) || (port =? 22) then protocolIs k (units "ftp") else Some false);
    if ftp : bool then Some true else protocolIs k (units "file").

Definition equalIgnoringFragmentIdentifier (a b : KURL) : bool :=
  if negb (bool_decide (m_queryEnd a = m_queryEnd b)) then false else equal (left (m_string a) (m_queryEnd a)) (left (m_string b) (m_queryEnd a)).

Definition protocolHostAndPortAreEqual (whiteSpaceNeutral : Z -> bool) (a b : KURL) : bool :=
  if negb (bool_decide (m_schemeEnd a = m_schemeEnd b)) then false
  else if negb (between (hostStart a) (m_hostEnd a) =? between (hostStart b) (m_hostEnd b)) then false
  else if negb (equal (left (m_string a) (m_schemeEnd a)) (left (m_string b) (m_schemeEnd a))) then false
  else if negb (equal (slice (m_string a) (hostStart a) (m_hostEnd a)) (slice (m_string b) (hostStart b) (m_hostEnd b))) then false
  else port whiteSpaceNeutral a =? port whiteSpaceNeutral b.

(** ** Changing a URL *)

(** parse(const String&) *)
Definition parseString (s : list Z) : option KURL :=
  _ ← ASSERT (containsOnlyASCII s);
  _ ← ASSERT (bool_decide (s = []) || isSchemeFirstChar (hd 0 s));
  parse (cString s) s.

Definition setProtocol (k : KURL) (s : list Z) : option (KURL * bool) :=
  let newProtocol := match findChar s (ch ":") with Some separatorPosition => substring s 0 (Z.of_nat separatorPosition) | None => s end in
  if negb (isValidProtocol newProtocol) then Some (k, false)
  else if negb (m_isValid k) then k' ← parseString (newProtocol ++ ch ":" :: m_string k); Some (k', true)
  else k' ← parseString (newProtocol ++ drop (m_schemeEnd k) (m_string k)); Some (k', true).

Definition slashSlash (needed : bool) : list Z := if needed then [ch "/"; ch "/"] else [].

Definition setHost (k : KURL) (s : list Z) : option KURL :=
  if negb (m_isValid k) then Some k
  else
    let slashSlashNeeded := bool_decide (m_userStart k = S (m_schemeEnd k)) in
    parseString (left (m_string k) (hostStart k) ++ slashSlash slashSlashNeeded ++ s ++ drop (m_hostEnd k) (m_string k)).

Definition removePort (k : KURL) : option KURL :=
  if bool_decide (m_hostEnd k = m_portEnd k) then Some k else parseString (left (m_string k) (m_hostEnd k) ++ drop (m_portEnd k) (m_string k)).

Definition setPort (k : KURL) (i : Z) : option KURL :=
  if negb (m_isValid k) then Some k
  else
    let colonNeeded := bool_decide (m_portEnd k = m_hostEnd k) in
    let portStart := if colonNeeded then m_hostEnd k else S (m_hostEnd k) in
    parseString (left (m_string k) portStart ++ (if colonNeeded then [ch ":"] else []) ++ numberToString i ++ drop (m_portEnd k) (m_string k)).

Definition setHostAndPort (k : KURL) (hostAndPort : list Z) : option KURL :=
  if negb (m_isValid k) then Some k
  else
    let slashSlashNeeded := bool_decide (m_userStart k = S (m_schemeEnd k)) in
    parseString (left (m_string k) (hostStart k) ++ slashSlash slashSlashNeeded ++ hostAndPort ++ drop (m_portEnd k) (m_string k)).

Definition setUser (k : KURL) (user : list Z) : option KURL :=
  if negb (m_isValid k) then Some k
  else
    let last := m_userEnd k in
    match user with
    | _ :: _ =>
        let u := slashSlash (bool_decide (m_userStart k = S (m_schemeEnd k))) ++ user in
        let u := if bool_decide (last = m_hostEnd k) || (bool_decide (last = m_passwordEnd k) && negb (charAt (m_string k) last =? ch "@")) then u ++ [ch "@"] else u in
        parseString (left (m_string k) (m_userStart k) ++ u ++ drop last (m_string k))
    | [] =>
        let last := if bool_decide (m_userEnd k = m_passwordEnd k) && negb (bool_decide (last = m_hostEnd k)) && (charAt (m_string k) last =? ch "@") then S last else last in
        if negb (bool_decide (m_userStart k = last)) then parseString (left (m_string k) (m_userStart k) ++ drop last (m_string k)) else Some k
    end.

Definition setPass (k : KURL) (password : list Z) : option KURL :=
  if negb (m_isValid k) then Some k
  else
    let last := m_passwordEnd k in
    match password with
    | _ :: _ =>
        let p := slashSlash (bool_decide (m_userEnd k = S (m_schemeEnd k))) ++ ch ":" :: password ++ [ch "@"] in
        let last := if negb (bool_decide (last = m_hostEnd k)) && (charAt (m_string k) last =? ch "@") then S last else last in
        parseString (left (m_string k) (m_userEnd k) ++ p ++ drop last (m_string k))
    | [] =>
        let last := if bool_decide (m_userStart k = m_userEnd k) && negb (bool_decide (last = m_hostEnd k)) && (charAt (m_string k) last =? ch "@") then S last else last in
        if negb (bool_decide (m_userEnd k = last)) then parseString (left (m_string k) (m_userEnd k) ++ drop last (m_string k)) else Some k
    end.

Definition setFragmentIdentifier (k : KURL) (s : list Z) : option KURL :=
  if negb (m_isValid k) then Some k else parseString (left (m_string k) (m_queryEnd k) ++ ch "#" :: s).

Definition removeFragmentIdentifier (k : KURL) : option KURL :=
  if negb (m_isValid k) then Some k else parseString (left (m_string k) (m_queryEnd k)).

(** A null String removes the query. *)
Definition setQuery (k : KURL) (query : option (list Z)) : option KURL :=
  if negb (m_isValid k) then Some k
  else
    let text := match query with None => [] | Some q => if (bool_decide (q = []) || negb (charAt q 0 =? ch "?")) then ch "?" :: q else q end in
    parseString (left (m_string k) (m_pathEnd k) ++ text ++ drop (m_queryEnd k) (m_string k)).

Definition setPath (k : KURL) (is8Bit : bool) (s : list Z) : option KURL :=
  if negb (m_isValid k) then Some k
  else
    let path := if bool_decide (s = []) || negb (charAt s 0 =? ch "/") then ch "/" :: s else s in
    encoded ← encodeWithURLEscapeSequences is8Bit path;
    parseString (left (m_string k) (m_portEnd k) ++ encoded ++ drop (m_pathEnd k) (m_string k)).

Definition strippedForUseAsReferrer (k : KURL) : option (list Z) :=
  referrer ← setUser k [];
  referrer ← setPass referrer [];
  referrer ← removeFragmentIdentifier referrer;
  Some (m_string referrer).

Definition isLocalFile (k : KURL) : option bool := file ← protocolIs k (units "file"); if file : bool then Some true else protocolIs k (units "qrc").
Definition isBlankURL (k : KURL) : option bool := protocolIs k (units "about").

Definition stringCenterEllipsizedToLength (k : KURL) (len : Z) : list Z :=
  let s := m_string k in
  if Z.of_nat (length s) <=? len then s
  else left s (Z.to_nat ((len / 2 - 1) mod 2 ^ 32)) ++ units "..." ++ right s (Z.to_nat ((len / 2 - 2) mod 2 ^ 32)).

End Member.
