(* ===== verification/KURLMemberTheorems.v ===== *)
(** * KURL: the members are the canonical parts, and a setter changes one of them

    [members_parts]: what the accessors give for a parsed URL.  [setters_local]: what changing
    one member does. *)

From S2P Require Import Prelude Digits KURL KURLParts KURLParse KURLProperties KURLEscape KURLMembers.

(** ** The accessors *)

Lemma substring_slice (s : list Z) (first last : nat) : (first <= last)%nat -> substring s first (Member.between first last) = slice s first last.
Proof. intros H. unfold substring, Member.between, slice. rewrite (proj2 (Z.ltb_ge _ _)) by lia. by replace (Z.to_nat (Z.of_nat last - Z.of_nat first)) with (last - first)%nat by lia. Qed.

Lemma slice_tail (s t : list Z) (first last : nat) (c : Z) : slice s first last = c :: t -> slice s (S first) last = t.
Proof. intros E. by apply slice_cons in E as (_ & _ & E). Qed.

(** The text after the character that begins a part. *)
Definition afterMark (text : list Z) : option (list Z) := match text with [] => None | _ :: t => Some t end.

Lemma mark_member (s : list Z) (first last : nat) (text : list Z) : (first <= last <= length s)%nat -> slice s first last = text ->
  (if bool_decide (last = first) then None else Some (substring s (S first) (Member.between (S first) last))) = afterMark text.
Proof.
  intros H E. case_bool_decide as D.
  - subst. by rewrite slice_end by done.
  - destruct text as [| c t]; [apply slice_nil in E; lia |]. rewrite substring_slice by lia. by rewrite (slice_tail _ t _ _ c E).
Qed.

Lemma host_offsets (P : Parts) (k : KURL) : k = kurlOf P -> Member.hostStart k = (length (prefixText P) + length (userInfoText P) + length (atText P))%nat /\ (Member.hostStart k <= m_hostEnd k)%nat /\
  slice (m_string k) (Member.hostStart k) (m_hostEnd k) = p_host P.
Proof.
  intros Ek. assert (E : Member.hostStart k = (length (prefixText P) + length (userInfoText P) + length (atText P))%nat).
  { subst. unfold Member.hostStart, kurlOf, atText. cbn [m_passwordEnd m_userStart]. destruct (userInfoText P) as [| c t]; [rewrite bool_decide_eq_true_2 by (cbn; lia); rewrite equal_refl; cbn; lia |].
    rewrite bool_decide_eq_false_2 by (cbn [length]; lia). rewrite equal_neq by done. cbn [length]. lia. }
  split; [done |]. rewrite E. subst k. unfold kurlOf. cbn [m_hostEnd m_string]. split; [lia |].
  assert (Ec : print P = concat [prefixText P; userInfoText P; atText P; p_host P; p_port P ++ p_path P ++ p_query P ++ p_fragment P]) by (unfold print, authorityText; cbn [concat]; rewrite app_nil_r, <- !app_assoc; done).
  rewrite Ec. apply (slice_concat _ 3); [done | cbn [take sum_list_with]; lia | lia].
Qed.

(** The number of a port. *)
Definition portNumber (port : list Z) : Z :=
  match afterMark port with
  | None | Some [] => 0
  | Some digits => let n := numFrom 0 digits in if Member.maximumValidPortNumber <? n then Member.invalidPortNumber else n
  end.

Lemma digit_range (c : Z) : isASCIIDigit c = true -> 48 <= c <= 57.
Proof. unfold isASCIIDigit. rewrite andb_true_iff, !Z.leb_le. done. Qed.

Lemma toUIntLoop_ok (digits : list Z) (value : Z) : Forall (fun c => isASCIIDigit c = true) digits -> 0 <= value < 2 ^ 32 ->
  toUIntLoop digits value = (if numFrom value digits <? 2 ^ 32 then Some (numFrom value digits, []) else None).
Proof.
  intros H. revert value. induction H as [| c digits Hc H IH]; intros value Hv; [cbn [toUIntLoop]; change (numFrom value []) with value; by rewrite (proj2 (Z.ltb_lt value _)) by lia |].
  cbn [toUIntLoop]. rewrite Hc. apply digit_range in Hc. change ((2 ^ 32 - 1) / 10) with 429496729. change ((2 ^ 32 - 1) mod 10) with 5. change (ch "0") with 48 in *.
  change (numFrom value (c :: digits)) with (numFrom (value * 10 + (c - 48)) digits). assert (Hd : Digits.digits digits) by (eapply list.Forall_impl; [exact H |]; intros x; apply digit_range).
  destruct ((429496729 <? value) || ((value =? 429496729) && (5 <? c - 48))) eqn:E.
  - assert (2 ^ 32 <= value * 10 + (c - 48)) by (rewrite orb_true_iff, andb_true_iff, !Z.ltb_lt, Z.eqb_eq in E; lia). pose proof (numFrom_le (value * 10 + (c - 48)) digits Hd ltac:(lia)). by rewrite (proj2 (Z.ltb_ge _ _)) by lia.
  - rewrite orb_false_iff, Z.ltb_ge, andb_false_iff, Z.eqb_neq, Z.ltb_ge in E. rewrite IH by lia. replace (10 * value + (c - 48)) with (value * 10 + (c - 48)) by lia. done.
Qed.

Lemma digits_strict (w : Z -> bool) (digits : list Z) : digits <> [] -> Forall (fun c => isASCIIDigit c = true) digits ->
  charactersToUIntStrict w digits = (if numFrom 0 digits <? 2 ^ 32 then (numFrom 0 digits, true) else (0, false)).
Proof.
  intros Hne H. pose proof (toUIntLoop_ok digits 0 H ltac:(lia)) as E. unfold charactersToUIntStrict. destruct digits as [| c t]; [done |]. apply list.Forall_cons in H as [Hc _].
  pose proof (digit_range _ Hc) as R. assert (Es : isSpaceOrNewline w c = false).
  { unfold isSpaceOrNewline. rewrite (proj2 (Z.leb_le c 0x7F)), (proj2 (Z.eqb_neq c 0x20)), (proj2 (Z.leb_gt c 0xD)) by lia. done. }
  cbn [skipSpaces]. rewrite Es, (proj2 (Z.eqb_neq c (ch "+"))) by (change (ch "+") with 43; lia). cbv beta zeta iota. rewrite Hc, E. by destruct (numFrom 0 (c :: t) <? 2 ^ 32).
Qed.

Lemma port_ok (w : Z -> bool) (P : Parts) (k : KURL) : k = kurlOf P -> writtenAuthority P -> Member.port w k = portNumber (p_port P).
Proof.
  intros Ek HW. pose proof (slices P k Ek) as (_ & _ & _ & _ & _ & Hp & _). assert (Ee : m_portEnd k = (m_hostEnd k + length (p_port P))%nat) by (by subst).
  unfold Member.port, portNumber. destruct (w_port _ HW) as [E | (digits & E & Hd)]; rewrite E in *; cbn [length] in Ee.
  - rewrite bool_decide_eq_true_2 by lia. done.
  - rewrite bool_decide_eq_false_2 by lia. cbn [orb afterMark]. destruct digits as [| c t]; [rewrite bool_decide_eq_true_2 by (cbn in Ee; lia); done |].
    cbn [length] in Ee. rewrite bool_decide_eq_false_2 by lia. rewrite substring_slice by lia. rewrite (slice_tail _ _ _ _ _ Hp). rewrite digits_strict by done.
    unfold Member.maximumValidPortNumber. destruct (numFrom 0 (c :: t) <? 2 ^ 32) eqn:E2; cbn [negb orb]; [done |]. apply Z.ltb_ge in E2. by rewrite (proj2 (Z.ltb_lt _ _)) by lia.
Qed.

Lemma userInfo_zero_length (P : Parts) : passwordText P = [] <-> p_password P = [].
Proof. unfold passwordText. destruct (equal (p_password P) []) eqn:E; [apply equal_eq in E; done |]. split; [done |]. intros H. by rewrite H, equal_refl in E. Qed.

(** C19: The members of a URL parsed from a text whose scheme, if it is a special one, is
    followed by two slashes ([wellSlashed]) are the canonical parts of the text: the scheme in lower
    case, the user, the password, the host, the port as a number from 0 to 65534 with 65535
    for one that is too large, the path, the query and the fragment without their marks, null
    where the text has none; protocol() and host() and path() of the string printed from the
    parts are these parts.  Read together with [splitURL] and [buildParts], which read the
    text from its front, this is the contract of the parser. *)
Theorem members_parts (w : Z -> bool) (url o : list Z) (r : RawURL) : cText url -> wellSlashed url -> splitURL url = Some r ->
  let P := buildParts r in exists k, parse url o = Some k /\ m_isValid k = true /\ m_string k = print P /\
    Member.protocol k = lower (r_scheme r) /\ Member.encodedUser k = p_user P /\ Member.encodedPass k = (if equal (p_password P) [] then None else Some (p_password P)) /\
    Member.host k = p_host P /\ Member.port w k = portNumber (p_port P) /\ Member.path k = p_path P /\
    Member.query k = afterMark (p_query P) /\ Member.fragmentIdentifier k = afterMark (p_fragment P).
Proof.
  intros Hu Hw Hr P. rewrite parse_ok, Hr by done. fold P. exists (kurlOf P). set (k := kurlOf P). split; [done |]. split; [done |]. split; [done |].
  pose proof (splitURL_read _ _ Hu Hr) as HR. destruct (schemeOk_lower _ (d_scheme _ HR)) as [Hs _]. pose proof (kurlOf_ordered P Hs) as HO. fold k in HO. destruct HO as [O1 O2 O3 O4 O5 O6 O7 O8 O9].
  pose proof (slices P k eq_refl) as (S1 & _ & S3 & S4 & _ & _ & S7 & S8 & S9). destruct (host_offsets P k eq_refl) as (_ & Hle & Sh).
  split; [unfold Member.protocol, left; unfold slice in S1; rewrite drop_0, Nat.sub_0_r in S1; exact S1 |]. split; [unfold Member.encodedUser; by rewrite substring_slice |]. split.
  { unfold Member.encodedPass. rewrite (mark_member _ _ _ (passwordText P)); [| lia | exact S4]. unfold passwordText. by destruct (equal (p_password P) []). }
  split; [unfold Member.host; by rewrite substring_slice |]. split; [by apply port_ok; [| apply built_written, (d_authority _ HR)] |]. split; [unfold Member.path; rewrite substring_slice by lia; exact S7 |].
  split; [unfold Member.query; apply mark_member; [lia | exact S8] | unfold Member.fragmentIdentifier; apply mark_member; [lia | exact S9]].
Qed.

Lemma members_parts_witness : exists k, parse (units "HTTP://us:pw@EXAMPLE.com:8080/a/./b?q#f") [] = Some k /\
  Member.host k = units "example.com" /\ Member.port (fun _ => false) k = 8080 /\ Member.path k = units "/a/b" /\ Member.query k = Some (units "q") /\ Member.encodedPass k = Some (units "pw").
Proof.
  destruct (members_parts (fun _ => false) (units "HTTP://us:pw@EXAMPLE.com:8080/a/./b?q#f") [] _ ltac:(apply text_check; vm_compute; reflexivity) ltac:(intros _; eexists; vm_compute; reflexivity) eq_refl)
    as (k & E & _ & _ & _ & _ & E1 & E2 & E3 & E4 & E5 & _).
  exists k. rewrite E1, E2, E3, E4, E5. split; [exact E |]. vm_compute. done.
Defined.

(** ** The setters *)

(** The parts of a URL that parses to itself. *)
Record canonicalParts (P : Parts) : Prop := {
  c_rereadable : rereadable P;
  c_stable : stable P = true;
  c_fixed : buildParts (rereadURL P) = P;
  c_url : Forall (fun c => isURLChar c = true) (print P) }.

Lemma built_canonical (r : RawURL) : readParts r -> noTabs (r_path r) -> stable (buildParts r) = true -> canonicalParts (buildParts r).
Proof. intros HR Ht Hst. split; [by apply built_rereadable | done | by apply build_reread | by apply built_url]. Qed.

Definition isASCIIText (s : list Z) : Prop := Forall (fun c => 0 < c < 0x80) s.

Lemma cString_text (s : list Z) : isASCIIText s -> cString s = s.
Proof. intros H. induction H as [| c s Hc H IH]; [done |]. cbn [cString]. rewrite (proj2 (Z.eqb_neq c 0)) by lia. by rewrite IH. Qed.

Lemma ascii_cText (s : list Z) : isASCIIText s -> cText s.
Proof. intros H. eapply list.Forall_impl; [exact H |]. cbv beta. intros c Hc. lia. Qed.

Lemma url_ascii (s : list Z) : Forall (fun c => isURLChar c = true) s -> isASCIIText s.
Proof. intros H. eapply list.Forall_impl; [exact H |]. intros c Hc. cbv beta in *. unfold isURLChar in Hc. rewrite !andb_true_iff, !Z.ltb_lt in Hc. lia. Qed.

Lemma print_head (P : Parts) : schemeOk (p_scheme P) -> isSchemeFirstChar (hd 0 (print P)) = true.
Proof. intros [(c & s & E & Hc) _]. unfold print, prefixText. by rewrite E. Qed.

(** Parsing what was put together from the parts. *)
Lemma parseString_print (Q : Parts) : rereadable Q -> stable Q = true -> isASCIIText (print Q) -> Member.parseString (print Q) = Some (kurlOf (buildParts (rereadURL Q))).
Proof.
  intros HV Hst Ha. unfold Member.parseString. assert (containsOnlyASCII (print Q) = true) as ->.
  { unfold containsOnlyASCII. apply forallb_forall. intros c Hc. rewrite <- list_elem_of_In in Hc. unfold isASCIIText in Ha. rewrite list.Forall_forall in Ha. apply Ha in Hc. apply Z.ltb_lt. lia. }
  cbn [ASSERT mbind option_bind]. rewrite (print_head _ (v_scheme _ HV)), orb_true_r. cbn [ASSERT mbind option_bind]. rewrite cString_text by done.
  rewrite parse_ok by (by apply ascii_cText || by apply print_slashed). by rewrite splitURL_print.
Qed.

Definition withPath (P : Parts) (path : list Z) : Parts := mkParts (p_scheme P) (p_slashes P) (p_user P) (p_password P) (p_host P) (p_port P) path (p_query P) (p_fragment P).
Definition withQuery (P : Parts) (query : list Z) : Parts := mkParts (p_scheme P) (p_slashes P) (p_user P) (p_password P) (p_host P) (p_port P) (p_path P) query (p_fragment P).
Definition withFragment (P : Parts) (fragment : list Z) : Parts := mkParts (p_scheme P) (p_slashes P) (p_user P) (p_password P) (p_host P) (p_port P) (p_path P) (p_query P) fragment.
Definition withPort (P : Parts) (port : list Z) : Parts := mkParts (p_scheme P) (p_slashes P) (p_user P) (p_password P) (p_host P) port (p_path P) (p_query P) (p_fragment P).
Definition withHost (P : Parts) (host : list Z) : Parts := mkParts (p_scheme P) true (p_user P) (p_password P) host (p_port P) (p_path P) (p_query P) (p_fragment P).

Lemma text_parts (P : Parts) : rereadable P -> cText (p_path P) /\ cText (p_query P) /\ cText (p_fragment P).
Proof. intros HV. pose proof (v_text _ HV) as H. apply list.Forall_app in H as [H1 H]. by apply list.Forall_app in H as [H2 H3]. Qed.

Lemma written_eq (P Q : Parts) : p_user Q = p_user P -> p_password Q = p_password P -> p_host Q = p_host P -> p_port Q = p_port P -> writtenAuthority P -> writtenAuthority Q.
Proof. intros E1 E2 E3 E4 [W1 W2 W3 W4 W5]. split; rewrite ?E1, ?E2, ?E3, ?E4; try done. unfold userInfoText, passwordText in *. by rewrite E1, E2. Qed.

Lemma withFragment_ok (P : Parts) (f : option (list Z)) : canonicalParts P -> isASCIIText (default [] f) ->
  Member.parseString (print (withFragment P (fragmentText f))) = Some (kurlOf (withFragment P (match f with Some s => ch "#" :: escapeAndAppendNonHierarchicalPart s | None => [] end))).
Proof.
  intros [HV Hst HF Ha] Hf. destruct (text_parts P HV) as (T1 & T2 & T3). set (Q := withFragment P (fragmentText f)).
  assert (Hft : isASCIIText (fragmentText f)) by (destruct f; [constructor; [cbn; lia | exact Hf] | constructor]).
  assert (HQ : rereadable Q).
  { destruct HV. split; cbn [Q withFragment p_scheme p_slashes p_path p_query p_fragment]; try done; [by apply (written_eq P) | by destruct f |]. apply text_app; [done |]. apply text_app; [done |]. by apply ascii_cText. }
  rewrite parseString_print; [| exact HQ | exact Hst |].
  - f_equal. f_equal. transitivity (withFragment (buildParts (rereadURL P)) (match f with Some s => ch "#" :: escapeAndAppendNonHierarchicalPart s | None => [] end)); [by destruct f | by rewrite HF].
  - apply url_ascii in Ha. unfold print in Ha |- *. unfold isASCIIText in *. rewrite !list.Forall_app in Ha |- *. destruct Ha as (A1 & A2 & A3 & A4 & A5). done.
Qed.

Lemma withQuery_ok (P : Parts) (q : list Z) : canonicalParts P -> isASCIIText q -> queryOk q ->
  Member.parseString (print (withQuery P q)) = Some (kurlOf (withQuery P (appendEscapingBadChars q))).
Proof.
  intros [HV Hst HF Ha] Hq Hqk. destruct (text_parts P HV) as (T1 & T2 & T3). set (Q := withQuery P q).
  assert (HQ : rereadable Q).
  { destruct HV. split; cbn [Q withQuery p_scheme p_slashes p_path p_query p_fragment]; try done; [by apply (written_eq P) |]. apply text_app; [done |]. apply text_app; [by apply ascii_cText | done]. }
  rewrite parseString_print; [| exact HQ | exact Hst |].
  - f_equal. f_equal. transitivity (withQuery (buildParts (rereadURL P)) (appendEscapingBadChars q)); [done | by rewrite HF].
  - apply url_ascii in Ha. unfold print in Ha |- *. unfold isASCIIText in *. rewrite !list.Forall_app in Ha |- *. destruct Ha as (A1 & A2 & A3 & A4 & A5). done.
Qed.

Definition withAuthority (P : Parts) (host port : list Z) : Parts := mkParts (p_scheme P) true (p_user P) (p_password P) host port (p_path P) (p_query P) (p_fragment P).
Definition portText (port : list Z) : Prop := port = [] \/ exists digits, port = ch ":" :: digits /\ Forall (fun c => isASCIIDigit c = true) digits.

Lemma withAuthority_ok (P : Parts) (host port : list Z) : canonicalParts P -> isFileScheme (p_scheme P) = false -> p_path P = [] \/ head (p_path P) = Some (ch "/") ->
  hostOk host -> host <> [] -> portText port ->
  Member.parseString (print (withAuthority P host port)) = Some (kurlOf (withAuthority P (canonicalHost (p_scheme P) host) (canonicalPort (p_scheme P) host (portDigits port)))).
Proof.
  intros [HV Hst HF Ha] Hfile Hpath Hh Hne Hport. destruct (text_parts P HV) as (T1 & T2 & T3). set (Q := withAuthority P host port). pose proof (v_written _ HV) as HW.
  assert (HWQ : writtenAuthority Q) by (split; [exact (w_user _ HW) | exact (w_password _ HW) | exact Hh | exact Hport | done]).
  assert (Hneq : negb (equal host []) = true) by (by rewrite equal_neq).
  assert (HQ : rereadable Q).
  { split; [exact (v_scheme _ HV) | exact HWQ | exact (v_path _ HV) | exact (v_query _ HV) | exact (v_fragment _ HV) | exact (v_text _ HV) | by intros _ | done |].
    right. right. apply text_nonempty. cbn [Q withAuthority p_host]. by rewrite Hneq. }
  assert (HstQ : stable Q = true) by (unfold stable; cbn [Q withAuthority p_scheme p_slashes]; by rewrite Hfile).
  assert (HaQ : isASCIIText (print Q)).
  { apply url_ascii. unfold print. apply url_app; [apply prefix_url, (v_scheme _ HV) |]. apply url_app; [by apply authority_url |]. unfold print in Ha. rewrite !list.Forall_app in Ha. destruct Ha as (_ & _ & A). rewrite !list.Forall_app. exact A. }
  rewrite (parseString_print Q HQ HstQ HaQ), buildParts_eq. cbv zeta.
  assert (Hfull : fullAuthority (rereadURL Q) = true).
  { unfold fullAuthority. change (r_scheme (rereadURL Q)) with (p_scheme P). rewrite Hfile. change (a_host (r_authority (rereadURL Q))) with host. by rewrite Hneq, orb_true_r. }
  assert (Hdrop : hostDropped (rereadURL Q) = false) by (unfold hostDropped; change (r_scheme (rereadURL Q)) with (p_scheme P); by rewrite Hfile).
  rewrite Hfull, Hdrop, orb_true_r. cbn [andb negb]. rewrite buildParts_eq in HF. cbv zeta in HF.
  pose proof (f_equal p_scheme HF) as F1. pose proof (f_equal p_path HF) as F7. pose proof (f_equal p_query HF) as F8. pose proof (f_equal p_fragment HF) as F9. cbn [p_scheme p_path p_query p_fragment] in F1, F7, F8, F9.
  change (r_scheme (rereadURL Q)) with (p_scheme P). change (r_scheme (rereadURL P)) with (p_scheme P) in F1. rewrite F1. do 2 f_equal. unfold withAuthority. f_equal.
  - rewrite <- F7. unfold canonicalPath. cbn [rereadURL r_path r_scheme r_hierarchical Q withAuthority p_path p_scheme p_slashes orb]. destruct Hpath as [-> | Hpath]; [done |].
    destruct (p_path P) as [| c p]; [done |]. injection Hpath as ->. cbn [hd]. by rewrite Z.eqb_refl, orb_true_r.
  - exact F8.
  - exact F9.
Qed.

(** ** Where the setters cut the string *)

Lemma take_concat (parts : list (list Z)) (i n : nat) : n = sum_list_with length (take i parts) -> take n (concat parts) = concat (take i parts).
Proof.
  intros ->. assert (L : forall l : list (list Z), length (concat l) = sum_list_with length l) by (induction l as [| x l IH]; [done | cbn; by rewrite length_app, IH]).
  rewrite <- (take_drop i parts) at 2. rewrite concat_app, <- L. apply take_app_length.
Qed.

Lemma drop_concat (parts : list (list Z)) (i n : nat) : n = sum_list_with length (take i parts) -> drop n (concat parts) = concat (drop i parts).
Proof.
  intros ->. assert (L : forall l : list (list Z), length (concat l) = sum_list_with length l) by (induction l as [| x l IH]; [done | cbn; by rewrite length_app, IH]).
  rewrite <- (take_drop i parts) at 2. rewrite concat_app, <- L. apply drop_app_length.
Qed.

(** The string in the parts that the setters tell apart. *)
Definition pieces (P : Parts) : list (list Z) := [prefixText P; userInfoText P; atText P; p_host P; p_port P; p_path P; p_query P; p_fragment P].

Lemma print_pieces (P : Parts) : print P = concat (pieces P).
Proof. unfold print, authorityText, pieces. cbn [concat]. by rewrite app_nil_r, <- !app_assoc. Qed.

Lemma cut_pieces (P : Parts) (k : KURL) : k = kurlOf P ->
  take (Member.hostStart k) (m_string k) = concat (take 3 (pieces P)) /\ take (m_hostEnd k) (m_string k) = concat (take 4 (pieces P)) /\
  drop (m_hostEnd k) (m_string k) = concat (drop 4 (pieces P)) /\ drop (m_portEnd k) (m_string k) = concat (drop 5 (pieces P)) /\
  take (m_pathEnd k) (m_string k) = concat (take 6 (pieces P)) /\ take (m_queryEnd k) (m_string k) = concat (take 7 (pieces P)) /\ drop (m_queryEnd k) (m_string k) = concat (drop 7 (pieces P)).
Proof.
  intros Ek. destruct (host_offsets P k Ek) as (Eh & _ & _). rewrite Eh. subst k. unfold kurlOf. cbn [m_string m_hostEnd m_portEnd m_pathEnd m_queryEnd]. rewrite print_pieces.
  split; [apply take_concat; cbn [pieces take sum_list_with]; lia |]. split; [apply take_concat; cbn [pieces take sum_list_with]; lia |]. split; [apply drop_concat; cbn [pieces take sum_list_with]; lia |].
  split; [apply drop_concat; cbn [pieces take sum_list_with]; lia |]. split; [apply take_concat; cbn [pieces take sum_list_with]; lia |]. split; [apply take_concat | apply drop_concat]; cbn [pieces take sum_list_with]; lia.
Qed.

Lemma no_slashes_text (P : Parts) : rereadable P -> p_slashes P = false -> userInfoText P = [] /\ p_host P = [] /\ p_port P = [].
Proof. intros HV Hs. destruct (v_plain _ HV Hs) as (E & _). unfold authorityText in E. apply app_nil in E as [E1 E]. apply app_nil in E as [_ E]. by apply app_nil in E. Qed.

(** The slashes that setHost adds. *)
Lemma slashes_added (P : Parts) (k : KURL) (host port : list Z) : k = kurlOf P -> rereadable P ->
  concat (take 3 (pieces P)) ++ Member.slashSlash (bool_decide (m_userStart k = S (m_schemeEnd k))) ++ host ++ port ++ concat (drop 5 (pieces P)) = print (withAuthority P host port).
Proof.
  intros -> HV. unfold kurlOf. cbn [m_userStart m_schemeEnd]. rewrite (print_pieces (withAuthority P host port)). unfold pieces. cbn [take drop concat]. change (userInfoText (withAuthority P host port)) with (userInfoText P).
  change (atText (withAuthority P host port)) with (atText P). unfold prefixText. cbn [withAuthority p_scheme p_slashes p_host p_port p_path p_query p_fragment]. rewrite !app_nil_r. destruct (p_slashes P) eqn:Es.
  - rewrite bool_decide_eq_false_2 by (rewrite length_app; cbn [length]; lia). cbn [Member.slashSlash app]. by rewrite <- !app_assoc.
  - rewrite bool_decide_eq_true_2 by (rewrite length_app; cbn [length]; lia). destruct (no_slashes_text P HV Es) as (E & _). unfold atText. rewrite E, equal_refl. cbn [Member.slashSlash app]. by rewrite app_nil_r, <- !app_assoc.
Qed.

Lemma authority_same (P : Parts) : rereadable P -> p_host P <> [] -> withAuthority P (p_host P) (p_port P) = P.
Proof.
  intros HV Hh. destruct (p_slashes P) eqn:Es; [unfold withAuthority; rewrite <- Es; by destruct P |]. destruct (no_slashes_text P HV Es) as (_ & E & _). done.
Qed.

Lemma port_print (P : Parts) (port : list Z) : rereadable P -> p_host P <> [] -> concat (take 4 (pieces P)) ++ port ++ concat (drop 5 (pieces P)) = print (withAuthority P (p_host P) port).
Proof.
  intros HV Hh. rewrite (print_pieces (withAuthority P (p_host P) port)). unfold pieces. cbn [take drop concat]. change (userInfoText (withAuthority P (p_host P) port)) with (userInfoText P).
  change (atText (withAuthority P (p_host P) port)) with (atText P). assert (E : prefixText (withAuthority P (p_host P) port) = prefixText P).
  { unfold prefixText. cbn [withAuthority p_scheme p_slashes]. destruct (p_slashes P) eqn:Es; [done |]. destruct (no_slashes_text P HV Es) as (_ & E & _). done. }
  rewrite E. cbn [withAuthority p_host p_port p_path p_query p_fragment]. by rewrite !app_nil_r, <- !app_assoc.
Qed.

Definition hostPath (P : Parts) : Prop := isFileScheme (p_scheme P) = false /\ (p_path P = [] \/ head (p_path P) = Some (ch "/")).

Lemma setHost_ok (P : Parts) (h : list Z) : canonicalParts P -> hostPath P -> hostOk h -> h <> [] ->
  Member.setHost (kurlOf P) h = Some (kurlOf (withAuthority P (canonicalHost (p_scheme P) h) (canonicalPort (p_scheme P) h (portDigits (p_port P))))).
Proof.
  intros HC [Hf Hp] Hh Hne. pose proof (c_rereadable _ HC) as HV. destruct (cut_pieces P _ eq_refl) as (C1 & _ & C3 & _). unfold Member.setHost, left. rewrite C1, C3. cbn [kurlOf m_isValid negb].
  rewrite <- (withAuthority_ok P h (p_port P) HC Hf Hp Hh Hne (w_port _ (v_written _ HV))), <- (slashes_added P _ h (p_port P) eq_refl HV). done.
Qed.

Lemma setPort_ok (P : Parts) (i : Z) : canonicalParts P -> hostPath P -> p_host P <> [] -> canonicalHost (p_scheme P) (p_host P) = p_host P -> 0 <= i < 65536 ->
  Member.setPort (kurlOf P) i = Some (kurlOf (withAuthority P (p_host P) (canonicalPort (p_scheme P) (p_host P) (Some (numberToString i))))).
Proof.
  intros HC [Hf Hp] Hne Hch Hi. pose proof (c_rereadable _ HC) as HV. destruct (cut_pieces P _ eq_refl) as (_ & C2 & _ & C4 & _). pose proof (v_written _ HV) as HW.
  destruct (numberToString_ok i ltac:(lia)) as (Hd & _). assert (Hd' : Forall (fun c => isASCIIDigit c = true) (numberToString i)).
  { eapply list.Forall_impl; [exact Hd |]. intros c Hc. unfold isASCIIDigit. cbv beta in Hc. rewrite andb_true_iff, !Z.leb_le. exact Hc. }
  pose proof (withAuthority_ok P (p_host P) (ch ":" :: numberToString i) HC Hf Hp (w_host _ HW) Hne ltac:(right; by eexists)) as E. rewrite Hch in E. cbn [portDigits] in E. rewrite <- E, <- (port_print P _ HV Hne).
  unfold Member.setPort, left. rewrite C4. cbn [kurlOf m_isValid negb]. destruct (p_port P) as [| c t] eqn:Ep.
  - rewrite bool_decide_eq_true_2 by (unfold kurlOf; cbn [m_portEnd m_hostEnd]; rewrite ?Ep; cbn [length]; lia). rewrite C2. done.
  - rewrite bool_decide_eq_false_2 by (unfold kurlOf; cbn [m_portEnd m_hostEnd]; rewrite ?Ep; cbn [length]; lia). destruct (w_port _ HW) as [E0 | (digits & E0 & _)]; rewrite Ep in E0; [done |]. injection E0 as -> ->.
    assert (Et : take (S (m_hostEnd (kurlOf P))) (m_string (kurlOf P)) = concat (take 4 (pieces P)) ++ [ch ":"]).
    { assert (El : m_hostEnd (kurlOf P) = length (concat (take 4 (pieces P)))) by (rewrite <- C2, length_take; cbn [kurlOf m_hostEnd m_string]; rewrite print_length; lia). rewrite El. cbn [kurlOf m_string].
      assert (Ec : print P = (concat (take 4 (pieces P)) ++ [ch ":"]) ++ digits ++ concat (drop 5 (pieces P))).
      { rewrite print_pieces. unfold pieces. cbn [concat take drop]. rewrite Ep, !app_nil_r, <- !app_assoc. done. }
      rewrite Ec. replace (S (length (concat (take 4 (pieces P))))) with (length (concat (take 4 (pieces P)) ++ [ch ":"])) by (rewrite length_app; cbn [length]; lia). apply take_app_length. }
    cbn [kurlOf m_hostEnd m_string] in Et |- *. rewrite Et. by rewrite <- !app_assoc.
Qed.

Lemma removePort_ok (P : Parts) : canonicalParts P -> hostPath P -> p_host P <> [] -> canonicalHost (p_scheme P) (p_host P) = p_host P ->
  Member.removePort (kurlOf P) = Some (kurlOf (withAuthority P (p_host P) [])).
Proof.
  intros HC [Hf Hp] Hne Hch. pose proof (c_rereadable _ HC) as HV. destruct (cut_pieces P _ eq_refl) as (_ & C2 & _ & C4 & _). unfold Member.removePort, left. case_bool_decide as D.
  - do 2 f_equal. assert (E : p_port P = []) by (cbn [kurlOf m_hostEnd m_portEnd] in D; apply length_zero_iff_nil; lia). rewrite <- E. symmetry. by apply authority_same.
  - pose proof (withAuthority_ok P (p_host P) [] HC Hf Hp (w_host _ (v_written _ HV)) Hne ltac:(by left)) as E. rewrite Hch in E. cbn [portDigits canonicalPort] in E. rewrite <- E, <- (port_print P [] HV Hne), C2, C4. done.
Qed.

Lemma setFragment_ok (P : Parts) (s : list Z) : canonicalParts P -> isASCIIText s -> Member.setFragmentIdentifier (kurlOf P) s = Some (kurlOf (withFragment P (ch "#" :: escapeAndAppendNonHierarchicalPart s))).
Proof.
  intros HC Hs. destruct (cut_pieces P _ eq_refl) as (_ & _ & _ & _ & _ & C6 & _). unfold Member.setFragmentIdentifier, left. rewrite C6. cbn [kurlOf m_isValid negb]. rewrite <- (withFragment_ok P (Some s) HC Hs).
  f_equal. unfold print, authorityText. cbn [pieces take concat fragmentText]. rewrite app_nil_r, <- !app_assoc. done.
Qed.

Lemma removeFragment_ok (P : Parts) : canonicalParts P -> Member.removeFragmentIdentifier (kurlOf P) = Some (kurlOf (withFragment P [])).
Proof.
  intros HC. destruct (cut_pieces P _ eq_refl) as (_ & _ & _ & _ & _ & C6 & _). unfold Member.removeFragmentIdentifier, left. rewrite C6. cbn [kurlOf m_isValid negb]. rewrite <- (withFragment_ok P None HC ltac:(constructor)).
  f_equal. unfold print, authorityText. cbn [pieces take concat fragmentText]. rewrite app_nil_r, <- !app_assoc. cbn [withFragment p_fragment]. by rewrite app_nil_r.
Qed.

(** The mark that setQuery adds. *)
Definition marked (q : list Z) : list Z := if bool_decide (q = []) || negb (charAt q 0 =? ch "?") then ch "?" :: q else q.

Lemma setQuery_ok (P : Parts) (q : option (list Z)) : canonicalParts P -> Forall (fun c => 0 < c < 0x80 /\ c <> ch "#") (default [] q) ->
  Member.setQuery (kurlOf P) q = Some (kurlOf (withQuery P (appendEscapingBadChars (match q with Some q => marked q | None => [] end)))).
Proof.
  intros HC Hq. destruct (cut_pieces P _ eq_refl) as (_ & _ & _ & _ & C5 & _ & C7). unfold Member.setQuery, left. rewrite C5, C7. cbn [kurlOf m_isValid negb]. fold marked.
  assert (Hm : forall q, Forall (fun c => 0 < c < 0x80 /\ c <> ch "#") q -> isASCIIText (marked q) /\ queryOk (marked q)).
  { clear q Hq. intros q Hq. assert (Hc : forall q, Forall (fun c => 0 < c < 0x80 /\ c <> ch "#") q -> Forall (fun c => isQueryChar c = true) q).
    { intros s Hs. eapply list.Forall_impl; [exact Hs |]. intros c [H1 H2]. unfold isQueryChar. rewrite (proj2 (Z.eqb_neq c 0)), (proj2 (Z.eqb_neq c (ch "#"))) by (done || lia). done. }
    assert (Ha : isASCIIText q) by (eapply list.Forall_impl; [exact Hq |]; intros c [H1 H2]; exact H1). unfold marked. destruct (bool_decide (q = []) || negb (charAt q 0 =? ch "?")) eqn:E.
    - split; [constructor; [cbn; lia | exact Ha] |]. split; [by right |]. constructor; [done | by apply Hc].
    - split; [exact Ha |]. split; [| by apply Hc]. right. apply orb_false_iff in E as [E1 E2]. apply bool_decide_eq_false in E1. destruct q as [| c q]; [done |]. apply negb_false_iff, Z.eqb_eq in E2. cbn in E2. by subst. }
  destruct q as [q |]; cbn [default from_option id] in Hq.
  - destruct (Hm q Hq) as [H1 H2]. rewrite <- (withQuery_ok P _ HC H1 H2). f_equal. unfold print, authorityText. cbn [pieces take drop concat]. rewrite !app_nil_r, <- !app_assoc. done.
  - rewrite <- (withQuery_ok P [] HC ltac:(apply list.Forall_nil; done) ltac:(split; [by left | apply list.Forall_nil; done])). f_equal. unfold print, authorityText. cbn [pieces take drop concat]. rewrite !app_nil_r, <- !app_assoc. done.
Qed.

(** Checks of the hypotheses on concrete texts. *)
Lemma all_check (f : Z -> bool) (Q : Z -> Prop) (s : list Z) : (forall c, f c = true -> Q c) -> forallb f s = true -> Forall Q s.
Proof. intros Hf H. apply list.Forall_forall. intros c Hc. rewrite forallb_forall in H. by apply Hf, H, list_elem_of_In. Qed.

Lemma tabs_check (s : list Z) : forallb (fun c => negb (isTabOrNewline c)) s = true -> noTabs s.
Proof. apply all_check. intros c. apply negb_true_iff. Qed.

Lemma ascii_check (s : list Z) : forallb (fun c => (0 <? c) && (c <? 0x80)) s = true -> isASCIIText s.
Proof. apply all_check. intros c. rewrite andb_true_iff, !Z.ltb_lt. done. Qed.

Lemma query_check (s : list Z) : forallb (fun c => (0 <? c) && (c <? 0x80) && negb (c =? ch "#")) s = true -> Forall (fun c => 0 < c < 0x80 /\ c <> ch "#") s.
Proof. apply all_check. intros c. rewrite !andb_true_iff, !Z.ltb_lt, negb_true_iff, Z.eqb_neq. done. Qed.

Lemma host_check (s : list Z) : forallb isHostnameChar s = true -> hostOk s.
Proof. intros H. left. by apply (all_check isHostnameChar). Qed.



(** ** What the members do beyond that *)

(** lastPathComponent does not look whether the slash it searches was found. *)
Example lastPathComponent_not_found : (k ← parse (units "foo:/") []; Member.lastPathComponent k) = Some (units "foo:").
Proof. by vm_compute. Qed.

(** Port 0 is the default port of every protocol that has none. *)
Example default_port_zero : isDefaultPortForProtocol id 0 (units "gopher") = true.
Proof. by vm_compute. Qed.

(** ** The list of blocked ports *)

Definition sortedList (a : list Z) : Prop := forall i j, (i < j < length a)%nat -> charAt a i < charAt a j.

Lemma lowerBound_ok (fuel : nat) (a : list Z) (first count : nat) (value : Z) : sortedList a -> (count < fuel)%nat -> (first + count <= length a)%nat ->
  (forall i, (i < first)%nat -> charAt a i < value) -> (forall i, (first + count <= i < length a)%nat -> value <= charAt a i) ->
  let n := binarySearchLoop fuel a first count value in (n <= length a)%nat /\ (forall i, (i < n)%nat -> charAt a i < value) /\ (forall i, (n <= i < length a)%nat -> value <= charAt a i).
Proof.
  intros Hs. revert first count. induction fuel as [| fuel IH]; intros first count Hf Hl Hlo Hhi; [lia |]. cbn [binarySearchLoop]. destruct (0 <? count)%nat eqn:Ec.
  - apply Nat.ltb_lt in Ec. assert (Hstep : (count / 2 < count)%nat) by (apply Nat.div_lt; lia). set (step := (count / 2)%nat) in *. destruct (charAt a (first + step) <? value) eqn:E.
    + apply Z.ltb_lt in E. apply IH; [lia | lia | | intros i Hi; apply Hhi; lia]. intros i Hi. destruct (decide (i = first + step)%nat) as [-> | N]; [done |]. pose proof (Hs i (first + step)%nat ltac:(lia)). lia.
    + apply Z.ltb_ge in E. apply IH; [lia | lia | done |]. intros i Hi. destruct (decide (i = first + step)%nat) as [-> | N]; [done |]. pose proof (Hs (first + step)%nat i ltac:(lia)). lia.
  - apply Nat.ltb_ge in Ec. split; [lia |]. split; [done |]. intros i Hi. apply Hhi. lia.
Qed.

Lemma charAt_member (a : list Z) (v : Z) : v ∈ a <-> exists i, (i < length a)%nat /\ charAt a i = v.
Proof.
  rewrite list_elem_of_lookup. unfold charAt. split.
  - intros [i Hi]. exists i. split; [by eapply lookup_lt_Some | by rewrite Hi].
  - intros (i & Hi & E). destruct (lookup_lt_is_Some_2 a i Hi) as [x Hx]. exists i. rewrite Hx in *. cbn in E. by subst.
Qed.

Lemma binary_search_ok (a : list Z) (value : Z) : sortedList a -> binary_search a value = true <-> value ∈ a.
Proof.
  intros Hs. unfold binary_search. destruct (lowerBound_ok (S (length a)) a 0 (length a) value Hs ltac:(lia) ltac:(lia) ltac:(lia) ltac:(lia)) as (H1 & H2 & H3).
  set (n := binarySearchLoop _ _ _ _ _) in *. rewrite andb_true_iff, Nat.ltb_lt, negb_true_iff, Z.ltb_ge, charAt_member. split.
  - intros [L E]. exists n. split; [done |]. specialize (H3 n ltac:(lia)). lia.
  - intros (i & Hi & E). assert (n <= i)%nat by (destruct (Nat.le_gt_cases n i) as [| L]; [done | specialize (H2 i L); lia]). split; [lia |]. destruct (decide (i = n)) as [-> | N]; [lia |]. pose proof (Hs n i ltac:(lia)). lia.
Qed.

Lemma blocked_sorted : sortedList blockedPortList.
Proof.
  assert (H : forall l, forallb (fun p => fst p <? snd p) (zip l (tail l)) = true -> forall i j, (i < j < length l)%nat -> charAt l i < charAt l j).
  { intros l. induction l as [| x l IH]; intros H i j Hij; [cbn in Hij; lia |]. destruct l as [| y l]; [cbn in Hij; lia |]. cbn [tail zip zip_with forallb fst snd] in H. apply andb_true_iff in H as [H1 H2].
    apply Z.ltb_lt in H1. specialize (IH H2). cbn [length] in Hij. destruct i as [| i], j as [| j]; try lia.
    - change (charAt (x :: y :: l) 0) with x. change (charAt (x :: y :: l) (S j)) with (charAt (y :: l) j). destruct j as [| j]; [done |]. specialize (IH 0%nat (S j) ltac:(cbn [length]; lia)). change (charAt (y :: l) 0) with y in IH. lia.
    - change (charAt (x :: y :: l) (S i)) with (charAt (y :: l) i). change (charAt (x :: y :: l) (S j)) with (charAt (y :: l) j). apply IH. cbn [length]. lia. }
  intros i j. apply H. by vm_compute.
Qed.

(** portAllowed refuses exactly the ports of the list, but for the ftp ports of an ftp URL and
    for file URLs. *)
Lemma portAllowed_ok (w : Z -> bool) (k : KURL) (ftp file : bool) : Member.protocolIs k (units "ftp") = Some ftp -> Member.protocolIs k (units "file") = Some file ->
  let p := Member.port w k in Member.portAllowed w k = Some (bool_decide (p = 0) || negb (bool_decide (p ∈ blockedPortList)) || ((bool_decide (p = 21) || bool_decide (p = 22)) && ftp) || file).
Proof.
  intros Hftp Hfile p. unfold Member.portAllowed. fold p. assert (E : binary_search blockedPortList p = bool_decide (p ∈ blockedPortList)) by (apply bool_eq; rewrite bool_decide_eq_true; apply binary_search_ok, blocked_sorted).
  assert (Ez : forall n, (p =? n) = bool_decide (p = n)) by (intros n; apply bool_eq; by rewrite Z.eqb_eq, bool_decide_eq_true). rewrite E, !Ez, Hftp, Hfile.
  destruct (bool_decide (p = 0)); [done |]. destruct (bool_decide (p ∈ blockedPortList)); cbn [negb orb]; [| done]. destruct (bool_decide (p = 21) || bool_decide (p = 22)); cbn [andb mbind option_bind orb]; [| done]. by destruct ftp.
Qed.
