(* ===== verification/KURLResolve.v ===== *)
(** * KURL: resolving a reference

    KURL::init of platform/KURL.cpp with what it calls: the trimming, substituteBackslashes,
    encodeRelativeString, encodeHostnames and the search for host names.  A [String] is the
    list of its code units.  The memory from [str] on is the list [m] of its bytes with the
    terminator; it moves with [str], while [len] does not always.  [None] is a failed assertion
    or a read behind a buffer. *)

From S2P Require Import Prelude KURL KURLEscape KURLMembers.

(** ** Host names in a text *)

Fixpoint firstOfLoop (s toFind : list Z) (i : nat) : option nat :=
  match s with [] => None | c :: s' => if existsb (Z.eqb c) toFind then Some i else firstOfLoop s' toFind (S i) end.
Definition findFirstOf (s : list Z) (startPos : nat) (toFind : list Z) : option nat := firstOfLoop (drop startPos s) toFind startPos.

(** Behind a quoted string, or nothing when it does not end. *)
Fixpoint skipQuoted (fuel : nat) (s : list Z) (p : nat) : option nat :=
  match fuel with
  | O => None
  | S fuel' =>
      match findFirstOf s p [0x22; 0x5C] with
      | None => None
      | Some i => if charAt s i =? 0x22 then Some (S i) else if bool_decide (S i = length s) then None else skipQuoted fuel' s (S (S i))
      end
  end.

Fixpoint mailToLoop (fuel : nat) (s : list Z) (p : nat) (nameRanges : list (nat * nat)) : list (nat * nat) :=
  match fuel with
  | O => nameRanges
  | S fuel' =>
      match findFirstOf s p [0x22; ch "@"; ch "?"] with
      | None => nameRanges
      | Some i =>
          let c := charAt s i in
          if c =? ch "?" then nameRanges
          else if c =? ch "@" then
            match findFirstOf s (S i) [ch ">"; ch ","; ch "?"] with
            | None => nameRanges ++ [(S i, length s)]
            | Some hostnameEnd => mailToLoop fuel' s hostnameEnd (nameRanges ++ [(S i, hostnameEnd)])
            end
          else match skipQuoted (S (length s)) s (S i) with None => nameRanges | Some p => mailToLoop fuel' s p nameRanges end
      end
  end.
Definition findHostnamesInMailToURL (s : list Z) : list (nat * nat) := mailToLoop (S (length s)) s 0 [].

(** The end of the host name: a colon or the end of a path segment. *)
Fixpoint hostnameEndLoop (s : list Z) (i : nat) : nat :=
  match s with [] => i | c :: s' => if (c =? ch ":") || (isPathSegmentEndChar c && negb (c =? 0)) then i else hostnameEndLoop s' (S i) end.

Definition findHostnameInHierarchicalURL (s : list Z) : option (nat * nat) :=
  match findFirstOf s 0 [ch ":"] with
  | None => None
  | Some separator =>
      if (length s <=? separator + 2)%nat || negb (charAt s (separator + 1) =? ch "/") || negb (charAt s (separator + 2) =? ch "/") then None
      else if negb (isSchemeFirstChar (charAt s 0)) then None
      else if negb (forallb isSchemeChar (slice s 1 separator)) then None
      else
        let authorityStart := (separator + 3)%nat in
        let hostnameEnd := hostnameEndLoop (drop authorityStart s) authorityStart in
        let hostnameStart :=
          match findFirstOf s authorityStart [ch "@"] with
          | None => authorityStart
          | Some userInfoTerminator => if (hostnameEnd <? userInfoTerminator)%nat then authorityStart else S userInfoTerminator
          end in
        Some (hostnameStart, hostnameEnd)
  end.

Definition replaceBackslashes (s : list Z) : list Z := (fun c => if c =? 0x5C then ch "/" else c) <$> s.
Definition substituteBackslashes (s : list Z) : list Z :=
  let questionPos := findChar s (ch "?") in
  let hashPos := findChar s (ch "#") in
  let pathEnd :=
    match hashPos, questionPos with
    | Some hash, None => hash
    | Some hash, Some question => if (hash <? question)%nat then hash else question
    | None, Some question => question
    | None, None => length s
    end in
  replaceBackslashes (left s pathEnd) ++ drop pathEnd s.

Section Encoding.
(** uidna_IDNToASCII of ICU, when it succeeds; TextEncoding::encode, which normalises with ICU,
    of UTF-8 and of the document's encoding; whether that is another one than UTF-8, and
    valid. *)
Context (idnToASCII : list Z -> option (list Z)) (encodePath encodeOther : list Z -> list Z) (isOther isValidEncoding : bool).

Definition hostnameBufferLength : nat := 2048.
Definition appendEncodedHostname (name : list Z) : list Z :=
  if (hostnameBufferLength <? length name)%nat || containsOnlyASCII name then name else default [] (idnToASCII name).

Fixpoint encodeRanges (s : list Z) (p : nat) (ranges : list (nat * nat)) : list Z :=
  match ranges with
  | [] => drop p s
  | (first, last) :: ranges' => slice s p first ++ appendEncodedHostname (slice s first last) ++ encodeRanges s last ranges'
  end.

Definition encodeHostnames (s : list Z) : option (list Z) :=
  mailto ← protocolIs s (units "mailto");
  if mailto : bool then Some (encodeRanges s 0 (findHostnamesInMailToURL s))
  else
    Some (match findHostnameInHierarchicalURL s with
          | Some (first, last) => take first s ++ appendEncodedHostname (slice s first last) ++ drop last s
          | None => s
          end).

(** What output holds but for the terminator. *)
Definition encodeRelativeString (rel : list Z) : option (list Z) :=
  s ← encodeHostnames rel;
  mailto ← protocolIs rel (units "mailto");
  data ← protocolIs rel (units "data");
  javascript ← protocolIsJavaScript rel;
  Some (match (if isOther && isValidEncoding && negb mailto && negb data && negb javascript then findFirstOf s 0 [ch "#"; ch "?"] else None) with
        | None => encodePath s
        | Some pathEnd => encodePath (take pathEnd s) ++ encodeOther (drop pathEnd s)
        end).

(** ** KURL::init *)

Definition shouldTrimFromURL (c : Z) : bool := c <=? ch " ".

(** Both loops that trim; the second one writes terminators. *)
Fixpoint trimLeading (m : list Z) (len : nat) : list Z * nat :=
  match len, m with S len', c :: m' => if shouldTrimFromURL c then trimLeading m' len' else (m, len) | _, _ => (m, len) end.
Fixpoint trimTrailing (m : list Z) (len : nat) : list Z * nat :=
  match len with
  | S len' => if shouldTrimFromURL (charAt m len') then trimTrailing (<[len' := 0]> m) len' else (m, len)
  | O => (m, len)
  end.

(** appendASCII(base, rel, len, buffer) *)
Definition appendASCII (base m : list Z) (len : nat) : option (list Z) := _ ← ASSERT (len <=? length m)%nat; Some (base ++ take len m ++ [0]).

(** [bufferPos] and what is before it, the last character first; the path begins at
    [pathStart]. *)
Fixpoint rewindSlash (dst : list Z) (n : nat) : list Z :=
  match n with
  | O => dst
  | S n' => match dst with c :: dst' => if negb (c =? ch "/") then rewindSlash dst' n' else dst | [] => dst end
  end.
Definition rewindRelative (dst : list Z) (pathStart : nat) : list Z :=
  let dst := if (pathStart + 1 <? length dst)%nat then tail dst else dst in
  rewindSlash dst (length dst - (pathStart + 1)).

(** The loop over the path of the reference: the buffer and the rest of the reference. *)
Fixpoint relativeLoop (fuel : nat) (m dst : list Z) (pathStart : nat) : option (list Z * list Z) :=
  match fuel with
  | O => None
  | S fuel' =>
      c ← m !! 0%nat;
      if negb (c =? 0) && negb (c =? ch "?") && negb (c =? ch "#") then
        last ← head dst;
        let copy := relativeLoop fuel' (tail m) (c :: dst) pathStart in
        let skipSlash (m : list Z) := c ← m !! 0%nat; Some (if c =? ch "/" then tail m else m) in
        if (c =? ch ".") && (last =? ch "/") then
          c1 ← m !! 1%nat;
          if isPathSegmentEndChar c1 then m' ← skipSlash (drop 1 m); relativeLoop fuel' m' dst pathStart
          else if c1 =? ch "." then
            c2 ← m !! 2%nat;
            if isPathSegmentEndChar c2 then m' ← skipSlash (drop 2 m); relativeLoop fuel' m' (rewindRelative dst pathStart) pathStart
            else copy
          else copy
        else copy
      else Some (dst, m)
  end.

(** The relative-path reference: what is in parseBuffer. *)
Definition relativePath (base : KURL) (m : list Z) (len : nat) : option (list Z) :=
  let bufferSize := (m_pathEnd base + 1 + len + 1)%nat in
  let prefix := take (m_portEnd base) (m_string base) in
  let baseStringEnd := afterLastSlash (m_string base) (m_portEnd base) (m_pathEnd base) in
  first ← m !! 0%nat;
  path ← (if bool_decide (baseStringEnd = m_portEnd base) then
            Some (if negb (bool_decide (S (m_schemeEnd base) = m_pathEnd base)) && negb (first =? 0) && negb (first =? ch "?") && negb (first =? ch "#") then [ch "/"] else [])
          else copyPathRemovingDots (drop (m_portEnd base) (m_string base)) 0 (baseStringEnd - m_portEnd base));
  '(dst, m) ← relativeLoop (S (length m)) m (rev (prefix ++ path)) (length prefix);
  (* strncpy: without room for the terminator the buffer is not a C string *)
  let rest := cString m in
  _ ← ASSERT (length dst + length rest <? bufferSize)%nat;
  Some (rev dst ++ rest).

Definition resolveRelative (base : KURL) (m : list Z) (len : nat) (relative : list Z) : option KURL :=
  hierarchical ← Member.isHierarchical base;
  first ← m !! 0%nat;
  let append (base : list Z) := buffer ← appendASCII base m len; parse (cString buffer) relative in
  if negb hierarchical then
    if first =? ch "#" then append (take (m_queryEnd base) (m_string base)) else Some (invalid relative)
  else if first =? 0 then Member.removeFragmentIdentifier base
  else if first =? ch "#" then append (take (m_queryEnd base) (m_string base))
  else if first =? ch "?" then append (take (m_pathEnd base) (m_string base))
  else if first =? ch "/" then
    second ← m !! 1%nat;
    if second =? ch "/" then append (take (S (m_schemeEnd base)) (m_string base)) else append (take (m_portEnd base) (m_string base))
  else buffer ← relativePath base m len; parse (cString buffer) relative.

Definition lowerText (s : list Z) : list Z := toASCIILower <$> s.

(** The scheme of the reference is looked for in the memory [m]: whether the reference is
    absolute, and where it goes on. *)
Definition splitScheme (base : KURL) (m : list Z) : option (bool * list Z) :=
  c ← m !! 0%nat;
  if isSchemeFirstChar c then
    n ← scanFrom isSchemeChar (tail m);
    let p := S n in
    c ← m !! p;
    if c =? ch ":" then
      c1 ← m !! S p;
      hierarchical ← (if negb (c1 =? ch "/") && equal (lowerText (Member.protocol base)) (lowerText (take p m)) then Member.isHierarchical base else Some false);
      Some (if hierarchical : bool then (false, drop (S p) m) else (true, m))
    else Some (false, m)
  else Some (false, m).

Definition init (base : KURL) (relative : list Z) : option KURL :=
  if negb (m_isValid base) && negb (Member.isEmpty base) then Some (invalid relative)
  else
    rel ← (if existsb (Z.eqb 0x5C) relative then
             javascript ← protocolIsJavaScript relative;
             data ← (if javascript : bool then Some true else protocolIs relative (units "data"));
             Some (if data : bool then relative else substituteBackslashes relative)
           else Some relative);
    '(m, len) ← (if containsOnlyASCII rel then Some (rel ++ [0], length rel)
                 else bytes ← encodeRelativeString rel; Some (bytes ++ [0], length (cString bytes)));
    let '(m, len) := trimLeading m len in
    let '(m, len) := trimTrailing m len in
    '(absolute, m) ← splitScheme base m;
    if absolute : bool then parse (cString m) relative else resolveRelative base m len relative.

(** KURL(base, relative) *)
Definition resolve (base : KURL) (relative : list Z) : option KURL := init base relative.
End Encoding.
