(* ===== verification/KURLResolveTheorems.v ===== *)
(** * KURL: resolving a reference is parsing the front of the base followed by it

    [resolution]: the cases of KURL::init for a base with an authority and a reference without
    a scheme. *)

From S2P Require Import Prelude KURL KURLParts KURLParse KURLProperties KURLEscape KURLMembers KURLMemberTheorems KURLResolve.

(** ** The loop over the path of the reference *)

Lemma rewindTo_ok (d q : list Z) : list.last d = Some (ch "/") -> rewindSlash (d ++ q) (length d - 1) = dropToSlash d ++ q /\ list.last (dropToSlash d) = Some (ch "/").
Proof.
  induction d as [| c d IH]; intros H; [done |]. cbn [length]. rewrite Nat.sub_succ, Nat.sub_0_r. destruct d as [| c' d].
  - cbn in H. injection H as ->. done.
  - change (list.last (c :: c' :: d)) with (list.last (c' :: d)) in H. destruct (IH H) as [I1 I2]. cbn [length] in *. rewrite Nat.sub_succ, Nat.sub_0_r in I1. cbn [app rewindSlash dropToSlash]. destruct (c =? ch "/"); cbn [negb]; [done |]. done.
Qed.

Lemma rewindRelative_ok (d q : list Z) : list.last d = Some (ch "/") -> rewindRelative (d ++ q) (length q) = rewindSegment d ++ q /\ list.last (rewindSegment d) = Some (ch "/").
Proof.
  intros H. unfold rewindRelative, rewindSegment. destruct d as [| c d]; [done |]. rewrite length_app. cbn [length]. destruct d as [| c' d].
  - cbn in H. injection H as ->. cbn [length app]. rewrite (proj2 (Nat.ltb_ge (length q + 1) _)) by lia. replace (length (ch "/" :: q) - (length q + 1))%nat with 0%nat by (cbn [length]; lia). done.
  - rewrite (proj2 (Nat.ltb_lt _ _)) by (cbn [length]; lia). rewrite (proj2 (Nat.ltb_lt _ _)) by (cbn [length]; lia). cbn [app tail]. change (list.last (c :: c' :: d)) with (list.last (c' :: d)) in H. rewrite app_comm_cons.
    replace (length ((c' :: d) ++ q) - (length q + 1))%nat with (length (c' :: d) - 1)%nat by (rewrite length_app; lia). by apply rewindTo_ok.
Qed.

(** The end of the path in the memory. *)
Definition endsPath (r : list Z) : Prop := exists c r', r = c :: r' /\ (c = 0 \/ c = ch "?" \/ c = ch "#").

Lemma pathChar_end (c : Z) : 0 < c < 256 -> isPathChar c = true -> isPathSegmentEndChar c = (c =? ch "/").
Proof.
  intros Hc Hp. apply bool_eq. rewrite Z.eqb_eq, pathEnd_chars by lia. unfold isPathChar in Hp. rewrite !andb_true_iff, !negb_true_iff, !Z.eqb_neq in Hp. intuition lia.
Qed.

Lemma relativeLoop_ok (fuel : nat) (src t r d d' q : list Z) (pos srcEnd : nat) : list.last d = Some (ch "/") -> endsPath r -> cText t -> Forall (fun c => isPathChar c = true) t ->
  drop (pos `min` srcEnd) src = t ++ r -> length t = (srcEnd - pos)%nat -> copyDotsLoop fuel src pos srcEnd d = Some d' -> relativeLoop fuel (t ++ r) (d ++ q) (length q) = Some (d' ++ q, r).
Proof.
  intros Hd (cr & r' & Er & Hr). revert pos t d d' Hd. induction fuel as [| fuel IH]; intros pos t d d' Hd Ht Hp E Hl H; [done |]. cbn [copyDotsLoop relativeLoop] in *.
  assert (Hcr : negb (cr =? 0) && negb (cr =? ch "?") && negb (cr =? ch "#") = false) by (by destruct Hr as [-> | [-> | ->]]).
  assert (Hcr2 : isPathSegmentEndChar cr = true /\ (cr =? ch "/") = false) by (by destruct Hr as [-> | [-> | ->]]). destruct Hcr2 as [Hcr2 Hcr3].
  destruct t as [| c t].
  { rewrite (proj2 (Nat.ltb_ge _ _)) in H by (cbn in Hl; lia). injection H as <-. rewrite Er. cbn [app lookup list_lookup mbind option_bind]. by rewrite Hcr. }
  cbn [length] in Hl. assert (Hpos : (pos < srcEnd)%nat) by lia. rewrite (proj2 (Nat.ltb_lt _ _) Hpos) in H. rewrite Nat.min_l in E by lia.
  apply list.Forall_cons in Ht as [Hc Ht]. apply list.Forall_cons in Hp as [Hpc Hp].
  assert (L : forall n, src !! (pos + n)%nat = ((c :: t) ++ r) !! n) by (intros n; by rewrite <- E, lookup_drop).
  pose proof (L 0%nat) as L0. pose proof (L 1%nat) as L1. pose proof (L 2%nat) as L2. rewrite Nat.add_0_r in L0. rewrite Nat.add_1_r in L1. replace (pos + 2)%nat with (S (S pos)) in L2 by lia.
  rewrite L0 in H. cbn [app lookup list_lookup mbind option_bind] in H |- *. unfold isPathChar in Hpc. rewrite Hpc. destruct d as [| last d]; [done |]. cbn [head app mbind option_bind] in H |- *.
  assert (D : forall n u, (n <= length (c :: t))%nat -> drop n ((c :: t) ++ r) = u ++ r -> (length u = srcEnd - (pos + n))%nat -> drop ((pos + n) `min` srcEnd) src = u ++ r).
  { intros n u Hn Eu Hu. rewrite Nat.min_l by (cbn [length] in Hn; lia). by rewrite <- Eu, <- E, drop_drop. }
  assert (Hcopy : copyDotsLoop fuel src (S pos) srcEnd (c :: last :: d) = Some d' -> relativeLoop fuel (t ++ r) (c :: last :: d ++ q) (length q) = Some (d' ++ q, r)).
  { intros H2. apply (IH (S pos) t (c :: last :: d)); [done | done | done | | lia | done]. replace (S pos) with (pos + 1)%nat by lia. apply D; [cbn; lia | done | lia]. }
  cbn [tail]. destruct ((c =? ch ".") && (last =? ch "/")); [| by apply Hcopy]. rewrite L1 in H. cbn [app lookup list_lookup] in H.
  destruct t as [| c1 t].
  - (* the dot is the last character *)
    rewrite Er in H |- *. cbn [app lookup list_lookup mbind option_bind] in H |- *. rewrite Hcr2. cbn [drop]. cbn [lookup list_lookup mbind option_bind]. rewrite Hcr3. rewrite (bool_decide_eq_true_2 (S pos = srcEnd)) in H by (cbn in Hl; lia).
    rewrite orb_true_r in H. rewrite <- Er. apply (IH (pos + 2)%nat [] (last :: d)); [done | constructor | constructor | | cbn; cbn in Hl; lia | done].
    rewrite Nat.min_r by (cbn in Hl; lia). replace srcEnd with (pos + 1)%nat by (cbn in Hl; lia). by rewrite <- drop_drop, E.
  - cbn [app lookup list_lookup mbind option_bind length] in *. apply list.Forall_cons in Ht as [Hc1 Ht]. apply list.Forall_cons in Hp as [Hpc1 Hp]. rewrite (pathChar_end c1 Hc1 Hpc1).
    rewrite (bool_decide_eq_false_2 (S pos = srcEnd)) in H by lia. rewrite orb_false_r in H. destruct (Z.eqb_spec c1 (ch "/")) as [-> | N1].
    + cbn [drop lookup list_lookup mbind option_bind tail]. change (ch "/" =? ch "/") with true. cbv iota. apply (IH (pos + 2)%nat t (last :: d)); [done | done | done | | lia | done]. apply D; [lia | done | lia].
    + destruct (c1 =? ch "."); [| by apply Hcopy]. rewrite L2 in H. destruct (rewindRelative_ok (last :: d) q Hd) as [Rw1 Rw2]. cbn [app] in Rw1. rewrite Rw1.
      destruct t as [| c2 t].
      * rewrite Er in H |- *. cbn [app lookup list_lookup mbind option_bind drop] in H |- *. rewrite Hcr2, Hcr3. rewrite (bool_decide_eq_true_2 (S (S pos) = srcEnd)), orb_true_r in H by (cbn in Hl; lia). rewrite <- Er.
        apply (IH (pos + 3)%nat [] (rewindSegment (last :: d))); [done | constructor | constructor | | cbn; cbn in Hl; lia | done].
        rewrite Nat.min_r by (cbn in Hl; lia). replace srcEnd with (pos + 2)%nat by (cbn in Hl; lia). by rewrite <- drop_drop, E.
      * cbn [app lookup list_lookup mbind option_bind length] in *. apply list.Forall_cons in Ht as [Hc2 Ht]. apply list.Forall_cons in Hp as [Hpc2 Hp]. rewrite (pathChar_end c2 Hc2 Hpc2).
        rewrite (bool_decide_eq_false_2 (S (S pos) = srcEnd)) in H by lia. rewrite orb_false_r in H. destruct (Z.eqb_spec c2 (ch "/")) as [-> | N2]; [| by apply Hcopy].
        cbn [drop lookup list_lookup mbind option_bind tail]. change (ch "/" =? ch "/") with true. cbv iota. apply (IH (pos + 3)%nat t (rewindSegment (last :: d))); [done | done | done | | lia | done]. apply D; [lia | done | lia].
Qed.

(** ** Merging the paths *)

(** The segments kept behind a directory. *)
Fixpoint keptBy (kept segs : list (list Z)) : list (list Z) :=
  match segs with
  | [] => kept
  | seg :: segs' => if equal seg dot then keptBy kept segs' else if equal seg dotDot then keptBy (tail kept) segs' else keptBy (seg :: kept) segs'
  end.

Lemma dropDots_app (kept segs segs2 : list (list Z)) : segs2 <> [] -> dropDots kept (segs ++ segs2) = dropDots (keptBy kept segs) segs2.
Proof.
  intros Hne. revert kept. induction segs as [| seg segs IH]; intros kept; [done |]. cbn [app dropDots keptBy]. assert (Hl : (match segs ++ segs2 with [] => true | _ => false end) = false) by (by destruct segs, segs2).
  rewrite Hl. destruct (equal seg dot); [apply IH |]. destruct (equal seg dotDot); apply IH.
Qed.

Lemma keptBy_noSlash (kept segs : list (list Z)) : Forall noSlash kept -> Forall noSlash segs -> Forall noSlash (keptBy kept segs).
Proof.
  revert kept. induction segs as [| seg segs IH]; intros kept Hk Hs; [done |]. apply list.Forall_cons in Hs as [H1 H2]. cbn [keptBy].
  destruct (equal seg dot); [by apply IH |]. destruct (equal seg dotDot); apply IH; try done; [by destruct Hk | by constructor].
Qed.

Lemma split_slash_app (a b : list Z) : splitSlash (a ++ ch "/" :: b) = splitSlash a ++ splitSlash b.
Proof.
  induction a as [| c a IH]; [apply splitSlash_slash |]. cbn [app]. destruct (Z.eq_dec c (ch "/")) as [-> | N]; [by rewrite !splitSlash_slash, IH |].
  destruct (splitSlash_shape a) as (seg & segs & E). rewrite E in IH. cbn [app] in IH. by rewrite (splitSlash_cons _ _ _ _ N IH), (splitSlash_cons _ _ _ _ N E).
Qed.

(** A directory: a path that ends with a slash. *)
Definition directory (dir : list Z) : Prop := exists u, dir = ch "/" :: u /\ (u = [] \/ exists v, u = v ++ [ch "/"]).

Lemma directory_segments (u : list Z) : u = [] \/ (exists v, u = v ++ [ch "/"]) -> exists segs, Forall noSlash segs /\ forall x, splitSlash (u ++ x) = segs ++ splitSlash x.
Proof.
  intros [-> | [v ->]]; [by exists [] |]. exists (splitSlash v). split; [apply split_noSlash |]. intros x. rewrite <- app_assoc. apply split_slash_app.
Qed.

Lemma removeDots_directory (dir : list Z) : directory dir -> exists kept, Forall noSlash kept /\ removeDots dir = rev (dstOf kept) /\ forall x, removeDots (dir ++ x) = joinSlash (dropDots kept (splitSlash x)).
Proof.
  intros (u & -> & Hu). destruct (directory_segments u Hu) as (segs & Hs & E). exists (keptBy [] segs). split; [apply keptBy_noSlash; [constructor | done] |]. split.
  - cbn [removeDots]. rewrite <- (app_nil_r u), E, dropDots_app by done. cbn [splitSlash]. change (dropDots (keptBy [] segs) [[]]) with (rev ([] :: keptBy [] segs)). rewrite rev_dstOf. cbn [rev]. rewrite joinSlash_app. done.
  - intros x. cbn [app removeDots]. rewrite E, dropDots_app; [done |]. destruct (splitSlash_shape x) as (seg & segs' & ->). done.
Qed.

Lemma dstOf_last (kept : list (list Z)) : list.last (dstOf kept) = Some (ch "/").
Proof.
  induction kept as [| seg kept IH]; [done |]. cbn [dstOf]. destruct (dstOf_slash kept) as [d E]. rewrite E in *. rewrite app_comm_cons, last_app. by rewrite IH.
Qed.

(** What relativePath writes for the path is the path of the directory followed by the
    reference, without dots. *)
Lemma merge_ok (q dir t r : list Z) : directory dir -> endsPath r -> cText t -> Forall (fun c => isPathChar c = true) t ->
  relativeLoop (S (length (t ++ r))) (t ++ r) (rev (q ++ removeDots dir)) (length q) = Some (rev (q ++ removeDots (dir ++ t)), r).
Proof.
  intros Hdir Hr Ht Hp. destruct (removeDots_directory dir Hdir) as (kept & Hk & E & Em). rewrite Em, E, !rev_app_distr, rev_involutive, <- (length_rev q).
  assert (Hread : readable (t ++ r) (length t) t) by (left; destruct Hr as (c & r' & -> & _); rewrite length_app; cbn [length]; lia).
  destruct (copyDots_ok (S (length (t ++ r))) (t ++ r) 0 (length t) [] t kept Hread) as (dst & Hdst & Hrev); [unfold slice; rewrite drop_0, Nat.sub_0_r; apply take_app_length | rewrite length_app; lia | constructor | done | by left |].
  rewrite (bool_decide_eq_true_2 ([] = [])) in Hrev by done. rewrite <- Hrev, rev_involutive. cbn [rev app] in Hdst.
  apply (relativeLoop_ok _ (t ++ r) t r (dstOf kept) dst (rev q) 0 (length t)); [apply dstOf_last | done | done | done | done | lia | done].
Qed.

Lemma merge_length (dir t : list Z) : (length (removeDots (dir ++ t)) <= length dir + length t)%nat.
Proof. rewrite <- length_app. apply removeDots_length. Qed.

(** ** Parsing a text with the front of the base *)

Lemma splitURL_tail (P : Parts) (tail path query : list Z) (fragment : option (list Z)) : rereadable P -> p_slashes P = true -> endsSegment tail -> splitEnd tail = (path, query, fragment) ->
  splitURL ((prefixText P ++ authorityText P) ++ tail) =
    Some (mkRawURL (p_scheme P) true (mkRaw (authorityText P) (p_user P) (p_password P) (p_host P) (portDigits (p_port P))) path query fragment).
Proof.
  intros HV Hsl Ht Ee. destruct (v_scheme _ HV) as [(c & s & Es & Hc) Hs]. unfold splitURL, prefixText. rewrite Hsl.
  assert (Eh : hd 0 (((p_scheme P ++ [ch ":"; ch "/"; ch "/"]) ++ authorityText P) ++ tail) = c) by (by rewrite Es). rewrite Eh, Hc. cbn [negb].
  rewrite <- !app_assoc. cbn [app]. destruct (run_exact isSchemeChar (p_scheme P) (ch ":" :: ch "/" :: ch "/" :: authorityText P ++ tail)) as [-> ->]; [done | exact Hs | done |].
  rewrite !Z.eqb_refl. cbn [negb andb]. rewrite splitAuthority_written; [by rewrite Ee | exact (v_written _ HV) | exact Ht |]. destruct (v_empty _ HV) as [H | [H | H]]; [by left | congruence | by right].
Qed.

Lemma slashed_tail (P : Parts) (tail : list Z) : rereadable P -> p_slashes P = true -> wellSlashed ((prefixText P ++ authorityText P) ++ tail).
Proof.
  intros HV Hsl _. destruct (v_scheme _ HV) as [_ Hs]. unfold prefixText. rewrite Hsl, <- !app_assoc. cbn [app].
  destruct (run_exact isSchemeChar (p_scheme P) (ch ":" :: ch "/" :: ch "/" :: authorityText P ++ tail)) as [_ ->]; [done | exact Hs | done |]. by eexists.
Qed.

Lemma front_text (P : Parts) : canonicalParts P -> isASCIIText (prefixText P ++ authorityText P).
Proof. intros [HV _ _ _]. apply url_ascii, url_app; [apply prefix_url, (v_scheme _ HV) | apply authority_url, (v_written _ HV)]. Qed.

Lemma ascii_app (s t : list Z) : isASCIIText s -> isASCIIText t -> isASCIIText (s ++ t).
Proof. intros H1 H2. by apply list.Forall_app. Qed.

Lemma splitEnd_app (x y : list Z) : Forall (fun c => isPathChar c = true) x -> run isPathChar y = [] -> exists query fragment, splitEnd (x ++ y) = (x, query, fragment) /\ splitEnd y = ([], query, fragment).
Proof.
  intros Hx Hy. unfold splitEnd. rewrite run_app, rest_app, Hy, app_nil_r by done. by eexists _, _.
Qed.

(** Dots may be removed from the path before it is parsed. *)
Lemma parse_dots (P : Parts) (x y o : list Z) : canonicalParts P -> p_slashes P = true -> head x = Some (ch "/") -> isASCIIText x -> Forall (fun c => isPathChar c = true) x -> isASCIIText y -> run isPathChar y = [] ->
  parse ((prefixText P ++ authorityText P) ++ removeDots x ++ y) o = parse ((prefixText P ++ authorityText P) ++ x ++ y) o.
Proof.
  intros HC Hsl Hh Hx Hpx Hy Hrun. pose proof (c_rereadable _ HC) as HV. pose proof (front_text P HC) as Hf.
  assert (Hx' : isASCIIText (removeDots x)) by (apply removeDots_members; [cbn; lia | done]). assert (Hpx' : Forall (fun c => isPathChar c = true) (removeDots x)) by (by apply removeDots_members).
  assert (Hh' : head (removeDots x) = Some (ch "/")) by (destruct (removeDots_head x) as [E | E]; [by rewrite E in Hh | done]).
  assert (Hne : forall z, head z = Some (ch "/") -> equal z [] = false) by (intros z Hz; apply equal_neq; by intros ->).
  destruct (splitEnd_app _ y Hpx Hrun) as (query & fragment & E1 & E2). destruct (splitEnd_app _ y Hpx' Hrun) as (query' & fragment' & E1' & E2'). rewrite E2 in E2'. injection E2' as <- <-.
  assert (Hend : forall z, isASCIIText z -> head z = Some (ch "/") -> endsSegment (z ++ y)).
  { intros z Hz Hhz. split; [by apply text_app; apply ascii_cText |]. destruct z as [| c z]; [done |]. by injection Hhz as ->. }
  rewrite !parse_ok by (by apply slashed_tail || (apply text_app; [by apply ascii_cText | apply text_app; by apply ascii_cText])).
  rewrite (splitURL_tail P _ _ _ _ HV Hsl (Hend _ Hx Hh) E1), (splitURL_tail P _ _ _ _ HV Hsl (Hend _ Hx' Hh') E1'). do 2 f_equal. rewrite !buildParts_eq. cbv zeta. unfold fullAuthority, degenerate, hostDropped, canonicalPath.
  cbn [r_scheme r_authority r_path r_hierarchical r_query r_fragment]. rewrite (Hne _ Hh), (Hne _ Hh'). by rewrite (removeDots_free _ (removeDots_dotFree x)).
Qed.

Lemma cString_end (s x : list Z) : isASCIIText s -> cString (s ++ 0 :: x) = s.
Proof. intros H. induction H as [| c s Hc H IH]; [done |]. cbn [app cString]. rewrite (proj2 (Z.eqb_neq c 0)) by lia. by rewrite IH. Qed.

(** ** The reference *)

Definition trimmed (rel : list Z) : Prop := rel = [] \/ (ch " " < hd 0 rel /\ ch " " < charAt rel (length rel - 1)).
Definition noScheme (rel : list Z) : Prop := isSchemeFirstChar (hd 0 rel) = false \/ hd 0 (rest isSchemeChar rel) <> ch ":".

Record reference (rel : list Z) : Prop := {
  e_ascii : isASCIIText rel;
  e_slash : Forall (fun c => c <> 0x5C) rel;
  e_trimmed : trimmed rel;
  e_scheme : noScheme rel }.

Lemma trim_ok (rel : list Z) : trimmed rel -> trimLeading (rel ++ [0]) (length rel) = (rel ++ [0], length rel) /\ trimTrailing (rel ++ [0]) (length rel) = (rel ++ [0], length rel).
Proof.
  intros [-> | [H1 H2]]; [done |]. destruct rel as [| c rel]; [done |]. cbn [hd length app] in *. unfold shouldTrimFromURL. split.
  - cbn [trimLeading]. unfold shouldTrimFromURL. by rewrite (proj2 (Z.leb_gt c (ch " "))).
  - cbn [trimTrailing]. rewrite Nat.sub_succ, Nat.sub_0_r in H2. assert (E : charAt (c :: rel ++ [0]) (length rel) = charAt (c :: rel) (length rel)).
    { unfold charAt. rewrite app_comm_cons, lookup_app_l by (cbn; lia). done. }
    unfold shouldTrimFromURL. rewrite E. by rewrite (proj2 (Z.leb_gt _ (ch " "))).
Qed.

Lemma splitScheme_ok (base : KURL) (rel : list Z) : noScheme rel -> splitScheme base (rel ++ [0]) = Some (false, rel ++ [0]).
Proof.
  intros H. unfold splitScheme. destruct rel as [| c rel]; [done |]. cbn [app lookup list_lookup mbind option_bind tail]. destruct (isSchemeFirstChar c) eqn:Ef; [| done].
  destruct H as [H | H]; [cbn [hd] in H; congruence |]. rewrite scanFrom_ok by done. cbn [mbind option_bind]. pose proof (schemeFirst_chars c Ef) as Es. rewrite !andb_true_iff in Es. cbn [rest] in H. rewrite (proj1 (proj1 Es)) in H.
  change (list_lookup (length (run isSchemeChar rel)) (rel ++ [0])) with ((rel ++ [0]) !! length (run isSchemeChar rel)).
  assert (El : (rel ++ [0]) !! length (run isSchemeChar rel) = Some (hd 0 (rest isSchemeChar rel))).
  { replace (rel ++ [0]) with (run isSchemeChar rel ++ rest isSchemeChar rel ++ [0]) by (by rewrite app_assoc, run_rest). rewrite lookup_app_r, Nat.sub_diag by done. by destruct (rest isSchemeChar rel). }
  match goal with |- mbind _ ?X = _ => change X with ((rel ++ [0]) !! length (run isSchemeChar rel)); rewrite El end. cbn [mbind option_bind]. by rewrite (proj2 (Z.eqb_neq _ _) H).
Qed.

(** The front of the string that a reference is put behind. *)
Definition frontFor (k : KURL) (rel : list Z) : list Z :=
  match rel with
  | c :: rest =>
      if c =? ch "#" then take (m_queryEnd k) (m_string k)
      else if c =? ch "?" then take (m_pathEnd k) (m_string k)
      else if c =? ch "/" then if hd 0 rest =? ch "/" then take (S (m_schemeEnd k)) (m_string k) else take (m_portEnd k) (m_string k)
      else if Member.hasPath k then Member.baseAsString k else take (m_portEnd k) (m_string k) ++ [ch "/"]
  | [] => []
  end.

Lemma appendFront_ok (front rel o : list Z) : isASCIIText front -> isASCIIText rel -> (buffer ← appendASCII front (rel ++ [0]) (length rel); parse (cString buffer) o) = parse (front ++ rel) o.
Proof.
  intros Hf Hr. unfold appendASCII. rewrite length_app. cbn [length]. rewrite (proj2 (Nat.leb_le _ _)) by lia. cbn [ASSERT mbind option_bind]. rewrite take_app_length, app_assoc.
  rewrite (cString_end (front ++ rel) []) by by apply ascii_app. done.
Qed.

Lemma take_text (n : nat) (s : list Z) : isASCIIText s -> isASCIIText (take n s).
Proof. apply Forall_take. Qed.

(** The path of the base up to its last slash. *)
Lemma base_directory (P : Parts) : head (p_path P) = Some (ch "/") -> let k := kurlOf P in
  (m_portEnd k < m_pathAfterLastSlash k <= m_pathEnd k)%nat /\ directory (slice (m_string k) (m_portEnd k) (m_pathAfterLastSlash k)) /\
  (exists e, p_path P = slice (m_string k) (m_portEnd k) (m_pathAfterLastSlash k) ++ e).
Proof.
  intros Hp k. pose proof (slices P k eq_refl) as (_ & _ & _ & _ & _ & _ & S7 & _). assert (Epe : m_pathEnd k = (m_portEnd k + length (p_path P))%nat) by done.
  assert (Hlen : (m_pathEnd k <= length (m_string k))%nat) by (unfold k; cbn [kurlOf m_pathEnd m_string]; rewrite print_length; lia).
  pose proof (afterLastSlash_bounds (m_string k) (m_portEnd k) (m_pathEnd k) ltac:(lia)) as B. pose proof (afterLastSlash_spec (m_string k) (m_portEnd k) (m_pathEnd k) ltac:(lia)) as [Hn Hs]. cbv zeta in Hn, Hs.
  change (afterLastSlash (m_string k) (m_portEnd k) (m_pathEnd k)) with (m_pathAfterLastSlash k) in *. set (n := m_pathAfterLastSlash k) in *. set (i := m_portEnd k) in *.
  destruct (p_path P) as [| c p] eqn:Ep; [done |]. injection Hp as ->. destruct (slice_cons _ _ _ _ _ S7) as (_ & Hi & _).
  assert (Hlt : (i < n)%nat).
  { destruct (Nat.eq_dec n i) as [E | N]; [| lia]. exfalso. rewrite E, S7 in Hs. by apply list.Forall_cons in Hs as [Hs _]. }
  split; [lia |]. assert (Et : exists e, ch "/" :: p = slice (m_string k) i n ++ e).
  { exists (slice (m_string k) n (m_pathEnd k)). rewrite <- S7. unfold slice. replace (m_pathEnd k - i)%nat with ((n - i) + (m_pathEnd k - n))%nat by lia. rewrite <- take_take_drop, drop_drop. by replace (i + (n - i))%nat with n by lia. }
  split; [| exact Et]. destruct (slice (m_string k) i n) as [| c u] eqn:Es; [apply slice_nil in Es; lia |]. destruct Et as [e Et]. cbn [app] in Et. injection Et as <- Et. exists u. split; [done |].
  destruct Hn as [Hn | Hn]; [lia |]. destruct (slice_cons _ _ _ _ _ Es) as (_ & _ & Es'). destruct (decide (u = [])) as [-> | Hu]; [by left |]. right. exists (slice (m_string k) (S i) (n - 1)).
  assert (S i < n)%nat by (destruct (Nat.le_gt_cases n (S i)) as [L |]; [rewrite slice_end in Es' by done; by rewrite <- Es' in Hu | done]).
  rewrite <- Es'. unfold slice. replace (n - S i)%nat with (S (n - 1 - S i)) by lia. apply take_S_r. rewrite lookup_drop. by replace (S i + (n - 1 - S i))%nat with (n - 1)%nat by lia.
Qed.

Lemma relativePath_ok (P : Parts) (rel o : list Z) : canonicalParts P -> p_slashes P = true -> reference rel -> isPathSegmentEndChar (hd 0 rel) = false -> let k := kurlOf P in
  (buffer ← relativePath k (rel ++ [0]) (length rel); parse (cString buffer) o) = parse ((if Member.hasPath k then Member.baseAsString k else take (m_portEnd k) (m_string k) ++ [ch "/"]) ++ rel) o.
Proof.
  intros HC Hsl [Ha _ _ _] Hend k. pose proof (c_rereadable _ HC) as HV. set (q := prefixText P ++ authorityText P). pose proof (front_text P HC) as Hq. fold q in Hq.
  assert (Eport : m_portEnd k = length q) by (unfold k, q, authorityText; cbn [kurlOf m_portEnd]; rewrite !length_app; lia). assert (Eprefix : take (m_portEnd k) (m_string k) = q).
  { rewrite Eport. unfold k. cbn [kurlOf m_string]. unfold print. rewrite app_assoc. apply take_app_length. }
  assert (Epath : m_pathEnd k = (m_portEnd k + length (p_path P))%nat) by done. destruct rel as [| c0 rel0] eqn:Erel; [done |]. rewrite <- Erel in *. assert (Hc0 : 0 < c0 < 0x80) by (rewrite Erel in Ha; by apply list.Forall_cons in Ha as [Ha _]).
  assert (Hpse : (c0 =? 0) = false /\ (c0 =? ch "?") = false /\ (c0 =? ch "#") = false).
  { rewrite Erel in Hend. cbn [hd] in Hend. rewrite !Z.eqb_neq. repeat split; intros ->; by vm_compute in Hend. }
  destruct Hpse as (Hz & Hq1 & Hq2).
  (* the directory that is copied *)
  assert (Hdir : exists dir, directory dir /\ isASCIIText dir /\ Forall (fun c => isPathChar c = true) dir /\ (length dir <= length (p_path P) + 1)%nat /\
    (if bool_decide (afterLastSlash (m_string k) (m_portEnd k) (m_pathEnd k) = m_portEnd k) then
       Some (if negb (bool_decide (S (m_schemeEnd k) = m_pathEnd k)) && negb (c0 =? 0) && negb (c0 =? ch "?") && negb (c0 =? ch "#") then [ch "/"] else [])
     else copyPathRemovingDots (drop (m_portEnd k) (m_string k)) 0 (afterLastSlash (m_string k) (m_portEnd k) (m_pathEnd k) - m_portEnd k)) = Some (removeDots dir) /\
    (if Member.hasPath k then Member.baseAsString k else q ++ [ch "/"]) = q ++ dir).
  { destruct (v_slashes _ HV Hsl) as [E | Hp].
    - assert (El : m_pathEnd k = m_portEnd k) by (rewrite Epath, E; cbn; lia). exists [ch "/"]. split; [exists []; split; [done | by left] |]. split; [by repeat constructor |]. split; [by repeat constructor |]. split; [cbn; lia |].
      rewrite El. split; [| unfold Member.hasPath; by rewrite (bool_decide_eq_true_2 _ El)].
      rewrite bool_decide_eq_true_2 by (pose proof (afterLastSlash_bounds (m_string k) (m_portEnd k) (m_portEnd k) ltac:(lia)); lia). rewrite bool_decide_eq_false_2, Hz, Hq1, Hq2; [done |].
      pose proof (kurlOf_ordered P (v_scheme _ HV)) as HO. fold k in HO. rewrite Eport. unfold q. rewrite length_app. unfold prefixText. rewrite Hsl, length_app. cbn [length k kurlOf m_schemeEnd]. lia.
    - destruct (base_directory P Hp) as (B & D & (e & Ee)). cbv zeta in B, D, Ee. fold k in B, D, Ee. set (n := m_pathAfterLastSlash k) in *. set (dir := slice (m_string k) (m_portEnd k) n) in *.
      pose proof (v_path _ HV) as Hpc. rewrite Ee in Hpc. apply list.Forall_app in Hpc as [Hpc _]. pose proof (url_ascii _ (c_url _ HC)) as Hall. unfold print in Hall. apply list.Forall_app in Hall as [_ Hall]. apply list.Forall_app in Hall as [_ Hall].
      apply list.Forall_app in Hall as [Hall _]. rewrite Ee in Hall. apply list.Forall_app in Hall as [Hall _]. exists dir. split; [done |]. split; [done |]. split; [done |]. split; [rewrite Ee, length_app; lia |].
      change (afterLastSlash (m_string k) (m_portEnd k) (m_pathEnd k)) with n. rewrite bool_decide_eq_false_2 by lia. split.
      + assert (Es : slice (drop (m_portEnd k) (m_string k)) 0 (n - m_portEnd k) = dir) by (unfold slice, dir; by rewrite drop_0, Nat.sub_0_r).
        destruct D as (u & Eu & Hu). apply copyPath_ok; [| exact Es | right; by rewrite Eu | lia]. right. split.
        * pose proof (kurlOf_ordered P (v_scheme _ HV)) as HO. fold k in HO. destruct HO. rewrite length_drop. lia.
        * right. rewrite Eu. destruct Hu as [-> | (v & ->)]; [done |]. rewrite app_comm_cons, last_app. done.
      + unfold Member.hasPath. rewrite bool_decide_eq_false_2 by (rewrite Epath, Ee, length_app; destruct D as (u & -> & _); cbn [length]; lia). cbn [negb]. unfold Member.baseAsString, left. fold n. rewrite <- Eprefix. unfold dir, slice.
        rewrite take_take_drop. f_equal. lia. }
  destruct Hdir as (dir & D & Da & Dp & Dl & Ecopy & Ebase). rewrite Eprefix, Ebase. clear Ebase. unfold relativePath. rewrite Eprefix.
  assert (Efirst : (rel ++ [0]) !! 0%nat = Some c0) by (by rewrite Erel). rewrite Efirst. cbn [mbind option_bind]. rewrite Ecopy. cbn [mbind option_bind].
  set (t := run isPathChar rel). set (y := rest isPathChar rel). assert (Ety : rel = t ++ y) by (symmetry; apply run_rest).
  assert (Hay : isASCIIText t /\ isASCIIText y) by (apply list.Forall_app; by rewrite <- Ety). destruct Hay as [Hat Hay].
  assert (Hr : endsPath (y ++ [0])).
  { pose proof (rest_head isPathChar rel ltac:(done)) as Hh. fold y in Hh. destruct y as [| cy y']; [exists 0, []; split; [done | by left] |]. exists cy, (y' ++ [0]). split; [done |]. right. cbn [hd] in Hh. apply list.Forall_cons in Hay as [Hcy _].
    unfold isPathChar in Hh. rewrite (proj2 (Z.eqb_neq cy 0)) in Hh by lia. cbn [negb andb] in Hh. apply andb_false_iff in Hh. rewrite !negb_false_iff, !Z.eqb_eq in Hh. done. }
  rewrite Ety, <- app_assoc. rewrite (merge_ok q dir t (y ++ [0]) D Hr (ascii_cText _ Hat) (run_forall _ _)). cbn [mbind option_bind].
  rewrite (cString_end y [] Hay), rev_involutive. assert (Hfit : (length (rev (q ++ removeDots (dir ++ t))) + length y <? m_pathEnd k + 1 + length (t ++ y) + 1)%nat = true).
  { apply Nat.ltb_lt. rewrite length_rev, !length_app. pose proof (merge_length dir t). rewrite Epath, Eport. lia. }
  rewrite Hfit. cbn [ASSERT mbind option_bind]. assert (Hmerged : isASCIIText (removeDots (dir ++ t))) by (apply removeDots_members; [cbn; lia | by apply ascii_app]).
  rewrite <- app_assoc, cString_text by (apply ascii_app; [done | by apply ascii_app]). rewrite <- app_assoc, (app_assoc dir). apply parse_dots; [done | done | | by apply ascii_app | apply list.Forall_app; split; [done | apply run_forall] | done |].
  - destruct D as (u & -> & _). done.
  - destruct (run_stop isPathChar y) as [E _]; [done | apply rest_head; done | exact E].
Qed.

(** ** The cases *)

Lemma no_backslash (rel : list Z) : Forall (fun c => c <> 0x5C) rel -> existsb (Z.eqb 0x5C) rel = false.
Proof. intros H. induction H as [| c rel Hc H IH]; [done |]. cbn [existsb]. rewrite IH, orb_false_r. apply Z.eqb_neq. congruence. Qed.

Lemma ascii_contained (rel : list Z) : isASCIIText rel -> containsOnlyASCII rel = true.
Proof. intros H. induction H as [| c rel Hc H IH]; [done |]. unfold containsOnlyASCII in *. cbn [forallb]. rewrite IH, (proj2 (Z.ltb_lt _ _)) by lia. done. Qed.

(** init of a reference is resolveRelative of its characters. *)
Lemma init_relative (idn : list Z -> option (list Z)) (ep eo : list Z -> list Z) (io iv : bool) (k : KURL) (rel : list Z) : reference rel -> m_isValid k = true ->
  init idn ep eo io iv k rel = resolveRelative k (rel ++ [0]) (length rel) rel.
Proof.
  intros [Ha Hs Ht Hsc] Hv. unfold init. rewrite Hv. cbn [negb andb]. rewrite (no_backslash _ Hs). cbn [mbind option_bind]. rewrite (ascii_contained _ Ha). cbn [mbind option_bind].
  destruct (trim_ok _ Ht) as [T1 T2]. rewrite T1, T2, (splitScheme_ok _ _ Hsc). done.
Qed.

Lemma hierarchical_ok (P : Parts) : p_slashes P = true -> Member.isHierarchical (kurlOf P) = Some true.
Proof.
  intros Hsl. assert (E : forall n, m_string (kurlOf P) !! (length (p_scheme P) + n)%nat = (ch ":" :: ch "/" :: ch "/" :: authorityText P ++ p_path P ++ p_query P ++ p_fragment P) !! n).
  { intros n. cbn [kurlOf m_string]. unfold print, prefixText. rewrite Hsl, <- app_assoc. rewrite lookup_app_r by lia. by replace (length (p_scheme P) + n - length (p_scheme P))%nat with n by lia. }
  pose proof (E 0%nat) as E0. pose proof (E 1%nat) as E1. rewrite Nat.add_0_r in E0. rewrite Nat.add_1_r in E1. unfold Member.isHierarchical, charAt. change (m_schemeEnd (kurlOf P)) with (length (p_scheme P)). by rewrite E0, E1.
Qed.

(** init of a reference against a URL with an authority. *)
Lemma init_ok (idn : list Z -> option (list Z)) (ep eo : list Z -> list Z) (io iv : bool) (P : Parts) (rel : list Z) : canonicalParts P -> p_slashes P = true -> reference rel -> let k := kurlOf P in
  init idn ep eo io iv k rel = match rel with [] => Member.removeFragmentIdentifier k | _ => parse (frontFor k rel ++ rel) rel end.
Proof.
  intros HC Hsl HR k. rewrite init_relative by done. unfold resolveRelative. replace (Member.isHierarchical k) with (Some true) by (symmetry; by apply hierarchical_ok). cbn [mbind option_bind negb].
  assert (Hk : isASCIIText (m_string k)) by apply url_ascii, (c_url _ HC). destruct rel as [| c rel0] eqn:Erel; [done |]. pose proof (e_ascii _ HR) as Ha.
  assert (Hc : 0 < c < 0x80) by (by apply list.Forall_cons in Ha as [Hc _]). change (((c :: rel0) ++ [0]) !! 0%nat) with (Some c). cbn [mbind option_bind]. rewrite (proj2 (Z.eqb_neq c 0)) by lia. cbv zeta. unfold frontFor.
  destruct (c =? ch "#") eqn:E1; [by apply appendFront_ok; [apply take_text |] |]. destruct (c =? ch "?") eqn:E2; [by apply appendFront_ok; [apply take_text |] |]. destruct (c =? ch "/") eqn:E3.
  - assert (El : ((c :: rel0) ++ [0]) !! 1%nat = Some (hd 0 rel0)) by (by destruct rel0). rewrite El. cbn [mbind option_bind]. destruct (hd 0 rel0 =? ch "/"); by apply appendFront_ok; [apply take_text |].
  - apply relativePath_ok; try done. cbn [hd]. apply not_true_is_false. rewrite pathEnd_chars by lia. rewrite Z.eqb_neq in E1, E2, E3. lia.
Qed.

(** C16: Resolving a reference is parsing the front of the base followed by the reference: for
    a base with an authority that was parsed from a text without tabs in its path, whose
    special scheme is followed by two slashes ([wellSlashed]), and reads back as itself
    ([stable]), and a reference of ASCII characters without backslashes, spaces at its ends and
    a scheme, KURL::init fails no assertion, stays in its buffers and gives what parse gives of
    the text with the whole front: up to the query for a fragment, up to the path for a query,
    the scheme for two slashes, the authority for one, and the base up to its last slash for a
    relative path, which the code merges, and frees of dots, before it is parsed.  The empty
    reference removes the fragment.  The encodings have no influence. *)
Theorem resolution (idn : list Z -> option (list Z)) (ep eo : list Z -> list Z) (io iv : bool) (url o rel : list Z) (r : RawURL) :
  cText url -> wellSlashed url -> noTabs (r_path r) -> splitURL url = Some r -> stable (buildParts r) = true -> p_slashes (buildParts r) = true -> reference rel ->
  exists base, parse url o = Some base /\
    init idn ep eo io iv base rel = match rel with [] => Member.removeFragmentIdentifier base | _ => parse (frontFor base rel ++ rel) rel end.
Proof.
  intros Hu Hw Ht Hr Hst Hsl HR. pose proof (splitURL_read _ _ Hu Hr) as HP. pose proof (built_canonical r HP Ht Hst) as HC.
  rewrite parse_ok, Hr by done. eexists. split; [done |]. by apply init_ok.
Qed.

Lemma reference_check (rel : list Z) : forallb (fun c => (0 <? c) && (c <? 0x80) && negb (c =? 0x5C)) rel = true -> trimmed rel -> noScheme rel -> reference rel.
Proof.
  intros H Ht Hn. split; [| | done | done]; revert H; apply all_check; intros c; rewrite !andb_true_iff, !Z.ltb_lt, negb_true_iff, Z.eqb_neq; tauto.
Qed.

Lemma resolution_witness : exists base, parse (units "http://h:80/a/b/c?q#f") [] = Some base /\
  init (fun _ => None) id id false true base (units "../d/./e?r#g") = parse (units "http://h/a/b/../d/./e?r#g") (units "../d/./e?r#g") /\
  (m_string <$> init (fun _ => None) id id false true base (units "../d/./e?r#g")) = Some (units "http://h/a/d/e?r#g").
Proof.
  let r := eval vm_compute in (splitURL (units "http://h:80/a/b/c?q#f")) in
  match r with Some ?r =>
    destruct (resolution (fun _ => None) id id false true (units "http://h:80/a/b/c?q#f") [] (units "../d/./e?r#g") r ltac:(by apply text_check) ltac:(intros _; eexists; vm_compute; reflexivity) ltac:(by apply tabs_check) eq_refl
      ltac:(vm_compute; reflexivity) ltac:(vm_compute; reflexivity) ltac:(apply reference_check; [vm_compute; reflexivity | right; split; vm_compute; reflexivity | left; vm_compute; reflexivity])) as (base & E & E1)
  end.
  let b := eval vm_compute in (parse (units "http://h:80/a/b/c?q#f") []) in assert (Eb : parse (units "http://h:80/a/b/c?q#f") [] = b) by (vm_compute; reflexivity).
  assert (Ef : frontFor <$> Some base = frontFor <$> parse (units "http://h:80/a/b/c?q#f") []) by (by rewrite E). rewrite Eb in Ef. apply (inj Some) in Ef.
  exists base. rewrite E1, Ef. split; [exact E |]. split; vm_compute; reflexivity.
Defined.

(** ** What happens beyond that *)

Definition resolved (base rel : list Z) : option (option KURL) :=
  base ← parse base []; Some (init (fun _ => None) id id false true base rel).

(** A reference with the scheme of the base: len still counts the scheme, so that what is
    copied behind the reference's last character is not the reference's. *)
Example same_scheme_over_read : resolved (units "http://h/a") (units "http:#x") = Some None /\ resolved (units "http://h/a") (units "http:?x") = Some None.
Proof. by vm_compute. Qed.

(** The tests of resolution in RFC 3986, section 5.4, with the base http://a/b/c/d;p?q. *)
Example resolution_examples :
  (fun rel => text ← resolved (units "http://a/b/c/d;p?q") (units rel); m_string <$> text) <$> ["g:h"; "g"; "./g"; "g/"; "/g"; "//g"; "?y"; "g?y"; "#s"; "g#s"; ";x"; ""; "."; "./"; ".."; "../g"; "../../g"; "../../../g"; "/./g"; "/../g"; "g."; "..g"; "./g/."; "g/../h"]%string =
  (fun text => Some (units text)) <$> ["g:h"; "http://a/b/c/g"; "http://a/b/c/g"; "http://a/b/c/g/"; "http://a/g"; "http://g/"; "http://a/b/c/d;p?y"; "http://a/b/c/g?y"; "http://a/b/c/d;p?q#s"; "http://a/b/c/g#s"; "http://a/b/c/;x"; "http://a/b/c/d;p?q"; "http://a/b/c/"; "http://a/b/c/"; "http://a/b/"; "http://a/b/g"; "http://a/g"; "http://a/g"; "http://a/g"; "http://a/g"; "http://a/b/c/g."; "http://a/b/c/..g"; "http://a/b/c/g/"; "http://a/b/c/h"]%string.
Proof. by vm_compute. Qed.
