(* ===== verification/RedBlackTree.v ===== *)
(** * RedBlackTree: the intrusive tree of WTF/wtf/RedBlackTree.h

    Nodes belong to the user and are linked by pointers.  A pointer is an address or null, the
    store maps the addresses of nodes to their fields, and the member functions are programs
    of a monad that threads the store and the root; dereferencing null, or an address that is
    no node, fails.  The word m_parentAndRed is a pointer and a color.  The code is written
    twice where left and right are exchanged; here the side is an argument. *)

From stdpp Require Import gmap.
From S2P Require Import Prelude.

Inductive Color := Red | Black.
#[export] Instance Color_eq_dec : EqDecision Color. Proof. solve_decision. Defined.

(** NodeType*  *)
Definition Ptr : Type := option positive.

Record Node := mkNode { m_left : Ptr; m_right : Ptr; m_parent : Ptr; m_color : Color }.

(** The nodes and m_root. *)
Record Store := mkStore { s_nodes : gmap positive Node; m_root : Ptr }.

(** ** Programs *)

Definition Prog (A : Type) : Type := Store -> result (A * Store).
#[export] Instance Prog_ret : MRet Prog := fun A a s => Ok (a, s).
#[export] Instance Prog_bind : MBind Prog := fun A B f m s => match m s with Ok (a, s') => f a s' | Failed => Failed | OutOfFuel => OutOfFuel end.

Definition assert (b : bool) : Prog unit := fun s => if b then Ok ((), s) else Failed.
Definition diverge {A} : Prog A := fun _ => OutOfFuel.
(** Every loop goes along a path of the tree. *)
Definition enough : Prog nat := fun s => Ok (S (size (s_nodes s)), s).

Definition deref (p : Ptr) : Prog Node := fun s =>
  match p with None => Failed | Some a => match s_nodes s !! a with None => Failed | Some n => Ok (n, s) end end.
Definition store (p : Ptr) (n : Node) : Prog unit := fun s =>
  match p with None => Failed | Some a => Ok ((), mkStore (<[a := n]> (s_nodes s)) (m_root s)) end.
Definition root : Prog Ptr := fun s => Ok (m_root s, s).
Definition setRoot (p : Ptr) : Prog unit := fun s => Ok ((), mkStore (s_nodes s) p).

(** ** Node *)

Definition left (p : Ptr) : Prog Ptr := n ← deref p; mret (m_left n).
Definition right (p : Ptr) : Prog Ptr := n ← deref p; mret (m_right n).
Definition parent (p : Ptr) : Prog Ptr := n ← deref p; mret (m_parent n).
Definition color (p : Ptr) : Prog Color := n ← deref p; mret (m_color n).
Definition setLeft (p node : Ptr) : Prog unit := n ← deref p; store p (mkNode node (m_right n) (m_parent n) (m_color n)).
Definition setRight (p node : Ptr) : Prog unit := n ← deref p; store p (mkNode (m_left n) node (m_parent n) (m_color n)).
Definition setParent (p newParent : Ptr) : Prog unit := n ← deref p; store p (mkNode (m_left n) (m_right n) newParent (m_color n)).
Definition setColor (p : Ptr) (value : Color) : Prog unit := n ← deref p; store p (mkNode (m_left n) (m_right n) (m_parent n) value).
Definition reset (p : Ptr) : Prog unit := n ← deref p; store p (mkNode None None None Red).

(** if (p) p->f() *)
Definition ifNode (p : Ptr) (f : Prog unit) : Prog unit := match p with Some _ => f | None => mret () end.
(** !p || p->color() == Black *)
Definition nullOrBlack (p : Ptr) : Prog bool := match p with None => mret true | Some _ => c ← color p; mret (bool_decide (c = Black)) end.

(** The side of a child. *)
Inductive Side := LeftSide | RightSide.
Definition other (d : Side) : Side := match d with LeftSide => RightSide | RightSide => LeftSide end.
Definition child (d : Side) (p : Ptr) : Prog Ptr := match d with LeftSide => left p | RightSide => right p end.

(** treeMinimum (LeftSide) and treeMaximum *)
Fixpoint extremeLoop (d : Side) (fuel : nat) (x : Ptr) : Prog Ptr :=
  match fuel with
  | O => diverge
  | S fuel' => y ← child d x; match y with Some _ => extremeLoop d fuel' y | None => mret x end
  end.
Definition treeMinimum (x : Ptr) : Prog Ptr := fuel ← enough; extremeLoop LeftSide fuel x.
Definition treeMaximum (x : Ptr) : Prog Ptr := fuel ← enough; extremeLoop RightSide fuel x.

(** while (y && x == y->right()) *)
Fixpoint climbLoop (d : Side) (fuel : nat) (x y : Ptr) : Prog Ptr :=
  match fuel with
  | O => diverge
  | S fuel' =>
      match y with
      | None => mret y
      | Some _ => c ← child d y; if bool_decide (x = c) then y' ← parent y; climbLoop d fuel' y y' else mret y
      end
  end.

Definition successor (x : Ptr) : Prog Ptr :=
  r ← right x;
  match r with
  | Some _ => treeMinimum r
  | None => y ← parent x; fuel ← enough; climbLoop RightSide fuel x y
  end.
Definition predecessor (x : Ptr) : Prog Ptr :=
  l ← left x;
  match l with
  | Some _ => treeMaximum l
  | None => y ← parent x; fuel ← enough; climbLoop LeftSide fuel x y
  end.

(** ** RedBlackTree *)

(** if (x == p->left()) p->setLeft(y); else p->setRight(y); *)
Definition replaceChild (p x y : Ptr) : Prog unit := l ← left p; if bool_decide (x = l) then setLeft p y else setRight p y.
(** The same, for the root when there is no parent. *)
Definition relink (p x y : Ptr) : Prog unit := match p with None => setRoot y | Some _ => replaceChild p x y end.

Definition leftRotate (x : Ptr) : Prog Ptr :=
  y ← right x;
  yl ← left y;
  _ ← setRight x yl;
  yl ← left y;
  _ ← ifNode yl (setParent yl x);
  xp ← parent x;
  _ ← setParent y xp;
  xp ← parent x;
  _ ← relink xp x y;
  _ ← setLeft y x;
  _ ← setParent x y;
  mret y.

Definition rightRotate (y : Ptr) : Prog Ptr :=
  x ← left y;
  xr ← right x;
  _ ← setLeft y xr;
  xr ← right x;
  _ ← ifNode xr (setParent xr y);
  yp ← parent y;
  _ ← setParent x yp;
  yp ← parent y;
  _ ← relink yp y x;
  _ ← setRight x y;
  _ ← setParent y x;
  mret x.

(** leftRotate (LeftSide) or rightRotate *)
Definition rotate (d : Side) (x : Ptr) : Prog Ptr := match d with LeftSide => leftRotate x | RightSide => rightRotate x end.

Section Keys.
(** KeyType with its operators, and NodeType::key(), which does not change. *)
Context {KeyType : Type} (lt eq gt : KeyType -> KeyType -> bool) (key : positive -> KeyType).

(** The loop of treeInsert: the last node on the way. *)
Fixpoint insertDescend (fuel : nat) (z : positive) (y x : Ptr) : Prog Ptr :=
  match fuel with
  | O => diverge
  | S fuel' =>
      match x with
      | None => mret y
      | Some a => x' ← (if lt (key z) (key a) then left x else right x); insertDescend fuel' z x x'
      end
  end.

Definition treeInsert (z : positive) : Prog unit :=
  let p := Some z in
  l ← left p; _ ← assert (bool_decide (l = None));
  r ← right p; _ ← assert (bool_decide (r = None));
  q ← parent p; _ ← assert (bool_decide (q = None));
  c ← color p; _ ← assert (bool_decide (c = Red));
  x ← root;
  fuel ← enough;
  y ← insertDescend fuel z None x;
  _ ← setParent p y;
  match y with
  | None => setRoot p
  | Some a => if lt (key z) (key a) then setLeft y p else setRight y p
  end.

Definition insertCase3 (d : Side) (x : Ptr) : Prog Ptr :=
  p ← parent x; _ ← setColor p Black;
  p ← parent x; g ← parent p; _ ← setColor g Red;
  p ← parent x; g ← parent p; _ ← rotate (other d) g;
  mret x.

(** One round of the loop of insert, for a parent on side [d] of its parent. *)
Definition insertCase (d : Side) (x : Ptr) : Prog Ptr :=
  p ← parent x; g ← parent p;
  y ← child (other d) g;
  black ← nullOrBlack y;
  if negb black then
    p ← parent x; _ ← setColor p Black;
    _ ← setColor y Black;
    p ← parent x; g ← parent p; _ ← setColor g Red;
    p ← parent x; parent p
  else
    p ← parent x; pc ← child (other d) p;
    x ← (if bool_decide (x = pc) then x ← parent x; _ ← rotate d x; mret x else mret x);
    insertCase3 d x.

Fixpoint insertLoop (fuel : nat) (x : Ptr) : Prog unit :=
  match fuel with
  | O => diverge
  | S fuel' =>
      r ← root;
      if bool_decide (x = r) then mret ()
      else
        p ← parent x; c ← color p;
        if bool_decide (c = Red) then
          p ← parent x; q ← parent x; g ← parent q; gl ← left g;
          x' ← (if bool_decide (p = gl) then insertCase LeftSide x else insertCase RightSide x);
          insertLoop fuel' x'
        else mret ()
  end.

Definition insert (x : positive) : Prog unit :=
  _ ← reset (Some x);
  _ ← treeInsert x;
  _ ← setColor (Some x) Red;
  fuel ← enough;
  _ ← insertLoop fuel (Some x);
  r ← root; setColor r Black.

(** The cases of removeFixup, for x on side [d] of xParent and its sibling w; the first and
    the third give the sibling there is afterwards, the last the next x and its parent. *)
Definition removeCase1 (d : Side) (xParent w : Ptr) : Prog Ptr :=
  c ← color w;
  if bool_decide (c = Red) then
    _ ← setColor w Black;
    _ ← setColor xParent Red;
    _ ← rotate d xParent;
    child (other d) xParent
  else mret w.

Definition removeCase3 (d : Side) (xParent w : Ptr) : Prog Ptr :=
  far ← child (other d) w; farBlack ← nullOrBlack far;
  if farBlack : bool then
    near ← child d w; _ ← setColor near Black;
    _ ← setColor w Red;
    _ ← rotate (other d) w;
    child (other d) xParent
  else mret w.

Definition removeCase4 (d : Side) (xParent w : Ptr) : Prog (Ptr * Ptr) :=
  c ← color xParent; _ ← setColor w c;
  _ ← setColor xParent Black;
  far ← child (other d) w; _ ← ifNode far (setColor far Black);
  _ ← rotate d xParent;
  x ← root; q ← parent x; mret (x, q).

(** One round of the loop of removeFixup: the next x and its parent. *)
Definition removeCase (d : Side) (x xParent : Ptr) : Prog (Ptr * Ptr) :=
  w ← child (other d) xParent;
  _ ← assert (bool_decide (w ≠ None));
  w ← removeCase1 d xParent w;
  near ← child d w; nearBlack ← nullOrBlack near;
  bothBlack ← (if nearBlack : bool then far ← child (other d) w; nullOrBlack far else mret false);
  if bothBlack : bool then
    _ ← setColor w Red;
    q ← parent xParent; mret (xParent, q)
  else
    w ← removeCase3 d xParent w;
    removeCase4 d xParent w.

Fixpoint removeFixupLoop (fuel : nat) (x xParent : Ptr) : Prog unit :=
  match fuel with
  | O => diverge
  | S fuel' =>
      r ← root;
      black ← (if bool_decide (x = r) then mret false else nullOrBlack x);
      if black : bool then
        l ← left xParent;
        '(x, xParent) ← (if bool_decide (x = l) then removeCase LeftSide x xParent else removeCase RightSide x xParent);
        removeFixupLoop fuel' x xParent
      else ifNode x (setColor x Black)
  end.
Definition removeFixup (x xParent : Ptr) : Prog unit := fuel ← enough; removeFixupLoop fuel x xParent.

(** y, which is not in the tree, takes the place of z. *)
Definition replaceNode (z y : Ptr) : Prog unit :=
  q ← parent z; _ ← setParent y q;
  c ← color z; _ ← setColor y c;
  l ← left z; _ ← setLeft y l;
  r ← right z; _ ← setRight y r;
  l ← left z; _ ← ifNode l (setParent l y);
  r ← right z; _ ← ifNode r (setParent r y);
  q ← parent z;
  match q with
  | Some _ => replaceChild q z y
  | None => r ← root; _ ← assert (bool_decide (r = z)); setRoot y
  end.

(** y, which has at most one child, leaves the tree: that child and its parent. *)
Definition unlink (y : Ptr) : Prog (Ptr * Ptr) :=
  l ← left y;
  x ← (match l with Some _ => left y | None => right y end);
  yp ← parent y;
  xParent ← (match x with Some _ => _ ← setParent x yp; parent x | None => mret yp end);
  yp ← parent y;
  _ ← relink yp y x;
  mret (x, xParent).

Definition remove (z : positive) : Prog Ptr :=
  let pz := Some z in
  q ← parent pz; r ← root; _ ← assert (negb (bool_decide (q = None)) || bool_decide (pz = r));
  l ← left pz; r ← right pz;
  y ← (if bool_decide (l = None) || bool_decide (r = None) then mret pz else successor pz);
  '(x, xParent) ← unlink y;
  c ← color y;
  if negb (bool_decide (y = pz)) then
    _ ← (if bool_decide (c = Black) then removeFixup x xParent else mret ());
    _ ← replaceNode pz y;
    mret pz
  else
    _ ← (if bool_decide (c = Black) then removeFixup x xParent else mret ());
    mret pz.

Fixpoint findExactLoop (fuel : nat) (k : KeyType) (current : Ptr) : Prog Ptr :=
  match fuel with
  | O => diverge
  | S fuel' =>
      match current with
      | None => mret None
      | Some a =>
          if eq (key a) k then mret current
          else next ← (if lt k (key a) then left current else right current); findExactLoop fuel' k next
      end
  end.
Definition findExact (k : KeyType) : Prog Ptr := r ← root; fuel ← enough; findExactLoop fuel k r.

Definition removeKey (k : KeyType) : Prog Ptr :=
  result ← findExact k;
  match result with None => mret None | Some a => remove a end.

Fixpoint findLeastLoop (fuel : nat) (k : KeyType) (best current : Ptr) : Prog Ptr :=
  match fuel with
  | O => diverge
  | S fuel' =>
      match current with
      | None => mret best
      | Some a =>
          if eq (key a) k then mret current
          else if lt (key a) k then next ← right current; findLeastLoop fuel' k best next
          else next ← left current; findLeastLoop fuel' k current next
      end
  end.
Definition findLeastGreaterThanOrEqual (k : KeyType) : Prog Ptr := r ← root; fuel ← enough; findLeastLoop fuel k None r.

Fixpoint findGreatestLoop (fuel : nat) (k : KeyType) (best current : Ptr) : Prog Ptr :=
  match fuel with
  | O => diverge
  | S fuel' =>
      match current with
      | None => mret best
      | Some a =>
          if eq (key a) k then mret current
          else if gt (key a) k then next ← left current; findGreatestLoop fuel' k best next
          else next ← right current; findGreatestLoop fuel' k current next
      end
  end.
Definition findGreatestLessThanOrEqual (k : KeyType) : Prog Ptr := r ← root; fuel ← enough; findGreatestLoop fuel k None r.
End Keys.

Definition first : Prog Ptr := r ← root; match r with None => mret None | Some _ => treeMinimum r end.
Definition last : Prog Ptr := r ← root; match r with None => mret None | Some _ => treeMaximum r end.
Definition isEmpty : Prog bool := r ← root; mret (bool_decide (r = None)).

Fixpoint sizeLoop (fuel : nat) (current : Ptr) (result : nat) : Prog nat :=
  match fuel with
  | O => diverge
  | S fuel' => match current with None => mret result | Some _ => next ← successor current; sizeLoop fuel' next (S result) end
  end.
Definition size : Prog nat := x ← first; fuel ← enough; sizeLoop fuel x 0.

(** The store of a tree without nodes, and a node the user has made. *)
Definition RedBlackTree : Store := mkStore ∅ None.
Definition allocate (x : positive) : Prog unit := fun s => Ok ((), mkStore (<[x := mkNode None None None Black]> (s_nodes s)) (m_root s)).
