(* ===== verification/RedBlackTreeShape.v ===== *)
(** * RedBlackTree: the tree in the store

    [holds]: the nodes of the store spell a tree, seen from one of its places: the subtree
    there, and the frames above it.  What the programs that write do to it. *)

From stdpp Require Import gmap.
From S2P Require Import Prelude RedBlackTree.

(** ** Trees of addresses, and places in them *)

Inductive tree := Leaf | T (c : Color) (l : tree) (a : positive) (r : tree).

Definition rootOf (t : tree) : Ptr := match t with Leaf => None | T _ _ a _ => Some a end.
Fixpoint inorder (t : tree) : list positive := match t with Leaf => [] | T _ l a r => inorder l ++ a :: inorder r end.

Fixpoint height (t : tree) : nat := match t with Leaf => 0 | T _ l _ r => S (height l `max` height r) end.

Lemma height_length (t : tree) : (height t <= length (inorder t))%nat.
Proof. induction t as [| c l IHl a r IHr]; [done |]. cbn [height inorder]. rewrite length_app. cbn [length]. lia. Qed.

(** A node with its subtree on a side and the other one. *)
Definition node (d : Side) (c : Color) (near : tree) (a : positive) (far : tree) : tree :=
  match d with LeftSide => T c near a far | RightSide => T c far a near end.
Definition cell (d : Side) (near far p : Ptr) (c : Color) : Node :=
  match d with LeftSide => mkNode near far p c | RightSide => mkNode far near p c end.

(** The place is on side [f_side] of a node. *)
Record frame := Frame { f_side : Side; f_color : Color; f_addr : positive; f_sibling : tree }.

Definition topOf (k : list frame) : Ptr := match k with [] => None | f :: _ => Some (f_addr f) end.
Fixpoint rootAt (k : list frame) (p : Ptr) : Ptr := match k with [] => p | f :: k => rootAt k (Some (f_addr f)) end.
Definition plug1 (f : frame) (t : tree) : tree := node (f_side f) (f_color f) t (f_addr f) (f_sibling f).
Fixpoint plug (k : list frame) (t : tree) : tree := match k with [] => t | f :: k => plug k (plug1 f t) end.

(** The nodes before and behind the place. *)
Fixpoint before (k : list frame) : list positive :=
  match k with [] => [] | Frame d _ a sib :: k => before k ++ match d with LeftSide => [] | RightSide => inorder sib ++ [a] end end.
Fixpoint after (k : list frame) : list positive :=
  match k with [] => [] | Frame d _ a sib :: k => match d with LeftSide => a :: inorder sib | RightSide => [] end ++ after k end.
(** All nodes of the frames. *)
Fixpoint members (k : list frame) : list positive := match k with [] => [] | f :: k => f_addr f :: inorder (f_sibling f) ++ members k end.

Lemma inorder_node (d : Side) (c : Color) (near far : tree) (a : positive) : inorder (node d c near a far) ≡ₚ a :: inorder near ++ inorder far.
Proof. destruct d; cbn [node inorder]; [by rewrite <- Permutation_middle |]. rewrite <- Permutation_middle. by rewrite (Permutation_app_comm (inorder far)). Qed.

Lemma members_split (k : list frame) : members k ≡ₚ before k ++ after k.
Proof.
  induction k as [| [d c a sib] k IH]; [done |]. cbn [members before after f_addr f_sibling]. rewrite IH. destruct d.
  - rewrite app_nil_r. cbn [app]. solve_Permutation.
  - cbn [app]. rewrite <- !app_assoc. cbn [app]. solve_Permutation.
Qed.

Lemma inorder_plug (k : list frame) (t : tree) : inorder (plug k t) = before k ++ inorder t ++ after k.
Proof.
  revert t. induction k as [| [d c a sib] k IH]; intros t; cbn [plug before after]; [by rewrite app_nil_r |]. rewrite IH. unfold plug1. cbn [f_side f_color f_addr f_sibling].
  destruct d; cbn [node inorder]; by rewrite <- !app_assoc.
Qed.

Lemma rootOf_plug (k : list frame) (t : tree) : rootOf (plug k t) = rootAt k (rootOf t).
Proof. revert t. induction k as [| [d c a sib] k IH]; intros t; [done |]. cbn [plug rootAt]. rewrite IH. by destruct d. Qed.

(** ** In the store *)

Fixpoint rep (h : gmap positive Node) (p : Ptr) (t : tree) : Prop :=
  match t with Leaf => True | T c l a r => h !! a = Some (mkNode (rootOf l) (rootOf r) p c) /\ rep h (Some a) l /\ rep h (Some a) r end.
Fixpoint repFrames (h : gmap positive Node) (hole : Ptr) (k : list frame) : Prop :=
  match k with [] => True | Frame d c a sib :: k => h !! a = Some (cell d hole (rootOf sib) (topOf k) c) /\ rep h (Some a) sib /\ repFrames h (Some a) k end.

Record holds (s : Store) (k : list frame) (t : tree) : Prop := {
  h_tree : rep (s_nodes s) (topOf k) t;
  h_frames : repFrames (s_nodes s) (rootOf t) k;
  h_root : m_root s = rootAt k (rootOf t);
  h_unique : NoDup (inorder t ++ members k) }.

Lemma rep_same (h h' : gmap positive Node) (p : Ptr) (t : tree) : (forall b, b ∈ inorder t -> h' !! b = h !! b) -> rep h p t -> rep h' p t.
Proof.
  revert p. induction t as [| c l IHl a r IHr]; intros p Hs Hr; [done |]. destruct Hr as (H1 & H2 & H3). cbn [inorder] in Hs. cbn [rep].
  split; [rewrite Hs by set_solver; exact H1 |]. split; [apply IHl | apply IHr]; try done; intros b Hb; apply Hs; set_solver.
Qed.

Lemma repFrames_same (h h' : gmap positive Node) (hole : Ptr) (k : list frame) : (forall b, b ∈ members k -> h' !! b = h !! b) -> repFrames h hole k -> repFrames h' hole k.
Proof.
  revert hole. induction k as [| [d c a sib] k IH]; intros hole Hs Hr; [done |]. destruct Hr as (H1 & H2 & H3). cbn [members f_addr f_sibling] in Hs. cbn [repFrames].
  split; [rewrite Hs by set_solver; exact H1 |]. split; [eapply rep_same; [| exact H2] | eapply IH; [| exact H3]]; intros b Hb; apply Hs; set_solver.
Qed.

Lemma rep_node (h : gmap positive Node) (p : Ptr) (d : Side) (c : Color) (near far : tree) (a : positive) :
  rep h p (node d c near a far) <-> h !! a = Some (cell d (rootOf near) (rootOf far) p c) /\ rep h (Some a) near /\ rep h (Some a) far.
Proof. destruct d; cbn [node rep cell]; tauto. Qed.

Lemma rootOf_node (d : Side) (c : Color) (near far : tree) (a : positive) : rootOf (node d c near a far) = Some a.
Proof. by destruct d. Qed.

(** The facts about distinct nodes, one by one. *)
Lemma unique_node (d : Side) (c : Color) (near far : tree) (a : positive) (m : list positive) : NoDup (inorder (node d c near a far) ++ m) <->
  (a ∉ inorder near) /\ (a ∉ inorder far) /\ (a ∉ m) /\ (inorder near ## inorder far) /\ (inorder near ## m) /\ (inorder far ## m) /\ NoDup (inorder near) /\ NoDup (inorder far) /\ NoDup m.
Proof. rewrite (Permutation_app_tail m (inorder_node d c near far a)). cbn [app]. rewrite list.NoDup_cons, !list.NoDup_app, !not_elem_of_app. split; [intros (? & ? & ? & ?) | intros (? & ? & ? & ? & ? & ? & ? & ? & ?)]; set_solver. Qed.

Lemma unique_frame (f : frame) (k : list frame) : NoDup (members (f :: k)) <->
  (f_addr f ∉ inorder (f_sibling f)) /\ (f_addr f ∉ members k) /\ (inorder (f_sibling f) ## members k) /\ NoDup (inorder (f_sibling f)) /\ NoDup (members k).
Proof. cbn [members]. rewrite list.NoDup_cons, list.NoDup_app, not_elem_of_app. split; [intros (? & ? & ? & ?) | intros (? & ? & ? & ? & ?)]; set_solver. Qed.

(** Moving the place. *)
Lemma holds_up (s : Store) (f : frame) (k : list frame) (t : tree) : holds s (f :: k) t <-> holds s k (plug1 f t).
Proof.
  destruct f as [d c a sib]. unfold plug1. cbn [f_side f_color f_addr f_sibling].
  assert (E : inorder t ++ members (Frame d c a sib :: k) ≡ₚ inorder (node d c t a sib) ++ members k).
  { rewrite inorder_node. cbn [members f_addr f_sibling app]. rewrite <- Permutation_middle. by rewrite <- app_assoc. }
  split; intros [H1 H2 H3 H4]; split.
  - cbn [repFrames] in H2. apply rep_node. cbn [topOf f_addr] in H1. tauto.
  - rewrite rootOf_node. apply H2.
  - by rewrite rootOf_node.
  - by rewrite <- E.
  - apply rep_node in H1. apply H1.
  - apply rep_node in H1. rewrite rootOf_node in H2. cbn [repFrames]. tauto.
  - by rewrite rootOf_node in H3.
  - by rewrite E.
Qed.

Lemma holds_plug (s : Store) (k : list frame) (t : tree) : holds s k t <-> holds s [] (plug k t).
Proof. revert t. induction k as [| f k IH]; intros t; [done |]. cbn [plug]. by rewrite holds_up, IH. Qed.

Lemma node_other (d : Side) (c : Color) (near far : tree) (a : positive) : node (other d) c near a far = node d c far a near.
Proof. by destruct d. Qed.

(** From one child to the other. *)
Lemma holds_across (s : Store) (d : Side) (c : Color) (a : positive) (sib : tree) (k : list frame) (t : tree) : holds s (Frame d c a sib :: k) t <-> holds s (Frame (other d) c a t :: k) sib.
Proof. rewrite !holds_up. unfold plug1. cbn [f_side f_color f_addr f_sibling]. by rewrite node_other. Qed.

(** What is not in the tree stays. *)
Definition elsewhere (m : list positive) (s s' : Store) : Prop := forall b, b ∉ m -> s_nodes s' !! b = s_nodes s !! b.

Lemma elsewhere_refl (m : list positive) (s : Store) : elsewhere m s s.
Proof. by intros b. Qed.

Lemma elsewhere_trans (m : list positive) (s s' s'' : Store) : elsewhere m s s' -> elsewhere m s' s'' -> elsewhere m s s''.
Proof. intros H1 H2 b Hb. by rewrite H2, H1. Qed.

(** ** Running programs *)

Lemma bind_ok {A B} (m : Prog A) (f : A -> Prog B) (s s1 : Store) (a : A) (r : result (B * Store)) : m s = Ok (a, s1) -> f a s1 = r -> (m ≫= f) s = r.
Proof. intros H1 H2. unfold mbind, Prog_bind. by rewrite H1. Qed.

Section Fields.
Context (s : Store) (a : positive) (n : Node) (H : s_nodes s !! a = Some n).
Definition put (s : Store) (a : positive) (n : Node) : Store := mkStore (<[a := n]> (s_nodes s)) (m_root s).

Lemma left_ok : left (Some a) s = Ok (m_left n, s).
Proof. unfold left, mbind, Prog_bind, deref. by rewrite H. Qed.
Lemma right_ok : right (Some a) s = Ok (m_right n, s).
Proof. unfold right, mbind, Prog_bind, deref. by rewrite H. Qed.
Lemma parent_ok : parent (Some a) s = Ok (m_parent n, s).
Proof. unfold parent, mbind, Prog_bind, deref. by rewrite H. Qed.
Lemma color_ok : color (Some a) s = Ok (m_color n, s).
Proof. unfold color, mbind, Prog_bind, deref. by rewrite H. Qed.
Lemma setLeft_ok (v : Ptr) : setLeft (Some a) v s = Ok ((), put s a (mkNode v (m_right n) (m_parent n) (m_color n))).
Proof. unfold setLeft, mbind, Prog_bind, deref. by rewrite H. Qed.
Lemma setRight_ok (v : Ptr) : setRight (Some a) v s = Ok ((), put s a (mkNode (m_left n) v (m_parent n) (m_color n))).
Proof. unfold setRight, mbind, Prog_bind, deref. by rewrite H. Qed.
Lemma setParent_ok (v : Ptr) : setParent (Some a) v s = Ok ((), put s a (mkNode (m_left n) (m_right n) v (m_color n))).
Proof. unfold setParent, mbind, Prog_bind, deref. by rewrite H. Qed.
Lemma setColor_ok (v : Color) : setColor (Some a) v s = Ok ((), put s a (mkNode (m_left n) (m_right n) (m_parent n) v)).
Proof. unfold setColor, mbind, Prog_bind, deref. by rewrite H. Qed.
End Fields.

Lemma put_eq (s : Store) (a : positive) (n : Node) : s_nodes (put s a n) !! a = Some n.
Proof. apply lookup_insert_eq. Qed.
Lemma put_ne (s : Store) (a b : positive) (n : Node) : a <> b -> s_nodes (put s a n) !! b = s_nodes s !! b.
Proof. apply lookup_insert_ne. Qed.

(** The root of a subtree gets another parent. *)
Definition reparent (q : Ptr) (t : tree) (s : Store) : Store :=
  match t with Leaf => s | T c l a r => put s a (mkNode (rootOf l) (rootOf r) q c) end.

Lemma reparent_run (q p : Ptr) (t : tree) (s : Store) : rep (s_nodes s) p t -> ifNode (rootOf t) (setParent (rootOf t) q) s = Ok ((), reparent q t s).
Proof. destruct t as [| c l a r]; [done |]. intros (H & _). cbn [rootOf ifNode reparent]. by rewrite (setParent_ok _ _ _ H). Qed.

Lemma reparent_other (q : Ptr) (t : tree) (s : Store) (b : positive) : b ∉ inorder t -> s_nodes (reparent q t s) !! b = s_nodes s !! b.
Proof. destruct t as [| c l a r]; [done |]. cbn [inorder reparent]. intros H. apply put_ne. set_solver. Qed.

Lemma reparent_rep (q p : Ptr) (t : tree) (s : Store) : rep (s_nodes s) p t -> NoDup (inorder t) -> rep (s_nodes (reparent q t s)) q t.
Proof.
  destruct t as [| c l a r]; [done |]. intros (_ & H2 & H3) Hu. cbn [reparent rep inorder] in *. apply list.NoDup_app in Hu as (_ & Hl & Hr). apply list.NoDup_cons in Hr as [Hr _].
  split; [apply put_eq |]. split; (eapply rep_same; [| eassumption]); intros b Hb; apply put_ne; [set_solver | by intros ->].
Qed.

Lemma reparent_root (q : Ptr) (t : tree) (s : Store) : m_root (reparent q t s) = m_root s.
Proof. by destruct t. Qed.

(** The parent of a place, or the root, gets another child there. *)
Definition rehang (y : Ptr) (k : list frame) (s : Store) : Store :=
  match k with [] => mkStore (s_nodes s) y | Frame d c a sib :: k => put s a (cell d y (rootOf sib) (topOf k) c) end.

Lemma rehang_run (k : list frame) (x : positive) (y : Ptr) (s : Store) : repFrames (s_nodes s) (Some x) k -> x ∉ members k -> relink (topOf k) (Some x) y s = Ok ((), rehang y k s).
Proof.
  destruct k as [| [d c a sib] k]; [done |]. intros (H & _) Hx. cbn [topOf f_addr relink rehang members f_sibling] in *. unfold replaceChild. eapply bind_ok; [by apply left_ok |]. destruct d; cbn [cell m_left].
  - rewrite bool_decide_eq_true_2 by done. by rewrite (setLeft_ok _ _ _ H).
  - rewrite bool_decide_eq_false_2; [by rewrite (setRight_ok _ _ _ H) |]. destruct sib as [| c' l b r]; [done |]. cbn [rootOf inorder] in *. intros [= ->]. set_solver.
Qed.

Lemma rehang_other (y : Ptr) (k : list frame) (s : Store) (b : positive) : b ∉ members k -> s_nodes (rehang y k s) !! b = s_nodes s !! b.
Proof. destruct k as [| [d c a sib] k]; [done |]. cbn [members f_addr f_sibling rehang]. intros H. apply put_ne. set_solver. Qed.

Lemma rehang_rep (hole y : Ptr) (k : list frame) (s : Store) : repFrames (s_nodes s) hole k -> NoDup (members k) -> repFrames (s_nodes (rehang y k s)) y k.
Proof.
  destruct k as [| [d c a sib] k]; [done |]. intros (_ & H2 & H3) Hu. apply unique_frame in Hu as (U1 & U2 & _). cbn [repFrames rehang f_addr f_sibling] in *. split; [apply put_eq |].
  split; [eapply rep_same; [| exact H2] | eapply repFrames_same; [| exact H3]]; intros b Hb; apply put_ne; by intros ->.
Qed.

Lemma rehang_root (hole y : Ptr) (k : list frame) (s : Store) : m_root s = rootAt k hole -> m_root (rehang y k s) = rootAt k y.
Proof. by destruct k as [| [d c a sib] k]. Qed.

(** Whether a subtree is black at its root. *)
Definition blackRoot (t : tree) : bool := match t with Leaf => true | T c _ _ _ => bool_decide (c = Black) end.

Lemma nullOrBlack_ok (p : Ptr) (t : tree) (s : Store) : rep (s_nodes s) p t -> nullOrBlack (rootOf t) s = Ok (blackRoot t, s).
Proof. destruct t as [| c l a r]; [done |]. intros (H & _). cbn [rootOf nullOrBlack]. eapply bind_ok; [by apply color_ok |]. done. Qed.

(** * RedBlackTree: colors and rotations at a place *)

(** Distinct addresses, from the facts of [unique_node] and [unique_frame]. *)
Ltac distinct :=
  first
    [ done | congruence | by intros ->
    | match goal with
      | Hb : ?b ∈ ?L, D : ?L ## ?M |- ?b ∉ ?M => exact (fun Hm => D b Hb Hm)
      | Hb : ?b ∈ ?L, D : ?M ## ?L |- ?b ∉ ?M => exact (fun Hm => D b Hm Hb)
      end ].

(** A look-up behind writes. *)
Ltac look := repeat first [eassumption | apply put_eq | rewrite put_ne by distinct | rewrite reparent_other by distinct | rewrite rehang_other by distinct | match goal with |- context [s_nodes ?v !! _] => is_var v; unfold v end]; try reflexivity.

(** The fields of a node of the tree, for the next call. *)
Ltac field := first [eapply left_ok | eapply right_ok | eapply parent_ok | eapply color_ok | eapply setLeft_ok | eapply setRight_ok | eapply setParent_ok | eapply setColor_ok]; look.
Ltac call := eapply bind_ok; [field |]; cbn beta; cbn [m_left m_right m_parent m_color].

(** ** Reading at a place *)

Lemma child_ok (s : Store) (d : Side) (a : positive) (near far p : Ptr) (c : Color) : s_nodes s !! a = Some (cell d near far p c) -> child d (Some a) s = Ok (near, s).
Proof. intros H. destruct d; cbn [child]; [by rewrite (left_ok _ _ _ H) | by rewrite (right_ok _ _ _ H)]. Qed.

Lemma child_other_ok (s : Store) (d : Side) (a : positive) (near far p : Ptr) (c : Color) : s_nodes s !! a = Some (cell d near far p c) -> child (other d) (Some a) s = Ok (far, s).
Proof. intros H. apply (child_ok s (other d) a far near p c). by destruct d. Qed.

Lemma cell_color (d : Side) (near far p : Ptr) (c : Color) : m_color (cell d near far p c) = c.
Proof. by destruct d. Qed.

Lemma cell_parent (d : Side) (near far p : Ptr) (c : Color) : m_parent (cell d near far p c) = p.
Proof. by destruct d. Qed.

Section Reading.
Context (s : Store) (k : list frame) (d : Side) (c : Color) (near far : tree) (a : positive) (H : holds s k (node d c near a far)).

Lemma at_cell : s_nodes s !! a = Some (cell d (rootOf near) (rootOf far) (topOf k) c).
Proof. destruct H as [H1 _ _ _]. apply rep_node in H1. apply H1. Qed.
Lemma at_child : child d (Some a) s = Ok (rootOf near, s).
Proof. eapply child_ok, at_cell. Qed.
Lemma at_child_other : child (other d) (Some a) s = Ok (rootOf far, s).
Proof. eapply child_other_ok, at_cell. Qed.
Lemma at_parent : parent (Some a) s = Ok (topOf k, s).
Proof. rewrite (parent_ok _ _ _ at_cell). by rewrite cell_parent. Qed.
Lemma at_color : color (Some a) s = Ok (c, s).
Proof. rewrite (color_ok _ _ _ at_cell). by rewrite cell_color. Qed.
End Reading.

Lemma at_nullOrBlack (s : Store) (k : list frame) (t : tree) : holds s k t -> nullOrBlack (rootOf t) s = Ok (blackRoot t, s).
Proof. intros [H _ _ _]. by eapply nullOrBlack_ok. Qed.

(** ** Writing a color *)

Lemma at_setColor (s : Store) (k : list frame) (d : Side) (c c' : Color) (near far : tree) (a : positive) : holds s k (node d c near a far) ->
  exists s', setColor (Some a) c' s = Ok ((), s') /\ holds s' k (node d c' near a far) /\ elsewhere (inorder (node d c near a far) ++ members k) s s'.
Proof.
  intros H. pose proof (at_cell _ _ _ _ _ _ _ H) as Hc. destruct H as [H1 H2 H3 H4]. apply rep_node in H1 as (_ & Hn & Hf). pose proof H4 as Hu. apply unique_node in Hu as (U1 & U2 & U3 & _).
  eexists. split; [apply (setColor_ok _ _ _ Hc) |]. split.
  - split.
    + apply rep_node. split; [rewrite put_eq; by destruct d |]. split; (eapply rep_same; [| eassumption]); intros b Hb; look.
    + rewrite rootOf_node in *. eapply repFrames_same; [| exact H2]. intros b Hb. look.
    + by rewrite rootOf_node in *.
    + by rewrite (Permutation_app_tail _ (inorder_node d c' near far a)), <- (Permutation_app_tail _ (inorder_node d c near far a)).
  - intros b Hb. apply put_ne. intros <-. apply Hb. apply elem_of_app. left. rewrite inorder_node. by left.
Qed.

(** ** Rotating *)

(** The facts that keep the nodes of a rotation apart. *)
Record apart (k : list frame) (A B C : tree) (x y : positive) : Prop := {
  a_xy : x <> y; a_xA : x ∉ inorder A; a_xB : x ∉ inorder B; a_xC : x ∉ inorder C; a_xK : x ∉ members k;
  a_yA : y ∉ inorder A; a_yB : y ∉ inorder B; a_yC : y ∉ inorder C; a_yK : y ∉ members k;
  a_AB : inorder A ## inorder B; a_AC : inorder A ## inorder C; a_BC : inorder B ## inorder C;
  a_AK : inorder A ## members k; a_BK : inorder B ## members k; a_CK : inorder C ## members k; a_B : NoDup (inorder B); a_K : NoDup (members k) }.

Lemma unique_apart (k : list frame) (d : Side) (cx cy : Color) (A B C : tree) (x y : positive) : NoDup (inorder (node d cx A x (node d cy B y C)) ++ members k) -> apart k A B C x y.
Proof.
  intros (U1 & U2 & U3 & U4 & U5 & U6 & _ & U8 & U9)%unique_node. assert (E : inorder (node d cy B y C) ≡ₚ y :: inorder B ++ inorder C) by apply inorder_node.
  assert (M : forall z, z ∈ inorder (node d cy B y C) <-> z = y \/ z ∈ inorder B \/ z ∈ inorder C) by (intros z; by rewrite E, elem_of_cons, elem_of_app).
  rewrite M in U2. assert (D4 : forall z, z ∈ inorder A -> ~ (z = y \/ z ∈ inorder B \/ z ∈ inorder C)) by (intros z Hz Hm; apply (U4 z); [done | by apply M]).
  assert (D6 : forall z, (z = y \/ z ∈ inorder B \/ z ∈ inorder C) -> z ∉ members k) by (intros z Hz Hm; apply (U6 z); [by apply M | done]). clear U4 U6 M.
  rewrite E in U8. rewrite list.NoDup_cons, list.NoDup_app, not_elem_of_app in U8. destruct U8 as ((V1 & V2) & V3 & V4 & V5). split; try done; set_solver.
Qed.

Lemma rotate_run (s : Store) (k : list frame) (d : Side) (cx cy : Color) (A B C : tree) (x y : positive) : holds s k (node d cx A x (node d cy B y C)) -> apart k A B C x y ->
  let s1 := put s x (cell d (rootOf A) (rootOf B) (topOf k) cx) in
  let s2 := reparent (Some x) B s1 in
  let s3 := put s2 y (cell d (rootOf B) (rootOf C) (topOf k) cy) in
  let s4 := rehang (Some y) k s3 in
  let s5 := put s4 y (cell d (Some x) (rootOf C) (topOf k) cy) in
  rotate d (Some x) s = Ok (Some y, put s5 x (cell d (rootOf A) (rootOf B) (Some y) cx)).
Proof.
  intros [H1 H2 H3 H4] [] s1 s2 s3 s4 s5. apply rep_node in H1 as (Hx & HA & Hy). apply rep_node in Hy as (Hy & HB & HC). rewrite rootOf_node in *. clear H4.
  assert (F1 : repFrames (s_nodes s3) (Some x) k) by (eapply repFrames_same; [| exact H2]; intros b Hb; look).
  assert (F2 : rep (s_nodes s1) (Some y) B) by (eapply rep_same; [| exact HB]; intros b Hb; look).
  destruct d; cbn [rotate cell] in *; unfold leftRotate, rightRotate; (call; call; call; change (put s x _) with s1;
    call; eapply bind_ok; [by apply (reparent_run (Some x) (Some y) B s1) |]; cbn beta; change (reparent _ _ s1) with s2;
    call; call; change (put s2 y _) with s3;
    call; eapply bind_ok; [by apply (rehang_run k x (Some y) s3 F1) |]; cbn beta; change (rehang _ k s3) with s4;
    call; change (put s4 y _) with s5; call; done).
Qed.

Lemma at_rotate (s : Store) (k : list frame) (d : Side) (cx cy : Color) (A B C : tree) (x y : positive) : holds s k (node d cx A x (node d cy B y C)) ->
  exists s', rotate d (Some x) s = Ok (Some y, s') /\ holds s' k (node d cy (node d cx A x B) y C) /\ elsewhere (inorder (node d cx A x (node d cy B y C)) ++ members k) s s'.
Proof.
  intros H. pose proof (unique_apart k d cx cy A B C x y (h_unique _ _ _ H)) as Hap. eexists. split; [by apply rotate_run |]. destruct H as [H1 H2 H3 H4]. apply rep_node in H1 as (Hx & HA & Hy). apply rep_node in Hy as (Hy & HB & HC).
  rewrite !rootOf_node in *. assert (E : inorder (node d cy (node d cx A x B) y C) ≡ₚ inorder (node d cx A x (node d cy B y C))) by (rewrite !inorder_node; cbn [app]; solve_Permutation).
  set (s1 := put s x _). set (s2 := reparent (Some x) B s1). set (s3 := put s2 y _). set (s4 := rehang (Some y) k s3). set (s5 := put s4 y _). split.
  - destruct Hap. split.
    + apply rep_node. rewrite rootOf_node. split; [look |]. split.
      * apply rep_node. split; [look |]. split; [eapply rep_same; [| exact HA]; intros b Hb; look |].
        assert (rep (s_nodes s2) (Some x) B) as HB2; [| eapply rep_same; [| exact HB2]; intros b Hb; look].
        apply reparent_rep with (p := Some y); [eapply rep_same; [| exact HB]; intros b Hb; look | done].
      * eapply rep_same; [| exact HC]. intros b Hb. look.
    + rewrite rootOf_node. eapply repFrames_same with (h := s_nodes s4); [intros b Hb; look |]. apply (rehang_rep (Some x)); [| done]. eapply repFrames_same; [| exact H2]. intros b Hb. look.
    + rewrite rootOf_node. cbn [m_root put s5]. apply (rehang_root (Some x)). cbn [put s3 m_root]. unfold s2. rewrite reparent_root. exact H3.
    + by rewrite (Permutation_app_tail _ E).
  - assert (Hm : forall b, b ∉ inorder (node d cx A x (node d cy B y C)) ++ members k -> b <> x /\ b <> y /\ (b ∉ inorder B) /\ (b ∉ members k)).
    { intros b. rewrite (Permutation_app_tail _ (inorder_node _ _ _ _ _)). cbn [app]. rewrite not_elem_of_cons, !not_elem_of_app, (inorder_node d cy). rewrite not_elem_of_cons, !not_elem_of_app. tauto. }
    intros b Hb. destruct (Hm b Hb) as (N1 & N2 & N3 & N4). look.
Qed.

(** ** A run that keeps the nodes and their order

    [here]: the store holds a tree with the nodes [m] in order, seen from a place, and has
    changed nothing else since [s0]. *)

Section Run.
Context (m : list positive) (s0 : Store).

Record here (s : Store) (k : list frame) (t : tree) : Prop := {
  r_holds : holds s k t;
  r_order : inorder (plug k t) = m;
  r_elsewhere : elsewhere m s0 s }.

Lemma here_up (s : Store) (f : frame) (k : list frame) (t : tree) : here s (f :: k) t <-> here s k (plug1 f t).
Proof. split; intros [H1 H2 H3]; split; try done; by apply holds_up. Qed.

Lemma here_plug (s : Store) (k : list frame) (t : tree) : here s k t <-> here s [] (plug k t).
Proof. revert t. induction k as [| f k IH]; intros t; [done |]. cbn [plug]. by rewrite here_up, IH. Qed.

Lemma members_plug (k : list frame) (t : tree) : inorder t ++ members k ≡ₚ inorder (plug k t).
Proof. rewrite inorder_plug, members_split. solve_Permutation. Qed.

Lemma here_elsewhere (s s' : Store) (k : list frame) (t : tree) : here s k t -> elsewhere (inorder t ++ members k) s s' -> elsewhere m s0 s'.
Proof. intros [_ E H] Ho b Hb. rewrite Ho; [by apply H |]. by rewrite members_plug, E. Qed.

Lemma here_setColor (s : Store) (k : list frame) (d : Side) (c c' : Color) (near far : tree) (a : positive) : here s k (node d c near a far) ->
  exists s', setColor (Some a) c' s = Ok ((), s') /\ here s' k (node d c' near a far).
Proof.
  intros H. destruct (at_setColor _ _ _ _ c' _ _ _ (r_holds _ _ _ H)) as (s' & E & H' & Ho). exists s'. split; [done |]. split; [done | | by eapply here_elsewhere].
  rewrite <- (r_order _ _ _ H), !inorder_plug. by destruct d.
Qed.

Lemma here_rotate (s : Store) (k : list frame) (d : Side) (cx cy : Color) (A B C : tree) (x y : positive) : here s k (node d cx A x (node d cy B y C)) ->
  exists s', rotate d (Some x) s = Ok (Some y, s') /\ here s' k (node d cy (node d cx A x B) y C).
Proof.
  intros H. destruct (at_rotate _ _ _ _ _ _ _ _ _ _ (r_holds _ _ _ H)) as (s' & E & H' & Ho). exists s'. split; [done |]. split; [done | | by eapply here_elsewhere].
  rewrite <- (r_order _ _ _ H), !inorder_plug. f_equal. f_equal. destruct d; cbn [node inorder]; rewrite <- ?app_assoc; done.
Qed.

(** Reading the node of a place, and the one above. *)
Lemma here_parent (s : Store) (k : list frame) (t : tree) (a : positive) : here s k t -> rootOf t = Some a -> parent (Some a) s = Ok (topOf k, s).
Proof. intros [[H _ _ _] _ _] E. destruct t as [| c l b r]; [done |]. injection E as ->. destruct H as (H & _). by rewrite (parent_ok _ _ _ H). Qed.

Lemma here_color (s : Store) (k : list frame) (c : Color) (l r : tree) (a : positive) : here s k (T c l a r) -> color (Some a) s = Ok (c, s).
Proof. intros [[(H & _) _ _ _] _ _]. by rewrite (color_ok _ _ _ H). Qed.

Lemma here_nullOrBlack (s : Store) (k : list frame) (t : tree) : here s k t -> nullOrBlack (rootOf t) s = Ok (blackRoot t, s).
Proof. intros [H _ _]. by eapply at_nullOrBlack. Qed.

Lemma here_root (s : Store) (k : list frame) (t : tree) : here s k t -> root s = Ok (rootAt k (rootOf t), s).
Proof. intros [[_ _ H _] _ _]. unfold root. by rewrite H. Qed.

Section Frame.
Context (s : Store) (k : list frame) (d : Side) (c : Color) (a : positive) (sib t : tree) (H : here s (Frame d c a sib :: k) t).

Lemma above : here s k (node d c t a sib).
Proof. apply here_up in H. exact H. Qed.
Lemma above_holds : holds s k (node d c t a sib).
Proof. apply above. Qed.
Lemma above_parent : parent (Some a) s = Ok (topOf k, s).
Proof. exact (at_parent _ _ _ _ _ _ _ above_holds). Qed.
Lemma above_color : color (Some a) s = Ok (c, s).
Proof. exact (at_color _ _ _ _ _ _ _ above_holds). Qed.
Lemma above_child : child d (Some a) s = Ok (rootOf t, s).
Proof. exact (at_child _ _ _ _ _ _ _ above_holds). Qed.
Lemma above_sibling : child (other d) (Some a) s = Ok (rootOf sib, s).
Proof. exact (at_child_other _ _ _ _ _ _ _ above_holds). Qed.
Lemma above_setColor (c' : Color) : exists s', setColor (Some a) c' s = Ok ((), s') /\ here s' (Frame d c' a sib :: k) t.
Proof. destruct (here_setColor s k d c c' t sib a above) as (s' & E & H'). exists s'. split; [done |]. by apply here_up. Qed.
Lemma across : here s (Frame (other d) c a t :: k) sib.
Proof. apply here_up. unfold plug1. cbn [f_side f_color f_addr f_sibling]. rewrite node_other. exact above. Qed.
(** The two children are different nodes. *)
Lemma siblings_apart (x : positive) : rootOf t = Some x -> rootOf sib <> Some x.
Proof.
  intros E1 E2. pose proof (h_unique _ _ _ above_holds) as Hu. apply unique_node in Hu as (_ & _ & _ & Hd & _). apply (Hd x).
  - destruct t; [done |]. injection E1 as ->. cbn [inorder]. set_solver.
  - destruct sib; [done |]. injection E2 as ->. cbn [inorder]. set_solver.
Qed.
End Frame.
End Run.

Lemma other_other (d : Side) : other (other d) = d.
Proof. by destruct d. Qed.

(** ** Total correctness: the program returns, with a result of which [Q] holds *)

Definition runs {A} (p : Prog A) (s : Store) (Q : A -> Store -> Prop) : Prop := exists a s', p s = Ok (a, s') /\ Q a s'.

Lemma runs_ret {A} (a : A) (s : Store) (Q : A -> Store -> Prop) : Q a s -> runs (mret a) s Q.
Proof. intros H. by exists a, s. Qed.

Lemma runs_call {A B} (p : Prog A) (f : A -> Prog B) (s s1 : Store) (a : A) (Q : B -> Store -> Prop) : p s = Ok (a, s1) -> runs (f a) s1 Q -> runs (p ≫= f) s Q.
Proof. intros H (b & s2 & E & HQ). exists b, s2. split; [| done]. unfold mbind, Prog_bind. by rewrite H. Qed.

Lemma runs_bind {A B} (p : Prog A) (f : A -> Prog B) (s : Store) (R : A -> Store -> Prop) (Q : B -> Store -> Prop) :
  runs p s R -> (forall a s1, R a s1 -> runs (f a) s1 Q) -> runs (p ≫= f) s Q.
Proof. intros (a & s1 & E & HR) H. eapply runs_call; [exact E | by apply H]. Qed.

Lemma runs_mono {A} (p : Prog A) (s : Store) (Q R : A -> Store -> Prop) : runs p s Q -> (forall a s', Q a s' -> R a s') -> runs p s R.
Proof. intros (a & s' & E & H) HQ. exists a, s'. split; [done | by apply HQ]. Qed.

Lemma runs_eq {A} (p : Prog A) (s s' : Store) (a : A) (Q : A -> Store -> Prop) : p s = Ok (a, s') -> Q a s' -> runs p s Q.
Proof. intros E H. by exists a, s'. Qed.

(** A call that reads or writes a known field. *)
Ltac step := eapply runs_call; [field |]; cbn beta; cbn [m_left m_right m_parent m_color].

(** A call whose result is known, and one that writes. *)
Ltac read lem := eapply runs_call; [first [exact lem | eapply lem; eauto]|]; cbn beta; cbn [topOf f_addr].
Tactic Notation "write" constr(lem) "as" ident(s') ident(H') := let E := fresh in destruct lem as (s' & E & H'); eapply runs_call; [exact E |]; clear E; cbn beta; cbn [topOf f_addr].
