(* ===== verification/RedBlackTreeInsert.v ===== *)
(** * RedBlackTree: insertion

    The colors of a tree and of the frames above a place; the descent to the place of a key;
    the loop that repairs the colors. *)

From stdpp Require Import gmap.
From S2P Require Import Prelude RedBlackTree RedBlackTreeShape.

(** ** Colors *)

(** No red node has a red child, and every path has [n] black nodes. *)
Fixpoint valid (n : nat) (t : tree) : Prop :=
  match t with
  | Leaf => n = 0%nat
  | T Red l _ r => blackRoot l = true /\ blackRoot r = true /\ valid n l /\ valid n r
  | T Black l _ r => exists m, n = S m /\ valid m l /\ valid m r
  end.

Definition balanced (t : tree) : Prop := blackRoot t = true /\ exists n, valid n t.

(** A red subtree may be put below. *)
Definition blackTop (k : list frame) : bool := match k with [] => false | f :: _ => bool_decide (f_color f = Black) end.

(** The frames expect a subtree of [n] black nodes on every path. *)
Fixpoint fits (n : nat) (k : list frame) : Prop :=
  match k with
  | [] => True
  | Frame _ c _ sib :: k => valid n sib /\ match c with Red => blackRoot sib = true /\ blackTop k = true /\ fits n k | Black => fits (S n) k end
  end.

Lemma valid_node (n : nat) (d : Side) (c : Color) (near far : tree) (a : positive) : valid n (node d c near a far) <->
  match c with Red => blackRoot near = true /\ blackRoot far = true /\ valid n near /\ valid n far | Black => exists m, n = S m /\ valid m near /\ valid m far end.
Proof. destruct d, c; cbn [node valid]; [tauto | done | tauto |]. split; intros (q & H1 & H2 & H3); by exists q. Qed.

Lemma blackRoot_node (d : Side) (c : Color) (near far : tree) (a : positive) : blackRoot (node d c near a far) = bool_decide (c = Black).
Proof. by destruct d. Qed.

Lemma fits_balanced (n : nat) (k : list frame) (t : tree) : fits n k -> valid n t -> blackRoot t = true \/ blackTop k = true -> balanced (plug k t).
Proof.
  revert n t. induction k as [| [d c a sib] k IH]; intros n t Hf Hv Hb; [cbn in *; split; [by destruct Hb | by exists n] |].
  cbn [fits] in Hf. cbn [plug]. unfold plug1. cbn [f_side f_color f_addr f_sibling]. destruct Hf as [Hs Hf], c.
  - destruct Hf as (H1 & H2 & H3). destruct Hb as [Hb | Hb]; [| done]. apply (IH n); [done | by apply valid_node | by right].
  - apply (IH (S n)); [done | apply valid_node; by exists n |]. left. by rewrite blackRoot_node.
Qed.

Lemma balanced_fits (k : list frame) (t : tree) : balanced (plug k t) -> exists n, fits n k /\ valid n t /\ (blackRoot t = true \/ blackTop k = true).
Proof.
  revert t. induction k as [| [d c a sib] k IH]; intros t H; [destruct H as [H [n Hn]]; exists n; split; [done |]; split; [done | by left] |].
  cbn [plug] in H. destruct (IH _ H) as (n & Hf & Hv & Hb). unfold plug1 in *. cbn [f_side f_color f_addr f_sibling] in *. rewrite valid_node in Hv. rewrite blackRoot_node in Hb. cbn [fits blackTop f_color]. destruct c.
  - destruct Hv as (H1 & H2 & H3 & H4). exists n. split; [| split; [done | by left]]. split; [done |]. split; [done |]. split; [by destruct Hb | done].
  - destruct Hv as (m & -> & H3 & H4). exists m. split; [done |]. split; [done | by right].
Qed.

(** ** The size of the store bounds every path *)

Lemma rep_dom (h : gmap positive Node) (p : Ptr) (t : tree) (b : positive) : rep h p t -> b ∈ inorder t -> b ∈ dom h.
Proof.
  revert p. induction t as [| c l IHl a r IHr]; intros p H Hb; [by apply not_elem_of_nil in Hb |]. destruct H as (H1 & H2 & H3). cbn [inorder] in Hb.
  apply elem_of_app in Hb as [Hb | Hb]; [by eapply IHl |]. apply elem_of_cons in Hb as [-> | Hb]; [by apply elem_of_dom_2 in H1 | by eapply IHr].
Qed.

Lemma repFrames_dom (h : gmap positive Node) (hole : Ptr) (k : list frame) (b : positive) : repFrames h hole k -> b ∈ members k -> b ∈ dom h.
Proof.
  revert hole. induction k as [| [d c a sib] k IH]; intros hole H Hb; [by apply not_elem_of_nil in Hb |]. destruct H as (H1 & H2 & H3). cbn [members f_addr f_sibling] in Hb.
  apply elem_of_cons in Hb as [-> | Hb]; [by apply elem_of_dom_2 in H1 |]. apply elem_of_app in Hb as [Hb | Hb]; [by eapply rep_dom | by eapply IH].
Qed.

Lemma holds_size (s : Store) (k : list frame) (t : tree) : holds s k t -> (length (inorder t) + length (members k) <= base.size (s_nodes s))%nat.
Proof.
  intros [H1 H2 _ H4]. rewrite <- length_app, <- size_dom, <- (size_list_to_set (C := gset positive) _ H4). apply subseteq_size. intros b. rewrite elem_of_list_to_set, elem_of_app.
  intros [Hb | Hb]; [by eapply rep_dom | by eapply repFrames_dom].
Qed.

Lemma members_length (k : list frame) : (length k <= length (members k))%nat.
Proof. induction k as [| f k IH]; [done |]. cbn [members length]. rewrite length_app. lia. Qed.

Lemma holds_depth (s : Store) (k : list frame) (t : tree) : holds s k t -> (length k <= base.size (s_nodes s))%nat.
Proof. intros H. pose proof (holds_size _ _ _ H). pose proof (members_length k). lia. Qed.

(** ** Nodes outside of the tree *)

Lemma holds_same (s s' : Store) (k : list frame) (t : tree) : m_root s' = m_root s -> (forall b, b ∈ inorder t ++ members k -> s_nodes s' !! b = s_nodes s !! b) -> holds s k t -> holds s' k t.
Proof.
  intros Hr Hs [H1 H2 H3 H4]. split; [eapply rep_same; [| exact H1] | eapply repFrames_same; [| exact H2] | congruence | done]; intros b Hb; apply Hs; apply elem_of_app; [by left | by right].
Qed.

Lemma holds_put (s : Store) (k : list frame) (t : tree) (x : positive) (n : Node) : x ∉ inorder t ++ members k -> holds s k t -> holds (put s x n) k t.
Proof. intros Hx. apply holds_same; [done |]. intros b Hb. apply put_ne. by intros ->. Qed.

Lemma elsewhere_put (m : list positive) (s : Store) (x : positive) (n : Node) : x ∈ m -> elsewhere m s (put s x n).
Proof. intros Hx b Hb. apply put_ne. by intros ->. Qed.

Lemma elsewhere_mono (m m' : list positive) (s s' : Store) : m ⊆ m' -> elsewhere m s s' -> elsewhere m' s s'.
Proof. intros H Ho b Hb. apply Ho. intros Hm. by apply Hb, H. Qed.

Lemma elsewhere_perm (m m' : list positive) (s s' : Store) : m ≡ₚ m' -> elsewhere m s s' -> elsewhere m' s s'.
Proof. intros H. apply elsewhere_mono. intros b. by rewrite H. Qed.

Lemma plug_members (k : list frame) (t : tree) : inorder (plug k t) ≡ₚ inorder t ++ members k.
Proof. rewrite inorder_plug, members_split. solve_Permutation. Qed.

Lemma elsewhere_plug (k : list frame) (t : tree) (s s' : Store) : elsewhere (inorder t ++ members k) s s' <-> elsewhere (inorder (plug k t)) s s'.
Proof. split; apply elsewhere_perm; by rewrite plug_members. Qed.

(** ** The rounds of the loop of insert *)

Definition blacken (t : tree) : tree := match t with Leaf => Leaf | T _ l a r => T Black l a r end.

Lemma inorder_blacken (t : tree) : inorder (blacken t) = inorder t.
Proof. by destruct t. Qed.

Lemma blacken_black (t : tree) : blackRoot t = true -> blacken t = t.
Proof. destruct t as [| c l a r]; [done |]. intros H. apply bool_decide_eq_true in H. by subst. Qed.

Lemma blacken_valid (n : nat) (t : tree) : valid n t -> blackRoot t = false -> valid (S n) (blacken t).
Proof. destruct t as [| [] l a r]; [done | | done]. intros (_ & _ & H1 & H2) _. by exists n. Qed.

Section Insert.
Context (m : list positive) (s0 : Store).

Lemma here_blacken (s : Store) (k : list frame) (t : tree) (a : positive) : here m s0 s k t -> rootOf t = Some a -> exists s', setColor (Some a) Black s = Ok ((), s') /\ here m s0 s' k (blacken t).
Proof. intros H E. destruct t as [| c l b r]; [done |]. injection E as ->. exact (here_setColor m s0 s k LeftSide c Black l r a H). Qed.

(** Case 1: the uncle is red. *)
Lemma insertCase_red (s : Store) (k : list frame) (d dg : Side) (p g x : positive) (sib u t : tree) :
  here m s0 s (Frame d Red p sib :: Frame dg Black g u :: k) t -> rootOf t = Some x -> blackRoot u = false ->
  runs (insertCase dg (Some x)) s (fun x' s' => x' = Some g /\ here m s0 s' k (node dg Red (node d Black t p sib) g (blacken u))).
Proof.
  intros H Hx Hu. unfold insertCase. read (here_parent _ _ _ _ _ _ H Hx). pose proof (proj1 (here_up _ _ _ _ _ _) H) as Hg. read (above_parent _ _ _ _ _ _ _ _ _ H). read (above_sibling _ _ _ _ _ _ _ _ _ Hg). assert (Eu : exists ua, rootOf u = Some ua) by (destruct u; [done | by eexists]). destruct Eu as [ua Eu].
  assert (HU : here m s0 s (Frame (other dg) Black g (node d Red t p sib) :: k) u) by (apply across; exact Hg). read here_nullOrBlack.
  rewrite Hu, Eu. cbn [negb]. read (here_parent _ _ _ _ _ _ H Hx).
  write (above_setColor _ _ _ _ _ _ _ _ _ H Black) as s1 H1.
  assert (HU1 : here m s0 s1 (Frame (other dg) Black g (node d Black t p sib) :: k) u) by (apply across; exact (above _ _ _ _ _ _ _ _ _ H1)).
  write (here_blacken _ _ _ _ HU1 Eu) as s2 H2.
  assert (H3 : here m s0 s2 (Frame d Black p sib :: Frame dg Black g (blacken u) :: k) t) by (apply across in H2; rewrite other_other in H2; by apply here_up).
  read (here_parent _ _ _ _ _ _ H3 Hx). pose proof (proj1 (here_up _ _ _ _ _ _) H3) as Hg3. read (above_parent _ _ _ _ _ _ _ _ _ H3).
  write (above_setColor _ _ _ _ _ _ _ _ _ Hg3 Red) as s3 H4.
  assert (H5 : here m s0 s3 (Frame d Black p sib :: Frame dg Red g (blacken u) :: k) t) by by apply here_up.
  read (here_parent _ _ _ _ _ _ H5 Hx). eapply runs_eq; [exact (above_parent _ _ _ _ _ _ _ _ _ H5) |]. split; [done |]. by apply above.
Qed.

(** Case 3. *)
Lemma insertCase3_ok (s : Store) (k : list frame) (d : Side) (p g x : positive) (sib u t : tree) :
  here m s0 s (Frame d Red p sib :: Frame d Black g u :: k) t -> rootOf t = Some x ->
  runs (insertCase3 d (Some x)) s (fun x' s' => x' = Some x /\ here m s0 s' (Frame d Black p (node (other d) Red u g sib) :: k) t).
Proof.
  intros H Hx. unfold insertCase3. read (here_parent _ _ _ _ _ _ H Hx). write (above_setColor _ _ _ _ _ _ _ _ _ H Black) as s1 H1.
  read (here_parent _ _ _ _ _ _ H1 Hx). pose proof (proj1 (here_up _ _ _ _ _ _) H1) as Hg1. read (above_parent _ _ _ _ _ _ _ _ _ H1). write (above_setColor _ _ _ _ _ _ _ _ _ Hg1 Red) as s2 H2.
  assert (H3 : here m s0 s2 (Frame d Black p sib :: Frame d Red g u :: k) t) by by apply here_up.
  read (here_parent _ _ _ _ _ _ H3 Hx). read (above_parent _ _ _ _ _ _ _ _ _ H3). apply above in H2. unfold plug1 in H2. cbn [f_side f_color f_addr f_sibling] in H2. rewrite <- node_other in H2. rewrite <- (node_other d Black) in H2.
  write (here_rotate _ _ _ _ _ _ _ _ _ _ _ _ H2) as s3 H4. apply runs_ret. split; [done |]. apply here_up. unfold plug1. cbn [f_side f_color f_addr f_sibling]. by rewrite node_other in H4.
Qed.

(** The uncle is black, and the node is on the same side as its parent: case 3 only. *)
Lemma insertCase_straight (s : Store) (k : list frame) (d : Side) (p g x : positive) (sib u t : tree) :
  here m s0 s (Frame d Red p sib :: Frame d Black g u :: k) t -> rootOf t = Some x -> blackRoot u = true ->
  runs (insertCase d (Some x)) s (fun x' s' => x' = Some x /\ here m s0 s' (Frame d Black p (node (other d) Red u g sib) :: k) t).
Proof.
  intros H Hx Hu. unfold insertCase. read (here_parent _ _ _ _ _ _ H Hx). pose proof (proj1 (here_up _ _ _ _ _ _) H) as Hg. read (above_parent _ _ _ _ _ _ _ _ _ H). read (above_sibling _ _ _ _ _ _ _ _ _ Hg).
  assert (HU : here m s0 s (Frame (other d) Black g (node d Red t p sib) :: k) u) by (apply across; exact Hg). read (here_nullOrBlack _ _ _ _ _ HU). rewrite Hu. cbn [negb].
  read (here_parent _ _ _ _ _ _ H Hx). read (above_sibling _ _ _ _ _ _ _ _ _ H). rewrite bool_decide_eq_false_2 by (intros E; by eapply (siblings_apart _ _ _ _ _ _ _ _ _ H)).
  eapply runs_call; [done |]; cbn beta. by apply insertCase3_ok.
Qed.

(** The node is on the other side: case 2, it changes places with its parent, and case 3. *)
Lemma insertCase_bent (s : Store) (k : list frame) (d : Side) (p g x : positive) (sib u near far : tree) :
  here m s0 s (Frame (other d) Red p sib :: Frame d Black g u :: k) (node d Red near x far) -> blackRoot u = true ->
  runs (insertCase d (Some x)) s (fun x' s' => x' = Some p /\ here m s0 s' (Frame d Black x (node (other d) Red u g far) :: k) (node d Red sib p near)).
Proof.
  intros H Hu. pose proof (rootOf_node d Red near far x) as Hx. unfold insertCase. read (here_parent _ _ _ _ _ _ H Hx). pose proof (proj1 (here_up _ _ _ _ _ _) H) as Hg. read (above_parent _ _ _ _ _ _ _ _ _ H).
  read (above_sibling _ _ _ _ _ _ _ _ _ Hg). assert (HU : here m s0 s (Frame (other d) Black g (node (other d) Red (node d Red near x far) p sib) :: k) u) by (apply across; exact Hg). read (here_nullOrBlack _ _ _ _ _ HU). rewrite Hu. cbn [negb].
  read (here_parent _ _ _ _ _ _ H Hx). read (above_child _ _ _ _ _ _ _ _ _ H). rewrite Hx, bool_decide_eq_true_2 by done.
  apply above in H. rewrite node_other in H. destruct (here_rotate _ _ _ _ _ _ _ _ _ _ _ _ H) as (s1 & E1 & H1).
  eapply runs_call; [| apply (insertCase3_ok s1 k d x g p far u (node d Red sib p near)); [by apply here_up | apply rootOf_node]].
  apply above in Hg. unfold mbind, Prog_bind. rewrite (here_parent m s0 s (Frame (other d) Red p sib :: Frame d Black g u :: k) (node d Red near x far) x); [| apply here_up; apply here_up; exact Hg | done]. cbn [topOf f_addr]. by rewrite E1.
Qed.

Lemma rootAt_member (k : list frame) (p : Ptr) : k <> [] -> exists a, rootAt k p = Some a /\ a ∈ members k.
Proof.
  revert p. induction k as [| f k IH]; intros p H; [done |]. cbn [rootAt members]. destruct k as [| f' k]; [exists (f_addr f); split; [done | by left] |].
  destruct (IH (Some (f_addr f)) ltac:(done)) as (a & E & Ha). exists a. split; [exact E |]. right. apply elem_of_app. by right.
Qed.

Lemma rootOf_member (t : tree) (x : positive) : rootOf t = Some x -> x ∈ inorder t.
Proof. destruct t as [| c l a r]; [done |]. intros [= ->]. cbn [inorder]. apply elem_of_app. right. by left. Qed.

(** Only at the top the root is below the place. *)
Lemma not_root (s : Store) (k : list frame) (t : tree) (x : positive) : here m s0 s k t -> rootOf t = Some x -> bool_decide (@eq Ptr (Some x) (rootAt k (rootOf t))) = match k with [] => true | _ => false end.
Proof.
  intros H Hx. destruct k as [| f k]; [cbn [rootAt]; by rewrite Hx, bool_decide_eq_true_2 |]. destruct (rootAt_member (f :: k) (rootOf t)) as (a & -> & Ha); [done |]. apply bool_decide_eq_false_2.
  intros [= ->]. pose proof (h_unique _ _ _ (r_holds _ _ _ _ _ H)) as Hu. apply list.NoDup_app in Hu as (_ & Hu & _). by apply (Hu a); [apply rootOf_member |].
Qed.

Lemma bad_node (d : Side) (t : tree) : blackRoot t = false -> exists near x far, t = node d Red near x far.
Proof. destruct t as [| [] l x r]; intros H; try done. destruct d; [by exists l, x, r | by exists r, x, l]. Qed.

(** Which case a red parent gives. *)
Lemma insertRound (s : Store) (k : list frame) (d dg : Side) (p g x : positive) (sib u t : tree) (n : nat) :
  here m s0 s (Frame d Red p sib :: Frame dg Black g u :: k) t -> rootOf t = Some x -> blackRoot t = false -> fits n (Frame d Red p sib :: Frame dg Black g u :: k) -> valid n t ->
  runs (insertCase dg (Some x)) s (fun x' s' => exists k' t' n', here m s0 s' k' t' /\ x' = rootOf t' /\ blackRoot t' = false /\ fits n' k' /\ valid n' t' /\ (length k' < S (S (length k)))%nat).
Proof.
  intros H Hx Hb (Hs & Hs1 & _ & Hu & Hf) Hv. destruct (blackRoot u) eqn:Eu.
  - assert (d = dg \/ d = other dg) as [-> | ->] by (destruct d, dg; tauto).
    + eapply runs_mono; [by eapply insertCase_straight |]. intros x' s' [-> H']. exists (Frame dg Black p (node (other dg) Red u g sib) :: k), t, n.
      split; [exact H' |]. split; [done |]. split; [done |]. split; [| split; [done | cbn [length]; lia]]. cbn [fits]. split; [by apply valid_node | done].
    + destruct (bad_node dg t Hb) as (near & y & far & ->). rewrite rootOf_node in Hx. injection Hx as ->. apply valid_node in Hv as (V1 & V2 & V3 & V4).
      eapply runs_mono; [by eapply insertCase_bent |]. intros x' s' [-> H']. exists (Frame dg Black x (node (other dg) Red u g far) :: k), (node dg Red sib p near), n.
      split; [exact H' |]. split; [by rewrite rootOf_node |]. split; [by rewrite blackRoot_node |]. split; [| split; [by apply valid_node | cbn [length]; lia]]. cbn [fits]. split; [by apply valid_node | done].
  - eapply runs_mono; [by eapply insertCase_red |]. intros x' s' [-> H']. exists k, (node dg Red (node d Black t p sib) g (blacken u)), (S n).
    split; [exact H' |]. split; [by rewrite rootOf_node |]. split; [by rewrite blackRoot_node |]. split; [exact Hf |]. split; [| lia]. apply valid_node. rewrite blackRoot_node.
    split; [done |]. split; [by destruct u |]. split; [apply valid_node; by exists n | by apply blacken_valid].
Qed.

Lemma insertRepair_ok (fuel n : nat) (s : Store) (k : list frame) (t : tree) (x : positive) : (length k < fuel)%nat -> here m s0 s k t -> rootOf t = Some x -> blackRoot t = false -> fits n k -> valid n t ->
  runs (insertLoop fuel (Some x)) s (fun _ s' => exists T, here m s0 s' [] T /\ balanced (blacken T) /\ T <> Leaf).
Proof.
  revert n s k t x. induction fuel as [| fuel IH]; intros n s k t x Hl H Hx Hb Hf Hv; [lia |]. cbn [insertLoop]. read (here_root _ _ _ _ _ H). rewrite (not_root _ _ _ _ H Hx). destruct k as [| [d c p sib] k].
  { apply runs_ret. exists t. split; [done |]. split; [| by intros ->]. split; [by destruct t | exists (S n); by apply blacken_valid]. }
  read (here_parent _ _ _ _ _ _ H Hx). read (above_color _ _ _ _ _ _ _ _ _ H). destruct (bool_decide (c = Red)) eqn:Ec.
  - apply bool_decide_eq_true in Ec. subst c. cbn [fits] in Hf. destruct Hf as (Hs & Hs1 & Ht & Hf). destruct k as [| [dg c g u] k]; [done |]. cbn [blackTop f_color] in Ht. apply bool_decide_eq_true in Ht. subst c.
    pose proof (above _ _ _ _ _ _ _ _ _ H) as Hg. read (here_parent _ _ _ _ _ _ H Hx). read (here_parent _ _ _ _ _ _ H Hx). read (above_parent _ _ _ _ _ _ _ _ _ H).
    assert (El : exists gl, left (Some g) s = Ok (gl, s) /\ bool_decide (@eq Ptr (Some p) gl) = match dg with LeftSide => true | RightSide => false end).
    { destruct dg.
      - exists (Some p). split; [| by apply bool_decide_eq_true_2]. pose proof (above_child _ _ _ _ _ _ _ _ _ Hg) as E. rewrite rootOf_node in E. exact E.
      - exists (rootOf u). split; [exact (above_sibling _ _ _ _ _ _ _ _ _ Hg) |]. apply bool_decide_eq_false_2. intros E. eapply (siblings_apart _ _ _ _ _ _ _ _ _ Hg p); [by rewrite rootOf_node | done]. }
    destruct El as (gl & E1 & E2). eapply runs_call; [exact E1 |]. cbn beta. rewrite E2. eapply runs_bind.
    + assert (F : fits n (Frame d Red p sib :: Frame dg Black g u :: k)) by (cbn [fits blackTop f_color]; done). pose proof (insertRound s k d dg p g x sib u t n H Hx Hb F Hv) as R. destruct dg; exact R.
    + intros x' s1 (k' & t' & n' & H' & -> & Hb' & Hf' & Hv' & Hl'). destruct (bad_node LeftSide t' Hb') as (near & y & far & ->). rewrite rootOf_node. cbn [length] in Hl. apply (IH n' s1 k' (node LeftSide Red near y far) y); try done. lia.
  - apply runs_ret. exists (plug (Frame d c p sib :: k) t). split; [by apply here_plug in H |].
    assert (HB : balanced (plug (Frame d c p sib :: k) t)) by (apply (fits_balanced n); [done | done |]; right; cbn [blackTop f_color]; destruct c; [done | by apply bool_decide_eq_true_2]).
    split; [rewrite blacken_black; [done | apply HB] |]. intros E. pose proof (rootOf_plug (Frame d c p sib :: k) t) as Er. rewrite E in Er. destruct (rootAt_member (Frame d c p sib :: k) (rootOf t)) as (a & Ea & _); [done |]. cbn [rootOf] in Er. congruence.
Qed.
End Insert.

(** * RedBlackTree: insertion by key

    The interface of a key type, sorted lists of nodes, and what insert does to the list of the
    nodes in order. *)

(** The operators of a key type: < is a weak order, == is its equivalence, > its converse. *)
Class KeyOrder {KeyType : Type} (lt eq gt : KeyType -> KeyType -> bool) : Prop := {
  key_asym : forall x y, lt x y = true -> lt y x = false;
  key_trans : forall x y z, lt y x = false -> lt z y = false -> lt z x = false;
  key_eq : forall x y, eq x y = true <-> lt x y = false /\ lt y x = false;
  key_gt : forall x y, gt x y = lt y x }.

(** The tree with these nodes in order. *)
Definition treeOf (s : Store) (l : list positive) : Prop := exists t, holds s [] t /\ balanced t /\ inorder t = l.

Section Keys.
Context {KeyType : Type} (lt eq gt : KeyType -> KeyType -> bool) `{HK : !KeyOrder lt eq gt} (key : positive -> KeyType).

(** No key is less than one before it. *)
Fixpoint sortedKeys (l : list positive) : Prop :=
  match l with [] => True | a :: l => Forall (fun b => lt (key b) (key a) = false) l /\ sortedKeys l end.

(** Behind the keys that are not greater. *)
Fixpoint insertSorted (z : positive) (l : list positive) : list positive :=
  match l with [] => [z] | b :: l' => if lt (key z) (key b) then z :: l else b :: insertSorted z l' end.

Lemma insertSorted_at (z : positive) (l1 l2 : list positive) : Forall (fun b => lt (key z) (key b) = false) l1 -> Forall (fun b => lt (key z) (key b) = true) l2 -> insertSorted z (l1 ++ l2) = l1 ++ z :: l2.
Proof.
  intros H1 H2. induction H1 as [| b l1 Hb H1 IH]; [| cbn [app insertSorted]; by rewrite Hb, IH]. destruct H2 as [| b l2 Hb H2]; [done |]. cbn [app insertSorted]. by rewrite Hb.
Qed.

Lemma sortedKeys_app (l1 l2 : list positive) : sortedKeys (l1 ++ l2) <-> sortedKeys l1 /\ sortedKeys l2 /\ Forall (fun a => Forall (fun b => lt (key b) (key a) = false) l2) l1.
Proof.
  induction l1 as [| a l1 IH]; cbn [app sortedKeys]; [split; [done | tauto] |]. rewrite IH, list.Forall_app, list.Forall_cons. tauto.
Qed.

Lemma less_trans (x y z : KeyType) : lt x y = true -> lt z y = false -> lt x z = true.
Proof. intros H1 H2. destruct (lt x z) eqn:E; [done |]. rewrite (key_trans y z x) in H1; done. Qed.

(** ** The descent *)

(** The place is on the side the key [z] goes to. *)
Definition onSide (z : positive) (k : list frame) : Prop :=
  match k with [] => True | Frame d _ a _ :: _ => d = if lt (key z) (key a) then LeftSide else RightSide end.
Definition between (z : positive) (k : list frame) : Prop := Forall (fun b => lt (key z) (key b) = false) (before k) /\ Forall (fun b => lt (key z) (key b) = true) (after k).

Lemma between_down (z : positive) (k : list frame) (c : Color) (l r : tree) (a : positive) : sortedKeys (inorder (T c l a r)) -> between z k ->
  if lt (key z) (key a) then between z (Frame LeftSide c a r :: k) else between z (Frame RightSide c a l :: k).
Proof.
  intros Hs [B1 B2]. cbn [inorder] in Hs. apply sortedKeys_app in Hs as (_ & [Hr _] & Hl). unfold between. cbn [before after app]. destruct (lt (key z) (key a)) eqn:E.
  - rewrite app_nil_r. split; [done |]. constructor; [done |]. apply list.Forall_app. split; [| done]. eapply list.Forall_impl; [exact Hr |]. intros b Hb. by eapply less_trans.
  - split; [| done]. apply list.Forall_app. split; [done |]. apply list.Forall_app. split; [| by constructor]. eapply list.Forall_impl; [exact Hl |]. intros b Hb. apply list.Forall_cons in Hb as [Hb _]. by eapply key_trans.
Qed.

Lemma insertDescend_ok (fuel : nat) (s : Store) (z : positive) (k : list frame) (t : tree) : (height t < fuel)%nat -> holds s k t -> sortedKeys (inorder t) -> between z k -> onSide z k ->
  runs (insertDescend lt key fuel z (topOf k) (rootOf t)) s (fun y s' => s' = s /\ exists k', y = topOf k' /\ holds s k' Leaf /\ between z k' /\ onSide z k' /\ plug k' Leaf = plug k t).
Proof.
  revert k t. induction fuel as [| fuel IH]; intros k t Hl H Hs Hb Hd; [lia |]. destruct t as [| c l a r]; cbn [insertDescend rootOf].
  { apply runs_ret. split; [done |]. by exists k. }
  pose proof (between_down z k c l r a Hs Hb) as Hb'. cbn [inorder] in Hs. cbn [height] in Hl. apply sortedKeys_app in Hs as (Hsl & [_ Hsr] & _).
  pose proof (at_child s k LeftSide c l r a H) as E1. pose proof (at_child_other s k LeftSide c l r a H) as E2. cbn [child other] in E1, E2. destruct (lt (key z) (key a)) eqn:E.
  - eapply runs_call; [exact E1 |]. apply (IH (Frame LeftSide c a r :: k) l); [lia | by apply holds_up | done | done |]. cbn [onSide]. by rewrite E.
  - eapply runs_call; [exact E2 |]. apply (IH (Frame RightSide c a l :: k) r); [lia | by apply holds_up | done | done |]. cbn [onSide]. by rewrite E.
Qed.

(** Hanging the new node at its place. *)
Lemma link_ok (s : Store) (z : positive) (k : list frame) : holds s k Leaf -> z ∉ members k -> s_nodes s !! z = Some (mkNode None None None Red) -> onSide z k ->
  runs (_ ← setParent (Some z) (topOf k); match topOf k with None => setRoot (Some z) | Some a => if lt (key z) (key a) then setLeft (topOf k) (Some z) else setRight (topOf k) (Some z) end) s
    (fun _ s' => holds s' k (T Red Leaf z Leaf) /\ elsewhere (z :: members k) s s').
Proof.
  intros [_ H2 H3 H4] Hz Hc Hd. read (setParent_ok _ _ _ Hc (topOf k)). cbn [m_left m_right m_color]. set (s1 := put s z _). cbn [app inorder] in H4.
  assert (F : repFrames (s_nodes s1) None k) by (eapply repFrames_same; [| exact H2]; intros b Hb; unfold s1; apply put_ne; by intros ->).
  assert (E : (match topOf k with None => setRoot (Some z) | Some a => if lt (key z) (key a) then setLeft (topOf k) (Some z) else setRight (topOf k) (Some z) end) s1 = Ok ((), rehang (Some z) k s1)).
  { destruct k as [| [d c a sib] k]; [done |]. destruct F as (F & _). cbn [topOf f_addr onSide rehang] in *. subst d. destruct (lt (key z) (key a)); [by rewrite (setLeft_ok _ _ _ F) | by rewrite (setRight_ok _ _ _ F)]. }
  eapply runs_eq; [exact E |]. split.
  - split.
    + cbn [rep rootOf]. split; [rewrite rehang_other by done; apply put_eq | done].
    + by apply (rehang_rep None).
    + by apply (rehang_root None).
    + cbn [inorder app]. by apply list.NoDup_cons.
  - intros b Hb. apply not_elem_of_cons in Hb as [Hb1 Hb2]. rewrite rehang_other by done. unfold s1. by apply put_ne.
Qed.

Lemma plug_leaf (k : list frame) : inorder (plug k Leaf) = before k ++ after k.
Proof. by rewrite inorder_plug. Qed.

Lemma treeInsert_ok (s : Store) (z : positive) (l : list positive) (t : tree) : holds s [] t -> inorder t = l -> balanced t -> sortedKeys l -> z ∉ l -> s_nodes s !! z = Some (mkNode None None None Red) ->
  runs (treeInsert lt key z) s (fun _ s' => exists k n, here (insertSorted z l) s s' k (T Red Leaf z Leaf) /\ fits n k /\ n = 0%nat).
Proof.
  intros H <- HB Hs Hz Hc. unfold treeInsert. read (left_ok _ _ _ Hc). eapply runs_call; [done |]. cbn beta. read (right_ok _ _ _ Hc). eapply runs_call; [done |]. cbn beta. read (parent_ok _ _ _ Hc). eapply runs_call; [done |]. cbn beta.
  read (color_ok _ _ _ Hc). eapply runs_call; [done |]. cbn beta. eapply runs_call; [unfold root; by rewrite (h_root _ _ _ H) |]. eapply runs_call; [done |]. cbn beta. cbn [rootAt].
  eapply runs_bind; [apply (insertDescend_ok _ s z [] t); [pose proof (holds_size _ _ _ H); pose proof (height_length t); lia | done | done | by split | done] |].
  intros y s1 (-> & k & -> & Hk & (B1 & B2) & Hd & Ek). cbn [plug] in Ek. assert (Em : inorder t = before k ++ after k) by (by rewrite <- Ek, plug_leaf).
  assert (Hm : members k ≡ₚ inorder t) by (by rewrite Em, members_split). eapply runs_mono; [apply link_ok; [done | by rewrite Hm | done | done] |]. intros _ s' (H' & Ho). exists k.
  rewrite <- Ek in HB. destruct (balanced_fits k Leaf HB) as (n & Hf & Hv & _). exists n. split; [| done].
  rewrite Em, (insertSorted_at z (before k) (after k) B1 B2). split; [done | by rewrite inorder_plug |]. eapply elsewhere_perm; [| exact Ho]. rewrite members_split. solve_Permutation.
Qed.

(** insert gives the tree with the node behind those with keys that are not greater, and
    touches no node but it and those of the tree. *)
Lemma insert_ok (s : Store) (x : positive) (l : list positive) : treeOf s l -> sortedKeys l -> x ∉ l -> x ∈ dom (s_nodes s) ->
  runs (insert lt key x) s (fun _ s' => treeOf s' (insertSorted x l) /\ elsewhere (x :: l) s s').
Proof.
  intros (t & H & HB & E) Hs Hx Hd. apply elem_of_dom in Hd as [n Hn]. unfold insert, reset. eapply runs_call; [unfold mbind at 1, Prog_bind, deref; by rewrite Hn |]. cbn beta. fold (put s x (mkNode None None None Red)).
  set (s1 := put s x _). assert (H1 : holds s1 [] t) by (apply holds_put; [cbn [members]; by rewrite app_nil_r, E | done]).
  eapply runs_bind; [by apply (treeInsert_ok s1 x l t); [| | | | | apply put_eq] |]. intros _ s2 (k & m & H2 & Hf & ->).
  destruct (here_setColor _ _ s2 k LeftSide Red Red Leaf Leaf x H2) as (s3 & E3 & H3). eapply runs_call; [exact E3 |]. cbn beta. eapply runs_call; [done |]. cbn beta.
  eapply runs_bind.
  - eapply (insertRepair_ok (insertSorted x l) s1 _ 0 s3 k); [pose proof (holds_depth _ _ _ (r_holds _ _ _ _ _ H3)); lia | exact H3 | done | done | done | done].
  - intros _ s4 (T & H4 & HB4 & Hne). eapply runs_call; [exact (here_root _ _ _ _ _ H4) |]. cbn [rootAt]. destruct (rootOf T) as [a |] eqn:Ea; [| by destruct T].
    destruct (here_blacken _ _ _ _ _ _ H4 Ea) as (s5 & E5 & H5). eapply runs_eq; [exact E5 |]. split; [exists (blacken T); split; [apply H5 | split; [done | apply H5]] |].
    eapply elsewhere_trans; [apply (elsewhere_put _ s x); by left |]. eapply elsewhere_perm; [| apply H5]. clear -l. induction l as [| b l IH]; [done |]. cbn [insertSorted]. destruct (lt (key x) (key b)); [done |]. rewrite IH. apply Permutation_swap.
Qed.
End Keys.
