(* ===== verification/RedBlackTreeRemove.v ===== *)
(** * RedBlackTree: removal

    The loop that repairs the tree when a black node has been unlinked, and remove, which puts
    the successor of a node with two children in its place. *)

From stdpp Require Import gmap.
From S2P Require Import Prelude RedBlackTree RedBlackTreeShape RedBlackTreeInsert.

Section Fixup.
Context (m : list positive) (s0 : Store).

(** A node red by removeFixup may have red children until it is made black. *)
Definition almost (n : nat) (t : tree) : Prop := match t with T Red l _ r => valid n l /\ valid n r | _ => valid n t end.

Lemma almost_valid (n : nat) (t : tree) : valid n t -> almost n t.
Proof. destruct t as [| [] l a r]; cbn [valid almost]; tauto. Qed.

Lemma almost_black (n : nat) (t : tree) : almost n t -> blackRoot t = true -> valid n t.
Proof. by destruct t as [| [] l a r]. Qed.

Lemma almost_blacken (n : nat) (t : tree) : almost n t -> blackRoot t = false -> valid (S n) (blacken t).
Proof. destruct t as [| [] l a r]; try done. intros [H1 H2] _. by exists n. Qed.

Lemma as_node (d : Side) (n : nat) (t : tree) : valid (S n) t -> exists c near x far, t = node d c near x far.
Proof. destruct t as [| c l x r]; [done |]. intros _. destruct d; [by exists c, l, x, r | by exists c, r, x, l]. Qed.

(** Writing the color of the sibling. *)
Lemma sibling_setColor (s : Store) (k : list frame) (d d' : Side) (c cw cw' : Color) (p v : positive) (near far t : tree) : here m s0 s (Frame d c p (node d' cw near v far) :: k) t ->
  exists s', setColor (Some v) cw' s = Ok ((), s') /\ here m s0 s' (Frame d c p (node d' cw' near v far) :: k) t.
Proof. intros H. destruct (here_setColor _ _ _ _ _ _ cw' _ _ _ (across _ _ _ _ _ _ _ _ _ H)) as (s' & E & H'). exists s'. split; [done |]. apply across in H'. by rewrite other_other in H'. Qed.

Section Sibling.
Context (s : Store) (k : list frame) (d d' : Side) (c cw : Color) (p v : positive) (near far t : tree) (H : here m s0 s (Frame d c p (node d' cw near v far) :: k) t).
Lemma sibling_here : here m s0 s (Frame (other d) c p t :: k) (node d' cw near v far).
Proof. exact (across _ _ _ _ _ _ _ _ _ H). Qed.
Lemma sibling_color : color (Some v) s = Ok (cw, s).
Proof. exact (at_color _ _ _ _ _ _ _ (r_holds _ _ _ _ _ sibling_here)). Qed.
Lemma sibling_child : child d' (Some v) s = Ok (rootOf near, s).
Proof. exact (at_child _ _ _ _ _ _ _ (r_holds _ _ _ _ _ sibling_here)). Qed.
Lemma sibling_child_other : child (other d') (Some v) s = Ok (rootOf far, s).
Proof. exact (at_child_other _ _ _ _ _ _ _ (r_holds _ _ _ _ _ sibling_here)). Qed.
Lemma near_here : here m s0 s (Frame d' cw v far :: Frame (other d) c p t :: k) near.
Proof. apply here_up. exact sibling_here. Qed.
Lemma far_here : here m s0 s (Frame (other d') cw v near :: Frame (other d) c p t :: k) far.
Proof. exact (across _ _ _ _ _ _ _ _ _ near_here). Qed.
End Sibling.

(** Case 1: a red sibling is rotated away. *)
Lemma removeCase1_ok (s : Store) (k : list frame) (d : Side) (c : Color) (p : positive) (w t : tree) (n : nat) : here m s0 s (Frame d c p w :: k) t -> fits (S n) (Frame d c p w :: k) ->
  runs (removeCase1 d (Some p) (rootOf w)) s (fun w' s' => exists c1 w1 k1, here m s0 s' (Frame d c1 p w1 :: k1) t /\ w' = rootOf w1 /\ blackRoot w1 = true /\
    fits (S n) (Frame d c1 p w1 :: k1) /\ (length k1 + (if bool_decide (c1 = Black) then 1 else 0) <= length k + 1)%nat).
Proof.
  intros H [Hw Hf]. destruct (as_node d n w Hw) as (cw & near & v & far & ->). rewrite rootOf_node. unfold removeCase1. read (sibling_color _ _ _ _ _ _ _ _ _ _ _ H). destruct cw.
  - rewrite bool_decide_eq_true_2 by done. destruct c; [destruct Hf as [Hf _]; by rewrite blackRoot_node in Hf |]. apply valid_node in Hw as (V1 & V2 & V3 & V4).
    write (sibling_setColor _ _ _ _ _ _ Black _ _ _ _ _ H) as s1 H1. write (above_setColor _ _ _ _ _ _ _ _ _ H1 Red) as s2 H2. apply above in H2. write (here_rotate _ _ _ _ _ _ _ _ _ _ _ _ H2) as s3 H3.
    assert (H4 : here m s0 s3 (Frame d Red p near :: Frame d Black v far :: k) t) by by (apply here_up; apply here_up).
    eapply runs_eq; [exact (above_sibling _ _ _ _ _ _ _ _ _ H4) |]. exists Red, near, (Frame d Black v far :: k). split; [done |]. split; [done |]. split; [done |]. split; [| cbn [length bool_decide]; rewrite bool_decide_eq_false_2 by done; lia].
    cbn [fits blackTop f_color]. rewrite bool_decide_eq_true_2 by done. done.
  - rewrite bool_decide_eq_false_2 by done. apply runs_ret. exists c, (node d Black near v far), k. split; [done |]. split; [by rewrite rootOf_node |]. split; [by rewrite blackRoot_node |]. split; [done |]. case_bool_decide; lia.
Qed.

(** Case 3: the far nephew is black, so that the near one is red. *)
Lemma removeCase3_ok (s : Store) (k : list frame) (d : Side) (c : Color) (p v : positive) (near far t : tree) (n : nat) : here m s0 s (Frame d c p (node d Black near v far) :: k) t ->
  valid n near -> valid n far -> blackRoot near && blackRoot far = false ->
  runs (removeCase3 d (Some p) (Some v)) s (fun w' s' => exists near1 v1 far1, here m s0 s' (Frame d c p (node d Black near1 v1 far1) :: k) t /\ w' = Some v1 /\ valid n near1 /\ valid n far1 /\ blackRoot far1 = false).
Proof.
  intros H Vn Vf Hb. unfold removeCase3. read (sibling_child_other _ _ _ _ _ _ _ _ _ _ _ H). read (here_nullOrBlack _ _ _ _ _ (far_here _ _ _ _ _ _ _ _ _ _ _ H)). destruct (blackRoot far) eqn:Ef.
  - rewrite andb_true_r in Hb. destruct (bad_node (other d) near Hb) as (nf & y & nn & ->). read (sibling_child _ _ _ _ _ _ _ _ _ _ _ H). rewrite rootOf_node. pose proof (near_here _ _ _ _ _ _ _ _ _ _ _ H) as Hn.
    apply valid_node in Vn as (V1 & V2 & V3 & V4). write (here_setColor _ _ _ _ _ _ Black _ _ _ Hn) as s1 H1. apply here_up in H1. unfold plug1 in H1. cbn [f_side f_color f_addr f_sibling] in H1.
    write (here_setColor _ _ _ _ _ _ Red _ _ _ H1) as s2 H2. rewrite <- node_other in H2. write (here_rotate _ _ _ _ _ _ _ _ _ _ _ _ H2) as s3 H3. apply across in H3. rewrite other_other in H3.
    eapply runs_eq; [exact (above_sibling _ _ _ _ _ _ _ _ _ H3) |]. rewrite rootOf_node. rewrite !node_other in H3. exists nn, y, (node d Red nf v far). split; [done |]. split; [done |]. split; [done |].
    split; [by apply valid_node | by rewrite blackRoot_node].
  - apply runs_ret. by exists near, v, far.
Qed.

(** Case 4: with a red far nephew the tree is repaired. *)
Lemma removeCase4_ok (s : Store) (k : list frame) (d : Side) (c : Color) (p v : positive) (near far t : tree) (n : nat) : here m s0 s (Frame d c p (node d Black near v far) :: k) t ->
  fits (S n) (Frame d c p (node d Black near v far) :: k) -> valid n near -> valid n far -> blackRoot far = false -> valid n t ->
  runs (removeCase4 d (Some p) (Some v)) s (fun r s' => exists T, here m s0 s' [] T /\ r = (rootOf T, None) /\ balanced T).
Proof.
  intros H [_ Hf] Vn Vf Hb Vt. unfold removeCase4. read (above_color _ _ _ _ _ _ _ _ _ H). write (sibling_setColor _ _ _ _ _ _ c _ _ _ _ _ H) as s1 H1. write (above_setColor _ _ _ _ _ _ _ _ _ H1 Black) as s2 H2.
  read (sibling_child_other _ _ _ _ _ _ _ _ _ _ _ H2). destruct (bad_node d far Hb) as (fn & f & ff & ->). rewrite rootOf_node. cbn [ifNode]. pose proof (far_here _ _ _ _ _ _ _ _ _ _ _ H2) as Hfar.
  write (here_setColor _ _ _ _ _ _ Black _ _ _ Hfar) as s3 H3. apply across in H3. rewrite other_other in H3. apply here_up in H3. unfold plug1 in H3. cbn [f_side f_color f_addr f_sibling] in H3. apply across in H3. rewrite other_other in H3. apply above in H3.
  write (here_rotate _ _ _ _ _ _ _ _ _ _ _ _ H3) as s4 H4. apply here_plug in H4. set (T := plug k _) in H4.
  assert (HB : balanced T).
  { apply valid_node in Vf as (V1 & V2 & V3 & V4). assert (VL : valid (S n) (node d Black t p near)) by (apply valid_node; by exists n). assert (VR : valid (S n) (node d Black fn f ff)) by (apply valid_node; by exists n). destruct c.
    - destruct Hf as (_ & Ht & Hf). apply (fits_balanced (S n)); [done | apply valid_node; by rewrite !blackRoot_node | by right].
    - apply (fits_balanced (S (S n))); [done | apply valid_node; by exists (S n) | left; by rewrite blackRoot_node]. }
  read (here_root _ _ _ _ _ H4). cbn [rootAt]. destruct (rootOf T) as [a |] eqn:Ea.
  - read (here_parent _ _ _ _ _ _ H4 Ea). apply runs_ret. exists T. by rewrite Ea.
  - exfalso. pose proof (rootOf_plug k (node d c (node d Black t p near) v (node d Black fn f ff))) as Er. fold T in Er. rewrite Ea, rootOf_node in Er. destruct k as [| fr k]; [done |]. destruct (rootAt_member (fr :: k) (Some v)) as (b & Eb & _); [done |]. congruence.
Qed.

(** What is left to do: the frames above, and the place itself unless it is red. *)
Definition work (k : list frame) (t : tree) : nat := length k + (if blackRoot t then 1 else 0).

Lemma removeCase_ok (s : Store) (k : list frame) (d : Side) (c : Color) (p : positive) (w t : tree) (n : nat) (x : Ptr) : here m s0 s (Frame d c p w :: k) t -> fits (S n) (Frame d c p w :: k) -> valid n t ->
  runs (removeCase d x (Some p)) s (fun r s' => exists k' t' n', here m s0 s' k' t' /\ r = (rootOf t', topOf k') /\ fits (S n') k' /\ almost n' t' /\ (work k' t' < S (length k) + 1)%nat).
Proof.
  intros H Hf Vt. pose proof Hf as [Hw _]. destruct (as_node d n w Hw) as (cw0 & near0 & v0 & far0 & Ew). unfold removeCase. read (above_sibling _ _ _ _ _ _ _ _ _ H).
  eapply runs_call; [rewrite bool_decide_eq_true_2 by (by rewrite Ew, rootOf_node); done |]. cbn beta. eapply runs_bind; [by eapply removeCase1_ok |].
  intros w1 s1 (c1 & w' & k1 & H1 & -> & Hb1 & Hf1 & Hl). pose proof Hf1 as [Hw1 Hf1']. destruct (as_node d n w' Hw1) as (cw & near & v & far & ->). rewrite blackRoot_node in Hb1. apply bool_decide_eq_true in Hb1. subst cw.
  apply valid_node in Hw1 as (n' & [= <-] & Vn & Vfar). rewrite rootOf_node. read (sibling_child _ _ _ _ _ _ _ _ _ _ _ H1). read (here_nullOrBlack _ _ _ _ _ (near_here _ _ _ _ _ _ _ _ _ _ _ H1)).
  eapply runs_call with (a := blackRoot near && blackRoot far) (s1 := s1).
  { destruct (blackRoot near); [| done]. eapply bind_ok; [exact (sibling_child_other _ _ _ _ _ _ _ _ _ _ _ H1) |]. exact (here_nullOrBlack _ _ _ _ _ (far_here _ _ _ _ _ _ _ _ _ _ _ H1)). }
  destruct (blackRoot near && blackRoot far) eqn:Eb.
  - apply andb_true_iff in Eb as [B1 B2]. write (sibling_setColor _ _ _ _ _ _ Red _ _ _ _ _ H1) as s2 H2. read (above_parent _ _ _ _ _ _ _ _ _ H2). apply runs_ret.
    assert (VR : valid n (node d Red near v far)) by by apply valid_node. exists k1, (node d c1 t p (node d Red near v far)). destruct c1.
    + exists n. split; [by apply above |]. split; [by rewrite rootOf_node |]. split; [apply Hf1' |]. split; [destruct d; by split | unfold work; rewrite blackRoot_node; lia].
    + exists (S n). split; [by apply above |]. split; [by rewrite rootOf_node |]. split; [apply Hf1' |]. split; [apply almost_valid, valid_node; by exists n |]. unfold work. rewrite blackRoot_node. lia.
  - eapply runs_bind; [by eapply removeCase3_ok |]. intros w2 s2 (near1 & v1 & far1 & H2 & -> & Vn1 & Vf1 & Hb1).
    assert (F2 : fits (S n) (Frame d c1 p (node d Black near1 v1 far1) :: k1)).
    { split; [apply valid_node; by exists n |]. rewrite blackRoot_node in *. exact Hf1'. }
    eapply runs_mono; [by eapply removeCase4_ok |]. intros r s3 (T & H3 & -> & HB & nT & HT). exists [], T, nT. split; [done |]. split; [done |]. split; [done |]. split; [by apply almost_valid |]. unfold work. cbn [length]. destruct (blackRoot T); lia.
Qed.

(** The place is the root only at the top, also when it is empty. *)
Lemma place_not_root (s : Store) (k : list frame) (t : tree) : here m s0 s k t -> bool_decide (rootOf t = rootAt k (rootOf t)) = match k with [] => true | _ => false end.
Proof.
  intros H. destruct (rootOf t) as [x |] eqn:E; [rewrite <- (not_root m s0 s k t x H E); by rewrite E |]. destruct k as [| f k]; [done |]. destruct (rootAt_member (f :: k) None) as (a & -> & _); [done |]. by apply bool_decide_eq_false_2.
Qed.

Lemma blacken_ok (s : Store) (k : list frame) (t : tree) : here m s0 s k t -> runs (ifNode (rootOf t) (setColor (rootOf t) Black)) s (fun _ s' => here m s0 s' k (blacken t)).
Proof.
  intros H. destruct (rootOf t) as [a |] eqn:E; cbn [ifNode]; [| apply runs_ret; by destruct t]. destruct (here_blacken _ _ _ _ _ _ H E) as (s' & E' & H'). by eapply runs_eq.
Qed.

Lemma removeFixupLoop_ok (fuel n : nat) (s : Store) (k : list frame) (t : tree) : (work k t < fuel)%nat -> here m s0 s k t -> fits (S n) k -> almost n t ->
  runs (removeFixupLoop fuel (rootOf t) (topOf k)) s (fun _ s' => exists T, here m s0 s' [] T /\ balanced T).
Proof.
  revert n s k t. induction fuel as [| fuel IH]; intros n s k t Hl H Hf Ha; [lia |]. cbn [removeFixupLoop]. read (here_root _ _ _ _ _ H). rewrite (place_not_root _ _ _ H).
  assert (Hend : fits (S n) k -> blackRoot t = false -> runs (ifNode (rootOf t) (setColor (rootOf t) Black)) s (fun _ s' => exists T, here m s0 s' [] T /\ balanced T)).
  { intros _ Hb. eapply runs_mono; [by apply blacken_ok |]. intros u s' H'. cbn beta in H'. exists (plug k (blacken t)). split; [by apply here_plug in H' |]. apply (fits_balanced (S n)); [done | by apply almost_blacken | left; by destruct t]. }
  destruct k as [| [d c p w] k].
  - eapply runs_call; [done |]. cbn beta. cbv iota. destruct (blackRoot t) eqn:Eb; [| by apply Hend]. eapply runs_mono; [by apply blacken_ok |]. intros u s' H'. cbn beta in H'. rewrite blacken_black in H' by done. exists t. split; [done |]. split; [done |]. exists n. by apply almost_black.
  - read (here_nullOrBlack _ _ _ _ _ H). destruct (blackRoot t) eqn:Eb; [| by apply Hend]. pose proof (almost_black _ _ Ha Eb) as Vt. pose proof Hf as [Hw _].
    assert (El : exists l, left (Some p) s = Ok (l, s) /\ bool_decide (rootOf t = l) = match d with LeftSide => true | RightSide => false end).
    { destruct d; [exists (rootOf t); split; [exact (above_child _ _ _ _ _ _ _ _ _ H) | by apply bool_decide_eq_true_2] |]. exists (rootOf w). split; [exact (above_sibling _ _ _ _ _ _ _ _ _ H) |]. apply bool_decide_eq_false_2. intros E.
      destruct (as_node RightSide n w Hw) as (cw & nr & v & fr & ->). rewrite rootOf_node in E. eapply (siblings_apart _ _ _ _ _ _ _ _ _ H v); [done | apply rootOf_node]. }
    destruct El as (l & E1 & E2). eapply runs_call; [exact E1 |]. cbn beta. rewrite E2. unfold work in Hl. rewrite Eb in Hl. cbn [length] in Hl. eapply runs_bind.
    + pose proof (removeCase_ok s k d c p w t n (rootOf t) H Hf Vt) as R. destruct d; exact R.
    + intros r s1 (k' & t' & n' & H' & -> & Hf' & Ha' & Hw'). apply (IH n'); [lia | done | done | done].
Qed.
End Fixup.

(** ** Finding places *)

Lemma place_of (t : tree) (z : positive) : z ∈ inorder t -> exists k c l r, t = plug k (T c l z r).
Proof.
  intros H. assert (G : forall k, exists k' c l r, plug k t = plug k' (T c l z r)); [| destruct (G []) as (k' & c & l & r & E); by exists k', c, l, r].
  induction t as [| c l IHl a r IHr]; intros k; [by apply not_elem_of_nil in H |]. cbn [inorder] in H. apply elem_of_app in H as [H | H].
  - exact (IHl H (Frame LeftSide c a r :: k)).
  - apply elem_of_cons in H as [-> | H]; [by exists k, c, l, r |]. exact (IHr H (Frame RightSide c a l :: k)).
Qed.

Lemma extremeLoop_ok (fuel : nat) (s : Store) (d : Side) (k : list frame) (t : tree) : (length (inorder t) < fuel)%nat -> holds s k t -> t <> Leaf ->
  runs (extremeLoop d fuel (rootOf t)) s (fun p s' => s' = s /\ exists ks c y far, p = Some y /\ Forall (fun f => f_side f = d) ks /\ holds s (ks ++ k) (node d c Leaf y far) /\ plug (ks ++ k) (node d c Leaf y far) = plug k t).
Proof.
  revert k t. induction fuel as [| fuel IH]; intros k t Hl H Hne; [lia |]. assert (exists c near a far, t = node d c near a far) as (c & near & a & far & ->) by (destruct t as [| c l a r]; [done |]; destruct d; [by exists c, l, a, r | by exists c, r, a, l]).
  rewrite rootOf_node. cbn [extremeLoop]. read (at_child _ _ _ _ _ _ _ H). destruct near as [| cn ln n rn].
  - apply runs_ret. split; [done |]. by exists [], c, a, far.
  - rewrite inorder_node in Hl. cbn [length] in Hl. rewrite length_app in Hl. eapply runs_mono; [apply (IH (Frame d c a far :: k) (T cn ln n rn)); [lia | by apply holds_up | done] |].
    intros p s' (-> & ks & c' & y & far' & -> & Hd & H' & E). split; [done |]. exists (ks ++ [Frame d c a far]), c', y, far'. rewrite <- !app_assoc. cbn [app]. split; [done |]. split; [| done]. apply list.Forall_app. split; [done | by constructor].
Qed.

Lemma before_left (ks k : list frame) : Forall (fun f => f_side f = LeftSide) ks -> before (ks ++ k) = before k.
Proof. intros H. induction H as [| [d c a sib] ks Hd H IH]; [done |]. cbn [f_side] in Hd. subst d. cbn [app before]. by rewrite app_nil_r. Qed.

Lemma after_right (ks k : list frame) : Forall (fun f => f_side f = RightSide) ks -> after (ks ++ k) = after k.
Proof. intros H. induction H as [| [d c a sib] ks Hd H IH]; [done |]. cbn [f_side] in Hd. subst d. done. Qed.

(** ** Unlinking a node with one child at most *)

Definition onlyChild (a b : tree) : tree := match a with Leaf => b | _ => a end.

Lemma unlink_ok (s : Store) (k : list frame) (c : Color) (a b : tree) (y : positive) : holds s k (T c a y b) -> a = Leaf \/ b = Leaf ->
  let t := onlyChild a b in
  runs (unlink (Some y)) s (fun r s' => r = (rootOf t, topOf k) /\ holds s' k t /\ s_nodes s' !! y = s_nodes s !! y /\ elsewhere (inorder (T c a y b) ++ members k) s s').
Proof.
  intros [(H1 & Ha & Hb) H2 H3 H4] Hor t. pose proof (unique_node LeftSide c a b y (members k)) as U. cbn [node] in U. apply U in H4 as (U1 & U2 & U3 & U4 & U5 & U6 & U7 & U8 & U9). clear U.
  assert (Ht : rep (s_nodes s) (Some y) t /\ (y ∉ inorder t) /\ inorder t ## members k /\ NoDup (inorder t) /\ (forall x, x ∈ inorder t -> x ∈ inorder (T c a y b))).
  { unfold t, onlyChild. cbn [inorder]. destruct a as [| ca la xa ra]; (split; [done |]; split; [done |]; split; [done |]; split; [done |]); intros x Hx; apply elem_of_app; [right; by right | by left]. }
  destruct Ht as (Ht & Uy & Ud & Un & Hsub). set (s1 := reparent (topOf k) t s). assert (F : repFrames (s_nodes s1) (Some y) k) by (eapply repFrames_same; [| exact H2]; intros x Hx; apply reparent_other; intros Hm; by apply (Ud x)).
  assert (Y1 : s_nodes s1 !! y = Some (mkNode (rootOf a) (rootOf b) (topOf k) c)) by (unfold s1; by rewrite reparent_other).
  unfold unlink. step. eapply runs_call with (a := rootOf t) (s1 := s).
  { unfold t, onlyChild. destruct a; cbn [rootOf]; [by rewrite (right_ok _ _ _ H1) | by rewrite (left_ok _ _ _ H1)]. }
  step. eapply runs_call with (a := topOf k) (s1 := s1).
  { unfold s1. destruct t as [| ct lt xt rt]; [done |]. destruct Ht as (Hx & _). cbn [rootOf reparent]. eapply bind_ok; [apply (setParent_ok _ _ _ Hx) |]. eapply bind_ok with (a := mkNode (rootOf lt) (rootOf rt) (topOf k) ct); [| done]. unfold deref. by rewrite put_eq. }
  read (parent_ok _ _ _ Y1). cbn [m_parent]. eapply runs_call; [by apply rehang_run |]. cbn beta. apply runs_ret. split; [done |]. split; [split |].
  - eapply rep_same with (h := s_nodes s1); [intros x Hx; apply rehang_other; intros Hm; by apply (Ud x) | by eapply reparent_rep].
  - by apply (rehang_rep (Some y)).
  - apply (rehang_root (Some y)). unfold s1. by rewrite reparent_root.
  - apply list.NoDup_app. split; [done |]. split; [| done]. intros x Hx Hm. by apply (Ud x).
  - split; [rewrite rehang_other by done; by rewrite Y1 |]. intros x Hx. rewrite not_elem_of_app in Hx. destruct Hx as [Hx1 Hx2]. rewrite rehang_other by done. apply reparent_other. intros Hx. by apply Hx1, Hsub.
Qed.

(** The colors are repaired where a node was unlinked. *)
Lemma fixup_ok (s : Store) (k : list frame) (n : nat) (c : Color) (a b : tree) (y : positive) : let t := onlyChild a b in holds s k t -> (y ∉ inorder t ++ members k) -> y ∈ dom (s_nodes s) ->
  fits n k -> valid n (T c a y b) -> blackRoot (T c a y b) = true \/ blackTop k = true ->
  runs (if bool_decide (c = Black) then removeFixup (rootOf t) (topOf k) else mret ()) s (fun _ s' => exists T, here (inorder (plug k t)) s s' [] T /\ balanced T).
Proof.
  intros t H Hy Hd Hf Hv Hb. assert (Hh : here (inorder (plug k t)) s s k t) by (split; [done | done | apply elsewhere_refl]).
  assert (Hroom : (S (length (inorder t) + length (members k)) <= base.size (s_nodes s))%nat).
  { destruct H as [H1 H2 _ H4]. rewrite <- length_app. change (S (length (inorder t ++ members k))) with (length (y :: inorder t ++ members k)). assert (Hn : NoDup (y :: inorder t ++ members k)) by by apply list.NoDup_cons.
    rewrite <- size_dom, <- (size_list_to_set (C := gset positive) _ Hn). apply subseteq_size. intros x. rewrite elem_of_list_to_set, elem_of_cons, elem_of_app. intros [-> | [Hx | Hx]]; [done | by eapply rep_dom | by eapply repFrames_dom]. }
  destruct c; cbn [valid blackRoot] in Hv, Hb.
  - rewrite bool_decide_eq_false_2 by done. destruct Hb as [Hb | Hb]; [done |]. destruct Hv as (V1 & V2 & V3 & V4). apply runs_ret. exists (plug k t). split; [by apply here_plug in Hh |].
    apply (fits_balanced n); [done | | by right]. unfold t, onlyChild. by destruct a.
  - rewrite bool_decide_eq_true_2 by done. destruct Hv as (m & -> & V1 & V2). unfold removeFixup. eapply runs_call; [done |]. cbn beta. apply (removeFixupLoop_ok _ _ _ m); [| done | done | apply almost_valid; unfold t, onlyChild; by destruct a].
    unfold work. pose proof (members_length k). destruct (blackRoot t); lia.
Qed.

(** ** A node elsewhere takes the place of one of the tree *)

Lemma replaceNode_ok (s : Store) (k : list frame) (c : Color) (l r : tree) (z y : positive) (n : Node) : holds s k (T c l z r) -> y ∉ inorder (T c l z r) ++ members k -> s_nodes s !! y = Some n ->
  runs (replaceNode (Some z) (Some y)) s (fun _ s' => holds s' k (T c l y r) /\ elsewhere (y :: inorder (T c l z r) ++ members k) s s').
Proof.
  intros [(H1 & Hl & Hr) H2 H3 H4] Hy Hn. assert (My : (y ∉ inorder l) /\ y <> z /\ (y ∉ inorder r) /\ (y ∉ members k)).
  { cbn [inorder] in Hy. rewrite !not_elem_of_app, not_elem_of_cons in Hy. tauto. } destruct My as (Y1 & Y2 & Y3 & Y4).
  pose proof (unique_node LeftSide c l r z (members k)) as U. cbn [node] in U. apply U in H4 as (U1 & U2 & U3 & U4 & U5 & U6 & U7 & U8 & U9). clear U.
  unfold replaceNode. do 8 step. set (s1 := put _ y _).
  assert (O1 : forall x, x <> y -> s_nodes s1 !! x = s_nodes s !! x) by (intros x Hx; unfold s1; by rewrite !put_ne).
  assert (L1 : rep (s_nodes s1) (Some z) l) by (eapply rep_same; [| exact Hl]; intros x Hx; apply O1; by intros ->). assert (R1 : rep (s_nodes s1) (Some z) r) by (eapply rep_same; [| exact Hr]; intros x Hx; apply O1; by intros ->).
  eapply runs_call; [rewrite (left_ok s1 z _ ltac:(rewrite O1 by done; exact H1)); done |]. cbn beta. cbn [m_left]. eapply runs_call; [by eapply reparent_run |]. cbn beta. set (s2 := reparent (Some y) l s1).
  assert (R2 : rep (s_nodes s2) (Some z) r) by (eapply rep_same; [| exact R1]; intros x Hx; apply reparent_other; intros Hm; by apply (U4 x)).
  assert (Z2 : s_nodes s2 !! z = Some (mkNode (rootOf l) (rootOf r) (topOf k) c)) by (unfold s2; rewrite reparent_other by done; by rewrite O1).
  read (right_ok _ _ _ Z2). cbn [m_right]. eapply runs_call; [by eapply reparent_run |]. cbn beta. set (s3 := reparent (Some y) r s2).
  assert (Z3 : s_nodes s3 !! z = Some (mkNode (rootOf l) (rootOf r) (topOf k) c)) by (unfold s3; by rewrite reparent_other). read (parent_ok _ _ _ Z3). cbn [m_parent].
  assert (O3 : forall x, x <> y -> x ∉ inorder l -> x ∉ inorder r -> s_nodes s3 !! x = s_nodes s !! x) by (intros x X1 X2 X3; unfold s3, s2; rewrite !reparent_other by done; by apply O1).
  assert (F3 : repFrames (s_nodes s3) (Some z) k) by (eapply repFrames_same; [| exact H2]; intros x Hx; apply O3; [by intros -> | intros Hm; by apply (U5 x) | intros Hm; by apply (U6 x)]).
  assert (Y3' : s_nodes s3 !! y = Some (mkNode (rootOf l) (rootOf r) (topOf k) c)) by (unfold s3, s2; rewrite !reparent_other by done; apply put_eq).
  assert (Root3 : m_root s3 = rootAt k (Some z)) by (unfold s3, s2; rewrite !reparent_root; exact H3).
  assert (E : (match topOf k with Some _ => replaceChild (topOf k) (Some z) (Some y) | None => r ← root; _ ← assert (bool_decide (r = Some z)); setRoot (Some y) end) s3 = Ok ((), rehang (Some y) k s3)).
  { destruct k as [| f k]; [| exact (rehang_run (f :: k) z (Some y) s3 F3 U3)]. cbn [topOf]. eapply bind_ok; [unfold root; by rewrite Root3 |]. cbn [rootAt]. rewrite bool_decide_eq_true_2 by done. done. }
  eapply runs_eq; [exact E |]. split.
  - split.
    + cbn [rep]. rewrite rehang_other by done. split; [exact Y3' |]. split.
      * eapply rep_same with (h := s_nodes s2); [intros x Hx; rewrite rehang_other by (intros Hm; by apply (U5 x)); apply reparent_other; intros Hm; by apply (U4 x) | by eapply reparent_rep].
      * eapply rep_same with (h := s_nodes s3); [intros x Hx; apply rehang_other; intros Hm; by apply (U6 x) | by eapply reparent_rep].
    + by apply (rehang_rep (Some z)).
    + by apply (rehang_root (Some z)).
    + apply (unique_node LeftSide c l r y (members k)). done.
  - intros x Hx. rewrite not_elem_of_cons, !not_elem_of_app in Hx. cbn [inorder] in Hx. rewrite not_elem_of_app, not_elem_of_cons in Hx. destruct Hx as (X1 & (X2 & X3 & X4) & X5). rewrite rehang_other by done. by apply O3.
Qed.

(** ** remove *)

(** A list without repetition has one place for an element. *)
Lemma split_unique (z : positive) (p1 q1 p2 q2 : list positive) : NoDup (p1 ++ z :: q1) -> p1 ++ z :: q1 = p2 ++ z :: q2 -> p1 = p2 /\ q1 = q2.
Proof.
  revert p2. induction p1 as [| x p1 IH]; intros p2 Hn E; destruct p2 as [| y p2]; cbn [app] in *.
  - by injection E as ->.
  - injection E as <- E. rewrite E in Hn. apply list.NoDup_cons in Hn as [Hn _]. exfalso. apply Hn. apply elem_of_app. right. by left.
  - injection E as -> E. apply list.NoDup_cons in Hn as [Hn _]. exfalso. apply Hn. apply elem_of_app. right. by left.
  - injection E as <- E. apply list.NoDup_cons in Hn as [_ Hn]. destruct (IH p2 Hn E) as [-> ->]. done.
Qed.

Lemma onlyChild_inorder (a b : tree) : a = Leaf \/ b = Leaf -> inorder (onlyChild a b) = inorder a ++ inorder b.
Proof. intros [-> | ->]; [done |]. destruct a; [done |]. by rewrite app_nil_r. Qed.

(** Unlinking a node of the tree, and repairing the colors. *)
Lemma detach_ok (s : Store) (k : list frame) (c : Color) (a b : tree) (y : positive) : holds s k (T c a y b) -> a = Leaf \/ b = Leaf -> balanced (plug k (T c a y b)) -> let t := onlyChild a b in
  runs (unlink (Some y)) s (fun r s2 => r = (rootOf t, topOf k) /\ color (Some y) s2 = Ok (c, s2) /\
    runs (if bool_decide (c = Black) then removeFixup (rootOf t) (topOf k) else mret ()) s2
      (fun _ s3 => treeOf s3 (before k ++ (inorder a ++ inorder b) ++ after k) /\ elsewhere (inorder (plug k (T c a y b))) s s3 /\ s_nodes s3 !! y = s_nodes s !! y)).
Proof.
  intros H Hor HB t. eapply runs_mono; [by apply unlink_ok |]. intros r s2 (-> & H2 & Ey & Ho). fold t in H2. destruct (balanced_fits k _ HB) as (n & Hf & Hv & Hb). pose proof (proj1 (h_tree _ _ _ H)) as Hy. rewrite <- Ey in Hy.
  split; [done |]. split; [by rewrite (color_ok _ _ _ Hy) |]. pose proof (onlyChild_inorder a b Hor) as Et. fold t in Et. pose proof (h_unique _ _ _ H) as Hu. apply (unique_node LeftSide) in Hu as (U1 & U2 & U3 & _).
  eapply runs_mono; [apply (fixup_ok s2 k n c a b y H2); [fold t; rewrite Et, !not_elem_of_app; tauto | by apply elem_of_dom_2 in Hy | done | done | done] |].
  intros _ s3 (T' & H3 & HB3). fold t in H3. split; [exists T'; split; [apply H3 | split; [done |]]; pose proof (r_order _ _ _ _ _ H3) as E; cbn [plug] in E; by rewrite E, inorder_plug, Et |].
  split.
  - eapply elsewhere_trans; [by apply elsewhere_plug |]. eapply elsewhere_mono; [| apply H3]. intros x. rewrite !inorder_plug, Et. cbn [inorder]. rewrite !elem_of_app, elem_of_cons. tauto.
  - rewrite (r_elsewhere _ _ _ _ _ H3); [done |]. rewrite plug_members, Et, !not_elem_of_app. tauto.
Qed.

Lemma remove_ok (s : Store) (z : positive) (l1 l2 : list positive) : treeOf s (l1 ++ z :: l2) ->
  runs (remove z) s (fun r s' => r = Some z /\ treeOf s' (l1 ++ l2) /\ elsewhere (l1 ++ z :: l2) s s').
Proof.
  intros (t & H & HB & E). assert (Hin : z ∈ inorder t) by (rewrite E; apply elem_of_app; right; by left). destruct (place_of t z Hin) as (k & c & a & b & ->). apply holds_plug in H.
  assert (Hn : NoDup (l1 ++ z :: l2)) by (rewrite <- E, plug_members; apply H). rewrite inorder_plug in E. cbn [inorder] in E.
  assert (E' : l1 ++ z :: l2 = (before k ++ inorder a) ++ z :: inorder b ++ after k) by (rewrite <- E, <- !app_assoc; done). destruct (split_unique z l1 l2 _ _ Hn E') as [-> ->].
  assert (Em : (before k ++ inorder a) ++ z :: inorder b ++ after k = inorder (plug k (T c a z b))) by (rewrite inorder_plug; cbn [inorder]; by rewrite <- !app_assoc). clear E E'.
  pose proof (h_tree _ _ _ H) as (Hz & _). unfold remove. step. eapply runs_call; [done |]. cbn beta.
  eapply runs_call with (a := ()) (s1 := s); [rewrite (h_root _ _ _ H); cbn [rootOf]; destruct k as [| f k]; cbn [topOf rootAt]; [rewrite (bool_decide_eq_true_2 (Some z = Some z)) by done |]; by rewrite ?orb_true_r |]. cbn beta. step. step.
  assert (Hcase : (a = Leaf \/ b = Leaf) \/ (exists ra, rootOf a = Some ra) /\ (exists rb, rootOf b = Some rb)) by (destruct a, b; cbn [rootOf]; eauto).
  destruct Hcase as [Hor | [[ra Era] [rb Erb]]].
  - (* the node itself *)
    eapply runs_call with (a := Some z) (s1 := s); [destruct Hor as [-> | ->]; cbn [rootOf]; by rewrite ?orb_true_r |]. cbn beta.
    eapply runs_bind; [by apply (detach_ok s k c a b z H Hor HB) |]. intros r s2 (-> & Ec & Hr). eapply runs_call; [exact Ec |]. cbn beta. rewrite (bool_decide_eq_true_2 (Some z = Some z)) by done. cbn [negb].
    eapply runs_bind; [exact Hr |]. intros _ s3 (H3 & Ho & _). apply runs_ret. split; [done |]. split; [by rewrite <- !app_assoc in * | by rewrite Em].
  - (* its successor *)
    eapply runs_bind with (R := fun r s' => s' = s /\ exists ks cy y b', r = Some y /\ Forall (fun f => f_side f = LeftSide) ks /\ holds s (ks ++ Frame RightSide c z a :: k) (T cy Leaf y b') /\
      plug (ks ++ Frame RightSide c z a :: k) (T cy Leaf y b') = plug k (T c a z b)).
    { rewrite Era, Erb, !bool_decide_eq_false_2 by done. cbn [orb]. unfold successor. step. rewrite Erb. unfold treeMinimum. rewrite <- Erb. eapply runs_call; [done |]. cbn beta.
      eapply (extremeLoop_ok _ s LeftSide (Frame RightSide c z a :: k) b); [| by apply holds_up | intros ->; done].
      pose proof (holds_size _ _ _ H) as L. cbn [inorder] in L. rewrite length_app in L. cbn [length] in L. lia. }
    intros r s1 (-> & ks & cy & y & b' & -> & Hks & Hy & Ep). set (kk := ks ++ Frame RightSide c z a :: k) in *.
    assert (Bk : before kk = before k ++ inorder a ++ [z]) by (unfold kk; by rewrite before_left). assert (Hb : inorder b ++ after k = (y :: inorder b') ++ after kk).
    { assert (E2 : inorder (plug kk (T cy Leaf y b')) = inorder (plug k (T c a z b))) by by rewrite Ep. rewrite !inorder_plug, Bk in E2. cbn [inorder app] in E2. rewrite <- !app_assoc in E2. cbn [app] in E2. apply app_inv_head, app_inv_head in E2. injection E2 as E2. cbn [app]. congruence. }
    rewrite <- Ep in HB. eapply runs_bind; [by apply (detach_ok s kk cy Leaf b' y Hy (or_introl eq_refl) HB) |]. intros r s2 (-> & Ec & Hr). eapply runs_call; [exact Ec |]. cbn beta.
    assert (Nyz : y <> z). { intros ->. rewrite Hb in Hn. apply list.NoDup_app in Hn as (_ & _ & Hn). apply list.NoDup_cons in Hn as [Hn _]. apply Hn. by left. }
    rewrite bool_decide_eq_false_2 by congruence. cbn [negb]. eapply runs_bind; [exact Hr |]. intros _ s3 ((T' & H3 & HB3 & E3) & Ho & Ey). rewrite Ep, <- Em in Ho. rewrite Bk in E3. cbn [inorder app] in E3. rewrite <- !app_assoc in E3. cbn [app] in E3.
    assert (Hz3 : z ∈ inorder T') by (rewrite E3; apply elem_of_app; right; apply elem_of_app; right; by left). destruct (place_of T' z Hz3) as (k3 & c3 & a3 & b3 & ->). apply holds_plug in H3.
    assert (Hn3 : NoDup (inorder (plug k3 (T c3 a3 z b3)))) by (rewrite plug_members; apply H3).
    rewrite inorder_plug in E3. cbn [inorder] in E3. assert (E4 : (before k3 ++ inorder a3) ++ z :: inorder b3 ++ after k3 = (before k ++ inorder a) ++ z :: inorder b' ++ after kk) by (rewrite <- !app_assoc in *; cbn [app] in *; exact E3).
    assert (Hn4 : NoDup ((before k3 ++ inorder a3) ++ z :: inorder b3 ++ after k3)) by (rewrite inorder_plug in Hn3; cbn [inorder] in Hn3; rewrite <- !app_assoc in *; cbn [app] in *; exact Hn3).
    destruct (split_unique z _ _ _ _ Hn4 E4) as [Eb Ea].
    assert (Hy3 : y ∉ inorder (T c3 a3 z b3) ++ members k3).
    { rewrite <- plug_members, inorder_plug. cbn [inorder]. rewrite E3, Hb in *. clear -Hn Nyz. apply list.NoDup_app in Hn as (_ & Hn1 & Hn2). rewrite !not_elem_of_app, not_elem_of_cons. apply list.NoDup_cons in Hn2 as [_ Hn2]. cbn [app] in Hn2. apply list.NoDup_cons in Hn2 as [Hn2 _].
      rewrite not_elem_of_app in Hn2. assert (Hp : y ∉ before k ++ inorder a) by (intros Hm; apply (Hn1 y Hm); right; by left). rewrite not_elem_of_app in Hp. rewrite not_elem_of_app. tauto. }
    assert (Hyd : y ∈ inorder (plug k (T c a z b))) by (rewrite <- Em, Hb; apply elem_of_app; right; right; by left).
    assert (Hd : y ∈ dom (s_nodes s3)) by (pose proof (proj1 (h_tree _ _ _ Hy)) as Hyn; rewrite <- Ey in Hyn; by apply elem_of_dom_2 in Hyn).
    apply elem_of_dom in Hd as [ny Hny]. eapply runs_bind; [by apply (replaceNode_ok s3 k3 c3 a3 b3 z y ny H3 Hy3) |]. intros _ s4 (H4 & Ho4). apply runs_ret. split; [done |]. split.
    + exists (plug k3 (T c3 a3 y b3)). split; [exact (proj1 (holds_plug _ _ _) H4) |]. split.
      * destruct (balanced_fits k3 _ HB3) as (n & F1 & F2 & F3). apply (fits_balanced n); [exact F1 | exact F2 | exact F3].
      * rewrite inorder_plug. cbn [inorder]. rewrite Hb. cbn [app]. rewrite <- Ea, <- Eb, <- !app_assoc. done.
    + eapply elsewhere_trans; [exact Ho |]. eapply elsewhere_mono; [| exact Ho4]. intros x Hx. apply elem_of_cons in Hx as [-> | Hx]; [by rewrite Em |]. rewrite <- plug_members, inorder_plug in Hx. cbn [inorder] in Hx. rewrite E3 in Hx.
      rewrite Hb. revert Hx. rewrite !elem_of_app, !elem_of_cons, !elem_of_app, ?elem_of_cons. tauto.
Qed.
