(* ===== verification/RedBlackTreeTheorems.v ===== *)
(** * RedBlackTree: what the tree promises

    Sequences of insertions and removals are those of a sorted list; searching takes a
    logarithmic number of rounds; walking goes through the list. *)

From stdpp Require Import gmap.
From S2P Require Import Prelude RedBlackTree RedBlackTreeShape RedBlackTreeInsert RedBlackTreeRemove.

(** * RedBlackTree: searching and walking *)

(** ** Neighbours *)

(** The node after a place, going right, and the one before it. *)
Definition upwards (d : Side) (k : list frame) : Ptr := match d with RightSide => head (after k) | LeftSide => list.last (before k) end.

Lemma climbLoop_ok (fuel : nat) (s : Store) (d : Side) (k : list frame) (t : tree) (x : positive) : (length k < fuel)%nat -> holds s k t -> rootOf t = Some x -> climbLoop d fuel (Some x) (topOf k) s = Ok (upwards d k, s).
Proof.
  revert k t x. induction fuel as [| fuel IH]; intros k t x Hl H Hx; [lia |]. destruct k as [| [e c a sib] k]; cbn [climbLoop topOf f_addr]; [by destruct d |]. assert (Hh : here (inorder (plug (Frame e c a sib :: k) t)) s s (Frame e c a sib :: k) t) by (split; [done | done | apply elsewhere_refl]).
  assert (e = d \/ e = other d) as [-> | ->] by (destruct e, d; auto).
  - eapply bind_ok; [exact (above_child _ _ _ _ _ _ _ _ _ Hh) |]. cbn beta. rewrite Hx, (bool_decide_eq_true_2 (Some x = Some x)) by done. eapply bind_ok; [exact (above_parent _ _ _ _ _ _ _ _ _ Hh) |]. cbn beta.
    cbn [length] in Hl. rewrite (IH k (node d c t a sib) a); [| lia | by apply holds_up in H | apply rootOf_node]. f_equal. f_equal. destruct d; cbn [upwards after before app]; [by rewrite app_nil_r | done].
  - pose proof (above_sibling _ _ _ _ _ _ _ _ _ Hh) as E. rewrite other_other in E. eapply bind_ok; [exact E |]. cbn beta. rewrite bool_decide_eq_false_2 by (intros E2; by apply (siblings_apart _ _ _ _ _ _ _ _ _ Hh x)).
    unfold mret, Prog_ret. f_equal. f_equal. destruct d; cbn [other upwards after before app head]; [by rewrite !app_assoc, last_snoc | done].
Qed.

(** The extreme of a subtree is the next node from above. *)
Lemma extreme_first (ks k : list frame) (d : Side) (c : Color) (y : positive) (far t : tree) : Forall (fun f => f_side f = d) ks -> plug (ks ++ k) (node d c Leaf y far) = plug k t ->
  match d with LeftSide => exists r, inorder t = y :: r | RightSide => exists r, inorder t = r ++ [y] end.
Proof.
  intros Hd E. assert (E2 : inorder (plug (ks ++ k) (node d c Leaf y far)) = inorder (plug k t)) by by rewrite E. rewrite !inorder_plug in E2. destruct d; cbn [node inorder app] in E2.
  - rewrite before_left in E2 by done. apply app_inv_head in E2. assert (A : exists m, after (ks ++ k) = m ++ after k).
    { clear E E2. induction Hd as [| [d' c' a' sib] ks Hd' _ IH]; [by exists [] |]. destruct IH as [m Em]. cbn [f_side] in Hd'. subst d'. cbn [app after]. rewrite Em. exists (a' :: inorder sib ++ m). cbn [app]. by rewrite <- app_assoc. }
    destruct A as [m Em]. rewrite Em in E2. exists (inorder far ++ m). apply (app_inv_tail (after k)). rewrite <- E2. cbn [app]. by rewrite <- app_assoc.
  - rewrite after_right in E2 by done. rewrite !app_assoc in E2. apply app_inv_tail in E2. assert (A : exists m, before (ks ++ k) = before k ++ m).
    { clear E E2. induction Hd as [| [d' c' a' sib] ks Hd' _ IH]; [exists []; by rewrite app_nil_r |]. destruct IH as [m Em]. cbn [f_side] in Hd'. subst d'. cbn [app before]. rewrite Em. exists (m ++ inorder sib ++ [a']). by rewrite <- app_assoc. }
    destruct A as [m Em]. rewrite Em in E2. exists (m ++ inorder far). apply (app_inv_head (before k)). rewrite <- E2. by rewrite <- !app_assoc.
Qed.

Lemma extreme_ok (s : Store) (d : Side) (k : list frame) (t : tree) : holds s k t -> t <> Leaf -> (fuel ← enough; extremeLoop d fuel (rootOf t)) s = Ok (match d with LeftSide => head (inorder t) | RightSide => list.last (inorder t) end, s).
Proof.
  intros H Hne. pose proof (holds_size _ _ _ H). eapply bind_ok; [done |]. cbn beta. destruct (extremeLoop_ok (S (base.size (s_nodes s))) s d k t) as (p & s' & E & -> & ks & c & y & far & -> & Hd & _ & Ep); [lia | done | done |].
  rewrite E. f_equal. f_equal. pose proof (extreme_first ks k d c y far t Hd Ep) as X. destruct d; destruct X as [r ->]; [done | by rewrite last_snoc].
Qed.

(** The place of a node, for a list with the node in it. *)
Lemma place_in (s : Store) (z : positive) (l1 l2 : list positive) : treeOf s (l1 ++ z :: l2) -> exists k c a b, holds s k (T c a z b) /\ l1 = before k ++ inorder a /\ l2 = inorder b ++ after k.
Proof.
  intros (t & H & HB & E). assert (Hin : z ∈ inorder t) by (rewrite E; apply elem_of_app; right; by left). destruct (place_of t z Hin) as (k & c & a & b & ->). apply holds_plug in H.
  assert (Hn : NoDup (l1 ++ z :: l2)) by (rewrite <- E, plug_members; apply H). rewrite inorder_plug in E. cbn [inorder] in E.
  destruct (split_unique z l1 l2 (before k ++ inorder a) (inorder b ++ after k) Hn) as [-> ->]; [rewrite <- E, <- !app_assoc; done |]. by exists k, c, a, b.
Qed.

Lemma tree_empty (t : tree) : t = Leaf \/ exists x, rootOf t = Some x /\ t <> Leaf /\ inorder t <> [].
Proof. destruct t as [| c l a r]; [by left |]. right. exists a. split; [done |]. split; [done |]. cbn [inorder]. by destruct (inorder l). Qed.

Lemma successor_ok (s : Store) (z : positive) (l1 l2 : list positive) : treeOf s (l1 ++ z :: l2) -> successor (Some z) s = Ok (head l2, s).
Proof.
  intros H. destruct (place_in s z l1 l2 H) as (k & c & a & b & Hk & _ & ->). pose proof (h_tree _ _ _ Hk) as (Hz & _ & _). unfold successor. eapply bind_ok; [by apply right_ok |]. cbn beta. cbn [m_right].
  destruct (tree_empty b) as [-> | (x & Ex & Hne & Hne')].
  - cbn [rootOf inorder app]. eapply bind_ok; [by apply parent_ok |]. cbn beta. cbn [m_parent]. eapply bind_ok; [done |]. cbn beta. pose proof (holds_depth _ _ _ Hk). apply (climbLoop_ok _ s RightSide k (T c a z Leaf)); [lia | done | done].
  - rewrite Ex. unfold treeMinimum. rewrite <- Ex. rewrite (extreme_ok s LeftSide (Frame RightSide c z a :: k) b); [| by apply holds_up | done]. by destruct (inorder b).
Qed.

Lemma predecessor_ok (s : Store) (z : positive) (l1 l2 : list positive) : treeOf s (l1 ++ z :: l2) -> predecessor (Some z) s = Ok (list.last l1, s).
Proof.
  intros H. destruct (place_in s z l1 l2 H) as (k & c & a & b & Hk & -> & _). pose proof (h_tree _ _ _ Hk) as (Hz & _ & _). unfold predecessor. eapply bind_ok; [by apply left_ok |]. cbn beta. cbn [m_left].
  destruct (tree_empty a) as [-> | (x & Ex & Hne & Hne')].
  - cbn [rootOf inorder]. rewrite app_nil_r. eapply bind_ok; [by apply parent_ok |]. cbn beta. cbn [m_parent]. eapply bind_ok; [done |]. cbn beta. pose proof (holds_depth _ _ _ Hk). apply (climbLoop_ok _ s LeftSide k (T c Leaf z b)); [lia | done | done].
  - rewrite Ex. unfold treeMaximum. rewrite <- Ex. rewrite (extreme_ok s RightSide (Frame LeftSide c z b :: k) a); [| by apply holds_up | done]. f_equal. f_equal. rewrite last_app. destruct (list.last (inorder a)) eqn:E; [done |]. by apply last_None in E.
Qed.

Lemma storeRoot_ok (s : Store) (t : tree) : holds s [] t -> root s = Ok (rootOf t, s).
Proof. intros H. unfold root. by rewrite (h_root _ _ _ H). Qed.

Lemma first_ok (s : Store) (l : list positive) : treeOf s l -> first s = Ok (head l, s).
Proof.
  intros (t & H & _ & <-). unfold first. eapply bind_ok; [by apply storeRoot_ok |]. cbn beta. destruct (tree_empty t) as [-> | (x & Ex & Hne & _)]; [done |]. rewrite Ex. unfold treeMinimum. rewrite <- Ex. by apply (extreme_ok s LeftSide []).
Qed.

Lemma last_ok (s : Store) (l : list positive) : treeOf s l -> last s = Ok (list.last l, s).
Proof.
  intros (t & H & _ & <-). unfold last. eapply bind_ok; [by apply storeRoot_ok |]. cbn beta. destruct (tree_empty t) as [-> | (x & Ex & Hne & _)]; [done |]. rewrite Ex. unfold treeMaximum. rewrite <- Ex. by apply (extreme_ok s RightSide []).
Qed.

Lemma isEmpty_ok (s : Store) (l : list positive) : treeOf s l -> isEmpty s = Ok (bool_decide (l = []), s).
Proof.
  intros (t & H & _ & <-). unfold isEmpty. eapply bind_ok; [by apply storeRoot_ok |]. cbn beta. unfold mret, Prog_ret. f_equal. f_equal. destruct (tree_empty t) as [-> | (x & Ex & _ & Hne)]; [done |]. rewrite Ex, !bool_decide_eq_false_2; done.
Qed.

Lemma sizeLoop_ok (fuel : nat) (s : Store) (l1 l2 : list positive) (n : nat) : (length l2 < fuel)%nat -> treeOf s (l1 ++ l2) -> sizeLoop fuel (head l2) n s = Ok ((n + length l2)%nat, s).
Proof.
  revert l1 l2 n. induction fuel as [| fuel IH]; intros l1 l2 n Hl H; [lia |]. destruct l2 as [| z l2]; cbn [head sizeLoop length]; [by rewrite Nat.add_0_r |]. eapply bind_ok; [by eapply successor_ok |]. cbn beta.
  cbn [length] in Hl. rewrite (IH (l1 ++ [z]) l2); [do 2 f_equal; lia | lia | by rewrite <- app_assoc].
Qed.

Lemma treeOf_length (s : Store) (l : list positive) : treeOf s l -> (length l <= base.size (s_nodes s))%nat.
Proof. intros (t & H & _ & <-). pose proof (holds_size _ _ _ H). lia. Qed.

Lemma size_ok (s : Store) (l : list positive) : treeOf s l -> size s = Ok (length l, s).
Proof.
  intros H. pose proof (treeOf_length s l H). unfold size. eapply bind_ok; [by apply first_ok |]. cbn beta. eapply bind_ok; [done |]. cbn beta. apply (sizeLoop_ok _ s [] l 0); [lia | done].
Qed.

(** ** Searching by key *)

Section Find.
Context {KeyType : Type} (lt eq gt : KeyType -> KeyType -> bool) `{HK : !KeyOrder lt eq gt} (key : positive -> KeyType).

(** What a search may answer: the best of the nodes that qualify, or [default] when none
    does. *)
Definition bestOf (ok : positive -> bool) (better : positive -> positive -> bool) (l : list positive) (default r : Ptr) : Prop :=
  (r = default /\ Forall (fun b => ok b = false) l) \/
  (exists a, r = Some a /\ a ∈ l /\ ok a = true /\ Forall (fun b => ok b = true -> better b a = false) l).

Definition exactly (k : KeyType) (a : positive) : bool := eq (key a) k.
Definition atLeast (k : KeyType) (a : positive) : bool := negb (lt (key a) k).
Definition atMost (k : KeyType) (a : positive) : bool := negb (lt k (key a)).
Definition none (a b : positive) : bool := false.
Definition smaller (a b : positive) : bool := lt (key a) (key b).
Definition larger (a b : positive) : bool := lt (key b) (key a).

Lemma eq_less (x y : KeyType) : eq x y = false -> lt x y = true \/ lt y x = true.
Proof using HK. intros H. destruct (lt x y) eqn:E1; [by left |]. destruct (lt y x) eqn:E2; [by right |]. assert (E : eq x y = true) by by apply key_eq. congruence. Qed.

(** The two sides of a node in a sorted subtree. *)
Lemma sorted_node (c : Color) (l r : tree) (a : positive) : sortedKeys lt key (inorder (T c l a r)) ->
  sortedKeys lt key (inorder l) /\ sortedKeys lt key (inorder r) /\ Forall (fun b => lt (key a) (key b) = false) (inorder l) /\ Forall (fun b => lt (key b) (key a) = false) (inorder r).
Proof.
  cbn [inorder]. intros H. apply (sortedKeys_app lt key) in H as (H1 & [H2 H3] & H4). split; [done |]. split; [done |]. split; [| done].
  eapply list.Forall_impl; [exact H4 |]. intros b Hb. by apply list.Forall_cons in Hb as [Hb _].
Qed.

(** One step of a search: the answer is on one side, or the node itself, with the answer of
    that side before it. *)
Lemma bestOf_side (ok : positive -> bool) (better : positive -> positive -> bool) (side rest : list positive) (a : positive) (l : list positive) (default r : Ptr) :
  (forall b, b ∈ l <-> b = a \/ b ∈ side \/ b ∈ rest) -> ok a = false -> Forall (fun b => ok b = false) rest -> bestOf ok better side default r -> bestOf ok better l default r.
Proof.
  intros Hl Ha Hr H. assert (F : forall P : positive -> Prop, P a -> Forall P side -> Forall P rest -> Forall P l).
  { intros P P1 P2 P3. rewrite list.Forall_forall in *. intros b Hb. apply Hl in Hb as [-> | [Hb | Hb]]; auto. }
  destruct H as [[-> H] | (b & -> & Hb & Hok & H)]; [left; split; [done | by apply F] |]. right. exists b. split; [done |]. split; [apply Hl; by right; left |]. split; [done |].
  apply F; [congruence | done |]. eapply list.Forall_impl; [exact Hr |]. intros x Hx Hx'. cbn beta in Hx. congruence.
Qed.

Lemma bestOf_here (ok : positive -> bool) (better : positive -> positive -> bool) (side rest : list positive) (a : positive) (l : list positive) (default r : Ptr) :
  (forall b, b ∈ l <-> b = a \/ b ∈ side \/ b ∈ rest) -> ok a = true -> better a a = false -> (forall b x, b ∈ side -> x = a \/ x ∈ rest -> better x b = false) -> Forall (fun x => better x a = false) rest -> bestOf ok better side (Some a) r -> bestOf ok better l default r.
Proof.
  intros Hl Ha Haa Hs Hr H. right. rewrite list.Forall_forall in Hr. destruct H as [[-> H] | (b & -> & Hb & Hok & H)]; rewrite list.Forall_forall in H.
  - exists a. split; [done |]. split; [apply Hl; by left |]. split; [done |]. apply list.Forall_forall. intros x Hx. apply Hl in Hx as [-> | [Hx | Hx]]; [done | rewrite H; done | intros _; by apply Hr].
  - exists b. split; [done |]. split; [apply Hl; by right; left |]. split; [done |]. apply list.Forall_forall. intros x Hx. apply Hl in Hx as [-> | [Hx | Hx]]; [intros _; apply Hs; auto | by apply H | intros _; apply Hs; auto].
Qed.

Lemma members_node (c : Color) (l r : tree) (a b : positive) : b ∈ inorder (T c l a r) <-> b = a \/ b ∈ inorder l \/ b ∈ inorder r.
Proof. cbn [inorder]. rewrite elem_of_app, elem_of_cons. tauto. Qed.

Lemma members_node' (c : Color) (l r : tree) (a b : positive) : b ∈ inorder (T c l a r) <-> b = a \/ b ∈ inorder r \/ b ∈ inorder l.
Proof. rewrite members_node. tauto. Qed.

Lemma depth_node (c : Color) (l r : tree) (a : positive) (fuel : nat) : (height (T c l a r) < S fuel)%nat -> (height l < fuel)%nat /\ (height r < fuel)%nat.
Proof. cbn [height]. lia. Qed.

Lemma findExactLoop_ok (fuel : nat) (s : Store) (k : KeyType) (p : Ptr) (t : tree) : (height t < fuel)%nat -> rep (s_nodes s) p t -> sortedKeys lt key (inorder t) ->
  runs (findExactLoop lt eq key fuel k (rootOf t)) s (fun r s' => s' = s /\ bestOf (exactly k) none (inorder t) None r).
Proof using HK.
  revert p t. induction fuel as [| fuel IH]; intros p t Hl Hrep Hs; [lia |]. destruct t as [| c l a r]; cbn [rootOf findExactLoop].
  { apply runs_ret. split; [done |]. left. split; [done | constructor]. }
  destruct Hrep as (Ha & Hrl & Hrr). destruct (sorted_node c l r a Hs) as (Sl & Sr & Fl & Fr). apply depth_node in Hl as [Ll Lr]. destruct (eq (key a) k) eqn:E.
  - apply runs_ret. split; [done |]. right. exists a. split; [done |]. split; [apply members_node; by left |]. split; [done |]. apply list.Forall_forall. done.
  - destruct (lt k (key a)) eqn:E2.
    + read (left_ok _ _ _ Ha). cbn [m_left]. eapply runs_mono; [by eapply IH |]. intros x s' [-> H]. split; [done |]. eapply bestOf_side; [apply members_node | exact E | | exact H].
      eapply list.Forall_impl; [exact Fr |]. intros b Hb. cbn beta in Hb. unfold exactly. destruct (eq (key b) k) eqn:Eb; [| done]. apply key_eq in Eb as [_ Eb]. rewrite (less_trans lt eq gt k (key a) (key b)) in Eb; done.
    + read (right_ok _ _ _ Ha). cbn [m_right]. eapply runs_mono; [by eapply IH |]. intros x s' [-> H]. split; [done |]. eapply bestOf_side; [apply members_node' | exact E | | exact H].
      eapply list.Forall_impl; [exact Fl |]. intros b Hb. cbn beta in Hb. unfold exactly. destruct (eq (key b) k) eqn:Eb; [| done]. apply key_eq in Eb as [Eb _]. destruct (eq_less _ _ E) as [E3 | E3]; [| congruence].
      rewrite (key_trans k (key b) (key a)) in E3; [done | done | done].
Qed.

Lemma findLeastLoop_ok (fuel : nat) (s : Store) (k : KeyType) (p best : Ptr) (t : tree) : (height t < fuel)%nat -> rep (s_nodes s) p t -> sortedKeys lt key (inorder t) ->
  runs (findLeastLoop lt eq key fuel k best (rootOf t)) s (fun r s' => s' = s /\ bestOf (atLeast k) smaller (inorder t) best r).
Proof using HK.
  revert p best t. induction fuel as [| fuel IH]; intros p best t Hl Hrep Hs; [lia |]. destruct t as [| c l a r]; cbn [rootOf findLeastLoop].
  { apply runs_ret. split; [done |]. left. split; [done | constructor]. }
  destruct Hrep as (Ha & Hrl & Hrr). destruct (sorted_node c l r a Hs) as (Sl & Sr & Fl & Fr). apply depth_node in Hl as [Ll Lr]. destruct (eq (key a) k) eqn:E.
  - apply runs_ret. split; [done |]. apply key_eq in E as [E1 E2]. right. exists a. split; [done |]. split; [apply members_node; by left |]. unfold atLeast, smaller. split; [by rewrite E1 |].
    apply list.Forall_forall. intros b _ Hb. apply negb_true_iff in Hb. by eapply key_trans.
  - destruct (lt (key a) k) eqn:E2.
    + read (right_ok _ _ _ Ha). cbn [m_right]. eapply runs_mono; [by eapply IH |]. intros x s' [-> H]. split; [done |]. eapply bestOf_side; [apply members_node' | unfold atLeast; by rewrite E2 | | exact H].
      eapply list.Forall_impl; [exact Fl |]. intros b Hb. cbn beta in Hb. unfold atLeast. destruct (lt (key b) k) eqn:Eb; [done |]. rewrite (key_trans k (key b) (key a)) in E2; done.
    + read (left_ok _ _ _ Ha). cbn [m_left]. eapply runs_mono; [by eapply IH |]. intros x s' [-> H]. split; [done |]. eapply bestOf_here; [apply members_node | unfold atLeast; by rewrite E2 | unfold smaller; destruct (lt (key a) (key a)) eqn:Eaa; [by rewrite (key_asym _ _ Eaa) in Eaa | done] | | | exact H].
      * intros b y Hb Hy. rewrite list.Forall_forall in Fl, Fr. unfold smaller. destruct Hy as [-> | Hy]; [by apply Fl |]. apply (key_trans _ (key a)); [by apply Fl | by apply Fr].
      * exact Fr.
Qed.

Lemma findGreatestLoop_ok (fuel : nat) (s : Store) (k : KeyType) (p best : Ptr) (t : tree) : (height t < fuel)%nat -> rep (s_nodes s) p t -> sortedKeys lt key (inorder t) ->
  runs (findGreatestLoop eq gt key fuel k best (rootOf t)) s (fun r s' => s' = s /\ bestOf (atMost k) larger (inorder t) best r).
Proof using HK.
  revert p best t. induction fuel as [| fuel IH]; intros p best t Hl Hrep Hs; [lia |]. destruct t as [| c l a r]; cbn [rootOf findGreatestLoop].
  { apply runs_ret. split; [done |]. left. split; [done | constructor]. }
  destruct Hrep as (Ha & Hrl & Hrr). destruct (sorted_node c l r a Hs) as (Sl & Sr & Fl & Fr). apply depth_node in Hl as [Ll Lr]. destruct (eq (key a) k) eqn:E.
  - apply runs_ret. split; [done |]. apply key_eq in E as [E1 E2]. right. exists a. split; [done |]. split; [apply members_node; by left |]. unfold atMost, larger. split; [by rewrite E2 |].
    apply list.Forall_forall. intros b _ Hb. apply negb_true_iff in Hb. by eapply key_trans.
  - rewrite key_gt. destruct (lt k (key a)) eqn:E2.
    + read (left_ok _ _ _ Ha). cbn [m_left]. eapply runs_mono; [by eapply IH |]. intros x s' [-> H]. split; [done |]. eapply bestOf_side; [apply members_node | unfold atMost; by rewrite E2 | | exact H].
      eapply list.Forall_impl; [exact Fr |]. intros b Hb. cbn beta in Hb. unfold atMost. destruct (lt k (key b)) eqn:Eb; [done |]. rewrite (key_trans (key a) (key b) k) in E2; done.
    + read (right_ok _ _ _ Ha). cbn [m_right]. eapply runs_mono; [by eapply IH |]. intros x s' [-> H]. split; [done |]. eapply bestOf_here; [apply members_node' | unfold atMost; by rewrite E2 | unfold larger; destruct (lt (key a) (key a)) eqn:Eaa; [by rewrite (key_asym _ _ Eaa) in Eaa | done] | | | exact H].
      * intros b y Hb Hy. rewrite list.Forall_forall in Fl, Fr. unfold larger. destruct Hy as [-> | Hy]; [by apply Fr |]. apply (key_trans _ (key a)); [by apply Fl | by apply Fr].
      * exact Fl.
Qed.

(** The searches from the root. *)
Section Root.
Context (s : Store) (l : list positive) (H : treeOf s l) (Hs : sortedKeys lt key l) (k : KeyType).

Lemma findExact_ok : runs (findExact lt eq key k) s (fun r s' => s' = s /\ bestOf (exactly k) none l None r).
Proof using HK H Hs.
  destruct H as (t & Ht & _ & <-). pose proof (holds_size _ _ _ Ht). pose proof (height_length t). unfold findExact. eapply runs_call; [by apply storeRoot_ok |]. cbn beta. eapply runs_call; [done |]. cbn beta. eapply findExactLoop_ok; [lia | apply Ht | done].
Qed.

Lemma findLeast_ok : runs (findLeastGreaterThanOrEqual lt eq key k) s (fun r s' => s' = s /\ bestOf (atLeast k) smaller l None r).
Proof using HK H Hs.
  destruct H as (t & Ht & _ & <-). pose proof (holds_size _ _ _ Ht). pose proof (height_length t). unfold findLeastGreaterThanOrEqual. eapply runs_call; [by apply storeRoot_ok |]. cbn beta. eapply runs_call; [done |]. cbn beta. eapply findLeastLoop_ok; [lia | apply Ht | done].
Qed.

Lemma findGreatest_ok : runs (findGreatestLessThanOrEqual eq gt key k) s (fun r s' => s' = s /\ bestOf (atMost k) larger l None r).
Proof using HK H Hs.
  destruct H as (t & Ht & _ & <-). pose proof (holds_size _ _ _ Ht). pose proof (height_length t). unfold findGreatestLessThanOrEqual. eapply runs_call; [by apply storeRoot_ok |]. cbn beta. eapply runs_call; [done |]. cbn beta. eapply findGreatestLoop_ok; [lia | apply Ht | done].
Qed.
End Root.
End Find.

(** ** No program makes or frees a node *)

Definition keeps {A} (p : Prog A) : Prop := forall s a s', p s = Ok (a, s') -> dom (s_nodes s') = dom (s_nodes s).

Create HintDb keeps.

Lemma keeps_ret {A} (a : A) : keeps (mret a).
Proof. by intros s b s' [= _ <-]. Qed.

Lemma keeps_bind {A B} (p : Prog A) (f : A -> Prog B) : keeps p -> (forall a, keeps (f a)) -> keeps (p ≫= f).
Proof. intros Hp Hf s b s' H. unfold mbind, Prog_bind in H. destruct (p s) as [[a s1] | |] eqn:E; [| done | done]. rewrite (Hf a s1 b s' H). by eapply Hp. Qed.

Lemma keeps_assert (b : bool) : keeps (assert b).
Proof. intros s a s' H. unfold assert in H. destruct b; [by injection H as _ <- | done]. Qed.

Lemma keeps_diverge {A} : keeps (@diverge A).
Proof. done. Qed.

Lemma keeps_enough : keeps enough.
Proof. by intros s a s' [= _ <-]. Qed.

Lemma keeps_root : keeps root.
Proof. by intros s a s' [= _ <-]. Qed.

Lemma keeps_setRoot (p : Ptr) : keeps (setRoot p).
Proof. by intros s a s' [= _ <-]. Qed.

Lemma keeps_deref (p : Ptr) : keeps (deref p).
Proof. intros s n s' H. unfold deref in H. destruct p as [a |]; [| done]. destruct (s_nodes s !! a); [by injection H as _ <- | done]. Qed.

(** A setter reads the node before it writes it. *)
Lemma keeps_update (p : Ptr) (f : Node -> Node) : keeps (n ← deref p; store p (f n)).
Proof.
  intros s a s' H. unfold mbind, Prog_bind, deref, store in H. destruct p as [b |]; [| done]. destruct (s_nodes s !! b) as [n |] eqn:E; [| done]. injection H as _ <-. cbn [s_nodes]. rewrite dom_insert_lookup_L; [done | by eexists].
Qed.
#[export] Hint Resolve keeps_ret keeps_assert keeps_diverge keeps_enough keeps_root keeps_setRoot keeps_deref : keeps.

(** Goes through a program. *)
Ltac keep :=
  repeat first
    [ solve [eauto with keeps nocore]
    | match goal with
      | |- keeps (deref ?p ≫= fun n => store ?p (@?f n)) => apply (keeps_update p f)
      | |- keeps (_ ≫= _) => apply keeps_bind; [| intros ?]
      | |- keeps (if ?b then _ else _) => destruct b
      | |- keeps (match ?x with _ => _ end) => destruct x
      end ].

Lemma keeps_read (p : Ptr) : keeps (left p) /\ keeps (right p) /\ keeps (parent p) /\ keeps (color p).
Proof. unfold left, right, parent, color. repeat split; keep. Qed.

Lemma keeps_write (p v : Ptr) (c : Color) : keeps (setLeft p v) /\ keeps (setRight p v) /\ keeps (setParent p v) /\ keeps (setColor p c) /\ keeps (reset p).
Proof. unfold setLeft, setRight, setParent, setColor, reset. repeat split; keep. Qed.

Lemma keeps_left p : keeps (left p).
Proof. apply keeps_read. Qed.

Lemma keeps_right p : keeps (right p).
Proof. apply keeps_read. Qed.

Lemma keeps_parent p : keeps (parent p).
Proof. apply keeps_read. Qed.

Lemma keeps_color p : keeps (color p).
Proof. apply keeps_read. Qed.

Lemma keeps_setLeft p v : keeps (setLeft p v).
Proof. apply (keeps_write p v Red). Qed.

Lemma keeps_setRight p v : keeps (setRight p v).
Proof. apply (keeps_write p v Red). Qed.

Lemma keeps_setParent p v : keeps (setParent p v).
Proof. apply (keeps_write p v Red). Qed.

Lemma keeps_setColor p c : keeps (setColor p c).
Proof. apply (keeps_write p None c). Qed.

Lemma keeps_reset p : keeps (reset p).
Proof. apply (keeps_write p None Red). Qed.
#[export] Hint Resolve keeps_left keeps_right keeps_parent keeps_color keeps_setLeft keeps_setRight keeps_setParent keeps_setColor keeps_reset : keeps.

Lemma keeps_child d p : keeps (child d p).
Proof. destruct d; cbn [child]; keep. Qed.

Lemma keeps_nullOrBlack p : keeps (nullOrBlack p).
Proof. unfold nullOrBlack. keep. Qed.

Lemma keeps_ifNode p f : keeps f -> keeps (ifNode p f).
Proof. intros H. unfold ifNode. keep. Qed.

Lemma keeps_replaceChild p x y : keeps (replaceChild p x y).
Proof. unfold replaceChild. keep. Qed.
#[export] Hint Resolve keeps_child keeps_nullOrBlack keeps_ifNode keeps_replaceChild : keeps.

Lemma keeps_relink p x y : keeps (relink p x y).
Proof. unfold relink. keep. Qed.
#[export] Hint Resolve keeps_relink : keeps.

Lemma keeps_rotate d x : keeps (rotate d x).
Proof. destruct d; cbn [rotate]; unfold leftRotate, rightRotate; keep. Qed.

Lemma keeps_extremeLoop d fuel x : keeps (extremeLoop d fuel x).
Proof. revert x. induction fuel as [| fuel IH]; intros x; cbn [extremeLoop]; keep. Qed.

Lemma keeps_climbLoop d fuel x y : keeps (climbLoop d fuel x y).
Proof. revert x y. induction fuel as [| fuel IH]; intros x y; cbn [climbLoop]; keep. Qed.
#[export] Hint Resolve keeps_rotate keeps_extremeLoop keeps_climbLoop : keeps.

Lemma keeps_successor x : keeps (successor x).
Proof. unfold successor, treeMinimum. keep. Qed.

Lemma keeps_insertCase d x : keeps (insertCase d x).
Proof. unfold insertCase, insertCase3. keep. Qed.
#[export] Hint Resolve keeps_successor keeps_insertCase : keeps.

Lemma keeps_insertLoop fuel x : keeps (insertLoop fuel x).
Proof. revert x. induction fuel as [| fuel IH]; intros x; cbn [insertLoop]; keep. Qed.

Lemma keeps_removeCase d x q : keeps (removeCase d x q).
Proof. unfold removeCase, removeCase1, removeCase3, removeCase4. keep. Qed.
#[export] Hint Resolve keeps_insertLoop keeps_removeCase : keeps.

Lemma keeps_removeFixupLoop fuel x q : keeps (removeFixupLoop fuel x q).
Proof. revert x q. induction fuel as [| fuel IH]; intros x q; cbn [removeFixupLoop]; keep. Qed.
#[export] Hint Resolve keeps_removeFixupLoop : keeps.

Lemma keeps_remove z : keeps (remove z).
Proof. unfold remove, unlink, removeFixup, replaceNode. keep. Qed.

Lemma keeps_insertDescend {K} (lt : K -> K -> bool) key fuel z y x : keeps (insertDescend lt key fuel z y x).
Proof. revert y x. induction fuel as [| fuel IH]; intros y x; cbn [insertDescend]; keep. Qed.
#[export] Hint Resolve keeps_remove keeps_insertDescend : keeps.

Lemma keeps_insert {K} (lt : K -> K -> bool) key x : keeps (insert lt key x).
Proof. unfold insert, treeInsert. keep. Qed.

(** ** Sequences of operations *)

Section Operations.
Context {KeyType : Type} (lt eq gt : KeyType -> KeyType -> bool) `{HK : !KeyOrder lt eq gt} (key : positive -> KeyType).

Inductive Op := Insert (x : positive) | Remove (z : positive).

Definition exec (op : Op) : Prog unit := match op with Insert x => insert lt key x | Remove z => _ ← remove z; mret () end.
Fixpoint execAll (ops : list Op) : Prog unit := match ops with [] => mret () | op :: ops => _ ← exec op; execAll ops end.

(** The specification: a list of nodes that is sorted by their keys. *)
Definition removeNode (z : positive) (l : list positive) : list positive := filter (fun b => b <> z) l.
Definition specify (l : list positive) (op : Op) : list positive := match op with Insert x => insertSorted lt key x l | Remove z => removeNode z l end.
Definition allowed (nodes : gset positive) (l : list positive) (op : Op) : Prop := match op with Insert x => x ∈ nodes /\ x ∉ l | Remove z => z ∈ l end.
Fixpoint allAllowed (nodes : gset positive) (l : list positive) (ops : list Op) : Prop :=
  match ops with [] => True | op :: ops => allowed nodes l op /\ allAllowed nodes (specify l op) ops end.

#[export] Instance allowed_dec (nodes : gset positive) (l : list positive) (op : Op) : Decision (allowed nodes l op).
Proof. destruct op; cbn [allowed]; apply _. Defined.
#[export] Instance allAllowed_dec (nodes : gset positive) (ops : list Op) : forall l, Decision (allAllowed nodes l ops).
Proof. induction ops as [| op ops IH]; intros l; cbn [allAllowed]; apply _. Defined.

Lemma removeNode_at (z : positive) (l1 l2 : list positive) : NoDup (l1 ++ z :: l2) -> removeNode z (l1 ++ z :: l2) = l1 ++ l2.
Proof.
  intros H. assert (F : forall l, z ∉ l -> removeNode z l = l).
  { induction l as [| b l IH]; intros Hb; [done |]. rewrite not_elem_of_cons in Hb. destruct Hb as [Hb1 Hb2]. unfold removeNode in *. rewrite filter_cons_True by congruence. by rewrite IH. }
  apply list.NoDup_app in H as (_ & H1 & H2). apply list.NoDup_cons in H2 as [H2 _]. unfold removeNode in *. rewrite list.filter_app, filter_cons_False by (intros Hz; by apply Hz). rewrite !F; [done | done |]. intros Hz. apply (H1 z Hz). by left.
Qed.

Lemma sorted_insertSorted (z : positive) (l : list positive) : sortedKeys lt key l -> sortedKeys lt key (insertSorted lt key z l).
Proof using HK.
  induction l as [| b l IH]; [by cbn |]. intros [H1 H2]. cbn [insertSorted]. destruct (lt (key z) (key b)) eqn:E.
  - split; [| by split]. constructor; [by apply (key_asym (lt := lt)) |]. eapply list.Forall_impl; [exact H1 |]. intros x Hx. cbn beta in Hx. apply (key_trans (key z) (key b)); [by apply (key_asym (lt := lt)) | done].
  - split; [| by apply IH]. clear IH H2. induction H1 as [| x l Hx H1 IH]; cbn [insertSorted]; [by constructor |]. destruct (lt (key z) (key x)); [by constructor; [| constructor] | by constructor].
Qed.

Lemma sorted_removeNode (z : positive) (l : list positive) : sortedKeys lt key l -> sortedKeys lt key (removeNode z l).
Proof.
  induction l as [| b l IH]; [done |]. intros [H1 H2]. unfold removeNode. destruct (decide (b = z)) as [-> | N]; [rewrite filter_cons_False by (intros Hz; by apply Hz); by apply IH |]. rewrite filter_cons_True by done. split; [| by apply IH].
  rewrite list.Forall_forall in *. intros x Hx. apply list_elem_of_filter in Hx as [_ Hx]. by apply H1.
Qed.

Lemma treeOf_unique (s : Store) (l : list positive) : treeOf s l -> NoDup l.
Proof. intros (t & H & _ & <-). pose proof (h_unique _ _ _ H) as Hu. cbn [members] in Hu. by rewrite app_nil_r in Hu. Qed.

Lemma exec_ok (s : Store) (l : list positive) (op : Op) : treeOf s l -> sortedKeys lt key l -> allowed (dom (s_nodes s)) l op ->
  exists s', exec op s = Ok ((), s') /\ treeOf s' (specify l op) /\ sortedKeys lt key (specify l op) /\ dom (s_nodes s') = dom (s_nodes s) /\
    elsewhere (match op with Insert x => x :: l | Remove _ => l end) s s'.
Proof using HK.
  intros Ht Hs Ha. destruct op as [x | z]; cbn [exec specify allowed] in *.
  - destruct Ha as [Hd Hx]. destruct (insert_ok lt eq gt key s x l Ht Hs Hx Hd) as ([] & s' & E & H & Ho). exists s'. split; [done |]. split; [done |]. split; [by apply sorted_insertSorted |]. split; [by eapply keeps_insert | done].
  - apply list_elem_of_split in Ha as (l1 & l2 & ->). destruct (remove_ok s z l1 l2 Ht) as (r & s' & E & _ & H & Ho). exists s'. split; [unfold mbind, Prog_bind; by rewrite E |].
    rewrite removeNode_at by by eapply treeOf_unique. split; [done |]. split; [rewrite <- (removeNode_at z) by (by eapply treeOf_unique); by apply sorted_removeNode |]. split; [by eapply keeps_remove | done].
Qed.

Lemma insertSorted_members (z b : positive) (l : list positive) : b ∈ insertSorted lt key z l -> b = z \/ b ∈ l.
Proof.
  induction l as [| x l IH]; cbn [insertSorted]; [rewrite list_elem_of_singleton; tauto |]. destruct (lt (key z) (key x)); [rewrite elem_of_cons; tauto |]. rewrite !elem_of_cons. tauto.
Qed.

Lemma execAll_ok (ops : list Op) (s : Store) (l : list positive) : treeOf s l -> sortedKeys lt key l -> allAllowed (dom (s_nodes s)) l ops ->
  exists s', execAll ops s = Ok ((), s') /\ treeOf s' (foldl specify l ops) /\ sortedKeys lt key (foldl specify l ops) /\
    (forall b, b ∉ l -> Insert b ∉ ops -> s_nodes s' !! b = s_nodes s !! b).
Proof using HK.
  revert s l. induction ops as [| op ops IH]; intros s l Ht Hs Ha; [by exists s |]. destruct Ha as [Ha1 Ha2]. destruct (exec_ok s l op Ht Hs Ha1) as (s1 & E1 & Ht1 & Hs1 & Hd1 & Ho1). rewrite <- Hd1 in Ha2.
  destruct (IH s1 _ Ht1 Hs1 Ha2) as (s' & E & Ht' & Hs' & Ho). exists s'. cbn [execAll]. split; [unfold mbind, Prog_bind; by rewrite E1 |]. split; [done |]. split; [done |].
  intros b Hb Hi. rewrite not_elem_of_cons in Hi. destruct Hi as [Hi1 Hi2]. rewrite Ho; [| | done].
  - apply Ho1. destruct op as [x | z]; [| done]. rewrite not_elem_of_cons. split; [congruence | done].
  - destruct op as [x | z]; cbn [specify]; [intros Hm; apply insertSorted_members in Hm as [-> | Hm]; [by apply Hi1 | by apply Hb] | intros Hm; apply list_elem_of_filter in Hm as [_ Hm]; by apply Hb].
Qed.
End Operations.

(** ** Height *)

Lemma valid_height (n : nat) (t : tree) : valid n t -> (height t <= 2 * n + if blackRoot t then 0 else 1)%nat.
Proof.
  revert n. induction t as [| [] l IHl a r IHr]; intros n H; cbn [valid height blackRoot] in *; [lia | |].
  - destruct H as (B1 & B2 & V1 & V2). specialize (IHl n V1). specialize (IHr n V2). rewrite B1 in IHl. rewrite B2 in IHr. rewrite bool_decide_eq_false_2 by done. lia.
  - destruct H as (m & -> & V1 & V2). specialize (IHl m V1). specialize (IHr m V2). rewrite bool_decide_eq_true_2 by done. destruct (blackRoot l), (blackRoot r); lia.
Qed.

Lemma valid_size (n : nat) (t : tree) : valid n t -> (2 ^ n <= S (length (inorder t)))%nat.
Proof.
  revert n. induction t as [| [] l IHl a r IHr]; intros n H; cbn [valid inorder] in *; [subst; cbn; lia | |]; rewrite length_app; cbn [length].
  - destruct H as (_ & _ & V1 & V2). specialize (IHl n V1). lia.
  - destruct H as (m & -> & V1 & V2). specialize (IHl m V1). specialize (IHr m V2). cbn [Nat.pow]. lia.
Qed.

Lemma balanced_height (t : tree) : balanced t -> (height t <= 2 * Nat.log2 (S (length (inorder t))))%nat.
Proof.
  intros [Hb [n Hv]]. pose proof (valid_height n t Hv) as H1. rewrite Hb in H1. pose proof (valid_size n t Hv) as H2. apply Nat.log2_le_mono in H2. rewrite Nat.log2_pow2 in H2 by lia. lia.
Qed.

Lemma removeKey_ok {KeyType : Type} (lt eq gt : KeyType -> KeyType -> bool) `{HK : !KeyOrder lt eq gt} (key : positive -> KeyType) (s : Store) (l : list positive) (k : KeyType) : treeOf s l -> sortedKeys lt key l ->
  runs (removeKey lt eq key k) s (fun r s' => (r = None /\ s' = s /\ Forall (fun b => eq (key b) k = false) l) \/ exists z, r = Some z /\ z ∈ l /\ eq (key z) k = true /\ treeOf s' (removeNode z l)).
Proof.
  intros Ht Hs. unfold removeKey. eapply runs_bind; [by eapply findExact_ok |]. intros r s' [-> [[-> H] | (z & -> & Hz & Hk & _)]]; [apply runs_ret; by left |].
  pose proof Hz as Hz'. apply list_elem_of_split in Hz' as (l1 & l2 & ->). eapply runs_mono; [by apply remove_ok |]. intros r s' (-> & H & _). right. exists z. split; [done |]. split; [done |]. split; [done |].
  by rewrite removeNode_at by by eapply treeOf_unique.
Qed.

(** ** The theorems *)

(** C13: From an empty tree and any store of nodes, any sequence of insertions of nodes that are
    not in the tree and removals of nodes that are returns, dereferences no null pointer and
    passes its assertions; the tree then has the nodes of the same sequence on a sorted list,
    where insert puts a node behind those whose keys are not greater, in that order, with
    consistent child and parent pointers, and is balanced: its root is black, no red node has
    a red child, and all paths have as many black nodes.  Nodes that were never inserted are as
    they were. *)
Theorem tree_operations {KeyType : Type} (lt eq gt : KeyType -> KeyType -> bool) `{HK : !KeyOrder lt eq gt} (key : positive -> KeyType) (h : gmap positive Node) (ops : list Op) :
  allAllowed lt key (dom h) [] ops ->
  exists s', execAll lt key ops (mkStore h None) = Ok ((), s') /\ treeOf s' (foldl (specify lt key) [] ops) /\ sortedKeys lt key (foldl (specify lt key) [] ops) /\
    (forall b, Insert b ∉ ops -> s_nodes s' !! b = h !! b).
Proof.
  intros Ha. destruct (execAll_ok lt eq gt key ops (mkStore h None) []) as (s' & E & H1 & H2 & H3); [| done | done |].
  - exists Leaf. split; [by split; [| | | constructor] |]. split; [split; [done | by exists 0%nat] | done].
  - exists s'. split; [done |]. split; [done |]. split; [done |]. intros b Hb. apply H3; [apply not_elem_of_nil | done].
Qed.

#[export] Instance positiveKeys : KeyOrder Pos.ltb Pos.eqb (fun x y => Pos.ltb y x).
Proof. split; intros *; rewrite ?Pos.ltb_lt, ?Pos.ltb_ge, ?Pos.eqb_eq; try lia; done. Qed.

(** Fresh nodes. *)
Definition nodes (l : list positive) : gmap positive Node := list_to_map ((fun x => (x, mkNode None None None Black)) <$> l).

Lemma tree_operations_witness : exists s', execAll Pos.ltb id [Insert 5; Insert 3; Insert 8; Insert 1; Insert 4; Insert 7; Insert 9; Remove 5; Insert 2; Remove 1; Insert 5; Remove 8]%positive (mkStore (nodes [1; 2; 3; 4; 5; 6; 7; 8; 9]%positive) None) = Ok ((), s') /\
  treeOf s' [2; 3; 4; 5; 7; 9]%positive /\ s_nodes s' !! 6%positive = Some (mkNode None None None Black).
Proof.
  destruct (tree_operations Pos.ltb Pos.eqb (fun x y => Pos.ltb y x) id (nodes [1; 2; 3; 4; 5; 6; 7; 8; 9]%positive) [Insert 5; Insert 3; Insert 8; Insert 1; Insert 4; Insert 7; Insert 9; Remove 5; Insert 2; Remove 1; Insert 5; Remove 8]%positive) as (s' & E & H & _ & Ho).
  - apply (bool_decide_unpack _). vm_compute. exact I.
  - exists s'. split; [exact E |]. split; [exact H |]. apply Ho. intros Hi. repeat (apply elem_of_cons in Hi as [Hi | Hi]; [discriminate |]). by apply not_elem_of_nil in Hi.
Defined.

(** C14: Searching a tree of n nodes whose keys are sorted takes at most 2 log2 (n + 1) rounds and
    one more: with any fuel above that the three loops answer, and what they answer, like
    findExact, findLeastGreaterThanOrEqual and findGreatestLessThanOrEqual themselves, is a
    node with an equal key, with the least of the keys that are not less, with the greatest
    of those that are not greater, and null exactly when there is none; nothing is changed.
    remove by key removes such a node, or nothing. *)
Theorem tree_searches {KeyType : Type} (lt eq gt : KeyType -> KeyType -> bool) `{HK : !KeyOrder lt eq gt} (key : positive -> KeyType) (s : Store) (l : list positive) (k : KeyType) :
  treeOf s l -> sortedKeys lt key l ->
  (forall fuel, (2 * Nat.log2 (S (length l)) < fuel)%nat ->
    runs (r ← root; findExactLoop lt eq key fuel k r) s (fun r s' => s' = s /\ bestOf (exactly eq key k) none l None r) /\
    runs (r ← root; findLeastLoop lt eq key fuel k None r) s (fun r s' => s' = s /\ bestOf (atLeast lt key k) (smaller lt key) l None r) /\
    runs (r ← root; findGreatestLoop eq gt key fuel k None r) s (fun r s' => s' = s /\ bestOf (atMost lt key k) (larger lt key) l None r)) /\
  runs (findExact lt eq key k) s (fun r s' => s' = s /\ bestOf (exactly eq key k) none l None r) /\
  runs (findLeastGreaterThanOrEqual lt eq key k) s (fun r s' => s' = s /\ bestOf (atLeast lt key k) (smaller lt key) l None r) /\
  runs (findGreatestLessThanOrEqual eq gt key k) s (fun r s' => s' = s /\ bestOf (atMost lt key k) (larger lt key) l None r) /\
  runs (removeKey lt eq key k) s (fun r s' => (r = None /\ s' = s /\ Forall (fun b => eq (key b) k = false) l) \/ exists z, r = Some z /\ z ∈ l /\ eq (key z) k = true /\ treeOf s' (removeNode z l)).
Proof.
  intros Ht Hs. split; [| split; [by eapply findExact_ok |]; split; [by eapply findLeast_ok |]; split; [by eapply findGreatest_ok | by eapply removeKey_ok]].
  intros fuel Hf. destruct Ht as (t & Ht & HB & <-). pose proof (balanced_height t HB) as Hh. pose proof (h_tree _ _ _ Ht) as Hr.
  split; [| split]; (eapply runs_call; [by apply storeRoot_ok |]); [eapply findExactLoop_ok | eapply findLeastLoop_ok | eapply findGreatestLoop_ok]; eauto; lia.
Qed.

(** A tree of three nodes. *)
Definition sample : Store :=
  mkStore (list_to_map [(1, mkNode None None (Some 2) Red); (2, mkNode (Some 1) (Some 3) None Black); (3, mkNode None None (Some 2) Red)]%positive) (Some 2%positive).

Lemma sample_tree : treeOf sample [1; 2; 3]%positive.
Proof.
  exists (T Black (T Red Leaf 1%positive Leaf) 2%positive (T Red Leaf 3%positive Leaf)). split; [| split; [split; [done |] | done]].
  - split; [by repeat split | done | done | apply (bool_decide_unpack _); by vm_compute].
  - exists 1%nat, 0%nat. by repeat split.
Qed.

Lemma tree_searches_witness : sortedKeys Pos.ltb id [1; 2; 3]%positive /\ runs (findExact Pos.ltb Pos.eqb id 3%positive) sample (fun r s' => s' = sample /\ bestOf (exactly Pos.eqb id 3%positive) none [1; 2; 3]%positive None r) /\
  findExact Pos.ltb Pos.eqb id 3%positive sample = Ok (Some 3%positive, sample).
Proof.
  assert (Hs : sortedKeys Pos.ltb id [1; 2; 3]%positive) by by repeat constructor. split; [exact Hs |]. split; [| reflexivity].
  exact (proj1 (proj2 (tree_searches Pos.ltb Pos.eqb (fun x y => Pos.ltb y x) id sample [1; 2; 3]%positive 3%positive sample_tree Hs))).
Defined.

(** C15: Walking through a tree goes through the list of its nodes: first and last are its ends,
    successor and predecessor of a node its neighbours, null at the ends, whether they go
    down into a subtree or climb, and size counts them; none fails or changes the tree. *)
Theorem tree_walk (s : Store) (l : list positive) : treeOf s l ->
  first s = Ok (head l, s) /\ last s = Ok (list.last l, s) /\ isEmpty s = Ok (bool_decide (l = []), s) /\ size s = Ok (length l, s) /\
  (forall l1 z l2, l = l1 ++ z :: l2 -> successor (Some z) s = Ok (head l2, s) /\ predecessor (Some z) s = Ok (list.last l1, s)).
Proof.
  intros H. split; [by apply first_ok |]. split; [by apply last_ok |]. split; [by apply isEmpty_ok |]. split; [by apply size_ok |]. intros l1 z l2 ->. split; [by eapply successor_ok | by eapply predecessor_ok].
Qed.

Lemma tree_walk_witness : first sample = Ok (Some 1%positive, sample) /\ size sample = Ok (3%nat, sample) /\ successor (Some 2%positive) sample = Ok (Some 3%positive, sample).
Proof.
  destruct (tree_walk sample [1; 2; 3]%positive sample_tree) as (E1 & _ & _ & E2 & E3). split; [exact E1 |]. split; [exact E2 |]. exact (proj1 (E3 [1]%positive 2%positive [3]%positive eq_refl)).
Defined.
