(* ===== verification/WebSocketFrame.v ===== *)
(** * WebSocketFrame: frames of the WebSocket protocol

    Modules/websockets/WebSocketFrame.{h,cpp}.  A pointer to bytes is the list of the bytes
    from there on; an offset into the buffer is its place.  [None] is a failed assertion or an
    access outside of a buffer. *)

From S2P Require Import Prelude Digits TextCodec.

Definition finalBit : Z := 0x80.
Definition compressBit : Z := 0x40.
Definition reserved2Bit : Z := 0x20.
Definition reserved3Bit : Z := 0x10.
Definition opCodeMask : Z := 0xF.
Definition maskBit : Z := 0x80.
Definition payloadLengthMask : Z := 0x7F.
Definition maxPayloadLengthWithoutExtendedLengthField : Z := 125.
Definition payloadLengthWithTwoByteExtendedLengthField : Z := 126.
Definition payloadLengthWithEightByteExtendedLengthField : Z := 127.
Definition maskingKeyWidthInBytes : nat := 4.
Definition maxPayloadLength : Z := 0x7FFFFFFFFFFFFFFF.

(** enum OpCode *)
Definition OpCodeContinuation : Z := 0x0.
Definition OpCodeText : Z := 0x1.
Definition OpCodeBinary : Z := 0x2.
Definition OpCodeClose : Z := 0x8.
Definition OpCodePing : Z := 0x9.
Definition OpCodePong : Z := 0xA.
Definition OpCodeInvalid : Z := 0x10.

Definition isNonControlOpCode (opCode : Z) : bool := (opCode =? OpCodeContinuation) || (opCode =? OpCodeText) || (opCode =? OpCodeBinary).
Definition isControlOpCode (opCode : Z) : bool := (opCode =? OpCodeClose) || (opCode =? OpCodePing) || (opCode =? OpCodePong).
Definition isReservedOpCode (opCode : Z) : bool := negb (isNonControlOpCode opCode) && negb (isControlOpCode opCode).

Record WebSocketFrame := mkFrame {
  opCode : Z; final : bool; compress : bool; reserved2 : bool; reserved3 : bool; masked : bool; payload : list Z; payloadLength : Z }.

(** The constructor. *)
Definition newFrame (opCode : Z) (final compress masked : bool) (payload : list Z) (payloadLength : Z) : WebSocketFrame :=
  mkFrame opCode final compress false false masked payload payloadLength.

Definition needsExtendedLengthField (payloadLength : Z) : bool := maxPayloadLengthWithoutExtendedLengthField <? payloadLength.

(** ParseFrameResult with what parseFrame leaves in its arguments: the buffer, the frame and
    frameEnd, or errorString. *)
Inductive ParseFrameResult :=
  | FrameOK (data : list Z) (frame : WebSocketFrame) (frameEnd : nat)
  | FrameIncomplete
  | FrameError (errorString : list Z).

Definition bit (byte mask : Z) : bool := negb (Z.land byte mask =? 0).
Definition u64 (z : Z) : Z := z mod 2 ^ 64.

(** The loop that reads the extended length. *)
Fixpoint readLength (n : nat) (data : list Z) (p : nat) (length64 : Z) : option Z :=
  match n with O => Some length64 | S n' => c ← data !! p; readLength n' data (S p) (Z.lor (u64 (Z.shiftl length64 8)) c) end.

(** payload[i] ^= maskingKey[i % maskingKeyWidthInBytes] from [i] on *)
Fixpoint maskLoop (maskingKey : list Z) (i : nat) (s : list Z) : option (list Z) :=
  match s with
  | [] => Some []
  | c :: s' => k ← maskingKey !! (i mod maskingKeyWidthInBytes)%nat; s'' ← maskLoop maskingKey (S i) s'; Some (Z.lxor c k :: s'')
  end.

Definition notMinimal : list Z := units "The minimal number of bytes MUST be used to encode the length".
Definition tooLarge (length64 : Z) : list Z := units "WebSocket frame length too large: " ++ numberToString length64 ++ units " bytes".

(** The length: nothing yet, an error, or the length and the place behind it. *)
Inductive LengthResult := LengthIncomplete | LengthError | LengthOK (length64 : Z) (p : nat).
Definition parseLength (data : list Z) (secondByte : Z) (p : nat) : option LengthResult :=
  let length64 := Z.land secondByte payloadLengthMask in
  if maxPayloadLengthWithoutExtendedLengthField <? length64 then
    extended ← (if length64 =? payloadLengthWithTwoByteExtendedLengthField then Some 2%nat
                else _ ← ASSERT (length64 =? payloadLengthWithEightByteExtendedLengthField); Some 8%nat);
    if (length data - p <? extended)%nat then Some LengthIncomplete
    else
      length64 ← readLength extended data p 0;
      if (extended =? 2)%nat && (length64 <=? maxPayloadLengthWithoutExtendedLengthField) then Some LengthError
      else if (extended =? 8)%nat && (length64 <=? 0xFFFF) then Some LengthError
      else Some (LengthOK length64 (p + extended))
  else Some (LengthOK length64 p).

Section Platform.
(** numeric_limits<size_t>::max() *)
Context (sizeMax : Z).

Definition parseFrame (data : list Z) : option ParseFrameResult :=
  if (length data <? 2)%nat then Some FrameIncomplete
  else
    firstByte ← data !! 0%nat;
    secondByte ← data !! 1%nat;
    let masked := bit secondByte maskBit in
    len ← parseLength data secondByte 2;
    match len with
    | LengthIncomplete => Some FrameIncomplete
    | LengthError => Some (FrameError notMinimal)
    | LengthOK length64 p =>
        let maskingKeyLength := if masked then maskingKeyWidthInBytes else 0%nat in
        if (maxPayloadLength <? length64) || (sizeMax <? u64 (length64 + Z.of_nat maskingKeyLength)) then Some (FrameError (tooLarge length64))
        else if Z.of_nat (length data - p) <? Z.of_nat maskingKeyLength + length64 then Some FrameIncomplete
        else
          let payloadLength := Z.to_nat length64 in
          let start := (p + maskingKeyLength)%nat in
          data ← (if masked then
                    unmasked ← maskLoop (take maskingKeyWidthInBytes (drop p data)) 0 (take payloadLength (drop start data));
                    Some (take start data ++ unmasked ++ drop (start + payloadLength) data)
                  else Some data);
          Some (FrameOK data
                  (mkFrame (Z.land firstByte opCodeMask) (bit firstByte finalBit) (bit firstByte compressBit) (bit firstByte reserved2Bit) (bit firstByte reserved3Bit) masked (drop start data) length64)
                  (start + payloadLength))
    end.
End Platform.

(** random is what cryptographicallyRandomValues gives. *)
Definition appendFramePayload (frame : WebSocketFrame) (random frameData : list Z) : option (list Z) :=
  _ ← ASSERT (payloadLength frame <=? Z.of_nat (length (payload frame)));
  let bytes := take (Z.to_nat (payloadLength frame)) (payload frame) in
  if masked frame then masked ← maskLoop random 0 bytes; Some (frameData ++ random ++ masked)
  else Some (frameData ++ bytes).

(** The loop over extendedPayloadLength, from its end, and what remains. *)
Fixpoint writeLength (n : nat) (remaining : Z) (extended : list Z) : list Z * Z :=
  match n with O => (extended, remaining) | S n' => writeLength n' (Z.shiftr remaining 8) (Z.land remaining 0xFF :: extended) end.

Definition makeFrameData (frame : WebSocketFrame) (random : list Z) : option (list Z) :=
  _ ← ASSERT (Z.land (opCode frame) (Z.lnot opCodeMask) =? 0);
  let firstByte := Z.lor (Z.lor (if final frame then finalBit else 0) (if compress frame then compressBit else 0)) (opCode frame) in
  let secondByte := if masked frame then maskBit else 0 in
  let n := payloadLength frame in
  header ← (if n <=? maxPayloadLengthWithoutExtendedLengthField then Some [firstByte; Z.lor secondByte n]
            else if n <=? 0xFFFF then Some [firstByte; Z.lor secondByte payloadLengthWithTwoByteExtendedLengthField; Z.shiftr (Z.land n 0xFF00) 8; Z.land n 0xFF]
            else
              let '(extended, remaining) := writeLength 8 n [] in
              _ ← ASSERT (remaining =? 0);
              Some ([firstByte; Z.lor secondByte payloadLengthWithEightByteExtendedLengthField] ++ extended));
  appendFramePayload frame random header.

(** ** Lengths in network byte order *)

Definition networkValue (cs : list Z) : Z := foldl (fun a c => a * 256 + c) 0 cs.
Fixpoint networkBytes (n : nat) (v : Z) : list Z := match n with O => [] | S n' => networkBytes n' (v / 256) ++ [v mod 256] end.

Lemma networkBytes_length n v : length (networkBytes n v) = n.
Proof. revert v; induction n as [|n IH]; intros v; simpl; [done|]. rewrite length_app, IH. simpl. lia. Qed.
Lemma networkBytes_bytes n v : Forall isByte (networkBytes n v).
Proof. revert v; induction n as [|n IH]; intros v; simpl; [done|]. rewrite list.Forall_app. split; [done|]. constructor; [|done]. pose proof (Z.mod_pos_bound v 256). red. lia. Qed.

Lemma networkValue_bytes n v : 0 <= v -> networkValue (networkBytes n v) = v mod 256 ^ Z.of_nat n.
Proof.
  revert v; induction n as [|n IH]; intros v Hv; simpl networkBytes.
  - by rewrite Z.mod_1_r.
  - unfold networkValue in *. rewrite foldl_app, IH by (apply Z.div_pos; lia). simpl.
    rewrite Nat2Z.inj_succ, Z.pow_succ_r, (Z.rem_mul_r v 256) by lia. lia.
Qed.

Lemma networkValue_snoc cs c : networkValue (cs ++ [c]) = networkValue cs * 256 + c.
Proof. unfold networkValue. by rewrite foldl_app. Qed.

Lemma networkValue_range cs : Forall isByte cs -> 0 <= networkValue cs < 256 ^ Z.of_nat (length cs).
Proof.
  induction cs as [|c cs IH] using rev_ind; [unfold networkValue; simpl; lia|].
  rewrite list.Forall_app, Forall_singleton, networkValue_snoc, length_app. intros [Hcs Hc]. specialize (IH Hcs). red in Hc. simpl.
  rewrite Nat2Z.inj_add, Z.pow_add_r by lia. change (256 ^ Z.of_nat 1) with 256. lia.
Qed.

Lemma networkBytes_value cs : Forall isByte cs -> networkBytes (length cs) (networkValue cs) = cs.
Proof.
  induction cs as [|c cs IH] using rev_ind; [done|].
  rewrite list.Forall_app, Forall_singleton, networkValue_snoc, length_app, Nat.add_1_r. intros [Hcs Hc]. red in Hc. simpl.
  rewrite Z.div_add_l, (Z.div_small c), Z.add_0_r, IH, (Z.add_comm _ c), Z.mod_add, Z.mod_small by (done || lia). done.
Qed.

Lemma writeLength_ok n v ext : 0 <= v -> writeLength n v ext = (networkBytes n v ++ ext, v / 256 ^ Z.of_nat n).
Proof.
  revert v ext; induction n as [|n IH]; intros v ext Hv; simpl writeLength.
  - by rewrite Z.div_1_r.
  - rewrite Z.shiftr_div_pow2, IH by (try apply Z.div_pos; lia). simpl networkBytes. rewrite <- app_assoc.
    change (Z.land v 255) with (Z.land v (Z.ones 8)). rewrite Z.land_ones by lia. change (2 ^ 8) with 256.
    rewrite Z.div_div, Nat2Z.inj_succ, Z.pow_succ_r by lia. done.
Qed.

Lemma readLength_ok cs : forall pre rest acc, Forall isByte cs -> 0 <= acc -> (acc + 1) * 256 ^ Z.of_nat (length cs) <= 2 ^ 64 ->
  readLength (length cs) (pre ++ cs ++ rest) (length pre) acc = Some (foldl (fun a c => a * 256 + c) acc cs).
Proof.
  induction cs as [|c cs IH]; intros pre rest acc Hcs Ha Hb; [done|].
  apply list.Forall_cons in Hcs as [Hc Hcs]. red in Hc. simpl length in *. rewrite Nat2Z.inj_succ, Z.pow_succ_r in Hb by lia.
  assert (0 < 256 ^ Z.of_nat (length cs)) by (apply Z.pow_pos_nonneg; lia).
  cbn [readLength app]. rewrite lookup_app_r, Nat.sub_diag by lia. simpl.
  rewrite (Z.shiftl_mul_pow2 acc 8) by lia. unfold u64. rewrite Z.mod_small by nia. rewrite lor_low by lia. change (2 ^ 8) with 256.
  specialize (IH (pre ++ [c]) rest (acc * 256 + c)). rewrite <- app_assoc, length_app, Nat.add_1_r in IH. apply IH; [done|lia|nia].
Qed.

Lemma readLength_app n : forall data more p acc v, readLength n data p acc = Some v -> readLength n (data ++ more) p acc = Some v.
Proof.
  induction n as [|n IH]; intros data more p acc v; simpl; [done|].
  destruct (data !! p) as [c|] eqn:E; [|done]. rewrite (lookup_app_l_Some _ _ _ _ E). simpl. apply IH.
Qed.

(** ** The header *)

#[local] Arguments readLength : simpl never.
#[local] Arguments networkBytes : simpl never.

(** What the low bits of the second byte say of a length, and the field that follows. *)
Definition lengthCode (v : Z) : Z := if v <=? 125 then v else if v <=? 0xFFFF then 126 else 127.
Definition lengthField (v : Z) : list Z := if v <=? 125 then [] else if v <=? 0xFFFF then networkBytes 2 v else networkBytes 8 v.

Lemma readField (pre cs rest : list Z) : Forall isByte cs -> (length cs <= 8)%nat ->
  readLength (length cs) (pre ++ cs ++ rest) (length pre) 0 = Some (networkValue cs).
Proof.
  intros Hb Hl. apply readLength_ok; [done | lia |]. rewrite Z.mul_1_l. change (2 ^ 64) with (256 ^ 8). apply Z.pow_le_mono_r; lia.
Qed.

Lemma lengthCode_range v : 0 <= v -> 0 <= lengthCode v <= 127.
Proof. unfold lengthCode. repeat case_match; bool_to_prop; lia. Qed.

(** The case of a length that is in the second byte, that of two more bytes, that of eight. *)
Lemma length_cases v : 0 <= v ->
  (v <= 125 /\ lengthCode v = v /\ lengthField v = [])
  \/ (125 < v <= 0xFFFF /\ lengthCode v = 126 /\ lengthField v = networkBytes 2 v)
  \/ (0xFFFF < v /\ lengthCode v = 127 /\ lengthField v = networkBytes 8 v).
Proof. intros Hv. unfold lengthCode, lengthField. destruct (Z.leb_spec v 125); [naive_solver lia|]. destruct (Z.leb_spec v 0xFFFF); naive_solver lia. Qed.

Lemma parseLength_ok b0 b1 v rest : 0 <= v < 2 ^ 64 -> Z.land b1 payloadLengthMask = lengthCode v ->
  parseLength ([b0; b1] ++ lengthField v ++ rest) b1 2 = Some (LengthOK v (2 + length (lengthField v))).
Proof.
  intros Hv Hb. unfold parseLength. rewrite Hb.
  destruct (length_cases v) as [(H & -> & ->) | [(H & -> & ->) | (H & -> & ->)]]; [lia | | |].
  - destruct (Z.ltb_spec maxPayloadLengthWithoutExtendedLengthField v) as [L|L]; [unfold maxPayloadLengthWithoutExtendedLengthField in L; lia|]. done.
  - pose proof (networkBytes_length 2 v) as L. pose proof (readField [b0; b1] (networkBytes 2 v) rest (networkBytes_bytes _ _) ltac:(lia)) as R.
    rewrite networkValue_bytes, Z.mod_small, L in R by lia. cbn [length] in R. remember (networkBytes 2 v) as cs.
    simpl in R |- *. rewrite !length_app, L, (proj2 (Nat.ltb_ge _ _)), R by lia. simpl.
    rewrite (proj2 (Z.leb_gt v _)) by (unfold maxPayloadLengthWithoutExtendedLengthField; lia). done.
  - pose proof (networkBytes_length 8 v) as L. pose proof (readField [b0; b1] (networkBytes 8 v) rest (networkBytes_bytes _ _) ltac:(lia)) as R.
    rewrite networkValue_bytes, Z.mod_small, L in R by lia. cbn [length] in R. remember (networkBytes 8 v) as cs.
    simpl in R |- *. rewrite !length_app, L, (proj2 (Nat.ltb_ge _ _)), R by lia. simpl.
    rewrite (proj2 (Z.leb_gt v 0xFFFF)) by lia. done.
Qed.

(** The number of bytes of an extended length, and the largest number too small for it. *)
Inductive extension : Z -> nat -> Z -> Prop :=
  | extendedByTwo : extension 126 2 125
  | extendedByEight : extension 127 8 0xFFFF.

Lemma extension_code l n lo v : extension l n lo -> 0 <= v < 2 ^ 64 -> lengthCode v = l <-> lo < v < 256 ^ Z.of_nat n.
Proof. intros H Hv. unfold lengthCode. change (256 ^ Z.of_nat 2) with (2 ^ 16). destruct H; (destruct (Z.leb_spec v 125); [lia|]; destruct (Z.leb_spec v 0xFFFF)); simpl; lia. Qed.
Lemma extension_field l n lo v : extension l n lo -> lo < v < 256 ^ Z.of_nat n -> lengthField v = networkBytes n v.
Proof.
  intros H. unfold lengthField. destruct H; intros Hv.
  - change (256 ^ Z.of_nat 2) with (2 ^ 16) in Hv. rewrite (proj2 (Z.leb_gt v 125)), (proj2 (Z.leb_le v 0xFFFF)) by lia. done.
  - rewrite (proj2 (Z.leb_gt v 125)), (proj2 (Z.leb_gt v 0xFFFF)) by lia. done.
Qed.

Lemma parseLength_extended b0 b1 tl n lo : extension (Z.land b1 payloadLengthMask) n lo -> Forall isByte tl ->
  parseLength (b0 :: b1 :: tl) b1 2 =
  Some (if (length tl <? n)%nat then LengthIncomplete
        else let v := networkValue (take n tl) in if v <=? lo then LengthError else LengthOK v (2 + n)).
Proof.
  intros H Htl. unfold parseLength. set (l := Z.land b1 payloadLengthMask) in *. cbn [length]. rewrite Nat.sub_succ, Nat.sub_succ, Nat.sub_0_r.
  assert (Hread : (n <= length tl)%nat -> (n <= 8)%nat -> readLength n (b0 :: b1 :: tl) 2 0 = Some (networkValue (take n tl))).
  { intros Hn Hn8. pose proof (readField [b0; b1] (take n tl) (drop n tl)) as R. rewrite length_take, Nat.min_l in R by done. rewrite take_drop in R.
    apply R; [by apply Forall_take | done]. }
  destruct H; simpl.
  all: match goal with |- context [Nat.ltb ?m ?n] => destruct (Nat.ltb_spec m n) end; [done |].
  all: rewrite Hread by lia; cbn [mbind option_bind]; unfold maxPayloadLengthWithoutExtendedLengthField; by destruct (_ <=? _).
Qed.

Lemma parseLength_plain data b1 p : Z.land b1 payloadLengthMask <= 125 -> parseLength data b1 p = Some (LengthOK (Z.land b1 payloadLengthMask) p).
Proof. intros H. unfold parseLength, maxPayloadLengthWithoutExtendedLengthField. by rewrite (proj2 (Z.ltb_ge 125 _)). Qed.

(** The seven bits of the second byte. *)
Lemma code_cases b : let l := Z.land b payloadLengthMask in 0 <= l <= 125 \/ exists n lo, extension l n lo.
Proof.
  cbv zeta. assert (H : 0 <= Z.land b payloadLengthMask <= 127).
  { change payloadLengthMask with (Z.ones 7). rewrite Z.land_ones by lia. pose proof (Z.mod_pos_bound b (2 ^ 7) ltac:(lia)). lia. }
  destruct (Z.le_gt_cases (Z.land b payloadLengthMask) 125); [by left; lia | right].
  assert (Z.land b payloadLengthMask = 126 \/ Z.land b payloadLengthMask = 127) as [-> | ->] by lia; do 2 eexists; constructor.
Qed.

Lemma extension_size l n lo : extension l n lo -> (2 <= n <= 8)%nat /\ 125 <= lo < 256 ^ Z.of_nat n /\ 256 ^ Z.of_nat n <= 2 ^ 64.
Proof. intros []; split; [lia | by vm_compute | lia | by vm_compute]. Qed.

(** What parseLength gives for any bytes behind the first two. *)
Lemma parseLength_cases b0 b1 tl : Forall isByte tl ->
  exists r, parseLength (b0 :: b1 :: tl) b1 2 = Some r /\
    match r with
    | LengthOK v p => 0 <= v < 2 ^ 64 /\ Z.land b1 payloadLengthMask = lengthCode v /\ (exists tl', tl = lengthField v ++ tl') /\ p = (2 + length (lengthField v))%nat
    | LengthIncomplete => forall v, 0 <= v < 2 ^ 64 -> Z.land b1 payloadLengthMask = lengthCode v -> (length tl < length (lengthField v))%nat
    | LengthError => forall v tl' tl'', 0 <= v < 2 ^ 64 -> Z.land b1 payloadLengthMask = lengthCode v -> (length (lengthField v) <= length tl)%nat /\ tl ++ tl'' <> lengthField v ++ tl'
    end.
Proof.
  intros Htl. destruct (code_cases b1) as [H | (n & lo & H)].
  { rewrite parseLength_plain by lia. eexists. split; [done |]. set (l := Z.land b1 payloadLengthMask) in *. cbv iota beta. 
    destruct (length_cases l) as [(_ & -> & ->) | [[? _] | [? _]]]; [lia | | lia | lia]. split; [lia |]. split; [done |]. split; [by exists tl | done]. }
  rewrite (parseLength_extended b0 b1 tl n lo H Htl). eexists. split; [done |]. destruct (extension_size _ _ _ H) as (Hn & Hlo & Hmax).
  assert (Hcode : forall v, 0 <= v < 2 ^ 64 -> Z.land b1 payloadLengthMask = lengthCode v -> lo < v < 256 ^ Z.of_nat n /\ lengthField v = networkBytes n v).
  { intros v Hv E. symmetry in E. apply (extension_code _ n lo v H Hv) in E. split; [done |]. by apply (extension_field _ n lo v H). }
  destruct (Nat.ltb_spec (length tl) n) as [L | L].
  { intros v Hv E. destruct (Hcode v Hv E) as [_ ->]. by rewrite networkBytes_length. }
  assert (Ht : Forall isByte (take n tl)) by by apply Forall_take. assert (El : length (take n tl) = n) by (rewrite length_take; lia).
  pose proof (networkValue_range _ Ht) as Hr. rewrite El in Hr. cbv zeta. destruct (Z.leb_spec (networkValue (take n tl)) lo) as [G | G].
  - intros v tl' tl'' Hv E. destruct (Hcode v Hv E) as [Hv' ->]. rewrite networkBytes_length. split; [done |]. intros Etl. apply (f_equal (take n)) in Etl.
    rewrite take_app_le, take_app_le, (take_ge (networkBytes n v)) in Etl by (rewrite ?networkBytes_length; lia). rewrite Etl, networkValue_bytes, Z.mod_small in G by lia. lia.
  - set (v := networkValue (take n tl)) in *. assert (Hv : 0 <= v < 2 ^ 64) by lia. split; [done |]. 
    rewrite (extension_field _ n lo v H) by lia. split; [symmetry; apply (extension_code _ n lo v H Hv); lia |].
    pose proof (networkBytes_value _ Ht) as Eb. rewrite El in Eb. fold v in Eb. split; [exists (drop n tl); by rewrite Eb, take_drop | by rewrite networkBytes_length].
Qed.

Lemma lengthField_length v v' : 0 <= v -> 0 <= v' -> lengthCode v = lengthCode v' -> length (lengthField v) = length (lengthField v').
Proof.
  intros Hv Hv' Hc. destruct (length_cases v Hv) as [(? & E & Ev) | [(? & E & Ev) | (? & E & Ev)]], (length_cases v' Hv') as [(? & E' & Ev') | [(? & E' & Ev') | (? & E' & Ev')]]; try lia.
  all: rewrite Ev, Ev'; by rewrite ?networkBytes_length.
Qed.

(** ** Masking *)

Lemma maskLoop_ok (key s : list Z) (i : nat) : length key = 4%nat -> exists s', maskLoop key i s = Some s' /\ length s' = length s /\ maskLoop key i s' = Some s.
Proof.
  intros Hk. revert i; induction s as [|c s IH]; intros i; [by exists []|]. cbn [maskLoop].
  destruct (lookup_lt_is_Some_2 key (i mod maskingKeyWidthInBytes)) as [k Ek]; [rewrite Hk; apply Nat.mod_upper_bound; done |].
  destruct (IH (S i)) as (s' & E & El & E'). rewrite Ek. cbn [mbind option_bind]. rewrite E. cbn [mbind option_bind]. eexists. split; [done |]. cbn [length maskLoop]. split; [by rewrite El |].
  rewrite Ek. cbn [mbind option_bind]. rewrite E'. cbn [mbind option_bind]. by rewrite Z.lxor_assoc, Z.lxor_nilpotent, Z.lxor_0_r.
Qed.

(** ** The two directions *)

(** A payload as it is sent, and the key before it. *)
Definition sentAs (isMasked : bool) (key plain body : list Z) : Prop :=
  if isMasked then length key = 4%nat /\ maskLoop key 0 plain = Some body /\ maskLoop key 0 body = Some plain else key = [] /\ body = plain.

Lemma sentAs_plain (isMasked : bool) (key body : list Z) : length key = (if isMasked then 4 else 0)%nat -> exists plain, sentAs isMasked key plain body /\ length plain = length body.
Proof.
  destruct isMasked; intros Hk.
  - destruct (maskLoop_ok key body 0 Hk) as (plain & E & El & E'). by exists plain.
  - destruct key; [|done]. by exists body.
Qed.
Lemma sentAs_sent (isMasked : bool) (key plain : list Z) : length key = (if isMasked then 4 else 0)%nat -> exists body, sentAs isMasked key plain body /\ length body = length plain.
Proof.
  destruct isMasked; intros Hk.
  - destruct (maskLoop_ok key plain 0 Hk) as (body & E & El & E'). by exists body.
  - destruct key; [|done]. by exists plain.
Qed.

(** ** The first two bytes *)

Definition firstOf (f c : bool) (op : Z) : Z := Z.lor (Z.lor (if f then finalBit else 0) (if c then compressBit else 0)) op.
Definition secondOf (m : bool) (code : Z) : Z := Z.lor (if m then maskBit else 0) code.

Definition firstReads (f c : bool) (op : Z) : bool :=
  let b := firstOf f c op in
  (0 <=? b) && (b <? 256) && (Z.land b opCodeMask =? op) && Bool.eqb (bit b finalBit) f && Bool.eqb (bit b compressBit) c && negb (bit b reserved2Bit) && negb (bit b reserved3Bit).
Definition secondReads (m : bool) (code : Z) : bool :=
  let b := secondOf m code in (0 <=? b) && (b <? 256) && (Z.land b payloadLengthMask =? code) && Bool.eqb (bit b maskBit) m.

Lemma firstOf_read f c op : 0 <= op < 16 -> let b := firstOf f c op in
  isByte b /\ Z.land b opCodeMask = op /\ bit b finalBit = f /\ bit b compressBit = c /\ bit b reserved2Bit = false /\ bit b reserved3Bit = false.
Proof.
  intros Hop. assert (H : firstReads f c op = true) by (apply (below_forall (firstReads f c) 16); [destruct f, c; by vm_compute | exact Hop]). revert H. unfold firstReads. cbv zeta.
  rewrite !andb_true_iff, Z.leb_le, Z.ltb_lt, Z.eqb_eq, !negb_true_iff, !eqb_true_iff. unfold isByte. intuition lia.
Qed.
Lemma secondOf_read m code : 0 <= code <= 127 -> let b := secondOf m code in isByte b /\ Z.land b payloadLengthMask = code /\ bit b maskBit = m.
Proof.
  intros Hc. assert (H : secondReads m code = true) by (apply (below_forall (secondReads m) 128); [destruct m; by vm_compute | lia]). revert H. unfold secondReads. cbv zeta.
  rewrite !andb_true_iff, Z.leb_le, Z.ltb_lt, Z.eqb_eq, eqb_true_iff. unfold isByte. intuition lia.
Qed.

(** The first byte without the reserved bits, and the second, from what was read of them. *)
Lemma firstOf_byte b : isByte b -> firstOf (bit b finalBit) (bit b compressBit) (Z.land b opCodeMask) = Z.land b 0xCF.
Proof. intros Hb. apply Z.eqb_eq. apply (below_forall (fun b => firstOf (bit b finalBit) (bit b compressBit) (Z.land b opCodeMask) =? Z.land b 0xCF) 256); [by vm_compute | exact Hb]. Qed.
Lemma secondOf_byte b : isByte b -> secondOf (bit b maskBit) (Z.land b payloadLengthMask) = b.
Proof. intros Hb. apply Z.eqb_eq. apply (below_forall (fun b => secondOf (bit b maskBit) (Z.land b payloadLengthMask) =? b) 256); [by vm_compute | exact Hb]. Qed.
Lemma opCode_range b : 0 <= Z.land b opCodeMask < 16.
Proof. change opCodeMask with (Z.ones 4). rewrite Z.land_ones by lia. apply (Z.mod_pos_bound b (2 ^ 4)). lia. Qed.
Lemma opCode_fits op : 0 <= op < 16 -> (Z.land op (Z.lnot opCodeMask) =? 0) = true.
Proof. apply (below_forall (fun op => Z.land op (Z.lnot opCodeMask) =? 0) 16). by vm_compute. Qed.

(** What is written for a frame. *)
Lemma make_ok (f : WebSocketFrame) (random plain body rest : list Z) : 0 <= opCode f < 16 -> payloadLength f < 2 ^ 64 -> payload f = plain ++ rest -> Z.of_nat (length plain) = payloadLength f ->
  sentAs (masked f) (if masked f then random else []) plain body ->
  makeFrameData f random = Some ([firstOf (final f) (compress f) (opCode f); secondOf (masked f) (lengthCode (payloadLength f))] ++ lengthField (payloadLength f) ++ (if masked f then random else []) ++ body).
Proof.
  intros Ho Hv Hp Hl Hs. unfold makeFrameData. rewrite (opCode_fits _ Ho). cbn [ASSERT mbind option_bind]. fold (firstOf (final f) (compress f) (opCode f)).
  assert (Ha : forall h, appendFramePayload f random h = Some (h ++ (if masked f then random else []) ++ body)).
  { intros h. unfold appendFramePayload. rewrite Hp, length_app, (proj2 (Z.leb_le _ _)) by lia. cbn [ASSERT mbind option_bind]. rewrite <- Hl, Nat2Z.id, take_app_length.
    unfold sentAs in Hs. destruct (masked f); [destruct Hs as (_ & -> & _); done | by destruct Hs as [_ ->]]. }
  set (v := payloadLength f) in *. set (s2 := secondOf (masked f) (lengthCode v)).
  assert (Es : forall l, lengthCode v = l -> Z.lor (if masked f then maskBit else 0) l = s2) by (by intros l <-).
  unfold maxPayloadLengthWithoutExtendedLengthField. destruct (length_cases v) as [(H & E & F) | [(H & E & F) | (H & E & F)]]; [lia | | |]; rewrite F.
  - rewrite (proj2 (Z.leb_le v 125)) by lia. cbn [mbind option_bind]. by rewrite (Es v E), Ha.
  - rewrite (proj2 (Z.leb_gt v 125)), (proj2 (Z.leb_le v 0xFFFF)) by lia. cbn [mbind option_bind]. unfold payloadLengthWithTwoByteExtendedLengthField. rewrite (Es 126 E), Ha.
    assert (Eb : networkBytes 2 v = [Z.shiftr (Z.land v 0xFF00) 8; Z.land v 0xFF]); [| by rewrite Eb].
    unfold networkBytes. cbn [app]. rewrite Z.shiftr_land. change (Z.shiftr 0xFF00 8) with (Z.ones 8). change 0xFF with (Z.ones 8). rewrite !Z.land_ones, Z.shiftr_div_pow2 by lia. done.
  - rewrite (proj2 (Z.leb_gt v 125)), (proj2 (Z.leb_gt v 0xFFFF)) by lia. rewrite writeLength_ok, Z.div_small by lia. cbn [Z.eqb ASSERT mbind option_bind].
    unfold payloadLengthWithEightByteExtendedLengthField. by rewrite (Es 127 E), Ha, app_nil_r, <- app_assoc.
Qed.

Section Frames.
Context (sizeMax : Z).

Definition lengthFits (isMasked : bool) (v : Z) : Prop := 0 <= v <= maxPayloadLength /\ v + (if isMasked then 4 else 0) <= sizeMax.

Lemma length_test (v : Z) (isMasked : bool) : 0 <= v < 2 ^ 64 ->
  ((maxPayloadLength <? v) || (sizeMax <? u64 (v + Z.of_nat (if isMasked then maskingKeyWidthInBytes else 0%nat)))) = false <-> lengthFits isMasked v.
Proof.
  intros Hv. rewrite orb_false_iff, !Z.ltb_ge. unfold lengthFits, maxPayloadLength, u64.
  replace (Z.of_nat (if isMasked then maskingKeyWidthInBytes else 0%nat)) with (if isMasked then 4 else 0) by by destruct isMasked.
  assert (v <= 0x7FFFFFFFFFFFFFFF -> (v + (if isMasked then 4 else 0)) mod 2 ^ 64 = v + (if isMasked then 4 else 0)) by (intros; apply Z.mod_small; destruct isMasked; lia). lia.
Qed.

Lemma parse_body (b0 b1 v : Z) (key plain body rest : list Z) : lengthFits (bit b1 maskBit) v -> Z.land b1 payloadLengthMask = lengthCode v -> sentAs (bit b1 maskBit) key plain body -> Z.of_nat (length body) = v -> length plain = length body ->
  parseFrame sizeMax ([b0; b1] ++ lengthField v ++ key ++ body ++ rest) =
  Some (FrameOK ([b0; b1] ++ lengthField v ++ key ++ plain ++ rest)
    (mkFrame (Z.land b0 opCodeMask) (bit b0 finalBit) (bit b0 compressBit) (bit b0 reserved2Bit) (bit b0 reserved3Bit) (bit b1 maskBit) (plain ++ rest) v)
    (length ([b0; b1] ++ lengthField v ++ key ++ body))).
Proof.
  intros Hf Hc Hs Hl Hp. assert (Hv : 0 <= v < 2 ^ 64) by (unfold lengthFits, maxPayloadLength in Hf; lia).
  assert (Hk : length key = if bit b1 maskBit then maskingKeyWidthInBytes else 0%nat) by (unfold sentAs in Hs; destruct (bit b1 maskBit); [by destruct Hs | by destruct Hs as [-> _]]).
  pose proof (parseLength_ok b0 b1 v (key ++ body ++ rest) Hv Hc) as EL. unfold parseFrame. cbn [app] in EL |- *.
  rewrite (proj2 (Nat.ltb_ge _ 2)) by (cbn [length]; lia). cbn [lookup list_lookup mbind option_bind]. rewrite EL. cbn [mbind option_bind].
  rewrite (proj2 (length_test v _ Hv) Hf), <- Hk.
  set (pre := b0 :: b1 :: lengthField v). change (b0 :: b1 :: lengthField v ++ ?x) with (pre ++ x).
  change (2 + length (lengthField v))%nat with (length pre). rewrite drop_app_length.
  rewrite (length_app pre), (length_app key), (length_app body), (proj2 (Z.ltb_ge _ _)) by lia.
  replace (Z.to_nat v) with (length body) by lia.
  rewrite <- (length_app pre key), (app_assoc pre key (body ++ rest)), drop_app_length, take_app_length, take_app_length.
  assert (E : (if bit b1 maskBit then unmasked ← maskLoop (take maskingKeyWidthInBytes (key ++ body ++ rest)) 0 body; Some ((pre ++ key) ++ unmasked ++ drop (length (pre ++ key) + length body) ((pre ++ key) ++ body ++ rest)) else Some ((pre ++ key) ++ body ++ rest)) = Some ((pre ++ key) ++ plain ++ rest)).
  { unfold sentAs in Hs. destruct (bit b1 maskBit); [| by destruct Hs as [-> ->]]. destruct Hs as (Hk4 & _ & Em).
    change maskingKeyWidthInBytes with 4%nat. rewrite <- Hk4, take_app_length, Em. cbn [mbind option_bind]. by rewrite drop_app_add, drop_app_length. }
  rewrite E. cbn [mbind option_bind]. rewrite drop_app_length. f_equal. unfold pre. simpl. rewrite <- !app_assoc. f_equal. rewrite !length_app. lia.
Qed.
(** A frame that can be sent: no reserved bit, an operation code of four bits, a payload that
    is there and not too long, and four random bytes for the key. *)
Record sendable (f : WebSocketFrame) (random : list Z) : Prop := {
  s_opCode : 0 <= opCode f < 16;
  s_length : lengthFits (masked f) (payloadLength f);
  s_payload : payloadLength f <= Z.of_nat (length (payload f));
  s_random : length random = 4%nat }.

(** The frame as it is received, with what follows it in the buffer. *)
Definition received (f : WebSocketFrame) (rest : list Z) : WebSocketFrame :=
  mkFrame (opCode f) (final f) (compress f) false false (masked f) (take (Z.to_nat (payloadLength f)) (payload f) ++ rest) (payloadLength f).

Lemma made_shape (f : WebSocketFrame) (random : list Z) : sendable f random ->
  exists b0 b1 key body, makeFrameData f random = Some ([b0; b1] ++ lengthField (payloadLength f) ++ key ++ body) /\
    Z.land b1 payloadLengthMask = lengthCode (payloadLength f) /\ bit b1 maskBit = masked f /\ length key = (if masked f then 4 else 0)%nat /\ Z.of_nat (length body) = payloadLength f /\
    forall rest, exists data, parseFrame sizeMax (([b0; b1] ++ lengthField (payloadLength f) ++ key ++ body) ++ rest) =
      Some (FrameOK data (received f rest) (length ([b0; b1] ++ lengthField (payloadLength f) ++ key ++ body))).
Proof.
  intros [Ho Hl Hp Hr]. set (v := payloadLength f) in *. set (plain := take (Z.to_nat v) (payload f)). set (key := if masked f then random else []).
  assert (Hv : 0 <= v < 2 ^ 64) by (unfold lengthFits, maxPayloadLength in Hl; lia).
  assert (El : length plain = Z.to_nat v) by (unfold plain; rewrite length_take; lia).
  assert (Hk : length key = (if masked f then 4 else 0)%nat) by (unfold key; by destruct (masked f)).
  destruct (sentAs_sent (masked f) key plain Hk) as (body & Hs & Eb).
  destruct (firstOf_read (final f) (compress f) (opCode f) Ho) as (_ & R1 & R2 & R3 & R4 & R5). destruct (secondOf_read (masked f) (lengthCode v)) as (_ & S1 & S2); [apply lengthCode_range; lia |].
  exists (firstOf (final f) (compress f) (opCode f)), (secondOf (masked f) (lengthCode v)), key, body.
  split; [apply (make_ok f random plain body (drop (Z.to_nat v) (payload f))); [done | lia | unfold plain; by rewrite take_drop | fold v; lia | exact Hs] |].
  split; [done |]. split; [done |]. split; [done |]. split; [lia |]. intros rest. eexists. rewrite <- !app_assoc.
  rewrite (parse_body _ _ v key plain body rest); [| by rewrite S2 | done | by rewrite S2 | lia | lia].
  unfold received. fold v plain. by rewrite R1, R2, R3, R4, R5, S2.
Qed.

(** A frame that has not come in full is not there yet. *)
Lemma incomplete_ok b0 b1 v (key body : list Z) (n : nat) : lengthFits (bit b1 maskBit) v -> Z.land b1 payloadLengthMask = lengthCode v -> length key = (if bit b1 maskBit then 4 else 0)%nat -> Z.of_nat (length body) = v ->
  (n < length ([b0; b1] ++ lengthField v ++ key ++ body))%nat -> parseFrame sizeMax (take n ([b0; b1] ++ lengthField v ++ key ++ body)) = Some FrameIncomplete.
Proof.
  intros Hf Hc Hk Hl Hn. assert (Hv : 0 <= v < 2 ^ 64) by (unfold lengthFits, maxPayloadLength in Hf; lia).
  destruct n as [|[|n]]; [done | done |]. cbn [app take length] in *. rewrite !length_app in Hn. set (tl := take n (lengthField v ++ key ++ body)).
  unfold parseFrame. rewrite (proj2 (Nat.ltb_ge _ 2)) by (cbn [length]; lia). cbn [lookup list_lookup mbind option_bind].
  destruct (Nat.lt_ge_cases n (length (lengthField v))) as [L | L].
  - assert (Et : length tl = n) by (unfold tl; rewrite length_take, !length_app; lia).
    assert (Hb : Forall isByte tl).
    { unfold tl. rewrite take_app_le by lia. apply Forall_take. destruct (length_cases v) as [(_ & _ & ->) | [(_ & _ & ->) | (_ & _ & ->)]]; [lia | by apply list.Forall_nil | apply networkBytes_bytes ..]. }
    destruct (parseLength_cases b0 b1 tl Hb) as (r & -> & Hr). cbn [mbind option_bind]. destruct r as [| | v' p]; [done | |].
    + destruct (Hr v [] [] Hv Hc) as [Hge _]. lia.
    + exfalso. destruct Hr as (Hv' & Hc' & (tl' & Etl) & _). pose proof (lengthField_length v' v ltac:(lia) ltac:(lia) ltac:(congruence)).
      apply (f_equal length) in Etl. rewrite length_app in Etl. lia.
  - assert (Etl : tl = lengthField v ++ take (n - length (lengthField v)) (key ++ body)) by (unfold tl; by rewrite take_app_ge).
    pose proof (parseLength_ok b0 b1 v (take (n - length (lengthField v)) (key ++ body)) Hv Hc) as EL. cbn [app] in EL. rewrite <- Etl in EL. rewrite EL. cbn [mbind option_bind].
    rewrite (proj2 (length_test v _ Hv) Hf). rewrite (proj2 (Z.ltb_lt _ _)); [done |].
    rewrite Etl. cbn [length]. rewrite !length_app, length_take, length_app. destruct (bit b1 maskBit); unfold maskingKeyWidthInBytes; lia.
Qed.

Definition clearReserved (bytes : list Z) : list Z := match bytes with b :: bytes' => Z.land b 0xCF :: bytes' | [] => [] end.

(** On any bytes the parser returns; what it takes for a frame is what is sent for this frame. *)
Lemma parse_returns (data : list Z) : Forall isByte data -> exists r, parseFrame sizeMax data = Some r /\
  match r with
  | FrameOK data' f frameEnd =>
      exists key, sendable f key /\ makeFrameData f key = Some (clearReserved (take frameEnd data)) /\ (frameEnd <= length data)%nat /\
      length data' = length data /\ payload f = drop (frameEnd - Z.to_nat (payloadLength f)) data' /\ drop frameEnd data' = drop frameEnd data
  | _ => True
  end.
Proof.
  intros Hd. destruct data as [| b0 [| b1 tl]]; [by eexists | by eexists |]. apply list.Forall_cons in Hd as [H0 Hd]. apply list.Forall_cons in Hd as [H1 Htl].
  destruct (parseLength_cases b0 b1 tl Htl) as (r & Er & Hr).
  set (keyLength := if bit b1 maskBit then maskingKeyWidthInBytes else 0%nat).
  assert (EP : parseFrame sizeMax (b0 :: b1 :: tl) = match r with
    | LengthIncomplete => Some FrameIncomplete
    | LengthError => Some (FrameError notMinimal)
    | LengthOK v p => if (maxPayloadLength <? v) || (sizeMax <? u64 (v + Z.of_nat keyLength)) then Some (FrameError (tooLarge v))
        else if Z.of_nat (length (b0 :: b1 :: tl) - p) <? Z.of_nat keyLength + v then Some FrameIncomplete else parseFrame sizeMax (b0 :: b1 :: tl) end).
  { unfold parseFrame at 1. rewrite (proj2 (Nat.ltb_ge _ 2)) by (cbn [length]; lia). cbn [lookup list_lookup mbind option_bind]. rewrite Er. cbn [mbind option_bind].
    destruct r as [| | v p]; [done | done |]. fold keyLength. destruct (_ || _) eqn:E1; [done |]. destruct (Z.of_nat (length (b0 :: b1 :: tl) - p) <? Z.of_nat keyLength + v) eqn:E2; [done |].
    unfold parseFrame. rewrite (proj2 (Nat.ltb_ge _ 2)) by (cbn [length]; lia). cbn [lookup list_lookup mbind option_bind]. rewrite Er. cbn [mbind option_bind]. fold keyLength. by rewrite E1, E2. }
  rewrite EP. destruct r as [| | v p]; [by eexists | by eexists |]. destruct Hr as (Hv & Hc & (tl' & Etl) & Ep).
  destruct (_ || _) eqn:Ef; [by eexists |]. apply (length_test v _ Hv) in Ef. destruct (_ <? _) eqn:Es; [by eexists |]. apply Z.ltb_ge in Es. clear EP.
  assert (Hlen : (keyLength + Z.to_nat v <= length tl')%nat) by (subst p tl; cbn [length] in Es; rewrite length_app in Es; lia).
  set (key := take keyLength tl'). set (body := take (Z.to_nat v) (drop keyLength tl')). set (rest := drop (Z.to_nat v) (drop keyLength tl')).
  assert (Ek : length key = (if bit b1 maskBit then 4 else 0)%nat) by (unfold key; rewrite length_take; unfold keyLength in *; destruct (bit b1 maskBit); unfold maskingKeyWidthInBytes in *; lia).
  assert (Eb : length body = Z.to_nat v) by (unfold body; rewrite length_take, length_drop; lia).
  assert (Etl' : tl' = key ++ body ++ rest) by (unfold key, body, rest; by rewrite !take_drop).
  destruct (sentAs_plain (bit b1 maskBit) key body Ek) as (plain & Hs & Epl).
  assert (Ed : b0 :: b1 :: tl = [b0; b1] ++ lengthField v ++ key ++ body ++ rest) by (rewrite Etl, Etl'; done).
  rewrite Ed, (parse_body b0 b1 v key plain body rest) by (done || lia). eexists. split; [done |].
  set (random := if bit b1 maskBit then key else [0; 0; 0; 0]). assert (Ekey : key = if bit b1 maskBit then random else []) by (unfold random; destruct (bit b1 maskBit); [done | by destruct key]).
  set (bytes := [b0; b1] ++ lengthField v ++ key ++ body). assert (Ew : [b0; b1] ++ lengthField v ++ key ++ body ++ rest = bytes ++ rest) by (unfold bytes; by rewrite <- !app_assoc).
  rewrite Ew, take_app_length, drop_app_length.
  assert (Eh : [b0; b1] ++ lengthField v ++ key ++ plain ++ rest = ([b0; b1] ++ lengthField v ++ key) ++ plain ++ rest) by by rewrite <- !app_assoc.
  assert (Lb : length bytes = (length ([b0; b1] ++ lengthField v ++ key) + length plain)%nat) by (unfold bytes; rewrite !length_app; lia).
  exists random. split; [| split; [| split; [rewrite length_app; lia | split; [rewrite Eh, !length_app in *; lia | split]]]].
  - split; cbn [opCode masked payloadLength payload]; [apply opCode_range | exact Ef | rewrite length_app; lia | unfold random; by destruct (bit b1 maskBit)].
  - rewrite (make_ok _ random plain body rest); cbn [opCode masked payloadLength payload final compress]; [| apply opCode_range | lia | done | lia | by rewrite <- Ekey].
    rewrite <- Ekey, <- Hc, firstOf_byte, secondOf_byte by done. done.
  - cbn [payload payloadLength]. rewrite Eh, Lb. replace (_ - _)%nat with (length ([b0; b1] ++ lengthField v ++ key)) by lia. by rewrite drop_app_length.
  - by rewrite Eh, app_assoc, Lb, <- length_app, drop_app_length.
Qed.
Lemma made_frame (f : WebSocketFrame) (random : list Z) : sendable f random -> exists bytes, makeFrameData f random = Some bytes /\
  (forall rest, exists data, parseFrame sizeMax (bytes ++ rest) = Some (FrameOK data (received f rest) (length bytes))) /\
  (forall n, (n < length bytes)%nat -> parseFrame sizeMax (take n bytes) = Some FrameIncomplete).
Proof.
  intros Hs. destruct (made_shape f random Hs) as (b0 & b1 & key & body & E & Hc & Hm & Hk & Hl & Hp). eexists. split; [exact E |]. split; [exact Hp |].
  intros n Hn. destruct Hs as [_ Hf _ _]. rewrite <- Hm in Hf, Hk. by apply incomplete_ok.
Qed.

(** C40: The parser of frames takes for frames what the sender writes, and nothing else.  What
    makeFrameData writes of a frame, with any random bytes for its key, is read by parseFrame
    as this frame, whatever follows it in the buffer, and any part of it from the front is
    reported incomplete.  On any bytes parseFrame fails no assertion and reads nothing
    outside of the buffer; when it gives a frame, this frame with some key is written as the
    bytes up to the end it gives, but for the two reserved bits, and only these bytes of the
    buffer may have changed; when it reports them incomplete no whole frame is at their
    front; and when it reports an error no frame begins like them. *)
Theorem frame_codec :
  (forall f random, sendable f random -> exists bytes, makeFrameData f random = Some bytes /\
     (forall rest, exists data, parseFrame sizeMax (bytes ++ rest) = Some (FrameOK data (received f rest) (length bytes))) /\
     (forall n, (n < length bytes)%nat -> parseFrame sizeMax (take n bytes) = Some FrameIncomplete)) /\
  (forall data, Forall isByte data -> exists r, parseFrame sizeMax data = Some r /\
     match r with
     | FrameOK data' f frameEnd =>
         exists key, sendable f key /\ makeFrameData f key = Some (clearReserved (take frameEnd data)) /\ (frameEnd <= length data)%nat /\
         length data' = length data /\ payload f = drop (frameEnd - Z.to_nat (payloadLength f)) data' /\ drop frameEnd data' = drop frameEnd data
     | FrameIncomplete => forall f random bytes, sendable f random -> makeFrameData f random = Some bytes -> ~ bytes `prefix_of` data
     | FrameError _ => forall f random bytes, sendable f random -> makeFrameData f random = Some bytes -> ~ bytes `prefix_of` data /\ ~ data `prefix_of` bytes
     end).
Proof.
  split; [apply made_frame |]. intros data Hd. destruct (parse_returns data Hd) as (r & E & Hr). exists r. split; [done |].
  assert (Hwhole : forall f random bytes, sendable f random -> makeFrameData f random = Some bytes -> bytes `prefix_of` data -> exists d g e, r = FrameOK d g e).
  { intros f random bytes Hs Em [rest ->]. destruct (made_frame f random Hs) as (bytes' & Em' & Hp & _). rewrite Em in Em'. injection Em' as <-. destruct (Hp rest) as [d Ep]. rewrite E in Ep. injection Ep as ->. by do 3 eexists. }
  destruct r as [| | msg]; [done | |].
  - intros f random bytes Hs Em Hpre. by destruct (Hwhole f random bytes Hs Em Hpre) as (? & ? & ? & ?).
  - intros f random bytes Hs Em. split; [intros Hpre; by destruct (Hwhole f random bytes Hs Em Hpre) as (? & ? & ? & ?) |]. intros [rest ->].
    destruct (made_frame f random Hs) as (bytes' & Em' & Hp & Hi). rewrite Em in Em'. injection Em' as <-. destruct rest as [| c rest].
    + rewrite app_nil_r in *. destruct (Hp []) as [d Ep]. rewrite app_nil_r, E in Ep. done.
    + specialize (Hi (length data) ltac:(rewrite length_app; cbn [length]; lia)). rewrite take_app_length, E in Hi. done.
Qed.
End Frames.

(** The masked text message of RFC 6455. *)
Definition hello : WebSocketFrame := newFrame OpCodeText true false true (units "Hello") 5.
Definition helloBytes : list Z := [0x81; 0x85; 0x37; 0xfa; 0x21; 0x3d; 0x7f; 0x9f; 0x4d; 0x51; 0x58].

Lemma frame_codec_witness : makeFrameData hello [0x37; 0xfa; 0x21; 0x3d] = Some helloBytes /\
  (exists data, parseFrame (2 ^ 64 - 1) (helloBytes ++ [0x8a; 0]) = Some (FrameOK data (received hello [0x8a; 0]) 11)) /\ parseFrame (2 ^ 64 - 1) (take 7 helloBytes) = Some FrameIncomplete.
Proof.
  destruct (proj1 (frame_codec (2 ^ 64 - 1)) hello [0x37; 0xfa; 0x21; 0x3d]) as (bytes & E & Hp & Hi).
  { split; [by vm_compute | split; [by vm_compute | by vm_compute] | by vm_compute | done]. }
  assert (E' : makeFrameData hello [0x37; 0xfa; 0x21; 0x3d] = Some helloBytes) by (vm_compute; reflexivity).
  rewrite E' in E. injection E as <-. split; [exact E' |]. split; [exact (Hp [0x8a; 0]) | apply Hi; vm_compute; lia].
Defined.

Example frame_errors :
  parseFrame (2 ^ 64 - 1) [0x81; 126; 0; 125] = Some (FrameError notMinimal) /\
  parseFrame (2 ^ 64 - 1) [0x81; 127; 0x80; 0; 0; 0; 0; 0; 0; 0] = Some (FrameError (units "WebSocket frame length too large: 9223372036854775808 bytes")).
Proof. split; by vm_compute. Qed.
